(* ===== verification/_CoqProject ===== *)
-Q . S2P
Prelude.v
Bytes.v
Strings.v
ModuleSign.v
RBTree.v
RBTreeRep.v
RBTreeInv.v
RBTreeErase.v
RBTreeSpec.v
Buddy.v
BuddyLists.v
BuddyInv.v
BuddyOps.v
BuddySpec.v
BuddyInit.v
BuddyThms.v
Slab.v
SlabInv.v
SlabThms.v
Pipe.v
PipeSys.v
Files.v
Capability.v
FilesThms.v
TcpCong.v
PidAlloc.v
Task.v
RunQueue.v
RunQueueInv.v
RunQueueSpec.v
Sched.v
SchedInv.v
SchedThms.v
SchedLife.v
SchedLifeThms.v
Signal.v
SignalThms.v
PageTable.v
PageTableInv.v
PageTableOps.v
PageTableThms.v
Aslr.v
BlockDev.v
Ext2.v
Ext2Thms.v
Fat32.v
Fat32Thms.v
Fsck.v
Inflate.v
Squashfs.v
Journal.v
JournalInv.v
JournalThms.v
JournalCrash.v
Chains.v
Ramfs.v
RamfsInv.v
RamfsThms.v
Vfs.v
VfsInv.v
VfsWalk.v
VfsThms.v
NetBase.v
Inet.v
Tcp.v
Ipv6.v
NetPoll.v
Dns.v
Dhcp.v
Http.v
NetLib.v
NetInv.v
Ipv6Thms.v
NetSafe.v
NetRecv.v
TcpThms.v
NetLoop.v
TcpLoop.v
ClientThms.v
NetThms.v
