(* ===== verification/Prelude.v ===== *)
(** * Aurora OS: a verification of the kernel's core data structures

    Aurora is a hobby x86-64 kernel in C: [src/kernel/main.c] brings up memory
    management, the scheduler, the file systems, the network and a shell, and
    user programs reach it through the dispatch of [syscall.c].  This library is
    a shallow embedding of the parts on which everything else stands, one file
    or group of files per component, with the theorems that make each correct.

    ** Reading the model

    C code that changes state is a program of the monad [ST S A] of this file:
    a function from a store to [Some (result, store)], or to [None] when the run
    has no meaning in C (a null or dangling dereference, an index out of range,
    a lock taken twice, [panic]) or when a loop exhausts its fuel.  A theorem
    that a run is [Some] therefore states memory safety and termination
    together.  Integers are [Z] with the wrap of their C type written out ([u32],
    [u64], [i32], ...).  Objects that are linked through pointers live in finite
    maps from addresses to records, and keep the links of the source; abstract
    values (trees, sequences, maps) appear only in specifications.  What the
    sources call without defining here (the answers of [kmalloc], the contents
    of new memory, user pages, CR2/CR3) is an argument or an oracle of the
    definitions.  Spinlocks and the masking of interrupts make a call one atomic
    step; where the source releases a lock in the middle, the model is an
    interleaving of the critical sections.

    ** Parts, files and how they correspond

    - Red-black tree ([rbtree.c]): [RBTree] is the code over a heap of nodes;
      [RBTreeRep] relates the heap to trees seen through a cursor; [RBTreeInv],
      [RBTreeErase] treat insertion and deletion with their fix-up loops;
      [RBTreeSpec] refines an ordered queue and gives the refinement theorems.
    - Physical pages ([mem.c], buddy part): [Buddy] is the code over the
      descriptor array and its free lists; [BuddyLists] abstracts the lists;
      [BuddyInv], [BuddyOps], [BuddySpec] prove the ownership invariant for
      every operation and [BuddyLists] that reference counts are left alone;
      [BuddyInit] models boot-time detection and set-up;
      [BuddyThms] holds the properties.
    - Kernel objects ([mem.c], slab part): [Slab] is the code of the object
      caches over the page allocator's state; [SlabInv] the invariant that ties
      free objects to their pages; [SlabThms] the contract of [kmalloc] and
      [kfree], and the interleaving of two CPUs.
    - Pipes ([pipe.c]): [Pipe] has the ring and the critical sections,
      [PipeSys] the interleaving of a reader and a writer as a step relation.
    - Descriptors, capabilities and filters ([file.c], [capability.c],
      [seccomp.c]): [Files], [Capability], [FilesThms].
    - TCP congestion control ([net/tcp_cong.c]): [TcpCong].
    - Scheduling ([sched.c], [pit_handler.c]): [PidAlloc] is the PID bitmap;
      [Task] the data; [RunQueue] the queue operations over the interface
      [ReadyTree], whose instance is the red-black tree ([RunQueueSpec]);
      [RunQueueInv] and [RunQueueSpec] also prove the invariant over all CPUs; [Sched] the
      choice of the next task and the life cycle, [SchedInv], [SchedThms],
      [SchedLife], [SchedLifeThms] their properties.
    - Signals ([signal.c]): [Signal] over user memory, [SignalThms].
    - Page tables ([pagetable.c]): [PageTable] works on the words of the page
      allocator's RAM and calls [Buddy] for pages; [PageTableInv] reads the
      tables as a tree, [PageTableOps], [PageTableThms] hold
      the properties of walks, mappings and faults.
    - Block devices and the journal ([block_dev.c], [ramdisk.c], [journal.c]):
      [BlockDev] has the class [BlockDevice] with its laws [BlockLaws] and the
      RAM disk as instance; [Journal] is the write-ahead journal over any
      device, [JournalInv], [JournalThms], [JournalCrash] its
      specification as a transactional disk and its crash states.
    - The ext2 file system ([ext2.c], [ext2.h]): [Ext2] is mounting, inodes,
      indirect blocks, bitmaps, files and directories over any block device,
      structures being their bytes; [Ext2Thms] reads and writes files, allocates,
      looks names up and places entries, with a small disk as the instance.
    - Its consistency checker ([fsck.c], [fsck.h]): [Fsck] is the check of the
      superblock, descriptors, bitmaps and the root directory, with what a run
      finds, and the restoration of the superblock.
    - The FAT32 file system ([fat32.c], [include/fat32.h]): [Fat32] is names and
      their entries, the FAT and its cache, chains, files, directories and
      mounting over any block device; [Fat32Thms] treats chains as lists and
      files as the bytes of their clusters, with a small disk as the instance.
    - SquashFS with its decompressor ([squashfs.c], [squashfs.h]): [Inflate]
      decodes deflate streams, with bits as lists in its specification; [Squashfs]
      mounts, reads metadata blocks, inodes, listings and files of any block device
      and looks names up.
    - File systems ([ramfs.c], [vfs.c]): [Ramfs], [RamfsInv], [RamfsThms] refine
      a tree of directories and byte arrays; [Vfs] is the dentry cache over the
      class [FileSystem] with laws [FsLaws], of which ramfs is an instance;
      [VfsInv], [VfsWalk], [VfsThms] prove path resolution.
    - Network ([net/*.c], [netdev.c], [include/net.h]): [NetBase] is the state
      (socket table, ARP and neighbour caches, loopback rings) and the class
      [NetDriver] of device drivers, with laws [NetDriverLaws] in [NetInv];
      [Inet] builds Ethernet, ARP and IPv4 frames, [Ipv6] is IPv6 with
      neighbour discovery, [Tcp] the connection table and its state machine,
      [NetPoll] the receive path; [Dns], [Dhcp], [Http] are the clients.
      [NetLib] reasons about runs, slices and checksums; [NetInv] is the type
      invariant and what sending keeps; [NetSafe], [NetRecv] treat input,
      [TcpThms] the calls, [NetLoop], [TcpLoop] frames over the loopback device
      up to whole connections, [Ipv6Thms], [ClientThms] addresses and clients;
      [NetThms] holds the properties.
    - Strings ([string.c]): [Strings] works on a memory of bytes, by words where
      the code does, gives lists as specification, and [snprintf].
    - Module signatures ([module_sign.c]): [ModuleSign] has the code, the standard's
      SHA-256 in its module [Fips], their equality and the check of a signature.
    - Address-space randomisation and the canary ([aslr.c], [stack_protect.c]):
      [Aslr], against the page tables' bound of user addresses.
    - Shared: this file; [Bytes] (little-endian words, arrays with bounds, slices
      of buffers); [Chains] (named lists).

    The composition follows the calls: the scheduler uses the tree through
    [ReadyTree], page tables run on the allocator's own state, signals and the
    timer on the scheduler's, the journal, ext2, its checker, FAT32 and SquashFS
    on [BlockDevice], the last of them on the decompressor too, the VFS on
    [FileSystem], the network on [NetDriver] and, for each connection, on
    [TcpCong].

    ** What the theorems show

    Refinements: the tree is an ordered queue, [ramfs] a tree of byte arrays,
    the journal a transactional disk, [map_page] an update of the translation, TCP input a
    transition of an abstract connection table.
    Invariants and safety: page ownership and disjoint allocations, object
    caches, reference counts of open files, capabilities that never gain
    rights, run queues across CPUs, widths and bounds of congestion control, the types
    of every field of the network stack under any sequence of calls and frames.
    Functional contracts: allocation and freeing, [schedule], [exit],
    [waitpid], task creation, faults, path lookup, ext2 files and directories, chains and files of FAT32,
    the listings and files of SquashFS, the errors the checker counts, C strings; the decompressor decodes every
    canonical Huffman code, and returns for any input without leaving its
    buffers.  Equivalence: SHA-256 with the standard's.  Round trips: allocate/free,
    signal frame/sigreturn, write/read, commit/recover, frames over the loopback
    device, IPv6 addresses as text, DNS questions.  Liveness: the TCP handshake
    completes and a transfer delivers its bytes.  Failures, as theorems about
    reachable states: a reader sleeps for ever, the dentry cache spins, a crash
    tears a transaction, two CPUs are given one object, TCP slots run out and a
    segment is delivered twice, DNS and DHCP cannot receive an answer, an ext2
    file is not found after it was made and neither are long names on FAT32, a
    deflate block with fixed codes is always refused, a bad superblock is never
    restored and the checker spins on an empty entry, the random generator overruns its callers' buffers.

    ** Fuel

    Every bounded loop has fuel that its termination lemma shows to be enough:
    tree walks take the height bound of the instance (64); the buddy lists
    [list_fuel = BUDDY_MAX_PAGES + 1] and a coalescing pass [pass_fuel], twelve
    times that; orders 11 or 12 steps; a ring walk the length of the queue; the
    signals 31; [user_pages_mapped] and [map_range] one step per page and two or
    three to spare; the journal's scan [head - tail + 1] and its eviction
    [head + 2]; dentry lists the size of the heap and one, a path its length and
    one; the walk of an object cache is bounded by the objects it holds.  In
    the network stack a device list takes its size and one, a DNS name and a
    DHCP option scan the length of the packet and one, a checksum four folds;
    the mutual recursion of neighbour discovery has the depth of the kernel
    stack as an argument ([NetThms.ndp_recursion]).  String scans take their fuel as an argument, and the
    theorems say that the length of the string suffices.  An ext2 read takes the
    count and one, a write the length and one, the scan of a block its size and
    one, a lookup [lookup_fuel], three times the directory's size and three.
    The decompressor's loop over blocks takes eight times the size of the input
    and one, a compressed block the size of the output and one, the code lengths
    their number and one; the two of SquashFS that follow the disk take [F] or the
    length of the listing and one, a read its count and one.
    The checker's loop over a directory takes 13, its turns the size of a block and
    one.  Walks along a FAT32 chain take [F], and the number of clusters suffices for a
    chain that ends.

    ** Not modelled

    Drivers, interrupt entry, boot code and user programs are hardware access or
    assembly; the shell, the self tests and the log only print.  The manifest
    lists every such part with its reason.  Left out inside the modelled parts:
    log messages, performance counters, TLB flushes and the SMAP instructions. *)

From Stdlib Require Export ZArith Lia.
From stdpp Require Export sorting base numbers gmap list.

Local Open Scope Z_scope.

(** * Machine integers

    A C integer of [w] bits is a [Z]; every operation that can leave the range
    applies the wrap-around of its C type explicitly. *)
Definition u8 (x : Z) : Z := x mod 2 ^ 8.
Definition u16 (x : Z) : Z := x mod 2 ^ 16.
Definition u32 (x : Z) : Z := x mod 2 ^ 32.
Definition u64 (x : Z) : Z := x mod 2 ^ 64.
Definition i32 (x : Z) : Z := (x + 2 ^ 31) mod 2 ^ 32 - 2 ^ 31.
Definition i64 (x : Z) : Z := (x + 2 ^ 63) mod 2 ^ 64 - 2 ^ 63.

(** * The state-and-failure monad

    [ST S A] is C code over a mutable store [S]: [None] is a run that has no
    meaning in C (a null or dangling dereference) or that runs out of fuel, so
    a theorem that a run is [Some] covers memory safety and termination. *)
Definition ST (S A : Type) : Type := S → option (A * S).

Definition ret {S A} (a : A) : ST S A := λ s, Some (a, s).
Definition bind {S A B} (m : ST S A) (k : A → ST S B) : ST S B :=
  λ s, match m s with Some (a, s') => k a s' | None => None end.
Definition fail {S A} : ST S A := λ _, None.
Definition get {S} : ST S S := λ s, Some (s, s).
Definition put {S} (s : S) : ST S unit := λ _, Some (tt, s).

Definition gets {S A} (f : S → A) : ST S A := λ s, Some (f s, s).
Definition modify {S} (f : S → S) : ST S unit := λ s, Some (tt, f s).

Declare Scope kernel_scope.
Delimit Scope kernel_scope with kernel.
Notation "x <- m ;; k" := (bind m (λ x, k))
  (at level 100, m at next level, right associativity) : kernel_scope.
Notation "m ;;; k" := (bind m (λ _, k))
  (at level 100, right associativity) : kernel_scope.

(** [for (i = i; i < i + n; ++i) body(i)]. *)
Fixpoint for_range {S} (n : nat) (i : Z) (body : Z → ST S unit) : ST S unit :=
  match n with
  | O => ret tt
  | Datatypes.S n => bind (body i) (λ _, for_range n (i + 1) body)
  end.

(** [for_range] with an invariant indexed by the loop counter. *)
Lemma for_range_ind {S} (body : Z → ST S unit) (I : Z → S → Prop) n i s :
  I i s →
  (∀ j s, i ≤ j < i + Z.of_nat n → I j s → ∃ s', body j s = Some (tt, s') ∧ I (j + 1) s') →
  ∃ s', for_range n i body s = Some (tt, s') ∧ I (i + Z.of_nat n) s'.
Proof.
  revert i s. induction n as [|n IH]; intros i s Hi Hstep; simpl for_range.
  - exists s. rewrite Z.add_0_r. done.
  - destruct (Hstep i s) as (s1 & R1 & H1); [lia|done|].
    destruct (IH (i + 1) s1 H1) as (s2 & R2 & H2); [intros; apply Hstep; [lia|done]|].
    exists s2. unfold bind. rewrite R1. replace (i + Z.of_nat (Datatypes.S n)) with (i + 1 + Z.of_nat n) by lia.
    done.
Qed.

Lemma bind_Some {S A B} (m : ST S A) (k : A → ST S B) s a s' :
  m s = Some (a, s') → bind m k s = k a s'.
Proof. unfold bind. by intros ->. Qed.

(** Execute the next statement of a goal about [bind m k s]. *)
Ltac run H :=
  match type of H with
  | _ = Some (_, _) => rewrite (bind_Some _ _ _ _ _ H)
  end.

Lemma bind_modify {S B} (f : S → S) (k : unit → ST S B) s : bind (modify f) k s = k tt (f s).
Proof. done. Qed.
Lemma bind_gets {S A B} (f : S → A) (k : A → ST S B) s : bind (gets f) k s = k (f s) s.
Proof. done. Qed.
Lemma bind_ret_l {S A B} (a : A) (k : A → ST S B) s : bind (ret a) k s = k a s.
Proof. done. Qed.

(** Loops of the source: one [step] either continues with a new loop state or
    leaves the loop with a result. *)
Fixpoint loop {A R : Type} (step : A → A + R) (fuel : nat) (a : A) : option R :=
  match fuel with
  | O => None
  | S n => match step a with inr r => Some r | inl a' => loop step n a' end
  end.

(** The total-correctness rule: an invariant and a decreasing measure. *)
Lemma loop_total {A R} (step : A → A + R) (I : A → Prop) (Q : R → Prop) (mu : A → nat) :
  (∀ a, I a → match step a with
              | inl a' => I a' ∧ (mu a' < mu a)%nat
              | inr r => Q r
              end) →
  ∀ fuel a, I a → (mu a < fuel)%nat → ∃ r, loop step fuel a = Some r ∧ Q r.
Proof.
  intros Hstep. induction fuel as [|n IH]; intros a HI Hlt; [lia|].
  simpl. specialize (Hstep a HI). destruct (step a) as [a'|r]; [|eauto].
  destruct Hstep as [HI' Hmu]. apply IH; [done|lia].
Qed.

(** Extra fuel never changes the outcome of a finished loop. *)
Lemma loop_mono {A R} (step : A → A + R) n m a r :
  loop step n a = Some r → (n ≤ m)%nat → loop step m a = Some r.
Proof.
  revert m a. induction n as [|n IH]; intros m a Hl Hle; [done|].
  destruct m as [|m]; [lia|]. simpl in *.
  destruct (step a); [|done]. apply IH; [done|lia].
Qed.

(** ** Total correctness: the run ends, without a bad access, in [Q]. *)
Definition wp {S A} (m : ST S A) (Q : A → S → Prop) (s : S) : Prop := ∃ a s', m s = Some (a, s') ∧ Q a s'.

Section wp.
Context {S : Type}.
Implicit Types s : S.

Lemma wp_ret {A} (a : A) Q s : Q a s → wp (ret a) Q s.
Proof. intros H. by exists a, s. Qed.
Lemma wp_bind {A B} (m : ST S A) (k : A → ST S B) Q s : wp m (λ a s', wp (k a) Q s') s → wp (bind m k) Q s.
Proof. intros (a & s1 & R & b & s2 & R2 & HQ). exists b, s2. by rewrite (bind_Some _ _ _ _ _ R). Qed.
Lemma wp_mono {A} (m : ST S A) (Q Q' : A → S → Prop) s : wp m Q s → (∀ a s', Q a s' → Q' a s') → wp m Q' s.
Proof. intros (a & s1 & R & HQ) Hm. exists a, s1. auto. Qed.
Lemma wp_get Q s : Q s s → wp get Q s.
Proof. intros H. by exists s, s. Qed.
Lemma wp_gets {A} (f : S → A) Q s : Q (f s) s → wp (gets f) Q s.
Proof. intros H. by exists (f s), s. Qed.
Lemma wp_put s' (Q : unit → S → Prop) s : Q tt s' → wp (put s') Q s.
Proof. intros H. by exists tt, s'. Qed.
Lemma wp_modify (f : S → S) (Q : unit → S → Prop) s : Q tt (f s) → wp (modify f) Q s.
Proof. intros H. by exists tt, (f s). Qed.
(** What a run that is known to be total gives. *)
Lemma wp_run {A} (m : ST S A) Q s a s' : wp m Q s → m s = Some (a, s') → Q a s'.
Proof. intros (b & s1 & R & HQ) E. rewrite E in R. by injection R as -> ->. Qed.
End wp.

(** ** Widths *)
Lemma u32_bound x : 0 ≤ u32 x < 2 ^ 32.
Proof. apply Z.mod_pos_bound. lia. Qed.
Lemma u32_small x : 0 ≤ x < 2 ^ 32 → u32 x = x.
Proof. intros. unfold u32. apply Z.mod_small. lia. Qed.
Lemma u64_bound x : 0 ≤ u64 x < 2 ^ 64.
Proof. apply Z.mod_pos_bound. lia. Qed.
Lemma u64_small x : 0 ≤ x < 2 ^ 64 → u64 x = x.
Proof. intros. unfold u64. apply Z.mod_small. lia. Qed.
Lemma lor_add a b k : 0 ≤ k → 0 ≤ b < 2 ^ k → Z.lor (a * 2 ^ k) b = a * 2 ^ k + b.
Proof.
  intros Hk Hb. rewrite <- Z.add_lor_land. replace (Z.land _ _) with 0; [lia|]. symmetry. apply Z.bits_inj'. intros i Hi.
  rewrite Z.land_spec, Z.bits_0. destruct (Z.ltb_spec i k).
  - by rewrite Z.mul_pow2_bits_low.
  - rewrite <- (Z.mod_small b (2 ^ k)), (Z.mod_pow2_bits_high b k i) by lia. apply andb_false_r.
Qed.
(** The bits of a [w]-bit number. *)
Lemma width_bits w x : 0 ≤ w → (0 ≤ x < 2 ^ w ↔ ∀ i, w ≤ i → Z.testbit x i = false).
Proof.
  intros Hw. split.
  - intros Hx i Hi. rewrite <- (Z.mod_small x (2 ^ w)) by done. by apply Z.mod_pow2_bits_high.
  - intros H. assert (x mod 2 ^ w = x) as <-; [|apply Z.mod_pos_bound; lia]. apply Z.bits_inj'. intros i Hi.
    destruct (Z.ltb_spec i w); [by apply Z.mod_pow2_bits_low|]. by rewrite Z.mod_pow2_bits_high, H by lia.
Qed.
Lemma lxor_bound w a b : 0 ≤ w → 0 ≤ a < 2 ^ w → 0 ≤ b < 2 ^ w → 0 ≤ Z.lxor a b < 2 ^ w.
Proof.
  intros Hw Ha Hb. apply width_bits; [done|]. intros i Hi. rewrite Z.lxor_spec.
  by rewrite (proj1 (width_bits w a Hw) Ha), (proj1 (width_bits w b Hw) Hb).
Qed.
Lemma lor_bound w a b : 0 ≤ w → 0 ≤ a < 2 ^ w → 0 ≤ b < 2 ^ w → 0 ≤ Z.lor a b < 2 ^ w.
Proof.
  intros Hw Ha Hb. apply width_bits; [done|]. intros i Hi. rewrite Z.lor_spec.
  by rewrite (proj1 (width_bits w a Hw) Ha), (proj1 (width_bits w b Hw) Hb).
Qed.
Lemma lxor_u32 a b : 0 ≤ a < 2 ^ 32 → 0 ≤ b < 2 ^ 32 → 0 ≤ Z.lxor a b < 2 ^ 32.
Proof. by apply lxor_bound. Qed.

Lemma NoDup_app_cons {A} (l k : list A) x :
  NoDup (l ++ x :: k) ↔ x ∉ l ∧ x ∉ k ∧ NoDup (l ++ k).
Proof.
  rewrite <- Permutation_middle, NoDup_cons, not_elem_of_app. tauto.
Qed.

Lemma filter_all {A} (P : A → Prop) `{!∀ x, Decision (P x)} (l : list A) :
  (∀ x, x ∈ l → P x) → filter P l = l.
Proof.
  induction l as [|x l IH]; intros Hall; [done|].
  rewrite filter_cons_True by (apply Hall; left). f_equal. apply IH. intros y Hy. apply Hall. by right.
Qed.

Lemma filter_none {A} (P : A → Prop) `{!∀ x, Decision (P x)} (l : list A) :
  (∀ x, x ∈ l → ¬ P x) → filter P l = [].
Proof.
  intros Hn. destruct (filter P l) as [|x k] eqn:E; [done|].
  assert (x ∈ filter P l) as [HP Hx]%list_elem_of_filter by (rewrite E; left). by destruct (Hn x Hx).
Qed.

(** A decidable proposition on concrete data, by evaluation. *)
Ltac decided := apply (bool_decide_unpack _); vm_compute; exact I.
