(* ===== verification/Bytes.v ===== *)
(** * Bytes: little-endian words and byte-addressed memory. *)
From S2P Require Import Prelude.
Local Open Scope Z_scope.

(** Little-endian bytes of the low [n] bytes of [v]. *)
Fixpoint le_bytes (n : nat) (v : Z) : list Z :=
  match n with O => [] | S n => v mod 256 :: le_bytes n (v / 256) end.
Fixpoint le_value (bs : list Z) : Z := match bs with [] => 0 | b :: bs => b + 256 * le_value bs end.

Fixpoint store (m : gmap Z Z) (a : Z) (bs : list Z) : gmap Z Z :=
  match bs with [] => m | b :: bs => store (<[a := b]> m) (a + 1) bs end.
Fixpoint load (m : gmap Z Z) (a : Z) (n : nat) : list Z :=
  match n with O => [] | S n => default 0 (m !! a) :: load m (a + 1) n end.

Definition st64 (m : gmap Z Z) (a v : Z) : gmap Z Z := store m a (le_bytes 8 v).
Definition ld64 (m : gmap Z Z) (a : Z) : Z := le_value (load m a 8).
(** Consecutive 64-bit words. *)
Fixpoint st_words (m : gmap Z Z) (a : Z) (vs : list Z) : gmap Z Z :=
  match vs with [] => m | v :: vs => st_words (st64 m a v) (a + 8) vs end.
Fixpoint ld_words (m : gmap Z Z) (a : Z) (n : nat) : list Z :=
  match n with O => [] | S n => ld64 m a :: ld_words m (a + 8) n end.

(** ** Words *)
Definition is_byte (b : Z) : Prop := 0 <= b < 256.
Definition is_u64 (v : Z) : Prop := 0 <= v < 2 ^ 64.
#[export] Instance is_byte_dec b : Decision (is_byte b) := _.
#[export] Instance is_u64_dec v : Decision (is_u64 v) := _.

Lemma length_le_bytes n v : length (le_bytes n v) = n.
Proof. revert v. induction n as [|n IH]; intros v; [done|]. cbn [le_bytes length]. by rewrite IH. Qed.
Lemma le_bytes_byte n v : Forall is_byte (le_bytes n v).
Proof.
  revert v. induction n as [|n IH]; intros v; [done|]. constructor; [|apply IH]. apply Z.mod_pos_bound. lia.
Qed.
Lemma le_value_bytes n v : 0 ≤ v < 256 ^ Z.of_nat n → le_value (le_bytes n v) = v.
Proof.
  revert v. induction n as [|n IH]; intros v Hv; [cbn in *; lia|]. cbn [le_bytes le_value].
  rewrite Nat2Z.inj_succ, Z.pow_succ_r in Hv by lia. rewrite IH.
  - pose proof (Z.div_mod v 256 ltac:(lia)). lia.
  - split; [apply Z.div_pos; lia|]. apply Z.div_lt_upper_bound; lia.
Qed.
Lemma le_bytes_value bs : Forall is_byte bs → le_bytes (length bs) (le_value bs) = bs.
Proof.
  unfold is_byte. induction 1 as [|b bs Hb _ IH]; [done|]. cbn [length le_bytes le_value].
  rewrite (Z.mul_comm 256), Z.mod_add, Z.mod_small, Z.div_add, Z.div_small, Z.add_0_l, IH by lia. done.
Qed.

Definition bytes (l : list Z) : Prop := Forall is_byte l.
#[export] Instance bytes_dec l : Decision (bytes l) := _.
Create HintDb bytes.

Lemma bytes_app a b : bytes a → bytes b → bytes (a ++ b).
Proof. intros. by apply Forall_app. Qed.
Lemma bytes_cons x l : is_byte x → bytes l → bytes (x :: l).
Proof. by constructor. Qed.
Lemma bytes_nil : bytes [].
Proof. constructor. Qed.
Lemma bytes_take n l : bytes l → bytes (take n l).
Proof. apply Forall_take. Qed.
Lemma bytes_drop n l : bytes l → bytes (drop n l).
Proof. apply Forall_drop. Qed.
Lemma bytes_replicate n x : is_byte x → bytes (replicate n x).
Proof. apply Forall_replicate. Qed.
Lemma bytes_le n v : bytes (le_bytes n v).
Proof. apply le_bytes_byte. Qed.
Lemma is_byte_u8 v : is_byte (u8 v).
Proof. unfold is_byte, u8. apply Z.mod_pos_bound. lia. Qed.
#[export] Hint Resolve bytes_app bytes_cons bytes_nil bytes_take bytes_drop bytes_replicate bytes_le is_byte_u8 : bytes.
#[export] Hint Extern 1 (is_byte (Z.pos _)) => (unfold is_byte; lia) : bytes.
#[export] Hint Extern 1 (is_byte 0) => (unfold is_byte; lia) : bytes.

(** ** Slices *)
Definition zlen (l : list Z) : Z := Z.of_nat (length l).
(** [n] bytes at offset [off]. *)
Definition slice (l : list Z) (off n : Z) : option (list Z) :=
  if (0 <=? off) && (0 <=? n) && (off + n <=? zlen l) then Some (take (Z.to_nat n) (drop (Z.to_nat off) l)) else None.
(** memcpy into a buffer: nothing outside it may be written. *)
Definition patch (data : list Z) (o : Z) (bs : list Z) : option (list Z) :=
  if (0 <=? o) && (o + Z.of_nat (length bs) <=? Z.of_nat (length data))
  then Some (take (Z.to_nat o) data ++ bs ++ drop (Z.to_nat o + length bs) data) else None.

Lemma zlen_app a b : zlen (a ++ b) = zlen a + zlen b.
Proof. unfold zlen. rewrite length_app. lia. Qed.
Lemma zlen_cons x l : zlen (x :: l) = 1 + zlen l.
Proof. unfold zlen. simpl. lia. Qed.
Lemma zlen_nil : zlen [] = 0.
Proof. done. Qed.
Lemma zlen_nonneg l : 0 ≤ zlen l.
Proof. unfold zlen. lia. Qed.
Lemma zlen_replicate n x : zlen (replicate n x) = Z.of_nat n.
Proof. unfold zlen. by rewrite length_replicate. Qed.
Lemma zlen_le n v : zlen (le_bytes n v) = Z.of_nat n.
Proof. unfold zlen. by rewrite length_le_bytes. Qed.
Lemma zlen_take n l : 0 ≤ n ≤ zlen l → zlen (take (Z.to_nat n) l) = n.
Proof. unfold zlen. intros. rewrite length_take. lia. Qed.
Lemma zlen_drop n l : 0 ≤ n ≤ zlen l → zlen (drop (Z.to_nat n) l) = zlen l - n.
Proof. unfold zlen. intros. rewrite length_drop. lia. Qed.
#[export] Hint Rewrite zlen_app zlen_cons zlen_nil zlen_replicate zlen_le : zlen.

Lemma slice_Some l off n : 0 ≤ off → 0 ≤ n → off + n ≤ zlen l →
  slice l off n = Some (take (Z.to_nat n) (drop (Z.to_nat off) l)).
Proof.
  intros. unfold slice. destruct (Z.leb_spec 0 off); [|lia]. destruct (Z.leb_spec 0 n); [|lia].
  by destruct (Z.leb_spec (off + n) (zlen l)); [|lia].
Qed.
Lemma slice_inv l off n b : slice l off n = Some b → 0 ≤ off ∧ 0 ≤ n ∧ off + n ≤ zlen l.
Proof.
  unfold slice. destruct (Z.leb_spec 0 off); [|done]. destruct (Z.leb_spec 0 n); [|done].
  destruct (Z.leb_spec (off + n) (zlen l)); [done|done].
Qed.
Lemma slice_props l off n b : slice l off n = Some b → zlen b = n ∧ (bytes l → bytes b).
Proof.
  intros E. pose proof (slice_inv _ _ _ _ E) as (H1 & H2 & H3). rewrite slice_Some in E by done.
  injection E as <-. split; [|auto with bytes]. unfold zlen in *. rewrite length_take, length_drop. lia.
Qed.
Lemma slice_all l : slice l 0 (zlen l) = Some l.
Proof. rewrite slice_Some by (pose proof (zlen_nonneg l); lia). unfold zlen. by rewrite Nat2Z.id, drop_0, firstn_all. Qed.
(** A slice of a concatenation. *)
Lemma slice_app a b c off n : zlen a = off → zlen b = n → slice (a ++ b ++ c) off n = Some b.
Proof.
  intros <- <-. pose proof (zlen_nonneg c). pose proof (zlen_nonneg b). pose proof (zlen_nonneg a).
  rewrite slice_Some by (rewrite ?zlen_app; lia). unfold zlen. rewrite !Nat2Z.id, drop_app_length, take_app_length. done.
Qed.
Lemma slice_app_end a b off n : zlen a = off → zlen b = n → slice (a ++ b) off n = Some b.
Proof. intros. rewrite <- (app_nil_r b) at 1. by apply slice_app. Qed.
Lemma le_value_bound bs : bytes bs → 0 ≤ le_value bs < 256 ^ zlen bs.
Proof.
  induction 1 as [|b bs Hb _ IH]; [done|]. unfold is_byte in Hb. rewrite zlen_cons, Z.pow_add_r by (pose proof (zlen_nonneg bs); lia).
  cbn [le_value]. change (256 ^ 1) with 256. lia.
Qed.
Lemma patch_fits data o bs :
  0 ≤ o → o + Z.of_nat (length bs) ≤ Z.of_nat (length data) →
  patch data o bs = Some (take (Z.to_nat o) data ++ bs ++ drop (Z.to_nat o + length bs) data).
Proof. intros H1 H2. unfold patch. by rewrite !(proj2 (Z.leb_le _ _)) by lia. Qed.

(** Slices byte by byte. *)
(** ** Slices of blocks *)
Lemma take_drop_nth (l : list Z) o n : (o + n ≤ length l)%nat → take n (drop o l) = map (λ i, nth (o + i) l 0) (seq 0 n).
Proof.
  revert o. induction n as [|n IH]; intros o H; [done|]. destruct (lookup_lt_is_Some_2 l o) as [x E]; [lia|].
  rewrite (drop_S _ _ _ E). cbn [take seq map]. rewrite Nat.add_0_r, (nth_lookup_Some _ _ _ _ E). f_equal.
  rewrite IH by lia. rewrite <- seq_shift, map_map. apply map_ext. intros i. f_equal. lia.
Qed.
Lemma map_seqZ_app (f : Z → Z) a n k : 0 ≤ n → 0 ≤ k → map f (seqZ a (n + k)) = map f (seqZ a n) ++ map f (seqZ (a + n) k).
Proof. intros. by rewrite seqZ_app, map_app by lia. Qed.
Lemma slice_map l o c x : 0 ≤ o → 0 ≤ c → o + c ≤ zlen l → slice l o c = Some (map (λ y, nth (Z.to_nat (o + (y - x))) l 0) (seqZ x c)).
Proof.
  intros Ho Hc Hl. rewrite slice_Some by done. f_equal. unfold zlen in Hl. rewrite take_drop_nth by lia. unfold seqZ.
  rewrite map_map. apply map_ext. intros i. f_equal. lia.
Qed.
(** ** Members of structures *)
Lemma nth_overlay (l w : list Z) o i : (o + length w ≤ length l)%nat →
  nth i (take o l ++ w ++ drop (o + length w) l) 0 = if decide (o ≤ i < o + length w)%nat then nth (i - o) w 0 else nth i l 0.
Proof.
  intros Hl. assert (length (take o l) = o) as Ht by (rewrite length_take; lia). rewrite !nth_lookup, lookup_app, Ht.
  destruct (decide (o ≤ i < o + length w)%nat) as [Hi|Hi]; [|destruct (decide (i < o)%nat)].
  - rewrite lookup_take_ge by lia. by rewrite lookup_app_l by lia.
  - rewrite lookup_take_lt by lia. destruct (lookup_lt_is_Some_2 l i) as [x ->]; [lia|done].
  - rewrite lookup_take_ge, lookup_app_r, lookup_drop by lia. do 2 f_equal. lia.
Qed.
Lemma length_overlay (l w : list Z) o : (o + length w ≤ length l)%nat → length (take o l ++ w ++ drop (o + length w) l) = length l.
Proof. intros Hl. rewrite !length_app, length_take, length_drop. lia. Qed.
Lemma patch_run l o w : 0 ≤ o → o + zlen w ≤ zlen l →
  ∃ l', patch l o w = Some l' ∧ length l' = length l ∧
    ∀ i, 0 ≤ i → nth (Z.to_nat i) l' 0 = if decide (o ≤ i < o + zlen w) then nth (Z.to_nat (i - o)) w 0 else nth (Z.to_nat i) l 0.
Proof.
  unfold zlen. intros Ho Hl. rewrite patch_fits by lia. eexists. split; [done|]. split; [apply length_overlay; lia|].
  intros i Hi. rewrite nth_overlay by lia. case_decide; case_decide; first [done | lia | f_equal; lia].
Qed.
(** ** Placing an entry *)
Definition agree (o n : Z) (l l' : list Z) : Prop := ∀ i, o ≤ i < o + n → nth (Z.to_nat i) l' 0 = nth (Z.to_nat i) l 0.
Lemma agree_sub o n o' n' l l' : agree o n l l' → o ≤ o' → o' + n' ≤ o + n → agree o' n' l l'.
Proof. intros A H1 H2 i Hi. apply A. lia. Qed.
Lemma agree_take l l' o n : length l' = length l → agree o n l l' → 0 ≤ o → 0 ≤ n → o + n ≤ zlen l →
  take (Z.to_nat n) (drop (Z.to_nat o) l') = take (Z.to_nat n) (drop (Z.to_nat o) l).
Proof.
  unfold zlen. intros Hl A Ho Hn Hb. rewrite !take_drop_nth by lia. apply map_ext_in. intros i Hi%in_seq.
  specialize (A (o + Z.of_nat i) ltac:(lia)). by replace (Z.to_nat (o + Z.of_nat i)) with (Z.to_nat o + i)%nat in A by lia.
Qed.
Lemma patch_agree l o w l' : 0 ≤ o → o + zlen w ≤ zlen l → patch l o w = Some l' → length l' = length l ∧
  (∀ o' n', 0 ≤ o' → o' + n' ≤ o ∨ o + zlen w ≤ o' → agree o' n' l l') ∧ take (length w) (drop (Z.to_nat o) l') = w.
Proof.
  intros Ho Hb E. destruct (patch_run l o w Ho Hb) as (l2 & E2 & L & Hn). assert (l2 = l') as -> by congruence. split; [done|].
  split; [intros o' n' Ho' Hd i Hi; rewrite Hn by lia; rewrite decide_False by lia; done|].
  rewrite patch_fits in E by (unfold zlen in *; lia). injection E as <-. rewrite drop_app_length' by (unfold zlen in *; rewrite length_take; lia).
  by apply take_app_length'.
Qed.

(** ** Members of structures *)
(** A little-endian member of [n] bytes at offset [o]. *)
Definition field_at (b : list Z) (o n : Z) : option Z := w ← slice b o n; Some (le_value w).
Definition set_field (b : list Z) (o : Z) (n : nat) (v : Z) : option (list Z) := patch b o (le_bytes n v).
Lemma field_at_ok l o n : 0 ≤ o → 0 ≤ n → o + n ≤ zlen l → field_at l o n = Some (le_value (take (Z.to_nat n) (drop (Z.to_nat o) l))).
Proof. intros. unfold field_at. by rewrite slice_Some. Qed.
(** A member of [n] bytes is set; the members apart from it stay. *)
Lemma set_field_run raw o n v : 0 ≤ o → o + Z.of_nat n ≤ zlen raw → 0 ≤ v < 256 ^ Z.of_nat n →
  ∃ raw', set_field raw o n v = Some raw' ∧ length raw' = length raw ∧ le_value (take n (drop (Z.to_nat o) raw')) = v ∧
    ∀ (o' n' : nat), (o' + n' ≤ length raw)%nat → Z.of_nat (o' + n') ≤ o ∨ o + Z.of_nat n ≤ Z.of_nat o' →
      take n' (drop o' raw') = take n' (drop o' raw).
Proof.
  intros Ho Hl Hv. unfold set_field. assert (zlen (le_bytes n v) = Z.of_nat n) as Hz by apply zlen_le. unfold zlen in Hl, Hz.
  rewrite patch_fits by lia. rewrite length_le_bytes. eexists. split; [done|]. split; [|split].
  - rewrite !length_app, length_take, length_drop, length_le_bytes. lia.
  - rewrite drop_app_length' by (rewrite length_take; lia). rewrite take_app_length' by by rewrite length_le_bytes. by apply le_value_bytes.
  - intros o' n' Hn Hd. assert (length (le_bytes n v) = n) as Hln by apply length_le_bytes.
    rewrite <- Hln at 2. rewrite !take_drop_nth; [|lia|rewrite length_overlay; lia]. apply map_ext_in. intros i Hi%in_seq.
    rewrite nth_overlay by lia. case_decide; [lia|done].
Qed.
Lemma agree_field l l' o n v : length l' = length l → agree o n l l' → 0 ≤ o → 0 ≤ n → field_at l o n = Some v → field_at l' o n = Some v.
Proof.
  intros Hl A Ho Hn E. assert (o + n ≤ zlen l) as Hb.
  { unfold field_at, slice in E. destruct ((0 <=? o) && (0 <=? n) && (o + n <=? zlen l)) eqn:C; [lia|done]. }
  rewrite field_at_ok in * by (unfold zlen in *; lia). by rewrite (agree_take l l').
Qed.
Lemma le_field l o n v w : 0 ≤ o → o + Z.of_nat n ≤ zlen l → 0 ≤ v < 256 ^ Z.of_nat n → take (n + length w) (drop (Z.to_nat o) l) = le_bytes n v ++ w →
  field_at l o (Z.of_nat n) = Some v.
Proof.
  intros Ho Hb Hv E. rewrite field_at_ok by lia. rewrite Nat2Z.id. f_equal.
  assert (take n (drop (Z.to_nat o) l) = le_bytes n v) as ->; [|by apply le_value_bytes].
  transitivity (take n (take (n + length w) (drop (Z.to_nat o) l))); [rewrite take_take; f_equal; lia|]. rewrite E.
  apply take_app_length'. by rewrite length_le_bytes.
Qed.

(** ** Memory *)
Lemma store_lookup_out m a bs x : x < a ∨ a + Z.of_nat (length bs) ≤ x → store m a bs !! x = m !! x.
Proof.
  revert m a. induction bs as [|b bs IH]; intros m a Hx; [done|]. cbn [store length] in *.
  rewrite IH by lia. apply lookup_insert_ne. lia.
Qed.
Lemma load_ext m m' a n : (∀ x, a ≤ x < a + Z.of_nat n → m !! x = m' !! x) → load m a n = load m' a n.
Proof.
  revert a. induction n as [|n IH]; intros a H; [done|]. cbn [load]. rewrite H by lia. f_equal. apply IH.
  intros x Hx. apply H. lia.
Qed.
Lemma length_load m a n : length (load m a n) = n.
Proof. revert a. induction n as [|n IH]; intros a; [done|]. cbn [load length]. by rewrite IH. Qed.
Lemma load_store m a bs : load (store m a bs) a (length bs) = bs.
Proof.
  revert m a. induction bs as [|b bs IH]; intros m a; [done|]. cbn [store load length].
  rewrite store_lookup_out by lia. by rewrite lookup_insert_eq, IH.
Qed.
Lemma store_app m a bs cs : store m a (bs ++ cs) = store (store m a bs) (a + Z.of_nat (length bs)) cs.
Proof.
  revert m a. induction bs as [|b bs IH]; intros m a; cbn [app store length]; [by rewrite Z.add_0_r|].
  rewrite IH. f_equal. lia.
Qed.
Lemma load_store_prefix m a bs cs : load (store m a (bs ++ cs)) a (length bs) = bs.
Proof.
  rewrite store_app. rewrite (load_ext _ (store m a bs)); [apply load_store|]. intros x Hx. apply store_lookup_out. lia.
Qed.
Lemma load_app m a n k : load m a (n + k) = load m a n ++ load m (a + Z.of_nat n) k.
Proof.
  revert a. induction n as [|n IH]; intros a; cbn [load Nat.add app]; [by rewrite Z.add_0_r|]. rewrite IH. do 3 f_equal. lia.
Qed.
Lemma take_drop_load m a n i k : (i + k ≤ n)%nat → take k (drop i (load m a n)) = load m (a + Z.of_nat i) k.
Proof.
  revert a n k. induction i as [|i IH]; intros a n k Hi.
  - rewrite drop_0, Z.add_0_r. revert a n Hi. induction k as [|k IH]; intros a n Hn; [done|]. destruct n as [|n]; [lia|]. cbn [load take]. f_equal. apply IH. lia.
  - destruct n as [|n]; [lia|]. cbn [load drop]. rewrite IH by lia. f_equal. lia.
Qed.
(** A memory of bytes. *)
Definition memory_ok (m : gmap Z Z) : Prop := ∀ x b, m !! x = Some b → is_byte b.
Lemma memory_ok_store m a bs : memory_ok m → bytes bs → memory_ok (store m a bs).
Proof.
  intros Hm Hb. revert m a Hm. induction Hb as [|b bs Hb _ IH]; intros m a Hm; [done|]. cbn [store]. apply IH.
  intros x v. destruct (decide (a = x)) as [->|]; [rewrite lookup_insert_eq; by intros [= <-]|rewrite lookup_insert_ne by done; apply Hm].
Qed.
Lemma load_bytes m a n : memory_ok m → bytes (load m a n).
Proof.
  intros Hm. revert a. induction n as [|n IH]; intros a; [constructor|]. cbn [load]. constructor; [|apply IH].
  destruct (m !! a) as [b|] eqn:E; [by apply (Hm a)|]. by unfold is_byte; simpl; lia.
Qed.

Lemma st64_out m a v x : x < a ∨ a + 8 ≤ x → st64 m a v !! x = m !! x.
Proof. intros Hx. apply store_lookup_out. by rewrite length_le_bytes. Qed.
Lemma ld64_ext m m' a : (∀ x, a ≤ x < a + 8 → m !! x = m' !! x) → ld64 m a = ld64 m' a.
Proof. intros H. unfold ld64. by rewrite (load_ext m m' a 8). Qed.
Lemma ld_st64 m a v : is_u64 v → ld64 (st64 m a v) a = v.
Proof.
  intros Hv. unfold ld64, st64.
  pose proof (load_store m a (le_bytes 8 v)) as E. rewrite length_le_bytes in E. rewrite E.
  apply le_value_bytes. exact Hv.
Qed.
Lemma st_words_out m a vs x : x < a ∨ a + 8 * Z.of_nat (length vs) ≤ x → st_words m a vs !! x = m !! x.
Proof.
  revert m a. induction vs as [|v vs IH]; intros m a Hx; [done|]. cbn [st_words length] in *.
  rewrite IH by lia. apply st64_out. lia.
Qed.
Lemma ld_words_ext m m' a n :
  (∀ x, a ≤ x < a + 8 * Z.of_nat n → m !! x = m' !! x) → ld_words m a n = ld_words m' a n.
Proof.
  revert a. induction n as [|n IH]; intros a H; [done|]. cbn [ld_words].
  rewrite (ld64_ext m m') by (intros x Hx; apply H; lia). f_equal. apply IH. intros x Hx. apply H. lia.
Qed.
Lemma ld_st_words m a vs : Forall is_u64 vs → ld_words (st_words m a vs) a (length vs) = vs.
Proof.
  intros HF. revert m a. induction HF as [|v vs Hv _ IH]; intros m a; [done|]. cbn [st_words ld_words length].
  rewrite (ld64_ext _ (st64 m a v)) by (intros x Hx; apply st_words_out; lia). by rewrite ld_st64, IH.
Qed.

(** ** Arrays of words or bytes *)
(** [a[i]]; an index outside the array has no outcome. *)
Definition at_ (a : list Z) (i : Z) : option Z := if i <? 0 then None else a !! Z.to_nat i.
Definition set_ (a : list Z) (i v : Z) : option (list Z) :=
  if (i <? 0) || (Z.of_nat (length a) <=? i) then None else Some (<[Z.to_nat i := v]> a).
(** [for (i = i; i < i + n; ++i)] over a loop state. *)
Fixpoint iter_from {A} (n : nat) (i : Z) (body : Z → A → option A) (a : A) : option A :=
  match n with
  | O => Some a
  | S n => match body i a with Some a => iter_from n (i + 1) body a | None => None end
  end.

Lemma at_lookup {i} (l : list Z) : 0 ≤ i → at_ l i = l !! Z.to_nat i.
Proof. intros. unfold at_. by destruct (Z.ltb_spec i 0); [lia|]. Qed.
Lemma at_nth l i : 0 ≤ i < Z.of_nat (length l) → at_ l i = Some (nth (Z.to_nat i) l 0).
Proof.
  intros Hi. rewrite at_lookup by lia. destruct (lookup_lt_is_Some_2 l (Z.to_nat i)) as [x E]; [lia|]. rewrite E.
  by rewrite (nth_lookup_Some _ _ _ _ E).
Qed.
Lemma set_at l i v pre post x : l = pre ++ x :: post → i = Z.of_nat (length pre) → set_ l i v = Some (pre ++ v :: post).
Proof.
  intros -> ->. unfold set_. destruct (Z.ltb_spec (Z.of_nat (length pre)) 0); [lia|]. rewrite length_app. simpl length.
  destruct (Z.leb_spec (Z.of_nat (length pre + S (length post))) (Z.of_nat (length pre))); [lia|]. cbn [orb].
  by rewrite Nat2Z.id, insert_app_r_alt, Nat.sub_diag by lia.
Qed.

(** A loop that sets consecutive elements of an array. *)
Lemma iter_set n i o (f : Z → Z) body pre rest :
  (∀ j w, i ≤ j < i + Z.of_nat n → length w = length (pre ++ rest) → body j w = set_ w (o + j) (f j)) →
  Z.of_nat (length pre) = o + i → (n ≤ length rest)%nat →
  iter_from n i body (pre ++ rest) = Some (pre ++ map f (seqZ i (Z.of_nat n)) ++ drop n rest).
Proof.
  revert i pre rest. induction n as [|n IH]; intros i pre rest Hbody Hpre Hn; [done|]. cbn [iter_from].
  destruct rest as [|x rest]; [simpl in Hn; lia|]. rewrite Hbody by (done || lia).
  rewrite (set_at _ _ _ pre rest x) by (done || lia). rewrite seqZ_cons by lia.
  replace (Z.pred (Z.of_nat (S n))) with (Z.of_nat n) by lia. simpl map. simpl drop.
  rewrite (cons_middle (f i) pre rest), (app_assoc pre [f i] rest). rewrite IH.
  - rewrite <- app_assoc. simpl. by replace (Z.succ i) with (i + 1) by lia.
  - intros j w Hj Hw. apply Hbody; [lia|]. rewrite Hw, !length_app. simpl. lia.
  - rewrite length_app. simpl. lia.
  - simpl in Hn. lia.
Qed.
Lemma set_run {l i v} : 0 ≤ i < zlen l → set_ l i v = Some (<[Z.to_nat i := v]> l).
Proof.
  unfold zlen, set_. intros Hi. destruct (Z.ltb_spec i 0); [lia|]. destruct (Z.leb_spec (Z.of_nat (length l)) i); [lia|]. done.
Qed.
