(* ===== verification/Strings.v ===== *)
(** * kernel/string.c: the freestanding memory and string functions.

    Memory maps byte addresses to bytes; an address outside the map is not
    mapped and an access to it has no outcome.  The functions that take a word
    at a time read and write the eight bytes of a little-endian word.  The
    scans of C strings, which the source bounds only by the terminator, have
    their number of turns as an argument. *)
From S2P Require Import Prelude Bytes.
Local Open Scope Z_scope.
Local Open Scope kernel_scope.

Abbreviation memory := (gmap Z Z).
Definition CM := ST memory.

Definition rd_byte (a : Z) : CM Z := λ m, match m !! a with Some b => Some (b, m) | None => None end.
Definition wr_byte (a b : Z) : CM unit :=
  λ m, match m !! a with Some _ => Some (tt, <[a := b]> m) | None => None end.
Fixpoint rd_bytes (n : nat) (a : Z) : CM (list Z) :=
  match n with O => ret [] | S n => b <- rd_byte a ;; bs <- rd_bytes n (a + 1) ;; ret (b :: bs) end.
Fixpoint wr_bytes (a : Z) (bs : list Z) : CM unit :=
  match bs with [] => ret tt | b :: bs => wr_byte a b ;;; wr_bytes (a + 1) bs end.
Definition rd_word (a : Z) : CM Z := bs <- rd_bytes 8 a ;; ret (le_value bs).
Definition wr_word (a v : Z) : CM unit := wr_bytes a (le_bytes 8 v).

Definition aligned8 (a : Z) : bool := Z.land a 7 =? 0.

(** ** Blocks of memory *)
Fixpoint copy_words (fuel : nat) (d s remaining : Z) : CM (Z * Z * Z) :=
  match fuel with
  | O => fail
  | S fuel =>
      if 8 <=? remaining then v <- rd_word s ;; wr_word d v ;;; copy_words fuel (d + 8) (s + 8) (remaining - 8)
      else ret (d, s, remaining)
  end.
Definition memcpy (dst src n : Z) : CM Z :=
  r <- (if aligned8 dst && aligned8 src then copy_words (S (Z.to_nat n)) dst src n else ret (dst, src, n)) ;;
  let '(d, s, remaining) := r in
  for_range (Z.to_nat remaining) 0 (λ i, b <- rd_byte (s + i) ;; wr_byte (d + i) b) ;;;
  ret dst.

Definition val64_of (b : Z) : Z :=
  Z.lor (Z.lor (Z.lor (Z.lor (Z.lor (Z.lor (Z.lor (Z.shiftl b 56) (Z.shiftl b 48)) (Z.shiftl b 40)) (Z.shiftl b 32))
    (Z.shiftl b 24)) (Z.shiftl b 16)) (Z.shiftl b 8)) b.
Fixpoint fill_words (fuel : nat) (p val64 remaining : Z) : CM (Z * Z) :=
  match fuel with
  | O => fail
  | S fuel =>
      if 8 <=? remaining then wr_word p val64 ;;; fill_words fuel (p + 8) val64 (remaining - 8)
      else ret (p, remaining)
  end.
Definition memset (s c n : Z) : CM Z :=
  let byte_val := u8 c in
  r <- (if aligned8 s then fill_words (S (Z.to_nat n)) s (val64_of byte_val) n else ret (s, n)) ;;
  let '(p, remaining) := r in
  for_range (Z.to_nat remaining) 0 (λ i, wr_byte (p + i) byte_val) ;;;
  ret s.

Fixpoint memcmp_from (n : nat) (pa pb : Z) : CM Z :=
  match n with
  | O => ret 0
  | S n =>
      x <- rd_byte pa ;; y <- rd_byte pb ;;
      if negb (x =? y) then ret (x - y) else memcmp_from n (pa + 1) (pb + 1)
  end.
Definition memcmp (a b n : Z) : CM Z := memcmp_from (Z.to_nat n) a b.

(** ** C strings *)
Definition himagic : Z := 0x8080808080808080.
Definition lomagic : Z := 0x0101010101010101.
(** [(v - lomagic) & ~v & himagic]. *)
Definition has_zero (v : Z) : bool :=
  negb (Z.land (Z.land (u64 (v - lomagic)) (u64 (Z.lnot v))) himagic =? 0).

(** Up to the first aligned address: [inl] is a terminator found on the way. *)
Fixpoint strlen_head (fuel : nat) (s p : Z) : CM (Z + Z) :=
  match fuel with
  | O => fail
  | S fuel =>
      if aligned8 p then ret (inr p) else
      c <- rd_byte p ;;
      if c =? 0 then ret (inl (p - s)) else strlen_head fuel s (p + 1)
  end.
Fixpoint strlen_words (fuel : nat) (w : Z) : CM Z :=
  match fuel with
  | O => fail
  | S fuel => v <- rd_word w ;; if has_zero v then ret w else strlen_words fuel (w + 8)
  end.
Fixpoint strlen_tail (fuel : nat) (p : Z) : CM Z :=
  match fuel with
  | O => fail
  | S fuel => c <- rd_byte p ;; if c =? 0 then ret p else strlen_tail fuel (p + 1)
  end.
Definition strlen (fuel : nat) (s : Z) : CM Z :=
  if s =? 0 then ret 0 else
  h <- strlen_head 8 s s ;;
  match h with
  | inl n => ret n
  | inr p => w <- strlen_words fuel p ;; p <- strlen_tail 8 w ;; ret (p - s)
  end.

(** [inl] is the result of an early [return]. *)
Fixpoint strcmp_head (fuel : nat) (a b : Z) : CM (Z + Z * Z) :=
  match fuel with
  | O => fail
  | S fuel =>
      if negb (aligned8 a) && negb (aligned8 b) then
        x <- rd_byte a ;;
        y <- rd_byte b ;;
        if (x =? 0) || negb (x =? y) then ret (inl (x - y)) else strcmp_head fuel (a + 1) (b + 1)
      else ret (inr (a, b))
  end.
Fixpoint strcmp_words (fuel : nat) (wa wb : Z) : CM (Z + Z * Z) :=
  match fuel with
  | O => fail
  | S fuel =>
      va <- rd_word wa ;; vb <- rd_word wb ;;
      if negb (va =? vb) then ret (inr (wa, wb)) else
      if has_zero va then ret (inl 0) else strcmp_words fuel (wa + 8) (wb + 8)
  end.
Fixpoint strcmp_tail (fuel : nat) (a b : Z) : CM Z :=
  match fuel with
  | O => fail
  | S fuel =>
      x <- rd_byte a ;;
      y <- rd_byte b ;;
      if negb (x =? 0) && (x =? y) then strcmp_tail fuel (a + 1) (b + 1) else ret (x - y)
  end.
Definition null_cmp (a b : Z) : Z := if a =? b then 0 else if a =? 0 then -1 else 1.
Definition strcmp (fuel : nat) (a b : Z) : CM Z :=
  if (a =? 0) || (b =? 0) then ret (null_cmp a b) else
  h <- strcmp_head 8 a b ;;
  match h with
  | inl r => ret r
  | inr (a, b) =>
      h <- (if aligned8 a && aligned8 b then strcmp_words fuel a b else ret (inr (a, b))) ;;
      match h with inl r => ret r | inr (a, b) => strcmp_tail fuel a b end
  end.

Fixpoint strncmp_from (n : nat) (a b : Z) : CM Z :=
  match n with
  | O => ret 0
  | S n =>
      x <- rd_byte a ;;
      y <- rd_byte b ;;
      if negb (x =? y) then ret (x - y) else if x =? 0 then ret 0 else strncmp_from n (a + 1) (b + 1)
  end.
Definition strncmp (a b n : Z) : CM Z :=
  if (a =? 0) || (b =? 0) then ret (null_cmp a b) else strncmp_from (Z.to_nat n) a b.

Fixpoint strcpy_from (fuel : nat) (d src : Z) : CM unit :=
  match fuel with
  | O => fail
  | S fuel => c <- rd_byte src ;; wr_byte d c ;;; if c =? 0 then ret tt else strcpy_from fuel (d + 1) (src + 1)
  end.
Definition strcpy (fuel : nat) (dst src : Z) : CM Z :=
  if (dst =? 0) || (src =? 0) then ret dst else strcpy_from fuel dst src ;;; ret dst.

(** The copying loop of [strncpy]: the value of [i] at its end, over [k] turns left. *)
Fixpoint strncpy_from (k : nat) (dst src i : Z) : CM Z :=
  match k with
  | O => ret i
  | S k => c <- rd_byte (src + i) ;; if c =? 0 then ret i else wr_byte (dst + i) c ;;; strncpy_from k dst src (i + 1)
  end.
Definition strncpy (dst src n : Z) : CM Z :=
  if (dst =? 0) || (src =? 0) then ret dst else
  i <- strncpy_from (Z.to_nat n) dst src 0 ;;
  for_range (Z.to_nat (n - i)) i (λ j, wr_byte (dst + j) 0) ;;;
  ret dst.

(** ** snprintf

    The state is the buffer and [pos].  A variadic argument is read as the type
    that the conversion names; a string argument is given by its bytes. *)
Inductive arg := AStr (s : option (list Z)) | AInt (v : Z) | AU64 (v : Z) | APtr (v : Z) | AChar (v : Z).

Record out := mk_out { ob : list Z; opos : Z }.
Definition OM := ST out.

Definition sn_write_char (size c : Z) : OM unit :=
  λ o,
    if opos o + 1 <? size then
      if opos o <? Z.of_nat (length (ob o)) then
        Some (tt, mk_out (<[Z.to_nat (opos o) := c]> (ob o)) (opos o + 1))
      else None
    else Some (tt, mk_out (ob o) (opos o + 1)).
Fixpoint sn_write_chars (size : Z) (s : list Z) : OM unit :=
  match s with [] => ret tt | c :: s => sn_write_char size c ;;; sn_write_chars size s end.
Definition sn_write_str (size : Z) (s : option (list Z)) : OM unit :=
  sn_write_chars size (default [40; 110; 117; 108; 108; 41] s).

(** The digits that [sn_write_uint] leaves in [tmp], in the order of printing. *)
Definition digit_char (digit : Z) : Z := if digit <? 10 then 48 + digit else 97 + digit - 10.
Fixpoint sn_digits (tn : nat) (val base : Z) (acc : list Z) : list Z :=
  match tn with
  | O => acc
  | S tn => if 0 <? val then sn_digits tn (val / base) base (digit_char (val mod base) :: acc) else acc
  end.
Definition sn_write_uint (size val base : Z) : OM unit :=
  sn_write_chars size (if val =? 0 then [48] else sn_digits 20 val base []).

Definition sn_write_int (size val : Z) : OM unit :=
  if val <? 0 then sn_write_char size 45 ;;; sn_write_uint size (u64 (u64 (- (val + 1)) + 1)) 10
  else sn_write_uint size (u64 val) 10.
Definition sn_write_ptr (size val : Z) : OM unit :=
  if val =? 0 then sn_write_str size (Some [40; 110; 105; 108; 41])
  else sn_write_str size (Some [48; 120]) ;;; sn_write_uint size val 16.

(** One conversion: [c] is the character after the percent sign.  The result is
    the list of arguments left. *)
Definition convert (size c : Z) (args : list arg) : OM (list arg) :=
  if c =? 115 then match args with AStr s :: args => sn_write_str size s ;;; ret args | _ => fail end else
  if c =? 100 then match args with AInt v :: args => sn_write_int size v ;;; ret args | _ => fail end else
  if c =? 117 then match args with AU64 v :: args => sn_write_uint size v 10 ;;; ret args | _ => fail end else
  if c =? 120 then match args with AU64 v :: args => sn_write_uint size v 16 ;;; ret args | _ => fail end else
  if c =? 112 then match args with APtr v :: args => sn_write_ptr size v ;;; ret args | _ => fail end else
  if c =? 99 then match args with AChar v :: args => sn_write_char size (u8 v) ;;; ret args | _ => fail end else
  if c =? 37 then sn_write_char size 37 ;;; ret args else
  sn_write_char size 37 ;;; sn_write_char size c ;;; ret args.
Fixpoint format (size : Z) (fmt : list Z) (args : list arg) : OM unit :=
  match fmt with
  | [] => ret tt
  | p :: fmt =>
      pos <- gets opos ;;
      if size <=? pos then ret tt else
      if negb (p =? 37) then sn_write_char size p ;;; format size fmt args else
      match fmt with
      | [] => sn_write_char size 37
      | c :: fmt => args <- convert size c args ;; format size fmt args
      end
  end.
(** [buf] is the memory at the pointer, absent for a null one. *)
Definition snprintf (buf : option (list Z)) (size : Z) (fmt : option (list Z)) (args : list arg) : option (Z * option (list Z)) :=
  match buf with
  | None => Some (0, None)
  | Some b =>
      if size =? 0 then Some (0, buf) else
      match fmt with
      | None => if bool_decide (b = []) then None else Some (0, Some (<[0%nat := 0]> b))
      | Some fmt =>
          match format size fmt args (mk_out b 0) with
          | None => None
          | Some (_, o) =>
              let e := if opos o <? size then opos o else size - 1 in
              if e <? Z.of_nat (length (ob o)) then Some (i32 (opos o), Some (<[Z.to_nat e := 0]> (ob o))) else None
          end
      end
  end.

(** ** What the functions promise *)
(** ** Memory *)
Definition mapped (m : memory) (a n : Z) : Prop := ∀ x, a ≤ x < a + n → is_Some (m !! x).
(** Pages are mapped as a whole, so the aligned word of a mapped byte is. *)
Definition words_mapped (m : memory) : Prop := ∀ x y, is_Some (m !! x) → y / 8 = x / 8 → is_Some (m !! y).

Lemma mapped_sub m a n b k : mapped m a n → a ≤ b → b + k ≤ a + n → mapped m b k.
Proof. intros H Hb Hk x Hx. apply H. lia. Qed.
Lemma store_mapped m b bs x : is_Some (m !! x) → is_Some (store m b bs !! x).
Proof.
  revert m b. induction bs as [|v bs IH]; intros m b H; [done|]. cbn [store]. apply IH.
  destruct (decide (b = x)) as [->|]; [rewrite lookup_insert_eq; by eexists|by rewrite lookup_insert_ne].
Qed.
Lemma mapped_store m b bs a n : mapped m a n → mapped (store m b bs) a n.
Proof. intros H x Hx. by apply store_mapped, H. Qed.
Lemma load_inside m a n x : is_Some (m !! x) → a ≤ x < a + Z.of_nat n → ∃ b, m !! x = Some b ∧ b ∈ load m a n.
Proof.
  intros [b E]. exists b. split; [done|]. revert a H. induction n as [|n IH]; intros a Hx; [lia|]. cbn [load].
  destruct (decide (x = a)) as [->|]; [rewrite E; left|]. right. apply IH. lia.
Qed.
Lemma elem_of_load m a n b : mapped m a (Z.of_nat n) → b ∈ load m a n → ∃ x, a ≤ x < a + Z.of_nat n ∧ m !! x = Some b.
Proof.
  revert a. induction n as [|n IH]; intros a Hm; [by intros ?%elem_of_nil|]. cbn [load]. intros [->|H]%elem_of_cons.
  - destruct (Hm a) as [c E]; [lia|]. exists a. rewrite E. split; [lia|done].
  - destruct (IH (a + 1)) as (x & Hx & E); [|done|exists x; split; [lia|done]]. intros x Hx. apply Hm. lia.
Qed.

Lemma rd_byte_run m a b : m !! a = Some b → rd_byte a m = Some (b, m).
Proof. unfold rd_byte. by intros ->. Qed.
Lemma wr_byte_run m a b : is_Some (m !! a) → wr_byte a b m = Some (tt, <[a := b]> m).
Proof. unfold wr_byte. by intros [? ->]. Qed.
Lemma rd_bytes_run m n a : mapped m a (Z.of_nat n) → rd_bytes n a m = Some (load m a n, m).
Proof.
  revert a. induction n as [|n IH]; intros a H; [done|]. cbn [rd_bytes load]. destruct (H a) as [b E]; [lia|].
  rewrite (bind_Some _ _ _ _ _ (rd_byte_run _ _ _ E)), (bind_Some _ _ _ _ _ (IH (a + 1) ltac:(intros x Hx; apply H; lia))).
  by rewrite E.
Qed.
Lemma wr_bytes_run m a bs : mapped m a (Z.of_nat (length bs)) → wr_bytes a bs m = Some (tt, store m a bs).
Proof.
  revert m a. induction bs as [|b bs IH]; intros m a H; [done|]. cbn [wr_bytes store length] in *.
  rewrite (bind_Some _ _ _ _ _ (wr_byte_run _ _ b (H a ltac:(lia)))). apply IH.
  intros x Hx. apply (store_mapped m a [b]), H. lia.
Qed.
Lemma rd_word_run m a : mapped m a 8 → rd_word a m = Some (ld64 m a, m).
Proof. intros H. unfold rd_word. by rewrite (bind_Some _ _ _ _ _ (rd_bytes_run m 8 a H)). Qed.
Lemma wr_word_run m a v : mapped m a 8 → wr_word a v m = Some (tt, st64 m a v).
Proof. intros H. unfold wr_word. apply wr_bytes_run. by rewrite length_le_bytes. Qed.

Lemma aligned8_spec a : aligned8 a = true ↔ a mod 8 = 0.
Proof. unfold aligned8. change 7 with (Z.ones 3). rewrite Z.land_ones by lia. change (2 ^ 3) with 8. apply Z.eqb_eq. Qed.

(** ** Blocks *)

(** The destination after [k] bytes were copied. *)
Definition copied (m : memory) (d s k : Z) : memory := store m d (load m s (Z.to_nat k)).

Lemma copied_step m d s k j : 0 ≤ k → 0 ≤ j → (d ≤ s ∨ s + (k + j) ≤ d) →
  store (copied m d s k) (d + k) (load (copied m d s k) (s + k) (Z.to_nat j)) = copied m d s (k + j).
Proof.
  intros Hk Hj Hd. unfold copied. rewrite Z2Nat.inj_add, load_app, store_app, length_load, Z2Nat.id by lia.
  f_equal. apply load_ext. intros x Hx. apply store_lookup_out. rewrite length_load. lia.
Qed.
Lemma copied_mapped m d s k a n : mapped m a n → mapped (copied m d s k) a n.
Proof. apply mapped_store. Qed.
Lemma copied_ok m d s k : memory_ok m → memory_ok (copied m d s k).
Proof. intros H. apply memory_ok_store; [done|by apply load_bytes]. Qed.
Lemma copied_0 m d s : copied m d s 0 = m.
Proof. done. Qed.

Lemma st64_copy m a b : memory_ok m → st64 m a (ld64 m b) = store m a (load m b 8).
Proof.
  intros Hm. unfold st64, ld64. pose proof (le_bytes_value (load m b 8) (load_bytes m b 8 Hm)) as E.
  by rewrite length_load in E; rewrite E.
Qed.

Section memcpy.
Context (m : memory) (d s n : Z) (Hm : memory_ok m) (Hd : mapped m d n) (Hs : mapped m s n) (Hdir : d ≤ s ∨ s + n ≤ d).

Lemma copy_words_run fuel k : 0 ≤ k ≤ n → n - k < Z.of_nat fuel →
  ∃ k', 0 ≤ k' ≤ n ∧ copy_words fuel (d + k) (s + k) (n - k) (copied m d s k) = Some ((d + k', s + k', n - k'), copied m d s k').
Proof using Hm Hd Hs Hdir.
  revert k. induction fuel as [|fuel IH]; intros k Hk Hf; [lia|]. cbn [copy_words].
  destruct (Z.leb_spec 8 (n - k)); [|by exists k].
  rewrite (bind_Some _ _ _ _ _ (rd_word_run _ _ (copied_mapped _ _ _ _ _ _ (mapped_sub _ _ _ (s + k) 8 Hs ltac:(lia) ltac:(lia))))).
  rewrite (bind_Some _ _ _ _ _ (wr_word_run _ _ _ (copied_mapped _ _ _ _ _ _ (mapped_sub _ _ _ (d + k) 8 Hd ltac:(lia) ltac:(lia))))).
  rewrite st64_copy by by apply copied_ok. change 8%nat with (Z.to_nat 8). rewrite copied_step by lia.
  destruct (IH (k + 8)) as (k' & Hk' & R); [lia..|]. exists k'. split; [done|].
  rewrite <- R. f_equal; lia.
Qed.

Lemma copy_bytes_run k : 0 ≤ k ≤ n →
  for_range (Z.to_nat (n - k)) 0 (λ i, b <- rd_byte (s + k + i) ;; wr_byte (d + k + i) b) (copied m d s k) = Some (tt, copied m d s n).
Proof using Hd Hs Hdir.
  intros Hk. destruct (for_range_ind (λ i, b <- rd_byte (s + k + i) ;; wr_byte (d + k + i) b)
    (λ i m', 0 ≤ i ∧ m' = copied m d s (k + i)) (Z.to_nat (n - k)) 0 (copied m d s k)) as (m' & R & _ & ->).
  - split; [done|]. by rewrite Z.add_0_r.
  - intros i ? Hi [_ ->]. eexists. split; [|split; [lia|reflexivity]].
    destruct (copied_mapped _ d s (k + i) _ _ Hs (s + k + i)) as [b E]; [lia|].
    rewrite (bind_Some _ _ _ _ _ (rd_byte_run _ _ _ E)), wr_byte_run by (apply (copied_mapped _ _ _ _ _ _ Hd); lia).
    do 2 f_equal. rewrite (Z.add_assoc k i 1), <- (copied_step m d s (k + i) 1) by lia. change (Z.to_nat 1) with 1%nat. cbn [load store].
    rewrite !Z.add_assoc. by rewrite E.
  - rewrite R. do 2 f_equal. f_equal. lia.
Qed.

Lemma memcpy_run : 0 ≤ n → memcpy d s n m = Some (d, copied m d s n).
Proof using Hm Hd Hs Hdir.
  intros Hn. unfold memcpy.
  assert (∃ k, 0 ≤ k ≤ n ∧
    (if aligned8 d && aligned8 s then copy_words (S (Z.to_nat n)) d s n else ret (d, s, n)) m =
    Some ((d + k, s + k, n - k), copied m d s k)) as (k & Hk & R).
  { destruct (aligned8 d && aligned8 s).
    - destruct (copy_words_run (S (Z.to_nat n)) 0) as (k & Hk & R); [lia..|]. rewrite !Z.add_0_r, Z.sub_0_r in R. eauto.
    - exists 0. rewrite !Z.add_0_r, Z.sub_0_r. split; [lia|done]. }
  rewrite (bind_Some _ _ _ _ _ R), (bind_Some _ _ _ _ _ (copy_bytes_run k Hk)). done.
Qed.
End memcpy.

Lemma fill_word b : is_byte b → le_bytes 8 (val64_of b) = replicate 8 b.
Proof.
  intros Hb. assert (∀ k, (k < 256)%nat → le_bytes 8 (val64_of (Z.of_nat k)) = replicate 8 (Z.of_nat k)) as H.
  { intros k Hk. assert (forallb (λ k, bool_decide (le_bytes 8 (val64_of (Z.of_nat k)) = replicate 8 (Z.of_nat k))) (seq 0 256) = true) as F
      by (vm_compute; reflexivity).
    rewrite forallb_forall in F. eapply bool_decide_unpack. rewrite (F k); [done|]. apply in_seq. lia. }
  unfold is_byte in Hb. rewrite <- (Z2Nat.id b) by lia. apply H. lia.
Qed.

Definition filled (m : memory) (s b k : Z) : memory := store m s (replicate (Z.to_nat k) b).
Lemma filled_step m s b k j : 0 ≤ k → 0 ≤ j → store (filled m s b k) (s + k) (replicate (Z.to_nat j) b) = filled m s b (k + j).
Proof.
  intros. unfold filled. by rewrite Z2Nat.inj_add, replicate_add, store_app, length_replicate, Z2Nat.id by lia.
Qed.

Lemma filled_mapped m s b k a n : mapped m a n → mapped (filled m s b k) a n.
Proof. apply mapped_store. Qed.

Section memset.
Context (m : memory) (s b n : Z) (Hs : mapped m s n) (Hb : is_byte b).

Lemma fill_words_run fuel k : 0 ≤ k ≤ n → n - k < Z.of_nat fuel →
  ∃ k', 0 ≤ k' ≤ n ∧ fill_words fuel (s + k) (val64_of b) (n - k) (filled m s b k) = Some ((s + k', n - k'), filled m s b k').
Proof using Hs Hb.
  revert k. induction fuel as [|fuel IH]; intros k Hk Hf; [lia|]. cbn [fill_words].
  destruct (Z.leb_spec 8 (n - k)); [|by exists k].
  rewrite (bind_Some _ _ _ _ _ (wr_word_run _ _ _ (filled_mapped _ _ _ _ _ _ (mapped_sub _ _ _ (s + k) 8 Hs ltac:(lia) ltac:(lia))))).
  unfold st64. rewrite fill_word by done. change 8%nat with (Z.to_nat 8). fold (filled m s b k). rewrite filled_step by lia.
  destruct (IH (k + 8)) as (k' & Hk' & R); [lia..|]. exists k'. split; [done|].
  rewrite <- R. f_equal; lia.
Qed.
Lemma fill_bytes_run k : 0 ≤ k ≤ n →
  for_range (Z.to_nat (n - k)) 0 (λ i, wr_byte (s + k + i) b) (filled m s b k) = Some (tt, filled m s b n).
Proof using Hs.
  intros Hk. destruct (for_range_ind (λ i, wr_byte (s + k + i) b)
    (λ i m', 0 ≤ i ∧ m' = filled m s b (k + i)) (Z.to_nat (n - k)) 0 (filled m s b k)) as (m' & R & _ & ->).
  - split; [done|]. by rewrite Z.add_0_r.
  - intros i ? Hi [_ ->]. eexists. split; [|split; [lia|reflexivity]].
    rewrite wr_byte_run by (apply (filled_mapped _ _ _ _ _ _ Hs); lia).
    do 2 f_equal. rewrite (Z.add_assoc k i 1), <- (filled_step m s b (k + i) 1) by lia. change (Z.to_nat 1) with 1%nat. cbn [replicate store].
    by rewrite !Z.add_assoc.
  - rewrite R. do 2 f_equal. f_equal. lia.
Qed.
End memset.

Lemma memset_run m s c n : mapped m s n → 0 ≤ n → memset s c n m = Some (s, filled m s (u8 c) n).
Proof.
  intros Hs Hn. unfold memset. pose proof (is_byte_u8 c) as Hb.
  assert (∃ k, 0 ≤ k ≤ n ∧
    (if aligned8 s then fill_words (S (Z.to_nat n)) s (val64_of (u8 c)) n else ret (s, n)) m =
    Some ((s + k, n - k), filled m s (u8 c) k)) as (k & Hk & R).
  { destruct (aligned8 s).
    - destruct (fill_words_run m s (u8 c) n Hs Hb (S (Z.to_nat n)) 0) as (k & Hk & R); [lia..|].
      rewrite !Z.add_0_r, Z.sub_0_r in R. eauto.
    - exists 0. rewrite !Z.add_0_r, Z.sub_0_r. split; [lia|done]. }
  rewrite (bind_Some _ _ _ _ _ R), (bind_Some _ _ _ _ _ (fill_bytes_run m s (u8 c) n Hs k Hk)). done.
Qed.

(** The first difference of two blocks, as an integer; zero for equal blocks. *)
Fixpoint lex_diff (xs ys : list Z) : Z :=
  match xs, ys with
  | x :: xs, y :: ys => if x =? y then lex_diff xs ys else x - y
  | _, _ => 0
  end.
Lemma lex_diff_0 xs ys : length xs = length ys → lex_diff xs ys = 0 ↔ xs = ys.
Proof.
  revert ys. induction xs as [|x xs IH]; intros [|y ys] H; try done. cbn [lex_diff]. injection H as H.
  destruct (Z.eqb_spec x y) as [->|]; [rewrite (IH _ H); split; [by intros ->|by intros [= ->]]|].
  split; [lia|intros [= -> _]; done].
Qed.

Lemma memcmp_run m a b n : mapped m a n → mapped m b n → 0 ≤ n →
  memcmp a b n m = Some (lex_diff (load m a (Z.to_nat n)) (load m b (Z.to_nat n)), m).
Proof.
  intros Ha Hb Hn. unfold memcmp. rewrite <- (Z2Nat.id n) in Ha, Hb by lia. clear Hn. revert a b Ha Hb.
  induction (Z.to_nat n) as [|k IH]; intros a b Ha Hb; [done|]. cbn [memcmp_from load lex_diff].
  destruct (Ha a) as [x Ex]; [lia|]. destruct (Hb b) as [y Ey]; [lia|].
  rewrite (bind_Some _ _ _ _ _ (rd_byte_run _ _ _ Ex)), (bind_Some _ _ _ _ _ (rd_byte_run _ _ _ Ey)), Ex, Ey. simpl default.
  destruct (Z.eqb_spec x y); cbn [negb]; [|done]. apply IH; intros z Hz; [apply Ha|apply Hb]; lia.
Qed.

(** ** The zero byte of a word *)

(** [lomagic] for [n] bytes. *)
Fixpoint ones (n : nat) : Z := match n with O => 0 | S n => 1 + 256 * ones n end.

Lemma byte_testbit_low b x i : is_byte b → 0 ≤ i → Z.testbit (b + 256 * x) i = if i <? 8 then Z.testbit b i else Z.testbit x (i - 8).
Proof.
  unfold is_byte. intros Hb Hi. rewrite (Z.mul_comm 256). change 256 with (2 ^ 8) in *. destruct (Z.ltb_spec i 8).
  - rewrite <- (Z.mod_pow2_bits_low (b + x * 2 ^ 8) 8) by lia. by rewrite Z.mod_add, Z.mod_small by lia.
  - replace i with (i - 8 + 8) at 1 by lia. rewrite <- Z.div_pow2_bits by lia.
    by rewrite Z.div_add, (Z.div_small b), Z.add_0_l by lia.
Qed.
(** A high bit that the subtraction sets and the word has clear belongs to the
    first zero byte, or to a byte after it. *)
Lemma swar_none bs j : bytes bs → 0 ∉ bs → (j < length bs)%nat →
  Z.testbit (le_value bs - ones (length bs)) (8 * Z.of_nat j + 7) = true →
  Z.testbit (le_value bs) (8 * Z.of_nat j + 7) = true.
Proof.
  intros Hb. revert j. induction Hb as [|b bs Hb _ IH]; intros j Hz Hj; [simpl in Hj; lia|].
  apply not_elem_of_cons in Hz as [Hb0 Hz]. unfold is_byte in Hb. cbn [le_value ones length].
  replace (b + 256 * le_value bs - (1 + 256 * ones (length bs))) with (b - 1 + 256 * (le_value bs - ones (length bs))) by lia.
  rewrite !byte_testbit_low by (unfold is_byte; lia). destruct j as [|j].
  - change (8 * Z.of_nat 0 + 7) with 7. change (7 <? 8) with true. cbv iota. intros H.
    destruct (Z.testbit b 7) eqn:E; [done|]. exfalso.
    assert (b < 128) as Hlt.
    { destruct (Z.ltb_spec b 128); [done|].
      assert (Z.testbit b 7 = true) as C; [|congruence]. apply Z.testbit_true; [lia|].
      rewrite <- (Z.div_unique b (2 ^ 7) 1 (b - 128)) by lia; done. }
    apply Z.testbit_true in H; [|lia]. rewrite Z.div_small in H by lia. done.
  - cbn [length] in Hj. destruct (Z.ltb_spec (8 * Z.of_nat (S j) + 7) 8); [lia|].
    replace (8 * Z.of_nat (S j) + 7 - 8) with (8 * Z.of_nat j + 7) by lia. apply IH; [done|lia].
Qed.
Lemma swar_some bs : bytes bs → 0 ∈ bs →
  ∃ j, (j < length bs)%nat ∧ Z.testbit (le_value bs - ones (length bs)) (8 * Z.of_nat j + 7) = true ∧
    Z.testbit (le_value bs) (8 * Z.of_nat j + 7) = false.
Proof.
  induction 1 as [|b bs Hb _ IH]; [by intros ?%elem_of_nil|]. intros Hz. unfold is_byte in Hb. cbn [le_value ones length].
  destruct (decide (b = 0)) as [->|Hb0].
  - exists 0%nat. change (8 * Z.of_nat 0 + 7) with 7. split; [lia|].
    replace (0 + 256 * le_value bs - (1 + 256 * ones (length bs))) with (255 + 256 * (le_value bs - ones (length bs) - 1)) by lia.
    by rewrite !byte_testbit_low by (unfold is_byte; lia).
  - apply elem_of_cons in Hz as [?|Hz]; [lia|]. destruct (IH Hz) as (j & Hj & H1 & H2). exists (S j). split; [lia|].
    replace (b + 256 * le_value bs - (1 + 256 * ones (length bs))) with (b - 1 + 256 * (le_value bs - ones (length bs))) by lia.
    rewrite !byte_testbit_low by (unfold is_byte; lia). destruct (Z.ltb_spec (8 * Z.of_nat (S j) + 7) 8); [lia|].
    by replace (8 * Z.of_nat (S j) + 7 - 8) with (8 * Z.of_nat j + 7) by lia.
Qed.
Lemma himagic_bits i : 0 ≤ i → Z.testbit himagic i = bool_decide (i < 64 ∧ i mod 8 = 7).
Proof.
  intros Hi. destruct (Z.ltb_spec i 64).
  - assert (forallb (λ k, eqb (Z.testbit himagic (Z.of_nat k)) (bool_decide (Z.of_nat k < 64 ∧ Z.of_nat k mod 8 = 7))) (seq 0 64) = true) as F
      by (vm_compute; reflexivity).
    rewrite forallb_forall in F. specialize (F (Z.to_nat i)). rewrite Z2Nat.id in F by lia. apply eqb_prop, F, in_seq. lia.
  - rewrite bool_decide_false by lia. apply Z.bits_above_log2; [done|]. change (Z.log2 himagic) with 63. lia.
Qed.
Lemma has_zero_spec bs : bytes bs → length bs = 8%nat → has_zero (le_value bs) = bool_decide (0 ∈ bs).
Proof.
  intros Hb Hl. unfold has_zero. set (v := le_value bs). change lomagic with (ones 8). rewrite <- Hl.
  assert (∀ i, 0 ≤ i → Z.testbit (Z.land (Z.land (u64 (v - ones (length bs))) (u64 (Z.lnot v))) himagic) i =
    Z.testbit (v - ones (length bs)) i && negb (Z.testbit v i) && bool_decide (i < 64 ∧ i mod 8 = 7)) as Hbits.
  { intros i Hi. rewrite !Z.land_spec, himagic_bits by done. unfold u64.
    case_bool_decide as Hd; [|by rewrite !andb_false_r]. rewrite !Z.mod_pow2_bits_low, Z.lnot_spec by lia. done. }
  case_bool_decide as Hz.
  - destruct (swar_some bs Hb Hz) as (j & Hj & H1 & H2). apply negb_true_iff, Z.eqb_neq. intros E.
    specialize (Hbits (8 * Z.of_nat j + 7) ltac:(lia)). rewrite E, Z.bits_0 in Hbits.
    fold v in H1, H2. rewrite H1, H2, bool_decide_true in Hbits; [done|]. split; [lia|].
    rewrite Z.add_comm, Z.mul_comm, Z.mod_add; done.
  - apply negb_false_iff, Z.eqb_eq. apply Z.bits_inj'. intros i Hi. rewrite Hbits, Z.bits_0 by done.
    case_bool_decide as Hd; [|by rewrite andb_false_r]. rewrite andb_true_r.
    destruct (Z.testbit (v - ones (length bs)) i) eqn:E; [|done].
    pose proof (Z.div_mod i 8 ltac:(lia)). replace i with (8 * Z.of_nat (Z.to_nat (i / 8)) + 7) in E |- * by lia.
    rewrite (swar_none bs) by (done || lia). done.
Qed.

(** ** C strings *)

(** A string starts at [s] and its terminator is at [e]. *)
Definition cstr (m : memory) (s e : Z) : Prop :=
  0 < s ≤ e ∧ m !! e = Some 0 ∧ ∀ x, s ≤ x < e → ∃ c, m !! x = Some c ∧ c ≠ 0.

Lemma cstr_is_Some m s e x : cstr m s e → s ≤ x ≤ e → is_Some (m !! x).
Proof.
  intros (_ & He & Hc) Hx. destruct (decide (x = e)) as [->|]; [by eexists|]. destruct (Hc x) as (c & -> & _); [lia|]. by eexists.
Qed.
Lemma cstr_zero m s e x : cstr m s e → s ≤ x ≤ e → m !! x = Some 0 ↔ x = e.
Proof.
  intros (_ & He & Hc) Hx. split; [|by intros ->]. intros E. destruct (decide (x = e)) as [->|]; [done|].
  destruct (Hc x) as (c & E' & Hn); [lia|]. congruence.
Qed.
Lemma cstr_word m s e w : words_mapped m → cstr m s e → s ≤ w ≤ e → w mod 8 = 0 → mapped m w 8.
Proof.
  intros Hw Hs Hr Ha x Hx. apply (Hw w x); [by eapply cstr_is_Some|].
  pose proof (Z.div_mod w 8 ltac:(lia)). symmetry. apply (Z.div_unique _ _ _ (x - w)); lia.
Qed.
Lemma word_has_zero m w : memory_ok m → mapped m w 8 →
  has_zero (ld64 m w) = true ↔ ∃ x, w ≤ x < w + 8 ∧ m !! x = Some 0.
Proof.
  intros Hm Hw. unfold ld64. rewrite has_zero_spec by (by apply load_bytes || apply length_load). rewrite bool_decide_eq_true. split.
  - by apply elem_of_load.
  - intros (x & Hx & E). destruct (load_inside m w 8 x) as (b & E' & Hb); [by eexists|lia|congruence].
Qed.

Section strlen.
Context (m : memory) (s e : Z) (Hm : memory_ok m) (Hw : words_mapped m) (Hs : cstr m s e).

Lemma strlen_head_run fuel p : s ≤ p ≤ e → (- p) mod 8 < Z.of_nat fuel →
  ∃ r, strlen_head fuel s p m = Some (r, m) ∧
    match r with inl n => n = e - s | inr p' => p ≤ p' ≤ e ∧ p' mod 8 = 0 end.
Proof using Hs.
  revert p. induction fuel as [|fuel IH]; intros p Hp Hf; [pose proof (Z.mod_pos_bound (- p) 8); lia|]. cbn [strlen_head].
  destruct (aligned8 p) eqn:Ea; [apply aligned8_spec in Ea; eexists; split; [done|]; simpl; lia|].
  assert (p mod 8 ≠ 0) as Hn by (rewrite <- aligned8_spec; congruence).
  destruct (cstr_is_Some _ _ _ p Hs) as [c Ec]; [lia|]. rewrite (bind_Some _ _ _ _ _ (rd_byte_run _ _ _ Ec)).
  destruct (Z.eqb_spec c 0) as [->|Hc].
  - apply (cstr_zero _ _ _ _ Hs) in Ec as ->; [|lia]. by eexists.
  - assert (p ≠ e) by (intros ->; apply Hc; pose proof (proj1 (proj2 Hs)); congruence).
    destruct (IH (p + 1)) as (r & R & Hr); [lia|..].
    + pose proof (Z.mod_pos_bound p 8). rewrite Z.mod_opp_l_nz in Hf by lia.
      rewrite <- (Z.mod_unique (- (p + 1)) 8 (- (p / 8) - 1) (7 - p mod 8)); [lia|lia|].
      pose proof (Z.div_mod p 8 ltac:(lia)). lia.
    + exists r. split; [done|]. destruct r; [done|]. lia.
Qed.
Lemma strlen_words_run fuel w : s ≤ w ≤ e → w mod 8 = 0 → e - w < 8 * Z.of_nat fuel →
  ∃ w', strlen_words fuel w m = Some (w', m) ∧ w ≤ w' ≤ e ∧ e < w' + 8.
Proof using Hm Hw Hs.
  revert w. induction fuel as [|fuel IH]; intros w Hr Ha Hf; [lia|]. cbn [strlen_words].
  pose proof (cstr_word _ _ _ _ Hw Hs Hr Ha) as Hmap. rewrite (bind_Some _ _ _ _ _ (rd_word_run _ _ Hmap)).
  destruct (has_zero (ld64 m w)) eqn:Ez.
  - apply word_has_zero in Ez as (x & Hx & E); [|done..]. exists w. split; [done|]. split; [lia|].
    destruct (decide (x ≤ e)); [|lia]. apply (cstr_zero _ _ _ _ Hs) in E; lia.
  - assert (e < w ∨ w + 8 ≤ e) as He.
    { destruct (decide (w + 8 ≤ e)); [by right|]. exfalso. apply not_true_iff_false in Ez. apply Ez.
      apply word_has_zero; [done..|]. exists e. split; [lia|]. apply Hs. }
    destruct (IH (w + 8)) as (w' & R & Hr'); [lia|by rewrite <- Zplus_mod_idemp_r, Z_mod_same_full, Z.add_0_r|lia|].
    exists w'. split; [done|lia].
Qed.
Lemma strlen_tail_run fuel p : s ≤ p ≤ e → e - p < Z.of_nat fuel → strlen_tail fuel p m = Some (e, m).
Proof using Hs.
  revert p. induction fuel as [|fuel IH]; intros p Hp Hf; [lia|]. cbn [strlen_tail].
  destruct (cstr_is_Some _ _ _ p Hs) as [c Ec]; [lia|]. rewrite (bind_Some _ _ _ _ _ (rd_byte_run _ _ _ Ec)).
  destruct (Z.eqb_spec c 0) as [->|Hc]; [by apply (cstr_zero _ _ _ _ Hs) in Ec as ->; [|lia]|].
  assert (p ≠ e) by (intros ->; apply Hc; pose proof (proj1 (proj2 Hs)); congruence). apply IH; lia.
Qed.
Lemma strlen_run fuel : e - s < 8 * Z.of_nat fuel → strlen fuel s m = Some (e - s, m).
Proof using Hm Hw Hs.
  intros Hf. unfold strlen. pose proof (proj1 Hs) as Hse. destruct (Z.eqb_spec s 0); [lia|].
  destruct (strlen_head_run 8 s) as (r & R & Hr); [lia|pose proof (Z.mod_pos_bound (- s) 8); lia|].
  rewrite (bind_Some _ _ _ _ _ R). destruct r as [v|p]; [by subst|]. destruct Hr as [Hr Ha].
  destruct (strlen_words_run fuel p) as (w & Rw & Hwr & Hwe); [lia|done|lia|]. rewrite (bind_Some _ _ _ _ _ Rw).
  by rewrite (bind_Some _ _ _ _ _ (strlen_tail_run 8 w ltac:(lia) ltac:(lia))).
Qed.
End strlen.

(** *** Comparison *)

(** The first [k] bytes of two strings agree and are not terminators. *)
Definition same (m : memory) (a b k : Z) : Prop := ∀ j, 0 ≤ j < k → ∃ c, m !! (a + j) = Some c ∧ m !! (b + j) = Some c ∧ c ≠ 0.
(** What the C standard asks of a comparison: the difference of the first bytes
    that differ or terminate the strings. *)
Definition compares (m : memory) (a b r : Z) : Prop :=
  ∃ k x y, 0 ≤ k ∧ same m a b k ∧ m !! (a + k) = Some x ∧ m !! (b + k) = Some y ∧ (x ≠ y ∨ x = 0) ∧ r = x - y.

Lemma same_0 m a b : same m a b 0.
Proof. intros j Hj. lia. Qed.
Lemma same_S m a b k c : same m a b k → m !! (a + k) = Some c → m !! (b + k) = Some c → c ≠ 0 → same m a b (k + 1).
Proof. intros H Ea Eb Hc j Hj. destruct (decide (j = k)) as [->|]; [eauto|]. apply H. lia. Qed.
Lemma same_before m a b k e : same m a b k → cstr m a e → 0 ≤ k → k ≤ e - a.
Proof.
  intros H (Hr & He & _) Hk. destruct (decide (k ≤ e - a)); [done|]. destruct (H (e - a)) as (c & E & _ & Hc); [lia|].
  replace (a + (e - a)) with e in E by lia. congruence.
Qed.
Lemma same_sym m a b k : same m a b k → same m b a k.
Proof. intros H j Hj. destruct (H j Hj) as (c & ? & ? & ?). eauto. Qed.
Lemma compares_0 m a b ea eb : cstr m a ea → cstr m b eb → compares m a b 0 →
  ea - a = eb - b ∧ load m a (Z.to_nat (ea - a)) = load m b (Z.to_nat (eb - b)).
Proof.
  intros Ha Hb (k & x & y & Hk & Hs & Ex & Ey & Hxy & E). assert (x = y) as <- by lia. destruct Hxy as [Hxy | Hxy]; [done|subst x].
  pose proof (same_before _ _ _ _ _ Hs Ha Hk). pose proof (same_before _ _ _ _ _ (same_sym _ _ _ _ Hs) Hb Hk).
  apply (cstr_zero _ _ _ _ Ha) in Ex; [|lia]. apply (cstr_zero _ _ _ _ Hb) in Ey; [|lia].
  assert (ea - a = k) as -> by lia. assert (eb - b = k) as -> by lia. split; [done|].
  clear -Hs Hk. rewrite <- (Z2Nat.id k) in Hs by done. revert a b Hs. induction (Z.to_nat k) as [|n IH]; intros a b Hs; [done|].
  cbn [load]. destruct (Hs 0) as (c & Ea & Eb & _); [lia|]. rewrite Z.add_0_r in Ea, Eb. rewrite Ea, Eb. f_equal. apply IH.
  intros j Hj. rewrite <- !Z.add_assoc. apply Hs. lia.
Qed.

Section strcmp.
Context (m : memory) (a b ea eb : Z) (Hm : memory_ok m) (Hw : words_mapped m) (Ha : cstr m a ea) (Hb : cstr m b eb).

Lemma next_bytes k : same m a b k → 0 ≤ k →
  ∃ x y, m !! (a + k) = Some x ∧ m !! (b + k) = Some y ∧ (x = y → x ≠ 0 → same m a b (k + 1)).
Proof using Ha Hb.
  intros H Hk. pose proof (same_before _ _ _ _ _ H Ha Hk). pose proof (same_before _ _ _ _ _ (same_sym _ _ _ _ H) Hb Hk).
  destruct (cstr_is_Some _ _ _ (a + k) Ha) as [x Ex]; [lia|]. destruct (cstr_is_Some _ _ _ (b + k) Hb) as [y Ey]; [lia|].
  exists x, y. do 2 (split; [done|]). intros <- Hx. by apply same_S with x.
Qed.
Lemma done_at k x y : same m a b k → 0 ≤ k → m !! (a + k) = Some x → m !! (b + k) = Some y → x ≠ y ∨ x = 0 → compares m a b (x - y).
Proof. intros. exists k, x, y. auto 10. Qed.

Definition at_same (k0 : Z) (r : Z + Z * Z) : Prop :=
  match r with inl r => compares m a b r | inr (a', b') => ∃ k, k0 ≤ k ∧ same m a b k ∧ a' = a + k ∧ b' = b + k end.

Lemma strcmp_head_run fuel k : 0 ≤ k → same m a b k → (- (a + k)) mod 8 < Z.of_nat fuel →
  ∃ r, strcmp_head fuel (a + k) (b + k) m = Some (r, m) ∧ at_same k r.
Proof using Ha Hb.
  revert k. induction fuel as [|fuel IH]; intros k Hk Hs Hf; [pose proof (Z.mod_pos_bound (- (a + k)) 8); lia|]. cbn [strcmp_head].
  destruct (negb (aligned8 (a + k)) && negb (aligned8 (b + k))) eqn:Eal.
  2:{ eexists. split; [done|]. exists k. auto with lia. }
  apply andb_true_iff in Eal as [Ea%negb_true_iff _].
  assert ((a + k) mod 8 ≠ 0) as Hn by (rewrite <- aligned8_spec; congruence).
  destruct (next_bytes k Hs Hk) as (x & y & Ex & Ey & Hnext).
  rewrite (bind_Some _ _ _ _ _ (rd_byte_run _ _ _ Ex)), (bind_Some _ _ _ _ _ (rd_byte_run _ _ _ Ey)).
  destruct (Z.eqb_spec x 0); cbn [orb]; [eexists; split; [done|]; eapply (done_at k); auto|].
  destruct (Z.eqb_spec x y); cbn [negb]; [|eexists; split; [done|]; eapply (done_at k); auto].
  destruct (IH (k + 1)) as (r & R & Hr); [lia|auto|..].
  - pose proof (Z.mod_pos_bound (a + k) 8). rewrite Z.mod_opp_l_nz in Hf by lia.
    rewrite <- (Z.mod_unique (- (a + (k + 1))) 8 (- ((a + k) / 8) - 1) (7 - (a + k) mod 8)); [lia|lia|].
    pose proof (Z.div_mod (a + k) 8 ltac:(lia)). lia.
  - exists r. rewrite <- !Z.add_assoc. split; [done|]. destruct r as [|[a' b']]; [done|]. destruct Hr as (k' & ? & ?). exists k'. auto with lia.
Qed.

(** Equal words without a terminator extend the agreement by eight bytes. *)
Lemma same_word k : 0 ≤ k → same m a b k → mapped m (a + k) 8 → mapped m (b + k) 8 → ld64 m (a + k) = ld64 m (b + k) →
  (has_zero (ld64 m (a + k)) = false → same m a b (k + 8)) ∧ (has_zero (ld64 m (a + k)) = true → compares m a b 0).
Proof using Hm Ha.
  intros Hk Hs Ma Mb E. unfold ld64 in E.
  assert (load m (a + k) 8 = load m (b + k) 8) as EL.
  { rewrite <- (le_bytes_value (load m (a + k) 8)), <- (le_bytes_value (load m (b + k) 8)) by by apply load_bytes.
    by rewrite !length_load, E. }
  assert (∀ j, 0 ≤ j < 8 → m !! (a + k + j) = m !! (b + k + j)) as Heq.
  { intros j Hj. destruct (Ma (a + k + j)) as [x Ex]; [lia|]. destruct (Mb (b + k + j)) as [y Ey]; [lia|].
    rewrite Ex, Ey. f_equal. assert (∀ n c o, 0 ≤ o < Z.of_nat n → load m c n !! Z.to_nat o = Some (default 0 (m !! (c + o)))) as Hl.
    { clear. induction n as [|n IH]; intros c o Ho; [lia|]. cbn [load]. destruct (decide (o = 0)) as [->|]; [by rewrite Z.add_0_r|].
      replace (Z.to_nat o) with (S (Z.to_nat (o - 1))) by lia. cbn. rewrite IH by lia. do 3 f_equal. lia. }
    pose proof (Hl 8%nat (a + k) j Hj) as H1. pose proof (Hl 8%nat (b + k) j Hj) as H2. rewrite EL, H2, Ex, Ey in H1. by injection H1. }
  split; intros Hz.
  - intros j Hj. destruct (decide (j < k)); [apply Hs; lia|]. destruct (Ma (a + j)) as [c Ec]; [lia|]. exists c.
    split; [done|]. pose proof (Heq (j - k) ltac:(lia)) as H1. replace (a + k + (j - k)) with (a + j) in H1 by lia.
    replace (b + k + (j - k)) with (b + j) in H1 by lia. split; [congruence|]. intros ->.
    apply not_true_iff_false in Hz. apply Hz, word_has_zero; [done..|]. exists (a + j). split; [lia|done].
  - apply word_has_zero in Hz as (z & Hz & Ez); [|done..].
    pose proof (same_before _ _ _ _ _ Hs Ha Hk) as Hke.
    assert (ea ≤ z). { destruct (decide (ea ≤ z)); [done|]. apply (cstr_zero _ _ _ _ Ha) in Ez; lia. }
    change 0 with (0 - 0) at 1. apply (done_at (ea - a)); [|lia|..].
    + intros j Hj. destruct (decide (j < k)); [apply Hs; lia|]. destruct (proj2 (proj2 Ha) (a + j)) as (c & Ec & Hc); [lia|].
      exists c. split; [done|]. split; [|done]. pose proof (Heq (j - k) ltac:(lia)) as H1.
      replace (a + k + (j - k)) with (a + j) in H1 by lia. replace (b + k + (j - k)) with (b + j) in H1 by lia. congruence.
    + replace (a + (ea - a)) with ea by lia. apply Ha.
    + pose proof (Heq (ea - a - k) ltac:(lia)) as H1. replace (a + k + (ea - a - k)) with ea in H1 by lia.
      replace (b + k + (ea - a - k)) with (b + (ea - a)) in H1 by lia. rewrite <- H1. apply Ha.
    + by right.
Qed.
Lemma strcmp_words_run fuel k : 0 ≤ k → same m a b k → (a + k) mod 8 = 0 → (b + k) mod 8 = 0 → ea - (a + k) < 8 * Z.of_nat fuel →
  ∃ r, strcmp_words fuel (a + k) (b + k) m = Some (r, m) ∧ at_same k r.
Proof using Hm Hw Ha Hb.
  revert k. induction fuel as [|fuel IH]; intros k Hk Hs Aa Ab Hf; pose proof (same_before _ _ _ _ _ Hs Ha Hk); [lia|].
  pose proof (same_before _ _ _ _ _ (same_sym _ _ _ _ Hs) Hb Hk). cbn [strcmp_words].
  pose proof (cstr_word _ _ _ (a + k) Hw Ha ltac:(lia) Aa) as Ma. pose proof (cstr_word _ _ _ (b + k) Hw Hb ltac:(lia) Ab) as Mb.
  rewrite (bind_Some _ _ _ _ _ (rd_word_run _ _ Ma)), (bind_Some _ _ _ _ _ (rd_word_run _ _ Mb)).
  destruct (Z.eqb_spec (ld64 m (a + k)) (ld64 m (b + k))) as [E|]; cbn [negb].
  2:{ eexists. split; [done|]. exists k. auto with lia. }
  destruct (same_word k Hk Hs Ma Mb E) as [Hno Hyes]. destruct (has_zero (ld64 m (a + k))) eqn:Ez.
  - eexists. split; [done|]. by apply Hyes.
  - destruct (IH (k + 8)) as (r & R & Hr); [lia|by apply Hno|..|lia|].
    1,2: by rewrite Z.add_assoc, <- Zplus_mod_idemp_r, Z_mod_same_full, Z.add_0_r.
    exists r. rewrite <- !Z.add_assoc. split; [done|]. destruct r as [|[a' b']]; [done|]. destruct Hr as (k' & ? & ?). exists k'. auto with lia.
Qed.
Lemma strcmp_tail_run fuel k : 0 ≤ k → same m a b k → ea - (a + k) < Z.of_nat fuel →
  ∃ r, strcmp_tail fuel (a + k) (b + k) m = Some (r, m) ∧ compares m a b r.
Proof using Ha Hb.
  revert k. induction fuel as [|fuel IH]; intros k Hk Hs Hf; pose proof (same_before _ _ _ _ _ Hs Ha Hk); [lia|]. cbn [strcmp_tail].
  destruct (next_bytes k Hs Hk) as (x & y & Ex & Ey & Hnext).
  rewrite (bind_Some _ _ _ _ _ (rd_byte_run _ _ _ Ex)), (bind_Some _ _ _ _ _ (rd_byte_run _ _ _ Ey)).
  destruct (Z.eqb_spec x 0); cbn [negb andb]; [eexists; split; [done|]; eapply (done_at k); auto|].
  destruct (Z.eqb_spec x y); [|eexists; split; [done|]; eapply (done_at k); auto].
  rewrite <- !Z.add_assoc. apply IH; [lia|auto|lia].
Qed.
Lemma strcmp_run fuel : ea - a < Z.of_nat fuel → ∃ r, strcmp fuel a b m = Some (r, m) ∧ compares m a b r.
Proof using Hm Hw Ha Hb.
  intros Hf. unfold strcmp. pose proof (proj1 Ha). pose proof (proj1 Hb).
  destruct (Z.eqb_spec a 0); [lia|]. destruct (Z.eqb_spec b 0); [lia|]. cbn [orb].
  destruct (strcmp_head_run 8 0) as (r & R & Hr); [lia|apply same_0|pose proof (Z.mod_pos_bound (- (a + 0)) 8); lia|].
  rewrite !Z.add_0_r in R. rewrite (bind_Some _ _ _ _ _ R). destruct r as [r|[a' b']]; [by eexists|].
  destruct Hr as (k & Hk & Hs & -> & ->).
  assert (∃ r, (if aligned8 (a + k) && aligned8 (b + k) then strcmp_words fuel (a + k) (b + k) else ret (inr (a + k, b + k))) m = Some (r, m)
    ∧ at_same 0 r) as (r & R' & Hr).
  { destruct (aligned8 (a + k)) eqn:E1, (aligned8 (b + k)) eqn:E2; cbn [andb];
      try (eexists; split; [done|]; exists k; by auto).
    apply aligned8_spec in E1, E2. destruct (strcmp_words_run fuel k) as (r & R' & Hr); [done..|lia|]. exists r. split; [done|].
    destruct r as [|[a' b']]; [done|]. destruct Hr as (k' & ? & ?). exists k'. auto with lia. }
  rewrite (bind_Some _ _ _ _ _ R'). destruct r as [r|[a' b']]; [by eexists|]. destruct Hr as (k' & Hk' & Hs' & -> & ->).
  apply strcmp_tail_run; [done..|lia].
Qed.
End strcmp.

(** Comparison of at most [n] bytes. *)
Definition compares_n (m : memory) (a b n r : Z) : Prop :=
  (r = 0 ∧ same m a b n) ∨
  ∃ k x y, 0 ≤ k < n ∧ same m a b k ∧ m !! (a + k) = Some x ∧ m !! (b + k) = Some y ∧ (x ≠ y ∨ x = 0) ∧ r = x - y.

Lemma strncmp_from_run m a b ea eb n k : cstr m a ea → cstr m b eb → 0 ≤ k → same m a b k →
  ∃ r, strncmp_from n (a + k) (b + k) m = Some (r, m) ∧ compares_n m a b (k + Z.of_nat n) r.
Proof.
  intros Ha Hb. revert k. induction n as [|n IH]; intros k Hk Hs; cbn [strncmp_from].
  - eexists. split; [done|]. left. by rewrite Z.add_0_r.
  - destruct (next_bytes m a b ea eb Ha Hb k Hs Hk) as (x & y & Ex & Ey & Hnext).
    rewrite (bind_Some _ _ _ _ _ (rd_byte_run _ _ _ Ex)), (bind_Some _ _ _ _ _ (rd_byte_run _ _ _ Ey)).
    destruct (Z.eqb_spec x y) as [<-|Hxy]; cbn [negb].
    + destruct (Z.eqb_spec x 0) as [->|Hx].
      * eexists. split; [done|]. right. exists k, 0, 0. auto 10 with lia.
      * destruct (IH (k + 1)) as (r & R & Hr); [lia|by apply Hnext|]. exists r. rewrite <- !Z.add_assoc. split; [done|].
        by replace (k + Z.of_nat (S n)) with (k + 1 + Z.of_nat n) by lia.
    + eexists. split; [done|]. right. exists k, x, y. auto 10 with lia.
Qed.
Lemma strncmp_run m a b ea eb n : cstr m a ea → cstr m b eb → 0 ≤ n →
  ∃ r, strncmp a b n m = Some (r, m) ∧ compares_n m a b n r.
Proof.
  intros Ha Hb Hn. unfold strncmp. pose proof (proj1 Ha). pose proof (proj1 Hb).
  destruct (Z.eqb_spec a 0); [lia|]. destruct (Z.eqb_spec b 0); [lia|]. cbn [orb].
  destruct (strncmp_from_run m a b ea eb (Z.to_nat n) 0 Ha Hb) as (r & R & Hr); [lia|apply same_0|].
  rewrite !Z.add_0_r in R. rewrite Z2Nat.id in Hr by lia. by exists r.
Qed.

(** *** Copies of strings *)
Section strcpy.
Context (m : memory) (d s e : Z) (Hs : cstr m s e).

(** The source from [s + k] on is still as it was. *)
Lemma source_left k x : 0 ≤ k → d ≤ s ∨ s + k ≤ d ∧ e < d → s + k ≤ x ≤ e → copied m d s k !! x = m !! x.
Proof using. intros Hk Hd Hx. apply store_lookup_out. rewrite length_load. lia. Qed.
Lemma copied_byte k c : 0 ≤ k → m !! (s + k) = Some c → d ≤ s ∨ e < d → s + k ≤ e →
  <[d + k := c]> (copied m d s k) = copied m d s (k + 1).
Proof using.
  intros Hk Ec Hd Hx. unfold copied. rewrite Z2Nat.inj_add, load_app, store_app, length_load, Z2Nat.id by lia.
  change (Z.to_nat 1) with 1%nat. cbn [load store]. rewrite Ec. done.
Qed.

Lemma strcpy_from_run fuel k : mapped m d (e - s + 1) → d ≤ s ∨ e < d → 0 ≤ k ≤ e - s → e - (s + k) < Z.of_nat fuel →
  strcpy_from fuel (d + k) (s + k) (copied m d s k) = Some (tt, copied m d s (e - s + 1)).
Proof using Hs.
  intros Hm Hd. revert k. induction fuel as [|fuel IH]; intros k Hk Hf; [lia|]. cbn [strcpy_from].
  destruct (cstr_is_Some _ _ _ (s + k) Hs) as [c Ec]; [lia|].
  assert (copied m d s k !! (s + k) = Some c) as Ec' by (rewrite source_left by lia; done).
  rewrite (bind_Some _ _ _ _ _ (rd_byte_run _ _ _ Ec')).
  rewrite (bind_Some _ _ _ _ _ (wr_byte_run _ _ c (copied_mapped _ _ s k _ _ Hm (d + k) ltac:(lia)))).
  rewrite copied_byte by (done || lia). destruct (Z.eqb_spec c 0) as [->|Hc].
  - apply (cstr_zero _ _ _ _ Hs) in Ec; [|lia]. replace (e - s + 1) with (k + 1) by lia. done.
  - assert (s + k ≠ e) by (intros E; apply Hc; rewrite E in Ec; pose proof (proj1 (proj2 Hs)); congruence).
    rewrite <- !Z.add_assoc. apply IH; lia.
Qed.
Lemma strcpy_run fuel : 0 < d → mapped m d (e - s + 1) → d ≤ s ∨ e < d → e - s < Z.of_nat fuel →
  strcpy fuel d s m = Some (d, copied m d s (e - s + 1)).
Proof using Hs.
  intros Hd0 Hm Hd Hf. unfold strcpy. pose proof (proj1 Hs). destruct (Z.eqb_spec d 0); [lia|].
  destruct (Z.eqb_spec s 0); [lia|]. cbn [orb].
  pose proof (strcpy_from_run fuel 0 Hm Hd ltac:(lia) ltac:(lia)) as R. rewrite !Z.add_0_r, copied_0 in R.
  by rewrite (bind_Some _ _ _ _ _ R).
Qed.

Lemma strncpy_from_run n k : mapped m d (k + Z.of_nat n) → d ≤ s ∨ e < d → 0 ≤ k ≤ e - s →
  strncpy_from n d s k (copied m d s k) = Some (k + Z.of_nat n `min` (e - s - k), copied m d s (k + Z.of_nat n `min` (e - s - k))).
Proof using Hs.
  intros Hm Hd. revert k Hm. induction n as [|n IH]; intros k Hm Hk; cbn [strncpy_from].
  { rewrite Z.min_l by lia. by rewrite Z.add_0_r. }
  destruct (cstr_is_Some _ _ _ (s + k) Hs) as [c Ec]; [lia|].
  assert (copied m d s k !! (s + k) = Some c) as Ec' by (rewrite source_left by lia; done).
  rewrite (bind_Some _ _ _ _ _ (rd_byte_run _ _ _ Ec')). destruct (Z.eqb_spec c 0) as [->|Hc].
  - apply (cstr_zero _ _ _ _ Hs) in Ec; [|lia]. rewrite Z.min_r by lia. replace (e - s - k) with 0 by lia. by rewrite Z.add_0_r.
  - assert (s + k ≠ e) by (intros E; apply Hc; rewrite E in Ec; pose proof (proj1 (proj2 Hs)); congruence).
    rewrite (bind_Some _ _ _ _ _ (wr_byte_run _ _ c (copied_mapped _ _ s k _ _ Hm (d + k) ltac:(lia)))).
    rewrite copied_byte by (done || lia). rewrite IH by (lia || (by replace (k + 1 + Z.of_nat n) with (k + Z.of_nat (S n)) by lia)).
    by replace (k + 1 + Z.of_nat n `min` (e - s - (k + 1))) with (k + Z.of_nat (S n) `min` (e - s - k)) by lia.
Qed.
Lemma strncpy_run n : 0 < d → 0 ≤ n → mapped m d n → d ≤ s ∨ e < d →
  strncpy d s n m = Some (d, filled (copied m d s (n `min` (e - s))) (d + n `min` (e - s)) 0 (n - n `min` (e - s))).
Proof using Hs.
  intros Hd0 Hn Hm Hd. unfold strncpy. pose proof (proj1 Hs). destruct (Z.eqb_spec d 0); [lia|].
  destruct (Z.eqb_spec s 0); [lia|]. cbn [orb].
  pose proof (strncpy_from_run (Z.to_nat n) 0 ltac:(by rewrite Z2Nat.id by lia) Hd ltac:(lia)) as R.
  rewrite Z2Nat.id, !Z.add_0_l, Z.sub_0_r, copied_0 in R by lia. rewrite (bind_Some _ _ _ _ _ R).
  set (k := n `min` (e - s)). set (m1 := copied m d s k).
  assert (mapped m1 d n) as Hm1 by by apply copied_mapped.
  destruct (for_range_ind (λ j, wr_byte (d + j) 0) (λ j m', k ≤ j ∧ m' = filled m1 (d + k) 0 (j - k)) (Z.to_nat (n - k)) k m1) as (m' & R' & _ & ->).
  - split; [done|]. by rewrite Z.sub_diag.
  - intros j ? Hj [_ ->]. eexists. split; [|split; [lia|reflexivity]].
    rewrite wr_byte_run by (apply (filled_mapped _ _ _ _ _ _ Hm1); lia). do 2 f_equal.
    replace (j + 1 - k) with (j - k + 1) by lia. rewrite <- (filled_step m1 (d + k) 0 (j - k) 1) by lia.
    change (Z.to_nat 1) with 1%nat. cbn [replicate store]. f_equal. lia.
  - rewrite (bind_Some _ _ _ _ _ R'). unfold ret. do 3 f_equal. lia.
Qed.
End strcpy.

(** ** snprintf *)

(** *** Numerals *)
Definition digit_of (c : Z) : Z := if c <? 58 then c - 48 else c - 87.
Definition is_digit (base c : Z) : Prop := (48 ≤ c ≤ 57 ∨ 97 ≤ c) ∧ 0 ≤ digit_of c < base.
(** The value of a numeral, most significant digit first. *)
Definition num_value (base : Z) (cs : list Z) : Z := foldl (λ v c, v * base + digit_of c) 0 cs.
Definition numeral (base val : Z) : list Z := if val =? 0 then [48] else sn_digits 20 val base [].

Lemma digit_char_of base d : 2 ≤ base ≤ 36 → 0 ≤ d < base → digit_of (digit_char d) = d ∧ is_digit base (digit_char d).
Proof.
  intros Hb Hd. unfold is_digit, digit_of, digit_char. destruct (Z.ltb_spec d 10).
  - destruct (Z.ltb_spec (48 + d) 58); [lia|lia].
  - destruct (Z.ltb_spec (97 + d - 10) 58); [lia|lia].
Qed.
Lemma num_value_app base cs ds : num_value base (cs ++ ds) = num_value base cs * base ^ Z.of_nat (length ds) + num_value base ds.
Proof.
  unfold num_value. rewrite foldl_app. generalize (foldl (λ v c, v * base + digit_of c) 0 cs). induction ds as [|d ds IH] using rev_ind; intros v.
  - simpl. lia.
  - rewrite !foldl_app, IH, length_app. simpl. rewrite Nat.add_1_r, Nat2Z.inj_succ, Z.pow_succ_r by lia. lia.
Qed.
(** Digits are put in front of the ones made before; the first is not a zero. *)
Lemma sn_digits_spec base tn val acc : 2 ≤ base ≤ 36 → 0 < val < base ^ Z.of_nat tn →
  ∃ c cs, sn_digits tn val base acc = (c :: cs) ++ acc ∧ c ≠ 48 ∧ Forall (is_digit base) (c :: cs) ∧ num_value base (c :: cs) = val.
Proof.
  intros Hb. revert val acc. induction tn as [|tn IH]; intros val acc Hv; [simpl in Hv; lia|]. cbn [sn_digits].
  destruct (Z.ltb_spec 0 val); [|lia]. rewrite Nat2Z.inj_succ, Z.pow_succ_r in Hv by lia.
  pose proof (Z.div_mod val base ltac:(lia)) as Hdm. pose proof (Z.mod_pos_bound val base ltac:(lia)) as Hm.
  destruct (digit_char_of base (val mod base) Hb Hm) as [Hd Hdig].
  destruct (decide (val / base = 0)) as [E|Hq].
  - rewrite E. exists (digit_char (val mod base)), []. split; [by destruct tn|]. split.
    + intros Hc. rewrite Hc in Hd. change (digit_of 48) with 0 in Hd. lia.
    + split; [by constructor|]. unfold num_value. cbn. lia.
  - assert (0 < val / base < base ^ Z.of_nat tn) as Hq'.
    { pose proof (Z.div_pos val base). split; [lia|]. apply Z.div_lt_upper_bound; lia. }
    destruct (IH (val / base) (digit_char (val mod base) :: acc) Hq') as (c & cs & E & Hc & HF & Hval).
    exists c, (cs ++ [digit_char (val mod base)]). rewrite E. split; [by rewrite (app_comm_cons cs), <- app_assoc|].
    split; [done|]. split; [rewrite app_comm_cons; apply Forall_app; split; [done|by apply Forall_singleton]|].
    rewrite app_comm_cons, num_value_app, Hval. cbn [length]. change (Z.of_nat 1) with 1. rewrite Z.pow_1_r.
    unfold num_value. cbn. lia.
Qed.

(** *** What a format denotes *)
Definition render_conv (c : Z) (args : list arg) : option (list Z * list arg) :=
  if c =? 115 then match args with AStr s :: args => Some (default [40; 110; 117; 108; 108; 41] s, args) | _ => None end else
  if c =? 100 then match args with
    | AInt v :: args => Some (if v <? 0 then 45 :: numeral 10 (- v) else numeral 10 v, args) | _ => None end else
  if c =? 117 then match args with AU64 v :: args => Some (numeral 10 v, args) | _ => None end else
  if c =? 120 then match args with AU64 v :: args => Some (numeral 16 v, args) | _ => None end else
  if c =? 112 then match args with
    | APtr v :: args => Some (if v =? 0 then [40; 110; 105; 108; 41] else 48 :: 120 :: numeral 16 v, args) | _ => None end else
  if c =? 99 then match args with AChar v :: args => Some ([u8 v], args) | _ => None end else
  if c =? 37 then Some ([37], args) else
  Some ([37; c], args).
Fixpoint render (fmt : list Z) (args : list arg) : option (list Z) :=
  match fmt with
  | [] => Some []
  | p :: fmt =>
      if negb (p =? 37) then option_map (cons p) (render fmt args) else
      match fmt with
      | [] => Some [37]
      | c :: fmt =>
          match render_conv c args with
          | Some (w, args) => option_map (app w) (render fmt args)
          | None => None
          end
      end
  end.
Definition arg_ok (a : arg) : Prop := match a with AInt v => - 2 ^ 31 ≤ v < 2 ^ 31 | _ => True end.

(** *** The buffer *)
Section buffer.
Context (b0 : list Z) (size : Z) (Hsize : 0 < size ≤ Z.of_nat (length b0)).

Definition shown (w : list Z) : list Z := take (Z.to_nat (size - 1)) w.
(** The state after the characters [w] were produced. *)
Definition after (w : list Z) : out := mk_out (shown w ++ drop (length (shown w)) b0) (Z.of_nat (length w)).

Lemma length_after w : length (ob (after w)) = length b0.
Proof using Hsize. simpl. rewrite length_app, length_drop. unfold shown. rewrite length_take. lia. Qed.
Lemma shown_long w v : size - 1 ≤ Z.of_nat (length w) → shown (w ++ v) = shown w.
Proof using b0 Hsize. intros H. unfold shown. by rewrite take_app_le by lia. Qed.

Lemma sn_write_char_run w c : sn_write_char size c (after w) = Some (tt, after (w ++ [c])).
Proof using Hsize.
  unfold sn_write_char. cbn [opos after]. rewrite length_after. destruct (Z.ltb_spec (Z.of_nat (length w) + 1) size).
  - destruct (Z.ltb_spec (Z.of_nat (length w)) (Z.of_nat (length b0))); [|lia]. unfold after, shown.
    rewrite !take_ge, Nat2Z.id by (rewrite ?length_app; simpl; lia). simpl. do 3 f_equal.
    + rewrite insert_app_r_alt, Nat.sub_diag, length_app, <- app_assoc by lia. f_equal.
      destruct (drop (length w) b0) as [|x l] eqn:E; [apply (f_equal length) in E; rewrite length_drop in E; simpl in E; lia|].
      simpl. f_equal. by rewrite <- drop_drop, E.
    + rewrite length_app. simpl. lia.
  - unfold after. rewrite shown_long by lia. simpl. rewrite length_app. simpl. do 3 f_equal. lia.
Qed.
Lemma sn_write_chars_run w v : sn_write_chars size v (after w) = Some (tt, after (w ++ v)).
Proof using Hsize.
  revert w. induction v as [|c v IH]; intros w; cbn [sn_write_chars]; [by rewrite app_nil_r|].
  rewrite (bind_Some _ _ _ _ _ (sn_write_char_run w c)), IH, <- app_assoc. done.
Qed.
Lemma sn_write_uint_run w val base : sn_write_uint size val base (after w) = Some (tt, after (w ++ numeral base val)).
Proof using Hsize. apply sn_write_chars_run. Qed.
Lemma sn_write_int_run w v : - 2 ^ 31 ≤ v < 2 ^ 31 →
  sn_write_int size v (after w) = Some (tt, after (w ++ (if v <? 0 then 45 :: numeral 10 (- v) else numeral 10 v))).
Proof using Hsize.
  intros Hv. unfold sn_write_int, u64. destruct (Z.ltb_spec v 0).
  - rewrite (bind_Some _ _ _ _ _ (sn_write_char_run w 45)), sn_write_uint_run, <- app_assoc.
    rewrite (Z.mod_small (- (v + 1))), Z.mod_small by lia. replace (- (v + 1) + 1) with (- v) by lia. done.
  - by rewrite sn_write_uint_run, Z.mod_small by lia.
Qed.

Lemma convert_run c args w v args' : Forall arg_ok args → render_conv c args = Some (v, args') →
  convert size c args (after w) = Some (args', after (w ++ v)) ∧ Forall arg_ok args'.
Proof using Hsize.
  intros Hargs. unfold render_conv, convert.
  assert (∀ v0 s2 a, (sn_write_chars size v0 ;;; ret (A := list arg) a) (after s2) = Some (a, after (s2 ++ v0))) as Hw
    by (intros; by rewrite (bind_Some _ _ _ _ _ (sn_write_chars_run _ _))).
  repeat match goal with |- context [if ?b then _ else _] => destruct b end;
    try (destruct args as [|[] args]; [done|..]; try done; inversion Hargs; subst); intros [= <- <-]; (split; [|done]).
  - apply Hw.
  - by rewrite (bind_Some _ _ _ _ _ (sn_write_int_run w v0 ltac:(done))).
  - by rewrite (bind_Some _ _ _ _ _ (sn_write_uint_run w v0 10)).
  - by rewrite (bind_Some _ _ _ _ _ (sn_write_uint_run w v0 16)).
  - unfold sn_write_ptr. destruct (v0 =? 0); [apply Hw|]. unfold bind at 1.
    unfold sn_write_str. rewrite (bind_Some _ _ _ _ _ (sn_write_chars_run _ _)), sn_write_uint_run, <- app_assoc. done.
  - by rewrite (bind_Some _ _ _ _ _ (sn_write_char_run w _)).
  - by rewrite (bind_Some _ _ _ _ _ (sn_write_char_run w _)).
  - by rewrite (bind_Some _ _ _ _ _ (sn_write_char_run w _)), (bind_Some _ _ _ _ _ (sn_write_char_run _ _)), <- app_assoc.
Qed.

Lemma format_run fmt args w v : Forall arg_ok args → render fmt args = Some v →
  ∃ v', format size fmt args (after w) = Some (tt, after (w ++ v')) ∧
    (v' = v ∨ size ≤ Z.of_nat (length (w ++ v')) ∧ v' `prefix_of` v).
Proof using Hsize.
  intros Hargs E. assert (∃ n, (length fmt ≤ n)%nat) as [n Hn] by by eexists.
  revert fmt Hn args w v Hargs E. induction n as [|n IH]; intros [|p fmt] Hn args w v Hargs E; simpl in Hn; try lia.
  1,2: injection E as <-; exists []; split; [by rewrite app_nil_r|by left].
  cbn [format render] in *. rewrite bind_gets. cbn [opos after]. destruct (Z.leb_spec size (Z.of_nat (length w))).
  { exists []. rewrite app_nil_r. split; [done|]. right. split; [done|]. apply prefix_nil. }
  assert (∀ u fmt' args' v2, Forall arg_ok args' → (length fmt' ≤ n)%nat → render fmt' args' = Some v2 →
    ∃ v', format size fmt' args' (after (w ++ u)) = Some (tt, after (w ++ v')) ∧
      (v' = u ++ v2 ∨ size ≤ Z.of_nat (length (w ++ v')) ∧ v' `prefix_of` u ++ v2)) as Hrest.
  { intros u fmt' args' v2 Ha' Hl E2. destruct (IH fmt' Hl args' (w ++ u) v2 Ha' E2) as (v' & R & Hv'). exists (u ++ v').
    rewrite app_assoc. split; [done|]. destruct Hv' as [->|[]]; [by left|right]. split; [done|]. by apply prefix_app. }
  destruct (p =? 37) eqn:Ep; cbn [negb] in *.
  - destruct fmt as [|c fmt].
    + injection E as <-. exists [37]. split; [apply sn_write_char_run|by left].
    + destruct (render_conv c args) as [[u args']|] eqn:Ec; [|done].
      destruct (convert_run c args w u args' Hargs Ec) as [R Hargs']. rewrite (bind_Some _ _ _ _ _ R).
      destruct (render fmt args') as [v2|] eqn:E2; [|done]. injection E as <-. apply (Hrest u fmt args' v2); [done|simpl in Hn; lia|done].
  - rewrite (bind_Some _ _ _ _ _ (sn_write_char_run w p)). destruct (render fmt args) as [v2|] eqn:E2; [|done].
    injection E as <-. by apply (Hrest [p] fmt args v2); [|lia|].
Qed.
End buffer.

(** A numeral denotes the number it was made from, in digits of the base and
    without leading zeros. *)
Lemma numeral_value base val : base = 10 ∨ base = 16 → 0 ≤ val < 2 ^ 64 →
  num_value base (numeral base val) = val ∧ Forall (is_digit base) (numeral base val) ∧
  (head (numeral base val) = Some 48 → numeral base val = [48]).
Proof.
  intros Hb Hv. unfold numeral. destruct (Z.eqb_spec val 0) as [->|].
  - destruct Hb as [-> | ->]; (split; [done|]); (split; [|done]); constructor; try constructor; unfold is_digit; cbn; lia.
  - assert (0 < val < base ^ Z.of_nat 20) as Hv' by (destruct Hb as [-> | ->]; lia).
    destruct (sn_digits_spec base 20 val [] ltac:(lia) Hv') as (c & cs & -> & Hc & HF & E). rewrite app_nil_r.
    split; [done|]. split; [done|]. by intros [= ->].
Qed.

(** ** The functions of string.c *)

(** C33: Formatted output stays inside its buffer and is a C string: [snprintf]
    with any format and matching arguments never writes past [size], leaves
    the first [size - 1] characters of what the format denotes, then a
    terminator, then the old bytes; the result is the length of that text when
    it was not cut off.  Numbers are rendered as numerals that denote them. *)
Theorem snprintf_correct b size fmt args w : 0 < size ≤ Z.of_nat (length b) → Forall arg_ok args → render fmt args = Some w →
  let t := take (Z.to_nat (size - 1)) w in
  ∃ n, snprintf (Some b) size (Some fmt) args = Some (n, Some (t ++ 0 :: drop (length t + 1) b)) ∧
    (Z.of_nat (length w) < size → Z.of_nat (length w) < 2 ^ 31 → n = Z.of_nat (length w)) ∧
    ∀ base val, base = 10 ∨ base = 16 → 0 ≤ val < 2 ^ 64 → num_value base (numeral base val) = val.
Proof.
  intros Hs Ha E t. destruct (format_run b size Hs fmt args [] w Ha E) as (v & R & Hv). cbn [app] in *.
  unfold snprintf. destruct (Z.eqb_spec size 0); [lia|]. assert (after b size [] = mk_out b 0) as <- by (unfold after, shown; by rewrite take_nil). rewrite R.
  cbn [opos after]. rewrite length_after by done.
  assert (shown size v = t) as Ht.
  { unfold shown, t. destruct Hv as [->|[Hl [k ->]]]; [done|]. by rewrite take_app_le by lia. }
  assert (Z.to_nat (if Z.of_nat (length v) <? size then Z.of_nat (length v) else size - 1) = length t) as He.
  { rewrite <- Ht. unfold shown. rewrite length_take. destruct (Z.ltb_spec (Z.of_nat (length v)) size); lia. }
  eexists. split; [|split; [|intros; by apply numeral_value]].
  - assert (length t < length b)%nat as Hlt by (rewrite <- Ht; unfold shown; rewrite length_take; lia).
    destruct (Z.ltb_spec (if Z.of_nat (length v) <? size then Z.of_nat (length v) else size - 1) (Z.of_nat (length b))) as [_|C];
      [|destruct (Z.ltb_spec (Z.of_nat (length v)) size); lia].
    rewrite He. cbn [ob after]. rewrite Ht. do 3 f_equal. rewrite insert_app_r_alt, Nat.sub_diag by lia. f_equal.
    destruct (drop (length t) b) as [|x l] eqn:Ed; [apply (f_equal length) in Ed; rewrite length_drop in Ed; simpl in Ed; lia|].
    simpl. f_equal. by rewrite <- drop_drop, Ed.
  - intros Hw H31. destruct Hv as [->|[Hl [k ->]]]; [|rewrite length_app in Hw; lia]. unfold i32. rewrite Z.mod_small; lia.
Qed.

(** [strlen] is the distance to the terminator: on any mapped string the
    word-at-a-time scan ends, whatever the alignment of the string, reads only
    aligned words that meet the string, and returns the number of bytes before
    the terminator. *)
Theorem strlen_correct m s e fuel : memory_ok m → words_mapped m → cstr m s e → e - s < 8 * Z.of_nat fuel →
  strlen fuel s m = Some (e - s, m).
Proof. intros. by apply strlen_run. Qed.

(** [strcmp] is the comparison of the C standard: for two mapped strings of
    any alignment it ends and returns the difference, as unsigned characters,
    of the first bytes that differ or terminate them; so zero exactly for
    equal strings. *)
Theorem strcmp_correct m a b ea eb fuel : memory_ok m → words_mapped m → cstr m a ea → cstr m b eb → ea - a < Z.of_nat fuel →
  ∃ r, strcmp fuel a b m = Some (r, m) ∧ compares m a b r ∧
    (r = 0 → load m a (Z.to_nat (ea - a)) = load m b (Z.to_nat (eb - b))).
Proof.
  intros Hm Hw Ha Hb Hf. destruct (strcmp_run m a b ea eb Hm Hw Ha Hb fuel Hf) as (r & R & Hr). exists r. do 2 (split; [done|]).
  intros ->. by apply compares_0.
Qed.

(** Blocks of memory: [memcpy] to a destination that does not start inside
    the source leaves exactly the source's bytes there, whether it goes by
    words or by bytes; [memset] leaves [n] copies of the byte; [memcmp] is the
    first difference, and zero exactly for equal blocks. *)
Theorem memory_blocks_correct m d s n c : memory_ok m → mapped m d n → mapped m s n → 0 ≤ n → d ≤ s ∨ s + n ≤ d →
  memcpy d s n m = Some (d, store m d (load m s (Z.to_nat n))) ∧
  memset d c n m = Some (d, store m d (replicate (Z.to_nat n) (u8 c))) ∧
  ∃ r, memcmp d s n m = Some (r, m) ∧ (r = 0 ↔ load m d (Z.to_nat n) = load m s (Z.to_nat n)).
Proof.
  intros Hm Hd Hs Hn Hdir. split; [by apply memcpy_run|]. split; [by apply memset_run|].
  eexists. split; [by apply memcmp_run|]. apply lex_diff_0. by rewrite !length_load.
Qed.

(** *** A concrete memory: three strings in five words *)
Definition demo_memory : memory :=
  store ∅ 64 ([0; 0; 0; 104; 101; 108; 108; 111; 32; 119; 111; 114; 108; 100; 0; 7] ++   (* "hello world" at 67 *)
              [9; 104; 101; 108; 108; 200; 0; 0] ++ replicate 16 5).                     (* "hell\310" at 81 *)
Lemma store_dom a bs x : is_Some (store ∅ a bs !! x) → a ≤ x < a + Z.of_nat (length bs).
Proof.
  intros H. destruct (decide (a ≤ x < a + Z.of_nat (length bs))); [done|]. rewrite store_lookup_out in H by lia. by destruct H.
Qed.
Lemma store_all a bs x : a ≤ x < a + Z.of_nat (length bs) → is_Some (store ∅ a bs !! x).
Proof.
  generalize (∅ : memory). revert a. induction bs as [|b bs IH]; intros a m Hx; [simpl in Hx; lia|]. cbn [store length] in *.
  destruct (decide (x = a)) as [->|]; [apply store_mapped; rewrite lookup_insert_eq; by eexists|apply IH; lia].
Qed.
Lemma demo_memory_ok : memory_ok demo_memory.
Proof. apply memory_ok_store; [done|]. apply (bool_decide_unpack _). by vm_compute. Qed.
Lemma demo_memory_mapped a n : 64 ≤ a → a + n ≤ 104 → mapped demo_memory a n.
Proof. intros Ha Hn x Hx. apply store_all. simpl. lia. Qed.
Lemma demo_memory_words : words_mapped demo_memory.
Proof.
  intros x y Hx E. apply store_dom in Hx. apply store_all. simpl in *. pose proof (Z.div_mod x 8 ltac:(lia)).
  pose proof (Z.div_mod y 8 ltac:(lia)). pose proof (Z.mod_pos_bound x 8). pose proof (Z.mod_pos_bound y 8). lia.
Qed.
Lemma demo_cstr s n : 0 < s → 0 ≤ n →
  forallb (λ k, bool_decide (default 0 (demo_memory !! (s + Z.of_nat k)) ≠ 0)) (seq 0 (Z.to_nat n)) = true →
  demo_memory !! (s + n) = Some 0 → cstr demo_memory s (s + n).
Proof.
  intros Hs Hn HF He. split; [lia|]. split; [done|]. intros x Hx. rewrite forallb_forall in HF.
  specialize (HF (Z.to_nat (x - s))). rewrite Z2Nat.id in HF by lia. replace (s + (x - s)) with x in HF by lia.
  assert (default 0 (demo_memory !! x) ≠ 0) as Hc by (eapply bool_decide_unpack, Is_true_true, HF, in_seq; lia).
  destruct (demo_memory !! x) as [c|]; [by exists c|done].
Qed.

Lemma snprintf_correct_witness : ∃ n, snprintf (Some (replicate 12 7)) 8 (Some [37; 100; 61; 37; 115; 37; 120]) [AInt (-45); AStr (Some [111; 107]); AU64 4095] =
  Some (n, Some ([45; 52; 53; 61; 111; 107; 102] ++ [0; 7; 7; 7; 7])) ∧ (Z.of_nat 9 < 8 → Z.of_nat 9 < 2 ^ 31 → n = Z.of_nat 9) ∧
  ∀ base val, base = 10 ∨ base = 16 → 0 ≤ val < 2 ^ 64 → num_value base (numeral base val) = val.
Proof.
  apply (snprintf_correct (replicate 12 7) 8 [37; 100; 61; 37; 115; 37; 120] [AInt (-45); AStr (Some [111; 107]); AU64 4095]
    [45; 52; 53; 61; 111; 107; 102; 102; 102]); [simpl; lia| |by vm_compute].
  repeat constructor; simpl; lia.
Defined.
Lemma strlen_correct_witness : strlen 3 67 demo_memory = Some (67 + 11 - 67, demo_memory).
Proof.
  apply strlen_correct; [apply demo_memory_ok|apply demo_memory_words| |lia]. apply demo_cstr; [lia..|by vm_compute|by vm_compute].
Defined.
Lemma strcmp_correct_witness : ∃ r, strcmp 20 67 81 demo_memory = Some (r, demo_memory) ∧ compares demo_memory 67 81 r ∧
  (r = 0 → load demo_memory 67 (Z.to_nat (67 + 11 - 67)) = load demo_memory 81 (Z.to_nat (81 + 5 - 81))).
Proof.
  apply strcmp_correct; [apply demo_memory_ok|apply demo_memory_words|apply demo_cstr; [lia..|by vm_compute|by vm_compute]| |lia].
  apply demo_cstr; [lia..|by vm_compute|by vm_compute].
Defined.
Lemma memory_blocks_correct_witness :
  memcpy 64 80 16 demo_memory = Some (64, store demo_memory 64 (load demo_memory 80 (Z.to_nat 16))) ∧
  memset 64 (-1) 16 demo_memory = Some (64, store demo_memory 64 (replicate (Z.to_nat 16) (u8 (-1)))) ∧
  ∃ r, memcmp 64 80 16 demo_memory = Some (r, demo_memory) ∧ (r = 0 ↔ load demo_memory 64 (Z.to_nat 16) = load demo_memory 80 (Z.to_nat 16)).
Proof. apply memory_blocks_correct; [apply demo_memory_ok|apply demo_memory_mapped; lia..|lia|lia]. Defined.
