(* ===== verification/ModuleSign.v ===== *)
(** * kernel/module_sign.c: SHA-256 and the signature of kernel modules.

    Arrays are lists; an index outside an array has no outcome ([Bytes]). *)
From S2P Require Import Prelude Bytes.
Local Open Scope Z_scope.

(** ** SHA-256 *)
Definition sha256_k : list Z := concat [
  [0x428a2f98; 0x71374491; 0xb5c0fbcf; 0xe9b5dba5];
  [0x3956c25b; 0x59f111f1; 0x923f82a4; 0xab1c5ed5];
  [0xd807aa98; 0x12835b01; 0x243185be; 0x550c7dc3];
  [0x72be5d74; 0x80deb1fe; 0x9bdc06a7; 0xc19bf174];
  [0xe49b69c1; 0xefbe4786; 0x0fc19dc6; 0x240ca1cc];
  [0x2de92c6f; 0x4a7484aa; 0x5cb0a9dc; 0x76f988da];
  [0x983e5152; 0xa831c66d; 0xb00327c8; 0xbf597fc7];
  [0xc6e00bf3; 0xd5a79147; 0x06ca6351; 0x14292967];
  [0x27b70a85; 0x2e1b2138; 0x4d2c6dfc; 0x53380d13];
  [0x650a7354; 0x766a0abb; 0x81c2c92e; 0x92722c85];
  [0xa2bfe8a1; 0xa81a664b; 0xc24b8b70; 0xc76c51a3];
  [0xd192e819; 0xd6990624; 0xf40e3585; 0x106aa070];
  [0x19a4c116; 0x1e376c08; 0x2748774c; 0x34b0bcb5];
  [0x391c0cb3; 0x4ed8aa4a; 0x5b9cca4f; 0x682e6ff3];
  [0x748f82ee; 0x78a5636f; 0x84c87814; 0x8cc70208];
  [0x90befffa; 0xa4506ceb; 0xbef9a3f7; 0xc67178f2] ].

Definition sha256_rotr (x n : Z) : Z := Z.lor (Z.shiftr x n) (u32 (Z.shiftl x (32 - n))).
Definition not32 (x : Z) : Z := u32 (Z.lnot x).

Definition load_word (block : list Z) (i : Z) (w : list Z) : option (list Z) :=
  b0 ← at_ block (i * 4); b1 ← at_ block (i * 4 + 1); b2 ← at_ block (i * 4 + 2); b3 ← at_ block (i * 4 + 3);
  set_ w i (Z.lor (Z.lor (Z.lor (Z.shiftl b0 24) (Z.shiftl b1 16)) (Z.shiftl b2 8)) b3).
Definition extend_word (i : Z) (w : list Z) : option (list Z) :=
  w15 ← at_ w (i - 15); w2 ← at_ w (i - 2); w16 ← at_ w (i - 16); w7 ← at_ w (i - 7);
  let s0 := Z.lxor (Z.lxor (sha256_rotr w15 7) (sha256_rotr w15 18)) (Z.shiftr w15 3) in
  let s1 := Z.lxor (Z.lxor (sha256_rotr w2 17) (sha256_rotr w2 19)) (Z.shiftr w2 10) in
  set_ w i (u32 (w16 + s0 + w7 + s1)).

(** The working variables [a] to [h]. *)
Record vars := mk_vars { va : Z; vb : Z; vc : Z; vd : Z; ve : Z; vf : Z; vg : Z; vh : Z }.
Definition sha_round (w : list Z) (i : Z) (v : vars) : option vars :=
  k ← at_ sha256_k i; wi ← at_ w i;
  let '(mk_vars a b c d e f g h) := v in
  let S1 := Z.lxor (Z.lxor (sha256_rotr e 6) (sha256_rotr e 11)) (sha256_rotr e 25) in
  let ch := Z.lxor (Z.land e f) (Z.land (not32 e) g) in
  let t1 := u32 (h + S1 + ch + k + wi) in
  let S0 := Z.lxor (Z.lxor (sha256_rotr a 2) (sha256_rotr a 13)) (sha256_rotr a 22) in
  let maj := Z.lxor (Z.lxor (Z.land a b) (Z.land a c)) (Z.land b c) in
  let t2 := u32 (S0 + maj) in
  Some (mk_vars (u32 (t1 + t2)) a b c (u32 (d + t1)) e f g).

Definition sha256_transform (state block : list Z) : option (list Z) :=
  w ← iter_from 16 0 (load_word block) (replicate 64 0);
  w ← iter_from 48 16 extend_word w;
  match state with
  | [a; b; c; d; e; f; g; h] =>
      v ← iter_from 64 0 (sha_round w) (mk_vars a b c d e f g h);
      Some [u32 (a + va v); u32 (b + vb v); u32 (c + vc v); u32 (d + vd v);
            u32 (e + ve v); u32 (f + vf v); u32 (g + vg v); u32 (h + vh v)]
  | _ => None
  end.

Definition sha256_init : list Z := [
  0x6a09e667; 0xbb67ae85; 0x3c6ef372; 0xa54ff53a;
  0x510e527f; 0x9b05688c; 0x1f83d9ab; 0x5be0cd19 ].

(** The locals [state], [block] and [block_idx] of [sha256]. *)
Record sha := mk_sha { sh_state : list Z; sh_block : list Z; sh_idx : Z }.
Definition put_byte (b : Z) (s : sha) : option sha :=
  blk ← set_ (sh_block s) (sh_idx s) b; Some (mk_sha (sh_state s) blk (sh_idx s + 1)).
Definition flush (s : sha) : option sha :=
  st ← sha256_transform (sh_state s) (sh_block s); Some (mk_sha st (sh_block s) 0).
Definition absorb (b : Z) (s : sha) : option sha :=
  s ← put_byte b s; if sh_idx s =? 64 then flush s else Some s.
Fixpoint absorb_all (data : list Z) (s : sha) : option sha :=
  match data with [] => Some s | b :: data => s ← absorb b s; absorb_all data s end.
(** [memset(block + block_idx, 0, n)]. *)
Definition zero_block (n : Z) (s : sha) : option sha :=
  blk ← iter_from (Z.to_nat n) (sh_idx s) (λ i blk, set_ blk i 0) (sh_block s); Some (mk_sha (sh_state s) blk (sh_idx s)).

Definition word_bytes (v : Z) : list Z := [u8 (Z.shiftr v 24); u8 (Z.shiftr v 16); u8 (Z.shiftr v 8); u8 v].
(** [junk] is the uninitialised [block]. *)
Definition sha256 (junk data : list Z) : option (list Z) :=
  let bit_len := u64 (Z.of_nat (length data) * 8) in
  s ← absorb_all data (mk_sha sha256_init junk 0);
  s ← put_byte 0x80 s;
  s ← (if 56 <? sh_idx s then s ← zero_block (64 - sh_idx s) s; flush s else Some s);
  s ← zero_block (56 - sh_idx s) s;
  blk ← iter_from 8 0 (λ i blk, set_ blk (56 + i) (u8 (Z.shiftr bit_len (56 - i * 8)))) (sh_block s);
  st ← sha256_transform (sh_state s) blk;
  Some (concat (map word_bytes st)).

(** ** Module signatures *)
Fixpoint ct_diff (n : nat) (a b : list Z) (i : Z) (result : Z) : option Z :=
  match n with
  | O => Some result
  | S n => x ← at_ a i; y ← at_ b i; ct_diff n a b (i + 1) (u8 (Z.lor result (Z.lxor x y)))
  end.
Definition constant_time_memcmp (a b : list Z) (len : Z) : option Z := ct_diff (Z.to_nat len) a b 0 0.

Definition MODULE_SIGN_MAGIC : Z := 0x434F4F4C504F5431.
Definition MODULE_SIGN_VERSION : Z := 1.
Definition MODULE_SIGN_SIZE : Z := 64.
Definition public_key : list Z := [
  0x41; 0x75; 0x72; 0x6f; 0x72; 0x61; 0x4f; 0x53;
  0x5f; 0x4d; 0x6f; 0x64; 0x75; 0x6c; 0x65; 0x4b;
  0x65; 0x79; 0x5f; 0x32; 0x30; 0x32; 0x36; 0x30;
  0x36; 0x31; 0x39; 0x5f; 0x76; 0x31; 0x2e; 0x30 ] ++ replicate 32 0.

(** The header in memory: [magic], [version], [sig_size], [signature], [reserved]. *)
Definition HEADER_SIZE : Z := 112.
Definition h_magic (h : list Z) : Z := le_value (take 8 h).
Definition h_version (h : list Z) : Z := le_value (take 4 (drop 8 h)).
Definition h_sig_size (h : list Z) : Z := le_value (take 4 (drop 12 h)).
Definition h_signature (h : list Z) : list Z := take 64 (drop 16 h).

Definition expected_signature (hash : list Z) : option (list Z) :=
  e ← iter_from 32 0 (λ i e, x ← at_ hash i; k ← at_ public_key i; set_ e i (Z.lxor x k)) (replicate 64 0);
  iter_from 32 32 (λ i e, k ← at_ public_key i; set_ e i k) e.

(** [module_data] is the memory of the module, absent for a null pointer. *)
Definition module_sign_verify (junk : list Z) (module_data : option (list Z)) : option Z :=
  match module_data with
  | None => Some (-1)
  | Some m =>
      let module_size := Z.of_nat (length m) in
      if module_size <? HEADER_SIZE then Some (-1) else
      let hdr := drop (Z.to_nat (module_size - HEADER_SIZE)) m in
      if negb (h_magic hdr =? MODULE_SIGN_MAGIC) then Some (-1) else
      if negb (h_version hdr =? MODULE_SIGN_VERSION) then Some (-1) else
      if negb (h_sig_size hdr =? MODULE_SIGN_SIZE) then Some (-1) else
      let data_size := module_size - HEADER_SIZE in
      computed_hash ← sha256 junk (take (Z.to_nat data_size) m);
      expected ← expected_signature computed_hash;
      r ← constant_time_memcmp expected (h_signature hdr) MODULE_SIGN_SIZE;
      if negb (r =? 0) then Some (-1) else Some 0
  end.

(** ** The standard's hash function

    SHA-256 as FIPS 180-4 defines it, on whole messages: arithmetic rotations,
    the message schedule as a recurrence on the words made so far (newest
    first), the padded message cut into blocks. *)
Module Fips.
Definition rotr (n x : Z) : Z := x / 2 ^ n + x mod 2 ^ n * 2 ^ (32 - n).
Definition Ch (x y z : Z) : Z := Z.lxor (Z.land x y) (Z.ldiff z x).
Definition Maj (x y z : Z) : Z := Z.lxor (Z.lxor (Z.land x y) (Z.land x z)) (Z.land y z).
Definition Sigma0 (x : Z) : Z := Z.lxor (Z.lxor (rotr 2 x) (rotr 13 x)) (rotr 22 x).
Definition Sigma1 (x : Z) : Z := Z.lxor (Z.lxor (rotr 6 x) (rotr 11 x)) (rotr 25 x).
Definition sigma0 (x : Z) : Z := Z.lxor (Z.lxor (rotr 7 x) (rotr 18 x)) (x / 2 ^ 3).
Definition sigma1 (x : Z) : Z := Z.lxor (Z.lxor (rotr 17 x) (rotr 19 x)) (x / 2 ^ 10).

Definition be_word (bs : list Z) : Z := foldl (λ v b, v * 256 + b) 0 bs.
Definition be_bytes (n : nat) (v : Z) : list Z := reverse (le_bytes n v).

Definition message_words (block : list Z) : list Z := map (λ j, be_word (take 4 (drop (Z.to_nat (4 * j)) block))) (seqZ 0 16).
Fixpoint expand (n : nat) (ws : list Z) : list Z :=
  match n with
  | O => ws
  | S n => expand n ((sigma1 (nth 1 ws 0) + nth 6 ws 0 + sigma0 (nth 14 ws 0) + nth 15 ws 0) mod 2 ^ 32 :: ws)
  end.
Definition schedule (block : list Z) : list Z := reverse (expand 48 (reverse (message_words block))).

Definition round (v : vars) (kw : Z * Z) : vars :=
  let '(mk_vars a b c d e f g h) := v in
  let T1 := (h + Sigma1 e + Ch e f g + kw.1 + kw.2) mod 2 ^ 32 in
  let T2 := (Sigma0 a + Maj a b c) mod 2 ^ 32 in
  mk_vars ((T1 + T2) mod 2 ^ 32) a b c ((d + T1) mod 2 ^ 32) e f g.
Definition of_list (st : list Z) : vars :=
  mk_vars (nth 0 st 0) (nth 1 st 0) (nth 2 st 0) (nth 3 st 0) (nth 4 st 0) (nth 5 st 0) (nth 6 st 0) (nth 7 st 0).
Definition to_list (v : vars) : list Z := [va v; vb v; vc v; vd v; ve v; vf v; vg v; vh v].
Definition compress (st block : list Z) : list Z :=
  zip_with (λ x y, (x + y) mod 2 ^ 32) st (to_list (foldl round (of_list st) (zip sha256_k (schedule block)))).

Fixpoint chunks (n : nat) (l : list Z) : list (list Z) :=
  match n with O => [] | S n => take 64 l :: chunks n (drop 64 l) end.
Definition padded (data : list Z) : list Z :=
  let len := Z.of_nat (length data) in
  data ++ 128 :: replicate (Z.to_nat ((55 - len) mod 64)) 0 ++ be_bytes 8 (8 * len).
Definition sha256 (data : list Z) : list Z :=
  let p := padded data in
  concat (map (be_bytes 4) (foldl compress sha256_init (chunks (length p / 64) p))).
End Fips.

(** ** The compression function *)
Definition word32 (x : Z) : Prop := 0 ≤ x < 2 ^ 32.
#[export] Instance word32_dec x : Decision (word32 x) := _.
Create HintDb words.

Lemma word32_u32 x : word32 (u32 x).
Proof. apply u32_bound. Qed.
Lemma word32_mod x : word32 (x mod 2 ^ 32).
Proof. apply u32_bound. Qed.
#[export] Hint Resolve word32_u32 word32_mod : words.

Lemma rotr_eq x n : word32 x → 0 < n < 32 → sha256_rotr x n = Fips.rotr n x.
Proof.
  intros Hx Hn. unfold sha256_rotr, Fips.rotr, u32. rewrite Z.shiftr_div_pow2, Z.shiftl_mul_pow2 by lia.
  replace (2 ^ 32) with (2 ^ n * 2 ^ (32 - n)) by (rewrite <- Z.pow_add_r by lia; f_equal; lia).
  rewrite Z.mul_mod_distr_r, Z.lor_comm by lia. rewrite lor_add; [lia|lia|]. split; [apply Z.div_pos; unfold word32 in Hx; lia|].
  apply Z.div_lt_upper_bound; [lia|]. rewrite <- Z.pow_add_r by lia. replace (n + (32 - n)) with 32 by lia. apply Hx.
Qed.
Lemma ch_eq e f g : word32 g → Z.lxor (Z.land e f) (Z.land (not32 e) g) = Fips.Ch e f g.
Proof.
  intros Hg. unfold Fips.Ch, not32, u32. f_equal. apply Z.bits_inj'. intros i Hi. rewrite Z.land_spec, Z.ldiff_spec.
  destruct (Z.ltb_spec i 32).
  - rewrite Z.mod_pow2_bits_low, Z.lnot_spec by lia. apply andb_comm.
  - rewrite Z.mod_pow2_bits_high by lia. by rewrite (proj1 (width_bits 32 g ltac:(lia)) Hg i) by lia.
Qed.

Definition vars_ok (v : vars) : Prop := Forall word32 (Fips.to_list v).
Lemma round_ok v kw : vars_ok v → vars_ok (Fips.round v kw).
Proof.
  destruct v as [a b c d e f g h]. unfold vars_ok, Fips.to_list. cbn [Fips.round va vb vc vd ve vf vg vh].
  intros H. rewrite !Forall_cons in H. destruct H as (Ha & Hb & Hc & Hd & He & Hf & Hg & Hh & _).
  repeat apply Forall_cons_2; try apply Forall_nil_2; done || apply word32_mod.
Qed.
Lemma sha_round_eq w i k x v : vars_ok v → at_ sha256_k i = Some k → at_ w i = Some x → sha_round w i v = Some (Fips.round v (k, x)).
Proof.
  intros Hv Ek Ex. unfold sha_round. rewrite Ek, Ex. cbn [mbind option_bind]. destruct v as [a b c d e f g h].
  unfold vars_ok, Fips.to_list in Hv. cbn [va vb vc vd ve vf vg vh] in Hv. rewrite !Forall_cons in Hv.
  destruct Hv as (Ha & Hb & Hc & Hd & He & Hf & Hg & Hh & _). by rewrite !rotr_eq, ch_eq by (done || lia).
Qed.

Lemma be_word_4 b0 b1 b2 b3 : is_byte b0 → is_byte b1 → is_byte b2 → is_byte b3 →
  Z.lor (Z.lor (Z.lor (Z.shiftl b0 24) (Z.shiftl b1 16)) (Z.shiftl b2 8)) b3 = Fips.be_word [b0; b1; b2; b3].
Proof.
  unfold is_byte, Fips.be_word. intros H0 H1 H2 H3. cbn [foldl]. rewrite !Z.shiftl_mul_pow2 by lia.
  rewrite (lor_add b0 (b1 * 2 ^ 16) 24) by lia.
  replace (b0 * 2 ^ 24 + b1 * 2 ^ 16) with ((b0 * 2 ^ 8 + b1) * 2 ^ 16) by lia. rewrite (lor_add _ (b2 * 2 ^ 8) 16) by lia.
  replace ((b0 * 2 ^ 8 + b1) * 2 ^ 16 + b2 * 2 ^ 8) with (((b0 * 2 ^ 8 + b1) * 2 ^ 8 + b2) * 2 ^ 8) by lia.
  rewrite (lor_add _ b3 8) by lia. lia.
Qed.
Lemma be_word_bound bs : bytes bs → 0 ≤ Fips.be_word bs < 256 ^ Z.of_nat (length bs).
Proof.
  unfold Fips.be_word. induction bs as [|b bs IH] using rev_ind; intros HB; [simpl; lia|].
  apply Forall_app in HB as [HB Hb]. rewrite Forall_singleton in Hb. specialize (IH HB). rewrite foldl_app, length_app, Nat.add_1_r, Nat2Z.inj_succ, Z.pow_succ_r by lia.
  cbn [foldl]. unfold is_byte in Hb. lia.
Qed.
Lemma take4_drop (l : list Z) (k : nat) : (k + 4 ≤ length l)%nat →
  take 4 (drop k l) = [nth k l 0; nth (k + 1) l 0; nth (k + 2) l 0; nth (k + 3) l 0].
Proof.
  intros H. rewrite <- (firstn_skipn k l) at 2 3 4 5. assert (length (take k l) = k) as Hk by (rewrite length_take; lia).
  assert (4 ≤ length (drop k l))%nat as Hd by (rewrite length_drop; lia).
  rewrite !app_nth2 by lia. rewrite Hk. replace (k - k)%nat with 0%nat by lia. replace (k + 1 - k)%nat with 1%nat by lia.
  replace (k + 2 - k)%nat with 2%nat by lia. replace (k + 3 - k)%nat with 3%nat by lia.
  destruct (drop k l) as [|? [|? [|? [|? ?]]]]; simpl in *; try lia. done.
Qed.

(** *** The message schedule *)
Section block.
Context (block : list Z) (Hlen : length block = 64%nat) (Hb : bytes block).

Lemma load_words_run : iter_from 16 0 (load_word block) (replicate 64 0) = Some (Fips.message_words block ++ replicate 48 0).
Proof using Hlen Hb.
  change (replicate 64 0) with ([] ++ replicate 64 0) at 1.
  rewrite (iter_set 16 0 0 (λ j, Fips.be_word (take 4 (drop (Z.to_nat (4 * j)) block)))); [done| |done|simpl; lia].
  intros j w Hj _. unfold load_word. rewrite !at_nth by lia. cbn [mbind option_bind].
  assert (∀ i, (i < 64)%nat → is_byte (nth i block 0)) as Hn.
  { intros i Hi. apply (proj1 (Forall_forall is_byte block) Hb). apply list_elem_of_In, nth_In. lia. }
  rewrite be_word_4 by (apply Hn; lia). rewrite take4_drop by lia. do 2 f_equal.
  replace (Z.to_nat (j * 4)) with (Z.to_nat (4 * j)) by lia. replace (Z.to_nat (j * 4 + 1)) with (Z.to_nat (4 * j) + 1)%nat by lia.
  replace (Z.to_nat (j * 4 + 2)) with (Z.to_nat (4 * j) + 2)%nat by lia.
  by replace (Z.to_nat (j * 4 + 3)) with (Z.to_nat (4 * j) + 3)%nat by lia.
Qed.
Lemma message_words_ok : Forall word32 (Fips.message_words block) ∧ length (Fips.message_words block) = 16%nat.
Proof using Hlen Hb.
  unfold Fips.message_words. split; [|by rewrite length_map, length_seqZ].
  apply Forall_forall. intros x (j & -> & Hj)%list_elem_of_fmap. apply elem_of_seqZ in Hj.
  assert (length (take 4 (drop (Z.to_nat (4 * j)) block)) = 4%nat) as El by (rewrite length_take, length_drop; lia).
  pose proof (be_word_bound (take 4 (drop (Z.to_nat (4 * j)) block))) as B. rewrite El in B. apply B. by apply bytes_take, bytes_drop.
Qed.
End block.

Lemma expand_ok n ws : Forall word32 ws → Forall word32 (Fips.expand n ws) ∧ length (Fips.expand n ws) = (n + length ws)%nat.
Proof.
  revert ws. induction n as [|n IH]; intros ws H; [done|]. cbn [Fips.expand].
  match goal with |- context [Fips.expand n (?x :: ws)] => destruct (IH (x :: ws)) as [HF HL] end.
  - apply Forall_cons_2; [apply word32_mod|done].
  - split; [done|]. rewrite HL. simpl. lia.
Qed.
Lemma at_reverse R post i j : i = Z.of_nat (length R) - 1 - Z.of_nat j → (j < length R)%nat →
  at_ (reverse R ++ post) i = Some (nth j R 0).
Proof.
  intros -> Hj. rewrite at_lookup, lookup_app_l, reverse_lookup by (rewrite ?length_reverse; lia).
  destruct (lookup_lt_is_Some_2 R j) as [x E]; [lia|]. rewrite (nth_lookup_Some _ _ _ _ E), <- E. f_equal. lia.
Qed.
Lemma nth_word ws j : Forall word32 ws → word32 (nth j ws 0).
Proof.
  intros H. destruct (decide (j < length ws)%nat).
  - apply (proj1 (Forall_forall word32 ws) H), list_elem_of_In, nth_In. lia.
  - rewrite nth_overflow by lia. unfold word32. lia.
Qed.
Lemma extend_words_run n R : Forall word32 R → (16 ≤ length R)%nat → (n + length R = 64)%nat →
  iter_from n (Z.of_nat (length R)) extend_word (reverse R ++ replicate n 0) = Some (reverse (Fips.expand n R)).
Proof.
  revert R. induction n as [|n IH]; intros R HF HR Hn; [by rewrite app_nil_r|]. cbn [iter_from Fips.expand].
  unfold extend_word.
  rewrite (at_reverse R _ (Z.of_nat (length R) - 15) 14), (at_reverse R _ (Z.of_nat (length R) - 2) 1), (at_reverse R _ (Z.of_nat (length R) - 16) 15),
    (at_reverse R _ (Z.of_nat (length R) - 7) 6) by lia. cbn [mbind option_bind].
  rewrite !rotr_eq by (lia || by apply nth_word). rewrite !Z.shiftr_div_pow2 by lia.
  rewrite (set_at _ _ _ (reverse R) (replicate n 0) 0) by (done || by rewrite length_reverse).
  match goal with |- context [Fips.expand n (?x :: R)] => set (y := x) end.
  assert (∀ v, v = y → iter_from n (Z.of_nat (length R) + 1) extend_word (reverse R ++ v :: replicate n 0) = Some (reverse (Fips.expand n (y :: R)))) as H.
  { intros v ->. rewrite <- IH; [|apply Forall_cons_2; [apply word32_mod|done]|simpl; lia|simpl; lia].
    rewrite reverse_cons, <- app_assoc. f_equal. simpl. lia. }
  apply H. unfold y, u32, Fips.sigma0, Fips.sigma1. f_equal. lia.
Qed.

(** *** A block *)
Lemma rounds_run w n i v : vars_ok v → length w = 64%nat → 0 ≤ i → i + Z.of_nat n = 64 →
  iter_from n i (sha_round w) v = Some (foldl Fips.round v (zip (drop (Z.to_nat i) sha256_k) (drop (Z.to_nat i) w))).
Proof.
  intros Hv Hw. revert i v Hv. induction n as [|n IH]; intros i v Hv Hi Hn.
  - rewrite (drop_ge sha256_k) by (simpl; lia). done.
  - destruct (lookup_lt_is_Some_2 sha256_k (Z.to_nat i)) as [k Ek]; [simpl; lia|].
    destruct (lookup_lt_is_Some_2 w (Z.to_nat i)) as [x Ex]; [lia|]. cbn [iter_from].
    rewrite (sha_round_eq w i k x v) by (done || (rewrite at_lookup; done)).
    rewrite IH by (lia || by apply round_ok). rewrite (drop_S _ _ _ Ek), (drop_S _ _ _ Ex). cbn [zip zip_with foldl].
    by replace (Z.to_nat (i + 1)) with (S (Z.to_nat i)) by lia.
Qed.
Lemma compress_ok st block : length st = 8%nat → Forall word32 (Fips.compress st block) ∧ length (Fips.compress st block) = 8%nat.
Proof.
  intros Hl. unfold Fips.compress. split; [|rewrite length_zip_with; simpl; lia].
  apply Forall_forall. intros x H. apply elem_of_lookup_zip_with in H as (i & a & b & -> & _). apply word32_mod.
Qed.
Lemma finish_eq a b c d e f g h v :
  [u32 (a + va v); u32 (b + vb v); u32 (c + vc v); u32 (d + vd v); u32 (e + ve v); u32 (f + vf v); u32 (g + vg v); u32 (h + vh v)] =
  zip_with (λ x y, (x + y) mod 2 ^ 32) [a; b; c; d; e; f; g; h] (Fips.to_list v).
Proof. reflexivity. Qed.
Lemma schedule_run block : length block = 64%nat → bytes block →
  (w ← iter_from 16 0 (load_word block) (replicate 64 0); iter_from 48 16 extend_word w) = Some (Fips.schedule block) ∧
  length (Fips.schedule block) = 64%nat.
Proof.
  intros Hlb Hb. rewrite (load_words_run block) by done. destruct (message_words_ok block Hlb Hb) as [MW ML].
  assert (Forall word32 (reverse (Fips.message_words block))) as MR by by apply Forall_reverse.
  assert (length (reverse (Fips.message_words block)) = 16%nat) as MRL by by rewrite length_reverse.
  rewrite <- (reverse_involutive (Fips.message_words block)) at 1. unfold Fips.schedule.
  revert MR MRL. generalize (reverse (Fips.message_words block)). clear. intros R HR HL. split.
  - change 16 with (Z.of_nat 16). rewrite <- HL. apply extend_words_run; [done|lia|lia].
  - rewrite length_reverse, (proj2 (expand_ok 48 R HR)). lia.
Qed.
Lemma transform_run st block : length st = 8%nat → Forall word32 st → length block = 64%nat → bytes block →
  sha256_transform st block = Some (Fips.compress st block).
Proof.
  intros Hl HF Hlb Hb. destruct (schedule_run block Hlb Hb) as [R HS]. revert R HS. unfold sha256_transform, Fips.compress.
  generalize (Fips.schedule block). intros w R HS.
  destruct (iter_from 16 0 (load_word block) (replicate 64 0)) as [w1|]; [|discriminate R].
  cbn [mbind option_bind] in R |- *. rewrite R. cbn [mbind option_bind].
  destruct st as [|a [|b [|c [|d [|e [|f [|g [|h [|]]]]]]]]]; try discriminate Hl.
  rewrite (rounds_run w 64 0) by (exact HF || exact HS || lia). cbn [mbind option_bind]. rewrite !drop_0, finish_eq.
  change (Fips.of_list [a; b; c; d; e; f; g; h]) with (mk_vars a b c d e f g h). done.
Qed.

(** ** The message *)
Definition sha_ok (s : sha) : Prop :=
  length (sh_state s) = 8%nat ∧ Forall word32 (sh_state s) ∧ length (sh_block s) = 64%nat ∧ bytes (sh_block s).

Lemma compress_state st block : length st = 8%nat → length (Fips.compress st block) = 8%nat ∧ Forall word32 (Fips.compress st block).
Proof. intros H. by destruct (compress_ok st block H). Qed.
Lemma flush_run st blk i : length st = 8%nat → Forall word32 st → length blk = 64%nat → bytes blk →
  flush (mk_sha st blk i) = Some (mk_sha (Fips.compress st blk) blk 0).
Proof. intros. unfold flush. cbn [sh_state sh_block]. by rewrite transform_run. Qed.
Lemma put_run st pre x rest b : put_byte b (mk_sha st (pre ++ x :: rest) (Z.of_nat (length pre))) =
  Some (mk_sha st ((pre ++ [b]) ++ rest) (Z.of_nat (length (pre ++ [b])))).
Proof.
  unfold put_byte. cbn [sh_state sh_block sh_idx]. rewrite (set_at _ _ _ pre rest x) by done. cbn [mbind option_bind].
  rewrite length_app, <- app_assoc. simpl. do 3 f_equal. lia.
Qed.
(** Bytes that do not fill the block. *)
Lemma absorb_part st data pre rest : (length data < length rest)%nat → (length pre + length rest = 64)%nat →
  absorb_all data (mk_sha st (pre ++ rest) (Z.of_nat (length pre))) =
  Some (mk_sha st ((pre ++ data) ++ drop (length data) rest) (Z.of_nat (length (pre ++ data)))).
Proof.
  revert pre rest. induction data as [|b data IH]; intros pre rest Hd Hr; cbn [absorb_all]; [by rewrite app_nil_r|].
  destruct rest as [|x rest]; [simpl in Hd; lia|]. unfold absorb. rewrite put_run. cbn [mbind option_bind sh_idx].
  simpl in Hd, Hr. destruct (Z.eqb_spec (Z.of_nat (length (pre ++ [b]))) 64) as [E|_]; [rewrite length_app in E; simpl in E; lia|].
  cbn [mbind option_bind]. rewrite IH; [|lia|rewrite length_app; simpl; lia]. by rewrite <- (app_assoc pre).
Qed.
Lemma absorb_app d1 d2 s : absorb_all (d1 ++ d2) s = (s ← absorb_all d1 s; absorb_all d2 s).
Proof.
  revert s. induction d1 as [|b d1 IH]; intros s; [done|]. cbn [absorb_all app].
  destruct (absorb b s); [|done]. cbn [mbind option_bind]. apply IH.
Qed.
Lemma absorb_block st data junk : length st = 8%nat → Forall word32 st → length junk = 64%nat → length data = 64%nat → bytes data →
  absorb_all data (mk_sha st junk 0) = Some (mk_sha (Fips.compress st data) data 0).
Proof.
  intros Hl HF Hj Hd HB. destruct (decide (data = [])) as [->|Hn]; [done|].
  destruct (exists_last Hn) as (d1 & b & ->). rewrite length_app in Hd. simpl in Hd. rewrite absorb_app.
  pose proof (absorb_part st d1 [] junk) as R. cbn [app length] in R. change (Z.of_nat 0) with 0 in R. rewrite R by lia. cbn [mbind option_bind].
  destruct (drop (length d1) junk) as [|x rest] eqn:E; [apply (f_equal length) in E; rewrite length_drop in E; simpl in E; lia|].
  assert (rest = []) as -> by (apply length_zero_iff_nil; apply (f_equal length) in E; rewrite length_drop in E; simpl in E; lia).
  cbn [absorb_all]. unfold absorb. rewrite put_run. cbn [mbind option_bind sh_idx]. rewrite length_app. simpl length.
  destruct (Z.eqb_spec (Z.of_nat (length d1 + 1)) 64); [|lia]. rewrite app_nil_r, flush_run; [done|done|done|rewrite length_app; simpl; lia|done].
Qed.

(** Whole blocks, then the rest of the message. *)
Lemma absorb_run n data st junk : length st = 8%nat → Forall word32 st → length junk = 64%nat → bytes data → bytes junk →
  (64 * n ≤ length data < 64 * n + 64)%nat →
  ∃ rest, absorb_all data (mk_sha st junk 0) =
      Some (mk_sha (foldl Fips.compress st (Fips.chunks n data)) (drop (64 * n) data ++ rest) (Z.of_nat (length (drop (64 * n) data)))) ∧
    (length (drop (64 * n) data) + length rest = 64)%nat ∧ bytes rest.
Proof.
  revert data st junk. induction n as [|n IH]; intros data st junk Hl HF Hj HB HJ Hn.
  - exists (drop (length data) junk). rewrite drop_0. pose proof (absorb_part st data [] junk) as R. cbn [app length] in R.
    change (Z.of_nat 0) with 0 in R. split; [apply R; lia|]. split; [rewrite length_drop; lia|by apply bytes_drop].
  - assert (length (take 64 data) = 64%nat) as Ht by (rewrite length_take; lia).
    destruct (compress_state st (take 64 data) Hl) as [Hl' HF'].
    destruct (IH (drop 64 data) (Fips.compress st (take 64 data)) (take 64 data)) as (rest & R & Hr & HBr);
      [done|done|done|by apply bytes_drop|by apply bytes_take|rewrite length_drop; lia|].
    rewrite drop_drop in R, Hr. replace (64 + 64 * n)%nat with (64 * S n)%nat in R, Hr by lia.
    exists rest. split; [|done]. rewrite <- (take_drop 64 data) at 1. rewrite absorb_app.
    rewrite absorb_block by (done || by apply bytes_take). cbn [mbind option_bind]. rewrite R. done.
Qed.

Lemma zero_block_run st pre rest n : (n ≤ length rest)%nat →
  zero_block (Z.of_nat n) (mk_sha st (pre ++ rest) (Z.of_nat (length pre))) =
  Some (mk_sha st (pre ++ replicate n 0 ++ drop n rest) (Z.of_nat (length pre))).
Proof.
  intros Hn. unfold zero_block. cbn [sh_state sh_block sh_idx]. rewrite Nat2Z.id.
  rewrite (iter_set n _ 0 (λ _, 0)); [|by intros|lia|done]. cbn [mbind option_bind]. do 4 f_equal.
  clear. generalize (Z.of_nat (length pre)). induction n as [|n IH]; intros i; [done|]. rewrite seqZ_cons by lia. simpl.
  f_equal. replace (Z.pred (Z.of_nat (S n))) with (Z.of_nat n) by lia. apply IH.
Qed.
Lemma be_bytes_8 v : Fips.be_bytes 8 v = map (λ i, u8 (Z.shiftr v (56 - i * 8))) (seqZ 0 8).
Proof.
  unfold Fips.be_bytes, u8. change (seqZ 0 8) with [0; 1; 2; 3; 4; 5; 6; 7]. cbn [map le_bytes]. rewrite !Z.div_div by lia.
  rewrite !Z.shiftr_div_pow2 by lia. cbn [reverse rev_append]. change (reverse ?l) with (rev_append l []). cbn [rev_append].
  replace (v / 2 ^ (56 - 7 * 8)) with v by (change (2 ^ (56 - 7 * 8)) with 1; by rewrite Z.div_1_r). done.
Qed.
Lemma word_bytes_eq v : word_bytes v = Fips.be_bytes 4 v.
Proof.
  unfold word_bytes, Fips.be_bytes, u8. cbn [le_bytes]. rewrite !Z.div_div by lia. rewrite !Z.shiftr_div_pow2 by lia.
  change (reverse ?l) with (rev_append l []). done.
Qed.
Lemma bytes_be n v : bytes (Fips.be_bytes n v).
Proof. apply Forall_reverse, le_bytes_byte. Qed.
Lemma length_be n v : length (Fips.be_bytes n v) = n.
Proof. unfold Fips.be_bytes. by rewrite length_reverse, length_le_bytes. Qed.

(** The last block: the length after the first 56 bytes. *)
Lemma length_run st pre rest v : length pre = 56%nat → length rest = 8%nat → length st = 8%nat → Forall word32 st → bytes pre →
  (blk ← iter_from 8 0 (λ i blk, set_ blk (56 + i) (u8 (Z.shiftr v (56 - i * 8)))) (pre ++ rest);
   st ← sha256_transform st blk; Some (concat (map word_bytes st))) =
  Some (concat (map (Fips.be_bytes 4) (Fips.compress st (pre ++ Fips.be_bytes 8 v)))).
Proof.
  intros Hp Hr Hl HF HB. rewrite (iter_set 8 0 56 (λ i, u8 (Z.shiftr v (56 - i * 8)))); [|by intros|lia|lia].
  rewrite (drop_ge rest) by lia. rewrite app_nil_r. change (Z.of_nat 8) with 8. rewrite <- be_bytes_8. cbn [mbind option_bind].
  rewrite transform_run; [|done|done|rewrite length_app, length_be; lia|apply bytes_app; [done|apply bytes_be]].
  cbn [mbind option_bind]. f_equal. f_equal. apply map_ext, word_bytes_eq.
Qed.

Lemma chunks_app n k data tl : length data = (64 * n)%nat → Fips.chunks (n + k) (data ++ tl) = Fips.chunks n data ++ Fips.chunks k tl.
Proof.
  revert data. induction n as [|n IH]; intros data H; [by destruct data|]. cbn [Fips.chunks Nat.add app].
  rewrite take_app_le, drop_app_le by lia. f_equal. apply IH. rewrite length_drop. lia.
Qed.
Lemma chunks_take n data : (64 * n ≤ length data)%nat → Fips.chunks n (take (64 * n) data) = Fips.chunks n data.
Proof.
  revert data. induction n as [|n IH]; intros data H; [done|]. cbn [Fips.chunks]. rewrite take_take, Nat.min_l by lia. f_equal.
  rewrite <- (IH (drop 64 data)) by (rewrite length_drop; lia). rewrite take_drop_commute. do 3 f_equal. lia.
Qed.

Lemma div_mod_nat n : (n = 64 * (n / 64) + n mod 64 ∧ n mod 64 < 64)%nat.
Proof. split; [apply Nat.div_mod; lia|apply Nat.mod_upper_bound; lia]. Qed.
Lemma pad_length (data : list Z) : let r := (length data mod 64)%nat in
  Z.to_nat ((55 - Z.of_nat (length data)) mod 64) = (if r <=? 55 then 55 - r else 119 - r)%nat.
Proof.
  intros r. destruct (div_mod_nat (length data)) as [E Hr]. fold r in E, Hr. destruct (Nat.leb_spec r 55).
  - rewrite <- (Z.mod_unique (55 - Z.of_nat (length data)) 64 (- Z.of_nat (length data / 64)) (55 - Z.of_nat r)); lia.
  - rewrite <- (Z.mod_unique (55 - Z.of_nat (length data)) 64 (- Z.of_nat (length data / 64) - 1) (119 - Z.of_nat r)); lia.
Qed.
(** The padded message is the whole blocks and one or two more. *)
Lemma padded_chunks (data tail : list Z) k : tail = drop (64 * (length data / 64)) data →
  length (tail ++ 128 :: replicate (Z.to_nat ((55 - Z.of_nat (length data)) mod 64)) 0) = (64 * k + 56)%nat →
  let p := Fips.padded data in
  Fips.chunks (length p / 64) p = Fips.chunks (length data / 64) data ++
    Fips.chunks (S k) ((tail ++ 128 :: replicate (Z.to_nat ((55 - Z.of_nat (length data)) mod 64)) 0) ++ Fips.be_bytes 8 (8 * Z.of_nat (length data))).
Proof.
  intros -> Hk p. set (n := (length data / 64)%nat) in *. set (z := replicate _ 0) in *.
  assert (64 * n ≤ length data)%nat as Hn by (pose proof (div_mod_nat (length data)); lia).
  assert (p = take (64 * n) data ++ (drop (64 * n) data ++ 128 :: z) ++ Fips.be_bytes 8 (8 * Z.of_nat (length data))) as E.
  { rewrite !app_assoc, take_drop. unfold p, Fips.padded. by rewrite <- app_assoc. }
  assert (length (take (64 * n) data) = (64 * n)%nat) as Ht by (rewrite length_take; lia).
  assert (length p / 64 = n + S k)%nat as ->.
  { rewrite E, !length_app, Ht, length_be. rewrite length_app in Hk. symmetry. apply (Nat.div_unique _ _ _ 0); lia. }
  rewrite E, chunks_app by done. by rewrite chunks_take.
Qed.

Lemma sha256_run junk data : length junk = 64%nat → bytes junk → bytes data → Z.of_nat (length data) < 2 ^ 61 →
  sha256 junk data = Some (Fips.sha256 data).
Proof.
  intros Hj HJ HB Hlen. unfold sha256, Fips.sha256. rewrite u64_small by lia. rewrite (Z.mul_comm (Z.of_nat _)).
  destruct (div_mod_nat (length data)) as [Ed Hr]. set (n := (length data / 64)%nat) in *. set (r := (length data mod 64)%nat) in *.
  destruct (absorb_run n data sha256_init junk) as (rest & R & Hrest & HBr); [done|decided|done|done|done|lia|].
  rewrite R. cbn [mbind option_bind]. set (tail := drop (64 * n) data) in *.
  assert (length tail = r) as Htl by (unfold tail; rewrite length_drop; lia).
  assert (bytes tail) as HBt by by apply bytes_drop.
  destruct rest as [|x rest]; [simpl in Hrest; lia|]. rewrite put_run. cbn [mbind option_bind sh_idx].
  assert (length (foldl Fips.compress sha256_init (Fips.chunks n data)) = 8%nat ∧
    Forall word32 (foldl Fips.compress sha256_init (Fips.chunks n data))) as [Hl HF].
  { clear. generalize (Fips.chunks n data). intros l. assert (length sha256_init = 8%nat ∧ Forall word32 sha256_init) as H by (split; [done|decided]).
    revert H. generalize sha256_init. induction l as [|b l IH]; intros st [H1 H2]; [done|]. cbn [foldl]. apply IH, compress_state, H1. }
  set (st := foldl _ _ _) in *. simpl in Hrest.
  assert (length (tail ++ [128]) = (r + 1)%nat) as Ht1 by (rewrite length_app; simpl; lia).
  assert (bytes (tail ++ [128])) as HB1 by auto with bytes.
  pose proof (pad_length data) as Hpad. fold r in Hpad. cbv zeta in Hpad.
  destruct (Z.ltb_spec 56 (Z.of_nat (length (tail ++ [128])))) as [H56|H56].
  - (* one more block, then a block of zeros *)
    revert Hpad. destruct (Nat.leb_spec r 55); [lia|intros Hpad].
    replace (64 - Z.of_nat (length (tail ++ [128]))) with (Z.of_nat (length rest)) by lia.
    rewrite zero_block_run, drop_all, app_nil_r by lia. cbn [mbind option_bind].
    rewrite flush_run; [|done|done|rewrite length_app, length_replicate; lia|auto with bytes]. cbn [mbind option_bind sh_idx].
    set (b1 := (tail ++ [128]) ++ replicate (length rest) 0). change (56 - 0) with (Z.of_nat 56).
    assert (length b1 = 64%nat) as Hb1 by (unfold b1; rewrite length_app, length_replicate; lia).
    destruct (compress_state st b1 Hl) as [Hl' HF'].
    pose proof (zero_block_run (Fips.compress st b1) [] b1 56) as Z1. cbn [app length] in Z1. change (Z.of_nat 0) with 0 in Z1.
    rewrite Z1 by lia. cbn [mbind option_bind sh_block sh_state].
    rewrite length_run; [|done|rewrite length_drop; lia|done|done|auto with bytes].
    pose proof (padded_chunks data tail 1 eq_refl) as PC. rewrite Hpad in PC. cbv zeta in PC. fold n in PC.
    rewrite PC by (rewrite length_app; cbn [length]; rewrite length_replicate; lia). rewrite foldl_app. fold st.
    replace (119 - r)%nat with (length rest + 56)%nat by lia. rewrite replicate_add.
    replace ((tail ++ 128 :: replicate (length rest) 0 ++ replicate 56 0) ++ Fips.be_bytes 8 (8 * Z.of_nat (length data)))
      with (b1 ++ replicate 56 0 ++ Fips.be_bytes 8 (8 * Z.of_nat (length data))) by (unfold b1; rewrite <- !app_assoc; cbn [app]; by rewrite <- !app_assoc).
    cbn [Fips.chunks foldl]. rewrite (take_app_le b1), (drop_app_le b1), take_ge, (drop_ge b1) by lia. cbn [app].
    rewrite take_ge by (rewrite length_app, length_be, length_replicate; lia). done.
  - (* the padding fits *)
    revert Hpad. destruct (Nat.leb_spec r 55); [intros Hpad|lia]. cbn [mbind option_bind sh_idx].
    replace (56 - Z.of_nat (length (tail ++ [128]))) with (Z.of_nat (55 - r)) by lia.
    rewrite zero_block_run by lia. cbn [mbind option_bind sh_block sh_state]. rewrite app_assoc.
    rewrite length_run; [|rewrite length_app, length_replicate; lia|rewrite length_drop; lia|done|done|auto with bytes].
    pose proof (padded_chunks data tail 0 eq_refl) as PC. rewrite Hpad in PC. cbv zeta in PC. fold n in PC.
    rewrite PC by (rewrite length_app; cbn [length]; rewrite length_replicate; lia). rewrite foldl_app. fold st. cbn [Fips.chunks foldl].
    replace (tail ++ 128 :: replicate (55 - r) 0) with ((tail ++ [128]) ++ replicate (55 - r) 0) by (by rewrite <- app_assoc).
    rewrite take_ge; [done|]. rewrite !length_app, length_be, length_replicate. simpl. lia.
Qed.

(** ** Signatures *)
Lemma ct_diff_run n a b i r : 0 ≤ i → i + Z.of_nat n ≤ Z.of_nat (length a) → length a = length b → bytes a → bytes b → is_byte r →
  ∃ r', ct_diff n a b i r = Some r' ∧
    (r' = 0 ↔ r = 0 ∧ take n (drop (Z.to_nat i) a) = take n (drop (Z.to_nat i) b)).
Proof.
  intros Hi Hn Hl HA HB. revert i r Hi Hn. induction n as [|n IH]; intros i r Hi Hn Hr; [exists r; split; [done|tauto]|]. cbn [ct_diff].
  destruct (lookup_lt_is_Some_2 a (Z.to_nat i)) as [x Ex]; [lia|]. destruct (lookup_lt_is_Some_2 b (Z.to_nat i)) as [y Ey]; [lia|].
  rewrite !at_lookup, Ex, Ey by lia. cbn [mbind option_bind].
  pose proof (Forall_lookup_1 _ _ _ _ HA Ex) as Hx. pose proof (Forall_lookup_1 _ _ _ _ HB Ey) as Hy.
  assert (is_byte (Z.lor r (Z.lxor x y))) as Hb.
  { unfold is_byte in *. change 256 with (2 ^ 8) in *. apply lor_bound; [lia|done|]. by apply lxor_bound. }
  unfold u8. change (2 ^ 8) with 256. rewrite Z.mod_small by done.
  destruct (IH (i + 1) _ ltac:(lia) ltac:(lia) Hb) as (r' & R & Hr'). exists r'. split; [done|]. rewrite Hr'.
  rewrite (drop_S _ _ _ Ex), (drop_S _ _ _ Ey). cbn [take]. replace (Z.to_nat (i + 1)) with (S (Z.to_nat i)) by lia.
  rewrite Z.lor_eq_0_iff, Z.lxor_eq_0_iff. split; [intros [[-> ->] ->]; done|]. intros [-> [= -> ->]]. done.
Qed.
Lemma constant_time_run a b len : 0 ≤ len → Z.of_nat (length a) = len → length a = length b → bytes a → bytes b →
  ∃ r, constant_time_memcmp a b len = Some r ∧ (r = 0 ↔ a = b).
Proof.
  intros Hn Ha Hl HA HB. destruct (ct_diff_run (Z.to_nat len) a b 0 0) as (r & R & Hr); [lia|lia|done..|decided|]. exists r. split; [done|].
  rewrite Hr. rewrite !drop_0, !take_ge by lia. tauto.
Qed.

(** The signature of a digest: the hash and 32 zero bytes, each with its key byte. *)
Definition signature_of (hash : list Z) : list Z := zip_with Z.lxor (hash ++ replicate 32 0) public_key.
Lemma expected_run hash : length hash = 32%nat → expected_signature hash = Some (signature_of hash).
Proof.
  intros H. unfold expected_signature.
  change (replicate 64 0) with ([] ++ replicate 64 0) at 1.
  rewrite (iter_set 32 0 0 (λ i, Z.lxor (nth (Z.to_nat i) hash 0) (nth (Z.to_nat i) public_key 0))); [|..|simpl; lia|simpl; lia].
  2:{ intros j w Hj _. rewrite !at_nth by (rewrite ?H; simpl; lia). done. }
  cbn [app mbind option_bind]. change (drop 32 (replicate 64 0)) with (replicate 32 0).
  rewrite (iter_set 32 32 0 (λ i, nth (Z.to_nat i) public_key 0)); [|..|rewrite length_map, length_seqZ; lia|simpl; lia].
  2:{ intros j w Hj _. rewrite !at_nth by (simpl; lia). done. }
  do 32 (destruct hash as [|? hash]; [discriminate H|]). destruct hash; [|discriminate H]. vm_compute. done.
Qed.
Lemma signature_bytes hash : bytes hash → bytes (signature_of hash).
Proof.
  intros H. unfold signature_of. apply Forall_forall. intros x (i & a & b & -> & Ea & Eb)%elem_of_lookup_zip_with.
  assert (bytes (hash ++ replicate 32 0)) as Ha by auto with bytes. assert (bytes public_key) as Hk by decided.
  pose proof (Forall_lookup_1 _ _ _ _ Ha Ea) as H1. pose proof (Forall_lookup_1 _ _ _ _ Hk Eb) as H2.
  unfold is_byte in *. change 256 with (2 ^ 8) in *. by apply lxor_bound.
Qed.
Lemma fips_digest data : length (Fips.sha256 data) = 32%nat ∧ bytes (Fips.sha256 data).
Proof.
  unfold Fips.sha256. set (p := Fips.padded data). assert (length (foldl Fips.compress sha256_init (Fips.chunks (length p / 64) p)) = 8%nat) as Hl.
  { clearbody p. assert (length sha256_init = 8%nat) as H by done. revert H. generalize sha256_init, (Fips.chunks (length p / 64) p).
    intros st l. revert st. induction l as [|b l IH]; intros st H; [done|]. cbn [foldl]. apply IH, compress_state, H. }
  revert Hl. generalize (foldl Fips.compress sha256_init (Fips.chunks (length p / 64) p)). intros st Hl. split.
  - do 8 (destruct st as [|? st]; [discriminate Hl|]). destruct st; [|discriminate Hl]. done.
  - clear Hl. induction st as [|w st IH]; [constructor|]. cbn [map concat]. apply bytes_app; [apply bytes_be|done].
Qed.

(** A module with its header. *)
Definition header_of (signature reserved : list Z) : list Z :=
  le_bytes 8 MODULE_SIGN_MAGIC ++ le_bytes 4 MODULE_SIGN_VERSION ++ le_bytes 4 MODULE_SIGN_SIZE ++ signature ++ reserved.
Definition signed (m : list Z) : Prop :=
  ∃ data reserved, length reserved = 32%nat ∧ m = data ++ header_of (signature_of (Fips.sha256 data)) reserved.

(** The fields of a header determine it. *)
Lemma header_fields h : length h = 112%nat → bytes h → h_magic h = MODULE_SIGN_MAGIC → h_version h = MODULE_SIGN_VERSION →
  h_sig_size h = MODULE_SIGN_SIZE → h = header_of (h_signature h) (drop 80 h).
Proof.
  intros Hl HB E1 E2 E3. unfold header_of, h_magic, h_version, h_sig_size, h_signature in *. rewrite <- E1, <- E2, <- E3.
  assert (∀ n l, (n ≤ length l)%nat → bytes l → le_bytes n (le_value (take n l)) = take n l) as Hle.
  { intros n l Hn Hb. rewrite <- (le_bytes_value (take n l)) at 2 by by apply bytes_take. rewrite length_take. by rewrite Nat.min_l by lia. }
  rewrite !Hle by (rewrite ?length_drop; lia || by apply bytes_drop || done).
  assert (∀ n k, drop n h = take k (drop n h) ++ drop (n + k) h) as Hs by (intros; by rewrite <- drop_drop, take_drop).
  rewrite <- (take_drop 8 h) at 1. f_equal. rewrite (Hs 8%nat 4%nat) at 1. f_equal. rewrite (Hs (8 + 4)%nat 4%nat) at 1. f_equal.
  rewrite (Hs (8 + 4 + 4)%nat 64%nat) at 1. done.
Qed.
Lemma of_header s r : length s = 64%nat → h_magic (header_of s r) = MODULE_SIGN_MAGIC ∧ h_version (header_of s r) = MODULE_SIGN_VERSION ∧
  h_sig_size (header_of s r) = MODULE_SIGN_SIZE ∧ h_signature (header_of s r) = s.
Proof.
  intros Hs. repeat split. unfold h_signature, header_of. change (drop 16 _) with (s ++ r). by rewrite take_app_length'.
Qed.

Lemma module_data_dec junk m : length junk = 64%nat → bytes junk → bytes m → Z.of_nat (length m) < 2 ^ 61 →
  (module_sign_verify junk (Some m) = Some 0 ∧ signed m) ∨ (module_sign_verify junk (Some m) = Some (-1) ∧ ¬ signed m).
Proof.
  intros Hj HJ HB Hlen. unfold module_sign_verify, HEADER_SIZE.
  assert (signed m → 112 ≤ Z.of_nat (length m)) as Hsl.
  { intros (data & res & Hr & ->). rewrite length_app. unfold header_of. rewrite !length_app, !length_le_bytes, Hr.
    unfold signature_of. rewrite length_zip_with, length_app, length_replicate, (proj1 (fips_digest data)). simpl. lia. }
  destruct (Z.ltb_spec (Z.of_nat (length m)) 112); [right; split; [done|intros H'; specialize (Hsl H'); lia]|].
  set (k := Z.to_nat (Z.of_nat (length m) - 112)). set (h := drop k m).
  assert (length h = 112%nat) as Hh by (unfold h; rewrite length_drop; lia).
  assert (bytes h) as HBh by by apply bytes_drop.
  assert (signed m → h = header_of (signature_of (Fips.sha256 (take k m))) (drop 80 h)) as Hs.
  { intros (data & res & Hr & E).
    assert (length (header_of (signature_of (Fips.sha256 data)) res) = 112%nat) as Hhl.
    { unfold header_of. rewrite !length_app, !length_le_bytes, Hr. unfold signature_of.
      rewrite length_zip_with, length_app, length_replicate, (proj1 (fips_digest data)). done. }
    assert (length data = k) as Hd by (unfold k; rewrite E, length_app, Hhl; lia).
    assert (take k m = data) as -> by (rewrite E; by apply take_app_length').
    assert (h = header_of (signature_of (Fips.sha256 data)) res) as Ehd by (unfold h; rewrite E; by apply drop_app_length').
    rewrite Ehd at 1. f_equal. rewrite Ehd. unfold header_of. rewrite !app_assoc. symmetry. apply drop_app_length'.
    rewrite !length_app, !length_le_bytes. unfold signature_of. rewrite length_zip_with, length_app, length_replicate, (proj1 (fips_digest data)). done. }
  assert (length (signature_of (Fips.sha256 (take k m))) = 64%nat) as Hsg.
  { unfold signature_of. rewrite length_zip_with, length_app, length_replicate, (proj1 (fips_digest (take k m))). done. }
  destruct (of_header (signature_of (Fips.sha256 (take k m))) (drop 80 h) Hsg) as (F1 & F2 & F3 & F4).
  destruct (Z.eqb_spec (h_magic h) MODULE_SIGN_MAGIC) as [E1|N1]; cbn [negb].
  2:{ right. split; [done|]. intros H'. apply N1. by rewrite (Hs H'). }
  destruct (Z.eqb_spec (h_version h) MODULE_SIGN_VERSION) as [E2|N2]; cbn [negb].
  2:{ right. split; [done|]. intros H'. apply N2. by rewrite (Hs H'). }
  destruct (Z.eqb_spec (h_sig_size h) MODULE_SIGN_SIZE) as [E3|N3]; cbn [negb].
  2:{ right. split; [done|]. intros H'. apply N3. by rewrite (Hs H'). }
  fold k. rewrite sha256_run by (done || (by apply bytes_take) || (rewrite length_take; lia)). cbn [mbind option_bind].
  rewrite expected_run by apply fips_digest. cbn [mbind option_bind].
  destruct (constant_time_run (signature_of (Fips.sha256 (take k m))) (h_signature h) MODULE_SIGN_SIZE) as (r & R & Hr).
  - done.
  - by rewrite Hsg.
  - rewrite Hsg. unfold h_signature. rewrite length_take, length_drop. lia.
  - apply signature_bytes, fips_digest.
  - by apply bytes_take, bytes_drop.
  - rewrite R. cbn [mbind option_bind]. destruct (Z.eqb_spec r 0) as [E4|N4]; cbn [negb].
    + left. split; [done|]. exists (take k m), (drop 80 h). split; [rewrite length_drop; lia|].
      rewrite (proj1 Hr E4). rewrite <- (header_fields h) by done. unfold h. by rewrite take_drop.
    + right. split; [done|]. intros H'. apply N4, Hr. rewrite (Hs H') at 1. by rewrite F4.
Qed.

(** ** Properties *)

(** C31: The hash of the code is SHA-256: for every message shorter than [2^61]
    bytes, whatever the uninitialised block held, the byte-by-byte loop with
    its two padding cases and the in-place message schedule never leaves an
    array and returns the digest that FIPS 180-4 defines on the padded message. *)
Theorem sha256_correct junk data : length junk = 64%nat → bytes junk → bytes data → Z.of_nat (length data) < 2 ^ 61 →
  sha256 junk data = Some (Fips.sha256 data).
Proof. apply sha256_run. Qed.

(** C32: Signature verification of modules: the check ends on every image,
    accepts exactly the images that are some data followed by a header with the
    right magic, version and size whose 64 signature bytes are the SHA-256 of
    the data and zeros combined with the built-in key, and rejects every other
    one.  The key is public, so every data can be completed to an image that
    is accepted. *)
Theorem module_sign_verify_correct junk m : length junk = 64%nat → bytes junk → bytes m → Z.of_nat (length m) < 2 ^ 61 →
  (module_sign_verify junk (Some m) = Some 0 ↔ signed m) ∧ (module_sign_verify junk (Some m) = Some (-1) ↔ ¬ signed m) ∧
  ∀ data, signed (data ++ header_of (signature_of (Fips.sha256 data)) (replicate 32 0)).
Proof.
  intros Hj HJ HB Hl. destruct (module_data_dec junk m Hj HJ HB Hl) as [[-> Hs]|[-> Hs]]; (split; [by split|]); (split; [by split|]);
    intros data; by exists data, (replicate 32 0).
Qed.

Lemma sha256_correct_witness : sha256 (replicate 64 7) [97; 98; 99] = Some (Fips.sha256 [97; 98; 99]).
Proof. apply (sha256_correct (replicate 64 7) [97; 98; 99]); decided. Defined.
(** The test vector of the standard. *)
Example sha256_abc : Fips.sha256 [97; 98; 99] =
  [0xba; 0x78; 0x16; 0xbf; 0x8f; 0x01; 0xcf; 0xea; 0x41; 0x41; 0x40; 0xde; 0x5d; 0xae; 0x22; 0x23;
   0xb0; 0x03; 0x61; 0xa3; 0x96; 0x17; 0x7a; 0x9c; 0xb4; 0x10; 0xff; 0x61; 0xf2; 0x00; 0x15; 0xad].
Proof. vm_compute. reflexivity. Qed.
Definition demo_module : list Z := [1; 2; 3] ++ header_of (signature_of (Fips.sha256 [1; 2; 3])) (replicate 32 0).
Lemma module_sign_verify_correct_witness :
  (module_sign_verify (replicate 64 7) (Some demo_module) = Some 0 ↔ signed demo_module) ∧
  (module_sign_verify (replicate 64 7) (Some demo_module) = Some (-1) ↔ ¬ signed demo_module) ∧
  ∀ data, signed (data ++ header_of (signature_of (Fips.sha256 data)) (replicate 32 0)).
Proof. apply (module_sign_verify_correct (replicate 64 7) demo_module); decided. Defined.
