(* ===== verification/RBTree.v ===== *)
(** * kernel/rbtree.c: the red-black tree of the scheduler's ready queue. *)
From S2P Require Import Prelude.
Local Open Scope Z_scope.
Local Open Scope kernel_scope.

(** ** The pointer structure *)

Definition loc := positive.
Definition ptr := option loc.
Abbreviation NULL := (@None loc).

Inductive color := RB_RED | RB_BLACK.

#[export] Instance color_eq_dec : EqDecision color.
Proof. solve_decision. Defined.

(** [struct rb_node]. *)
Record rb_node := mk_node {
  rb_color : color;
  parent : ptr;
  left : ptr;
  right : ptr;
  key : Z
}.

(** [struct rb_root] with the memory its nodes live in. *)
Record rb_mem := mk_mem { root : ptr; nodes : gmap loc rb_node }.

Definition M := ST rb_mem.

(** [l->field]; a dereference of an unmapped address has no outcome. *)
Definition ld {A} (f : rb_node → A) (l : loc) : M A :=
  λ s, match nodes s !! l with Some n => Some (f n, s) | None => None end.

Definition upd (g : rb_node → rb_node) (l : loc) : M unit :=
  λ s, match nodes s !! l with
       | Some n => Some (tt, mk_mem (root s) (<[l := g n]> (nodes s)))
       | None => None
       end.

Definition st_color (c : color) := upd (λ n, mk_node c (parent n) (left n) (right n) (key n)).
Definition st_parent (p : ptr) := upd (λ n, mk_node (rb_color n) p (left n) (right n) (key n)).
Definition st_left (p : ptr) := upd (λ n, mk_node (rb_color n) (parent n) p (right n) (key n)).
Definition st_right (p : ptr) := upd (λ n, mk_node (rb_color n) (parent n) (left n) p (key n)).
Definition ld_root : M ptr := λ s, Some (root s, s).
Definition st_root (p : ptr) : M unit := λ s, Some (tt, mk_mem p (nodes s)).

(** [if (p) ...] on a pointer. *)
Definition on (p : ptr) (f : loc → M unit) : M unit :=
  match p with Some l => f l | None => ret tt end.

(** [if (v) v->parent = q]. *)
Definition adopt (v q : ptr) : M unit := on v (st_parent q).

(** [p->field] where [p] may be null: a null dereference has no outcome. *)
Definition deref {A} (p : ptr) (f : loc → M A) : M A :=
  match p with Some l => f l | None => fail end.

(** The macros [rb_is_red], [rb_is_black] and the setters. *)
Definition rb_is_red (p : ptr) : M bool :=
  match p with
  | Some l => c <- ld rb_color l ;; ret (bool_decide (c = RB_RED))
  | None => ret false
  end.
Definition rb_is_black (p : ptr) : M bool :=
  match p with
  | Some l => c <- ld rb_color l ;; ret (bool_decide (c = RB_BLACK))
  | None => ret true
  end.
Definition rb_set_red (p : ptr) : M unit := on p (st_color RB_RED).
Definition rb_set_black (p : ptr) : M unit := on p (st_color RB_BLACK).

(** ** Operations *)

Definition rb_init : M unit := st_root NULL.

(** Redirect the link that holds [u] (the root or a child of [up]) to [v]. *)
Definition relink (up : ptr) (u : loc) (v : ptr) : M unit :=
  match up with
  | None => st_root v
  | Some p =>
      pl <- ld left p ;;
      if decide (pl = Some u) then st_left v p else st_right v p
  end.

Definition rb_rotate_left (x : loc) : M unit :=
  yo <- ld right x ;;
  match yo with
  | None => ret tt
  | Some y =>
      yl <- ld left y ;;
      st_right yl x ;;;
      adopt yl (Some x) ;;;
      xp <- ld parent x ;;
      st_parent xp y ;;;
      relink xp x (Some y) ;;;
      st_left (Some x) y ;;;
      st_parent (Some y) x
  end.

Definition rb_rotate_right (y : loc) : M unit :=
  xo <- ld left y ;;
  match xo with
  | None => ret tt
  | Some x =>
      xr <- ld right x ;;
      st_left xr y ;;;
      adopt xr (Some y) ;;;
      yp <- ld parent y ;;
      st_parent yp x ;;;
      relink yp y (Some x) ;;;
      st_right (Some y) x ;;;
      st_parent (Some x) y
  end.

(** The [while (rb_is_red(node->parent))] loop of [rb_insert_fixup]. *)
Fixpoint rb_insert_fixup_loop (fuel : nat) (node : loc) : M unit :=
  match fuel with
  | O => fail
  | S fuel =>
      po <- ld parent node ;;
      red <- rb_is_red po ;;
      if negb red then ret tt else
      deref po (λ p,
      go <- ld parent p ;;
      match go with
      | None => ret tt
      | Some g =>
          gl <- ld left g ;;
          if decide (gl = Some p) then
            uncle <- ld right g ;;
            ured <- rb_is_red uncle ;;
            if (ured : bool) then
              rb_set_black (Some p) ;;;
              rb_set_black uncle ;;;
              rb_set_red (Some g) ;;;
              rb_insert_fixup_loop fuel g
            else
              pr <- ld right p ;;
              np <- (if decide (pr = Some node) then
                       rb_rotate_left p ;;;
                       p' <- ld parent p ;;
                       ret (p, p')
                     else ret (node, Some p)) ;;
              rb_set_black (snd np) ;;;
              rb_set_red (Some g) ;;;
              rb_rotate_right g ;;;
              rb_insert_fixup_loop fuel (fst np)
          else
            uncle <- ld left g ;;
            ured <- rb_is_red uncle ;;
            if (ured : bool) then
              rb_set_black (Some p) ;;;
              rb_set_black uncle ;;;
              rb_set_red (Some g) ;;;
              rb_insert_fixup_loop fuel g
            else
              pl <- ld left p ;;
              np <- (if decide (pl = Some node) then
                       rb_rotate_right p ;;;
                       p' <- ld parent p ;;
                       ret (p, p')
                     else ret (node, Some p)) ;;
              rb_set_black (snd np) ;;;
              rb_set_red (Some g) ;;;
              rb_rotate_left g ;;;
              rb_insert_fixup_loop fuel (fst np)
      end)
  end.

Definition rb_insert_fixup (fuel : nat) (node : loc) : M unit :=
  rb_insert_fixup_loop fuel node ;;;
  r <- ld_root ;;
  rb_set_black r.

(** The descent of [rb_insert]: [link] is [&root->root] ([None]) or the address
    of a child field of a node. *)
Inductive side := SL | SR.

#[export] Instance side_eq_dec : EqDecision side.
Proof. solve_decision. Defined.

Definition ld_link (link : option (loc * side)) : M ptr :=
  match link with
  | None => ld_root
  | Some (p, SL) => ld left p
  | Some (p, SR) => ld right p
  end.
Definition st_link (link : option (loc * side)) (v : ptr) : M unit :=
  match link with
  | None => st_root v
  | Some (p, SL) => st_left v p
  | Some (p, SR) => st_right v p
  end.

Fixpoint rb_descend (fuel : nat) (k : Z) (par : ptr) (link : option (loc * side))
    : M (ptr * option (loc * side)) :=
  match fuel with
  | O => fail
  | S fuel =>
      c <- ld_link link ;;
      match c with
      | None => ret (par, link)
      | Some p =>
          pk <- ld key p ;;
          if decide (k < pk) then rb_descend fuel k (Some p) (Some (p, SL))
          else rb_descend fuel k (Some p) (Some (p, SR))
      end
  end.

Definition rb_insert (fuel : nat) (node : ptr) : M unit :=
  match node with
  | None => ret tt
  | Some node =>
      k <- ld key node ;;
      pl <- rb_descend fuel k NULL None ;;
      st_parent (fst pl) node ;;;
      st_left NULL node ;;;
      st_right NULL node ;;;
      st_color RB_RED node ;;;
      st_link (snd pl) (Some node) ;;;
      rb_insert_fixup fuel node
  end.

Definition rb_transplant (u : loc) (v : ptr) : M unit :=
  up <- ld parent u ;;
  relink up u v ;;;
  up' <- ld parent u ;;
  adopt v up'.

(** [while (y->left) y = y->left]. *)
Fixpoint leftmost (fuel : nat) (y : loc) : M loc :=
  match fuel with
  | O => fail
  | S fuel =>
      yl <- ld left y ;;
      match yl with None => ret y | Some y' => leftmost fuel y' end
  end.

(** One turn of the [while] loop of [rb_erase_fixup]: [inl] continues with a
    new [(x, x_parent, x_is_left)], [inr] breaks out with the final [x].
    [erase_left_black] is cases 2 to 4, where the sibling [w] is not red. *)
Definition erase_left_black (x : ptr) (p w : loc) : M ((ptr * ptr * bool) + ptr) :=
  wl <- ld left w ;; lb <- rb_is_black wl ;;
  wr <- ld right w ;; rb <- rb_is_black wr ;;
  if lb && rb then
    rb_set_red (Some w) ;;;
    xp' <- ld parent p ;;
    match xp' with
    | None => ret (inl (Some p, NULL, true))
    | Some p' =>
        l <- ld left p' ;;
        ret (inl (Some p, Some p', bool_decide (l = Some p)))
    end
  else
    wo <- (if (rb : bool) then
             wl <- ld left w ;; rb_set_black wl ;;;
             rb_set_red (Some w) ;;;
             rb_rotate_right w ;;;
             ld right p
           else ret (Some w)) ;;
    match wo with
    | None => ret (inr x)
    | Some w =>
        pc <- ld rb_color p ;; st_color pc w ;;;
        rb_set_black (Some p) ;;;
        wr <- ld right w ;; rb_set_black wr ;;;
        rb_rotate_left p ;;;
        r <- ld_root ;; ret (inr r)
    end.

Definition rb_erase_step_left (x xp : ptr) : M ((ptr * ptr * bool) + ptr) :=
  deref xp (λ p,
  wo <- ld right p ;;
  match wo with
  | None => ret (inr x)
  | Some w =>
      wred <- rb_is_red (Some w) ;;
      wo <- (if (wred : bool) then
               rb_set_black (Some w) ;;;
               rb_set_red (Some p) ;;;
               rb_rotate_left p ;;;
               ld right p
             else ret (Some w)) ;;
      match wo with
      | None => ret (inr x)
      | Some w => erase_left_black x p w
      end
  end).

Definition erase_right_black (x : ptr) (p w : loc) : M ((ptr * ptr * bool) + ptr) :=
  wl <- ld left w ;; lb <- rb_is_black wl ;;
  wr <- ld right w ;; rb <- rb_is_black wr ;;
  if lb && rb then
    rb_set_red (Some w) ;;;
    xp' <- ld parent p ;;
    match xp' with
    | None => ret (inl (Some p, NULL, false))
    | Some p' =>
        l <- ld left p' ;;
        ret (inl (Some p, Some p', bool_decide (l = Some p)))
    end
  else
    wo <- (if (lb : bool) then
             wr <- ld right w ;; rb_set_black wr ;;;
             rb_set_red (Some w) ;;;
             rb_rotate_left w ;;;
             ld left p
           else ret (Some w)) ;;
    match wo with
    | None => ret (inr x)
    | Some w =>
        pc <- ld rb_color p ;; st_color pc w ;;;
        rb_set_black (Some p) ;;;
        wl <- ld left w ;; rb_set_black wl ;;;
        rb_rotate_right p ;;;
        r <- ld_root ;; ret (inr r)
    end.

Definition rb_erase_step_right (x xp : ptr) : M ((ptr * ptr * bool) + ptr) :=
  deref xp (λ p,
  wo <- ld left p ;;
  match wo with
  | None => ret (inr x)
  | Some w =>
      wred <- rb_is_red (Some w) ;;
      wo <- (if (wred : bool) then
               rb_set_black (Some w) ;;;
               rb_set_red (Some p) ;;;
               rb_rotate_right p ;;;
               ld left p
             else ret (Some w)) ;;
      match wo with
      | None => ret (inr x)
      | Some w => erase_right_black x p w
      end
  end).

Fixpoint rb_erase_fixup_loop (fuel : nat) (x xp : ptr) (is_left : bool) : M ptr :=
  match fuel with
  | O => fail
  | S fuel =>
      r <- ld_root ;;
      black <- rb_is_black x ;;
      if bool_decide (x ≠ r) && black then
        o <- (if (is_left : bool) then rb_erase_step_left x xp
              else rb_erase_step_right x xp) ;;
        match o with
        | inl (x', xp', l') => rb_erase_fixup_loop fuel x' xp' l'
        | inr x' => ret x'
        end
      else ret x
  end.

Definition rb_erase_fixup (fuel : nat) (x xp : ptr) (is_left : bool) : M unit :=
  x' <- rb_erase_fixup_loop fuel x xp is_left ;;
  rb_set_black x'.

(** [if (x_parent) x_is_left = (z == x_parent->left)]. *)
Definition child_side (xp : ptr) (z : loc) : M bool :=
  match xp with
  | None => ret false
  | Some p => l <- ld left p ;; ret (bool_decide (l = Some z))
  end.

(** The two-children case, taking the successor [y] and its right child [x] out
    of [z]'s right subtree; the result is [(x_parent, x_is_left)]. *)
Definition detach_succ (z y : loc) (x : ptr) : M (ptr * bool) :=
  yp <- ld parent y ;;
  if decide (yp = Some z) then
    adopt x (Some y) ;;;
    ret (Some y, false)
  else
    isl <- deref yp (λ p, l <- ld left p ;; ret (bool_decide (l = Some y))) ;;
    rb_transplant y x ;;;
    zr <- ld right z ;;
    st_right zr y ;;;
    adopt zr (Some y) ;;;
    ret (yp, isl).

(** The end of the two-children case: the successor [y] takes [z]'s parent,
    left subtree and colour. *)
Definition take_place (z y : loc) : M unit :=
  rb_transplant z (Some y) ;;;
  zl <- ld left z ;;
  st_left zl y ;;;
  adopt zl (Some y) ;;;
  zc <- ld rb_color z ;;
  st_color zc y.

Definition rb_erase (fuel : nat) (z : ptr) : M unit :=
  match z with
  | None => ret tt
  | Some z =>
      zc <- ld rb_color z ;;
      zl <- ld left z ;;
      zr <- ld right z ;;
      o <- (match zl, zr with
            | None, _ =>
                xp <- ld parent z ;;
                isl <- child_side xp z ;;
                rb_transplant z zr ;;;
                ret (zc, zr, xp, isl)
            | Some _, None =>
                xp <- ld parent z ;;
                isl <- child_side xp z ;;
                rb_transplant z zl ;;;
                ret (zc, zl, xp, isl)
            | Some _, Some zr' =>
                y <- leftmost fuel zr' ;;
                yc <- ld rb_color y ;;
                x <- ld right y ;;
                xi <- detach_succ z y x ;;
                take_place z y ;;;
                ret (yc, x, fst xi, snd xi)
            end) ;;
      let '(yc, x, xp, isl) := o in
      if decide (yc = RB_BLACK) then rb_erase_fixup fuel x xp isl else ret tt
  end.

Definition rb_find_min (fuel : nat) : M ptr :=
  r <- ld_root ;;
  match r with
  | None => ret NULL
  | Some r => m <- leftmost fuel r ;; ret (Some m)
  end.

Definition rb_first (fuel : nat) : M ptr := rb_find_min fuel.

Fixpoint rb_find_loop (fuel : nat) (k : Z) (node : ptr) : M ptr :=
  match fuel with
  | O => fail
  | S fuel =>
      match node with
      | None => ret NULL
      | Some n =>
          nk <- ld key n ;;
          if decide (k < nk) then l <- ld left n ;; rb_find_loop fuel k l
          else if decide (k > nk) then r <- ld right n ;; rb_find_loop fuel k r
          else ret (Some n)
      end
  end.
Definition rb_find (fuel : nat) (k : Z) : M ptr := r <- ld_root ;; rb_find_loop fuel k r.

(** The upward walk of [rb_next]. *)
Fixpoint rb_next_up (fuel : nat) (node : loc) (par : ptr) : M ptr :=
  match fuel with
  | O => fail
  | S fuel =>
      match par with
      | None => ret NULL
      | Some p =>
          pr <- ld right p ;;
          if decide (pr = Some node) then
            pp <- ld parent p ;; rb_next_up fuel p pp
          else ret (Some p)
      end
  end.
Definition rb_next (fuel : nat) (node : ptr) : M ptr :=
  match node with
  | None => ret NULL
  | Some n =>
      r <- ld right n ;;
      match r with
      | Some r => m <- leftmost fuel r ;; ret (Some m)
      | None => p <- ld parent n ;; rb_next_up fuel n p
      end
  end.

(** ** Tests on concrete inputs *)
Module Tests.
Definition fresh (k : Z) : rb_node := mk_node RB_RED NULL NULL NULL k.
Definition mem0 : rb_mem :=
  mk_mem NULL (list_to_map (zip [1;2;3;4;5;6;7]%positive
                             (fresh <$> [50; 20; 70; 20; 10; 60; 5]))).
Fixpoint ins_all (ls : list loc) : M unit :=
  match ls with [] => ret tt | l :: ls => rb_insert 20 (Some l) ;;; ins_all ls end.
Fixpoint walk (n : nat) (p : ptr) : M (list loc) :=
  match n, p with
  | S n, Some l => q <- rb_next 20 p ;; r <- walk n q ;; ret (l :: r)
  | _, _ => ret []
  end.
Definition scan : M (list loc) := m <- rb_find_min 20 ;; walk 10 m.
Example insert_scan :
  (fst <$> (ins_all [1;2;3;4;5;6;7]%positive ;;; scan) mem0)
  = Some [7;5;2;4;1;6;3]%positive.
Proof. vm_compute. reflexivity. Qed.
Example erase_scan :
  (fst <$> (ins_all [1;2;3;4;5;6;7]%positive ;;;
            rb_erase 20 (Some 2%positive) ;;; rb_erase 20 (Some 1%positive) ;;; scan) mem0)
  = Some [7;5;4;6;3]%positive.
Proof. vm_compute. reflexivity. Qed.
End Tests.
