(* ===== verification/RBTreeRep.v ===== *)
(** * kernel/rbtree.c: trees in memory, and what each pointer step does to them.

    A memory [represents] a tree seen through a cursor (a subtree and the path
    above it); rotations, recolourings and transplants are specified as
    rewritings of that cursor. *)
From S2P Require Import Prelude RBTree.
Local Open Scope Z_scope.
Local Open Scope kernel_scope.

(** ** Trees and cursors *)
Inductive tree := E | T (c : color) (a : tree) (l : loc) (k : Z) (b : tree).

(** A frame is a node whose child on [fside] is the cursor. *)
Record frame := F { fside : side; fcol : color; floc : loc; fkey : Z; fsib : tree }.
Abbreviation path := (list frame).

Definition plug1 (t : tree) (f : frame) : tree :=
  match fside f with
  | SL => T (fcol f) t (floc f) (fkey f) (fsib f)
  | SR => T (fcol f) (fsib f) (floc f) (fkey f) t
  end.
Fixpoint plug (t : tree) (p : path) : tree :=
  match p with [] => t | f :: p => plug (plug1 t f) p end.

Definition root_ptr (t : tree) : ptr :=
  match t with E => NULL | T _ _ l _ _ => Some l end.
Definition path_parent (p : path) : ptr :=
  match p with [] => NULL | f :: _ => Some (floc f) end.

Fixpoint locs (t : tree) : list loc :=
  match t with E => [] | T _ a l _ b => l :: locs a ++ locs b end.
Fixpoint plocs (p : path) : list loc :=
  match p with [] => [] | f :: p => floc f :: locs (fsib f) ++ plocs p end.

(** ** Representation *)
Fixpoint tree_at (h : gmap loc rb_node) (p : ptr) (t : tree) : Prop :=
  match t with
  | E => True
  | T c a l k b =>
      h !! l = Some (mk_node c p (root_ptr a) (root_ptr b) k) ∧
      tree_at h (Some l) a ∧ tree_at h (Some l) b
  end.

Definition frame_node (f : frame) (up child : ptr) : rb_node :=
  match fside f with
  | SL => mk_node (fcol f) up child (root_ptr (fsib f)) (fkey f)
  | SR => mk_node (fcol f) up (root_ptr (fsib f)) child (fkey f)
  end.

Fixpoint path_at (h : gmap loc rb_node) (r : ptr) (c : ptr) (p : path) : Prop :=
  match p with
  | [] => r = c
  | f :: p =>
      h !! floc f = Some (frame_node f (path_parent p) c) ∧
      tree_at h (Some (floc f)) (fsib f) ∧ path_at h r (Some (floc f)) p
  end.

(** [zrep fr t p s]: the memory of [s] holds the tree [plug t p], seen at the
    subtree [t], and agrees with [fr] at every other address. *)
Record zrep (fr : gmap loc rb_node) (t : tree) (p : path) (s : rb_mem) : Prop := mk_zrep {
  zr_tree : tree_at (nodes s) (path_parent p) t;
  zr_path : path_at (nodes s) (root s) (root_ptr t) p;
  zr_nodup : NoDup (locs t ++ plocs p);
  zr_frame : ∀ l, l ∉ locs t ++ plocs p → nodes s !! l = fr !! l
}.

(** The whole tree of a root. *)
Definition repr (fr : gmap loc rb_node) (t : tree) (s : rb_mem) : Prop := zrep fr t [] s.

(** ** Separation *)
Ltac nodup_facts H :=
  cbn [app locs plocs floc fsib] in H;
  repeat first
    [ rewrite <- app_assoc in H | progress cbn [app] in H
    | rewrite NoDup_cons in H | rewrite NoDup_app_cons in H
    | rewrite not_elem_of_app in H | rewrite not_elem_of_cons in H ];
  destruct_and? H.

(** Two memories that agree outside [L]. *)
Definition off (L : list loc) (h h' : gmap loc rb_node) : Prop :=
  ∀ l, l ∉ L → h' !! l = h !! l.

Lemma tree_at_agree h h' p t :
  (∀ l, l ∈ locs t → h' !! l = h !! l) → tree_at h p t → tree_at h' p t.
Proof.
  revert p. induction t as [|c a IHa l k b IHb]; simpl; intros p Hag Ht; [done|].
  destruct Ht as (Hn & ? & ?). split_and!.
  - rewrite Hag; [done|left].
  - apply IHa; [|done]. intros z Hz. apply Hag. right. by apply elem_of_app; left.
  - apply IHb; [|done]. intros z Hz. apply Hag. right. by apply elem_of_app; right.
Qed.

Lemma path_at_agree h h' r c p :
  (∀ l, l ∈ plocs p → h' !! l = h !! l) → path_at h r c p → path_at h' r c p.
Proof.
  revert c. induction p as [|f p IH]; simpl; intros c Hag Hp; [done|].
  destruct Hp as (Hn & Hs & Hp). split_and!.
  - rewrite Hag; [done|left].
  - eapply tree_at_agree; [|done]. intros z Hz. apply Hag. right. by apply elem_of_app; left.
  - apply IH; [|done]. intros z Hz. apply Hag. right. by apply elem_of_app; right.
Qed.

Lemma tree_at_frame h p t l n :
  l ∉ locs t → tree_at h p t → tree_at (<[l := n]> h) p t.
Proof.
  intros Hl. apply tree_at_agree. intros z Hz.
  rewrite lookup_insert_ne; [done|]. intros ->. done.
Qed.
Lemma path_at_frame h r c p l n :
  l ∉ plocs p → path_at h r c p → path_at (<[l := n]> h) r c p.
Proof.
  intros Hl. apply path_at_agree. intros z Hz.
  rewrite lookup_insert_ne; [done|]. intros ->. done.
Qed.
Lemma tree_at_off L h h' p t :
  off L h h' → (∀ l, l ∈ locs t → l ∉ L) → tree_at h p t → tree_at h' p t.
Proof. intros Ho Hd. apply tree_at_agree. intros l Hl. apply Ho, Hd, Hl. Qed.
Lemma path_at_off L h h' r c p :
  off L h h' → (∀ l, l ∈ plocs p → l ∉ L) → path_at h r c p → path_at h' r c p.
Proof. intros Ho Hd. apply path_at_agree. intros l Hl. apply Ho, Hd, Hl. Qed.

Lemma root_ptr_ne t l : l ∉ locs t → root_ptr t ≠ Some l.
Proof. destruct t; simpl; [done|]. intros Hl [= ->]. apply Hl. left. Qed.

(** ** Moving the cursor *)
Lemma zrep_up fr t f p s : zrep fr t (f :: p) s ↔ zrep fr (plug1 t f) p s.
Proof.
  destruct f as [[] c l k sib]; unfold plug1; simpl;
    (split; intros [Ht Hp Hn Hf]; simpl in *; unfold frame_node in *; simpl in *;
     (constructor; simpl; unfold frame_node; simpl;
      [tauto|tauto
      |eapply NoDup_Permutation_proper; [|exact Hn]; solve_Permutation
      |intros z Hz; apply Hf; revert Hz; rewrite ?not_elem_of_app, ?not_elem_of_cons, ?not_elem_of_app; tauto])).
Qed.

Lemma zrep_plug fr t p s : zrep fr t p s ↔ repr fr (plug t p) s.
Proof.
  revert t. induction p as [|f p IH]; intros t; [done|].
  rewrite zrep_up. apply IH.
Qed.

(** ** Symbolic execution of the pointer code *)
Ltac msimp :=
  cbv beta iota zeta delta [deref ld upd st_color st_parent st_left st_right ld_root
    st_root ret bind fst snd nodes root rb_color parent left right key floc
    rb_set_red rb_set_black].

Ltac disjoint_hyps :=
  repeat match goal with
  | H : NoDup (_ ++ _) |- _ =>
      let H1 := fresh "Hd" in let H2 := fresh "Hd" in let H3 := fresh "Hd" in
      apply NoDup_app in H as (H1 & H2 & H3)
  end.

Ltac disj :=
  let l := fresh "l" in let H1 := fresh in let H2 := fresh in
  intros l H1 H2;
  match goal with
  | Hd : ∀ x, x ∈ _ → x ∉ _ |- False =>
      first [ apply (Hd l H1); repeat rewrite ?elem_of_app; tauto
            | apply (Hd l H2); repeat rewrite ?elem_of_app; tauto ]
  end.

Ltac not_in := first [ assumption | congruence | (apply not_eq_sym; assumption) ].

Ltac mlook :=
  match goal with
  | |- context [<[?l := ?n]> ?h !! ?l'] =>
      first [ rewrite (lookup_insert_eq h l n)
            | rewrite (lookup_insert_ne h l l' n) by not_in ]
  | H : off _ _ ?h |- context [?h !! ?l] => rewrite (H l) by not_in
  | H : ?h !! ?l = Some _ |- context [?h !! ?l] => rewrite H
  end.

Ltac mrun := msimp; repeat (mlook; msimp).

Ltac at_frames :=
  repeat first
    [ assumption
    | match goal with
      | |- _ ∧ _ => split
      | |- Some _ = Some _ => reflexivity
      | |- True => exact I
      | |- tree_at (<[_ := _]> _) _ _ => apply tree_at_frame; [not_in|]
      | |- path_at (<[_ := _]> _) _ _ _ => apply path_at_frame; [not_in|]
      | H : off _ _ ?h |- tree_at ?h _ _ => apply (tree_at_off _ _ _ _ _ H); [disj|]
      | H : off _ _ ?h |- path_at ?h _ _ _ => apply (path_at_off _ _ _ _ _ _ H); [disj|]
      end
    | progress (repeat mlook) ].

(** The side conditions of a rewritten cursor: same addresses, same frame. *)
Ltac same_locs Hn Hf :=
  match goal with
  | |- NoDup _ => eapply NoDup_Permutation_proper; [|exact Hn]; cbn; solve_Permutation
  | _ =>
     let z := fresh "z" in let Hz := fresh "Hz" in
     intros z Hz; cbn in Hz, Hf;
     repeat rewrite ?not_elem_of_app, ?not_elem_of_cons in Hz;
     destruct_and? Hz; repeat mlook;
     apply Hf; repeat rewrite ?not_elem_of_app, ?not_elem_of_cons; tauto
  end.

(** [if (v) v->parent = q]. *)
Lemma adopt_spec r h p t q :
  tree_at h p t → NoDup (locs t) →
  ∃ h', adopt (root_ptr t) q (mk_mem r h) = Some (tt, mk_mem r h') ∧
        tree_at h' q t ∧ off (locs t) h h'.
Proof.
  unfold adopt, on. destruct t as [|c a l k b]; simpl; intros Ht Hn.
  - exists h. split; [done|]. split; [done|]. by intros l _.
  - destruct Ht as (Hl & Ha & Hb). nodup_facts Hn. mrun.
    eexists. split; [reflexivity|]. split; [at_frames|].
    intros z Hz. apply not_elem_of_cons in Hz as [Hz _]. by mlook.
Qed.

(** The link to [x] now holds [v]. *)
Lemma relink_spec r h x v p :
  path_at h r (Some x) p → x ∉ plocs p → NoDup (plocs p) →
  ∃ r' h', relink (path_parent p) x v (mk_mem r h) = Some (tt, mk_mem r' h') ∧
           path_at h' r' v p ∧ off (plocs p) h h'.
Proof.
  destruct p as [|[[] c l k sib] p]; simpl; intros Hp Hx Hn.
  - exists v, h. split; [done|]. split; [done|]. by intros l _.
  - destruct Hp as (Hl & Hs & Hp). nodup_facts Hn. unfold frame_node in *; simpl in *.
    mrun. rewrite decide_True by done. mrun.
    eexists _, _. split; [reflexivity|]. split; [at_frames|].
    intros z Hz. apply not_elem_of_cons in Hz as [Hz _]. by mlook.
  - destruct Hp as (Hl & Hs & Hp). nodup_facts Hn. unfold frame_node in *; simpl in *.
    mrun. rewrite decide_False by (apply root_ptr_ne; set_solver). mrun.
    eexists _, _. split; [reflexivity|]. split; [at_frames|].
    intros z Hz. apply not_elem_of_cons in Hz as [Hz _]. by mlook.
Qed.

Lemma set_color_spec fr s c c' a l k b p :
  zrep fr (T c a l k b) p s →
  ∃ s', st_color c' l s = Some (tt, s') ∧ zrep fr (T c' a l k b) p s'.
Proof.
  intros [Ht Hp Hn Hf]. destruct s as [r h]. simpl in *. destruct Ht as (Hl & Ha & Hb).
  pose proof Hn as Hn'. nodup_facts Hn'. mrun.
  eexists. split; [reflexivity|].
  constructor; cbn; [at_frames|at_frames|same_locs Hn Hf..].
Qed.

(** Run [adopt] and [relink] by their specifications. *)
Ltac run_adopt p t :=
  match goal with
  | |- context [adopt (root_ptr t) ?q (mk_mem ?r ?h)] =>
      let h' := fresh "h" in let Hr := fresh "Hrun" in
      let Ha := fresh "Hat" in let Ho := fresh "Hoff" in
      destruct (adopt_spec r h p t q ltac:(at_frames) ltac:(assumption)) as (h' & Hr & Ha & Ho);
      rewrite Hr; clear Hr; mrun
  end.
Ltac run_relink p :=
  match goal with
  | |- context [relink (path_parent p) ?x ?v (mk_mem ?r ?h)] =>
      let r' := fresh "r" in let h' := fresh "h" in let Hr := fresh "Hrun" in
      let Ha := fresh "Hat" in let Ho := fresh "Hoff" in
      destruct (relink_spec r h x v p ltac:(at_frames) ltac:(assumption) ltac:(assumption))
        as (r' & h' & Hr & Ha & Ho);
      rewrite Hr; clear Hr; mrun
  end.

Lemma rotate_left_spec fr s c a x kx cy b y ky d p :
  zrep fr (T c a x kx (T cy b y ky d)) p s →
  ∃ s', rb_rotate_left x s = Some (tt, s') ∧
        zrep fr (T cy (T c a x kx b) y ky d) p s'.
Proof.
  intros [Ht Hp Hn Hf]. destruct s as [r h]. simpl in *.
  destruct Ht as (Hx & Ha & Hy & Hb & Hd).
  pose proof Hn as Hn'. nodup_facts Hn'. disjoint_hyps.
  unfold rb_rotate_left. mrun. run_adopt (Some y) b. run_relink p.
  eexists. split; [reflexivity|].
  constructor; cbn; [at_frames|at_frames|same_locs Hn Hf..].
Qed.

Lemma rotate_right_spec fr s c x kx cy a b y ky d p :
  zrep fr (T c (T cy a y ky b) x kx d) p s →
  ∃ s', rb_rotate_right x s = Some (tt, s') ∧
        zrep fr (T cy a y ky (T c b x kx d)) p s'.
Proof.
  intros [Ht Hp Hn Hf]. destruct s as [r h]. simpl in *.
  destruct Ht as (Hx & (Hy & Ha & Hb) & Hd).
  pose proof Hn as Hn'. nodup_facts Hn'. disjoint_hyps.
  unfold rb_rotate_right. mrun. run_adopt (Some y) b. run_relink p.
  eexists. split; [reflexivity|].
  constructor; cbn; [at_frames|at_frames|same_locs Hn Hf..].
Qed.
