(* ===== verification/RBTreeInv.v ===== *)
(** * kernel/rbtree.c: the red-black invariant and insertion. *)
From S2P Require Import Prelude RBTree RBTreeRep.
Local Open Scope Z_scope.
Local Open Scope kernel_scope.

(** ** Order *)
Fixpoint inorder (t : tree) : list (Z * loc) :=
  match t with E => [] | T _ a l k b => inorder a ++ (k, l) :: inorder b end.

(** What precedes and follows the cursor in the whole tree. *)
Fixpoint before (p : path) : list (Z * loc) :=
  match p with
  | [] => []
  | F SL _ _ _ _ :: p => before p
  | F SR _ l k sib :: p => before p ++ inorder sib ++ [(k, l)]
  end.
Fixpoint after (p : path) : list (Z * loc) :=
  match p with
  | [] => []
  | F SL _ l k sib :: p => ((k, l) :: inorder sib) ++ after p
  | F SR _ _ _ _ :: p => after p
  end.

Lemma inorder_plug t p : inorder (plug t p) = before p ++ inorder t ++ after p.
Proof.
  revert t. induction p as [|[[] c l k sib] p IH]; intros t; simpl.
  - by rewrite app_nil_r.
  - rewrite IH. simpl. by rewrite <- !app_assoc.
  - rewrite IH. simpl. by rewrite <- !app_assoc.
Qed.

(** ** Colours: no red node has a red child, and every path from a node to a
    leaf has the same number of black nodes. *)
Inductive rbt : tree → color → nat → Prop :=
  | rbt_E : rbt E RB_BLACK 0
  | rbt_R a l k b n : rbt a RB_BLACK n → rbt b RB_BLACK n → rbt (T RB_RED a l k b) RB_RED n
  | rbt_B a l k b ca cb n :
      rbt a ca n → rbt b cb n → rbt (T RB_BLACK a l k b) RB_BLACK (S n).

(** [pc p c n]: the hole of [p] hangs below a node of colour [c] (black at the
    root) and takes subtrees of black height [n]. *)
Inductive pc : path → color → nat → Prop :=
  | pc_nil n : pc [] RB_BLACK n
  | pc_R d l k sib f p n :
      rbt sib RB_BLACK n → pc (f :: p) RB_BLACK n →
      pc (F d RB_RED l k sib :: f :: p) RB_RED n
  | pc_B d l k sib cs c p n :
      rbt sib cs n → pc p c (S n) → pc (F d RB_BLACK l k sib :: p) RB_BLACK n.

Create HintDb rbt.
#[export] Hint Constructors rbt pc : rbt.

Lemma pc_plug t ct p c n :
  rbt t ct n → pc p c n → (c = RB_RED → ct = RB_BLACK) →
  ∃ c' m, rbt (plug t p) c' m ∧ (p ≠ [] ∨ ct = RB_BLACK → c' = RB_BLACK).
Proof.
  intros Ht Hp. revert t ct Ht. induction Hp as [n|d l k sib f p n Hs Hp IH|d l k sib cs c p n Hs Hp IH];
    intros t ct Ht Hc; simpl.
  - exists ct, n. split; [done|]. by intros [?|].
  - rewrite (Hc eq_refl) in Ht.
    destruct (IH (plug1 t (F d RB_RED l k sib)) RB_RED) as (c' & m & Hr & Hb).
    + destruct d; unfold plug1; simpl; eauto with rbt.
    + done.
    + exists c', m. split; [done|]. intros _. apply Hb. by left.
  - destruct (IH (plug1 t (F d RB_BLACK l k sib)) RB_BLACK) as (c' & m & Hr & Hb).
    + destruct d; unfold plug1; simpl; eauto with rbt.
    + done.
    + exists c', m. split; [done|]. intros _. apply Hb. by right.
Qed.

(** ** Reading through a cursor *)
Lemma zr_look fr c a l k b p s :
  zrep fr (T c a l k b) p s →
  nodes s !! l = Some (mk_node c (path_parent p) (root_ptr a) (root_ptr b) k).
Proof. intros [[Ht _] _ _ _]. done. Qed.
Lemma zr_look_up fr t f p s :
  zrep fr t (f :: p) s → nodes s !! floc f = Some (frame_node f (path_parent p) (root_ptr t)).
Proof. intros [_ [Hp _] _ _]. done. Qed.
Lemma zr_down_l fr c a l k b p s :
  zrep fr (T c a l k b) p s → zrep fr a (F SL c l k b :: p) s.
Proof. apply (zrep_up _ _ (F SL c l k b)). Qed.
Lemma zr_down_r fr c a l k b p s :
  zrep fr (T c a l k b) p s → zrep fr b (F SR c l k a :: p) s.
Proof. apply (zrep_up _ _ (F SR c l k a)). Qed.
Lemma zr_up fr t f p s : zrep fr t (f :: p) s → zrep fr (plug1 t f) p s.
Proof. apply zrep_up. Qed.

Lemma ld_Some {A} (f : rb_node → A) l s n :
  nodes s !! l = Some n → ld f l s = Some (f n, s).
Proof. unfold ld. by intros ->. Qed.

Definition color_of (t : tree) : color :=
  match t with E => RB_BLACK | T c _ _ _ _ => c end.

Lemma rbt_color t c n : rbt t c n → color_of t = c.
Proof. by destruct 1. Qed.

Lemma is_red_spec fr t p s :
  zrep fr t p s → rb_is_red (root_ptr t) s = Some (bool_decide (color_of t = RB_RED), s).
Proof.
  destruct t; simpl; [done|]. intros H. unfold bind.
  by rewrite (ld_Some _ _ _ _ (zr_look _ _ _ _ _ _ _ _ H)).
Qed.
Lemma is_black_spec fr t p s :
  zrep fr t p s → rb_is_black (root_ptr t) s = Some (bool_decide (color_of t = RB_BLACK), s).
Proof.
  destruct t; simpl; [done|]. intros H. unfold bind.
  by rewrite (ld_Some _ _ _ _ (zr_look _ _ _ _ _ _ _ _ H)).
Qed.
Lemma is_red_up fr t f p s :
  zrep fr t (f :: p) s → rb_is_red (Some (floc f)) s = Some (bool_decide (fcol f = RB_RED), s).
Proof.
  intros H. unfold rb_is_red, bind. rewrite (ld_Some _ _ _ _ (zr_look_up _ _ _ _ _ H)).
  by destruct f as [[] ? ? ? ?].
Qed.

(** The address of the cursor is no sibling's. *)
Lemma zr_sib_ne fr c a l k b f p s :
  zrep fr (T c a l k b) (f :: p) s → root_ptr (fsib f) ≠ Some l.
Proof.
  intros [_ _ Hn _]. apply root_ptr_ne. simpl in Hn. apply NoDup_cons in Hn as [Hn _].
  intros Hl. apply Hn. rewrite elem_of_app. right. right. by apply elem_of_app; left.
Qed.
Lemma zr_parent_ne fr c a l k b f p s :
  zrep fr (T c a l k b) (f :: p) s → l ≠ floc f.
Proof.
  intros [_ _ Hn _] ->. simpl in Hn. apply NoDup_cons in Hn as [Hn _].
  apply Hn. rewrite elem_of_app. right. left.
Qed.

(** ** Execution against a cursor *)
Ltac zld H :=
  match goal with
  | |- context [bind (ld ?f ?l) ?k ?s] =>
      rewrite (bind_Some (ld f l) k s _ _ (ld_Some f l s _ H)); cbn [parent left right key rb_color]
  end.

Ltac zcolor H c' :=
  match type of H with
  | zrep ?fr (T ?c ?a ?l ?k ?b) ?p ?s =>
      let s' := fresh "s" in let R := fresh "R" in
      destruct (set_color_spec fr s c c' a l k b p H) as (s' & R & ?H');
      try rewrite (bind_Some _ _ _ _ _ R); clear H; rename H' into H
  end.

(** ** rb_insert_fixup *)

(** What the loop leaves: the same sequence of nodes in a tree whose only
    possible defect is a red root. *)
Definition fixed (fr : gmap loc rb_node) (ns : list (Z * loc)) (s : rb_mem) : Prop :=
  ∃ t c n, repr fr t s ∧ rbt t c n ∧ inorder t = ns.

Lemma fixed_at fr t ct p c n s :
  zrep fr t p s → rbt t ct n → pc p c n → (c = RB_RED → ct = RB_BLACK) →
  fixed fr (inorder (plug t p)) s.
Proof.
  intros Hz Ht Hp Hc. destruct (pc_plug _ _ _ _ _ Ht Hp Hc) as (c' & m & Hr & _).
  exists (plug t p), c', m. split; [|done]. by apply (proj1 (zrep_plug _ _ _ _)).
Qed.

Lemma bind_assoc {S A B C} (m : ST S A) (f : A → ST S B) (g : B → ST S C) s :
  bind (bind m f) g s = bind m (λ a, bind (f a) g) s.
Proof. unfold bind. by destruct (m s) as [[]|]. Qed.

(** Recolouring the parent or the sibling of the cursor. *)
Lemma color_parent fr s c' t d c l k sib p :
  zrep fr t (F d c l k sib :: p) s →
  ∃ s', st_color c' l s = Some (tt, s') ∧ zrep fr t (F d c' l k sib :: p) s'.
Proof.
  intros H. apply zr_up in H. destruct d; cbn in H;
    destruct (set_color_spec _ _ _ c' _ _ _ _ _ H) as (s' & R & H');
    exists s'; (split; [exact R|]); by apply zrep_up.
Qed.
Lemma color_sib fr s c' t d c l k cu a lu ku b p :
  zrep fr t (F d c l k (T cu a lu ku b) :: p) s →
  ∃ s', st_color c' lu s = Some (tt, s') ∧ zrep fr t (F d c l k (T c' a lu ku b) :: p) s'.
Proof.
  intros H. apply zr_up in H.
  destruct d; cbn in H; [apply zr_down_r in H|apply zr_down_l in H];
    destruct (set_color_spec _ _ _ c' _ _ _ _ _ H) as (s' & R & H');
    apply zr_up in H'; exists s'; (split; [exact R|]); by apply zrep_up.
Qed.

Ltac zrun L H :=
  let s' := fresh "s" in let R := fresh "R" in let H' := fresh "Hz" in
  edestruct L as (s' & R & H'); [exact H|];
  first [rewrite (bind_Some _ _ _ _ _ R)|rewrite R]; clear H R; rename H' into H.

(** Case 1: a red uncle; the violation moves up two levels. *)
Lemma insert_recolor fr d1 c1 l1 k1 sib d2 c2 l2 k2 t p s cu au lu ku bu :
  zrep fr t (F d1 c1 l1 k1 sib :: F d2 c2 l2 k2 (T cu au lu ku bu) :: p) s →
  ∃ s', (rb_set_black (Some l1) ;;; rb_set_black (Some lu) ;;; rb_set_red (Some l2)) s
        = Some (tt, s') ∧
    zrep fr t (F d1 RB_BLACK l1 k1 sib :: F d2 RB_RED l2 k2 (T RB_BLACK au lu ku bu) :: p) s'.
Proof.
  intros H. unfold rb_set_black, rb_set_red, on. cbv beta iota.
  zrun color_parent H. apply zr_up in H.
  zrun color_sib H. zrun color_parent H.
  eexists. split; [reflexivity|]. by apply zrep_up.
Qed.

Ltac solve_inorder :=
  rewrite !inorder_plug; cbn [before after inorder fside floc fkey fsib fcol plug1];
  repeat (rewrite <- ?app_assoc; cbn [app]); reflexivity.

Lemma fixed_inorder fr ns ns' s : fixed fr ns s → ns = ns' → fixed fr ns' s.
Proof. by intros ? <-. Qed.

(** The root of a cursor's tree and its sibling are told apart by address. *)
Lemma decide_child fr c a l k b d cf lf kf sib p s {B} (x y : B) :
  zrep fr (T c a l k b) (F d cf lf kf sib :: p) s →
  (if decide (root_ptr sib = Some l) then x else y) = y.
Proof. intros H. apply decide_False. exact (zr_sib_ne _ _ _ _ _ _ _ _ _ H). Qed.

(** Test the uncle's colour. *)
Ltac uncle_colour Hu cu :=
  erewrite bind_Some by (apply (is_red_spec _ _ _ _ Hu)); clear Hu;
  erewrite rbt_color by done; destruct cu;
  [rewrite bool_decide_eq_true_2 by done|rewrite bool_decide_eq_false_2 by done];
  cbv beta iota;
  unfold rb_set_black, rb_set_red, on; cbn [root_ptr].

(** Case 1 and its recursive call. *)
Ltac finish_case IH Hz :=
  let s' := fresh "s" in let R := fresh "R" in let Hfix := fresh in
  edestruct IH as (s' & R & Hfix);
    [| | | |exact Hz|]; [cbn in *; lia|eauto with rbt..|];
    exists s'; (split; [exact R|]); eapply fixed_inorder; [exact Hfix|]; solve_inorder.

Ltac recolour_case Hz Hunc IH :=
  inversion Hunc; subst; cbn [root_ptr];
  zrun color_parent Hz; apply zr_up in Hz; zrun color_sib Hz; zrun color_parent Hz;
  apply zr_up in Hz; cbn in Hz; finish_case IH Hz.

Ltac run_ret :=
  match goal with
  | |- context [bind (ret ?a) ?k ?s] => change (bind (ret a) k s) with (k a s)
  end; cbv beta iota; cbn [fst snd].

Lemma insert_fixup_loop_spec fr fuel p a l k b n c s :
  (length p < fuel)%nat → rbt a RB_BLACK n → rbt b RB_BLACK n → pc p c n →
  zrep fr (T RB_RED a l k b) p s →
  ∃ s', rb_insert_fixup_loop fuel l s = Some (tt, s') ∧
        fixed fr (inorder (plug (T RB_RED a l k b) p)) s'.
Proof.
  revert p a l k b n c s. induction fuel as [|fuel IH];
    intros p a l k b n c s Hlen Ha Hb Hp Hz; [lia|].
  simpl. zld (zr_look _ _ _ _ _ _ _ _ Hz).
  inversion Hp as [m|d1 l1 k1 sib g p' m Hsib Hp'|d1 l1 k1 sib cs c' p' m Hsib Hp']; subst.
  - (* no parent *)
    eexists. split; [reflexivity|]. eapply fixed_at; eauto with rbt.
  - (* red parent *)
    inversion Hp' as [|?|d2 l2 k2 unc cu c2 p2 m Hunc Hp2]; subst.
    cbn [path_parent floc].
    erewrite bind_Some by (apply (is_red_up _ _ _ _ _ Hz)). cbn [fcol].
    rewrite bool_decide_eq_true_2 by done. cbn [negb deref].
    pose proof Hz as Hz1. apply zr_up in Hz1.
    pose proof Hz1 as Hz2. apply zr_up in Hz2.
    pose proof (zr_look_up _ _ _ _ _ Hz) as L1. pose proof (zr_look_up _ _ _ _ _ Hz1) as L2.
    destruct d1, d2; unfold frame_node in *; cbn in L1, L2, Hz1, Hz2;
      zld L1; zld L2.
    + rewrite decide_True by done. zld L2. apply zr_down_r in Hz2. uncle_colour Hz2 cu.
      * recolour_case Hz Hunc IH.
      * zld L1. rewrite (decide_child _ _ _ _ _ _ _ _ _ _ _ _ _ _ _ Hz). run_ret.
        zcolor Hz1 RB_BLACK. apply zr_up in Hz1. cbn in Hz1. zcolor Hz1 RB_RED.
        zrun rotate_right_spec Hz1. apply zr_down_l in Hz1.
        finish_case IH Hz1.
    + rewrite (decide_child _ _ _ _ _ _ _ _ _ _ _ _ _ _ _ Hz1). zld L2.
      apply zr_down_l in Hz2. uncle_colour Hz2 cu.
      * recolour_case Hz Hunc IH.
      * zld L1. rewrite decide_True by done. rewrite bind_assoc.
        zrun rotate_right_spec Hz1.
        pose proof Hz1 as Hz2. apply zr_down_r in Hz2. rewrite bind_assoc.
        zld (zr_look _ _ _ _ _ _ _ _ Hz2). run_ret. cbn [path_parent floc].
        zcolor Hz1 RB_BLACK. apply zr_up in Hz1. cbn in Hz1. zcolor Hz1 RB_RED.
        zrun rotate_left_spec Hz1. apply zr_down_r in Hz1.
        finish_case IH Hz1.
    + rewrite decide_True by done. zld L2. apply zr_down_r in Hz2. uncle_colour Hz2 cu.
      * recolour_case Hz Hunc IH.
      * zld L1. rewrite decide_True by done. rewrite bind_assoc.
        zrun rotate_left_spec Hz1.
        pose proof Hz1 as Hz2. apply zr_down_l in Hz2. rewrite bind_assoc.
        zld (zr_look _ _ _ _ _ _ _ _ Hz2). run_ret. cbn [path_parent floc].
        zcolor Hz1 RB_BLACK. apply zr_up in Hz1. cbn in Hz1. zcolor Hz1 RB_RED.
        zrun rotate_right_spec Hz1. apply zr_down_l in Hz1.
        finish_case IH Hz1.
    + rewrite (decide_child _ _ _ _ _ _ _ _ _ _ _ _ _ _ _ Hz1). zld L2.
      apply zr_down_l in Hz2. uncle_colour Hz2 cu.
      * recolour_case Hz Hunc IH.
      * zld L1. rewrite (decide_child _ _ _ _ _ _ _ _ _ _ _ _ _ _ _ Hz). run_ret.
        zcolor Hz1 RB_BLACK. apply zr_up in Hz1. cbn in Hz1. zcolor Hz1 RB_RED.
        zrun rotate_left_spec Hz1. apply zr_down_r in Hz1.
        finish_case IH Hz1.
  - (* black parent *)
    cbn [path_parent floc]. erewrite bind_Some by (apply (is_red_up _ _ _ _ _ Hz)).
    eexists. split; [reflexivity|]. eapply fixed_at; eauto with rbt.
Qed.

(** ** The abstract ready queue: (key, node) pairs in key order, first come
    first served among equal keys. *)
Fixpoint insort (x : Z * loc) (ns : list (Z * loc)) : list (Z * loc) :=
  match ns with
  | [] => [x]
  | y :: ns => if decide (x.1 < y.1) then x :: y :: ns else y :: insort x ns
  end.
Definition remove_loc (l : loc) (ns : list (Z * loc)) : list (Z * loc) :=
  filter (λ x, x.2 ≠ l) ns.
Definition sorted (ns : list (Z * loc)) : Prop := StronglySorted Z.le ns.*1.

Lemma insort_split x l1 l2 :
  Forall (λ y, y.1 ≤ x.1) l1 → Forall (λ y, x.1 < y.1) l2 →
  insort x (l1 ++ l2) = l1 ++ x :: l2.
Proof.
  intros H1 H2. induction H1 as [|y l1 Hy H1 IH]; simpl.
  - destruct H2; simpl; [done|]. by rewrite decide_True.
  - rewrite decide_False by lia. by rewrite IH.
Qed.

Lemma insort_perm x ns : insort x ns ≡ₚ x :: ns.
Proof.
  induction ns as [|y ns IH]; simpl; [done|]. case_decide; [done|].
  rewrite IH. constructor.
Qed.

Lemma sorted_app l1 l2 :
  sorted (l1 ++ l2) ↔
  sorted l1 ∧ sorted l2 ∧ (∀ x y, x ∈ l1 → y ∈ l2 → x.1 ≤ y.1).
Proof.
  unfold sorted. induction l1 as [|x l1 IH]; simpl.
  - split; [|tauto]. intros H. split_and!; [constructor|done|]. by intros ? ? ?%elem_of_nil.
  - split.
    + intros [Hs Hall]%StronglySorted_inv. apply IH in Hs as (Hs1 & Hs2 & Hle).
      rewrite fmap_app, Forall_app, !Forall_fmap, !Forall_forall in Hall.
      destruct Hall as [Ha1 Ha2].
      split_and!; [constructor; [done|]; by rewrite Forall_fmap, Forall_forall|done|].
      intros z y [->|Hz]%elem_of_cons Hy; [by apply Ha2|by apply Hle].
    + intros (Hss & Hs2 & Hle). apply StronglySorted_inv in Hss as [Hs Hall]. constructor.
      * apply IH. split_and!; [done..|]. intros z y Hz. apply Hle. by right.
      * rewrite fmap_app, Forall_app. split; [done|]. rewrite Forall_fmap, Forall_forall.
        intros y Hy. apply Hle; [left|done].
Qed.

Lemma sorted_cons x ns : sorted (x :: ns) ↔ (∀ y, y ∈ ns → x.1 ≤ y.1) ∧ sorted ns.
Proof.
  change (x :: ns) with ([x] ++ ns). rewrite sorted_app. split.
  - intros (_ & ? & H). split; [|done]. intros y. apply H. by left.
  - intros [H ?]. split_and!; [repeat constructor|done|].
    intros z y ->%list_elem_of_singleton. apply H.
Qed.

Lemma insort_sorted x ns : sorted ns → sorted (insort x ns).
Proof.
  induction ns as [|y ns IH]; simpl; [intros _; repeat constructor|].
  intros Hs. pose proof Hs as [Hle Hs']%sorted_cons. case_decide as Hd.
  - apply sorted_cons. split; [|done].
    intros z [->|Hz]%elem_of_cons; [lia|]. specialize (Hle z Hz). lia.
  - apply sorted_cons. split; [|auto].
    intros z. rewrite insort_perm. intros [->|Hz]%elem_of_cons; [lia|auto].
Qed.

(** ** rb_insert *)
Fixpoint height (t : tree) : nat :=
  match t with E => 0 | T _ a _ _ b => S (max (height a) (height b)) end.

Definition link_of (p : path) : option (loc * side) :=
  match p with [] => None | f :: _ => Some (floc f, fside f) end.

Lemma ld_link_spec fr t p s :
  zrep fr t p s → ld_link (link_of p) s = Some (root_ptr t, s).
Proof.
  destruct p as [|[[] c l k sib] p]; intros Hz; simpl.
  - destruct Hz as [_ Hp _ _]. simpl in Hp. unfold ld_root. by rewrite Hp.
  - by rewrite (ld_Some _ _ _ _ (zr_look_up _ _ _ _ _ Hz)).
  - by rewrite (ld_Some _ _ _ _ (zr_look_up _ _ _ _ _ Hz)).
Qed.

(** The frame that a step of the descent adds. *)
Lemma pc_child ct a l k b n p c :
  rbt (T ct a l k b) ct n → pc p c n → (p = [] ∨ c = RB_RED → ct = RB_BLACK) →
  ∃ ca cb m, rbt a ca m ∧ rbt b cb m ∧ (ct = RB_RED → ca = RB_BLACK ∧ cb = RB_BLACK) ∧
    ∀ d, pc (F d ct l k b :: p) ct m ∧ pc (F d ct l k a :: p) ct m.
Proof.
  intros Ht Hp Hc. inversion Ht; subst.
  - destruct p as [|f p]; [by discriminate Hc; left|].
    destruct c; [by discriminate Hc; right|].
    exists RB_BLACK, RB_BLACK, n. split_and!; [done..|]. intros d. split; by constructor.
  - eexists _, _, _. split_and!; [done..|]. intros d. split; econstructor; eauto.
Qed.

Lemma rb_descend_spec fr fuel k t p c ct n s :
  (height t < fuel)%nat → zrep fr t p s →
  rbt t ct n → pc p c n → (p = [] ∨ c = RB_RED → ct = RB_BLACK) →
  sorted (inorder t) →
  Forall (λ y, y.1 ≤ k) (before p) → Forall (λ y, k < y.1) (after p) →
  ∃ p' c', rb_descend fuel k (path_parent p) (link_of p) s
           = Some ((path_parent p', link_of p'), s) ∧
    zrep fr E p' s ∧ plug E p' = plug t p ∧ (length p' ≤ length p + height t)%nat ∧ pc p' c' 0 ∧
    Forall (λ y, y.1 ≤ k) (before p') ∧ Forall (λ y, k < y.1) (after p').
Proof.
  revert t p c ct n. induction fuel as [|fuel IH];
    intros t p c ct n Hh Hz Ht Hp Hc Hs Hbef Haft; [lia|].
  simpl. rewrite (bind_Some _ _ _ _ _ (ld_link_spec _ _ _ _ Hz)).
  destruct t as [|cc a l k' b]; simpl.
  { inversion Ht; subst. exists p, c. split_and!; [done..|lia|done|done|done]. }
  zld (zr_look _ _ _ _ _ _ _ _ Hz).
  simpl in Hs, Hh. apply sorted_app in Hs as (Hsa & Hsb & Hab).
  apply sorted_cons in Hsb as [Hb Hsb]. simpl in Hb.
  pose proof (rbt_color _ _ _ Ht) as <-.
  destruct (pc_child _ _ _ _ _ _ _ _ Ht Hp Hc) as (ca & cb & m & Hra & Hrb & Hcc & Hpc).
  simpl in Hcc, Hpc. case_decide as Hk.
  - destruct (IH a (F SL cc l k' b :: p) cc ca m) as (p' & c' & R & ? & Hpl & Hl & ? & ? & ?);
      [lia|by apply zr_down_l|done|apply Hpc|intros [?|?]; [done|tauto]|done|done| |].
    + simpl. constructor; [done|]. apply Forall_app. split; [|done].
      apply Forall_forall. intros y Hy. specialize (Hb y Hy). lia.
    + exists p', c'. split_and!; [exact R|done|exact Hpl|simpl in Hl; lia|done..].
  - destruct (IH b (F SR cc l k' a :: p) cc cb m) as (p' & c' & R & ? & Hpl & Hl & ? & ? & ?);
      [lia|by apply zr_down_r|done|apply Hpc|intros [?|?]; [done|tauto]|done| |done|].
    + simpl. rewrite !Forall_app, Forall_singleton. split_and!; [done| |simpl; lia].
      apply Forall_forall. intros y Hy.
      specialize (Hab y (k', l) Hy ltac:(left)). simpl in Hab. lia.
    + exists p', c'. split_and!; [exact R|done|exact Hpl|simpl in Hl; lia|done..].
Qed.

Lemma attach_spec fr s p node n0 :
  zrep fr E p s → node ∉ plocs p → fr !! node = Some n0 →
  ∃ s', (st_parent (path_parent p) node ;;; st_left NULL node ;;; st_right NULL node ;;;
         st_color RB_RED node ;;; st_link (link_of p) (Some node)) s = Some (tt, s') ∧
        zrep fr (T RB_RED E node (key n0) E) p s'.
Proof.
  intros [_ Hp Hn Hf] Hnode Hn0. destruct s as [r h]. simpl in *.
  pose proof (Hf node Hnode) as Hh. rewrite Hn0 in Hh.
  unfold st_link, link_of. destruct p as [|[[] c l k sib] p]; simpl in *;
    unfold frame_node in *; simpl in *;
    [|destruct Hp as (Hl & Hs & Hp); nodup_facts Hn; apply not_elem_of_cons in Hnode as [? ?];
      apply not_elem_of_app in H3 as [? ?]..]; mrun;
    (eexists; split; [reflexivity|]);
    (constructor; cbn; unfold frame_node; cbn;
     [at_frames|at_frames
     |repeat (constructor || rewrite ?NoDup_cons, ?not_elem_of_cons, ?not_elem_of_app, ?not_elem_of_nil || split_and! || assumption); tauto
     |]).
  all: intros z Hz; repeat rewrite ?not_elem_of_cons in Hz; destruct_and? Hz; repeat mlook.
  all: apply Hf; repeat rewrite ?not_elem_of_cons; tauto.
Qed.

(** Blackening the root repairs the only possible defect. *)
Lemma blacken_root fr ns s :
  fixed fr ns s →
  ∃ s' t n, (r <- ld_root ;; rb_set_black r) s = Some (tt, s') ∧
    repr fr t s' ∧ rbt t RB_BLACK n ∧ inorder t = ns.
Proof.
  intros (t & c & n & Hz & Ht & Hns).
  rewrite (bind_Some _ _ _ _ _ (ld_link_spec _ _ [] _ Hz)).
  unfold rb_set_black, on. destruct t as [|c' a l k b]; simpl.
  - exists s, E, n. inversion Ht; subst. eauto with rbt.
  - destruct (set_color_spec _ _ _ RB_BLACK _ _ _ _ _ Hz) as (s' & R & Hz').
    exists s', (T RB_BLACK a l k b).
    inversion Ht; subst; eexists; (split_and!; [exact R|exact Hz'|eauto with rbt|done]).
Qed.

Lemma bind_seq5 {S A} (m1 m2 m3 m4 m5 : ST S unit) (k : ST S A) s :
  (m1 ;;; m2 ;;; m3 ;;; m4 ;;; m5 ;;; k) s = ((m1 ;;; m2 ;;; m3 ;;; m4 ;;; m5) ;;; k) s.
Proof.
  unfold bind. destruct (m1 s) as [[? s1]|]; [|done]. destruct (m2 s1) as [[? s2]|]; [|done].
  destruct (m3 s2) as [[? s3]|]; [|done]. by destruct (m4 s3) as [[? s4]|].
Qed.

(** The representation of a well-formed ready tree. *)
Definition rb_wf (fr : gmap loc rb_node) (t : tree) (s : rb_mem) : Prop :=
  repr fr t s ∧ sorted (inorder t) ∧ ∃ n, rbt t RB_BLACK n.

Lemma rb_insert_ok fr fuel node n0 t s :
  rb_wf fr t s → node ∉ locs t → fr !! node = Some n0 → (height t < fuel)%nat →
  ∃ s' t', rb_insert fuel (Some node) s = Some (tt, s') ∧ rb_wf fr t' s' ∧
           inorder t' = insort (key n0, node) (inorder t).
Proof.
  intros (Hz & Hs & n & Ht) Hnode Hn0 Hfuel.
  assert (nodes s !! node = Some n0) as Hns.
  { destruct Hz as [_ _ _ Hf]. rewrite Hf; [done|]. simpl. by rewrite app_nil_r. }
  unfold rb_insert. rewrite (bind_Some _ _ _ _ _ (ld_Some _ _ _ _ Hns)).
  destruct (rb_descend_spec fr fuel (key n0) t [] RB_BLACK RB_BLACK n s)
    as (p & c & R & HzE & Hpl & Hlen & Hpc & Hbef & Haft);
    [done|done|done|constructor|done|done|constructor|constructor|].
  rewrite (bind_Some _ _ _ _ _ R). cbn [fst snd]. rewrite bind_seq5.
  destruct (attach_spec fr s p node n0) as (s1 & R1 & Hz1); [done| |done|].
  { intros Hin. apply Hnode.
    assert (locs t ≡ₚ plocs p) as ->; [|done].
    simpl in Hpl. rewrite <- Hpl. clear. change (plocs p) with (locs E ++ plocs p).
    generalize E. induction p as [|f p IH]; intros u; simpl; [by rewrite app_nil_r|].
    rewrite IH. destruct f as [[] ? ? ? ?]; cbn; solve_Permutation. }
  rewrite (bind_Some _ _ _ _ _ R1).
  unfold rb_insert_fixup.
  destruct (insert_fixup_loop_spec fr fuel p E node (key n0) E 0 c s1)
    as (s2 & R2 & Hfix); [simpl in Hlen; lia|constructor|constructor|done|done|].
  rewrite (bind_Some _ _ _ _ _ R2).
  destruct (blacken_root _ _ _ Hfix) as (s3 & t3 & m & R3 & Hz3 & Ht3 & Hin).
  exists s3, t3. split; [exact R3|].
  assert (inorder t3 = insort (key n0, node) (inorder t)) as Heq.
  { rewrite Hin, inorder_plug. simpl in Hpl. rewrite <- Hpl, inorder_plug. simpl.
    by rewrite insort_split. }
  split; [|done]. split_and!; [done| |eauto]. rewrite Heq. by apply insort_sorted.
Qed.
