(* ===== verification/RBTreeErase.v ===== *)
(** * kernel/rbtree.c: deletion. *)
From S2P Require Import Prelude RBTree RBTreeRep RBTreeInv.
Local Open Scope Z_scope.
Local Open Scope kernel_scope.

(** ** rb_erase_fixup *)

Definition blacken (t : tree) : tree :=
  match t with E => E | T _ a l k b => T RB_BLACK a l k b end.

(** The cursor of the loop: one black short of the [N] its hole asks for, or a
    red node that becomes good once it is blackened. *)
Inductive deficit : tree → nat → Prop :=
  | deficit_black t n : rbt t RB_BLACK n → deficit t (S n)
  | deficit_red a l k b N : rbt (T RB_BLACK a l k b) RB_BLACK N → deficit (T RB_RED a l k b) N.
#[export] Hint Constructors deficit : rbt.

(** What the loop leaves in [x]: blackening it finishes the repair. *)
Definition erased (fr : gmap loc rb_node) (ns : list (Z * loc)) (x : ptr) (s : rb_mem) : Prop :=
  ∃ t p c N, zrep fr t p s ∧ x = root_ptr t ∧ rbt (blacken t) RB_BLACK N ∧
             pc p c N ∧ inorder (plug t p) = ns.

Lemma pc_any c N N' : pc [] c N → pc [] c N'.
Proof. inversion 1. constructor. Qed.

Lemma rbt_black_S t n : rbt t RB_BLACK (S n) → ∃ a l k b ca cb,
  t = T RB_BLACK a l k b ∧ rbt a ca n ∧ rbt b cb n.
Proof. inversion 1; subst. repeat eexists; eauto. Qed.

(** Leaving the loop through [x = root->root; break]. *)
Lemma erased_root fr t ct p c N s :
  zrep fr t p s → rbt t ct N → pc p c N → (p = [] ∨ c = RB_RED → ct = RB_BLACK) →
  erased fr (inorder (plug t p)) (root s) s.
Proof.
  intros Hz Ht Hp Hc.
  destruct (pc_plug _ _ _ _ _ Ht Hp (λ H, Hc (or_intror H))) as (c' & m & Hr & Hblack).
  apply zrep_plug in Hz.
  assert (c' = RB_BLACK) as ->.
  { apply Hblack. destruct p; [right; apply Hc; by left|by left]. }
  exists (plug t p), [], RB_BLACK, m.
  split_and!; [done| | |constructor|done].
  - destruct Hz as [_ Hp' _ _]. by simpl in Hp'.
  - destruct (plug t p); inversion Hr; subst; eauto with rbt.
Qed.

(** A turn continues with a cursor whose repair is closer to the root, or is
    over. *)
Definition step_post (fr : gmap loc rb_node) (ns : list (Z * loc)) (len : nat)
    (o : (ptr * ptr * bool) + ptr) (s : rb_mem) : Prop :=
  match o with
  | inl (x, xp, isl) =>
      ∃ t p c N, zrep fr t p s ∧ x = root_ptr t ∧ xp = path_parent p ∧
        deficit t N ∧ pc p c N ∧ inorder (plug t p) = ns ∧
        (match p with [] => True | f :: _ => isl = bool_decide (fside f = SL) end) ∧
        (color_of t = RB_RED ∨ (length p < len)%nat)
  | inr x => erased fr ns x s
  end.

Ltac ztest H :=
  erewrite bind_Some by (apply (is_black_spec _ _ _ _ H)).

(** [x_is_left = (x == x_parent->left)] for a cursor. *)
Lemma side_test fr t f p s l :
  zrep fr t (f :: p) s → root_ptr t = Some l →
  bool_decide (left (frame_node f (path_parent p) (root_ptr t)) = Some l)
  = bool_decide (fside f = SL).
Proof.
  intros H Hl. destruct t as [|c a l' k b]; [done|]. injection Hl as ->.
  pose proof (zr_sib_ne _ _ _ _ _ _ _ _ _ H) as Hne.
  destruct f as [[] cf lf kf sib]; simpl; [by rewrite !bool_decide_eq_true_2|].
  by rewrite !bool_decide_eq_false_2.
Qed.

(** Case 4: the far child of the sibling is red. *)
Lemma erase_left_case4 fr t cf l k b1 c1 w kw b21 r kr b22 p c n s :
  zrep fr t (F SL cf l k (T RB_BLACK b1 w kw (T RB_RED b21 r kr b22)) :: p) s →
  rbt t RB_BLACK n → rbt b1 c1 n → rbt (T RB_RED b21 r kr b22) RB_RED n →
  pc (F SL cf l k (T RB_BLACK b1 w kw (T RB_RED b21 r kr b22)) :: p) c (S n) →
  ∃ x s', (pc <- ld rb_color l ;; st_color pc w ;;;
           rb_set_black (Some l) ;;;
           wr <- ld right w ;; rb_set_black wr ;;;
           rb_rotate_left l ;;;
           r <- ld_root ;; ret (@inr (ptr * ptr * bool) ptr r)) s = Some (inr x, s') ∧
    erased fr (inorder (plug t (F SL cf l k (T RB_BLACK b1 w kw (T RB_RED b21 r kr b22)) :: p))) x s'.
Proof.
  intros Hz Ht Hb1 Hb2 Hp. apply zr_up in Hz; cbn in Hz.
  zld (zr_look _ _ _ _ _ _ _ _ Hz).
  apply zr_down_r in Hz. zcolor Hz cf. apply zr_up in Hz; cbn in Hz.
  unfold rb_set_black, on. zcolor Hz RB_BLACK.
  apply zr_down_r in Hz. zld (zr_look _ _ _ _ _ _ _ _ Hz). cbn [root_ptr].
  apply zr_down_r in Hz. zcolor Hz RB_BLACK. apply zr_up in Hz; cbn in Hz.
  apply zr_up in Hz; cbn in Hz. zrun rotate_left_spec Hz.
  eexists _, _. split; [reflexivity|].
  inversion Hb2; subst.
  assert (∃ N c', rbt (T cf (T RB_BLACK t l k b1) w kw (T RB_BLACK b21 r kr b22)) cf N ∧
            pc p c' N ∧ (p = [] ∨ c' = RB_RED → cf = RB_BLACK)) as (N & c' & Hr & Hp' & Hc').
  { inversion Hp; subst.
    - exists (S n), RB_BLACK. split_and!; [eauto with rbt|done|]. by intros [?|?].
    - eexists (S (S n)), _. split_and!; [eauto with rbt|done|done]. }
  pose proof (erased_root _ _ _ _ _ _ _ Hz Hr Hp' Hc') as He.
  destruct He as (t' & p' & c'' & N' & ? & ? & ? & ? & Hin).
  exists t', p', c'', N'. split_and!; [done..|]. rewrite Hin. solve_inorder.
Qed.

Lemma erase_left_black_spec fr t cf l k b1 c1 w kw b2 c2 p c n len s :
  zrep fr t (F SL cf l k (T RB_BLACK b1 w kw b2) :: p) s →
  (cf = RB_RED ∨ (length p < len)%nat) →
  rbt t RB_BLACK n → rbt b1 c1 n → rbt b2 c2 n →
  pc (F SL cf l k (T RB_BLACK b1 w kw b2) :: p) c (S n) →
  ∃ o s', erase_left_black (root_ptr t) l w s = Some (o, s') ∧
    step_post fr (inorder (plug t (F SL cf l k (T RB_BLACK b1 w kw b2) :: p))) len o s'.
Proof.
  intros Hz Hlen Ht Hb1 Hb2 Hp. pose proof Hz as Hw. apply zr_up in Hw; cbn in Hw.
  apply zr_down_r in Hw. pose proof (zr_look _ _ _ _ _ _ _ _ Hw) as Lw.
  unfold erase_left_black. zld Lw. pose proof Hw as Hw1. apply zr_down_l in Hw1.
  ztest Hw1. zld Lw. pose proof Hw as Hw2. apply zr_down_r in Hw2. ztest Hw2.
  erewrite !rbt_color by done. clear Hw1 Hw2.
  destruct (bool_decide (c1 = RB_BLACK) && bool_decide (c2 = RB_BLACK)) eqn:Hbb.
  - (* case 2 *)
    apply andb_prop in Hbb as [->%bool_decide_eq_true ->%bool_decide_eq_true].
    unfold rb_set_red, on. zcolor Hw RB_RED. apply zr_up in Hw; cbn in Hw.
    zld (zr_look _ _ _ _ _ _ _ _ Hw).
    assert (∃ N c', deficit (T cf t l k (T RB_RED b1 w kw b2)) N ∧ pc p c' N ∧
                    (p = [] → c' = RB_BLACK)) as (N & c' & Hdef & Hp' & _).
    { inversion Hp; subst.
      - exists (S n), RB_BLACK. split_and!; [|done|done]. eauto with rbt.
      - exists (S (S n)), c0. split_and!; [eauto with rbt|done|].
        intros ->. by match goal with H : pc [] _ _ |- _ => inversion H end. }
    destruct p as [|f p].
    + eexists _, _. split; [reflexivity|]. cbn [step_post].
      eexists _, [], _, _. split_and!; [exact Hw|done|done|exact Hdef|exact Hp'|solve_inorder|done|exact Hlen].
    + cbn [path_parent]. zld (zr_look_up _ _ _ _ _ Hw).
      eexists _, _. split; [reflexivity|]. cbn [step_post].
      eexists _, (f :: p), _, _.
      split_and!; [exact Hw|done|done|exact Hdef|exact Hp'|solve_inorder| |exact Hlen].
      by eapply side_test.
  - (* cases 3 and 4 *)
    destruct c2.
    2: { destruct c1; [|done]. rewrite !bool_decide_eq_true_2 by done.
      cbv beta iota. inversion Hb1; subst. rewrite bind_assoc. zld Lw.
      unfold rb_set_black at 1, rb_set_red, on; cbn [root_ptr].
      apply zr_down_l in Hw. rewrite bind_assoc. zcolor Hw RB_BLACK.
      apply zr_up in Hw; cbn in Hw. rewrite bind_assoc. zcolor Hw RB_RED.
      rewrite bind_assoc. zrun rotate_right_spec Hw. apply zr_up in Hw; cbn in Hw.
      zld (zr_look _ _ _ _ _ _ _ _ Hw). apply zr_down_l in Hw.
      edestruct erase_left_case4 as (x & sx & Rx & He); [exact Hw|eauto with rbt..| |].
      { inversion Hp; subst; econstructor; eauto with rbt. }
      exists (inr x), sx. split; [exact Rx|].
      destruct He as (t' & p' & c'' & N' & ? & ? & ? & ? & Hin).
      exists t', p', c'', N'. split_and!; [done..|]. rewrite Hin. solve_inorder. }
    rewrite (bool_decide_eq_false_2 (RB_RED = RB_BLACK)) by done. run_ret. inversion Hb2; subst.
    edestruct erase_left_case4 as (x & sx & Rx & He); [exact Hz|eauto with rbt..|].
    exists (inr x), sx. split; [exact Rx|exact He].
Qed.

(** Case 4: the far child of the sibling is red. *)
Lemma erase_right_case4 fr t cf l k b11 r kr b12 w kw b2 c2 p c n s :
  zrep fr t (F SR cf l k (T RB_BLACK (T RB_RED b11 r kr b12) w kw b2) :: p) s →
  rbt t RB_BLACK n → rbt (T RB_RED b11 r kr b12) RB_RED n → rbt b2 c2 n →
  pc (F SR cf l k (T RB_BLACK (T RB_RED b11 r kr b12) w kw b2) :: p) c (S n) →
  ∃ x s', (pc <- ld rb_color l ;; st_color pc w ;;;
           rb_set_black (Some l) ;;;
           wl <- ld left w ;; rb_set_black wl ;;;
           rb_rotate_right l ;;;
           r <- ld_root ;; ret (@inr (ptr * ptr * bool) ptr r)) s = Some (inr x, s') ∧
    erased fr (inorder (plug t (F SR cf l k (T RB_BLACK (T RB_RED b11 r kr b12) w kw b2) :: p))) x s'.
Proof.
  intros Hz Ht Hb1 Hb2 Hp. apply zr_up in Hz; cbn in Hz.
  zld (zr_look _ _ _ _ _ _ _ _ Hz).
  apply zr_down_l in Hz. zcolor Hz cf. apply zr_up in Hz; cbn in Hz.
  unfold rb_set_black, on. zcolor Hz RB_BLACK.
  apply zr_down_l in Hz. zld (zr_look _ _ _ _ _ _ _ _ Hz). cbn [root_ptr].
  apply zr_down_l in Hz. zcolor Hz RB_BLACK. apply zr_up in Hz; cbn in Hz.
  apply zr_up in Hz; cbn in Hz. zrun rotate_right_spec Hz.
  eexists _, _. split; [reflexivity|].
  inversion Hb1; subst.
  assert (∃ N c', rbt (T cf (T RB_BLACK b11 r kr b12) w kw (T RB_BLACK b2 l k t)) cf N ∧
            pc p c' N ∧ (p = [] ∨ c' = RB_RED → cf = RB_BLACK)) as (N & c' & Hr & Hp' & Hc').
  { inversion Hp; subst.
    - exists (S n), RB_BLACK. split_and!; [eauto with rbt|done|]. by intros [?|?].
    - eexists (S (S n)), _. split_and!; [eauto with rbt|done|done]. }
  pose proof (erased_root _ _ _ _ _ _ _ Hz Hr Hp' Hc') as He.
  destruct He as (t' & p' & c'' & N' & ? & ? & ? & ? & Hin).
  exists t', p', c'', N'. split_and!; [done..|]. rewrite Hin. solve_inorder.
Qed.

Lemma erase_right_black_spec fr t cf l k b1 c1 w kw b2 c2 p c n len s :
  zrep fr t (F SR cf l k (T RB_BLACK b1 w kw b2) :: p) s →
  (cf = RB_RED ∨ (length p < len)%nat) →
  rbt t RB_BLACK n → rbt b1 c1 n → rbt b2 c2 n →
  pc (F SR cf l k (T RB_BLACK b1 w kw b2) :: p) c (S n) →
  ∃ o s', erase_right_black (root_ptr t) l w s = Some (o, s') ∧
    step_post fr (inorder (plug t (F SR cf l k (T RB_BLACK b1 w kw b2) :: p))) len o s'.
Proof.
  intros Hz Hlen Ht Hb1 Hb2 Hp. pose proof Hz as Hw. apply zr_up in Hw; cbn in Hw.
  apply zr_down_l in Hw. pose proof (zr_look _ _ _ _ _ _ _ _ Hw) as Lw.
  unfold erase_right_black. zld Lw. pose proof Hw as Hw1. apply zr_down_l in Hw1.
  ztest Hw1. zld Lw. pose proof Hw as Hw2. apply zr_down_r in Hw2. ztest Hw2.
  erewrite !rbt_color by done. clear Hw1 Hw2.
  destruct (bool_decide (c1 = RB_BLACK) && bool_decide (c2 = RB_BLACK)) eqn:Hbb.
  - (* case 2 *)
    apply andb_prop in Hbb as [->%bool_decide_eq_true ->%bool_decide_eq_true].
    unfold rb_set_red, on. zcolor Hw RB_RED. apply zr_up in Hw; cbn in Hw.
    zld (zr_look _ _ _ _ _ _ _ _ Hw).
    assert (∃ N c', deficit (T cf (T RB_RED b1 w kw b2) l k t) N ∧ pc p c' N ∧
                    (p = [] → c' = RB_BLACK)) as (N & c' & Hdef & Hp' & _).
    { inversion Hp; subst.
      - exists (S n), RB_BLACK. split_and!; [|done|done]. eauto with rbt.
      - exists (S (S n)), c0. split_and!; [eauto with rbt|done|].
        intros ->. by match goal with H : pc [] _ _ |- _ => inversion H end. }
    destruct p as [|f p].
    + eexists _, _. split; [reflexivity|]. cbn [step_post].
      eexists _, [], _, _. split_and!; [exact Hw|done|done|exact Hdef|exact Hp'|solve_inorder|done|exact Hlen].
    + cbn [path_parent]. zld (zr_look_up _ _ _ _ _ Hw).
      eexists _, _. split; [reflexivity|]. cbn [step_post].
      eexists _, (f :: p), _, _.
      split_and!; [exact Hw|done|done|exact Hdef|exact Hp'|solve_inorder| |exact Hlen].
      by eapply side_test.
  - (* cases 3 and 4 *)
    destruct c1.
    2: { destruct c2; [|done]. rewrite !bool_decide_eq_true_2 by done.
      cbv beta iota. inversion Hb2; subst. rewrite bind_assoc. zld Lw.
      unfold rb_set_black at 1, rb_set_red, on; cbn [root_ptr].
      apply zr_down_r in Hw. rewrite bind_assoc. zcolor Hw RB_BLACK.
      apply zr_up in Hw; cbn in Hw. rewrite bind_assoc. zcolor Hw RB_RED.
      rewrite bind_assoc. zrun rotate_left_spec Hw. apply zr_up in Hw; cbn in Hw.
      zld (zr_look _ _ _ _ _ _ _ _ Hw). apply zr_down_r in Hw.
      edestruct erase_right_case4 as (x & sx & Rx & He); [exact Hw|eauto with rbt..| |].
      { inversion Hp; subst; econstructor; eauto with rbt. }
      exists (inr x), sx. split; [exact Rx|].
      destruct He as (t' & p' & c'' & N' & ? & ? & ? & ? & Hin).
      exists t', p', c'', N'. split_and!; [done..|]. rewrite Hin. solve_inorder. }
    rewrite (bool_decide_eq_false_2 (RB_RED = RB_BLACK)) by done. run_ret. inversion Hb1; subst.
    edestruct erase_right_case4 as (x & sx & Rx & He); [exact Hz|eauto with rbt..|].
    exists (inr x), sx. split; [exact Rx|exact He].
Qed.

(** Case 1 turns a red sibling into a black one. *)
Lemma erase_step_left_spec fr t cf l k sib p c n s :
  zrep fr t (F SL cf l k sib :: p) s → rbt t RB_BLACK n →
  pc (F SL cf l k sib :: p) c (S n) →
  ∃ o s', rb_erase_step_left (root_ptr t) (Some l) s = Some (o, s') ∧
    step_post fr (inorder (plug t (F SL cf l k sib :: p))) (S (length p)) o s'.
Proof.
  intros Hz Ht Hp. unfold rb_erase_step_left, deref. zld (zr_look_up _ _ _ _ _ Hz).
  unfold frame_node; cbn [fside fcol floc fkey fsib right left].
  assert (∃ cs, rbt sib cs (S n) ∧ (cf = RB_RED → cs = RB_BLACK)) as (cs & Hsib & Hcs).
  { inversion Hp; subst; eexists; (split; [eassumption|done]). }
  pose proof Hz as Hw. apply zr_up in Hw; cbn in Hw. apply zr_down_r in Hw.
  destruct sib as [|cw b1 w kw b2]; [inversion Hsib|]. cbn [root_ptr].
  change (Some w) with (root_ptr (T cw b1 w kw b2)).
  erewrite bind_Some by (apply (is_red_spec _ _ _ _ Hw)). cbn [color_of root_ptr].
  destruct cw.
  - inversion Hsib; subst. destruct cf; [by discriminate Hcs|].
    rewrite bool_decide_eq_true_2 by done. unfold rb_set_black, rb_set_red, on. cbv beta iota.
    rewrite bind_assoc. zcolor Hw RB_BLACK. apply zr_up in Hw; cbn in Hw.
    rewrite bind_assoc. zcolor Hw RB_RED. rewrite bind_assoc. zrun rotate_left_spec Hw.
    apply zr_down_l in Hw. zld (zr_look _ _ _ _ _ _ _ _ Hw).
    apply zr_down_l in Hw.
    match goal with H : rbt b1 RB_BLACK (S n) |- _ =>
      apply rbt_black_S in H as (a1 & l1 & k1 & a2 & ca & cb & -> & ? & ?) end.
    cbn [root_ptr].
    edestruct erase_left_black_spec as (o & s' & Rx & Hpost);
      [exact Hw|by left|done|done|done| |].
    { inversion Hp; subst. eapply pc_R; [eauto with rbt|]. eapply pc_B; eassumption. }
    exists o, s'. split; [exact Rx|].
    match goal with H : step_post _ ?ns _ _ _ |- step_post _ ?ns' _ _ _ =>
      replace ns' with ns by solve_inorder; exact H end.
  - rewrite bool_decide_eq_false_2 by done. run_ret.
    inversion Hsib; subst.
    eapply erase_left_black_spec; [exact Hz|right; lia|done|done|done|exact Hp].
Qed.

(** The mirror image turns a red sibling into a black one. *)
Lemma erase_step_right_spec fr t cf l k sib p c n s :
  zrep fr t (F SR cf l k sib :: p) s → rbt t RB_BLACK n →
  pc (F SR cf l k sib :: p) c (S n) →
  ∃ o s', rb_erase_step_right (root_ptr t) (Some l) s = Some (o, s') ∧
    step_post fr (inorder (plug t (F SR cf l k sib :: p))) (S (length p)) o s'.
Proof.
  intros Hz Ht Hp. unfold rb_erase_step_right, deref. zld (zr_look_up _ _ _ _ _ Hz).
  unfold frame_node; cbn [fside fcol floc fkey fsib right left].
  assert (∃ cs, rbt sib cs (S n) ∧ (cf = RB_RED → cs = RB_BLACK)) as (cs & Hsib & Hcs).
  { inversion Hp; subst; eexists; (split; [eassumption|done]). }
  pose proof Hz as Hw. apply zr_up in Hw; cbn in Hw. apply zr_down_l in Hw.
  destruct sib as [|cw b1 w kw b2]; [inversion Hsib|]. cbn [root_ptr].
  change (Some w) with (root_ptr (T cw b1 w kw b2)).
  erewrite bind_Some by (apply (is_red_spec _ _ _ _ Hw)). cbn [color_of root_ptr].
  destruct cw.
  - inversion Hsib; subst. destruct cf; [by discriminate Hcs|].
    rewrite bool_decide_eq_true_2 by done. unfold rb_set_black, rb_set_red, on. cbv beta iota.
    rewrite bind_assoc. zcolor Hw RB_BLACK. apply zr_up in Hw; cbn in Hw.
    rewrite bind_assoc. zcolor Hw RB_RED. rewrite bind_assoc. zrun rotate_right_spec Hw.
    apply zr_down_r in Hw. zld (zr_look _ _ _ _ _ _ _ _ Hw).
    apply zr_down_r in Hw.
    match goal with H : rbt b2 RB_BLACK (S n) |- _ =>
      apply rbt_black_S in H as (a1 & l1 & k1 & a2 & ca & cb & -> & ? & ?) end.
    cbn [root_ptr].
    edestruct erase_right_black_spec as (o & s' & Rx & Hpost);
      [exact Hw|by left|done|done|done| |].
    { inversion Hp; subst. eapply pc_R; [eauto with rbt|]. eapply pc_B; eassumption. }
    exists o, s'. split; [exact Rx|].
    match goal with H : step_post _ ?ns _ _ _ |- step_post _ ?ns' _ _ _ =>
      replace ns' with ns by solve_inorder; exact H end.
  - rewrite bool_decide_eq_false_2 by done. run_ret.
    inversion Hsib; subst.
    eapply erase_right_black_spec; [exact Hz|right; lia|done|done|done|exact Hp].
Qed.

(** Below the root, the cursor is not the root. *)
Lemma root_in_path h r c f p :
  path_at h r c (f :: p) → ∃ l, l ∈ plocs (f :: p) ∧ r = Some l.
Proof.
  revert c f. induction p as [|g p IH]; intros c f Hp; destruct Hp as (_ & _ & Hp).
  - simpl in Hp. exists (floc f). split; [left|done].
  - destruct (IH _ _ Hp) as (l & Hl & ->). exists l. split; [|done].
    simpl. right. apply elem_of_app. by right.
Qed.
Lemma cursor_not_root fr t f p s : zrep fr t (f :: p) s → root_ptr t ≠ root s.
Proof.
  intros [_ Hp Hn _] Heq. destruct (root_in_path _ _ _ _ _ Hp) as (l & Hl & Hr).
  rewrite Hr in Heq. destruct t as [|c a l' k b]; [done|]. injection Heq as ->.
  apply NoDup_app in Hn as (_ & Hn & _). apply (Hn l); [left|done].
Qed.

(** The whole repair loop. *)
Lemma erase_fixup_loop_spec fr fuel t p c N isl s :
  zrep fr t p s → deficit t N → pc p c N → (p = [] → c = RB_BLACK) →
  (match p with [] => True | f :: _ => isl = bool_decide (fside f = SL) end) →
  (0 < fuel)%nat → (color_of t = RB_RED ∨ (length p < fuel)%nat) →
  ∃ x s', rb_erase_fixup_loop fuel (root_ptr t) (path_parent p) isl s = Some (x, s') ∧
          erased fr (inorder (plug t p)) x s'.
Proof.
  revert t p c N isl s. induction fuel as [|fuel IH];
    intros t p c N isl s Hz Hd Hp Hroot Hisl Hpos Hfuel; [lia|].
  simpl. unfold ld_root at 1. unfold bind at 1.
  erewrite bind_Some by (apply (is_black_spec _ _ _ _ Hz)).
  inversion Hd as [? n Ht|a l k b ? Ht]; subst.
  - rewrite (rbt_color _ _ _ Ht). rewrite (bool_decide_eq_true_2 (RB_BLACK = _)) by done.
    rewrite andb_true_r. destruct p as [|f p].
    + assert (root s = root_ptr t) as Hr by (by destruct Hz as [_ Hp' _ _]).
      rewrite Hr, bool_decide_eq_false_2 by auto.
      eexists _, _. split; [reflexivity|]. exists t, [], RB_BLACK, n.
      split_and!; [done|done| |constructor|done].
      destruct t; inversion Ht; subst; eauto with rbt.
    + assert (length p < fuel)%nat as Hlt.
      { destruct Hfuel as [Hf|Hf]; [by rewrite (rbt_color _ _ _ Ht) in Hf|simpl in Hf; lia]. }
      rewrite bool_decide_eq_true_2.
      2:{ exact (cursor_not_root _ _ _ _ _ Hz). }
      assert (∃ o s', (if isl then rb_erase_step_left (root_ptr t) (path_parent (f :: p))
                       else rb_erase_step_right (root_ptr t) (path_parent (f :: p))) s = Some (o, s') ∧
                step_post fr (inorder (plug t (f :: p))) (S (length p)) o s') as (o & s1 & R & Hpost).
      { subst isl. destruct f as [[] cf l k sib]; cbn [fside path_parent floc].
        - rewrite bool_decide_eq_true_2 by done. by eapply erase_step_left_spec.
        - rewrite bool_decide_eq_false_2 by done. by eapply erase_step_right_spec. }
      rewrite (bind_Some _ _ _ _ _ R). destruct o as [[[x xp] isl']|x]; cbn [step_post] in Hpost.
      * destruct Hpost as (t' & p' & c' & N' & Hz' & -> & -> & Hd' & Hp' & Hin & Hisl' & Hlen).
        rewrite <- Hin. eapply IH; [done|done|done| |done| |].
        -- intros ->. by inversion Hp'.
        -- lia.
        -- destruct Hlen as [?|?]; [by left|right; lia].
      * exists x, s1. split; [reflexivity|done].
  - cbn [color_of]. rewrite (bool_decide_eq_false_2 (RB_RED = _)) by done.
    rewrite andb_false_r. eexists _, _. split; [reflexivity|].
    exists (T RB_RED a l k b), p, c, N. by split_and!.
Qed.

(** Blackening the final [x]. *)
Lemma erase_fixup_spec fr fuel t p c N isl s :
  zrep fr t p s → deficit t N → pc p c N → (p = [] → c = RB_BLACK) →
  (match p with [] => True | f :: _ => isl = bool_decide (fside f = SL) end) →
  (length p < fuel)%nat →
  ∃ s' t' n, rb_erase_fixup fuel (root_ptr t) (path_parent p) isl s = Some (tt, s') ∧
     repr fr t' s' ∧ rbt t' RB_BLACK n ∧ inorder t' = inorder (plug t p).
Proof.
  intros Hz Hd Hp Hroot Hisl Hfuel. unfold rb_erase_fixup.
  destruct (erase_fixup_loop_spec fr fuel t p c N isl s)
    as (x & s1 & R & t1 & p1 & c1 & N1 & Hz1 & -> & Ht1 & Hp1 & Hin);
    [done..|lia|by right|].
  rewrite (bind_Some _ _ _ _ _ R). rewrite <- Hin.
  assert (∃ s', rb_set_black (root_ptr t1) s1 = Some (tt, s') ∧ zrep fr (blacken t1) p1 s')
    as (s' & R' & Hz').
  { destruct t1; simpl; [by exists s1|]. by eapply set_color_spec. }
  destruct (pc_plug _ _ _ _ _ Ht1 Hp1) as (c' & m & Hr & Hb); [done|].
  rewrite Hb in Hr by (by right).
  exists s', (plug (blacken t1) p1), m. split_and!; [done|by apply zrep_plug in Hz'|done|].
  rewrite !inorder_plug. by destruct t1.
Qed.

(** ** rb_transplant and the successor *)

Lemma leftmost_spec fr fuel c a l k b p s :
  zrep fr (T c a l k b) p s → (height (T c a l k b) ≤ fuel)%nat →
  ∃ q yc y yk yb, leftmost fuel l s = Some (y, s) ∧
    zrep fr (T yc E y yk yb) (q ++ p) s ∧
    (∀ t r, plug t (q ++ r) = plug (plug t q) r) ∧
    plug (T yc E y yk yb) q = T c a l k b ∧ before q = [] ∧
    (length q < height (T c a l k b))%nat.
Proof.
  revert c a l k b p. induction fuel as [|fuel IH]; intros c a l k b p Hz Hh; [simpl in Hh; lia|].
  cbn [leftmost]. zld (zr_look _ _ _ _ _ _ _ _ Hz).
  destruct a as [|ca a1 la ka a2]; cbn [root_ptr].
  - exists [], c, l, k, b. split_and!; try done. simpl. lia.
  - apply zr_down_l in Hz. simpl in Hh.
    destruct (IH _ _ _ _ _ _ Hz) as (q & yc & y & yk & yb & R & Hz' & Hpl & Hq & Hbef & Hlen);
      [simpl; lia|].
    exists (q ++ [F SL c l k b]), yc, y, yk, yb.
    assert (∀ t r, plug t ((q ++ [F SL c l k b]) ++ r) = plug (plug t (q ++ [F SL c l k b])) r) as Hpl'.
    { intros t r. rewrite <- app_assoc, !Hpl. done. }
    split_and!; [done|by rewrite <- app_assoc|done| | |].
    + rewrite Hpl, Hq. done.
    + clear -Hbef. induction q as [|[[] ? ? ? ?] q IH]; simpl in *; [done|auto|].
      by apply app_eq_nil in Hbef as [_ [_ [=]]%app_eq_nil].
    + rewrite length_app. simpl in *. lia.
Qed.

Ltac run_adopt_some :=
  repeat match goal with
  | |- context [adopt (Some ?y) ?q] => change (adopt (Some y) q) with (st_parent q y)
  end; mrun.

(** A node with at most one child gives way to it. *)
Lemma transplant_child fr c a u k b v p s :
  zrep fr (T c a u k b) p s → (v = a ∧ b = E) ∨ (v = b ∧ a = E) →
  ∃ s', rb_transplant u (root_ptr v) s = Some (tt, s') ∧
        zrep (<[u := mk_node c (path_parent p) (root_ptr a) (root_ptr b) k]> fr) v p s'.
Proof.
  intros [Ht Hp Hn Hf] Hv. destruct s as [r h]. simpl in *. destruct Ht as (Hu & Ha & Hb).
  assert (tree_at h (Some u) v ∧ locs v ≡ₚ locs a ++ locs b) as [Hat Hperm].
  { destruct Hv as [[-> ->]|[-> ->]]; simpl; [by rewrite app_nil_r|done]. }
  rewrite <- Hperm in Hn. pose proof Hn as Hn'. nodup_facts Hn'. disjoint_hyps.
  unfold rb_transplant. mrun. run_relink p. run_adopt (Some u) v.
  eexists. split; [reflexivity|].
  constructor; cbn; [at_frames|at_frames|by apply NoDup_cons in Hn as [_ Hn]|].
  intros z Hz. apply not_elem_of_app in Hz as [Hz1 Hz2].
  destruct (decide (z = u)) as [->|Hne]; [by repeat mlook|].
  rewrite lookup_insert_ne by done. repeat mlook. apply Hf.
  rewrite not_elem_of_cons, not_elem_of_app, <- Hperm. tauto.
Qed.

(** The two-children case just before [y] is put in the place of [z]: [y]
    already holds what will be its right subtree. *)
Record mid (fr : gmap loc rb_node) (zc : color) (a : tree) (z : loc) (zk : Z) (b : tree)
    (p : path) (y : loc) (yk : Z) (s : rb_mem) : Prop := mk_mid {
  mid_z : ∃ zr, nodes s !! z = Some (mk_node zc (path_parent p) (root_ptr a) zr zk);
  mid_y : ∃ yc yp yl, nodes s !! y = Some (mk_node yc yp yl (root_ptr b) yk);
  mid_a : tree_at (nodes s) (Some z) a;
  mid_b : tree_at (nodes s) (Some y) b;
  mid_p : path_at (nodes s) (root s) (Some z) p;
  mid_nodup : NoDup (z :: y :: locs a ++ locs b ++ plocs p);
  mid_frame : ∀ l, l ∉ z :: y :: locs a ++ locs b ++ plocs p → nodes s !! l = fr !! l
}.

Lemma take_place_spec fr zc a z zk b p y yk s :
  mid fr zc a z zk b p y yk s →
  ∃ s' nz, take_place z y s = Some (tt, s') ∧ key nz = zk ∧
           zrep (<[z := nz]> fr) (T zc a y yk b) p s'.
Proof.
  intros [[zr Hz] (yc & yp & yl & Hy) Ha Hb Hp Hn Hf]. destruct s as [r h]. simpl in *.
  pose proof Hn as Hn'. nodup_facts Hn'. disjoint_hyps.
  unfold take_place, rb_transplant. rewrite bind_assoc. mrun. run_relink p.
  run_adopt_some. run_adopt (Some z) a.
  eexists _, (mk_node zc (path_parent p) (root_ptr a) zr zk). split; [reflexivity|]. split; [done|].
  apply NoDup_cons in Hn as [_ Hn].
  constructor; cbn; [at_frames|at_frames|by rewrite <- app_assoc|].
  intros l Hl. rewrite not_elem_of_cons, !not_elem_of_app in Hl. destruct_and? Hl.
  destruct (decide (l = z)) as [->|Hne]; [rewrite lookup_insert_eq; by repeat mlook|].
  rewrite lookup_insert_ne by congruence. repeat mlook. apply Hf.
  rewrite !not_elem_of_cons, !not_elem_of_app. tauto.
Qed.

(** [y] is not the right child of [z]: after [y] was bypassed, it adopts [z]'s
    right subtree. *)
Lemma far_spec {A} fr zc a z zk b p y ny s (v : A) :
  zrep fr (T zc a z zk b) p s → y ∉ locs (T zc a z zk b) ++ plocs p → fr !! y = Some ny →
  ∃ s', (zr <- ld right z ;; st_right zr y ;;; adopt zr (Some y) ;;; ret v) s = Some (v, s') ∧
        mid fr zc a z zk b p y (key ny) s'.
Proof.
  intros [Ht Hp Hn Hf] Hy Hny. destruct s as [r h]. simpl in *. destruct Ht as (Hz & Ha & Hb).
  pose proof (Hf y Hy) as Hyh. rewrite Hny in Hyh. destruct ny as [yc yp yl yr yk].
  rewrite <- app_assoc in Hn. cbn [app] in *.
  assert (NoDup (z :: y :: locs a ++ locs b ++ plocs p)) as HN.
  { eapply (NoDup_Permutation_proper _ (y :: z :: locs a ++ locs b ++ plocs p));
      [solve_Permutation|]. apply NoDup_cons. split; [|done].
    by rewrite <- app_assoc in Hy. }
  pose proof HN as HN'. nodup_facts HN'. disjoint_hyps. mrun. run_adopt (Some z) b.
  eexists. split; [reflexivity|].
  constructor; cbn; [eexists; by repeat mlook|eexists _, _, _; by repeat mlook|at_frames..|done|].
  intros l Hl. rewrite !not_elem_of_cons, !not_elem_of_app in Hl. destruct_and? Hl.
  repeat mlook. apply Hf. rewrite not_elem_of_cons, !not_elem_of_app. tauto.
Qed.

(** [y] is the right child of [z]. *)
Lemma near_spec {A} fr zc a z zk yc y yk b p s (v : A) :
  zrep fr (T zc a z zk (T yc E y yk b)) p s →
  ∃ s', (adopt (root_ptr b) (Some y) ;;; ret v) s = Some (v, s') ∧
        mid fr zc a z zk b p y yk s'.
Proof.
  intros [Ht Hp Hn Hf]. destruct s as [r h]. simpl in *. destruct Ht as (Hz & Ha & Hy & _ & Hb).
  assert (NoDup (z :: y :: locs a ++ locs b ++ plocs p)) as HN.
  { eapply NoDup_Permutation_proper; [|exact Hn]. solve_Permutation. }
  pose proof HN as HN'. nodup_facts HN'. disjoint_hyps. mrun. run_adopt (Some y) b.
  eexists. split; [reflexivity|].
  constructor; cbn; [eexists; by repeat mlook|eexists _, _, _; by repeat mlook|at_frames..|done|].
  intros l Hl. rewrite !not_elem_of_cons, !not_elem_of_app in Hl. destruct_and? Hl.
  repeat mlook. apply Hf. repeat rewrite ?not_elem_of_cons, ?not_elem_of_app. tauto.
Qed.

(** ** rb_erase *)

Lemma locs_cursor t l :
  l ∈ locs t → ∃ c a k b p, plug (T c a l k b) p = t ∧
    (length p + height (T c a l k b) ≤ height t)%nat.
Proof.
  induction t as [|c a IHa l' k b IHb]; simpl; [by intros ?%elem_of_nil|].
  intros [->|[Hl|Hl]%elem_of_app]%elem_of_cons.
  - exists c, a, k, b, []. split; [done|simpl; lia].
  - destruct (IHa Hl) as (c' & a' & k' & b' & p & Hp & Hh).
    exists c', a', k', b', (p ++ [F SL c l' k b]). split; [|rewrite length_app; simpl in *; lia].
    rewrite <- Hp. clear. generalize (T c' a' l k' b').
    induction p as [|f p IH]; intros u; simpl; [done|apply IH].
  - destruct (IHb Hl) as (c' & a' & k' & b' & p & Hp & Hh).
    exists c', a', k', b', (p ++ [F SR c l' k a]). split; [|rewrite length_app; simpl in *; lia].
    rewrite <- Hp. clear. generalize (T c' a' l k' b').
    induction p as [|f p IH]; intros u; simpl; [done|apply IH].
Qed.

(** Every cursor of a red-black tree splits its invariant. *)
Lemma unplug_rbt t p m :
  rbt (plug t p) RB_BLACK m →
  ∃ ct c n, rbt t ct n ∧ pc p c n ∧ (p = [] ∨ c = RB_RED → ct = RB_BLACK).
Proof.
  revert t. induction p as [|[d cf l k sib] p IH]; intros t Ht.
  - exists RB_BLACK, RB_BLACK, m. by split_and!; [|constructor|].
  - simpl in Ht. destruct (IH _ Ht) as (ct' & c' & n' & Ht' & Hp & Hc).
    assert (∃ c1 c2 m1, rbt t c1 m1 ∧ rbt sib c2 m1 ∧ (cf = RB_RED → c1 = RB_BLACK ∧ c2 = RB_BLACK)
              ∧ ct' = cf ∧ n' = (if decide (cf = RB_BLACK) then S m1 else m1))
      as (c1 & c2 & m1 & H1 & H2 & Hcc & -> & ->).
    { destruct d; cbn in Ht'; inversion Ht'; subst; eexists _, _, _; split_and!; try done. }
    exists c1, cf, m1. split_and!; [done| |].
    + destruct cf; simpl in *.
      * destruct (Hcc eq_refl) as [-> ->].
        destruct p as [|f p]; [by discriminate Hc; left|].
        destruct c'; [by discriminate Hc; right|]. by constructor.
      * econstructor; eauto.
    + intros [?|Hr]; [done|]. by apply Hcc.
Qed.

Lemma pc_rename q d cf l k l' k' sib p c n :
  pc (q ++ F d cf l k sib :: p) c n → pc (q ++ F d cf l' k' sib :: p) c n.
Proof.
  revert c n. induction q as [|f q IH]; intros c n; simpl.
  - inversion 1; subst; econstructor; eauto.
  - intros H. inversion H as [|d1 l1 k1 s1 f1 p1 ? Hs Hp|]; subst.
    + destruct q as [|g q]; simpl in *; simplify_eq; (apply pc_R; [done|by apply IH]).
    + econstructor; eauto.
Qed.

Lemma deficit_child v cv n : rbt v cv n → deficit v (S n).
Proof. inversion 1; subst; eauto with rbt. Qed.

Lemma inorder_locs t : (inorder t).*2 ≡ₚ locs t.
Proof.
  induction t as [|c a IHa l k b IHb]; simpl; [done|].
  rewrite fmap_app. simpl. rewrite IHa, IHb. by rewrite Permutation_middle.
Qed.

Lemma remove_loc_split l1 k z l2 :
  NoDup (l1 ++ (k, z) :: l2).*2 → remove_loc z (l1 ++ (k, z) :: l2) = l1 ++ l2.
Proof.
  rewrite fmap_app. simpl. rewrite NoDup_app_cons. intros (H1 & H2 & _).
  assert (∀ ns : list (Z * loc), z ∉ ns.*2 → remove_loc z ns = ns) as Hid.
  { intros ns. induction ns as [|[k' y] ns IH]; simpl; [done|]. unfold remove_loc.
    rewrite not_elem_of_cons. intros [Hne Hin]. rewrite filter_cons, decide_True by (simpl; congruence).
    f_equal. by apply IH. }
  unfold remove_loc in *. rewrite filter_app, filter_cons, decide_False by (simpl; tauto).
  by rewrite !Hid.
Qed.

Lemma sorted_drop l1 x l2 : sorted (l1 ++ x :: l2) → sorted (l1 ++ l2).
Proof.
  rewrite !sorted_app, sorted_cons. intros (H1 & [_ H2] & H3). split_and!; [done..|].
  intros y w Hy Hw. apply H3; [done|by right].
Qed.

(** The repair after the removal: [v] hangs where the spliced-out node of
    colour [yc] was. *)
Lemma erase_finish fr fuel yc v cv p c n isl s :
  zrep fr v p s → rbt v cv n → (yc = RB_RED → cv = RB_BLACK) →
  pc p c (if decide (yc = RB_BLACK) then S n else n) → (p = [] ∨ c = RB_RED → yc = RB_BLACK) →
  (match p with [] => True | f :: _ => isl = bool_decide (fside f = SL) end) →
  (length p < fuel)%nat →
  ∃ s' t' m, (if decide (yc = RB_BLACK)
              then rb_erase_fixup fuel (root_ptr v) (path_parent p) isl
              else ret tt) s = Some (tt, s') ∧
     repr fr t' s' ∧ rbt t' RB_BLACK m ∧ inorder t' = inorder (plug v p).
Proof.
  intros Hz Hv Hcv Hp Hc Hisl Hfuel. destruct yc; simpl in *.
  - rewrite (Hcv eq_refl) in Hv.
    destruct p as [|f p]; [by discriminate Hc; left|].
    destruct (pc_plug _ _ _ _ _ Hv Hp) as (c' & m & Hr & Hb); [done|].
    rewrite Hb in Hr by (by left).
    exists s, (plug v (f :: p)), m. split_and!; [done|by apply zrep_plug in Hz|done|done].
  - eapply erase_fixup_spec; [done|by eapply deficit_child|done| |done|done].
    intros ->. by inversion Hp.
Qed.

(** What deletion leaves behind when it removes [z] from between [pre] and
    [post]. *)
Definition erase_res (fr : gmap loc rb_node) (fuel : nat) (z : loc) (k : Z)
    (ns : list (Z * loc)) (s : rb_mem) : Prop :=
  ∃ s' t' nz m, rb_erase fuel (Some z) s = Some (tt, s') ∧ key nz = k ∧
    repr (<[z := nz]> fr) t' s' ∧ rbt t' RB_BLACK m ∧ inorder t' = ns.

Lemma child_side_spec fr c a l k b p s :
  zrep fr (T c a l k b) p s →
  child_side (path_parent p) l s
  = Some (match p with [] => false | f :: _ => bool_decide (fside f = SL) end, s).
Proof.
  intros Hz. unfold child_side. destruct p as [|f p]; [done|]. cbn [path_parent].
  zld (zr_look_up _ _ _ _ _ Hz). unfold ret. f_equal. f_equal. by eapply side_test.
Qed.

Lemma erase_one_child fr fuel zc a z k b v p c n s :
  zrep fr (T zc a z k b) p s → rbt (T zc a z k b) zc n → pc p c n →
  (p = [] ∨ c = RB_RED → zc = RB_BLACK) → (length p < fuel)%nat →
  (v = b ∧ a = E) ∨ (v = a ∧ b = E ∧ a ≠ E) →
  erase_res fr fuel z k (before p ++ inorder a ++ inorder b ++ after p) s.
Proof.
  intros Hz Hzt Hp Hc Hfuel Hv. unfold erase_res, rb_erase.
  pose proof (zr_look _ _ _ _ _ _ _ _ Hz) as Lz. zld Lz. zld Lz. zld Lz.
  destruct (transplant_child _ _ _ _ _ _ v _ _ Hz) as (s1 & R1 & Hz1); [tauto|].
  assert (∃ cv n', rbt v cv n' ∧ (zc = RB_RED → cv = RB_BLACK) ∧
            n = (if decide (zc = RB_BLACK) then S n' else n')) as (cv & n' & Hrv & Hcv & ->).
  { destruct Hv as [[-> ->]|(-> & -> & _)]; inversion Hzt; subst;
      (eexists _, _; split_and!; [eassumption|done|done]). }
  set (isl := match p with [] => false | f :: _ => bool_decide (fside f = SL) end).
  destruct (erase_finish _ fuel zc v cv p c n' isl s1 Hz1 Hrv Hcv Hp Hc) as (s2 & t2 & m & R2 & Hr & Ht & Hio);
    [by destruct p|done|].
  exists s2, t2, (mk_node zc (path_parent p) (root_ptr a) (root_ptr b) k), m.
  split_and!; [|done|exact Hr|exact Ht|].
  - destruct Hv as [[-> ->]|(-> & -> & Ha)]; cbn [root_ptr].
    + unfold isl in R2. rewrite bind_assoc. zld Lz. rewrite bind_assoc.
      rewrite (bind_Some _ _ _ _ _ (child_side_spec _ _ _ _ _ _ _ _ Hz)).
      rewrite bind_assoc, (bind_Some _ _ _ _ _ R1). exact R2.
    + destruct a as [|ca a1 la ka a2]; [done|]. cbn [root_ptr] in *.
      rewrite bind_assoc. zld Lz. rewrite bind_assoc.
      rewrite (bind_Some _ _ _ _ _ (child_side_spec _ _ _ _ _ _ _ _ Hz)).
      rewrite bind_assoc, (bind_Some _ _ _ _ _ R1). exact R2.
  - rewrite Hio, inorder_plug. destruct Hv as [[-> ->]|(-> & -> & _)]; done.
Qed.

Lemma plug_app t q r : plug t (q ++ r) = plug (plug t q) r.
Proof. revert t. induction q as [|f q IH]; intros t; simpl; [done|apply IH]. Qed.

Lemma zrep_app fr t q p s : zrep fr t (q ++ p) s ↔ zrep fr (plug t q) p s.
Proof. by rewrite zrep_plug, plug_app, <- zrep_plug. Qed.

(** The frame says nothing about the tree's own addresses. *)
Lemma zrep_frame_own fr fr' t p s :
  (∀ l, l ∉ locs t ++ plocs p → fr' !! l = fr !! l) → zrep fr t p s → zrep fr' t p s.
Proof. intros Hfr [Ht Hp Hn Hf]. constructor; [done..|]. intros l Hl. by rewrite Hfr, Hf. Qed.

Lemma plocs_app q p : plocs (q ++ p) = plocs q ++ plocs p.
Proof. induction q as [|f q IH]; simpl; [done|]. by rewrite IH, <- app_assoc. Qed.

Lemma locs_plug t q : locs (plug t q) ≡ₚ locs t ++ plocs q.
Proof.
  revert t. induction q as [|[[] c l k sib] q IH]; intros t; simpl; [by rewrite app_nil_r|..];
    rewrite IH; simpl; solve_Permutation.
Qed.

Lemma detach_succ_spec fr zc a z k yc y yk yb q p s :
  zrep fr (T yc E y yk yb) (q ++ F SR zc z k a :: p) s →
  ∃ s' ny xp isl, detach_succ z y (root_ptr yb) s = Some ((xp, isl), s') ∧
    xp = path_parent (q ++ F SR zc y yk a :: p) ∧
    isl = (match q with [] => false | f :: _ => bool_decide (fside f = SL) end) ∧
    mid (<[y := ny]> fr) zc a z k (plug yb q) p y yk s'.
Proof.
  intros Hz. unfold detach_succ. pose proof (zr_look _ _ _ _ _ _ _ _ Hz) as Ly. zld Ly.
  destruct q as [|f q].
  - cbn [app path_parent floc]. rewrite decide_True by done.
    apply zr_up in Hz. cbn in Hz.
    destruct (near_spec _ _ _ _ _ _ _ _ _ _ _ (Some y, false) Hz) as (s' & R & Hm).
    exists s', (mk_node yc (Some z) NULL (root_ptr yb) yk). eexists _, _.
    split_and!; [exact R|done|done|].
    destruct Hm. constructor; try done. intros l Hl. rewrite lookup_insert_ne; [by apply mid_frame0|].
    intros <-. apply Hl. right. left.
  - cbn [app path_parent] in *.
    set (fz := F SR zc z k a) in *.
    pose proof (zr_nodup _ _ _ _ Hz) as Hn. cbn in Hn. rewrite plocs_app in Hn. cbn in Hn.
    assert (z ≠ floc f) as Hne by (intros ->; nodup_facts Hn; done).
    rewrite decide_False by congruence. cbn [deref]. rewrite bind_assoc.
    zld (zr_look_up _ _ _ _ _ Hz). rewrite (side_test _ _ _ _ _ _ Hz) by done.
    destruct (transplant_child _ _ _ _ _ _ yb _ _ Hz) as (s1 & R1 & Hz1); [by right|].
    rewrite bind_ret_l, (bind_Some _ _ _ _ _ R1).
    apply (zrep_app _ yb (f :: q)), zr_up in Hz1. cbn -[plug] in Hz1.
    set (ny := mk_node yc (Some (floc f)) NULL (root_ptr yb) yk) in *.
    destruct (far_spec _ zc a z k (plug yb (f :: q)) p y ny _
      (Some (floc f), bool_decide (fside f = SL)) Hz1) as (s' & R & Hm);
      [|apply lookup_insert_eq|].
    { cbn -[plug]. rewrite locs_plug. cbn. nodup_facts Hn.
      rewrite !not_elem_of_cons, !not_elem_of_app. cbn. rewrite !not_elem_of_cons, !not_elem_of_app. tauto. }
    eexists s', ny, _, _. split_and!; [exact R|done|done|exact Hm].
Qed.

Lemma erase_two_children fr fuel zc ca a1 la ka a2 z k cb b1 lb kb b2 p m s :
  let a := T ca a1 la ka a2 in let b := T cb b1 lb kb b2 in
  zrep fr (T zc a z k b) p s → rbt (plug (T zc a z k b) p) RB_BLACK m →
  (length p + height (T zc a z k b) ≤ fuel)%nat →
  erase_res fr fuel z k (before p ++ inorder a ++ inorder b ++ after p) s.
Proof.
  intros a b Hz Hm Hfuel. unfold erase_res, rb_erase.
  pose proof (zr_look _ _ _ _ _ _ _ _ Hz) as Lz. zld Lz. zld Lz. zld Lz.
  change (root_ptr a) with (Some la). change (root_ptr b) with (Some lb). cbv iota.
  assert (height b < height (T zc a z k b))%nat as Hhb by (simpl; lia).
  apply zr_down_r in Hz. set (fz := F SR zc z k a) in Hz.
  destruct (leftmost_spec fr fuel _ _ _ _ _ _ _ Hz)
    as (q & yc & y & yk & yb & Rl & Hzy & _ & Hbq & Hbef & Hlen); [fold b; lia|].
  rewrite bind_assoc, (bind_Some _ _ _ _ _ Rl), bind_assoc.
  pose proof (zr_look _ _ _ _ _ _ _ _ Hzy) as Ly. zld Ly. rewrite bind_assoc. zld Ly.
  destruct (detach_succ_spec _ _ _ _ _ _ _ _ _ _ _ _ Hzy)
    as (s1 & ny & xp & isl & R1 & -> & -> & Hmid).
  rewrite bind_assoc, (bind_Some _ _ _ _ _ R1).
  destruct (take_place_spec _ _ _ _ _ _ _ _ _ _ Hmid) as (s2 & nz & R2 & Hnz & Hz2).
  rewrite bind_assoc, (bind_Some _ _ _ _ _ R2), bind_ret_l. cbn [fst snd].
  assert (plug (T zc a z k b) p = plug (T yc E y yk yb) (q ++ fz :: p)) as Hwhole
    by (rewrite plug_app, Hbq; done).
  rewrite Hwhole in Hm. apply unplug_rbt in Hm as (ct & c' & n' & Hty & Hpy & Hcy).
  apply zr_down_r, (zrep_app _ yb q) in Hz2.
  assert (∃ cv n'', ct = yc ∧ rbt yb cv n'' ∧ (yc = RB_RED → cv = RB_BLACK) ∧
            n' = (if decide (yc = RB_BLACK) then S n'' else n''))
    as (cv & n'' & -> & Hyb & Hcv & Hn').
  { inversion Hty; subst; (eexists _, _; split_and!; [done|eassumption|done|done]). }
  subst n'.
  destruct (erase_finish _ fuel yc yb cv _ c' n''
      (match q with [] => false | f :: _ => bool_decide (fside f = SL) end) s2 Hz2 Hyb Hcv)
    as (s3 & t3 & m3 & R3 & Hr & Ht & Hio); [by eapply pc_rename| |by destruct q|rewrite length_app; fold b in Hlen; cbn [length]; lia|].
  { intros H. apply Hcy. destruct H as [H|H]; [by destruct q|by right]. }
  assert (inorder b = (yk, y) :: inorder yb ++ after q) as Hib
    by (unfold b; rewrite <- Hbq, inorder_plug, Hbef; done).
  assert (inorder t3 = before p ++ inorder a ++ inorder b ++ after p) as Hio'.
  { rewrite Hio, plug_app, Hib. rewrite inorder_plug. cbn [before after fside fcol floc fkey fsib]. rewrite inorder_plug, Hbef.
    cbn [app]. rewrite <- !app_assoc. cbn [app]. by rewrite <- ?app_assoc. }
  exists s3, t3, nz, m3. split_and!; [exact R3|exact Hnz| |exact Ht|exact Hio'].
  eapply zrep_frame_own; [|exact Hr]. intros l Hl.
  assert (y ∈ locs t3) as Hy.
  { rewrite <- inorder_locs, Hio', Hib. rewrite !fmap_app. set_solver. }
  destruct (decide (l = z)) as [->|?]; [by rewrite !lookup_insert_eq|].
  rewrite !(lookup_insert_ne _ z), lookup_insert_ne; [done| |done..].
  intros <-. apply Hl. apply elem_of_app. by left.
Qed.

Lemma rb_wf_keys fr t s l : repr fr t s → l ∈ locs t → ∃ n, nodes s !! l = Some n ∧ (key n, l) ∈ inorder t.
Proof.
  intros Hr Hl. destruct (locs_cursor _ _ Hl) as (c & a & k & b & p & Hp & _).
  rewrite <- Hp in Hr. apply zrep_plug in Hr. eexists. split; [by apply (zr_look _ _ _ _ _ _ _ _ Hr)|].
  rewrite <- Hp, inorder_plug. simpl. rewrite !elem_of_app, elem_of_cons. tauto.
Qed.

Lemma rb_wf_erase fr fuel z t s :
  rb_wf fr t s → z ∈ locs t → (height t < fuel)%nat →
  ∃ s' t' nz, rb_erase fuel (Some z) s = Some (tt, s') ∧
    rb_wf (<[z := nz]> fr) t' s' ∧ inorder t' = remove_loc z (inorder t).
Proof.
  intros (Hr & Hs & m & Hm) Hz Hh.
  assert (NoDup (inorder t).*2) as Hnd.
  { rewrite inorder_locs. pose proof (zr_nodup _ _ _ _ Hr) as H. by rewrite app_nil_r in H. }
  destruct (locs_cursor _ _ Hz) as (c & a & k & b & p & Hp & Hlen). rewrite <- Hp in *. clear Hp.
  apply zrep_plug in Hr.
  assert (erase_res fr fuel z k (before p ++ inorder a ++ inorder b ++ after p) s) as
    (s' & t' & nz & m' & R & _ & Hr' & Ht' & Hio').
  { destruct (unplug_rbt _ _ _ Hm) as (ct & c' & n' & Hty & Hpy & Hcy).
    assert (ct = c) as -> by (by inversion Hty).
    destruct a as [|ca a1 la ka a2];
      [eapply erase_one_child; eauto; lia|].
    destruct b as [|cb b1 lb kb b2];
      [eapply erase_one_child; eauto; lia|].
    eapply erase_two_children; eauto. lia. }
  rewrite inorder_plug in Hnd, Hs |- *. cbn [inorder] in *.
  rewrite <- app_assoc in Hnd, Hs |- *. cbn [app] in *.
  rewrite (app_assoc (before p)) in Hnd, Hs |- *. rewrite remove_loc_split by done.
  rewrite <- app_assoc. exists s', t', nz. split_and!; [done| |done]. split_and!; [done| |by eexists].
  rewrite Hio', app_assoc. by eapply sorted_drop.
Qed.
