(* ===== verification/RBTreeSpec.v ===== *)
(** * kernel/rbtree.c against its contract: an ordered queue.

    [rb_queue ns s] abstracts the memory of a red-black tree to the sequence of
    its (key, node) pairs in order.  Every operation of rbtree.c is proved to
    refine the corresponding operation on sequences, within a number of steps
    logarithmic in the length of the sequence. *)
From S2P Require Import Prelude RBTree RBTreeRep RBTreeInv RBTreeErase.
Local Open Scope Z_scope.
Local Open Scope kernel_scope.

(** The memory holds a red-black tree whose in-order sequence is [ns]. *)
Definition rb_queue (ns : list (Z * loc)) (s : rb_mem) : Prop :=
  ∃ t, rb_wf (nodes s) t s ∧ inorder t = ns.

(** The number of steps that every walk of the tree stays below. *)
Definition rb_fuel (ns : list (Z * loc)) : nat := S (2 * Nat.log2 (S (length ns))).

(** ** Balance *)
Lemma rbt_height t c n :
  rbt t c n → (height t ≤ 2 * n + if decide (c = RB_RED) then 1 else 0)%nat ∧
              (2 ^ n ≤ S (length (inorder t)))%nat.
Proof.
  induction 1 as [|a l k b n Ha [IHa Sa] Hb [IHb Sb]|a l k b ca cb n Ha [IHa Sa] Hb [IHb Sb]];
    cbn [height inorder length]; rewrite ?length_app; cbn [length].
  - simpl. lia.
  - rewrite decide_True by done. rewrite decide_False in IHa, IHb by done. split; lia.
  - rewrite decide_False by done. rewrite Nat.pow_succ_r'.
    split; [|lia]. destruct (decide (ca = RB_RED)), (decide (cb = RB_RED)); lia.
Qed.

Lemma rb_wf_height fr t s : rb_wf fr t s → (height t < rb_fuel (inorder t))%nat.
Proof.
  intros (_ & _ & n & Hn). apply rbt_height in Hn as [Hh Hs].
  rewrite decide_False in Hh by done. unfold rb_fuel.
  apply Nat.log2_le_pow2 in Hs; lia.
Qed.

(** ** Frames *)
Lemma rb_wf_self fr t s : rb_wf fr t s → rb_wf (nodes s) t s.
Proof.
  intros (Hr & Hrest). split; [|done]. eapply zrep_frame_own; [|exact Hr].
  intros l Hl. apply (zr_frame _ _ _ _ Hr l Hl).
Qed.

Lemma rb_wf_outside fr t s l :
  rb_wf fr t s → l ∉ (inorder t).*2 → nodes s !! l = fr !! l.
Proof.
  intros (Hr & _) Hl. apply (zr_frame _ _ _ _ Hr). rewrite app_nil_r.
  by rewrite <- inorder_locs.
Qed.

Lemma rb_queue_intro fr t s : rb_wf fr t s → rb_queue (inorder t) s.
Proof. intros H. exists t. split; [by eapply rb_wf_self|done]. Qed.

Lemma rb_queue_sorted ns s : rb_queue ns s → sorted ns.
Proof. intros (t & (_ & Hs & _) & <-). done. Qed.

Lemma rb_queue_NoDup ns s : rb_queue ns s → NoDup ns.*2.
Proof.
  intros (t & (Hr & _) & <-). rewrite inorder_locs.
  pose proof (zr_nodup _ _ _ _ Hr) as H. by rewrite app_nil_r in H.
Qed.

Lemma rb_queue_key ns s k l : rb_queue ns s → (k, l) ∈ ns → ∃ n, nodes s !! l = Some n ∧ key n = k.
Proof.
  intros HQ Hin. pose proof (rb_queue_NoDup _ _ HQ) as Hnd. destruct HQ as (t & (Hr & _) & <-).
  assert (l ∈ locs t) as Hl by (rewrite <- inorder_locs; by apply (list_elem_of_fmap_2 snd) in Hin).
  destruct (rb_wf_keys _ _ _ _ Hr Hl) as (n & Hn & Hk). exists n. split; [done|].
  apply list_elem_of_split in Hin as (l1 & l2 & E). rewrite E in Hnd, Hk.
  rewrite fmap_app, fmap_cons, NoDup_app_cons in Hnd. destruct Hnd as (H1 & H2 & _).
  apply elem_of_app in Hk as [Hk|[Hk|Hk]%elem_of_cons].
  - destruct H1. by apply (list_elem_of_fmap_2 snd) in Hk.
  - congruence.
  - destruct H2. by apply (list_elem_of_fmap_2 snd) in Hk.
Qed.

(** ** Walks *)
Lemma head_leftmost q (yc : color) y yk yb c a l k b :
  plug (T yc E y yk yb) q = T c a l k b → before q = [] →
  head (inorder (T c a l k b)) = Some (yk, y).
Proof. intros <- H. by rewrite inorder_plug, H. Qed.

Lemma leftmost_head fr fuel c a l k b p s :
  zrep fr (T c a l k b) p s → (height (T c a l k b) ≤ fuel)%nat →
  ∃ y yk, leftmost fuel l s = Some (y, s) ∧ head (inorder (T c a l k b)) = Some (yk, y).
Proof.
  intros Hz Hh. destruct (leftmost_spec _ _ _ _ _ _ _ _ _ Hz Hh)
    as (q & yc & y & yk & yb & R & _ & _ & Hpl & Hbef & _).
  exists y, yk. split; [done|]. by eapply head_leftmost.
Qed.

Lemma rb_find_loop_spec fr fuel k t p s :
  zrep fr t p s → sorted (inorder t) → (height t < fuel)%nat →
  ∃ o, rb_find_loop fuel k (root_ptr t) s = Some (o, s) ∧
       match o with Some l => (k, l) ∈ inorder t | None => k ∉ (inorder t).*1 end.
Proof.
  revert t p. induction fuel as [|fuel IH]; intros t p Hz Hs Hh; [lia|].
  cbn [rb_find_loop]. destruct t as [|c a l nk b]; cbn [root_ptr].
  - exists NULL. split; [done|]. apply not_elem_of_nil.
  - cbn [inorder height] in *. apply sorted_app in Hs as (Ha & Hb' & Hab).
    apply sorted_cons in Hb' as [Hlb Hb].
    pose proof (zr_look _ _ _ _ _ _ _ _ Hz) as L. zld L.
    assert (∀ x, (k : Z) ∈ x.*1 → ∃ l', (k, l') ∈ (x : list (Z * loc))) as Hex.
    { intros x ([k' l'] & -> & Hx)%list_elem_of_fmap. by exists l'. }
    case_decide as Hlt; [|case_decide as Hgt].
    + zld L. apply zr_down_l in Hz.
      destruct (IH _ _ Hz Ha) as (o & R & Ho); [lia|]. exists o. split; [done|].
      destruct o; [apply elem_of_app; by left|]. rewrite fmap_app. cbn.
      rewrite not_elem_of_app, not_elem_of_cons. split_and!; [done|lia|].
      intros [l' Hin]%Hex. apply Hlb in Hin. simpl in Hin. lia.
    + zld L. apply zr_down_r in Hz.
      destruct (IH _ _ Hz Hb) as (o & R & Ho); [lia|]. exists o. split; [done|].
      destruct o; [apply elem_of_app; right; by right|]. rewrite fmap_app. cbn.
      rewrite not_elem_of_app, not_elem_of_cons. split_and!; [|lia|done].
      intros [l' Hin]%Hex. specialize (Hab _ (nk, l) Hin). simpl in Hab.
      assert (k ≤ nk) by (apply Hab; left). lia.
    + exists (Some l). split; [done|]. apply elem_of_app. right.
      replace nk with k by lia. left.
Qed.

(** Climbing stops at the first frame entered from the left, the next node of
    the sequence. *)
Lemma rb_next_up_spec fr fuel c a l k b p s :
  zrep fr (T c a l k b) p s → (length p < fuel)%nat →
  rb_next_up fuel l (path_parent p) s = Some (snd <$> head (after p), s).
Proof.
  revert c a l k b p. induction fuel as [|fuel IH]; intros c a l k b p Hz Hf; [lia|].
  cbn [rb_next_up]. destruct p as [|[d cf lf kf sib] p]; [done|]. cbn [path_parent floc].
  pose proof (zr_look_up _ _ _ _ _ Hz) as Lf. cbn [floc] in Lf. zld Lf.
  pose proof (zr_sib_ne _ _ _ _ _ _ _ _ _ Hz) as Hne.
  destruct d; cbn [frame_node fside fsib right] in *; unfold frame_node; cbn [fside fsib right].
  - rewrite decide_False by done. done.
  - rewrite decide_True by done. zld Lf. cbn [frame_node fside parent]. 
    apply zr_up in Hz. cbn in Hz. simpl in Hf. rewrite (IH _ _ _ _ _ _ Hz) by lia. done.
Qed.

Lemma next_of_split (l1 l2 m1 m2 : list (Z * loc)) (k1 k : Z) (x : loc) :
  NoDup (l1 ++ (k1, x) :: l2).*2 → l1 ++ (k1, x) :: l2 = m1 ++ (k, x) :: m2 → m2 = l2.
Proof.
  revert m1. induction l1 as [|[k' y] l1 IH]; intros [|[k'' y'] m1]; cbn; intros Hnd [=]; subst; [done|..].
  - apply NoDup_cons in Hnd as [Hx _]. destruct Hx. rewrite fmap_app. cbn. set_solver.
  - apply NoDup_cons in Hnd as [Hx _]. destruct Hx. rewrite fmap_app. cbn. set_solver.
  - apply NoDup_cons in Hnd as [_ Hnd]. by eapply IH.
Qed.

Section queue.
Context (fuel : nat) (ns : list (Z * loc)) (s : rb_mem).
Hypothesis HQ : rb_queue ns s.
Hypothesis Hfuel : (rb_fuel ns ≤ fuel)%nat.

Lemma queue_tree : ∃ t, rb_wf (nodes s) t s ∧ inorder t = ns ∧ (height t < fuel)%nat.
Proof.
  destruct HQ as (t & Hwf & Hio). exists t. split_and!; [done..|].
  apply rb_wf_height in Hwf. rewrite Hio in Hwf. lia.
Qed.

Lemma queue_insert l n0 :
  l ∉ ns.*2 → nodes s !! l = Some n0 →
  ∃ s', rb_insert fuel (Some l) s = Some (tt, s') ∧ rb_queue (insort (key n0, l) ns) s' ∧
        ∀ x, x ∉ l :: ns.*2 → nodes s' !! x = nodes s !! x.
Proof.
  intros Hl Hn. destruct queue_tree as (t & Hwf & Hio & Hh).
  destruct (rb_insert_ok _ fuel l n0 _ _ Hwf)
    as (s' & t' & R & Hwf' & Hio'); [by rewrite <- inorder_locs, Hio|done..|].
  rewrite <- Hio, <- Hio'. exists s'. split_and!; [done|by eapply rb_queue_intro|].
  intros x Hx. apply (rb_wf_outside _ _ _ _ Hwf'). rewrite Hio', insort_perm. done.
Qed.

Lemma queue_erase z :
  z ∈ ns.*2 →
  ∃ s', rb_erase fuel (Some z) s = Some (tt, s') ∧ rb_queue (remove_loc z ns) s' ∧
        (∀ x, x ∉ ns.*2 → nodes s' !! x = nodes s !! x) ∧ is_Some (nodes s' !! z).
Proof.
  intros Hz. destruct queue_tree as (t & Hwf & Hio & Hh).
  destruct (rb_wf_erase _ fuel z _ _ Hwf) as (s' & t' & nz & R & Hwf' & Hio');
    [by rewrite <- inorder_locs, Hio|done|].
  assert (∀ x, x ∉ (inorder t').*2 → nodes s' !! x = <[z:=nz]> (nodes s) !! x) as Hout
    by (intros x; by apply rb_wf_outside).
  assert (z ∉ (inorder t').*2) as Hz'.
  { rewrite Hio'. intros ([k x] & -> & [Hne _]%list_elem_of_filter)%list_elem_of_fmap. by apply Hne. }
  rewrite <- Hio, <- Hio'. exists s'. split_and!; [done|by eapply rb_queue_intro| |].
  - intros x Hx. rewrite Hout.
    + apply lookup_insert_ne. intros <-. apply Hx. by rewrite Hio.
    + rewrite Hio'. intros ([k y] & -> & [_ Hin]%list_elem_of_filter)%list_elem_of_fmap.
      apply Hx. by apply (list_elem_of_fmap_2 snd) in Hin.
  - rewrite Hout, lookup_insert_eq by done. done.
Qed.

Lemma queue_find_min : rb_find_min fuel s = Some (snd <$> head ns, s).
Proof.
  destruct queue_tree as (t & (Hr & _) & <- & Hh). unfold rb_find_min.
  unfold ld_root, bind. pose proof (zr_path _ _ _ _ Hr) as Hp. simpl in Hp. rewrite Hp.
  destruct t as [|c a l k b]; [done|]. cbn [root_ptr].
  destruct (leftmost_head _ fuel _ _ _ _ _ _ _ Hr) as (y & yk & R & Hhd); [lia|].
  by rewrite R, Hhd.
Qed.

Lemma queue_find k :
  ∃ o, rb_find fuel k s = Some (o, s) ∧
       match o with Some l => (k, l) ∈ ns | None => k ∉ ns.*1 end.
Proof.
  destruct queue_tree as (t & (Hr & Hs & _) & <- & Hh). unfold rb_find, ld_root, bind.
  pose proof (zr_path _ _ _ _ Hr) as Hp. simpl in Hp. rewrite Hp.
  by eapply rb_find_loop_spec.
Qed.

Lemma queue_next l1 k x l2 :
  ns = l1 ++ (k, x) :: l2 → rb_next fuel (Some x) s = Some (snd <$> head l2, s).
Proof.
  intros Hns. pose proof (rb_queue_NoDup _ _ HQ) as Hnd.
  destruct queue_tree as (t & (Hr & _) & Hio & Hh).
  assert (x ∈ locs t) as Hx.
  { rewrite <- inorder_locs, Hio, Hns, fmap_app. set_solver. }
  destruct (locs_cursor _ _ Hx) as (c & a & k' & b & p & Hp & Hlen). subst t.
  apply zrep_plug in Hr. rewrite inorder_plug in Hio. cbn [inorder] in Hio.
  assert (inorder b ++ after p = l2) as <-.
  { rewrite Hns in Hnd. rewrite <- !app_assoc in Hio. cbn [app] in Hio. rewrite app_assoc in Hio.
    rewrite Hns in Hio. symmetry in Hio. by apply next_of_split in Hio. }
  cbn [rb_next]. pose proof (zr_look _ _ _ _ _ _ _ _ Hr) as L. zld L.
  destruct b as [|cb b1 lb kb b2]; cbn [root_ptr].
  - zld L. rewrite (rb_next_up_spec _ _ _ _ _ _ _ _ _ Hr); [done|simpl in Hlen; lia].
  - apply zr_down_r in Hr.
    destruct (leftmost_head _ fuel _ _ _ _ _ _ _ Hr) as (y & yk & R & Hhd); [simpl in *; lia|].
    rewrite (bind_Some _ _ _ _ _ R). destruct (inorder (T cb b1 lb kb b2)); [done|].
    cbn in *. by injection Hhd as ->.
Qed.
End queue.

(** ** A concrete queue *)
Module Demo.
Definition nd c p l r k := mk_node c p l r k.
Definition mem : rb_mem := mk_mem (Some 1%positive)
  (list_to_map [(1%positive, nd RB_BLACK NULL (Some 2%positive) (Some 3%positive) 50);
                (2%positive, nd RB_RED (Some 1%positive) NULL NULL 20);
                (3%positive, nd RB_RED (Some 1%positive) NULL NULL 70);
                (4%positive, nd RB_RED NULL NULL NULL 60)]).
Definition ns : list (Z * loc) := [(20, 2%positive); (50, 1%positive); (70, 3%positive)].
Definition t : tree := T RB_BLACK (T RB_RED E 2%positive 20 E) 1%positive 50 (T RB_RED E 3%positive 70 E).
Lemma queue : rb_queue ns mem.
Proof.
  exists t. split; [|done]. split; [|split].
  - constructor; [by vm_compute|done| |done].
    decided.
  - repeat constructor; simpl; lia.
  - exists 1%nat. repeat econstructor.
Qed.
Lemma empty : rb_queue [] (mk_mem NULL (nodes mem)).
Proof.
  exists E. split; [|done]. split; [|split]; [|constructor|exists 0%nat; constructor].
  constructor; [done|done|constructor|done].
Qed.
End Demo.

(** ** The contract *)

(** C1: [rb_insert] of an unlinked node into a red-black tree returns, keeps
    every red-black invariant, and puts the node in the in-order sequence after
    the nodes of smaller or equal key; it writes no other node.  The number of
    loop turns is bounded by twice the logarithm of the size. *)
Theorem rb_insert_refines fuel ns s l n0 :
  rb_queue ns s → (rb_fuel ns ≤ fuel)%nat → l ∉ ns.*2 → nodes s !! l = Some n0 →
  ∃ s', rb_insert fuel (Some l) s = Some (tt, s') ∧ rb_queue (insort (key n0, l) ns) s' ∧
        ∀ x, x ∉ l :: ns.*2 → nodes s' !! x = nodes s !! x.
Proof. intros HQ Hf. by apply queue_insert. Qed.

Lemma rb_insert_refines_witness :
  ∃ s', rb_insert 6 (Some 4%positive) Demo.mem = Some (tt, s') ∧
        rb_queue (insort (60, 4%positive) Demo.ns) s'.
Proof.
  destruct (rb_insert_refines 6 Demo.ns Demo.mem 4%positive (Demo.nd RB_RED NULL NULL NULL 60))
    as (s' & R & Q & _); [apply Demo.queue|decided|decided|done|by exists s'].
Defined.

(** C2: [rb_erase] of any node of a red-black tree returns, keeps every
    red-black invariant, removes exactly that node from the in-order sequence,
    and writes no node outside the tree. *)
Theorem rb_erase_refines fuel ns s z :
  rb_queue ns s → (rb_fuel ns ≤ fuel)%nat → z ∈ ns.*2 →
  ∃ s', rb_erase fuel (Some z) s = Some (tt, s') ∧ rb_queue (remove_loc z ns) s' ∧
        (∀ x, x ∉ ns.*2 → nodes s' !! x = nodes s !! x) ∧ is_Some (nodes s' !! z).
Proof. intros HQ Hf. by apply queue_erase. Qed.

Lemma rb_erase_refines_witness :
  ∃ s', rb_erase 6 (Some 1%positive) Demo.mem = Some (tt, s') ∧
        rb_queue [(20, 2%positive); (70, 3%positive)] s'.
Proof.
  destruct (rb_erase_refines 6 Demo.ns Demo.mem 1%positive) as (s' & R & Q & _);
    [apply Demo.queue|decided|decided|by exists s'].
Defined.

(** [rb_find_min] (and so [rb_first]) returns the first node of the
    in-order sequence, and null exactly when the tree is empty. *)
Theorem rb_find_min_refines fuel ns s :
  rb_queue ns s → (rb_fuel ns ≤ fuel)%nat →
  rb_find_min fuel s = Some (snd <$> head ns, s) ∧ rb_first fuel s = Some (snd <$> head ns, s).
Proof. intros HQ Hf. split; by apply queue_find_min. Qed.

Lemma rb_find_min_refines_witness : rb_find_min 6 Demo.mem = Some (Some 2%positive, Demo.mem).
Proof. apply (rb_find_min_refines 6 Demo.ns); [apply Demo.queue|decided]. Defined.

(** [rb_find] returns a node that holds the key when there is one, and null
    exactly when no node of the tree holds it. *)
Theorem rb_find_refines fuel ns s k :
  rb_queue ns s → (rb_fuel ns ≤ fuel)%nat →
  ∃ o, rb_find fuel k s = Some (o, s) ∧
       match o with Some l => (k, l) ∈ ns | None => k ∉ ns.*1 end.
Proof. intros HQ Hf. by apply queue_find. Qed.

Lemma rb_find_refines_witness :
  ∃ o, rb_find 6 70 Demo.mem = Some (o, Demo.mem) ∧
       match o with Some l => (70, l) ∈ Demo.ns | None => 70 ∉ Demo.ns.*1 end.
Proof. apply (rb_find_refines 6 Demo.ns); [apply Demo.queue|decided]. Defined.

(** [rb_next] is the in-order successor: from the node at any position of
    the sequence it returns the node at the following position, and null from
    the last one. *)
Theorem rb_next_refines fuel l1 k x l2 s :
  rb_queue (l1 ++ (k, x) :: l2) s → (rb_fuel (l1 ++ (k, x) :: l2) ≤ fuel)%nat →
  rb_next fuel (Some x) s = Some (snd <$> head l2, s).
Proof. intros HQ Hf. by eapply queue_next. Qed.

Lemma rb_next_refines_witness : rb_next 6 (Some 1%positive) Demo.mem = Some (Some 3%positive, Demo.mem).
Proof.
  apply (rb_next_refines 6 [(20, 2%positive)] 50 1%positive [(70, 3%positive)]);
    [apply Demo.queue|decided].
Defined.
