(* ===== verification/Buddy.v ===== *)
(** * kernel/mem.c: the buddy allocator of physical pages.

    The page descriptor array, the intrusive free lists threaded through it and
    every operation on them, at the level of the array's cells. *)
From S2P Require Import Prelude.
Local Open Scope Z_scope.
Local Open Scope kernel_scope.

(** ** Constants of mem.h and mem.c *)
Definition PAGE_SIZE : Z := 4096.
Definition MAX_ORDER : Z := 10.
Definition BUDDY_MAX_PAGES : Z := 256 * 1024 * 1024 / 4096.
Definition PAGE_FLAG_FREE : Z := 1.
Definition PAGE_FLAG_RESERVED : Z := 2.
Definition PAGE_FLAG_KERNEL : Z := 4.
Definition PAGE_FLAG_SLAB : Z := 8.
Definition KERNEL_PHYS_MAX : Z := 0x40000000.
Definition phys_mem_base : Z := 0x100000.

(** ** State *)

(** [struct page]; pointers to descriptors are indices of [page_array]. *)
Record page := mk_page {
  flags : Z;
  order : Z;
  ref_count : Z;
  phys_addr : Z;
  buddy : option Z;
  next : option Z;
  slab_cache : option Z
}.
Definition page0 : page := mk_page 0 0 0 0 None None None.

(** The file's static variables and the RAM that the pages describe.  Cells of
    [page_array] and words of RAM that are absent hold zero; an order absent
    from [free_area] has an empty list. *)
Record mm := mk_mm {
  page_array : gmap Z page;
  free_area : gmap Z Z;
  total_phys_pages : Z;
  phys_mem_end : Z;
  stat_total_pages : Z;
  stat_used_pages : Z;
  ram : gmap Z Z
}.

Definition MM := ST mm.

Definition pg (s : mm) (i : Z) : page := default page0 (page_array s !! i).

(** [page_array[i].field]: an index outside the array has no outcome. *)
Definition in_array (i : Z) : bool := bool_decide (0 ≤ i < BUDDY_MAX_PAGES).
Definition ldp {A} (f : page → A) (i : Z) : MM A :=
  λ s, if in_array i then Some (f (pg s i), s) else None.
Definition set_pages (h : gmap Z page) (s : mm) : mm :=
  mk_mm h (free_area s) (total_phys_pages s) (phys_mem_end s) (stat_total_pages s)
        (stat_used_pages s) (ram s).
Definition stp (i : Z) (g : page → page) : MM unit :=
  λ s, if in_array i then Some (tt, set_pages (<[i := g (pg s i)]> (page_array s)) s) else None.

Definition set_flags (v : Z) (p : page) :=
  mk_page v (order p) (ref_count p) (phys_addr p) (buddy p) (next p) (slab_cache p).
Definition set_order (v : Z) (p : page) :=
  mk_page (flags p) v (ref_count p) (phys_addr p) (buddy p) (next p) (slab_cache p).
Definition set_ref (v : Z) (p : page) :=
  mk_page (flags p) (order p) v (phys_addr p) (buddy p) (next p) (slab_cache p).
Definition set_phys (v : Z) (p : page) :=
  mk_page (flags p) (order p) (ref_count p) v (buddy p) (next p) (slab_cache p).
Definition set_next (v : option Z) (p : page) :=
  mk_page (flags p) (order p) (ref_count p) (phys_addr p) (buddy p) v (slab_cache p).
Definition set_cache (v : option Z) (p : page) :=
  mk_page (flags p) (order p) (ref_count p) (phys_addr p) (buddy p) (next p) v.

Definition has (fl bit : Z) : bool := negb (Z.land fl bit =? 0).

(** [free_area[o]] as an lvalue. *)
Definition ok_order (o : Z) : bool := bool_decide (0 ≤ o ≤ MAX_ORDER).
Definition ld_head (o : Z) : MM (option Z) :=
  λ s, if ok_order o then Some (free_area s !! o, s) else None.
Definition st_head (o : Z) (v : option Z) : MM unit :=
  λ s, if ok_order o
       then Some (tt, mk_mm (page_array s)
              (match v with Some p => <[o := p]> (free_area s) | None => delete o (free_area s) end)
              (total_phys_pages s) (phys_mem_end s) (stat_total_pages s) (stat_used_pages s) (ram s))
       else None.
Definition set_used (v : Z) (s : mm) : mm :=
  mk_mm (page_array s) (free_area s) (total_phys_pages s) (phys_mem_end s)
        (stat_total_pages s) v (ram s).
Definition set_total (v : Z) (s : mm) : mm :=
  mk_mm (page_array s) (free_area s) (total_phys_pages s) (phys_mem_end s)
        v (stat_used_pages s) (ram s).
Definition set_ram (v : gmap Z Z) (s : mm) : mm :=
  mk_mm (page_array s) (free_area s) (total_phys_pages s) (phys_mem_end s)
        (stat_total_pages s) (stat_used_pages s) v.

(** [memset(va, 0, n)]. *)
Definition zero_ram (va n : Z) : MM unit :=
  modify (λ s, set_ram (filter (λ kv, ¬ (va ≤ kv.1 < va + n)) (ram s)) s).

(** A free list visits each descriptor at most once; a coalescing pass visits
    each list at most once. *)
Definition list_fuel : nat := Z.to_nat (BUDDY_MAX_PAGES + 1).
Definition pass_fuel : nat := Z.to_nat (12 * (BUDDY_MAX_PAGES + 1)).

Lemma list_fuel_eq : list_fuel = Z.to_nat (BUDDY_MAX_PAGES + 1).
Proof. done. Qed.
Lemma pass_fuel_eq : pass_fuel = Z.to_nat (12 * (BUDDY_MAX_PAGES + 1)).
Proof. done. Qed.
#[global] Opaque list_fuel pass_fuel.

(** ** Page descriptor helpers *)
Definition phys_to_pfn (pa : Z) : Z :=
  if pa <? phys_mem_base then 2 ^ 64 - 1 else (pa - phys_mem_base) / PAGE_SIZE.
Definition pfn_to_phys (pfn : Z) : Z := phys_mem_base + pfn * PAGE_SIZE.

Definition get_buddy (p order : Z) : option Z :=
  let buddy_pfn := Z.lxor p (Z.shiftl 1 order) in
  if BUDDY_MAX_PAGES <=? buddy_pfn then None else Some buddy_pfn.

(** ** Free list operations *)
Definition list_add (o p : Z) : MM unit :=
  h <- ld_head o ;;
  stp p (set_next h) ;;;
  st_head o (Some p).

(** [while (prev && prev->next != p) prev = prev->next]. *)
Fixpoint list_prev (fuel : nat) (prev : option Z) (p : Z) : MM (option Z) :=
  match fuel with
  | O => fail
  | S fuel =>
      match prev with
      | None => ret None
      | Some q =>
          n <- ldp next q ;;
          if decide (n = Some p) then ret (Some q) else list_prev fuel n p
      end
  end.

Definition list_del (o p : Z) : MM unit :=
  h <- ld_head o ;;
  if decide (h = Some p) then
    n <- ldp next p ;;
    st_head o n ;;;
    stp p (set_next None)
  else
    prev <- list_prev list_fuel h p ;;
    match prev with
    | None => ret tt
    | Some q =>
        n <- ldp next p ;;
        stp q (set_next n) ;;;
        stp p (set_next None)
    end.

(** ** Buddy allocator core *)
Definition buddy_mark_reserved (start_pfn end_pfn : Z) : MM unit :=
  if BUDDY_MAX_PAGES <=? start_pfn then ret tt else
  let end_pfn := Z.min end_pfn BUDDY_MAX_PAGES in
  for_range (Z.to_nat (end_pfn - start_pfn)) start_pfn (λ pfn,
    stp pfn (λ p, set_flags (Z.lor (flags p) PAGE_FLAG_RESERVED) p)).

Definition buddy_mark_available (start_pfn end_pfn : Z) : MM unit :=
  if BUDDY_MAX_PAGES <=? start_pfn then ret tt else
  let end_pfn := Z.min end_pfn BUDDY_MAX_PAGES in
  for_range (Z.to_nat (end_pfn - start_pfn)) start_pfn (λ pfn,
    fl <- ldp flags pfn ;;
    if has fl PAGE_FLAG_RESERVED then ret tt else
    stp pfn (λ _, mk_page PAGE_FLAG_FREE 0 0 (pfn_to_phys pfn) None None None) ;;;
    list_add 0 pfn ;;;
    modify (λ s, set_total (u64 (stat_total_pages s + 1)) s)).

(** The descriptor of a new free block: [flags = FREE], then [order], then
    [phys_addr]. *)
Definition fresh_free (pfn o : Z) (d : page) : page :=
  set_phys (pfn_to_phys pfn) (set_order o (set_flags PAGE_FLAG_FREE d)).

Definition buddy_split (o : Z) : MM (option Z) :=
  if (o =? 0) || (MAX_ORDER <? o) then ret None else
  h <- ld_head o ;;
  match h with
  | None => ret None
  | Some p =>
      list_del o p ;;;
      let new_order := o - 1 in
      let buddy_pfn := p + Z.shiftl 1 new_order in
      stp p (fresh_free p new_order) ;;;
      stp buddy_pfn (fresh_free buddy_pfn new_order) ;;;
      list_add new_order p ;;;
      list_add new_order buddy_pfn ;;;
      ret (Some p)
  end.

(** Each recursive call raises the order, so eleven levels suffice. *)
Fixpoint buddy_merge_rec (fuel : nat) (p : Z) : MM Z :=
  match fuel with
  | O => fail
  | S fuel =>
      o <- ldp order p ;;
      if MAX_ORDER <=? o then ret p else
      match get_buddy p o with
      | None => ret p
      | Some b =>
          bf <- ldp flags b ;;
          if negb (has bf PAGE_FLAG_FREE) then ret p else
          bo <- ldp order b ;;
          if negb (bo =? o) then ret p else
          list_del o p ;;;
          list_del o b ;;;
          let base_pfn := if p <? b then p else b in
          stp base_pfn (fresh_free base_pfn (o + 1)) ;;;
          list_add (o + 1) base_pfn ;;;
          buddy_merge_rec fuel base_pfn
      end
  end.
Definition buddy_merge : Z → MM Z := buddy_merge_rec 11.

(** The inner [while (p)] of [buddy_coalesce_all]: whether a merge happened. *)
Fixpoint coalesce_pass (fuel : nat) (p : option Z) : MM bool :=
  match fuel with
  | O => fail
  | S fuel =>
      match p with
      | None => ret false
      | Some p =>
          fl <- ldp flags p ;;
          if negb (has fl PAGE_FLAG_FREE) then n <- ldp next p ;; coalesce_pass fuel n else
          result <- buddy_merge p ;;
          if decide (result ≠ p) then ret true else
          n <- ldp next p ;; coalesce_pass fuel n
      end
  end.
(** The [do ... while (merged)] loop. *)
Fixpoint coalesce_order (fuel : nat) (o : Z) : MM unit :=
  match fuel with
  | O => fail
  | S fuel =>
      h <- ld_head o ;;
      merged <- coalesce_pass pass_fuel h ;;
      if (merged : bool) then coalesce_order fuel o else ret tt
  end.
Definition buddy_coalesce_all : MM unit :=
  for_range (Z.to_nat MAX_ORDER) 0 (coalesce_order list_fuel).

(** ** Public operations *)

(** [while (current_order <= MAX_ORDER && !free_area[current_order]) current_order++]. *)
Fixpoint find_order (fuel : nat) (current_order : Z) : MM Z :=
  match fuel with
  | O => fail
  | S fuel =>
      if MAX_ORDER <? current_order then ret current_order else
      h <- ld_head current_order ;;
      match h with
      | None => find_order fuel (current_order + 1)
      | Some _ => ret current_order
      end
  end.

(** [while (current_order > order) { buddy_split(current_order); current_order--; }]. *)
Fixpoint split_down (fuel : nat) (current_order o : Z) : MM unit :=
  match fuel with
  | O => fail
  | S fuel =>
      if o <? current_order then
        _ <- buddy_split current_order ;;
        split_down fuel (current_order - 1) o
      else ret tt
  end.

Definition sub_used (n : Z) : MM unit :=
  modify (λ s, set_used (if n <=? stat_used_pages s then stat_used_pages s - n else 0) s).

(** The result is a physical address, [None] for [NULL]. *)
Definition alloc_pages (o : Z) : MM (option Z) :=
  if MAX_ORDER <? o then ret None else
  current_order <- find_order 12 o ;;
  if MAX_ORDER <? current_order then ret None else
  split_down 12 current_order o ;;;
  h <- ld_head o ;;
  match h with
  | None => ret None
  | Some p =>
      list_del o p ;;;
      stp p (λ d, set_flags (Z.ldiff (flags d) PAGE_FLAG_FREE) d) ;;;
      stp p (set_order o) ;;;
      stp p (set_ref 1) ;;;
      modify (λ s, set_used (u64 (stat_used_pages s + Z.shiftl 1 o)) s) ;;;
      pa <- ldp phys_addr p ;;
      if KERNEL_PHYS_MAX <=? pa then
        stp p (λ d, set_flags (Z.lor (flags d) PAGE_FLAG_FREE) d) ;;;
        stp p (set_order o) ;;;
        stp p (set_ref 0) ;;;
        list_add o p ;;;
        sub_used (Z.shiftl 1 o) ;;;
        ret None
      else
        zero_ram pa (Z.shiftl PAGE_SIZE o) ;;;
        ret (Some pa)
  end.

Definition free_pages (ptr o : Z) : MM unit :=
  if ptr =? 0 then ret tt else
  if MAX_ORDER <? o then ret tt else
  if ptr <? phys_mem_base then ret tt else
  let pfn := phys_to_pfn ptr in
  total <- gets total_phys_pages ;;
  if (pfn =? 2 ^ 64 - 1) || (total <=? pfn) then ret tt else
  fl <- ldp flags pfn ;;
  if has fl PAGE_FLAG_RESERVED then ret tt else
  if has fl PAGE_FLAG_FREE then ret tt else
  stp pfn (λ d, set_flags (Z.lor (flags d) PAGE_FLAG_FREE) d) ;;;
  stp pfn (set_order o) ;;;
  stp pfn (set_ref 0) ;;;
  list_add o pfn ;;;
  sub_used (Z.shiftl 1 o) ;;;
  _ <- buddy_merge pfn ;;
  ret tt.

Definition alloc_page : MM (option Z) := alloc_pages 0.
Definition free_page (ptr : Z) : MM unit := free_pages ptr 0.

Definition get_page_struct (pa : Z) : MM (option Z) :=
  total <- gets total_phys_pages ;;
  let pfn := phys_to_pfn pa in
  ret (if (pfn =? 2 ^ 64 - 1) || (total <=? pfn) then None else Some pfn).

(** [(total, free, used)] in bytes. *)
Definition mem_get_stats : MM (Z * Z * Z) :=
  gets (λ s, let total := u64 (stat_total_pages s * PAGE_SIZE) in
             let used := u64 (stat_used_pages s * PAGE_SIZE) in
             (total, u64 (total - used), used)).
