(* ===== verification/BuddyLists.v ===== *)
(** * kernel/mem.c: the intrusive free lists.

    [view fl s]: for every order the list threaded through [next] from
    [free_area[o]] is the sequence [fl o].  [list_add] and [list_del] are a cons
    and a removal on these sequences. *)
From S2P Require Import Prelude Buddy.
Local Open Scope Z_scope.
Local Open Scope kernel_scope.

Fixpoint is_list (nx : Z → option Z) (h : option Z) (l : list Z) : Prop :=
  match l with
  | [] => h = None
  | x :: l => h = Some x ∧ is_list nx (nx x) l
  end.

Lemma is_list_ext nx nx' h l :
  (∀ x, x ∈ l → nx' x = nx x) → is_list nx h l → is_list nx' h l.
Proof.
  revert h. induction l as [|x l IH]; intros h Hx; simpl; [done|].
  intros [-> Hl]. split; [done|]. rewrite Hx by left. apply IH; [|done].
  intros y Hy. apply Hx. by right.
Qed.

Definition lupd (fl : Z → list Z) (o : Z) (l : list Z) : Z → list Z :=
  λ o', if decide (o' = o) then l else fl o'.
Lemma lupd_eq fl o l : lupd fl o l o = l.
Proof. unfold lupd. by rewrite decide_True. Qed.
Lemma lupd_ne fl o l o' : o' ≠ o → lupd fl o l o' = fl o'.
Proof. unfold lupd. intros. by rewrite decide_False. Qed.

Definition nx (s : mm) (i : Z) : option Z := next (pg s i).

Record view (fl : Z → list Z) (s : mm) : Prop := mk_view {
  vw_list : ∀ o, 0 ≤ o ≤ MAX_ORDER → is_list (nx s) (free_area s !! o) (fl o);
  vw_nodup : ∀ o, NoDup (fl o);
  vw_disj : ∀ o o' p, p ∈ fl o → p ∈ fl o' → o = o';
  vw_dom : ∀ o p, p ∈ fl o → 0 ≤ o ≤ MAX_ORDER ∧ 0 ≤ p < BUDDY_MAX_PAGES
}.

(** Everything but the list structure. *)
Definition strip (p : page) : page := set_next None p.
Definition meta (s : mm) := (total_phys_pages s, phys_mem_end s, stat_total_pages s, stat_used_pages s, ram s).
Definition touch (s s' : mm) : Prop := (∀ i, strip (pg s' i) = strip (pg s i)) ∧ meta s' = meta s.

Lemma touch_refl s : touch s s.
Proof. done. Qed.
Lemma touch_trans s1 s2 s3 : touch s1 s2 → touch s2 s3 → touch s1 s3.
Proof. intros [H1 H2] [H3 H4]. split; [intros i; by rewrite H3|congruence]. Qed.

(** ** Cells *)
Lemma in_array_true i : 0 ≤ i < BUDDY_MAX_PAGES → in_array i = true.
Proof. apply bool_decide_eq_true_2. Qed.
Lemma ldp_ok {A} (f : page → A) i s : 0 ≤ i < BUDDY_MAX_PAGES → ldp f i s = Some (f (pg s i), s).
Proof. intros H. unfold ldp. by rewrite in_array_true. Qed.
Lemma stp_ok i g s :
  0 ≤ i < BUDDY_MAX_PAGES →
  stp i g s = Some (tt, set_pages (<[i := g (pg s i)]> (page_array s)) s).
Proof. intros H. unfold stp. by rewrite in_array_true. Qed.
Lemma pg_set i j v h s :
  pg (set_pages (<[i := v]> h) s) j = if decide (i = j) then v else default page0 (h !! j).
Proof. unfold pg. simpl. case_decide as Hd; [subst; by rewrite lookup_insert_eq|by rewrite lookup_insert_ne]. Qed.
Lemma pg_set_eq i v h s : pg (set_pages (<[i := v]> h) s) i = v.
Proof. by rewrite pg_set, decide_True. Qed.
Lemma pg_set_ne i j v s : i ≠ j → pg (set_pages (<[i := v]> (page_array s)) s) j = pg s j.
Proof. intros H. by rewrite pg_set, decide_False. Qed.
Lemma ld_head_ok o s : 0 ≤ o ≤ MAX_ORDER → ld_head o s = Some (free_area s !! o, s).
Proof. intros H. unfold ld_head, ok_order. by rewrite bool_decide_eq_true_2. Qed.
Definition with_head (o : Z) (v : option Z) (s : mm) : mm :=
  mk_mm (page_array s)
        (match v with Some p => <[o := p]> (free_area s) | None => delete o (free_area s) end)
        (total_phys_pages s) (phys_mem_end s) (stat_total_pages s) (stat_used_pages s) (ram s).
Lemma st_head_ok o v s : 0 ≤ o ≤ MAX_ORDER → st_head o v s = Some (tt, with_head o v s).
Proof. intros H. unfold st_head, ok_order. by rewrite bool_decide_eq_true_2. Qed.
Lemma with_head_eq o v s : free_area (with_head o v s) !! o = v.
Proof. destruct v; simpl; [apply lookup_insert_eq|apply lookup_delete_eq]. Qed.
Lemma with_head_ne o v s o' : o ≠ o' → free_area (with_head o v s) !! o' = free_area s !! o'.
Proof. intros H. destruct v; simpl; [by apply lookup_insert_ne|by apply lookup_delete_ne]. Qed.

Lemma strip_set_next v p : strip (set_next v p) = strip p.
Proof. by destruct p. Qed.

Lemma touch_set_next i v s : touch s (set_pages (<[i := set_next v (pg s i)]> (page_array s)) s).
Proof.
  split; [|done]. intros j. rewrite pg_set. case_decide as Hd; [subst; apply strip_set_next|done].
Qed.
Lemma touch_head o v s : touch s (with_head o v s).
Proof. done. Qed.

Definition with_next (i : Z) (v : option Z) (s : mm) : mm :=
  set_pages (<[i := set_next v (pg s i)]> (page_array s)) s.
Lemma st_next_ok i v s :
  0 ≤ i < BUDDY_MAX_PAGES → stp i (set_next v) s = Some (tt, with_next i v s).
Proof. apply stp_ok. Qed.
Lemma nx_with_head o v s i : nx (with_head o v s) i = nx s i.
Proof. done. Qed.
Lemma nx_with_next_eq i v s : nx (with_next i v s) i = v.
Proof. unfold nx, with_next. by rewrite pg_set_eq. Qed.
Lemma nx_with_next_ne i v s j : i ≠ j → nx (with_next i v s) j = nx s j.
Proof. intros H. unfold nx, with_next. by rewrite pg_set_ne. Qed.
Lemma heads_with_next i v s o : free_area (with_next i v s) !! o = free_area s !! o.
Proof. done. Qed.
Lemma touch_next i v s : touch s (with_next i v s).
Proof. apply touch_set_next. Qed.

(** ** list_add *)
Lemma list_add_spec fl s o p :
  view fl s → 0 ≤ o ≤ MAX_ORDER → 0 ≤ p < BUDDY_MAX_PAGES → (∀ o', p ∉ fl o') →
  ∃ s', list_add o p s = Some (tt, s') ∧ view (lupd fl o (p :: fl o)) s' ∧ touch s s'.
Proof.
  intros HV Ho Hp Hni. unfold list_add, bind. rewrite ld_head_ok, st_next_ok, st_head_ok by done.
  eexists. split; [reflexivity|]. split; [|eapply touch_trans; [apply touch_next|apply touch_head]].
  assert (∀ o', 0 ≤ o' ≤ MAX_ORDER →
    is_list (nx (with_head o (Some p) (with_next p (free_area s !! o) s))) (free_area s !! o') (fl o')) as Hold.
  { intros o' Ho'. eapply is_list_ext; [|by apply (vw_list _ _ HV)].
    intros x Hx. rewrite nx_with_head, nx_with_next_ne; [done|]. intros ->. by apply (Hni o'). }
  constructor.
  - intros o' Ho'. destruct (decide (o' = o)) as [->|Hne].
    + rewrite lupd_eq, with_head_eq. split; [done|]. rewrite nx_with_head, nx_with_next_eq. by apply Hold.
    + rewrite lupd_ne, with_head_ne by done. by apply Hold.
  - intros o'. unfold lupd. case_decide; [|apply HV].
    apply NoDup_cons. split; [apply Hni|apply HV].
  - intros o1 o2 x. unfold lupd. repeat case_decide; subst; rewrite ?elem_of_cons;
      intros H1 H2; try done.
    + destruct H1 as [->|H1]; [by apply Hni in H2|by apply (vw_disj _ _ HV _ _ x)].
    + destruct H2 as [->|H2]; [by apply Hni in H1|by apply (vw_disj _ _ HV _ _ x)].
    + by apply (vw_disj _ _ HV _ _ x).
  - intros o' x. unfold lupd. case_decide; [subst; rewrite elem_of_cons; intros [->|Hx]|intros Hx];
      [done|by apply (vw_dom _ _ HV)..].
Qed.

(** ** list_del *)
Lemma is_list_app nx h l1 x l2 :
  is_list nx h (l1 ++ x :: l2) →
  is_list nx (nx x) l2 ∧ match l1 with [] => h = Some x | y :: _ => h = Some y end.
Proof.
  revert h. induction l1 as [|y l1 IH]; intros h; simpl; [by intros [-> ?]|].
  intros [-> H]. by apply IH in H as [? _].
Qed.

(** Redirecting the link of [q] past [p]. *)
Lemma is_list_cut (nx nx' : Z → option Z) h l1 q p l2 :
  is_list nx h (l1 ++ q :: p :: l2) → NoDup (l1 ++ q :: p :: l2) →
  nx' q = nx p → (∀ x, x ∈ l1 ++ l2 → nx' x = nx x) → is_list nx' h (l1 ++ q :: l2).
Proof.
  revert h. induction l1 as [|y l1 IH]; intros h; simpl.
  - intros (-> & _ & Hl) Hn Hq Hx. split; [done|]. rewrite Hq. by eapply is_list_ext.
  - intros [-> Hl] [_ Hn]%NoDup_cons Hq Hx. split; [done|]. rewrite Hx by left.
    apply IH; [done..|]. intros z Hz. apply Hx. by right.
Qed.

Lemma list_prev_spec fuel s h l1 q p l2 :
  is_list (nx s) h (l1 ++ q :: p :: l2) → NoDup (l1 ++ q :: p :: l2) →
  (∀ x, x ∈ l1 ++ [q] → 0 ≤ x < BUDDY_MAX_PAGES) → (length l1 < fuel)%nat →
  list_prev fuel h p s = Some (Some q, s).
Proof.
  revert h l1. induction fuel as [|fuel IH]; intros h l1 Hl Hn Hr Hf; [lia|].
  destruct l1 as [|y l1]; simpl in *.
  - destruct Hl as (-> & Hq & _). unfold bind. rewrite ldp_ok by (apply Hr; left).
    unfold nx in Hq. rewrite Hq, decide_True by done. done.
  - destruct Hl as [-> Hl]. unfold bind. rewrite ldp_ok by (apply Hr; left).
    apply NoDup_cons in Hn as [Hy Hn]. fold (nx s y).
    assert (nx s y ≠ Some p) as Hne.
    { intros E. rewrite E in Hl. destruct l1 as [|z l1]; simpl in Hl; destruct Hl as [[= ->] _];
        simpl in Hn; apply NoDup_cons in Hn as [Hn _]; apply Hn;
        [left|apply elem_of_app; right; right; left]. }
    rewrite decide_False by done. apply (IH _ l1); [done..| |lia]. intros x Hx. apply Hr. by right.
Qed.

Lemma list_bound (l : list Z) :
  NoDup l → (∀ x, x ∈ l → 0 ≤ x < BUDDY_MAX_PAGES) → (length l < list_fuel)%nat.
Proof.
  intros Hn Hr. assert (l ⊆ seqZ 0 BUDDY_MAX_PAGES) as Hsub.
  { intros x Hx. apply elem_of_seqZ. specialize (Hr x Hx). lia. }
  apply NoDup_submseteq, submseteq_length in Hsub; [|done]. rewrite length_seqZ in Hsub.
  assert (0 < BUDDY_MAX_PAGES) by done. rewrite list_fuel_eq. lia.
Qed.

Definition without (p : Z) (l : list Z) : list Z := filter (λ x, x ≠ p) l.
Lemma without_split p l1 l2 : NoDup (l1 ++ p :: l2) → without p (l1 ++ p :: l2) = l1 ++ l2.
Proof.
  intros (H1 & H2 & H3)%NoDup_app. apply NoDup_cons in H3 as [H3 _]. unfold without.
  rewrite filter_app, filter_cons, decide_False by tauto.
  rewrite !filter_all; [done|by intros x Hx ->|].
  intros x Hx ->. apply (H2 p Hx). left.
Qed.
Lemma elem_of_without p x l : x ∈ without p l ↔ x ≠ p ∧ x ∈ l.
Proof. unfold without. by rewrite list_elem_of_filter. Qed.

Lemma without_view fl s s' o p :
  view fl s → p ∈ fl o →
  (∀ o', 0 ≤ o' ≤ MAX_ORDER → is_list (nx s') (free_area s' !! o') (lupd fl o (without p (fl o)) o')) →
  view (lupd fl o (without p (fl o))) s'.
Proof.
  intros HV Hp Hl.
  assert (∀ o' x, x ∈ lupd fl o (without p (fl o)) o' → x ∈ fl o') as Hsub.
  { intros o' x. unfold lupd. case_decide; [|done]. subst. by intros [_ Hx]%elem_of_without. }
  constructor; [done| | |].
  - intros o'. unfold lupd. case_decide; [apply NoDup_filter|]; apply HV.
  - intros o1 o2 x H1%Hsub H2%Hsub. by apply (vw_disj _ _ HV _ _ x).
  - intros o' x Hx%Hsub. by apply (vw_dom _ _ HV).
Qed.

Lemma list_del_head fl s o p l2 :
  view fl s → fl o = p :: l2 →
  ∃ s', list_del o p s = Some (tt, s') ∧ view (lupd fl o (without p (fl o))) s' ∧ touch s s'.
Proof.
  intros HV Hfl. assert (p ∈ fl o) as Hin by (rewrite Hfl; left).
  destruct (vw_dom _ _ HV _ _ Hin) as [Ho Hp].
  pose proof (vw_list _ _ HV o Ho) as Hl. pose proof (vw_nodup _ _ HV o) as Hn.
  rewrite Hfl in Hl, Hn. destruct Hl as [Hh Hl].
  unfold list_del, bind. rewrite ld_head_ok, Hh, decide_True, ldp_ok, st_head_ok by done.
  rewrite st_next_ok by done.
  eexists. split; [reflexivity|]. split; [|eapply touch_trans; [apply touch_head|apply touch_next]].
  eapply without_view; [done|done|]. intros o' Ho'. rewrite heads_with_next.
  change (next (pg s p)) with (nx s p).
  assert (∀ x, x ≠ p → nx (with_next p None (with_head o (nx s p) s)) x = nx s x) as Hx.
  { intros x Hx. by rewrite nx_with_next_ne. }
  destruct (decide (o' = o)) as [->|Hne].
  - rewrite lupd_eq, with_head_eq, Hfl. change (p :: l2) with ([] ++ p :: l2). rewrite without_split by done. simpl.
    eapply is_list_ext; [|exact Hl]. intros x Hx'. apply Hx. intros ->. by apply NoDup_cons in Hn as [? _].
  - rewrite lupd_ne, with_head_ne by done. eapply is_list_ext; [|by apply (vw_list _ _ HV)].
    intros x Hx'. apply Hx. intros ->. apply Hne. by apply (vw_disj _ _ HV _ _ p).
Qed.

Lemma list_del_tail fl s o p l1 q l2 :
  view fl s → fl o = l1 ++ q :: p :: l2 →
  ∃ s', list_del o p s = Some (tt, s') ∧ view (lupd fl o (without p (fl o))) s' ∧ touch s s'.
Proof.
  intros HV Hfl. assert (p ∈ fl o) as Hin by (rewrite Hfl; set_solver).
  assert (q ∈ fl o) as Hinq by (rewrite Hfl; set_solver).
  destruct (vw_dom _ _ HV _ _ Hin) as [Ho Hp]. destruct (vw_dom _ _ HV _ _ Hinq) as [_ Hq].
  pose proof (vw_list _ _ HV o Ho) as Hl. pose proof (vw_nodup _ _ HV o) as Hn.
  pose proof (list_bound _ Hn (λ x Hx, proj2 (vw_dom _ _ HV o x Hx))) as Hb.
  assert (∀ x, x ∈ fl o → 0 ≤ x < BUDDY_MAX_PAGES) as Hd by (intros x Hx; by apply (vw_dom _ _ HV o x)).
  pose proof Hn as Hn'. rewrite Hfl, NoDup_app_cons in Hn'. destruct Hn' as (Hq1 & Hq2 & Hn').
  apply not_elem_of_cons in Hq2 as [Hqp Hq2]. apply NoDup_app_cons in Hn' as (Hp1 & Hp2 & _).
  assert (∀ x, x ∈ l1 ++ l2 → x ≠ q ∧ x ≠ p) as Hne.
  { intros x [Hx|Hx]%elem_of_app; split; intros ->; done. }
  assert (free_area s !! o ≠ Some p) as Hh.
  { rewrite Hfl in Hl. intros E. rewrite E in Hl. destruct l1 as [|y l1]; simpl in Hl; destruct Hl as [[= ->] _].
    - done.
    - destruct (Hne y) as [_ ?]; [left|done]. }
  assert (without p (fl o) = l1 ++ q :: l2) as Hwo.
  { rewrite Hfl in Hn |- *. rewrite cons_middle, app_assoc in Hn |- *. rewrite without_split by done.
    by rewrite <- app_assoc. }
  rewrite Hfl in Hl, Hn, Hb, Hd.
  unfold list_del, bind. rewrite ld_head_ok, decide_False by done.
  rewrite (list_prev_spec _ _ _ l1 q p l2 Hl Hn), ldp_ok;
    [|done|intros x Hx; apply Hd; rewrite elem_of_app, list_elem_of_singleton in Hx; rewrite elem_of_app, elem_of_cons; tauto|rewrite length_app in Hb; simpl in Hb; lia].
  rewrite st_next_ok, st_next_ok by done.
  eexists. split; [reflexivity|]. split; [|eapply touch_trans; apply touch_next].
  eapply without_view; [done|done|]. intros o' Ho'. rewrite !heads_with_next.
  destruct (decide (o' = o)) as [->|Hno].
  - rewrite lupd_eq, Hwo. eapply is_list_cut; [exact Hl|exact Hn| |].
    + by rewrite nx_with_next_ne, nx_with_next_eq.
    + intros x [? ?]%Hne. rewrite !nx_with_next_ne; congruence.
  - rewrite lupd_ne by done. eapply is_list_ext; [|by apply (vw_list _ _ HV)].
    intros x Hx. rewrite !nx_with_next_ne; [done|..]; intros ->; apply Hno; by eapply (vw_disj _ _ HV).
Qed.

Lemma list_del_spec fl s o p :
  view fl s → p ∈ fl o →
  ∃ s', list_del o p s = Some (tt, s') ∧ view (lupd fl o (without p (fl o))) s' ∧ touch s s'.
Proof.
  intros HV Hp. pose proof Hp as (l1 & l2 & Hfl)%list_elem_of_split.
  destruct l1 as [|x l1 _] using rev_ind; [exact (list_del_head _ _ _ _ _ HV Hfl)|].
  rewrite <- app_assoc in Hfl. exact (list_del_tail _ _ _ _ _ _ _ HV Hfl).
Qed.

(** ** What a run can do to a descriptor

    The buddy allocator relinks descriptors and rewrites those of free blocks.
    A preorder on descriptors that allows these two changes therefore relates
    every descriptor before a run to the same one after it; the reference count
    and the slab flag are two uses. *)
Create HintDb moves.

Section moves.
Context (R : page → page → Prop) `{!PreOrder R}.

(** A run moves every descriptor along [R]. *)
Definition moves {A} (m : MM A) : Prop :=
  ∀ s a s', m s = Some (a, s') → ∀ x, R (pg s x) (pg s' x).

Lemma moves_bind {A B} (m : MM A) (k : A → MM B) : moves m → (∀ a, moves (k a)) → moves (bind m k).
Proof.
  intros Hm Hk s b s' H x. unfold bind in H. destruct (m s) as [[a s1]|] eqn:E; [|done].
  transitivity (pg s1 x); [by apply (Hm s a s1)|by apply (Hk a s1 b s')].
Qed.
Lemma moves_still {A} (m : MM A) : (∀ s a s', m s = Some (a, s') → ∀ x, pg s' x = pg s x) → moves m.
Proof. intros Hm s a s' H x. by rewrite (Hm _ _ _ H x). Qed.
Lemma moves_ret {A} (a : A) : moves (ret a : MM A).
Proof. apply moves_still. by intros s a' s' [= _ <-]. Qed.
Lemma moves_fail {A} : moves (fail : MM A).
Proof. by intros s a' s'. Qed.
Lemma moves_ldp {A} (f : page → A) i : moves (ldp f i).
Proof. apply moves_still. intros s a s' H. unfold ldp in H. destruct (in_array i); [|done]. by injection H as _ <-. Qed.
Lemma moves_ld_head o : moves (ld_head o).
Proof. apply moves_still. intros s a s' H. unfold ld_head in H. destruct (ok_order o); [|done]. by injection H as _ <-. Qed.
Lemma moves_st_head o v : moves (st_head o v).
Proof. apply moves_still. intros s a s' H. unfold st_head in H. destruct (ok_order o); [|done]. by injection H as _ <-. Qed.
Lemma moves_gets {A} (f : mm → A) : moves (gets f).
Proof. apply moves_still. by intros s a s' [= _ <-]. Qed.
Lemma moves_modify f : (∀ s x, pg (f s) x = pg s x) → moves (modify f).
Proof. intros Hf. apply moves_still. intros s a s' [= _ <-]. apply Hf. Qed.
Lemma moves_stp i g : (∀ d, R d (g d)) → moves (stp i g).
Proof.
  intros Hg s a s' H x. unfold stp in H. destruct (in_array i); [|done]. injection H as _ <-.
  rewrite pg_set. destruct (decide (i = x)) as [->|Hne]; [apply Hg|done].
Qed.

#[local] Hint Resolve moves_bind moves_ret moves_fail moves_ldp moves_ld_head moves_st_head moves_gets : moves.
#[local] Hint Extern 1 (moves (modify _)) => apply moves_modify; reflexivity : moves.

(** Branches of the code. *)
Ltac moves_tac :=
  repeat first
    [ progress intros
    | apply moves_bind
    | match goal with |- moves (match ?x with _ => _ end) => destruct x end
    | solve [eauto with moves] ].

Hypothesis R_next : ∀ v d, R d (set_next v d).
Hypothesis R_fresh : ∀ p o d, R d (fresh_free p o d).
#[local] Hint Extern 1 (moves (stp _ _)) => apply moves_stp; intros; eauto : moves.

Lemma moves_list_prev fuel q p : moves (list_prev fuel q p).
Proof. revert q. induction fuel as [|fuel IH]; intros q; cbn [list_prev]; moves_tac. Qed.
Lemma moves_list_add o p : moves (list_add o p).
Proof. unfold list_add. moves_tac. Qed.
#[local] Hint Resolve moves_list_prev moves_list_add : moves.
Lemma moves_list_del o p : moves (list_del o p).
Proof. unfold list_del. moves_tac. Qed.
#[local] Hint Resolve moves_list_del : moves.
Lemma moves_split o : moves (buddy_split o).
Proof. unfold buddy_split. moves_tac. Qed.
Lemma moves_merge fuel p : moves (buddy_merge_rec fuel p).
Proof. revert p. induction fuel as [|fuel IH]; intros p; cbn [buddy_merge_rec]; moves_tac. Qed.
#[local] Hint Resolve moves_split moves_merge : moves.
Lemma moves_find_order fuel o : moves (find_order fuel o).
Proof. revert o. induction fuel as [|fuel IH]; intros o; cbn [find_order]; moves_tac. Qed.
Lemma moves_split_down fuel c o : moves (split_down fuel c o).
Proof. revert c. induction fuel as [|fuel IH]; intros c; cbn [split_down]; moves_tac. Qed.
#[local] Hint Resolve moves_find_order moves_split_down : moves.

Lemma moves_for_range n i (body : Z → MM unit) : (∀ j, moves (body j)) → moves (for_range n i body).
Proof. intros Hb. revert i. induction n as [|n IH]; intros i; cbn [for_range]; moves_tac; apply Hb. Qed.
Lemma moves_coalesce_pass fuel p : moves (coalesce_pass fuel p).
Proof. revert p. induction fuel as [|fuel IH]; intros p; cbn [coalesce_pass]; unfold buddy_merge; moves_tac. Qed.
#[local] Hint Resolve moves_coalesce_pass : moves.
Lemma moves_coalesce_order fuel o : moves (coalesce_order fuel o).
Proof. induction fuel as [|fuel IH]; cbn [coalesce_order]; moves_tac. Qed.
Lemma moves_coalesce_all : moves buddy_coalesce_all.
Proof. apply moves_for_range. intros j. apply moves_coalesce_order. Qed.

(** Allocation and freeing also rewrite the descriptor of the block. *)
Hypothesis R_flags : ∀ b d, R d (set_flags (if (b : bool) then Z.lor (flags d) PAGE_FLAG_FREE else Z.ldiff (flags d) PAGE_FLAG_FREE) d).
Hypothesis R_order : ∀ o d, R d (set_order o d).
Hypothesis R_ref : ∀ n d, R d (set_ref n d).
Lemma moves_alloc_pages o : moves (alloc_pages o).
Proof.
  unfold alloc_pages, sub_used, zero_ram. moves_tac; apply moves_stp; [apply (R_flags false)|apply (R_flags true)].
Qed.
Lemma moves_free_pages ptr o : moves (free_pages ptr o).
Proof. unfold free_pages, sub_used, buddy_merge. moves_tac; apply moves_stp, (R_flags true). Qed.
End moves.

(** ** Reference counts *)
Definition refs (s : mm) (x : Z) : Z := ref_count (pg s x).
Definition same_ref (d d' : page) : Prop := ref_count d' = ref_count d.
#[export] Instance same_ref_pre : PreOrder same_ref.
Proof. split; unfold same_ref; congruence. Qed.

Lemma refs_split_down fuel c o s s' : split_down fuel c o s = Some (tt, s') → ∀ x, refs s' x = refs s x.
Proof. by apply (moves_split_down same_ref). Qed.
Lemma refs_merge fuel p s r s' : buddy_merge_rec fuel p s = Some (r, s') → ∀ x, refs s' x = refs s x.
Proof. by apply (moves_merge same_ref). Qed.

(** Descriptors that agree but for their link have the same count. *)
Lemma refs_strip d d' : strip d' = strip d → ref_count d' = ref_count d.
Proof. destruct d, d'. by intros [= -> -> -> -> -> ->]. Qed.

(** ** The slab flag *)

(** The allocator never sets it. *)
Definition slab_falls (d d' : page) : Prop := has (flags d') PAGE_FLAG_SLAB = true → has (flags d) PAGE_FLAG_SLAB = true.
#[export] Instance slab_falls_pre : PreOrder slab_falls.
Proof. split; [intros d; unfold slab_falls; tauto|]. intros d1 d2 d3. unfold slab_falls. tauto. Qed.
Lemma has_slab_free (b : bool) fl :
  has (if b then Z.lor fl PAGE_FLAG_FREE else Z.ldiff fl PAGE_FLAG_FREE) PAGE_FLAG_SLAB = has fl PAGE_FLAG_SLAB.
Proof.
  unfold has. f_equal. f_equal. destruct b.
  - rewrite Z.land_lor_distr_l. change (Z.land PAGE_FLAG_FREE PAGE_FLAG_SLAB) with 0. by rewrite Z.lor_0_r.
  - rewrite Z.ldiff_land, <- Z.land_assoc. done.
Qed.
Lemma slab_flag_alloc o s a s' :
  alloc_pages o s = Some (a, s') → ∀ x, slab_falls (pg s x) (pg s' x).
Proof. apply (moves_alloc_pages slab_falls); try (by unfold slab_falls). intros b d H. by rewrite <- (has_slab_free b). Qed.
Lemma slab_flag_free ptr o s a s' :
  free_pages ptr o s = Some (a, s') → ∀ x, slab_falls (pg s x) (pg s' x).
Proof. apply (moves_free_pages slab_falls); try (by unfold slab_falls). intros b d H. by rewrite <- (has_slab_free b). Qed.
