(* ===== verification/BuddyInv.v ===== *)
(** * kernel/mem.c: the buddy invariant.

    An ownership map sends every page to the block that contains it: its base,
    its order, and whether it is free.  [Inv own fl s] says that these blocks
    are aligned and disjoint, that the free ones are exactly the members of the
    free lists, and that the descriptor at the base of each block tells the
    truth about it. *)
From S2P Require Import Prelude Buddy BuddyLists.
Local Open Scope Z_scope.
Local Open Scope kernel_scope.

(** ** Ownership *)
Definition owner : Type := Z * Z * bool.
Definition ownership := Z → option owner.

Definition in_block (b o x : Z) : Prop := b ≤ x < b + 2 ^ o.

Record own_ok (own : ownership) : Prop := mk_own_ok {
  ow_order : ∀ x b o f, own x = Some (b, o, f) → 0 ≤ o ≤ MAX_ORDER;
  ow_align : ∀ x b o f, own x = Some (b, o, f) → (2 ^ o | b);
  ow_in : ∀ x b o f, own x = Some (b, o, f) → in_block b o x;
  ow_range : ∀ x b o f, own x = Some (b, o, f) → 0 ≤ b ∧ b + 2 ^ o ≤ BUDDY_MAX_PAGES;
  ow_block : ∀ x b o f, own x = Some (b, o, f) → ∀ y, in_block b o y → own y = Some (b, o, f)
}.

(** The pages whose state a step may not change: used and unowned ones; a free
    page stays free. *)
Definition keeps (own own' : ownership) : Prop :=
  ∀ x, match own x with
       | Some (_, _, true) => ∃ b o, own' x = Some (b, o, true)
       | u => own' x = u
       end.

Lemma keeps_refl own : keeps own own.
Proof. intros x. destruct (own x) as [[[b o] []]|]; eauto. Qed.
Lemma keeps_trans own1 own2 own3 : keeps own1 own2 → keeps own2 own3 → keeps own1 own3.
Proof.
  intros H1 H2 x. specialize (H1 x). specialize (H2 x).
  destruct (own1 x) as [[[b o] []]|].
  - destruct H1 as (b' & o' & H1). by rewrite H1 in H2.
  - by rewrite H1 in H2.
  - by rewrite H1 in H2.
Qed.

(** Replace the ownership of a range that is a union of blocks. *)
Definition patch (base len : Z) (g own : ownership) : ownership :=
  λ x, if decide (base ≤ x < base + len) then g x else own x.

Lemma patch_in base len g own x : base ≤ x < base + len → patch base len g own x = g x.
Proof. intros H. unfold patch. by rewrite decide_True. Qed.
Lemma patch_out base len g own x : ¬ (base ≤ x < base + len) → patch base len g own x = own x.
Proof. intros H. unfold patch. by rewrite decide_False. Qed.

Definition whole (base len : Z) (own : ownership) : Prop :=
  ∀ x b o f, own x = Some (b, o, f) → base ≤ x < base + len → base ≤ b ∧ b + 2 ^ o ≤ base + len.

Lemma patch_ok base len g own :
  own_ok own → own_ok g → whole base len own → whole base len g → own_ok (patch base len g own).
Proof.
  intros Ho Hg Hwo Hwg.
  assert (∀ x b o f, patch base len g own x = Some (b, o, f) →
    (base ≤ x < base + len ∧ g x = Some (b, o, f)) ∨ (¬ (base ≤ x < base + len) ∧ own x = Some (b, o, f)))
    as Hcase by (intros x b o f; unfold patch; case_decide; tauto).
  constructor; intros x b o f [[Hin H]|[Hin H]]%Hcase.
  1-2: by (eapply ow_order; [|exact H]).
  1-2: by (eapply ow_align; [|exact H]).
  1-2: by (eapply ow_in; [|exact H]).
  1-2: by (eapply ow_range; [|exact H]).
  - intros y Hy. pose proof (Hwg _ _ _ _ H Hin). unfold in_block in *. rewrite patch_in by lia.
    by apply (ow_block _ Hg _ _ _ _ H).
  - intros y Hy. pose proof (ow_block _ Ho _ _ _ _ H y Hy) as Hy'.
    pose proof (ow_in _ Ho _ _ _ _ H) as Hx. unfold in_block in *.
    unfold patch. case_decide as Hd; [|done].
    pose proof (Hwo _ _ _ _ Hy' Hd). lia.
Qed.

(** One block. *)
Definition block (b o : Z) (f : bool) : ownership :=
  λ x, if decide (b ≤ x < b + 2 ^ o) then Some (b, o, f) else None.

Lemma block_ok b o f :
  0 ≤ o ≤ MAX_ORDER → (2 ^ o | b) → 0 ≤ b → b + 2 ^ o ≤ BUDDY_MAX_PAGES → own_ok (block b o f).
Proof.
  intros Ho Ha Hb He. unfold block.
  constructor; intros x b' o' f'; case_decide; intros [= <- <- <-]; try done.
  intros y Hy. by rewrite decide_True.
Qed.

Lemma whole_block own x b o f : own_ok own → own x = Some (b, o, f) → whole b (2 ^ o) own.
Proof.
  intros Ho H y b' o' f' Hy Hin.
  pose proof (ow_block _ Ho _ _ _ _ H y Hin) as Hy'. rewrite Hy' in Hy. injection Hy as -> -> ->. lia.
Qed.
Lemma whole_one b o f : whole b (2 ^ o) (block b o f).
Proof. intros x b' o' f'. unfold block. case_decide; [intros [= <- <- <-]; lia|done]. Qed.
Lemma whole_app base l1 l2 own :
  0 ≤ l1 → 0 ≤ l2 → whole base l1 own → whole (base + l1) l2 own → whole base (l1 + l2) own.
Proof.
  intros ? ? H1 H2 x b o f Hx Hin. destruct (decide (x < base + l1)).
  - pose proof (H1 _ _ _ _ Hx ltac:(lia)). lia.
  - pose proof (H2 _ _ _ _ Hx ltac:(lia)). lia.
Qed.

Lemma pow2_pos o : 0 ≤ o → 0 < 2 ^ o.
Proof. intros. by apply Z.pow_pos_nonneg. Qed.

(** ** Buddies *)
Lemma lxor_left k o : 0 ≤ o → Z.lxor (2 * k * 2 ^ o) (2 ^ o) = 2 * k * 2 ^ o + 2 ^ o.
Proof.
  intros Ho. symmetry. apply Z.add_nocarry_lxor. apply Z.bits_inj'. intros n Hn.
  rewrite Z.land_spec, Z.bits_0, Z.pow2_bits_eqb by done.
  destruct (Z.eqb_spec o n) as [<-|]; [|by rewrite andb_false_r].
  rewrite Z.mul_pow2_bits by done. rewrite Z.sub_diag, Z.testbit_even_0. done.
Qed.
Lemma lxor_right k o : 0 ≤ o → Z.lxor (2 * k * 2 ^ o + 2 ^ o) (2 ^ o) = 2 * k * 2 ^ o.
Proof.
  intros Ho. rewrite <- lxor_left by done.
  by rewrite Z.lxor_assoc, Z.lxor_nilpotent, Z.lxor_0_r.
Qed.

(** An aligned block is the left or the right half of an aligned block of the
    next order, and [get_buddy] is the other half. *)
Lemma buddy_cases p o :
  0 ≤ o → (2 ^ o | p) →
  ∃ base, (2 ^ (o + 1) | base) ∧
    ((p = base ∧ Z.lxor p (Z.shiftl 1 o) = base + 2 ^ o) ∨
     (p = base + 2 ^ o ∧ Z.lxor p (Z.shiftl 1 o) = base)).
Proof.
  intros Ho [k Hk]. rewrite Z.shiftl_1_l.
  destruct (Z.Even_or_Odd k) as [[j Hj]|[j Hj]]; subst k p.
  - exists (2 * j * 2 ^ o). split; [|left; split; [done|by apply lxor_left]].
    exists j. rewrite Z.pow_add_r by lia. change (2 ^ 1) with 2. ring.
  - exists (2 * j * 2 ^ o). split; [|right; split; [ring|]].
    + exists j. rewrite Z.pow_add_r by lia. change (2 ^ 1) with 2. ring.
    + rewrite <- (lxor_right j o Ho). f_equal. ring.
Qed.

Lemma divide_between m c b : 0 < m → (m | c) → (m | b) → c ≤ b < c + m → c = b.
Proof. intros Hm [u ->] [v ->] H. f_equal. nia. Qed.
Lemma pow2_divide i j : 0 ≤ i ≤ j → (2 ^ i | 2 ^ j).
Proof. intros H. exists (2 ^ (j - i)). rewrite <- Z.pow_add_r by lia. f_equal. lia. Qed.

Lemma dyadic_fit m w v u b :
  0 < m → w * (v * m) ≤ b < w * (v * m) + v * m → u * m ≤ b < u * m + m →
  w * (v * m) ≤ u * m ∧ u * m + m ≤ w * (v * m) + v * m.
Proof.
  intros Hm Hb Hu.
  assert (w * v < u + 1) by (apply (Z.mul_lt_mono_pos_r m); lia).
  assert (u < w * v + v) by (apply (Z.mul_lt_mono_pos_r m); lia). nia.
Qed.

(** The block that contains the buddy of a block starts there and is no larger. *)
Lemma buddy_block own p o f b c o' f' :
  own_ok own → own p = Some (p, o, f) → b = Z.lxor p (Z.shiftl 1 o) → own b = Some (c, o', f') →
  c = b ∧ o' ≤ o.
Proof.
  intros Hw Hp Hb Hc.
  pose proof (ow_order _ Hw _ _ _ _ Hp). pose proof (ow_order _ Hw _ _ _ _ Hc).
  pose proof (ow_align _ Hw _ _ _ _ Hp) as Hpa. pose proof (ow_align _ Hw _ _ _ _ Hc) as Hca.
  pose proof (ow_in _ Hw _ _ _ _ Hc) as Hin. unfold in_block in Hin.
  destruct (buddy_cases p o) as (base & Hbase & Hcase); [lia|done|]. rewrite <- Hb in Hcase.
  pose proof (pow2_pos o ltac:(lia)).
  destruct (decide (o' ≤ o)) as [Hle|Hgt].
  - split; [|done]. apply (divide_between (2 ^ o')); [apply pow2_pos; lia|done| |done].
    apply (Z.divide_trans _ (2 ^ o)); [apply pow2_divide; lia|].
    destruct Hcase as [[-> ->]|[-> ->]].
    + by apply Z.divide_add_r; [|apply Z.divide_refl].
    + apply (Z.divide_trans _ (2 ^ (o + 1))); [apply pow2_divide; lia|done].
  - exfalso.
    assert (2 ^ (o + 1) | 2 ^ o') as Hd by (apply pow2_divide; lia).
    assert (2 ^ (o + 1) = 2 ^ o + 2 ^ o) as H2 by (rewrite Z.pow_add_r by lia; lia).
    assert (c ≤ base ∧ base + 2 ^ (o + 1) ≤ c + 2 ^ o') as Hfit.
    { destruct Hbase as [u ->], Hd as [v Hv]. rewrite Hv in *. destruct Hca as [w ->].
      apply (dyadic_fit _ w v u b); lia. }
    assert (own p = Some (c, o', f')) as Hp' by (apply (ow_block _ Hw _ _ _ _ Hc); unfold in_block; lia).
    rewrite Hp in Hp'. injection Hp' as ? ? ?. lia.
Qed.

(** ** The invariant *)
Record desc (f : bool) (p o : Z) (d : page) : Prop := mk_desc {
  de_free : has (flags d) PAGE_FLAG_FREE = f;
  de_reserved : has (flags d) PAGE_FLAG_RESERVED = false;
  de_order : order d = o;
  de_phys : phys_addr d = pfn_to_phys p
}.

Lemma desc_strip f p o d d' : strip d' = strip d → desc f p o d → desc f p o d'.
Proof. destruct d, d'. intros [= -> -> -> -> -> ->] []. by constructor. Qed.
Lemma flags_strip d d' : strip d' = strip d → flags d' = flags d.
Proof. destruct d, d'. by intros [= -> -> -> -> -> ->]. Qed.

Record Inv (own : ownership) (fl : Z → list Z) (s : mm) : Prop := mk_Inv {
  iv_view : view fl s;
  iv_own : own_ok own;
  iv_total : 0 ≤ total_phys_pages s ≤ BUDDY_MAX_PAGES;
  iv_managed : ∀ x u, own x = Some u → x < total_phys_pages s;
  iv_free : ∀ o x, x ∈ fl o ↔ own x = Some (x, o, true);
  iv_desc : ∀ x o f, own x = Some (x, o, f) → desc f x o (pg s x);
  iv_none : ∀ x, own x = None → has (flags (pg s x)) PAGE_FLAG_FREE = false
}.

Lemma inv_base own fl s p o f : Inv own fl s → own p = Some (p, o, f) →
  0 ≤ o ≤ MAX_ORDER ∧ 0 ≤ p < BUDDY_MAX_PAGES.
Proof.
  intros HI H. pose proof (ow_order _ (iv_own _ _ _ HI) _ _ _ _ H).
  pose proof (ow_range _ (iv_own _ _ _ HI) _ _ _ _ H). pose proof (pow2_pos o). lia.
Qed.

Lemma meta_total s s' : meta s' = meta s → total_phys_pages s' = total_phys_pages s.
Proof. by intros [=]. Qed.

(** A store that keeps the links keeps the lists. *)
Lemma view_store fl s i g :
  view fl s → next (g (pg s i)) = next (pg s i) →
  view fl (set_pages (<[i := g (pg s i)]> (page_array s)) s).
Proof.
  intros HV Hg. constructor; [|apply HV..].
  intros o Ho. eapply is_list_ext; [|by apply (vw_list _ _ HV)].
  intros x _. unfold nx. rewrite pg_set. case_decide; by subst.
Qed.

(** The new free lists after a patch. *)
Lemma in_lupd fl o l o' x : x ∈ lupd fl o l o' ↔ (o' = o ∧ x ∈ l) ∨ (o' ≠ o ∧ x ∈ fl o').
Proof. unfold lupd. case_decide; intuition. Qed.

(** The halves of a merged block. *)
Lemma halves own p b o base :
  own_ok own → own p = Some (p, o, true) → own b = Some (b, o, true) →
  (p = base ∧ b = base + 2 ^ o) ∨ (p = base + 2 ^ o ∧ b = base) →
  (∀ x, base ≤ x < base + 2 ^ (o + 1) → own x = Some (p, o, true) ∨ own x = Some (b, o, true)) ∧
  whole base (2 ^ (o + 1)) own.
Proof.
  intros Hw Hp Hb Hc. pose proof (ow_order _ Hw _ _ _ _ Hp). pose proof (pow2_pos o ltac:(lia)).
  assert (2 ^ (o + 1) = 2 ^ o + 2 ^ o) as H2 by (rewrite Z.pow_add_r by lia; lia).
  rewrite H2. split.
  - intros x Hx. destruct (decide (in_block p o x)) as [Hi|Hi].
    + left. by apply (ow_block _ Hw _ _ _ _ Hp).
    + right. apply (ow_block _ Hw _ _ _ _ Hb). unfold in_block in *. lia.
  - destruct Hc as [[-> ->]|[-> ->]]; apply whole_app; try lia; by eapply whole_block.
Qed.

Definition merged_own (base o : Z) (own : ownership) : ownership :=
  patch base (2 ^ (o + 1)) (block base (o + 1) true) own.

Lemma merged_own_ok own p b o base :
  own_ok own → own p = Some (p, o, true) → own b = Some (b, o, true) → o < MAX_ORDER →
  (p = base ∧ b = base + 2 ^ o) ∨ (p = base + 2 ^ o ∧ b = base) → (2 ^ (o + 1) | base) →
  own_ok (merged_own base o own) ∧ keeps own (merged_own base o own) ∧
  (∀ x, merged_own base o own x =
        if decide (base ≤ x < base + 2 ^ (o + 1)) then Some (base, o + 1, true) else own x).
Proof.
  intros Hw Hp Hb Ho Hc Ha. destruct (halves _ _ _ _ _ Hw Hp Hb Hc) as [Hx Hwh].
  pose proof (ow_order _ Hw _ _ _ _ Hp). pose proof (ow_range _ Hw _ _ _ _ Hp).
  pose proof (ow_range _ Hw _ _ _ _ Hb).
  assert (2 ^ (o + 1) = 2 ^ o + 2 ^ o) as H2 by (rewrite Z.pow_add_r by lia; lia).
  assert (∀ x, merged_own base o own x =
    if decide (base ≤ x < base + 2 ^ (o + 1)) then Some (base, o + 1, true) else own x) as Heq.
  { intros x. unfold merged_own, patch, block. by case_decide. }
  split_and!; [|intros x|exact Heq].
  - apply patch_ok; [done|apply block_ok; lia || done|done|apply whole_one].
  - rewrite Heq. case_decide as Hd; [|destruct (own x) as [[[? ?] []]|]; eauto].
    destruct (Hx x Hd) as [->| ->]; eauto.
Qed.

Lemma desc_fresh p o d : desc true p o (fresh_free p o d).
Proof. by constructor. Qed.
Lemma next_fresh p o d : next (fresh_free p o d) = next d.
Proof. done. Qed.

Lemma bind_run {S A B} (m : ST S A) (k : A → ST S B) s a s' r :
  m s = Some (a, s') → k a s' = r → bind m k s = r.
Proof. unfold bind. by intros -> ->. Qed.

Lemma merged_lists fl o p b base x o' :
  x ∈ lupd (lupd (lupd fl o (without p (fl o))) o (without b (lupd fl o (without p (fl o)) o)))
        (o + 1) (base :: lupd (lupd fl o (without p (fl o))) o
                          (without b (lupd fl o (without p (fl o)) o)) (o + 1)) o' ↔
  (o' = o + 1 ∧ x = base) ∨ (x ∈ fl o' ∧ ¬ (o' = o ∧ (x = p ∨ x = b))).
Proof.
  rewrite lupd_eq, in_lupd, elem_of_cons, !in_lupd, !elem_of_without.
  destruct (decide (o' = o + 1)) as [->|]; [|destruct (decide (o' = o)) as [->|]; tauto].
  assert (o + 1 ≠ o) by lia. tauto.
Qed.

(** No page loses its [FREE] flag. *)
Definition flags_grow (s s' : mm) : Prop :=
  ∀ x, has (flags (pg s x)) PAGE_FLAG_FREE = true → has (flags (pg s' x)) PAGE_FLAG_FREE = true.

(** Only descriptors of free pages change, but for the links. *)
Definition frame (own : ownership) (s s' : mm) : Prop :=
  ∀ x, (∀ b q, own x ≠ Some (b, q, true)) → strip (pg s' x) = strip (pg s x).

Lemma frame_refl own s : frame own s s.
Proof. by intros x. Qed.
Lemma frame_trans own own1 s s1 s2 : keeps own own1 → frame own s s1 → frame own1 s1 s2 → frame own s s2.
Proof.
  intros K F F1 x Hx. rewrite F1, (F x Hx); [done|]. intros b q E. specialize (K x).
  destruct (own x) as [[[b' q'] []]|] eqn:E0; [by destruct (Hx b' q')|rewrite K in E; done|rewrite K in E; done].
Qed.

Lemma merge_step {A} own fl s p b o base (k : MM A) :
  Inv own fl s → own p = Some (p, o, true) → own b = Some (b, o, true) → o < MAX_ORDER →
  (p = base ∧ b = base + 2 ^ o) ∨ (p = base + 2 ^ o ∧ b = base) → (2 ^ (o + 1) | base) →
  ∃ s' fl', (list_del o p ;;; list_del o b ;;; stp base (fresh_free base (o + 1)) ;;;
         list_add (o + 1) base ;;; k) s = k s' ∧
    Inv (merged_own base o own) fl' s' ∧ meta s' = meta s ∧ flags_grow s s' ∧ frame own s s' ∧
    ∃ l, fl' (o + 1) = base :: l.
Proof.
  intros HI Hp Hb Ho Hc Ha.
  destruct (merged_own_ok own p b o base) as (Hw' & Hk & Heq); [apply HI|done..|].
  destruct (halves own p b o base) as [Hx _]; [apply HI|done..|].
  destruct (inv_base _ _ _ _ _ _ HI Hp) as [Hor Hpr].
  assert (0 < 2 ^ o) as Hpow by (apply pow2_pos; lia).
  assert (2 ^ (o + 1) = 2 ^ o + 2 ^ o) as H2 by (rewrite Z.pow_add_r by lia; lia).
  assert (p ≠ b) as Hpb by lia.
  assert (p ∈ fl o) as Hpin by by apply (iv_free _ _ _ HI).
  assert (b ∈ fl o) as Hbin by by apply (iv_free _ _ _ HI).
  destruct (list_del_spec fl s o p (iv_view _ _ _ HI) Hpin) as (s1 & R1 & V1 & T1).
  destruct (list_del_spec _ s1 o b V1) as (s2 & R2 & V2 & T2).
  { rewrite lupd_eq. by apply elem_of_without. }
  set (s3 := set_pages (<[base := fresh_free base (o + 1) (pg s2 base)]> (page_array s2)) s2).
  destruct (inv_base _ _ _ _ _ _ HI Hb) as [_ Hbr].
  assert (0 ≤ base < BUDDY_MAX_PAGES) as Hbase by lia.
  pose proof (view_store _ s2 base (fresh_free base (o + 1)) V2 (next_fresh _ _ _)) as V3.
  destruct (list_add_spec _ s3 (o + 1) base V3) as (s4 & R4 & V4 & T4); [lia|done| |].
  { intros o' Hin. rewrite !in_lupd, !elem_of_without in Hin.
    destruct Hin as [[-> [Hne Hin]]|[Hne [[? _]|[_ Hin]]]]; [|done|].
    - rewrite lupd_eq, elem_of_without in Hin. destruct Hin, Hc as [[? ?]|[? ?]]; congruence.
    - apply (iv_free _ _ _ HI) in Hin. destruct Hc as [[? ?]|[? ?]]; congruence. }
  pose proof (touch_trans _ _ _ T1 T2) as [T12 M12]. destruct T4 as [T4 M4].
  assert (∀ x, x ≠ base → strip (pg s4 x) = strip (pg s x)) as Hsame.
  { intros x Hne. rewrite T4. unfold s3. by rewrite pg_set_ne, T12. }
  assert (desc true base (o + 1) (pg s4 base)) as Hdesc.
  { eapply desc_strip; [apply T4|]. unfold s3. rewrite pg_set_eq. apply desc_fresh. }
  eexists s4, _. split; [|split; [|split; [|split; [|split; [|eexists; apply lupd_eq]]]]].
  - eapply bind_run; [exact R1|]. eapply bind_run; [exact R2|]. eapply bind_run; [by apply stp_ok|].
    eapply bind_run; [exact R4|]. done.
  - constructor; [exact V4|done| | | | |].
    + rewrite (meta_total s s4) by (rewrite M4; exact M12). apply HI.
    + rewrite (meta_total s s4) by (rewrite M4; exact M12). intros x u. rewrite Heq.
      case_decide as Hd; [|apply HI].
      intros _. destruct (Hx x Hd) as [E|E]; by apply (iv_managed _ _ _ HI) in E.
    + intros o' x. rewrite merged_lists, Heq, (iv_free _ _ _ HI). case_decide as Hd; split.
      * intros [[-> ->]|[E Hn]]; [done|]. exfalso. apply Hn.
        destruct (Hx x Hd) as [E'|E']; rewrite E' in E; simplify_eq; tauto.
      * intros [= -> ->]. by left.
      * intros [[-> ->]|[E _]]; [lia|done].
      * intros E. right. split; [done|]. intros [_ [->| ->]]; lia.
    + intros x o' f. rewrite Heq. case_decide as Hd.
      * by intros [= <- <- <-].
      * intros E. eapply desc_strip; [apply Hsame; lia|]. by apply HI.
    + intros x. rewrite Heq. case_decide as Hd; [done|]. intros E.
      rewrite (flags_strip (pg s x)) by (apply Hsame; lia). by apply HI.
  - rewrite M4. exact M12.
  - intros x Hfx. destruct (decide (x = base)) as [->|Hne]; [apply Hdesc|].
    by rewrite (flags_strip (pg s x)) by (by apply Hsame).
  - intros x Hnf. apply Hsame. intros ->. destruct Hc as [[E _]|[_ E]].
    + destruct (Hnf p o). congruence.
    + destruct (Hnf b o). congruence.
Qed.

(** ** buddy_merge *)
Definition is_base (own : ownership) (x : Z) : Prop :=
  match own x with Some (b, _, _) => b = x | None => False end.
#[export] Instance is_base_dec own x : Decision (is_base own x).
Proof. unfold is_base. destruct (own x) as [[[b o] f]|]; apply _. Defined.
Definition nblocks (own : ownership) : nat := length (filter (is_base own) (seqZ 0 BUDDY_MAX_PAGES)).

Lemma nblocks_bound own : (nblocks own < list_fuel)%nat.
Proof.
  unfold nblocks. pose proof (length_filter (is_base own) (seqZ 0 BUDDY_MAX_PAGES)) as H.
  rewrite length_seqZ in H. assert (0 < BUDDY_MAX_PAGES) by done. rewrite list_fuel_eq. lia.
Qed.

Lemma length_filter_strict {A} (P Q : A → Prop) `{!∀ x, Decision (P x), !∀ x, Decision (Q x)} (l : list A) x :
  (∀ y, P y → Q y) → x ∈ l → Q x → ¬ P x → (length (filter P l) < length (filter Q l))%nat.
Proof.
  intros HPQ Hx HQ HP.
  assert (filter P l = filter P (filter Q l)) as ->.
  { rewrite list_filter_filter_l; [done|]. apply HPQ. }
  apply (length_filter_lt _ _ x); [by apply list_elem_of_filter|done].
Qed.

Lemma merged_fewer own p b o base :
  own_ok own → own p = Some (p, o, true) → own b = Some (b, o, true) → o < MAX_ORDER →
  (p = base ∧ b = base + 2 ^ o) ∨ (p = base + 2 ^ o ∧ b = base) → (2 ^ (o + 1) | base) →
  (nblocks (merged_own base o own) < nblocks own)%nat.
Proof.
  intros Hw Hp Hb Ho Hc Ha. destruct (merged_own_ok _ _ _ _ _ Hw Hp Hb Ho Hc Ha) as (_ & _ & Heq).
  pose proof (ow_order _ Hw _ _ _ _ Hp). pose proof (pow2_pos o ltac:(lia)).
  pose proof (ow_range _ Hw _ _ _ _ Hp). pose proof (ow_range _ Hw _ _ _ _ Hb).
  assert (2 ^ (o + 1) = 2 ^ o + 2 ^ o) as Hpow2 by (rewrite Z.pow_add_r by lia; lia).
  assert (own base = Some (base, o, true) ∧ own (base + 2 ^ o) = Some (base + 2 ^ o, o, true)) as [Hl Hr]
    by (destruct Hc as [[-> ->]|[-> ->]]; done).
  apply (length_filter_strict _ _ _ (base + 2 ^ o)).
  - intros y. unfold is_base. rewrite Heq. case_decide as Hd; [intros ->; by rewrite Hl|done].
  - apply elem_of_seqZ. lia.
  - unfold is_base. by rewrite Hr.
  - unfold is_base. rewrite Heq, decide_True by lia. lia.
Qed.

(** No free buddy of the same order: the block cannot grow. *)
Definition lone (own : ownership) (p o : Z) : Prop :=
  o = MAX_ORDER ∨ let b := Z.lxor p (Z.shiftl 1 o) in own b ≠ Some (b, o, true).

Definition merge_post (own : ownership) (fl : Z → list Z) (s : mm) (p o : Z)
    (own' : ownership) (fl' : Z → list Z) (s' : mm) (r : Z) : Prop :=
  Inv own' fl' s' ∧ keeps own own' ∧ meta s' = meta s ∧ flags_grow s s' ∧ frame own s s' ∧
  ∃ o', own' r = Some (r, o', true) ∧ lone own' r o' ∧
        (∀ x, own x = Some (p, o, true) → own' x = Some (r, o', true)) ∧
        ((r = p ∧ own' = own ∧ fl' = fl ∧ s' = s) ∨
         ((nblocks own' < nblocks own)%nat ∧ o < o' ∧ ∃ l, fl' o' = r :: l)).

Lemma buddy_merge_rec_spec fuel own fl s p o :
  Inv own fl s → own p = Some (p, o, true) → MAX_ORDER - o < Z.of_nat fuel →
  ∃ own' fl' s' r, buddy_merge_rec fuel p s = Some (r, s') ∧ merge_post own fl s p o own' fl' s' r.
Proof.
  revert own fl s p o. induction fuel as [|fuel IH]; intros own fl s p o HI Hp Hf;
    destruct (inv_base _ _ _ _ _ _ HI Hp) as [Hor Hpr]; [lia|].
  pose proof (iv_desc _ _ _ HI _ _ _ Hp) as Dp.
  assert (∀ r, lone own p o → r = Some (p, s) →
     ∃ own' fl' s' q, r = Some (q, s') ∧ merge_post own fl s p o own' fl' s' q) as Hstop.
  { intros r Hl ->. exists own, fl, s, p. split; [done|]. split_and!; [done|apply keeps_refl|done|by intros x|apply frame_refl|].
    exists o. split_and!; [done|done|done|by left]. }
  cbn [buddy_merge_rec]. run (ldp_ok order p s Hpr). rewrite (de_order _ _ _ _ Dp).
  destruct (Z.leb_spec MAX_ORDER o) as [Hmax|Hlt]; [apply Hstop; [left; lia|done]|].
  destruct (buddy_cases p o) as (base & Ha & Hc); [lia|by eapply ow_align; [apply HI|]|].
  unfold get_buddy. remember (Z.lxor p (Z.shiftl 1 o)) as b eqn:Hbdef.
  pose proof (pow2_pos o ltac:(lia)) as Hpow.
  assert (own b ≠ Some (b, o, true) → lone own p o) as Hlone by (intros ?; right; by rewrite <- Hbdef).
  destruct (Z.leb_spec BUDDY_MAX_PAGES b) as [Hbmax|Hbr].
  { apply Hstop; [|done]. apply Hlone. intros E.
    destruct (inv_base _ _ _ _ _ _ HI E) as [_ ?]. lia. }
  assert (0 ≤ b < BUDDY_MAX_PAGES) as Hb.
  { split; [|done]. destruct Ha as [q ->]. pose proof (pow2_pos (o+1) ltac:(lia)).
    assert (2 ^ (o + 1) = 2 ^ o + 2 ^ o) as H2 by (rewrite Z.pow_add_r by lia; lia).
    rewrite H2 in *. assert (0 ≤ q) by (destruct Hc as [[? _]|[? _]]; nia). destruct Hc as [[_ ->]|[_ ->]]; nia. }
  run (ldp_ok flags b s Hb).
  destruct (has (flags (pg s b)) PAGE_FLAG_FREE) eqn:Hfree; cbn [negb];
    [|apply Hstop; [|done]; apply Hlone; intros E; by rewrite (de_free _ _ _ _ (iv_desc _ _ _ HI _ _ _ E)) in Hfree].
  run (ldp_ok order b s Hb).
  destruct (Z.eqb_spec (order (pg s b)) o) as [Hbo|Hbo]; cbn [negb];
    [|apply Hstop; [|done]; apply Hlone; intros E; by apply Hbo, (de_order _ _ _ _ (iv_desc _ _ _ HI _ _ _ E))].
  assert (own b = Some (b, o, true)) as Eb.
  { destruct (own b) as [[[c o'] f']|] eqn:E; [|by rewrite (iv_none _ _ _ HI _ E) in Hfree].
    destruct (buddy_block own p o true b c o' f') as [-> _]; [apply HI|done..|].
    pose proof (iv_desc _ _ _ HI _ _ _ E) as [H1 _ H3 _]. rewrite Hfree in H1. rewrite Hbo in H3.
    by subst f' o'. }
  assert ((p = base ∧ b = base + 2 ^ o) ∨ (p = base + 2 ^ o ∧ b = base)) as Hcase by (subst b; tauto).
  assert ((if p <? b then p else b) = base) as -> by (destruct (Z.ltb_spec p b); lia).
  destruct (merge_step own fl s p b o base (buddy_merge_rec fuel base) HI Hp Eb Hlt Hcase Ha)
    as (s1 & fl1 & R & I1 & M1 & G1 & F1 & l & Hl).
  rewrite R. destruct (merged_own_ok own p b o base) as (_ & Hk & Heq); [apply HI|done..|].
  assert (merged_own base o own base = Some (base, o + 1, true)) as Hbase.
  { rewrite Heq. apply decide_True. pose proof (pow2_pos (o + 1) ltac:(lia)). lia. }
  assert (nblocks (merged_own base o own) < nblocks own)%nat as Hnb
    by (apply (merged_fewer own p b o base); [apply HI|done..]).
  destruct (IH _ _ _ _ _ I1 Hbase) as (own' & fl' & s' & r & R' & I' & K' & M' & G' & F' & o' & Hr & Hlr & Hin & Hor');
    [lia|].
  exists own', fl', s', r. split; [done|]. split; [done|]. split; [by eapply keeps_trans|].
  split; [congruence|]. split; [intros x Hx; by apply G', G1|]. split; [by eapply frame_trans|]. exists o'. split_and!; [done|done| |].
  { intros x Hx. apply Hin. rewrite Heq. apply decide_True.
    pose proof (ow_in _ (iv_own _ _ _ HI) _ _ _ _ Hx) as Hxin. unfold in_block in Hxin.
    assert (2 ^ (o + 1) = 2 ^ o + 2 ^ o) by (rewrite Z.pow_add_r by lia; lia). lia. }
  right.
  destruct Hor' as [(-> & -> & -> & ->)|(Hn & Ho' & Hl')].
  - rewrite Hbase in Hr. injection Hr as <-. split_and!; [done|lia|by exists l].
  - split_and!; [lia|lia|done].
Qed.
