(* ===== verification/BuddyOps.v ===== *)
(** * kernel/mem.c: alloc_pages and free_pages preserve the buddy invariant and
    hand out blocks that no one else owns. *)
From S2P Require Import Prelude Buddy BuddyLists BuddyInv.
Local Open Scope Z_scope.
Local Open Scope kernel_scope.

Lemma view_head fl s o : view fl s → 0 ≤ o ≤ MAX_ORDER → free_area s !! o = head (fl o).
Proof.
  intros HV Ho. pose proof (vw_list _ _ HV o Ho) as Hl. destruct (fl o); [done|]. by destruct Hl.
Qed.

Lemma head_in fl (o p : Z) : head (fl o) = Some p → p ∈ fl o.
Proof. destruct (fl o) as [|x l]; intros [=]. subst. left. Qed.

(** ** buddy_split *)
Definition split_own (p o : Z) (own : ownership) : ownership :=
  patch p (2 ^ o) (patch p (2 ^ (o - 1)) (block p (o - 1) true)
                         (block (p + 2 ^ (o - 1)) (o - 1) true)) own.

Lemma split_own_ok own p o :
  own_ok own → own p = Some (p, o, true) → 0 < o →
  own_ok (split_own p o own) ∧ keeps own (split_own p o own) ∧
  (∀ x, split_own p o own x =
        if decide (p ≤ x < p + 2 ^ (o - 1)) then Some (p, o - 1, true)
        else if decide (p + 2 ^ (o - 1) ≤ x < p + 2 ^ o) then Some (p + 2 ^ (o - 1), o - 1, true)
        else own x).
Proof.
  intros Hw Hp Ho. pose proof (ow_order _ Hw _ _ _ _ Hp). pose proof (ow_range _ Hw _ _ _ _ Hp).
  pose proof (ow_align _ Hw _ _ _ _ Hp) as Ha. pose proof (pow2_pos (o - 1) ltac:(lia)).
  assert (2 ^ o = 2 ^ (o - 1) + 2 ^ (o - 1)) as H2.
  { replace (2 ^ o) with (2 ^ (o - 1 + 1)) by (f_equal; lia). rewrite Z.pow_add_r by lia. lia. }
  assert (2 ^ (o - 1) | p) as Ha1 by (apply (Z.divide_trans _ (2 ^ o)); [apply pow2_divide; lia|done]).
  assert (∀ x, split_own p o own x =
        if decide (p ≤ x < p + 2 ^ (o - 1)) then Some (p, o - 1, true)
        else if decide (p + 2 ^ (o - 1) ≤ x < p + 2 ^ o) then Some (p + 2 ^ (o - 1), o - 1, true)
        else own x) as Heq.
  { intros x. unfold split_own, patch, block. repeat case_decide; done || lia. }
  assert (own_ok (block p (o - 1) true)) as Hl by (apply block_ok; lia || done).
  assert (own_ok (block (p + 2 ^ (o - 1)) (o - 1) true)) as Hr.
  { apply block_ok; try lia. apply Z.divide_add_r; [done|apply Z.divide_refl]. }
  assert (∀ b f' f x c q, block (p + 2 ^ (o - 1)) (o - 1) f x = Some (b, q, f') → p ≤ x < p + c →
    c ≤ 2 ^ (o - 1) → False) as Hrt by (intros b f' f x c q; unfold block; case_decide; [lia|done]).
  split_and!; [|intros x; rewrite Heq|exact Heq].
  - apply patch_ok; [done|apply patch_ok|by eapply whole_block|]; [done|done| |apply whole_one|].
    + intros x b q f Hx Hin. exfalso. by eapply Hrt; [exact Hx|exact Hin|].
    + intros x b q f. unfold patch, block. repeat case_decide; intros [= <- <- <-]; lia.
  - repeat case_decide; [| |destruct (own x) as [[[? ?] []]|]; eauto];
      (rewrite (ow_block _ Hw _ _ _ _ Hp); [eauto|unfold in_block; lia]).
Qed.

Lemma split_lists fl o p r x o' :
  let fl1 := lupd fl o (without p (fl o)) in
  let fl2 := lupd fl1 (o - 1) (p :: fl1 (o - 1)) in
  x ∈ lupd fl2 (o - 1) (r :: fl2 (o - 1)) o' ↔
  (o' = o - 1 ∧ (x = p ∨ x = r)) ∨ (x ∈ fl o' ∧ ¬ (o' = o ∧ x = p)).
Proof.
  cbn zeta. rewrite in_lupd, elem_of_cons, !in_lupd, !elem_of_cons, !in_lupd, !elem_of_without.
  assert (o - 1 ≠ o) by lia.
  destruct (decide (o' = o - 1)) as [->|]; [|destruct (decide (o' = o)) as [->|]]; tauto.
Qed.

Lemma buddy_split_spec own fl s p o :
  Inv own fl s → head (fl o) = Some p → 0 < o →
  ∃ s' fl', buddy_split o s = Some (Some p, s') ∧ Inv (split_own p o own) fl' s' ∧
    meta s' = meta s ∧ fl' (o - 1) ≠ [] ∧ frame own s s'.
Proof.
  intros HI Hh Ho. pose proof (head_in _ _ _ Hh) as Hin.
  pose proof (proj1 (iv_free _ _ _ HI _ _) Hin) as Hp.
  destruct (inv_base _ _ _ _ _ _ HI Hp) as [Hor Hpr].
  destruct (split_own_ok own p o) as (Hw' & Hk & Heq); [apply HI|done..|].
  pose proof (ow_range _ (iv_own _ _ _ HI) _ _ _ _ Hp) as Hrange.
  pose proof (pow2_pos (o - 1) ltac:(lia)) as Hpow.
  assert (2 ^ o = 2 ^ (o - 1) + 2 ^ (o - 1)) as H2.
  { replace (2 ^ o) with (2 ^ (o - 1 + 1)) by (f_equal; lia). rewrite Z.pow_add_r by lia. lia. }
  set (h := 2 ^ (o - 1)) in *.
  assert (∀ x, p ≤ x < p + 2 ^ o → own x = Some (p, o, true)) as Hblk
    by (apply (ow_block _ (iv_own _ _ _ HI) _ _ _ _ Hp)).
  destruct (list_del_spec fl s o p (iv_view _ _ _ HI) Hin) as (s1 & R1 & V1 & T1).
  unfold buddy_split. destruct (Z.eqb_spec o 0); [lia|]. destruct (Z.ltb_spec MAX_ORDER o); [lia|]. cbn [orb].
  run (ld_head_ok o s Hor). rewrite (view_head _ _ _ (iv_view _ _ _ HI)), Hh by done. run R1.
  rewrite Z.shiftl_1_l. fold h.
  run (stp_ok p (fresh_free p (o - 1)) s1 Hpr).
  set (s2 := set_pages (<[p := fresh_free p (o - 1) (pg s1 p)]> (page_array s1)) s1).
  assert (0 ≤ p + h < BUDDY_MAX_PAGES) as Hrr by lia.
  run (stp_ok (p + h) (fresh_free (p + h) (o - 1)) s2 Hrr).
  set (s3 := set_pages (<[p + h := fresh_free (p + h) (o - 1) (pg s2 (p + h))]> (page_array s2)) s2).
  pose proof (view_store _ s1 p (fresh_free p (o - 1)) V1 (next_fresh _ _ _)) as V2. fold s2 in V2.
  pose proof (view_store _ s2 (p + h) (fresh_free (p + h) (o - 1)) V2 (next_fresh _ _ _)) as V3. fold s3 in V3.
  destruct (list_add_spec _ s3 (o - 1) p V3) as (s4 & R4 & V4 & T4); [lia|done| |].
  { intros o' Hx. rewrite in_lupd, elem_of_without in Hx.
    destruct Hx as [(_ & ? & _)|[Hne Hx]]; [done|]. apply (iv_free _ _ _ HI) in Hx. congruence. }
  run R4. destruct (list_add_spec _ s4 (o - 1) (p + h) V4) as (s5 & R5 & V5 & T5); [lia|done| |].
  { intros o' Hx. assert (p + h ∈ fl o') as Hx'.
    { rewrite in_lupd, elem_of_cons, !in_lupd, elem_of_without in Hx.
      assert (o - 1 ≠ o) by lia. destruct Hx as [(-> & [?|Hx])|(_ & Hx)]; [lia|tauto|].
      destruct Hx as [(-> & _ & Hx)|(_ & Hx)]; done. }
    apply (iv_free _ _ _ HI) in Hx'. rewrite Hblk in Hx' by lia. injection Hx'. lia. }
  run R5. match type of V5 with view ?fl5 _ => exists s5, fl5 end. split; [reflexivity|].
  pose proof (touch_trans _ _ _ T4 T5) as [T45 M45]. destruct T1 as [T1 M1].
  assert (∀ x, x ≠ p → x ≠ p + h → strip (pg s5 x) = strip (pg s x)) as Hsame.
  { intros x Hne1 Hne2. rewrite T45. unfold s3, s2. rewrite !pg_set_ne by done. by rewrite T1. }
  split; [|split_and!; [rewrite M45; exact M1|by rewrite lupd_eq|]];
    [|intros x Hnf; apply Hsame; intros ->; eapply Hnf; apply Hblk; lia].
  assert (total_phys_pages s5 = total_phys_pages s) as Htot by (apply meta_total; rewrite M45; exact M1).
  constructor; [exact V5|done|rewrite Htot; apply HI|..].
  - intros x u. rewrite Htot, Heq. repeat case_decide; [intros _..|by apply HI];
      (eapply (iv_managed _ _ _ HI); apply Hblk; lia).
  - intros o' x. rewrite split_lists, Heq, (iv_free _ _ _ HI). repeat case_decide; split.
    + intros [[-> [->| ->]]|[E Hn]]; [done|lia|]. rewrite Hblk in E by lia. simplify_eq. tauto.
    + intros [= -> ->]. tauto.
    + intros [[-> [->| ->]]|[E Hn]]; [lia|done|]. rewrite Hblk in E by lia. simplify_eq. lia.
    + intros [= -> ->]. tauto.
    + intros [[-> [->| ->]]|[E Hn]]; [lia..|done].
    + intros E. right. split; [done|]. intros [-> ->]. lia.
  - intros x o' f. rewrite Heq. repeat case_decide.
    + intros [= <- <- <-]. eapply desc_strip; [apply T45|]. unfold s3, s2.
      rewrite pg_set_ne, pg_set_eq by lia. apply desc_fresh.
    + intros [= <- <- <-]. eapply desc_strip; [apply T45|]. unfold s3. rewrite pg_set_eq. apply desc_fresh.
    + intros E. eapply desc_strip; [apply Hsame; lia|]. by apply HI.
  - intros x. rewrite Heq. repeat case_decide; [done..|]. intros E.
    rewrite (flags_strip (pg s x)) by (apply Hsame; lia). by apply HI.
Qed.

(** ** The search for a block and the splits *)
Lemma find_order_spec fuel own fl s c :
  Inv own fl s → 0 ≤ c ≤ MAX_ORDER + 1 → MAX_ORDER + 1 - c < Z.of_nat fuel →
  ∃ c', find_order fuel c s = Some (c', s) ∧ c ≤ c' ∧
        (∀ o x, c ≤ o < c' → own x ≠ Some (x, o, true)) ∧ (c' ≤ MAX_ORDER → fl c' ≠ []).
Proof.
  revert c. induction fuel as [|fuel IH]; intros c HI Hc Hf.
  - lia.
  - cbn [find_order]. destruct (Z.ltb_spec MAX_ORDER c) as [Hm|Hm].
    { exists c. split; [done|]. split; [lia|]. split; [intros; lia|lia]. }
    run (ld_head_ok c s (conj (proj1 Hc) Hm)). rewrite (view_head _ _ _ (iv_view _ _ _ HI)) by lia.
    destruct (fl c) as [|x l] eqn:E; cbn [head].
    + destruct (IH (c + 1)) as (c' & R & Hle & Hno & Hne); [done|lia..|].
      exists c'. split_and!; [done|lia| |done]. intros o y Ho Hy.
      destruct (decide (o = c)) as [->|]; [|by apply (Hno o y); [lia|]].
      apply (iv_free _ _ _ HI) in Hy. rewrite E in Hy. by apply elem_of_nil in Hy.
    + exists c. split_and!; [done|lia|intros; lia|by rewrite E].
Qed.

Lemma split_down_spec fuel own fl s c o :
  Inv own fl s → fl c ≠ [] → 0 ≤ o ≤ c → c - o < Z.of_nat fuel →
  ∃ own' fl' s', split_down fuel c o s = Some (tt, s') ∧ Inv own' fl' s' ∧ keeps own own' ∧
    meta s' = meta s ∧ fl' o ≠ [] ∧ frame own s s'.
Proof.
  revert own fl s c. induction fuel as [|fuel IH]; intros own fl s c HI Hne Ho Hf; [lia|].
  cbn [split_down]. destruct (Z.ltb_spec o c) as [Hlt|Hge].
  - destruct (fl c) as [|p l] eqn:E; [done|].
    destruct (buddy_split_spec own fl s p c HI) as (s1 & fl1 & R1 & I1 & M1 & N1 & F1); [by rewrite E|lia|].
    run R1. destruct (split_own_ok own p c) as (_ & Hk & _);
      [apply HI|apply (iv_free _ _ _ HI); rewrite E; left|lia|].
    destruct (IH _ _ _ (c - 1) I1 N1) as (own' & fl' & s' & R & I' & K & M & N & F); [lia..|].
    exists own', fl', s'. split_and!; [done|done|by eapply keeps_trans|congruence|done|by eapply frame_trans].
  - replace c with o in * by lia. exists own, fl, s. split_and!; [done|done|apply keeps_refl|done|done|apply frame_refl].
Qed.

(** ** Statistics *)
Definition used (own : ownership) (x : Z) : Prop :=
  match own x with Some (_, _, false) => True | _ => False end.
#[export] Instance used_dec own x : Decision (used own x).
Proof. unfold used. destruct (own x) as [[[b o] []]|]; apply _. Defined.
Definition owned (own : ownership) (x : Z) : Prop := is_Some (own x).
#[export] Instance owned_dec own x : Decision (owned own x).
Proof. apply _. Defined.

Definition pages_with (P : Z → Prop) `{!∀ x, Decision (P x)} : Z :=
  Z.of_nat (length (filter P (seqZ 0 BUDDY_MAX_PAGES))).

Lemma pages_with_bound P `{!∀ x, Decision (P x)} : 0 ≤ pages_with P ≤ BUDDY_MAX_PAGES.
Proof.
  unfold pages_with. pose proof (length_filter P (seqZ 0 BUDDY_MAX_PAGES)) as Hlen.
  rewrite length_seqZ in Hlen. assert (0 < BUDDY_MAX_PAGES) by done. lia.
Qed.

Lemma pages_with_ext P Q `{!∀ x, Decision (P x), !∀ x, Decision (Q x)} :
  (∀ x, P x ↔ Q x) → pages_with P = pages_with Q.
Proof. intros HPQ. unfold pages_with. do 2 f_equal. by apply list_filter_iff. Qed.

Lemma pages_with_add P Q `{!∀ x, Decision (P x), !∀ x, Decision (Q x)} a n :
  0 ≤ a → 0 ≤ n → a + n ≤ BUDDY_MAX_PAGES →
  (∀ x, Q x ↔ P x ∨ a ≤ x < a + n) → (∀ x, a ≤ x < a + n → ¬ P x) →
  pages_with Q = pages_with P + n.
Proof.
  intros Ha Hn Hr HQ HP. unfold pages_with.
  assert (filter Q (seqZ 0 BUDDY_MAX_PAGES) ≡ₚ filter P (seqZ 0 BUDDY_MAX_PAGES) ++ seqZ a n) as ->.
  { apply NoDup_Permutation.
    - apply NoDup_filter, NoDup_seqZ.
    - apply NoDup_app. split_and!; [apply NoDup_filter, NoDup_seqZ| |apply NoDup_seqZ].
      intros x [Hx _]%list_elem_of_filter Hin%elem_of_seqZ. by apply (HP x).
    - intros x. rewrite elem_of_app, !list_elem_of_filter, !elem_of_seqZ, HQ.
      split; [tauto|]. intros [[? ?]|?]; [tauto|]. split; [by right|lia]. }
  rewrite length_app, length_seqZ. lia.
Qed.

Lemma keeps_used own own' x : keeps own own' → used own' x ↔ used own x.
Proof.
  intros H. specialize (H x). unfold used. destruct (own x) as [[[b o] []]|].
  - destruct H as (b' & o' & ->). done.
  - by rewrite H.
  - by rewrite H.
Qed.
Lemma keeps_owned own own' x : keeps own own' → owned own' x ↔ owned own x.
Proof.
  intros H. specialize (H x). unfold owned. destruct (own x) as [[[b o] []]|].
  - destruct H as (b' & o' & ->). by split; eauto.
  - by rewrite H.
  - by rewrite H.
Qed.

(** The invariant with the page counters. *)
Record Buddy (own : ownership) (s : mm) : Prop := mk_Buddy {
  bd_inv : ∃ fl, Inv own fl s;
  bd_used : stat_used_pages s = pages_with (used own);
  bd_total : stat_total_pages s = pages_with (owned own)
}.

(** ** Changing who owns a block *)
Definition switch (p o : Z) (f : bool) (own : ownership) : ownership :=
  patch p (2 ^ o) (block p o f) own.

Lemma switch_ok own p o f f' :
  own_ok own → own p = Some (p, o, f) →
  own_ok (switch p o f' own) ∧
  (∀ x, switch p o f' own x = if decide (p ≤ x < p + 2 ^ o) then Some (p, o, f') else own x) ∧
  (∀ x, p ≤ x < p + 2 ^ o → own x = Some (p, o, f)).
Proof.
  intros Hw Hp. pose proof (ow_order _ Hw _ _ _ _ Hp). pose proof (ow_range _ Hw _ _ _ _ Hp).
  pose proof (ow_align _ Hw _ _ _ _ Hp). split_and!.
  - apply patch_ok; [done|apply block_ok; lia || done|by eapply whole_block|apply whole_one].
  - intros x. unfold switch, patch, block. by case_decide.
  - apply (ow_block _ Hw _ _ _ _ Hp).
Qed.

Lemma stp3 {A} fl s p g1 g2 g3 (k : MM A) :
  view fl s → 0 ≤ p < BUDDY_MAX_PAGES →
  (∀ d, next (g1 d) = next d) → (∀ d, next (g2 d) = next d) → (∀ d, next (g3 d) = next d) →
  ∃ s', (stp p g1 ;;; stp p g2 ;;; stp p g3 ;;; k) s = k s' ∧ view fl s' ∧ meta s' = meta s ∧
    pg s' p = g3 (g2 (g1 (pg s p))) ∧ ∀ x, x ≠ p → pg s' x = pg s x.
Proof.
  intros HV Hp H1 H2 H3.
  set (st g s := set_pages (<[p := g (pg s p)]> (page_array s)) s).
  assert (∀ g s, stp p g s = Some (tt, st g s)) as Hst by (intros; by apply stp_ok).
  exists (st g3 (st g2 (st g1 s))). split; [|split; [|split; [|split]]].
  - run (Hst g1 s). run (Hst g2 (st g1 s)). run (Hst g3 (st g2 (st g1 s))). done.
  - apply view_store; [|by apply H3]. apply view_store; [|by apply H2]. by apply view_store; [|apply H1].
  - done.
  - unfold st. by rewrite !pg_set_eq.
  - intros x Hx. unfold st. by rewrite !pg_set_ne.
Qed.

(** A counter or RAM update does not touch the allocator. *)
Lemma inv_meta own fl s s' :
  Inv own fl s → page_array s' = page_array s → free_area s' = free_area s →
  total_phys_pages s' = total_phys_pages s → Inv own fl s'.
Proof.
  destruct s, s'. simpl. intros [[H1 H2 H3 H4] ? ? ? ? ? ?] -> -> ->.
  constructor; done.
Qed.

Lemma flags_alloc d : has (Z.ldiff (flags d) PAGE_FLAG_FREE) PAGE_FLAG_FREE = false ∧
  has (Z.ldiff (flags d) PAGE_FLAG_FREE) PAGE_FLAG_RESERVED = has (flags d) PAGE_FLAG_RESERVED.
Proof.
  unfold has. rewrite !Z.ldiff_land, <- !Z.land_assoc. split; [|done].
  by rewrite Z.land_comm.
Qed.
Lemma flags_free d : has (Z.lor (flags d) PAGE_FLAG_FREE) PAGE_FLAG_FREE = true ∧
  has (Z.lor (flags d) PAGE_FLAG_FREE) PAGE_FLAG_RESERVED = has (flags d) PAGE_FLAG_RESERVED.
Proof.
  unfold has. rewrite !Z.land_lor_distr_l. split.
  - change (Z.land PAGE_FLAG_FREE PAGE_FLAG_FREE) with 1.
    destruct (Z.eqb_spec (Z.lor (Z.land (flags d) PAGE_FLAG_FREE) 1) 0) as [E|]; [|done].
    apply Z.lor_eq_0_iff in E as [_ E]. done.
  - change (Z.land PAGE_FLAG_FREE PAGE_FLAG_RESERVED) with 0. by rewrite Z.lor_0_r.
Qed.

(** Taking the head block off its list. *)
Lemma take_block {A} own fl s p o g1 g2 g3 (k : MM A) :
  Inv own fl s → own p = Some (p, o, true) →
  (∀ d, next (g1 d) = next d) → (∀ d, next (g2 d) = next d) → (∀ d, next (g3 d) = next d) →
  (∀ d, desc true p o d → desc false p o (g3 (g2 (g1 d)))) →
  ∃ s' fl', (list_del o p ;;; stp p g1 ;;; stp p g2 ;;; stp p g3 ;;; k) s = k s' ∧
    Inv (switch p o false own) fl' s' ∧ meta s' = meta s ∧
    (∃ d, pg s' p = g3 (g2 (g1 d))) ∧ (∀ x, x ≠ p → strip (pg s' x) = strip (pg s x)).
Proof.
  intros HI Hp H1 H2 H3 Hg. destruct (inv_base _ _ _ _ _ _ HI Hp) as [Ho Hpr].
  destruct (switch_ok own p o true false) as (Hw' & Heq & Hblk); [apply HI|done|].
  pose proof (pow2_pos o ltac:(lia)).
  destruct (list_del_spec fl s o p (iv_view _ _ _ HI)) as (s1 & R1 & V1 & [T1 M1]);
    [by apply (iv_free _ _ _ HI)|].
  destruct (stp3 _ s1 p g1 g2 g3 k V1 Hpr H1 H2 H3) as (s2 & R2 & V2 & M2 & P2 & N2).
  assert (∀ x, x ≠ p → strip (pg s2 x) = strip (pg s x)) as Hsame by (intros x Hx; by rewrite N2).
  exists s2, (lupd fl o (without p (fl o))). split; [by run R1|].
  split; [|split; [congruence|split; [by eexists|exact Hsame]]].
  assert (total_phys_pages s2 = total_phys_pages s) as Htot by (apply meta_total; congruence).
  constructor; [done|done|rewrite Htot; apply HI|..].
  - intros x u. rewrite Htot, Heq. case_decide; [|apply HI]. intros _. eapply (iv_managed _ _ _ HI). by apply Hblk.
  - intros o' x. rewrite in_lupd, elem_of_without, !(iv_free _ _ _ HI), Heq. case_decide as Hd.
    + rewrite Hblk by done. split; [|done]. intros [(-> & Hne & E)|[Hne E]]; simplify_eq.
    + split; [intros [(-> & _ & E)|[_ E]]; done|]. intros E. destruct (decide (o' = o)); [left|tauto]. split_and!; [done|lia|by subst].
  - intros x o' f. rewrite Heq. case_decide.
    + intros [= <- <- <-]. rewrite P2. apply Hg. eapply desc_strip; [apply T1|by apply HI].
    + intros E. eapply desc_strip; [apply Hsame; lia|]. by apply HI.
  - intros x. rewrite Heq. case_decide; [done|]. intros E.
    rewrite (flags_strip (pg s x)) by (apply Hsame; lia). by apply HI.
Qed.

(** Putting a used block on its list. *)
Lemma put_block {A} own fl s p o g1 g2 g3 (k : MM A) :
  Inv own fl s → own p = Some (p, o, false) →
  (∀ d, next (g1 d) = next d) → (∀ d, next (g2 d) = next d) → (∀ d, next (g3 d) = next d) →
  (∀ d, desc false p o d → desc true p o (g3 (g2 (g1 d)))) →
  ∃ s' fl', (stp p g1 ;;; stp p g2 ;;; stp p g3 ;;; list_add o p ;;; k) s = k s' ∧
    Inv (switch p o true own) fl' s' ∧ meta s' = meta s ∧
    (∃ d, strip (pg s' p) = strip (g3 (g2 (g1 d)))) ∧ (∀ x, x ≠ p → strip (pg s' x) = strip (pg s x)).
Proof.
  intros HI Hp H1 H2 H3 Hg. destruct (inv_base _ _ _ _ _ _ HI Hp) as [Ho Hpr].
  destruct (switch_ok own p o false true) as (Hw' & Heq & Hblk); [apply HI|done|].
  pose proof (pow2_pos o ltac:(lia)).
  destruct (stp3 _ s p g1 g2 g3 (list_add o p ;;; k) (iv_view _ _ _ HI) Hpr H1 H2 H3) as (s1 & R1 & V1 & M1 & P1 & N1).
  destruct (list_add_spec _ s1 o p V1 Ho Hpr) as (s2 & R2 & V2 & [T2 M2]).
  { intros o' Hin. apply (iv_free _ _ _ HI) in Hin. congruence. }
  assert (∀ x, x ≠ p → strip (pg s2 x) = strip (pg s x)) as Hsame by (intros x Hx; by rewrite T2, N1).
  exists s2, (lupd fl o (p :: fl o)). split; [rewrite R1; by run R2|].
  split; [|split; [congruence|split; [eexists; by rewrite T2, P1|exact Hsame]]].
  assert (total_phys_pages s2 = total_phys_pages s) as Htot by (apply meta_total; congruence).
  constructor; [done|done|rewrite Htot; apply HI|..].
  - intros x u. rewrite Htot, Heq. case_decide; [|apply HI]. intros _. eapply (iv_managed _ _ _ HI). by apply Hblk.
  - intros o' x. rewrite in_lupd, elem_of_cons, !(iv_free _ _ _ HI), Heq. case_decide as Hd.
    + rewrite Hblk by done. split; [|intros [= -> ->]; tauto].
      intros [(-> & [->|?])|[Hne E]]; simplify_eq; done.
    + destruct (decide (o' = o)) as [->|]; [|tauto]. split; [|tauto]. intros [(_ & [->|?])|?]; [lia|tauto..].
  - intros x o' f. rewrite Heq. case_decide.
    + intros [= <- <- <-]. eapply desc_strip; [apply T2|]. rewrite P1. apply Hg. by apply HI.
    + intros E. eapply desc_strip; [apply Hsame; lia|]. by apply HI.
  - intros x. rewrite Heq. case_decide; [done|]. intros E.
    rewrite (flags_strip (pg s x)) by (apply Hsame; lia). by apply HI.
Qed.
