(* ===== verification/BuddySpec.v ===== *)
(** * kernel/mem.c: the contract of the page allocator. *)
From S2P Require Import Prelude Buddy BuddyLists BuddyInv BuddyOps.
Local Open Scope Z_scope.
Local Open Scope kernel_scope.

Definition is_free (own : ownership) (x : Z) : Prop := ∃ b q, own x = Some (b, q, true).

(** [alloc_pages] turned the free block [p] of order [o] into a used one. *)
Definition allocated (own own' : ownership) (p o : Z) : Prop :=
  (2 ^ o | p) ∧
  (∀ x, in_block p o x → is_free own x ∧ own' x = Some (p, o, false)) ∧
  (∀ x, ¬ in_block p o x → (is_free own x ∧ is_free own' x) ∨ (¬ is_free own x ∧ own' x = own x)).

(** [free_pages] turned the used block [p] of order [o] into free pages. *)
Definition freed (own own' : ownership) (p o : Z) : Prop :=
  (∀ x, in_block p o x → is_free own' x) ∧
  (∀ x, ¬ in_block p o x → (is_free own x ∧ is_free own' x) ∨ (¬ is_free own x ∧ own' x = own x)).

Lemma keeps_free own own' x :
  keeps own own' → (is_free own x ∧ is_free own' x) ∨ (¬ is_free own x ∧ own' x = own x).
Proof.
  intros H. specialize (H x). unfold is_free. destruct (own x) as [[[b q] []]|].
  - left. eauto.
  - right. split; [by intros (? & ? & ?)|done].
  - right. split; [by intros (? & ? & ?)|done].
Qed.
Lemma keeps_is_free own own' x : keeps own own' → is_free own' x ↔ is_free own x.
Proof. intros H. destruct (keeps_free _ _ x H) as [[? ?]|[Hn E]]; [tauto|]. unfold is_free. by rewrite E. Qed.

Lemma base_addr own fl s p o f :
  Inv own fl s → own p = Some (p, o, f) →
  phys_mem_base ≤ pfn_to_phys p < KERNEL_PHYS_MAX ∧ phys_to_pfn (pfn_to_phys p) = p.
Proof.
  intros HI Hp. destruct (inv_base _ _ _ _ _ _ HI Hp) as [_ Hpr].
  assert (BUDDY_MAX_PAGES = 65536) as HB by done.
  unfold phys_to_pfn, pfn_to_phys, phys_mem_base, PAGE_SIZE, KERNEL_PHYS_MAX in *.
  split; [lia|]. destruct (Z.ltb_spec (1048576 + p * 4096) 1048576); [lia|].
  replace (1048576 + p * 4096 - 1048576) with (p * 4096) by lia. by apply Z.div_mul.
Qed.

(** Words of memory are no part of the invariant. *)
Lemma Buddy_ram own s r : Buddy own s → Buddy own (set_ram r s).
Proof. intros [[fl HI] Hu Ht]. constructor; [exists fl; by eapply inv_meta|done|done]. Qed.

(** ** alloc_pages *)
Lemma alloc_pages_run own fl s o :
  Inv own fl s → 0 ≤ o ≤ MAX_ORDER → stat_used_pages s = pages_with (used own) →
  (alloc_pages o s = Some (None, s) ∧ ∀ q x, o ≤ q → own x ≠ Some (x, q, true)) ∨
  (∃ own1 p fl' s', alloc_pages o s = Some (Some (pfn_to_phys p), s') ∧ keeps own own1 ∧ own_ok own1 ∧
     own1 p = Some (p, o, true) ∧ Inv (switch p o false own1) fl' s' ∧
     stat_used_pages s' = stat_used_pages s + 2 ^ o ∧ stat_total_pages s' = stat_total_pages s ∧
     total_phys_pages s' = total_phys_pages s ∧
     ram s' = filter (λ kv, ¬ (pfn_to_phys p ≤ kv.1 < pfn_to_phys p + PAGE_SIZE * 2 ^ o)) (ram s) ∧
     refs s' p = 1 ∧ (∀ x, x ≠ p → refs s' x = refs s x) ∧ frame own s s').
Proof.
  intros HI Ho Hst. assert (MAX_ORDER = 10) as HM by done. unfold alloc_pages. destruct (Z.ltb_spec MAX_ORDER o); [lia|].
  destruct (find_order_spec 12 own fl s o HI) as (c & Rc & Hle & Hno & Hne); [lia..|]. run Rc.
  destruct (Z.ltb_spec MAX_ORDER c) as [Hc|Hc].
  { left. split; [done|]. intros q x Hq E. destruct (inv_base _ _ _ _ _ _ HI E). by apply (Hno q x); [lia|]. }
  right. destruct (split_down_spec 12 own fl s c o HI) as (own1 & fl1 & s1 & R1 & I1 & K1 & M1 & N1 & F1);
    [by apply Hne|lia..|]. run R1. run (ld_head_ok o s1 Ho).
  rewrite (view_head _ _ _ (iv_view _ _ _ I1)) by done.
  destruct (fl1 o) as [|p l] eqn:Ef; [done|]. cbn [head].
  assert (own1 p = Some (p, o, true)) as Hp by (apply (iv_free _ _ _ I1); rewrite Ef; left).
  match goal with |- context [list_del o p ;;; stp p ?g1 ;;; stp p ?g2 ;;; stp p ?g3 ;;; ?k] =>
    destruct (take_block own1 fl1 s1 p o g1 g2 g3 k I1 Hp) as (s2 & fl2 & R2 & I2 & M2 & [d2 P2] & N2); [done..| |] end.
  { intros d [D1 D2 D3 D4]. destruct (flags_alloc d). constructor; simpl; congruence. }
  rewrite R2. clear R2. destruct (inv_base _ _ _ _ _ _ I1 Hp) as [_ Hpr].
  rewrite bind_modify. set (s3 := set_used _ s2).
  assert (Inv (switch p o false own1) fl2 s3) as I3 by (by eapply inv_meta; [exact I2|..]).
  destruct (switch_ok own1 p o true false) as (_ & Hsw & _); [apply I1|done|].
  assert (switch p o false own1 p = Some (p, o, false)) as Hp3.
  { rewrite Hsw. apply decide_True. pose proof (pow2_pos o ltac:(lia)). lia. }
  destruct (base_addr _ _ _ _ _ _ I3 Hp3) as [Hpa _].
  run (ldp_ok phys_addr p s3 Hpr). rewrite (de_phys _ _ _ _ (iv_desc _ _ _ I3 _ _ _ Hp3)).
  destruct (Z.leb_spec KERNEL_PHYS_MAX (pfn_to_phys p)); [lia|].
  unfold zero_ram. rewrite bind_modify.
  assert (meta s2 = meta s) as M by congruence. injection M as Mt Me Ms Mu Mr.
  pose proof (pages_with_bound (used own)) as Hb. assert (BUDDY_MAX_PAGES = 65536) as HB by done.
  assert (0 < 2 ^ o ≤ 2 ^ 10) as Hpow by (split; [apply pow2_pos; lia|apply Z.pow_le_mono_r; lia]).
  eexists own1, p, fl2, _. split; [reflexivity|]. split_and!; [done|apply I1|done| |..].
  - by eapply inv_meta; [exact I3|..].
  - simpl. rewrite Mu, Hst, Z.shiftl_1_l. unfold u64. apply Z.mod_small. lia.
  - done.
  - done.
  - simpl. rewrite Mr. by rewrite Z.shiftl_mul_pow2 by lia.
  - change (ref_count (pg s2 p) = 1). by rewrite P2.
  - intros x Hx. change (ref_count (pg s2 x) = refs s x). rewrite (refs_strip _ _ (N2 x Hx)).
    exact (refs_split_down _ _ _ _ _ R1 x).
  - intros x Hx. rewrite <- (F1 x Hx). apply N2. intros ->. specialize (K1 p).
    destruct (own p) as [[[b q] []]|] eqn:E; [by destruct (Hx b q)|rewrite K1 in Hp; done|rewrite K1 in Hp; done].
Qed.

(** Allocation rewrites no descriptor of a page in use. *)
Lemma alloc_pages_frame own s o r s' :
  Buddy own s → 0 ≤ o ≤ MAX_ORDER → alloc_pages o s = Some (r, s') →
  ∀ x, ¬ is_free own x → strip (pg s' x) = strip (pg s x).
Proof.
  intros [[fl HI] Hu _] Ho R x Hx. destruct (alloc_pages_run own fl s o HI Ho Hu)
    as [[E _]|(own1 & p & fl' & s1 & E & _ & _ & _ & _ & _ & _ & _ & _ & _ & _ & F)]; rewrite E in R; simplify_eq; [done|].
  apply F. intros b q Hb. apply Hx. by exists b, q.
Qed.

Lemma alloc_pages_Buddy own s o :
  Buddy own s → 0 ≤ o ≤ MAX_ORDER →
  (alloc_pages o s = Some (None, s) ∧ ∀ q x, o ≤ q → own x ≠ Some (x, q, true)) ∨
  (∃ own' p s', alloc_pages o s = Some (Some (pfn_to_phys p), s') ∧ Buddy own' s' ∧
     allocated own own' p o ∧ total_phys_pages s' = total_phys_pages s ∧
     ram s' = filter (λ kv, ¬ (pfn_to_phys p ≤ kv.1 < pfn_to_phys p + PAGE_SIZE * 2 ^ o)) (ram s) ∧
     refs s' p = 1 ∧ ∀ x, x ≠ p → refs s' x = refs s x).
Proof.
  intros [[fl HI] Hu Ht] Ho. destruct (alloc_pages_run own fl s o HI Ho Hu)
    as [H|(own1 & p & fl' & s' & R & K & Hw1 & Hp & I & Su & St & Stp & Sr & Sf & Sn & _)]; [by left|right].
  pose proof (ow_order _ Hw1 _ _ _ _ Hp). pose proof (ow_range _ Hw1 _ _ _ _ Hp).
  pose proof (pow2_pos o ltac:(lia)).
  destruct (switch_ok own1 p o true false) as (_ & Hsw & Hblk); [done|done|].
  exists (switch p o false own1), p, s'. split_and!; [done| | |done..].
  - constructor; [by exists fl'| |].
    + rewrite Su, Hu. symmetry. apply (pages_with_add _ _ p); [lia..| |].
      * intros x. rewrite <- (keeps_used _ _ x K). unfold used. rewrite Hsw. case_decide; tauto.
      * intros x Hx. rewrite <- (keeps_used _ _ x K). unfold used. rewrite Hblk by done. tauto.
    + rewrite St, Ht. apply pages_with_ext. intros x. rewrite <- (keeps_owned _ _ x K).
      unfold owned. rewrite Hsw. case_decide; [|done]. rewrite Hblk by done. done.
  - split_and!; [by apply (ow_align _ Hw1 _ _ _ _ Hp)| |].
    + intros x Hx. split; [|rewrite Hsw; by apply decide_True].
      apply (keeps_is_free _ _ _ K). exists p, o. by apply Hblk.
    + intros x Hx. unfold is_free at 2. rewrite !Hsw, decide_False by done. by apply keeps_free.
Qed.

(** ** free_pages *)
Lemma free_pages_Buddy own s p o :
  Buddy own s → own p = Some (p, o, false) →
  ∃ own' s', free_pages (pfn_to_phys p) o s = Some (tt, s') ∧ Buddy own' s' ∧ freed own own' p o ∧
     total_phys_pages s' = total_phys_pages s ∧ ram s' = ram s ∧
     has (flags (pg s' p)) PAGE_FLAG_FREE = true ∧
     (∃ r q, own' r = Some (r, q, true) ∧ in_block r q p ∧ lone own' r q) ∧
     refs s' p = 0 ∧ (∀ x, x ≠ p → refs s' x = refs s x) ∧
     (∀ x, ¬ is_free own x → ¬ in_block p o x → strip (pg s' x) = strip (pg s x)).
Proof.
  intros [[fl HI] Hu Ht] Hp. destruct (inv_base _ _ _ _ _ _ HI Hp) as [Ho Hpr].
  destruct (base_addr _ _ _ _ _ _ HI Hp) as [Hpa Hpfn].
  pose proof (iv_desc _ _ _ HI _ _ _ Hp) as Dp. pose proof (iv_managed _ _ _ HI _ _ Hp) as Hman.
  assert (MAX_ORDER = 10) as HM by done. assert (BUDDY_MAX_PAGES = 65536) as HB by done.
  unfold free_pages. unfold phys_mem_base in Hpa.
  destruct (Z.eqb_spec (pfn_to_phys p) 0); [lia|].
  destruct (Z.ltb_spec MAX_ORDER o); [lia|].
  destruct (Z.ltb_spec (pfn_to_phys p) phys_mem_base); [unfold phys_mem_base in *; lia|].
  rewrite bind_gets, Hpfn. destruct (Z.eqb_spec p (2 ^ 64 - 1)); [lia|].
  destruct (Z.leb_spec (total_phys_pages s) p); [lia|]. cbn [orb].
  run (ldp_ok flags p s Hpr). rewrite (de_reserved _ _ _ _ Dp), (de_free _ _ _ _ Dp).
  match goal with |- context [(stp p ?g1 ;;; stp p ?g2 ;;; stp p ?g3 ;;; list_add o p ;;; ?k) s] =>
    destruct (put_block own fl s p o g1 g2 g3 k HI Hp) as (s1 & fl1 & R1 & I1 & M1 & [d1 P1] & N1); [done..| |] end.
  { intros d [D1 D2 D3 D4]. destruct (flags_free d). constructor; simpl; congruence. }
  rewrite R1. clear R1. unfold sub_used. rewrite bind_modify. set (s2 := set_used _ s1).
  destruct (switch_ok own p o false true) as (_ & Hsw & Hblk); [apply HI|done|].
  pose proof (pow2_pos o ltac:(lia)) as Hpow.
  assert (switch p o true own p = Some (p, o, true)) as Hp1 by (rewrite Hsw; apply decide_True; lia).
  assert (Inv (switch p o true own) fl1 s2) as I2 by (by eapply inv_meta; [exact I1|..]).
  destruct (buddy_merge_rec_spec 11 _ _ _ _ _ I2 Hp1) as (own' & fl' & s' & r & R & I' & K & M & G & F & q & Hr & Hl & Hin & _);
    [lia|].
  unfold buddy_merge. run R. exists own', s'. split; [done|].
  injection M1 as Mt1 Me1 Ms1 Mu1 Mr1. injection M as Mt Me Ms Mu Mr.
  assert (pages_with (used own) = pages_with (used own') + 2 ^ o) as Hcnt.
  { pose proof (ow_range _ (iv_own _ _ _ HI) _ _ _ _ Hp).
    apply (pages_with_add _ _ p); [lia..| |]; intros x; rewrite (keeps_used _ _ x K); unfold used; rewrite Hsw;
      case_decide as Hd; try rewrite (Hblk x Hd); tauto. }
  assert (∀ x, in_block p o x → own' x = Some (r, q, true)) as Hnew.
  { intros x Hx. apply Hin. rewrite Hsw. by apply decide_True. }
  assert (has (flags (pg s' p)) PAGE_FLAG_FREE = true) as Hflag.
  { apply G. apply (de_free _ _ _ _ (iv_desc _ _ _ I2 _ _ _ Hp1)). }
  assert (in_block p o p) as Hpin by (unfold in_block; lia).
  split_and!; [|split|congruence|congruence|done|..].
  - constructor; [by exists fl'| |].
    + rewrite Mu. unfold s2. simpl. rewrite Mu1, Hu, Hcnt, Z.shiftl_1_l.
      pose proof (pages_with_bound (used own')). destruct (Z.leb_spec (2 ^ o) (pages_with (used own') + 2 ^ o)); lia.
    + rewrite Ms. unfold s2. simpl. rewrite Ms1, Ht. apply pages_with_ext. intros x.
      rewrite (keeps_owned _ _ x K). unfold owned. rewrite Hsw. case_decide as Hd; [|done]. by rewrite (Hblk x Hd).
  - intros x Hx. exists r, q. by apply Hnew.
  - intros x Hx. pose proof (keeps_free _ _ x K) as Hk. unfold is_free in *.
    rewrite Hsw, decide_False in Hk by done. done.
  - exists r, q. split_and!; [done| |done]. apply (ow_in _ (iv_own _ _ _ I') _ _ _ _ (Hnew p Hpin)).
  - rewrite (refs_merge _ _ _ _ _ R p). change (ref_count (pg s1 p) = 0). by rewrite (refs_strip _ _ P1).
  - intros x Hx. rewrite (refs_merge _ _ _ _ _ R x). by apply refs_strip, N1.
  - intros x Hf Hx. rewrite (F x); [apply N1; by intros ->|]. intros b0 q0. rewrite Hsw, decide_False by done.
    intros E. apply Hf. by exists b0, q0.
Qed.

(** ** buddy_coalesce_all *)
Lemma coalesce_pass_spec fuel own fl s o l1 l :
  Inv own fl s → 0 ≤ o ≤ MAX_ORDER → fl o = l1 ++ l →
  (length l + Z.to_nat (MAX_ORDER - o) * list_fuel < fuel)%nat →
  ∃ b own' fl' s', coalesce_pass fuel (head l) s = Some (b, s') ∧ Inv own' fl' s' ∧
    keeps own own' ∧ meta s' = meta s ∧ (nblocks own' ≤ nblocks own)%nat ∧
    (b = true → (nblocks own' < nblocks own)%nat).
Proof.
  revert own fl s o l1 l. assert (MAX_ORDER = 10) as HM by done.
  induction fuel as [|fuel IH]; intros own fl s o l1 l HI Ho Hl Hf; [lia|].
  cbn [coalesce_pass]. destruct l as [|x l]; cbn [head].
  { exists false, own, fl, s. split_and!; [done|done|apply keeps_refl|done|lia|done]. }
  assert (own x = Some (x, o, true)) as Hx by (apply (iv_free _ _ _ HI); rewrite Hl; apply elem_of_app; right; left).
  destruct (inv_base _ _ _ _ _ _ HI Hx) as [_ Hxr].
  run (ldp_ok flags x s Hxr). rewrite (de_free _ _ _ _ (iv_desc _ _ _ HI _ _ _ Hx)). cbn [negb].
  destruct (buddy_merge_rec_spec 11 own fl s x o HI Hx)
    as (own1 & fl1 & s1 & r & R & I1 & K1 & M1 & _ & _ & q & Hr & _ & _ & Hcase); [lia|].
  unfold buddy_merge. run R. case_decide as Hne.
  { exists true, own1, fl1, s1. destruct Hcase as [(-> & _)|(Hn & _)]; [done|].
    split_and!; [done|done|done|done|lia|done]. }
  subst r. run (ldp_ok next x s1 Hxr). fold (nx s1 x).
  assert (∀ fl s o l1 l, view fl s → 0 ≤ o ≤ MAX_ORDER → fl o = l1 ++ x :: l → nx s x = head l) as Hnext.
  { intros fl2 s2 o2 m1 m HV Ho2 E. pose proof (vw_list _ _ HV o2 Ho2) as H. rewrite E in H.
    apply is_list_app in H as [H _]. destruct m; [done|]. by destruct H. }
  destruct Hcase as [(_ & -> & -> & ->)|(Hn & Hlt & m & Hm)].
  - rewrite (Hnext fl s o l1 l); [|apply HI|done..].
    apply (IH own fl s o (l1 ++ [x]) l); [done|done|by rewrite <- app_assoc|simpl in Hf; lia].
  - destruct (inv_base _ _ _ _ _ _ I1 Hr) as [Hq _].
    rewrite (Hnext fl1 s1 q [] m); [|apply I1|done..].
    pose proof (list_bound _ (vw_nodup _ _ (iv_view _ _ _ I1) q)
      (λ y Hy, proj2 (vw_dom _ _ (iv_view _ _ _ I1) q y Hy))) as Hlen. rewrite Hm in Hlen. simpl in Hlen.
    destruct (IH own1 fl1 s1 q [x] m) as (b & own' & fl' & s' & R' & I' & K' & M' & N' & B');
      [done|done|done| |].
    { assert (Z.to_nat (MAX_ORDER - o) = S (Z.to_nat (MAX_ORDER - q)) + Z.to_nat (q - o - 1))%nat as E by lia.
      rewrite E in Hf. nia. }
    exists b, own', fl', s'. split_and!; [done|done|by eapply keeps_trans|congruence|lia|intros; lia].
Qed.

Lemma coalesce_order_spec fuel own fl s o :
  Inv own fl s → 0 ≤ o ≤ MAX_ORDER → (nblocks own < fuel)%nat →
  ∃ own' fl' s', coalesce_order fuel o s = Some (tt, s') ∧ Inv own' fl' s' ∧
    keeps own own' ∧ meta s' = meta s.
Proof.
  revert own fl s. induction fuel as [|fuel IH]; intros own fl s HI Ho Hf; [lia|].
  cbn [coalesce_order]. run (ld_head_ok o s Ho). rewrite (view_head _ _ _ (iv_view _ _ _ HI)) by done.
  pose proof (list_bound _ (vw_nodup _ _ (iv_view _ _ _ HI) o)
      (λ y Hy, proj2 (vw_dom _ _ (iv_view _ _ _ HI) o y Hy))) as Hlen.
  destruct (coalesce_pass_spec pass_fuel own fl s o [] (fl o))
    as (b & own1 & fl1 & s1 & R1 & I1 & K1 & M1 & _ & B1); [done|done|done| |].
  { assert (MAX_ORDER = 10) by done. assert (0 < BUDDY_MAX_PAGES) by done.
    rewrite pass_fuel_eq. rewrite list_fuel_eq in *. nia. }
  run R1. destruct b.
  - destruct (IH own1 fl1 s1) as (own' & fl' & s' & R' & I' & K' & M');
      [done|done|specialize (B1 eq_refl); lia|].
    exists own', fl', s'. split_and!; [done|done|by eapply keeps_trans|congruence].
  - exists own1, fl1, s1. by split_and!.
Qed.

Lemma coalesce_all_spec own fl s :
  Inv own fl s →
  ∃ own' fl' s', buddy_coalesce_all s = Some (tt, s') ∧ Inv own' fl' s' ∧
    keeps own own' ∧ meta s' = meta s.
Proof.
  intros HI. destruct (for_range_ind (coalesce_order list_fuel)
    (λ _ s1, ∃ own' fl', Inv own' fl' s1 ∧ keeps own own' ∧ meta s1 = meta s)
    (Z.to_nat MAX_ORDER) 0 s) as (s' & R & own' & fl' & H).
  - exists own, fl. split_and!; [done|apply keeps_refl|done].
  - intros j s1 Hj (own1 & fl1 & I1 & K1 & M1).
    destruct (coalesce_order_spec list_fuel own1 fl1 s1 j I1) as (own2 & fl2 & s2 & R2 & I2 & K2 & M2);
      [assert (MAX_ORDER = 10) by done; lia|apply nblocks_bound|].
    exists s2. split; [done|]. exists own2, fl2. split_and!; [done|by eapply keeps_trans|congruence].
  - exists own', fl', s'. unfold buddy_coalesce_all. tauto.
Qed.
