(* ===== verification/BuddyInit.v ===== *)
(** * kernel/mem.c: boot-time initialisation of the page allocator, from a
    Multiboot information structure or a UEFI memory map. *)
From S2P Require Import Prelude Buddy BuddyLists BuddyInv BuddyOps BuddySpec.
Local Open Scope Z_scope.
Local Open Scope kernel_scope.

Definition MiB : Z := 1024 * 1024.
Definition max_ram : Z := 256 * MiB.

(** ** Reading the boot loader's structures *)
Section multiboot.
(** Physical memory as the boot loader left it, by byte address. *)
Context (mem : Z → Z).

Definition rd8 (a : Z) : Z := u8 (mem a).
Definition rd32 (a : Z) : Z :=
  rd8 a + 2 ^ 8 * rd8 (a + 1) + 2 ^ 16 * rd8 (a + 2) + 2 ^ 24 * rd8 (a + 3).
Definition rd64 (a : Z) : Z := rd32 a + 2 ^ 32 * rd32 (a + 4).

Definition cap (x : Z) : Z := if max_ram <? x then max_ram else x.

(** One map entry: the end of an available region raises the total. *)
Definition raise_total (base len total : Z) : Z :=
  let end_addr := u64 (base + len) in
  if (total <? end_addr) && (base <? max_ram) then cap end_addr else total.

(** [struct mb2_mmap_entry]: base, length, type at offsets 0, 8, 16. *)
Fixpoint mb2_entries (fuel : nat) (entries entry_size tag_end total : Z) : option Z :=
  match fuel with
  | O => None
  | S fuel =>
      if entries + entry_size <=? tag_end then
        mb2_entries fuel (entries + entry_size) entry_size tag_end
          (if rd32 (entries + 16) =? 1 then raise_total (rd64 entries) (rd64 (entries + 8)) total
           else total)
      else Some total
  end.

Fixpoint mb2_tags (fuel : nat) (limit tag total : Z) : option Z :=
  match fuel with
  | O => None
  | S fuel =>
      let ty := rd32 tag in
      let size := rd32 (tag + 4) in
      if negb (ty =? 0) && (tag <? limit) then
        let total := if ty =? 4 then cap (u32 (rd32 (tag + 12) + 1024) * 1024) else total in
        total ← (if ty =? 6
                 then mb2_entries fuel (tag + 16) (rd32 (tag + 8)) (u32 (tag + size)) total
                 else Some total);
        let tag_size := if size <? 8 then 8 else size in
        mb2_tags fuel limit (tag + Z.land (u32 (tag_size + 7)) (2 ^ 32 - 8)) total
      else Some total
  end.

(** [struct mb1_mmap_entry] with the natural alignment of its members: size at
    offset 0, base at 8, length at 16, type at 24. *)
Fixpoint mb1_entries (fuel : nat) (entries end_ total : Z) : option Z :=
  match fuel with
  | O => None
  | S fuel =>
      if entries <? end_ then
        let size := rd32 entries in
        if size <? 20 then Some total else
        let total := if rd32 (entries + 24) =? 1
                     then raise_total (rd64 (entries + 8)) (rd64 (entries + 16)) total
                     else total in
        if 2 ^ 32 - 1 - 4 <? size then Some total else
        mb1_entries fuel (entries + (size + 4)) end_ total
      else Some total
  end.

Definition mb1_total (fuel : nat) (info flags : Z) : option Z :=
  let total := if negb (Z.land flags 1 =? 0)
               then cap ((rd32 (info + 4) + rd32 (info + 8)) * 1024) else 0 in
  if negb (Z.land flags 64 =? 0) then
    let mmap_length := rd32 (info + 44) in
    let mmap_addr := rd32 (info + 48) in
    e820 ← mb1_entries fuel mmap_addr (mmap_addr + mmap_length) 0;
    Some (if 0 <? e820 then e820 else total)
  else Some total.

(** [total_ram] as [phys_mem_init] computes it; [mb_info = 0] is [NULL]. *)
Definition detect_ram (fuel : nat) (mb_info : Z) : option Z :=
  total ← (if mb_info =? 0 then Some 0 else
           let first_word := rd32 mb_info in
           let second_word := rd32 (mb_info + 4) in
           if (second_word =? 0) && (0 <? first_word) && (first_word <? 0x100000)
           then mb2_tags fuel (mb_info + first_word) (mb_info + 8) 0
           else mb1_total fuel mb_info first_word);
  Some (if total =? 0 then 64 * MiB else total).
End multiboot.

(** ** Building the free lists *)

(** [memset(page_array, 0, ...)] and the emptied free areas. *)
Definition clear_pages : MM unit :=
  modify (λ s, mk_mm ∅ ∅ (total_phys_pages s) (phys_mem_end s) (stat_total_pages s)
                     (stat_used_pages s) (ram s)).
Definition set_extent (total_ram : Z) : MM unit :=
  modify (λ s, mk_mm (page_array s) (free_area s) (total_ram / PAGE_SIZE) total_ram
                     (stat_total_pages s) (stat_used_pages s) (ram s)).

Definition kernel_reserved_pages : Z := 2 * MiB / PAGE_SIZE.
Definition heap_start_pfn : Z := 8 * MiB / PAGE_SIZE.
Definition heap_end_pfn (total : Z) : Z :=
  let e := 32 * MiB / PAGE_SIZE in if total <? e then total else e.

Definition phys_mem_build (total_ram : Z) : MM unit :=
  clear_pages ;;;
  set_extent total_ram ;;;
  buddy_mark_reserved 0 kernel_reserved_pages ;;;
  total <- gets total_phys_pages ;;
  buddy_mark_reserved heap_start_pfn (heap_end_pfn total) ;;;
  buddy_mark_available kernel_reserved_pages total ;;;
  buddy_coalesce_all.

Definition phys_mem_init (mem : Z → Z) (fuel : nat) (mb_info : Z) : MM unit :=
  λ s, match detect_ram mem fuel mb_info with
       | Some total_ram => phys_mem_build total_ram s
       | None => None
       end.

(** [struct uefi_mmap_entry], as far as it is read. *)
Record uefi_mmap_entry := mk_entry { phys_start : Z; num_pages : Z; type : Z }.
Definition UEFI_MMAP_CONVENTIONAL : Z := 7.

Definition entry_end (e : uefi_mmap_entry) : Z :=
  u64 (phys_start e + u64 (num_pages e * PAGE_SIZE)).

(** The page frames of an entry after the clamps of the two passes. *)
Definition entry_pfns (total_ram : Z) (e : uefi_mmap_entry) : option (Z * Z) :=
  let start := phys_start e in
  let end_ := entry_end e in
  if total_ram <=? start then None else
  let end_ := if total_ram <? end_ then total_ram else end_ in
  let start_pfn := phys_to_pfn start in
  let end_pfn := phys_to_pfn end_ in
  if BUDDY_MAX_PAGES <=? start_pfn then None else
  Some (start_pfn, if BUDDY_MAX_PAGES <? end_pfn then BUDDY_MAX_PAGES else end_pfn).

Fixpoint each (es : list uefi_mmap_entry) (f : uefi_mmap_entry → MM unit) : MM unit :=
  match es with [] => ret tt | e :: es => f e ;;; each es f end.

Definition uefi_reserve (total_ram : Z) (e : uefi_mmap_entry) : MM unit :=
  match entry_pfns total_ram e with
  | None => ret tt
  | Some (a, b) => if type e =? UEFI_MMAP_CONVENTIONAL then ret tt else buddy_mark_reserved a b
  end.
Definition uefi_release (total_ram : Z) (e : uefi_mmap_entry) : MM unit :=
  match entry_pfns total_ram e with
  | None => ret tt
  | Some (a, b) => if type e =? UEFI_MMAP_CONVENTIONAL then buddy_mark_available a b else ret tt
  end.

Definition uefi_total_ram (es : list uefi_mmap_entry) : Z :=
  cap (foldl (λ hi e, if hi <? entry_end e then entry_end e else hi) 0 es).

Definition phys_mem_init_uefi (es : list uefi_mmap_entry) : MM unit :=
  clear_pages ;;;
  let total_ram := uefi_total_ram es in
  set_extent total_ram ;;;
  each es (uefi_reserve total_ram) ;;;
  buddy_mark_reserved 0 kernel_reserved_pages ;;;
  total <- gets total_phys_pages ;;
  buddy_mark_reserved heap_start_pfn (heap_end_pfn total) ;;;
  each es (uefi_release total_ram) ;;;
  buddy_coalesce_all.

(** ** What start-up establishes *)
Definition reserved (s : mm) (x : Z) : bool := has (flags (pg s x)) PAGE_FLAG_RESERVED.

Lemma has_lor f b c : has (Z.lor f b) c = has f c || has b c.
Proof.
  unfold has. rewrite Z.land_lor_distr_l.
  destruct (Z.eqb_spec (Z.lor (Z.land f c) (Z.land b c)) 0) as [E|E].
  - apply Z.lor_eq_0_iff in E as [-> ->]. done.
  - destruct (Z.eqb_spec (Z.land f c) 0) as [E1|], (Z.eqb_spec (Z.land b c) 0) as [E2|]; try done.
    rewrite E1, E2 in E. done.
Qed.

(** ** Reserving *)
Lemma reserve_one own fl s x :
  Inv own fl s → own x = None → 0 ≤ x < BUDDY_MAX_PAGES →
  ∃ s', stp x (λ p, set_flags (Z.lor (flags p) PAGE_FLAG_RESERVED) p) s = Some (tt, s') ∧
    Inv own fl s' ∧ meta s' = meta s ∧ ∀ y, reserved s' y = reserved s y || bool_decide (y = x).
Proof.
  intros HI Hx Hr. rewrite (stp_ok _ _ _ Hr). eexists. split; [reflexivity|].
  split; [|split; [done|]].
  - constructor; try apply HI.
    + by apply (view_store _ _ _ (λ p, set_flags (Z.lor (flags p) PAGE_FLAG_RESERVED) p)); [apply HI|].
    + intros y o f E. rewrite pg_set_ne by congruence. by apply HI.
    + intros y E. rewrite pg_set. case_decide as Hd; [subst|by apply HI].
      cbn [flags set_flags]. rewrite has_lor, (iv_none _ _ _ HI) by done. done.
  - intros y. unfold reserved. rewrite pg_set. case_decide as Hd.
    + subst. cbn [flags set_flags]. rewrite has_lor, bool_decide_eq_true_2 by done. done.
    + rewrite bool_decide_eq_false_2 by done. by rewrite orb_false_r.
Qed.

Lemma mark_reserved_spec own fl s a b :
  Inv own fl s → 0 ≤ a → (∀ x, a ≤ x < b → own x = None) →
  ∃ s', buddy_mark_reserved a b s = Some (tt, s') ∧ Inv own fl s' ∧ meta s' = meta s ∧
    ∀ y, y < BUDDY_MAX_PAGES → reserved s' y = reserved s y || bool_decide (a ≤ y < b).
Proof.
  intros HI Ha Hown. unfold buddy_mark_reserved. destruct (Z.leb_spec BUDDY_MAX_PAGES a) as [Hm|Hm].
  { exists s. split_and!; [done..|]. intros y Hy. rewrite bool_decide_eq_false_2 by lia. by rewrite orb_false_r. }
  set (e := Z.min b BUDDY_MAX_PAGES).
  destruct (for_range_ind (λ pfn, stp pfn (λ p, set_flags (Z.lor (flags p) PAGE_FLAG_RESERVED) p))
    (λ j s', Inv own fl s' ∧ meta s' = meta s ∧ ∀ y, reserved s' y = reserved s y || bool_decide (a ≤ y < j))
    (Z.to_nat (e - a)) a s) as (s' & R & I' & M' & H').
  - split_and!; [done..|]. intros y. rewrite bool_decide_eq_false_2 by lia. by rewrite orb_false_r.
  - intros j s1 Hj (I1 & M1 & H1). destruct (reserve_one own fl s1 j I1) as (s2 & R2 & I2 & M2 & H2);
      [apply Hown; lia|lia|]. exists s2. split_and!; [done|done|congruence|].
    intros y. rewrite H2, H1, <- orb_assoc. f_equal. repeat case_bool_decide; lia || done.
  - exists s'. split_and!; [done..|]. intros y Hy. rewrite H'. f_equal.
    repeat case_bool_decide; lia || done.
Qed.

(** ** Releasing *)
Lemma release_one own fl s x :
  Inv own fl s → own x = None → 0 ≤ x < total_phys_pages s → reserved s x = false →
  stat_total_pages s = pages_with (owned own) →
  ∃ fl' s', (fl <- ldp flags x ;;
     if has fl PAGE_FLAG_RESERVED then ret tt else
     stp x (λ _, mk_page PAGE_FLAG_FREE 0 0 (pfn_to_phys x) None None None) ;;;
     list_add 0 x ;;; modify (λ s, set_total (u64 (stat_total_pages s + 1)) s)) s = Some (tt, s') ∧
    Inv (switch x 0 true own) fl' s' ∧ total_phys_pages s' = total_phys_pages s ∧
    phys_mem_end s' = phys_mem_end s ∧ stat_used_pages s' = stat_used_pages s ∧
    stat_total_pages s' = pages_with (owned (switch x 0 true own)) ∧
    ∀ y, reserved s' y = reserved s y.
Proof.
  intros HI Hx Hr Hres Hst. pose proof (iv_total _ _ _ HI) as Ht.
  assert (0 ≤ x < BUDDY_MAX_PAGES) as Hxr by lia.
  run (ldp_ok flags x s Hxr). unfold reserved in Hres. rewrite Hres.
  set (d := mk_page PAGE_FLAG_FREE 0 0 (pfn_to_phys x) None None None).
  run (stp_ok x (λ _, d) s Hxr). set (s1 := set_pages _ s).
  assert (∀ o, x ∉ fl o) as Hni by (intros o Hin; apply (iv_free _ _ _ HI) in Hin; congruence).
  assert (view fl s1) as V1.
  { constructor; [|apply HI..]. intros o Ho. eapply is_list_ext; [|by apply (vw_list _ _ (iv_view _ _ _ HI))].
    intros y Hy. unfold nx, s1. rewrite pg_set_ne; [done|]. intros ->. by apply (Hni o). }
  destruct (list_add_spec fl s1 0 x V1) as (s2 & R2 & V2 & [T2 M2]); [done|done|done|].
  run R2. injection M2 as Mt Me Ms Mu Mr. simpl in Mt, Me, Ms, Mu, Mr.
  assert (∀ y, switch x 0 true own y = if decide (x ≤ y < x + 1) then Some (x, 0, true) else own y) as Hsw.
  { intros y. unfold switch, patch, block. change (2 ^ 0) with 1. by case_decide. }
  assert (own_ok (switch x 0 true own)) as Hw.
  { apply patch_ok; [apply HI|apply block_ok| |apply whole_one]; [done|apply Z.divide_1_l|lia|change (2^0) with 1; lia|].
    intros y b o f Hy Hin. change (2 ^ 0) with 1 in Hin. replace y with x in Hy by lia. congruence. }
  exists (lupd fl 0 (x :: fl 0)). eexists. split; [reflexivity|].
  assert (∀ y, y ≠ x → strip (pg s2 y) = strip (pg s y)) as Hsame.
  { intros y Hy. rewrite T2. unfold s1. by rewrite pg_set_ne. }
  assert (strip (pg s2 x) = strip d) as Hd by (rewrite T2; unfold s1; by rewrite pg_set_eq).
  split_and!; [eapply (inv_meta _ _ s2); [|done..]|done|done|done| |].
  - constructor; [done|done|rewrite Mt; apply HI|..].
    + intros y u. rewrite Mt, Hsw. case_decide; [intros _; lia|by apply HI].
    + intros o y. rewrite in_lupd, elem_of_cons, !(iv_free _ _ _ HI), Hsw. case_decide.
      * replace y with x by lia. rewrite Hx. split; [intros [[-> [_|?]]|[_ ?]]; done|intros [= <-]; tauto].
      * split; [intros [[-> [->|E]]|[_ E]]; [lia|done|done]|]. intros E.
        destruct (decide (o = 0)) as [->|]; tauto.
    + intros y o f. rewrite Hsw. case_decide; [|intros E; eapply desc_strip; [apply Hsame; lia|by apply HI]].
      intros [= <- <- <-]. eapply desc_strip; [exact Hd|]. by constructor.
    + intros y. rewrite Hsw. case_decide; [done|]. intros E. rewrite (flags_strip (pg s y)) by (apply Hsame; lia).
      by apply HI.
  - simpl. rewrite Ms, Hst. pose proof (pages_with_bound (owned own)). unfold u64. rewrite Z.mod_small.
    + symmetry. apply (pages_with_add _ _ x); [lia..| |]; intros y; unfold owned; rewrite ?Hsw.
      * case_decide; [split; [by right|done]|]. tauto.
      * intros Hy. replace y with x by lia. rewrite Hx. by intros [? ?].
    + assert (BUDDY_MAX_PAGES = 65536) by done. lia.
  - intros y. change (reserved s2 y = reserved s y). unfold reserved in *.
    destruct (decide (y = x)) as [->|Hne]; [|by rewrite (flags_strip (pg s y)) by (by apply Hsame)].
    rewrite (flags_strip d) by done. by rewrite Hres.
Qed.

(** Ownership after the unreserved pages of [a, b) became free blocks. *)
Definition release (res : Z → bool) (a b : Z) (own : ownership) : ownership :=
  λ x, if bool_decide (a ≤ x < b) && negb (res x) then Some (x, 0, true) else own x.

Record Booted (own : ownership) (s : mm) : Prop := mk_Booted {
  bt_inv : ∃ fl, Inv own fl s;
  bt_total : stat_total_pages s = pages_with (owned own)
}.

(** A change of the ghost map that no page can tell. *)
Lemma own_ok_ext own own' : (∀ x, own' x = own x) → own_ok own → own_ok own'.
Proof.
  intros He [H1 H2 H3 H4 H5].
  constructor; intros x b o f; rewrite He; intros E; eauto.
  intros y Hy. rewrite He. eauto.
Qed.
Lemma Inv_ext own own' fl s : (∀ x, own' x = own x) → Inv own fl s → Inv own' fl s.
Proof.
  intros He [V W T M F D N]. constructor; try done.
  - by eapply own_ok_ext.
  - intros x u. rewrite He. by apply M.
  - intros o x. rewrite He. apply F.
  - intros x o f. rewrite He. apply D.
  - intros x. rewrite He. apply N.
Qed.
Lemma Booted_ext own own' s : (∀ x, own' x = own x) → Booted own s → Booted own' s.
Proof.
  intros He [[fl HI] Ht]. constructor; [exists fl; by eapply Inv_ext|].
  rewrite Ht. apply pages_with_ext. intros x. unfold owned. by rewrite He.
Qed.

Lemma mark_available_spec own s a b :
  Booted own s → 0 ≤ a → Z.min b BUDDY_MAX_PAGES ≤ total_phys_pages s →
  (∀ x, a ≤ x < b → own x = None) →
  ∃ s', buddy_mark_available a b s = Some (tt, s') ∧
    Booted (release (reserved s) a (Z.min b BUDDY_MAX_PAGES) own) s' ∧
    total_phys_pages s' = total_phys_pages s ∧ phys_mem_end s' = phys_mem_end s ∧
    stat_used_pages s' = stat_used_pages s ∧ ∀ y, reserved s' y = reserved s y.
Proof.
  intros HB Ha Hb Hown. unfold buddy_mark_available. set (e := Z.min b BUDDY_MAX_PAGES) in *.
  destruct (Z.leb_spec BUDDY_MAX_PAGES a) as [Hm|Hm].
  { exists s. split_and!; [done| |done..]. eapply Booted_ext; [|exact HB]. intros x. unfold release.
    by rewrite bool_decide_eq_false_2 by lia. }
  match goal with |- context [for_range _ _ ?body] => destruct (for_range_ind body
    (λ j s', Booted (release (reserved s) a j own) s' ∧
       total_phys_pages s' = total_phys_pages s ∧ phys_mem_end s' = phys_mem_end s ∧
       stat_used_pages s' = stat_used_pages s ∧ ∀ y, reserved s' y = reserved s y)
    (Z.to_nat (e - a)) a s) as (s' & R & H') end.
  - split_and!; [|done..]. eapply Booted_ext; [|exact HB]. intros x. unfold release.
    by rewrite bool_decide_eq_false_2 by lia.
  - intros j s1 Hj ([[fl1 I1] B1] & T1 & E1 & U1 & H1).
    assert (release (reserved s) a j own j = None) as Hjn.
    { unfold release. rewrite bool_decide_eq_false_2 by lia. apply Hown. lia. }
    destruct (reserved s j) eqn:Hres.
    + exists s1. assert (0 ≤ j < BUDDY_MAX_PAGES) as Hjr by lia. run (ldp_ok flags j s1 Hjr).
      pose proof (H1 j) as Hj1. unfold reserved in Hj1 at 1. rewrite Hres in Hj1. rewrite Hj1.
      split_and!; [done| |done..]. eapply Booted_ext; [|split; [by exists fl1|exact B1]].
      intros x. unfold release. destruct (decide (x = j)) as [->|].
      * by rewrite Hres, !andb_false_r.
      * by rewrite (bool_decide_ext (a ≤ x < j + 1) (a ≤ x < j)) by lia.
    + destruct (release_one _ fl1 s1 j I1 Hjn) as (fl2 & s2 & R2 & I2 & T2 & E2 & U2 & B2 & H2);
        [lia|by rewrite H1|done|]. exists s2. split; [done|].
      split_and!; [|congruence..|intros y; by rewrite H2, H1].
      eapply Booted_ext; [|split; [by exists fl2|exact B2]].
      intros x. unfold switch, patch, block, release. change (2 ^ 0) with 1.
      destruct (decide (x = j)) as [->|].
      * rewrite Hres, bool_decide_eq_true_2 by lia. by rewrite !decide_True by lia.
      * rewrite (decide_False (P := j ≤ x < j + 1)) by lia.
        rewrite (bool_decide_ext (a ≤ x < j + 1) (a ≤ x < j)) by lia. done.
  - exists s'. destruct H' as (B' & T' & E' & U' & H'). split_and!; [done| |done..].
    eapply Booted_ext; [|exact B']. intros x. unfold release.
    erewrite bool_decide_ext; [done|]. lia.
Qed.

(** The cleared allocator owns nothing. *)
Lemma cleared_booted s total :
  stat_total_pages s = 0 → 0 ≤ total_phys_pages s ≤ BUDDY_MAX_PAGES →
  page_array s = ∅ → free_area s = ∅ → total = total_phys_pages s →
  Booted (λ _, None) s ∧ ∀ x, reserved s x = false.
Proof.
  intros Hs Ht Hp Hf ->. assert (∀ x, pg s x = page0) as Hpg by (intros x; unfold pg; by rewrite Hp).
  split; [constructor|].
  - exists (λ _, []). constructor; [|constructor; done|done|done| |done|].
    + constructor.
      * intros o _. rewrite Hf. done.
      * constructor.
      * intros o o' p Hx. by apply elem_of_nil in Hx.
      * intros o p Hx. by apply elem_of_nil in Hx.
    + intros o x. split; [by intros Hx%elem_of_nil|done].
    + intros x _. by rewrite Hpg.
  - rewrite Hs. unfold pages_with. symmetry.
    assert (filter (owned (λ _, None)) (seqZ 0 BUDDY_MAX_PAGES) = []) as ->; [|done].
    apply filter_none. intros x _ [? ?]. done.
  - intros x. unfold reserved. by rewrite Hpg.
Qed.

(** What [phys_mem_build] leaves for allocation: every managed page that is
    neither in the first 2 MiB of the array nor in its 8-32 MiB range. *)
Definition boot_free (total x : Z) : bool :=
  bool_decide (kernel_reserved_pages ≤ x < total) && negb (bool_decide (heap_start_pfn ≤ x < heap_end_pfn total)).

Lemma booted_coalesced own s :
  Booted own s → stat_used_pages s = 0 → (∀ x, ¬ used own x) →
  ∃ own' s', buddy_coalesce_all s = Some (tt, s') ∧ Buddy own' s' ∧ keeps own own' ∧
    total_phys_pages s' = total_phys_pages s ∧ phys_mem_end s' = phys_mem_end s.
Proof.
  intros [[fl HI] Ht] Hu Hno. destruct (coalesce_all_spec own fl s HI) as (own' & fl' & s' & R & I & K & M).
  exists own', s'. split; [done|]. injection M as Mt Me Ms Mu Mr. split_and!; [|done..].
  constructor; [by exists fl'| |].
  - rewrite Mu, Hu. unfold pages_with. rewrite filter_none; [done|].
    intros x _ Hx. by apply (Hno x), (keeps_used _ _ _ K).
  - rewrite Ms, Ht. apply pages_with_ext. intros x. by rewrite (keeps_owned _ _ _ K).
Qed.

Lemma build_spec s total_ram :
  0 ≤ total_ram ≤ max_ram → stat_total_pages s = 0 → stat_used_pages s = 0 →
  ∃ own s', phys_mem_build total_ram s = Some (tt, s') ∧ Buddy own s' ∧
    total_phys_pages s' = total_ram / PAGE_SIZE ∧ phys_mem_end s' = total_ram ∧
    ∀ x, if boot_free (total_ram / PAGE_SIZE) x then is_free own x else own x = None.
Proof.
  intros Hram Hst Hsu. set (total := total_ram / PAGE_SIZE).
  assert (max_ram / PAGE_SIZE = BUDDY_MAX_PAGES) as Hmax by done.
  assert (0 ≤ total ≤ BUDDY_MAX_PAGES) as Htot.
  { assert (0 < PAGE_SIZE) by done. rewrite <- Hmax. unfold total.
    split; [apply Z.div_pos; lia|apply Z.div_le_mono; lia]. }
  unfold phys_mem_build, clear_pages, set_extent. rewrite !bind_modify. set (s0 := mk_mm _ _ _ _ _ _ _).
  destruct (cleared_booted s0 total) as [[[fl0 I0] B0] Hres0]; [done..|].
  destruct (mark_reserved_spec _ fl0 s0 0 kernel_reserved_pages I0) as (s1 & R1 & I1 & M1 & H1); [done|done|].
  run R1. rewrite bind_gets. injection M1 as Mt1 Me1 Ms1 Mu1 Mr1.
  rewrite Mt1. change (total_phys_pages s0) with total.
  destruct (mark_reserved_spec _ fl0 s1 heap_start_pfn (heap_end_pfn total) I1) as (s2 & R2 & I2 & M2 & H2); [done|done|].
  run R2. injection M2 as Mt2 Me2 Ms2 Mu2 Mr2.
  destruct (mark_available_spec (λ _, None) s2 kernel_reserved_pages total)
    as (s3 & R3 & B3 & T3 & E3 & U3 & _); [split; [by exists fl0|rewrite Ms2, Ms1; apply B0]|done| |done|].
  { rewrite Mt2, Mt1. simpl. fold total. lia. }
  run R3. replace (Z.min total BUDDY_MAX_PAGES) with total in B3 by lia.
  set (own3 := release (reserved s2) kernel_reserved_pages total (λ _, None)) in *.
  assert (∀ x, own3 x = if boot_free total x then Some (x, 0, true) else None) as Hown3.
  { intros x. unfold own3, release, boot_free. case_bool_decide as Hx; [|done]. cbn [andb].
    rewrite H2, H1, Hres0 by lia. rewrite (bool_decide_eq_false_2 (0 ≤ x < kernel_reserved_pages)) by lia. done. }
  destruct (booted_coalesced own3 s3 B3) as (own & s' & R & HB & K & T & E).
  - rewrite U3, Mu2, Mu1. done.
  - intros x Hx. unfold used in Hx. rewrite Hown3 in Hx. destruct (boot_free total x); exact Hx.
  - exists own, s'. split; [exact R|]. split; [exact HB|].
    split; [rewrite T, T3, Mt2; exact Mt1|]. split; [rewrite E, E3, Me2; exact Me1|].
    intros x. destruct (keeps_free _ _ x K) as [[Hf Hf']|[Hn He]].
    + destruct Hf as (b & q & Hf). rewrite Hown3 in Hf. by destruct (boot_free total x).
    + rewrite Hown3 in He. unfold is_free in Hn. rewrite Hown3 in Hn.
      destruct (boot_free total x); [|done]. destruct Hn. by eexists _, _.
Qed.
