(* ===== verification/BuddyThms.v ===== *)
(** * kernel/mem.c: theorems about the page allocator. *)
From S2P Require Import Prelude Buddy BuddyLists BuddyInv BuddyOps BuddySpec BuddyInit.
Local Open Scope Z_scope.
Local Open Scope kernel_scope.

(** ** Memory detection *)
Lemma cap_range x : 0 ≤ x → 0 ≤ cap x ≤ max_ram.
Proof. intros Hx. unfold cap. assert (0 < max_ram) by done. destruct (Z.ltb_spec max_ram x); lia. Qed.

Lemma raise_range b l t : 0 ≤ t ≤ max_ram → 0 ≤ raise_total b l t ≤ max_ram.
Proof.
  intros Ht. unfold raise_total. destruct (_ && _); [|done]. apply cap_range. unfold u64.
  by apply Z.mod_pos_bound.
Qed.

Lemma rd8_range mem a : 0 ≤ rd8 mem a < 2 ^ 8.
Proof. unfold rd8, u8. by apply Z.mod_pos_bound. Qed.
Lemma rd32_range mem a : 0 ≤ rd32 mem a < 2 ^ 32.
Proof.
  unfold rd32. pose proof (rd8_range mem a). pose proof (rd8_range mem (a + 1)).
  pose proof (rd8_range mem (a + 2)). pose proof (rd8_range mem (a + 3)). lia.
Qed.

Lemma mb2_entries_range mem fuel e es te t t' :
  0 ≤ t ≤ max_ram → mb2_entries mem fuel e es te t = Some t' → 0 ≤ t' ≤ max_ram.
Proof.
  revert e t. induction fuel as [|fuel IH]; intros e t Ht; simpl; [done|].
  destruct (_ <=? _); [|by intros [= <-]]. apply IH. destruct (_ =? _); [by apply raise_range|done].
Qed.
Lemma mb2_tags_range mem fuel lim tag t t' :
  0 ≤ t ≤ max_ram → mb2_tags mem fuel lim tag t = Some t' → 0 ≤ t' ≤ max_ram.
Proof.
  revert tag t. induction fuel as [|fuel IH]; intros tag t Ht; cbn [mb2_tags]; [done|].
  destruct (_ && _); [|by intros [= <-]].
  set (t1 := if _ =? 4 then _ else t).
  assert (0 ≤ t1 ≤ max_ram) as Ht1.
  { unfold t1. destruct (_ =? 4); [|done]. apply cap_range. unfold u32.
    pose proof (Z.mod_pos_bound (rd32 mem (tag + 12) + 1024) (2 ^ 32) ltac:(done)). lia. }
  intros (t2 & E & H)%option.bind_Some. eapply IH; [|exact H].
  destruct (_ =? 6); [by eapply mb2_entries_range|]. by injection E as <-.
Qed.
Lemma mb1_entries_range mem fuel e end_ t t' :
  0 ≤ t ≤ max_ram → mb1_entries mem fuel e end_ t = Some t' → 0 ≤ t' ≤ max_ram.
Proof.
  revert e t. induction fuel as [|fuel IH]; intros e t Ht; cbn [mb1_entries]; [done|].
  destruct (_ <? end_); [|by intros [= <-]]. destruct (_ <? 20); [by intros [= <-]|].
  assert (0 ≤ (if rd32 mem (e + 24) =? 1 then raise_total (rd64 mem (e + 8)) (rd64 mem (e + 16)) t else t) ≤ max_ram)
    as Ht1 by (destruct (_ =? 1); [by apply raise_range|done]).
  destruct (_ <? _); [by intros [= <-]|]. by apply IH.
Qed.

Lemma detect_range mem fuel mb t : detect_ram mem fuel mb = Some t → 0 < t ≤ max_ram.
Proof.
  unfold detect_ram. intros (t1 & E & H)%option.bind_Some. injection H as <-.
  assert (0 ≤ t1 ≤ max_ram) as Ht.
  { assert (0 < max_ram) by done. destruct (mb =? 0); [injection E as <-; lia|]. destruct (_ && _).
    - assert (0 < max_ram) by done. eapply mb2_tags_range; [|exact E]. lia.
    - unfold mb1_total in E.
      assert (0 ≤ (if negb (Z.land (rd32 mem mb) 1 =? 0)
                   then cap ((rd32 mem (mb + 4) + rd32 mem (mb + 8)) * 1024) else 0) ≤ max_ram) as Ht0.
      { assert (0 < max_ram) by done. destruct (negb (Z.land (rd32 mem mb) 1 =? 0)); [|lia]. apply cap_range.
        pose proof (rd32_range mem (mb + 4)). pose proof (rd32_range mem (mb + 8)). lia. }
      destruct (negb (Z.land (rd32 mem mb) 64 =? 0)); [|injection E as <-; exact Ht0].
      apply option.bind_Some in E as (e & E & Hsm). injection Hsm as <-.
      destruct (0 <? e); [|exact Ht0].
      assert (0 < max_ram) by done. eapply mb1_entries_range; [|exact E]. lia. }
  assert (0 < 64 * MiB) by done. assert (64 * MiB ≤ max_ram) by done. destruct (Z.eqb_spec t1 0); lia.
Qed.

(** Every step of the Multiboot1 walk skips at least 24 bytes. *)
Lemma mb1_entries_total mem fuel e end_ t :
  (Z.to_nat (end_ - e) < fuel)%nat → ∃ t', mb1_entries mem fuel e end_ t = Some t'.
Proof.
  revert e t. induction fuel as [|fuel IH]; intros e t Hf; cbn [mb1_entries]; [lia|].
  destruct (Z.ltb_spec e end_); [|eauto]. destruct (Z.ltb_spec (rd32 mem e) 20); [eauto|].
  destruct (_ <? _); [eauto|]. apply IH. lia.
Qed.

Lemma mb1_total_returns mem fuel info fl :
  (Z.to_nat (rd32 mem (info + 44)) < fuel)%nat → ∃ t, mb1_total mem fuel info fl = Some t.
Proof.
  intros Hf. unfold mb1_total. destruct (negb (Z.land fl 64 =? 0)); [|eauto].
  destruct (mb1_entries_total mem fuel (rd32 mem (info + 48)) (rd32 mem (info + 48) + rd32 mem (info + 44)) 0)
    as [t' ->]; [lia|simpl; eauto].
Qed.

(** The tags that the Multiboot2 walk reaches from [tag]. *)
Inductive mb2_reach (mem : Z → Z) (limit : Z) : Z → Z → Prop :=
| reach_here tag : mb2_reach mem limit tag tag
| reach_next tag tag' :
    rd32 mem tag ≠ 0 → tag < limit →
    mb2_reach mem limit (tag + Z.land (u32 ((if rd32 mem (tag + 4) <? 8 then 8 else rd32 mem (tag + 4)) + 7)) (2 ^ 32 - 8)) tag' →
    mb2_reach mem limit tag tag'.
(** The walk makes headway at a tag: its padded size does not wrap round to
    zero, and the entries of a memory map have a size. *)
Definition mb2_headway (mem : Z → Z) (limit tag : Z) : Prop :=
  rd32 mem tag ≠ 0 → tag < limit →
  rd32 mem (tag + 4) ≤ 2 ^ 32 - 8 ∧ (rd32 mem tag = 6 → rd32 mem (tag + 8) ≠ 0).
(** What [phys_mem_init] needs of the boot information so as to return: nothing
    if there is none or if it is read as Multiboot1. *)
Definition mb_finite (mem : Z → Z) (mb : Z) : Prop :=
  mb ≠ 0 → rd32 mem (mb + 4) = 0 → 0 < rd32 mem mb < 0x100000 →
  ∀ tag, mb2_reach mem (mb + rd32 mem mb) (mb + 8) tag → mb2_headway mem (mb + rd32 mem mb) tag.

Lemma mb2_entries_total mem fuel e size tag_end t :
  0 < size → (Z.to_nat (tag_end - e) < fuel)%nat → ∃ t', mb2_entries mem fuel e size tag_end t = Some t'.
Proof.
  intros Hs. revert e t. induction fuel as [|fuel IH]; intros e t Hf; cbn [mb2_entries]; [lia|].
  destruct (Z.leb_spec (e + size) tag_end); [|eauto]. apply IH. lia.
Qed.
Lemma pad_bound n : 8 ≤ n ≤ 2 ^ 32 - 8 → 8 ≤ Z.land (u32 (n + 7)) (2 ^ 32 - 8).
Proof.
  intros Hn. assert (Z.land (u32 (n + 7)) (2 ^ 32 - 8) = 8 * ((n + 7) / 8)) as ->; [|pose proof (Z.div_le_lower_bound (n + 7) 8 1); lia].
  assert (u32 (n + 7) = n + 7) as -> by (apply Z.mod_small; lia). assert (2 ^ 32 - 8 = Z.shiftl (Z.ones 29) 3) as -> by done.
  change 8 with (2 ^ 3) at 1 2. rewrite (Z.mul_comm (2 ^ 3)), <- Z.shiftr_div_pow2, <- Z.shiftl_mul_pow2 by lia. apply Z.bits_inj'. intros i Hi.
  rewrite Z.land_spec, !Z.shiftl_spec by done. destruct (decide (i < 3)); [rewrite !(Z.testbit_neg_r _ (i - 3)) by lia; by rewrite andb_false_r|].
  rewrite Z.shiftr_spec, Z.testbit_ones_nonneg by lia. replace (i - 3 + 3) with i by lia.
  destruct (Z.ltb_spec (i - 3) 29); [by rewrite andb_true_r|]. rewrite andb_false_r. symmetry.
  rewrite <- (Z.mod_small (n + 7) (2 ^ 32)) by lia. apply Z.mod_pow2_bits_high. lia.
Qed.
Lemma mb2_tags_total mem fuel limit tag t :
  0 ≤ tag → (∀ tag', mb2_reach mem limit tag tag' → mb2_headway mem limit tag') →
  2 ^ 32 + Z.max 0 (limit - tag) < Z.of_nat fuel → ∃ t', mb2_tags mem fuel limit tag t = Some t'.
Proof.
  revert tag t. induction fuel as [|fuel IH]; intros tag t H0 Hh Hf; [lia|]. cbn [mb2_tags]. cbv zeta.
  destruct (negb (rd32 mem tag =? 0) && (tag <? limit)) eqn:E; [|by eexists].
  apply andb_prop in E as [Hty%negb_true_iff%Z.eqb_neq Hlt%Z.ltb_lt].
  destruct (Hh tag (reach_here _ _ _) Hty Hlt) as [Hsz Hes].
  set (t1 := if rd32 mem tag =? 4 then _ else _).
  assert (∃ t2, (if rd32 mem tag =? 6 then mb2_entries mem fuel (tag + 16) (rd32 mem (tag + 8)) (u32 (tag + rd32 mem (tag + 4))) t1 else Some t1) = Some t2) as [t2 E2].
  { destruct (Z.eqb_spec (rd32 mem tag) 6) as [E6|]; [|by eexists]. pose proof (rd32_range mem (tag + 8)). specialize (Hes E6).
    apply mb2_entries_total; [lia|]. pose proof (Z.mod_pos_bound (tag + rd32 mem (tag + 4)) (2 ^ 32) ltac:(done)). unfold u32. lia. }
  rewrite E2. cbn [mbind option_bind]. pose proof (rd32_range mem (tag + 4)).
  set (n := if rd32 mem (tag + 4) <? 8 then 8 else rd32 mem (tag + 4)).
  assert (8 ≤ n ≤ 2 ^ 32 - 8) as Hn by (unfold n; destruct (Z.ltb_spec (rd32 mem (tag + 4)) 8); lia).
  pose proof (pad_bound n Hn). apply IH; [lia| |lia].
  intros tag' Hr. apply Hh. by apply reach_next.
Qed.
Lemma detect_ram_total mem fuel mb :
  0 ≤ mb → mb_finite mem mb → 2 ^ 33 < Z.of_nat fuel → ∃ t, detect_ram mem fuel mb = Some t.
Proof.
  intros Hmb Hfin Hf. unfold detect_ram. destruct (Z.eqb_spec mb 0); [by eexists|].
  destruct ((rd32 mem (mb + 4) =? 0) && (0 <? rd32 mem mb) && (rd32 mem mb <? 0x100000)) eqn:E.
  - apply andb_prop in E as [[E1%Z.eqb_eq E2%Z.ltb_lt]%andb_prop E3%Z.ltb_lt].
    destruct (mb2_tags_total mem fuel (mb + rd32 mem mb) (mb + 8) 0) as [t ->]; [lia|by apply Hfin|lia|]. by eexists.
  - pose proof (rd32_range mem (mb + 44)). destruct (mb1_total_returns mem fuel mb (rd32 mem mb)) as [t ->]; [lia|]. by eexists.
Qed.

(** ** A booted allocator *)

(** The file's statics before initialisation. *)
Definition boot : mm := mk_mm ∅ ∅ 0 0 0 0 ∅.

Lemma init_spec mem fuel mb s t :
  detect_ram mem fuel mb = Some t → stat_total_pages s = 0 → stat_used_pages s = 0 →
  ∃ own s', phys_mem_init mem fuel mb s = Some (tt, s') ∧ Buddy own s' ∧
    total_phys_pages s' = t / PAGE_SIZE ∧ phys_mem_end s' = t ∧
    ∀ x, if boot_free (t / PAGE_SIZE) x then is_free own x else own x = None.
Proof.
  intros Hd H1 H2. pose proof (detect_range _ _ _ _ Hd) as Hr. unfold phys_mem_init. rewrite Hd.
  apply build_spec; [lia|done|done].
Qed.

Lemma boot_state :
  ∃ own s, phys_mem_init (λ _, 0) 1 0 boot = Some (tt, s) ∧ Buddy own s ∧ is_free own 512 ∧
           (∀ x, boot_free 16384 x = true → is_free own x) ∧
           total_phys_pages s = 16384 ∧ phys_mem_end s = 16384 * PAGE_SIZE.
Proof.
  destruct (init_spec (λ _, 0) 1 0 boot (64 * MiB)) as (own & s & R & HB & Ht & He & Hx); [done..|].
  assert (64 * MiB / PAGE_SIZE = 16384) as E by done. rewrite E in *.
  exists own, s. split_and!; [done|done| |intros x Hfx|done|by rewrite He].
  - specialize (Hx 512). assert (boot_free 16384 512 = true) as E5 by done. by rewrite E5 in Hx.
  - specialize (Hx x). by rewrite Hfx in Hx.
Qed.

Lemma free_page_block own s x :
  Buddy own s → is_free own x → ∃ b q, own b = Some (b, q, true) ∧ 0 ≤ q ≤ MAX_ORDER.
Proof.
  intros [[fl HI] _ _] (b & q & Hx). pose proof (iv_own _ _ _ HI) as Hw.
  pose proof (ow_order _ Hw _ _ _ _ Hx) as Hq. pose proof (pow2_pos q ltac:(lia)).
  exists b, q. split; [|done]. apply (ow_block _ Hw _ _ _ _ Hx). unfold in_block. lia.
Qed.

(** An allocator with a free page has a page to give. *)
Lemma alloc_page_some own s x :
  Buddy own s → is_free own x →
  ∃ own' p s', alloc_pages 0 s = Some (Some (pfn_to_phys p), s') ∧ Buddy own' s' ∧ allocated own own' p 0.
Proof.
  intros HB Hx. destruct (alloc_pages_Buddy own s 0 HB) as [[_ Hno]|(own' & p & s' & R & HB' & Ha & _)];
    [assert (MAX_ORDER = 10) by done; lia| |by exists own', p, s'].
  destruct (free_page_block _ _ _ HB Hx) as (b & q & Hb & Hq). by destruct (Hno q b); [lia|].
Qed.

(** ** Rejected calls *)
Lemma free_pages_rejects s ptr o :
  ptr < phys_mem_base ∨ MAX_ORDER < o ∨ total_phys_pages s ≤ phys_to_pfn ptr ∨
  (0 ≤ phys_to_pfn ptr < BUDDY_MAX_PAGES ∧
   (reserved s (phys_to_pfn ptr) = true ∨ has (flags (pg s (phys_to_pfn ptr))) PAGE_FLAG_FREE = true)) →
  free_pages ptr o s = Some (tt, s).
Proof.
  intros H. unfold free_pages. destruct (Z.eqb_spec ptr 0); [done|].
  destruct (Z.ltb_spec MAX_ORDER o); [done|]. destruct (Z.ltb_spec ptr phys_mem_base); [done|].
  rewrite bind_gets. destruct (Z.eqb_spec (phys_to_pfn ptr) (2 ^ 64 - 1)); [done|].
  destruct (Z.leb_spec (total_phys_pages s) (phys_to_pfn ptr)); [done|]. cbn [orb].
  destruct H as [?|[?|[?|[Hr H]]]]; [lia..|].
  run (ldp_ok flags _ s Hr). unfold reserved in H.
  destruct (has (flags (pg s (phys_to_pfn ptr))) PAGE_FLAG_RESERVED); [done|].
  destruct H as [|H]; [done|by rewrite H].
Qed.

(** ** Theorems *)

(** C3: [alloc_pages] on a well-formed allocator either returns [NULL], in which
    case there is no free block of the requested order or above and nothing
    changed, or returns the address of an aligned block of [2^order] pages that
    were all free before; these pages are now owned by the caller, every block
    in use before is still in use and untouched, no other free page is lost, and
    the block's memory is zeroed (other memory is not written). *)
Theorem alloc_pages_correct own s o :
  Buddy own s → 0 ≤ o ≤ MAX_ORDER →
  (alloc_pages o s = Some (None, s) ∧ ∀ q x, o ≤ q → own x ≠ Some (x, q, true)) ∨
  (∃ own' p s', alloc_pages o s = Some (Some (pfn_to_phys p), s') ∧ Buddy own' s' ∧
     allocated own own' p o ∧ total_phys_pages s' = total_phys_pages s ∧
     ram s' = filter (λ kv, ¬ (pfn_to_phys p ≤ kv.1 < pfn_to_phys p + PAGE_SIZE * 2 ^ o)) (ram s)).
Proof.
  intros HB Ho. destruct (alloc_pages_Buddy own s o HB Ho) as [H|(own' & p & s' & H)]; [by left|right].
  exists own', p, s'. tauto.
Qed.

(** C4: [free_pages] of a block in use, with its order, keeps the allocator
    well formed and frees exactly the pages of the block; the free block that
    then contains it has no free buddy left to merge with; and a second
    [free_pages] of the same address, with any order, changes nothing. *)
Theorem free_pages_correct own s p o :
  Buddy own s → own p = Some (p, o, false) →
  ∃ own' s', free_pages (pfn_to_phys p) o s = Some (tt, s') ∧ Buddy own' s' ∧ freed own own' p o ∧
    (∃ r q, own' r = Some (r, q, true) ∧ in_block r q p ∧ lone own' r q) ∧
    ∀ o2, free_pages (pfn_to_phys p) o2 s' = Some (tt, s').
Proof.
  intros HB Hp. destruct (free_pages_Buddy own s p o HB Hp)
    as (own' & s' & R & HB' & Hf & Ht & Hr & Hfl & Hm & _).
  exists own', s'. split_and!; [done..|]. intros o2.
  destruct HB as [[fl HI] _ _]. destruct (base_addr _ _ _ _ _ _ HI Hp) as [Ha Hpfn].
  destruct (inv_base _ _ _ _ _ _ HI Hp) as [_ Hpr].
  apply free_pages_rejects. rewrite Hpfn. do 3 right. split; [done|by right].
Qed.

Lemma alloc_pages_correct_witness :
  ∃ own s, Buddy own s ∧ alloc_pages 0 s ≠ Some (None, s) ∧ ∃ p s', alloc_pages 0 s = Some (Some (pfn_to_phys p), s').
Proof.
  destruct boot_state as (own & s & _ & HB & H512 & _). exists own, s. split; [done|].
  destruct (free_page_block _ _ _ HB H512) as (b & q & Hb & Hq).
  destruct (alloc_pages_correct own s 0 HB) as [[_ Hno]|(own' & p & s' & R & _)]; [by split|..].
  - by destruct (Hno q b); [lia|].
  - rewrite R. split; [done|]. by exists p, s'.
Defined.

Lemma free_pages_correct_witness :
  ∃ s p s', free_pages (pfn_to_phys p) 0 s = Some (tt, s') ∧ free_pages (pfn_to_phys p) 0 s' = Some (tt, s').
Proof.
  destruct boot_state as (own & s & _ & HB & H512 & _).
  destruct (alloc_page_some _ _ _ HB H512) as (own' & p & s' & _ & HB' & _ & Ha & _).
  destruct (free_pages_correct own' s' p 0 HB') as (own2 & s2 & R & _ & _ & _ & H2).
  - apply (Ha p). unfold in_block. change (2 ^ 0) with 1. lia.
  - exists s', p, s2. by split.
Defined.

(** Two live allocations never share a byte: the ranges returned by two
    successive successful [alloc_pages] calls are disjoint. *)
Theorem alloc_pages_disjoint own s o1 o2 a1 a2 s1 s2 :
  Buddy own s → 0 ≤ o1 ≤ MAX_ORDER → 0 ≤ o2 ≤ MAX_ORDER →
  alloc_pages o1 s = Some (Some a1, s1) → alloc_pages o2 s1 = Some (Some a2, s2) →
  a1 + PAGE_SIZE * 2 ^ o1 ≤ a2 ∨ a2 + PAGE_SIZE * 2 ^ o2 ≤ a1.
Proof.
  intros HB Ho1 Ho2 R1 R2.
  destruct (alloc_pages_Buddy own s o1 HB Ho1) as [[E _]|(own1 & p1 & s1' & E & HB1 & (_ & A1 & _) & _)];
    rewrite E in R1; simplify_eq.
  destruct (alloc_pages_Buddy own1 s1 o2 HB1 Ho2) as [[E2 _]|(own2 & p2 & s2' & E2 & _ & (_ & A2 & _) & _)];
    rewrite E2 in R2; simplify_eq.
  assert (∀ x, in_block p1 o1 x → in_block p2 o2 x → False) as Hdis.
  { intros x H1 H2. destruct (A1 x H1) as [_ F1], (A2 x H2) as [(b & q & F2) _]. congruence. }
  pose proof (pow2_pos o1 ltac:(lia)). pose proof (pow2_pos o2 ltac:(lia)).
  unfold in_block, pfn_to_phys, PAGE_SIZE, phys_mem_base in *.
  destruct (decide (p1 ≤ p2)); [left; specialize (Hdis p2)|right; specialize (Hdis p1)]; lia.
Qed.

Lemma alloc_pages_disjoint_witness :
  ∃ s a1 s1 a2 s2, alloc_pages 0 s = Some (Some a1, s1) ∧ alloc_pages 0 s1 = Some (Some a2, s2) ∧
    (a1 + PAGE_SIZE * 2 ^ 0 ≤ a2 ∨ a2 + PAGE_SIZE * 2 ^ 0 ≤ a1).
Proof.
  destruct boot_state as (own & s & _ & HB & _ & Hfr & _).
  destruct (alloc_page_some own s 512 HB) as (own1 & p1 & s1 & R1 & HB1 & _ & _ & Hk); [by apply Hfr|].
  assert (∃ x, is_free own1 x) as [x Hx].
  { destruct (decide (p1 = 512)) as [->|]; [exists 513|exists 512]; edestruct Hk as [[_ ?]|[[] _]];
      [|done|by apply Hfr| |done|by apply Hfr]; unfold in_block; change (2 ^ 0) with 1; lia. }
  destruct (alloc_page_some own1 s1 x HB1 Hx) as (own2 & p2 & s2 & R2 & _).
  eexists s, _, s1, _, s2. split; [exact R1|]. split; [exact R2|].
  eapply (alloc_pages_disjoint own s 0 0); [done|by split|by split|exact R1|exact R2].
Defined.

Lemma used_of_free own own' x u u' :
  own x = u → own' x = u' →
  (is_free own x ∧ is_free own' x) ∨ (¬ is_free own x ∧ own' x = own x) → used own' x ↔ used own x.
Proof.
  intros _ _. unfold is_free, used. intros [[(b & q & ->) (b' & q' & ->)]|[_ ->]]; done.
Qed.

(** Freeing what was just allocated restores the allocator: the same pages
    are free as before, and the used-page counter is back at its value. *)
Theorem alloc_free_roundtrip own s o a s1 :
  Buddy own s → 0 ≤ o ≤ MAX_ORDER → alloc_pages o s = Some (Some a, s1) →
  ∃ own2 s2, free_pages a o s1 = Some (tt, s2) ∧ Buddy own2 s2 ∧
    (∀ x, is_free own2 x ↔ is_free own x) ∧ stat_used_pages s2 = stat_used_pages s.
Proof.
  intros HB Ho R.
  destruct (alloc_pages_Buddy own s o HB Ho) as [[E _]|(own1 & p & s1' & E & HB1 & (_ & Ain & Aout) & _)];
    rewrite E in R; simplify_eq.
  pose proof (pow2_pos o ltac:(lia)).
  assert (in_block p o p) as Hpp by (unfold in_block; lia).
  destruct (free_pages_Buddy own1 s1 p o HB1 (proj2 (Ain p Hpp))) as (own2 & s2 & R2 & HB2 & [Fin Fout] & _).
  assert (∀ x, (is_free own x ∧ is_free own2 x) ∨ (¬ is_free own x ∧ own2 x = own x)) as Hx.
  { intros x. destruct (decide (p ≤ x < p + 2 ^ o)) as [Hi|Hi].
    - left. split; [by apply Ain|by apply Fin].
    - destruct (Aout x Hi) as [[? ?]|[Hn E1]], (Fout x Hi) as [[? ?]|[Hn2 E2]]; try tauto.
      + unfold is_free in *. rewrite E1 in *. tauto.
      + right. split; [done|congruence]. }
  exists own2, s2. split_and!; [done|done| |].
  - intros x. destruct (Hx x) as [?|[? E2]]; [tauto|]. unfold is_free in *. by rewrite E2.
  - rewrite (bd_used _ _ HB2), (bd_used _ _ HB). apply pages_with_ext. intros x.
    by eapply used_of_free.
Qed.

Lemma alloc_free_roundtrip_witness :
  ∃ s a s1 s2, alloc_pages 0 s = Some (Some a, s1) ∧ free_pages a 0 s1 = Some (tt, s2) ∧
    stat_used_pages s2 = stat_used_pages s.
Proof.
  destruct boot_state as (own & s & _ & HB & H512 & _).
  destruct (alloc_page_some _ _ _ HB H512) as (own1 & p & s1 & R1 & _).
  destruct (alloc_free_roundtrip own s 0 (pfn_to_phys p) s1 HB) as (own2 & s2 & R2 & _ & _ & Hu); [by split|exact R1|].
  by eexists s, _, s1, s2.
Defined.

(** [free_pages] ignores every bad argument: [NULL] and addresses below the
    managed range, orders above [MAX_ORDER], page frames past the end of memory,
    reserved pages, and pages whose descriptor is already marked free. *)
Theorem free_pages_guards s ptr o :
  ptr < phys_mem_base ∨ MAX_ORDER < o ∨ total_phys_pages s ≤ phys_to_pfn ptr ∨
  (0 ≤ phys_to_pfn ptr < BUDDY_MAX_PAGES ∧
   (reserved s (phys_to_pfn ptr) = true ∨ has (flags (pg s (phys_to_pfn ptr))) PAGE_FLAG_FREE = true)) →
  free_pages ptr o s = Some (tt, s).
Proof. apply free_pages_rejects. Qed.

Lemma free_pages_guards_witness : free_pages 0 0 boot = Some (tt, boot).
Proof. apply free_pages_guards. by left. Defined.

(** C5: initialisation from boot information.  [phys_mem_init] returns if there
    is none, if it is read as Multiboot1, whatever its contents, and if it is
    read as Multiboot2 and the walk makes headway at every tag it reaches
    ([mb_finite]); 2^33 steps are enough.  The RAM it detects is positive and
    at most 256 MiB, the allocator it builds is well formed, and its free pages
    are exactly the managed page frames outside the two that are always
    reserved, 0 to 2 MiB and 8 to 32 MiB counted from frame 0 (which is at
    1 MiB): whatever the boot loader's map says of ACPI, MMIO or firmware
    regions, none is reserved. *)
Theorem phys_mem_init_correct mem fuel mb s :
  0 ≤ mb → mb_finite mem mb → 2 ^ 33 < Z.of_nat fuel → stat_total_pages s = 0 → stat_used_pages s = 0 →
  ∃ t own s', detect_ram mem fuel mb = Some t ∧ 0 < t ≤ max_ram ∧
    phys_mem_init mem fuel mb s = Some (tt, s') ∧ Buddy own s' ∧ total_phys_pages s' = t / PAGE_SIZE ∧
    ∀ x, if boot_free (t / PAGE_SIZE) x then is_free own x else own x = None.
Proof.
  intros Hmb Hfin Hf H1 H2. destruct (detect_ram_total mem fuel mb Hmb Hfin Hf) as [t Hd].
  destruct (init_spec mem fuel mb s t Hd H1 H2) as (own & s' & R & HB & Ht & _ & Hx).
  exists t, own, s'. split; [done|]. split; [by eapply detect_range|]. by split_and!.
Qed.

(** A Multiboot2 structure with a basic-memory tag and an end tag. *)
Definition mb2_mem (a : Z) : Z := nth (Z.to_nat (a - 0x1000)) [32;0;0;0; 0;0;0;0; 4;0;0;0; 16;0;0;0; 128;2;0;0; 0;252;1;0; 0;0;0;0; 8;0;0;0] 0.
Lemma phys_mem_init_correct_witness :
  ∃ fuel t own s', detect_ram mb2_mem fuel 0x1000 = Some t ∧ phys_mem_init mb2_mem fuel 0x1000 boot = Some (tt, s') ∧ Buddy own s'.
Proof.
  assert (2 ^ 33 < Z.of_nat (Z.to_nat (2 ^ 33 + 1))) as Hf by (rewrite Z2Nat.id by lia; lia). revert Hf.
  generalize (Z.to_nat (2 ^ 33 + 1)). intros fuel Hf. exists fuel.
  destruct (phys_mem_init_correct mb2_mem fuel 0x1000 boot) as (t & own & s' & Hd & _ & R & HB & _).
  - discriminate.
  - intros _ _ _. assert (∀ tag, mb2_reach mb2_mem (0x1000 + rd32 mb2_mem 0x1000) (0x1000 + 8) tag → tag = 0x1008 ∨ tag = 0x1018) as H.
    { change (0x1000 + rd32 mb2_mem 0x1000) with 0x1020. change (0x1000 + 8) with 0x1008. intros tag H.
      inversion H as [|? ? _ _ H2]; subst; [by left|right]. vm_compute in H2.
      inversion H2 as [|? ? Hty _ _]; subst; [done|]. by destruct Hty. }
    intros tag Hr _ _. destruct (H tag Hr) as [-> | ->]; by vm_compute.
  - exact Hf.
  - reflexivity.
  - reflexivity.
  - exists t, own, s'. split; [exact Hd|]. split; [exact R|exact HB].
Defined.

(** The Multiboot1 path of memory detection terminates on every memory
    content: one step more than the byte length of the map suffices. *)
Theorem detect_ram_mb1_terminates mem fuel mb :
  (Z.to_nat (rd32 mem (mb + 44)) < fuel)%nat →
  rd32 mem (mb + 4) ≠ 0 → ∃ t, detect_ram mem fuel mb = Some t.
Proof.
  intros Hf H2. unfold detect_ram. destruct (mb =? 0); [simpl; eauto|].
  destruct (Z.eqb_spec (rd32 mem (mb + 4)) 0); [done|]. cbn [andb].
  destruct (mb1_total_returns mem fuel mb (rd32 mem mb) Hf) as [t ->]. simpl. eauto.
Qed.

Lemma detect_ram_mb1_terminates_witness : ∃ t, detect_ram (λ a, if a =? 4104 then 2 else if a =? 4100 then 1 else 0) 1 4096 = Some t.
Proof. apply detect_ram_mb1_terminates; [vm_compute; lia|done]. Defined.

(** [mem_get_stats] counts pages without overflow: the used bytes are those
    of the pages in use, and total is used plus free. *)
Theorem mem_get_stats_correct own s :
  Buddy own s →
  ∃ total free u, mem_get_stats s = Some ((total, free, u), s) ∧
    total = free + u ∧ u = PAGE_SIZE * pages_with (used own) ∧
    total = PAGE_SIZE * pages_with (owned own) ∧ 0 ≤ free.
Proof.
  intros [_ Hu Ht]. unfold mem_get_stats, gets. eexists _, _, _. split; [reflexivity|].
  rewrite Hu, Ht. pose proof (pages_with_bound (used own)). pose proof (pages_with_bound (owned own)).
  assert (pages_with (used own) ≤ pages_with (owned own)) as Hle.
  { unfold pages_with. apply inj_le. rewrite <- (list_filter_filter_l (used own) (owned own)); [apply length_filter|].
    intros x. unfold used, owned. destruct (own x); [done|by intros []]. }
  assert (BUDDY_MAX_PAGES = 65536) by done. unfold u64, PAGE_SIZE.
  rewrite !(Z.mod_small (_ * 4096)) by lia. rewrite Z.mod_small by lia. lia.
Qed.

Lemma mem_get_stats_correct_witness :
  ∃ s total free u, mem_get_stats s = Some ((total, free, u), s) ∧ total = free + u.
Proof.
  destruct boot_state as (own & s & _ & HB & _).
  destruct (mem_get_stats_correct own s HB) as (t & f & u & R & E & _). by exists s, t, f, u.
Defined.

(** ** What the code does beyond its intent *)

(** A Multiboot2 memory-map tag whose entry size is zero is walked for ever. *)
Theorem mb2_zero_entry_size_diverges mem fuel entries tag_end total :
  entries ≤ tag_end → mb2_entries mem fuel entries 0 tag_end total = None.
Proof.
  revert total. induction fuel as [|fuel IH]; intros total H; [done|]. cbn [mb2_entries].
  rewrite Z.add_0_r. destruct (Z.leb_spec entries tag_end); [by apply IH|lia].
Qed.

(** A tag whose size is within 7 of 2^32 is walked for ever: the padded size
    wraps round to zero. *)
Theorem mb2_tag_size_wraps mem fuel limit tag t :
  rd32 mem tag ≠ 0 → rd32 mem tag ≠ 6 → tag < limit → 2 ^ 32 - 7 ≤ rd32 mem (tag + 4) → mb2_tags mem fuel limit tag t = None.
Proof.
  intros H0 H6 Hl Hs. revert t. induction fuel as [|fuel IH]; intros t; [done|]. cbn [mb2_tags]. cbv zeta.
  rewrite (proj2 (Z.eqb_neq _ _) H0), (proj2 (Z.ltb_lt _ _) Hl), (proj2 (Z.eqb_neq _ _) H6). cbn [negb andb mbind option_bind].
  rewrite (proj2 (Z.ltb_ge _ _)) by lia. pose proof (rd32_range mem (tag + 4)) as Hr.
  assert (u32 (rd32 mem (tag + 4) + 7) = rd32 mem (tag + 4) + 7 - 2 ^ 32) as ->.
  { unfold u32. symmetry. apply Z.mod_unique with 1; lia. }
  assert (Z.land (rd32 mem (tag + 4) + 7 - 2 ^ 32) (2 ^ 32 - 8) = 0) as ->; [|rewrite Z.add_0_r; apply IH].
  apply Z.bits_inj'. intros i Hi. rewrite Z.land_spec, Z.bits_0. assert (2 ^ 32 - 8 = Z.shiftl (Z.ones 29) 3) as -> by done. rewrite Z.shiftl_spec by done.
  destruct (decide (i < 3)); [rewrite (Z.testbit_neg_r _ (i - 3)) by lia; apply andb_false_r|].
  rewrite <- (Z.mod_small (rd32 mem (tag + 4) + 7 - 2 ^ 32) (2 ^ 3)) by lia. by rewrite Z.mod_pow2_bits_high by lia.
Qed.

(** A memory map laid out as the Multiboot1 specification says, base address
    right after the 4-byte size: two available regions, of 128 MiB and 64 MiB.
    [struct mb1_mmap_entry] is not packed, so the walk reads the members at
    offsets 8, 16 and 24 and finds no available region at all. *)
Definition e820_map : list Z :=
  [20;0;0;0; 0;0;0;0; 0;0;0;0; 0;0;0;8; 0;0;0;0; 1;0;0;0;
   20;0;0;0; 0;0;0;8; 0;0;0;0; 0;0;0;4; 0;0;0;0; 1;0;0;0].
Definition e820_mem (a : Z) : Z := nth (Z.to_nat (a - 0x9000)) e820_map 0.
Theorem e820_entries_misread :
  rd64 e820_mem (0x9000 + 4) = 0 ∧ rd64 e820_mem (0x9000 + 12) = 128 * MiB ∧
  rd32 e820_mem (0x9000 + 20) = 1 ∧
  mb1_entries e820_mem 10 0x9000 (0x9000 + 48) 0 = Some 0.
Proof. by vm_compute. Qed.

(** Page frame 0 is at 1 MiB but the number of frames is [total_ram / PAGE_SIZE]:
    the last page the allocator may hand out lies beyond the end of RAM. *)
Theorem init_manages_pages_past_ram mem fuel mb s t :
  detect_ram mem fuel mb = Some t → stat_total_pages s = 0 → stat_used_pages s = 0 →
  (PAGE_SIZE | t) → 32 * MiB < t →
  ∃ own s' x, phys_mem_init mem fuel mb s = Some (tt, s') ∧ Buddy own s' ∧ is_free own x ∧
    phys_mem_end s' = t ∧ t ≤ pfn_to_phys x.
Proof.
  intros Hd H1 H2 Hdiv Ht. destruct (init_spec mem fuel mb s t Hd H1 H2) as (own & s' & R & HB & _ & He & Hx).
  exists own, s', (t / PAGE_SIZE - 1). split; [exact R|]. split; [exact HB|].
  destruct Hdiv as [n ->]. rewrite Z.div_mul in Hx |- * by done.
  assert (32 * MiB = 8192 * PAGE_SIZE) as E by done. rewrite E in Ht.
  apply Z.mul_lt_mono_pos_r in Ht; [|done].
  specialize (Hx (n - 1)). unfold boot_free, heap_end_pfn in Hx.
  assert (32 * MiB / PAGE_SIZE = 8192) as E2 by done. rewrite E2 in Hx.
  assert (kernel_reserved_pages = 512) as E3 by done. rewrite E3 in Hx.
  rewrite bool_decide_eq_true_2, bool_decide_eq_false_2 in Hx;
    [|destruct (Z.ltb_spec n 8192); lia|lia].
  split; [exact Hx|]. split; [exact He|]. unfold pfn_to_phys, phys_mem_base, PAGE_SIZE. lia.
Qed.

(** [buddy_coalesce_all] takes [result != p] for "a merge happened", but when
    [p] is the lower half [buddy_merge] returns [p] itself and the pass goes on
    along the next order's list.  With the page runs below the pair 516, 517 is
    left unmerged at order 0. *)
Definition unmerged_run : option (option Z * option Z * option Z) :=
  (buddy_mark_available 516 518 ;;; buddy_mark_available 513 514 ;;; buddy_mark_available 512 513 ;;;
   buddy_coalesce_all ;;;
   h0 <- ld_head 0 ;; n0 <- (match h0 with Some p => ldp next p | None => ret None end) ;;
   h1 <- ld_head 1 ;; ret (h0, n0, h1)) (mk_mm ∅ ∅ 1024 (1024 * PAGE_SIZE) 0 0 ∅)
  ≫= (λ r, Some r.1).
Theorem coalesce_all_leaves_a_pair : unmerged_run = Some (Some 517, Some 516, Some 512).
Proof. vm_compute. reflexivity. Qed.
