(* ===== verification/Slab.v ===== *)
(** * kernel/mem.c: the slab allocator of kernel objects.

    Eight caches of objects of 32 to 4096 bytes over the page allocator.  A free
    object holds the address of the next one in its first word, which is a word
    of the allocator's [ram]; [struct slab_cache] is the element of
    [slab_caches] at its index.  Here each call runs alone; two CPUs are the
    subject of the end of [SlabThms]. *)
From S2P Require Import Prelude Buddy.
Local Open Scope Z_scope.
Local Open Scope kernel_scope.

Definition SLAB_MIN_SHIFT : Z := 5.
Definition SLAB_MAX_SHIFT : Z := 12.
Definition SLAB_NUM_CACHES : Z := SLAB_MAX_SHIFT - SLAB_MIN_SHIFT + 1.
Definition SIZE_MAX : Z := 2 ^ 64 - 1.

(** ** State *)
Record slab_cache := mk_cache {
  obj_size : Z;
  objs_per_page : Z;
  partial : option Z;
  full : option Z;
  free_list : Z;
  growing : bool
}.
Definition cache0 : slab_cache := mk_cache 0 0 None None 0 false.
Definition set_free_list (v : Z) (c : slab_cache) : slab_cache :=
  mk_cache (obj_size c) (objs_per_page c) (partial c) (full c) v (growing c).
Definition set_growing (v : bool) (c : slab_cache) : slab_cache :=
  mk_cache (obj_size c) (objs_per_page c) (partial c) (full c) (free_list c) v.

(** The page allocator's state and [slab_caches]. *)
Record kheap := mk_kheap { kmem : mm; slab_caches : gmap Z slab_cache }.
Definition KH := ST kheap.

Definition cache (h : kheap) (i : Z) : slab_cache := default cache0 (slab_caches h !! i).
Definition in_pages {A} (m : MM A) : KH A :=
  λ h, match m (kmem h) with Some (a, s) => Some (a, mk_kheap s (slab_caches h)) | None => None end.
Definition ok_cache (i : Z) : bool := bool_decide (0 ≤ i < SLAB_NUM_CACHES).
Definition ld_cache {A} (f : slab_cache → A) (i : Z) : KH A :=
  λ h, if ok_cache i then Some (f (cache h i), h) else None.
Definition st_cache (i : Z) (g : slab_cache → slab_cache) : KH unit :=
  λ h, if ok_cache i then Some (tt, mk_kheap (kmem h) (<[i := g (cache h i)]> (slab_caches h))) else None.

(** The pointer stored at [a]. *)
Definition word (s : mm) (a : Z) : Z := default 0 (ram s !! a).
Definition ld_word (a : Z) : KH Z := gets (λ h, word (kmem h) a).
Definition st_word (a v : Z) : KH unit := in_pages (modify (λ s, set_ram (<[a := v]> (ram s)) s)).

(** ** Caches *)
Definition slab_size_to_index (size : Z) : Z :=
  if size <=? 32 then 0 else
  if size <=? 64 then 1 else
  if size <=? 128 then 2 else
  if size <=? 256 then 3 else
  if size <=? 512 then 4 else
  if size <=? 1024 then 5 else
  if size <=? 2048 then 6 else 7.
Definition slab_index_to_size (idx : Z) : Z := Z.shiftl 32 idx.

(** [obj_size] raised to a pointer's size and rounded up to a multiple of it. *)
Definition align_obj (obj_size : Z) : Z :=
  let obj_size := if obj_size <? 8 then 8 else obj_size in
  Z.ldiff (u64 (obj_size + 8 - 1)) 7.

(** [obj->next = cache->free_list; cache->free_list = obj]. *)
Definition push_obj (i obj : Z) : KH unit :=
  fl <- ld_cache free_list i ;;
  st_word obj fl ;;;
  st_cache i (set_free_list obj).

(** [for (size_t i = 0; i + obj_size <= PAGE_SIZE; i += obj_size)]. *)
Fixpoint carve (fuel : nat) (idx base obj_size i : Z) : KH unit :=
  match fuel with
  | O => fail
  | S fuel =>
      if i + obj_size <=? PAGE_SIZE then
        push_obj idx (base + i) ;;;
        carve fuel idx base obj_size (i + obj_size)
      else ret tt
  end.
(** An object has at least eight bytes, so a page has at most 512. *)
Definition carve_fuel : nat := 513.

Definition slab_grow (idx : Z) : KH Z :=
  page <- in_pages alloc_page ;;
  match page with
  | None => ret (-1)
  | Some base =>
      osz <- ld_cache obj_size idx ;;
      carve carve_fuel idx base (align_obj osz) 0 ;;;
      pg <- in_pages (get_page_struct base) ;;
      match pg with
      | Some p =>
          in_pages (stp p (λ d, set_flags (Z.lor (flags d) PAGE_FLAG_SLAB) d)) ;;;
          in_pages (stp p (set_cache (Some idx))) ;;;
          ret 0
      | None => ret 0
      end
  end.

Definition slab_init : KH unit :=
  for_range (Z.to_nat SLAB_NUM_CACHES) 0 (λ i,
    st_cache i (λ c, mk_cache (slab_index_to_size i) (PAGE_SIZE / slab_index_to_size i)
                              None None 0 (growing c))).

(** The label [slab_pop]. *)
Definition slab_pop (idx : Z) : KH (option Z) :=
  obj <- ld_cache free_list idx ;;
  n <- ld_word obj ;;
  st_cache idx (set_free_list n) ;;;
  osz <- ld_cache obj_size idx ;;
  in_pages (zero_ram obj osz) ;;;
  ret (Some obj).

(** [while ((1ULL << order) < pages_needed && order <= MAX_ORDER) order++]. *)
Fixpoint order_of (fuel : nat) (pages_needed order : Z) : option Z :=
  match fuel with
  | O => None
  | S fuel =>
      if (Z.shiftl 1 order <? pages_needed) && (order <=? MAX_ORDER)
      then order_of fuel pages_needed (order + 1) else Some order
  end.

Definition kmalloc_large (size : Z) : KH (option Z) :=
  if SIZE_MAX - PAGE_SIZE <? size then ret None else
  let pages_needed := (size + PAGE_SIZE - 1) / PAGE_SIZE in
  match order_of 13 pages_needed 0 with
  | None => fail
  | Some order => if MAX_ORDER <? order then ret None else in_pages (alloc_pages order)
  end.

(** Without another thread the list stays empty and [growing] stays set while
    the lock is open, and the call gives up. *)
Definition kmalloc (size : Z) : KH (option Z) :=
  if size =? 0 then ret None else
  if size <=? PAGE_SIZE then
    let idx := slab_size_to_index size in
    fl <- ld_cache free_list idx ;;
    if negb (fl =? 0) then slab_pop idx else
    g <- ld_cache growing idx ;;
    if (g : bool) then ret None else
    st_cache idx (set_growing true) ;;;
    r <- slab_grow idx ;;
    st_cache idx (set_growing false) ;;;
    if negb (r =? 0) then ret None else
    fl <- ld_cache free_list idx ;;
    if fl =? 0 then ret None else slab_pop idx
  else kmalloc_large size.

Definition kfree (ptr : Z) : KH unit :=
  if ptr =? 0 then ret tt else
  pg <- in_pages (get_page_struct ptr) ;;
  match pg with
  | None => in_pages (free_pages ptr 0)
  | Some p =>
      fl <- in_pages (ldp flags p) ;;
      if has fl PAGE_FLAG_SLAB then
        c <- in_pages (ldp Buddy.slab_cache p) ;;
        match c with
        | None => in_pages (free_page ptr)
        | Some idx =>
            osz <- ld_cache obj_size idx ;;
            in_pages (zero_ram ptr osz) ;;;
            push_obj idx ptr
        end
      else
        o <- in_pages (ldp order p) ;;
        in_pages (free_pages ptr o)
  end.

(** [while (obj) { *total_free += obj_size; obj = next; }]. *)
Fixpoint count_free (fuel : nat) (osz obj total : Z) : KH Z :=
  match fuel with
  | O => fail
  | S fuel =>
      if obj =? 0 then ret total else
      n <- ld_word obj ;;
      count_free fuel osz n (u64 (total + osz))
  end.
(** No cache holds more objects than fit into all pages. *)
Definition stats_fuel : nat := Z.to_nat (BUDDY_MAX_PAGES * 128 + 1).
Lemma stats_fuel_eq : stats_fuel = Z.to_nat (BUDDY_MAX_PAGES * 128 + 1).
Proof. done. Qed.
#[global] Opaque stats_fuel.

Fixpoint slab_stats_from (n : nat) (i total : Z) : KH Z :=
  match n with
  | O => ret total
  | S n =>
      c <- gets (λ h, cache h i) ;;
      total <- count_free stats_fuel (obj_size c) (free_list c) total ;;
      slab_stats_from n (i + 1) total
  end.
(** [(total_alloc, total_free)]. *)
Definition slab_get_stats : KH (Z * Z) :=
  total <- slab_stats_from (Z.to_nat SLAB_NUM_CACHES) 0 0 ;;
  ret (0, total).
