(* ===== verification/SlabInv.v ===== *)
(** * kernel/mem.c: the invariant of the object caches.

    A ghost map [sl] sends every slab page to the index of its cache, and [fl]
    gives the free objects of every cache in list order; an object that is not
    on a list is live.  [Heap] ties them to the page allocator's ownership. *)
From S2P Require Import Prelude Buddy BuddyLists BuddyInv BuddyOps BuddySpec Slab.
Local Open Scope Z_scope.
Local Open Scope kernel_scope.

(** ** Lists through the first word of the objects *)
Fixpoint links (r : gmap Z Z) (a : Z) (l : list Z) : Prop :=
  match l with
  | [] => a = 0
  | x :: l => a = x ∧ x ≠ 0 ∧ links r (default 0 (r !! x)) l
  end.
Lemma links_ext r r' a l : (∀ x, x ∈ l → r' !! x = r !! x) → links r a l → links r' a l.
Proof.
  revert a. induction l as [|x l IH]; intros a Hx; [done|]. intros (-> & Hn & Hl). split; [done|]. split; [done|].
  rewrite Hx by left. apply IH; [|done]. intros y Hy. apply Hx. by right.
Qed.

(** ** Objects *)
Definition slabs := Z → option Z.
Definition osize (i : Z) : Z := 32 * 2 ^ i.
Definition object (sl : slabs) (i a : Z) : Prop :=
  ∃ p k, sl p = Some i ∧ 0 ≤ k < PAGE_SIZE / osize i ∧ a = pfn_to_phys p + k * osize i.
Definition live (sl : slabs) (fl : Z → list Z) (i a : Z) : Prop := object sl i a ∧ a ∉ fl i.

Lemma class_cases (P : Z → Prop) :
  P 0 → P 1 → P 2 → P 3 → P 4 → P 5 → P 6 → P 7 → ∀ i, 0 ≤ i < SLAB_NUM_CACHES → P i.
Proof.
  intros. assert (SLAB_NUM_CACHES = 8) by done.
  assert (i = 0 ∨ i = 1 ∨ i = 2 ∨ i = 3 ∨ i = 4 ∨ i = 5 ∨ i = 6 ∨ i = 7) as Hi by lia.
  destruct Hi as [->|[->|[->|[->|[->|[->|[->| ->]]]]]]]; done.
Qed.
Lemma osize_facts i : 0 ≤ i < SLAB_NUM_CACHES →
  slab_index_to_size i = osize i ∧ align_obj (osize i) = osize i ∧ 32 ≤ osize i ≤ PAGE_SIZE ∧
  PAGE_SIZE / osize i * osize i = PAGE_SIZE ∧ 1 ≤ PAGE_SIZE / osize i ≤ 128.
Proof. revert i. by apply class_cases. Qed.

Record Heap (own : ownership) (sl : slabs) (fl : Z → list Z) (h : kheap) : Prop := mk_Heap {
  hp_buddy : Buddy own (kmem h);
  hp_class : ∀ p i, sl p = Some i → 0 ≤ i < SLAB_NUM_CACHES;
  hp_page : ∀ p i, sl p = Some i → own p = Some (p, 0, false);
  hp_flag : ∀ p, has (flags (pg (kmem h) p)) PAGE_FLAG_SLAB = bool_decide (is_Some (sl p));
  hp_owner : ∀ p i, sl p = Some i → Buddy.slab_cache (pg (kmem h) p) = Some i;
  hp_cache : ∀ i, 0 ≤ i < SLAB_NUM_CACHES → ∃ c, slab_caches h !! i = Some c ∧ obj_size c = osize i ∧
    links (ram (kmem h)) (free_list c) (fl i);
  hp_free : ∀ i a, a ∈ fl i → object sl i a;
  hp_nodup : ∀ i, NoDup (fl i)
}.
(** No cache is growing: between calls. *)
Definition idle (h : kheap) : Prop := ∀ i, growing (cache h i) = false.

Lemma cache_lookup h i c : slab_caches h !! i = Some c → cache h i = c.
Proof. unfold cache. by intros ->. Qed.

(** ** Where objects lie *)
Lemma page_address x : phys_mem_base ≤ pfn_to_phys x ↔ 0 ≤ x.
Proof. unfold pfn_to_phys, phys_mem_base, PAGE_SIZE. lia. Qed.

Section heap.
Context {own : ownership} {sl : slabs} {fl : Z → list Z} {h : kheap} (HH : Heap own sl fl h).

Lemma slab_range p i : sl p = Some i → 0 ≤ p < BUDDY_MAX_PAGES ∧ p < total_phys_pages (kmem h).
Proof.
  intros Hp. destruct (hp_buddy _ _ _ _ HH) as [[f HI] _ _]. pose proof (hp_page _ _ _ _ HH _ _ Hp) as Ho.
  split; [by apply (inv_base _ _ _ _ _ _ HI Ho)|by apply (iv_managed _ _ _ HI _ _ Ho)].
Qed.

Lemma object_place i a : object sl i a → ∃ p k, sl p = Some i ∧ 0 ≤ i < SLAB_NUM_CACHES ∧
  a = pfn_to_phys p + k * osize i ∧ pfn_to_phys p ≤ a ∧ a + osize i ≤ pfn_to_phys p + PAGE_SIZE ∧
  phys_to_pfn a = p ∧ phys_mem_base ≤ a.
Proof.
  intros (p & k & Hp & Hk & ->). exists p, k. pose proof (hp_class _ _ _ _ HH _ _ Hp) as Hi.
  destruct (osize_facts i Hi) as (_ & _ & Hs & Hd & Hn). destruct (slab_range _ _ Hp) as [Hr _].
  assert (0 ≤ k * osize i ∧ k * osize i + osize i ≤ PAGE_SIZE) as Hb by nia.
  split_and!; [done|lia..| |]; unfold phys_to_pfn, pfn_to_phys, phys_mem_base, PAGE_SIZE in *.
  - destruct (Z.ltb_spec (1048576 + p * 4096 + k * osize i) 1048576); [lia|].
    symmetry. apply Z.div_unique with (k * osize i); lia.
  - lia.
Qed.

(** Objects never overlap. *)
Lemma objects_disjoint i a j b :
  object sl i a → object sl j b → (i = j ∧ a = b) ∨ a + osize i ≤ b ∨ b + osize j ≤ a.
Proof.
  intros Ha Hb. destruct (object_place _ _ Ha) as (p & k & Hp & Hi & Ea & H1 & H2 & _).
  destruct (object_place _ _ Hb) as (q & m & Hq & _ & Eb & H3 & H4 & _).
  destruct (osize_facts i Hi) as (_ & _ & Hs & _). destruct (decide (p = q)) as [->|Hne].
  - rewrite Hp in Hq. injection Hq as <-. destruct (decide (k = m)) as [->|]; [left; lia|right; nia].
  - right. unfold pfn_to_phys in *. unfold PAGE_SIZE in *. nia.
Qed.

Lemma object_nz i a : object sl i a → a ≠ 0.
Proof. intros (p & k & _ & _ & _ & _ & _ & _ & H)%object_place. unfold phys_mem_base in H. lia. Qed.

Lemma hp_lists i a : a ∈ fl i → 0 ≤ i < SLAB_NUM_CACHES.
Proof. intros (p & k & Hp & _)%(hp_free _ _ _ _ HH). by apply (hp_class _ _ _ _ HH _ _ Hp). Qed.

(** ** Steps *)
Lemma ld_cache_ok {A} (f : slab_cache → A) i c :
  0 ≤ i < SLAB_NUM_CACHES → slab_caches h !! i = Some c → ld_cache f i h = Some (f c, h).
Proof. intros Hi Hc. unfold ld_cache, ok_cache. rewrite bool_decide_eq_true_2 by done. by rewrite (cache_lookup _ _ _ Hc). Qed.
End heap.

Lemma st_cache_ok i g c h :
  0 ≤ i < SLAB_NUM_CACHES → slab_caches h !! i = Some c →
  st_cache i g h = Some (tt, mk_kheap (kmem h) (<[i := g c]> (slab_caches h))).
Proof. intros Hi Hc. unfold st_cache, ok_cache. rewrite bool_decide_eq_true_2 by done. by rewrite (cache_lookup _ _ _ Hc). Qed.

(** ** Carving a page *)
Fixpoint carved (n : nat) (a sz : Z) (l : list Z) : list Z :=
  match n with O => l | S n => carved n (a + sz) sz (a :: l) end.
Lemma elem_of_carved n a sz l x :
  x ∈ carved n a sz l ↔ x ∈ l ∨ ∃ j, 0 ≤ j < Z.of_nat n ∧ x = a + j * sz.
Proof.
  revert a l. induction n as [|n IH]; intros a l; cbn [carved].
  - split; [tauto|]. intros [?|(j & ? & _)]; [done|lia].
  - rewrite IH, elem_of_cons. split.
    + intros [[->|?]|(j & Hj & ->)]; [right; exists 0; lia|tauto|right; exists (j + 1); lia].
    + intros [?|(j & Hj & ->)]; [tauto|]. destruct (decide (j = 0)) as [->|]; [left; left; lia|].
      right. exists (j - 1). lia.
Qed.
Lemma carved_nodup n a sz l :
  0 < sz → NoDup l → (∀ j, 0 ≤ j < Z.of_nat n → a + j * sz ∉ l) → NoDup (carved n a sz l).
Proof.
  intros Hsz. revert a l. induction n as [|n IH]; intros a l Hl Hn; cbn [carved]; [done|].
  apply IH.
  - constructor; [|done]. intros Hin. by destruct (Hn 0); [lia|replace (a + 0 * sz) with a by lia].
  - intros j Hj [E|Hin]%elem_of_cons; [nia|]. destruct (Hn (j + 1)); [lia|]. by replace (a + (j + 1) * sz) with (a + sz + j * sz) by lia.
Qed.
Lemma links_head r a l x : links r a l → x ∈ l → x ≠ 0.
Proof.
  revert a. induction l as [|y l IH]; intros a; [by intros _ Hx%elem_of_nil|]. intros (-> & Hy & Hl).
  intros [->|Hx]%elem_of_cons; [done|by eapply IH].
Qed.

Lemma push_obj_ok i a c h :
  0 ≤ i < SLAB_NUM_CACHES → slab_caches h !! i = Some c →
  push_obj i a h = Some (tt, mk_kheap (set_ram (<[a := free_list c]> (ram (kmem h))) (kmem h))
                                      (<[i := set_free_list a c]> (slab_caches h))).
Proof.
  intros Hi Hc. unfold push_obj. rewrite (bind_Some _ _ _ _ _ (ld_cache_ok free_list i c Hi Hc)).
  unfold st_word, in_pages, modify, bind. by rewrite (st_cache_ok i _ c) by done.
Qed.
Lemma links_push r a l x : links r a l → x ≠ 0 → x ∉ l → links (<[x := a]> r) x (x :: l).
Proof.
  intros Hl Hx Hn. cbn [links]. split_and!; [done|done|]. rewrite lookup_insert_eq. eapply links_ext; [|exact Hl].
  intros y Hy. rewrite lookup_insert_ne by (by intros ->). done.
Qed.

Lemma carve_spec n fuel i base sz k h c l :
  0 ≤ i < SLAB_NUM_CACHES → slab_caches h !! i = Some c → 0 < sz → 0 < base → 0 ≤ k →
  k + Z.of_nat n * sz = PAGE_SIZE → (n < fuel)%nat →
  links (ram (kmem h)) (free_list c) l → (∀ j, 0 ≤ j < Z.of_nat n → base + k + j * sz ∉ l) →
  ∃ r f, carve fuel i base sz k h =
      Some (tt, mk_kheap (set_ram r (kmem h)) (<[i := set_free_list f c]> (slab_caches h))) ∧
    links r f (carved n (base + k) sz l) ∧
    ∀ w, (∀ j, 0 ≤ j < Z.of_nat n → w ≠ base + k + j * sz) → r !! w = ram (kmem h) !! w.
Proof.
  intros Hi. revert fuel k h c l. induction n as [|n IH]; intros fuel k h c l Hc Hsz Hb Hk Hn Hf Hl Hfresh;
    (destruct fuel as [|fuel]; [lia|]); cbn [carve carved].
  - destruct (Z.leb_spec (k + sz) PAGE_SIZE); [lia|]. exists (ram (kmem h)), (free_list c). split_and!; [|done|done].
    destruct h as [s cs], c, s. cbn in *. by rewrite insert_id.
  - destruct (Z.leb_spec (k + sz) PAGE_SIZE); [|nia]. run (push_obj_ok i (base + k) c h Hi Hc).
    set (h1 := mk_kheap _ _). destruct (IH fuel (k + sz) h1 (set_free_list (base + k) c) (base + k :: l))
      as (r & f & R & L & F).
    + by apply lookup_insert_eq.
    + done.
    + done.
    + lia.
    + lia.
    + lia.
    + apply links_push; [done|lia|]. specialize (Hfresh 0 ltac:(lia)). by replace (base + k + 0 * sz) with (base + k) in Hfresh by lia.
    + intros j Hj [E|Hin]%elem_of_cons; [nia|]. destruct (Hfresh (j + 1)); [lia|].
      by replace (base + k + (j + 1) * sz) with (base + (k + sz) + j * sz) by lia.
    + exists r, f. rewrite R. replace (base + k + sz) with (base + (k + sz)) by lia. split_and!; [|done|].
      * unfold h1. cbn. by rewrite insert_insert_eq.
      * intros w Hw. rewrite F.
        -- unfold h1. cbn. rewrite lookup_insert_ne; [done|]. intros <-. apply (Hw 0); lia.
        -- intros j Hj ->. apply (Hw (j + 1)); lia.
Qed.

(** ** The page of a new slab *)

(** Changing the descriptor of a block in use, but for what the allocator reads. *)
Lemma Buddy_stp own s p g :
  Buddy own s → own p = Some (p, 0, false) →
  (∀ d, next (g d) = next d) → (∀ d, desc false p 0 d → desc false p 0 (g d)) →
  Buddy own (set_pages (<[p := g (pg s p)]> (page_array s)) s).
Proof.
  intros [[fl HI] Hu Ht] Hp Hn Hd. set (s' := set_pages _ s).
  assert (∀ x, x ≠ p → pg s' x = pg s x) as Hne by (intros x Hx; unfold s'; by rewrite pg_set_ne).
  assert (pg s' p = g (pg s p)) as Heq by (unfold s'; by rewrite pg_set_eq).
  constructor; [|done|done]. exists fl. destruct HI as [V W T M F D N]. constructor; [by apply view_store|done|done|done|done|..].
  - intros x o f Hx. destruct (decide (x = p)) as [->|Hxp]; [|rewrite Hne by done; by apply D].
    rewrite Hp in Hx. injection Hx as <- <-. rewrite Heq. apply Hd. by apply D.
  - intros x Hx. rewrite Hne; [by apply N|]. intros ->. congruence.
Qed.

Lemma has_slab_set fl :
  has (Z.lor fl PAGE_FLAG_SLAB) PAGE_FLAG_SLAB = true ∧
  has (Z.lor fl PAGE_FLAG_SLAB) PAGE_FLAG_FREE = has fl PAGE_FLAG_FREE ∧
  has (Z.lor fl PAGE_FLAG_SLAB) PAGE_FLAG_RESERVED = has fl PAGE_FLAG_RESERVED.
Proof.
  assert (∀ b, has (Z.lor fl PAGE_FLAG_SLAB) b = has fl b || has PAGE_FLAG_SLAB b) as E.
  { intros b. unfold has. rewrite Z.land_lor_distr_l.
    destruct (Z.eqb_spec (Z.land fl b) 0) as [->|H1]; cbn [negb orb]; [by rewrite Z.lor_0_l|].
    destruct (Z.eqb_spec (Z.lor (Z.land fl b) (Z.land PAGE_FLAG_SLAB b)) 0) as [[E _]%Z.lor_eq_0_iff|]; done. }
  rewrite !E. change (has PAGE_FLAG_SLAB PAGE_FLAG_SLAB) with true. change (has PAGE_FLAG_SLAB PAGE_FLAG_FREE) with false.
  change (has PAGE_FLAG_SLAB PAGE_FLAG_RESERVED) with false. by rewrite !orb_true_r, !orb_false_r.
Qed.

Definition add_slab (p i : Z) (sl : slabs) : slabs := λ x, if decide (x = p) then Some i else sl x.
Lemma add_slab_eq p i sl : add_slab p i sl p = Some i.
Proof. unfold add_slab. by rewrite decide_True. Qed.
Lemma add_slab_ne p i sl x : x ≠ p → add_slab p i sl x = sl x.
Proof. intros. unfold add_slab. by rewrite decide_False. Qed.

(** Memory that belongs to the allocators: free pages and free objects. *)
Definition spare (own : ownership) (fl : Z → list Z) (w : Z) : Prop :=
  (∃ x, is_free own x ∧ pfn_to_phys x ≤ w < pfn_to_phys x + PAGE_SIZE) ∨
  (∃ i a, a ∈ fl i ∧ a ≤ w < a + osize i).

(** The pages in use stay in use, by the same blocks. *)
Definition keeps_used (own own' : ownership) : Prop := ∀ x, used own x → own' x = own x.

(** The order in which a new page's objects come to lie on the list. *)
Definition fresh_objects (p i : Z) (l : list Z) : list Z :=
  carved (Z.to_nat (PAGE_SIZE / osize i)) (pfn_to_phys p) (osize i) l.

Lemma fresh_objects_elem p i l x : 0 ≤ i < SLAB_NUM_CACHES →
  x ∈ fresh_objects p i l ↔ x ∈ l ∨ ∃ k, 0 ≤ k < PAGE_SIZE / osize i ∧ x = pfn_to_phys p + k * osize i.
Proof.
  intros Hi. destruct (osize_facts i Hi) as (_ & _ & _ & _ & Hn). unfold fresh_objects.
  rewrite elem_of_carved. by rewrite Z2Nat.id by lia.
Qed.

(** A page that was free holds no object. *)
Lemma free_page_no_object own sl fl h x i a :
  Heap own sl fl h → is_free own x → object sl i a → ¬ pfn_to_phys x ≤ a < pfn_to_phys x + PAGE_SIZE.
Proof.
  intros HH (b & q & Hx) Ha Hin. destruct (object_place HH i a Ha) as (p & k & Hp & Hi & _ & H1 & H2 & _).
  destruct (osize_facts i Hi) as (_ & _ & Hs & _).
  assert (x = p) as -> by (unfold pfn_to_phys, PAGE_SIZE in *; lia).
  rewrite (hp_page _ _ _ _ HH _ _ Hp) in Hx. congruence.
Qed.

(** The pages' state after [alloc_page] gave [p]. *)
Lemma Heap_alloc_page own sl fl h o r s' :
  Heap own sl fl h → 0 ≤ o ≤ MAX_ORDER → alloc_pages o (kmem h) = Some (Some r, s') →
  ∃ own' p, r = pfn_to_phys p ∧ Heap own' sl fl (mk_kheap s' (slab_caches h)) ∧ allocated own own' p o ∧
    sl p = None ∧
    ram s' = filter (λ kv, ¬ (pfn_to_phys p ≤ kv.1 < pfn_to_phys p + PAGE_SIZE * 2 ^ o)) (ram (kmem h)).
Proof.
  intros HH Ho R. destruct (alloc_pages_Buddy own (kmem h) o (hp_buddy _ _ _ _ HH) Ho)
    as [[E _]|(own' & p & s1 & E & HB' & (Ha & Hin & Hout) & _ & Hr & _ & _)]; rewrite E in R; simplify_eq.
  pose proof (alloc_pages_frame _ _ _ _ _ (hp_buddy _ _ _ _ HH) Ho E) as F.
  pose proof (slab_flag_alloc _ _ _ _ E) as Fl. pose proof (pow2_pos o ltac:(lia)) as Hpos.
  assert (∀ q i, sl q = Some i → ¬ is_free own q) as Hnf.
  { intros q i Hq (b & c & E2). rewrite (hp_page _ _ _ _ HH _ _ Hq) in E2. congruence. }
  assert (∀ q i, sl q = Some i → ¬ in_block p o q) as Hnb.
  { intros q i Hq Hb. apply (Hnf _ _ Hq). by apply Hin. }
  exists own', p. split; [done|]. split; [constructor; cbn|split_and!; [done| |done]].
  - done.
  - apply HH.
  - intros q i Hq. destruct (Hout q (Hnb _ _ Hq)) as [[? _]|[_ ->]]; [by destruct (Hnf _ _ Hq)|by apply (hp_page _ _ _ _ HH q i)].
  - intros q. specialize (Fl q). unfold slab_falls in Fl. rewrite (hp_flag _ _ _ _ HH) in Fl.
    destruct (sl q) as [i|] eqn:Hq.
    + rewrite (flags_strip _ _ (F q (Hnf _ _ Hq))). rewrite (hp_flag _ _ _ _ HH). by rewrite Hq.
    + destruct (has _ _); [|done]. rewrite Fl by done. done.
  - intros q i Hq. rewrite <- (hp_owner _ _ _ _ HH _ _ Hq). pose proof (F q (Hnf _ _ Hq)) as E2.
    destruct (pg s' q), (pg (kmem h) q). by injection E2.
  - intros i Hi. destruct (hp_cache _ _ _ _ HH i Hi) as (c & Hc & Ho' & Hl). exists c. split_and!; [done|done|].
    eapply links_ext; [|exact Hl]. intros x Hx%(hp_free _ _ _ _ HH). rewrite Hr.
    destruct (object_place HH i x Hx) as (q & k & Hq & _ & _ & H1 & H2 & _). destruct (osize_facts i Hi) as (_ & _ & Hs & _).
    pose proof (Hnb _ _ Hq) as Hnq. unfold in_block in Hnq.
    assert (¬ (pfn_to_phys p ≤ x < pfn_to_phys p + PAGE_SIZE * 2 ^ o)) as Hx'.
    { unfold pfn_to_phys, PAGE_SIZE in *. lia. }
    destruct (ram (kmem h) !! x) as [v|] eqn:Ev.
    + by apply map_lookup_filter_Some_2.
    + apply map_lookup_filter_None_2. by left.
  - apply HH.
  - apply HH.
  - destruct (sl p) as [i|] eqn:Hp; [|done]. destruct (Hnb _ _ Hp). unfold in_block. lia.
Qed.

Lemma in_pages_ok {A} (m : MM A) h a s : m (kmem h) = Some (a, s) → in_pages m h = Some (a, mk_kheap s (slab_caches h)).
Proof. unfold in_pages. by intros ->. Qed.

Lemma get_page_struct_in s p a :
  phys_to_pfn a = p → 0 ≤ p < BUDDY_MAX_PAGES → p < total_phys_pages s → get_page_struct a s = Some (Some p, s).
Proof.
  intros Hp Hr Ht. assert (BUDDY_MAX_PAGES = 65536) as HM by done. unfold get_page_struct. rewrite bind_gets, Hp. destruct (Z.eqb_spec p (2 ^ 64 - 1)); [lia|].
  destruct (Z.leb_spec (total_phys_pages s) p); [lia|]. done.
Qed.

(** A page becomes a slab once its objects are linked and its descriptor marked. *)
Definition mark (i : Z) (d : page) : page := set_cache (Some i) (set_flags (Z.lor (flags d) PAGE_FLAG_SLAB) d).
Lemma Heap_add own sl fl h c p i r f :
  Heap own sl fl h → 0 ≤ i < SLAB_NUM_CACHES → slab_caches h !! i = Some c →
  own p = Some (p, 0, false) → sl p = None →
  (∀ j a, a ∈ fl j → ¬ pfn_to_phys p ≤ a < pfn_to_phys p + PAGE_SIZE) →
  links r f (fresh_objects p i (fl i)) →
  (∀ w, ¬ pfn_to_phys p ≤ w < pfn_to_phys p + PAGE_SIZE → r !! w = ram (kmem h) !! w) →
  let s := set_ram r (kmem h) in
  Heap own (add_slab p i sl) (lupd fl i (fresh_objects p i (fl i)))
    (mk_kheap (set_pages (<[p := mark i (pg s p)]> (page_array s)) s) (<[i := set_free_list f c]> (slab_caches h))).
Proof.
  intros HH Hi Hc Hp Hsl Hout Hl Hr s. set (s2 := set_pages _ s).
  assert (pg s2 p = mark i (pg (kmem h) p)) as Heq by (unfold s2; by rewrite pg_set_eq).
  assert (∀ x, x ≠ p → pg s2 x = pg (kmem h) x) as Hne by (intros x Hx; unfold s2; by rewrite pg_set_ne).
  destruct (osize_facts i Hi) as (_ & _ & Hs & Hd & Hn).
  assert (∀ j a, object sl j a → object (add_slab p i sl) j a) as Hobj.
  { intros j a (q & k & Hq & Hk & ->). exists q, k. split; [|done]. rewrite add_slab_ne; [done|congruence]. }
  constructor; cbn [kmem slab_caches].
  - apply Buddy_stp; [by apply Buddy_ram, HH|done|done|]. intros d [D1 D2 D3 D4]. destruct (has_slab_set (flags d)) as (_ & E1 & E2).
    constructor; cbn; [by rewrite E1|by rewrite E2|done|done].
  - intros q j. destruct (decide (q = p)) as [->|Hq]; [rewrite add_slab_eq; by intros [= <-]|].
    rewrite add_slab_ne by done. apply HH.
  - intros q j. destruct (decide (q = p)) as [->|Hq]; [done|]. rewrite add_slab_ne by done. apply HH.
  - intros q. destruct (decide (q = p)) as [->|Hq].
    + rewrite Heq, add_slab_eq. apply has_slab_set.
    + rewrite Hne, add_slab_ne by done. apply HH.
  - intros q j. destruct (decide (q = p)) as [->|Hq].
    + rewrite Heq, add_slab_eq. by intros [= <-].
    + rewrite Hne, add_slab_ne by done. apply HH.
  - intros j Hj. destruct (decide (j = i)) as [->|Hji].
    + exists (set_free_list f c). rewrite lookup_insert_eq, lupd_eq. split_and!; [done| |done].
      destruct (hp_cache _ _ _ _ HH i Hi) as (c' & Hc' & Ho & _). rewrite Hc in Hc'. by injection Hc' as <-.
    + destruct (hp_cache _ _ _ _ HH j Hj) as (c' & Hc' & Ho & Hl'). exists c'. rewrite lookup_insert_ne, lupd_ne by done.
      split_and!; [done|done|]. eapply links_ext; [|exact Hl']. intros x Hx. by eapply Hr, Hout.
  - intros j a. rewrite in_lupd. intros [[-> Ha]|[Hj Ha]]; [|by apply Hobj, (hp_free _ _ _ _ HH)].
    apply fresh_objects_elem in Ha as [Ha|(k & Hk & ->)]; [by apply Hobj, (hp_free _ _ _ _ HH)| |done].
    exists p, k. by rewrite add_slab_eq.
  - intros j. unfold lupd. case_decide; [subst j|apply HH]. apply carved_nodup; [lia|apply HH|].
    intros k Hk Hin. destruct (Hout _ _ Hin). rewrite Z2Nat.id in Hk by lia. nia.
Qed.

Definition alloc_or_same (own own' : ownership) : Prop := own' = own ∨ ∃ p, allocated own own' p 0.
Lemma alloc_keeps own own' : alloc_or_same own own' → keeps_used own own'.
Proof.
  intros [->|(p & _ & Hin & Hout)] x Hx; [done|]. destruct (decide (p ≤ x < p + 2 ^ 0)) as [Hb|Hb].
  - destruct (Hin x Hb) as [(b & q & E) _]. unfold used in Hx. by rewrite E in Hx.
  - destruct (Hout x Hb) as [[(b & q & E) _]|[_ E]]; [unfold used in Hx; by rewrite E in Hx|done].
Qed.

Lemma slab_grow_spec own sl fl h c i :
  Heap own sl fl h → 0 ≤ i < SLAB_NUM_CACHES → slab_caches h !! i = Some c →
  (slab_grow i h = Some (-1, h) ∧ ∀ x, ¬ is_free own x) ∨
  (∃ own' p f h', slab_grow i h = Some (0, h') ∧ allocated own own' p 0 ∧ sl p = None ∧
     slab_caches h' = <[i := set_free_list f c]> (slab_caches h) ∧
     Heap own' (add_slab p i sl) (lupd fl i (fresh_objects p i (fl i))) h' ∧
     ∀ w, ¬ pfn_to_phys p ≤ w < pfn_to_phys p + PAGE_SIZE → ram (kmem h') !! w = ram (kmem h) !! w).
Proof.
  intros HH Hi Hc. unfold slab_grow, alloc_page.
  destruct (alloc_pages_Buddy own (kmem h) 0 (hp_buddy _ _ _ _ HH)) as [[R Hno]|(_ & p0 & s & R & _)]; [done|left|right].
  { rewrite (bind_Some _ _ _ _ _ (in_pages_ok _ _ _ _ R)). split; [by destruct h|]. intros x (b & q & Hx).
    destruct (hp_buddy _ _ _ _ HH) as [[f HI] _ _]. destruct (ow_order _ (iv_own _ _ _ HI) _ _ _ _ Hx) as [Hq _].
    apply (Hno q b Hq). apply (ow_block _ (iv_own _ _ _ HI) _ _ _ _ Hx). pose proof (pow2_pos q Hq). unfold in_block. lia. }
  rewrite (bind_Some _ _ _ _ _ (in_pages_ok _ _ _ _ R)).
  destruct (Heap_alloc_page own sl fl h 0 _ s HH ltac:(done) R) as (own' & p & -> & H1 & Ha & Hsl & Hr). clear R p0.
  set (h1 := mk_kheap s _) in *.
  assert (slab_caches h1 !! i = Some c) as Hc1 by done. run (ld_cache_ok (h := h1) obj_size i c Hi Hc1).
  destruct (osize_facts i Hi) as (_ & Hal & Hs & Hd & Hn).
  destruct (hp_cache _ _ _ _ H1 i Hi) as (c' & Hc' & Ho & Hl). rewrite Hc1 in Hc'. injection Hc' as <-. rewrite Ho, Hal.
  assert (is_free own p ∧ own' p = Some (p, 0, false)) as [Hfree Hown].
  { destruct Ha as (_ & Hin & _). apply Hin. unfold in_block. change (2 ^ 0) with 1. lia. }
  assert (∀ j a, a ∈ fl j → ¬ pfn_to_phys p ≤ a < pfn_to_phys p + PAGE_SIZE) as Hout.
  { intros j a Hja. eapply (free_page_no_object _ _ _ _ _ _ _ HH Hfree). by apply (hp_free _ _ _ _ HH). }
  destruct (hp_buddy _ _ _ _ H1) as [[g HI] _ _]. destruct (inv_base _ _ _ _ _ _ HI Hown) as [_ Hpr].
  destruct (base_addr _ _ _ _ _ _ HI Hown) as [Hpa Hpfn]. pose proof (iv_managed _ _ _ HI _ _ Hown) as Hman.
  destruct (carve_spec (Z.to_nat (PAGE_SIZE / osize i)) carve_fuel i (pfn_to_phys p) (osize i) 0 h1 c (fl i))
    as (r & f & R2 & L & F); [done|done|lia|unfold phys_mem_base in Hpa; lia|done|lia|unfold carve_fuel; lia|done| |].
  { intros j Hj Hin. apply (Hout i _ Hin). nia. }
  run R2. rewrite Z.add_0_r in L, F.
  rewrite (bind_Some _ _ _ _ _ (in_pages_ok _ (mk_kheap _ _) _ _ (get_page_struct_in (set_ram r s) p _ Hpfn Hpr Hman))).
  cbn [slab_caches]. rewrite (bind_Some _ _ _ _ _ (in_pages_ok _ (mk_kheap _ _) _ _ (stp_ok p _ (set_ram r s) Hpr))).
  rewrite (bind_Some _ _ _ _ _ (in_pages_ok _ (mk_kheap _ _) _ _ (stp_ok p _ _ Hpr))).
  assert (∀ w, ¬ pfn_to_phys p ≤ w < pfn_to_phys p + PAGE_SIZE → r !! w = ram s !! w) as Hrw.
  { intros w Hw. apply F. intros j Hj ->. apply Hw. nia. }
  pose proof (Heap_add own' sl fl h1 c p i r f H1 Hi Hc1 Hown Hsl Hout L Hrw) as H2. cbn zeta in H2.
  eexists own', p, f, _. split; [reflexivity|]. split_and!; [done|done|reflexivity| |].
  - cbn [slab_caches kmem]. rewrite pg_set_eq. cbn [page_array set_pages]. rewrite insert_insert_eq. exact H2.
  - intros w Hw. cbn. rewrite Hrw by done. rewrite Hr. destruct (ram (kmem h) !! w) as [v|] eqn:Ev.
    + apply map_lookup_filter_Some_2; [done|]. cbn. change (2 ^ 0) with 1. lia.
    + apply map_lookup_filter_None_2. by left.
Qed.

(** ** Taking and giving back one object *)
Definition zeroed (a n : Z) (r : gmap Z Z) : gmap Z Z := filter (λ kv, ¬ (a ≤ kv.1 < a + n)) r.
Lemma zeroed_in a n r w : a ≤ w < a + n → zeroed a n r !! w = None.
Proof. intros Hw. apply map_lookup_filter_None_2. right. intros v _ Hn. by apply Hn. Qed.
Lemma zeroed_out a n r w : ¬ a ≤ w < a + n → zeroed a n r !! w = r !! w.
Proof.
  intros Hw. destruct (r !! w) as [v|] eqn:E; [by apply map_lookup_filter_Some_2|]. apply map_lookup_filter_None_2. by left.
Qed.

Lemma zero_ok a n h :
  in_pages (zero_ram a n) h = Some (tt, mk_kheap (set_ram (zeroed a n (ram (kmem h))) (kmem h)) (slab_caches h)).
Proof. done. Qed.

(** Two objects at different addresses: the word of one is outside the other. *)
Lemma object_outside own sl fl h i a j b :
  Heap own sl fl h → object sl i a → object sl j b → (i, a) ≠ (j, b) → ¬ a ≤ b < a + osize i.
Proof.
  intros HH Ha Hb Hne Hin. destruct (objects_disjoint HH _ _ _ _ Ha Hb) as [[-> ->]|[?|?]]; [done|lia|].
  destruct (object_place HH _ _ Hb) as (_ & _ & _ & Hj & _). destruct (osize_facts j Hj) as (_ & _ & ? & _). lia.
Qed.

(** A change of memory and of one cache's list. *)
Lemma Heap_relink own sl fl h i c r f l :
  Heap own sl fl h → 0 ≤ i < SLAB_NUM_CACHES → slab_caches h !! i = Some c →
  (∀ j, 0 ≤ j < SLAB_NUM_CACHES → j ≠ i → ∀ x, x ∈ fl j → r !! x = ram (kmem h) !! x) →
  links r f l → NoDup l → (∀ a, a ∈ l → object sl i a) →
  Heap own sl (lupd fl i l) (mk_kheap (set_ram r (kmem h)) (<[i := set_free_list f c]> (slab_caches h))).
Proof.
  intros HH Hi Hc Hr Hl Hn Ho. constructor; cbn.
  - by apply Buddy_ram, HH.
  - apply HH.
  - apply HH.
  - apply HH.
  - apply HH.
  - intros j Hj. destruct (decide (j = i)) as [->|Hji].
    + exists (set_free_list f c). rewrite lookup_insert_eq, lupd_eq. split_and!; [done| |done].
      destruct (hp_cache _ _ _ _ HH i Hi) as (c' & Hc' & Ho' & _). rewrite Hc in Hc'. by injection Hc' as <-.
    + destruct (hp_cache _ _ _ _ HH j Hj) as (c' & Hc' & Ho' & Hl'). exists c'. rewrite lookup_insert_ne, lupd_ne by done.
      split_and!; [done|done|]. eapply links_ext; [|exact Hl']. by apply Hr.
  - intros j a. rewrite in_lupd. intros [[-> Ha]|[_ Ha]]; [by apply Ho|by apply HH].
  - intros j. unfold lupd. case_decide; [done|apply HH].
Qed.

Lemma slab_pop_run h i c :
  0 ≤ i < SLAB_NUM_CACHES → slab_caches h !! i = Some c → let a := free_list c in
  slab_pop i h = Some (Some a, mk_kheap (set_ram (zeroed a (obj_size c) (ram (kmem h))) (kmem h))
                                       (<[i := set_free_list (word (kmem h) a) c]> (slab_caches h))).
Proof.
  intros Hi Hc a. unfold slab_pop. run (ld_cache_ok (h := h) free_list i c Hi Hc). fold a.
  unfold ld_word. rewrite bind_gets. run (st_cache_ok i (set_free_list (word (kmem h) a)) c h Hi Hc).
  assert ((<[i := set_free_list (word (kmem h) a) c]> (slab_caches h)) !! i = Some (set_free_list (word (kmem h) a) c)) as Hc2
    by apply lookup_insert_eq.
  by run (ld_cache_ok (h := mk_kheap (kmem h) _) obj_size i _ Hi Hc2).
Qed.

Lemma slab_pop_spec own sl fl h i a l :
  Heap own sl fl h → fl i = a :: l →
  ∃ h', slab_pop i h = Some (Some a, h') ∧ Heap own sl (lupd fl i l) h' ∧ object sl i a ∧ a ∉ l ∧
    ram (kmem h') = zeroed a (osize i) (ram (kmem h)) ∧ ∀ j, growing (cache h' j) = growing (cache h j).
Proof.
  intros HH Hf. assert (a ∈ fl i) as Ha by (rewrite Hf; left). pose proof (hp_lists HH _ _ Ha) as Hi.
  pose proof (hp_free _ _ _ _ HH _ _ Ha) as Hob. pose proof (hp_nodup _ _ _ _ HH i) as Hnd. rewrite Hf in Hnd.
  apply NoDup_cons in Hnd as [Hnl Hnd]. destruct (hp_cache _ _ _ _ HH i Hi) as (c & Hc & Ho & Hl). rewrite Hf in Hl.
  destruct Hl as (E & Hnz & Hl). pose proof (slab_pop_run h i c Hi Hc) as R. cbn zeta in R. rewrite E, Ho in R.
  eexists. split; [exact R|]. split; [|split_and!; [done|done|done|]].
  - apply (Heap_relink own sl fl h i c (zeroed a (osize i) (ram (kmem h)))); [done|done|done| | |done|].
    + intros j Hj Hji x Hx. apply zeroed_out. eapply object_outside; [done|done|by apply (hp_free _ _ _ _ HH)|congruence].
    + eapply links_ext; [|exact Hl]. intros x Hx. apply zeroed_out.
      eapply object_outside; [done|done|apply (hp_free _ _ _ _ HH i); rewrite Hf; by right|intros [= ->]; done].
    + intros x Hx. apply (hp_free _ _ _ _ HH i). rewrite Hf. by right.
  - intros j. cbn. unfold cache. cbn. destruct (decide (j = i)) as [->|]; [by rewrite lookup_insert_eq, Hc|by rewrite lookup_insert_ne by done].
Qed.

(** [kfree] on a page marked as a slab, whatever the lists say. *)
Lemma kfree_slab_run h a p i c :
  a ≠ 0 → phys_to_pfn a = p → 0 ≤ p < BUDDY_MAX_PAGES → p < total_phys_pages (kmem h) →
  has (flags (pg (kmem h) p)) PAGE_FLAG_SLAB = true → Buddy.slab_cache (pg (kmem h) p) = Some i →
  0 ≤ i < SLAB_NUM_CACHES → slab_caches h !! i = Some c →
  kfree a h = Some (tt, mk_kheap (set_ram (<[a := free_list c]> (zeroed a (obj_size c) (ram (kmem h)))) (kmem h))
                                 (<[i := set_free_list a c]> (slab_caches h))).
Proof.
  intros Hnz Hpfn Hpr Hpt Hflag Hown Hi Hc. unfold kfree. destruct (Z.eqb_spec a 0); [done|].
  rewrite (bind_Some _ _ _ _ _ (in_pages_ok _ h _ _ (get_page_struct_in (kmem h) p _ Hpfn Hpr Hpt))).
  rewrite (bind_Some _ _ _ _ _ (in_pages_ok _ (mk_kheap _ _) _ _ (ldp_ok flags p (kmem h) Hpr))). rewrite Hflag.
  rewrite (bind_Some _ _ _ _ _ (in_pages_ok _ (mk_kheap _ _) _ _ (ldp_ok Buddy.slab_cache p (kmem h) Hpr))). rewrite Hown.
  run (ld_cache_ok (h := mk_kheap (kmem h) (slab_caches h)) obj_size i c Hi Hc).
  run (zero_ok a (obj_size c) (mk_kheap (kmem h) (slab_caches h))). cbn [kmem slab_caches].
  by rewrite (push_obj_ok i a c (mk_kheap (set_ram (zeroed a (obj_size c) (ram (kmem h))) (kmem h)) (slab_caches h)) Hi Hc).
Qed.

Lemma slab_give_spec own sl fl h i a :
  Heap own sl fl h → live sl fl i a →
  ∃ h', kfree a h = Some (tt, h') ∧ Heap own sl (lupd fl i (a :: fl i)) h' ∧
    (∀ w, ¬ a ≤ w < a + osize i → ram (kmem h') !! w = ram (kmem h) !! w) ∧
    (∀ w, a < w < a + osize i → ram (kmem h') !! w = None) ∧
    ∀ j, growing (cache h' j) = growing (cache h j).
Proof.
  intros HH [Hob Hnl]. pose proof (object_nz HH _ _ Hob) as Hnz.
  destruct (object_place HH _ _ Hob) as (p & k & Hp & Hi & _ & _ & _ & Hpfn & _).
  destruct (slab_range HH _ _ Hp) as [Hpr Hpt]. destruct (hp_cache _ _ _ _ HH i Hi) as (c & Hc & Ho & Hl).
  destruct (osize_facts i Hi) as (_ & _ & Hs & _).
  assert (kfree a h = Some (tt, mk_kheap (set_ram (<[a := free_list c]> (zeroed a (osize i) (ram (kmem h)))) (kmem h))
                                         (<[i := set_free_list a c]> (slab_caches h)))) as R.
  { rewrite <- Ho. apply (kfree_slab_run h a p i c); [done..| | |done|done].
    - rewrite (hp_flag _ _ _ _ HH). apply bool_decide_eq_true_2. rewrite Hp. eauto.
    - by apply (hp_owner _ _ _ _ HH). }
  eexists. split; [exact R|]. split; [|split_and!].
  - apply (Heap_relink own sl fl h); [done|done|done| | | |].
    + intros j Hj Hji x Hx. assert (¬ a ≤ x < a + osize i) as Hx'
        by (eapply object_outside; [done|done|by apply (hp_free _ _ _ _ HH)|congruence]).
      rewrite lookup_insert_ne by lia. by apply zeroed_out.
    + apply links_push; [|done|done]. eapply links_ext; [|exact Hl]. intros x Hx. apply zeroed_out.
      eapply object_outside; [done|done|by apply (hp_free _ _ _ _ HH)|intros [= ->]; done].
    + constructor; [done|]. apply HH.
    + intros x [->|Hx]%elem_of_cons; [done|by apply HH].
  - intros w Hw. cbn. rewrite lookup_insert_ne by lia. by apply zeroed_out.
  - intros w Hw. cbn. rewrite lookup_insert_ne by lia. apply zeroed_in. lia.
  - intros j. cbn. unfold cache. cbn. destruct (decide (j = i)) as [->|]; [by rewrite lookup_insert_eq, Hc|by rewrite lookup_insert_ne by done].
Qed.
