(* ===== verification/SlabThms.v ===== *)
(** * kernel/mem.c: the contract of kmalloc and kfree. *)
From S2P Require Import Prelude Buddy BuddyLists BuddyInv BuddyOps BuddySpec BuddyInit BuddyThms Slab SlabInv.
Local Open Scope Z_scope.
Local Open Scope kernel_scope.

(** ** Size classes *)
Lemma size_class size : 1 ≤ size ≤ PAGE_SIZE →
  let i := slab_size_to_index size in 0 ≤ i < SLAB_NUM_CACHES ∧ size ≤ osize i ∧ (i = 0 ∨ osize i < 2 * size).
Proof.
  intros Hs. unfold slab_size_to_index, osize, PAGE_SIZE, SLAB_NUM_CACHES, SLAB_MAX_SHIFT, SLAB_MIN_SHIFT in *.
  repeat match goal with |- context [?a <=? ?b] => destruct (Z.leb_spec a b) end; cbn -[Z.mul]; lia.
Qed.

Lemma order_of_spec fuel n c :
  0 ≤ c ≤ MAX_ORDER + 1 → MAX_ORDER + 1 - c < Z.of_nat fuel → (∀ o, 0 ≤ o < c → 2 ^ o < n) →
  ∃ o, order_of fuel n c = Some o ∧ c ≤ o ≤ MAX_ORDER + 1 ∧ (∀ q, 0 ≤ q < o → 2 ^ q < n) ∧ (o ≤ MAX_ORDER → n ≤ 2 ^ o).
Proof.
  revert c. induction fuel as [|fuel IH]; intros c Hc Hf Hlt; [lia|]. cbn [order_of]. rewrite Z.shiftl_1_l.
  destruct (Z.ltb_spec (2 ^ c) n); cbn [andb].
  - destruct (Z.leb_spec c MAX_ORDER).
    + destruct (IH (c + 1)) as (o & R & Ho & Hq & Hle); [lia|lia| |by exists o; split_and!; try lia].
      intros o Ho. destruct (decide (o = c)) as [->|]; [done|]. apply Hlt. lia.
    + exists c. split_and!; [done|lia|lia|done|lia].
  - exists c. split_and!; [done|lia|lia|done|done].
Qed.

(** ** kmalloc from a cache *)
Lemma Heap_growing own sl fl h i c b :
  Heap own sl fl h → slab_caches h !! i = Some c →
  Heap own sl fl (mk_kheap (kmem h) (<[i := set_growing b c]> (slab_caches h))).
Proof.
  intros HH Hc. constructor; cbn; [apply HH..| |apply HH|apply HH]. intros j Hj. destruct (decide (j = i)) as [->|Hji].
  - exists (set_growing b c). rewrite lookup_insert_eq. destruct (hp_cache _ _ _ _ HH i Hj) as (c' & Hc' & Ho & Hl).
    rewrite Hc in Hc'. injection Hc' as <-. done.
  - destruct (hp_cache _ _ _ _ HH j Hj) as (c' & Hc' & H). exists c'. by rewrite lookup_insert_ne.
Qed.

Lemma list_start own sl fl h i c :
  Heap own sl fl h → 0 ≤ i < SLAB_NUM_CACHES → slab_caches h !! i = Some c →
  match fl i with [] => free_list c = 0 | a :: _ => free_list c = a ∧ a ≠ 0 end.
Proof.
  intros HH Hi Hc. destruct (hp_cache _ _ _ _ HH i Hi) as (c' & Hc' & _ & Hl). rewrite Hc in Hc'. injection Hc' as <-.
  destruct (fl i); [done|]. by destruct Hl as (? & ? & _).
Qed.

(** What a successful call leaves: the block [a] of class [i] became live. *)
Record gained (own : ownership) (sl : slabs) (fl : Z → list Z) (h : kheap) (i a : Z)
    (own' : ownership) (sl' : slabs) (fl' : Z → list Z) (h' : kheap) : Prop := mk_gained {
  gn_heap : Heap own' sl' fl' h';
  gn_live : live sl' fl' i a;
  gn_new : ¬ live sl fl i a;
  gn_keep : ∀ j b, live sl fl j b → live sl' fl' j b;
  gn_only : ∀ j b, live sl' fl' j b → live sl fl j b ∨ (j, b) = (i, a);
  gn_zero : ∀ w, a ≤ w < a + osize i → ram (kmem h') !! w = None;
  gn_frame : ∀ w, ¬ spare own fl w → ram (kmem h') !! w = ram (kmem h) !! w;
  gn_pages : alloc_or_same own own'
}.

Lemma pop_gains own sl fl h i a l :
  Heap own sl fl h → idle h → fl i = a :: l →
  ∃ h', slab_pop i h = Some (Some a, h') ∧ idle h' ∧ gained own sl fl h i a own sl (lupd fl i l) h'.
Proof.
  intros HH Hid Hf. destruct (slab_pop_spec _ _ _ _ _ _ _ HH Hf) as (h' & R & H' & Ho & Hn & Hr & Hg).
  exists h'. split; [done|]. split; [intros j; by rewrite Hg|]. constructor; [done|..].
  - split; [done|]. by rewrite lupd_eq.
  - intros [_ Hx]. apply Hx. rewrite Hf. left.
  - intros j b [Hb Hx]. split; [done|]. rewrite in_lupd. intros [[-> Hin]|[_ Hin]]; [|done].
    apply Hx. rewrite Hf. by right.
  - intros j b [Hb Hx]. destruct (decide ((j, b) = (i, a))) as [|Hne]; [by right|left]. split; [done|]. intros Hin.
    apply Hx. rewrite in_lupd. destruct (decide (j = i)) as [->|]; [|by right]. left. split; [done|].
    rewrite Hf in Hin. apply elem_of_cons in Hin as [->|]; [done|done].
  - intros w Hw. rewrite Hr. by apply zeroed_in.
  - intros w Hw. rewrite Hr. apply zeroed_out. intros Hin. apply Hw. right. exists i, a. split; [rewrite Hf; left|done].
  - by left.
Qed.

(** A new slab's objects are all free. *)
Section added.
Context (own : ownership) (sl : slabs) (fl : Z → list Z) (h : kheap) (p i : Z).
Hypotheses (HH : Heap own sl fl h) (Hi : 0 ≤ i < SLAB_NUM_CACHES) (Hf : fl i = []) (Hfp : is_free own p) (Hsl : sl p = None).
Let fl' := lupd fl i (fresh_objects p i (fl i)).

Lemma added_live j b : live (add_slab p i sl) fl' j b ↔ live sl fl j b.
Proof.
  destruct (osize_facts i Hi) as (_ & _ & Hsz & Hd & Hn). split.
  - intros [(q & k & Hq & Hk & ->) Hnl]. destruct (decide (q = p)) as [->|Hqp].
    + rewrite add_slab_eq in Hq. injection Hq as <-. destruct Hnl. unfold fl'. rewrite lupd_eq.
      apply fresh_objects_elem; [done|]. right. by exists k.
    + rewrite add_slab_ne in Hq by done. split; [by exists q, k|]. intros Hin. apply Hnl. unfold fl', lupd.
      case_decide; [subst j; rewrite Hf in Hin; by apply elem_of_nil in Hin|done].
  - intros [Hob Hnl]. split.
    + destruct Hob as (q & k & Hq & Hk & ->). exists q, k. split; [|done]. rewrite add_slab_ne; [done|]. intros ->. congruence.
    + unfold fl'. rewrite in_lupd. intros [[-> Hin']|[_ Hin']]; [|done].
      apply fresh_objects_elem in Hin' as [Hin'|(k & Hk & ->)]; [done| |done].
      eapply (free_page_no_object _ _ _ _ _ _ _ HH Hfp Hob). nia.
Qed.

Lemma added_spare own' w : allocated own own' p 0 → ¬ spare own fl w →
  ¬ pfn_to_phys p ≤ w < pfn_to_phys p + PAGE_SIZE ∧ ¬ spare own' fl' w.
Proof.
  destruct (osize_facts i Hi) as (_ & _ & Hsz & Hd & Hn). intros (_ & HA & HB) Hw.
  assert (¬ pfn_to_phys p ≤ w < pfn_to_phys p + PAGE_SIZE) as Hwp by (intros ?; apply Hw; left; by exists p).
  split; [done|]. intros [(x & (b & q & Hx) & Hwx)|(j & b & Hj & Hwb)].
  - apply Hw. left. exists x. split; [|done]. destruct (decide (p ≤ x < p + 2 ^ 0)) as [Hb|Hb].
    + destruct (HA x Hb) as [_ E]. congruence.
    + destruct (HB x Hb) as [[? _]|[_ E]]; [done|]. rewrite E in Hx. by exists b, q.
  - unfold fl' in Hj. rewrite in_lupd in Hj. destruct Hj as [[-> Hj]|[_ Hj]]; [|apply Hw; right; by exists j, b].
    apply fresh_objects_elem in Hj as [Hj|(k & Hk & ->)]; [rewrite Hf in Hj; by apply elem_of_nil in Hj| |done]. apply Hwp. nia.
Qed.
End added.

Lemma kmalloc_small own sl fl h size :
  Heap own sl fl h → idle h → 1 ≤ size ≤ PAGE_SIZE →
  let i := slab_size_to_index size in
  (kmalloc size h = Some (None, h) ∧ fl i = [] ∧ ∀ x, ¬ is_free own x) ∨
  (∃ own' sl' fl' h' a, kmalloc size h = Some (Some a, h') ∧ idle h' ∧ gained own sl fl h i a own' sl' fl' h').
Proof.
  intros HH Hid Hs i. destruct (size_class size Hs) as (Hi & _). fold i in Hi.
  destruct (hp_cache _ _ _ _ HH i Hi) as (c & Hc & Hoc & Hl). pose proof (list_start _ _ _ _ _ _ HH Hi Hc) as Hst.
  unfold kmalloc. destruct (Z.eqb_spec size 0); [lia|]. destruct (Z.leb_spec size PAGE_SIZE); [|lia]. fold i.
  run (ld_cache_ok (h := h) free_list i c Hi Hc).
  destruct (fl i) as [|a l] eqn:Hf.
  2:{ clear Hl. destruct Hst as [-> Ha]. destruct (Z.eqb_spec a 0); [done|]. right. cbn [negb].
      destruct (pop_gains _ _ _ _ _ _ _ HH Hid Hf) as (h' & R & Hid' & G). by exists own, sl, (lupd fl i l), h', a. }
  rewrite Hst. change (negb (0 =? 0)) with false. cbn iota. run (ld_cache_ok (h := h) growing i c Hi Hc).
  pose proof (Hid i) as Hg. rewrite (cache_lookup _ _ _ Hc) in Hg. rewrite Hg.
  run (st_cache_ok i (set_growing true) c h Hi Hc). set (h1 := mk_kheap _ _).
  pose proof (Heap_growing _ _ _ _ _ _ true HH Hc) as H1. fold h1 in H1.
  assert (slab_caches h1 !! i = Some (set_growing true c)) as Hc1 by apply lookup_insert_eq.
  destruct (slab_grow_spec _ _ _ _ _ _ H1 Hi Hc1) as [[R Hno]|(own' & p & f & h2 & R & Ha & Hsl & Hc2 & H2 & Hr)]; run R.
  - left. run (st_cache_ok i (set_growing false) _ h1 Hi Hc1). cbn. split; [|done]. unfold ret. do 2 f_equal.
    unfold h1. cbn. rewrite insert_insert_eq. destruct h as [s cs], c. cbn in *. subst. by rewrite insert_id.
  - right. assert (slab_caches h2 !! i = Some (set_free_list f (set_growing true c))) as Hc2' by (rewrite Hc2; apply lookup_insert_eq).
    run (st_cache_ok i (set_growing false) _ h2 Hi Hc2'). change (negb (0 =? 0)) with false. cbn iota. set (h3 := mk_kheap _ _).
    pose proof (Heap_growing _ _ _ _ _ _ false H2 Hc2') as H3. fold h3 in H3.
    assert (idle h3) as Hid3.
    { intros j. unfold h3, cache. cbn. destruct (decide (j = i)) as [->|]; [by rewrite lookup_insert_eq|].
      rewrite lookup_insert_ne by done. rewrite Hc2, lookup_insert_ne by done. unfold h1. cbn. rewrite lookup_insert_ne by done. apply Hid. }
    assert (slab_caches h3 !! i = Some (set_growing false (set_free_list f (set_growing true c)))) as Hc3 by apply lookup_insert_eq.
    pose proof (list_start _ _ _ _ _ _ H3 Hi Hc3) as Hst3. run (ld_cache_ok (h := h3) free_list i _ Hi Hc3).
    destruct (osize_facts i Hi) as (_ & _ & Hsz & Hd & Hn).
    assert (pfn_to_phys p ∈ fresh_objects p i (fl i)) as Hin by (apply fresh_objects_elem; [done|]; right; exists 0; lia).
    destruct (lupd fl i (fresh_objects p i (fl i)) i) as [|a l] eqn:Hf3;
      [rewrite lupd_eq in Hf3; rewrite Hf3 in Hin; by apply elem_of_nil in Hin|].
    destruct Hst3 as [-> Hanz]. destruct (Z.eqb_spec a 0); [done|].
    destruct (pop_gains _ _ _ _ _ _ _ H3 Hid3 Hf3) as (h' & R' & Hid' & [G1 G2 G3 G4 G5 G6 G7 G8]).
    eexists own', _, _, h', a. split; [exact R'|]. split; [exact Hid'|].
    assert (is_free own p) as Hfp.
    { destruct Ha as (_ & HA & _). apply (HA p). unfold in_block. change (2 ^ 0) with 1. lia. }
    pose proof (added_live _ _ _ _ p i HH Hi Hf Hfp Hsl) as Hlive.
    constructor; [exact G1|exact G2| | | |exact G6| |right; by exists p].
    + intros Hl'. by apply G3, Hlive.
    + intros j b Hl'. by apply G4, Hlive.
    + intros j b Hl'. destruct (G5 j b Hl') as [?%Hlive|]; tauto.
    + intros w Hw. destruct (added_spare own fl p i Hi Hf Hfp own' w Ha Hw) as [Hwp Hsp]. rewrite G7; [by apply Hr|done].
Qed.

(** ** Large blocks *)
Lemma kfree_block own sl fl h p o :
  Heap own sl fl h → own p = Some (p, o, false) → sl p = None →
  ∃ own' h', kfree (pfn_to_phys p) h = Some (tt, h') ∧ Heap own' sl fl h' ∧ slab_caches h' = slab_caches h ∧
    freed own own' p o ∧ ram (kmem h') = ram (kmem h).
Proof.
  intros HH Hp Hsl. destruct (free_pages_Buddy own (kmem h) p o (hp_buddy _ _ _ _ HH) Hp)
    as (own' & s' & R & HB' & [Fin Fout] & _ & Hr & _ & _ & _ & _ & F).
  destruct (hp_buddy _ _ _ _ HH) as [[g HI] _ _]. destruct (inv_base _ _ _ _ _ _ HI Hp) as [Ho Hpr].
  destruct (base_addr _ _ _ _ _ _ HI Hp) as [Hpa Hpfn]. pose proof (iv_managed _ _ _ HI _ _ Hp) as Hman.
  pose proof (iv_desc _ _ _ HI _ _ _ Hp) as [_ _ Hord _]. pose proof (slab_flag_free _ _ _ _ _ R) as Fl.
  assert (∀ q i, sl q = Some i → ¬ is_free own q ∧ ¬ in_block p o q) as Hq.
  { intros q i Hq. pose proof (hp_page _ _ _ _ HH _ _ Hq) as Hoq. split; [intros (b & c & E); congruence|].
    intros Hb. rewrite (ow_block _ (iv_own _ _ _ HI) _ _ _ _ Hp q Hb) in Hoq. congruence. }
  exists own', (mk_kheap s' (slab_caches h)). split; [|split; [|done]].
  - unfold kfree. destruct (Z.eqb_spec (pfn_to_phys p) 0); [unfold phys_mem_base in Hpa; lia|].
    rewrite (bind_Some _ _ _ _ _ (in_pages_ok _ h _ _ (get_page_struct_in (kmem h) p _ Hpfn Hpr Hman))).
    rewrite (bind_Some _ _ _ _ _ (in_pages_ok _ (mk_kheap _ _) _ _ (ldp_ok flags p (kmem h) Hpr))).
    rewrite (hp_flag _ _ _ _ HH), bool_decide_eq_false_2 by (rewrite Hsl; by intros []).
    rewrite (bind_Some _ _ _ _ _ (in_pages_ok _ (mk_kheap _ _) _ _ (ldp_ok order p (kmem h) Hpr))). rewrite Hord.
    by rewrite (in_pages_ok _ (mk_kheap _ _) _ _ R).
  - constructor; cbn; [done|apply HH| | | | |apply HH|apply HH].
    + intros q i Hqi. destruct (Hq q i Hqi) as [Hnf Hnb].
      destruct (Fout q Hnb) as [[? _]|[_ ->]]; [done|by apply (hp_page _ _ _ _ HH q i)].
    + intros q. specialize (Fl q). unfold slab_falls in Fl. rewrite (hp_flag _ _ _ _ HH) in Fl.
      destruct (sl q) as [i|] eqn:Hqi; [|destruct (has _ _); [by rewrite Fl|done]].
      destruct (Hq q i Hqi) as [Hnf Hnb]. rewrite (flags_strip _ _ (F q Hnf Hnb)), (hp_flag _ _ _ _ HH). by rewrite Hqi.
    + intros q i Hqi. destruct (Hq q i Hqi) as [Hnf Hnb]. rewrite <- (hp_owner _ _ _ _ HH _ _ Hqi).
      pose proof (F q Hnf Hnb) as E. destruct (pg s' q), (pg (kmem h) q). by injection E.
    + intros i Hi. rewrite Hr. by apply HH.
Qed.

Lemma kmalloc_big own sl fl h size :
  Heap own sl fl h → PAGE_SIZE < size < 2 ^ 64 →
  (kmalloc size h = Some (None, h) ∧
   (PAGE_SIZE * 2 ^ MAX_ORDER < size ∨ ∀ q x, size ≤ PAGE_SIZE * 2 ^ q → own x ≠ Some (x, q, true))) ∨
  (∃ own' p o h', kmalloc size h = Some (Some (pfn_to_phys p), h') ∧ Heap own' sl fl h' ∧
     slab_caches h' = slab_caches h ∧ allocated own own' p o ∧ sl p = None ∧
     0 < o ≤ MAX_ORDER ∧ PAGE_SIZE * 2 ^ (o - 1) < size ≤ PAGE_SIZE * 2 ^ o ∧
     (∀ w, pfn_to_phys p ≤ w < pfn_to_phys p + PAGE_SIZE * 2 ^ o → ram (kmem h') !! w = None) ∧
     (∀ w, ¬ pfn_to_phys p ≤ w < pfn_to_phys p + PAGE_SIZE * 2 ^ o → ram (kmem h') !! w = ram (kmem h) !! w)).
Proof.
  intros HH Hs. unfold kmalloc. destruct (Z.eqb_spec size 0) as [|Hz]; [unfold PAGE_SIZE in *; lia|].
  destruct (Z.leb_spec size PAGE_SIZE); [lia|]. unfold kmalloc_large. assert (MAX_ORDER = 10) as HM by done.
  assert (PAGE_SIZE * 2 ^ MAX_ORDER = 4194304) as Hmax by done.
  destruct (Z.ltb_spec (SIZE_MAX - PAGE_SIZE) size) as [Hbig|Hfit].
  { left. split; [done|]. left. rewrite Hmax. unfold SIZE_MAX, PAGE_SIZE in *. lia. }
  set (n := (size + PAGE_SIZE - 1) / PAGE_SIZE).
  assert (∀ q, 0 ≤ q → n ≤ 2 ^ q ↔ size ≤ PAGE_SIZE * 2 ^ q) as Hfits.
  { intros q Hq. unfold n, PAGE_SIZE. pose proof (Z.div_mod (size + 4096 - 1) 4096 ltac:(lia)).
    pose proof (Z.mod_pos_bound (size + 4096 - 1) 4096 ltac:(lia)). lia. }
  destruct (order_of_spec 13 n 0) as (o & -> & Ho & Hlt & Hle); [lia|lia|lia|].
  assert (0 < o) as Hpos.
  { destruct (decide (o = 0)) as [->|]; [|lia]. destruct (Hfits 0 ltac:(lia)) as [Hf _]. specialize (Hf (Hle ltac:(lia))). unfold PAGE_SIZE in *. lia. }
  assert (PAGE_SIZE * 2 ^ (o - 1) < size) as Hlow.
  { specialize (Hlt (o - 1) ltac:(lia)). destruct (Hfits (o - 1) ltac:(lia)). lia. }
  destruct (Z.ltb_spec MAX_ORDER o) as [Hm|Hm].
  { left. split; [done|]. left. replace (o - 1) with MAX_ORDER in Hlow by lia. done. }
  pose proof (proj1 (Hfits o ltac:(lia)) (Hle Hm)) as Hup.
  destruct (alloc_pages_Buddy own (kmem h) o (hp_buddy _ _ _ _ HH)) as [[R Hno]|(_ & p0 & s & R & _)]; [lia|left|right].
  - rewrite (in_pages_ok _ h _ _ R). split; [by destruct h|]. right. intros q x Hq E.
    destruct (hp_buddy _ _ _ _ HH) as [[g HI] _ _]. destruct (inv_base _ _ _ _ _ _ HI E) as [Hq0 _].
    apply (Hno q x); [|done]. destruct (decide (o ≤ q)) as [|Hlt']; [done|].
    pose proof (Z.pow_le_mono_r 2 q (o - 1) ltac:(lia) ltac:(lia)). unfold PAGE_SIZE in *. lia.
  - rewrite (in_pages_ok _ h _ _ R).
    destruct (Heap_alloc_page own sl fl h o _ s HH ltac:(lia) R) as (own' & p & -> & H1 & Ha & Hsl & Hr).
    exists own', p, o, (mk_kheap s (slab_caches h)). split_and!; try done; try lia.
    + intros w Hw. cbn. rewrite Hr. by apply zeroed_in.
    + intros w Hw. cbn. rewrite Hr. by apply zeroed_out.
Qed.

(** ** Start-up *)
Lemma slab_flag_reserved a b : moves slab_falls (buddy_mark_reserved a b).
Proof.
  unfold buddy_mark_reserved. destruct (_ <=? _); [apply moves_ret, _|]. apply moves_for_range; [apply _|]. intros j.
  apply moves_stp; [apply _|]. intros d H. revert H. unfold slab_falls. cbn. rewrite has_lor. by rewrite orb_false_r.
Qed.
Lemma slab_flag_available a b : moves slab_falls (buddy_mark_available a b).
Proof.
  unfold buddy_mark_available. destruct (_ <=? _); [apply moves_ret, _|]. apply moves_for_range; [apply _|]. intros j.
  apply moves_bind; [apply _|apply moves_ldp, _|]. intros f. destruct (has f _); [apply moves_ret, _|].
  apply moves_bind; [apply _|apply moves_stp; [apply _|by unfold slab_falls]|]. intros _.
  apply moves_bind; [apply _|apply moves_list_add; [apply _|by unfold slab_falls]|]. intros _.
  apply moves_modify; [apply _|done].
Qed.
Lemma slab_flag_build total_ram : moves slab_falls (phys_mem_build total_ram).
Proof.
  unfold phys_mem_build. apply moves_bind; [apply _|by intros s a s' [= _ <-] x|]. intros _.
  apply moves_bind; [apply _|apply moves_modify; [apply _|done]|]. intros _.
  apply moves_bind; [apply _|apply slab_flag_reserved|]. intros _.
  apply moves_bind; [apply _|apply moves_gets, _|]. intros total.
  apply moves_bind; [apply _|apply slab_flag_reserved|]. intros _.
  apply moves_bind; [apply _|apply slab_flag_available|]. intros _. apply moves_coalesce_all; [apply _|by unfold slab_falls..].
Qed.

Lemma slab_flag_init mem fuel mb s s' :
  phys_mem_init mem fuel mb s = Some (tt, s') → (∀ x, has (flags (pg s x)) PAGE_FLAG_SLAB = false) →
  ∀ x, has (flags (pg s' x)) PAGE_FLAG_SLAB = false.
Proof.
  unfold phys_mem_init. destruct (detect_ram _ _ _) as [t|]; [|done]. intros R H0 x.
  pose proof (slab_flag_build t _ _ _ R x) as H. unfold slab_falls in H. rewrite H0 in H.
  destruct (has (flags (pg s' x)) _); [|done]. by specialize (H eq_refl).
Qed.

Definition fresh_caches (cs : gmap Z slab_cache) (i : Z) : slab_cache :=
  mk_cache (slab_index_to_size i) (PAGE_SIZE / slab_index_to_size i) None None 0 (growing (default cache0 (cs !! i))).
Lemma slab_init_run h :
  ∃ cs, slab_init h = Some (tt, mk_kheap (kmem h) cs) ∧
    ∀ i, cs !! i = if decide (0 ≤ i < SLAB_NUM_CACHES) then Some (fresh_caches (slab_caches h) i) else slab_caches h !! i.
Proof.
  unfold slab_init. destruct (for_range_ind (λ i, st_cache i (λ c, mk_cache (slab_index_to_size i) (PAGE_SIZE / slab_index_to_size i) None None 0 (growing c)))
    (λ j h', kmem h' = kmem h ∧ ∀ i, slab_caches h' !! i = if decide (0 ≤ i < j) then Some (fresh_caches (slab_caches h) i) else slab_caches h !! i)
    (Z.to_nat SLAB_NUM_CACHES) 0 h) as (h' & R & Hk & Hc).
  - split; [done|]. intros i. rewrite decide_False by lia. done.
  - intros j h1 Hj [Hk Hc]. change (Z.of_nat (Z.to_nat SLAB_NUM_CACHES)) with SLAB_NUM_CACHES in Hj.
    unfold st_cache, ok_cache. rewrite bool_decide_eq_true_2 by lia. eexists. split; [reflexivity|]. split; [done|].
    intros i. cbn. destruct (decide (i = j)) as [->|Hij].
    + rewrite lookup_insert_eq, decide_True by lia. unfold fresh_caches, cache. by rewrite Hc, decide_False by lia.
    + rewrite lookup_insert_ne, Hc by done. repeat case_decide; lia || done.
  - exists (slab_caches h'). rewrite R. split; [|exact Hc]. by rewrite <- Hk; destruct h'.
Qed.

Definition no_slabs : slabs := λ _, None.
Definition no_objects : Z → list Z := λ _, [].

Lemma slab_init_Heap own s cs :
  Buddy own s → (∀ x, has (flags (pg s x)) PAGE_FLAG_SLAB = false) → (∀ i c, cs !! i = Some c → growing c = false) →
  ∃ h, slab_init (mk_kheap s cs) = Some (tt, h) ∧ kmem h = s ∧ Heap own no_slabs no_objects h ∧ idle h.
Proof.
  intros HB Hf Hg. destruct (slab_init_run (mk_kheap s cs)) as (cs' & R & Hc). cbn [kmem slab_caches] in *. eexists. split; [exact R|].
  split; [done|]. assert (∀ c, growing (default cache0 (cs !! c)) = false) as Hg'.
  { intros c. destruct (cs !! c) as [d|] eqn:E; [by apply (Hg c d)|done]. }
  split.
  - constructor; cbn; [done|done|done|intros p; by rewrite Hf|done| |by intros i a H%elem_of_nil|intros; constructor].
    intros i Hi. eexists. split; [rewrite Hc, decide_True by done; reflexivity|]. split; [apply osize_facts, Hi|done].
  - intros i. unfold cache. cbn. rewrite Hc. case_decide; [apply Hg'|apply (Hg' i)].
Qed.

(** A booted kernel heap on a machine with 64 MiB. *)
Lemma boot_heap : ∃ own h, Heap own no_slabs no_objects h ∧ idle h ∧ is_free own 512 ∧ ∀ x, boot_free 16384 x = true → is_free own x.
Proof.
  destruct boot_state as (own & s & R & HB & H5 & Hx & _).
  assert (∀ x, has (flags (pg s x)) PAGE_FLAG_SLAB = false) as Hf by exact (slab_flag_init _ _ _ boot s R (λ _, eq_refl)).
  clear R. destruct (slab_init_Heap own s ∅ HB Hf) as (h & _ & _ & HH & Hid); [intros i c H; by rewrite lookup_empty in H|].
  exists own, h. split_and!; assumption.
Qed.

(** ** The contract *)

(** C6: for a request of at most a page, [kmalloc] either returns [NULL], and then
    the cache has no free object, memory has no free page and nothing changed; or
    it returns an object of the smallest class that holds the request, which was
    not live before and becomes the only new live object, overlaps no live
    object, reads as zero, and nothing outside the allocators' own memory is
    written. *)
Theorem kmalloc_correct own sl fl h size :
  Heap own sl fl h → idle h → 1 ≤ size ≤ PAGE_SIZE →
  let i := slab_size_to_index size in
  (kmalloc size h = Some (None, h) ∧ fl i = [] ∧ ∀ x, ¬ is_free own x) ∨
  (∃ own' sl' fl' h' a, kmalloc size h = Some (Some a, h') ∧ idle h' ∧ gained own sl fl h i a own' sl' fl' h' ∧
     size ≤ osize i ∧ (i = 0 ∨ osize i < 2 * size) ∧
     ∀ j b, live sl fl j b → a + osize i ≤ b ∨ b + osize j ≤ a).
Proof.
  intros HH Hid Hs i. destruct (kmalloc_small _ _ _ _ _ HH Hid Hs) as [H|(own' & sl' & fl' & h' & a & R & Hid' & G)]; [by left|right].
  destruct (size_class size Hs) as (_ & H1 & H2). exists own', sl', fl', h', a. split_and!; [done..|].
  intros j b Hb. destruct (gn_keep _ _ _ _ _ _ _ _ _ _ G j b Hb) as [Hob _]. destruct (gn_live _ _ _ _ _ _ _ _ _ _ G) as [Hoa _].
  destruct (objects_disjoint (gn_heap _ _ _ _ _ _ _ _ _ _ G) _ _ _ _ Hoa Hob) as [[E ->]|?]; [|done].
  destruct (gn_new _ _ _ _ _ _ _ _ _ _ G). by rewrite E.
Qed.

Lemma kmalloc_correct_witness :
  ∃ h a h', kmalloc 100 h = Some (Some a, h') ∧ ∀ w, a ≤ w < a + 128 → ram (kmem h') !! w = None.
Proof.
  destruct boot_heap as (own & h & HH & Hid & Hf & _).
  destruct (kmalloc_correct own no_slabs no_objects h 100 HH Hid) as [(_ & _ & Hno)|(own' & sl' & fl' & h' & a & R & _ & G & _)].
  - by split.
  - by destruct (Hno 512).
  - exists h, a, h'. split; [exact R|]. exact (gn_zero _ _ _ _ _ _ _ _ _ _ G).
Defined.

(** C7: freeing a live object returns, makes exactly that object free, changes no
    byte outside it, and leaves of it only the link of the free list; the next
    request of its class gets it back, zeroed. *)
Theorem kfree_correct own sl fl h i a size :
  Heap own sl fl h → idle h → live sl fl i a → 1 ≤ size ≤ PAGE_SIZE → slab_size_to_index size = i →
  ∃ fl' h', kfree a h = Some (tt, h') ∧ Heap own sl fl' h' ∧
    (∀ j b, live sl fl' j b ↔ live sl fl j b ∧ (j, b) ≠ (i, a)) ∧
    (∀ w, ¬ a ≤ w < a + osize i → ram (kmem h') !! w = ram (kmem h) !! w) ∧
    (∀ w, a < w < a + osize i → ram (kmem h') !! w = None) ∧
    ∃ h2, kmalloc size h' = Some (Some a, h2) ∧ Heap own sl fl h2 ∧ ∀ w, a ≤ w < a + osize i → ram (kmem h2) !! w = None.
Proof.
  intros HH Hid Hl Hs Hi. destruct (slab_give_spec _ _ _ _ _ _ HH Hl) as (h' & R & H' & Hout & Hin & Hg).
  exists (lupd fl i (a :: fl i)), h'. split_and!; [done|done| |done|done|].
  - intros j b. unfold live. rewrite in_lupd. destruct (decide (j = i)) as [->|Hji].
    + rewrite elem_of_cons. split; [intros [? Hn]; split; [split; [done|tauto]|intros [= ->]; tauto]|].
      intros [[? ?] Hne]. split; [done|]. intros [[_ [->|?]]|[? _]]; [by apply Hne|done|done].
    + split; [intros [? Hn]; split; [split; [done|tauto]|congruence]|]. intros [[? ?] _]. split; [done|]. tauto.
  - assert (idle h') as Hid' by (intros j; by rewrite Hg). destruct (size_class size Hs) as (Hr & _). rewrite Hi in Hr.
    destruct (slab_pop_spec _ _ _ h' i a (fl i) H') as (h2 & R2 & H2 & _ & _ & Hz & _); [by rewrite lupd_eq|].
    exists h2. split; [|split].
    + unfold kmalloc. destruct (Z.eqb_spec size 0); [lia|]. destruct (Z.leb_spec size PAGE_SIZE); [|lia]. rewrite Hi.
      destruct (hp_cache _ _ _ _ H' i Hr) as (c & Hc & _ & Hlk). rewrite lupd_eq in Hlk. destruct Hlk as (E & Hnz & _).
      run (ld_cache_ok (h := h') free_list i c Hr Hc). rewrite E. by destruct (Z.eqb_spec a 0).
    + destruct H2 as [? ? ? ? ? C F N]. constructor; [done..| | |].
      * intros j Hj. specialize (C j Hj). unfold lupd in C. by case_decide; subst.
      * intros j b Hb. apply F. rewrite in_lupd. destruct (decide (j = i)) as [->|]; [by left|right; split; [done|]].
        rewrite in_lupd. by right.
      * intros j. specialize (N j). unfold lupd in N. by case_decide; subst.
    + intros w Hw. rewrite Hz. by apply zeroed_in.
Qed.

Lemma kfree_correct_witness :
  ∃ h a h' h2, kfree a h = Some (tt, h') ∧ kmalloc 100 h' = Some (Some a, h2).
Proof.
  destruct boot_heap as (own & h & HH & Hid & Hf & _).
  destruct (kmalloc_small own no_slabs no_objects h 100 HH Hid) as [(_ & _ & Hno)|(own' & sl' & fl' & h' & a & R & Hid' & G)].
  - by split.
  - by destruct (Hno 512).
  - destruct (kfree_correct own' sl' fl' h' (slab_size_to_index 100) a 100 (gn_heap _ _ _ _ _ _ _ _ _ _ G) Hid')
      as (_ & h2 & R2 & _ & _ & _ & _ & h3 & R3 & _); [apply G|by split|done|]. by exists h', a, h2, h3.
Defined.

(** A request of more than a page takes whole pages: the smallest power of two
    that holds it, zeroed; [NULL] is returned, with nothing changed, exactly for
    requests above 4 MiB or with no block large enough free; and [kfree] of the
    result finds the order again and restores the set of free pages. *)
Theorem kmalloc_large_roundtrip own sl fl h size :
  Heap own sl fl h → PAGE_SIZE < size < 2 ^ 64 →
  (kmalloc size h = Some (None, h) ∧
   (PAGE_SIZE * 2 ^ MAX_ORDER < size ∨ ∀ q x, size ≤ PAGE_SIZE * 2 ^ q → own x ≠ Some (x, q, true))) ∨
  (∃ own' p o h', kmalloc size h = Some (Some (pfn_to_phys p), h') ∧ Heap own' sl fl h' ∧ allocated own own' p o ∧
     PAGE_SIZE * 2 ^ (o - 1) < size ≤ PAGE_SIZE * 2 ^ o ∧
     (∀ w, pfn_to_phys p ≤ w < pfn_to_phys p + PAGE_SIZE * 2 ^ o → ram (kmem h') !! w = None) ∧
     ∃ own2 h2, kfree (pfn_to_phys p) h' = Some (tt, h2) ∧ Heap own2 sl fl h2 ∧ ∀ x, is_free own2 x ↔ is_free own x).
Proof.
  intros HH Hs. destruct (kmalloc_big _ _ _ _ _ HH Hs) as [H|(own' & p & o & h' & R & H' & _ & Ha & Hsl & Ho & Hsz & Hz & _)]; [by left|right].
  exists own', p, o, h'. split_and!; [done|done|done|lia|lia|done|]. pose proof (pow2_pos o ltac:(lia)). destruct Ha as (_ & Ain & Aout).
  destruct (kfree_block _ _ _ _ p o H') as (own2 & h2 & R2 & H2 & _ & [Fin Fout] & _); [apply (Ain p); unfold in_block; lia|done|].
  exists own2, h2. split_and!; [done|done|]. intros x. destruct (decide (p ≤ x < p + 2 ^ o)) as [Hi|Hi].
  - split; intros _; [by apply Ain|by apply Fin].
  - destruct (Aout x Hi) as [[? ?]|[Hn E1]], (Fout x Hi) as [[? ?]|[Hn2 E2]]; try tauto; unfold is_free in *; rewrite ?E2, ?E1 in *; tauto.
Qed.

Lemma kmalloc_large_roundtrip_witness :
  ∃ h, (kmalloc 5000 h = Some (None, h)) ∨ ∃ a h' h2, kmalloc 5000 h = Some (Some a, h') ∧ kfree a h' = Some (tt, h2).
Proof.
  destruct boot_heap as (own & h & HH & Hid & Hf & _). exists h.
  destruct (kmalloc_large_roundtrip own no_slabs no_objects h 5000 HH) as [[R _]|(own' & p & o & h' & R & _ & _ & _ & _ & own2 & h2 & R2 & _)].
  - by split.
  - by left.
  - right. by exists (pfn_to_phys p), h', h2.
Defined.

(** ** Freeing twice *)

(** [kmalloc] from a list that is not empty. *)
Lemma kmalloc_pop_run h i c size :
  1 ≤ size ≤ PAGE_SIZE → slab_size_to_index size = i → slab_caches h !! i = Some c → let a := free_list c in a ≠ 0 →
  kmalloc size h = Some (Some a, mk_kheap (set_ram (zeroed a (obj_size c) (ram (kmem h))) (kmem h))
                                          (<[i := set_free_list (word (kmem h) a) c]> (slab_caches h))).
Proof.
  intros Hs Hi Hc a Ha. destruct (size_class size Hs) as (Hr & _). rewrite Hi in Hr.
  unfold kmalloc. destruct (Z.eqb_spec size 0); [lia|]. destruct (Z.leb_spec size PAGE_SIZE); [|lia]. rewrite Hi.
  run (ld_cache_ok (h := h) free_list i c Hr Hc). fold a. destruct (Z.eqb_spec a 0); [done|]. by apply slab_pop_run.
Qed.

(** A list that runs into itself is walked for ever. *)
Lemma count_free_loops fuel osz a total h : a ≠ 0 → word (kmem h) a = a → count_free fuel osz a total h = None.
Proof.
  intros Ha Hw. revert total. induction fuel as [|fuel IH]; intros total; [done|]. cbn [count_free].
  destruct (Z.eqb_spec a 0); [done|]. unfold ld_word. rewrite bind_gets, Hw. apply IH.
Qed.

(** Freeing an object twice is not noticed: the free list becomes a loop of
    one object, the next two requests of its class return the same address, and
    [slab_get_stats] walking that list before then never ends. *)
Theorem double_kfree_aliases own sl fl h i a size :
  Heap own sl fl h → live sl fl i a → 1 ≤ size ≤ PAGE_SIZE → slab_size_to_index size = i →
  ∃ h1 h2 h3 h4, kfree a h = Some (tt, h1) ∧ kfree a h1 = Some (tt, h2) ∧
    kmalloc size h2 = Some (Some a, h3) ∧ kmalloc size h3 = Some (Some a, h4) ∧
    free_list (cache h2 i) = a ∧ ∀ fuel osz total, count_free fuel osz a total h2 = None.
Proof.
  intros HH [Hob Hnl] Hs Hi. pose proof (object_nz HH _ _ Hob) as Hnz.
  destruct (object_place HH _ _ Hob) as (p & k & Hp & Hr & _ & _ & _ & Hpfn & _). destruct (slab_range HH _ _ Hp) as [Hpr Hpt].
  destruct (hp_cache _ _ _ _ HH i Hr) as (c & Hc & Ho & _). destruct (osize_facts i Hr) as (_ & _ & Hsz & _).
  assert (has (flags (pg (kmem h) p)) PAGE_FLAG_SLAB = true) as Hfl by (rewrite (hp_flag _ _ _ _ HH), Hp; done).
  pose proof (hp_owner _ _ _ _ HH _ _ Hp) as Hown.
  pose proof (kfree_slab_run h a p i c Hnz Hpfn Hpr Hpt Hfl Hown Hr Hc) as R1. set (h1 := mk_kheap _ _) in R1.
  pose proof (kfree_slab_run h1 a p i (set_free_list a c) Hnz Hpfn Hpr Hpt Hfl Hown Hr ltac:(apply lookup_insert_eq)) as R2.
  set (h2 := mk_kheap _ _) in R2. assert (word (kmem h2) a = a) as Hw by (unfold word; cbn; by rewrite lookup_insert_eq).
  pose proof (kmalloc_pop_run h2 i _ size Hs Hi ltac:(apply lookup_insert_eq) Hnz) as R3. set (h3 := mk_kheap _ _) in R3.
  assert (slab_caches h3 !! i = Some (set_free_list a c)) as Hc3.
  { cbn [free_list set_free_list] in h3. unfold h3. cbn [slab_caches]. rewrite Hw. apply lookup_insert_eq. }
  pose proof (kmalloc_pop_run h3 i _ size Hs Hi Hc3 Hnz) as R4.
  exists h1, h2, h3. eexists. split_and!; [exact R1|exact R2|exact R3|exact R4| |].
  - unfold cache, h2. cbn. by rewrite lookup_insert_eq.
  - intros fuel osz total. by apply count_free_loops.
Qed.

Lemma double_kfree_aliases_witness : ∃ h a h1 h2 h3 h4, kfree a h = Some (tt, h1) ∧ kfree a h1 = Some (tt, h2) ∧
  kmalloc 100 h2 = Some (Some a, h3) ∧ kmalloc 100 h3 = Some (Some a, h4).
Proof.
  destruct boot_heap as (own & h & HH & Hid & Hf & _).
  destruct (kmalloc_small own no_slabs no_objects h 100 HH Hid) as [(_ & _ & Hno)|(own' & sl' & fl' & h' & a & R & Hid' & G)].
  - by split.
  - by destruct (Hno 512).
  - destruct (double_kfree_aliases own' sl' fl' h' (slab_size_to_index 100) a 100 (gn_heap _ _ _ _ _ _ _ _ _ _ G))
      as (h1 & h2 & h3 & h4 & R1 & R2 & R3 & R4 & _); [apply G|by split|done|]. by exists h', a, h1, h2, h3, h4.
Defined.

(** ** Statistics *)
Lemma count_free_spec fuel osz a l total h :
  links (ram (kmem h)) a l → (length l < fuel)%nat → 0 ≤ total < 2 ^ 64 →
  count_free fuel osz a total h = Some (u64 (total + Z.of_nat (length l) * osz), h).
Proof.
  revert a l total. induction fuel as [|fuel IH]; intros a l total Hl Hf Ht; [lia|]. cbn [count_free].
  destruct l as [|x l]; cbn [links] in Hl.
  - subst a. cbn. unfold ret. do 2 f_equal. unfold u64. rewrite Z.add_0_r. by rewrite Z.mod_small.
  - destruct Hl as (-> & Hx & Hl). destruct (Z.eqb_spec x 0); [done|]. unfold ld_word. rewrite bind_gets.
    rewrite (IH _ l) by (done || (cbn in Hf; lia) || (unfold u64; by apply Z.mod_pos_bound)). do 2 f_equal.
    unfold u64. rewrite Zplus_mod_idemp_l. f_equal. cbn [length]. lia.
Qed.

Lemma objects_bounded own sl fl h i : Heap own sl fl h → (length (fl i) < stats_fuel)%nat.
Proof.
  intros HH. rewrite stats_fuel_eq.
  assert (length (fl i) ≤ length (seqZ 0 (BUDDY_MAX_PAGES * 128)))%nat as Hle.
  { rewrite <- (length_fmap (λ a, (a - phys_mem_base) / 32)). apply submseteq_length, NoDup_submseteq.
    - apply NoDup_fmap_2_strong; [|apply HH]. intros a b Ha Hb E. pose proof (hp_lists HH _ _ Ha) as Hi.
      destruct (osize_facts i Hi) as (_ & _ & Hs & _).
      destruct (objects_disjoint HH i a i b) as [[_ ->]|Hd]; [by apply (hp_free _ _ _ _ HH)..|done|].
      pose proof (Z.div_mod (a - phys_mem_base) 32 ltac:(lia)). pose proof (Z.div_mod (b - phys_mem_base) 32 ltac:(lia)).
      pose proof (Z.mod_pos_bound (a - phys_mem_base) 32 ltac:(lia)). pose proof (Z.mod_pos_bound (b - phys_mem_base) 32 ltac:(lia)). lia.
    - intros x (a & -> & Ha)%list_elem_of_fmap. apply elem_of_seqZ.
      destruct (object_place HH i a (hp_free _ _ _ _ HH _ _ Ha)) as (p & k & Hp & Hi & _ & H1 & H2 & _).
      destruct (osize_facts i Hi) as (_ & _ & Hs & _). destruct (slab_range HH _ _ Hp) as [Hpr _].
      unfold pfn_to_phys, phys_mem_base, PAGE_SIZE in *. split; [apply Z.div_pos; lia|].
      apply Z.div_lt_upper_bound; lia. }
  rewrite length_seqZ in Hle. assert (0 < BUDDY_MAX_PAGES) by done. lia.
Qed.

(** The free bytes of the caches from [i] on. *)
Fixpoint free_bytes (fl : Z → list Z) (n : nat) (i : Z) : Z :=
  match n with O => 0 | S n => Z.of_nat (length (fl i)) * osize i + free_bytes fl n (i + 1) end.

(** [slab_get_stats] ends and counts exactly the bytes of the free objects. *)
Theorem slab_get_stats_correct own sl fl h :
  Heap own sl fl h → slab_get_stats h = Some ((0, u64 (free_bytes fl 8 0)), h).
Proof.
  intros HH. assert (∀ n i total, 0 ≤ i → i + Z.of_nat n ≤ SLAB_NUM_CACHES → 0 ≤ total < 2 ^ 64 →
    slab_stats_from n i total h = Some (u64 (total + free_bytes fl n i), h)) as Hn.
  { induction n as [|n IH]; intros i total Hi Hle Ht; cbn [slab_stats_from free_bytes].
    - unfold ret. do 2 f_equal. unfold u64. rewrite Z.add_0_r. by rewrite Z.mod_small.
    - destruct (hp_cache _ _ _ _ HH i ltac:(lia)) as (c & Hc & Ho & Hl). rewrite bind_gets, (cache_lookup _ _ _ Hc), Ho.
      run (count_free_spec stats_fuel (osize i) _ _ total h Hl (objects_bounded _ _ _ _ i HH) Ht).
      rewrite IH by (lia || (unfold u64; by apply Z.mod_pos_bound)). do 2 f_equal. unfold u64. rewrite Zplus_mod_idemp_l. f_equal. lia. }
  unfold slab_get_stats. run (Hn (Z.to_nat SLAB_NUM_CACHES) 0 0 ltac:(done) ltac:(done) ltac:(done)). done.
Qed.

(** ** kmalloc on several CPUs

    [kmalloc] drops [slab_lock] around [slab_grow], which pushes the objects of
    the new page on the cache's list without any lock.  A thread's step is a
    section under the lock, or one access of the carving loop; the model is one
    cache, its memory and the pages that [alloc_page] will give. *)
(** Where a thread is in [kmalloc]. *)
Inductive kpc :=
  | Outside
  | Waiting          (* [growing] was set: the lock is open for a pause *)
  | Spinning         (* still growing: the second pause *)
  | Growing          (* this thread set [growing] and opened the lock *)
  | Carving (base i : Z)
  | Loaded (base i fl : Z)     (* [cache->free_list] read for the link *)
  | Linked (base i : Z)        (* the link stored, the list not yet updated *)
  | Grew (ok : bool)           (* [slab_grow] returned *)
  | Returned (r : option Z).
#[export] Instance kpc_eq_dec : EqDecision kpc.
Proof. solve_decision. Defined.

(** [out] is a ghost: the objects given to callers and not freed. *)
Record cstate := mk_cstate {
  cs_list : Z;
  cs_growing : bool;
  cs_mem : gmap Z Z;
  cs_pages : list Z;
  cs_pc : gmap nat kpc;
  out : list Z
}.

Section race.
Variable osz : Z.

Definition goto (t : nat) (pc : kpc) (s : cstate) : cstate :=
  mk_cstate (cs_list s) (cs_growing s) (cs_mem s) (cs_pages s) (<[t := pc]> (cs_pc s)) (out s).
Definition with_growing (b : bool) (s : cstate) : cstate :=
  mk_cstate (cs_list s) b (cs_mem s) (cs_pages s) (cs_pc s) (out s).
Definition with_list (v : Z) (s : cstate) : cstate :=
  mk_cstate v (cs_growing s) (cs_mem s) (cs_pages s) (cs_pc s) (out s).
Definition with_mem (m : gmap Z Z) (s : cstate) : cstate :=
  mk_cstate (cs_list s) (cs_growing s) m (cs_pages s) (cs_pc s) (out s).

(** [slab_pop] to the end of the function. *)
Definition pop_return (t : nat) (s : cstate) : cstate :=
  let obj := cs_list s in
  let n := default 0 (cs_mem s !! obj) in
  goto t (Returned (Some obj))
    (mk_cstate n (cs_growing s) (filter (λ kv, ¬ (obj ≤ kv.1 < obj + osz)) (cs_mem s)) (cs_pages s) (cs_pc s) (obj :: out s)).

(** One step of thread [t] inside [kmalloc]. *)
Definition kstep (t : nat) (s : cstate) : option cstate :=
  match default Outside (cs_pc s !! t) with
  | Outside =>
      Some (if negb (cs_list s =? 0) then pop_return t s
            else if cs_growing s then goto t Waiting s
            else goto t Growing (with_growing true s))
  | Waiting =>
      Some (if negb (cs_list s =? 0) then pop_return t s
            else if cs_growing s then goto t Spinning s
            else goto t Growing (with_growing true s))
  | Spinning =>
      Some (if cs_list s =? 0 then goto t (Returned None) s else pop_return t s)
  | Growing =>
      match cs_pages s with
      | [] => Some (goto t (Grew false) s)
      | p :: ps =>
          Some (goto t (Carving p 0)
            (mk_cstate (cs_list s) (cs_growing s) (filter (λ kv, ¬ (p ≤ kv.1 < p + PAGE_SIZE)) (cs_mem s)) ps (cs_pc s) (out s)))
      end
  | Carving base i =>
      Some (if i + osz <=? PAGE_SIZE then goto t (Loaded base i (cs_list s)) s else goto t (Grew true) s)
  | Loaded base i fl => Some (goto t (Linked base i) (with_mem (<[base + i := fl]> (cs_mem s)) s))
  | Linked base i => Some (goto t (Carving base (i + osz)) (with_list (base + i) s))
  | Grew ok =>
      let s := with_growing false s in
      Some (if negb ok then goto t (Returned None) s
            else if cs_list s =? 0 then goto t (Returned None) s else pop_return t s)
  | Returned _ => None
  end.

(** A thread that returned may call [kmalloc] again, or free what it has. *)
Definition free_section (a : Z) (s : cstate) : cstate :=
  let m := filter (λ kv, ¬ (a ≤ kv.1 < a + osz)) (cs_mem s) in
  mk_cstate a (cs_growing s) (<[a := cs_list s]> m) (cs_pages s) (cs_pc s)
            (match list_find (λ x, x = a) (out s) with Some (n, _) => delete n (out s) | None => out s end).

Inductive step : cstate → cstate → Prop :=
  | step_kmalloc t s s' : kstep t s = Some s' → step s s'
  | step_call t r s : cs_pc s !! t = Some (Returned r) → step s (goto t Outside s)
  | step_kfree a s : a ∈ out s → step s (free_section a s).

Definition reachable : cstate → cstate → Prop := rtc step.

(** An empty cache and the pages to come. *)
Definition start (ps : list Z) : cstate := mk_cstate 0 false ∅ ps ∅ [].

(** A schedule: the thread that moves next; one that returned calls again. *)
Fixpoint play (ts : list nat) (s : cstate) : option cstate :=
  match ts with
  | [] => Some s
  | t :: ts =>
      match cs_pc s !! t with
      | Some (Returned _) => play ts (goto t Outside s)
      | _ => match kstep t s with Some s' => play ts s' | None => None end
      end
  end.

Lemma play_reachable ts s s' : play ts s = Some s' → reachable s s'.
Proof.
  revert s. induction ts as [|t ts IH]; intros s; cbn [play]; [by intros [= ->]; constructor|].
  destruct (cs_pc s !! t) as [pc|] eqn:Ep.
  - destruct pc; try (destruct (kstep t s) as [s1|] eqn:Ek; [|done]; intros H%IH; eapply rtc_l; [by eapply step_kmalloc|done]).
    intros H%IH. eapply rtc_l; [by eapply step_call|done].
  - destruct (kstep t s) as [s1|] eqn:Ek; [|done]. intros H%IH. eapply rtc_l; [by eapply step_kmalloc|done].
Qed.
(** What a schedule shows, by evaluation. *)
Lemma play_shows ts s (P : cstate → Prop) `{!∀ s, Decision (P s)} :
  match play ts s with Some s' => bool_decide (P s') | None => false end = true → ∃ s', reachable s s' ∧ P s'.
Proof.
  destruct (play ts s) as [s'|] eqn:E; [|done]. intros Hb%bool_decide_eq_true_1. exists s'. split; [by eapply play_reachable|done].
Qed.
End race.

(** A page at an address, with the two objects of the 2048-byte cache. *)
Definition race_page : Z := 0x300000.

(** Thread 0 grows the cache and has read the list head for the second object;
    thread 1 takes that head; thread 0 links the second object to it. *)
Definition race_schedule : list nat :=
  [0; 0; 0; 0; 0; 0; 1; 0; 0; 0; 0; 1; 1]%nat.

(** Two callers of [kmalloc] can be given the same object: in a cache of
    2048-byte objects that one thread is growing, another thread's request
    between the growing thread's read of the list and its update leaves an
    object both in use and on the list, and a later request returns it again. *)
Theorem grow_race_aliases :
  ∃ s, reachable 2048 (start [race_page]) s ∧
    cs_pc s !! 0%nat = Some (Returned (Some (race_page + 2048))) ∧
    cs_pc s !! 1%nat = Some (Returned (Some race_page)) ∧
    out s = [race_page; race_page + 2048; race_page].
Proof.
  apply (play_shows 2048 race_schedule _ (λ s, _ ∧ _ ∧ _)). vm_compute. reflexivity.
Qed.

(** A request can fail although memory is left: the second pause is over before
    the thread that grows the cache has linked an object. *)
Theorem spurious_null :
  ∃ s, reachable 2048 (start [race_page; race_page + PAGE_SIZE]) s ∧
    cs_pc s !! 1%nat = Some (Returned None) ∧ cs_pages s ≠ [].
Proof.
  apply (play_shows 2048 [0; 1; 1; 1]%nat _ (λ s, _ ∧ _)). vm_compute. reflexivity.
Qed.
