(* ===== verification/Pipe.v ===== *)
(** * kernel/pipe.c: the ring buffer of anonymous pipes.

    The ring with its blocked-task pointers, and the critical sections of
    [pipe_read], [pipe_write] and [pipe_close] as functions on it; the code
    between two sections is a transition of the interleaving relation. *)
From S2P Require Import Prelude.
Local Open Scope Z_scope.

Definition PIPE_BUF_SIZE : Z := 4096.

(** ** State *)

(** [struct pipe_ring]; tasks are named by number. *)
Record pipe_ring := mk_ring {
  buf : list Z;
  head : Z;
  tail : Z;
  count : Z;
  read_open : bool;
  write_open : bool;
  blocked_reader : option Z;
  blocked_writer : option Z
}.

Inductive task_state := TASK_READY | TASK_RUNNING | TASK_BLOCKED.
#[export] Instance task_state_eq_dec : EqDecision task_state.
Proof. solve_decision. Defined.

(** A ring with the scheduling states of the tasks that use it. *)
Record pipe_sys := mk_sys { ring : pipe_ring; states : Z → task_state }.

Definition set_state (t : Z) (v : task_state) (f : Z → task_state) : Z → task_state :=
  λ t', if decide (t' = t) then v else f t'.

(** ** Copies *)

(** [memcpy(dst, ring->buf + off, n)]. *)
Definition copy_out (off n : Z) (b : list Z) : list Z := take (Z.to_nat n) (drop (Z.to_nat off) b).
(** [memcpy(ring->buf + off, src, n)] with the bytes of [src] given. *)
Definition copy_in (off : Z) (src b : list Z) : list Z := list_inserts (Z.to_nat off) src b.

(** ** pipe_read *)

(** [if (ring->blocked_writer && ...->state == TASK_BLOCKED)]: wake it. *)
Definition wake_writer (p : pipe_sys) : pipe_sys :=
  let r := ring p in
  match blocked_writer r with
  | Some t =>
      if decide (states p t = TASK_BLOCKED)
      then mk_sys (mk_ring (buf r) (head r) (tail r) (count r) (read_open r) (write_open r)
                           (blocked_reader r) None)
                  (set_state t TASK_READY (states p))
      else p
  | None => p
  end.
Definition wake_reader (p : pipe_sys) : pipe_sys :=
  let r := ring p in
  match blocked_reader r with
  | Some t =>
      if decide (states p t = TASK_BLOCKED)
      then mk_sys (mk_ring (buf r) (head r) (tail r) (count r) (read_open r) (write_open r)
                           None (blocked_writer r))
                  (set_state t TASK_READY (states p))
      else p
  | None => p
  end.

(** The copy of the second half of [pipe_read], with data available. *)
Definition ring_get (n : Z) (r : pipe_ring) : list Z * pipe_ring :=
  let toread := if count r <? n then count r else n in
  let first_chunk := PIPE_BUF_SIZE - head r in
  let first_chunk := if toread <? first_chunk then toread else first_chunk in
  let data := copy_out (head r) first_chunk (buf r) ++
              (if first_chunk <? toread then copy_out 0 (toread - first_chunk) (buf r) else []) in
  (data, mk_ring (buf r) ((head r + toread) mod PIPE_BUF_SIZE) (tail r) (u32 (count r - toread))
                 (read_open r) (write_open r) (blocked_reader r) (blocked_writer r)).

(** What one locked turn of the [for (;;)] of [pipe_read] does. *)
Inductive read_outcome :=
  | ReadData (data : list Z)
  | ReadEof
  | ReadBlocks.

Definition read_turn (current : Z) (n : Z) (p : pipe_sys) : read_outcome * pipe_sys :=
  let r := ring p in
  if 0 <? count r then
    let '(data, r') := ring_get n r in
    (ReadData data, wake_writer (mk_sys r' (states p)))
  else if negb (write_open r) then (ReadEof, p)
  else (ReadBlocks,
        mk_sys (mk_ring (buf r) (head r) (tail r) (count r) (read_open r) (write_open r)
                        (Some current) (blocked_writer r)) (states p)).

(** The early return on a pending signal. *)
Definition read_interrupted (current : Z) (p : pipe_sys) : pipe_sys :=
  let r := ring p in
  if decide (blocked_reader r = Some current)
  then mk_sys (mk_ring (buf r) (head r) (tail r) (count r) (read_open r) (write_open r)
                       None (blocked_writer r)) (states p)
  else p.

(** ** pipe_write *)

(** One copy of the [while (total < count)] loop: the bytes taken from [src]. *)
Definition ring_put (src : list Z) (r : pipe_ring) : Z * pipe_ring :=
  let space := PIPE_BUF_SIZE - count r in
  let towrite := Z.of_nat (length src) in
  let towrite := if space <? towrite then space else towrite in
  let first_chunk := PIPE_BUF_SIZE - tail r in
  let first_chunk := if towrite <? first_chunk then towrite else first_chunk in
  let b := copy_in (tail r) (take (Z.to_nat first_chunk) src) (buf r) in
  let b := if first_chunk <? towrite
           then copy_in 0 (take (Z.to_nat (towrite - first_chunk)) (drop (Z.to_nat first_chunk) src)) b
           else b in
  (towrite, mk_ring b (head r) ((tail r + towrite) mod PIPE_BUF_SIZE) (u32 (count r + towrite))
                    (read_open r) (write_open r) (blocked_reader r) (blocked_writer r)).

Inductive write_outcome :=
  | WriteTook (n : Z)
  | WriteEpipe
  | WriteBlocks.

(** The first check of [pipe_write]. *)
Definition write_check (p : pipe_sys) : bool := read_open (ring p).

(** One locked turn of its inner loop, and the copy when there is room. *)
Definition write_turn (src : list Z) (p : pipe_sys) : write_outcome * pipe_sys :=
  let r := ring p in
  if count r <? PIPE_BUF_SIZE then
    let '(n, r') := ring_put src r in
    (WriteTook n, wake_reader (mk_sys r' (states p)))
  else if negb (read_open r) then (WriteEpipe, p)
  else (WriteBlocks, p).

(** The second critical section of the full case. *)
Definition write_mark (current : Z) (p : pipe_sys) : pipe_sys :=
  let r := ring p in
  mk_sys (mk_ring (buf r) (head r) (tail r) (count r) (read_open r) (write_open r)
                  (blocked_reader r) (Some current)) (states p).

(** ** pipe_close and creation *)
Inductive pipe_end := ReadEnd | WriteEnd.

(** The new ring and whether both ends are now closed, which frees it. *)
Definition pipe_close (e : pipe_end) (r : pipe_ring) : pipe_ring * bool :=
  let ro := match e with ReadEnd => false | WriteEnd => read_open r end in
  let wo := match e with ReadEnd => write_open r | WriteEnd => false end in
  (mk_ring (buf r) (head r) (tail r) (count r) ro wo (blocked_reader r) (blocked_writer r),
   negb ro && negb wo).

(** The ring of [sys_pipe]: [memset] to zero, both ends open. *)
Definition new_ring : pipe_ring :=
  mk_ring (replicate (Z.to_nat PIPE_BUF_SIZE) 0) 0 0 0 true true None None.

(** ** Representation *)
Definition contents (r : pipe_ring) : list Z :=
  (λ i, buf r !!! Z.to_nat ((head r + i) mod PIPE_BUF_SIZE)) <$> seqZ 0 (count r).

Record ring_ok (r : pipe_ring) : Prop := mk_ok {
  ok_buf : length (buf r) = Z.to_nat PIPE_BUF_SIZE;
  ok_head : 0 ≤ head r < PIPE_BUF_SIZE;
  ok_count : 0 ≤ count r ≤ PIPE_BUF_SIZE;
  ok_tail : tail r = (head r + count r) mod PIPE_BUF_SIZE
}.

Lemma size_pos : PIPE_BUF_SIZE = 4096.
Proof. done. Qed.

Lemma new_ring_ok : ring_ok new_ring ∧ contents new_ring = [].
Proof.
  pose proof size_pos. split; [|done].
  constructor; cbn [new_ring buf head count tail]; [by rewrite length_replicate|lia|lia|done].
Qed.

Lemma length_contents r : 0 ≤ count r → length (contents r) = Z.to_nat (count r).
Proof. intros H. unfold contents. by rewrite length_fmap, length_seqZ. Qed.

Lemma contents_lookup r i :
  0 ≤ i < count r →
  contents r !! Z.to_nat i = Some (buf r !!! Z.to_nat ((head r + i) mod PIPE_BUF_SIZE)).
Proof.
  intros Hi. unfold contents. rewrite list_lookup_fmap, lookup_seqZ_lt by lia. simpl.
  by rewrite Z2Nat.id by lia.
Qed.
Lemma contents_lookup_nat r (i : nat) :
  Z.of_nat i < count r →
  contents r !! i = Some (buf r !!! Z.to_nat ((head r + Z.of_nat i) mod PIPE_BUF_SIZE)).
Proof. intros Hi. rewrite <- (Nat2Z.id i) at 1. apply contents_lookup. lia. Qed.

(** Wrapping at most once. *)
Lemma mod_wrap x : 0 ≤ x < 2 * PIPE_BUF_SIZE →
  x mod PIPE_BUF_SIZE = if x <? PIPE_BUF_SIZE then x else x - PIPE_BUF_SIZE.
Proof.
  intros Hx. destruct (Z.ltb_spec x PIPE_BUF_SIZE); [apply Z.mod_small; lia|].
  symmetry. apply (Z.mod_unique_pos _ _ 1); lia.
Qed.

Lemma copy_out_lookup off n b i :
  0 ≤ off → off + n ≤ Z.of_nat (length b) → Z.of_nat i < n →
  copy_out off n b !! i = Some (b !!! Z.to_nat (off + Z.of_nat i)).
Proof.
  intros Ho Hn Hi. unfold copy_out. rewrite lookup_take_lt by lia. rewrite lookup_drop.
  replace (Z.to_nat off + i)%nat with (Z.to_nat (off + Z.of_nat i)) by lia.
  apply list_lookup_lookup_total_lt. lia.
Qed.
Lemma length_copy_out off n b :
  0 ≤ off → 0 ≤ n → off + n ≤ Z.of_nat (length b) → length (copy_out off n b) = Z.to_nat n.
Proof. intros. unfold copy_out. rewrite length_take, length_drop. lia. Qed.

(** [ring_get] removes a prefix of the contents. *)
Lemma ring_get_spec n r :
  ring_ok r → 0 ≤ n →
  let k := Z.to_nat (Z.min n (count r)) in
  (ring_get n r).1 = take k (contents r) ∧
  contents (ring_get n r).2 = drop k (contents r) ∧ ring_ok (ring_get n r).2.
Proof.
  intros [Hb Hh Hc Ht] Hn k. pose proof size_pos as HS. unfold ring_get.
  assert ((if count r <? n then count r else n) = Z.min n (count r)) as ->
    by (destruct (Z.ltb_spec (count r) n); lia).
  set (m := Z.min n (count r)) in *. cbn [fst snd].
  set (fc := if m <? PIPE_BUF_SIZE - head r then m else PIPE_BUF_SIZE - head r).
  assert (fc = Z.min m (PIPE_BUF_SIZE - head r)) as Hfc
    by (unfold fc; destruct (Z.ltb_spec m (PIPE_BUF_SIZE - head r)); lia).
  assert (u32 (count r - m) = count r - m) as Hu by (unfold u32; apply Z.mod_small; lia).
  split_and!.
  - apply list_eq_same_length with (n := k); [rewrite length_take, length_contents; lia| |].
    + rewrite length_app. unfold k. destruct (Z.ltb_spec fc m); simpl; rewrite ?length_copy_out; lia.
    + intros i x y Hi. rewrite lookup_take_lt by done. rewrite contents_lookup_nat by lia. intros Hx [= <-].
      destruct (decide (Z.of_nat i < fc)) as [Hlt|Hge].
      * rewrite lookup_app_l, copy_out_lookup in Hx by (rewrite ?length_copy_out; lia).
        injection Hx as <-. rewrite mod_wrap by lia. by destruct (Z.ltb_spec (head r + Z.of_nat i) PIPE_BUF_SIZE); [|lia].
      * rewrite lookup_app_r, length_copy_out in Hx by (rewrite ?length_copy_out; lia).
        destruct (Z.ltb_spec fc m); [|lia]. rewrite copy_out_lookup in Hx by lia.
        injection Hx as <-. rewrite mod_wrap by lia. destruct (Z.ltb_spec (head r + Z.of_nat i) PIPE_BUF_SIZE); [lia|].
        f_equal. lia.
  - apply list_eq. intros i. rewrite lookup_drop. unfold contents at 1. cbn [buf head count]. rewrite Hu.
    rewrite list_lookup_fmap. destruct (decide (Z.of_nat i < count r - m)).
    + rewrite lookup_seqZ_lt by lia. simpl. rewrite contents_lookup_nat by lia. f_equal. f_equal. f_equal.
      rewrite Zplus_mod_idemp_l. f_equal. lia.
    + rewrite lookup_seqZ_ge by lia. simpl. symmetry. apply lookup_ge_None. rewrite length_contents; lia.
  - constructor; cbn [buf head count tail]; rewrite ?Hu; [done|by apply Z.mod_pos_bound|lia|].
    rewrite Zplus_mod_idemp_l, Ht. f_equal. lia.
Qed.

Lemma copy_in_lookup off src b j :
  0 ≤ off → off + Z.of_nat (length src) ≤ Z.of_nat (length b) → 0 ≤ j < Z.of_nat (length b) →
  copy_in off src b !!! Z.to_nat j =
  if bool_decide (off ≤ j < off + Z.of_nat (length src)) then src !!! Z.to_nat (j - off) else b !!! Z.to_nat j.
Proof.
  intros Ho Hl Hj. unfold copy_in. rewrite !list_lookup_total_alt. case_bool_decide.
  - rewrite list_lookup_inserts by lia. do 2 f_equal. lia.
  - destruct (decide (j < off)); [by rewrite list_lookup_inserts_lt by lia|].
    by rewrite list_lookup_inserts_ge by lia.
Qed.
Lemma length_copy_in off src b : length (copy_in off src b) = length b.
Proof. apply length_inserts. Qed.

(** [ring_put] appends a prefix of the source to the contents. *)
Lemma ring_put_spec src r :
  ring_ok r →
  let k := Z.min (Z.of_nat (length src)) (PIPE_BUF_SIZE - count r) in
  (ring_put src r).1 = k ∧
  contents (ring_put src r).2 = contents r ++ take (Z.to_nat k) src ∧ ring_ok (ring_put src r).2.
Proof.
  intros [Hb Hh Hc Ht] k. pose proof size_pos as HS. unfold ring_put.
  assert ((if PIPE_BUF_SIZE - count r <? Z.of_nat (length src) then PIPE_BUF_SIZE - count r
           else Z.of_nat (length src)) = k) as ->
    by (destruct (Z.ltb_spec (PIPE_BUF_SIZE - count r) (Z.of_nat (length src))); lia).
  cbn [fst snd]. split; [done|].
  set (fc := if k <? PIPE_BUF_SIZE - tail r then k else PIPE_BUF_SIZE - tail r).
  assert (fc = Z.min k (PIPE_BUF_SIZE - tail r)) as Hfc
    by (unfold fc; destruct (Z.ltb_spec k (PIPE_BUF_SIZE - tail r)); lia).
  assert (0 ≤ tail r < PIPE_BUF_SIZE) as Htr by (rewrite Ht; by apply Z.mod_pos_bound).
  assert (u32 (count r + k) = count r + k) as Hu by (unfold u32; apply Z.mod_small; lia).
  set (b1 := copy_in (tail r) (take (Z.to_nat fc) src) (buf r)).
  set (b2 := if fc <? k then _ else b1).
  assert (length b2 = length (buf r)) as Hlen2.
  { unfold b2, b1. destruct (fc <? k); by rewrite !length_copy_in. }
  (* every cell of the new buffer, by its distance from the head *)
  assert (∀ i, 0 ≤ i < count r + k → b2 !!! Z.to_nat ((head r + i) mod PIPE_BUF_SIZE) =
     if bool_decide (i < count r) then buf r !!! Z.to_nat ((head r + i) mod PIPE_BUF_SIZE)
     else src !!! Z.to_nat (i - count r)) as Hcell.
  { intros i Hi. set (j := (head r + i) mod PIPE_BUF_SIZE).
    assert (0 ≤ j < PIPE_BUF_SIZE) as Hj by (by apply Z.mod_pos_bound).
    assert (j = head r + i ∨ j = head r + i - PIPE_BUF_SIZE) as Hjc
      by (unfold j; rewrite mod_wrap by lia; destruct (Z.ltb_spec (head r + i) PIPE_BUF_SIZE); lia).
    assert (tail r = head r + count r ∨ tail r = head r + count r - PIPE_BUF_SIZE) as Htc
      by (rewrite Ht, mod_wrap by lia; destruct (Z.ltb_spec (head r + count r) PIPE_BUF_SIZE); lia).
    assert (b1 !!! Z.to_nat j = if bool_decide (tail r ≤ j < tail r + fc) then src !!! Z.to_nat (j - tail r)
                                else buf r !!! Z.to_nat j) as H1.
    { unfold b1. rewrite copy_in_lookup by (rewrite ?length_take; lia). rewrite length_take.
      rewrite (bool_decide_ext _ (tail r ≤ j < tail r + fc)) by lia.
      case_bool_decide; [|done]. rewrite !list_lookup_total_alt, lookup_take_lt by lia. done. }
    assert (b2 !!! Z.to_nat j = if bool_decide (fc < k ∧ j < k - fc) then src !!! Z.to_nat (j + fc)
                                else b1 !!! Z.to_nat j) as H2.
    { unfold b2. destruct (Z.ltb_spec fc k); [|by rewrite bool_decide_eq_false_2 by lia].
      rewrite copy_in_lookup by (unfold b1; rewrite ?length_take, ?length_drop, ?length_copy_in; lia).
      rewrite length_take, length_drop.
      rewrite (bool_decide_ext _ (fc < k ∧ j < k - fc)) by lia.
      destruct (bool_decide (fc < k ∧ j < k - fc)) eqn:Hbd; [apply bool_decide_eq_true in Hbd|done].
      rewrite !list_lookup_total_alt, lookup_take_lt, lookup_drop by lia.
      do 2 f_equal. lia. }
    rewrite H2, H1. repeat case_bool_decide; try lia; try done; f_equal; lia. }
  split.
  - apply list_eq. intros i. unfold contents at 1. cbn [buf head count]. rewrite Hu, list_lookup_fmap.
    destruct (decide (Z.of_nat i < count r + k)).
    + rewrite lookup_seqZ_lt by lia. simpl. rewrite Hcell by lia. case_bool_decide.
      * rewrite lookup_app_l by (rewrite length_contents; lia). rewrite contents_lookup_nat by lia. done.
      * rewrite lookup_app_r, length_contents by (rewrite ?length_contents; lia).
        rewrite lookup_take_lt by lia. rewrite (list_lookup_lookup_total_lt src) by lia. do 2 f_equal. lia.
    + rewrite lookup_seqZ_ge by lia. simpl. symmetry. apply lookup_ge_None.
      rewrite length_app, length_contents, length_take by lia. lia.
  - constructor; cbn [buf head count tail]; rewrite ?Hu; [congruence|done|lia|].
    rewrite Ht, Zplus_mod_idemp_l. f_equal. lia.
Qed.
