(* ===== verification/PipeSys.v ===== *)
(** * kernel/pipe.c: a reader and a writer interleaved at their critical
    sections.

    [step] is one atomic piece of [pipe_read], [pipe_write] or [pipe_close]:
    a section under [ring->lock], or the code between two sections.  The ghost
    fields record the bytes accepted from the writer and given to the reader.  A
    task calls on an end only while it holds it open. *)
From S2P Require Import Prelude Pipe.
Local Open Scope Z_scope.

(** Where each task is in its call. *)
Inductive rpc :=
  | RIdle
  | RLoop (n : Z)            (* at the top of [for (;;)] *)
  | RMarked (n : Z)          (* [blocked_reader] set, lock released *)
  | RSleep (n : Z).          (* [state = TASK_BLOCKED; schedule()] *)
Inductive wpc :=
  | WIdle
  | WCheck (src : list Z)
  | WLoop (rest : list Z)    (* [rest] is what is left of the source *)
  | WFull (rest : list Z)    (* found the ring full, lock released *)
  | WMarked (rest : list Z)  (* [blocked_writer] set, lock released *)
  | WSleep (rest : list Z).

Record cfg := mk_cfg {
  sys : pipe_sys;
  reader : rpc;
  writer : wpc;
  sent : list Z;
  received : list Z
}.

Section system.
Context (R W : Z).

Definition with_ring (r : pipe_ring) (p : pipe_sys) : pipe_sys := mk_sys r (states p).
Definition after_write (rest : list Z) : wpc := match rest with [] => WIdle | _ => WLoop rest end.

(** do_sys_kill wakes a blocked task, which looks for what it waited for and,
    blocking again, for the signal. *)
Definition signalled (t : Z) (c c' : cfg) : Prop :=
  states (sys c) t = TASK_BLOCKED ∧
  c' = mk_cfg (mk_sys (ring (sys c)) (set_state t TASK_READY (states (sys c)))) (reader c) (writer c) (sent c) (received c).

Inductive step : cfg → cfg → Prop :=
  | R_call p w s g n : read_open (ring p) = true → 0 ≤ n → step (mk_cfg p RIdle w s g) (mk_cfg p (RLoop n) w s g)
  | R_data p w s g n d p' : read_turn R n p = (ReadData d, p') →
      step (mk_cfg p (RLoop n) w s g) (mk_cfg p' RIdle w s (g ++ d))
  | R_eof p w s g n p' : read_turn R n p = (ReadEof, p') →
      step (mk_cfg p (RLoop n) w s g) (mk_cfg p' RIdle w s g)
  | R_block p w s g n p' : read_turn R n p = (ReadBlocks, p') →
      step (mk_cfg p (RLoop n) w s g) (mk_cfg p' (RMarked n) w s g)
  | R_signal p w s g n : step (mk_cfg p (RMarked n) w s g) (mk_cfg (read_interrupted R p) RIdle w s g)
  | R_sleep p w s g n :
      step (mk_cfg p (RMarked n) w s g)
           (mk_cfg (mk_sys (ring p) (set_state R TASK_BLOCKED (states p))) (RSleep n) w s g)
  | R_wake p w s g n : states p R ≠ TASK_BLOCKED →
      step (mk_cfg p (RSleep n) w s g) (mk_cfg p (RLoop n) w s g)
  | R_close p w s g : read_open (ring p) = true →
      step (mk_cfg p RIdle w s g) (mk_cfg (with_ring (pipe_close ReadEnd (ring p)).1 p) RIdle w s g)
  | R_signalled c c' : signalled R c c' → step c c'
  | W_call p r s g src : write_open (ring p) = true →
      step (mk_cfg p r WIdle s g) (mk_cfg p r (WCheck src) s g)
  | W_refused p r s g src : write_check p = false →
      step (mk_cfg p r (WCheck src) s g) (mk_cfg p r WIdle s g)
  | W_start p r s g src : write_check p = true →
      step (mk_cfg p r (WCheck src) s g) (mk_cfg p r (after_write src) s g)
  | W_took p r s g rest k p' : write_turn rest p = (WriteTook k, p') →
      step (mk_cfg p r (WLoop rest) s g)
           (mk_cfg p' r (after_write (drop (Z.to_nat k) rest)) (s ++ take (Z.to_nat k) rest) g)
  | W_epipe p r s g rest p' : write_turn rest p = (WriteEpipe, p') →
      step (mk_cfg p r (WLoop rest) s g) (mk_cfg p' r WIdle s g)
  | W_full p r s g rest p' : write_turn rest p = (WriteBlocks, p') →
      step (mk_cfg p r (WLoop rest) s g) (mk_cfg p' r (WFull rest) s g)
  | W_signal p r s g rest : step (mk_cfg p r (WFull rest) s g) (mk_cfg p r WIdle s g)
  | W_mark p r s g rest :
      step (mk_cfg p r (WFull rest) s g) (mk_cfg (write_mark W p) r (WMarked rest) s g)
  | W_sleep p r s g rest :
      step (mk_cfg p r (WMarked rest) s g)
           (mk_cfg (mk_sys (ring p) (set_state W TASK_BLOCKED (states p))) r (WSleep rest) s g)
  | W_wake p r s g rest : states p W ≠ TASK_BLOCKED →
      step (mk_cfg p r (WSleep rest) s g) (mk_cfg p r (WLoop rest) s g)
  | W_close p r s g : write_open (ring p) = true →
      step (mk_cfg p r WIdle s g) (mk_cfg (with_ring (pipe_close WriteEnd (ring p)).1 p) r WIdle s g)
  | W_signalled c c' : signalled W c c' → step c c'.

Definition start : cfg := mk_cfg (mk_sys new_ring (λ _, TASK_RUNNING)) RIdle WIdle [] [].
Definition reachable (c : cfg) : Prop := rtc step start c.
(** Only a signal goes on. *)
Definition stuck (c : cfg) : Prop := ∀ c', step c c' → signalled R c c' ∨ signalled W c c'.
End system.

(** ** The FIFO invariant *)
Definition ring_of (p : pipe_sys) := ring p.
Definition fifo (c : cfg) : Prop :=
  ring_ok (ring (sys c)) ∧ sent c = received c ++ contents (ring (sys c)) ∧
  match reader c with RIdle => True | RLoop n | RMarked n | RSleep n => 0 ≤ n end.

(** Two rings with the same bytes. *)
Definition same_bytes (r r' : pipe_ring) : Prop :=
  buf r' = buf r ∧ head r' = head r ∧ tail r' = tail r ∧ count r' = count r.
Lemma same_bytes_ok r r' : same_bytes r r' → ring_ok r → ring_ok r' ∧ contents r' = contents r.
Proof.
  intros (H1 & H2 & H3 & H4) []. split; [constructor; congruence|].
  unfold contents. by rewrite H1, H2, H4.
Qed.
Lemma wake_writer_bytes p : same_bytes (ring p) (ring (wake_writer p)).
Proof. unfold wake_writer. destruct (blocked_writer (ring p)); [|done]. by case_decide. Qed.
Lemma wake_reader_bytes p : same_bytes (ring p) (ring (wake_reader p)).
Proof. unfold wake_reader. destruct (blocked_reader (ring p)); [|done]. by case_decide. Qed.
Lemma interrupted_bytes t p : same_bytes (ring p) (ring (read_interrupted t p)).
Proof. unfold read_interrupted. by case_decide. Qed.

Lemma fifo_same p p' r r' w w' s g :
  same_bytes (ring p) (ring p') →
  match r' with RIdle => True | RLoop n | RMarked n | RSleep n => 0 ≤ n end →
  fifo (mk_cfg p r w s g) → fifo (mk_cfg p' r' w' s g).
Proof.
  intros Hs Hr (Hok & Heq & _). unfold fifo in *. simpl in *.
  destruct (same_bytes_ok _ _ Hs Hok) as [Hok' Hc]. split_and!; [done|by rewrite Hc|done].
Qed.

Lemma read_turn_bytes t n p o p' :
  ring_ok (ring p) → 0 ≤ n → read_turn t n p = (o, p') →
  match o with
  | ReadData d => ring_ok (ring p') ∧ contents (ring p) = d ++ contents (ring p')
  | _ => same_bytes (ring p) (ring p')
  end.
Proof.
  intros Hok Hn. unfold read_turn. destruct (0 <? count (ring p)).
  - destruct (ring_get n (ring p)) as [d r'] eqn:E.
    destruct (ring_get_spec n (ring p) Hok Hn) as (H1 & H2 & H3). rewrite E in *. simpl in *.
    intros [= <- <-]. destruct (same_bytes_ok _ _ (wake_writer_bytes (mk_sys r' (states p))) H3) as [H4 H5].
    split; [done|]. rewrite H5. simpl. rewrite H2, H1. by rewrite take_drop.
  - destruct (negb _); intros [= <- <-]; done.
Qed.

Lemma write_turn_bytes src p o p' :
  ring_ok (ring p) → write_turn src p = (o, p') →
  match o with
  | WriteTook k => ring_ok (ring p') ∧ contents (ring p') = contents (ring p) ++ take (Z.to_nat k) src
  | _ => p' = p
  end.
Proof.
  intros Hok. unfold write_turn. destruct (_ <? _).
  - destruct (ring_put src (ring p)) as [k r'] eqn:E.
    destruct (ring_put_spec src (ring p) Hok) as (H1 & H2 & H3). rewrite E in *. cbn [fst snd] in *.
    intros [= <- <-]. destruct (same_bytes_ok _ _ (wake_reader_bytes (mk_sys r' (states p))) H3) as [H4 H5].
    split; [done|]. rewrite H5. cbn [ring]. by rewrite H2, H1.
  - destruct (negb _); by intros [= <- <-].
Qed.

Lemma fifo_signalled t c c' : fifo c → signalled t c c' → fifo c'.
Proof. intros HF [_ ->]. destruct c. by destruct HF as (? & ? & ?). Qed.
Lemma fifo_step R W c c' : fifo c → step R W c c' → fifo c'.
Proof.
  intros HF Hs. pose proof HF as (Hok & Heq & Hn). inversion Hs; subst; simpl in Hok, Heq, Hn; try by eapply fifo_signalled.
  all: try (eapply fifo_same; [|done|exact HF]; first
    [done|apply interrupted_bytes|exact (read_turn_bytes _ _ _ _ _ Hok Hn H)]).
  - destruct (read_turn_bytes _ _ _ _ _ Hok Hn H) as [Hok' Hc]. split_and!; [done| |done]. simpl.
    by rewrite Hc, app_assoc in Heq.
  - destruct (write_turn_bytes _ _ _ _ Hok H) as [Hok' Hc]. split_and!; [done| |done]. simpl.
    by rewrite Hc, app_assoc, Heq.
  - apply (write_turn_bytes _ _ _ _ Hok) in H. cbn in H. rewrite H. by eapply fifo_same; [|exact Hn|exact HF].
  - apply (write_turn_bytes _ _ _ _ Hok) in H. cbn in H. rewrite H. by eapply fifo_same; [|exact Hn|exact HF].
Qed.

Lemma fifo_reachable R W c : reachable R W c → fifo c.
Proof.
  intros Hr. assert (fifo start) as Hstart.
  { destruct new_ring_ok as [Hok Hc]. split_and!; [done| |done]. simpl. by rewrite Hc. }
  unfold reachable in Hr. revert Hstart. induction Hr as [c|c1 c2 c3 Hs _ IH]; [done|].
  intros H. apply IH. by eapply fifo_step.
Qed.

(** ** Theorems *)

(** C8: under every interleaving of a reader and a writer at their critical
    sections, with blocking, signals and closes, a pipe is a FIFO of bounded
    capacity: the bytes accepted from the writer are the bytes given to the
    reader followed by the bytes in the ring, and the ring stays within its
    4096 bytes. *)
Theorem pipe_fifo R W c :
  reachable R W c →
  sent c = received c ++ contents (ring (sys c)) ∧
  (length (sent c) - length (received c) ≤ Z.to_nat PIPE_BUF_SIZE)%nat.
Proof.
  intros Hr. destruct (fifo_reachable R W c Hr) as (Hok & Heq & _). split; [done|].
  rewrite Heq, length_app, length_contents by apply Hok. pose proof (ok_count _ Hok). lia.
Qed.

(** ** Lost wake-ups *)

(** A write that hits the window after the reader released the lock and before
    it marked itself blocked. *)
Definition hello : list Z := [104; 105].

Lemma read_blocks_new : read_turn 1 1 (mk_sys new_ring (λ _, TASK_RUNNING)) =
  (ReadBlocks, mk_sys (mk_ring (buf new_ring) 0 0 0 true true (Some 1) None) (λ _, TASK_RUNNING)).
Proof. done. Qed.

Definition after_hello : pipe_sys :=
  (write_turn hello (mk_sys (mk_ring (buf new_ring) 0 0 0 true true (Some 1) None) (λ _, TASK_RUNNING))).2.
Lemma write_hello :
  write_turn hello (mk_sys (mk_ring (buf new_ring) 0 0 0 true true (Some 1) None) (λ _, TASK_RUNNING))
  = (WriteTook 2, after_hello) ∧ count (ring after_hello) = 2 ∧ write_open (ring after_hello) = true.
Proof. by vm_compute. Qed.

(** Setting [blocked_reader] under the lock does not close the wake-up
    window: there is an interleaving after which two bytes are in the ring, the
    writer has returned, and the reader is blocked. *)
Theorem pipe_read_lost_wakeup :
  ∃ c, reachable 1 2 c ∧ reader c = RSleep 1 ∧ writer c = WIdle ∧
       states (sys c) 1 = TASK_BLOCKED ∧ count (ring (sys c)) = 2.
Proof.
  destruct write_hello as (Hw & Hc & _).
  eexists. split.
  { unfold reachable, start.
    eapply rtc_l; [by apply (R_call 1 2 _ _ _ _ 1)|].
    eapply rtc_l; [apply R_block, read_blocks_new|].
    eapply rtc_l; [apply (W_call _ _ _ _ _ _ hello); done|].
    eapply rtc_l; [apply W_start; done|].
    eapply rtc_l; [apply W_took, Hw|].
    eapply rtc_l; [apply R_sleep|]. apply rtc_refl. }
  by split_and!.
Qed.

(** Closing the write end does not wake a blocked reader: there is an
    interleaving that ends with the write end closed, the reader blocked, and
    no step possible but a signal, although a read of the empty ring would
    now return end of file. *)
Theorem pipe_close_strands_reader :
  ∃ c, reachable 1 2 c ∧ stuck 1 2 c ∧ reader c = RSleep 1 ∧
       write_open (ring (sys c)) = false ∧ (read_turn 1 1 (sys c)).1 = ReadEof.
Proof.
  eexists. split.
  { unfold reachable, start.
    eapply rtc_l; [by apply (R_call 1 2 _ _ _ _ 1)|].
    eapply rtc_l; [apply R_block, read_blocks_new|].
    eapply rtc_l; [apply R_sleep|].
    eapply rtc_l; [by apply W_close|]. apply rtc_refl. }
  split; [|done].
  intros c' Hs. inversion Hs; subst; simpl in *; eauto; done.
Qed.

Lemma pipe_fifo_witness :
  ∃ c, reachable 1 2 c ∧ sent c = hello ∧ sent c = received c ++ contents (ring (sys c)).
Proof.
  destruct write_hello as (Hw & _).
  eexists. split; [|split; [|eapply (pipe_fifo 1 2)]].
  - unfold reachable, start.
    eapply rtc_l; [by apply (R_call 1 2 _ _ _ _ 1)|].
    eapply rtc_l; [apply R_block, read_blocks_new|].
    eapply rtc_l; [apply (W_call _ _ _ _ _ _ hello); done|].
    eapply rtc_l; [apply W_start; done|].
    eapply rtc_l; [apply W_took, Hw|]. apply rtc_refl.
  - done.
  - unfold reachable, start.
    eapply rtc_l; [by apply (R_call 1 2 _ _ _ _ 1)|].
    eapply rtc_l; [apply R_block, read_blocks_new|].
    eapply rtc_l; [apply (W_call _ _ _ _ _ _ hello); done|].
    eapply rtc_l; [apply W_start; done|].
    eapply rtc_l; [apply W_took, Hw|]. apply rtc_refl.
Defined.
