(* ===== verification/Files.v ===== *)
(** * kernel/file.c, kernel/capability.c, kernel/seccomp.c: descriptor tables,
    capability entries and system-call filters.

    The kernel heap holds [struct file] objects and [struct cap_entry] wrappers;
    a descriptor table slot holds an address, and nothing but the magic word
    tells the two kinds apart. *)
From S2P Require Import Prelude.
Local Open Scope Z_scope.
Local Open Scope kernel_scope.

Definition MAX_FDS : Z := 16.
Definition CAP_ENTRY_MAGIC : Z := 0xCAFEFD00.
Definition CAP_READ : Z := 1.
Definition CAP_WRITE : Z := 2.
Definition CAP_EXEC : Z := 4.
Definition CAP_SEND : Z := 8.
Definition CAP_SEEK : Z := 16.
Definition CAP_IOCTL : Z := 32.

(** ** State *)
Inductive obj :=
  | File (inode refcount : Z)
  | Cap (magic file caps : Z).

(** [fd_table !! (t, i)] is [t->fd_table[i]]; an absent entry is the value -1 of
    an unused slot.  [closed] lists the inodes whose [close] operation ran. *)
Record fstate := mk_fs {
  heap : gmap Z obj;
  fd_table : gmap (Z * Z) Z;
  closed : list Z
}.
Definition FM := ST fstate.

Definition set_heap (h : gmap Z obj) (s : fstate) : fstate := mk_fs h (fd_table s) (closed s).
Definition set_table (t : gmap (Z * Z) Z) (s : fstate) : fstate := mk_fs (heap s) t (closed s).

(** ** vfs_close and vfs_file_dup; a call on anything but a live [struct file]
    has no outcome.  The reference count is a number without bound; in the source
    it is an int, which 2^31 references to one file would overflow. *)
Definition vfs_close (f : Z) : FM Z :=
  λ s, match heap s !! f with
       | Some (File ino n) =>
           if n <=? 0 then Some (-1, s)
           else if 0 <? n - 1 then Some (0, set_heap (<[f := File ino (n - 1)]> (heap s)) s)
           else Some (0, mk_fs (delete f (heap s)) (fd_table s) (closed s ++ [ino]))
       | _ => None
       end.
Definition vfs_file_dup (f : Z) : FM Z :=
  λ s, match heap s !! f with
       | Some (File ino n) =>
           if n <=? 0 then Some (-1, s)
           else Some (0, set_heap (<[f := File ino (n + 1)]> (heap s)) s)
       | _ => None
       end.

(** ** file.c *)

(** The first unused slot of [t] from [i] on. *)
Fixpoint find_slot (fuel : nat) (t i : Z) (tbl : gmap (Z * Z) Z) : option Z :=
  match fuel with
  | O => None
  | S fuel =>
      if i <? MAX_FDS then
        match tbl !! (t, i) with None => Some i | Some _ => find_slot fuel t (i + 1) tbl end
      else None
  end.
Definition free_slot (t : Z) (tbl : gmap (Z * Z) Z) : option Z := find_slot (Z.to_nat MAX_FDS) t 0 tbl.

Definition slot_ok (fd : Z) : bool := (0 <=? fd) && (fd <? MAX_FDS).

Definition fd_table_init (t : Z) : FM unit :=
  modify (λ s, set_table (filter (λ kv, ¬ (kv.1.1 = t ∧ 0 ≤ kv.1.2 < MAX_FDS)) (fd_table s)) s).

(** A null task or file is [None]. *)
Definition fd_alloc (t filp : option Z) : FM Z :=
  match t, filp with
  | Some t, Some f =>
      λ s, match free_slot t (fd_table s) with
           | Some i => Some (i, set_table (<[(t, i) := f]> (fd_table s)) s)
           | None => Some (-1, s)
           end
  | _, _ => ret (-1)
  end.

Definition fd_get (t : option Z) (fd : Z) : FM (option Z) :=
  match t with
  | None => ret None
  | Some t => if slot_ok fd then gets (λ s, fd_table s !! (t, fd)) else ret None
  end.

Definition clear_slot (t fd : Z) : FM unit := modify (λ s, set_table (delete (t, fd) (fd_table s)) s).

Definition fd_close (t : option Z) (fd : Z) : FM Z :=
  f <- fd_get t fd ;;
  match f, t with
  | Some f, Some t => _ <- vfs_close f ;; clear_slot t fd ;;; ret 0
  | _, _ => ret (-1)
  end.

(** [opened] is what [vfs_open] returned: the address and inode of a new file
    object, or [NULL]. *)
Definition fd_open_path (t : option Z) (opened : option (Z * Z)) : FM Z :=
  match opened with
  | None => ret (-1)
  | Some (f, ino) =>
      modify (λ s, set_heap (<[f := File ino 1]> (heap s)) s) ;;;
      fd <- fd_alloc t (Some f) ;;
      if fd <? 0 then _ <- vfs_close f ;; ret (-1) else ret fd
  end.

(** [for (i = 0; i < MAX_FDS; ++i)] closing what is open. *)
Definition close_slot (t i : Z) : FM unit :=
  v <- gets (λ s, fd_table s !! (t, i)) ;;
  match v with
  | Some f => _ <- vfs_close f ;; clear_slot t i
  | None => ret tt
  end.
Definition fd_close_all (t : option Z) : FM unit :=
  match t with
  | None => ret tt
  | Some t => for_range (Z.to_nat MAX_FDS) 0 (close_slot t)
  end.

Definition fd_dup (t : option Z) (oldfd : Z) : FM Z :=
  match t with
  | None => ret (-1)
  | Some _ =>
      f <- fd_get t oldfd ;;
      match f with
      | None => ret (-1)
      | Some f =>
          _ <- vfs_file_dup f ;;
          newfd <- fd_alloc t (Some f) ;;
          if newfd <? 0 then _ <- vfs_close f ;; ret newfd else ret newfd
      end
  end.

Definition fd_dup2 (t : option Z) (oldfd newfd : Z) : FM Z :=
  match t with
  | None => ret (-1)
  | Some t' =>
      if negb (slot_ok oldfd) then ret (-1) else
      if negb (slot_ok newfd) then ret (-1) else
      if oldfd =? newfd then ret newfd else
      f <- fd_get t oldfd ;;
      match f with
      | None => ret (-1)
      | Some f =>
          cur <- gets (λ s, fd_table s !! (t', newfd)) ;;
          (match cur with Some _ => _ <- fd_close t newfd ;; ret tt | None => ret tt end) ;;;
          _ <- vfs_file_dup f ;;
          modify (λ s, set_table (<[(t', newfd) := f]> (fd_table s)) s) ;;;
          ret newfd
      end
  end.

(** The descriptor part of [sys_pipe]: the two file objects, zeroed by
    [memset], go into the table of [t] as they are. *)
Definition pipe_fds (t : option Z) (rf rino wf wino : Z) : FM (Z * Z) :=
  modify (λ s, set_heap (<[wf := File wino 0]> (<[rf := File rino 0]> (heap s))) s) ;;;
  rfd <- fd_alloc t (Some rf) ;;
  wfd <- fd_alloc t (Some wf) ;;
  ret (rfd, wfd).

(** ** Reference counts *)
Definition refs (tbl : gmap (Z * Z) Z) (f : Z) : Z := Z.of_nat (size (filter (λ kv, kv.2 = f) tbl)).

Lemma refs_insert tbl k f g :
  tbl !! k = None → refs (<[k := f]> tbl) g = refs tbl g + if decide (f = g) then 1 else 0.
Proof.
  intros Hk. unfold refs. case_decide as Hd.
  - rewrite map_filter_insert_True by done. rewrite map_size_insert_None; [lia|].
    apply map_lookup_filter_None. by left.
  - rewrite map_filter_insert_False by done. rewrite delete_id by done. lia.
Qed.
Lemma refs_delete tbl k f g :
  tbl !! k = Some f → refs (delete k tbl) g = refs tbl g - if decide (f = g) then 1 else 0.
Proof.
  intros Hk. rewrite <- (insert_delete_id tbl k f Hk) at 2.
  rewrite refs_insert by apply lookup_delete_eq. lia.
Qed.
Lemma refs_pos tbl k f : tbl !! k = Some f → 0 < refs tbl f.
Proof.
  intros Hk. pose proof (refs_delete tbl k f f Hk) as H. rewrite decide_True in H by done.
  unfold refs in *. lia.
Qed.

(** Every slot holds a live file, and every file counts its slots. *)
Record file_inv (s : fstate) : Prop := mk_inv {
  fi_slot : ∀ k f, fd_table s !! k = Some f → ∃ ino n, heap s !! f = Some (File ino n);
  fi_refs : ∀ f ino n, heap s !! f = Some (File ino n) → n = refs (fd_table s) f ∧ 0 < n
}.

(** [f] has one more reference than slots: a descriptor is being made or
    unmade. *)
Record pending (f : Z) (s : fstate) : Prop := mk_pending {
  pe_slot : ∀ k g, fd_table s !! k = Some g → ∃ ino n, heap s !! g = Some (File ino n);
  pe_refs : ∀ g ino n, heap s !! g = Some (File ino n) →
      n = refs (fd_table s) g + (if decide (g = f) then 1 else 0) ∧ 0 < n;
  pe_live : ∃ ino n, heap s !! f = Some (File ino n)
}.

(** Filling a free slot settles the pending reference. *)
Lemma pending_fill f s k :
  pending f s → fd_table s !! k = None → file_inv (set_table (<[k := f]> (fd_table s)) s).
Proof.
  intros [Hs Hr Hl] Hk. constructor; simpl.
  - intros k' g. destruct (decide (k = k')) as [->|Hne].
    + rewrite lookup_insert_eq. intros [= <-]. done.
    + rewrite lookup_insert_ne by done. apply Hs.
  - intros g ino n Hg. destruct (Hr g ino n Hg) as [-> Hn]. rewrite refs_insert by done.
    split; [|done]. repeat case_decide; congruence || lia.
Qed.

(** Emptying a slot leaves its reference pending. *)
Lemma inv_empty s k f :
  file_inv s → fd_table s !! k = Some f → pending f (set_table (delete k (fd_table s)) s).
Proof.
  intros [Hs Hr] Hk. constructor; simpl.
  - intros k' g. destruct (decide (k = k')) as [->|Hne].
    + by rewrite lookup_delete_eq.
    + rewrite lookup_delete_ne by done. apply Hs.
  - intros g ino n Hg. destruct (Hr g ino n Hg) as [-> Hn]. rewrite (refs_delete _ _ f) by done.
    split; [|done]. repeat case_decide; congruence || lia.
  - by eapply Hs.
Qed.

(** The last part of a close: the reference goes, and the file with its last. *)
Definition closes (s : fstate) (f : Z) : list Z :=
  match heap s !! f with
  | Some (File ino _) => if decide (refs (fd_table s) f = 0) then [ino] else []
  | _ => []
  end.

Lemma pending_close f s :
  pending f s →
  ∃ s', vfs_close f s = Some (0, s') ∧ file_inv s' ∧ fd_table s' = fd_table s ∧
        closed s' = closed s ++ closes s f ∧
        (∀ g, g ≠ f → heap s' !! g = heap s !! g) ∧
        (refs (fd_table s) f = 0 → heap s' !! f = None).
Proof.
  intros [Hs Hr (ino & n & Hf)]. destruct (Hr f ino n Hf) as [Hn Hpos]. rewrite decide_True in Hn by done.
  unfold vfs_close, closes. rewrite Hf. destruct (Z.leb_spec n 0); [lia|].
  assert (0 ≤ refs (fd_table s) f) as H0 by (unfold refs; lia).
  destruct (Z.ltb_spec 0 (n - 1)).
  - rewrite decide_False by lia. eexists. split; [done|]. split; [constructor; simpl|].
    + intros k g Hk. destruct (decide (f = g)) as [->|Hne]; [rewrite lookup_insert_eq; eauto|].
      rewrite lookup_insert_ne by done. by eapply Hs.
    + intros g i m. destruct (decide (f = g)) as [->|Hne].
      * rewrite lookup_insert_eq. intros [= <- <-]. lia.
      * rewrite lookup_insert_ne by done. intros Hg. destruct (Hr g i m Hg) as [E ?].
        rewrite decide_False in E by done. lia.
    + simpl. split_and!; [done|by rewrite app_nil_r|by intros; rewrite lookup_insert_ne|lia].
  - rewrite decide_True by lia. eexists. split; [done|]. split; [constructor; simpl|].
    + intros k g Hk. destruct (decide (f = g)) as [->|Hne]; [apply refs_pos in Hk; lia|].
      rewrite lookup_delete_ne by done. by eapply Hs.
    + intros g i m. destruct (decide (f = g)) as [->|Hne]; [by rewrite lookup_delete_eq|].
      rewrite lookup_delete_ne by done. intros Hg. destruct (Hr g i m Hg) as [E ?].
      rewrite decide_False in E by done. lia.
    + simpl. split_and!; [done|done|by intros; rewrite lookup_delete_ne|by rewrite lookup_delete_eq].
Qed.

Lemma vfs_close_table f s r s' tbl :
  vfs_close f (set_table tbl s) = Some (r, s') →
  ∃ s1, vfs_close f s = Some (r, s1) ∧ set_table tbl s1 = s'.
Proof.
  unfold vfs_close. simpl. destruct (heap s !! f) as [[ino n|]|]; [|done..].
  destruct (n <=? 0); [intros [= <- <-]; by eexists|].
  destruct (0 <? n - 1); intros [= <- <-]; by eexists.
Qed.

(** Closing an open slot. *)
Lemma close_open s t fd f :
  file_inv s → fd_table s !! (t, fd) = Some f →
  ∃ s', (_ <- vfs_close f ;; clear_slot t fd) s = Some (tt, s') ∧ file_inv s' ∧
        fd_table s' = delete (t, fd) (fd_table s) ∧
        closed s' = closed s ++ closes (set_table (delete (t, fd) (fd_table s)) s) f ∧
        (∀ g, g ≠ f → heap s' !! g = heap s !! g) ∧
        (refs (fd_table s) f = 1 → heap s' !! f = None).
Proof.
  intros HI Hf. pose proof (inv_empty _ _ _ HI Hf) as HP.
  destruct (pending_close _ _ HP) as (s' & R & HI' & Ht & Hc & Hh & Hd).
  destruct (vfs_close_table _ _ _ _ _ R) as (s1 & R1 & <-).
  eexists. split; [unfold clear_slot; run R1; reflexivity|].
  assert (fd_table s1 = fd_table s) as E1.
  { unfold vfs_close in R1. destruct (heap s !! f) as [[ino n|]|]; [|done..].
    by destruct (n <=? 0), (0 <? n - 1); simplify_eq. }
  rewrite E1. split_and!; [done..|]. intros Hr1. apply Hd. simpl.
  rewrite (refs_delete _ _ f), decide_True by done. lia.
Qed.

(** ** Slots *)
Lemma find_slot_spec fuel t i tbl :
  match find_slot fuel t i tbl with
  | Some j => i ≤ j < MAX_FDS ∧ tbl !! (t, j) = None ∧ ∀ j', i ≤ j' < j → is_Some (tbl !! (t, j'))
  | None => ∀ j', i ≤ j' < Z.min MAX_FDS (i + Z.of_nat fuel) → is_Some (tbl !! (t, j'))
  end.
Proof.
  revert i. induction fuel as [|fuel IH]; intros i; cbn [find_slot]; [intros; lia|].
  destruct (Z.ltb_spec i MAX_FDS); [|intros; lia].
  destruct (tbl !! (t, i)) eqn:E; [|split_and!; [lia|lia|done|intros; lia]].
  specialize (IH (i + 1)). destruct (find_slot fuel t (i + 1) tbl) as [j|].
  - destruct IH as (? & ? & IH). split_and!; [lia|lia|done|]. intros j' Hj.
    destruct (decide (j' = i)) as [->|]; [by rewrite E|apply IH; lia].
  - intros j' Hj. destruct (decide (j' = i)) as [->|]; [by rewrite E|apply IH; lia].
Qed.

Definition table_full (t : Z) (tbl : gmap (Z * Z) Z) : Prop := ∀ i, 0 ≤ i < MAX_FDS → is_Some (tbl !! (t, i)).
Lemma free_slot_spec t tbl :
  match free_slot t tbl with
  | Some i => 0 ≤ i < MAX_FDS ∧ tbl !! (t, i) = None ∧ ∀ j, 0 ≤ j < i → is_Some (tbl !! (t, j))
  | None => table_full t tbl
  end.
Proof.
  pose proof (find_slot_spec (Z.to_nat MAX_FDS) t 0 tbl) as H. unfold free_slot.
  destruct (find_slot _ t 0 tbl); [done|]. intros i Hi. apply H. unfold MAX_FDS in *. lia.
Qed.

(** Putting a pending file into the table of [t], or giving it up. *)
Lemma alloc_or_close t f s :
  pending f s →
  ∃ fd s', (fd <- fd_alloc (Some t) (Some f) ;;
            if fd <? 0 then _ <- vfs_close f ;; ret fd else ret fd) s = Some (fd, s') ∧ file_inv s' ∧
    ((fd = -1 ∧ table_full t (fd_table s) ∧ fd_table s' = fd_table s) ∨
     (0 ≤ fd < MAX_FDS ∧ fd_table s !! (t, fd) = None ∧ s' = set_table (<[(t, fd) := f]> (fd_table s)) s)).
Proof.
  intros HP. unfold fd_alloc, bind. pose proof (free_slot_spec t (fd_table s)) as Hs.
  destruct (free_slot t (fd_table s)) as [i|].
  - destruct Hs as (Hi & Hn & _). destruct (Z.ltb_spec i 0); [lia|].
    eexists _, _. split; [reflexivity|]. split; [by apply pending_fill|]. by right.
  - simpl. destruct (pending_close _ _ HP) as (s' & -> & HI & Ht & _).
    eexists _, _. split; [reflexivity|]. split; [done|]. by left.
Qed.

(** ** Operations keep the reference counts *)
Definition returns (m : FM Z) (s : fstate) (Q : Z → fstate → Prop) : Prop :=
  ∃ r s', m s = Some (r, s') ∧ Q r s'.

Lemma fd_get_spec t fd s :
  ∃ o, fd_get (Some t) fd s = Some (o, s) ∧ ∀ f, o = Some f → fd_table s !! (t, fd) = Some f ∧ slot_ok fd = true.
Proof. unfold fd_get. destruct (slot_ok fd) eqn:E; eexists; split; try reflexivity; [by intros|done]. Qed.

Lemma fd_close_inv t fd s : file_inv s → returns (fd_close t fd) s (λ _ s', file_inv s').
Proof.
  intros HI. unfold fd_close, returns. destruct t as [t|]; [|by eexists _, _].
  destruct (fd_get_spec t fd s) as (o & R & Ho). run R. destruct o as [f|]; [|by eexists _, _].
  destruct (Ho f eq_refl) as [Hf _]. destruct (close_open s t fd f HI Hf) as (s' & R' & HI' & _).
  exists 0, s'. split; [|done]. unfold bind in R' |- *.
  destruct (vfs_close f s) as [[r1 s1]|]; [|done]. unfold clear_slot, modify in *. by injection R' as <-.
Qed.

Lemma fd_open_inv t o s :
  file_inv s → match o with Some (f, _) => heap s !! f = None | None => True end →
  returns (fd_open_path (Some t) o) s (λ _ s', file_inv s').
Proof.
  intros HI Ho. unfold fd_open_path, returns. destruct o as [[f ino]|]; [|by eexists _, _].
  rewrite bind_modify. set (s1 := set_heap _ s).
  assert (∀ k, fd_table s !! k ≠ Some f) as Hnf.
  { intros k Hk. destruct (fi_slot _ HI _ _ Hk) as (? & ? & ?). congruence. }
  assert (refs (fd_table s) f = 0) as Hr0.
  { unfold refs. rewrite (proj2 (map_size_empty_iff _)); [done|]. apply map_empty. intros k.
    apply map_lookup_filter_None. right. intros g Hk. simpl. intros ->. by apply (Hnf k). }
  assert (pending f s1) as HP.
  { constructor; simpl.
    - intros k g Hk. rewrite lookup_insert_ne by (intros ->; by apply (Hnf k)). by eapply fi_slot.
    - intros g i n. destruct (decide (f = g)) as [->|Hne].
      + rewrite lookup_insert_eq. intros [= <- <-]. rewrite decide_True by done. lia.
      + rewrite lookup_insert_ne by done. intros Hg. rewrite decide_False by done.
        destruct (fi_refs _ HI _ _ _ Hg). lia.
    - exists ino, 1. by rewrite lookup_insert_eq. }
  destruct (alloc_or_close t f s1 HP) as (fd & s' & R & HI' & _). unfold bind in *.
  destruct (fd_alloc (Some t) (Some f) s1) as [[r s2]|]; [|done].
  destruct (r <? 0); [|by eexists _, _]. destruct (vfs_close f s2) as [[r3 s3]|]; [|done].
  exists (-1), s3. split; [done|]. by injection R as <- <-.
Qed.

Lemma dup_pending f s :
  file_inv s → (∃ k, fd_table s !! k = Some f) →
  ∃ s', vfs_file_dup f s = Some (0, s') ∧ pending f s' ∧ fd_table s' = fd_table s.
Proof.
  intros HI [k Hk]. destruct (fi_slot _ HI _ _ Hk) as (ino & n & Hf).
  destruct (fi_refs _ HI _ _ _ Hf) as [Hn Hpos]. unfold vfs_file_dup. rewrite Hf.
  destruct (Z.leb_spec n 0); [lia|]. eexists. split; [done|]. split; [|done]. constructor; simpl.
  - intros k' g Hg. destruct (decide (f = g)) as [->|]; [rewrite lookup_insert_eq; eauto|].
    rewrite lookup_insert_ne by done. by eapply fi_slot.
  - intros g i m. destruct (decide (f = g)) as [->|Hne].
    + rewrite lookup_insert_eq. intros [= <- <-]. rewrite decide_True by done. lia.
    + rewrite lookup_insert_ne by done. intros Hg. rewrite decide_False by done.
      destruct (fi_refs _ HI _ _ _ Hg). lia.
  - rewrite lookup_insert_eq. eauto.
Qed.

Lemma fd_dup_spec t oldfd s :
  file_inv s →
  returns (fd_dup (Some t) oldfd) s (λ r s', file_inv s' ∧
    (r = -1 ∧ fd_table s' = fd_table s ∨
     (∃ f, 0 ≤ r < MAX_FDS ∧ fd_table s !! (t, oldfd) = Some f ∧ fd_table s !! (t, r) = None ∧
        fd_table s' = <[(t, r) := f]> (fd_table s)))).
Proof.
  intros HI. unfold fd_dup, returns. destruct (fd_get_spec t oldfd s) as (o & R & Ho). run R.
  destruct o as [f|]; [|by eexists _, _; split_and!; [done|done|left]].
  destruct (Ho f eq_refl) as [Hf _]. destruct (dup_pending f s HI) as (s1 & R1 & HP & Ht); [eauto|]. run R1.
  destruct (alloc_or_close t f s1 HP) as (fd & s' & R' & HI' & Hcase).
  exists fd, s'. split; [done|]. split; [done|]. rewrite Ht in Hcase.
  destruct Hcase as [(-> & _ & E)|(? & ? & ->)]; [by left|right]. by exists f.
Qed.

Lemma fd_dup2_spec t oldfd newfd s f :
  file_inv s → slot_ok oldfd = true → slot_ok newfd = true → oldfd ≠ newfd →
  fd_table s !! (t, oldfd) = Some f →
  returns (fd_dup2 (Some t) oldfd newfd) s (λ r s', r = newfd ∧ file_inv s' ∧
    fd_table s' = <[(t, newfd) := f]> (fd_table s) ∧
    closed s' = closed s ++ match fd_table s !! (t, newfd) with
                            | Some g => if decide (refs (fd_table s) g = 1) then
                                          match heap s !! g with Some (File ino _) => if decide (g = f) then [] else [ino] | _ => [] end
                                        else []
                            | None => [] end).
Proof.
  intros HI Ho Hn Hne Hf. unfold fd_dup2, returns. rewrite Ho, Hn. cbn [negb].
  destruct (Z.eqb_spec oldfd newfd); [done|].
  assert (fd_get (Some t) oldfd s = Some (Some f, s)) as R by (unfold fd_get; rewrite Ho; unfold gets; by rewrite Hf).
  run R. rewrite bind_gets. destruct (fd_table s !! (t, newfd)) as [g|] eqn:Eg.
  - destruct (close_open s t newfd g HI Eg) as (s1 & R1 & HI1 & T1 & C1 & H1 & _).
    assert ((_ <- fd_close (Some t) newfd ;; ret tt) s = Some (tt, s1)) as R2.
    { unfold fd_close. assert (fd_get (Some t) newfd s = Some (Some g, s)) as R3
        by (unfold fd_get; rewrite Hn; unfold gets; by rewrite Eg).
      unfold bind in *. rewrite R3. destruct (vfs_close g s) as [[r2 s2]|]; [|done].
      unfold clear_slot, modify in *. by injection R1 as <-. }
    run R2. destruct (dup_pending f s1 HI1) as (s2 & R4 & HP & T2).
    { exists (t, oldfd). rewrite T1, lookup_delete_ne by congruence. done. }
    run R4. rewrite bind_modify. eexists _, _. split; [reflexivity|]. split_and!; [done| | |].
    + apply pending_fill; [done|]. by rewrite T2, T1, lookup_delete_eq.
    + simpl. by rewrite T2, T1, insert_delete_eq.
    + simpl. assert (closed s2 = closed s1) as ->.
      { unfold vfs_file_dup in R4. destruct (heap s1 !! f) as [[i m|]|]; [|done..].
        by destruct (m <=? 0); simplify_eq. }
      rewrite C1. f_equal. unfold closes. simpl. destruct (heap s !! g) as [[ino m|]|] eqn:Hg; [|by case_decide..].
      assert (refs (delete (t, newfd) (fd_table s)) g = refs (fd_table s) g - 1) as Hrd
        by (rewrite (refs_delete _ _ g), decide_True by done; lia).
      rewrite Hrd. repeat case_decide; try done; try lia.
      subst g. exfalso. assert (refs (fd_table s) f = 1 + refs (delete (t, newfd) (fd_table s)) f) as E.
      { rewrite (refs_delete _ _ f), decide_True by done. lia. }
      assert (0 < refs (delete (t, newfd) (fd_table s)) f); [|lia].
      apply (refs_pos _ (t, oldfd)). by rewrite lookup_delete_ne by congruence.
  - rewrite bind_ret_l. destruct (dup_pending f s HI) as (s2 & R4 & HP & T2); [eauto|].
    run R4. rewrite bind_modify. eexists _, _. split; [reflexivity|]. split_and!; [done| | |].
    + apply pending_fill; [done|]. by rewrite T2.
    + simpl. by rewrite T2.
    + simpl. rewrite app_nil_r. unfold vfs_file_dup in R4. destruct (heap s !! f) as [[i m|]|]; [|done..].
      by destruct (m <=? 0); simplify_eq.
Qed.

Lemma close_slot_inv t i s : file_inv s → ∃ s', close_slot t i s = Some (tt, s') ∧ file_inv s' ∧
  fd_table s' = delete (t, i) (fd_table s).
Proof.
  intros HI. unfold close_slot. rewrite bind_gets. destruct (fd_table s !! (t, i)) as [f|] eqn:E.
  - destruct (close_open s t i f HI E) as (s' & R & HI' & T & _). by exists s'.
  - exists s. split_and!; [done|done|]. by rewrite delete_id.
Qed.

Lemma fd_close_all_spec t s :
  file_inv s → ∃ s', fd_close_all (Some t) s = Some (tt, s') ∧ file_inv s' ∧
    (∀ i, 0 ≤ i < MAX_FDS → fd_table s' !! (t, i) = None) ∧
    (∀ t' i, t' ≠ t → fd_table s' !! (t', i) = fd_table s !! (t', i)).
Proof.
  intros HI. destruct (for_range_ind (close_slot t) (λ j s', file_inv s' ∧
      (∀ i, 0 ≤ i < j → fd_table s' !! (t, i) = None) ∧
      (∀ t' i, t' ≠ t → fd_table s' !! (t', i) = fd_table s !! (t', i)))
    (Z.to_nat MAX_FDS) 0 s) as (s' & R & H1 & H2 & H3).
  - split_and!; [done|intros; lia|done].
  - intros j s1 Hj (I1 & N1 & K1). destruct (close_slot_inv t j s1 I1) as (s2 & R2 & I2 & T2).
    exists s2. split_and!; [done|done| |].
    + intros i Hi. rewrite T2. destruct (decide (i = j)) as [->|]; [by rewrite lookup_delete_eq|].
      rewrite lookup_delete_ne by congruence. apply N1. lia.
    + intros t' i Hne. rewrite T2, lookup_delete_ne by congruence. by apply K1.
  - exists s'. split_and!; [done|done| |done]. intros i Hi. apply H2. unfold MAX_FDS in *. lia.
Qed.
