(* ===== verification/Capability.v ===== *)
(** * kernel/capability.c and kernel/seccomp.c: capability descriptors and
    system-call filters. *)
From S2P Require Import Prelude Files.
Local Open Scope Z_scope.
Local Open Scope kernel_scope.

(** ** Capability entries *)

(** [kfree] of an object. *)
Definition kfree (a : Z) : FM unit := modify (λ s, set_heap (delete a (heap s)) s).

(** [m] is what [kmalloc] returned: a new address or [NULL]. *)
Definition cap_fd_alloc (t filp m : option Z) (caps : Z) : FM Z :=
  match t, filp with
  | Some t, Some f =>
      match m with
      | None => ret (-1)
      | Some e =>
          modify (λ s, set_heap (<[e := Cap CAP_ENTRY_MAGIC f caps]> (heap s)) s) ;;;
          slot <- gets (λ s, free_slot t (fd_table s)) ;;
          match slot with
          | Some i => modify (λ s, set_table (<[(t, i) := e]> (fd_table s)) s) ;;; ret i
          | None => kfree e ;;; ret (-1)
          end
      end
  | _, _ => ret (-1)
  end.

(** [entry->magic]: of a [struct file] it reads the low word of its first
    member, the inode pointer. *)
Definition magic_at (v : Z) : FM Z :=
  λ s, match heap s !! v with
       | Some (Cap m _ _) => Some (m, s)
       | Some (File ino _) => Some (u32 ino, s)
       | None => None
       end.
(** [(entry->file, entry->caps)]. *)
Definition entry_at (v : Z) : FM (Z * Z) :=
  λ s, match heap s !! v with Some (Cap _ f c) => Some ((f, c), s) | _ => None end.

Definition cap_get (t : option Z) (fd : Z) : FM (option Z) :=
  match t with
  | None => ret None
  | Some t =>
      if negb (slot_ok fd) then ret None else
      v <- gets (λ s, fd_table s !! (t, fd)) ;;
      match v with
      | None => ret None
      | Some e => m <- magic_at e ;; ret (if m =? CAP_ENTRY_MAGIC then Some e else None)
      end
  end.

Definition cap_fd_get_file (t : option Z) (fd : Z) : FM (option Z) :=
  e <- cap_get t fd ;;
  match e with None => ret None | Some e => fc <- entry_at e ;; ret (Some fc.1) end.

Definition cap_fd_close (t : option Z) (fd : Z) : FM Z :=
  e <- cap_get t fd ;;
  match e, t with
  | Some e, Some t =>
      fc <- entry_at e ;;
      _ <- vfs_close fc.1 ;;
      kfree e ;;;
      clear_slot t fd ;;;
      ret 0
  | _, _ => ret (-1)
  end.

Definition cap_close_slot (t i : Z) : FM unit :=
  v <- gets (λ s, fd_table s !! (t, i)) ;;
  match v with
  | None => ret tt
  | Some e =>
      m <- magic_at e ;;
      if negb (m =? CAP_ENTRY_MAGIC) then ret tt else
      clear_slot t i ;;;
      fc <- entry_at e ;;
      _ <- vfs_close fc.1 ;;
      kfree e
  end.
Definition cap_fd_close_all (t : option Z) : FM unit :=
  match t with
  | None => ret tt
  | Some t => for_range (Z.to_nat MAX_FDS) 0 (cap_close_slot t)
  end.

(** [current] is the calling task. *)
Definition fd_check_cap (current : option Z) (fd required : Z) : FM Z :=
  e <- cap_get current fd ;;
  match e with
  | None => ret (-1)
  | Some e => fc <- entry_at e ;; ret (if Z.land fc.2 required =? required then 0 else -1)
  end.

Definition fd_derive (current m : option Z) (old_fd new_caps : Z) : FM Z :=
  e <- cap_get current old_fd ;;
  match e with
  | None => ret (-1)
  | Some e =>
      fc <- entry_at e ;;
      if negb (Z.ldiff new_caps fc.2 =? 0) then ret (-1) else
      _ <- vfs_file_dup fc.1 ;;
      cap_fd_alloc current (Some fc.1) m new_caps
  end.

(** [target] is the result of [find_task_by_pid]. *)
Definition fd_send (current m target : option Z) (fd : Z) : FM Z :=
  e <- cap_get current fd ;;
  match e, current with
  | Some e, Some cur =>
      fc <- entry_at e ;;
      if Z.land fc.2 CAP_SEND =? 0 then ret (-1) else
      match target with
      | None => ret (-1)
      | Some tg =>
          new_fd <- cap_fd_alloc (Some tg) (Some fc.1) m fc.2 ;;
          if new_fd <? 0 then ret (-1) else
          kfree e ;;;
          clear_slot cur fd ;;;
          ret 0
      end
  | _, _ => ret (-1)
  end.

(** ** seccomp.c *)

(** [struct seccomp_filter]: four 64-bit words. *)
Record seccomp_filter := mk_filter { syscall_mask : list Z }.

(** [task->seccomp]; installing copies the filter into new memory, unless
    [kmalloc] fails. *)
Definition seccomp_set_filter (alloc_ok : bool) (filter : option seccomp_filter)
    (cur : option seccomp_filter) : Z * option seccomp_filter :=
  match filter with
  | None => (0, None)
  | Some f => if alloc_ok then (0, Some f) else (-1, cur)
  end.

Definition seccomp_check (filter : option seccomp_filter) (syscall_num : Z) : Z :=
  match filter with
  | None => 0
  | Some f =>
      if (syscall_num <? 0) || (256 <=? syscall_num) then -1 else
      let word_idx := syscall_num / 64 in
      let bit_idx := syscall_num mod 64 in
      let mask := Z.shiftl 1 bit_idx in
      if Z.land (nth (Z.to_nat word_idx) (syscall_mask f) 0) mask =? 0 then -1 else 0
  end.

(** The 256-bit set that the four words spell. *)
Definition mask256 (f : seccomp_filter) : Z :=
  nth 0 (syscall_mask f) 0 + 2 ^ 64 * nth 1 (syscall_mask f) 0 +
  2 ^ 128 * nth 2 (syscall_mask f) 0 + 2 ^ 192 * nth 3 (syscall_mask f) 0.

(** ** Capability sets *)
Definition sub_caps (c d : Z) : Prop := Z.ldiff c d = 0.

Lemma sub_caps_trans c d e : sub_caps c d → sub_caps d e → sub_caps c e.
Proof.
  unfold sub_caps. intros H1 H2. apply Z.bits_inj'. intros n Hn.
  assert (∀ x y, Z.ldiff x y = 0 → Z.testbit x n && negb (Z.testbit y n) = false) as Hb.
  { intros x y E. rewrite <- Z.ldiff_spec, E. apply Z.bits_0. }
  specialize (Hb _ _ H1) as B1. specialize (Hb _ _ H2) as B2. rewrite Z.ldiff_spec, Z.bits_0.
  destruct (Z.testbit c n), (Z.testbit d n), (Z.testbit e n); done.
Qed.
Lemma sub_caps_land c d r : sub_caps c d → Z.land c r = r → Z.land d r = r.
Proof.
  unfold sub_caps. intros H1 H2. apply Z.bits_inj'. intros n Hn.
  assert (Z.testbit c n && negb (Z.testbit d n) = false) as B1 by (rewrite <- Z.ldiff_spec, H1; apply Z.bits_0).
  assert (Z.testbit c n && Z.testbit r n = Z.testbit r n) as B2 by (by rewrite <- Z.land_spec, H2).
  rewrite Z.land_spec. destruct (Z.testbit c n), (Z.testbit d n), (Z.testbit r n); done.
Qed.

(** ** The invariant of a table of capability entries *)
Definition entry_file (h : gmap Z obj) (e : Z) : option Z :=
  match h !! e with Some (Cap _ f _) => Some f | _ => None end.
Definition crefs (h : gmap Z obj) (tbl : gmap (Z * Z) Z) (f : Z) : Z :=
  Z.of_nat (size (filter (λ kv, entry_file h kv.2 = Some f) tbl)).

(** [bound f]: the capabilities ever granted on file [f]. *)
Record cap_inv (bound : Z → Z) (s : fstate) : Prop := mk_cap_inv {
  ci_slot : ∀ k e, fd_table s !! k = Some e → ∃ f c, heap s !! e = Some (Cap CAP_ENTRY_MAGIC f c) ∧
              sub_caps c (bound f) ∧ ∃ ino n, heap s !! f = Some (File ino n);
  ci_inj : ∀ k k' e, fd_table s !! k = Some e → fd_table s !! k' = Some e → k = k';
  ci_refs : ∀ f ino n, heap s !! f = Some (File ino n) → crefs (heap s) (fd_table s) f ≤ n ∧ 0 < n
}.

Lemma crefs_heap h h' tbl f :
  (∀ k e, tbl !! k = Some e → entry_file h' e = entry_file h e) → crefs h' tbl f = crefs h tbl f.
Proof.
  intros He. unfold crefs. do 2 f_equal. apply map_filter_ext. intros k e Hk. simpl. by rewrite (He k).
Qed.
Lemma crefs_insert h tbl k e f g :
  tbl !! k = None → entry_file h e = Some f →
  crefs h (<[k := e]> tbl) g = crefs h tbl g + if decide (f = g) then 1 else 0.
Proof.
  intros Hk He. unfold crefs. case_decide as Hd.
  - rewrite map_filter_insert_True by (simpl; congruence). rewrite map_size_insert_None; [lia|].
    apply map_lookup_filter_None. by left.
  - rewrite map_filter_insert_False by (simpl; congruence). rewrite delete_id by done. lia.
Qed.
Lemma crefs_delete h tbl k e f g :
  tbl !! k = Some e → entry_file h e = Some f →
  crefs h (delete k tbl) g = crefs h tbl g - if decide (f = g) then 1 else 0.
Proof.
  intros Hk He. rewrite <- (insert_delete_id tbl k e Hk) at 2.
  rewrite (crefs_insert _ _ _ _ f) by (done || apply lookup_delete_eq). lia.
Qed.

Section ops.
Context (bound : Z → Z).

Lemma cap_get_spec t fd s :
  cap_inv bound s →
  (cap_get (Some t) fd s = Some (None, s)) ∨
  (∃ e f c ino n, cap_get (Some t) fd s = Some (Some e, s) ∧ fd_table s !! (t, fd) = Some e ∧
     heap s !! e = Some (Cap CAP_ENTRY_MAGIC f c) ∧ entry_at e s = Some ((f, c), s) ∧
     sub_caps c (bound f) ∧ heap s !! f = Some (File ino n) ∧ crefs (heap s) (fd_table s) f ≤ n ∧ 0 < n).
Proof.
  intros HI. unfold cap_get. destruct (negb (slot_ok fd)); [by left|]. rewrite bind_gets.
  destruct (fd_table s !! (t, fd)) as [e|] eqn:E; [|by left].
  destruct (ci_slot _ _ HI _ _ E) as (f & c & He & Hs & ino & n & Hf). right.
  destruct (ci_refs _ _ HI _ _ _ Hf) as [H1 H2].
  exists e, f, c, ino, n. unfold magic_at, entry_at, bind. by rewrite He.
Qed.

(** A new entry in a free slot, on a file with one reference to spare. *)
Lemma add_entry s k e f c ino n :
  cap_inv bound s → heap s !! e = None → fd_table s !! k = None → heap s !! f = Some (File ino n) →
  sub_caps c (bound f) →
  cap_inv bound (mk_fs (<[e := Cap CAP_ENTRY_MAGIC f c]> (<[f := File ino (n + 1)]> (heap s)))
                       (<[k := e]> (fd_table s)) (closed s)).
Proof.
  intros HI He Hk Hf Hc. assert (e ≠ f) as Hef by (intros ->; congruence).
  assert (∀ k' e', fd_table s !! k' = Some e' → e' ≠ e) as Hne.
  { intros k' e' Hk' ->. destruct (ci_slot _ _ HI _ _ Hk') as (? & ? & ? & _). congruence. }
  assert (∀ k' e', fd_table s !! k' = Some e' → e' ≠ f) as Hnf.
  { intros k' e' Hk' ->. destruct (ci_slot _ _ HI _ _ Hk') as (? & ? & ? & _). congruence. }
  set (h := <[e := Cap CAP_ENTRY_MAGIC f c]> (<[f := File ino (n + 1)]> (heap s))).
  assert (∀ k' e', fd_table s !! k' = Some e' → h !! e' = heap s !! e') as Hsame.
  { intros k' e' Hk'. unfold h. rewrite !lookup_insert_ne; [done|..]; apply not_eq_sym; eauto. }
  assert (∀ g i m, heap s !! g = Some (File i m) → ∃ m', h !! g = Some (File i m')) as Hfile.
  { intros g i m Hg. unfold h. rewrite lookup_insert_ne by congruence.
    destruct (decide (f = g)) as [->|]; [rewrite lookup_insert_eq; simplify_eq; eauto|].
    rewrite lookup_insert_ne by done. eauto. }
  constructor; cbn [heap fd_table].
  - intros k' e'. destruct (decide (k = k')) as [->|Hkk].
    + rewrite lookup_insert_eq. intros [= <-]. exists f, c. unfold h. rewrite lookup_insert_eq.
      split_and!; [done|done|]. rewrite lookup_insert_ne, lookup_insert_eq by done. eauto.
    + rewrite lookup_insert_ne by done. intros Hk'. rewrite (Hsame _ _ Hk').
      destruct (ci_slot _ _ HI _ _ Hk') as (f' & c' & ? & ? & i & m & Hg). exists f', c'.
      split_and!; [done|done|]. destruct (Hfile _ _ _ Hg). eauto.
  - intros k1 k2 e'. destruct (decide (k = k1)) as [<-|], (decide (k = k2)) as [<-|];
      rewrite ?lookup_insert_eq, ?lookup_insert_ne by done; try done.
    + intros [= <-] Hk2. by destruct (Hne _ _ Hk2).
    + intros Hk1 [= <-]. by destruct (Hne _ _ Hk1).
    + apply (ci_inj _ _ HI).
  - intros g i m. rewrite (crefs_insert _ _ _ _ f) by (done || by unfold entry_file, h; rewrite lookup_insert_eq).
    rewrite (crefs_heap (heap s)) by (intros k' e' Hk'; unfold entry_file; by rewrite (Hsame k' e')).
    unfold h. destruct (decide (e = g)) as [->|]; [by rewrite lookup_insert_eq|]. rewrite lookup_insert_ne by done.
    destruct (decide (f = g)) as [<-|].
    + rewrite lookup_insert_eq. intros [= <- <-]. destruct (ci_refs _ _ HI _ _ _ Hf). lia.
    + rewrite lookup_insert_ne by done. intros Hg. destruct (ci_refs _ _ HI _ _ _ Hg). lia.
Qed.

(** A reference more than the entries need. *)
Lemma spare_ref s f ino n :
  cap_inv bound s → heap s !! f = Some (File ino n) →
  cap_inv bound (set_heap (<[f := File ino (n + 1)]> (heap s)) s).
Proof.
  intros HI Hf.
  assert (∀ k e, fd_table s !! k = Some e → <[f := File ino (n + 1)]> (heap s) !! e = heap s !! e) as Hsame.
  { intros k e Hk. apply lookup_insert_ne. intros <-.
    destruct (ci_slot _ _ HI _ _ Hk) as (? & ? & ? & _). congruence. }
  constructor; cbn [heap fd_table set_heap].
  - intros k e Hk. rewrite (Hsame _ _ Hk). destruct (ci_slot _ _ HI _ _ Hk) as (g & c & ? & ? & i & m & Hg).
    exists g, c. split_and!; [done|done|]. destruct (decide (f = g)) as [->|]; [rewrite lookup_insert_eq; eauto|].
    rewrite lookup_insert_ne by done. eauto.
  - apply (ci_inj _ _ HI).
  - intros g i m. rewrite (crefs_heap (heap s)) by (intros k e Hk; unfold entry_file; by rewrite (Hsame k e)).
    destruct (decide (f = g)) as [<-|].
    + rewrite lookup_insert_eq. intros [= <- <-]. destruct (ci_refs _ _ HI _ _ _ Hf). lia.
    + rewrite lookup_insert_ne by done. apply (ci_refs _ _ HI).
Qed.

Definition new_addr (m : option Z) (s : fstate) : Prop := match m with Some e => heap s !! e = None | None => True end.

(** [cap_fd_alloc] on its own. *)
Lemma cap_alloc_cases t f m c s :
  new_addr m s →
  (cap_fd_alloc (Some t) (Some f) m c s = Some (-1, s) ∧ (m = None ∨ table_full t (fd_table s))) ∨
  (∃ e i, m = Some e ∧ 0 ≤ i < MAX_FDS ∧ fd_table s !! (t, i) = None ∧
     cap_fd_alloc (Some t) (Some f) m c s =
       Some (i, mk_fs (<[e := Cap CAP_ENTRY_MAGIC f c]> (heap s)) (<[(t, i) := e]> (fd_table s)) (closed s))).
Proof.
  intros Hm. unfold cap_fd_alloc. destruct m as [e|]; [|left; split; [done|by left]].
  rewrite bind_modify, bind_gets. cbn [fd_table set_heap].
  pose proof (free_slot_spec t (fd_table s)) as Hs. destruct (free_slot t (fd_table s)) as [i|].
  - right. exists e, i. destruct Hs as (? & ? & _). split; [done|]. split; [done|]. split; [done|reflexivity].
  - left. split; [|by right]. unfold kfree. rewrite bind_modify. unfold ret. simpl in Hm.
    cbn [set_heap heap fd_table]. rewrite delete_insert_id by done. by destruct s.
Qed.

(** [fd_derive]: what it may return and leave. *)
Lemma fd_derive_spec t m old new s :
  cap_inv bound s → new_addr m s →
  ∃ r s', fd_derive (Some t) m old new s = Some (r, s') ∧ cap_inv bound s' ∧
    (r = -1 ∨ (∃ e f c e', m = Some e' ∧ 0 ≤ r < MAX_FDS ∧
        fd_table s !! (t, old) = Some e ∧ heap s !! e = Some (Cap CAP_ENTRY_MAGIC f c) ∧ sub_caps new c ∧
        fd_table s' = <[(t, r) := e']> (fd_table s) ∧ heap s' !! e' = Some (Cap CAP_ENTRY_MAGIC f new) ∧
        heap s' !! e = heap s !! e)).
Proof.
  intros HI Hm. unfold fd_derive.
  destruct (cap_get_spec t old s HI) as [R|(e & f & c & ino & n & R & Hk & He & Re & Hc & Hf & Hr & Hpos)].
  { run R. exists (-1), s. split_and!; [done|done|by left]. }
  run R. run Re. cbn [fst snd].
  destruct (Z.eqb_spec (Z.ldiff new c) 0) as [Hsub|]; cbn [negb]; [|exists (-1), s; split_and!; [done|done|by left]].
  set (s1 := set_heap (<[f := File ino (n + 1)]> (heap s)) s).
  assert (vfs_file_dup f s = Some (0, s1)) as Rd.
  { unfold vfs_file_dup. rewrite Hf. by destruct (Z.leb_spec n 0); [lia|]. }
  run Rd. assert (new_addr m s1) as Hm1.
  { unfold new_addr, s1 in *. destruct m as [e'|]; [|done]. simpl. rewrite lookup_insert_ne by congruence. done. }
  destruct (cap_alloc_cases t f m new s1 Hm1) as [[Ra _]|(e' & i & -> & Hi & Hfree & Ra)]; rewrite Ra.
  - exists (-1), s1. split_and!; [done|by apply spare_ref|by left].
  - eexists i, _. split; [done|]. split.
    + apply (add_entry s (t, i) e' f new ino n); try done. by eapply sub_caps_trans.
    + right. exists e, f, c, e'. simpl in Hm. assert (e' ≠ e) by congruence. assert (e ≠ f) by congruence.
      split_and!; try (done || lia); simpl.
      * by rewrite lookup_insert_eq.
      * by rewrite lookup_insert_ne, lookup_insert_ne.
Qed.

(** Removing the entry of a slot. *)
Lemma drop_entry s k e f c ino n :
  cap_inv bound s → fd_table s !! k = Some e → heap s !! e = Some (Cap CAP_ENTRY_MAGIC f c) →
  heap s !! f = Some (File ino n) →
  (∀ k' e', delete k (fd_table s) !! k' = Some e' → delete e (heap s) !! e' = heap s !! e') ∧
  cap_inv bound (mk_fs (delete e (heap s)) (delete k (fd_table s)) (closed s)) ∧
  crefs (delete e (heap s)) (delete k (fd_table s)) f = crefs (heap s) (fd_table s) f - 1.
Proof.
  intros HI Hk He Hf.
  assert (∀ k' e', delete k (fd_table s) !! k' = Some e' → delete e (heap s) !! e' = heap s !! e') as Hsame.
  { intros k' e' [Hne Hk']%lookup_delete_Some. apply lookup_delete_ne. intros <-.
    apply Hne. by eapply ci_inj. }
  assert (∀ g, crefs (delete e (heap s)) (delete k (fd_table s)) g =
               crefs (heap s) (fd_table s) g - if decide (f = g) then 1 else 0) as Hcr.
  { intros g. rewrite (crefs_heap (heap s)) by (intros k' e' Hk'; unfold entry_file; by rewrite (Hsame k' e')).
    apply (crefs_delete _ _ _ e); [done|]. unfold entry_file. by rewrite He. }
  split; [exact Hsame|]. split; [|by rewrite Hcr, decide_True].
  constructor; cbn [heap fd_table].
  - intros k' e' Hk'. rewrite (Hsame _ _ Hk'). apply lookup_delete_Some in Hk' as [_ Hk'].
    destruct (ci_slot _ _ HI _ _ Hk') as (g & c' & ? & ? & i & m & Hg). exists g, c'. split_and!; [done|done|].
    exists i, m. rewrite lookup_delete_ne by congruence. done.
  - intros k1 k2 e' [_ H1]%lookup_delete_Some [_ H2]%lookup_delete_Some. by eapply ci_inj.
  - intros g i m [_ Hg]%lookup_delete_Some. rewrite Hcr. destruct (ci_refs _ _ HI _ _ _ Hg). case_decide; lia.
Qed.

(** Dropping a reference that no entry needs. *)
Lemma vfs_close_cap s f ino n :
  cap_inv bound s → heap s !! f = Some (File ino n) → crefs (heap s) (fd_table s) f < n →
  ∃ s', vfs_close f s = Some (0, s') ∧ cap_inv bound s' ∧ fd_table s' = fd_table s ∧
        ∀ g, g ≠ f → heap s' !! g = heap s !! g.
Proof.
  intros HI Hf Hn. destruct (ci_refs _ _ HI _ _ _ Hf) as [_ Hpos].
  assert (∀ k e, fd_table s !! k = Some e → e ≠ f) as Hne.
  { intros k e Hk ->. destruct (ci_slot _ _ HI _ _ Hk) as (? & ? & ? & _). congruence. }
  assert (0 ≤ crefs (heap s) (fd_table s) f) by (unfold crefs; lia).
  unfold vfs_close. rewrite Hf. destruct (Z.leb_spec n 0); [lia|]. destruct (Z.ltb_spec 0 (n - 1)).
  - eexists. split; [done|]. split; [|split; [done|by intros; simpl; rewrite lookup_insert_ne]].
    assert (∀ k e, fd_table s !! k = Some e → <[f := File ino (n - 1)]> (heap s) !! e = heap s !! e) as Hsame.
    { intros k e Hk. apply lookup_insert_ne. apply not_eq_sym. eauto. }
    constructor; cbn [heap fd_table set_heap].
    + intros k e Hk. rewrite (Hsame _ _ Hk). destruct (ci_slot _ _ HI _ _ Hk) as (g & c & ? & ? & i & m & Hg).
      exists g, c. split_and!; [done|done|]. destruct (decide (f = g)) as [<-|]; [rewrite lookup_insert_eq; eauto|].
      rewrite lookup_insert_ne by done. eauto.
    + apply (ci_inj _ _ HI).
    + intros g i m. rewrite (crefs_heap (heap s)) by (intros k e Hk; unfold entry_file; by rewrite (Hsame k e)).
      destruct (decide (f = g)) as [<-|]; [rewrite lookup_insert_eq; intros [= <- <-]; lia|].
      rewrite lookup_insert_ne by done. apply (ci_refs _ _ HI).
  - eexists. split; [done|]. split; [|split; [done|by intros; simpl; rewrite lookup_delete_ne]].
    assert (∀ k e, fd_table s !! k = Some e → delete f (heap s) !! e = heap s !! e) as Hsame.
    { intros k e Hk. apply lookup_delete_ne. apply not_eq_sym. eauto. }
    constructor; cbn [heap fd_table].
    + intros k e Hk. rewrite (Hsame _ _ Hk). destruct (ci_slot _ _ HI _ _ Hk) as (g & c & He & ? & i & m & Hg).
      exists g, c. split_and!; [done|done|]. exists i, m. rewrite lookup_delete_ne; [done|]. intros <-.
      assert (0 < crefs (heap s) (fd_table s) f); [|lia].
      assert (entry_file (heap s) e = Some f) as Hef by (unfold entry_file; by rewrite He).
      pose proof (crefs_delete _ _ _ _ _ f Hk Hef) as E. rewrite decide_True in E by done. unfold crefs in *. lia.
    + apply (ci_inj _ _ HI).
    + intros g i m. rewrite (crefs_heap (heap s)) by (intros k e Hk; unfold entry_file; by rewrite (Hsame k e)).
      intros [_ Hg]%lookup_delete_Some. by apply (ci_refs _ _ HI) in Hg.
Qed.

Definition drop (e : Z) (k : Z * Z) (s : fstate) : fstate :=
  mk_fs (delete e (heap s)) (delete k (fd_table s)) (closed s).

Lemma vfs_close_drop f e k s r s' :
  e ≠ f → vfs_close f (drop e k s) = Some (r, s') →
  ∃ s1, vfs_close f s = Some (r, s1) ∧ drop e k s1 = s'.
Proof.
  intros Hne. unfold vfs_close, drop. cbn [heap]. rewrite lookup_delete_ne by done.
  destruct (heap s !! f) as [[ino n|]|]; [|done..].
  destruct (n <=? 0); [intros [= <- <-]; eauto|].
  destruct (0 <? n - 1); intros [= <- <-]; eexists; (split; [reflexivity|]);
    cbn [heap set_heap fd_table closed].
  - by rewrite delete_insert_ne.
  - by rewrite delete_delete.
Qed.

Lemma cap_fd_close_spec t fd s :
  cap_inv bound s →
  ∃ r s', cap_fd_close (Some t) fd s = Some (r, s') ∧ cap_inv bound s' ∧
    (r = -1 ∧ s' = s ∨ r = 0 ∧ fd_table s' = delete (t, fd) (fd_table s)).
Proof.
  intros HI. unfold cap_fd_close.
  destruct (cap_get_spec t fd s HI) as [R|(e & f & c & ino & n & R & Hk & He & Re & Hc & Hf & Hr & Hpos)].
  { run R. exists (-1), s. split_and!; [done|done|by left]. }
  run R. run Re. cbn [fst]. destruct (drop_entry s (t, fd) e f c ino n HI Hk He Hf) as (Hsame & HI' & Hcr).
  assert (e ≠ f) as Hef by congruence.
  destruct (vfs_close_cap (drop e (t, fd) s) f ino n HI') as (s' & Rc & HI2 & Ht & _).
  { simpl. by rewrite lookup_delete_ne. }
  { simpl. rewrite Hcr. lia. }
  destruct (vfs_close_drop _ _ _ _ _ _ Hef Rc) as (s1 & R1 & <-).
  run R1. unfold kfree, clear_slot. rewrite !bind_modify. exists 0, (drop e (t, fd) s1).
  split; [done|]. split; [done|]. right. split; [done|]. exact Ht.
Qed.

(** [fd_send] is a move: the entry leaves the sender's slot for a free slot of
    the target, with the same file and the same capabilities. *)
Lemma fd_send_spec t m tg fd s :
  cap_inv bound s → new_addr m s →
  ∃ r s', fd_send (Some t) m tg fd s = Some (r, s') ∧ cap_inv bound s' ∧
    (r = -1 ∧ s' = s ∨
     (∃ u i e f c e', r = 0 ∧ tg = Some u ∧ fd_table s !! (t, fd) = Some e ∧
        heap s !! e = Some (Cap CAP_ENTRY_MAGIC f c) ∧ Z.land c CAP_SEND ≠ 0 ∧
        fd_table s !! (u, i) = None ∧
        fd_table s' = delete (t, fd) (<[(u, i) := e']> (fd_table s)) ∧
        heap s' !! e' = Some (Cap CAP_ENTRY_MAGIC f c) ∧ heap s' !! f = heap s !! f)).
Proof.
  intros HI Hm. unfold fd_send.
  destruct (cap_get_spec t fd s HI) as [R|(e & f & c & ino & n & R & Hk & He & Re & Hc & Hf & Hr & Hpos)].
  { run R. exists (-1), s. split_and!; [done|done|by left]. }
  run R. run Re. cbn [fst snd].
  destruct (Z.eqb_spec (Z.land c CAP_SEND) 0) as [|Hsend]; [exists (-1), s; split_and!; [done|done|by left]|].
  destruct tg as [u|]; [|exists (-1), s; split_and!; [done|done|by left]].
  destruct (cap_alloc_cases u f m c s Hm) as [[Ra _]|(e' & i & -> & Hi & Hfree & Ra)].
  { run Ra. exists (-1), s. split_and!; [done|done|by left]. }
  run Ra. destruct (Z.ltb_spec i 0); [lia|]. unfold kfree, clear_slot. rewrite !bind_modify.
  simpl in Hm. assert (e ≠ e') as Hee by congruence. assert (e ≠ f) as Hef by congruence.
  assert (e' ≠ f) as Hef' by congruence. assert ((u, i) ≠ (t, fd)) as Hkk by congruence.
  eexists 0, _. split; [reflexivity|].
  cbn [set_heap set_table heap fd_table closed].
  (* the same state, with the reference counted up for the new entry and down for the old *)
  pose proof (add_entry s (u, i) e' f c ino n HI Hm Hfree Hf Hc) as HI1.
  set (s1 := mk_fs _ _ _) in HI1.
  destruct (drop_entry s1 (t, fd) e f c ino (n + 1) HI1) as (_ & HI2 & Hcr).
  { simpl. by rewrite lookup_insert_ne. }
  { simpl. by rewrite !lookup_insert_ne. }
  { simpl. by rewrite lookup_insert_ne, lookup_insert_eq. }
  destruct (vfs_close_cap (drop e (t, fd) s1) f ino (n + 1) HI2) as (s2 & Rc & HI3 & _).
  { simpl. by rewrite lookup_delete_ne, lookup_insert_ne, lookup_insert_eq. }
  { change (crefs (heap (drop e (t, fd) s1)) (fd_table (drop e (t, fd) s1)) f < n + 1).
    cbn [drop heap fd_table]. rewrite Hcr. destruct (ci_refs _ _ HI1 f ino (n + 1)); [|lia].
    simpl. by rewrite lookup_insert_ne, lookup_insert_eq. }
  split.
  - assert (drop e (t, fd) (mk_fs (<[e' := Cap CAP_ENTRY_MAGIC f c]> (heap s)) (<[(u, i) := e']> (fd_table s)) (closed s)) = s2) as <-;
      [|exact HI3].
    revert Rc. unfold vfs_close, drop, s1. cbn [heap fd_table closed].
    rewrite lookup_delete_ne, lookup_insert_ne, lookup_insert_eq by done.
    destruct (Z.leb_spec (n + 1) 0); [lia|]. destruct (Z.ltb_spec 0 (n + 1 - 1)); [|lia].
    intros [= <-]. unfold set_heap. cbn [fd_table closed heap]. f_equal. apply map_eq. intros a.
    destruct (decide (f = a)) as [<-|]; [rewrite lookup_insert_eq|rewrite (lookup_insert_ne _ f) by done].
    + rewrite lookup_delete_ne, lookup_insert_ne by done. rewrite Hf. do 2 f_equal. lia.
    + destruct (decide (e = a)) as [<-|]; [by rewrite !lookup_delete_eq|]. rewrite !lookup_delete_ne by done.
      destruct (decide (e' = a)) as [<-|]; [by rewrite !lookup_insert_eq|]. by rewrite !lookup_insert_ne.
  - right. exists u, i, e, f, c, e'. split_and!; try done.
    + by rewrite lookup_delete_ne, lookup_insert_eq.
    + by rewrite lookup_delete_ne, lookup_insert_ne.
Qed.
End ops.
