(* ===== verification/FilesThms.v ===== *)
(** * Theorems about descriptor tables, capabilities and filters. *)
From S2P Require Import Prelude Files Capability.
Local Open Scope Z_scope.
Local Open Scope kernel_scope.

(** ** Sequences of descriptor operations *)
Inductive fd_op :=
  | OpOpen (t ino : Z)
  | OpClose (t fd : Z)
  | OpDup (t fd : Z)
  | OpDup2 (t oldfd newfd : Z)
  | OpCloseAll (t : Z).

(** [vfs_open] returns memory that is not in use. *)
Definition run_fd_op (o : fd_op) : FM Z :=
  match o with
  | OpOpen t ino => λ s, fd_open_path (Some t) (Some (fresh (dom (heap s)), ino)) s
  | OpClose t fd => fd_close (Some t) fd
  | OpDup t fd => fd_dup (Some t) fd
  | OpDup2 t a b => fd_dup2 (Some t) a b
  | OpCloseAll t => fd_close_all (Some t) ;;; ret 0
  end.
Fixpoint run_fd_ops (os : list fd_op) : FM (list Z) :=
  match os with
  | [] => ret []
  | o :: os => r <- run_fd_op o ;; rs <- run_fd_ops os ;; ret (r :: rs)
  end.

Definition no_files : fstate := mk_fs ∅ ∅ [].
Lemma no_files_inv : file_inv no_files.
Proof. constructor; [intros k f|intros f ino n]; cbn; by rewrite lookup_empty. Qed.

Lemma fd_dup2_inv t a b s : file_inv s → returns (fd_dup2 (Some t) a b) s (λ _ s', file_inv s').
Proof.
  intros HI. destruct (slot_ok a) eqn:Ha; [|unfold returns, fd_dup2; rewrite Ha; by eexists _, _].
  destruct (slot_ok b) eqn:Hb; [|unfold returns, fd_dup2; rewrite Ha, Hb; by eexists _, _].
  destruct (decide (a = b)) as [->|Hne].
  { unfold returns, fd_dup2. rewrite Hb, Z.eqb_refl. by eexists _, _. }
  destruct (fd_table s !! (t, a)) as [f|] eqn:Hf.
  - destruct (fd_dup2_spec t a b s f HI Ha Hb Hne Hf) as (r & s' & R & _ & HI' & _). by exists r, s'.
  - unfold returns, fd_dup2. rewrite Ha, Hb. cbn [negb]. destruct (Z.eqb_spec a b); [done|].
    unfold fd_get. rewrite Ha. unfold bind at 1, gets at 1. rewrite Hf. by eexists _, _.
Qed.

Lemma run_fd_op_inv o s : file_inv s → returns (run_fd_op o) s (λ _ s', file_inv s').
Proof.
  intros HI. destruct o as [t ino|t fd|t fd|t a b|t]; cbn [run_fd_op].
  - apply fd_open_inv; [done|]. apply not_elem_of_dom, is_fresh.
  - by apply fd_close_inv.
  - destruct (fd_dup_spec t fd s HI) as (r & s' & R & HI' & _). by exists r, s'.
  - by apply fd_dup2_inv.
  - destruct (fd_close_all_spec t s HI) as (s' & R & HI' & _). exists 0, s'. split; [by run R|done].
Qed.

(** C9: every sequence of open, close, dup, dup2 and close-all calls, on any
    tasks and descriptors, runs without touching freed memory, and afterwards
    every open slot holds a live file and every live file's reference count is
    the number of slots that hold it: no file is freed early and none leaks. *)
Theorem fd_ops_refcounts os s :
  file_inv s → ∃ rs s', run_fd_ops os s = Some (rs, s') ∧ file_inv s'.
Proof.
  revert s. induction os as [|o os IH]; intros s HI; cbn [run_fd_ops]; [by eexists _, _|].
  destruct (run_fd_op_inv o s HI) as (r & s1 & R & HI1). run R.
  destruct (IH s1 HI1) as (rs & s2 & R2 & HI2). run R2. by eexists _, _.
Qed.

Definition demo_ops : list fd_op :=
  [OpOpen 1 100; OpDup 1 0; OpDup2 1 0 5; OpOpen 2 200; OpClose 1 0; OpCloseAll 1; OpClose 2 0].
Lemma fd_ops_refcounts_witness :
  (∃ rs s', run_fd_ops demo_ops no_files = Some (rs, s') ∧ file_inv s') ∧
  (fst <$> run_fd_ops demo_ops no_files) = Some [0; 1; 5; 0; 0; 0; 0].
Proof. split; [apply fd_ops_refcounts, no_files_inv|by vm_compute]. Defined.

(** [fd_dup2] makes the new descriptor refer to the old one's file and
    leaves all other slots alone; what the new descriptor held before is closed,
    and its inode's [close] runs exactly when that was its last reference. *)
Theorem fd_dup2_correct t oldfd newfd s f :
  file_inv s → slot_ok oldfd = true → slot_ok newfd = true → oldfd ≠ newfd →
  fd_table s !! (t, oldfd) = Some f →
  ∃ s', fd_dup2 (Some t) oldfd newfd s = Some (newfd, s') ∧ file_inv s' ∧
    fd_table s' = <[(t, newfd) := f]> (fd_table s) ∧
    closed s' = closed s ++ match fd_table s !! (t, newfd) with
                            | Some g => if decide (refs (fd_table s) g = 1) then
                                          match heap s !! g with
                                          | Some (File ino _) => if decide (g = f) then [] else [ino]
                                          | _ => [] end
                                        else []
                            | None => [] end.
Proof.
  intros HI Ho Hn Hne Hf. destruct (fd_dup2_spec t oldfd newfd s f HI Ho Hn Hne Hf)
    as (r & s' & R & -> & H). by exists s'.
Qed.

(** Task 1 holds file 10 twice and file 11 once. *)
Definition demo_files : fstate :=
  mk_fs {[10 := File 100 2; 11 := File 101 1]} {[(1, 0) := 10; (1, 1) := 11; (1, 2) := 10]} [].
Lemma demo_files_inv : file_inv demo_files.
Proof.
  constructor.
  - intros k f Hk. unfold demo_files in *. cbn [fd_table heap] in *.
    apply lookup_insert_Some in Hk as [[_ <-]|[_ Hk]]; [by eexists _, _|].
    apply lookup_insert_Some in Hk as [[_ <-]|[_ Hk]]; [by eexists _, _|].
    apply lookup_singleton_Some in Hk as [_ <-]. by eexists _, _.
  - intros f ino n Hf. unfold demo_files in *. cbn [fd_table heap] in *.
    apply lookup_insert_Some in Hf as [[<- [= <- <-]]|[_ Hf]]; [by vm_compute|].
    apply lookup_singleton_Some in Hf as [<- [= <- <-]]. by vm_compute.
Qed.

Lemma fd_dup2_correct_witness :
  ∃ s', fd_dup2 (Some 1) 0 1 demo_files = Some (1, s') ∧ closed s' = [101] ∧ heap s' !! 11 = None.
Proof.
  destruct (fd_dup2_correct 1 0 1 demo_files 10) as (s' & R & HI & Ht & Hc);
    [apply demo_files_inv|done|done|done|done|].
  exists s'. split; [exact R|]. split; [rewrite Hc; by vm_compute|]. clear -R.
  assert (fd_dup2 (Some 1) 0 1 demo_files = Some (1, s')) as E by exact R.
  vm_compute in E. injection E as <-. by vm_compute.
Defined.

(** A task's exit closes all its descriptors and no one else's. *)
Theorem fd_close_all_correct t s :
  file_inv s → ∃ s', fd_close_all (Some t) s = Some (tt, s') ∧ file_inv s' ∧
    (∀ i, 0 ≤ i < MAX_FDS → fd_table s' !! (t, i) = None) ∧
    (∀ t' i, t' ≠ t → fd_table s' !! (t', i) = fd_table s !! (t', i)).
Proof. apply fd_close_all_spec. Qed.

Lemma fd_close_all_correct_witness :
  ∃ s', fd_close_all (Some 1) demo_files = Some (tt, s') ∧ fd_table s' !! (1, 2) = None.
Proof.
  destruct (fd_close_all_correct 1 demo_files demo_files_inv) as (s' & R & _ & Hi & _).
  exists s'. split; [exact R|]. by apply Hi.
Defined.

(** ** Capabilities *)
Inductive cap_op :=
  | CapDerive (t old new : Z)
  | CapSend (t fd : Z) (target : option Z)
  | CapClose (t fd : Z).
Definition new_obj (s : fstate) : option Z := Some (fresh (dom (heap s))).
Definition run_cap_op (o : cap_op) : FM Z :=
  match o with
  | CapDerive t old new => λ s, fd_derive (Some t) (new_obj s) old new s
  | CapSend t fd tg => λ s, fd_send (Some t) (new_obj s) tg fd s
  | CapClose t fd => cap_fd_close (Some t) fd
  end.
Fixpoint run_cap_ops (os : list cap_op) : FM (list Z) :=
  match os with
  | [] => ret []
  | o :: os => r <- run_cap_op o ;; rs <- run_cap_ops os ;; ret (r :: rs)
  end.

Lemma new_obj_ok s : new_addr (new_obj s) s.
Proof. apply not_elem_of_dom, is_fresh. Qed.

Lemma run_cap_op_inv bound o s : cap_inv bound s → returns (run_cap_op o) s (λ _ s', cap_inv bound s').
Proof.
  intros HI. unfold returns. destruct o as [t old new|t fd tg|t fd]; cbn [run_cap_op].
  - destruct (fd_derive_spec bound t _ old new s HI (new_obj_ok s)) as (r & s' & R & HI' & _). eauto.
  - destruct (fd_send_spec bound t _ tg fd s HI (new_obj_ok s)) as (r & s' & R & HI' & _). eauto.
  - destruct (cap_fd_close_spec bound t fd s HI) as (r & s' & R & HI' & _). eauto.
Qed.

Lemma run_cap_ops_inv bound os s :
  cap_inv bound s → ∃ rs s', run_cap_ops os s = Some (rs, s') ∧ cap_inv bound s'.
Proof.
  revert s. induction os as [|o os IH]; intros s HI; cbn [run_cap_ops]; [by eexists _, _|].
  destruct (run_cap_op_inv bound o s HI) as (r & s1 & R & HI1). run R.
  destruct (IH s1 HI1) as (rs & s2 & R2 & HI2). run R2. by eexists _, _.
Qed.

(** C10: capabilities never escalate: if every entry's capabilities are within
    [bound] of its file, then after any sequence of derivations, transfers and
    closes by any tasks, any descriptor that passes [fd_check_cap] for a set of
    capabilities refers to a live file whose bound contains the whole set. *)
Theorem capabilities_never_escalate bound os s t fd required :
  cap_inv bound s →
  ∃ rs s', run_cap_ops os s = Some (rs, s') ∧
    (∃ r, fd_check_cap (Some t) fd required s' = Some (r, s') ∧
      (r = 0 → ∃ e f c ino n, fd_table s' !! (t, fd) = Some e ∧
         heap s' !! e = Some (Cap CAP_ENTRY_MAGIC f c) ∧ heap s' !! f = Some (File ino n) ∧ 0 < n ∧
         Z.land (bound f) required = required)).
Proof.
  intros HI. destruct (run_cap_ops_inv bound os s HI) as (rs & s' & R & HI').
  exists rs, s'. split; [done|]. unfold fd_check_cap.
  destruct (cap_get_spec bound t fd s' HI') as [Rg|(e & f & c & ino & n & Rg & Hk & He & Re & Hc & Hf & Hr & Hpos)].
  - exists (-1). by run Rg.
  - run Rg. run Re. cbn [snd]. eexists. split; [reflexivity|].
    destruct (Z.eqb_spec (Z.land c required) required) as [E|]; [|done]. intros _.
    exists e, f, c, ino, n. split_and!; [done..|]. by eapply sub_caps_land.
Qed.

(** Task 1 holds file 10 with read, write and send capabilities. *)
Definition demo_caps : fstate :=
  mk_fs {[10 := File 100 1; 20 := Cap CAP_ENTRY_MAGIC 10 (CAP_READ + CAP_WRITE + CAP_SEND)]} {[(1, 0) := 20]} [].
Lemma demo_caps_inv : cap_inv (λ _, CAP_READ + CAP_WRITE + CAP_SEND) demo_caps.
Proof.
  constructor.
  - intros k e Hk. unfold demo_caps in *. cbn [fd_table heap] in *.
    apply lookup_singleton_Some in Hk as [_ <-]. eexists 10, _. split; [reflexivity|]. split; [done|].
    by eexists _, _.
  - intros k k' e Hk Hk'. unfold demo_caps in *. cbn [fd_table] in *.
    apply lookup_singleton_Some in Hk as [<- _]. by apply lookup_singleton_Some in Hk' as [<- _].
  - intros f ino n Hf. unfold demo_caps in *. cbn [fd_table heap] in *.
    apply lookup_insert_Some in Hf as [[<- [= <- <-]]|[_ Hf]]; [by vm_compute|].
    by apply lookup_singleton_Some in Hf as [<- ?].
Qed.

Lemma capabilities_never_escalate_witness :
  ∃ rs s', run_cap_ops [CapDerive 1 0 CAP_READ; CapSend 1 0 (Some 2)] demo_caps = Some (rs, s') ∧
    ∃ r, fd_check_cap (Some 1) 1 CAP_EXEC s' = Some (r, s').
Proof.
  destruct (capabilities_never_escalate (λ _, CAP_READ + CAP_WRITE + CAP_SEND)
    [CapDerive 1 0 CAP_READ; CapSend 1 0 (Some 2)] demo_caps 1 1 CAP_EXEC demo_caps_inv)
    as (rs & s' & R & r & Rc & _).
  exists rs, s'. split; [exact R|]. by exists r.
Defined.

(** [fd_derive] succeeds only for a subset of the source's capabilities, and
    then adds one descriptor, with exactly the requested capabilities on the
    same file, and changes no other slot. *)
Theorem fd_derive_correct bound t m old new s :
  cap_inv bound s → new_addr m s →
  ∃ r s', fd_derive (Some t) m old new s = Some (r, s') ∧ cap_inv bound s' ∧
    (r = -1 ∨ (∃ e f c e', m = Some e' ∧ 0 ≤ r < MAX_FDS ∧
        fd_table s !! (t, old) = Some e ∧ heap s !! e = Some (Cap CAP_ENTRY_MAGIC f c) ∧ sub_caps new c ∧
        fd_table s' = <[(t, r) := e']> (fd_table s) ∧ heap s' !! e' = Some (Cap CAP_ENTRY_MAGIC f new) ∧
        heap s' !! e = heap s !! e)).
Proof. apply fd_derive_spec. Qed.

Lemma fd_derive_correct_witness :
  ∃ s', fd_derive (Some 1) (Some 30) 0 CAP_READ demo_caps = Some (1, s') ∧
    cap_inv (λ _, CAP_READ + CAP_WRITE + CAP_SEND) s'.
Proof.
  destruct (fd_derive_correct (λ _, CAP_READ + CAP_WRITE + CAP_SEND) 1 (Some 30) 0 CAP_READ demo_caps demo_caps_inv)
    as (r & s' & R & HI & _); [done|].
  exists s'. split; [|exact HI]. rewrite R. vm_compute in R. by simplify_eq.
Defined.

(** [fd_send] either fails and changes nothing, or moves the entry: the
    sender had [CAP_SEND], its slot is empty, a free slot of the target holds an
    entry with the same file and the same capabilities, and the file's
    reference count is as it was. *)
Theorem fd_send_moves bound t m tg fd s :
  cap_inv bound s → new_addr m s →
  ∃ r s', fd_send (Some t) m tg fd s = Some (r, s') ∧ cap_inv bound s' ∧
    (r = -1 ∧ s' = s ∨
     (∃ u i e f c e', r = 0 ∧ tg = Some u ∧ fd_table s !! (t, fd) = Some e ∧
        heap s !! e = Some (Cap CAP_ENTRY_MAGIC f c) ∧ Z.land c CAP_SEND ≠ 0 ∧
        fd_table s !! (u, i) = None ∧
        fd_table s' = delete (t, fd) (<[(u, i) := e']> (fd_table s)) ∧
        heap s' !! e' = Some (Cap CAP_ENTRY_MAGIC f c) ∧ heap s' !! f = heap s !! f)).
Proof. apply fd_send_spec. Qed.

Lemma fd_send_moves_witness :
  ∃ s', fd_send (Some 1) (Some 30) (Some 2) 0 demo_caps = Some (0, s') ∧
    cap_inv (λ _, CAP_READ + CAP_WRITE + CAP_SEND) s'.
Proof.
  destruct (fd_send_moves (λ _, CAP_READ + CAP_WRITE + CAP_SEND) 1 (Some 30) (Some 2) 0 demo_caps demo_caps_inv)
    as (r & s' & R & HI & _); [done|].
  exists s'. split; [|exact HI]. rewrite R. vm_compute in R. by simplify_eq.
Defined.

(** ** Filters *)
Lemma testbit_low a b n : 0 ≤ n < 64 → 0 ≤ a < 2 ^ 64 → Z.testbit (a + 2 ^ 64 * b) n = Z.testbit a n.
Proof.
  intros Hn Ha. rewrite <- (Z.mod_pow2_bits_low (a + 2 ^ 64 * b) 64 n) by lia.
  rewrite Z.mul_comm, Z.mod_add, Z.mod_small by lia. done.
Qed.
Lemma testbit_high a b n : 64 ≤ n → 0 ≤ a < 2 ^ 64 → Z.testbit (a + 2 ^ 64 * b) n = Z.testbit b (n - 64).
Proof.
  intros Hn Ha. replace n with (n - 64 + 64) at 1 by lia. rewrite <- Z.div_pow2_bits by lia.
  rewrite Z.mul_comm, Z.div_add, Z.div_small by lia. by rewrite Z.add_0_l.
Qed.

Definition filter_ok (f : seccomp_filter) : Prop :=
  length (syscall_mask f) = 4%nat ∧ Forall (λ w, 0 ≤ w < 2 ^ 64) (syscall_mask f).

Lemma mask256_bit f n :
  filter_ok f → 0 ≤ n < 256 →
  Z.testbit (mask256 f) n = Z.testbit (nth (Z.to_nat (n / 64)) (syscall_mask f) 0) (n mod 64).
Proof.
  intros [Hl Hw] Hn. destruct f as [[|w0 [|w1 [|w2 [|w3 [|]]]]]]; simpl in Hl; try done.
  apply Forall_cons in Hw as [H0 Hw]. apply Forall_cons in Hw as [H1 Hw].
  apply Forall_cons in Hw as [H2 _]. unfold mask256. cbn [syscall_mask nth].
  replace (w0 + 2 ^ 64 * w1 + 2 ^ 128 * w2 + 2 ^ 192 * w3)
    with (w0 + 2 ^ 64 * (w1 + 2 ^ 64 * (w2 + 2 ^ 64 * w3))) by ring.
  assert (n / 64 = 0 ∨ n / 64 = 1 ∨ n / 64 = 2 ∨ n / 64 = 3) as Hq.
  { pose proof (Z.div_pos n 64). pose proof (Z.div_lt_upper_bound n 64 4). lia. }
  pose proof (Z.div_mod n 64 ltac:(done)) as Hdm. pose proof (Z.mod_pos_bound n 64 ltac:(done)) as Hm.
  destruct Hq as [E|[E|[E|E]]]; rewrite E in *; cbn [nth].
  - rewrite testbit_low by lia. f_equal. lia.
  - rewrite testbit_high, testbit_low by lia. cbn. f_equal. lia.
  - rewrite testbit_high, testbit_high, testbit_low by lia. cbn. f_equal. lia.
  - rewrite testbit_high, testbit_high, testbit_high by lia. cbn. f_equal. lia.
Qed.

(** An installed filter admits exactly the system calls 0 to 255 whose bit
    is set in the 256-bit mask its four words spell, and no filter admits all. *)
Theorem seccomp_check_correct f n :
  filter_ok f →
  (seccomp_check (Some f) n = 0 ↔ 0 ≤ n < 256 ∧ Z.testbit (mask256 f) n = true) ∧
  (seccomp_check (Some f) n = 0 ∨ seccomp_check (Some f) n = -1) ∧ seccomp_check None n = 0.
Proof.
  intros Hf. unfold seccomp_check.
  destruct (Z.ltb_spec n 0); cbn [orb]; [by split_and!; [lia|right|]|].
  destruct (Z.leb_spec 256 n); [by split_and!; [lia|right|]|].
  rewrite mask256_bit by (done || lia). set (w := nth _ _ _). set (b := n mod 64).
  assert (0 ≤ b < 64) as Hb by (by apply Z.mod_pos_bound).
  assert (Z.land w (Z.shiftl 1 b) = 0 ↔ Z.testbit w b = false) as Hbit.
  { rewrite Z.shiftl_1_l. split; intros H'.
    - assert (Z.testbit (Z.land w (2 ^ b)) b = false) as E by (rewrite H'; apply Z.bits_0).
      rewrite Z.land_spec, Z.pow2_bits_true, andb_true_r in E by lia. done.
    - apply Z.bits_inj'. intros k Hk. rewrite Z.land_spec, Z.bits_0, Z.pow2_bits_eqb by lia.
      destruct (Z.eqb_spec b k) as [<-|]; [by rewrite H'|apply andb_false_r]. }
  destruct (Z.eqb_spec (Z.land w (Z.shiftl 1 b)) 0) as [E|E].
  - apply Hbit in E. rewrite E. split_and!; [lia|by right|done].
  - destruct (Z.testbit w b); [|by destruct E; apply Hbit]. split_and!; [|by left|done]. split; [done|lia].
Qed.

Lemma seccomp_check_correct_witness :
  seccomp_check (Some (mk_filter [1; 0; 4; 0])) 130 = 0 ↔
  0 ≤ 130 < 256 ∧ Z.testbit (mask256 (mk_filter [1; 0; 4; 0])) 130 = true.
Proof. apply seccomp_check_correct. split; [done|]. repeat constructor; done. Defined.

(** ** What the code does beyond its intent *)

(** [fd_derive] takes its file reference before it looks for a slot and does
    not give it back when there is none: on a full table (or without memory for
    the entry) the count grows with every failed call. *)
Theorem fd_derive_leaks_on_failure bound t old new s e f c ino n :
  cap_inv bound s → slot_ok old = true → fd_table s !! (t, old) = Some e →
  heap s !! e = Some (Cap CAP_ENTRY_MAGIC f c) → heap s !! f = Some (File ino n) → sub_caps new c →
  ∃ s', fd_derive (Some t) None old new s = Some (-1, s') ∧ fd_table s' = fd_table s ∧
        heap s' !! f = Some (File ino (n + 1)).
Proof.
  intros HI Hok Hk He Hf Hs. destruct (ci_refs _ _ HI _ _ _ Hf) as [_ Hpos].
  assert (cap_get (Some t) old s = Some (Some e, s)) as R1.
  { unfold cap_get. rewrite Hok. cbn [negb]. rewrite bind_gets, Hk. unfold bind, magic_at. by rewrite He. }
  assert (entry_at e s = Some ((f, c), s)) as R2 by (unfold entry_at; by rewrite He).
  unfold fd_derive. run R1. run R2. cbn [fst snd]. unfold sub_caps in Hs. rewrite Hs. cbn [negb Z.eqb].
  set (s1 := set_heap (<[f := File ino (n + 1)]> (heap s)) s).
  assert (vfs_file_dup f s = Some (0, s1)) as R3.
  { unfold vfs_file_dup. rewrite Hf. by destruct (Z.leb_spec n 0); [lia|]. }
  run R3. exists s1. split; [done|]. split; [done|]. simpl. by rewrite lookup_insert_eq.
Qed.

(** [sys_pipe] leaves the reference count of its files at zero, so closing the
    descriptors never reaches the pipe's [close]: both calls succeed, the slots
    are empty, and the two file objects are still there with no inode closed. *)
Theorem pipe_fds_never_close :
  (fst <$> (_ <- pipe_fds (Some 1) 10 100 11 101 ;; a <- fd_close (Some 1) 0 ;; b <- fd_close (Some 1) 1 ;;
            s <- get ;; ret (a, b, closed s, heap s !! 10, heap s !! 11)) no_files)
  = Some (0, 0, [], Some (File 100 0), Some (File 101 0)).
Proof. by vm_compute. Qed.
