(* ===== verification/TcpCong.v ===== *)
(** * kernel/net/tcp_cong.c: TCP Reno congestion control.

    Every field is kept at its C width: [uint32_t] arithmetic wraps with [u32],
    [int] with [i32]. *)
From S2P Require Import Prelude.
Local Open Scope Z_scope.
Local Open Scope kernel_scope.

Definition TCP_MSS : Z := 1460.
Definition TCP_INITIAL_CWND : Z := 2 * TCP_MSS.
Definition TCP_INITIAL_SSTHRESH : Z := 65535.
Definition TCP_RTO_INITIAL : Z := 1000.
Definition TCP_RTO_MIN : Z := 200.
Definition TCP_RTO_MAX : Z := 60000.
Definition UINT32_MAX : Z := 2 ^ 32 - 1.
Definition MAX_TCP_CONG_SOCKETS : Z := 16.

Inductive tcp_cong_state := TCP_CONG_SLOW_START | TCP_CONG_AVOIDANCE | TCP_CONG_RECOVERY.
#[export] Instance tcp_cong_state_eq_dec : EqDecision tcp_cong_state.
Proof. solve_decision. Defined.

(** [struct tcp_cong_data], without the timestamp and SACK members that no
    function reads. *)
Record tcp_cong_data := mk_cd {
  cwnd : Z;
  ssthresh : Z;
  rtt : Z;
  rttvar : Z;
  srto : Z;
  rtt_seq : Z;
  rtt_measuring : bool;
  dup_ack_count : Z;
  last_ack : Z;
  recover_seq : Z;
  cong_state : tcp_cong_state;
  window_scale : Z
}.
Definition cd_zero : tcp_cong_data := mk_cd 0 0 0 0 0 0 false 0 0 0 TCP_CONG_SLOW_START 0.

Definition set_cwnd v c := mk_cd v (ssthresh c) (rtt c) (rttvar c) (srto c) (rtt_seq c) (rtt_measuring c)
  (dup_ack_count c) (last_ack c) (recover_seq c) (cong_state c) (window_scale c).
Definition set_ssthresh v c := mk_cd (cwnd c) v (rtt c) (rttvar c) (srto c) (rtt_seq c) (rtt_measuring c)
  (dup_ack_count c) (last_ack c) (recover_seq c) (cong_state c) (window_scale c).
Definition set_rtt r v t c := mk_cd (cwnd c) (ssthresh c) r v t (rtt_seq c) (rtt_measuring c)
  (dup_ack_count c) (last_ack c) (recover_seq c) (cong_state c) (window_scale c).
Definition set_measure s m c := mk_cd (cwnd c) (ssthresh c) (rtt c) (rttvar c) (srto c) s m
  (dup_ack_count c) (last_ack c) (recover_seq c) (cong_state c) (window_scale c).
Definition set_acks d l c := mk_cd (cwnd c) (ssthresh c) (rtt c) (rttvar c) (srto c) (rtt_seq c) (rtt_measuring c)
  d l (recover_seq c) (cong_state c) (window_scale c).
Definition set_recover v c := mk_cd (cwnd c) (ssthresh c) (rtt c) (rttvar c) (srto c) (rtt_seq c) (rtt_measuring c)
  (dup_ack_count c) (last_ack c) v (cong_state c) (window_scale c).
Definition set_cong v c := mk_cd (cwnd c) (ssthresh c) (rtt c) (rttvar c) (srto c) (rtt_seq c) (rtt_measuring c)
  (dup_ack_count c) (last_ack c) (recover_seq c) v (window_scale c).
Definition set_scale v c := mk_cd (cwnd c) (ssthresh c) (rtt c) (rttvar c) (srto c) (rtt_seq c) (rtt_measuring c)
  (dup_ack_count c) (last_ack c) (recover_seq c) (cong_state c) v.

(** ** The slot array *)
Definition TM := ST (list tcp_cong_data).

Definition tcp_cong_init : TM unit := modify (λ _, replicate 16 cd_zero).

(** [tcp_cong_find_slot]: C's remainder keeps the sign of [sock_id], and a
    negative index is outside the array. *)
Definition find_slot (sock_id : Z) : Z := Z.rem sock_id MAX_TCP_CONG_SOCKETS.
Definition on_slot {A} (sock_id : Z) (f : tcp_cong_data → A * tcp_cong_data) : TM A :=
  λ s, let slot := find_slot sock_id in
       if slot <? 0 then None else
       match s !! Z.to_nat slot with
       | Some cd => let '(a, cd') := f cd in Some (a, <[Z.to_nat slot := cd']> s)
       | None => None
       end.

Definition cd_free (c : tcp_cong_data) : bool := (cwnd c =? 0) && (ssthresh c =? 0) && (srto c =? 0).

(** The loop of [tcp_cong_socket_init]: the first slot that looks unused. *)
Fixpoint first_free (i : Z) (s : list tcp_cong_data) : option Z :=
  match s with
  | [] => None
  | c :: s => if cd_free c then Some i else first_free (i + 1) s
  end.

Definition cd_fresh : tcp_cong_data :=
  mk_cd TCP_INITIAL_CWND TCP_INITIAL_SSTHRESH 0 0 TCP_RTO_INITIAL 0 false 0 0 0 TCP_CONG_SLOW_START 0.

Definition tcp_cong_socket_init (sock_id : Z) : TM unit :=
  λ s, let slot := match first_free 0 s with Some i => i | None => find_slot sock_id end in
       if slot <? 0 then None else Some (tt, <[Z.to_nat slot := cd_fresh]> s).

(** ** Round-trip time *)
Definition tcp_cong_update_rtt (measured_rtt : Z) (c : tcp_cong_data) : tcp_cong_data :=
  if measured_rtt =? 0 then c else
  let '(r, v) :=
    if rtt c =? 0 then (measured_rtt, measured_rtt / 2) else
    let diff := i32 (i32 measured_rtt - i32 (rtt c)) in
    let diff := if diff <? 0 then i32 (- diff) else diff in
    (u32 (u32 (7 * rtt c) + measured_rtt) / 8, u32 (u32 (3 * rttvar c) + u32 diff) / 4) in
  let o := u32 (r + u32 (4 * v)) in
  let o := if o <? TCP_RTO_MIN then TCP_RTO_MIN else o in
  let o := if TCP_RTO_MAX <? o then TCP_RTO_MAX else o in
  set_rtt r v o c.

(** ** ACK processing: the steps of [tcp_cong_on_ack] in order *)
Definition ack_count (ack_seq : Z) (c : tcp_cong_data) : tcp_cong_data :=
  if ack_seq =? last_ack c then set_acks (i32 (dup_ack_count c + 1)) (last_ack c) c
  else if last_ack c <? ack_seq then set_acks 0 ack_seq c
  else c.

Definition ack_slow_start (c : tcp_cong_data) : tcp_cong_data :=
  if cwnd c <? ssthresh c then
    let c := if cwnd c <=? UINT32_MAX - TCP_MSS then set_cwnd (u32 (cwnd c + TCP_MSS)) c else c in
    if ssthresh c <? cwnd c then set_cwnd (ssthresh c) c else c
  else set_cong TCP_CONG_AVOIDANCE c.

Definition ack_avoidance (c : tcp_cong_data) : tcp_cong_data :=
  let increment := u32 (TCP_MSS * TCP_MSS / cwnd c) in
  let increment := if increment =? 0 then 1 else increment in
  set_cwnd (u32 (cwnd c + increment)) c.

Definition half_window (c : tcp_cong_data) : Z :=
  let s := cwnd c / 2 in if s <? 2 * TCP_MSS then 2 * TCP_MSS else s.

Definition ack_retransmit (ack_seq : Z) (c : tcp_cong_data) : tcp_cong_data :=
  let c := set_ssthresh (half_window c) c in
  set_recover ack_seq (set_cong TCP_CONG_RECOVERY (set_cwnd (u32 (ssthresh c + 3 * TCP_MSS)) c)).

Definition ack_exit (c : tcp_cong_data) : tcp_cong_data :=
  set_acks 0 (last_ack c) (set_cong TCP_CONG_AVOIDANCE (set_cwnd (ssthresh c) c)).

Definition on_ack_cd (ack_seq : Z) (c : tcp_cong_data) : tcp_cong_data :=
  if cwnd c =? 0 then c else
  let c := ack_count ack_seq c in
  let state := cong_state c in
  let c := if decide (state = TCP_CONG_SLOW_START) then ack_slow_start c else c in
  let c := if decide (cong_state c = TCP_CONG_AVOIDANCE) then ack_avoidance c else c in
  let c := if (3 <=? dup_ack_count c) && bool_decide (state ≠ TCP_CONG_RECOVERY)
           then ack_retransmit ack_seq c else c in
  let c := if bool_decide (state = TCP_CONG_RECOVERY) && (3 <=? dup_ack_count c)
           then set_cwnd (u32 (cwnd c + TCP_MSS)) c else c in
  if bool_decide (state = TCP_CONG_RECOVERY) && (recover_seq c <? ack_seq) then ack_exit c else c.

Definition tcp_cong_on_ack (sock ack_seq : Z) : TM unit := on_slot sock (λ c, (tt, on_ack_cd ack_seq c)).

Definition on_timeout_cd (c : tcp_cong_data) : tcp_cong_data :=
  if cwnd c =? 0 then c else
  let c := set_ssthresh (half_window c) c in
  let c := set_cwnd TCP_MSS c in
  let o := u32 (srto c * 2) in
  let c := set_rtt (rtt c) (rttvar c) (if TCP_RTO_MAX <? o then TCP_RTO_MAX else o) c in
  set_measure (rtt_seq c) false (set_acks 0 (last_ack c) (set_cong TCP_CONG_SLOW_START c)).
Definition tcp_cong_on_timeout (sock : Z) : TM unit := on_slot sock (λ c, (tt, on_timeout_cd c)).

(** ** The other entry points *)
Definition set_window_scale_cd (shift_cnt : Z) (c : tcp_cong_data) : tcp_cong_data :=
  if (0 <=? shift_cnt) && (shift_cnt <=? 14) then set_scale shift_cnt c else c.
Definition tcp_cong_set_window_scale (sock shift_cnt : Z) : TM unit :=
  on_slot sock (λ c, (tt, set_window_scale_cd shift_cnt c)).
Definition tcp_cong_get_window_scale (sock : Z) : TM Z := on_slot sock (λ c, (window_scale c, c)).

Definition effective_window (rcv_window : Z) (c : tcp_cong_data) : Z :=
  let scaled_rwnd := u32 (Z.shiftl rcv_window (window_scale c)) in
  let eff_win := cwnd c in
  let eff_win := if scaled_rwnd <? eff_win then scaled_rwnd else eff_win in
  if eff_win <? TCP_MSS then TCP_MSS else eff_win.
Definition tcp_cong_get_effective_window (sock rcv_window : Z) : TM Z :=
  on_slot sock (λ c, (effective_window rcv_window c, c)).

Definition tcp_cong_get_rto (sock : Z) : TM Z := on_slot sock (λ c, (srto c, c)).

Definition start_measure_cd (seq : Z) (c : tcp_cong_data) : tcp_cong_data :=
  if negb (rtt_measuring c) then set_measure seq true c else c.
Definition tcp_cong_start_rtt_measure (sock seq : Z) : TM unit :=
  on_slot sock (λ c, (tt, start_measure_cd seq c)).
Definition complete_measure_cd (measured_rtt : Z) (c : tcp_cong_data) : tcp_cong_data :=
  if rtt_measuring c then set_measure (rtt_seq c) false (tcp_cong_update_rtt measured_rtt c) else c.
Definition tcp_cong_complete_rtt_measure (sock measured_rtt : Z) : TM unit :=
  on_slot sock (λ c, (tt, complete_measure_cd measured_rtt c)).

(** ** Widths *)
Lemma i32_small x : - 2 ^ 31 ≤ x < 2 ^ 31 → i32 x = x.
Proof. intros. unfold i32. rewrite Z.mod_small by lia. lia. Qed.

Ltac consts := unfold UINT32_MAX, TCP_INITIAL_CWND, TCP_INITIAL_SSTHRESH, TCP_MSS, TCP_RTO_INITIAL,
  TCP_RTO_MIN, TCP_RTO_MAX in *.
(** ** The per-socket invariant after [n] calls *)
Definition win_bound (n : Z) : Z := TCP_INITIAL_SSTHRESH + 5 * TCP_MSS * n.

Record live (n : Z) (c : tcp_cong_data) : Prop := {
  live_cwnd : TCP_MSS ≤ cwnd c ≤ win_bound n;
  live_ssthresh : 2 * TCP_MSS ≤ ssthresh c ≤ win_bound n
}.
Definition timer_ok (c : tcp_cong_data) : Prop :=
  (srto c = 0 ∧ cwnd c = 0) ∨ TCP_RTO_MIN ≤ srto c ≤ TCP_RTO_MAX.
Definition slot_ok (n : Z) (c : tcp_cong_data) : Prop :=
  (cwnd c = 0 ∨ live n c) ∧ timer_ok c ∧ 0 ≤ window_scale c ≤ 14.

(** ** The calls a network stack makes, as one step each *)
Inductive call :=
  | Open (sock : Z)
  | Ack (sock ack_seq : Z)
  | Timeout (sock : Z)
  | Scale (sock shift_cnt : Z)
  | Start (sock seq : Z)
  | Measured (sock measured_rtt : Z).

Definition call_sock (e : call) : Z :=
  match e with
  | Open s | Ack s _ | Timeout s | Scale s _ | Start s _ | Measured s _ => s
  end.
Definition do_call (e : call) : TM unit :=
  match e with
  | Open s => tcp_cong_socket_init s
  | Ack s a => tcp_cong_on_ack s a
  | Timeout s => tcp_cong_on_timeout s
  | Scale s n => tcp_cong_set_window_scale s n
  | Start s q => tcp_cong_start_rtt_measure s q
  | Measured s r => tcp_cong_complete_rtt_measure s r
  end.
Fixpoint do_calls (es : list call) : TM unit :=
  match es with [] => ret tt | e :: es => do_call e ;;; do_calls es end.

(** ** Window growth *)
Lemma half_window_bounds n c :
  live n c → 2 * TCP_MSS ≤ half_window c ≤ win_bound n ∧ half_window c ≤ cwnd c + TCP_MSS.
Proof.
  intros [[Hc1 Hc2] [Hs1 Hs2]]. unfold half_window. unfold TCP_MSS in *.
  destruct (cwnd c / 2 <? _) eqn:E; apply Z.ltb_lt in E || apply Z.ltb_ge in E; split; try lia.
  all: pose proof (Z.div_lt (cwnd c) 2 ltac:(lia) ltac:(lia)); lia.
Qed.

Lemma increment_bounds w :
  TCP_MSS ≤ w < 2 ^ 32 →
  0 ≤ TCP_MSS * TCP_MSS / w ≤ TCP_MSS ∧ u32 (TCP_MSS * TCP_MSS / w) = TCP_MSS * TCP_MSS / w.
Proof.
  intros Hw. assert (0 ≤ TCP_MSS * TCP_MSS / w ≤ TCP_MSS).
  { consts. split; [apply Z.div_pos; lia|]. apply Z.div_le_upper_bound; [lia|nia]. }
  split; [done|]. apply u32_small. unfold TCP_MSS in *. lia.
Qed.

(** The congestion step of an acknowledgement that is not a retransmission:
    at most one segment more. *)
Definition ack_grow (c : tcp_cong_data) : tcp_cong_data :=
  let c' := if decide (cong_state c = TCP_CONG_SLOW_START) then ack_slow_start c else c in
  if decide (cong_state c' = TCP_CONG_AVOIDANCE) then ack_avoidance c' else c'.

Lemma ack_grow_live n c :
  0 ≤ n → win_bound (n + 1) < 2 ^ 32 → live n c →
  TCP_MSS ≤ cwnd (ack_grow c) ≤ Z.max (cwnd c + TCP_MSS) (ssthresh c) ∧
  cwnd (ack_grow c) ≤ cwnd c + TCP_MSS ∧ ssthresh (ack_grow c) = ssthresh c ∧
  dup_ack_count (ack_grow c) = dup_ack_count c ∧ recover_seq (ack_grow c) = recover_seq c.
Proof.
  intros Hn HB [[Hc1 Hc2] [Hs1 Hs2]]. unfold ack_grow, win_bound in *.
  assert (TCP_INITIAL_SSTHRESH = 65535 ∧ TCP_MSS = 1460) as [E0 E1] by done.
  assert (∀ c', cwnd c' = cwnd c → TCP_MSS ≤ cwnd (ack_avoidance c') ≤ cwnd c + TCP_MSS) as Hav.
  { intros c' Ec. unfold ack_avoidance. rewrite Ec.
    destruct (increment_bounds (cwnd c)) as [B ->]; [lia|]. cbn [set_cwnd cwnd].
    destruct (_ =? 0); rewrite u32_small; lia. }
  destruct (decide (cong_state c = _)) as [Es|Es].
  - unfold ack_slow_start. destruct (cwnd c <? ssthresh c) eqn:L.
    + apply Z.ltb_lt in L. destruct (cwnd c <=? _) eqn:L2; [|apply Z.leb_gt in L2; unfold UINT32_MAX in L2; lia].
      cbn [set_cwnd cwnd ssthresh]. rewrite u32_small by lia.
      destruct (ssthresh c <? cwnd c + TCP_MSS) eqn:L3; apply Z.ltb_lt in L3 || apply Z.ltb_ge in L3;
        cbn [set_cwnd cwnd ssthresh cong_state]; rewrite Es;
        (destruct (decide (TCP_CONG_SLOW_START = TCP_CONG_AVOIDANCE)); [done|]);
        cbn [set_cwnd cwnd ssthresh dup_ack_count recover_seq]; split_and!; try done; lia.
    + destruct (decide _) as [_|N]; [|by destruct N]. specialize (Hav (set_cong TCP_CONG_AVOIDANCE c) eq_refl).
      split_and!; try done; lia.
  - destruct (decide _); [specialize (Hav c eq_refl)|]; split_and!; try done; lia.
Qed.

Lemma ack_count_frame a c :
  cwnd (ack_count a c) = cwnd c ∧ ssthresh (ack_count a c) = ssthresh c ∧
  cong_state (ack_count a c) = cong_state c ∧ recover_seq (ack_count a c) = recover_seq c ∧
  srto (ack_count a c) = srto c ∧ window_scale (ack_count a c) = window_scale c.
Proof. unfold ack_count. destruct (a =? _); [done|]. by destruct (_ <? _). Qed.

Lemma ack_grow_frame c :
  dup_ack_count (ack_grow c) = dup_ack_count c ∧ recover_seq (ack_grow c) = recover_seq c ∧
  srto (ack_grow c) = srto c ∧ window_scale (ack_grow c) = window_scale c.
Proof. unfold ack_grow, ack_slow_start, ack_avoidance. repeat case_match; done. Qed.

(** [on_ack_cd] by its outcomes: in recovery inflate and perhaps leave it,
    otherwise grow and perhaps retransmit. *)
Lemma on_ack_cd_eq a c :
  cwnd c ≠ 0 →
  on_ack_cd a c =
    let c0 := ack_count a c in
    if decide (cong_state c = TCP_CONG_RECOVERY) then
      let c2 := if 3 <=? dup_ack_count c0 then set_cwnd (u32 (cwnd c0 + TCP_MSS)) c0 else c0 in
      if recover_seq c <? a then ack_exit c2 else c2
    else let c1 := ack_grow c0 in if 3 <=? dup_ack_count c0 then ack_retransmit a c1 else c1.
Proof.
  intros Hc. unfold on_ack_cd. destruct (cwnd c =? 0) eqn:E; [apply Z.eqb_eq in E; lia|clear E].
  pose proof (ack_count_frame a c) as (_ & _ & ES & ER & _). cbv zeta.
  set (c0 := ack_count a c) in *.
  fold (ack_grow c0). pose proof (ack_grow_frame c0) as (ED & EG & _).
  destruct (decide (cong_state c = TCP_CONG_RECOVERY)) as [E|E].
  - assert (ack_grow c0 = c0) as ->.
    { unfold ack_grow. rewrite ES, E. simpl. by rewrite ES, E. }
    rewrite ES, E. rewrite (bool_decide_false (_ ≠ _)) by (intros N; by apply N).
    rewrite (bool_decide_true (_ = _)) by done.
    rewrite andb_false_r. rewrite !andb_true_l. destruct (3 <=? _); cbn [set_cwnd recover_seq]; by rewrite ER.
  - rewrite ES, ED. rewrite (bool_decide_true (_ ≠ _)) by done. rewrite (bool_decide_false (_ = _)) by done.
    rewrite andb_true_r, !andb_false_l. done.
Qed.

Lemma on_ack_live n a c :
  0 ≤ n → win_bound (n + 1) < 2 ^ 32 → live n c → live (n + 1) (on_ack_cd a c).
Proof.
  intros Hn HB HL. pose proof HL as [[Hc1 Hc2] [Hs1 Hs2]].
  assert (TCP_INITIAL_SSTHRESH = 65535 ∧ TCP_MSS = 1460) as [E0 E1] by done.
  rewrite on_ack_cd_eq by lia. cbv zeta.
  pose proof (ack_count_frame a c) as (F1 & F2 & _). set (c0 := ack_count a c) in *.
  assert (live n c0) as HL0 by (constructor; rewrite ?F1, ?F2; done).
  assert (∀ w, TCP_MSS ≤ w ≤ cwnd c0 + 5 * TCP_MSS ∨ w = ssthresh c0 → TCP_MSS ≤ w ≤ win_bound (n + 1)) as Hw
    by (unfold win_bound in *; lia).
  assert (win_bound n ≤ win_bound (n + 1)) by (unfold win_bound; lia).
  destruct (decide _).
  - assert (live (n + 1) (if 3 <=? dup_ack_count c0 then set_cwnd (u32 (cwnd c0 + TCP_MSS)) c0 else c0)) as [H2 H3].
    { destruct (3 <=? _); constructor; cbn [set_cwnd cwnd ssthresh]; try lia.
      rewrite u32_small by (unfold win_bound in *; lia). apply Hw. lia. }
    destruct (_ <? a); [|by constructor]. constructor; cbn [ack_exit set_acks set_cong set_cwnd cwnd ssthresh]; lia.
  - destruct (ack_grow_live n c0) as (G1 & G2 & G3 & _); [done..|].
    destruct (3 <=? _).
    + destruct (half_window_bounds (n + 1) (ack_grow c0)) as [B1 B2]; [constructor; unfold win_bound in *; lia|].
      constructor; cbn [ack_retransmit set_recover set_cong set_cwnd set_ssthresh cwnd ssthresh]; [|lia].
      rewrite u32_small by (unfold win_bound in *; lia). apply Hw. lia.
    + constructor; [|lia]. apply Hw. lia.
Qed.

Lemma on_ack_frame a c :
  srto (on_ack_cd a c) = srto c ∧ window_scale (on_ack_cd a c) = window_scale c.
Proof.
  destruct (decide (cwnd c = 0)) as [E|E]; [unfold on_ack_cd; rewrite E; done|].
  rewrite on_ack_cd_eq by done. cbv zeta.
  pose proof (ack_count_frame a c) as (_ & _ & _ & _ & F5 & F6).
  pose proof (ack_grow_frame (ack_count a c)) as (_ & _ & G3 & G4).
  repeat case_match; cbn [ack_exit ack_retransmit set_recover set_acks set_cong set_cwnd set_ssthresh srto window_scale];
    split; congruence.
Qed.

Lemma on_timeout_live n c :
  0 ≤ n → cwnd c ≠ 0 → live n c → timer_ok c →
  live n (on_timeout_cd c) ∧ timer_ok (on_timeout_cd c).
Proof.
  intros Hn HC HL HT. pose proof (half_window_bounds n c HL) as [B1 B2]. pose proof HL as [[Hc1 Hc2] [Hs1 Hs2]].
  destruct HT as [[_ ?]|HT]; [done|].
  unfold on_timeout_cd. destruct (cwnd c =? 0) eqn:E; [apply Z.eqb_eq in E; lia|].
  cbv zeta. split; [constructor|right]; cbn [set_measure set_acks set_cong set_rtt set_cwnd set_ssthresh cwnd ssthresh srto].
  - unfold win_bound in *. consts. lia.
  - lia.
  - consts. rewrite u32_small by lia. destruct (60000 <? _) eqn:L; apply Z.ltb_lt in L || apply Z.ltb_ge in L; lia.
Qed.

Lemma update_rtt_frame m c :
  cwnd (tcp_cong_update_rtt m c) = cwnd c ∧ ssthresh (tcp_cong_update_rtt m c) = ssthresh c ∧
  window_scale (tcp_cong_update_rtt m c) = window_scale c ∧
  (m ≠ 0 → TCP_RTO_MIN ≤ srto (tcp_cong_update_rtt m c) ≤ TCP_RTO_MAX).
Proof.
  unfold tcp_cong_update_rtt. destruct (m =? 0) eqn:E; [apply Z.eqb_eq in E; done|].
  destruct (if rtt c =? 0 then _ else _) as [r v]. cbv zeta.
  cbn [set_rtt cwnd ssthresh window_scale srto]. split_and!; [done..|]. intros _. consts.
  destruct (u32 _ <? 200) eqn:L1; destruct (60000 <? _) eqn:L2;
    repeat match goal with X : (_ <? _) = _ |- _ => apply Z.ltb_lt in X || apply Z.ltb_ge in X end; lia.
Qed.

(** ** The slot array under any sequence of calls *)
Lemma slot_ok_live n c : slot_ok n c → cwnd c ≠ 0 → live n c.
Proof. by intros [[?|?] _] ?. Qed.

Lemma slot_ok_mono n m c : n ≤ m → slot_ok n c → slot_ok m c.
Proof.
  intros Hle ([|[[? ?] [? ?]]] & HT & HW); (split; [|done]); [by left|right].
  constructor; unfold win_bound in *; consts; lia.
Qed.

Lemma on_slot_ok {A} n m sock (f : tcp_cong_data → A * tcp_cong_data) s :
  0 ≤ sock → length s = 16%nat → Forall (slot_ok n) s → n ≤ m →
  (∀ c, slot_ok n c → slot_ok m (f c).2) →
  ∃ a s', on_slot sock f s = Some (a, s') ∧ length s' = 16%nat ∧ Forall (slot_ok m) s'.
Proof.
  intros Hs HL HF Hle Hf. unfold on_slot, find_slot.
  pose proof (Z.rem_bound_pos sock MAX_TCP_CONG_SOCKETS Hs ltac:(done)) as HB.
  assert (MAX_TCP_CONG_SOCKETS = 16) as E16 by done. set (k := Z.rem sock MAX_TCP_CONG_SOCKETS) in *.
  destruct (k <? 0) eqn:E; [apply Z.ltb_lt in E; lia|].
  destruct (lookup_lt_is_Some_2 s (Z.to_nat k)) as [c Hc]; [lia|]. rewrite Hc.
  destruct (f c) as [a c'] eqn:Ef. exists a, (<[Z.to_nat k := c']> s).
  split; [done|]. rewrite length_insert. split; [done|].
  apply Forall_insert; [eapply Forall_impl; [done|]; intros; by eapply slot_ok_mono|].
  specialize (Hf c). rewrite Ef in Hf. apply Hf. eapply Forall_lookup_1 in HF; done.
Qed.

Lemma first_free_bounds i s k : first_free i s = Some k → i ≤ k < i + Z.of_nat (length s).
Proof.
  revert i. induction s as [|c s IH]; intros i; simpl; [done|].
  destruct (cd_free c); [intros [= <-]; lia|]. intros X%IH. lia.
Qed.

Lemma cd_fresh_ok n : 0 ≤ n → slot_ok n cd_fresh.
Proof.
  intros Hn. split; [right; constructor; unfold win_bound; simpl; consts; lia|].
  split; [right; simpl; consts; lia|simpl; lia].
Qed.

Lemma do_call_ok n e s :
  0 ≤ call_sock e → 0 ≤ n → win_bound (n + 1) < 2 ^ 32 → length s = 16%nat → Forall (slot_ok n) s →
  ∃ s', do_call e s = Some (tt, s') ∧ length s' = 16%nat ∧ Forall (slot_ok (n + 1)) s'.
Proof.
  intros Hs Hn HB HL HF.
  assert (∀ f, (∀ c, slot_ok n c → slot_ok (n + 1) (f c)) →
    ∃ s', on_slot (call_sock e) (λ c, (tt, f c)) s = Some (tt, s') ∧ length s' = 16%nat ∧
      Forall (slot_ok (n + 1)) s') as K.
  { intros f Hf. destruct (on_slot_ok n (n + 1) (call_sock e) (λ c, (tt, f c)) s) as ([] & s' & X); try done; [lia|].
    by exists s'. }
  assert (∀ c, slot_ok n c → slot_ok (n + 1) c) as Hm by (intros c; apply slot_ok_mono; lia).
  destruct e; simpl in Hs; cbn [do_call]; unfold tcp_cong_on_ack, tcp_cong_on_timeout, tcp_cong_set_window_scale,
    tcp_cong_start_rtt_measure, tcp_cong_complete_rtt_measure; try (apply K; clear K; intros c Hc).
  - unfold tcp_cong_socket_init. clear K.
    set (k := match first_free 0 s with Some i => i | None => find_slot sock end).
    assert (0 ≤ k < 16) as Hk.
    { unfold k. destruct (first_free 0 s) eqn:E; [apply first_free_bounds in E; lia|].
      unfold find_slot. pose proof (Z.rem_bound_pos sock MAX_TCP_CONG_SOCKETS). unfold MAX_TCP_CONG_SOCKETS in *. lia. }
    destruct (k <? 0) eqn:E; [apply Z.ltb_lt in E; lia|].
    eexists. split; [done|]. rewrite length_insert. split; [done|].
    apply Forall_insert; [by eapply Forall_impl|]. apply cd_fresh_ok. lia.
  - destruct (decide (cwnd c = 0)) as [E|E]; [unfold on_ack_cd; rewrite E; by apply Hm|].
    pose proof (slot_ok_live n c Hc E) as HLv. pose proof (on_ack_live n ack_seq c Hn HB HLv) as HLv'.
    destruct (on_ack_frame ack_seq c) as [F1 F2]. destruct Hc as (_ & [[_ ?]|HT] & HW); [done|].
    split; [by right|]. split; [right|]; congruence.
  - destruct (decide (cwnd c = 0)) as [E|E]; [unfold on_timeout_cd; rewrite E; by apply Hm|].
    pose proof (slot_ok_live n c Hc E) as HLv. apply Hm. pose proof Hc as (_ & HT & HW).
    destruct (on_timeout_live n c Hn E HLv HT). split; [by right|]. split; [done|].
    unfold on_timeout_cd. by destruct (cwnd c =? 0).
  - apply Hm. unfold set_window_scale_cd. destruct (0 <=? shift_cnt) eqn:E1; [|done].
    destruct (shift_cnt <=? 14) eqn:E2; [|done]. apply Z.leb_le in E1, E2.
    destruct Hc as ([Hc|[? ?]] & HT & HW); (split; [|split; [done|simpl; lia]]); [by left|right; by constructor].
  - apply Hm. unfold start_measure_cd. destruct (rtt_measuring c); [done|].
    destruct Hc as ([Hc|[? ?]] & HT & HW); (split; [|split; [done|simpl; lia]]); [by left|right; by constructor].
  - apply Hm. unfold complete_measure_cd. destruct (rtt_measuring c); [|done].
    destruct (update_rtt_frame measured_rtt c) as (F1 & F2 & F3 & F4).
    destruct Hc as (HL' & HT & HW). split; [|split; [|simpl; congruence]].
    + destruct HL' as [HL'|[? ?]]; [left; simpl; congruence|right; constructor; simpl; rewrite ?F1, ?F2; done].
    + destruct (decide (measured_rtt = 0)) as [->|N]; [exact HT|]. right. by apply F4.
Qed.

Lemma do_calls_ok n es s :
  Forall (λ e, 0 ≤ call_sock e) es → 0 ≤ n → win_bound (n + Z.of_nat (length es)) < 2 ^ 32 →
  length s = 16%nat → Forall (slot_ok n) s →
  ∃ s', do_calls es s = Some (tt, s') ∧ length s' = 16%nat ∧ Forall (slot_ok (n + Z.of_nat (length es))) s'.
Proof.
  revert n s. induction es as [|e es IH]; intros n s Hes Hn HB HL HF.
  - exists s. rewrite Z.add_0_r. done.
  - inversion Hes; subst. cbn [length do_calls] in *. rewrite Nat2Z.inj_succ in *.
    destruct (do_call_ok n e s) as (s1 & R1 & L1 & F1); try done; [unfold win_bound in *; consts; lia|].
    run R1. replace (n + Z.succ (Z.of_nat (length es))) with (n + 1 + Z.of_nat (length es)) in * by lia.
    apply IH; try done. lia.
Qed.

(** * Properties *)

(** C11: Whatever calls the stack makes for non-negative socket numbers after
    [tcp_cong_init] (opening, acknowledgements with any sequence numbers,
    timeouts, window-scale options, round-trip measurements), every call stays
    inside the slot array, and as long as there were at most 588000 of them
    each slot is either unused or has a congestion window between one segment
    and 65535 bytes plus five segments per call, a slow-start threshold of at
    least two segments, a retransmission timeout between 200 ms and 60 s, and
    a window scale of at most 14. *)
Theorem tcp_cong_invariant es s0 :
  Forall (λ e, 0 ≤ call_sock e) es → Z.of_nat (length es) ≤ 588000 →
  ∃ s, (tcp_cong_init ;;; do_calls es) s0 = Some (tt, s) ∧ length s = 16%nat ∧
    ∀ c, c ∈ s →
      (cwnd c = 0 ∨ TCP_MSS ≤ cwnd c ≤ 65535 + 5 * TCP_MSS * Z.of_nat (length es) ∧ 2 * TCP_MSS ≤ ssthresh c) ∧
      (srto c = 0 ∧ cwnd c = 0 ∨ TCP_RTO_MIN ≤ srto c ≤ TCP_RTO_MAX) ∧ 0 ≤ window_scale c ≤ 14.
Proof.
  intros Hes Hn. assert (Forall (slot_ok 0) (replicate 16 cd_zero)) as H0.
  { apply Forall_replicate. split; [by left|]. split; [by left|simpl; lia]. }
  destruct (do_calls_ok 0 es (replicate 16 cd_zero)) as (s & R & L & F); try done;
    [unfold win_bound; consts; lia|].
  exists s. split; [exact R|]. split; [exact L|]. intros c Hc. rewrite Forall_forall in F.
  destruct (F c Hc) as ([E|[E1 E2]] & HT & HW); (split; [|done]); [by left|right].
  unfold win_bound in *. consts. lia.
Qed.

Lemma tcp_cong_invariant_witness :
  ∃ s, (tcp_cong_init ;;; do_calls [Open 0; Ack 0 7; Scale 0 20; Start 0 7; Measured 0 3; Timeout 0]) [] = Some (tt, s) ∧
    length s = 16%nat ∧ ∃ c, c ∈ s ∧ cwnd c = TCP_MSS ∧ srto c = 400.
Proof.
  destruct (tcp_cong_invariant [Open 0; Ack 0 7; Scale 0 20; Start 0 7; Measured 0 3; Timeout 0] []) as (s & R & L & _).
  - repeat constructor; simpl; lia.
  - simpl. lia.
  - exists s. split; [exact R|]. split; [exact L|].
    vm_compute in R. injection R as <-. eexists. split; [left|]. split; reflexivity.
Defined.

(** Reno's growth of a window that is not being recovered, over unbounded
    integers. *)
Definition reno_grow (c : tcp_cong_data) : Z * tcp_cong_state :=
  match cong_state c with
  | TCP_CONG_SLOW_START =>
      if decide (cwnd c < ssthresh c) then (Z.min (cwnd c + TCP_MSS) (ssthresh c), TCP_CONG_SLOW_START)
      else (cwnd c + Z.max 1 (TCP_MSS * TCP_MSS / cwnd c), TCP_CONG_AVOIDANCE)
  | TCP_CONG_AVOIDANCE => (cwnd c + Z.max 1 (TCP_MSS * TCP_MSS / cwnd c), TCP_CONG_AVOIDANCE)
  | TCP_CONG_RECOVERY => (cwnd c, TCP_CONG_RECOVERY)
  end.

Lemma ack_grow_reno n c :
  0 ≤ n → win_bound (n + 1) < 2 ^ 32 → live n c →
  (cwnd (ack_grow c), cong_state (ack_grow c)) = reno_grow c.
Proof.
  intros Hn HB [[Hc1 Hc2] [Hs1 Hs2]]. unfold win_bound in *.
  assert (TCP_INITIAL_SSTHRESH = 65535 ∧ TCP_MSS = 1460) as [E0 E1] by done.
  assert (∀ c', cwnd c' = cwnd c → cwnd (ack_avoidance c') = cwnd c + Z.max 1 (TCP_MSS * TCP_MSS / cwnd c)) as Hav.
  { intros c' Ec. unfold ack_avoidance. rewrite Ec. destruct (increment_bounds (cwnd c)) as [B ->]; [lia|].
    cbn [set_cwnd cwnd]. destruct (_ =? 0) eqn:Z0; [apply Z.eqb_eq in Z0|apply Z.eqb_neq in Z0];
      rewrite u32_small; lia. }
  unfold ack_grow, reno_grow. destruct (cong_state c) eqn:Es.
  - destruct (decide (TCP_CONG_SLOW_START = TCP_CONG_SLOW_START)) as [_|N]; [|by destruct N].
    unfold ack_slow_start. destruct (decide (cwnd c < ssthresh c)) as [L|L].
    + rewrite (proj2 (Z.ltb_lt _ _) L). destruct (cwnd c <=? _) eqn:L2; [|apply Z.leb_gt in L2; unfold UINT32_MAX in L2; lia].
      cbn [set_cwnd cwnd ssthresh]. rewrite u32_small by lia.
      destruct (ssthresh c <? cwnd c + TCP_MSS) eqn:L3; apply Z.ltb_lt in L3 || apply Z.ltb_ge in L3;
        cbn [set_cwnd cong_state]; rewrite Es; (destruct (decide (TCP_CONG_SLOW_START = TCP_CONG_AVOIDANCE)); [done|]);
        cbn [set_cwnd cong_state cwnd]; rewrite Es; f_equal; lia.
    + rewrite (proj2 (Z.ltb_ge _ _)) by lia.
      destruct (decide (cong_state (set_cong TCP_CONG_AVOIDANCE c) = _)) as [_|N]; [|by destruct N].
      rewrite (Hav (set_cong TCP_CONG_AVOIDANCE c)) by done. done.
  - destruct (decide (TCP_CONG_AVOIDANCE = TCP_CONG_SLOW_START)); [done|]. rewrite Es.
    destruct (decide (TCP_CONG_AVOIDANCE = TCP_CONG_AVOIDANCE)); [|done].
    rewrite Hav by done. f_equal. unfold ack_avoidance. done.
  - destruct (decide (TCP_CONG_RECOVERY = TCP_CONG_SLOW_START)); [done|]. rewrite Es.
    destruct (decide (TCP_CONG_RECOVERY = TCP_CONG_AVOIDANCE)); [done|]. by rewrite Es.
Qed.

(** One acknowledgement does what Reno prescribes, while the window is in
    the range of [tcp_cong_invariant]. Outside recovery the window grows by
    one segment up to the threshold in slow start and by [MSS * MSS / cwnd]
    (at least one byte) in congestion avoidance; when the acknowledgement is
    the third duplicate, the grown window is halved into the threshold, never
    below two segments, and recovery starts with three segments more. In
    recovery each further duplicate adds a segment, and new data beyond the
    recovery point deflates the window to the threshold and resumes
    avoidance. *)
Theorem on_ack_reno n a c :
  0 ≤ n → win_bound (n + 1) < 2 ^ 32 → live n c → 0 ≤ dup_ack_count c < 2 ^ 31 - 1 →
  let c' := on_ack_cd a c in let '(w, ph) := reno_grow c in
  (cong_state c ≠ TCP_CONG_RECOVERY → last_ack c < a →
     cwnd c' = w ∧ cong_state c' = ph ∧ ssthresh c' = ssthresh c ∧ dup_ack_count c' = 0 ∧ last_ack c' = a) ∧
  (cong_state c ≠ TCP_CONG_RECOVERY → a = last_ack c → dup_ack_count c < 2 →
     cwnd c' = w ∧ cong_state c' = ph ∧ ssthresh c' = ssthresh c ∧ dup_ack_count c' = dup_ack_count c + 1) ∧
  (cong_state c ≠ TCP_CONG_RECOVERY → a = last_ack c → 2 ≤ dup_ack_count c →
     ssthresh c' = Z.max (w / 2) (2 * TCP_MSS) ∧ cwnd c' = ssthresh c' + 3 * TCP_MSS ∧
     cong_state c' = TCP_CONG_RECOVERY ∧ recover_seq c' = a) ∧
  (cong_state c = TCP_CONG_RECOVERY → a = last_ack c → 2 ≤ dup_ack_count c → a ≤ recover_seq c →
     cwnd c' = cwnd c + TCP_MSS ∧ ssthresh c' = ssthresh c ∧ cong_state c' = TCP_CONG_RECOVERY) ∧
  (cong_state c = TCP_CONG_RECOVERY → last_ack c < a → recover_seq c < a →
     cwnd c' = ssthresh c ∧ ssthresh c' = ssthresh c ∧ cong_state c' = TCP_CONG_AVOIDANCE ∧ dup_ack_count c' = 0).
Proof.
  intros Hn HB HL Hd. assert (TCP_INITIAL_SSTHRESH = 65535 ∧ TCP_MSS = 1460) as [E0 E1] by done.
  pose proof HL as [[Hc1 Hc2] [Hs1 Hs2]]. cbv zeta. rewrite on_ack_cd_eq by lia. cbv zeta.
  pose proof (ack_count_frame a c) as (F1 & F2 & F3 & F4 & _).
  assert (live n (ack_count a c)) as HL0 by (constructor; rewrite ?F1, ?F2; done).
  pose proof (ack_grow_reno n _ Hn HB HL0) as G. pose proof (ack_grow_frame (ack_count a c)) as (GD & GR & _).
  destruct (ack_grow_live n _ Hn HB HL0) as (GB & GB2 & GS & _).
  assert (reno_grow (ack_count a c) = reno_grow c) as GE by (unfold reno_grow; by rewrite F1, F2, F3).
  rewrite GE in G. destruct (reno_grow c) as [w ph]. injection G as G1 G2.
  assert (last_ack (ack_grow (ack_count a c)) = last_ack (ack_count a c)) as GL.
  { unfold ack_grow, ack_slow_start, ack_avoidance. by repeat case_match. }
  assert (last_ack c < a → dup_ack_count (ack_count a c) = 0 ∧ last_ack (ack_count a c) = a) as Cn.
  { intros L. unfold ack_count. destruct (a =? last_ack c) eqn:X; [apply Z.eqb_eq in X; lia|].
    by rewrite (proj2 (Z.ltb_lt _ _) L). }
  assert (a = last_ack c → dup_ack_count (ack_count a c) = dup_ack_count c + 1) as Cd.
  { intros L. unfold ack_count. rewrite (proj2 (Z.eqb_eq _ _) L). simpl. apply i32_small. lia. }
  split_and!.
  - intros Er L. destruct (Cn L) as [-> C2]. rewrite decide_False by done. simpl.
    split_and!; try congruence. by rewrite GD, (proj1 (Cn L)).
  - intros Er L Ld. rewrite (Cd L), decide_False by done. destruct (3 <=? _) eqn:X; [apply Z.leb_le in X; lia|].
    split_and!; try congruence. rewrite GD. by apply Cd.
  - intros Er L Ld. rewrite (Cd L), decide_False by done. rewrite (proj2 (Z.leb_le _ _)) by lia.
    cbn [ack_retransmit set_recover set_cong set_cwnd set_ssthresh cwnd ssthresh cong_state recover_seq].
    assert (half_window (ack_grow (ack_count a c)) = Z.max (w / 2) (2 * TCP_MSS)) as HW.
    { unfold half_window. rewrite G1. destruct (_ <? _) eqn:X; [apply Z.ltb_lt in X|apply Z.ltb_ge in X]; lia. }
    rewrite HW. split_and!; try done. apply u32_small.
    pose proof (Z.div_lt w 2 ltac:(lia) ltac:(lia)). unfold win_bound in *. lia.
  - intros Er L Ld LR. rewrite (Cd L), decide_True by done. rewrite (proj2 (Z.leb_le _ _)) by lia.
    rewrite (proj2 (Z.ltb_ge _ _)) by lia. cbn [set_cwnd cwnd ssthresh cong_state].
    split_and!; try congruence. rewrite F1. apply u32_small. unfold win_bound in *. lia.
  - intros Er L LR. destruct (Cn L) as [-> _]. rewrite decide_True by done. simpl.
    rewrite (proj2 (Z.ltb_lt _ _) LR). simpl. done.
Qed.

Lemma on_ack_reno_witness :
  let c := mk_cd 40000 20000 0 0 1000 0 false 2 7 0 TCP_CONG_AVOIDANCE 0 in
  ssthresh (on_ack_cd 7 c) = 20026 ∧ cwnd (on_ack_cd 7 c) = 24406 ∧ cong_state (on_ack_cd 7 c) = TCP_CONG_RECOVERY.
Proof.
  pose proof (on_ack_reno 5 7 (mk_cd 40000 20000 0 0 1000 0 false 2 7 0 TCP_CONG_AVOIDANCE 0)) as W.
  destruct W as (_ & _ & W & _).
  - lia.
  - reflexivity.
  - constructor; split; discriminate.
  - simpl. lia.
  - destruct W as (W1 & W2 & W3 & _); [discriminate|reflexivity|discriminate|]. cbv zeta.
    rewrite W2, W1, W3. vm_compute. tauto.
Defined.

(** [k] retransmission timeouts in a row. *)
Lemma on_timeout_eq c :
  cwnd c ≠ 0 → 0 ≤ cwnd c → 0 ≤ srto c ≤ TCP_RTO_MAX →
  let c' := on_timeout_cd c in
  cwnd c' = TCP_MSS ∧ ssthresh c' = Z.max (cwnd c / 2) (2 * TCP_MSS) ∧
  srto c' = Z.min (2 * srto c) TCP_RTO_MAX ∧ cong_state c' = TCP_CONG_SLOW_START ∧
  dup_ack_count c' = 0 ∧ rtt_measuring c' = false.
Proof.
  intros HC H0 HT. unfold on_timeout_cd. destruct (cwnd c =? 0) eqn:E; [apply Z.eqb_eq in E; lia|].
  cbv zeta. cbn [set_measure set_acks set_cong set_rtt set_cwnd set_ssthresh cwnd ssthresh srto cong_state dup_ack_count rtt_measuring].
  split_and!; try done.
  - unfold half_window. destruct (_ <? _) eqn:L; apply Z.ltb_lt in L || apply Z.ltb_ge in L; lia.
  - consts. rewrite u32_small by lia. destruct (60000 <? _) eqn:L; apply Z.ltb_lt in L || apply Z.ltb_ge in L; lia.
Qed.

(** [k + 1] timeouts in a row leave one segment of window, in slow start
    with no round trip being measured and no duplicates counted; the
    retransmission timeout has doubled each time up to 60 seconds, and the
    threshold is half the window of the last timeout, never below two
    segments. *)
Theorem on_timeout_backoff k c :
  0 < cwnd c → 0 ≤ srto c ≤ TCP_RTO_MAX →
  let c' := Nat.iter (S k) on_timeout_cd c in
  cwnd c' = TCP_MSS ∧ srto c' = Z.min (2 ^ Z.of_nat (S k) * srto c) TCP_RTO_MAX ∧
  ssthresh c' = (if decide (k = 0%nat) then Z.max (cwnd c / 2) (2 * TCP_MSS) else 2 * TCP_MSS) ∧
  cong_state c' = TCP_CONG_SLOW_START ∧ dup_ack_count c' = 0 ∧ rtt_measuring c' = false.
Proof.
  intros HC HT. induction k as [|k IH].
  - destruct (on_timeout_eq c) as (A & B & C & D); [lia..|]. cbv zeta.
    change (Nat.iter 1 on_timeout_cd c) with (on_timeout_cd c). rewrite A, B, C.
    split_and!; try done; tauto.
  - cbv zeta in *. rewrite Nat.iter_succ. set (c1 := Nat.iter (S k) on_timeout_cd c) in *.
    destruct IH as (I1 & I2 & _). assert (TCP_MSS = 1460 ∧ TCP_RTO_MAX = 60000) as [E1 E2] by done.
    assert (1 ≤ 2 ^ Z.of_nat (S k)) by (apply (Z.pow_le_mono_r 2 0); lia).
    destruct (on_timeout_eq c1) as (A & B & C & D); [rewrite ?I1, ?I2; nia..|].
    rewrite A, B, C, I1, I2. rewrite (Nat2Z.inj_succ (S k)), Z.pow_succ_r by lia.
    split_and!; try tauto. lia.
Qed.

Lemma on_timeout_backoff_witness :
  srto (Nat.iter 7 on_timeout_cd cd_fresh) = 60000 ∧ cwnd (Nat.iter 7 on_timeout_cd cd_fresh) = 1460.
Proof.
  destruct (on_timeout_backoff 6 cd_fresh) as (W1 & W2 & _); [reflexivity|split; discriminate|].
  split; [exact W2|exact W1].
Defined.

Lemma clamp_eq o :
  (let o := if o <? TCP_RTO_MIN then TCP_RTO_MIN else o in if TCP_RTO_MAX <? o then TCP_RTO_MAX else o) =
  Z.min (Z.max o TCP_RTO_MIN) TCP_RTO_MAX.
Proof.
  cbv zeta. assert (TCP_RTO_MIN = 200 ∧ TCP_RTO_MAX = 60000) as [E1 E2] by done.
  destruct (o <? TCP_RTO_MIN) eqn:L; apply Z.ltb_lt in L || apply Z.ltb_ge in L;
    match goal with |- context [?x <? ?y] => destruct (x <? y) eqn:L2 end;
    apply Z.ltb_lt in L2 || apply Z.ltb_ge in L2; lia.
Qed.

(** As long as the measured and the smoothed times stay below [2 ^ 28] ms no
    machine operation of the estimator wraps: the first sample sets the
    average and half of it as deviation, each later one moves the average an
    eighth and the deviation a quarter of the way (RFC 6298), both stay at
    most the largest time seen, and the timeout is [SRTT + 4 * RTTVAR]
    clamped to 200 ms .. 60 s. A measured time of zero changes nothing. *)
Theorem update_rtt_correct M m c :
  M ≤ 2 ^ 28 → 0 ≤ m ≤ M → 0 ≤ rtt c ≤ M → 0 ≤ rttvar c ≤ M →
  let c' := tcp_cong_update_rtt m c in
  (m = 0 → c' = c) ∧
  (m ≠ 0 →
    rtt c' = (if decide (rtt c = 0) then m else (7 * rtt c + m) / 8) ∧
    rttvar c' = (if decide (rtt c = 0) then m / 2 else (3 * rttvar c + Z.abs (m - rtt c)) / 4) ∧
    rtt c' ≤ M ∧ rttvar c' ≤ M ∧
    srto c' = Z.min (Z.max (rtt c' + 4 * rttvar c') TCP_RTO_MIN) TCP_RTO_MAX).
Proof.
  intros HM Hm Hr Hv. cbv zeta. unfold tcp_cong_update_rtt.
  destruct (m =? 0) eqn:E; [apply Z.eqb_eq in E; split; [done|lia]|apply Z.eqb_neq in E]. split; [done|intros _].
  set (p := if rtt c =? 0 then _ else _).
  assert (p = (if decide (rtt c = 0) then m else (7 * rtt c + m) / 8,
               if decide (rtt c = 0) then m / 2 else (3 * rttvar c + Z.abs (m - rtt c)) / 4)) as ->.
  { unfold p; clear p. destruct (decide (rtt c = 0)) as [->|N]; [done|]. rewrite (proj2 (Z.eqb_neq _ _) N).
    rewrite (i32_small m), (i32_small (rtt c)), (i32_small (m - rtt c)) by lia. cbv zeta.
    assert ((if m - rtt c <? 0 then i32 (- (m - rtt c)) else m - rtt c) = Z.abs (m - rtt c)) as ->.
    { destruct (m - rtt c <? 0) eqn:L; apply Z.ltb_lt in L || apply Z.ltb_ge in L; rewrite ?i32_small; lia. }
    rewrite (u32_small (Z.abs _)), (u32_small (7 * _)), (u32_small (3 * _)), !u32_small; [done|lia..]. }
  cbv beta iota zeta. cbn [set_rtt rtt rttvar srto]. rewrite <- clamp_eq. cbv zeta.
  destruct (decide (rtt c = 0)) as [R0|R0].
  - pose proof (Z.div_pos m 2). pose proof (Z.div_le_upper_bound m 2 M).
    rewrite (u32_small (4 * _)), u32_small by lia. split_and!; try done; lia.
  - pose proof (Z.div_pos (7 * rtt c + m) 8). pose proof (Z.div_le_upper_bound (7 * rtt c + m) 8 M).
    pose proof (Z.div_pos (3 * rttvar c + Z.abs (m - rtt c)) 4).
    pose proof (Z.div_le_upper_bound (3 * rttvar c + Z.abs (m - rtt c)) 4 M).
    rewrite (u32_small (4 * _)), u32_small by lia. split_and!; try done; lia.
Qed.

Lemma update_rtt_correct_witness :
  let c := mk_cd 2920 65535 80 10 1000 0 true 0 0 0 TCP_CONG_SLOW_START 0 in
  rtt (tcp_cong_update_rtt 160 c) = 90 ∧ rttvar (tcp_cong_update_rtt 160 c) = 27.
Proof.
  destruct (update_rtt_correct 1000 160 (mk_cd 2920 65535 80 10 1000 0 true 0 0 0 TCP_CONG_SLOW_START 0))
    as [_ W]; [lia|lia|simpl; lia|simpl; lia|].
  destruct W as (W1 & W2 & _); [lia|]. split; [exact W1|exact W2].
Defined.

(** Acknowledgements of the same sequence number after the third duplicate:
    every one adds a segment, modulo [2 ^ 32], while the window is not zero. *)
Lemma recovery_inflates a j c :
  cong_state c = TCP_CONG_RECOVERY → last_ack c = a → recover_seq c = a → 0 ≤ cwnd c < 2 ^ 32 →
  2 ≤ dup_ack_count c → dup_ack_count c + Z.of_nat j < 2 ^ 31 →
  (∀ i, 0 ≤ i < Z.of_nat j → cwnd c + i * TCP_MSS < 2 ^ 32) → 0 < cwnd c →
  let c' := Nat.iter j (on_ack_cd a) c in
  cong_state c' = TCP_CONG_RECOVERY ∧ last_ack c' = a ∧ recover_seq c' = a ∧
  dup_ack_count c' = dup_ack_count c + Z.of_nat j ∧ cwnd c' = u32 (cwnd c + Z.of_nat j * TCP_MSS).
Proof.
  intros Hst Hl Hr Hc Hd Hb Hi Hp. induction j as [|j IH].
  - cbv zeta. change (Nat.iter 0 (on_ack_cd a) c) with c. cbn [Z.of_nat]. rewrite Z.mul_0_l, Z.add_0_r, u32_small by lia.
    rewrite Z.add_0_r. done.
  - rewrite Nat2Z.inj_succ in *. destruct IH as (I1 & I2 & I3 & I4 & I5); [lia|intros; apply Hi; lia|].
    cbv zeta in *. rewrite Nat.iter_succ. set (c1 := Nat.iter j (on_ack_cd a) c) in *.
    assert (cwnd c + Z.of_nat j * TCP_MSS < 2 ^ 32) as Hj by (apply Hi; lia).
    assert (TCP_MSS = 1460) as E1 by done. rewrite u32_small in I5 by lia.
    rewrite on_ack_cd_eq by lia. cbv zeta. rewrite decide_True by done.
    assert (ack_count a c1 = set_acks (dup_ack_count c + Z.succ (Z.of_nat j)) a c1) as ->.
    { unfold ack_count. rewrite I2, Z.eqb_refl, I4, i32_small by lia. f_equal. lia. }
    cbn [set_acks dup_ack_count cwnd]. rewrite (proj2 (Z.leb_le _ _)) by lia.
    rewrite I3, Z.ltb_irrefl. cbn [set_cwnd set_acks cong_state last_ack recover_seq dup_ack_count cwnd].
    split_and!; try done. f_equal. lia.
Qed.

(** A concrete slot receiving once more the acknowledgement [a]. *)
Ltac same_ack a :=
  unfold on_ack_cd, ack_count; cbn [cwnd last_ack Z.eqb]; rewrite (Z.eqb_refl a); reflexivity.

(** Nothing bounds the inflation in recovery: a peer that opens a
    connection, acknowledges sequence number [a] once and then repeats that
    acknowledgement 2941756 times drives the window round the 32-bit boundary
    to 844 bytes, less than one segment. *)
Theorem recovery_window_wraps a n :
  0 < a < 2 ^ 32 → Z.of_nat n = 2941757 →
  let c := Nat.iter n (on_ack_cd a) cd_fresh in
  cwnd c = 844 ∧ cwnd c < TCP_MSS ∧ cong_state c = TCP_CONG_RECOVERY.
Proof.
  intros Ha Hn. cbv zeta.
  assert (Nat.iter 4 (on_ack_cd a) cd_fresh = mk_cd 8760 4380 0 0 1000 0 false 3 a a TCP_CONG_RECOVERY 0) as E.
  { change (Nat.iter 4 (on_ack_cd a) cd_fresh) with (on_ack_cd a (on_ack_cd a (on_ack_cd a (on_ack_cd a cd_fresh)))).
    assert (on_ack_cd a cd_fresh = mk_cd 4380 65535 0 0 1000 0 false 0 a 0 TCP_CONG_SLOW_START 0) as ->.
    { unfold on_ack_cd, ack_count. cbn [cwnd last_ack cd_fresh Z.eqb]. rewrite (proj2 (Z.eqb_neq a 0)) by lia.
      rewrite (proj2 (Z.ltb_lt 0 a)) by lia. reflexivity. }
    assert (on_ack_cd a (mk_cd 4380 65535 0 0 1000 0 false 0 a 0 TCP_CONG_SLOW_START 0) =
      mk_cd 5840 65535 0 0 1000 0 false 1 a 0 TCP_CONG_SLOW_START 0) as -> by same_ack a.
    assert (on_ack_cd a (mk_cd 5840 65535 0 0 1000 0 false 1 a 0 TCP_CONG_SLOW_START 0) =
      mk_cd 7300 65535 0 0 1000 0 false 2 a 0 TCP_CONG_SLOW_START 0) as -> by same_ack a.
    same_ack a. }
  set (c3 := mk_cd 8760 4380 0 0 1000 0 false 3 a a TCP_CONG_RECOVERY 0) in *.
  destruct (recovery_inflates a (n - 4) c3) as (R1 & _ & _ & _ & R5);
    [done|done|done|cbn [c3 cwnd dup_ack_count]; lia..| |cbn [c3 cwnd]; lia|].
  { intros i Hi. cbn [c3 cwnd]. unfold TCP_MSS. lia. }
  rewrite <- E, <- Nat.iter_add in R1, R5. replace (n - 4 + 4)%nat with n in R1, R5 by lia.
  assert (Z.of_nat (n - 4) = 2941753) as EN by lia. rewrite EN in R5.
  rewrite R5, E. split; [reflexivity|]. split; [reflexivity|exact R1].
Qed.

Lemma recovery_window_wraps_witness :
  cwnd (Nat.iter (N.to_nat 2941757) (on_ack_cd 1000) cd_fresh) = 844.
Proof.
  refine (proj1 (recovery_window_wraps 1000 (N.to_nat 2941757) (conj eq_refl eq_refl) _)). apply N_nat_Z.
Defined.

(** The effective window, from its machine operations. *)
Theorem effective_window_correct rcv c :
  0 ≤ rcv < 2 ^ 16 → 0 ≤ window_scale c ≤ 14 →
  effective_window rcv c = Z.max TCP_MSS (Z.min (cwnd c) (rcv * 2 ^ window_scale c)).
Proof.
  intros Hr Hw. unfold effective_window. rewrite Z.shiftl_mul_pow2 by lia.
  assert (0 < 2 ^ window_scale c ≤ 2 ^ 14) by (split; [lia|apply Z.pow_le_mono_r; lia]).
  rewrite u32_small by nia. cbv zeta. assert (TCP_MSS = 1460) as E1 by done.
  destruct (_ <? cwnd c) eqn:L; apply Z.ltb_lt in L || apply Z.ltb_ge in L;
    match goal with |- context [?x <? TCP_MSS] => destruct (x <? TCP_MSS) eqn:L2 end;
    apply Z.ltb_lt in L2 || apply Z.ltb_ge in L2; lia.
Qed.

(** The slot a socket is given at its opening is not the slot its later calls
    use: after [tcp_cong_init] and the opening of a socket whose number is not
    a multiple of 16, its acknowledgements and timeouts change nothing and its
    effective window is one segment, whatever the peer offers. *)
Theorem socket_init_other_slot sock a rcv s0 :
  0 ≤ sock → sock mod 16 ≠ 0 → 0 ≤ rcv < 2 ^ 16 →
  ∃ s, (tcp_cong_init ;;; tcp_cong_socket_init sock) s0 = Some (tt, s) ∧
    tcp_cong_on_ack sock a s = Some (tt, s) ∧ tcp_cong_on_timeout sock s = Some (tt, s) ∧
    tcp_cong_get_effective_window sock rcv s = Some (TCP_MSS, s) ∧ tcp_cong_get_rto sock s = Some (0, s).
Proof.
  intros Hs Hm Hr. exists (cd_fresh :: replicate 15 cd_zero). split; [done|].
  unfold tcp_cong_on_ack, tcp_cong_on_timeout, tcp_cong_get_effective_window, tcp_cong_get_rto, on_slot, find_slot.
  change MAX_TCP_CONG_SOCKETS with 16. rewrite Z.rem_mod_nonneg by lia.
  pose proof (Z.mod_pos_bound sock 16 ltac:(lia)).
  rewrite (proj2 (Z.ltb_ge _ 0)) by lia.
  assert (Z.to_nat (sock mod 16) = S (Z.to_nat (sock mod 16 - 1))) as -> by lia.
  assert (replicate 15 cd_zero !! Z.to_nat (sock mod 16 - 1) = Some cd_zero) as R
    by (apply lookup_replicate_2; lia).
  change ((cd_fresh :: replicate 15 cd_zero) !! S (Z.to_nat (sock mod 16 - 1)))
    with (replicate 15 cd_zero !! Z.to_nat (sock mod 16 - 1)). rewrite R.
  change (on_ack_cd a cd_zero) with cd_zero. change (on_timeout_cd cd_zero) with cd_zero.
  cbn [srto cd_zero]. rewrite list_insert_id by exact R.
  assert (effective_window rcv cd_zero = TCP_MSS) as ->.
  { rewrite effective_window_correct by (simpl; lia). unfold TCP_MSS. simpl. lia. }
  done.
Qed.
