(* ===== verification/PidAlloc.v ===== *)
(** * The PID allocator of kernel/sched.c: a bitmap of 8192 numbers with a
    rotating cursor, and the table from numbers to tasks. *)
From S2P Require Import Prelude RBTree.
Local Open Scope Z_scope.
Local Open Scope kernel_scope.

Definition MAX_PID : Z := 8192.
Definition PID_BITMAP_WORDS : Z := MAX_PID / 64.

Record pid_state := mk_pids {
  pid_bitmap : list Z;
  next_pid : Z;
  pid_table : gmap Z loc
}.
Definition PM := ST pid_state.

Definition set_bitmap b s := mk_pids b (next_pid s) (pid_table s).
Definition set_cursor n s := mk_pids (pid_bitmap s) n (pid_table s).
Definition set_pid_table t s := mk_pids (pid_bitmap s) (next_pid s) t.

(** [pid_bitmap[pid / 64]]; an index outside the array has no outcome. *)
Definition pid_word (pid : Z) : PM Z :=
  λ s, if pid / 64 <? 0 then None else
       match pid_bitmap s !! Z.to_nat (pid / 64) with Some w => Some (w, s) | None => None end.
Definition set_pid_word (pid w : Z) : PM unit :=
  modify (λ s, set_bitmap (<[Z.to_nat (pid / 64) := w]> (pid_bitmap s)) s).
(** [1ULL << (pid % 64)]. *)
Definition pid_mask (pid : Z) : Z := u64 (Z.shiftl 1 (pid mod 64)).

Definition pid_set_bit (pid : Z) : PM unit :=
  w <- pid_word pid ;; set_pid_word pid (Z.lor w (pid_mask pid)).
Definition pid_clear_bit (pid : Z) : PM unit :=
  w <- pid_word pid ;; set_pid_word pid (Z.land w (u64 (Z.lnot (pid_mask pid)))).
Definition pid_test_bit (pid : Z) : PM bool :=
  w <- pid_word pid ;; ret (negb (Z.land (Z.shiftr w (pid mod 64)) 1 =? 0)).

(** The attempts of [alloc_pid]. *)
Fixpoint alloc_attempt (n : nat) : PM Z :=
  match n with
  | O => ret (-1)
  | S n =>
      pid <- gets next_pid ;;
      modify (set_cursor (if MAX_PID <=? pid + 1 then 2 else pid + 1)) ;;;
      b <- pid_test_bit pid ;;
      if negb b then pid_set_bit pid ;;; ret pid else alloc_attempt n
  end.
Definition alloc_pid : PM Z :=
  pid_set_bit 0 ;;; pid_set_bit 1 ;;; alloc_attempt (Z.to_nat MAX_PID).

Definition free_pid (pid : Z) : PM unit :=
  if (2 <=? pid) && (pid <? MAX_PID) then
    pid_clear_bit pid ;;; modify (λ s, set_pid_table (delete pid (pid_table s)) s)
  else ret tt.

Definition pid_register (pid : Z) (t : loc) : PM unit :=
  if (0 <=? pid) && (pid <? MAX_PID) then modify (λ s, set_pid_table (<[pid := t]> (pid_table s)) s) else ret tt.

(** The reset at the start of [scheduler_init]. *)
Definition pid_reset : PM unit :=
  modify (λ s, mk_pids (replicate (Z.to_nat PID_BITMAP_WORDS) 0) (next_pid s) ∅) ;;;
  pid_set_bit 0 ;;; pid_set_bit 1.

(** ** The set of numbers in use *)
Definition pid_used (s : pid_state) (pid : Z) : bool :=
  match pid_bitmap s !! Z.to_nat (pid / 64) with Some w => Z.testbit w (pid mod 64) | None => false end.
Definition in_pids (pid : Z) : Prop := 0 ≤ pid < MAX_PID.

Record pid_ok (s : pid_state) : Prop := {
  pk_len : length (pid_bitmap s) = Z.to_nat PID_BITMAP_WORDS;
  pk_word : ∀ w, w ∈ pid_bitmap s → 0 ≤ w < 2 ^ 64;
  pk_next : 2 ≤ next_pid s < MAX_PID
}.

Lemma words_eq : PID_BITMAP_WORDS = 128. Proof. done. Qed.
Lemma max_pid_eq : MAX_PID = 8192. Proof. done. Qed.

Lemma pid_mask_eq pid : pid_mask pid = 2 ^ (pid mod 64).
Proof.
  pose proof (Z.mod_pos_bound pid 64 ltac:(lia)). unfold pid_mask, u64.
  rewrite Z.shiftl_1_l. apply Z.mod_small. split; [lia|]. apply Z.pow_lt_mono_r; lia.
Qed.

Lemma pid_word_ok s pid :
  pid_ok s → in_pids pid →
  ∃ w, pid_bitmap s !! Z.to_nat (pid / 64) = Some w ∧ pid_word pid s = Some (w, s) ∧ 0 ≤ w < 2 ^ 64.
Proof.
  intros [HL HW _] Hp. unfold in_pids in Hp. rewrite words_eq in HL. rewrite max_pid_eq in Hp.
  assert (0 ≤ pid / 64 < 128) by (split; [apply Z.div_pos|apply Z.div_lt_upper_bound]; lia).
  destruct (lookup_lt_is_Some_2 (pid_bitmap s) (Z.to_nat (pid / 64))) as [w Hw]; [lia|].
  exists w. split; [done|]. split; [|by eapply HW, list_elem_of_lookup_2].
  unfold pid_word. destruct (pid / 64 <? 0) eqn:E; [apply Z.ltb_lt in E; lia|]. by rewrite Hw.
Qed.

Lemma pid_index_inj p q : 0 ≤ p → 0 ≤ q → p / 64 = q / 64 → p mod 64 = q mod 64 → p = q.
Proof. intros. rewrite (Z.div_mod p 64), (Z.div_mod q 64) by lia. lia. Qed.

(** Replacing the word of [pid] by one that differs in its bit only. *)
Lemma pid_word_update s pid w w' b :
  pid_ok s → in_pids pid → pid_bitmap s !! Z.to_nat (pid / 64) = Some w → 0 ≤ w' < 2 ^ 64 →
  (∀ i, 0 ≤ i → Z.testbit w' i = if decide (i = pid mod 64) then b else Z.testbit w i) →
  let s' := set_bitmap (<[Z.to_nat (pid / 64) := w']> (pid_bitmap s)) s in
  pid_ok s' ∧ ∀ q, in_pids q → pid_used s' q = if decide (q = pid) then b else pid_used s q.
Proof.
  intros HK Hp Hw Hw' Hb. pose proof HK as [HL HW HN]. cbv zeta. split.
  - constructor; cbn [set_bitmap pid_bitmap next_pid]; [by rewrite length_insert| |done].
    intros v [i Hi]%list_elem_of_lookup. destruct (decide (i = Z.to_nat (pid / 64))) as [->|Hne].
    + rewrite list_lookup_insert_eq in Hi by (by apply lookup_lt_Some in Hw). by injection Hi as <-.
    + rewrite list_lookup_insert_ne in Hi by done. by eapply HW, list_elem_of_lookup_2.
  - intros q Hq. unfold in_pids in *. unfold pid_used. cbn [set_bitmap pid_bitmap].
    pose proof (Z.div_pos pid 64). pose proof (Z.div_pos q 64).
    destruct (decide (q / 64 = pid / 64)) as [E|E].
    + rewrite E, list_lookup_insert_eq by (by apply lookup_lt_Some in Hw). rewrite Hw, Hb by (apply Z.mod_pos_bound; lia).
      destruct (decide (q = pid)) as [->|Hne]; [by rewrite decide_True|]. rewrite decide_False; [done|].
      intros X. apply Hne, pid_index_inj; [lia..|done|done].
    + rewrite list_lookup_insert_ne by lia. rewrite decide_False; [done|]. by intros ->.
Qed.

Lemma pid_set_bit_ok s pid :
  pid_ok s → in_pids pid →
  ∃ s', pid_set_bit pid s = Some (tt, s') ∧ pid_ok s' ∧ next_pid s' = next_pid s ∧ pid_table s' = pid_table s ∧
    ∀ q, in_pids q → pid_used s' q = if decide (q = pid) then true else pid_used s q.
Proof.
  intros HK Hp. destruct (pid_word_ok s pid HK Hp) as (w & Hw & R & HB).
  pose proof (Z.mod_pos_bound pid 64 ltac:(lia)) as HM.
  destruct (pid_word_update s pid w (Z.lor w (pid_mask pid)) true HK Hp Hw) as [HK' HU].
  - rewrite pid_mask_eq. assert (0 ≤ 2 ^ (pid mod 64) < 2 ^ 64) as HP by (split; [lia|apply Z.pow_lt_mono_r; lia]).
    split; [apply Z.lor_nonneg; lia|]. destruct (Z.eq_dec (Z.lor w (2 ^ (pid mod 64))) 0) as [->|]; [lia|].
    apply Z.log2_lt_pow2; [|rewrite Z.log2_lor by lia; apply Z.max_lub_lt].
    + pose proof (proj2 (Z.lor_nonneg w (2 ^ (pid mod 64)))). lia.
    + destruct (Z.eq_dec w 0) as [->|]; [simpl; lia|]. apply Z.log2_lt_pow2; lia.
    + rewrite Z.log2_pow2; lia.
  - intros i Hi. rewrite Z.lor_spec, pid_mask_eq, Z.pow2_bits_eqb by lia.
    destruct (decide (i = pid mod 64)) as [->|Hne]; [by rewrite Z.eqb_refl, orb_true_r|].
    rewrite (proj2 (Z.eqb_neq _ _)) by lia. by rewrite orb_false_r.
  - eexists. split; [unfold pid_set_bit; run R; done|]. done.
Qed.

Lemma pid_clear_bit_ok s pid :
  pid_ok s → in_pids pid →
  ∃ s', pid_clear_bit pid s = Some (tt, s') ∧ pid_ok s' ∧ next_pid s' = next_pid s ∧ pid_table s' = pid_table s ∧
    ∀ q, in_pids q → pid_used s' q = if decide (q = pid) then false else pid_used s q.
Proof.
  intros HK Hp. destruct (pid_word_ok s pid HK Hp) as (w & Hw & R & HB).
  pose proof (Z.mod_pos_bound pid 64 ltac:(lia)) as HM.
  assert (∀ i, 0 ≤ i → Z.testbit (Z.land w (u64 (Z.lnot (pid_mask pid)))) i =
    if decide (i = pid mod 64) then false else Z.testbit w i) as HT.
  { intros i Hi. rewrite Z.land_spec. unfold u64. destruct (decide (i < 64)) as [L|L].
    - rewrite Z.mod_pow2_bits_low, Z.lnot_spec, pid_mask_eq, Z.pow2_bits_eqb by lia.
      destruct (decide (i = pid mod 64)) as [->|Hne]; [by rewrite Z.eqb_refl, andb_false_r|].
      rewrite (proj2 (Z.eqb_neq _ _)) by lia. by rewrite andb_true_r.
    - rewrite Z.mod_pow2_bits_high, andb_false_r by lia. rewrite decide_False by lia.
      symmetry. rewrite <- (Z.mod_small w (2 ^ 64)) by lia. apply Z.mod_pow2_bits_high. lia. }
  destruct (pid_word_update s pid w (Z.land w (u64 (Z.lnot (pid_mask pid)))) false HK Hp Hw) as [HK' HU].
  - unfold u64. rewrite <- Z.land_ones, Z.land_assoc, Z.land_ones by lia. apply Z.mod_pos_bound. lia.
  - done.
  - eexists. split; [unfold pid_clear_bit; run R; done|]. done.
Qed.

Lemma pid_test_bit_ok s pid : pid_ok s → in_pids pid → pid_test_bit pid s = Some (pid_used s pid, s).
Proof.
  intros HK Hp. destruct (pid_word_ok s pid HK Hp) as (w & Hw & R & HB).
  unfold pid_test_bit. run R. unfold ret, pid_used. rewrite Hw. do 2 f_equal.
  change 1 with (Z.ones 1). rewrite Z.land_ones by lia. change (2 ^ 1) with 2.
  rewrite <- (Z.add_0_l (pid mod 64)) at 2. pose proof (Z.mod_pos_bound pid 64 ltac:(lia)).
  rewrite <- Z.shiftr_spec, Z.bit0_odd by lia. set (v := Z.shiftr w (pid mod 64)).
  rewrite Zmod_odd. by destruct (Z.odd v).
Qed.

(** ** The rotation *)

(** The [k]-th number after the cursor [n], going round 2..8191. *)
Definition pid_after (n k : Z) : Z := 2 + (n - 2 + k) mod (MAX_PID - 2).

Lemma pid_after_range n k : 2 ≤ pid_after n k < MAX_PID.
Proof. unfold pid_after. rewrite max_pid_eq. pose proof (Z.mod_pos_bound (n - 2 + k) (8192 - 2)). lia. Qed.
Lemma pid_after_0 n : 2 ≤ n < MAX_PID → pid_after n 0 = n.
Proof. unfold pid_after. rewrite max_pid_eq. intros. rewrite Z.mod_small; lia. Qed.
Lemma pid_after_step n : 2 ≤ n < MAX_PID → pid_after n 1 = if MAX_PID <=? n + 1 then 2 else n + 1.
Proof.
  unfold pid_after. rewrite max_pid_eq. intros H.
  destruct (Z.leb_spec 8192 (n + 1)).
  - replace (n - 2 + 1) with (8192 - 2) by lia. done.
  - rewrite Z.mod_small; lia.
Qed.
Lemma pid_after_after n j k : pid_after (pid_after n j) k = pid_after n (j + k).
Proof.
  unfold pid_after. replace (2 + (n - 2 + j) mod (MAX_PID - 2) - 2 + k) with ((n - 2 + j) mod (MAX_PID - 2) + k) by lia.
  rewrite Zplus_mod_idemp_l. do 2 f_equal. lia.
Qed.
(** 8190 steps visit every number. *)
Lemma pid_after_onto n p :
  2 ≤ n < MAX_PID → 2 ≤ p < MAX_PID → ∃ k, 0 ≤ k < MAX_PID - 2 ∧ pid_after n k = p.
Proof.
  intros Hn Hp. exists ((p - n) mod (MAX_PID - 2)). split; [apply Z.mod_pos_bound; rewrite max_pid_eq; lia|].
  unfold pid_after. rewrite Zplus_mod_idemp_r. replace (n - 2 + (p - n)) with (p - 2) by lia.
  rewrite Z.mod_small; lia.
Qed.

(** [r] is the first unused number from the cursor on, and it was taken. *)
Definition pid_taken (s : pid_state) (r : Z) (s' : pid_state) : Prop :=
  ∃ k, 0 ≤ k ∧ r = pid_after (next_pid s) k ∧ pid_used s r = false ∧
    (∀ j, 0 ≤ j < k → pid_used s (pid_after (next_pid s) j) = true) ∧
    next_pid s' = pid_after (next_pid s) (k + 1) ∧
    ∀ q, in_pids q → pid_used s' q = if decide (q = r) then true else pid_used s q.

Lemma alloc_attempt_ok n s :
  pid_ok s →
  ∃ r s', alloc_attempt n s = Some (r, s') ∧ pid_ok s' ∧ pid_table s' = pid_table s ∧
    (pid_taken s r s' ∨
     r = -1 ∧ (∀ j, 0 ≤ j < Z.of_nat n → pid_used s (pid_after (next_pid s) j) = true) ∧
     ∀ q, in_pids q → pid_used s' q = pid_used s q).
Proof.
  revert s. induction n as [|n IH]; intros s HK.
  - exists (-1), s. split_and!; try done. right. split_and!; [done|lia|done].
  - pose proof (pk_next _ HK) as HN. cbn [alloc_attempt]. rewrite bind_gets, bind_modify.
    rewrite <- pid_after_step by done. set (s1 := set_cursor (pid_after (next_pid s) 1) s).
    assert (pid_ok s1) as HK1 by (destruct HK; constructor; cbn; [done|done|apply pid_after_range]).
    assert (in_pids (next_pid s)) as Hin by (unfold in_pids; lia).
    rewrite (bind_Some _ _ _ _ _ (pid_test_bit_ok s1 _ HK1 Hin)).
    change (pid_used s1 (next_pid s)) with (pid_used s (next_pid s)).
    destruct (pid_used s (next_pid s)) eqn:U; cbn [negb].
    + destruct (IH s1 HK1) as (r & s' & R & HK' & HT & [T|(-> & A & B)]); exists r || exists (-1); exists s';
        (split; [exact R|]); (split; [done|]); (split; [done|]).
      * left. destruct T as (k & Hk & E & U' & Hj & N' & Q). cbn [s1 set_cursor next_pid] in *.
        exists (k + 1). rewrite pid_after_after in E, N'. replace (1 + (k + 1)) with (k + 1 + 1) in N' by lia.
        replace (1 + k) with (k + 1) in E by lia. split_and!; try done; [lia|].
        intros j Hj'. destruct (decide (j = 0)) as [->|]; [by rewrite pid_after_0|].
        specialize (Hj (j - 1) ltac:(lia)). rewrite pid_after_after in Hj. by replace (1 + (j - 1)) with j in Hj by lia.
      * right. split; [done|]. split; [|done]. intros j Hj'.
        destruct (decide (j = 0)) as [->|]; [by rewrite pid_after_0|].
        specialize (A (j - 1) ltac:(lia)). cbn [s1 set_cursor next_pid] in A. rewrite pid_after_after in A.
        by replace (1 + (j - 1)) with j in A by lia.
    + destruct (pid_set_bit_ok s1 (next_pid s) HK1 Hin) as (s' & R & HK' & N' & T' & Q').
      exists (next_pid s), s'. split; [by run R|]. split_and!; try done. left. exists 0.
      split_and!; try done; [by rewrite pid_after_0|lia].
Qed.

(** The state after bits 0 and 1 are set again. *)
Lemma alloc_pid_reserve s :
  pid_ok s →
  ∃ s1, (pid_set_bit 0 ;;; pid_set_bit 1) s = Some (tt, s1) ∧ pid_ok s1 ∧ next_pid s1 = next_pid s ∧
    pid_table s1 = pid_table s ∧
    ∀ q, in_pids q → pid_used s1 q = if decide (q = 0 ∨ q = 1) then true else pid_used s q.
Proof.
  intros HK. destruct (pid_set_bit_ok s 0 HK) as (s0 & R0 & HK0 & N0 & T0 & Q0); [done|].
  destruct (pid_set_bit_ok s0 1 HK0) as (s1 & R1 & HK1 & N1 & T1 & Q1); [done|].
  exists s1. split; [by run R0|]. split_and!; [done|congruence..|].
  intros q Hq. rewrite Q1, Q0 by done. repeat case_decide; try done; lia.
Qed.

Lemma alloc_pid_ok s :
  pid_ok s →
  ∃ r s', alloc_pid s = Some (r, s') ∧ pid_ok s' ∧ pid_table s' = pid_table s ∧
    ((2 ≤ r < MAX_PID ∧ (∃ k, 0 ≤ k ∧ r = pid_after (next_pid s) k ∧ next_pid s' = pid_after r 1 ∧
        ∀ j, 0 ≤ j < k → pid_used s (pid_after (next_pid s) j) = true) ∧
      pid_used s r = false ∧
      ∀ q, in_pids q → pid_used s' q = if decide (q = r ∨ q = 0 ∨ q = 1) then true else pid_used s q) ∨
     (r = -1 ∧ ∀ q, 2 ≤ q < MAX_PID → pid_used s q = true)).
Proof.
  intros HK. destruct (alloc_pid_reserve s HK) as (s1 & R1 & HK1 & N1 & T1 & Q1).
  destruct (alloc_attempt_ok (Z.to_nat MAX_PID) s1 HK1) as (r & s' & R & HK' & T' & H).
  exists r, s'. split; [unfold alloc_pid; unfold bind in R1 |- *;
    destruct (pid_set_bit 0 s) as [[[] s0]|]; [|done]; by rewrite R1|].
  split; [done|]. split; [congruence|].
  assert (∀ k, pid_used s1 (pid_after (next_pid s) k) = pid_used s (pid_after (next_pid s) k)) as HU.
  { intros k. pose proof (pid_after_range (next_pid s) k). rewrite Q1 by (unfold in_pids; lia).
    rewrite decide_False; [done|lia]. }
  destruct H as [(k & Hk & E & U & Hj & N' & Q)|(-> & A & _)]; rewrite N1 in *.
  - left. pose proof (pid_after_range (next_pid s) k) as HR. rewrite <- E in HR. split; [done|].
    rewrite E, HU, <- E in U. split; [|split; [done|]].
    + exists k. split_and!; [done|done|by rewrite N', E, pid_after_after|].
      intros j Hj'. rewrite <- HU. by apply Hj.
    + intros q Hq. rewrite Q, Q1 by done. repeat case_decide; try done; tauto.
  - right. split; [done|]. intros q Hq.
    destruct (pid_after_onto (next_pid s) q) as (k & Hk & <-); [apply (pk_next _ HK)|done|].
    rewrite <- HU. apply A. rewrite max_pid_eq in *. lia.
Qed.

Lemma free_pid_ok s pid :
  pid_ok s →
  ∃ s', free_pid pid s = Some (tt, s') ∧ pid_ok s' ∧
    (if decide (2 ≤ pid < MAX_PID) then
       pid_table s' = delete pid (pid_table s) ∧
       ∀ q, in_pids q → pid_used s' q = if decide (q = pid) then false else pid_used s q
     else s' = s).
Proof.
  intros HK. unfold free_pid. case_decide as HD.
  - rewrite (proj2 (Z.leb_le _ _)), (proj2 (Z.ltb_lt _ _)) by lia. cbn [andb].
    destruct (pid_clear_bit_ok s pid HK) as (s1 & R & HK1 & N1 & T1 & Q1); [unfold in_pids; lia|].
    run R. eexists. split; [done|]. split; [by destruct HK1; constructor|].
    cbn [set_pid_table pid_table]. split; [congruence|done].
  - exists s. destruct ((2 <=? pid) && (pid <? MAX_PID)) eqn:E; [|done].
    apply andb_prop in E as [E1%Z.leb_le E2%Z.ltb_lt]. lia.
Qed.

Lemma pid_reset_ok s :
  2 ≤ next_pid s < MAX_PID →
  ∃ s', pid_reset s = Some (tt, s') ∧ pid_ok s' ∧ pid_table s' = ∅ ∧ next_pid s' = next_pid s ∧
    ∀ q, in_pids q → pid_used s' q = bool_decide (q = 0 ∨ q = 1).
Proof.
  intros HN. unfold pid_reset. rewrite bind_modify. set (s0 := mk_pids _ _ _).
  assert (pid_ok s0) as HK0.
  { constructor; [done| |done]. intros w [-> _]%elem_of_replicate. lia. }
  destruct (alloc_pid_reserve s0 HK0) as (s1 & R & HK1 & N1 & T1 & Q1). exists s1. split; [exact R|].
  split_and!; [done|done|done|]. intros q Hq. rewrite Q1 by done.
  case_decide as HD; [by rewrite bool_decide_true|rewrite bool_decide_false by done].
  unfold pid_used. cbn [s0 pid_bitmap]. destruct (replicate _ 0 !! _) as [w|] eqn:E; [|done].
  apply lookup_replicate in E as [-> _]. apply Z.testbit_0_l.
Qed.

(** ** Properties *)

(** In any state of the bitmap [alloc_pid] returns; its result is the first
    number from the rotating cursor on that was free, between 2 and 8191, and
    it marks that number and nothing else (0 and 1 apart, which it reserves);
    it returns -1 exactly when all the numbers from 2 to 8191 are in use.
    Giving the number back with [free_pid] restores the set of used numbers. *)
Theorem alloc_pid_correct s :
  pid_ok s → pid_used s 0 = true → pid_used s 1 = true →
  ∃ r s', alloc_pid s = Some (r, s') ∧ pid_ok s' ∧ pid_table s' = pid_table s ∧
    (r = -1 ↔ ∀ q, 2 ≤ q < MAX_PID → pid_used s q = true) ∧
    (r ≠ -1 → 2 ≤ r < MAX_PID ∧ pid_used s r = false ∧
       (∃ k, 0 ≤ k ∧ r = pid_after (next_pid s) k ∧ next_pid s' = pid_after r 1 ∧
          ∀ j, 0 ≤ j < k → pid_used s (pid_after (next_pid s) j) = true) ∧
       (∀ q, in_pids q → pid_used s' q = if decide (q = r) then true else pid_used s q) ∧
       ∃ s2, free_pid r s' = Some (tt, s2) ∧ pid_ok s2 ∧ ∀ q, in_pids q → pid_used s2 q = pid_used s q).
Proof.
  intros HK U0 U1. destruct (alloc_pid_ok s HK) as (r & s' & R & HK' & HT & H). exists r, s'.
  split_and!; try done.
  - destruct H as [(HR & _ & U & _)|[-> A]]; [|done]. split; [lia|]. intros A. rewrite A in U; [done|lia].
  - intros Hr. destruct H as [(HR & K & U & Q)|[-> _]]; [|done]. do 3 (split; [done|]).
    assert (∀ q, in_pids q → pid_used s' q = if decide (q = r) then true else pid_used s q) as Q'.
    { intros q Hq. rewrite Q by done. repeat case_decide; try done; try tauto.
      destruct H as [?|[?|?]]; [tauto|subst q; done..]. }
    split; [done|]. destruct (free_pid_ok s' r HK') as (s2 & R2 & HK2 & F).
    rewrite decide_True in F by lia. destruct F as [_ F]. exists s2. split; [done|]. split; [done|].
    intros q Hq. rewrite F, Q' by done. by repeat case_decide; subst.
Qed.

(** The state after [scheduler_init]'s reset, by evaluation. *)
Definition pids0 : pid_state := mk_pids (3 :: replicate 127 0) 2 ∅.
Lemma pids0_ok : pid_ok pids0.
Proof. constructor; [done| |done]. intros w [->|[-> _]%elem_of_replicate]%elem_of_cons; lia. Qed.

Lemma alloc_pid_correct_witness :
  ∃ s', alloc_pid pids0 = Some (2, s') ∧ next_pid s' = 3 ∧ pid_used s' 2 = true.
Proof.
  destruct (alloc_pid_correct pids0) as (r & s' & R & _ & _ & _ & H).
  - exact pids0_ok.
  - done.
  - done.
  - exists s'. assert (r = 2) as -> by (vm_compute in R; congruence).
    split; [exact R|]. destruct H as (_ & _ & (k & _ & _ & N & _) & Q & _); [done|].
    split; [exact N|]. rewrite Q by done. done.
Defined.
