(* ===== verification/Task.v ===== *)
(** * Tasks: the data of kernel/sched.h and kernel/signal.h and the state of
    kernel/sched.c.

    A task is an address in [tasks]; its [rb_node] member lives at the same
    address in [rbs].  A freed [struct task_struct] is an absent address, so a
    use after free has no outcome. *)
From S2P Require Import Prelude RBTree PidAlloc Files.
Local Open Scope Z_scope.
Local Open Scope kernel_scope.

Definition MAX_CPUS : Z := 8.
Definition BASE_SLICE : Z := 10.
Definition NSIG : Z := 32.
Definition SIGKILL : Z := 9.
Definition SIGCHLD : Z := 17.
Definition SIG_DFL : Z := 0.
Definition SIG_IGN : Z := 1.

Inductive task_state := TASK_RUNNING | TASK_READY | TASK_BLOCKED | TASK_ZOMBIE | TASK_DEAD.
#[export] Instance task_state_eq_dec : EqDecision task_state.
Proof. solve_decision. Defined.

(** [struct sigaction] and [struct signal_state]. *)
Record sigaction := mk_sa { sa_handler : Z; sa_flags : Z; sa_mask : Z }.
Record signal_state := mk_sig {
  actions : list sigaction;
  sig_pending : Z;
  sig_blocked : Z;
  saved_rsp : Z;
  saved_rip : Z
}.

(** [struct task_struct], the members sched.c and signal.c work with.
    [t_children] is the list of [struct child_node] in order. *)
Record task := mk_task {
  t_pid : Z;
  t_state : task_state;
  t_exit_code : Z;
  t_parent : ptr;
  t_children : list loc;
  t_next : ptr;
  t_priority : Z;
  t_time_slice : Z;
  t_vruntime : Z;
  t_need_resched : bool;
  t_preempt_count : Z;
  t_sleep_until : Z;
  t_sig : option signal_state;
  t_cr3 : Z;
  t_stack_phys : option Z;
  t_cpu_ticks : Z;
  t_cswitch_count : Z
}.

Definition set_state v t := mk_task (t_pid t) v (t_exit_code t) (t_parent t) (t_children t) (t_next t)
  (t_priority t) (t_time_slice t) (t_vruntime t) (t_need_resched t) (t_preempt_count t) (t_sleep_until t)
  (t_sig t) (t_cr3 t) (t_stack_phys t) (t_cpu_ticks t) (t_cswitch_count t).
Definition set_exit_code v t := mk_task (t_pid t) (t_state t) v (t_parent t) (t_children t) (t_next t)
  (t_priority t) (t_time_slice t) (t_vruntime t) (t_need_resched t) (t_preempt_count t) (t_sleep_until t)
  (t_sig t) (t_cr3 t) (t_stack_phys t) (t_cpu_ticks t) (t_cswitch_count t).
Definition set_parent v t := mk_task (t_pid t) (t_state t) (t_exit_code t) v (t_children t) (t_next t)
  (t_priority t) (t_time_slice t) (t_vruntime t) (t_need_resched t) (t_preempt_count t) (t_sleep_until t)
  (t_sig t) (t_cr3 t) (t_stack_phys t) (t_cpu_ticks t) (t_cswitch_count t).
Definition set_children v t := mk_task (t_pid t) (t_state t) (t_exit_code t) (t_parent t) v (t_next t)
  (t_priority t) (t_time_slice t) (t_vruntime t) (t_need_resched t) (t_preempt_count t) (t_sleep_until t)
  (t_sig t) (t_cr3 t) (t_stack_phys t) (t_cpu_ticks t) (t_cswitch_count t).
Definition set_next v t := mk_task (t_pid t) (t_state t) (t_exit_code t) (t_parent t) (t_children t) v
  (t_priority t) (t_time_slice t) (t_vruntime t) (t_need_resched t) (t_preempt_count t) (t_sleep_until t)
  (t_sig t) (t_cr3 t) (t_stack_phys t) (t_cpu_ticks t) (t_cswitch_count t).
Definition set_time_slice v t := mk_task (t_pid t) (t_state t) (t_exit_code t) (t_parent t) (t_children t)
  (t_next t) (t_priority t) v (t_vruntime t) (t_need_resched t) (t_preempt_count t) (t_sleep_until t) (t_sig
  t) (t_cr3 t) (t_stack_phys t) (t_cpu_ticks t) (t_cswitch_count t).
Definition set_vruntime v t := mk_task (t_pid t) (t_state t) (t_exit_code t) (t_parent t) (t_children t)
  (t_next t) (t_priority t) (t_time_slice t) v (t_need_resched t) (t_preempt_count t) (t_sleep_until t) (t_sig
  t) (t_cr3 t) (t_stack_phys t) (t_cpu_ticks t) (t_cswitch_count t).
Definition set_need_resched v t := mk_task (t_pid t) (t_state t) (t_exit_code t) (t_parent t) (t_children t)
  (t_next t) (t_priority t) (t_time_slice t) (t_vruntime t) v (t_preempt_count t) (t_sleep_until t) (t_sig t)
  (t_cr3 t) (t_stack_phys t) (t_cpu_ticks t) (t_cswitch_count t).
Definition set_preempt_count v t := mk_task (t_pid t) (t_state t) (t_exit_code t) (t_parent t) (t_children t)
  (t_next t) (t_priority t) (t_time_slice t) (t_vruntime t) (t_need_resched t) v (t_sleep_until t) (t_sig t)
  (t_cr3 t) (t_stack_phys t) (t_cpu_ticks t) (t_cswitch_count t).
Definition set_sleep_until v t := mk_task (t_pid t) (t_state t) (t_exit_code t) (t_parent t) (t_children t)
  (t_next t) (t_priority t) (t_time_slice t) (t_vruntime t) (t_need_resched t) (t_preempt_count t) v (t_sig t)
  (t_cr3 t) (t_stack_phys t) (t_cpu_ticks t) (t_cswitch_count t).
Definition set_sig v t := mk_task (t_pid t) (t_state t) (t_exit_code t) (t_parent t) (t_children t) (t_next t)
  (t_priority t) (t_time_slice t) (t_vruntime t) (t_need_resched t) (t_preempt_count t) (t_sleep_until t) v
  (t_cr3 t) (t_stack_phys t) (t_cpu_ticks t) (t_cswitch_count t).
Definition count_switch t := mk_task (t_pid t) (t_state t) (t_exit_code t) (t_parent t) (t_children t) (t_next
  t) (t_priority t) (t_time_slice t) (t_vruntime t) (t_need_resched t) (t_preempt_count t) (t_sleep_until t)
  (t_sig t) (t_cr3 t) (t_stack_phys t) (u64 (t_cpu_ticks t + 1)) (u64 (t_cswitch_count t + 1)).

(** [struct run_queue]; [rq_tree] is the root pointer of [ready_tree]. *)
Record run_queue := mk_rq { rq_head : ptr; rq_tree : ptr; rq_count : Z }.
Definition empty_rq : run_queue := mk_rq NULL NULL 0.

(** The globals.  [resched] is the flag [need_resched] of pit_handler.c;
    [freed] lists the pages and address spaces given back, in order;
    [cpu_task] is [cpu_data[i].current_task] of smp.c. *)
Record ksched := mk_ks {
  tasks : gmap loc task;
  rbs : gmap loc rb_node;
  queues : list run_queue;
  current : ptr;
  init_task : ptr;
  idle_task : ptr;
  min_vruntime : Z;
  resched : bool;
  pids : pid_state;
  files : fstate;
  num_cpus : Z;
  freed : list Z;
  cpu_task : gmap Z loc
}.

Definition with_tasks v t := mk_ks v (rbs t) (queues t) (current t) (init_task t) (idle_task t) (min_vruntime
  t) (resched t) (pids t) (files t) (num_cpus t) (freed t) (cpu_task t).
Definition with_rbs v t := mk_ks (tasks t) v (queues t) (current t) (init_task t) (idle_task t) (min_vruntime
  t) (resched t) (pids t) (files t) (num_cpus t) (freed t) (cpu_task t).
Definition with_queues v t := mk_ks (tasks t) (rbs t) v (current t) (init_task t) (idle_task t) (min_vruntime
  t) (resched t) (pids t) (files t) (num_cpus t) (freed t) (cpu_task t).
Definition with_current v t := mk_ks (tasks t) (rbs t) (queues t) v (init_task t) (idle_task t) (min_vruntime
  t) (resched t) (pids t) (files t) (num_cpus t) (freed t) (cpu_task t).
Definition with_init_task v t := mk_ks (tasks t) (rbs t) (queues t) (current t) v (idle_task t) (min_vruntime
  t) (resched t) (pids t) (files t) (num_cpus t) (freed t) (cpu_task t).
Definition with_idle_task v t := mk_ks (tasks t) (rbs t) (queues t) (current t) (init_task t) v (min_vruntime
  t) (resched t) (pids t) (files t) (num_cpus t) (freed t) (cpu_task t).
Definition with_min_vruntime v t := mk_ks (tasks t) (rbs t) (queues t) (current t) (init_task t) (idle_task t)
  v (resched t) (pids t) (files t) (num_cpus t) (freed t) (cpu_task t).
Definition with_resched v t := mk_ks (tasks t) (rbs t) (queues t) (current t) (init_task t) (idle_task t)
  (min_vruntime t) v (pids t) (files t) (num_cpus t) (freed t) (cpu_task t).
Definition with_pids v t := mk_ks (tasks t) (rbs t) (queues t) (current t) (init_task t) (idle_task t)
  (min_vruntime t) (resched t) v (files t) (num_cpus t) (freed t) (cpu_task t).
Definition with_files v t := mk_ks (tasks t) (rbs t) (queues t) (current t) (init_task t) (idle_task t)
  (min_vruntime t) (resched t) (pids t) v (num_cpus t) (freed t) (cpu_task t).
Definition with_num_cpus v t := mk_ks (tasks t) (rbs t) (queues t) (current t) (init_task t) (idle_task t)
  (min_vruntime t) (resched t) (pids t) (files t) v (freed t) (cpu_task t).
Definition with_freed v t := mk_ks (tasks t) (rbs t) (queues t) (current t) (init_task t) (idle_task t)
  (min_vruntime t) (resched t) (pids t) (files t) (num_cpus t) v (cpu_task t).

Definition with_cpu_task v t := mk_ks (tasks t) (rbs t) (queues t) (current t) (init_task t) (idle_task t)
  (min_vruntime t) (resched t) (pids t) (files t) (num_cpus t) (freed t) v.

Definition SM := ST ksched.

(** [l->member] and its update; a dangling pointer has no outcome. *)
Definition tld {A} (f : task → A) (l : loc) : SM A :=
  λ s, match tasks s !! l with Some t => Some (f t, s) | None => None end.
Definition tupd (g : task → task) (l : loc) : SM unit :=
  λ s, match tasks s !! l with Some t => Some (tt, with_tasks (<[l := g t]> (tasks s)) s) | None => None end.
(** The same through a pointer that may be null. *)
Definition non_null (p : ptr) : SM loc := match p with Some l => ret l | None => fail end.

(** Code of another component acting on its part of the state. *)
Definition on_pids {A} (m : PM A) : SM A :=
  λ s, match m (pids s) with Some (a, p) => Some (a, with_pids p s) | None => None end.
Definition on_files {A} (m : FM A) : SM A :=
  λ s, match m (files s) with Some (a, f) => Some (a, with_files f s) | None => None end.

(** [per_cpu_rq[cpu]]. *)
Definition rq_get (cpu : Z) : SM run_queue :=
  λ s, if cpu <? 0 then None else match queues s !! Z.to_nat cpu with Some q => Some (q, s) | None => None end.
Definition rq_put (cpu : Z) (q : run_queue) : SM unit :=
  modify (λ s, with_queues (<[Z.to_nat cpu := q]> (queues s)) s).
(** rbtree.c acting on the tree of a run queue. *)
Definition on_tree {A} (cpu : Z) (m : M A) : SM A :=
  q <- rq_get cpu ;;
  (λ s, match m (mk_mem (rq_tree q) (rbs s)) with
        | Some (a, h) => Some (a, with_queues (<[Z.to_nat cpu := mk_rq (rq_head q) (root h) (rq_count q)]> (queues s))
                                   (with_rbs (nodes h) s))
        | None => None
        end).
Definition set_key (k : Z) (l : loc) : SM unit :=
  λ s, match rbs s !! l with
       | Some n => Some (tt, with_rbs (<[l := mk_node (rb_color n) (parent n) (left n) (right n) k]> (rbs s)) s)
       | None => None
       end.
