(* ===== verification/RunQueue.v ===== *)
(** * The run queues of kernel/sched.c.

    The circular list and the ordered tree of every CPU's queue, with the
    operations that link, unlink and migrate tasks.  The tree is used through
    the interface [ReadyTree]; rbtree.c is its instance. *)
From S2P Require Import Prelude RBTree RBTreeInv PidAlloc Files Task.
Local Open Scope Z_scope.
Local Open Scope kernel_scope.

(** ** What the run queues expect of the tree

    [rt_rep ns h]: the memory [h] holds a tree with the (key, node) sequence
    [ns].  The sequence of a tree is that of rbtree.c: ascending keys, a new
    node after its equals. *)
Class ReadyTree := {
  rt_rep : list (Z * loc) → rb_mem → Prop;
  rt_insert : loc → M unit;
  rt_erase : loc → M unit;
  rt_find_min : M ptr;
  rt_next : loc → M ptr;
  rt_cap : Z;
  rt_nil n : rt_rep [] (mk_mem NULL n);
  rt_nodup ns h : rt_rep ns h → NoDup ns.*2;
  rt_live ns h l : rt_rep ns h → l ∈ ns.*2 → is_Some (nodes h !! l);
  rt_frame ns h h' :
    rt_rep ns h → root h' = root h → (∀ x, x ∈ ns.*2 → nodes h' !! x = nodes h !! x) → rt_rep ns h';
  rt_insert_spec ns h l n :
    rt_rep ns h → Z.of_nat (length ns) < rt_cap → l ∉ ns.*2 → nodes h !! l = Some n →
    ∃ h', rt_insert l h = Some (tt, h') ∧ rt_rep (insort (key n, l) ns) h' ∧
      ∀ x, x ∉ l :: ns.*2 → nodes h' !! x = nodes h !! x;
  rt_erase_spec ns h l :
    rt_rep ns h → Z.of_nat (length ns) < rt_cap → l ∈ ns.*2 →
    ∃ h', rt_erase l h = Some (tt, h') ∧ rt_rep (remove_loc l ns) h' ∧
      (∀ x, x ∉ ns.*2 → nodes h' !! x = nodes h !! x) ∧ is_Some (nodes h' !! l);
  rt_find_min_spec ns h :
    rt_rep ns h → Z.of_nat (length ns) < rt_cap → rt_find_min h = Some (snd <$> head ns, h);
  rt_next_spec ns1 k l ns2 h :
    rt_rep (ns1 ++ (k, l) :: ns2) h → Z.of_nat (length (ns1 ++ (k, l) :: ns2)) < rt_cap →
    rt_next l h = Some (snd <$> head ns2, h)
}.

Section ops.
Context `{RT : ReadyTree}.

(** ** Linking and unlinking *)

(** The enqueueing block shared by [create_task] and [smp_enqueue_task]. *)
Definition rq_link (t : loc) (cpu : Z) : SM unit :=
  q <- rq_get cpu ;;
  (match rq_head q with
   | None => tupd (set_next (Some t)) t ;;; rq_put cpu (mk_rq (Some t) (rq_tree q) (rq_count q))
   | Some h => n <- tld t_next h ;; tupd (set_next n) t ;;; tupd (set_next (Some t)) h
   end) ;;;
  q <- rq_get cpu ;;
  rq_put cpu (mk_rq (rq_head q) (rq_tree q) (i32 (rq_count q + 1))) ;;;
  k <- tld t_vruntime t ;; set_key k t ;;; on_tree cpu (rt_insert t).

Definition smp_enqueue_task (t : ptr) (cpu_id : Z) : SM unit :=
  match t with
  | None => ret tt
  | Some t =>
      if (cpu_id <? 0) || (MAX_CPUS <=? cpu_id) then ret tt else
      n <- gets num_cpus ;;
      if n <=? cpu_id then ret tt else rq_link t cpu_id
  end.

(** [while (prev->next != t) prev = prev->next], giving up back at [head]. *)
Fixpoint find_prev (fuel : nat) (stop : ptr) (t p : loc) : SM ptr :=
  match fuel with
  | O => fail
  | S fuel =>
      n <- tld t_next p ;;
      if decide (n = Some t) then ret (Some p) else
      p <- non_null n ;;
      if decide (Some p = stop) then ret None else find_prev fuel stop t p
  end.

Definition smp_dequeue_task (fuel : nat) (t : ptr) (cpu_id : Z) : SM unit :=
  match t with
  | None => ret tt
  | Some t =>
      if (cpu_id <? 0) || (MAX_CPUS <=? cpu_id) then ret tt else
      q <- rq_get cpu_id ;;
      match rq_head q with
      | None => ret tt
      | Some h =>
          if rq_count q =? 0 then ret tt else
          alone <- (if decide (h = t) then n <- tld t_next t ;; ret (bool_decide (n = Some t)) else ret false) ;;
          if (alone : bool) then
            rq_put cpu_id (mk_rq NULL (rq_tree q) 0) ;;; on_tree cpu_id (rt_erase t)
          else
            p <- find_prev fuel (Some h) t h ;;
            match p with
            | None => ret tt
            | Some p =>
                n <- tld t_next t ;;
                tupd (set_next n) p ;;;
                rq_put cpu_id (mk_rq (if decide (rq_head q = Some t) then n else rq_head q) (rq_tree q) (i32 (rq_count q - 1))) ;;;
                on_tree cpu_id (rt_erase t)
            end
      end
  end.

(** ** Work stealing *)

(** The search for the busiest queue: the loop over [i] from 0. *)
Fixpoint busiest (n : nat) (i my best max : Z) : SM (Z * Z) :=
  match n with
  | O => ret (best, max)
  | S n =>
      if i =? my then busiest n (i + 1) my best max else
      q <- rq_get i ;;
      if max <? rq_count q then busiest n (i + 1) my i (rq_count q) else busiest n (i + 1) my best max
  end.

(** The first ready task of the ring that is not its head. *)
Fixpoint find_ready (fuel : nat) (head c : loc) : SM ptr :=
  match fuel with
  | O => fail
  | S fuel =>
      st <- tld t_state c ;;
      if decide (st = TASK_READY ∧ c ≠ head) then ret (Some c) else
      n <- tld t_next c ;; c <- non_null n ;;
      if decide (c = head) then ret NULL else find_ready fuel head c
  end.

Definition smp_schedule (fuel : nat) (my_cpu_id : Z) : SM unit :=
  ncpu <- gets num_cpus ;;
  if (my_cpu_id <? 0) || (ncpu <=? my_cpu_id) then ret tt else
  my <- rq_get my_cpu_id ;;
  if 1 <? rq_count my then ret tt else
  bm <- busiest (Z.to_nat ncpu) 0 my_cpu_id (-1) 0 ;;
  let '(busiest_cpu, max_count) := bm in
  if (busiest_cpu <? 0) || (max_count <=? 1) then ret tt else
  src <- rq_get busiest_cpu ;;
  if (1 <? rq_count my) || (rq_count src <=? 1) then ret tt else
  match rq_head src with
  | None => ret tt
  | Some h =>
      stolen <- find_ready fuel h h ;;
      match stolen with
      | None => ret tt
      | Some t => smp_dequeue_task fuel (Some t) busiest_cpu ;;; smp_enqueue_task (Some t) my_cpu_id
      end
  end.
End ops.
