(* ===== verification/RunQueueInv.v ===== *)
(** * Run queues: the invariant of every CPU's queue and the effect of the
    linking operations on it. *)
From S2P Require Import Prelude RBTree RBTreeInv PidAlloc Files Task RunQueue.
Local Open Scope Z_scope.
Local Open Scope kernel_scope.

(** ** Circular lists *)
Definition next_of (ts : gmap loc task) (x : loc) : option ptr := t_next <$> ts !! x.

(** Every element points to the one after it, the last one to [z]. *)
Fixpoint links (ts : gmap loc task) (l : list loc) (z : loc) : Prop :=
  match l with
  | [] => True
  | x :: l => next_of ts x = Some (Some (default z (head l))) ∧ links ts l z
  end.
Definition ring_at (ts : gmap loc task) (l : list loc) : Prop :=
  match l with [] => True | x :: _ => links ts l x end.

Lemma links_agree ts ts' l z :
  (∀ x, x ∈ l → next_of ts' x = next_of ts x) → links ts l z → links ts' l z.
Proof.
  induction l as [|x l IH]; simpl; intros Ha [E HL] || intros Ha E; [done|]. split.
  - rewrite Ha; [done|left].
  - apply IH; [|done]. intros y Hy. apply Ha. by right.
Qed.
Lemma ring_agree ts ts' l :
  (∀ x, x ∈ l → next_of ts' x = next_of ts x) → ring_at ts l → ring_at ts' l.
Proof. destruct l as [|x l]; [done|]. apply links_agree. Qed.

Lemma links_app ts l1 l2 z :
  links ts (l1 ++ l2) z ↔ links ts l1 (default z (head l2)) ∧ links ts l2 z.
Proof.
  induction l1 as [|x l1 IH]; simpl; [tauto|]. rewrite IH. destruct l1; simpl; tauto.
Qed.

Lemma ring_rotate ts l1 l2 : ring_at ts (l1 ++ l2) ↔ ring_at ts (l2 ++ l1).
Proof.
  destruct l1 as [|x l1], l2 as [|y l2]; rewrite ?app_nil_r; try done.
  change (links ts ((x :: l1) ++ y :: l2) x ↔ links ts ((y :: l2) ++ x :: l1) y).
  rewrite !links_app. cbn [head default from_option id]. tauto.
Qed.

Lemma next_of_set ts x y t v :
  ts !! x = Some t → next_of (<[x := set_next v t]> ts) y = if decide (x = y) then Some v else next_of ts y.
Proof.
  intros Hx. unfold next_of. case_decide as H; [subst; by rewrite lookup_insert_eq|by rewrite lookup_insert_ne].
Qed.

(** [t] linked in after the first element. *)
Definition after_head (t : loc) (ring : list loc) : list loc :=
  match ring with [] => [t] | h :: r => h :: t :: r end.
Lemma after_head_perm t ring : after_head t ring ≡ₚ t :: ring.
Proof. destruct ring; simpl; [done|]. constructor. Qed.

(** Bypassing the first element of a ring from the last. *)
Lemma ring_unlink ts t m p tp n :
  NoDup (t :: m ++ [p]) → ring_at ts (t :: m ++ [p]) → ts !! p = Some tp → next_of ts t = Some n →
  ring_at (<[p := set_next n tp]> ts) (m ++ [p]).
Proof.
  intros Hnd Hr Hp Hn. simpl in Hr. destruct Hr as [Ht Hl]. rewrite Ht in Hn. injection Hn as <-.
  rewrite NoDup_cons, NoDup_app in Hnd. destruct Hnd as (Htn & _ & Hmp & _).
  assert (links (<[p:=set_next (Some (default t (head (m ++ [p])))) tp]> ts) (m ++ [p]) (default t (head (m ++ [p])))) as HL.
  - rewrite links_app in Hl |- *. destruct Hl as [Hm _]. cbn [head default] in *. split.
    + eapply links_agree; [|exact Hm]. intros x Hx. erewrite next_of_set by done.
      rewrite decide_False; [done|]. intros ->. apply (Hmp x Hx). left.
    + cbn [links]. erewrite next_of_set by done. rewrite decide_True by done. done.
  - destruct m; exact HL.
Qed.

(** ** The search for the predecessor *)
Section find_prev.
Context (s : ksched).

Lemma find_prev_found fuel stop t z p b :
  links (tasks s) (p :: b) z → t = z → t ∉ b → (∀ x, x ∈ b → stop ≠ Some x) → (length b < fuel)%nat →
  find_prev fuel stop t p s = Some (Some (default p (last b)), s).
Proof.
  intros HL <-. revert p fuel HL. induction b as [|x b IH]; intros p fuel HL Hn Hs Hf; destruct fuel as [|fuel]; try (simpl in Hf; lia).
  - destruct HL as [E _]. simpl in E. unfold next_of in E. cbn [find_prev]. unfold bind, tld.
    destruct (tasks s !! p) as [tp|]; [|done]. injection E as ->. by rewrite decide_True.
  - destruct HL as [E HL]. simpl in E. unfold next_of in E. cbn [find_prev].
    apply not_elem_of_cons in Hn as [Hx Hn]. unfold tld at 1, bind at 1. 
    destruct (tasks s !! p) as [tp|]; [|done]. injection E as ->. rewrite decide_False by congruence.
    cbn [non_null]. rewrite bind_ret_l, decide_False by (intros X; by apply (Hs x); [left|]).
    rewrite (IH x fuel HL); [|done|intros y Hy; apply Hs; by right|simpl in Hf; lia].
    rewrite last_cons. by destruct (last b).
Qed.

Lemma find_prev_inside fuel stop t z p b1 b2 :
  links (tasks s) (p :: b1 ++ t :: b2) z → t ∉ b1 → (∀ x, x ∈ b1 → stop ≠ Some x) → (length b1 < fuel)%nat →
  find_prev fuel stop t p s = Some (Some (default p (last b1)), s).
Proof.
  intros HL Hn Hs Hf. change (p :: b1 ++ t :: b2) with ((p :: b1) ++ t :: b2) in HL.
  apply links_app in HL as [HL _]. by eapply find_prev_found.
Qed.

Lemma find_prev_absent fuel t h p b :
  links (tasks s) (p :: b) h → t ∉ b → t ≠ h → h ∉ b → (length b < fuel)%nat →
  find_prev fuel (Some h) t p s = Some (None, s).
Proof.
  revert p fuel. induction b as [|x b IH]; intros p fuel [E HL] Hn Ht Hh Hf; destruct fuel as [|fuel]; try (simpl in Hf; lia).
  - simpl in E. unfold next_of in E. cbn [find_prev]. unfold tld at 1, bind at 1.
    destruct (tasks s !! p) as [tp|]; [|done]. injection E as ->. rewrite decide_False by congruence.
    cbn [non_null]. rewrite bind_ret_l. by rewrite decide_True.
  - simpl in E. unfold next_of in E. cbn [find_prev].
    apply not_elem_of_cons in Hn as [Hx Hn]. apply not_elem_of_cons in Hh as [Hxh Hh].
    unfold tld at 1, bind at 1. destruct (tasks s !! p) as [tp|]; [|done]. injection E as ->. 
    rewrite decide_False by congruence. cbn [non_null]. rewrite bind_ret_l, decide_False by congruence.
    apply IH; try done. simpl in Hf. lia.
Qed.
End find_prev.

(** ** One queue *)
Definition requeue (Q : list run_queue) (R : gmap loc rb_node) (T : gmap loc task) (s : ksched) : ksched :=
  with_queues Q (with_rbs R (with_tasks T s)).

(** The same tasks apart from their queue links. *)
Definition same_but_next (ts ts' : gmap loc task) : Prop :=
  ∀ x, set_next NULL <$> ts' !! x = set_next NULL <$> ts !! x.

Lemma same_but_next_set ts x t v : ts !! x = Some t → same_but_next ts (<[x := set_next v t]> ts).
Proof.
  intros Hx y. destruct (decide (x = y)) as [<-|]; [by rewrite lookup_insert_eq, Hx|by rewrite lookup_insert_ne].
Qed.
Lemma same_but_next_trans a b c : same_but_next a b → same_but_next b c → same_but_next a c.
Proof. intros H1 H2 x. by rewrite H2, H1. Qed.

Section queue.
Context `{RT : ReadyTree}.

(** No queue ever reaches this length. *)
Definition rq_cap : Z := Z.min rt_cap (2 ^ 31 - 1).

Record rq_ok (s : ksched) (q : run_queue) (ns : list (Z * loc)) (ring : list loc) : Prop := mk_rq_ok {
  ro_head : rq_head q = head ring;
  ro_ring : ring_at (tasks s) ring;
  ro_count : rq_count q = Z.of_nat (length ring);
  ro_tree : rt_rep ns (mk_mem (rq_tree q) (rbs s));
  ro_perm : ns.*2 ≡ₚ ring
}.

Lemma rq_ok_nodup s q ns ring : rq_ok s q ns ring → NoDup ring.
Proof. intros [_ _ _ HT HP]. rewrite <- HP. by eapply rt_nodup. Qed.
Lemma rq_ok_length s q ns ring : rq_ok s q ns ring → length ns = length ring.
Proof. intros [_ _ _ _ HP]. by rewrite <- HP, length_fmap. Qed.

Lemma rq_ok_frame s s' q ns ring :
  (∀ x, x ∈ ring → next_of (tasks s') x = next_of (tasks s) x ∧ rbs s' !! x = rbs s !! x) →
  rq_ok s q ns ring → rq_ok s' q ns ring.
Proof.
  intros Ha [H1 H2 H3 H4 H5]. constructor; try done.
  - eapply ring_agree; [|done]. intros x Hx. by apply Ha.
  - eapply rt_frame; [done|done|]. intros x Hx. apply Ha. by rewrite <- H5.
Qed.

Lemma rq_get_ok cpu q s :
  0 ≤ cpu → queues s !! Z.to_nat cpu = Some q → rq_get cpu s = Some (q, s).
Proof. intros Hc Hq. unfold rq_get. rewrite (proj2 (Z.ltb_ge _ _)) by lia. by rewrite Hq. Qed.

Lemma on_tree_ok {A} cpu q s (m : M A) a h :
  0 ≤ cpu → queues s !! Z.to_nat cpu = Some q → m (mk_mem (rq_tree q) (rbs s)) = Some (a, h) →
  on_tree cpu m s = Some (a, with_queues (<[Z.to_nat cpu := mk_rq (rq_head q) (root h) (rq_count q)]> (queues s))
                               (with_rbs (nodes h) s)).
Proof. intros Hc Hq Hm. unfold on_tree, bind. rewrite (rq_get_ok _ _ _ Hc Hq). by rewrite Hm. Qed.

(** The circular list after the first half of [rq_link]. *)
Lemma ring_link_ok cpu q s ns ring t tk :
  0 ≤ cpu → queues s !! Z.to_nat cpu = Some q → rq_ok s q ns ring → t ∉ ring → tasks s !! t = Some tk →
  ∃ T, (match rq_head q with
        | None => tupd (set_next (Some t)) t ;;; rq_put cpu (mk_rq (Some t) (rq_tree q) (rq_count q))
        | Some h => n <- tld t_next h ;; tupd (set_next n) t ;;; tupd (set_next (Some t)) h end) s =
     Some (tt, with_queues (<[Z.to_nat cpu := mk_rq (Some (default t (head ring))) (rq_tree q) (rq_count q)]> (queues s))
            (with_tasks T s)) ∧
     ring_at T (after_head t ring) ∧ same_but_next (tasks s) T ∧ (∀ x, x ∉ t :: ring → T !! x = tasks s !! x) ∧
     (t_vruntime <$> T !! t = Some (t_vruntime tk)).
Proof.
  intros Hc Hq HR Ht Htk. pose proof HR as [H1 H2 H3 H4 H5].
  rewrite H1. destruct ring as [|h r]; cbn [head].
  - exists (<[t := set_next (Some t) tk]> (tasks s)). unfold tupd, bind. rewrite Htk.
    split; [done|]. split; [|split; [by apply same_but_next_set|split]].
    + simpl. split; [|done]. unfold next_of. by rewrite lookup_insert_eq.
    + intros x [Hx _]%not_elem_of_cons. by rewrite lookup_insert_ne.
    + by rewrite lookup_insert_eq.
  - assert (h ≠ t) as Hht by (intros ->; apply Ht; left).
    destruct H2 as [Eh Hl]. unfold next_of in Eh. destruct (tasks s !! h) as [th|] eqn:Eth; [|done].
    injection Eh as Eh. set (T1 := <[t := set_next (Some (default h (head r))) tk]> (tasks s)).
    assert (T1 !! h = Some th) as Hh1 by (unfold T1; by rewrite lookup_insert_ne).
    exists (<[h := set_next (Some t) th]> T1). unfold bind, tld. rewrite Eth. unfold tupd at 1. rewrite Htk, Eh.
    fold T1. unfold tupd. cbn [with_tasks tasks]. rewrite Hh1.
    split; [|split; [|split; [|split]]].
    + cbn [default head]. destruct s; cbn in *. unfold with_queues, with_tasks. cbn. do 2 f_equal.
      f_equal. rewrite list_insert_id; [done|]. rewrite Hq. destruct q. simpl in *. by subst.
    + assert (∀ y, next_of (<[h:=set_next (Some t) th]> T1) y =
        if decide (h = y) then Some (Some t) else if decide (t = y) then Some (Some (default h (head r)))
        else next_of (tasks s) y) as N.
      { intros y. rewrite (next_of_set _ _ _ _ _ Hh1). case_decide; [done|]. unfold T1.
        by rewrite (next_of_set _ _ _ _ _ Htk). }
      pose proof (rq_ok_nodup _ _ _ _ HR) as [Hhr Hnr]%NoDup_cons. apply not_elem_of_cons in Ht as [_ Ht].
      cbn [after_head ring_at links head default]. rewrite !N. rewrite decide_True by done.
      rewrite decide_False, decide_True by done. split_and!; [done|done|].
      eapply links_agree; [|exact Hl]. intros x Hx. rewrite N. rewrite !decide_False; [done|by intros ->..].
    + eapply same_but_next_trans; [by apply (same_but_next_set _ t tk)|by apply (same_but_next_set _ h th)].
    + intros x Hx. apply not_elem_of_cons in Hx as [Hx1 [Hx2 _]%not_elem_of_cons].
      unfold T1. by rewrite !lookup_insert_ne.
    + rewrite lookup_insert_ne by done. unfold T1. by rewrite lookup_insert_eq.
Qed.

(** [rq_link] puts the task after the head of the ring and, under its virtual
    run time, into the tree. *)
Lemma rq_link_ok cpu q s ns ring t tk n :
  0 ≤ cpu → queues s !! Z.to_nat cpu = Some q → rq_ok s q ns ring →
  Z.of_nat (length ring) < rq_cap → t ∉ ring → tasks s !! t = Some tk → rbs s !! t = Some n →
  ∃ q' R T, rq_link t cpu s = Some (tt, requeue (<[Z.to_nat cpu := q']> (queues s)) R T s) ∧
    rq_ok (requeue (<[Z.to_nat cpu := q']> (queues s)) R T s) q' (insort (t_vruntime tk, t) ns) (after_head t ring) ∧
    same_but_next (tasks s) T ∧ (∀ x, x ∉ t :: ring → T !! x = tasks s !! x ∧ R !! x = rbs s !! x).
Proof.
  intros Hc Hq HR Hcap Ht Htk Hn. pose proof HR as [H1 H2 H3 H4 H5].
  assert (Z.of_nat (length ns) < rt_cap) as Hcap' by (rewrite (rq_ok_length _ _ _ _ HR); unfold rq_cap in Hcap; lia).
  set (k := t_vruntime tk). set (n' := mk_node (rb_color n) (parent n) (left n) (right n) k).
  destruct (ring_link_ok cpu q s ns ring t tk Hc Hq HR Ht Htk) as (T & RT1 & HT1 & HT2 & HT3 & HT4). fold k in HT4.
  destruct (rt_insert_spec ns (mk_mem (rq_tree q) (<[t := n']> (rbs s))) t n') as (h' & RI & HI & FI).
  - eapply rt_frame; [exact H4|done|]. intros x Hx. cbn [nodes]. rewrite lookup_insert_ne; [done|].
    intros ->. apply Ht. by rewrite <- H5.
  - done.
  - by rewrite H5.
  - cbn [nodes]. apply lookup_insert_eq.
  - set (q' := mk_rq (Some (default t (head ring))) (root h') (i32 (rq_count q + 1))).
    exists q', (nodes h'), T. split; [|split; [constructor|split; [done|]]].
    + unfold rq_link. rewrite (bind_Some _ _ _ _ _ (rq_get_ok _ _ _ Hc Hq)), (bind_Some _ _ _ _ _ RT1).
      assert (Z.to_nat cpu < length (queues s))%nat as HLt by (by apply lookup_lt_Some in Hq).
      erewrite bind_Some by (apply rq_get_ok; [done|]; cbn [with_queues queues]; by apply list_lookup_insert_eq).
      unfold rq_put. rewrite bind_modify. cbn [with_queues queues rq_head rq_tree rq_count].
      rewrite list_insert_insert_eq. unfold bind at 1, tld. cbn [with_queues with_tasks tasks].
      destruct (T !! t) as [tk'|] eqn:ET; [|done]. injection HT4 as HT4. rewrite HT4.
      unfold bind at 1, set_key. cbn [with_queues with_tasks rbs]. rewrite Hn.
      erewrite on_tree_ok; [|done|cbn [with_rbs with_queues with_tasks queues]; by apply list_lookup_insert_eq|exact RI].
      cbn [with_rbs with_queues with_tasks queues rq_head rq_count]. by rewrite list_insert_insert_eq.
    + unfold q'. simpl. by destruct ring.
    + done.
    + cbn [q' rq_count]. rewrite H3. assert (length (after_head t ring) = S (length ring)) as -> by
        (by rewrite after_head_perm). unfold rq_cap in Hcap. unfold i32. rewrite Z.mod_small; lia.
    + destruct h'. exact HI.
    + rewrite (Permutation_map snd (insort_perm (k, t) ns)). simpl.
      change (map snd ns) with (ns.*2). by rewrite H5, after_head_perm.
    + intros x Hx. split; [by apply HT3|]. rewrite FI.
      * cbn [nodes]. rewrite lookup_insert_ne; [done|]. intros ->. apply Hx. left.
      * rewrite not_elem_of_cons in Hx |- *. by rewrite H5.
Qed.

(** Unlinking [t] from between its neighbours, [p] the one before it. *)
Lemma unlink_ok cpu q s ns l1 t l2 p n :
  0 ≤ cpu → queues s !! Z.to_nat cpu = Some q → rq_ok s q ns (l1 ++ t :: l2) →
  Z.of_nat (length (l1 ++ t :: l2)) < rq_cap → last (l2 ++ l1) = Some p → next_of (tasks s) t = Some n →
  ∃ q' R T,
    (tupd (set_next n) p ;;;
     rq_put cpu (mk_rq (if decide (rq_head q = Some t) then n else rq_head q) (rq_tree q) (i32 (rq_count q - 1))) ;;;
     on_tree cpu (rt_erase t)) s = Some (tt, requeue (<[Z.to_nat cpu := q']> (queues s)) R T s) ∧
    rq_ok (requeue (<[Z.to_nat cpu := q']> (queues s)) R T s) q' (remove_loc t ns) (l1 ++ l2) ∧
    same_but_next (tasks s) T ∧ (∀ x, x ∉ l1 ++ t :: l2 → T !! x = tasks s !! x ∧ R !! x = rbs s !! x) ∧
    is_Some (R !! t) ∧ T !! t = tasks s !! t.
Proof.
  intros Hc Hq HR Hcap Hp Hn. pose proof HR as [H1 H2 H3 H4 H5].
  pose proof (rq_ok_nodup _ _ _ _ HR) as Hnd.
  assert (Z.of_nat (length ns) < rt_cap) as Hcap' by (rewrite (rq_ok_length _ _ _ _ HR); unfold rq_cap in Hcap; lia).
  apply last_Some in Hp as [m Em].
  assert (NoDup (t :: m ++ [p])) as Hnd'.
  { rewrite <- Em. change (t :: l2 ++ l1) with ((t :: l2) ++ l1). by rewrite Permutation_app_comm. }
  assert (t ≠ p) as Htp by (intros ->; apply NoDup_cons in Hnd' as [[] _]; apply elem_of_app; right; left).
  assert (next_of (tasks s) t = Some (Some (default t (head (l2 ++ l1))))) as Hn'.
  { apply ring_rotate in H2. cbn [app] in H2. destruct H2 as [E _]. exact E. }
  assert (ring_at (tasks s) (t :: m ++ [p])) as Hr.
  { rewrite <- Em. change (t :: l2 ++ l1) with ((t :: l2) ++ l1). by apply ring_rotate. }
  assert (p ∈ l1 ++ t :: l2) as Hpin.
  { assert (p ∈ l2 ++ l1) as X by (rewrite Em; apply elem_of_app; right; left).
    apply elem_of_app. apply elem_of_app in X as [X|X]; [right; by right|by left]. }
  destruct (tasks s !! p) as [tp|] eqn:Etp.
  2: { exfalso. rewrite <- Em in Hr. change (t :: l2 ++ l1) with ((t :: l2) ++ l1) in Hr.
       apply ring_rotate in Hr. apply list_elem_of_split in Hpin as (a & b & E). rewrite E in Hr.
       apply ring_rotate in Hr. cbn [app] in Hr. destruct Hr as [X _]. unfold next_of in X. by rewrite Etp in X. }
  set (T := <[p := set_next n tp]> (tasks s)).
  destruct (rt_erase_spec ns (mk_mem (rq_tree q) (rbs s)) t) as (h' & RE & HE & FE & SE);
    [done|done|rewrite H5; apply elem_of_app; right; left|].
  set (hd' := if decide (rq_head q = Some t) then n else rq_head q).
  exists (mk_rq hd' (root h') (i32 (rq_count q - 1))), (nodes h'), T.
  assert (Z.to_nat cpu < length (queues s))%nat as HLt by (by apply lookup_lt_Some in Hq).
  split; [|split; [constructor|split; [by apply same_but_next_set|split; [|split]]]].
  - unfold bind at 1, tupd. rewrite Etp. fold T hd'. unfold rq_put. rewrite bind_modify.
    erewrite on_tree_ok; [|done|cbn [with_queues with_tasks queues]; by apply list_lookup_insert_eq|exact RE].
    cbn [with_rbs with_queues with_tasks queues rq_head rq_count]. by rewrite list_insert_insert_eq.
  - cbn [rq_head]. unfold hd'. rewrite H1. destruct l1 as [|h l1]; cbn [app head].
    + rewrite decide_True by done. rewrite Hn' in Hn. injection Hn as <-. rewrite app_nil_r in *.
      destruct l2; [destruct m; done|done].
    + rewrite decide_False; [done|]. intros [= ->]. cbn [app] in Hnd. apply NoDup_cons in Hnd as [[] _].
      apply elem_of_app. right. left.
  - apply ring_rotate. rewrite Em. by eapply ring_unlink.
  - cbn [rq_count]. rewrite H3. rewrite !length_app in *. cbn [length] in *. unfold rq_cap in Hcap.
    unfold i32. rewrite Z.mod_small; lia.
  - destruct h'. exact HE.
  - apply (NoDup_Permutation); [by eapply rt_nodup|by apply NoDup_app_cons in Hnd as (_ & _ & ?)|].
    intros x. unfold remove_loc. rewrite list_elem_of_fmap. split.
    + intros ([k y] & -> & [Hne Hin]%list_elem_of_filter). cbn in *.
      apply (list_elem_of_fmap_2 snd) in Hin. cbn in Hin. rewrite H5 in Hin.
      rewrite elem_of_app, elem_of_cons in Hin. rewrite elem_of_app. tauto.
    + intros Hx. assert (x ∈ ns.*2) as ([k y] & -> & Hin)%list_elem_of_fmap.
      { rewrite H5. rewrite elem_of_app, elem_of_cons. rewrite elem_of_app in Hx. tauto. }
      exists (k, y). split; [done|]. apply list_elem_of_filter. split; [|done]. cbn in *. intros ->.
      apply NoDup_app_cons in Hnd as (A & B & _). rewrite elem_of_app in Hx. tauto.
  - intros x Hx. split; [unfold T; rewrite lookup_insert_ne; [done|by intros ->]|].
    rewrite FE; [done|]. by rewrite H5.
  - done.
  - unfold T. by rewrite lookup_insert_ne.
Qed.
End queue.
