(* ===== verification/RunQueueSpec.v ===== *)
(** * Run queues: all CPUs' queues together, migration, and the tree of
    rbtree.c behind the interface. *)
From S2P Require Import Prelude RBTree RBTreeRep RBTreeInv RBTreeErase RBTreeSpec Files PidAlloc Task RunQueue RunQueueInv.
Local Open Scope Z_scope.
Local Open Scope kernel_scope.

(** ** rbtree.c implements the interface *)
Lemma rb_queue_frame ns h h' :
  rb_queue ns h → root h' = root h → (∀ x, x ∈ ns.*2 → nodes h' !! x = nodes h !! x) → rb_queue ns h'.
Proof.
  intros (t & (Hr & Hs & Hb) & <-) Hroot Hag. exists t. split; [|done]. split; [|done].
  destruct Hr as [Ht Hp Hn Hf]. rewrite app_nil_r in Hn. constructor.
  - eapply tree_at_agree; [|exact Ht]. intros l Hl. apply Hag. by rewrite inorder_locs.
  - simpl in *. by rewrite Hroot.
  - by rewrite app_nil_r.
  - done.
Qed.

(** 64 levels are enough for every queue of fewer than [2 ^ 31] tasks. *)
Lemma rb_fuel_int (ns : list (Z * loc)) : Z.of_nat (length ns) < 2 ^ 31 → (rb_fuel ns ≤ 64)%nat.
Proof.
  intros H. unfold rb_fuel. assert (Nat.log2 (S (length ns)) < 32)%nat; [|lia].
  apply Nat.log2_lt_pow2; [lia|]. apply Nat2Z.inj_lt. rewrite Nat2Z.inj_pow. lia.
Qed.

#[export] Program Instance rbtree_ready : ReadyTree := {|
  rt_rep := rb_queue;
  rt_insert l := rb_insert 64 (Some l);
  rt_erase l := rb_erase 64 (Some l);
  rt_find_min := rb_find_min 64;
  rt_next l := rb_next 64 (Some l);
  rt_cap := 2 ^ 31
|}.
Next Obligation.
  intros n. exists E. split; [|done]. split; [|split]; [|constructor|exists 0%nat; constructor].
  constructor; [done|done|constructor|done].
Qed.
Next Obligation. intros. by eapply rb_queue_NoDup. Qed.
Next Obligation.
  intros ns h l HQ Hl. apply list_elem_of_fmap in Hl as ([k x] & -> & Hin).
  destruct (rb_queue_key _ _ _ _ HQ Hin) as (n & Hn & _). by exists n.
Qed.
Next Obligation. intros. by eapply rb_queue_frame. Qed.
Next Obligation. intros ns h l n HQ Hc. apply queue_insert; [done|by apply rb_fuel_int]. Qed.
Next Obligation. intros ns h l HQ Hc. apply queue_erase; [done|by apply rb_fuel_int]. Qed.
Next Obligation. intros ns h HQ Hc. apply queue_find_min; [done|by apply rb_fuel_int]. Qed.
Next Obligation. intros ns1 k l ns2 h HQ Hc. eapply queue_next; [done|by apply rb_fuel_int|done]. Qed.

(** ** All queues

    A queue is seen as its tree's sequence and its ring. *)
Abbreviation view := (list (Z * loc) * list loc)%type.
Section queues.
Context `{RT : ReadyTree}.

Definition queued (vs : list view) : list loc := concat vs.*2.

Record queues_ok (s : ksched) (vs : list view) : Prop := mk_queues_ok {
  qo_each : Forall2 (λ q v, rq_ok s q v.1 v.2) (queues s) vs;
  qo_len : length (queues s) = Z.to_nat MAX_CPUS;
  qo_nodup : NoDup (queued vs);
  qo_cap : Z.of_nat (length (queued vs)) < rq_cap;
  qo_live : ∀ x, is_Some (tasks s !! x) → is_Some (rbs s !! x)
}.

Lemma queued_split A v B : queued (A ++ v :: B) = queued A ++ v.2 ++ queued B.
Proof. unfold queued. by rewrite fmap_app, concat_app. Qed.
Lemma queues_at s vs cpu :
  queues_ok s vs → 0 ≤ cpu < MAX_CPUS →
  ∃ A v B q, vs = A ++ v :: B ∧ length A = Z.to_nat cpu ∧ queues s !! Z.to_nat cpu = Some q ∧ rq_ok s q v.1 v.2 ∧
    Z.of_nat (length v.2) < rq_cap.
Proof.
  intros [HE HL HN HC _] Hc. destruct (lookup_lt_is_Some_2 (queues s) (Z.to_nat cpu)) as [q Hq]; [rewrite HL; lia|].
  destruct (Forall2_lookup_l _ _ _ _ _ HE Hq) as (v & Hv & HR).
  exists (take (Z.to_nat cpu) vs), v, (drop (S (Z.to_nat cpu)) vs), q.
  assert (vs = take (Z.to_nat cpu) vs ++ v :: drop (S (Z.to_nat cpu)) vs) as E by (symmetry; by apply take_drop_middle).
  split; [done|]. split; [apply length_take_le; apply lookup_lt_Some in Hv; by apply Nat.lt_le_incl|]. split; [done|]. split; [done|].
  rewrite E, queued_split, !length_app in HC. lia.
Qed.

Lemma Forall2_impl_in {X Y} (P Q : X → Y → Prop) (l : list X) (k : list Y) :
  Forall2 P l k → (∀ x y, x ∈ l → y ∈ k → P x y → Q x y) → Forall2 Q l k.
Proof.
  induction 1 as [|x y l k Hxy _ IH]; intros HI; constructor.
  - apply HI; [left|left|done].
  - apply IH. intros x' y' Hx Hy. apply HI; by right.
Qed.

(** Replacing one queue, the others being left alone. *)
Lemma queues_update s A v B cpu q' R T ns' ring' (L : list loc) :
  queues_ok s (A ++ v :: B) → length A = Z.to_nat cpu →
  let s' := requeue (<[Z.to_nat cpu := q']> (queues s)) R T s in
  rq_ok s' q' ns' ring' → same_but_next (tasks s) T →
  (∀ x, x ∉ L → T !! x = tasks s !! x ∧ R !! x = rbs s !! x) →
  (∀ x, x ∈ L → x ∉ queued A ++ queued B ∧ (x ∈ ring' ∨ is_Some (R !! x))) →
  NoDup (queued A ++ ring' ++ queued B) → Z.of_nat (length (queued A ++ ring' ++ queued B)) < rq_cap →
  queues_ok s' (A ++ (ns', ring') :: B).
Proof.
  intros [HE HL HN HC HV] Hlen s' HR HS HF HX HN' HC'.
  assert (∀ q0 v0, v0 ∈ A ∨ v0 ∈ B → rq_ok s q0 v0.1 v0.2 → rq_ok s' q0 v0.1 v0.2) as Hother.
  { intros q0 v0 Hv0. apply rq_ok_frame. intros x Hx.
    assert (x ∉ L) as HxL.
    { intros HxL. destruct (HX x HxL) as [N _]. apply N. unfold queued. rewrite elem_of_app.
      destruct Hv0 as [Hv0|Hv0]; [left|right]; apply list_elem_of_In, in_concat; exists v0.2;
        (split; apply list_elem_of_In; [by apply (list_elem_of_fmap_2 snd)|done]). }
    destruct (HF x HxL) as [E1 E2]. cbn. split; [|done]. unfold next_of. by rewrite E1. }
  constructor.
  - cbn [s' requeue with_queues queues]. apply Forall2_app_inv_r in HE as (QA & QB' & FA & FB & E).
    apply Forall2_cons_inv_r in FB as (q & QB & Hq & FB & ->). rewrite E.
    assert (Z.to_nat cpu = length QA) as -> by (etrans; [symmetry; exact Hlen|symmetry; exact (Forall2_length _ _ _ FA)]).
    rewrite <- (Nat.add_0_r (length QA)), insert_app_r. cbn [list_insert].
    apply Forall2_app; [|constructor; [done|]].
    + eapply Forall2_impl_in; [exact FA|]. intros q0 v0 _ Hv. apply Hother. by left.
    + eapply Forall2_impl_in; [exact FB|]. intros q0 v0 _ Hv. apply Hother. by right.
  - cbn. by rewrite length_insert.
  - by rewrite queued_split.
  - by rewrite queued_split.
  - intros x Hx. cbn in Hx |- *.
    assert (is_Some (tasks s !! x)) as Hx' 
      by (destruct Hx as [tx Ex]; specialize (HS x); rewrite Ex in HS; destruct (tasks s !! x); done).
    destruct (decide (x ∈ L)) as [HxL|HxL].
    + destruct (HX x HxL) as [_ [Hx2|?]]; [|done]. destruct HR as [_ _ _ HT HP].
      apply (rt_live _ _ x) in HT; [done|]. by rewrite HP.
    + destruct (HF x HxL) as [_ ->]. by apply HV.
Qed.

(** ** Enqueue and dequeue *)
Lemma same_but_next_live ts ts' x : same_but_next ts ts' → is_Some (ts' !! x) ↔ is_Some (ts !! x).
Proof.
  intros HS. specialize (HS x). destruct (ts' !! x), (ts !! x); try done; split; intros; eauto.
Qed.

Lemma queue_lookup s A v B cpu :
  queues_ok s (A ++ v :: B) → length A = Z.to_nat cpu →
  ∃ q, queues s !! Z.to_nat cpu = Some q ∧ rq_ok s q v.1 v.2.
Proof.
  intros [HE _ _ _ _] Hlen. destruct (Forall2_lookup_r _ _ _ (Z.to_nat cpu) v HE) as (q & Hq & HR); [|by exists q].
  rewrite lookup_app_r by (apply Nat.eq_le_incl; exact Hlen). rewrite <- Hlen, Nat.sub_diag. done.
Qed.

Lemma rq_link_all s A v B cpu t tk :
  queues_ok s (A ++ v :: B) → length A = Z.to_nat cpu → 0 ≤ cpu → t ∉ queued (A ++ v :: B) → tasks s !! t = Some tk →
  Z.of_nat (length (queued (A ++ v :: B))) + 1 < rq_cap →
  ∃ q' R T, rq_link t cpu s = Some (tt, requeue (<[Z.to_nat cpu := q']> (queues s)) R T s) ∧
    same_but_next (tasks s) T ∧
    queues_ok (requeue (<[Z.to_nat cpu := q']> (queues s)) R T s)
      (A ++ (insort (t_vruntime tk, t) v.1, after_head t v.2) :: B).
Proof.
  intros HQ Hlen Hc Ht Htk Hcap. pose proof HQ as [HE HL HN HC HV].
  rewrite queued_split, !not_elem_of_app in Ht. destruct Ht as (HtA & Htv & HtB).
  destruct (queue_lookup s A v B cpu HQ Hlen) as (q & Hq & HR).
  destruct (HV t) as [n Hn]; [by eexists|].
  rewrite queued_split, !length_app in Hcap.
  destruct (rq_link_ok cpu q s v.1 v.2 t tk n) as (q' & R & T & RL & HR' & HS & HF); try done; [lia|].
  exists q', R, T. split; [exact RL|]. split; [exact HS|].
  rewrite queued_split in HN.
  assert (queued A ++ after_head t v.2 ++ queued B ≡ₚ t :: queued A ++ v.2 ++ queued B) as HP.
  { rewrite after_head_perm. cbn [app]. by rewrite <- Permutation_middle. }
  eapply (queues_update s A v B cpu q' R T _ _ (t :: v.2)); try done.
  - intros x Hx. split.
    + apply elem_of_cons in Hx as [->|Hx]; [by rewrite not_elem_of_app|].
      apply NoDup_app in HN as (_ & N1 & HN). apply NoDup_app in HN as (_ & N2 & _).
      rewrite not_elem_of_app. split; [|by apply N2]. intros HxA. apply (N1 x HxA). apply elem_of_app. by left.
    + left. by rewrite after_head_perm.
  - rewrite HP. apply NoDup_cons. split; [|done]. by rewrite !not_elem_of_app.
  - rewrite HP. cbn [length]. rewrite !length_app. lia.
Qed.

Lemma dequeue_step s A v B cpu l1 t l2 p n :
  queues_ok s (A ++ v :: B) → length A = Z.to_nat cpu → 0 ≤ cpu → v.2 = l1 ++ t :: l2 →
  last (l2 ++ l1) = Some p → next_of (tasks s) t = Some n →
  ∃ q q' R T, queues s !! Z.to_nat cpu = Some q ∧
    (tupd (set_next n) p ;;;
     rq_put cpu (mk_rq (if decide (rq_head q = Some t) then n else rq_head q) (rq_tree q) (i32 (rq_count q - 1))) ;;;
     on_tree cpu (rt_erase t)) s = Some (tt, requeue (<[Z.to_nat cpu := q']> (queues s)) R T s) ∧
    same_but_next (tasks s) T ∧
    queues_ok (requeue (<[Z.to_nat cpu := q']> (queues s)) R T s) (A ++ (remove_loc t v.1, l1 ++ l2) :: B).
Proof.
  intros HQ Hlen Hc Hv Hp Hn. pose proof HQ as [HE HL HN HC HV].
  destruct (queue_lookup s A v B cpu HQ Hlen) as (q & Hq & HR).
  rewrite queued_split in HN, HC. rewrite Hv in *.
  destruct (unlink_ok cpu q s v.1 l1 t l2 p n) as (q' & R & T & RU & HR' & HS & HF & HL' & HT'); try done.
  { rewrite !length_app in *. lia. }
  exists q, q', R, T. split; [done|]. split; [exact RU|]. split; [exact HS|].
  assert (queued A ++ (l1 ++ t :: l2) ++ queued B ≡ₚ t :: queued A ++ (l1 ++ l2) ++ queued B) as HP.
  { rewrite <- !(app_assoc l1). cbn [app]. by rewrite <- !Permutation_middle. }
  pose proof HN as HN0. rewrite HP in HN, HC. apply NoDup_cons in HN as [Htn HN].
  eapply (queues_update s A v B cpu q' R T _ _ (l1 ++ t :: l2)); try done.
  - intros x Hx. split.
    + apply NoDup_app in HN0 as (_ & N1 & HN0). apply NoDup_app in HN0 as (_ & N2 & _).
      rewrite not_elem_of_app. split; [|by apply N2]. intros HxA. apply (N1 x HxA). apply elem_of_app. by left.
    + apply elem_of_app in Hx as [Hx|[->|Hx]%elem_of_cons]; [left; apply elem_of_app; by left|by right|].
      left. apply elem_of_app. by right.
  - cbn [length] in HC. lia.
Qed.

(** The last task of a queue. *)
Lemma dequeue_last s A v B cpu t q :
  queues_ok s (A ++ v :: B) → length A = Z.to_nat cpu → 0 ≤ cpu → v.2 = [t] →
  queues s !! Z.to_nat cpu = Some q →
  ∃ q' R, (rq_put cpu (mk_rq NULL (rq_tree q) 0) ;;; on_tree cpu (rt_erase t)) s =
      Some (tt, requeue (<[Z.to_nat cpu := q']> (queues s)) R (tasks s) s) ∧
    queues_ok (requeue (<[Z.to_nat cpu := q']> (queues s)) R (tasks s) s) (A ++ (remove_loc t v.1, []) :: B).
Proof.
  intros HQ Hlen Hc Hv Hq. destruct (queue_lookup s A v B cpu HQ Hlen) as (q0 & Hq0 & HR).
  rewrite Hq in Hq0. injection Hq0 as <-. rewrite Hv in HR. pose proof HR as [H1 H2 H3 H4 H5].
  pose proof HQ as [HE HL HN HC HV]. rewrite queued_split, Hv in HN, HC.
  destruct (rt_erase_spec v.1 (mk_mem (rq_tree q) (rbs s)) t) as (h' & RE & HE' & FE & SE); [done| |rewrite H5; left|].
  { rewrite (rq_ok_length _ _ _ _ HR). rewrite !length_app in HC. unfold rq_cap in HC. cbn [length] in *. lia. }
  assert (remove_loc t v.1 = []) as Enil.
  { apply filter_none. intros [k x] Hin Hne. cbn in Hne. apply (list_elem_of_fmap_2 snd) in Hin. cbn in Hin.
    rewrite H5 in Hin. apply list_elem_of_singleton in Hin. done. }
  assert (Z.to_nat cpu < length (queues s))%nat as HLt by (by apply lookup_lt_Some in Hq).
  exists (mk_rq NULL (root h') 0), (nodes h'). split.
  - unfold rq_put. rewrite bind_modify.
    erewrite on_tree_ok; [|done|cbn [with_queues queues]; by apply list_lookup_insert_eq|exact RE].
    cbn [with_queues queues rq_head rq_count]. rewrite list_insert_insert_eq. by destruct s.
  - cbn [app] in HN, HC. rewrite <- Permutation_middle in HN. apply NoDup_cons in HN as [Ht HN].
    eapply (queues_update s A v B cpu _ _ _ _ _ [t]); try done.
    + constructor; cbn; try done; [by destruct h'|by rewrite Enil].
    + intros x Hx. split; [done|]. cbn [nodes] in FE. rewrite FE; [done|]. by rewrite H5.
    + intros x ->%list_elem_of_singleton. split; [done|by right].
    + cbn [app]. rewrite !length_app in *. cbn [length] in HC. lia.
Qed.

Lemma smp_dequeue_task_ok fuel s A v B cpu t :
  queues_ok s (A ++ v :: B) → length A = Z.to_nat cpu → 0 ≤ cpu < MAX_CPUS → (length v.2 ≤ fuel)%nat →
  (∀ l1 l2, v.2 = l1 ++ t :: l2 →
     ∃ q' R T, smp_dequeue_task fuel (Some t) cpu s = Some (tt, requeue (<[Z.to_nat cpu := q']> (queues s)) R T s) ∧
       same_but_next (tasks s) T ∧
       queues_ok (requeue (<[Z.to_nat cpu := q']> (queues s)) R T s) (A ++ (remove_loc t v.1, l1 ++ l2) :: B)) ∧
  (t ∉ v.2 → smp_dequeue_task fuel (Some t) cpu s = Some (tt, s)).
Proof.
  intros HQ Hlen Hc Hf. destruct (queue_lookup s A v B cpu HQ Hlen) as (q & Hq & HR).
  pose proof HR as [H1 H2 H3 H4 H5]. pose proof (rq_ok_nodup _ _ _ _ HR) as Hnd.
  unfold smp_dequeue_task. rewrite (proj2 (Z.ltb_ge _ 0)), (proj2 (Z.leb_gt _ _)) by lia. cbn [orb].
  rewrite (bind_Some _ _ _ _ _ (rq_get_ok _ _ _ (proj1 Hc) Hq)), H1. split.
  - intros l1 l2 Hv. rewrite Hv in *.
    assert (rq_count q =? 0 = false) as E0 by (apply Z.eqb_neq; rewrite H3, length_app; cbn [length]; lia).
    destruct (head (l1 ++ t :: l2)) as [h|] eqn:Eh; [|destruct l1; done]. rewrite E0.
    assert (next_of (tasks s) t = Some (Some (default t (head (l2 ++ l1))))) as Hn.
    { apply ring_rotate in H2. destruct H2 as [E _]. exact E. }
    assert (∃ tt0, tasks s !! t = Some tt0 ∧ t_next tt0 = Some (default t (head (l2 ++ l1)))) as (tk & Htk & Hnx).
    { unfold next_of in Hn. destruct (tasks s !! t) as [tk|]; [|done]. exists tk. split; [done|]. by injection Hn. }
    destruct (decide (l1 ++ l2 = [])) as [Enil|Hne].
    + apply app_eq_nil in Enil as [-> ->]. cbn in Eh. injection Eh as <-. rewrite decide_True by done.
      unfold tld at 1. unfold bind at 1 2. rewrite Htk, Hnx. cbn [ret]. rewrite bool_decide_true by done.
      destruct (dequeue_last s A v B cpu t q) as (q' & R & RL & HQ'); try done; [lia|].
      exists q', R, (tasks s). split; [exact RL|]. split; [by intros x|exact HQ'].
    + destruct (decide (l1 = [])) as [->|Hne1].
      * cbn [app] in Eh, Hnd, Hne. injection Eh as <-. rewrite decide_True by done. apply NoDup_cons in Hnd as [Ht2 Hnd].
        unfold tld at 1. unfold bind at 1 2. rewrite Htk, Hnx, app_nil_r. cbn [ret].
        rewrite bool_decide_false by (destruct l2 as [|y l2]; [done|intros [= ->]; apply Ht2; left]).
        cbn [ring_at app] in H2.
        rewrite (bind_Some _ _ _ _ _ (find_prev_found s fuel (Some t) t t t l2 H2 eq_refl Ht2
          ltac:(intros x Hx [= <-]; done) ltac:(cbn [app length] in Hf; lia))).
        unfold bind at 1, tld. rewrite Htk, Hnx, app_nil_r.
        destruct (dequeue_step s A v B cpu [] t l2 (default t (last l2)) (Some (default t (head l2))))
          as (q0 & q' & R & T & Hq0 & RS & HS & HQ'); try done; [lia|rewrite app_nil_r; by destruct l2 using rev_ind; rewrite ?last_snoc|by rewrite app_nil_r in Hn|].
        rewrite Hq in Hq0. injection Hq0 as <-. rewrite H1 in RS. exists q', R, T. split; [exact RS|done].
      * destruct l1 as [|h' l1]; [done|]. cbn [app head] in Eh. injection Eh as ->.
        cbn [app] in Hnd. apply NoDup_cons in Hnd as [Hh Hnd].
        assert (h ≠ t) as Hht by (intros ->; apply Hh, elem_of_app; right; left).
        rewrite decide_False by done. rewrite bind_ret_l. cbn [ring_at app] in H2.
        apply NoDup_app_cons in Hnd as (Ht1 & _ & _).
        rewrite (bind_Some _ _ _ _ _ (find_prev_inside s fuel (Some h) t h h l1 l2 H2 Ht1
          ltac:(intros x Hx [= <-]; apply Hh, elem_of_app; by left) ltac:(cbn [app length] in Hf; rewrite length_app in Hf; lia))).
        unfold bind at 1, tld. rewrite Htk, Hnx.
        destruct (dequeue_step s A v B cpu (h :: l1) t l2 (default h (last l1)) (Some (default t (head (l2 ++ h :: l1)))))
          as (q0 & q' & R & T & Hq0 & RS & HS & HQ'); try done; [lia|rewrite last_app_cons, last_cons; by destruct (last l1)|].
        rewrite Hq in Hq0. injection Hq0 as <-. rewrite H1 in RS. exists q', R, T. split; [exact RS|done].
  - intros Ht. destruct v.2 as [|h r] eqn:Ev; cbn [head]; [done|].
    destruct (rq_count q =? 0); [done|]. apply not_elem_of_cons in Ht as [Hth Htr].
    rewrite decide_False by done. rewrite bind_ret_l. apply NoDup_cons in Hnd as [Hhr _].
    rewrite (bind_Some _ _ _ _ _ (find_prev_absent s fuel t h h r H2 Htr Hth Hhr ltac:(cbn [length] in Hf; lia))). done.
Qed.

(** ** Work stealing *)
Definition count_at (vs : list view) (i : Z) : Z := Z.of_nat (length (default ([], []) (vs !! Z.to_nat i)).2).

Lemma count_at_ok s vs i :
  queues_ok s vs → 0 ≤ i < MAX_CPUS → ∃ q, rq_get i s = Some (q, s) ∧ rq_count q = count_at vs i ∧ rq_head q = head (default ([], []) (vs !! Z.to_nat i)).2.
Proof.
  intros HQ Hi. destruct (queues_at s vs i HQ Hi) as (A & v & B & q & -> & HA & Hq & HR & _).
  exists q. split; [apply rq_get_ok; [lia|done]|]. unfold count_at.
  assert ((A ++ v :: B) !! Z.to_nat i = Some v) as ->.
  { rewrite lookup_app_r by (apply Nat.eq_le_incl; exact HA). rewrite <- HA, Nat.sub_diag. done. }
  destruct HR as [H1 _ H3 _ _]. done.
Qed.

Lemma busiest_ok s vs n i my best max :
  queues_ok s vs → 0 ≤ i → i + Z.of_nat n ≤ MAX_CPUS → 0 ≤ max →
  ∃ b m, busiest n i my best max s = Some ((b, m), s) ∧ max ≤ m ∧
    (∀ j, i ≤ j < i + Z.of_nat n → j ≠ my → count_at vs j ≤ m) ∧
    ((b = best ∧ m = max) ∨ (i ≤ b < i + Z.of_nat n ∧ b ≠ my ∧ count_at vs b = m)).
Proof.
  intros HQ. revert i best max. induction n as [|n IH]; intros i best max Hi Hn Hm; cbn [busiest].
  - exists best, max. split; [done|]. split; [done|]. split; [lia|by left].
  - rewrite Nat2Z.inj_succ in *. destruct (i =? my) eqn:E; [apply Z.eqb_eq in E as <-|apply Z.eqb_neq in E].
    + destruct (IH (i + 1) best max) as (b & m & R & M1 & M2 & M3); [lia..|]. exists b, m. split; [exact R|].
      split; [done|]. split; [intros j Hj Hne; apply M2; lia|]. destruct M3 as [?|?]; [by left|right; lia].
    + destruct (count_at_ok s vs i HQ) as (q & Rq & Cq & _); [lia|]. rewrite (bind_Some _ _ _ _ _ Rq), Cq.
      destruct (max <? count_at vs i) eqn:L; [apply Z.ltb_lt in L|apply Z.ltb_ge in L].
      * destruct (IH (i + 1) i (count_at vs i)) as (b & m & R & M1 & M2 & M3); [lia..|]. exists b, m. split; [exact R|].
        split; [lia|]. split; [intros j Hj Hne; destruct (decide (j = i)) as [->|]; [lia|apply M2; lia]|].
        destruct M3 as [[-> ->]|?]; right; [|lia]. split; [lia|done].
      * destruct (IH (i + 1) best max) as (b & m & R & M1 & M2 & M3); [lia..|]. exists b, m. split; [exact R|].
        split; [done|]. split; [intros j Hj Hne; destruct (decide (j = i)) as [->|]; [lia|apply M2; lia]|].
        destruct M3 as [?|?]; [by left|right; lia].
Qed.

Definition is_ready (s : ksched) (x : loc) : Prop := t_state <$> tasks s !! x = Some TASK_READY.

Lemma find_ready_ok s fuel h c b :
  links (tasks s) (c :: b) h → h ∉ b → (length b < fuel)%nat →
  ∃ o, find_ready fuel h c s = Some (o, s) ∧
    match o with
    | Some t => t ∈ c :: b ∧ t ≠ h ∧ is_ready s t
    | None => ∀ t, t ∈ c :: b → t ≠ h → ¬ is_ready s t
    end.
Proof.
  revert c fuel. induction b as [|x b IH]; intros c fuel [E HL] Hh Hf; destruct fuel as [|fuel]; try (cbn [length] in Hf; lia);
    unfold next_of in E; cbn [find_ready]; unfold tld at 1; unfold bind at 1;
    destruct (tasks s !! c) as [tc|] eqn:Ec; try done; cbn [fmap option_fmap option_map] in E; injection E as E.
  - destruct (decide _) as [[D1 D2]|D].
    + exists (Some c). split; [done|]. split_and!; [left|done|]. unfold is_ready. by rewrite Ec, <- D1.
    + unfold tld, bind. rewrite Ec, E. cbn. rewrite decide_True by done. exists NULL. split; [done|].
      intros t ->%list_elem_of_singleton Hne Hr. unfold is_ready in Hr. rewrite Ec in Hr. injection Hr as Hr. tauto.
  - apply not_elem_of_cons in Hh as [Hhx Hh]. destruct (decide _) as [[D1 D2]|D].
    + exists (Some c). split; [done|]. split_and!; [left|done|]. unfold is_ready. by rewrite Ec, <- D1.
    + unfold tld, bind. rewrite Ec, E. cbn. rewrite decide_False by done.
      destruct (IH x fuel HL Hh) as (o & R & Ho); [cbn [length] in Hf; lia|]. exists o. split; [exact R|].
      destruct o as [t|]; [destruct Ho as (Ht & ? & ?); split_and!; [by right|done..]|].
      intros t [->|Ht]%elem_of_cons Hne Hr; [|by apply (Ho t)].
      unfold is_ready in Hr. rewrite Ec in Hr. injection Hr as Hr. tauto.
Qed.

(** Moving a task from the queue at [a] to the queue at [b]. *)
Definition moved (s : ksched) (t : loc) (a b : Z) (vs vs' : list view) : Prop :=
  ∃ va vb l1 l2 k, vs !! Z.to_nat a = Some va ∧ vs !! Z.to_nat b = Some vb ∧ va.2 = l1 ++ t :: l2 ∧
    t_vruntime <$> tasks s !! t = Some k ∧
    vs' !! Z.to_nat a = Some (remove_loc t va.1, l1 ++ l2) ∧
    vs' !! Z.to_nat b = Some (insort (k, t) vb.1, after_head t vb.2) ∧
    (∀ i, i ≠ Z.to_nat a → i ≠ Z.to_nat b → vs' !! i = vs !! i) ∧ queued vs' ≡ₚ queued vs.

Lemma split_lookup {X} (l : list X) i x : l !! i = Some x → ∃ A B, l = A ++ x :: B ∧ length A = i.
Proof.
  intros H. exists (take i l), (drop (S i) l). split; [symmetry; by apply take_drop_middle|].
  apply length_take_le. apply lookup_lt_Some in H. lia.
Qed.
Lemma lookup_split {X} (A B : list X) x : (A ++ x :: B) !! length A = Some x.
Proof. rewrite lookup_app_r, Nat.sub_diag by lia. done. Qed.
Lemma lookup_split_ne {X} (A B : list X) x y i : i ≠ length A → (A ++ x :: B) !! i = (A ++ y :: B) !! i.
Proof.
  intros Hi. destruct (decide (i < length A)%nat) as [L|L]; [by rewrite !lookup_app_l by done|].
  rewrite !lookup_app_r by lia. destruct (i - length A)%nat eqn:E; [lia|done].
Qed.

Lemma migrate_ok fuel s vs t a b va l1 l2 :
  queues_ok s vs → 0 ≤ a < MAX_CPUS → 0 ≤ b < MAX_CPUS → a ≠ b → b < num_cpus s → (length va.2 ≤ fuel)%nat →
  vs !! Z.to_nat a = Some va → va.2 = l1 ++ t :: l2 →
  ∃ s' vs', (smp_dequeue_task fuel (Some t) a ;;; smp_enqueue_task (Some t) b) s = Some (tt, s') ∧
    queues_ok s' vs' ∧ same_but_next (tasks s) (tasks s') ∧ moved s t a b vs vs'.
Proof.
  intros HQ Ha Hb Hab Hnc Hf Hva Ev. destruct (split_lookup _ _ _ Hva) as (A & B & EA & LA).
  rewrite EA in HQ. destruct (smp_dequeue_task_ok fuel s A va B a t HQ LA Ha Hf) as [HD _].
  destruct (HD _ _ Ev) as (q1 & R1 & T1 & RD & HS1 & HQ1). set (s1 := requeue _ R1 T1 s) in *.
  set (vs1 := A ++ (remove_loc t va.1, l1 ++ l2) :: B) in *.
  destruct (lookup_lt_is_Some_2 vs (Z.to_nat b)) as [vb Hvb].
  { pose proof (Forall2_length _ _ _ (qo_each _ _ HQ)) as L. rewrite <- EA in L.
    apply (Nat.lt_le_trans _ (length (queues s))); [rewrite (qo_len _ _ HQ); lia|]. apply Nat.eq_le_incl. exact L. }
  assert (vs1 !! Z.to_nat b = Some vb) as Hvb1.
  { rewrite <- Hvb, EA. apply lookup_split_ne. lia. }
  destruct (split_lookup _ _ _ Hvb1) as (A' & B' & EA' & LA').
  assert (queued vs ≡ₚ t :: queued vs1) as HP.
  { rewrite EA. unfold vs1. rewrite !queued_split. cbn [snd]. rewrite Ev. rewrite <- !(app_assoc l1). cbn [app].
    by rewrite <- !Permutation_middle. }
  pose proof (qo_nodup _ _ HQ) as HN. rewrite <- EA, HP in HN. apply NoDup_cons in HN as [Ht1 _].
  assert (is_Some (tasks s !! t)) as [tk Htk].
  { destruct (queue_lookup s A va B a HQ LA) as (q & _ & [_ H2 _ _ _]). rewrite Ev in H2.
    apply ring_rotate in H2. destruct H2 as [X _]. unfold next_of in X. destruct (tasks s !! t); [by eexists|done]. }
  assert (∃ tk1, tasks s1 !! t = Some tk1 ∧ t_vruntime tk1 = t_vruntime tk) as (tk1 & Htk1 & Evr).
  { specialize (HS1 t). rewrite Htk in HS1. cbn [s1 requeue with_queues with_rbs with_tasks tasks] in *.
    destruct (T1 !! t) as [tk1|]; [|done]. exists tk1. split; [done|]. cbn in HS1. injection HS1. congruence. }
  rewrite EA' in HQ1, Ht1. destruct (rq_link_all s1 A' vb B' b t tk1 HQ1 LA') as (q2 & R2 & T2 & RL & HS2 & HQ2); try done; [lia| |].
  { pose proof (qo_cap _ _ HQ) as C. rewrite <- EA, HP, EA' in C. cbn [length] in C. lia. }
  eexists _, _. split; [run RD|split; [exact HQ2|split]].
  - unfold smp_enqueue_task. rewrite (proj2 (Z.ltb_ge _ 0)), (proj2 (Z.leb_gt _ _)) by lia. cbn [orb].
    rewrite bind_gets. cbn [s1 requeue with_queues with_rbs with_tasks num_cpus].
    rewrite (proj2 (Z.leb_gt (num_cpus s) b)) by lia. exact RL.
  - eapply same_but_next_trans; [exact HS1|exact HS2].
  - exists va, vb, l1, l2, (t_vruntime tk). rewrite <- LA, <- LA' in *. rewrite Htk.
    split_and!; try done.
    + rewrite (lookup_split_ne _ _ _ vb) by lia. rewrite <- EA'. apply lookup_split.
    + rewrite <- Evr. apply lookup_split.
    + intros i Hi1 Hi2. rewrite (lookup_split_ne _ _ _ vb) by lia. rewrite <- EA'.
      rewrite EA. apply lookup_split_ne. lia.
    + rewrite HP, EA', !queued_split. cbn [snd]. rewrite after_head_perm. cbn [app]. by rewrite <- Permutation_middle.
Qed.
End queues.

(** ** Properties of the run queues *)
(** ** A concrete machine: three tasks, none queued *)
Definition demo_task (p v : Z) (st : task_state) : task :=
  mk_task p st 0 NULL [] NULL 128 5 v false 0 0 None 0 None 0 0.
Definition blank_node : rb_node := mk_node RB_RED NULL NULL NULL 0.
Definition idle_machine : ksched :=
  mk_ks (list_to_map [(1%positive, demo_task 2 10 TASK_RUNNING); (2%positive, demo_task 3 5 TASK_READY);
                      (3%positive, demo_task 4 7 TASK_READY)])
        (list_to_map [(1%positive, blank_node); (2%positive, blank_node); (3%positive, blank_node)])
        (replicate 8 empty_rq) (Some 1%positive) NULL NULL 0 false pids0 (mk_fs ∅ ∅ []) 2 [] ∅.
Definition no_views : list view := replicate 8 ([], []).

Lemma idle_machine_ok : queues_ok idle_machine no_views.
Proof.
  constructor.
  - repeat constructor; exact (rt_nil _).
  - done.
  - constructor.
  - done.
  - intros x [t Ht]. apply elem_of_list_to_map_2 in Ht. repeat apply elem_of_cons in Ht as [[= -> ->]|Ht]; try done.
    by apply not_elem_of_nil in Ht.
Qed.

Section steps.
Context `{RT : ReadyTree}.

(** [smp_enqueue_task] of a task that is in no queue. *)
Lemma smp_enqueue_task_ok s vs cpu t k v :
  queues_ok s vs → 0 ≤ cpu < MAX_CPUS → cpu < num_cpus s → vs !! Z.to_nat cpu = Some v → t ∉ queued vs →
  t_vruntime <$> tasks s !! t = Some k → Z.of_nat (length (queued vs)) + 1 < rq_cap →
  ∃ s', smp_enqueue_task (Some t) cpu s = Some (tt, s') ∧
    queues_ok s' (<[Z.to_nat cpu := (insort (k, t) v.1, after_head t v.2)]> vs) ∧
    same_but_next (tasks s) (tasks s') ∧ num_cpus s' = num_cpus s.
Proof.
  intros HQ Hc Hn Hv Ht Hk Hcap. destruct (split_lookup _ _ _ Hv) as (A & B & -> & LA).
  destruct (tasks s !! t) as [tk|] eqn:Htk; [|done]. injection Hk as <-.
  destruct (rq_link_all s A v B cpu t tk HQ LA) as (q & R & T & RL & HS & HQ'); try done; [lia|].
  exists (requeue (<[Z.to_nat cpu := q]> (queues s)) R T s). split; [|split; [|split; [exact HS|done]]].
  - unfold smp_enqueue_task. rewrite (proj2 (Z.ltb_ge _ 0)), (proj2 (Z.leb_gt MAX_CPUS _)) by lia. cbn [orb].
    rewrite bind_gets. rewrite (proj2 (Z.leb_gt (num_cpus s) cpu)) by lia. exact RL.
  - rewrite <- LA at 2. rewrite <- (Nat.add_0_r (length A)), insert_app_r. exact HQ'.
Qed.

Lemma vruntime_same ts ts' x : same_but_next ts ts' → t_vruntime <$> ts' !! x = t_vruntime <$> ts !! x.
Proof.
  intros HS. specialize (HS x). destruct (ts' !! x), (ts !! x); try done. cbn in *. injection HS. congruence.
Qed.
End steps.

(** The machine after tasks 1, 2 and 3 were enqueued on CPU 0. *)
Definition enqueue_all : SM unit :=
  smp_enqueue_task (Some 1%positive) 0 ;;; smp_enqueue_task (Some 2%positive) 0 ;;; smp_enqueue_task (Some 3%positive) 0.
Definition loaded_machine : ksched := match enqueue_all idle_machine with Some (_, s) => s | None => idle_machine end.
Definition loaded_views : list view :=
  ([(5, 2%positive); (7, 3%positive); (10, 1%positive)], [1%positive; 3%positive; 2%positive]) :: replicate 7 ([], []).

Lemma loaded_machine_ok : queues_ok loaded_machine loaded_views.
Proof.
  destruct (smp_enqueue_task_ok idle_machine no_views 0 1%positive 10 ([], []) idle_machine_ok)
    as (s1 & L1 & Q1 & S1 & N1); [done..|apply not_elem_of_nil|done|done|].
  destruct (smp_enqueue_task_ok s1 _ 0 2%positive 5 ([(10, 1%positive)], [1%positive]) Q1)
    as (s2 & L2 & Q2 & S2 & N2); [done|by rewrite N1|done|decided|by rewrite (vruntime_same _ _ _ S1)|done|].
  destruct (smp_enqueue_task_ok s2 _ 0 3%positive 7
    ([(5, 2%positive); (10, 1%positive)], [1%positive; 2%positive]) Q2)
    as (s3 & L3 & Q3 & S3 & N3); [done|by rewrite N2, N1|done|decided|
      by rewrite (vruntime_same _ _ _ S2), (vruntime_same _ _ _ S1)|done|].
  assert (loaded_machine = s3) as ->; [|exact Q3].
  unfold loaded_machine, enqueue_all. run L1. run L2.
  exact (f_equal (λ o : option (unit * ksched), match o with Some (_, s) => s | None => idle_machine end) L3).
Qed.

(** ** Properties *)

(** C15: Work stealing on any set of well-formed run queues (ring, tree and count
    of every CPU consistent, every task in at most one queue) returns and
    leaves them well-formed. Either nothing changes, or exactly one task
    moves: it was ready, was not the head of its queue, came from a longest
    queue of another CPU, which had at least two tasks while this CPU had at
    most one, and it is entered under its virtual run time. Nothing changes
    only if this CPU has more than one task, no other queue has two, or the
    longest queue has no ready task behind its head. *)
Theorem smp_schedule_correct `{RT : ReadyTree} fuel s vs my :
  queues_ok s vs → 0 ≤ my < num_cpus s → num_cpus s ≤ MAX_CPUS → (length (queued vs) ≤ fuel)%nat →
  ∃ s', smp_schedule fuel my s = Some (tt, s') ∧
    ((∃ from t vs', queues_ok s' vs' ∧ moved s t from my vs vs' ∧ same_but_next (tasks s) (tasks s') ∧
        0 ≤ from < num_cpus s ∧ from ≠ my ∧ count_at vs my ≤ 1 ∧ 1 < count_at vs from ∧
        (∀ j, 0 ≤ j < num_cpus s → j ≠ my → count_at vs j ≤ count_at vs from) ∧
        is_ready s t ∧ head (default ([], []) (vs !! Z.to_nat from)).2 ≠ Some t) ∨
     (s' = s ∧
        (1 < count_at vs my ∨ (∀ j, 0 ≤ j < num_cpus s → j ≠ my → count_at vs j ≤ 1) ∨
         ∃ from, (∀ j, 0 ≤ j < num_cpus s → j ≠ my → count_at vs j ≤ count_at vs from) ∧
           ∀ t, t ∈ tail (default ([], []) (vs !! Z.to_nat from)).2 → ¬ is_ready s t))).
Proof.
  intros HQ Hmy HM Hf. unfold smp_schedule. rewrite bind_gets.
  rewrite (proj2 (Z.ltb_ge my 0)), (proj2 (Z.leb_gt (num_cpus s) my)) by lia. cbn [orb].
  destruct (count_at_ok s vs my HQ) as (qm & Rm & Cm & _); [lia|]. run Rm. rewrite Cm.
  destruct (1 <? count_at vs my) eqn:E1; [apply Z.ltb_lt in E1; exists s; split; [done|right; tauto]|apply Z.ltb_ge in E1].
  destruct (busiest_ok s vs (Z.to_nat (num_cpus s)) 0 my (-1) 0 HQ) as (b & m & RB & M1 & M2 & M3); [lia..|]. run RB.
  rewrite Z2Nat.id in M2, M3 by lia. cbn [orb].
  destruct ((b <? 0) || (m <=? 1)) eqn:E2.
  { exists s. split; [done|]. right. split; [done|]. right; left. intros j Hj Hne. specialize (M2 j Hj Hne).
    apply orb_prop in E2 as [E2%Z.ltb_lt|E2%Z.leb_le]; [|lia]. destruct M3; lia. }
  apply orb_false_iff in E2 as [E2%Z.ltb_ge E3%Z.leb_gt].
  destruct M3 as [[-> _]|(Hb & Hne & Cb)]; [lia|].
  destruct (count_at_ok s vs b HQ) as (qb & Rb & Cqb & Hd); [lia|]. run Rb. rewrite Cqb, Cb.
  rewrite (proj2 (Z.leb_gt m 1)) by lia. rewrite Hd.
  destruct (queues_at s vs b HQ) as (A & v & B & q & EA & LA & Hq & HR & _); [lia|].
  assert (vs !! Z.to_nat b = Some v) as Hv by (rewrite EA, <- LA; apply lookup_split).
  unfold count_at in Cb. rewrite Hv in Hd, Cb |- *. cbn [default from_option id] in *.
  destruct v as [ns ring]. cbn [snd fst] in *. destruct ring as [|h r]; [cbn in Cb; lia|]. cbn [head].
  pose proof (rq_ok_nodup _ _ _ _ HR) as [Hhr _]%NoDup_cons.
  assert (length (h :: r) ≤ fuel)%nat as Hf'.
  { rewrite EA, queued_split, !length_app in Hf. cbn [snd] in Hf. lia. }
  destruct (find_ready_ok s fuel h h r) as (o & RF & Ho); [apply (ro_ring _ _ _ _ HR)|done|cbn [length] in Hf'; lia|].
  run RF. destruct o as [t|].
  - destruct Ho as (Ht & Hth & Hr). apply list_elem_of_split in Ht as (l1 & l2 & E).
    destruct (migrate_ok fuel s vs t b my (ns, h :: r) l1 l2) as (s' & vs' & RM & HQ' & HS & HMv); try done; try lia.
    exists s'. split; [exact RM|]. left. exists b, t, vs'. unfold count_at. rewrite Hv. cbn [default from_option id snd head].
    split_and!; try done; try lia; [by rewrite Cb|]. by intros [= ->].
  - exists s. split; [done|]. right. split; [done|]. right; right. exists b. unfold count_at at 2. rewrite Hv.
    cbn [default from_option id snd tail]. split; [by rewrite Cb|]. intros t Ht. apply Ho; [by right|]. by intros ->.
Qed.

Lemma smp_schedule_correct_witness :
  ∃ s', smp_schedule 3 1 loaded_machine = Some (tt, s') ∧ rq_count <$> queues s' = [2; 1; 0; 0; 0; 0; 0; 0] ∧
    ∃ vs', queues_ok s' vs'.
Proof.
  destruct (smp_schedule_correct 3 loaded_machine loaded_views 1 loaded_machine_ok) as (s' & R & H);
    [done|vm_compute; done|vm_compute; lia|].
  exists s'. split; [exact R|]. split; [vm_compute in R; injection R as <-; reflexivity|].
  destruct H as [(from & t & vs' & HQ & _)|(-> & _)]; [by exists vs'|exists loaded_views; apply loaded_machine_ok].
Defined.
