(* ===== verification/Sched.v ===== *)
(** * kernel/sched.c: choosing the next task, time slices, and the life cycle of
    tasks; with the wake-up scan of kernel/pit_handler.c and the sending half
    of kernel/signal.c, which the life cycle uses.

    The spinlocks and the masking of interrupts make each of these functions
    one step up to its context switch.  A call that switches or stops returns
    that as its result: [Switch prev next] is the call of [context_switch],
    after which the C function resumes only when [prev] is chosen again, and
    [Halt] is the entry of a [cli; hlt] loop. *)
From S2P Require Import Prelude RBTree PidAlloc Files Task RunQueue.
Local Open Scope Z_scope.
Local Open Scope kernel_scope.

Inductive sched_result := Stay | Switch (prev next : loc) | Halt.

Section sched.
Context `{RT : ReadyTree}.

(** ** schedule *)
Definition runnable (st : task_state) : bool := bool_decide (st = TASK_READY ∨ st = TASK_RUNNING).

(** The walk of the tree from [node] to the first runnable task other than
    [c]. *)
Fixpoint pick (fuel : nat) (cpu : Z) (c : loc) (node : ptr) : SM ptr :=
  match fuel with
  | O => fail
  | S fuel =>
      match node with
      | None => ret NULL
      | Some l =>
          st <- tld t_state l ;;
          if runnable st && bool_decide (l ≠ c) then ret (Some l) else
          n <- on_tree cpu (rt_next l) ;; pick fuel cpu c n
      end
  end.

Definition full_slice (t : task) : Z :=
  let s := Z.quot (BASE_SLICE * (256 - t_priority t)) 256 in if s <? 1 then 1 else s.

(** [vruntime += consumed * 128 / weight], in 64 bits. *)
Definition charge (t : task) : task :=
  let full := u64 (Z.quot (BASE_SLICE * (256 - t_priority t)) 256) in
  let full := if full <? 1 then 1 else full in
  let consumed := i64 full - t_time_slice t in
  let consumed := if consumed <=? 0 then 1 else consumed in
  let weight := u64 (t_priority t + 1) in
  set_vruntime (u64 (t_vruntime t + u64 (consumed * 128) / weight)) t.

Definition leave_cpu (t : task) : task :=
  if decide (t_state t = TASK_RUNNING) then charge (set_state TASK_READY t) else t.

(** From the choice of [next] to the context switch. *)
Definition switch_to (cpu : Z) (prev next : loc) : SM sched_result :=
  tupd leave_cpu prev ;;;
  v <- tld t_vruntime next ;;
  modify (λ s, if v <=? min_vruntime s then s else with_min_vruntime v s) ;;;
  tupd (set_state TASK_RUNNING) next ;;;
  modify (with_current (Some next)) ;;;
  (if (0 <=? cpu) && (cpu <? MAX_CPUS) then modify (λ s, with_cpu_task (<[cpu := next]> (cpu_task s)) s) else ret tt) ;;;
  tupd count_switch next ;;;
  ret (Switch prev next).

Definition schedule (fuel : nat) (cpu_id : Z) : SM sched_result :=
  cur <- gets current ;;
  match cur with
  | None => ret Stay
  | Some c =>
      n <- tld t_next c ;;
      if decide (n = NULL) then ret Stay else
      q <- rq_get cpu_id ;;
      if decide (rq_head q = NULL) then ret Halt else
      min_node <- on_tree cpu_id rt_find_min ;;
      next <- pick fuel cpu_id c min_node ;;
      match next with
      | Some x => switch_to cpu_id c x
      | None =>
          idle <- gets idle_task ;;
          idle_ready <- (match idle with
                         | Some i => if decide (i = c) then ret false
                                     else st <- tld t_state i ;; ret (bool_decide (st = TASK_READY))
                         | None => ret false
                         end) ;;
          match idle, (idle_ready : bool) with
          | Some i, true => switch_to cpu_id c i
          | _, _ =>
              st <- tld t_state c ;;
              if decide (st = TASK_RUNNING) then tupd (set_state TASK_RUNNING) c ;;; ret Stay else ret Halt
          end
      end
  end.

Definition yield (fuel : nat) (cpu_id : Z) : SM sched_result :=
  cur <- gets current ;;
  (match cur with Some c => tupd (λ t, set_state TASK_READY (charge t)) c | None => ret tt end) ;;;
  schedule fuel cpu_id.

Definition check_resched (fuel : nat) (cpu_id : Z) : SM sched_result :=
  flag <- gets resched ;;
  modify (with_resched false) ;;;
  cur <- gets current ;;
  own <- (if (flag : bool) then ret false else match cur with Some c => tld t_need_resched c | None => ret false end) ;;
  if flag || own then
    (match cur with
     | Some c => tupd (set_need_resched false) c ;;; tupd (set_state TASK_READY) c
     | None => ret tt
     end) ;;;
    schedule fuel cpu_id
  else ret Stay.

(** ** Time slices and preemption *)
Definition tick_task (t : task) : task * bool :=
  if decide (t_state t = TASK_RUNNING) then
    let t := if 0 <? t_time_slice t then set_time_slice (t_time_slice t - 1) t else t in
    if t_time_slice t <=? 0 then (set_time_slice (full_slice t) (set_need_resched true t), true) else (t, false)
  else (t, false).

Definition schedule_tick : SM unit :=
  cur <- gets current ;;
  match cur with
  | None => ret tt
  | Some c =>
      p <- tld t_preempt_count c ;;
      if 0 <? p then ret tt else
      expired <- tld (λ t, (tick_task t).2) c ;;
      tupd (λ t, (tick_task t).1) c ;;;
      if (expired : bool) then modify (with_resched true) else ret tt
  end.

Definition preempt_disable : SM unit :=
  cur <- gets current ;;
  match cur with Some c => tupd (λ t, set_preempt_count (i32 (t_preempt_count t + 1)) t) c | None => ret tt end.

Definition preempt_enable (fuel : nat) (cpu_id : Z) : SM sched_result :=
  cur <- gets current ;;
  match cur with
  | None => ret Stay
  | Some c =>
      tupd (λ t, if 0 <? t_preempt_count t then set_preempt_count (t_preempt_count t - 1) t else t) c ;;;
      p <- tld t_preempt_count c ;;
      nr <- tld t_need_resched c ;;
      if (p =? 0) && nr then
        tupd (set_need_resched false) c ;;; tupd (set_state TASK_READY) c ;;; schedule fuel cpu_id
      else ret Stay
  end.

(** The scan of one queue in [pit_irq_c_handler]: wake what has slept until
    [tick]. *)
Definition expired (tick : Z) (t : task) : bool :=
  bool_decide (t_state t = TASK_BLOCKED) && (0 <? t_sleep_until t) && (t_sleep_until t <=? tick).
Fixpoint wake_scan (fuel : nat) (tick count scanned : Z) (head t : loc) : SM unit :=
  match fuel with
  | O => fail
  | S fuel =>
      e <- tld (expired tick) t ;;
      (if (e : bool) then tupd (λ t, set_state TASK_READY (set_sleep_until 0 t)) t ;;; modify (with_resched true)
       else ret tt) ;;;
      n <- tld t_next t ;; t <- non_null n ;;
      if bool_decide (t ≠ head) && (scanned + 1 <? count + 1) then wake_scan fuel tick count (scanned + 1) head t
      else ret tt
  end.
Definition wake_queue (fuel : nat) (tick cpu : Z) : SM unit :=
  q <- rq_get cpu ;;
  match rq_head q with
  | Some h => if rq_count q =? 0 then ret tt else wake_scan fuel tick (rq_count q) 0 h h
  | None => ret tt
  end.

(** [pit_irq_c_handler]: [tick] is the uptime it reads, [balance] the value of
    [smp_balance_counter], returned incremented or reset. *)
Definition SMP_BALANCE_INTERVAL : Z := 100.
Definition pit_irq_c_handler (fuel : nat) (cpu_id tick balance : Z) : SM Z :=
  n <- gets num_cpus ;;
  for_range (Z.to_nat (Z.min n MAX_CPUS)) 0 (wake_queue fuel tick) ;;;
  schedule_tick ;;;
  modify (with_resched true) ;;;
  if SMP_BALANCE_INTERVAL <=? balance + 1 then smp_schedule fuel cpu_id ;;; ret 0 else ret (balance + 1).

(** ** Task lookup and signals to a task *)
Definition find_task_by_pid (pid : Z) : SM ptr :=
  if (pid <? 0) || (MAX_PID <=? pid) then ret NULL else
  t <- gets (λ s, pid_table (pids s) !! pid) ;;
  match t with
  | None => ret NULL
  | Some l => st <- tld t_state l ;; ret (if decide (st = TASK_DEAD ∨ st = TASK_ZOMBIE) then NULL else Some l)
  end.

Definition sig_bit (sig : Z) : Z := u32 (Z.shiftl 1 sig).
Definition new_signal_state : signal_state := mk_sig (replicate 32 (mk_sa SIG_DFL 0 0)) 0 0 0 0.
Definition set_pending (v : Z) (g : signal_state) : signal_state :=
  mk_sig (actions g) v (sig_blocked g) (saved_rsp g) (saved_rip g).

(** [sig->actions[s].sa_handler]. *)
Definition handler_of (g : signal_state) (s : Z) : Z :=
  match actions g !! Z.to_nat s with Some a => sa_handler a | None => SIG_DFL end.

(** Whether a blocked task is woken by [sig]. *)
Definition signal_wakes (g : signal_state) (sig : Z) : bool :=
  (Z.land (sig_blocked g) (sig_bit sig) =? 0) &&
  ((sig =? SIGKILL) || negb (handler_of g sig =? SIG_IGN)).

(** [mem]: [signal_alloc] finds memory. *)
Definition do_sys_kill (mem : bool) (pid sig : Z) : SM Z :=
  if (sig <? 1) || (NSIG <=? sig) then ret (-1) else
  if pid <? 0 then ret (-1) else
  target <- find_task_by_pid pid ;;
  match target with
  | None => ret (-1)
  | Some t =>
      g <- tld t_sig t ;;
      match g, mem with
      | None, false => ret (-1)
      | _, _ =>
          let g := default new_signal_state g in
          let g := set_pending (Z.lor (sig_pending g) (sig_bit sig)) g in
          tupd (set_sig (Some g)) t ;;;
          st <- tld t_state t ;;
          (if bool_decide (st = TASK_BLOCKED) && signal_wakes g sig then tupd (set_state TASK_READY) t else ret tt) ;;;
          ret 0
      end
  end.

Definition signal_child_event (mem : bool) (child : ptr) : SM unit :=
  match child with
  | None => ret tt
  | Some c =>
      p <- tld t_parent c ;;
      match p with
      | None => ret tt
      | Some p => pid <- tld t_pid p ;; _ <- do_sys_kill mem pid SIGCHLD ;; ret tt
      end
  end.

(** ** The process tree *)

(** [mem]: [kmalloc] finds memory for the list node. *)
Definition add_child (mem : bool) (par child : loc) : SM unit :=
  if mem then tupd (λ t, set_children (child :: t_children t) t) par ;;; tupd (set_parent (Some par)) child else ret tt.

Fixpoint reparent_loop (ini : loc) (cs : list loc) : SM unit :=
  match cs with
  | [] => ret tt
  | c :: cs =>
      tupd (set_parent (Some ini)) c ;;;
      tupd (λ t, set_children (c :: t_children t) t) ini ;;;
      reparent_loop ini cs
  end.
Definition reparent_children_to_init (task : ptr) : SM unit :=
  match task with
  | None => ret tt
  | Some t =>
      cs <- tld t_children t ;;
      ini <- gets init_task ;;
      match cs, ini with
      | [], _ | _, None => ret tt
      | _, Some ini => reparent_loop ini cs ;;; tupd (set_children []) t
      end
  end.

(** ** Creation *)
Definition kernel_task (pid prio slice : Z) (next par : ptr) (cr3 : Z) : task :=
  mk_task pid TASK_RUNNING 0 par [] next prio slice 0 false 0 0 None cr3 None 0 0.

(** [idle] and [init] are the addresses [kmalloc] gives the two tasks; without
    memory for the first one the assertion stops the machine. *)
Definition scheduler_init (idle : loc) (init : ptr) (cr3 : Z) : SM unit :=
  on_pids pid_reset ;;;
  modify (with_queues (replicate (Z.to_nat MAX_CPUS) empty_rq)) ;;;
  modify (with_current (Some idle)) ;;;
  modify (λ s, with_tasks (<[idle := kernel_task 0 0 1 (Some idle) NULL cr3]> (tasks s)) s) ;;;
  modify (λ s, with_rbs (<[idle := mk_node RB_RED NULL NULL NULL 0]> (rbs s)) s) ;;;
  on_files (fd_table_init (Z.pos idle)) ;;;
  on_pids (pid_register 0 idle) ;;;
  modify (with_idle_task (Some idle)) ;;;
  q <- rq_get 0 ;; rq_put 0 (mk_rq (Some idle) (rq_tree q) 1) ;;;
  k <- tld t_vruntime idle ;; set_key k idle ;;; on_tree 0 (rt_insert idle) ;;;
  match init with
  | None => ret tt
  | Some i =>
      modify (λ s, with_tasks (<[i := kernel_task 1 0 0 (Some i) (Some idle) cr3]> (tasks s)) s) ;;;
      modify (λ s, with_rbs (<[i := mk_node RB_RED NULL NULL NULL 0]> (rbs s)) s) ;;;
      on_files (fd_table_init (Z.pos i)) ;;;
      on_pids (pid_register 1 i) ;;;
      modify (with_init_task (Some i))
  end.

(** The task as [create_task] fills it in before it has a number. *)
Definition new_task (cr3 stack minv : Z) (par : ptr) : task :=
  mk_task 0 TASK_READY 0 par [] NULL 128 (Z.quot (BASE_SLICE * (256 - 128)) 256) minv false 0 0 None cr3 (Some stack) 0 0.
Definition set_pid (v : Z) (t : task) : task :=
  mk_task v (t_state t) (t_exit_code t) (t_parent t) (t_children t) (t_next t) (t_priority t) (t_time_slice t)
    (t_vruntime t) (t_need_resched t) (t_preempt_count t) (t_sleep_until t) (t_sig t) (t_cr3 t) (t_stack_phys t)
    (t_cpu_ticks t) (t_cswitch_count t).
Definition kfree_task (l : loc) : SM unit :=
  modify (λ s, with_tasks (delete l (tasks s)) (with_rbs (delete l (rbs s)) s)).
Definition free_page (p : Z) : SM unit := modify (λ s, with_freed (freed s ++ [p]) s).

(** [kt], [page] and [node_mem] are what [kmalloc], [alloc_page] and the
    [kmalloc] of [add_child] return. *)
Definition create_task (kt : ptr) (page : option Z) (node_mem : bool) (cr3 : Z) : SM ptr :=
  match kt, page with
  | None, _ | Some _, None => ret NULL
  | Some t, Some stack_page =>
      minv <- gets min_vruntime ;;
      cur <- gets current ;;
      modify (λ s, with_tasks (<[t := new_task cr3 stack_page minv cur]> (tasks s)) s) ;;;
      modify (λ s, with_rbs (<[t := mk_node RB_RED NULL NULL NULL 0]> (rbs s)) s) ;;;
      pid <- on_pids alloc_pid ;;
      tupd (set_pid pid) t ;;;
      if pid <? 0 then free_page stack_page ;;; kfree_task t ;;; ret NULL else
      on_files (fd_table_init (Z.pos t)) ;;;
      on_pids (pid_register pid t) ;;;
      modify (λ s, if num_cpus s =? 0 then with_num_cpus 1 s else s) ;;;
      n <- gets num_cpus ;;
      let target_cpu := if n <=? Z.rem pid n then 0 else Z.rem pid n in
      rq_link t target_cpu ;;;
      par <- non_null cur ;;
      add_child node_mem par t ;;;
      ret (Some t)
  end.

(** ** Exit *)

(** The critical section that takes the exiting task [c] out of its queue. *)
Definition exit_unlink (cpu_id : Z) (c prev : loc) : SM unit :=
  n <- tld t_next c ;;
  q <- rq_get cpu_id ;;
  tupd (set_next n) prev ;;;
  rq_put cpu_id (mk_rq (if decide (rq_head q = Some c) then n else rq_head q) (rq_tree q) (rq_count q)) ;;;
  on_tree cpu_id (rt_erase c) ;;;
  q <- rq_get cpu_id ;;
  if 0 <? rq_count q then rq_put cpu_id (mk_rq (rq_head q) (rq_tree q) (rq_count q - 1)) else ret tt.

Definition do_exit_current (fuel : nat) (mem : bool) (cpu_id code : Z) : SM sched_result :=
  cur <- gets current ;;
  match cur with
  | None => ret Stay
  | Some c =>
      pid <- tld t_pid c ;;
      if pid =? 0 then ret Halt else
      on_files (fd_close_all (Some (Z.pos c))) ;;;
      reparent_children_to_init cur ;;;
      signal_child_event mem cur ;;;
      tupd (λ t, set_state TASK_ZOMBIE (set_exit_code code t)) c ;;;
      par <- tld t_parent c ;;
      (match par with
       | Some p => st <- tld t_state p ;; if decide (st = TASK_BLOCKED) then tupd (set_state TASK_READY) p else ret tt
       | None => ret tt
       end) ;;;
      prev <- find_prev fuel NULL c c ;;
      prev <- non_null prev ;;
      if decide (prev = c) then ret Halt else
      exit_unlink cpu_id c prev ;;;
      schedule fuel cpu_id
  end.

(** ** waitpid: one turn of its loop *)

(** The first zombie child that matches, with the children before and after
    it. *)
Fixpoint find_zombie (pid : Z) (cs : list loc) : SM (option (list loc * loc * list loc)) :=
  match cs with
  | [] => ret None
  | c :: cs =>
      p <- tld t_pid c ;; st <- tld t_state c ;;
      if ((pid =? -1) || (p =? pid)) && bool_decide (st = TASK_ZOMBIE) then ret (Some ([], c, cs)) else
      r <- find_zombie pid cs ;;
      ret (match r with Some (a, z, b) => Some (c :: a, z, b) | None => None end)
  end.

Inductive wait_result := Collected (pid code : Z) | WouldBlock | Blocked (r : sched_result) | NoTask.

Definition waitpid_turn (fuel : nat) (cpu_id kernel_cr3 pid : Z) (wnohang : bool) : SM wait_result :=
  cur <- gets current ;;
  match cur with
  | None => ret NoTask
  | Some c =>
      cs <- tld t_children c ;;
      z <- find_zombie pid cs ;;
      match z with
      | Some (a, z, b) =>
          zpid <- tld t_pid z ;; code <- tld t_exit_code z ;;
          stack <- tld t_stack_phys z ;; cr3 <- tld t_cr3 z ;;
          tupd (set_children (a ++ b)) c ;;;
          (match stack with Some p => free_page p | None => ret tt end) ;;;
          (if negb (cr3 =? 0) && negb (cr3 =? kernel_cr3) then free_page cr3 else ret tt) ;;;
          on_pids (free_pid zpid) ;;;
          tupd (set_state TASK_DEAD) z ;;;
          kfree_task z ;;;
          ret (Collected zpid code)
      | None =>
          if wnohang then ret WouldBlock else
          tupd (set_state TASK_BLOCKED) c ;;; r <- schedule fuel cpu_id ;; ret (Blocked r)
      end
  end.
End sched.
