(* ===== verification/SchedInv.v ===== *)
(** * The scheduler: lemmas on its steps. *)
From S2P Require Import Prelude RBTree RBTreeInv PidAlloc Files Task RunQueue RunQueueInv RunQueueSpec Sched.
Local Open Scope Z_scope.
Local Open Scope kernel_scope.

(** [x] is ready or running. *)
Definition runs (s : ksched) (x : loc) : Prop :=
  t_state <$> tasks s !! x = Some TASK_READY ∨ t_state <$> tasks s !! x = Some TASK_RUNNING.
#[export] Instance runs_dec s x : Decision (runs s x) := _.

(** The reference choice: the first runnable task other than [c]. *)
Definition choice (s : ksched) (c : loc) (l : list loc) : ptr := head (filter (λ x, runs s x ∧ x ≠ c) l).

(** The queues do not depend on what a task update leaves alone. *)
Definition keeps_next (f : task → task) : Prop := ∀ t, t_next (f t) = t_next t.

Section sched.
Context `{RT : ReadyTree}.

Lemma on_tree_read {A} cpu q s (m : M A) a :
  0 ≤ cpu → queues s !! Z.to_nat cpu = Some q → m (mk_mem (rq_tree q) (rbs s)) = Some (a, mk_mem (rq_tree q) (rbs s)) →
  on_tree cpu m s = Some (a, s).
Proof.
  intros Hc Hq Hm. rewrite (on_tree_ok _ _ _ _ _ _ Hc Hq Hm). cbn [root nodes]. do 2 f_equal.
  rewrite list_insert_id; [by destruct s|]. rewrite Hq. by destruct q.
Qed.

Lemma pick_ok fuel cpu q s c l1 l2 :
  0 ≤ cpu → queues s !! Z.to_nat cpu = Some q → rt_rep (l1 ++ l2) (mk_mem (rq_tree q) (rbs s)) →
  Z.of_nat (length (l1 ++ l2)) < rt_cap → (∀ x, x ∈ l2.*2 → is_Some (tasks s !! x)) → (length l2 < fuel)%nat →
  pick fuel cpu c (snd <$> head l2) s = Some (choice s c l2.*2, s).
Proof.
  intros Hc Hq. revert l1 fuel. induction l2 as [|[k x] l2 IH]; intros l1 fuel HR Hcap Hl Hf; destruct fuel as [|fuel];
    try (cbn [length] in Hf; lia); [done|].
  cbn [pick head fmap option_fmap option_map snd list_fmap]. destruct (Hl x) as [t Ht]; [left|].
  unfold bind at 1, tld. rewrite Ht. unfold choice. 
  destruct (runnable (t_state t) && bool_decide (x ≠ c)) eqn:E.
  - apply andb_prop in E as [E1%bool_decide_eq_true E2%bool_decide_eq_true].
    rewrite filter_cons_True; [done|]. split; [|done]. unfold runs. rewrite Ht. cbn. destruct E1; [left|right]; congruence.
  - rewrite filter_cons_False.
    2: { intros [HX Hx]. unfold runs in HX. rewrite Ht in HX. cbn in HX.
         rewrite (bool_decide_eq_true_2 (x ≠ c)) in E by done. rewrite andb_true_r in E.
         apply bool_decide_eq_false in E. apply E. destruct HX as [[= ->]|[= ->]]; tauto. }
    rewrite (bind_Some _ _ _ _ _ (on_tree_read cpu q s (rt_next x) _ Hc Hq (rt_next_spec l1 k x l2 _ HR Hcap))).
    apply (IH (l1 ++ [(k, x)])).
    + by rewrite <- app_assoc.
    + by rewrite <- app_assoc.
    + intros y Hy. apply Hl. by right.
    + cbn [length] in Hf. lia.
Qed.

(** Updating a task without touching its link keeps the queues. *)
Lemma queues_ok_frame s s' vs :
  queues_ok s vs → queues s' = queues s → rbs s' = rbs s →
  (∀ x, next_of (tasks s') x = next_of (tasks s) x) → queues_ok s' vs.
Proof.
  intros [HE HL HN HC HV] EQ ER Hx. constructor; try done.
  - rewrite EQ. eapply Forall2_impl; [exact HE|]. intros q v HR. eapply rq_ok_frame; [|exact HR].
    intros x _. by rewrite Hx, ER.
  - by rewrite EQ.
  - intros x [t Ht]. rewrite ER. apply HV. specialize (Hx x). unfold next_of in Hx. rewrite Ht in Hx.
    destruct (tasks s !! x); [by eexists|done].
Qed.

(** The same when only the queued tasks' links and tree nodes are known. *)
Lemma queues_ok_frame_queued s s' vs :
  queues_ok s vs → queues s' = queues s →
  (∀ x, x ∈ queued vs → next_of (tasks s') x = next_of (tasks s) x ∧ rbs s' !! x = rbs s !! x) →
  (∀ x, is_Some (tasks s' !! x) → is_Some (rbs s' !! x)) → queues_ok s' vs.
Proof.
  intros [HE HL HN HC HV] EQ Hx HV'. constructor; try done; rewrite EQ; [|done].
  eapply Forall2_impl_in; [exact HE|]. intros q v _ Hv HR. eapply rq_ok_frame; [|exact HR].
  intros x Hxv. apply Hx. unfold queued. apply list_elem_of_In, in_concat. exists v.2.
  split; apply list_elem_of_In; [by apply (list_elem_of_fmap_2 snd)|done].
Qed.

Lemma tupd_ok s x t f : tasks s !! x = Some t → tupd f x s = Some (tt, with_tasks (<[x := f t]> (tasks s)) s).
Proof. intros H. unfold tupd. by rewrite H. Qed.
Lemma tld_ok {A} s x t (f : task → A) : tasks s !! x = Some t → tld f x s = Some (f t, s).
Proof. intros H. unfold tld. by rewrite H. Qed.

Lemma next_of_upd ts x t f y :
  ts !! x = Some t → t_next (f t) = t_next t → next_of (<[x := f t]> ts) y = next_of ts y.
Proof.
  intros Hx Hf. unfold next_of. destruct (decide (x = y)) as [<-|Hne].
  - rewrite lookup_insert_eq, Hx. cbn. by rewrite Hf.
  - by rewrite lookup_insert_ne.
Qed.

Lemma charge_next t : t_next (charge t) = t_next t. Proof. done. Qed.
Lemma leave_cpu_next t : t_next (leave_cpu t) = t_next t.
Proof. unfold leave_cpu. by case_decide. Qed.

(** The state at the context switch. *)
Definition switched (cpu : Z) (c x : loc) (tc tx : task) (s : ksched) : ksched :=
  let m := if t_vruntime tx <=? min_vruntime s then min_vruntime s else t_vruntime tx in
  mk_ks (<[x := count_switch (set_state TASK_RUNNING tx)]> (<[c := leave_cpu tc]> (tasks s))) (rbs s) (queues s) (Some x)
    (init_task s) (idle_task s) m (resched s) (pids s) (files s) (num_cpus s) (freed s) (<[cpu := x]> (cpu_task s)).

Lemma switch_to_ok cpu c x tc tx s :
  0 ≤ cpu < MAX_CPUS → tasks s !! c = Some tc → tasks s !! x = Some tx → c ≠ x →
  switch_to cpu c x s = Some (Switch c x, switched cpu c x tc tx s).
Proof.
  intros Hcpu Hc Hx Hne. unfold switch_to. rewrite (bind_Some _ _ _ _ _ (tupd_ok _ _ _ leave_cpu Hc)).
  set (s1 := with_tasks _ s). assert (tasks s1 !! x = Some tx) as Hx1 by (cbn; by rewrite lookup_insert_ne).
  rewrite (bind_Some _ _ _ _ _ (tld_ok s1 x tx t_vruntime Hx1)), bind_modify. set (s2 := if _ <=? _ then s1 else _).
  assert (tasks s2 !! x = Some tx) as Hx2 by (unfold s2; by destruct (_ <=? _)).
  rewrite (bind_Some _ _ _ _ _ (tupd_ok s2 x tx _ Hx2)), bind_modify.
  rewrite (proj2 (Z.leb_le 0 cpu)), (proj2 (Z.ltb_lt cpu MAX_CPUS)) by lia. cbn [andb]. rewrite bind_modify.
  erewrite (bind_Some (tupd count_switch x)).
  2: { apply tupd_ok. cbn [with_cpu_task with_current with_tasks tasks]. apply lookup_insert_eq. }
  unfold ret. do 2 f_equal. cbn [with_cpu_task with_current with_tasks tasks]. rewrite insert_insert_eq.
  unfold switched, s2, s1. cbn [min_vruntime with_tasks]. by destruct (_ <=? _).
Qed.

Lemma switched_queues cpu c x tc tx s vs :
  tasks s !! c = Some tc → tasks s !! x = Some tx → c ≠ x → queues_ok s vs → queues_ok (switched cpu c x tc tx s) vs.
Proof.
  intros Hc Hx Hne HQ. eapply queues_ok_frame; [exact HQ|done|done|]. intros y. cbn [switched tasks].
  rewrite (next_of_upd (<[c:=leave_cpu tc]> (tasks s)) x tx (λ t, count_switch (set_state TASK_RUNNING t)));
    [|by rewrite lookup_insert_ne|done].
  apply next_of_upd; [done|apply leave_cpu_next].
Qed.

(** Every queued task is a task. *)
Lemma queued_live s vs x : queues_ok s vs → x ∈ queued vs → ∃ t y, tasks s !! x = Some t ∧ t_next t = Some y.
Proof.
  intros HQ Hx. unfold queued in Hx. apply list_elem_of_In, in_concat in Hx as (ring & Hr & Hx).
  apply list_elem_of_In in Hr, Hx. apply list_elem_of_fmap in Hr as (v & -> & Hv).
  apply list_elem_of_lookup in Hv as [i Hv]. destruct (Forall2_lookup_r _ _ _ _ _ (qo_each _ _ HQ) Hv) as (q & _ & HR).
  apply list_elem_of_split in Hx as (l1 & l2 & E). pose proof (ro_ring _ _ _ _ HR) as HRing. rewrite E in HRing.
  apply ring_rotate in HRing. destruct HRing as [X _]. unfold next_of in X.
  destruct (tasks s !! x) as [t|]; [|done]. injection X as X. by eexists _, _.
Qed.

Lemma schedule_pick fuel cpu s vs c v :
  queues_ok s vs → 0 ≤ cpu < MAX_CPUS → vs !! Z.to_nat cpu = Some v → current s = Some c → v.2 ≠ [] →
  (∃ tc n, tasks s !! c = Some tc ∧ t_next tc = Some n) → (length v.2 < fuel)%nat →
  schedule fuel cpu s =
    match choice s c v.1.*2 with
    | Some x => switch_to cpu c x s
    | None =>
        (idle <- gets idle_task ;;
         idle_ready <- (match idle with
                        | Some i => if decide (i = c) then ret false else st <- tld t_state i ;; ret (bool_decide (st = TASK_READY))
                        | None => ret false end) ;;
         match idle, (idle_ready : bool) with
         | Some i, true => switch_to cpu c i
         | _, _ => st <- tld t_state c ;;
             if decide (st = TASK_RUNNING) then tupd (set_state TASK_RUNNING) c ;;; ret Stay else ret Halt
         end) s
    end.
Proof.
  intros HQ Hcpu Hv Hcur Hne (tc & n & Htc & Hn) Hf.
  destruct (Forall2_lookup_r _ _ _ _ _ (qo_each _ _ HQ) Hv) as (q & Hq & HR).
  unfold schedule. rewrite bind_gets, Hcur. rewrite (bind_Some _ _ _ _ _ (tld_ok s c tc t_next Htc)), Hn.
  rewrite decide_False by done. rewrite (bind_Some _ _ _ _ _ (rq_get_ok _ _ _ (proj1 Hcpu) Hq)).
  rewrite decide_False by (rewrite (ro_head _ _ _ _ HR); by destruct v.2).
  assert (Z.of_nat (length v.1) < rt_cap) as Hcap.
  { rewrite (rq_ok_length _ _ _ _ HR). destruct (split_lookup _ _ _ Hv) as (A & B & E & _).
    pose proof (qo_cap _ _ HQ) as C. rewrite E, queued_split, !length_app in C. unfold rq_cap in C. lia. }
  rewrite (bind_Some _ _ _ _ _ (on_tree_read cpu q s rt_find_min _ (proj1 Hcpu) Hq
    (rt_find_min_spec v.1 _ (ro_tree _ _ _ _ HR) Hcap))).
  erewrite bind_Some.
  2: { apply (pick_ok fuel cpu q s c [] v.1); [lia|done|apply (ro_tree _ _ _ _ HR)|done| |].
       - intros x Hx. rewrite (ro_perm _ _ _ _ HR) in Hx. destruct (queued_live s vs x HQ) as (t & _ & Ht & _); [|by eexists].
         destruct (split_lookup _ _ _ Hv) as (A & B & -> & _). rewrite queued_split, !elem_of_app. tauto.
       - by rewrite (rq_ok_length _ _ _ _ HR). }
  by destruct (choice s c v.1.*2).
Qed.
End sched.
