(* ===== verification/SchedThms.v ===== *)
(** * Properties of scheduling: the choice of the next task, starvation, idling
    and the accounting of time slices. *)
From S2P Require Import Prelude RBTree RBTreeInv PidAlloc Files Task RunQueue RunQueueInv RunQueueSpec Sched SchedInv.
Local Open Scope Z_scope.
Local Open Scope kernel_scope.

(** [loaded_machine] of [RunQueueSpec] with CPU 0 at task 1. *)
Definition cpu0_view : view := ([(5, 2%positive); (7, 3%positive); (10, 1%positive)], [1%positive; 3%positive; 2%positive]).

Section lemmas.
Context `{RT : ReadyTree}.

Lemma choice_queued s vs cpu c v x :
  queues_ok s vs → vs !! Z.to_nat cpu = Some v → choice s c v.1.*2 = Some x → c ≠ x ∧ ∃ tx, tasks s !! x = Some tx.
Proof.
  intros HQ Hv Hx. unfold choice in Hx.
  assert (x ∈ filter (λ x, runs s x ∧ x ≠ c) v.1.*2) as [[HR Hne] _]%list_elem_of_filter.
  { destruct (filter _ _); [done|]. injection Hx as ->. left. }
  split; [done|]. unfold runs in HR. destruct (tasks s !! x) as [tx|]; [by exists tx|]. by destruct HR.
Qed.

(** No other task: a running task continues, any other halts the CPU. *)
Lemma fallback_none s c tc :
  tasks s !! c = Some tc →
  (st <- tld t_state c ;; if decide (st = TASK_RUNNING) then tupd (set_state TASK_RUNNING) c ;;; ret Stay else ret Halt) s =
  Some (if decide (t_state tc = TASK_RUNNING) then Stay else Halt, s).
Proof.
  intros Hc. rewrite (bind_Some _ _ _ _ _ (tld_ok s c tc t_state Hc)). case_decide as D; [|done].
  rewrite (bind_Some _ _ _ _ _ (tupd_ok s c tc _ Hc)). unfold ret. do 2 f_equal.
  assert (set_state TASK_RUNNING tc = tc) as -> by (destruct tc; cbn in *; by rewrite D).
  rewrite insert_id by done. by destruct s.
Qed.
End lemmas.

(** C12: On well-formed queues [schedule] returns. If a task other than the
    current one is ready or running in this CPU's tree, it switches to the
    first of them in key order: that task is running and current afterwards, a
    preempted task is ready and charged, a blocked or dead one is left as it
    is, no other task and no queue changes, and the minimum virtual run time
    never decreases. Otherwise it switches to the idle task if that is ready;
    failing this, a running task just continues, and one that is not running
    leaves the CPU halted. *)
Theorem schedule_correct `{RT : ReadyTree} fuel cpu s vs c tc v :
  queues_ok s vs → 0 ≤ cpu < MAX_CPUS → vs !! Z.to_nat cpu = Some v → v.2 ≠ [] → (length v.2 < fuel)%nat →
  current s = Some c → tasks s !! c = Some tc → is_Some (t_next tc) →
  match choice s c v.1.*2 with
  | Some x =>
      ∃ s' tx, schedule fuel cpu s = Some (Switch c x, s') ∧ queues_ok s' vs ∧ current s' = Some x ∧
        tasks s !! x = Some tx ∧ tasks s' !! x = Some (count_switch (set_state TASK_RUNNING tx)) ∧
        tasks s' !! c = Some (if decide (t_state tc = TASK_RUNNING) then charge (set_state TASK_READY tc) else tc) ∧
        (∀ y, y ≠ c → y ≠ x → tasks s' !! y = tasks s !! y) ∧
        min_vruntime s' = Z.max (min_vruntime s) (t_vruntime tx) ∧ queues s' = queues s
  | None =>
      (∀ i ti, idle_task s = Some i → i ≠ c → tasks s !! i = Some ti → t_state ti = TASK_READY →
         ∃ s', schedule fuel cpu s = Some (Switch c i, s') ∧ queues_ok s' vs ∧ current s' = Some i) ∧
      ((∀ i, idle_task s = Some i → i = c ∨ ∃ ti, tasks s !! i = Some ti ∧ t_state ti ≠ TASK_READY) →
         schedule fuel cpu s = Some (if decide (t_state tc = TASK_RUNNING) then Stay else Halt, s))
  end.
Proof.
  intros HQ Hcpu Hv Hne Hf Hcur Htc Hn.
  rewrite (schedule_pick fuel cpu s vs c v) by (try done; destruct Hn as [n Hn]; exists tc, n; by rewrite Hn).
  destruct (choice s c v.1.*2) as [x|] eqn:Ech.
  - destruct (choice_queued s vs cpu c v x HQ Hv Ech) as (Hxc & tx & Htx).
    exists (switched cpu c x tc tx s), tx. split; [by apply switch_to_ok|].
    split; [by apply switched_queues|]. cbn [switched current tasks min_vruntime queues]. split; [done|]. split; [done|].
    split; [apply lookup_insert_eq|]. split; [rewrite lookup_insert_ne, lookup_insert_eq by done; done|].
    split; [intros y H1 H2; by rewrite !lookup_insert_ne|]. split; [|done].
    destruct (_ <=? _) eqn:L; [apply Z.leb_le in L|apply Z.leb_gt in L]; lia.
  - split.
    + intros i ti Hi Hic Hti Hst. rewrite bind_gets, Hi, decide_False by done.
      erewrite bind_Some by (rewrite (bind_Some _ _ _ _ _ (tld_ok s i ti t_state Hti)); done).
      rewrite bool_decide_true by done.
      rewrite (switch_to_ok cpu c i tc ti) by done. eexists. split; [done|]. split; [by apply switched_queues|done].
    + intros Hidle. rewrite bind_gets. destruct (idle_task s) as [i|]; [|by apply (fallback_none s c tc)].
      destruct (Hidle i eq_refl) as [->|(ti & Hti & Hst)].
      * rewrite decide_True, bind_ret_l by done. by apply (fallback_none s c tc).
      * case_decide as D; [rewrite bind_ret_l; by apply (fallback_none s c tc)|].
        erewrite bind_Some by (rewrite (bind_Some _ _ _ _ _ (tld_ok s i ti t_state Hti)); done).
        rewrite bool_decide_false by done. by apply (fallback_none s c tc).
Qed.

Lemma schedule_correct_witness :
  ∃ s', schedule 4 0 loaded_machine = Some (Switch 1%positive 2%positive, s') ∧ queues_ok s' loaded_views ∧
    min_vruntime s' = 5.
Proof.
  assert (∃ tc, tasks loaded_machine !! 1%positive = Some tc ∧ is_Some (t_next tc)) as (tc & Htc & Hn)
    by (vm_compute; eexists; split; [reflexivity|by eexists]).
  assert (∃ tx, tasks loaded_machine !! 2%positive = Some tx ∧ t_vruntime tx = 5) as (tx & Htx & Hv)
    by (vm_compute; eexists; split; reflexivity).
  assert (choice loaded_machine 1%positive cpu0_view.1.*2 = Some 2%positive) as Ech by (vm_compute; reflexivity).
  assert (current loaded_machine = Some 1%positive ∧ min_vruntime loaded_machine = 0) as [Hcur HM]
    by (vm_compute; split; reflexivity).
  pose proof (schedule_correct 4 0 loaded_machine loaded_views 1%positive tc cpu0_view loaded_machine_ok
    (conj (Z.le_refl 0) eq_refl) eq_refl ltac:(discriminate) ltac:(cbn; lia) Hcur Htc Hn) as H.
  rewrite Ech in H. destruct H as (s' & tx' & R & HQ & _ & Htx' & _ & _ & _ & M & _).
  assert (Some tx' = Some tx) as [= ->] by (rewrite <- Htx'; exact Htx).
  exists s'. split; [exact R|]. split; [exact HQ|]. rewrite M, HM, Hv. reflexivity.
Defined.

(** ** A run of yields *)
Section yields.
Context `{RT : ReadyTree}.

Fixpoint yields (n : nat) (fuel : nat) (cpu : Z) : SM (list sched_result) :=
  match n with
  | O => ret []
  | S n => r <- yield fuel cpu ;; rs <- yields n fuel cpu ;; ret (r :: rs)
  end.

(** [x] and [y] are the first two of the tree, one of them running. *)
Record duo (s : ksched) (vs : list view) (cpu : Z) (v : view) (x y : loc) : Prop := {
  du_ok : queues_ok s vs;
  du_view : vs !! Z.to_nat cpu = Some v;
  du_x : runs s x;
  du_y : runs s y;
  du_cur : current s = Some x ∨ current s = Some y
}.

Lemma runs_frame s s' x : tasks s' !! x = tasks s !! x → runs s x → runs s' x.
Proof. unfold runs. by intros ->. Qed.

Lemma yield_duo fuel cpu s vs v x y rest :
  0 ≤ cpu < MAX_CPUS → v.1.*2 = x :: y :: rest → (length v.2 < fuel)%nat → duo s vs cpu v x y →
  ∃ r s', yield fuel cpu s = Some (r, s') ∧ duo s' vs cpu v x y ∧ (r = Switch x y ∨ r = Switch y x) ∧
    ∀ z, z ≠ x → z ≠ y → tasks s' !! z = tasks s !! z.
Proof.
  intros Hcpu Hxy Hf [HQ Hv Hx Hy Hcur].
  destruct (Forall2_lookup_r _ _ _ _ _ (qo_each _ _ HQ) Hv) as (q & Hq & HR).
  pose proof (rq_ok_nodup _ _ _ _ HR) as Hnd. rewrite <- (ro_perm _ _ _ _ HR), Hxy in Hnd.
  apply NoDup_cons in Hnd as [Hnx Hnd]. assert (x ≠ y) as Hne by (intros ->; apply Hnx; left).
  assert (∀ c o, current s = Some c → (c = x ∧ o = y ∨ c = y ∧ o = x) →
    ∃ s', yield fuel cpu s = Some (Switch c o, s') ∧ queues_ok s' vs ∧ runs s' c ∧ runs s' o ∧ current s' = Some o ∧
      ∀ z, z ≠ c → z ≠ o → tasks s' !! z = tasks s !! z) as K.
  { intros c o Hc Hco. assert (c ≠ o) as Hco' by (destruct Hco as [[-> ->]|[-> ->]]; congruence).
    assert (c ∈ v.2 ∧ o ∈ v.2) as [Hcin Hoin].
    { rewrite <- (ro_perm _ _ _ _ HR), Hxy. destruct Hco as [[-> ->]|[-> ->]]; split; rewrite !elem_of_cons; tauto. }
    assert (∀ z, z ∈ v.2 → z ∈ queued vs) as Hinc.
    { intros z Hz. destruct (split_lookup _ _ _ Hv) as (A & B & -> & _). rewrite queued_split, !elem_of_app. tauto. }
    destruct (queued_live s vs c HQ (Hinc c Hcin)) as (tc & n & Htc & Hn).
    destruct (queued_live s vs o HQ (Hinc o Hoin)) as (to & n' & Hto & Hn').
    unfold yield. rewrite bind_gets, Hc. rewrite (bind_Some _ _ _ _ _ (tupd_ok s c tc _ Htc)).
    set (tc1 := set_state TASK_READY (charge tc)). set (s1 := with_tasks _ s).
    assert (queues_ok s1 vs) as HQ1.
    { eapply queues_ok_frame; [exact HQ|done|done|]. intros z. cbn.
      by apply (next_of_upd (tasks s) c tc (λ t, set_state TASK_READY (charge t))). }
    assert (tasks s1 !! c = Some tc1) as Htc1 by (cbn; apply lookup_insert_eq).
    assert (tasks s1 !! o = Some to) as Hto1 by (cbn; by rewrite lookup_insert_ne).
    assert (runs s1 o) as Hro.
    { apply (runs_frame s); [by rewrite Hto1|]. destruct Hco as [[-> ->]|[-> ->]]; done. }
    assert (choice s1 c v.1.*2 = Some o) as Ech.
    { rewrite Hxy. unfold choice. destruct Hco as [[-> ->]|[-> ->]].
      - rewrite filter_cons_False by tauto. by rewrite filter_cons_True.
      - by rewrite filter_cons_True. }
    rewrite (schedule_pick fuel cpu s1 vs c v), Ech; try done;
      [|by intros E; rewrite E in Hcin; apply not_elem_of_nil in Hcin|by exists tc1, n].
    rewrite (switch_to_ok cpu c o tc1 to s1) by done. eexists. split; [done|]. split; [by apply switched_queues|].
    assert (leave_cpu tc1 = tc1) as El by done.
    split; [|split; [|split; [done|]]].
    - left. cbn [switched tasks]. rewrite lookup_insert_ne, lookup_insert_eq, El by done. done.
    - right. cbn [switched tasks]. by rewrite lookup_insert_eq.
    - intros z Hz1 Hz2. cbn [switched tasks]. rewrite !lookup_insert_ne by done. cbn. by rewrite lookup_insert_ne. }
  destruct Hcur as [Hc|Hc].
  - destruct (K x y Hc) as (s' & R & A & B & C & D & E); [tauto|]. exists (Switch x y), s'. split; [exact R|].
    split; [constructor; try done; by right|]. split; [by left|done].
  - destruct (K y x Hc) as (s' & R & A & B & C & D & E); [tauto|]. exists (Switch y x), s'. split; [exact R|].
    split; [constructor; try done; by left|]. split; [by right|]. intros z H1 H2. by apply E.
Qed.
End yields.

(** However often the tasks of a CPU yield, if the first two of its tree are
    runnable and one of them is current, only these two ever run: each yield
    switches from one to the other, and every other task, whatever its
    priority and virtual run time, stays as it is. The charge that [yield]
    makes to the virtual run time never reaches the key in the tree. *)
Theorem yield_starves `{RT : ReadyTree} n fuel cpu s vs v x y rest :
  0 ≤ cpu < MAX_CPUS → v.1.*2 = x :: y :: rest → (length v.2 < fuel)%nat → duo s vs cpu v x y →
  ∃ rs s', yields n fuel cpu s = Some (rs, s') ∧ length rs = n ∧ queues_ok s' vs ∧
    (∀ r, r ∈ rs → r = Switch x y ∨ r = Switch y x) ∧ ∀ z, z ≠ x → z ≠ y → tasks s' !! z = tasks s !! z.
Proof.
  intros Hcpu Hxy Hf. revert s. induction n as [|n IH]; intros s HD.
  - exists [], s. split; [done|]. split; [done|]. split; [apply HD|]. split; [|done]. by intros r ?%not_elem_of_nil.
  - destruct (yield_duo fuel cpu s vs v x y rest Hcpu Hxy Hf HD) as (r & s1 & R1 & HD1 & Hr & F1).
    destruct (IH s1 HD1) as (rs & s2 & R2 & L2 & Q2 & Hrs & F2).
    exists (r :: rs), s2. split; [cbn [yields]; run R1; by run R2|]. split; [by rewrite <- L2|]. split; [exact Q2|].
    split; [intros r' [->|Hin]%elem_of_cons; [done|by apply Hrs]|].
    intros z H1 H2. by rewrite F2, F1.
Qed.

Lemma yield_starves_witness :
  ∃ rs s', yields 100 4 0 (with_current (Some 3%positive) loaded_machine) = Some (rs, s') ∧ length rs = 100%nat ∧
    tasks s' !! 1%positive = tasks loaded_machine !! 1%positive.
Proof.
  destruct (yield_starves 100 4 0 (with_current (Some 3%positive) loaded_machine) loaded_views cpu0_view
    2%positive 3%positive [1%positive]) as (rs & s' & R & L & _ & _ & F); [by split|reflexivity|cbn; lia| |].
  - constructor; [|reflexivity|left; vm_compute; reflexivity|left; vm_compute; reflexivity|by right].
    eapply queues_ok_frame; [apply loaded_machine_ok|done|done|done].
  - exists rs, s'. split; [exact R|]. split; [exact L|]. rewrite F by done. done.
Defined.

(** If no other task of its CPU is runnable, the idle task does not idle:
    its [yield] marks it ready before [schedule] looks for a running task, so
    the CPU enters the [cli; hlt] loop, in which no interrupt can arrive. *)
Theorem idle_yield_halts `{RT : ReadyTree} fuel cpu s vs v c tc :
  queues_ok s vs → 0 ≤ cpu < MAX_CPUS → vs !! Z.to_nat cpu = Some v → v.2 ≠ [] → (length v.2 < fuel)%nat →
  current s = Some c → idle_task s = Some c → tasks s !! c = Some tc → is_Some (t_next tc) →
  (∀ x, x ∈ v.2 → x ≠ c → ¬ runs s x) →
  ∃ s', yield fuel cpu s = Some (Halt, s') ∧ queues_ok s' vs ∧ ∀ x, x ≠ c → tasks s' !! x = tasks s !! x.
Proof.
  intros HQ Hcpu Hv Hne Hf Hcur Hidle Htc [n Hn] Hno.
  destruct (Forall2_lookup_r _ _ _ _ _ (qo_each _ _ HQ) Hv) as (q & Hq & HR).
  unfold yield. rewrite bind_gets, Hcur. rewrite (bind_Some _ _ _ _ _ (tupd_ok s c tc _ Htc)).
  set (tc1 := set_state TASK_READY (charge tc)). set (s1 := with_tasks _ s).
  assert (tasks s1 !! c = Some tc1) as Htc1 by (cbn; apply lookup_insert_eq).
  assert (queues_ok s1 vs) as HQ1.
  { eapply queues_ok_frame; [exact HQ|done|done|]. intros z. cbn.
    by apply (next_of_upd (tasks s) c tc (λ t, set_state TASK_READY (charge t))). }
  rewrite (schedule_pick fuel cpu s1 vs c v) by (try done; by exists tc1, n).
  assert (choice s1 c v.1.*2 = NULL) as ->.
  { unfold choice. rewrite filter_none; [done|]. intros x Hx [Hr Hxc]. rewrite (ro_perm _ _ _ _ HR) in Hx.
    apply (Hno x Hx Hxc). eapply runs_frame; [|exact Hr]. cbn. by rewrite lookup_insert_ne. }
  rewrite bind_gets. change (idle_task s1) with (idle_task s). rewrite Hidle, decide_True, bind_ret_l by done.
  exists s1. split; [by rewrite (fallback_none s1 c tc1)|]. split; [done|]. intros x Hx. cbn. by rewrite lookup_insert_ne.
Qed.

(** CPU 0 with one task, which is the idle task. *)
Definition lone_machine : ksched :=
  match smp_enqueue_task (Some 1%positive) 0 (with_idle_task (Some 1%positive) idle_machine) with
  | Some (_, s) => s
  | None => idle_machine
  end.
Definition lone_views : list view := ([(10, 1%positive)], [1%positive]) :: replicate 7 ([], []).
Lemma lone_machine_ok : queues_ok lone_machine lone_views.
Proof.
  destruct (smp_enqueue_task_ok (with_idle_task (Some 1%positive) idle_machine) no_views 0 1%positive 10 ([], []))
    as (s1 & L1 & Q1 & S1 & N1); [|done..|apply not_elem_of_nil|done|done|].
  - eapply queues_ok_frame; [exact idle_machine_ok|done|done|done].
  - assert (lone_machine = s1) as ->; [|exact Q1].
    exact (f_equal (λ o : option (unit * ksched), match o with Some (_, s) => s | None => idle_machine end) L1).
Qed.

Lemma idle_yield_halts_witness : ∃ s', yield 4 0 lone_machine = Some (Halt, s') ∧ queues_ok s' lone_views.
Proof.
  assert (∃ tc, tasks lone_machine !! 1%positive = Some tc ∧ is_Some (t_next tc)) as (tc & Htc & Hn)
    by (vm_compute; eexists; split; [reflexivity|by eexists]).
  destruct (idle_yield_halts 4 0 lone_machine lone_views ([(10, 1%positive)], [1%positive]) 1%positive tc lone_machine_ok)
    as (s' & R & HQ & _); [by split|reflexivity|discriminate|cbn; lia|vm_compute; reflexivity..|exact Htc|exact Hn| |].
  - intros x Hx Hne. apply list_elem_of_singleton in Hx. done.
  - exists s'. split; [exact R|exact HQ].
Defined.

(** ** Time slices *)
Lemma full_slice_bounds t : 0 ≤ t_priority t ≤ 255 → 1 ≤ full_slice t ≤ 10.
Proof.
  intros Hp. unfold full_slice. assert (BASE_SLICE = 10) as -> by done.
  assert (0 ≤ Z.quot (10 * (256 - t_priority t)) 256 ≤ 10).
  { split; [apply Z.quot_pos; lia|]. apply Z.quot_le_upper_bound; lia. }
  destruct (_ <? 1) eqn:E; apply Z.ltb_lt in E || apply Z.ltb_ge in E; lia.
Qed.

(** The charge over unbounded integers. *)
Lemma charge_eq t :
  0 ≤ t_priority t ≤ 255 → 0 ≤ t_time_slice t ≤ full_slice t →
  t_vruntime (charge t) = u64 (t_vruntime t + Z.max 1 (full_slice t - t_time_slice t) * 128 / (t_priority t + 1)).
Proof.
  intros Hp Ht. pose proof (full_slice_bounds t Hp) as HF. unfold charge, full_slice in *. cbv zeta in *.
  set (q := Z.quot (BASE_SLICE * (256 - t_priority t)) 256) in *.
  assert (0 ≤ q ≤ 10) as Hq.
  { assert (BASE_SLICE = 10) as E by done. unfold q. rewrite E. split; [apply Z.quot_pos; lia|apply Z.quot_le_upper_bound; lia]. }
  assert (u64 q = q) as -> by (apply Z.mod_small; lia).
  set (f := if q <? 1 then 1 else q) in *. assert (i64 f = f) as -> by (unfold i64; rewrite Z.mod_small; lia).
  assert (u64 (t_priority t + 1) = t_priority t + 1) as -> by (apply Z.mod_small; lia).
  cbn [set_vruntime t_vruntime]. do 2 f_equal.
  assert ((if f - t_time_slice t <=? 0 then 1 else f - t_time_slice t) = Z.max 1 (f - t_time_slice t)) as ->.
  { destruct (_ <=? 0) eqn:E; apply Z.leb_le in E || apply Z.leb_gt in E; lia. }
  f_equal. apply Z.mod_small. lia.
Qed.

Lemma schedule_tick_ok s c t :
  current s = Some c → tasks s !! c = Some t → t_preempt_count t ≤ 0 →
  ∃ s', schedule_tick s = Some (tt, s') ∧ current s' = Some c ∧ tasks s' !! c = Some (tick_task t).1 ∧
    resched s' = resched s || (tick_task t).2.
Proof.
  intros Hc Ht Hp. unfold schedule_tick. rewrite bind_gets, Hc.
  rewrite (bind_Some _ _ _ _ _ (tld_ok s c t t_preempt_count Ht)), (proj2 (Z.ltb_ge _ _)) by lia.
  rewrite (bind_Some _ _ _ _ _ (tld_ok s c t (λ t, (tick_task t).2) Ht)).
  rewrite (bind_Some _ _ _ _ _ (tupd_ok s c t (λ t, (tick_task t).1) Ht)).
  destruct (tick_task t).2; (eexists; split; [reflexivity|]); cbn; rewrite lookup_insert_eq, ?orb_true_r, ?orb_false_r; done.
Qed.

(** Ticks before the slice runs out. *)
Lemma ticks_within j s c t :
  current s = Some c → tasks s !! c = Some t → t_state t = TASK_RUNNING → t_preempt_count t ≤ 0 →
  Z.of_nat j < t_time_slice t →
  ∃ s', for_range j 0 (λ _, schedule_tick) s = Some (tt, s') ∧ current s' = Some c ∧ resched s' = resched s ∧
    tasks s' !! c = Some (set_time_slice (t_time_slice t - Z.of_nat j) t).
Proof.
  intros Hc Ht Hst Hp Hj.
  destruct (for_range_ind (λ _, schedule_tick) (λ i s', current s' = Some c ∧ resched s' = resched s ∧
    tasks s' !! c = Some (set_time_slice (t_time_slice t - i) t)) j 0 s) as (s' & R & H1 & H2 & H3).
  - rewrite Z.sub_0_r. assert (set_time_slice (t_time_slice t) t = t) as -> by (by destruct t). done.
  - intros i s1 Hi (H1 & H2 & H3). destruct (schedule_tick_ok s1 c _ H1 H3) as (s2 & R & C2 & T2 & R2); [done|].
    exists s2. split; [exact R|]. split; [done|]. rewrite R2, T2, H2. unfold tick_task. cbn [set_time_slice t_state t_time_slice].
    rewrite decide_True by done. rewrite (proj2 (Z.ltb_lt 0 _)) by lia.
    rewrite (proj2 (Z.leb_gt _ 0)) by (cbn; lia). split; [apply orb_false_r|].
    replace (t_time_slice t - (i + 1)) with (t_time_slice t - i - 1) by lia. done.
  - exists s'. split; [exact R|]. split; [done|]. split; [done|]. exact H3.
Qed.

(** A running task with a fresh slice that is switched out after [j] of its
    ticks is charged [j * 128 / (priority + 1)] as long as [j] is short of the
    slice. At the last tick of the slice the reschedule flags are set and the
    slice is refilled before the charge is computed, so a task that used all
    of it is charged for a single tick, as little as one that used one. *)
Theorem slice_accounting s c t j :
  current s = Some c → tasks s !! c = Some t → t_state t = TASK_RUNNING → t_preempt_count t ≤ 0 →
  0 ≤ t_priority t ≤ 255 → t_time_slice t = full_slice t → 0 < Z.of_nat j ≤ full_slice t →
  ∃ s' t', for_range j 0 (λ _, schedule_tick) s = Some (tt, s') ∧ tasks s' !! c = Some t' ∧
    if decide (Z.of_nat j = full_slice t) then
      t_need_resched t' = true ∧ resched s' = true ∧ t_time_slice t' = full_slice t ∧
      t_vruntime (leave_cpu t') = u64 (t_vruntime t + 1 * 128 / (t_priority t + 1))
    else
      t_need_resched t' = t_need_resched t ∧ resched s' = resched s ∧ t_time_slice t' = full_slice t - Z.of_nat j ∧
      t_vruntime (leave_cpu t') = u64 (t_vruntime t + Z.of_nat j * 128 / (t_priority t + 1)).
Proof.
  intros Hc Ht Hst Hp Hpr Hts Hj. pose proof (full_slice_bounds t Hpr) as HF.
  assert (∀ x, t_state x = TASK_RUNNING → t_vruntime (leave_cpu x) = t_vruntime (charge x)) as Hleave.
  { intros x Hx. unfold leave_cpu. rewrite decide_True by done. done. }
  case_decide as D.
  - destruct (ticks_within (j - 1) s c t) as (s1 & R1 & C1 & F1 & T1); try done; [lia|].
    destruct (schedule_tick_ok s1 c _ C1 T1) as (s2 & R2 & C2 & T2 & F2); [done|].
    assert (∀ n (m : SM unit) i s0, for_range (n + 1) i (λ _, m) s0 = (for_range n i (λ _, m) ;;; m) s0) as Hsnoc.
    { intros n m. induction n as [|n IH]; intros i s0; cbn [Nat.add for_range].
      - unfold bind, ret. destruct (m s0) as [[[] ?]|]; done.
      - unfold bind at 1 2. destruct (m s0) as [[[] s3]|] eqn:E; [|unfold bind; by rewrite E]. rewrite IH.
        unfold bind. by rewrite E. }
    replace j with (j - 1 + 1)%nat by lia. rewrite Hsnoc. run R1.
    exists s2, (tick_task (set_time_slice (t_time_slice t - Z.of_nat (j - 1)) t)).1. split; [exact R2|]. split; [exact T2|].
    replace (t_time_slice t - Z.of_nat (j - 1)) with 1 in * by lia.
    assert (tick_task (set_time_slice 1 t) = (set_time_slice (full_slice t) (set_need_resched true (set_time_slice 0 t)), true)) as Et.
    { unfold tick_task. cbn [set_time_slice t_state t_time_slice]. rewrite decide_True by done. done. }
    rewrite F2, Et. cbn [fst snd]. split; [done|]. split; [apply orb_true_r|]. split; [done|].
    rewrite Hleave, charge_eq by (try done; cbn [set_time_slice t_time_slice]; change (full_slice (set_time_slice (full_slice t) (set_need_resched true (set_time_slice 0 t)))) with (full_slice t); lia).
    change (full_slice (set_time_slice (full_slice t) (set_need_resched true (set_time_slice 0 t)))) with (full_slice t).
    cbn [set_time_slice set_need_resched t_time_slice t_vruntime t_priority]. by rewrite Z.sub_diag.
  - destruct (ticks_within j s c t) as (s1 & R1 & C1 & F1 & T1); try done; [lia|].
    eexists s1, _. split; [exact R1|]. split; [exact T1|]. rewrite F1.
    split; [done|]. split; [done|]. split; [cbn; lia|].
    rewrite Hleave by done. rewrite charge_eq;
      change (full_slice (set_time_slice (t_time_slice t - Z.of_nat j) t)) with (full_slice t);
      cbn [set_time_slice t_time_slice t_vruntime t_priority]; [|lia|lia].
    do 3 f_equal. lia.
Qed.

Lemma slice_accounting_witness :
  ∃ s' t', for_range 5 0 (λ _, schedule_tick) loaded_machine = Some (tt, s') ∧ tasks s' !! 1%positive = Some t' ∧
    t_need_resched t' = true ∧ t_vruntime (leave_cpu t') = 10.
Proof.
  assert (∃ t, tasks loaded_machine !! 1%positive = Some t ∧ t_state t = TASK_RUNNING ∧ t_preempt_count t = 0 ∧
    t_priority t = 128 ∧ t_time_slice t = 5 ∧ full_slice t = 5 ∧ t_vruntime t = 10)
    as (t & Ht & H1 & H2 & H3 & H4 & H5 & H6) by (vm_compute; eexists; split_and!; reflexivity).
  destruct (slice_accounting loaded_machine 1%positive t 5) as (s' & t' & R & T & H);
    [vm_compute; reflexivity|exact Ht|exact H1|lia|lia|lia|lia|].
  rewrite decide_True in H by (by rewrite H5). destruct H as (N & _ & _ & V).
  exists s', t'. split; [exact R|]. split; [exact T|]. split; [exact N|]. rewrite V, H3, H6. reflexivity.
Defined.
