(* ===== verification/SchedLife.v ===== *)
(** * The life cycle of tasks: signals, the process tree, exit and waitpid. *)
From S2P Require Import Prelude RBTree RBTreeInv PidAlloc Files Task RunQueue RunQueueInv RunQueueSpec Sched SchedInv.
Local Open Scope Z_scope.
Local Open Scope kernel_scope.

(** ** Reparenting *)
Lemma with_tasks_id s : with_tasks (tasks s) s = s.
Proof. by destruct s. Qed.
Lemma with_tasks_twice T T' s : with_tasks T (with_tasks T' s) = with_tasks T s.
Proof. done. Qed.

Lemma reparent_loop_ok ini cs s ti :
  tasks s !! ini = Some ti → ini ∉ cs → NoDup cs → (∀ x, x ∈ cs → is_Some (tasks s !! x)) →
  ∃ T, reparent_loop ini cs s = Some (tt, with_tasks T s) ∧
    T !! ini = Some (set_children (rev cs ++ t_children ti) ti) ∧
    (∀ x, x ∈ cs → T !! x = set_parent (Some ini) <$> tasks s !! x) ∧
    (∀ x, x ≠ ini → x ∉ cs → T !! x = tasks s !! x).
Proof.
  revert s ti. induction cs as [|c cs IH]; intros s ti Hini Hni Hnd Hl; cbn [reparent_loop].
  - exists (tasks s). split; [by rewrite with_tasks_id|].
    split; [rewrite Hini; cbn; by destruct ti|]. split; [by intros x ?%not_elem_of_nil|done].
  - apply not_elem_of_cons in Hni as [Hne Hni]. apply NoDup_cons in Hnd as [Hc Hnd].
    destruct (Hl c) as [tc Htc]; [left|]. rewrite (bind_Some _ _ _ _ _ (tupd_ok s c tc _ Htc)).
    set (s1 := with_tasks _ s). assert (tasks s1 !! ini = Some ti) as Hini1 by (cbn; by rewrite lookup_insert_ne).
    rewrite (bind_Some _ _ _ _ _ (tupd_ok s1 ini ti _ Hini1)). set (s2 := with_tasks _ s1).
    destruct (IH s2 (set_children (c :: t_children ti) ti)) as (T & R & H1 & H2 & H3); try done.
    + cbn. apply lookup_insert_eq.
    + intros x Hx. cbn. rewrite !lookup_insert_ne by (intros <-; done). apply Hl. by right.
    + exists T. split; [exact R|]. split; [|split].
      * rewrite H1. cbn [set_children t_children rev]. by rewrite <- app_assoc.
      * intros x [->|Hx]%elem_of_cons.
        -- rewrite H3 by done. cbn. rewrite lookup_insert_ne, lookup_insert_eq by done. by rewrite Htc.
        -- rewrite H2 by done. cbn. by rewrite !lookup_insert_ne by (intros <-; done).
      * intros x Hx1 [Hx2 Hx3]%not_elem_of_cons. rewrite H3 by done. cbn. by rewrite !lookup_insert_ne.
Qed.

Lemma reparent_ok c tc ini ti s :
  tasks s !! c = Some tc → init_task s = Some ini → tasks s !! ini = Some ti → c ≠ ini →
  c ∉ t_children tc → ini ∉ t_children tc → NoDup (t_children tc) → (∀ x, x ∈ t_children tc → is_Some (tasks s !! x)) →
  ∃ T, reparent_children_to_init (Some c) s = Some (tt, with_tasks T s) ∧
    T !! c = Some (set_children [] tc) ∧ T !! ini = Some (set_children (rev (t_children tc) ++ t_children ti) ti) ∧
    (∀ x, x ∈ t_children tc → T !! x = set_parent (Some ini) <$> tasks s !! x) ∧
    (∀ x, x ≠ c → x ≠ ini → x ∉ t_children tc → T !! x = tasks s !! x).
Proof.
  intros Hc Hi Hti Hne Hcc Hic Hnd Hl. unfold reparent_children_to_init.
  rewrite (bind_Some _ _ _ _ _ (tld_ok s c tc t_children Hc)), bind_gets, Hi.
  destruct (t_children tc) as [|x cs] eqn:Ecs.
  - exists (tasks s). split; [by rewrite with_tasks_id|]. rewrite Hc, Hti. cbn.
    split; [destruct tc; cbn in *; by subst|]. split; [by destruct ti|]. split; [by intros x ?%not_elem_of_nil|done].
  - destruct (reparent_loop_ok ini (x :: cs) s ti Hti Hic Hnd Hl) as (T & R & H1 & H2 & H3). run R.
    assert (T !! c = Some tc) as HTc by (rewrite H3; done).
    exists (<[c := set_children [] tc]> T). split; [by rewrite (tupd_ok _ c tc)|].
    split; [apply lookup_insert_eq|]. split; [by rewrite lookup_insert_ne|].
    split; intros y Hy; [rewrite lookup_insert_ne by (by intros <-); by apply H2|].
    intros Hy2 Hy3. rewrite lookup_insert_ne by done. by apply H3.
Qed.

(** ** Signals to a task *)
Definition with_signal (sig : Z) (t : task) : task :=
  let g := default new_signal_state (t_sig t) in
  let g := set_pending (Z.lor (sig_pending g) (sig_bit sig)) g in
  let t := set_sig (Some g) t in
  if bool_decide (t_state t = TASK_BLOCKED) && signal_wakes g sig then set_state TASK_READY t else t.

Lemma do_sys_kill_ok mem pid sig s l t :
  1 ≤ sig < NSIG → 0 ≤ pid < MAX_PID → pid_table (pids s) !! pid = Some l → tasks s !! l = Some t →
  t_state t ≠ TASK_DEAD → t_state t ≠ TASK_ZOMBIE → (mem = true ∨ is_Some (t_sig t)) →
  do_sys_kill mem pid sig s = Some (0, with_tasks (<[l := with_signal sig t]> (tasks s)) s).
Proof.
  intros Hs Hp Hl Ht Hd Hz Hm. unfold do_sys_kill.
  rewrite (proj2 (Z.ltb_ge sig 1)), (proj2 (Z.leb_gt NSIG sig)), (proj2 (Z.ltb_ge pid 0)) by lia. cbn [orb].
  erewrite bind_Some.
  2: { unfold find_task_by_pid. rewrite (proj2 (Z.ltb_ge pid 0)), (proj2 (Z.leb_gt MAX_PID pid)) by lia. cbn [orb].
       rewrite bind_gets, Hl. rewrite (bind_Some _ _ _ _ _ (tld_ok s l t t_state Ht)).
       rewrite decide_False by (intros [?|?]; done). reflexivity. }
  cbv beta iota. rewrite (bind_Some _ _ _ _ _ (tld_ok s l t t_sig Ht)).
  assert (∀ g0, t_sig t = g0 → (∃ g, g0 = Some g) ∨ mem = true → 
    ∀ (X : SM Z), (match g0, mem with None, false => ret (-1) | _, _ => X end) s = X s) as Hmatch.
  { intros g0 _ [[g ->]| ->] X; [done|by destruct g0]. }
  rewrite (Hmatch _ eq_refl) by (destruct Hm as [?|[g ?]]; [by right|left; by exists g]). clear Hmatch.
  cbv zeta. set (g := set_pending _ _).
  rewrite (bind_Some _ _ _ _ _ (tupd_ok s l t _ Ht)). set (s1 := with_tasks _ s).
  assert (tasks s1 !! l = Some (set_sig (Some g) t)) as Ht1 by (cbn; apply lookup_insert_eq).
  rewrite (bind_Some _ _ _ _ _ (tld_ok s1 l _ t_state Ht1)).
  unfold with_signal. cbv zeta. fold g. 
  change (t_state (set_sig (Some g) t)) with (t_state t). destruct (bool_decide _ && signal_wakes g sig).
  - rewrite (bind_Some _ _ _ _ _ (tupd_ok s1 l _ _ Ht1)). unfold ret. cbn. by rewrite insert_insert_eq.
  - done.
Qed.

Lemma with_signal_fields sig t :
  t_next (with_signal sig t) = t_next t ∧ t_children (with_signal sig t) = t_children t ∧
  t_pid (with_signal sig t) = t_pid t ∧ t_parent (with_signal sig t) = t_parent t ∧
  t_exit_code (with_signal sig t) = t_exit_code t ∧
  (t_state (with_signal sig t) = t_state t ∨ t_state t = TASK_BLOCKED ∧ t_state (with_signal sig t) = TASK_READY).
Proof.
  unfold with_signal. cbv zeta. destruct (bool_decide _ && _) eqn:E; cbn; split_and!; try done; [|by left].
  apply andb_prop in E as [E%bool_decide_eq_true _]. by right.
Qed.

(** ** The zombie search *)
Definition zombie (s : ksched) (pid : Z) (x : loc) : Prop :=
  ∃ t, tasks s !! x = Some t ∧ (pid = -1 ∨ t_pid t = pid) ∧ t_state t = TASK_ZOMBIE.

Lemma find_zombie_ok s pid cs :
  (∀ x, x ∈ cs → is_Some (tasks s !! x)) →
  ∃ r, find_zombie pid cs s = Some (r, s) ∧
    match r with
    | Some (a, z, b) => cs = a ++ z :: b ∧ zombie s pid z ∧ ∀ x, x ∈ a → ¬ zombie s pid x
    | None => ∀ x, x ∈ cs → ¬ zombie s pid x
    end.
Proof.
  induction cs as [|c cs IH]; intros Hl; cbn [find_zombie].
  - exists None. split; [done|]. by intros x ?%not_elem_of_nil.
  - destruct (Hl c) as [t Ht]; [left|].
    rewrite (bind_Some _ _ _ _ _ (tld_ok s c t t_pid Ht)), (bind_Some _ _ _ _ _ (tld_ok s c t t_state Ht)).
    destruct (((pid =? -1) || (t_pid t =? pid)) && bool_decide (t_state t = TASK_ZOMBIE)) eqn:E.
    + apply andb_prop in E as [E1%orb_prop E2%bool_decide_eq_true]. exists (Some ([], c, cs)). split; [done|].
      split; [done|]. split; [|by intros x ?%not_elem_of_nil]. exists t. split; [done|]. split; [|done].
      destruct E1 as [E1%Z.eqb_eq|E1%Z.eqb_eq]; tauto.
    + assert (¬ zombie s pid c) as Hnz.
      { intros (t' & Ht' & H1 & H2). rewrite Ht in Ht'. injection Ht' as <-.
        rewrite (bool_decide_eq_true_2 _ H2), andb_true_r in E. apply orb_false_iff in E as [E1%Z.eqb_neq E2%Z.eqb_neq].
        destruct H1; done. }
      destruct IH as (r & R & Hr); [intros x Hx; apply Hl; by right|]. run R.
      destruct r as [[[a z] b]|]; eexists; (split; [reflexivity|]).
      * destruct Hr as (-> & Hz & Ha). split; [done|]. split; [done|]. intros x [->|Hx]%elem_of_cons; [done|by apply Ha].
      * intros x [->|Hx]%elem_of_cons; [done|by apply Hr].
Qed.

(** ** The exit's critical section *)
Section exit.
Context `{RT : ReadyTree}.

Lemma exit_unlink_eq cpu c p q s n tc :
  0 ≤ cpu → queues s !! Z.to_nat cpu = Some q → tasks s !! c = Some tc → t_next tc = n → 0 < rq_count q < 2 ^ 31 →
  exit_unlink cpu c p s =
    (tupd (set_next n) p ;;;
     rq_put cpu (mk_rq (if decide (rq_head q = Some c) then n else rq_head q) (rq_tree q) (i32 (rq_count q - 1))) ;;;
     on_tree cpu (rt_erase c)) s.
Proof.
  intros Hcpu Hq Hc <- Hcnt.
  assert (Z.to_nat cpu < length (queues s))%nat as HLt by (by apply lookup_lt_Some in Hq).
  unfold exit_unlink, on_tree, rq_put, modify, tld. unfold bind at 1 2 3 8. rewrite Hc.
  rewrite (rq_get_ok _ _ _ Hcpu Hq).
  destruct (tupd (set_next (t_next tc)) p s) as [[[] s1]|] eqn:E1; [|done].
  assert (queues s1 = queues s) as Eq.
  { unfold tupd in E1. destruct (tasks s !! p); [|done]. by injection E1 as <-. }
  set (hd := if decide _ then _ else _). unfold bind, rq_get. rewrite (proj2 (Z.ltb_ge cpu 0)) by lia.
  cbn [with_queues queues]. rewrite !Eq, !list_lookup_insert_eq by done.
  cbn [rq_tree rq_head rq_count with_queues rbs queues].
  destruct (rt_erase c (mk_mem (rq_tree q) (rbs s1))) as [[[] h]|]; [|done].
  cbn [with_queues with_rbs queues rbs]. rewrite !list_insert_insert_eq, list_lookup_insert_eq by done.
  cbn [rq_count rq_head rq_tree]. rewrite (proj2 (Z.ltb_lt 0 _)) by lia.
  cbn [with_queues with_rbs queues]. rewrite list_insert_insert_eq.
  assert (i32 (rq_count q - 1) = rq_count q - 1) as -> by (unfold i32; rewrite Z.mod_small; lia). done.
Qed.
End exit.
