(* ===== verification/SchedLifeThms.v ===== *)
(** * Properties of the life cycle: exit, waitpid and creation. *)
From S2P Require Import Prelude RBTree RBTreeInv PidAlloc Files Task RunQueue RunQueueInv RunQueueSpec Sched SchedInv SchedLife.
Local Open Scope Z_scope.
Local Open Scope kernel_scope.

(** The situation of a task [c] that exits on [cpu]: it is current and queued
    there with others, its parent [p] is alive and registered under its
    number, and its children can go to [ini]. *)
Record exiting `{RT : ReadyTree} (s : ksched) (vs : list view) (cpu : Z) (v : view) (l1 l2 : list loc)
    (c p ini : loc) (tc tp ti : task) : Prop := {
  ex_queues : queues_ok s vs;
  ex_files : file_inv (files s);
  ex_cpu : 0 ≤ cpu < MAX_CPUS;
  ex_view : vs !! Z.to_nat cpu = Some v;
  ex_ring : v.2 = l1 ++ c :: l2;
  ex_more : l2 ++ l1 ≠ [];
  ex_cur : current s = Some c;
  ex_c : tasks s !! c = Some tc;
  ex_pid : t_pid tc ≠ 0;
  ex_init : init_task s = Some ini;
  ex_i : tasks s !! ini = Some ti;
  ex_ci : c ≠ ini;
  ex_cc : c ∉ t_children tc;
  ex_ic : ini ∉ t_children tc;
  ex_nodup : NoDup (t_children tc);
  ex_live : ∀ x, x ∈ t_children tc → is_Some (tasks s !! x);
  ex_parent : t_parent tc = Some p;
  ex_p : tasks s !! p = Some tp;
  ex_cp : c ≠ p;
  ex_pc : p ∉ t_children tc;
  ex_alive : t_state tp ≠ TASK_DEAD ∧ t_state tp ≠ TASK_ZOMBIE;
  ex_range : 0 ≤ t_pid tp < MAX_PID;
  ex_reg : pid_table (pids s) !! t_pid tp = Some p
}.

Section life.
Context `{RT : ReadyTree}.

Definition woken (t : task) : task := if decide (t_state t = TASK_BLOCKED) then set_state TASK_READY t else t.
Lemma woken_fields t :
  t_next (woken t) = t_next t ∧ t_children (woken t) = t_children t ∧ t_sig (woken t) = t_sig t ∧
  t_state (woken t) = (if decide (t_state t = TASK_BLOCKED) then TASK_READY else t_state t).
Proof. unfold woken. by destruct (decide _). Qed.

Lemma exit_before_unlink s vs cpu v l1 l2 c p ini tc tp ti mem code :
  exiting s vs cpu v l1 l2 c p ini tc tp ti → mem = true ∨ is_Some (t_sig tp) →
  ∃ f T,
    (∀ X : SM sched_result,
      (on_files (fd_close_all (Some (Z.pos c))) ;;;
       reparent_children_to_init (Some c) ;;;
       signal_child_event mem (Some c) ;;;
       tupd (λ t, set_state TASK_ZOMBIE (set_exit_code code t)) c ;;;
       par <- tld t_parent c ;;
       (match par with
        | Some p => st <- tld t_state p ;; if decide (st = TASK_BLOCKED) then tupd (set_state TASK_READY) p else ret tt
        | None => ret tt
        end) ;;; X) s = X (with_tasks T (with_files f s))) ∧
    file_inv f ∧ (∀ i, 0 ≤ i < MAX_FDS → fd_table f !! (Z.pos c, i) = None) ∧
    T !! c = Some (set_state TASK_ZOMBIE (set_exit_code code (set_children [] tc))) ∧
    (∃ tp', T !! p = Some tp' ∧ t_next tp' = t_next tp ∧
       t_state tp' = (if decide (t_state tp = TASK_BLOCKED) then TASK_READY else t_state tp) ∧
       (∃ g, t_sig tp' = Some g ∧ Z.testbit (sig_pending g) SIGCHLD = true) ∧
       t_children tp' = (if decide (p = ini) then rev (t_children tc) else []) ++ t_children tp) ∧
    (∃ ti', T !! ini = Some ti' ∧ t_next ti' = t_next ti ∧ t_children ti' = rev (t_children tc) ++ t_children ti) ∧
    (∀ x, x ∈ t_children tc → T !! x = set_parent (Some ini) <$> tasks s !! x) ∧
    (∀ x, x ≠ c → x ≠ p → x ≠ ini → x ∉ t_children tc → T !! x = tasks s !! x).
Proof.
  intros [] Hm. destruct (fd_close_all_spec (Z.pos c) (files s)) as (f & RF & HF1 & HF2 & _); [done|].
  set (s1 := with_files f s).
  destruct (reparent_ok c tc ini ti s1) as (T2 & R2 & A1 & A2 & A3 & A4); try done.
  set (s2 := with_tasks T2 s1).
  assert (∃ tp1, T2 !! p = Some tp1 ∧ t_next tp1 = t_next tp ∧ t_state tp1 = t_state tp ∧ t_sig tp1 = t_sig tp ∧
    t_pid tp1 = t_pid tp ∧ t_children tp1 = (if decide (p = ini) then rev (t_children tc) else []) ++ t_children tp)
    as (tp1 & Htp1 & N1 & S1 & G1 & P1 & C1).
  { case_decide as D; [subst p; exists (set_children (rev (t_children tc) ++ t_children ti) ti)|exists tp].
    - assert (tp = ti) as -> by congruence. done.
    - rewrite A4 by done. done. }
  destruct (with_signal_fields SIGCHLD tp1) as (W1 & W2 & W3 & W4 & W5 & W6).
  assert (∃ g, t_sig (with_signal SIGCHLD tp1) = Some g ∧ Z.testbit (sig_pending g) SIGCHLD = true) as Hpend.
  { unfold with_signal. cbv zeta. set (g := set_pending _ _). exists g.
    split; [by destruct (bool_decide _ && _)|]. unfold g; cbn [set_pending sig_pending]. rewrite Z.lor_spec. apply orb_true_intro. right. reflexivity. }
  set (T3 := <[p := with_signal SIGCHLD tp1]> T2).
  set (T4 := <[c := set_state TASK_ZOMBIE (set_exit_code code (set_children [] tc))]> T3).
  assert (signal_child_event mem (Some c) s2 = Some (tt, with_tasks T3 s2)) as R3.
  { unfold signal_child_event. rewrite (bind_Some _ _ _ _ _ (tld_ok s2 c _ t_parent A1)). cbn [set_children t_parent].
    rewrite ex_parent0. rewrite (bind_Some _ _ _ _ _ (tld_ok s2 p tp1 t_pid Htp1)).
    rewrite (bind_Some _ _ _ _ _ (do_sys_kill_ok mem (t_pid tp1) SIGCHLD s2 p tp1 ltac:(done) ltac:(by rewrite P1)
      ltac:(by rewrite P1) Htp1 ltac:(rewrite S1; tauto) ltac:(rewrite S1; tauto) ltac:(by rewrite G1))). done. }
  assert (T3 !! c = Some (set_children [] tc)) as Hc3 by (unfold T3; by rewrite lookup_insert_ne).
  assert (T4 !! p = Some (with_signal SIGCHLD tp1)) as Hp4
    by (unfold T4, T3; by rewrite lookup_insert_ne, lookup_insert_eq).
  set (tp5 := woken (with_signal SIGCHLD tp1)).
  destruct (woken_fields (with_signal SIGCHLD tp1)) as (V1 & V2 & V3 & V4). fold tp5 in V1, V2, V3, V4.
  exists f, (<[p := tp5]> T4). split; [|split; [done|split; [done|split; [|split; [|split; [|split]]]]]].
  - intros X. erewrite bind_Some by (unfold on_files; by rewrite RF). fold s1. run R2. run R3.
    rewrite (bind_Some _ _ _ _ _ (tupd_ok (with_tasks T3 s2) c _ (λ t, set_state TASK_ZOMBIE (set_exit_code code t)) Hc3)).
    cbn [with_tasks tasks]. fold T4. rewrite with_tasks_twice. set (s4 := with_tasks T4 (with_tasks T3 s2)).
    assert (tasks s4 !! c = Some (set_state TASK_ZOMBIE (set_exit_code code (set_children [] tc)))) as Hc4
      by (cbn; apply lookup_insert_eq).
    rewrite (bind_Some _ _ _ _ _ (tld_ok s4 c _ t_parent Hc4)). cbn [set_state set_exit_code set_children t_parent].
    rewrite ex_parent0. assert (tasks s4 !! p = Some (with_signal SIGCHLD tp1)) as Hp4' by exact Hp4.
    assert ((st <- tld t_state p ;; if decide (st = TASK_BLOCKED) then tupd (set_state TASK_READY) p else ret tt) s4 =
      Some (tt, with_tasks (<[p := tp5]> T4) s4)) as R5.
    { rewrite (bind_Some _ _ _ _ _ (tld_ok s4 p _ t_state Hp4')). unfold tp5, woken.
      destruct (decide (t_state (with_signal SIGCHLD tp1) = TASK_BLOCKED)) as [D|D]; [exact (tupd_ok s4 p _ _ Hp4')|]. rewrite insert_id by exact Hp4. done. }
    run R5. done.
  - rewrite lookup_insert_ne by done. unfold T4. apply lookup_insert_eq.
  - exists tp5. split; [apply lookup_insert_eq|]. 
    rewrite V1, V2, V3, V4, W1, W2, N1, C1. split; [done|]. split; [|by split]. rewrite <- S1.
    destruct W6 as [W6|[W6 W7]]; rewrite ?W6, ?W7; [done|]. rewrite decide_False by done. by rewrite decide_True.
  - destruct (decide (p = ini)) as [->|Hpi].
    + exists tp5. split; [apply lookup_insert_eq|]. assert (tp = ti) as -> by congruence.
      rewrite V1, V2, W1, W2, N1, C1. done.
    + eexists. rewrite lookup_insert_ne by done. unfold T4, T3. rewrite !lookup_insert_ne by done.
      split; [exact A2|]. done.
  - intros x Hx. rewrite lookup_insert_ne by (by intros <-). unfold T4, T3.
    rewrite !lookup_insert_ne by (by intros <-). by apply A3.
  - intros x Hx1 Hx2 Hx3 Hx4. unfold T4, T3. rewrite !lookup_insert_ne by done. by apply A4.
Qed.

(** The queues only depend on the links. *)
Lemma insert_middle (A B : list view) v v' : <[length A := v']> (A ++ v :: B) = A ++ v' :: B.
Proof. rewrite <- (Nat.add_0_r (length A)) at 1. by rewrite insert_app_r. Qed.
End life.

(** ** Exit *)

(** C13: The exit of a task returns to the scheduler: all its descriptors are
    closed with reference counts kept right, its children have become children
    of init, in front of init's own, it is a zombie that holds the exit code,
    it is out of its queue and tree while every queue stays well-formed, and
    its parent has [SIGCHLD] pending and is no longer blocked. What follows is
    [schedule] in that state. *)
Theorem do_exit_correct `{RT : ReadyTree} fuel mem code s vs cpu v l1 l2 c p ini tc tp ti :
  exiting s vs cpu v l1 l2 c p ini tc tp ti → mem = true ∨ is_Some (t_sig tp) → (length v.2 ≤ fuel)%nat →
  ∃ s', do_exit_current fuel mem cpu code s = schedule fuel cpu s' ∧
    queues_ok s' (<[Z.to_nat cpu := (remove_loc c v.1, l1 ++ l2)]> vs) ∧ current s' = Some c ∧ pids s' = pids s ∧
    file_inv (files s') ∧ (∀ i, 0 ≤ i < MAX_FDS → fd_table (files s') !! (Z.pos c, i) = None) ∧
    (∃ tc', tasks s' !! c = Some tc' ∧ t_state tc' = TASK_ZOMBIE ∧ t_exit_code tc' = code ∧ t_children tc' = [] ∧
       t_pid tc' = t_pid tc ∧ t_parent tc' = Some p) ∧
    (∃ tp', tasks s' !! p = Some tp' ∧ t_state tp' = (if decide (t_state tp = TASK_BLOCKED) then TASK_READY else t_state tp) ∧
       (∃ g, t_sig tp' = Some g ∧ Z.testbit (sig_pending g) SIGCHLD = true) ∧
       t_children tp' = (if decide (p = ini) then rev (t_children tc) else []) ++ t_children tp) ∧
    (∃ ti', tasks s' !! ini = Some ti' ∧ t_children ti' = rev (t_children tc) ++ t_children ti) ∧
    (∀ x, x ∈ t_children tc → t_parent <$> tasks s' !! x = Some (Some ini)).
Proof.
  intros HE Hm Hf. destruct (exit_before_unlink s vs cpu v l1 l2 c p ini tc tp ti mem code HE Hm)
    as (f & T & RX & HF1 & HF2 & HTc & (tp' & HTp & Np & Sp & Gp & Cp) & (ti' & HTi & Ni & Ci) & HTch & HTo).
  destruct HE. set (s5 := with_tasks T (with_files f s)) in *.
  assert (∀ x, next_of T x = next_of (tasks s) x) as Hnext.
  { intros x. unfold next_of. destruct (decide (x = c)) as [->|H1]; [by rewrite HTc, ex_c0|].
    destruct (decide (x = p)) as [->|H2]; [by rewrite HTp, ex_p0; cbn; rewrite Np|].
    destruct (decide (x = ini)) as [->|H3]; [by rewrite HTi, ex_i0; cbn; rewrite Ni|].
    destruct (decide (x ∈ t_children tc)) as [H4|H4]; [|by rewrite HTo].
    rewrite HTch by done. by destruct (tasks s !! x). }
  assert (queues_ok s5 vs) as HQ5 by (eapply queues_ok_frame; [exact ex_queues0|done|done|exact Hnext]).
  destruct (split_lookup _ _ _ ex_view0) as (A & B & EA & LA). rewrite EA in HQ5.
  destruct (queue_lookup s5 A v B cpu HQ5 LA) as (q & Hq & HR).
  pose proof (ro_ring _ _ _ _ HR) as HRing. rewrite ex_ring0 in HRing. apply ring_rotate in HRing. cbn [app] in HRing.
  pose proof (rq_ok_nodup _ _ _ _ HR) as Hnd. rewrite ex_ring0 in Hnd. apply NoDup_app_cons in Hnd as (Hc1 & Hc2 & _).
  destruct (last (l2 ++ l1)) as [pr|] eqn:Epr; [|apply last_None in Epr; done].
  assert (pr ≠ c) as Hprc.
  { intros ->. apply last_Some_elem_of, elem_of_app in Epr as [?|?]; done. }
  set (tz := set_state TASK_ZOMBIE (set_exit_code code (set_children [] tc))) in *.
  assert (∃ n, t_next tz = n ∧ next_of (tasks s5) c = Some n) as (n & En & Hn).
  { exists (t_next tz). split; [done|]. unfold next_of. cbn [s5 with_tasks tasks]. by rewrite HTc. }
  destruct (dequeue_step s5 A v B cpu l1 c l2 pr n HQ5 LA (proj1 ex_cpu0) ex_ring0 Epr Hn) as (q0 & q' & R6 & T6 & Hq0 & RU & HS6 & HQ6).
  rewrite Hq in Hq0. injection Hq0 as <-. set (s6 := requeue _ R6 T6 s5) in *.
  assert (∀ x t5, T !! x = Some t5 → ∃ t6, T6 !! x = Some t6 ∧ set_next NULL t6 = set_next NULL t5) as H6.
  { intros x t5 Hx. specialize (HS6 x). cbn [s5 with_tasks tasks] in HS6. rewrite Hx in HS6.
    destruct (T6 !! x) as [t6|]; [|done]. exists t6. split; [done|]. by apply (inj Some) in HS6. }
  exists s6. split; [|split; [|split; [done|split; [done|split; [done|split; [done|split; [|split; [|split]]]]]]]].
  - unfold do_exit_current. rewrite bind_gets, ex_cur0. rewrite (bind_Some _ _ _ _ _ (tld_ok s c tc t_pid ex_c0)).
    rewrite (proj2 (Z.eqb_neq _ 0)) by done. rewrite RX. fold s5.
    erewrite bind_Some; [|apply (find_prev_found s5 fuel NULL c c c (l2 ++ l1)); [exact HRing|done| |done|]].
    2: { rewrite not_elem_of_app. by split. }
    2: { rewrite ex_ring0, length_app in Hf. cbn [length] in Hf. rewrite length_app. lia. }
    rewrite Epr. cbn [default from_option id non_null]. rewrite bind_ret_l, decide_False by done.
    assert (exit_unlink cpu c pr s5 = Some (tt, s6)) as RE; [|by run RE].
    rewrite (exit_unlink_eq cpu c pr q s5 n tz); try done; [lia|].
    rewrite (ro_count _ _ _ _ HR), ex_ring0, length_app. cbn [length].
    pose proof (qo_cap _ _ HQ5) as HC. rewrite queued_split, ex_ring0, !length_app in HC. cbn [length] in HC.
    unfold rq_cap in HC. lia.
  - rewrite EA. rewrite <- LA. rewrite insert_middle. exact HQ6.
  - destruct (H6 c tz HTc) as (t6 & Ht6 & E). exists t6. split; [exact Ht6|]. injection E as E1 E2 E3 E4 E5. 
    rewrite E1, E2, E3, E4, E5. cbn. done.
  - destruct (H6 p tp' HTp) as (t6 & Ht6 & E). exists t6. split; [exact Ht6|]. injection E as E1 E2 E3 E4 E5.
    intros. assert (t_sig t6 = t_sig tp') as Es by congruence. rewrite E2, E5, Es. done.
  - destruct (H6 ini ti' HTi) as (t6 & Ht6 & E). exists t6. split; [exact Ht6|]. injection E as E1 E2 E3 E4 E5. by rewrite E5.
  - intros x Hx. specialize (HTch x Hx). destruct (ex_live0 x Hx) as [tx Htx]. rewrite Htx in HTch.
    destruct (H6 x _ HTch) as (t6 & Ht6 & E). cbn [s6 requeue with_queues with_rbs with_tasks tasks]. rewrite Ht6.
    injection E as E1 E2 E3 E4 E5. cbn. by rewrite E4.
Qed.

(** Task 1 is current on CPU 0, its parent 2 sleeps, task 4 is init. *)
Definition task_of (x : loc) : task := default (demo_task 0 0 TASK_DEAD) (tasks loaded_machine !! x).
Definition exit_machine : ksched :=
  with_pids (mk_pids (pid_bitmap pids0) 5 {[3 := 2%positive]}) (with_init_task (Some 4%positive)
    (with_rbs (<[4%positive := blank_node]> (rbs loaded_machine))
      (with_tasks (<[1%positive := set_parent (Some 2%positive) (task_of 1%positive)]>
         (<[2%positive := set_children [1%positive] (set_state TASK_BLOCKED (task_of 2%positive))]>
            (<[4%positive := demo_task 1 0 TASK_RUNNING]> (tasks loaded_machine)))) loaded_machine))).

Lemma exit_machine_exiting :
  exiting exit_machine loaded_views 0 ([(5, 2%positive); (7, 3%positive); (10, 1%positive)], [1%positive; 3%positive; 2%positive])
    [] [3%positive; 2%positive] 1%positive 2%positive 4%positive
    (set_parent (Some 2%positive) (task_of 1%positive))
    (set_children [1%positive] (set_state TASK_BLOCKED (task_of 2%positive))) (demo_task 1 0 TASK_RUNNING).
Proof.
  constructor.
  - eapply queues_ok_frame_queued; [apply loaded_machine_ok|vm_compute; reflexivity| |].
    + intros x Hx. assert (x ∈ [1%positive; 3%positive; 2%positive]) as Hx' by exact Hx.
      repeat apply elem_of_cons in Hx' as [->|Hx']; [vm_compute; split; reflexivity..|]. destruct (not_elem_of_nil _ Hx').
    + intros x [tx Hx]. assert (x ∈ [1%positive; 2%positive; 3%positive; 4%positive]) as Hx'.
      { apply elem_of_map_to_list in Hx. vm_compute in Hx.
        repeat (apply elem_of_cons in Hx as [Hx|Hx]; [injection Hx as -> _; clear; decided|]).
        destruct (not_elem_of_nil _ Hx). }
      repeat apply elem_of_cons in Hx' as [->|Hx']; [vm_compute; eexists; reflexivity..|]. destruct (not_elem_of_nil _ Hx').
  - constructor; [intros k f|intros f i n]; vm_compute; discriminate.
  - split; [lia|reflexivity].
  - reflexivity.
  - reflexivity.
  - discriminate.
  - vm_compute; reflexivity.
  - vm_compute; reflexivity.
  - vm_compute; discriminate.
  - vm_compute; reflexivity.
  - vm_compute; reflexivity.
  - discriminate.
  - vm_compute. exact (not_elem_of_nil _).
  - vm_compute. exact (not_elem_of_nil _).
  - vm_compute. constructor.
  - intros x Hx. vm_compute in Hx. destruct (not_elem_of_nil _ Hx).
  - reflexivity.
  - vm_compute; reflexivity.
  - discriminate.
  - vm_compute. exact (not_elem_of_nil _).
  - vm_compute. split; discriminate.
  - vm_compute. split; congruence.
  - vm_compute; reflexivity.
Qed.

Lemma do_exit_correct_witness :
  ∃ s', do_exit_current 3 true 0 7 exit_machine = schedule 3 0 s' ∧ current s' = Some 1%positive ∧
    (∃ tc', tasks s' !! 1%positive = Some tc' ∧ t_state tc' = TASK_ZOMBIE ∧ t_exit_code tc' = 7) ∧
    (∃ tp', tasks s' !! 2%positive = Some tp' ∧ t_state tp' = TASK_READY).
Proof.
  destruct (do_exit_correct 3 true 7 _ _ _ _ _ _ _ _ _ _ _ _ exit_machine_exiting (or_introl eq_refl) (Nat.le_refl 3))
    as (s' & R & _ & C & _ & _ & _ & (tc' & T1 & S1 & X1 & _) & (tp' & T2 & S2 & _) & _).
  exists s'. split; [exact R|]. split; [exact C|]. split; [exists tc'; split; [exact T1|split; [exact S1|exact X1]]|].
  exists tp'. split; [exact T2|]. cbn [set_children set_state t_state] in S2. exact S2.
Defined.

(** ** waitpid *)
Definition address_space (cr3 kernel_cr3 : Z) : list Z :=
  if negb (cr3 =? 0) && negb (cr3 =? kernel_cr3) then [cr3] else [].

(** C14: One turn of [waitpid]. If some child is a zombie that matches, the first
    such child in the list is collected: its number and exit code are
    returned, it leaves the list of children, its stack and its own address
    space are given back, its number is free again with an empty table entry,
    its structure is freed, and the run queues stay well-formed. If none is,
    [WNOHANG] returns at once with nothing changed, and otherwise the caller
    is blocked and the scheduler called, even when there is no child at all. *)
Theorem waitpid_turn_correct `{RT : ReadyTree} fuel cpu kcr3 pid wnohang s vs c tc :
  queues_ok s vs → pid_ok (pids s) → current s = Some c → tasks s !! c = Some tc →
  (∀ x, x ∈ t_children tc → is_Some (tasks s !! x) ∧ x ≠ c) →
  (∀ a z b tz, t_children tc = a ++ z :: b → zombie s pid z → (∀ x, x ∈ a → ¬ zombie s pid x) → tasks s !! z = Some tz →
     z ∉ queued vs →
     ∃ s', waitpid_turn fuel cpu kcr3 pid wnohang s = Some (Collected (t_pid tz) (t_exit_code tz), s') ∧
       tasks s' = delete z (<[c := set_children (a ++ b) tc]> (tasks s)) ∧ queues_ok s' vs ∧
       freed s' = freed s ++ option_list (t_stack_phys tz) ++ address_space (t_cr3 tz) kcr3 ∧
       pid_ok (pids s') ∧
       (2 ≤ t_pid tz < MAX_PID → pid_table (pids s') = delete (t_pid tz) (pid_table (pids s)) ∧
          ∀ q, in_pids q → pid_used (pids s') q = if decide (q = t_pid tz) then false else pid_used (pids s) q)) ∧
  ((∀ x, x ∈ t_children tc → ¬ zombie s pid x) →
     if wnohang then waitpid_turn fuel cpu kcr3 pid wnohang s = Some (WouldBlock, s)
     else waitpid_turn fuel cpu kcr3 pid wnohang s =
       (r <- schedule fuel cpu ;; ret (Blocked r)) (with_tasks (<[c := set_state TASK_BLOCKED tc]> (tasks s)) s)).
Proof.
  intros HQ HK Hcur Hc Hl. unfold waitpid_turn. rewrite bind_gets, Hcur.
  rewrite (bind_Some _ _ _ _ _ (tld_ok s c tc t_children Hc)).
  destruct (find_zombie_ok s pid (t_children tc)) as (r & R & Hr); [intros x Hx; by apply Hl|]. run R. split.
  - intros a z b tz E Hz Ha Htz Hzq.
    assert (r = Some (a, z, b)) as ->.
    { destruct r as [[[a' z'] b']|]; [|destruct (Hr z); [rewrite E; apply elem_of_app; right; left|done]].
      destruct Hr as (E' & Hz' & Ha'). rewrite E in E'. clear -E' Hz Ha Hz' Ha'. revert a' E' Ha'.
      induction a as [|x a IH]; intros [|x' a'] E' Ha'; injection E' as -> E'.
      - by rewrite E'.
      - destruct (Ha' x'); [left|done].
      - destruct (Ha z'); [left|done].
      - assert (Some (a, z, b) = Some (a', z', b')) as [= -> -> ->]; [|done]. symmetry. apply IH; [|done|].
        + intros y Hy. apply Ha. by right.
        + intros y Hy. apply Ha'. by right. }
    assert (z ≠ c) as Hzc by (apply Hl; rewrite E; apply elem_of_app; right; left).
    rewrite (bind_Some _ _ _ _ _ (tld_ok s z tz t_pid Htz)), (bind_Some _ _ _ _ _ (tld_ok s z tz t_exit_code Htz)),
      (bind_Some _ _ _ _ _ (tld_ok s z tz t_stack_phys Htz)), (bind_Some _ _ _ _ _ (tld_ok s z tz t_cr3 Htz)),
      (bind_Some _ _ _ _ _ (tupd_ok s c tc _ Hc)).
    set (s1 := with_tasks _ s).
    set (s2 := with_freed (freed s ++ option_list (t_stack_phys tz)) s1).
    assert ((match t_stack_phys tz with Some p => free_page p | None => ret tt end) s1 = Some (tt, s2)) as R2.
    { unfold s2. destruct (t_stack_phys tz); [done|]. cbn. by rewrite app_nil_r. }
    run R2. set (s3 := with_freed (freed s ++ option_list (t_stack_phys tz) ++ address_space (t_cr3 tz) kcr3) s1).
    assert ((if negb (t_cr3 tz =? 0) && negb (t_cr3 tz =? kcr3) then free_page (t_cr3 tz) else ret tt) s2 = Some (tt, s3)) as R3.
    { unfold s3, address_space. destruct (negb _ && _); [unfold free_page, modify, s2; cbn; by rewrite app_assoc|].
      by rewrite app_nil_r. }
    run R3. destruct (free_pid_ok (pids s) (t_pid tz) HK) as (p' & RP & HK' & HP).
    erewrite bind_Some by (unfold on_pids; cbn [s3 s1 with_freed with_tasks pids]; by rewrite RP).
    set (s4 := with_pids p' s3). assert (tasks s4 !! z = Some tz) as Hz4 by (cbn; by rewrite lookup_insert_ne).
    rewrite (bind_Some _ _ _ _ _ (tupd_ok s4 z tz _ Hz4)). unfold kfree_task. rewrite bind_modify.
    eexists. split; [reflexivity|]. cbn. split; [by rewrite delete_insert_eq|].
    split; [|split; [done|split; [done|]]].
    + eapply queues_ok_frame_queued; [exact HQ|done| |]; cbn.
      * intros x Hx. assert (x ≠ z) as Hne by (by intros ->). split; [|by rewrite lookup_delete_ne].
        unfold next_of. rewrite lookup_delete_ne, lookup_insert_ne by done.
        by apply (next_of_upd (tasks s) c tc (set_children (a ++ b))).
      * intros x Hx. destruct (decide (x = z)) as [->|Hne]; [rewrite lookup_delete_eq in Hx; by destruct Hx|].
        rewrite lookup_delete_ne, lookup_insert_ne in Hx by done. rewrite lookup_delete_ne by done. apply (qo_live _ _ HQ).
        destruct (decide (x = c)) as [->|]; [by eexists|]. by rewrite lookup_insert_ne in Hx.
    + intros Hrange. rewrite decide_True in HP by done. exact HP.
  - intros Hno. destruct r as [[[a z] b]|].
    { destruct Hr as (E & Hz & _). destruct (Hno z); [rewrite E; apply elem_of_app; right; left|done]. }
    destruct wnohang; [done|]. rewrite (bind_Some _ _ _ _ _ (tupd_ok s c tc _ Hc)). done.
Qed.

Definition wait_machine : ksched :=
  with_tasks (<[1%positive := set_children [4%positive] (task_of 1%positive)]>
    (<[4%positive := set_state TASK_ZOMBIE (set_exit_code 9 (demo_task 5 0 TASK_READY))]> (tasks loaded_machine)))
    (with_rbs (<[4%positive := blank_node]> (rbs loaded_machine)) loaded_machine).
Lemma wait_machine_ok : queues_ok wait_machine loaded_views.
Proof.
  eapply queues_ok_frame_queued; [apply loaded_machine_ok|vm_compute; reflexivity| |].
  - intros x Hx. assert (x ∈ [1%positive; 3%positive; 2%positive]) as Hx' by exact Hx.
    repeat apply elem_of_cons in Hx' as [->|Hx']; [vm_compute; split; reflexivity..|]. destruct (not_elem_of_nil _ Hx').
  - intros x [tx Hx]. assert (x ∈ [1%positive; 2%positive; 3%positive; 4%positive]) as Hx'.
    { apply elem_of_map_to_list in Hx. vm_compute in Hx.
      repeat (apply elem_of_cons in Hx as [Hx|Hx]; [injection Hx as -> _; clear; decided|]).
      destruct (not_elem_of_nil _ Hx). }
    repeat apply elem_of_cons in Hx' as [->|Hx']; [vm_compute; eexists; reflexivity..|]. destruct (not_elem_of_nil _ Hx').
Qed.

Lemma waitpid_turn_correct_witness :
  ∃ s', waitpid_turn 4 0 0 (-1) false wait_machine = Some (Collected 5 9, s') ∧ tasks s' !! 4%positive = None.
Proof.
  assert (∃ tc, tasks wait_machine !! 1%positive = Some tc ∧ t_children tc = [4%positive]) as (tc & Hc & Hch)
    by (vm_compute; eexists; split; reflexivity).
  destruct (waitpid_turn_correct 4 0 0 (-1) false wait_machine loaded_views 1%positive tc wait_machine_ok) as [W _].
  - change (pids wait_machine) with (pids loaded_machine). assert (pids loaded_machine = pids0) as -> by (vm_compute; reflexivity).
    exact pids0_ok.
  - vm_compute; reflexivity.
  - exact Hc.
  - rewrite Hch. intros x ->%list_elem_of_singleton. split; [vm_compute; eexists; reflexivity|discriminate].
  - destruct (W [] 4%positive [] (set_state TASK_ZOMBIE (set_exit_code 9 (demo_task 5 0 TASK_READY))) Hch) as (s' & R & T & _).
    + eexists. split; [vm_compute; reflexivity|]. split; [by left|reflexivity].
    + intros x Hx. destruct (not_elem_of_nil _ Hx).
    + vm_compute; reflexivity.
    + clear. intros X. assert (4%positive ∈ [1%positive; 3%positive; 2%positive]) as Y by exact X.
      repeat apply elem_of_cons in Y as [Y|Y]; [discriminate..|]. exact (not_elem_of_nil _ Y).
    + exists s'. split; [exact R|]. rewrite T. apply lookup_delete_eq.
Defined.

(** ** Creation *)
Lemma on_pids_ok {A} (m : PM A) s a p : m (pids s) = Some (a, p) → on_pids m s = Some (a, with_pids p s).
Proof. intros H. unfold on_pids. by rewrite H. Qed.

(** The fresh descriptor table of a new task. *)
Lemma fd_table_init_ok t s :
  ∃ s', fd_table_init t s = Some (tt, s') ∧ ∀ i, 0 ≤ i < MAX_FDS → fd_table s' !! (t, i) = None.
Proof.
  eexists. split; [reflexivity|]. intros i Hi. cbn. apply map_lookup_filter_None. right. intros x _ N. by apply N.
Qed.

(** [create_task] with memory at a fresh address. Either a number is free:
    then the new task is ready, holds the first free number from the cursor
    on and is registered under it, starts at the minimum virtual run time
    with priority 128 and a slice of 5 ticks, is a child of the caller (listed
    as such if the list node could be allocated), has no open descriptor, and
    is queued exactly once, on CPU number modulo the CPU count, all queues
    staying well-formed. Or all the numbers are in use: then null is returned,
    the page and the structure are given back and the queues are untouched. *)
Theorem create_task_correct `{RT : ReadyTree} s vs t stack node_mem cr3 cur tcur :
  queues_ok s vs → pid_ok (pids s) → current s = Some cur → tasks s !! cur = Some tcur →
  tasks s !! t = None → rbs s !! t = None → t ∉ queued vs → 1 ≤ num_cpus s ≤ MAX_CPUS →
  Z.of_nat (length (queued vs)) + 1 < rq_cap →
  ∃ o s', create_task (Some t) (Some stack) node_mem cr3 s = Some (o, s') ∧ pid_ok (pids s') ∧
    match o with
    | Some t' => t' = t ∧ ∃ tk tc' v, tasks s' !! t = Some tk ∧
        2 ≤ t_pid tk < MAX_PID ∧ pid_used (pids s) (t_pid tk) = false ∧ pid_used (pids s') (t_pid tk) = true ∧
        pid_table (pids s') = <[t_pid tk := t]> (pid_table (pids s)) ∧
        t_state tk = TASK_READY ∧ t_vruntime tk = min_vruntime s ∧ t_priority tk = 128 ∧ t_time_slice tk = 5 ∧
        t_parent tk = Some cur ∧ t_children tk = [] ∧
        tasks s' !! cur = Some tc' ∧ t_children tc' = (if node_mem then [t] else []) ++ t_children tcur ∧
        (∀ i, 0 ≤ i < MAX_FDS → fd_table (files s') !! (Z.pos t, i) = None) ∧
        vs !! Z.to_nat (t_pid tk mod num_cpus s) = Some v ∧
        queues_ok s' (<[Z.to_nat (t_pid tk mod num_cpus s) := (insort (min_vruntime s, t) v.1, after_head t v.2)]> vs)
    | None => (∀ q, 2 ≤ q < MAX_PID → pid_used (pids s) q = true) ∧ tasks s' = tasks s ∧ rbs s' = rbs s ∧
        freed s' = freed s ++ [stack] ∧ queues_ok s' vs
    end.
Proof.
  intros HQ HK Hcur Hc Ht Hr Htq Hn Hcap. unfold create_task. rewrite !bind_gets, !bind_modify, Hcur.
  set (tk0 := new_task cr3 stack (min_vruntime s) (Some cur)). set (s1 := with_rbs _ (with_tasks _ s)).
  destruct (alloc_pid_ok (pids s) HK) as (pid & p' & RA & HK' & HT & HA).
  rewrite (bind_Some _ _ _ _ _ (on_pids_ok alloc_pid s1 pid p' RA)). set (s2 := with_pids p' s1).
  assert (tasks s2 !! t = Some tk0) as Ht2 by (cbn; apply lookup_insert_eq).
  rewrite (bind_Some _ _ _ _ _ (tupd_ok s2 t tk0 _ Ht2)). set (tk := set_pid pid tk0). set (s3 := with_tasks _ s2).
  assert (cur ≠ t) as Hct by congruence.
  destruct HA as [(Hpid & _ & Hfree & Hused)|[-> Hall]].
  - rewrite (proj2 (Z.ltb_ge pid 0)) by lia.
    destruct (fd_table_init_ok (Z.pos t) (files s)) as (f & RF & HF).
    erewrite bind_Some by (unfold on_files; cbn [s3 s2 s1 with_tasks with_pids with_rbs files]; by rewrite RF).
    set (p3 := mk_pids (pid_bitmap p') (next_pid p') (<[pid := t]> (pid_table p'))).
    erewrite (bind_Some (on_pids (pid_register pid t))).
    2: { apply (on_pids_ok _ _ tt p3). unfold pid_register. rewrite (proj2 (Z.leb_le 0 pid)), (proj2 (Z.ltb_lt pid _)) by lia. done. }
    rewrite bind_modify, bind_gets. cbn [s3 s2 s1 with_files with_tasks with_pids with_rbs num_cpus].
    rewrite (proj2 (Z.eqb_neq (num_cpus s) 0)) by lia. cbn [with_files with_tasks with_pids with_rbs num_cpus].
    change (num_cpus s3) with (num_cpus s). rewrite Z.rem_mod_nonneg by lia. pose proof (Z.mod_pos_bound pid (num_cpus s) ltac:(lia)) as Hm.
    rewrite (proj2 (Z.leb_gt _ (pid mod num_cpus s))) by lia. set (cpu := pid mod num_cpus s) in *.
    match goal with |- context [(rq_link t cpu;;; _) ?st] => set (s4 := st) end.
    assert (queues_ok s4 vs) as HQ4.
    { eapply queues_ok_frame_queued; [exact HQ|done| |]; cbn.
      - intros x Hx. assert (x ≠ t) as Hne by (by intros ->). rewrite lookup_insert_ne by done. split; [|done].
        unfold next_of. by rewrite insert_insert_eq, lookup_insert_ne.
      - intros x Hx. destruct (decide (x = t)) as [->|Hne]; [rewrite lookup_insert_eq; by eexists|].
        rewrite insert_insert_eq, lookup_insert_ne in Hx by done. rewrite lookup_insert_ne by done. by apply (qo_live _ _ HQ). }
    destruct (queues_at s4 vs cpu HQ4) as (A & v & B & q & EA & LA & Hq & HR & _); [lia|].
    rewrite EA in HQ4, Htq, Hcap.
    assert (tasks s4 !! t = Some tk) as Ht4 by (cbn; apply lookup_insert_eq).
    destruct (rq_link_all s4 A v B cpu t tk HQ4 LA ltac:(lia) Htq Ht4 Hcap) as (q' & R & T & RL & HS & HQ5).
    set (s5 := requeue _ R T s4) in *. run RL. cbn [non_null]. rewrite bind_ret_l.
    assert (∃ tk5, T !! t = Some tk5 ∧ set_next NULL tk5 = set_next NULL tk) as (tk5 & Ht5 & E5).
    { pose proof (HS t) as X. rewrite Ht4 in X. destruct (T !! t) as [y|]; [|done]. exists y. by apply (inj Some) in X. }
    assert (∃ tc5, T !! cur = Some tc5 ∧ set_next NULL tc5 = set_next NULL tcur) as (tc5 & Hc5 & Ec5).
    { pose proof (HS cur) as X. cbn in X. rewrite insert_insert_eq, lookup_insert_ne, Hc in X by done.
      destruct (T !! cur) as [y|]; [|done]. exists y. by apply (inj Some) in X. }
    assert (∃ s', add_child node_mem cur t s5 = Some (tt, s') ∧ queues s' = queues s5 ∧ rbs s' = rbs s5 ∧
      pids s' = p3 ∧ files s' = f ∧ (∀ x, next_of (tasks s') x = next_of T x) ∧
      (∃ tk6, tasks s' !! t = Some tk6 ∧ set_next NULL tk6 = set_next NULL tk) ∧
      (∃ tc6, tasks s' !! cur = Some tc6 ∧ t_children tc6 = (if node_mem then [t] else []) ++ t_children tcur))
      as (s6 & R6 & EQ & ER & EP & EF & EN & (tk6 & Ht6 & E6) & (tc6 & Hc6 & Ech)).
    { unfold add_child. destruct node_mem.
      - assert (tasks s5 !! cur = Some tc5) as Hc5' by exact Hc5.
        rewrite (bind_Some _ _ _ _ _ (tupd_ok s5 cur tc5 _ Hc5')). set (s7 := with_tasks _ s5).
        assert (tasks s7 !! t = Some tk5) as Ht7 by (cbn; by rewrite lookup_insert_ne).
        rewrite (tupd_ok s7 t tk5 _ Ht7). eexists. split; [reflexivity|]. cbn. do 4 (split; [done|]).
        split; [|split].
        + intros x. rewrite (next_of_upd _ t tk5 (set_parent (Some cur))) by (by rewrite ?lookup_insert_ne).
          by apply (next_of_upd _ cur tc5 (λ x, set_children (t :: t_children x) x)).
        + eexists. split; [apply lookup_insert_eq|]. transitivity (set_parent (Some cur) (set_next NULL tk5)); [done|]. by rewrite E5.
        + eexists. split; [by rewrite lookup_insert_ne, lookup_insert_eq|]. cbn. f_equal. injection Ec5. congruence.
      - exists s5. do 5 (split; [done|]). split; [done|]. split; [by exists tk5|]. exists tc5. split; [done|].
        cbn. injection Ec5. congruence. }
    exists (Some t), s6. split; [by run R6|]. rewrite EP, EF. split; [by destruct HK'; constructor|]. split; [done|].
    exists tk6, tc6, v. injection E6 as P1 P2 P3 P4 P5 P6 P7 P8.
    rewrite P1. cbn [tk set_pid t_pid] in *. fold cpu.
    assert (pid_used p3 pid = pid_used p' pid) as -> by done.
    rewrite Hused by (unfold in_pids; lia). rewrite decide_True by tauto. cbn [p3 pid_table]. rewrite HT.
    split_and!; try done; [lia|lia|rewrite EA, <- LA; apply lookup_split|].
    rewrite EA. rewrite <- LA. rewrite insert_middle.
    eapply queues_ok_frame; [exact HQ5|done|done|exact EN].
  - cbn [Z.ltb Z.compare]. unfold free_page, kfree_task. rewrite !bind_modify. eexists NULL, _. split; [reflexivity|]. cbn.
    split; [done|]. split; [done|].
    assert (delete t (<[t := tk]> (<[t := tk0]> (tasks s))) = tasks s) as ->
      by (by rewrite insert_insert_eq, delete_insert_eq, delete_id).
    rewrite delete_insert_eq, delete_id by done. do 3 (split; [done|]). by eapply queues_ok_frame.
Qed.

Lemma create_task_correct_witness :
  ∃ s' tk, create_task (Some 9%positive) (Some 4096) true 0 loaded_machine = Some (Some 9%positive, s') ∧
    tasks s' !! 9%positive = Some tk ∧ t_pid tk = 2 ∧ t_state tk = TASK_READY.
Proof.
  assert (∃ tc, tasks loaded_machine !! 1%positive = Some tc) as (tc & Hc) by (vm_compute; eexists; reflexivity).
  destruct (create_task_correct loaded_machine loaded_views 9%positive 4096 true 0 1%positive tc loaded_machine_ok) as (o & s' & R & _ & W).
  - assert (pids loaded_machine = pids0) as -> by (vm_compute; reflexivity). exact pids0_ok.
  - vm_compute; reflexivity.
  - exact Hc.
  - vm_compute; reflexivity.
  - vm_compute; reflexivity.
  - clear. intros X. assert (9%positive ∈ [1%positive; 3%positive; 2%positive]) as Y by exact X.
    repeat apply elem_of_cons in Y as [Y|Y]; [discriminate..|]. exact (not_elem_of_nil _ Y).
  - vm_compute. split; discriminate.
  - reflexivity.
  - destruct o as [t|].
    + destruct W as (-> & tk & tc' & v & Ht & _ & _ & _ & _ & Hs & _). exists s', tk. split; [exact R|]. split; [exact Ht|].
      split; [|exact Hs]. assert (t_pid <$> tasks s' !! 9%positive = Some 2) as E.
      { assert (snd <$> create_task (Some 9%positive) (Some 4096) true 0 loaded_machine = Some s') as R' by exact (f_equal (fmap snd) R).
        clear - R'. assert (∀ o, o = Some s' → (t_pid <$> (o ≫= λ s, tasks s !! 9%positive)) = Some 2 → 
          t_pid <$> tasks s' !! 9%positive = Some 2) as K by (intros o ->; done).
        apply (K _ R'). vm_compute. reflexivity. }
      assert (t_pid <$> Some tk = Some 2) as E' by (rewrite <- Ht; exact E). cbn in E'. by injection E'.
    + exfalso. destruct W as [W _]. specialize (W 2 (conj (Z.le_refl 2) eq_refl)).
      assert (pid_used (pids loaded_machine) 2 = false) as F by (vm_compute; reflexivity). exact (Bool.diff_false_true (eq_trans (eq_sym F) W)).
Defined.
