(* ===== verification/Signal.v ===== *)
(** * kernel/signal.c: installing handlers, delivery on the user stack and
    return from a handler.

    User memory is a map from addresses to bytes; [present] answers
    [user_page_present] of pagetable.c for a page address. *)
From S2P Require Import Prelude Bytes RBTree PidAlloc Files Task RunQueue Sched.
Local Open Scope Z_scope.
Local Open Scope kernel_scope.

Definition SYS_SIGRETURN : Z := 15.
Definition USER_ADDR_MAX : Z := 2 ^ 47 - 1.
Definition SIGFRAME_SIZE : Z := 144.
Definition TRAMPOLINE_SIZE : Z := 16.
Definition RFLAGS_MASK : Z := 4161495.

(** [struct trapframe]. *)
Record trapframe := mk_tf {
  r15 : Z; r14 : Z; r13 : Z; r12 : Z; r11 : Z; r10 : Z; r9 : Z; r8 : Z;
  rsi : Z; rdi : Z; rdx : Z; rcx : Z; rax : Z; rip : Z; rsp : Z
}.

Record sworld := mk_sw { sched : ksched; current_tf : option trapframe; umem : gmap Z Z }.
Definition WM := ST sworld.
Definition with_sched k w := mk_sw k (current_tf w) (umem w).
Definition with_tf f w := mk_sw (sched w) (Some f) (umem w).
Definition with_umem m w := mk_sw (sched w) (current_tf w) m.
Definition on_sched {A} (m : SM A) : WM A :=
  λ w, match m (sched w) with Some (a, k) => Some (a, with_sched k w) | None => None end.

(** ** User memory *)

Definition user_addr_range_ok (addr size : Z) : bool :=
  let e := u64 (addr + size) in negb (e <? addr) && negb (USER_ADDR_MAX <? e).

Section user.
Context (present : Z → bool).

Fixpoint pages_mapped (n : nat) (page e : Z) : bool :=
  match n with
  | O => false
  | S n => if page <? e then present page && pages_mapped n (page + 4096) e else true
  end.
(** The loop runs over at most [size / 4096 + 2] pages. *)
Definition user_pages_mapped (addr size : Z) : bool :=
  pages_mapped (Z.to_nat (size / 4096 + 3)) (4096 * (addr / 4096)) (addr + size).

Definition user_ok (addr size : Z) : bool :=
  negb (addr =? 0) && user_addr_range_ok addr size && user_pages_mapped addr size.

Section signal.
Context `{RT : ReadyTree} (fuel : nat) (cpu_id : Z).

(** ** sigaction *)
Definition words_of_action (a : sigaction) : list Z := [sa_handler a; sa_flags a; sa_mask a].
Definition action_of_words (ws : list Z) : sigaction :=
  match ws with [h; f; m] => mk_sa h f m | _ => mk_sa 0 0 0 end.
Definition set_actions l g := mk_sig l (sig_pending g) (sig_blocked g) (saved_rsp g) (saved_rip g).

Definition cur_loc : WM loc := c <- on_sched (gets current) ;; on_sched (non_null c).

(** [act] and [oldact] are user addresses, 0 for null; [mem] is whether
    [signal_alloc] finds memory. *)
Definition do_sys_sigaction (mem : bool) (signo act oldact : Z) : WM Z :=
  if (signo <? 1) || (NSIG <=? signo) then ret (-1) else
  if signo =? SIGKILL then ret (-1) else
  c <- cur_loc ;;
  g <- on_sched (tld t_sig c) ;;
  match g, mem with
  | None, false => ret (-1)
  | _, _ =>
      let g := default new_signal_state g in
      on_sched (tupd (set_sig (Some g)) c) ;;;
      let a := default (mk_sa SIG_DFL 0 0) (actions g !! Z.to_nat signo) in
      if negb (oldact =? 0) && negb (user_ok oldact 24) then ret (-1) else
      (if negb (oldact =? 0) then modify (λ w, with_umem (st_words (umem w) oldact (words_of_action a)) w) else ret tt) ;;;
      if act =? 0 then ret 0 else
      if negb (user_ok act 24) then ret (-1) else
      m <- gets umem ;;
      on_sched (tupd (set_sig (Some (set_actions (<[Z.to_nat signo := action_of_words (ld_words m act 3)]> (actions g)) g))) c) ;;;
      ret 0
  end.

(** ** Delivery *)
Definition do_signal_default (mem : bool) (sig : Z) : SM sched_result :=
  if sig =? SIGCHLD then ret Stay else do_exit_current fuel mem cpu_id (128 + sig).

(** [struct sigframe] from [signo] on, in memory order. *)
Definition frame_words (s user_rsp : Z) (f : trapframe) : list Z :=
  [s; r15 f; r14 f; r13 f; r12 f; r11 f; r10 f; r9 f; r8 f; rsi f; rdi f; rdx f; rcx f; rax f; rip f; r11 f; user_rsp].

(** The first eight bytes of the trampoline: [mov eax, SYS_SIGRETURN; syscall]. *)
Definition trampoline : list Z := 184 :: le_bytes 4 SYS_SIGRETURN ++ [15; 5; 0].

Definition push_frame (s user_rsp new_rsp : Z) (f : trapframe) (m : gmap Z Z) : gmap Z Z :=
  let m := store m (new_rsp + 8) (trampoline ++ replicate 8 0) in
  let m := st64 m new_rsp (new_rsp + 8) in
  st_words m (new_rsp + 8 + TRAMPOLINE_SIZE + 8) (frame_words s user_rsp f).

Definition to_handler (handler new_rsp s : Z) (f : trapframe) : trapframe :=
  mk_tf (r15 f) (r14 f) (r13 f) (r12 f) (r11 f) (r10 f) (r9 f) (r8 f) (rsi f) s (rdx f) (rcx f) (rax f) handler new_rsp.

Inductive delivery := NoSignal | DefaultAction (sig : Z) (r : sched_result) | Handler (sig : Z).

Definition frame_size : Z := SIGFRAME_SIZE + 8 + TRAMPOLINE_SIZE.
Definition save_context (user_rsp user_rip s : Z) (g : signal_state) : signal_state :=
  mk_sig (actions g) (sig_pending g) (Z.lor (sig_blocked g) (sig_bit s)) user_rsp user_rip.

(** Taking signal [s], which is pending and not blocked; [None] goes on to the
    next one. *)
Definition take_signal (mem : bool) (c : loc) (g : signal_state) (f : trapframe) (s : Z) : WM (option delivery) :=
  let handler := handler_of g s in
  let default_action := r <- on_sched (do_signal_default mem s) ;; ret (Some (DefaultAction s r)) in
  if handler =? SIG_DFL then default_action else
  if handler =? SIG_IGN then ret None else
  let user_rsp := rsp f in
  if user_rsp <? frame_size + 4096 then default_action else
  let new_rsp := user_rsp - frame_size in
  if negb (user_addr_range_ok new_rsp frame_size) || negb (user_pages_mapped new_rsp frame_size) then default_action else
  modify (λ w, with_umem (push_frame s user_rsp new_rsp f (umem w)) w) ;;;
  modify (with_tf (to_handler handler new_rsp s f)) ;;;
  on_sched (tupd (set_sig (Some (save_context user_rsp (rip f) s g))) c) ;;;
  ret (Some (Handler s)).

(** [for (s = s; s < NSIG; ++s)]. *)
Fixpoint deliver (n : nat) (mem : bool) (c : loc) (g : signal_state) (f : trapframe) (s : Z) : WM delivery :=
  match n with
  | O => ret NoSignal
  | S n =>
      if (Z.land (sig_pending g) (sig_bit s) =? 0) || negb (Z.land (sig_blocked g) (sig_bit s) =? 0)
      then deliver n mem c g f (s + 1)
      else
        let g := set_pending (Z.ldiff (sig_pending g) (sig_bit s)) g in
        on_sched (tupd (set_sig (Some g)) c) ;;;
        r <- take_signal mem c g f s ;;
        match r with Some d => ret d | None => deliver n mem c g f (s + 1) end
  end.

Definition check_signals (mem : bool) : WM delivery :=
  cur <- on_sched (gets current) ;;
  match cur with
  | None => ret NoSignal
  | Some c =>
      g <- on_sched (tld t_sig c) ;;
      f <- gets current_tf ;;
      match g, f with
      | Some g, Some f => if sig_pending g =? 0 then ret NoSignal else deliver 31 mem c g f 1
      | _, _ => ret NoSignal
      end
  end.

(** ** Return from a handler *)
Definition restore (ws : list Z) (f : trapframe) : trapframe :=
  match ws with
  | [_; w15; w14; w13; w12; _; w10; w9; w8; wsi; wdi; wdx; wcx; wax; wip; wfl; wsp] =>
      mk_tf w15 w14 w13 w12 (Z.land wfl RFLAGS_MASK) w10 w9 w8 wsi wdi wdx wcx wax wip wsp
  | _ => f
  end.
Definition set_rip_rsp (i p : Z) (f : trapframe) : trapframe :=
  mk_tf (r15 f) (r14 f) (r13 f) (r12 f) (r11 f) (r10 f) (r9 f) (r8 f) (rsi f) (rdi f) (rdx f) (rcx f) (rax f) i p.
Definition forget_context (g : signal_state) : signal_state := mk_sig (actions g) (sig_pending g) 0 0 0.

Definition do_sys_sigreturn (mem : bool) : WM (option sched_result) :=
  tf <- gets current_tf ;;
  match tf with
  | None => r <- on_sched (do_exit_current fuel mem cpu_id 1) ;; ret (Some r)
  | Some f =>
      c <- cur_loc ;;
      g <- on_sched (tld t_sig c) ;;
      match g with
      | None => ret None
      | Some g =>
          if saved_rip g =? 0 then ret None else
          let frame_addr := u64 (saved_rsp g - SIGFRAME_SIZE) in
          m <- gets umem ;;
          let ws := ld_words m (frame_addr + 8) 17 in
          let signo := default 0 (head ws) in
          (if user_ok frame_addr SIGFRAME_SIZE && (0 <? signo) && (signo <? NSIG)
           then modify (with_tf (restore ws f))
           else modify (with_tf (set_rip_rsp (saved_rip g) (saved_rsp g) f))) ;;;
          on_sched (tupd (set_sig (Some (forget_context g))) c) ;;;
          ret None
      end
  end.
End signal.
End user.
