(* ===== verification/SignalThms.v ===== *)
(** * Properties of signal delivery: a handler's return restores the
    interrupted context, what nesting loses, and SIGKILL. *)
From S2P Require Import Prelude Bytes RBTree RBTreeSpec PidAlloc Files Task RunQueue RunQueueSpec Sched SchedInv SchedLife Signal.
Local Open Scope Z_scope.
Local Open Scope kernel_scope.

(** Inversion of a run that returned. *)
Lemma bind_inv {S A B} (m : ST S A) (k : A → ST S B) s b s' :
  bind m k s = Some (b, s') → ∃ a s1, m s = Some (a, s1) ∧ k a s1 = Some (b, s').
Proof. unfold bind. destruct (m s) as [[a s1]|] eqn:E; [|done]. intros H. by exists a, s1. Qed.
Lemma on_sched_inv {A} (m : SM A) w a w' :
  on_sched m w = Some (a, w') → ∃ k, m (sched w) = Some (a, k) ∧ w' = with_sched k w.
Proof. unfold on_sched. destruct (m (sched w)) as [[x k]|]; [|done]. intros [= <- <-]. by exists k. Qed.
Lemma tupd_inv f l s u s' :
  tupd f l s = Some (u, s') → ∃ t, tasks s !! l = Some t ∧ s' = with_tasks (<[l := f t]> (tasks s)) s.
Proof. unfold tupd. destruct (tasks s !! l) as [t|]; [|done]. intros [= _ <-]. by exists t. Qed.
Lemma tld_inv {A} (f : task → A) l s a s' :
  tld f l s = Some (a, s') → ∃ t, tasks s !! l = Some t ∧ a = f t ∧ s' = s.
Proof. unfold tld. destruct (tasks s !! l) as [t|]; [|done]. intros [= <- <-]. by exists t. Qed.

Lemma on_sched_ok {A} (m : SM A) w a k : m (sched w) = Some (a, k) → on_sched m w = Some (a, with_sched k w).
Proof. intros H. unfold on_sched. by rewrite H. Qed.
Lemma with_sched_id w : with_sched (sched w) w = w.
Proof. by destruct w. Qed.

(** [mrun H] runs the inversion of the first statement of [H]. *)
Ltac minv H :=
  let a := fresh "a" in let s := fresh "w" in let H1 := fresh "H" in
  apply bind_inv in H as (a & s & H1 & H).

Definition sig_of (k : ksched) (c : loc) : option signal_state := tasks k !! c ≫= t_sig.

(** The registers hold 64-bit values. *)
Definition regs_ok (f : trapframe) : Prop :=
  Forall is_u64 [r15 f; r14 f; r13 f; r12 f; r11 f; r10 f; r9 f; r8 f; rsi f; rdi f; rdx f; rcx f; rax f; rip f; rsp f].
#[export] Instance regs_ok_dec f : Decision (regs_ok f) := _.

(** What the handler returns to: [f] with the flags masked. *)
Definition resumed (f : trapframe) : trapframe :=
  mk_tf (r15 f) (r14 f) (r13 f) (r12 f) (Z.land (r11 f) RFLAGS_MASK) (r10 f) (r9 f) (r8 f)
        (rsi f) (rdi f) (rdx f) (rcx f) (rax f) (rip f) (rsp f).

(** [w1] is [w] with signal [s] taken by its handler from context [f]; [g] is
    the signal state in which it was taken. *)
Record handled (present : Z → bool) (c : loc) (f : trapframe) (g : signal_state) (s : Z) (w w1 : sworld) : Prop := {
  hd_sig : 1 ≤ s < NSIG;
  hd_handler : handler_of g s ≠ SIG_DFL ∧ handler_of g s ≠ SIG_IGN;
  hd_room : frame_size + 4096 ≤ rsp f;
  hd_range : user_addr_range_ok (rsp f - frame_size) frame_size = true;
  hd_mapped : user_pages_mapped present (rsp f - frame_size) frame_size = true;
  hd_umem : umem w1 = push_frame s (rsp f) (rsp f - frame_size) f (umem w);
  hd_tf : current_tf w1 = Some (to_handler (handler_of g s) (rsp f - frame_size) s f);
  hd_sched : ∃ t, tasks (sched w) !! c = Some t ∧
    sched w1 = with_tasks (<[c := set_sig (Some (save_context (rsp f) (rip f) s g)) t]> (tasks (sched w))) (sched w)
}.

Lemma hd_state present c f g s w w1 :
  handled present c f g s w w1 → sig_of (sched w1) c = Some (save_context (rsp f) (rip f) s g).
Proof. intros [? ? ? ? ? ? ? (t & _ & E)]. unfold sig_of. rewrite E. cbn. by rewrite lookup_insert_eq. Qed.
Lemma hd_cur present c f g s w w1 : handled present c f g s w w1 → current (sched w1) = current (sched w).
Proof. intros [? ? ? ? ? ? ? (t & _ & E)]. by rewrite E. Qed.
(** Clearing the pending bit first makes no difference. *)
Lemma handled_after present c f g g0 s w t w1 :
  tasks (sched w) !! c = Some t →
  handled present c f g s (with_sched (with_tasks (<[c := set_sig g0 t]> (tasks (sched w))) (sched w)) w) w1 →
  handled present c f g s w w1.
Proof.
  intros Ht [? ? ? ? ? ? ? (t' & Ht' & E)]. constructor; try done. exists t. split; [done|]. cbn in Ht', E.
  rewrite lookup_insert_eq in Ht'. injection Ht' as <-. rewrite insert_insert_eq in E. exact E.
Qed.

Section signal.
Context (present : Z → bool) `{RT : ReadyTree} (fuel : nat) (cpu_id : Z).

Lemma sig_bit_pow s : 1 ≤ s < NSIG → sig_bit s = 2 ^ s.
Proof.
  intros Hs. unfold sig_bit, u32. rewrite Z.shiftl_1_l. apply Z.mod_small.
  split; [apply Z.pow_nonneg; lia|]. apply Z.pow_lt_mono_r; unfold NSIG in Hs; lia.
Qed.
Lemma sig_bit_testbit s i : 1 ≤ s < NSIG → Z.testbit (sig_bit s) i = bool_decide (i = s).
Proof.
  intros Hs. rewrite sig_bit_pow by done. destruct (decide (i = s)) as [->|Hi].
  - rewrite Z.pow2_bits_true by lia. by rewrite bool_decide_eq_true_2.
  - rewrite Z.pow2_bits_false by lia. by rewrite bool_decide_eq_false_2.
Qed.
Lemma land_sig_bit x s : 1 ≤ s < NSIG → (Z.land x (sig_bit s) =? 0) = negb (Z.testbit x s).
Proof.
  intros Hs. destruct (Z.testbit x s) eqn:E.
  - apply Z.eqb_neq. intros H0. assert (Z.testbit (Z.land x (sig_bit s)) s = true) as H.
    { rewrite Z.land_spec, E, sig_bit_testbit by done. by rewrite bool_decide_eq_true_2. }
    by rewrite H0, Z.bits_0 in H.
  - apply Z.eqb_eq. apply Z.bits_inj'. intros i Hi. rewrite Z.land_spec, sig_bit_testbit, Z.bits_0 by done.
    destruct (decide (i = s)) as [->|Hne]; [by rewrite E|]. rewrite bool_decide_eq_false_2 by done. apply andb_false_r.
Qed.

(** A taken signal either went to its handler, was ignored or got the default
    action. *)
Lemma take_signal_inv mem c g f s w r w' :
  1 ≤ s < NSIG → sig_of (sched w) c = Some g →
  take_signal present fuel cpu_id mem c g f s w = Some (r, w') →
  (r = Some (Handler s) ∧ handled present c f g s w w') ∨
  (r = None ∧ w' = w ∧ handler_of g s = SIG_IGN) ∨
  (∃ x, r = Some (DefaultAction s x) ∧ on_sched (do_signal_default fuel cpu_id mem s) w = Some (x, w')).
Proof.
  intros Hs Hg H. unfold take_signal in H. cbv zeta in H.
  assert (∀ Y, (r0 <- on_sched (do_signal_default fuel cpu_id mem s) ;; ret (Some (DefaultAction s r0))) w = Some (r, w') →
    Y ∨ (∃ x, r = Some (DefaultAction s x) ∧ on_sched (do_signal_default fuel cpu_id mem s) w = Some (x, w'))) as HD.
  { intros Y HH. minv HH. injection HH as <- <-. right. by exists a. }
  destruct (Z.eqb_spec (handler_of g s) SIG_DFL) as [E1|E1]; [right; by apply HD|].
  destruct (Z.eqb_spec (handler_of g s) SIG_IGN) as [E2|E2].
  { injection H as <- <-. right. by left. }
  destruct (Z.ltb_spec (rsp f) (frame_size + 4096)) as [E3|E3]; [right; by apply HD|].
  destruct (negb _ || negb _) eqn:E4; [right; by apply HD|].
  apply orb_false_iff in E4 as [E4%negb_false_iff E5%negb_false_iff].
  rewrite !bind_modify in H. minv H. injection H as <- <-.
  apply on_sched_inv in H0 as (k & Hk & ->). apply tupd_inv in Hk as (t & Ht & ->).
  left. split; [done|]. constructor; try done. by exists t.
Qed.

Lemma deliver_inv n mem c g f s w d w' :
  1 ≤ s → s + Z.of_nat n ≤ NSIG → sig_of (sched w) c = Some g →
  deliver present fuel cpu_id n mem c g f s w = Some (d, w') →
  match d with
  | NoSignal => umem w' = umem w ∧ current_tf w' = current_tf w
  | Handler s' => ∃ g', s ≤ s' ∧ actions g' = actions g ∧ sig_blocked g' = sig_blocked g ∧
      (∀ i, Z.testbit (sig_pending g') i = true → Z.testbit (sig_pending g) i = true) ∧
      handled present c f g' s' w w'
  | DefaultAction s' _ => s ≤ s' < NSIG
  end.
Proof.
  revert s g w. induction n as [|n IH]; intros s g w Hs Hn Hg H; cbn [deliver] in H.
  { injection H as <- <-. done. }
  destruct (_ || _).
  { apply IH in H; [|lia..|done]. destruct d as [|s' x|s']; [done|lia|]. destruct H as (g' & ? & ?). exists g'. split; [lia|done]. }
  minv H. apply on_sched_inv in H0 as (k & Hk & ->). apply tupd_inv in Hk as (t & Ht & ->).
  set (g1 := set_pending _ g) in H. set (w1 := with_sched _ w) in H.
  assert (sig_of (sched w1) c = Some g1) as Hg1 by (unfold sig_of; cbn; by rewrite lookup_insert_eq).
  assert (∀ i, Z.testbit (sig_pending g1) i = true → Z.testbit (sig_pending g) i = true) as Hp.
  { intros i. cbn. rewrite Z.ldiff_spec. by intros [? _]%andb_prop. }
  minv H. apply take_signal_inv in H0 as [[-> HD]|[(-> & -> & _)|(x & -> & _)]]; [| | |unfold NSIG in *; lia|done].
  - injection H as <- <-. exists g1. split_and!; [lia|done..|]. by eapply handled_after.
  - apply IH in H; [|lia..|done]. destruct d as [|s' y|s']; [done|lia|].
    destruct H as (g' & ? & ? & ? & Hq & HD). exists g'. split_and!; [lia|done..| |by eapply handled_after].
    intros i Hi. apply Hp, Hq, Hi.
  - injection H as <- <-. unfold NSIG in *. lia.
Qed.

Lemma check_signals_inv mem w s w1 :
  check_signals present fuel cpu_id mem w = Some (Handler s, w1) →
  ∃ c f g g', current (sched w) = Some c ∧ current_tf w = Some f ∧ sig_of (sched w) c = Some g ∧
    actions g' = actions g ∧ sig_blocked g' = sig_blocked g ∧
    (∀ i, Z.testbit (sig_pending g') i = true → Z.testbit (sig_pending g) i = true) ∧
    handled present c f g' s w w1.
Proof.
  intros H. unfold check_signals in H. minv H. apply on_sched_inv in H0 as (k & [= <- <-] & ->).
  rewrite with_sched_id in H. destruct (current (sched w)) as [c|] eqn:Ec; [|done].
  minv H. apply on_sched_inv in H0 as (k & Hk & ->). apply tld_inv in Hk as (t & Ht & -> & ->).
  rewrite with_sched_id, bind_gets in H. destruct (t_sig t) as [g|] eqn:Eg; [|done].
  destruct (current_tf w) as [f|] eqn:Ef; [|done]. destruct (_ =? 0); [done|].
  assert (sig_of (sched w) c = Some g) as Hg by (unfold sig_of; by rewrite Ht).
  apply deliver_inv in H as (g' & ? & ? & ? & ? & ?); [|done..|by unfold NSIG; lia|done].
  exists c, f, g, g'. split_and!; done.
Qed.

(** Apart from the early returns, delivery is the loop from signal 1. *)
Lemma check_signals_deliver mem w d w1 :
  check_signals present fuel cpu_id mem w = Some (d, w1) →
  w1 = w ∨ ∃ c f g, current (sched w) = Some c ∧ current_tf w = Some f ∧ sig_of (sched w) c = Some g ∧
    sig_pending g ≠ 0 ∧ deliver present fuel cpu_id 31 mem c g f 1 w = Some (d, w1).
Proof.
  intros H. unfold check_signals in H. minv H. apply on_sched_inv in H0 as (k & [= <- <-] & ->).
  rewrite with_sched_id in H. destruct (current (sched w)) as [c|] eqn:Ec; [|injection H as _ <-; by left].
  minv H. apply on_sched_inv in H0 as (k & Hk & ->). apply tld_inv in Hk as (t & Ht & -> & ->).
  rewrite with_sched_id, bind_gets in H. destruct (t_sig t) as [g|] eqn:Eg; [|injection H as _ <-; by left].
  destruct (current_tf w) as [f|] eqn:Ef; [|injection H as _ <-; by left].
  destruct (Z.eqb_spec (sig_pending g) 0) as [Ep|Ep]; [injection H as _ <-; by left|]. right.
  exists c, f, g. split_and!; try done. unfold sig_of. by rewrite Ht.
Qed.
Lemma check_signals_run mem w c f g :
  current (sched w) = Some c → current_tf w = Some f → sig_of (sched w) c = Some g → sig_pending g ≠ 0 →
  check_signals present fuel cpu_id mem w = deliver present fuel cpu_id 31 mem c g f 1 w.
Proof.
  intros Hc Hf Hg Hp. unfold sig_of in Hg. destruct (tasks (sched w) !! c) as [t|] eqn:Ht; [|done]. cbn in Hg.
  unfold check_signals. erewrite bind_Some by (apply on_sched_ok; reflexivity). rewrite with_sched_id, Hc.
  erewrite bind_Some by (apply on_sched_ok, tld_ok; exact Ht). rewrite with_sched_id, Hg, bind_gets, Hf.
  by rewrite (proj2 (Z.eqb_neq _ _) Hp).
Qed.

(** ** The round trip *)
Lemma pages_mapped_spec n page e :
  (0 < n)%nat → e - page ≤ 4096 * (Z.of_nat n - 1) →
  pages_mapped present n page e = true ↔ ∀ i, 0 ≤ i → page + 4096 * i < e → present (page + 4096 * i) = true.
Proof.
  revert page. induction n as [|n IH]; intros page H0 Hn; cbn [pages_mapped]; [lia|].
  destruct (Z.ltb_spec page e) as [Hp|Hp]; [|split; [intros _ i ? ?; exfalso; lia|done]].
  rewrite andb_true_iff, IH by lia. split.
    + intros [Hp0 H] i Hi Hlt. destruct (decide (i = 0)) as [->|Hne]; [by rewrite Z.mul_0_r, Z.add_0_r|].
      replace (page + 4096 * i) with (page + 4096 + 4096 * (i - 1)) by lia. apply H; lia.
    + intros H. split; [replace page with (page + 4096 * 0) by lia; apply H; lia|].
      intros i Hi Hlt. replace (page + 4096 + 4096 * i) with (page + 4096 * (i + 1)) in * by lia. apply H; lia.
Qed.

(** Every page of a range is present when the range is mapped. *)
Lemma user_pages_mapped_spec addr size :
  0 ≤ size →
  user_pages_mapped present addr size = true ↔
  ∀ p, 4096 * (addr / 4096) ≤ p < addr + size → p mod 4096 = 0 → present p = true.
Proof.
  intros Hs. unfold user_pages_mapped.
  pose proof (Z.div_mod addr 4096 ltac:(lia)) as E1. pose proof (Z.mod_pos_bound addr 4096 ltac:(lia)).
  pose proof (Z.div_mod size 4096 ltac:(lia)) as E2. pose proof (Z.mod_pos_bound size 4096 ltac:(lia)).
  pose proof (Z.div_pos size 4096 Hs ltac:(lia)). rewrite pages_mapped_spec by lia. split.
  - intros Hp p Hr Hm. pose proof (Z.div_mod p 4096 ltac:(lia)) as E3. rewrite Hm in E3.
    replace p with (4096 * (addr / 4096) + 4096 * (p / 4096 - addr / 4096)) by lia. apply Hp; lia.
  - intros Hp i Hi Hlt. apply Hp; [lia|]. rewrite <- Z.mul_add_distr_l, Z.mul_comm. apply Z.mod_mul. lia.
Qed.
Lemma user_pages_mapped_sub a n a' n' :
  a ≤ a' → a' + n' ≤ a + n → 0 ≤ n' → user_pages_mapped present a n = true → user_pages_mapped present a' n' = true.
Proof.
  intros H1 H2 H3. rewrite !user_pages_mapped_spec by lia. intros Hp p Hr. apply Hp.
  pose proof (Z.div_le_mono a a' 4096 ltac:(lia) H1). lia.
Qed.

Lemma frame_words_u64 s f : 1 ≤ s < NSIG → regs_ok f → Forall is_u64 (frame_words s (rsp f) f).
Proof.
  intros Hs Hr. unfold regs_ok, frame_words in *. rewrite !Forall_cons in *. unfold NSIG, is_u64 in *. split_and!; try tauto; lia.
Qed.

(** The frame is readable where it was written. *)
Lemma frame_readable c f g s w w1 :
  handled present c f g s w w1 → regs_ok f →
  u64 (rsp f - SIGFRAME_SIZE) = rsp f - SIGFRAME_SIZE ∧ user_ok present (rsp f - SIGFRAME_SIZE) SIGFRAME_SIZE = true.
Proof.
  intros [_ _ Hroom Hrange Hmap _ _ _] Hr.
  assert (is_u64 (rsp f)) as Hsp by (unfold regs_ok in Hr; rewrite !Forall_cons in Hr; tauto).
  assert (frame_size = 168) as EF by done. assert (SIGFRAME_SIZE = 144) as ES by done. unfold is_u64 in Hsp.
  assert (u64 (rsp f - SIGFRAME_SIZE) = rsp f - SIGFRAME_SIZE) as Eu by (apply Z.mod_small; lia). split; [done|].
  unfold user_ok. rewrite (proj2 (Z.eqb_neq _ _)) by lia. cbn [negb andb]. apply andb_true_iff. split.
  - unfold user_addr_range_ok in *. replace (rsp f - frame_size + frame_size) with (rsp f) in Hrange by lia.
    replace (rsp f - SIGFRAME_SIZE + SIGFRAME_SIZE) with (rsp f) by lia.
    assert (u64 (rsp f) = rsp f) as E by (apply Z.mod_small; lia). rewrite E in *.
    apply andb_true_iff in Hrange as [_ H2]. rewrite H2. rewrite (proj2 (Z.ltb_ge _ _)) by lia. done.
  - eapply user_pages_mapped_sub; [| | |exact Hmap]; lia.
Qed.

Lemma pushed_words s f m :
  1 ≤ s < NSIG → regs_ok f →
  ld_words (push_frame s (rsp f) (rsp f - frame_size) f m) (rsp f - SIGFRAME_SIZE + 8) 17 = frame_words s (rsp f) f.
Proof.
  intros Hs Hr. unfold push_frame. cbv zeta.
  replace (rsp f - frame_size + 8 + TRAMPOLINE_SIZE + 8) with (rsp f - SIGFRAME_SIZE + 8) by (unfold frame_size; lia).
  exact (ld_st_words _ _ (frame_words s (rsp f) f) (frame_words_u64 s f Hs Hr)).
Qed.

Lemma pushed_code s f p m :
  is_u64 p → is_u64 (p + 8) →
  ld64 (push_frame s (rsp f) p f m) p = p + 8 ∧ load (push_frame s (rsp f) p f m) (p + 8) 7 = [184; 15; 0; 0; 0; 15; 5].
Proof.
  intros Hp Hp8. unfold push_frame. cbv zeta. assert (TRAMPOLINE_SIZE = 16) as ET by done. split.
  - rewrite (ld64_ext _ (st64 (store m (p + 8) (trampoline ++ replicate 8 0)) p (p + 8))); [by apply ld_st64|].
    intros x Hx. apply st_words_out. lia.
  - rewrite (load_ext _ (store m (p + 8) (trampoline ++ replicate 8 0))).
    + exact (load_store_prefix m (p + 8) [184; 15; 0; 0; 0; 15; 5] (replicate 9 0)).
    + intros x Hx. rewrite st_words_out by lia. apply st64_out. lia.
Qed.

Lemma restore_frame s f f2 : restore (frame_words s (rsp f) f) f2 = resumed f.
Proof. done. Qed.

(** Running [do_sys_sigreturn] in the world [w2] the handler left. *)
Lemma sigreturn_handled mem c f f2 g s w w1 w2 :
  handled present c f g s w w1 → regs_ok f → rip f ≠ 0 →
  current (sched w2) = Some c → current_tf w2 = Some f2 → sig_of (sched w2) c = sig_of (sched w1) c →
  (∀ x, rsp f - SIGFRAME_SIZE ≤ x < rsp f → umem w2 !! x = umem w1 !! x) →
  ∃ t, tasks (sched w2) !! c = Some t ∧
    do_sys_sigreturn present fuel cpu_id mem w2 =
      Some (None, mk_sw (with_tasks (<[c := set_sig (Some (forget_context (save_context (rsp f) (rip f) s g))) t]>
                                       (tasks (sched w2))) (sched w2))
                        (Some (resumed f)) (umem w2)).
Proof.
  intros HD Hr Hip Hc Hf Hg Hm. destruct (frame_readable _ _ _ _ _ _ HD Hr) as [Eu Hok].
  rewrite (hd_state _ _ _ _ _ _ _ HD) in Hg. destruct HD. unfold sig_of in Hg. destruct (tasks (sched w2) !! c) as [t|] eqn:Ht; [|done]. cbn in Hg.
  exists t. split; [done|]. unfold do_sys_sigreturn. rewrite bind_gets, Hf. cbv beta iota.
  unfold cur_loc. erewrite bind_Some.
  2: { erewrite bind_Some by (apply on_sched_ok; reflexivity). rewrite with_sched_id, Hc. apply on_sched_ok. reflexivity. }
  rewrite with_sched_id. erewrite bind_Some by (apply on_sched_ok, tld_ok; exact Ht). rewrite with_sched_id, Hg. cbv beta iota zeta.
  cbn [saved_rip saved_rsp save_context]. rewrite (proj2 (Z.eqb_neq _ _) Hip), Eu, bind_gets. cbv beta.
  assert (ld_words (umem w2) (rsp f - SIGFRAME_SIZE + 8) 17 = frame_words s (rsp f) f) as ->.
  { rewrite (ld_words_ext _ (umem w1)), hd_umem0; [by apply pushed_words|]. intros x Hx. apply Hm.
    assert (SIGFRAME_SIZE = 144) by done. lia. }
  change (default 0 (head (frame_words s (rsp f) f))) with s. rewrite Hok.
  rewrite (proj2 (Z.ltb_lt 0 s)), (proj2 (Z.ltb_lt s NSIG)) by lia. cbn [andb].
  rewrite bind_modify, restore_frame. erewrite bind_Some by (apply on_sched_ok, tupd_ok; exact Ht). done.
Qed.

(** Without a saved context a return changes nothing. *)
Lemma sigreturn_no_context mem c f g w :
  current (sched w) = Some c → current_tf w = Some f → sig_of (sched w) c = Some g → saved_rip g = 0 →
  do_sys_sigreturn present fuel cpu_id mem w = Some (None, w).
Proof.
  intros Hc Hf Hg H0. unfold sig_of in Hg. destruct (tasks (sched w) !! c) as [t|] eqn:Ht; [|done]. cbn in Hg.
  unfold do_sys_sigreturn. rewrite bind_gets, Hf. cbv beta iota. unfold cur_loc. erewrite bind_Some.
  2: { erewrite bind_Some by (apply on_sched_ok; reflexivity). rewrite with_sched_id, Hc. apply on_sched_ok. reflexivity. }
  rewrite with_sched_id. erewrite bind_Some by (apply on_sched_ok, tld_ok; exact Ht). by rewrite with_sched_id, Hg, H0.
Qed.
End signal.

(** ** SIGKILL

    The step relation of everything that touches signal states, between two
    default actions. *)
Definition sig_ok (g : signal_state) : Prop :=
  handler_of g SIGKILL = SIG_DFL ∧ Z.testbit (sig_blocked g) SIGKILL = false.
Definition all_ok (k : ksched) : Prop := ∀ x g, sig_of k x = Some g → sig_ok g.
Definition kill_pending (k : ksched) (x : loc) : Prop :=
  ∃ g, sig_of k x = Some g ∧ Z.testbit (sig_pending g) SIGKILL = true.

Inductive sig_step (present : Z → bool) `{RT : ReadyTree} (fuel : nat) (cpu_id : Z) : sworld → sworld → Prop :=
  | step_kill mem pid sig r k w :
      do_sys_kill mem pid sig (sched w) = Some (r, k) → sig_step present fuel cpu_id w (with_sched k w)
  | step_sigaction mem signo act oldact r w w' :
      do_sys_sigaction present mem signo act oldact w = Some (r, w') → sig_step present fuel cpu_id w w'
  | step_deliver mem s w w' :
      check_signals present fuel cpu_id mem w = Some (Handler s, w') → sig_step present fuel cpu_id w w'
  | step_none mem w w' :
      check_signals present fuel cpu_id mem w = Some (NoSignal, w') → sig_step present fuel cpu_id w w'
  | step_sigreturn mem w w' :
      do_sys_sigreturn present fuel cpu_id mem w = Some (None, w') → sig_step present fuel cpu_id w w'
  | step_user f m w : sig_step present fuel cpu_id w (mk_sw (sched w) f m)
  | step_switch p w : sig_step present fuel cpu_id w (with_sched (with_current p (sched w)) w).

Definition sig_keeps (k k' : ksched) : Prop :=
  all_ok k → all_ok k' ∧ ∀ x, kill_pending k x → kill_pending k' x.

Lemma sig_keeps_refl k k' : tasks k' = tasks k → sig_keeps k k'.
Proof. intros E Hk. unfold all_ok, kill_pending, sig_of in *. rewrite E. split; [exact Hk|done]. Qed.
Lemma sig_keeps_trans k1 k2 k3 : sig_keeps k1 k2 → sig_keeps k2 k3 → sig_keeps k1 k3.
Proof. intros H1 H2 Hk. destruct (H1 Hk) as [Hk2 P1]. destruct (H2 Hk2) as [? P2]. split; [done|]. auto. Qed.

(** One task's signal state changes from [g] to [g']. *)
Lemma sig_keeps_upd k c t t' g' :
  tasks k !! c = Some t → t_sig t' = Some g' →
  (sig_ok (default new_signal_state (t_sig t)) → sig_ok g') →
  (∀ g, t_sig t = Some g → Z.testbit (sig_pending g) SIGKILL = true → Z.testbit (sig_pending g') SIGKILL = true) →
  sig_keeps k (with_tasks (<[c := t']> (tasks k)) k).
Proof.
  intros Ht Hg' Hok Hp Hk. split.
  - intros x g. unfold sig_of. cbn. destruct (decide (x = c)) as [->|Hne].
    + rewrite lookup_insert_eq. cbn. rewrite Hg'. intros [= <-]. apply Hok.
      destruct (t_sig t) as [g0|] eqn:E; [|by split]. apply (Hk c). unfold sig_of. by rewrite Ht.
    + rewrite lookup_insert_ne by done. apply Hk.
  - intros x (g & Hg & Hb). unfold kill_pending, sig_of in *. cbn. destruct (decide (x = c)) as [->|Hne].
    + rewrite lookup_insert_eq. cbn. rewrite Ht in Hg. cbn in Hg. exists g'. split; [done|]. by eapply Hp.
    + rewrite lookup_insert_ne by done. by exists g.
Qed.
Lemma sig_keeps_state k c t st : tasks k !! c = Some t → sig_keeps k (with_tasks (<[c := set_state st t]> (tasks k)) k).
Proof.
  intros Ht Hk. assert (∀ x, sig_of (with_tasks (<[c := set_state st t]> (tasks k)) k) x = sig_of k x) as E.
  { intros x. unfold sig_of. cbn. destruct (decide (x = c)) as [->|Hne]; [by rewrite lookup_insert_eq, Ht|].
    by rewrite lookup_insert_ne. }
  unfold all_ok, kill_pending in *. split; [intros x g; rewrite E; apply Hk|]. intros x. by rewrite E.
Qed.

Lemma sig_keeps_kill mem pid sig k r k' : do_sys_kill mem pid sig k = Some (r, k') → sig_keeps k k'.
Proof.
  intros H. unfold do_sys_kill in H. destruct (_ || _); [injection H as <- <-; by apply sig_keeps_refl|].
  destruct (pid <? 0); [injection H as <- <-; by apply sig_keeps_refl|]. minv H.
  assert (w = k) as ->.
  { unfold find_task_by_pid in H0. destruct (_ || _); [by injection H0 as <- <-|]. rewrite bind_gets in H0.
    destruct (pid_table _ !! pid) as [l|]; [|by injection H0 as <- <-]. minv H0. apply tld_inv in H1 as (t & _ & _ & ->).
    by destruct (decide _); injection H0 as <- <-. }
  destruct a as [l|]; [|injection H as <- <-; by apply sig_keeps_refl]. clear H0. minv H.
  apply tld_inv in H0 as (t & Ht & -> & ->).
  assert (∀ X Y : SM Z, (match t_sig t, mem with None, false => X | _, _ => Y end) k = Some (r, k') →
    (X k = Some (r, k') ∨ Y k = Some (r, k'))) as Hm by (intros X Y; destruct (t_sig t), mem; tauto).
  apply Hm in H as [H|H]; [injection H as <- <-; by apply sig_keeps_refl|]. clear Hm. cbv zeta in H.
  minv H. apply tupd_inv in H0 as (t1 & Ht1 & ->). rewrite Ht in Ht1. injection Ht1 as <-.
  assert (sig_keeps k (with_tasks (<[l := set_sig (Some (set_pending
    (Z.lor (sig_pending (default new_signal_state (t_sig t))) (sig_bit sig)) (default new_signal_state (t_sig t)))) t]> (tasks k)) k)) as K1.
  { eapply sig_keeps_upd; [done|done|by intros []|]. intros g Hg Hb. unfold set_pending. cbn [sig_pending]. rewrite Hg. change (default new_signal_state (Some g)) with g. by rewrite Z.lor_spec, Hb. }
  eapply sig_keeps_trans; [exact K1|]. clear K1. minv H. apply tld_inv in H0 as (t2 & Ht2 & -> & ->).
  minv H. injection H as <- <-. destruct (_ && _); [|injection H0 as _ <-; by apply sig_keeps_refl].
  apply tupd_inv in H0 as (t3 & Ht3 & ->). by apply sig_keeps_state.
Qed.

Section keeps.
Context (present : Z → bool) `{RT : ReadyTree} (fuel : nat) (cpu_id : Z).

Lemma cur_loc_inv w c w' : cur_loc w = Some (c, w') → current (sched w) = Some c ∧ w' = w.
Proof.
  intros H. unfold cur_loc in H. minv H. apply on_sched_inv in H0 as (k & [= <- <-] & ->). rewrite with_sched_id in H.
  apply on_sched_inv in H as (k & Hk & ->). destruct (current (sched w)) as [l|]; [|done]. injection Hk as <- <-.
  by rewrite with_sched_id.
Qed.
Lemma tld_sched_inv {A} (f : task → A) c w a w' :
  on_sched (tld f c) w = Some (a, w') → ∃ t, tasks (sched w) !! c = Some t ∧ a = f t ∧ w' = w.
Proof. intros H. apply on_sched_inv in H as (k & Hk & ->). apply tld_inv in Hk as (t & ? & -> & ->). exists t. by rewrite with_sched_id. Qed.
Lemma tupd_sched_inv f c w u w' :
  on_sched (tupd f c) w = Some (u, w') →
  ∃ t, tasks (sched w) !! c = Some t ∧ w' = with_sched (with_tasks (<[c := f t]> (tasks (sched w))) (sched w)) w.
Proof. intros H. apply on_sched_inv in H as (k & Hk & ->). apply tupd_inv in Hk as (t & ? & ->). by exists t. Qed.

Lemma sig_keeps_sigaction mem signo act oldact w r w' :
  do_sys_sigaction present mem signo act oldact w = Some (r, w') → sig_keeps (sched w) (sched w').
Proof.
  intros H. unfold do_sys_sigaction in H. destruct (_ || _) eqn:E1; [injection H as <- <-; by apply sig_keeps_refl|].
  apply orb_false_iff in E1 as [E1%Z.ltb_ge E2%Z.leb_gt].
  destruct (Z.eqb_spec signo SIGKILL) as [E3|E3]; [injection H as <- <-; by apply sig_keeps_refl|].
  minv H. apply cur_loc_inv in H0 as [_ ->]. minv H. apply tld_sched_inv in H0 as (t & Ht & -> & ->). rename a into c.
  assert (∀ X Y : WM Z, (match t_sig t, mem with None, false => X | _, _ => Y end) w = Some (r, w') →
    (X w = Some (r, w') ∨ Y w = Some (r, w'))) as Hm by (intros X Y; destruct (t_sig t), mem; tauto).
  apply Hm in H as [H|H]; [injection H as <- <-; by apply sig_keeps_refl|]. clear Hm. cbv zeta in H.
  set (g := default new_signal_state (t_sig t)) in H. minv H. apply tupd_sched_inv in H0 as (t0 & Ht0 & ->).
  rewrite Ht in Ht0. injection Ht0 as <-. eapply sig_keeps_trans.
  { apply (sig_keeps_upd _ c t (set_sig (Some g) t) g); [done|done|done|]. intros g0 Hg0 Hb. unfold g. by rewrite Hg0. }
  set (w1 := with_sched _ w) in H. change (sig_keeps (sched w1) (sched w')).
  destruct (_ && _); [injection H as <- <-; by apply sig_keeps_refl|]. minv H.
  assert (sched w0 = sched w1) as E0 by (destruct (negb (oldact =? 0)); by injection H0 as _ <-). clear H0.
  rewrite <- E0. destruct (act =? 0); [injection H as <- <-; by apply sig_keeps_refl|].
  destruct (negb _); [injection H as <- <-; by apply sig_keeps_refl|]. rewrite bind_gets in H. minv H. injection H as <- <-.
  apply tupd_sched_inv in H0 as (t1 & Ht1 & ->). rewrite E0 in Ht1. cbn in Ht1. rewrite lookup_insert_eq in Ht1. injection Ht1 as <-.
  eapply sig_keeps_upd; [rewrite E0; cbn; apply lookup_insert_eq|done| |by intros g0 [= <-]].
  cbn. intros [H1 H2]. split; [|done]. unfold handler_of in *. cbn [actions set_actions].
  rewrite list_lookup_insert_ne; [done|]. unfold SIGKILL in *. lia.
Qed.

Lemma sig_keeps_sigreturn mem w w' :
  do_sys_sigreturn present fuel cpu_id mem w = Some (None, w') → sig_keeps (sched w) (sched w').
Proof.
  intros H. unfold do_sys_sigreturn in H. rewrite bind_gets in H. destruct (current_tf w) as [f|]; [|by minv H].
  minv H. apply cur_loc_inv in H0 as [_ ->]. minv H. apply tld_sched_inv in H0 as (t & Ht & -> & ->).
  destruct (t_sig t) as [g|] eqn:Eg; [|injection H as <-; by apply sig_keeps_refl].
  destruct (_ =? 0); [injection H as <-; by apply sig_keeps_refl|]. cbv zeta in H. rewrite bind_gets in H. minv H.
  assert (sched w0 = sched w) as E0 by (destruct (_ && _ && _); by injection H0 as _ <-).
  minv H. injection H as <-. apply tupd_sched_inv in H1 as (t1 & Ht1 & ->). rewrite E0 in *. cbn [sched with_sched].
  rewrite Ht in Ht1. injection Ht1 as <-. eapply sig_keeps_upd; [done|done|rewrite Eg; intros [A _]; by split|]. intros g0 Hg0 Hb.
  rewrite Eg in Hg0. by injection Hg0 as <-.
Qed.

(** The delivery loop keeps everyone's SIGKILL, and gets to it. *)
Lemma sig_keeps_deliver n mem c g f s w d w' :
  1 ≤ s → s + Z.of_nat n ≤ NSIG → sig_of (sched w) c = Some g → sig_ok g →
  deliver present fuel cpu_id n mem c g f s w = Some (d, w') →
  (match d with DefaultAction _ _ => True | _ => sig_keeps (sched w) (sched w') end) ∧
  (Z.testbit (sig_pending g) SIGKILL = true → s ≤ SIGKILL < s + Z.of_nat n →
   match d with NoSignal => False | Handler s' => s' < SIGKILL | DefaultAction s' _ => s' ≤ SIGKILL end).
Proof.
  revert s g w. induction n as [|n IH]; intros s g w Hs Hn Hg Hok H; cbn [deliver] in H.
  { injection H as <- <-. split; [by apply sig_keeps_refl|lia]. }
  rewrite !land_sig_bit, negb_involutive in H by lia.
  destruct (negb _ || _) eqn:E.
  { apply IH in H as [H1 H2]; [|lia..|done|done]. split; [done|]. intros Hb Hr. apply H2; [done|].
    destruct (decide (s = SIGKILL)) as [->|]; [|lia]. destruct Hok as [_ Hbl]. by rewrite Hb, Hbl in E. }
  minv H. apply tupd_sched_inv in H0 as (t & Ht & ->).
  set (g1 := set_pending _ g) in H. set (w1 := with_sched _ w) in H.
  assert (sig_of (sched w1) c = Some g1) as Hg1 by (unfold sig_of; cbn; by rewrite lookup_insert_eq).
  assert (s ≠ SIGKILL → sig_keeps (sched w) (sched w1)) as K1.
  { intros Hne. assert (t_sig t = Some g) as Eg by (unfold sig_of in Hg; by rewrite Ht in Hg).
    apply (sig_keeps_upd _ c t _ g1); [done|done|by intros _; destruct Hok|]. intros g0 Hg0 Hb. rewrite Eg in Hg0. injection Hg0 as <-.
    unfold g1, set_pending. cbn [sig_pending]. rewrite Z.ldiff_spec, Hb, sig_bit_testbit by lia.
    by rewrite bool_decide_eq_false_2 by done. }
  minv H. apply take_signal_inv in H0 as [[-> HD]|[(-> & -> & Hign)|(x & -> & _)]]; [| | |lia|done].
  - injection H as <- <-. destruct (hd_handler _ _ _ _ _ _ _ HD) as [Hh _]. change (handler_of g1 s) with (handler_of g s) in Hh.
    assert (s ≠ SIGKILL) as Hne by (intros ->; by destruct Hok).
    split; [|intros; lia]. eapply sig_keeps_trans; [by apply K1|].
    destruct (hd_sched _ _ _ _ _ _ _ HD) as (t1 & Ht1 & ->). cbn in Ht1. rewrite lookup_insert_eq in Ht1. injection Ht1 as <-.
    eapply sig_keeps_upd; [cbn; apply lookup_insert_eq|done| |by intros g0 [= <-]].
    intros [A B]. split; [exact A|]. cbn [sig_blocked save_context].
    rewrite Z.lor_spec, sig_bit_testbit, bool_decide_eq_false_2 by (done || lia). by rewrite orb_false_r.
  - assert (s ≠ SIGKILL) as Hne by (intros ->; change (handler_of g1 SIGKILL) with (handler_of g SIGKILL) in Hign; destruct Hok as [Hh _]; by rewrite Hh in Hign).
    apply IH in H as [H1 H2]; [|lia..|done|by destruct Hok]. split.
    + destruct d; try done; (eapply sig_keeps_trans; [by apply K1|done]).
    + intros Hb Hr. apply H2; [|lia]. unfold g1, set_pending. cbn [sig_pending]. rewrite Z.ldiff_spec, Hb, sig_bit_testbit by lia.
      by rewrite bool_decide_eq_false_2 by done.
  - injection H as <- <-. split; [done|]. lia.
Qed.
End keeps.

Lemma sig_step_keeps present `{RT : ReadyTree} fuel cpu_id w w' :
  sig_step present fuel cpu_id w w' → sig_keeps (sched w) (sched w').
Proof.
  destruct 1 as [mem pid sig r k w H|mem signo act oldact r w w' H|mem s w w' H|mem w w' H|mem w w' H|f m w|p w].
  - by eapply sig_keeps_kill.
  - by eapply sig_keeps_sigaction.
  - intros Hall. revert Hall. apply check_signals_deliver in H as [->|(c & f & g & Hc & Hf & Hg & Hp & H)]; [by apply sig_keeps_refl|].
    intros Hall. eapply sig_keeps_deliver in H as [H _]; [by apply H|lia|unfold NSIG; lia|done|by eapply Hall].
  - intros Hall. revert Hall. apply check_signals_deliver in H as [->|(c & f & g & Hc & Hf & Hg & Hp & H)]; [by apply sig_keeps_refl|].
    intros Hall. eapply sig_keeps_deliver in H as [H _]; [by apply H|lia|unfold NSIG; lia|done|by eapply Hall].
  - by eapply sig_keeps_sigreturn.
  - by apply sig_keeps_refl.
  - by apply sig_keeps_refl.
Qed.
Lemma sig_steps_keep present `{RT : ReadyTree} fuel cpu_id w w' :
  rtc (sig_step present fuel cpu_id) w w' → sig_keeps (sched w) (sched w').
Proof.
  induction 1 as [w|w1 w2 w3 Hs _ IH]; [by apply sig_keeps_refl|].
  eapply sig_keeps_trans; [by eapply sig_step_keeps|done].
Qed.

(** After a return there is no saved context. *)
Lemma sigreturn_clears present `{RT : ReadyTree} fuel cpu_id mem w w' c g :
  current (sched w) = Some c → sig_of (sched w) c = Some g → is_Some (current_tf w) → saved_rip g ≠ 0 →
  do_sys_sigreturn present fuel cpu_id mem w = Some (None, w') →
  ∃ g', sig_of (sched w') c = Some g' ∧ saved_rip g' = 0.
Proof.
  intros Hc Hg [f Hf] Hip H. unfold do_sys_sigreturn in H. rewrite bind_gets, Hf in H. minv H. 
  apply cur_loc_inv in H0 as [Hc' ->]. rewrite Hc in Hc'. injection Hc' as <-. minv H.
  apply tld_sched_inv in H0 as (t & Ht & -> & ->). unfold sig_of in Hg. rewrite Ht in Hg. cbn in Hg. rewrite Hg in H.
  rewrite (proj2 (Z.eqb_neq _ _) Hip) in H. cbv zeta in H. rewrite bind_gets in H. minv H. clear H0. minv H. injection H as <-.
  apply tupd_sched_inv in H0 as (t1 & _ & ->). exists (forget_context g). split; [|done]. unfold sig_of. cbn. by rewrite lookup_insert_eq.
Qed.

(** ** The cases of [kill] *)
Lemma do_sys_kill_range mem pid sig k :
  ¬ (1 ≤ sig < NSIG ∧ 0 ≤ pid < MAX_PID) → do_sys_kill mem pid sig k = Some (-1, k).
Proof.
  intros H. unfold do_sys_kill. destruct (Z.ltb_spec sig 1); [done|]. destruct (Z.leb_spec NSIG sig); [done|].
  cbn [orb]. destruct (Z.ltb_spec pid 0); [done|]. unfold find_task_by_pid.
  rewrite (proj2 (Z.leb_le MAX_PID pid)) by lia. by rewrite orb_true_r.
Qed.
Lemma do_sys_kill_absent mem pid sig k : pid_table (pids k) !! pid = None → do_sys_kill mem pid sig k = Some (-1, k).
Proof.
  intros H. unfold do_sys_kill. destruct (_ || _); [done|]. destruct (pid <? 0) eqn:E; [done|]. unfold find_task_by_pid.
  rewrite E. cbn [orb]. destruct (_ <=? _); [done|]. unfold bind, gets. by rewrite H.
Qed.
Lemma do_sys_kill_refused mem pid sig k l t :
  pid_table (pids k) !! pid = Some l → tasks k !! l = Some t →
  t_state t = TASK_DEAD ∨ t_state t = TASK_ZOMBIE ∨ mem = false ∧ t_sig t = None →
  do_sys_kill mem pid sig k = Some (-1, k).
Proof.
  intros Hl Ht H. unfold do_sys_kill. destruct (_ || _); [done|]. destruct (pid <? 0) eqn:E; [done|]. unfold find_task_by_pid.
  rewrite E. cbn [orb]. destruct (_ <=? _); [done|]. unfold bind, gets, tld. rewrite Hl, Ht.
  destruct (decide _) as [?|Hn]; [done|]. cbn. rewrite Ht. destruct H as [?|[?|[-> ->]]]; [tauto|tauto|done].
Qed.
Lemma with_signal_spec sig t :
  1 ≤ sig < NSIG → let g := default new_signal_state (t_sig t) in
  ∃ g', t_sig (with_signal sig t) = Some g' ∧
    (∀ i, Z.testbit (sig_pending g') i = Z.testbit (sig_pending g) i || bool_decide (i = sig)) ∧
    sig_blocked g' = sig_blocked g ∧ actions g' = actions g ∧
    with_signal sig t = set_state (if decide (t_state t = TASK_BLOCKED ∧ Z.testbit (sig_blocked g) sig = false ∧
                                 (sig = SIGKILL ∨ handler_of g sig ≠ SIG_IGN))
                      then TASK_READY else t_state t) (set_sig (Some g') t).
Proof.
  intros Hs g. exists (set_pending (Z.lor (sig_pending g) (sig_bit sig)) g). unfold with_signal. cbv zeta. fold g.
  split; [by destruct (_ && _)|]. split.
  { intros i. unfold set_pending. cbn [sig_pending]. by rewrite Z.lor_spec, sig_bit_testbit. }
  split; [done|]. split; [done|]. unfold signal_wakes. cbn [sig_blocked set_pending]. rewrite land_sig_bit by done.
  change (handler_of (set_pending (Z.lor (sig_pending g) (sig_bit sig)) g) sig) with (handler_of g sig).
  change (t_state (set_sig _ t)) with (t_state t).
  destruct (decide _) as [(H1 & H2 & H3)|Hn].
  - rewrite bool_decide_eq_true_2, H2 by done. cbn [negb andb].
    assert ((sig =? SIGKILL) || negb (handler_of g sig =? SIG_IGN) = true) as ->; [|done].
    destruct H3 as [->|H3]; [done|]. rewrite (proj2 (Z.eqb_neq _ _) H3). apply orb_true_r.
  - destruct (bool_decide _ && _) eqn:E; [|by destruct t]. exfalso. apply Hn.
    apply andb_prop in E as [E1%bool_decide_eq_true [E2%negb_true_iff E3]%andb_prop]. split_and!; [done|done|].
    apply orb_true_iff in E3 as [E3%Z.eqb_eq|E3%negb_true_iff%Z.eqb_neq]; tauto.
Qed.

(** ** A task about to take SIGINT in its handler *)
Definition handler_state : signal_state :=
  mk_sig (<[2%nat := mk_sa 4194304 0 0]> (actions new_signal_state)) 4 0 0 0.
Definition handler_regs : trapframe := mk_tf 15 14 13 12 582 10 9 8 7 6 5 4 3 4198400 140737488351232.
Definition handler_world : sworld :=
  mk_sw (mk_ks {[1%positive := mk_task 3 TASK_RUNNING 0 NULL [] NULL 2 10 0 false 0 0 (Some handler_state) 0 None 0 0]}
           ∅ (replicate 8 empty_rq) (Some 1%positive) NULL NULL 0 false
           (mk_pids (3 :: replicate 127 0) 2 {[3 := 1%positive]}) (mk_fs ∅ ∅ []) 1 [] ∅)
        (Some handler_regs) ∅.

(** ** Properties *)

(** C20: A signal handler's return restores the interrupted context.  When
    [check_signals] enters the handler of signal [s] from the user context [f]
    (any 64-bit registers, [rip] not null), the handler gets [s] in [rdi], the
    return address on its stack is the trampoline, which holds
    [mov eax, 15; syscall]; and whatever the handler did to the registers and
    to memory outside the saved frame, [do_sys_sigreturn] returns with every
    register as it was, the flags masked with [RFLAGS_MASK] (which clears bits
    3, 5 and 15 and those from 22 on, but none of TF, IF, IOPL, NT and AC: see
    [restore_keeps_system_flags]), user memory as the handler left it, no saved
    context and no signal blocked. *)
Theorem handler_roundtrip present `{RT : ReadyTree} fuel cpu_id mem w s w1 c f w2 f2 :
  check_signals present fuel cpu_id mem w = Some (Handler s, w1) →
  current (sched w) = Some c → current_tf w = Some f → regs_ok f → rip f ≠ 0 →
  current (sched w2) = Some c → current_tf w2 = Some f2 → sig_of (sched w2) c = sig_of (sched w1) c →
  (∀ x, rsp f - SIGFRAME_SIZE ≤ x < rsp f → umem w2 !! x = umem w1 !! x) →
  (∃ f1, current_tf w1 = Some f1 ∧ rdi f1 = s ∧ ld64 (umem w1) (rsp f1) = rsp f1 + 8 ∧
     load (umem w1) (rsp f1 + 8) 7 = [184; 15; 0; 0; 0; 15; 5]) ∧
  ∃ w3, do_sys_sigreturn present fuel cpu_id mem w2 = Some (None, w3) ∧
    current_tf w3 = Some (resumed f) ∧ umem w3 = umem w2 ∧
    ∃ g1 g3, sig_of (sched w1) c = Some g1 ∧ sig_of (sched w3) c = Some g3 ∧ sig_pending g3 = sig_pending g1 ∧
      actions g3 = actions g1 ∧ sig_blocked g3 = 0 ∧ saved_rip g3 = 0 ∧ saved_rsp g3 = 0.
Proof.
  intros HC Ec Ef Hr Hip Hc2 Hf2 Hg2 Hm. apply check_signals_inv in HC as (c' & f' & g0 & g & Ec' & Ef' & _ & _ & _ & _ & HD).
  rewrite Ec in Ec'. rewrite Ef in Ef'. injection Ec' as <-. injection Ef' as <-. split.
  - eexists. split; [by destruct HD|]. split; [done|]. cbn [rsp to_handler]. rewrite (hd_umem _ _ _ _ _ _ _ HD).
    assert (is_u64 (rsp f)) as Hsp by (unfold regs_ok in Hr; rewrite !Forall_cons in Hr; tauto).
    pose proof (hd_room _ _ _ _ _ _ _ HD). assert (frame_size = 168) as EF by done. unfold is_u64 in Hsp.
    apply pushed_code; unfold is_u64; lia.
  - destruct (sigreturn_handled _ fuel cpu_id mem _ _ _ _ _ _ _ _ HD Hr Hip Hc2 Hf2 Hg2 Hm) as (t & Ht & R).
    eexists. split; [exact R|]. split; [done|]. split; [done|]. eexists _, _. split; [by eapply hd_state|].
    split; [unfold sig_of; cbn; by rewrite lookup_insert_eq|]. done.
Qed.

Lemma handler_roundtrip_witness :
  ∃ w1 w3, check_signals (λ _, true) 4 0 true handler_world = Some (Handler 2, w1) ∧
    do_sys_sigreturn (λ _, true) 4 0 true w1 = Some (None, w3) ∧ current_tf w3 = Some (resumed handler_regs).
Proof.
  destruct (check_signals (λ _, true) 4 0 true handler_world) as [[d w1]|] eqn:E.
  2: { exfalso. assert (check_signals (λ _, true) 4 0 true handler_world ≠ None) as H by (vm_compute; discriminate). exact (H E). }
  assert (d = Handler 2) as ->.
  { assert (fst <$> check_signals (λ _, true) 4 0 true handler_world = Some (Handler 2)) as H by (vm_compute; reflexivity).
    rewrite E in H. exact (inj Some _ _ H). }
  assert (current (sched w1) = Some 1%positive ∧ is_Some (current_tf w1)) as [H1 [f2 H2]].
  { assert ((λ x : delivery * sworld, (current (sched x.2), bool_decide (is_Some (current_tf x.2)))) <$>
      check_signals (λ _, true) 4 0 true handler_world = Some (Some 1%positive, true)) as H by (vm_compute; reflexivity).
    rewrite E in H. apply (inj Some) in H. cbn in H. injection H as HA HB. split; [exact HA|]. exact (bool_decide_eq_true_1 _ HB). }
  destruct (handler_roundtrip (λ _, true) 4 0 true handler_world 2 w1 1%positive handler_regs w1 f2 E) as [_ (w3 & R & T & _)];
    [reflexivity|reflexivity|decided|vm_compute; discriminate|exact H1|exact H2|reflexivity|reflexivity|].
  exists w1, w3. split; [reflexivity|]. split; [exact R|exact T].
Defined.

(** A handler interrupted by another signal never gets back.  The saved
    context is one pair in the task's signal state: when, in the handler of a
    first signal (its return context [saved_rip g] set), a second signal is
    delivered and its handler returns, the first handler's own
    [do_sys_sigreturn] finds no saved context and changes nothing at all, so
    the task does not resume at [saved_rip g]. *)
Theorem nested_context_lost present `{RT : ReadyTree} fuel cpu_id mem w s w1 c f g w2 f2 w3 w4 f4 :
  check_signals present fuel cpu_id mem w = Some (Handler s, w1) →
  current (sched w) = Some c → current_tf w = Some f → sig_of (sched w) c = Some g →
  saved_rip g ≠ 0 → rip f ≠ 0 → regs_ok f →
  current (sched w2) = Some c → current_tf w2 = Some f2 → sig_of (sched w2) c = sig_of (sched w1) c →
  do_sys_sigreturn present fuel cpu_id mem w2 = Some (None, w3) →
  current (sched w4) = Some c → current_tf w4 = Some f4 → sig_of (sched w4) c = sig_of (sched w3) c →
  do_sys_sigreturn present fuel cpu_id mem w4 = Some (None, w4).
Proof.
  intros HC Ec Ef Hg _ Hip Hr Hc2 Hf2 Hg2 R2 Hc4 Hf4 Hg4.
  apply check_signals_inv in HC as (c' & f' & g0 & g1 & Ec' & Ef' & _ & _ & _ & _ & HD).
  rewrite Ec in Ec'. rewrite Ef in Ef'. injection Ec' as <-. injection Ef' as <-.
  rewrite (hd_state _ _ _ _ _ _ _ HD) in Hg2.
  apply (sigreturn_clears present fuel cpu_id mem w2 w3 c _ Hc2 Hg2) in R2 as (g3 & Hg3 & H0); [|by rewrite Hf2|done].
  rewrite Hg3 in Hg4. by eapply sigreturn_no_context.
Qed.

Definition second_signal (w : sworld) : sworld :=
  match do_sys_kill true 3 1 (sched w) with Some (_, k) => with_sched k w | None => w end.
Definition handled_by (w : sworld) : sworld :=
  match check_signals (λ _, true) 4 0 true w with Some (_, w) => w | None => w end.
Definition returned (w : sworld) : sworld :=
  match do_sys_sigreturn (λ _, true) 4 0 true w with Some (_, w) => w | None => w end.
(** SIGINT's handler is entered, then SIGHUP's, which is the same code. *)
Definition both_handled : sworld :=
  mk_sw (with_tasks (<[1%positive := mk_task 3 TASK_RUNNING 0 NULL [] NULL 2 10 0 false 0 0
           (Some (mk_sig (<[1%nat := mk_sa 4194304 0 0]> (actions handler_state)) 4 0 0 0)) 0 None 0 0]> ∅) (sched handler_world))
        (Some handler_regs) ∅.
Definition first_handler : sworld := second_signal (handled_by both_handled).

Lemma nested_context_lost_witness :
  (λ f, (rip f, rsp f)) <$> current_tf (returned (handled_by first_handler)) = Some (4194304, 140737488351064) ∧
  do_sys_sigreturn (λ _, true) 4 0 true (returned (handled_by first_handler)) =
    Some (None, returned (handled_by first_handler)).
Proof.
  split; [vm_compute; reflexivity|].
  destruct (current_tf first_handler) as [f|] eqn:Ef;
    [|exfalso; assert (current_tf first_handler ≠ None) as H by (vm_compute; discriminate); exact (H Ef)].
  destruct (sig_of (sched first_handler) 1%positive) as [g|] eqn:Eg;
    [|exfalso; assert (sig_of (sched first_handler) 1%positive ≠ None) as H by (vm_compute; discriminate); exact (H Eg)].
  destruct (current_tf (handled_by first_handler)) as [f2|] eqn:Ef2;
    [|exfalso; assert (current_tf (handled_by first_handler) ≠ None) as H by (vm_compute; discriminate); exact (H Ef2)].
  destruct (current_tf (returned (handled_by first_handler))) as [f4|] eqn:Ef4;
    [|exfalso; assert (current_tf (returned (handled_by first_handler)) ≠ None) as H by (vm_compute; discriminate); exact (H Ef4)].
  assert (bool_decide (rip f ≠ 0 ∧ regs_ok f) = true) as HB.
  { assert ((λ f, bool_decide (rip f ≠ 0 ∧ regs_ok f)) <$> current_tf first_handler = Some true) as H by (vm_compute; reflexivity).
    rewrite Ef in H. exact (inj Some _ _ H). }
  apply bool_decide_eq_true_1 in HB as [Hip Hr].
  assert (saved_rip g ≠ 0) as Hs.
  { assert (saved_rip <$> sig_of (sched first_handler) 1%positive = Some 4198400) as H by (vm_compute; reflexivity).
    rewrite Eg in H. apply (inj Some) in H. rewrite H. discriminate. }
  apply (nested_context_lost (λ _, true) 4 0 true first_handler 1 (handled_by first_handler) 1%positive f g
    (handled_by first_handler) f2 (returned (handled_by first_handler)) _ f4); [vm_compute; reflexivity|vm_compute; reflexivity|
    exact Ef|exact Eg|exact Hs|exact Hip|exact Hr|vm_compute; reflexivity|exact Ef2|reflexivity|vm_compute; reflexivity|
    vm_compute; reflexivity|exact Ef4|reflexivity].
Defined.

(** SIGKILL can be neither caught, ignored nor blocked.  From any state in
    which no task handles or blocks it, every sequence of kills, sigactions,
    deliveries to handlers, returns from handlers, task switches and user-mode
    execution leaves that so and keeps a pending SIGKILL pending; and when a
    task with SIGKILL pending next returns to user mode it gets the default
    action, of SIGKILL or of a lower-numbered signal, unless a lower-numbered
    signal's handler runs first. *)
Theorem sigkill_unstoppable present `{RT : ReadyTree} fuel cpu_id mem w w' x f d w'' :
  all_ok (sched w) → kill_pending (sched w) x → rtc (sig_step present fuel cpu_id) w w' →
  all_ok (sched w') ∧ kill_pending (sched w') x ∧
  (current (sched w') = Some x → current_tf w' = Some f →
   check_signals present fuel cpu_id mem w' = Some (d, w'') →
   match d with NoSignal => False | Handler s => s < SIGKILL | DefaultAction s _ => s ≤ SIGKILL end).
Proof.
  intros Hok Hp Hs. destruct (sig_steps_keep _ _ _ _ _ Hs Hok) as [Hok' Hp']. specialize (Hp' x Hp) as (g & Hg & Hb).
  split; [done|]. split; [by exists g|]. intros Hc Hf HC. rewrite (check_signals_run _ _ _ _ _ _ f g Hc Hf Hg) in HC.
  2: { intros E. by rewrite E, Z.bits_0 in Hb. }
  apply sig_keeps_deliver in HC as [_ H]; [|lia|unfold NSIG; lia|done|by eapply Hok'].
  apply H; [done|unfold SIGKILL; lia].
Qed.

(** SIGKILL and SIGINT sent; SIGINT has a handler. *)
Definition killed : sworld :=
  match do_sys_kill true 3 SIGKILL (sched handler_world) with Some (_, k) => with_sched k handler_world | None => handler_world end.
Lemma killed_ok : all_ok (sched killed) ∧ kill_pending (sched killed) 1%positive.
Proof.
  assert (∃ t g, tasks (sched killed) = {[1%positive := t]} ∧ t_sig t = Some g ∧ sig_ok g ∧ Z.testbit (sig_pending g) SIGKILL = true)
    as (t & g & E & Hg & Hok & Hb) by (eexists _, _; vm_compute; by split_and!).
  split; [|exists g; unfold sig_of; by rewrite E, lookup_singleton_eq].
  intros x g'. unfold sig_of. rewrite E. destruct (decide (x = 1%positive)) as [->|Hne].
  - rewrite lookup_singleton_eq. cbn. rewrite Hg. by intros [= <-].
  - by rewrite lookup_singleton_ne by done.
Qed.
Lemma sigkill_unstoppable_witness :
  ∃ w'', check_signals (λ _, true) 4 0 true killed = Some (Handler 2, w'') ∧ 2 < SIGKILL ∧
    kill_pending (sched w'') 1%positive.
Proof.
  destruct (check_signals (λ _, true) 4 0 true killed) as [[d w'']|] eqn:E.
  2: { exfalso. assert (check_signals (λ _, true) 4 0 true killed ≠ None) as H by (vm_compute; discriminate). exact (H E). }
  assert (d = Handler 2) as ->.
  { assert (fst <$> check_signals (λ _, true) 4 0 true killed = Some (Handler 2)) as H by (vm_compute; reflexivity).
    rewrite E in H. exact (inj Some _ _ H). }
  exists w''. split; [reflexivity|]. destruct killed_ok as [Hok Hp]. split.
  - destruct (sigkill_unstoppable (λ _, true) 4 0 true killed killed 1%positive handler_regs (Handler 2) w'' Hok Hp)
      as (_ & _ & H); [reflexivity|]. apply H; [vm_compute; reflexivity|vm_compute; reflexivity|exact E].
  - destruct (sigkill_unstoppable (λ _, true) 4 0 true killed w'' 1%positive handler_regs NoSignal w'' Hok Hp)
      as (_ & H & _); [|exact H]. apply rtc_once. exact (step_deliver _ _ _ true 2 _ _ E).
Defined.

(** [kill] on every input.  It fails with -1 and changes nothing for a
    signal or process number out of range, a process that does not exist or is
    a zombie, or when the first signal state of the target cannot be
    allocated; otherwise it returns 0 and, in the target only, sets exactly
    the signal's pending bit, and makes a blocked target ready unless it
    blocks the signal, or ignores it and it is not SIGKILL. *)
Theorem do_sys_kill_correct mem pid sig k :
  (∀ l, pid_table (pids k) !! pid = Some l → is_Some (tasks k !! l)) →
  (∃ l t t' g', do_sys_kill mem pid sig k = Some (0, with_tasks (<[l := t']> (tasks k)) k) ∧
     1 ≤ sig < NSIG ∧ 0 ≤ pid < MAX_PID ∧ pid_table (pids k) !! pid = Some l ∧ tasks k !! l = Some t ∧
     t_state t ≠ TASK_DEAD ∧ t_state t ≠ TASK_ZOMBIE ∧
     t_sig t' = Some g' ∧
     (let g := default new_signal_state (t_sig t) in
      (∀ i, Z.testbit (sig_pending g') i = Z.testbit (sig_pending g) i || bool_decide (i = sig)) ∧
      sig_blocked g' = sig_blocked g ∧ actions g' = actions g ∧
      t' = set_state (if decide (t_state t = TASK_BLOCKED ∧ Z.testbit (sig_blocked g) sig = false ∧
                                 (sig = SIGKILL ∨ handler_of g sig ≠ SIG_IGN))
                      then TASK_READY else t_state t) (set_sig (Some g') t))) ∨
  (do_sys_kill mem pid sig k = Some (-1, k) ∧
     (¬ 1 ≤ sig < NSIG ∨ ¬ 0 ≤ pid < MAX_PID ∨ pid_table (pids k) !! pid = None ∨
      ∃ l t, pid_table (pids k) !! pid = Some l ∧ tasks k !! l = Some t ∧
        (t_state t = TASK_DEAD ∨ t_state t = TASK_ZOMBIE ∨ mem = false ∧ t_sig t = None))).
Proof.
  intros Hl. destruct (decide (1 ≤ sig < NSIG ∧ 0 ≤ pid < MAX_PID)) as [[Hs Hp]|Hbad].
  2: { right. split; [by apply do_sys_kill_range|]. destruct (decide (1 ≤ sig < NSIG)); tauto. }
  destruct (pid_table (pids k) !! pid) as [l|] eqn:El.
  2: { right. split; [by apply do_sys_kill_absent|tauto]. }
  destruct (Hl l eq_refl) as [t Ht].
  destruct (decide (t_state t = TASK_DEAD ∨ t_state t = TASK_ZOMBIE ∨ mem = false ∧ t_sig t = None)) as [Hx|Hx].
  { right. split; [by eapply do_sys_kill_refused|]. right. right. right. by exists l, t. }
  left. assert (mem = true ∨ is_Some (t_sig t)) as Hm.
  { destruct mem; [by left|]. right. apply not_eq_None_Some. tauto. }
  exists l, t, (with_signal sig t). destruct (with_signal_spec sig t Hs) as (g' & H1 & H2 & H3 & H4 & H5).
  exists g'. split; [apply do_sys_kill_ok; [done|done|done|done|tauto|tauto|exact Hm]|].
  split_and!; try done; try tauto.
Qed.

Lemma do_sys_kill_correct_witness :
  do_sys_kill true 3 40 (sched handler_world) = Some (-1, sched handler_world).
Proof.
  destruct (do_sys_kill_correct true 3 40 (sched handler_world)) as [(l & t & t' & g' & _ & H & _)|[R _]].
  - intros l H. assert (l = 1%positive) as ->.
    { assert (pid_table (pids (sched handler_world)) !! 3 = Some 1%positive) as E by (vm_compute; reflexivity).
      exact (inj Some _ _ (eq_trans (eq_sym H) E)). }
    exists (default (mk_task 0 TASK_DEAD 0 NULL [] NULL 0 0 0 false 0 0 None 0 None 0 0) (tasks (sched handler_world) !! 1%positive)).
    vm_compute. reflexivity.
  - exfalso. unfold NSIG in H. lia.
  - exact R.
Defined.

(** The mask keeps the flags that the source means to clear: whatever TF, IF,
    IOPL, NT and AC are in the frame, which lies in user memory, they come back
    in [r11]. *)
Theorem restore_keeps_system_flags w0 w15 w14 w13 w12 w11 w10 w9 w8 wsi wdi wdx wcx wax wip wfl wsp f b :
  b ∈ [8; 9; 12; 13; 14; 18] →
  Z.testbit (r11 (restore [w0; w15; w14; w13; w12; w11; w10; w9; w8; wsi; wdi; wdx; wcx; wax; wip; wfl; wsp] f)) b = Z.testbit wfl b.
Proof.
  intros Hb. cbn [restore r11]. rewrite Z.land_spec. assert (Z.testbit RFLAGS_MASK b = true) as ->; [|apply andb_true_r].
  rewrite !elem_of_cons in Hb. destruct Hb as [-> |[-> |[-> |[-> |[-> |[-> |Hb]]]]]]; [reflexivity..|by apply elem_of_nil in Hb].
Qed.
