(* ===== verification/PageTable.v ===== *)
(** * kernel/pagetable.c: four-level page tables, copy-on-write cloning and the
    page fault handler.

    Table entries are the 64-bit words of the allocator's [ram], at their byte
    addresses; tables and pages come from mem.c.  [panic] has no outcome,
    except in [pf_handler_c], whose result says what happened.  Address
    translation caches are not modelled, so neither are their flushes. *)
From S2P Require Import Prelude Buddy.
Local Open Scope Z_scope.
Local Open Scope kernel_scope.

(** ** Entries *)
Definition PTE_PRESENT : Z := 0x1.
Definition PTE_RW : Z := 0x2.
Definition PTE_USER : Z := 0x4.
Definition PTE_ACCESSED : Z := 0x20.
Definition PTE_DIRTY : Z := 0x40.
Definition PTE_PS : Z := 0x80.
Definition PTE_NX : Z := 2 ^ 63.
Definition PTE_ADDR_MASK : Z := 0x000FFFFFFFFFF000.
Definition PTE_STRUCT_FLAGS : Z := Z.lor (Z.lor PTE_PRESENT PTE_RW) PTE_ACCESSED.
Definition USER_MAX : Z := 0x00007FFFFFFFFFFF.

Definition present (e : Z) : bool := has e PTE_PRESENT.
Definition addr_of (e : Z) : Z := Z.land e PTE_ADDR_MASK.

(** The four indices of an address, from the root down. *)
Definition pml4_index (va : Z) : Z := Z.land (Z.shiftr va 39) 0x1FF.
Definition pdpt_index (va : Z) : Z := Z.land (Z.shiftr va 30) 0x1FF.
Definition pd_index (va : Z) : Z := Z.land (Z.shiftr va 21) 0x1FF.
Definition pt_index (va : Z) : Z := Z.land (Z.shiftr va 12) 0x1FF.

(** ** The processor's walk

    The entries that a walk of [va] from the table [root] reads, from the root
    down, and what it grants: writing and user access need the permission of
    every level, and one no-execute bit is enough. *)
Definition idx (d : nat) (va : Z) : Z := Z.land (Z.shiftr va (39 - 9 * Z.of_nat d)) 0x1FF.
Definition pte (m : gmap Z Z) (t i : Z) : Z := default 0 (m !! (t + 8 * i)).
(** An entry that leads to a table. *)
Definition down (e : Z) : bool := present e && negb (has e PTE_PS).
(** The table at depth [d] of the walk of [va]. *)
Fixpoint frame_at (m : gmap Z Z) (root va : Z) (d : nat) : option Z :=
  match d with
  | O => Some root
  | S d =>
      match frame_at m root va d with
      | Some f => if down (pte m f (idx d va)) then Some (addr_of (pte m f (idx d va))) else None
      | None => None
      end
  end.
Record perm := mk_perm { p_rw : bool; p_user : bool; p_nx : bool }.
Definition full : perm := mk_perm true true false.
Definition perm_of (e : Z) : perm := mk_perm (has e PTE_RW) (has e PTE_USER) (has e PTE_NX).
Definition meet (p q : perm) : perm := mk_perm (p_rw p && p_rw q) (p_user p && p_user q) (p_nx p || p_nx q).
(** What the entries above depth [d] that lead to tables grant. *)
Fixpoint perm_at (m : gmap Z Z) (root va : Z) (d : nat) : perm :=
  match d with
  | O => full
  | S d =>
      match frame_at m root va d with
      | Some f => let e := pte m f (idx d va) in if down e then meet (perm_at m root va d) (perm_of e) else perm_at m root va d
      | None => perm_at m root va d
      end
  end.
Record xlat := mk_xlat { xl_frame : Z; xl_perm : perm }.
(** Translation: the page frame of [va] and the permissions of the whole walk. *)
Definition translate (m : gmap Z Z) (root va : Z) : option xlat :=
  match frame_at m root va 2 with
  | None => None
  | Some pd =>
      let e := pte m pd (idx 2 va) in
      if negb (present e) then None
      else if has e PTE_PS then Some (mk_xlat (addr_of e + idx 3 va * 4096) (meet (perm_at m root va 2) (perm_of e)))
      else let e' := pte m (addr_of e) (idx 3 va) in
           if present e' then Some (mk_xlat (addr_of e') (meet (perm_at m root va 3) (perm_of e'))) else None
  end.

(** ** Accesses of the kernel *)
Definition phys_to_virt (pa : Z) : MM Z := if KERNEL_PHYS_MAX <=? pa then fail else ret pa.
(** [t[i]] for a table [t]. *)
Definition ld_pte (t i : Z) : MM Z := gets (λ s, default 0 (ram s !! (t + 8 * i))).
Definition st_pte (t i v : Z) : MM unit := modify (λ s, set_ram (<[t + 8 * i := v]> (ram s)) s).

Definition alloc_table_page : MM (option Z) :=
  p <- alloc_page ;;
  match p with None => ret None | Some p => zero_ram p PAGE_SIZE ;;; ret (Some p) end.

(** ** Reference counts *)
Definition page_ref_inc (pa : Z) : MM unit :=
  i <- get_page_struct pa ;;
  match i with None => ret tt | Some i => stp i (λ p, set_ref (u32 (ref_count p + 1)) p) end.
Definition page_ref_get (pa : Z) : MM Z :=
  i <- get_page_struct pa ;; match i with None => ret 0 | Some i => ldp ref_count i end.
(** [__sync_sub_and_fetch(&pg->ref_count, 1)] and the page's release at zero. *)
Definition ref_release (pa : Z) : MM unit :=
  i <- get_page_struct pa ;;
  match i with
  | None => ret tt
  | Some i =>
      old <- ldp ref_count i ;;
      stp i (set_ref (u32 (old - 1))) ;;;
      if u32 (old - 1) =? 0 then free_page pa else ret tt
  end.
(** The overwrite case of [map_page], which restores a count that was zero. *)
Definition ref_replace (pa : Z) : MM unit :=
  i <- get_page_struct pa ;;
  match i with
  | None => ret tt
  | Some i =>
      old <- ldp ref_count i ;;
      stp i (set_ref (u32 (old - 1))) ;;;
      if old =? 0 then stp i (λ p, if ref_count p =? 2 ^ 32 - 1 then set_ref 0 p else p)
      else if old =? 1 then free_page pa else ret tt
  end.

(** ** Splitting a 2 MiB page *)
Definition split_entry (huge_entry i : Z) : Z :=
  Z.lor (Z.lor (Z.lor (Z.lor (addr_of huge_entry + i * 4096) (Z.ldiff (Z.land huge_entry 0xFFF) PTE_PS))
    PTE_PRESENT) PTE_ACCESSED) PTE_DIRTY.
Definition split_huge_page (pd pd_idx : Z) : MM (option Z) :=
  huge_entry <- ld_pte pd pd_idx ;;
  if negb (has huge_entry PTE_PS) then ret None else
  p <- alloc_table_page ;;
  match p with
  | None => ret None
  | Some pt_phys =>
      new_pt <- phys_to_virt pt_phys ;;
      for_range 512 0 (λ i, st_pte new_pt i (split_entry huge_entry i)) ;;;
      st_pte pd pd_idx (Z.lor pt_phys PTE_STRUCT_FLAGS) ;;;
      ret (Some pt_phys)
  end.

(** ** Mapping *)

(** The table below entry [i] of [t], made if there is none: the PML4 and PDPT
    steps of [map_page]. *)
Definition next_table (t i struct_flags : Z) : MM (option Z) :=
  e <- ld_pte t i ;;
  if negb (present e) then
    p <- alloc_table_page ;;
    match p with
    | None => ret None
    | Some p => st_pte t i (Z.lor p struct_flags) ;;; ret (Some p)
    end
  else ret (Some (addr_of e)).
(** The PD step, which may find a huge page. *)
Definition next_pt (pd i struct_flags : Z) : MM (option Z) :=
  e <- ld_pte pd i ;;
  if present e && has e PTE_PS then split_huge_page pd i else next_table pd i struct_flags.

Definition struct_flags_of (flags : Z) : Z :=
  if has flags PTE_USER then Z.lor PTE_STRUCT_FLAGS PTE_USER else PTE_STRUCT_FLAGS.
Definition leaf_of (paddr flags : Z) : Z :=
  let e := Z.lor (Z.lor (Z.ldiff paddr 0xFFF) (Z.land flags 0xFFF)) PTE_PRESENT in
  if has flags PTE_NX then Z.lor e PTE_NX else e.

(** The leaf table is found: replace the entry. *)
Definition set_leaf (pt vaddr paddr flags : Z) : MM unit :=
  old_pte <- ld_pte pt (pt_index vaddr) ;;
  (if present old_pte then ref_replace (addr_of old_pte) else ret tt) ;;;
  st_pte pt (pt_index vaddr) (leaf_of paddr flags) ;;;
  page_ref_inc (addr_of paddr).

Definition map_page (pml4_phys vaddr paddr flags : Z) : MM Z :=
  let struct_flags := struct_flags_of flags in
  pml4 <- phys_to_virt pml4_phys ;;
  pdpt_phys <- next_table pml4 (pml4_index vaddr) struct_flags ;;
  match pdpt_phys with None => ret (-1) | Some pdpt_phys =>
  pdpt <- phys_to_virt pdpt_phys ;;
  pd_phys <- next_table pdpt (pdpt_index vaddr) struct_flags ;;
  match pd_phys with None => ret (-1) | Some pd_phys =>
  pd <- phys_to_virt pd_phys ;;
  pt_phys <- next_pt pd (pd_index vaddr) struct_flags ;;
  match pt_phys with None => ret (-1) | Some pt_phys =>
  pt <- phys_to_virt pt_phys ;;
  set_leaf pt vaddr paddr flags ;;;
  ret 0
  end end end.

Definition map_user_page (pml4_phys vaddr paddr flags : Z) : MM Z :=
  map_page pml4_phys vaddr paddr (Z.lor flags PTE_USER).

(** The pages from [off] on; one turn of the loop per page. *)
Fixpoint map_pages (fuel : nat) (pml4_phys vaddr paddr off size flags : Z) : MM Z :=
  match fuel with
  | O => fail
  | S fuel =>
      if off <? size then
        r <- map_page pml4_phys (u64 (vaddr + off)) (u64 (paddr + off)) flags ;;
        if negb (r =? 0) then ret (-1)
        else if u64 (off + PAGE_SIZE) <? off then ret 0
        else map_pages fuel pml4_phys vaddr paddr (u64 (off + PAGE_SIZE)) size flags
      else ret 0
  end.
Definition map_range (pml4_phys vaddr paddr size flags : Z) : MM Z :=
  let size := if 2 ^ 64 - 1 - PAGE_SIZE + 1 <? size then 2 ^ 64 - 1 - PAGE_SIZE + 1 else size in
  map_pages (Z.to_nat (size / PAGE_SIZE + 2)) pml4_phys vaddr paddr 0 size flags.

(** The walk of [unmap_page], [user_page_present] and [pf_handler_c] down to
    the page directory; [None] where a level is not present. *)
Definition walk_to_pd (pml4_phys vaddr : Z) : MM (option Z) :=
  pml4 <- phys_to_virt pml4_phys ;;
  e <- ld_pte pml4 (pml4_index vaddr) ;;
  if negb (present e) then ret None else
  pdpt <- phys_to_virt (addr_of e) ;;
  e <- ld_pte pdpt (pdpt_index vaddr) ;;
  if negb (present e) then ret None else
  pd <- phys_to_virt (addr_of e) ;;
  ret (Some pd).

Definition unmap_page (pml4_phys vaddr : Z) : MM unit :=
  pd <- walk_to_pd pml4_phys vaddr ;;
  match pd with
  | None => ret tt
  | Some pd =>
      e <- ld_pte pd (pd_index vaddr) ;;
      if negb (present e) then ret tt else
      if has e PTE_PS then ret tt else
      pt <- phys_to_virt (addr_of e) ;;
      e <- ld_pte pt (pt_index vaddr) ;;
      if negb (present e) then ret tt else
      st_pte pt (pt_index vaddr) 0
  end.

(** [cr3] is [read_cr3()]. *)
Definition user_page_present (cr3 vaddr : Z) : MM bool :=
  if USER_MAX <? vaddr then ret false else
  pd <- walk_to_pd cr3 vaddr ;;
  match pd with
  | None => ret false
  | Some pd =>
      e <- ld_pte pd (pd_index vaddr) ;;
      if negb (present e) then ret false else
      if has e PTE_PS then ret true else
      pt <- phys_to_virt (addr_of e) ;;
      e <- ld_pte pt (pt_index vaddr) ;;
      ret (present e)
  end.

(** One page of [rodata_protect]. *)
Definition protect_page (kernel_cr3 va : Z) : MM unit :=
  pd <- walk_to_pd kernel_cr3 va ;;
  match pd with
  | None => ret tt
  | Some pd =>
      e <- ld_pte pd (pd_index va) ;;
      if negb (present e) then ret tt else
      ok <- (if has e PTE_PS then r <- split_huge_page pd (pd_index va) ;; ret (bool_decide (r ≠ None)) else ret true) ;;
      if negb ok then ret tt else
      e <- ld_pte pd (pd_index va) ;;
      pt <- phys_to_virt (addr_of e) ;;
      e <- ld_pte pt (pt_index va) ;;
      st_pte pt (pt_index va) (Z.ldiff e PTE_RW)
  end.
Definition rodata_protect (kernel_cr3 ro_start ro_end : Z) : MM unit :=
  let va := Z.ldiff ro_start 0xFFF in
  let e := Z.ldiff (u64 (ro_end + 0xFFF)) 0xFFF in
  for_range (Z.to_nat ((e - va) / 4096)) 0 (λ i, protect_page kernel_cr3 (va + 4096 * i)).

(** ** Freeing an address space *)
Definition free_pt_entry (pt l : Z) : MM unit :=
  pte <- ld_pte pt l ;;
  if present pte then ref_release (addr_of pte) else ret tt.
Definition free_pd_entry (pd k : Z) : MM unit :=
  pde <- ld_pte pd k ;;
  if negb (present pde) then ret tt else
  if has pde PTE_PS then ret tt else
  pt <- phys_to_virt (addr_of pde) ;;
  for_range 512 0 (free_pt_entry pt) ;;;
  free_page (addr_of pde).
Definition free_pdpt_entry (pdpt j : Z) : MM unit :=
  pdpte <- ld_pte pdpt j ;;
  if negb (present pdpte) then ret tt else
  pd <- phys_to_virt (addr_of pdpte) ;;
  for_range 512 0 (free_pd_entry pd) ;;;
  free_page (addr_of pdpte).
Definition free_pml4_entry (pml4 i : Z) : MM unit :=
  pml4e <- ld_pte pml4 i ;;
  if negb (present pml4e) then ret tt else
  pdpt <- phys_to_virt (addr_of pml4e) ;;
  for_range 512 0 (free_pdpt_entry pdpt) ;;;
  free_page (addr_of pml4e).
Definition free_pagetable (pml4_phys : Z) : MM unit :=
  if pml4_phys =? 0 then ret tt else
  pml4 <- phys_to_virt pml4_phys ;;
  for_range 255 1 (free_pml4_entry pml4) ;;;
  free_page pml4_phys.

(** ** Copy-on-write cloning *)

(** A loop that the source leaves with [goto fail]. *)
Fixpoint for_try (n : nat) (i : Z) (body : Z → MM bool) : MM bool :=
  match n with
  | O => ret true
  | S n => ok <- body i ;; if (ok : bool) then for_try n (i + 1) body else ret false
  end.

Definition copy_pml4e (src dst i : Z) : MM unit := e <- ld_pte src i ;; st_pte dst i e.

Definition cow_flags (src_pte : Z) : Z :=
  let old_flags := Z.ldiff src_pte PTE_ADDR_MASK in
  let f := Z.lor (Z.ldiff old_flags PTE_RW) PTE_PRESENT in
  let f := if has old_flags PTE_USER then Z.lor f PTE_USER else f in
  if has old_flags PTE_NX then Z.lor f PTE_NX else f.
Definition clone_pte (src_pt dst_pt l : Z) : MM unit :=
  src_pte <- ld_pte src_pt l ;;
  if negb (present src_pte) then st_pte dst_pt l 0 else
  let phys_page := addr_of src_pte in
  page_ref_inc phys_page ;;;
  st_pte src_pt l (Z.lor phys_page (cow_flags src_pte)) ;;;
  st_pte dst_pt l (Z.lor phys_page (cow_flags src_pte)).
Definition clone_pde (src_pd dst_pd k : Z) : MM bool :=
  src_pde <- ld_pte src_pd k ;;
  if negb (present src_pde) then st_pte dst_pd k 0 ;;; ret true else
  if has src_pde PTE_PS then st_pte dst_pd k 0 ;;; ret true else
  p <- alloc_table_page ;;
  match p with
  | None => ret false
  | Some new_pt =>
      st_pte dst_pd k (Z.lor new_pt PTE_STRUCT_FLAGS) ;;;
      src_pt <- phys_to_virt (addr_of src_pde) ;;
      dst_pt <- phys_to_virt new_pt ;;
      for_range 512 0 (clone_pte src_pt dst_pt) ;;;
      ret true
  end.
Definition clone_pdpte (src_pdpt dst_pdpt j : Z) : MM bool :=
  src_pdpte <- ld_pte src_pdpt j ;;
  if negb (present src_pdpte) then st_pte dst_pdpt j 0 ;;; ret true else
  p <- alloc_table_page ;;
  match p with
  | None => ret false
  | Some new_pd =>
      st_pte dst_pdpt j (Z.lor new_pd PTE_STRUCT_FLAGS) ;;;
      src_pd <- phys_to_virt (addr_of src_pdpte) ;;
      dst_pd <- phys_to_virt new_pd ;;
      for_try 512 0 (clone_pde src_pd dst_pd)
  end.
Definition clone_pml4e (src_pml4 dst_pml4 i : Z) : MM bool :=
  src_pml4e <- ld_pte src_pml4 i ;;
  if negb (present src_pml4e) then st_pte dst_pml4 i 0 ;;; ret true else
  p <- alloc_table_page ;;
  match p with
  | None => ret false
  | Some new_pdpt =>
      st_pte dst_pml4 i (Z.lor new_pdpt PTE_STRUCT_FLAGS) ;;;
      src_pdpt <- phys_to_virt (addr_of src_pml4e) ;;
      dst_pdpt <- phys_to_virt new_pdpt ;;
      for_try 512 0 (clone_pdpte src_pdpt dst_pdpt)
  end.
Definition clone_current_pml4 (kernel_cr3 current_cr3 : Z) : MM Z :=
  p <- alloc_page ;;
  match p with
  | None => ret kernel_cr3
  | Some newp =>
      src_pml4 <- phys_to_virt current_cr3 ;;
      for_range 256 256 (copy_pml4e src_pml4 newp) ;;;
      copy_pml4e src_pml4 newp 0 ;;;
      ok <- for_try 255 1 (clone_pml4e src_pml4 newp) ;;
      if (ok : bool) then ret newp else free_pagetable newp ;;; ret kernel_cr3
  end.
Definition clone_kernel_pml4 (kernel_cr3 : Z) : MM Z :=
  p <- alloc_page ;;
  match p with
  | None => ret kernel_cr3
  | Some newp =>
      src_pml4 <- phys_to_virt kernel_cr3 ;;
      for_range 256 256 (copy_pml4e src_pml4 newp) ;;;
      copy_pml4e src_pml4 newp 0 ;;;
      ret newp
  end.

(** ** Page faults *)

(** [Segv]: SIGSEGV was sent to the current task.  [Stuck]: the handler does not
    return, since an access of its own faults; every time SIGSEGV is sent and
    the access tried again. *)
Inductive fault_result := Resolved | Segv | Ignored | Panic | Stuck.

(** [memcpy(dst, src, PAGE_SIZE)] between pages. *)
Definition copy_page (dst src : Z) : MM unit :=
  for_range 512 0 (λ i, e <- ld_pte src i ;; st_pte dst i e).

(** [cr3_of] is [current->cr3], absent when there is no current task. *)
Definition send_segv (cr3_of : option Z) : fault_result := match cr3_of with Some _ => Segv | None => Ignored end.

Definition lazy_fault (cr3_of : option Z) (cr2 : Z) : MM fault_result :=
  if USER_MAX <? cr2 then ret (send_segv cr3_of) else
  p <- alloc_page ;;
  match p with
  | None => ret (send_segv cr3_of)
  | Some new_page =>
      match cr3_of with
      | None => fail
      | Some cr3 =>
          r <- map_user_page cr3 (Z.ldiff cr2 0xFFF) new_page (Z.lor (Z.lor PTE_PRESENT PTE_RW) PTE_USER) ;;
          if r <? 0 then free_page new_page ;;; ret Segv else ret Resolved
      end
  end.

(** [memcpy(new_page, va, PAGE_SIZE)] in supervisor mode: the processor walks the
    tables of [cr3], and refuses a user page when [smap], that is when CR4.SMAP
    is set and the AC flag clear.  Returns what the refusal leads to. *)
Definition copy_from_address (smap : bool) (new_page cr3 va : Z) : MM (option fault_result) :=
  x <- gets (λ s, translate (ram s) cr3 va) ;;
  match x with
  | None => ret (Some Panic)
  | Some x => if smap && p_user (xl_perm x) then ret (Some Stuck) else copy_page new_page (xl_frame x) ;;; ret None
  end.
(** The leaf table entry [pt[pt_index cr2]], which holds [pte], was written to. *)
Definition cow_fault (smap : bool) (cr3_of : option Z) (cr3 cr2 pt pte : Z) : MM fault_result :=
  let phys_page := addr_of pte in
  let i := pt_index cr2 in
  ref <- page_ref_get phys_page ;;
  if ref <=? 1 then st_pte pt i (Z.lor pte PTE_RW) ;;; ret Resolved else
  p <- alloc_page ;;
  match p with
  | None => match cr3_of with Some _ => ret Segv | None => fail end
  | Some new_page =>
      bad <- copy_from_address smap new_page cr3 (Z.ldiff cr2 0xFFF) ;;
      match bad with
      | Some r => ret r
      | None =>
          ref_release phys_page ;;;
          let new_flags := Z.lor (Z.lor (Z.land pte (Z.lor PTE_USER PTE_NX)) PTE_PRESENT) PTE_RW in
          st_pte pt i (Z.lor (addr_of new_page) new_flags) ;;;
          ret Resolved
      end
  end.
Definition write_fault (smap : bool) (cr3_of : option Z) (cr3 cr2 : Z) : MM fault_result :=
  pd <- walk_to_pd cr3 cr2 ;;
  match pd with
  | None => ret Panic
  | Some pd =>
      e <- ld_pte pd (pd_index cr2) ;;
      if negb (present e) then ret Panic else
      ok <- (if has e PTE_PS then r <- split_huge_page pd (pd_index cr2) ;; ret (bool_decide (r ≠ None)) else ret true) ;;
      if negb ok then ret Panic else
      e <- ld_pte pd (pd_index cr2) ;;
      pt <- phys_to_virt (addr_of e) ;;
      pte <- ld_pte pt (pt_index cr2) ;;
      if negb (present pte) then ret Panic else
      cow_fault smap cr3_of cr3 cr2 pt pte
  end.

(** Whether a supervisor access hit a user page. *)
Definition smap_violation (cr3 cr2 : Z) : MM bool :=
  pd <- walk_to_pd cr3 cr2 ;;
  match pd with
  | None => ret false
  | Some pd =>
      e <- ld_pte pd (pd_index cr2) ;;
      if negb (present e) then ret false else
      if has e PTE_PS then ret (has e PTE_USER) else
      pt <- phys_to_virt (addr_of e) ;;
      e <- ld_pte pt (pt_index cr2) ;;
      ret (present e && has e PTE_USER)
  end.

(** [smap]: supervisor accesses to user pages fault. *)
Definition pf_handler_c (smap : bool) (cr3_of : option Z) (cr3 cr2 error_code : Z) : MM fault_result :=
  let is_present := has error_code 1 in
  let write := has error_code 2 in
  let user := has error_code 4 in
  if negb is_present then
    if negb user then ret Panic else lazy_fault cr3_of cr2
  else if write && user then write_fault smap cr3_of cr3 cr2
  else if negb user then
    v <- smap_violation cr3 cr2 ;;
    ret (if (v : bool) then match cr3_of with Some _ => Segv | None => Panic end else Panic)
  else ret Panic.
