(* ===== verification/PageTableInv.v ===== *)
(** * Page tables as trees: the entries a walk reads, the invariant that the
    tables form a tree, and what a change of one entry does to translation. *)
From S2P Require Import Prelude Buddy PageTable.
Local Open Scope Z_scope.

(** ** Entries *)
Lemma has_bit x k : 0 ≤ k → has x (2 ^ k) = Z.testbit x k.
Proof.
  intros Hk. unfold has. destruct (Z.testbit x k) eqn:E.
  - apply negb_true_iff, Z.eqb_neq. intros H0. assert (Z.testbit (Z.land x (2 ^ k)) k = true) as H.
    { rewrite Z.land_spec, E. by apply Z.pow2_bits_true. }
    by rewrite H0, Z.bits_0 in H.
  - apply negb_false_iff, Z.eqb_eq, Z.bits_inj'. intros i Hi. rewrite Z.land_spec, Z.bits_0.
    destruct (decide (i = k)) as [->|Hne]; [by rewrite E|]. rewrite Z.pow2_bits_false by lia. apply andb_false_r.
Qed.
Lemma present_bit e : present e = Z.testbit e 0.
Proof. exact (has_bit e 0 ltac:(lia)). Qed.
Lemma huge_bit e : has e PTE_PS = Z.testbit e 7.
Proof. exact (has_bit e 7 ltac:(lia)). Qed.
Lemma rw_bit e : has e PTE_RW = Z.testbit e 1.
Proof. exact (has_bit e 1 ltac:(lia)). Qed.
Lemma user_bit e : has e PTE_USER = Z.testbit e 2.
Proof. exact (has_bit e 2 ltac:(lia)). Qed.
Lemma nx_bit e : has e PTE_NX = Z.testbit e 63.
Proof. exact (has_bit e 63 ltac:(lia)). Qed.

Lemma mask_bit i : 0 ≤ i → Z.testbit PTE_ADDR_MASK i = bool_decide (12 ≤ i < 52).
Proof.
  intros Hi. assert (PTE_ADDR_MASK = Z.shiftl (Z.ones 40) 12) as -> by done.
  rewrite Z.shiftl_spec by done. destruct (decide (12 ≤ i)) as [H|H].
  - rewrite Z.testbit_ones_nonneg by lia. destruct (Z.ltb_spec (i - 12) 40); symmetry.
    + apply bool_decide_eq_true_2. lia.
    + apply bool_decide_eq_false_2. lia.
  - rewrite Z.testbit_neg_r by lia. symmetry. apply bool_decide_eq_false_2. lia.
Qed.
(** A page address that fits an entry. *)
Definition page_addr (p : Z) : Prop := 0 ≤ p < 2 ^ 52 ∧ p mod 4096 = 0.
#[export] Instance page_addr_dec p : Decision (page_addr p) := _.

Lemma page_addr_bits p : page_addr p → ∀ i, 0 ≤ i → ¬ (12 ≤ i < 52) → Z.testbit p i = false.
Proof.
  intros [Hr Hm] i Hi Hn. destruct (decide (i < 12)) as [Hlt|Hge].
  - assert (p mod 2 ^ 12 = 0) as Hm' by exact Hm. rewrite <- (Z.mod_pow2_bits_low p 12) by lia. by rewrite Hm', Z.bits_0.
  - rewrite <- (Z.mod_small p (2 ^ 52)) by lia. apply Z.mod_pow2_bits_high. lia.
Qed.
Lemma addr_of_page p : page_addr p → addr_of p = p.
Proof.
  intros Hp. unfold addr_of. apply Z.bits_inj'. intros i Hi. rewrite Z.land_spec, mask_bit by done.
  destruct (decide (12 ≤ i < 52)) as [Hr|Hn]; [by rewrite bool_decide_eq_true_2, andb_true_r|].
  rewrite (page_addr_bits p Hp i Hi Hn). done.
Qed.
Lemma addr_of_lor x y : addr_of (Z.lor x y) = Z.lor (addr_of x) (addr_of y).
Proof. unfold addr_of. by rewrite Z.land_lor_distr_l. Qed.
Lemma addr_of_ok e : page_addr (addr_of e).
Proof.
  assert (addr_of e = 4096 * (Z.shiftr e 12 mod 2 ^ 40)) as ->.
  { apply Z.bits_inj'. intros i Hi. unfold addr_of. rewrite Z.land_spec, mask_bit by done.
    change 4096 with (2 ^ 12). rewrite Z.mul_comm, <- Z.shiftl_mul_pow2, Z.shiftl_spec by lia.
    destruct (decide (12 ≤ i)) as [H|H].
    - destruct (decide (i < 52)) as [H2|H2].
      + rewrite bool_decide_eq_true_2 by lia. rewrite Z.mod_pow2_bits_low, Z.shiftr_spec by lia. rewrite andb_true_r. f_equal. lia.
      + rewrite bool_decide_eq_false_2 by lia. rewrite Z.mod_pow2_bits_high by lia. apply andb_false_r.
    - rewrite bool_decide_eq_false_2 by lia. rewrite (Z.testbit_neg_r _ (i - 12)) by lia. apply andb_false_r. }
  pose proof (Z.mod_pos_bound (Z.shiftr e 12) (2 ^ 40) ltac:(lia)). split; [lia|]. rewrite Z.mul_comm. by apply Z.mod_mul.
Qed.
(** An entry made of a page address and flags. *)
Lemma addr_of_entry p f : page_addr p → addr_of f = 0 → addr_of (Z.lor p f) = p.
Proof. intros Hp Hf. by rewrite addr_of_lor, Hf, Z.lor_0_r, addr_of_page. Qed.
Lemma testbit_entry p f i : page_addr p → 0 ≤ i → ¬ (12 ≤ i < 52) → Z.testbit (Z.lor p f) i = Z.testbit f i.
Proof. intros Hp Hi Hn. by rewrite Z.lor_spec, (page_addr_bits p Hp i Hi Hn). Qed.
Lemma addr_of_low f : 0 ≤ f < 4096 → addr_of f = 0.
Proof.
  intros Hf. unfold addr_of. apply Z.bits_inj'. intros i Hi. rewrite Z.land_spec, mask_bit, Z.bits_0 by done.
  destruct (decide (12 ≤ i < 52)) as [Hr|Hn]; [|by rewrite bool_decide_eq_false_2, andb_false_r].
  rewrite <- (Z.mod_small f (2 ^ 12)) by lia. rewrite Z.mod_pow2_bits_high by lia. done.
Qed.

(** ** Indices *)
Lemma idx_range d va : 0 ≤ idx d va < 512.
Proof.
  unfold idx. change 511 with (Z.ones 9). rewrite Z.land_ones by lia. apply Z.mod_pos_bound. lia.
Qed.
(** The page of an address, as its four indices. *)
Definition same_page (va va' : Z) : Prop := ∀ d, (d ≤ 3)%nat → idx d va = idx d va'.

(** ** Permissions *)
Lemma meet_assoc p q r : meet p (meet q r) = meet (meet p q) r.
Proof. unfold meet. cbn. by rewrite !andb_assoc, orb_assoc. Qed.
Lemma meet_idem p : meet p p = p.
Proof. destruct p as [[] [] []]; done. Qed.
Lemma meet_full p : meet p full = p.
Proof. destruct p as [[] [] []]; done. Qed.
(** What the tables above the leaf grant. *)
Definition upper (m : gmap Z Z) (root va : Z) : perm := perm_at m root va 3.
(** The address lies in a huge page. *)
Definition in_huge (m : gmap Z Z) (root va : Z) : bool :=
  match frame_at m root va 2 with
  | Some pd => present (pte m pd (idx 2 va)) && has (pte m pd (idx 2 va)) PTE_PS
  | None => false
  end.
Lemma frame_at_S m root va d :
  frame_at m root va (S d) = match frame_at m root va d with
    | Some f => if down (pte m f (idx d va)) then Some (addr_of (pte m f (idx d va))) else None | None => None end.
Proof. done. Qed.
Lemma perm_at_S m root va d f : frame_at m root va d = Some f →
  perm_at m root va (S d) = if down (pte m f (idx d va)) then meet (perm_at m root va d) (perm_of (pte m f (idx d va))) else perm_at m root va d.
Proof. intros H. cbn [perm_at]. by rewrite H. Qed.
(** Below a missing table nothing more is asked. *)
Lemma perm_at_none m root va d k : frame_at m root va d = None → (d ≤ k)%nat → perm_at m root va k = perm_at m root va d.
Proof.
  intros Hd. assert (∀ j, (d ≤ j)%nat → frame_at m root va j = None) as Hn.
  { intros j Hj. induction Hj as [|j Hj IH]; [done|]. rewrite frame_at_S. by rewrite IH. }
  intros Hk. induction Hk as [|k Hk IH]; [done|]. cbn [perm_at]. by rewrite (Hn k Hk).
Qed.
Lemma perm_at_stop m root va d t k : frame_at m root va d = Some t → down (pte m t (idx d va)) = false → (d ≤ k)%nat →
  perm_at m root va k = perm_at m root va d.
Proof.
  intros Hf Hd Hk. destruct (decide (k = d)) as [->|Hne]; [done|].
  rewrite (perm_at_none m root va (S d) k) by (rewrite ?frame_at_S, ?Hf, ?Hd; done || lia). by rewrite (perm_at_S _ _ _ _ t), Hd.
Qed.
(** Permissions are read from the walk's tables. *)
Lemma perm_at_walk m m' root va va' d :
  (∀ k, (k < d)%nat → idx k va' = idx k va) →
  (∀ k, (k < d)%nat → frame_at m' root va' k = frame_at m root va k ∧
    (∀ g, frame_at m root va k = Some g → pte m' g (idx k va) = pte m g (idx k va))) →
  perm_at m' root va' d = perm_at m root va d.
Proof.
  intros Hi H. induction d as [|d IH]; [done|]. cbn [perm_at]. destruct (H d) as [-> HP]; [lia|]. rewrite (Hi d), IH by (intros; (apply Hi || apply H || idtac); lia).
  destruct (frame_at m root va d) as [g|] eqn:E; [|done]. by rewrite (HP g eq_refl).
Qed.

(** ** The invariant *)
Definition table_ok (f : Z) : Prop := f mod 4096 = 0 ∧ 0 ≤ f < KERNEL_PHYS_MAX.
#[export] Instance table_ok_dec f : Decision (table_ok f) := _.
Lemma table_page f : table_ok f → page_addr f.
Proof. intros [? ?]. assert (KERNEL_PHYS_MAX < 2 ^ 52) by done. split; [lia|done]. Qed.

(** [T] gives the tables reachable from [root] with their depth. *)
Record tables (m : gmap Z Z) (root : Z) (T : gmap Z nat) : Prop := mk_tables {
  tb_root : T !! root = Some 0%nat;
  tb_frame : ∀ f d, T !! f = Some d → (d ≤ 3)%nat ∧ table_ok f;
  tb_child : ∀ f d i, T !! f = Some d → (d < 3)%nat → 0 ≤ i < 512 → present (pte m f i) = true →
    (d = 2%nat ∧ has (pte m f i) PTE_PS = true ∧ addr_of (pte m f i) mod 2 ^ 21 = 0) ∨
    (has (pte m f i) PTE_PS = false ∧ T !! addr_of (pte m f i) = Some (S d));
  tb_inj : ∀ f f' d d' i i', T !! f = Some d → T !! f' = Some d' → (d < 3)%nat → (d' < 3)%nat →
    0 ≤ i < 512 → 0 ≤ i' < 512 → down (pte m f i) = true → down (pte m f' i') = true →
    addr_of (pte m f i) = addr_of (pte m f' i') → f = f' ∧ i = i'
}.

Section tables.
Context (m : gmap Z Z) (root : Z) (T : gmap Z nat).
Hypothesis HT : tables m root T.

Lemma slot_inj f f' i i' : table_ok f → table_ok f' → 0 ≤ i < 512 → 0 ≤ i' < 512 →
  f + 8 * i = f' + 8 * i' → f = f' ∧ i = i'.
Proof.
  intros [H1 _] [H2 _] Hi Hi' E. apply Z.mod_divide in H1 as [k Hk]; [|done]. apply Z.mod_divide in H2 as [k' Hk']; [|done]. lia.
Qed.
Lemma pte_upd f f' i i' v : table_ok f → table_ok f' → 0 ≤ i < 512 → 0 ≤ i' < 512 →
  pte (<[f + 8 * i := v]> m) f' i' = if decide (f' = f ∧ i' = i) then v else pte m f' i'.
Proof.
  intros Hf Hf' Hi Hi'. unfold pte. destruct (decide _) as [[-> ->]|Hn]; [by rewrite lookup_insert_eq|].
  rewrite lookup_insert_ne; [done|]. intros E. apply Hn. destruct (slot_inj f f' i i') as [-> ->]; [done..|]. done.
Qed.

Lemma frame_at_table va d f : (d ≤ 3)%nat → frame_at m root va d = Some f → T !! f = Some d.
Proof.
  revert f. induction d as [|d IH]; intros f Hd; cbn [frame_at].
  - intros [= <-]. apply HT.
  - destruct (frame_at m root va d) as [g|] eqn:Eg; [|done]. destruct (down _) eqn:Ed; [|done]. intros [= <-].
    specialize (IH g ltac:(lia) eq_refl). unfold down in Ed. apply andb_prop in Ed as [Hp Hh%negb_true_iff].
    destruct (tb_child _ _ _ HT g d (idx d va) IH ltac:(lia) (idx_range _ _) Hp) as [(_ & H & _)|[_ H]]; [congruence|done].
Qed.

(** Two walks that meet have come the same way. *)
Lemma frame_at_inj va va' d f :
  (d ≤ 3)%nat → frame_at m root va d = Some f → frame_at m root va' d = Some f → ∀ k, (k < d)%nat → idx k va = idx k va'.
Proof.
  revert f. induction d as [|d IH]; intros f Hd; [lia|]. cbn [frame_at].
  destruct (frame_at m root va d) as [g|] eqn:Eg; [|done]. destruct (frame_at m root va' d) as [g'|] eqn:Eg'; [|done].
  destruct (down (pte m g (idx d va))) eqn:E1; [|done]. destruct (down (pte m g' (idx d va'))) eqn:E2; [|done].
  intros [= E3] [= E4]. pose proof (frame_at_table va d g ltac:(lia) Eg). pose proof (frame_at_table va' d g' ltac:(lia) Eg').
  destruct (tb_inj _ _ _ HT g g' d d (idx d va) (idx d va')) as [-> E]; [done|done|lia|lia|apply idx_range|apply idx_range|done|done|congruence|].
  intros k Hk. destruct (decide (k = d)) as [->|Hne]; [done|]. apply (IH g' ltac:(lia) eq_refl eq_refl). lia.
Qed.
Lemma frame_at_prefix va va' d :
  (∀ k, (k < d)%nat → idx k va = idx k va') → frame_at m root va d = frame_at m root va' d.
Proof.
  induction d as [|d IH]; intros Hk; [done|]. cbn [frame_at]. rewrite IH by (intros k ?; apply Hk; lia).
  rewrite (Hk d) by lia. done.
Qed.

(** [m'] has the same tables as [m] but for one entry. *)
Definition same_but (f i : Z) (m' : gmap Z Z) : Prop :=
  ∀ g d j, T !! g = Some d → 0 ≤ j < 512 → ¬ (g = f ∧ j = i) → pte m' g j = pte m g j.
Definition same_tables (m' : gmap Z Z) : Prop :=
  ∀ g d j, T !! g = Some d → 0 ≤ j < 512 → pte m' g j = pte m g j.

(** The walks of addresses that do not pass through the entry. *)
Lemma frame_at_other m' f d0 va va' :
  (d0 ≤ 3)%nat → frame_at m root va d0 = Some f → same_but f (idx d0 va) m' →
  (∃ k, (k ≤ d0)%nat ∧ idx k va ≠ idx k va') →
  ∀ d, (d ≤ 3)%nat → frame_at m' root va' d = frame_at m root va' d ∧
    (∀ g, frame_at m root va' d = Some g → pte m' g (idx d va') = pte m g (idx d va')).
Proof.
  intros Hd0 Hf Hm (k & Hk & Hne).
  assert (∀ d g, (d ≤ 3)%nat → frame_at m root va' d = Some g → pte m' g (idx d va') = pte m g (idx d va')) as HP.
  { intros d g Hd Hg. pose proof (frame_at_table va' d g Hd Hg) as HTg. eapply Hm; [exact HTg|apply idx_range|].
    intros [-> Hi]. pose proof (frame_at_table va d0 f Hd0 Hf) as HTf. rewrite HTf in HTg. injection HTg as ->.
    destruct (decide (k = d)) as [->|Hkd]; [congruence|].
    apply Hne, (frame_at_inj va va' d f); [done|done|done|lia]. }
  intros d Hd. split; [|intros g; by apply HP]. induction d as [|d IH]; [done|]. cbn [frame_at].
  rewrite IH by lia. destruct (frame_at m root va' d) as [g|] eqn:Eg; [|done]. by rewrite (HP d g ltac:(lia) Eg).
Qed.
Lemma frame_at_same m' va : same_tables m' →
  ∀ d, (d ≤ 3)%nat → frame_at m' root va d = frame_at m root va d ∧
    (∀ g, frame_at m root va d = Some g → pte m' g (idx d va) = pte m g (idx d va)).
Proof.
  intros Hm. assert (∀ d g, (d ≤ 3)%nat → frame_at m root va d = Some g → pte m' g (idx d va) = pte m g (idx d va)) as HP.
  { intros d g Hd Hg. eapply Hm; [by apply (frame_at_table va)|apply idx_range]. }
  intros d Hd. split; [|intros g; by apply HP]. induction d as [|d IH]; [done|]. cbn [frame_at].
  rewrite IH by lia. destruct (frame_at m root va d) as [g|] eqn:Eg; [|done]. by rewrite (HP d g ltac:(lia) Eg).
Qed.

(** Translation reads the walk's tables only. *)
Lemma translate_walk m' va :
  (∀ d, (d ≤ 3)%nat → frame_at m' root va d = frame_at m root va d ∧
    (∀ g, frame_at m root va d = Some g → pte m' g (idx d va) = pte m g (idx d va))) →
  translate m' root va = translate m root va.
Proof.
  intros H. unfold translate. destruct (H 2%nat ltac:(lia)) as [-> HP]. destruct (frame_at m root va 2) as [pd|] eqn:Epd; [|done].
  assert (∀ d, (d ≤ 3)%nat → perm_at m' root va d = perm_at m root va d) as HQ by (intros d Hd; apply perm_at_walk; [done|intros k Hk; apply H; lia]).
  cbv zeta. rewrite (HP pd eq_refl), !HQ by lia. destruct (present (pte m pd (idx 2 va))) eqn:Ep; [|done]. cbn [negb].
  destruct (has (pte m pd (idx 2 va)) PTE_PS) eqn:Eh; [done|].
  destruct (H 3%nat ltac:(lia)) as [_ HP3]. rewrite HP3; [done|]. cbn [frame_at]. cbn [frame_at] in Epd. rewrite Epd.
  unfold down. by rewrite Ep, Eh.
Qed.
Lemma translate_other m' f d0 va va' :
  (d0 ≤ 3)%nat → frame_at m root va d0 = Some f → same_but f (idx d0 va) m' →
  (∃ k, (k ≤ d0)%nat ∧ idx k va ≠ idx k va') → translate m' root va' = translate m root va'.
Proof. intros. by apply translate_walk, (frame_at_other m' f d0 va). Qed.
Lemma translate_same m' va : same_tables m' → translate m' root va = translate m root va.
Proof. intros. by apply translate_walk, frame_at_same. Qed.

Lemma tables_same m' : same_tables m' → tables m' root T.
Proof.
  intros Hm. constructor; [apply HT|apply HT| |].
  - intros f d i Hf Hd Hi. rewrite (Hm f d i) by done. by apply (tb_child _ _ _ HT f d i).
  - intros f f' d d' i i' Hf Hf' Hd Hd' Hi Hi'. rewrite (Hm f d i), (Hm f' d' i') by done.
    by apply (tb_inj _ _ _ HT f f' d d' i i').
Qed.

(** Changing an entry of a leaf table. *)
Lemma tables_leaf m' f i : T !! f = Some 3%nat → same_but f i m' → tables m' root T.
Proof.
  intros HTf Hm. assert (∀ g d j, T !! g = Some d → (d < 3)%nat → 0 ≤ j < 512 → pte m' g j = pte m g j) as Hm'.
  { intros g d j Hg Hd Hj. eapply Hm; [done|done|]. intros [-> _]. rewrite HTf in Hg. injection Hg as <-. lia. }
  constructor; [apply HT|apply HT| |].
  - intros g d j Hg Hd Hj. rewrite (Hm' g d j) by done. by apply (tb_child _ _ _ HT g d j).
  - intros g g' d d' j j' Hg Hg' Hd Hd' Hj Hj'. rewrite (Hm' g d j), (Hm' g' d' j') by done.
    by apply (tb_inj _ _ _ HT g g' d d' j j').
Qed.

(** Hanging a new table under an entry that led to none. *)
Lemma tables_link m' t d i p :
  T !! t = Some d → (d < 3)%nat → 0 ≤ i < 512 → down (pte m t i) = false → table_ok p → T !! p = None →
  same_but t i m' → down (pte m' t i) = true → addr_of (pte m' t i) = p →
  ((d = 2)%nat ∨ ∀ j, 0 ≤ j < 512 → present (pte m' p j) = false) →
  tables m' root (<[p := S d]> T).
Proof.
  intros Ht Hd Hi Hdown Hp HTp Hm Hdown' Ha Hempty.
  assert (p ≠ root) as Hpr by (intros ->; by rewrite (tb_root _ _ _ HT) in HTp).
  assert (t ≠ p) as Htp by (intros ->; congruence).
  apply andb_prop in Hdown' as Hd'. destruct Hd' as [Hpr' Hps%negb_true_iff].
  (* the entries that lead down in the new memory *)
  assert (∀ g k j, (<[p := S d]> T) !! g = Some k → (k < 3)%nat → 0 ≤ j < 512 → down (pte m' g j) = true →
    (g = t ∧ j = i) ∨ (T !! g = Some k ∧ pte m' g j = pte m g j)) as Hcase.
  { intros g k j Hg Hk Hj Hdn. destruct (decide (g = p)) as [->|Hgp].
    - rewrite lookup_insert_eq in Hg. injection Hg as <-. destruct Hempty as [->|He]; [lia|].
      unfold down in Hdn. by rewrite (He j Hj) in Hdn.
    - rewrite lookup_insert_ne in Hg by done. destruct (decide (g = t ∧ j = i)) as [?|Hn]; [by left|right].
      split; [done|]. by eapply Hm. }
  constructor.
  - rewrite lookup_insert_ne by done. apply HT.
  - intros g k Hg. destruct (decide (g = p)) as [->|Hgp].
    + rewrite lookup_insert_eq in Hg. injection Hg as <-. split; [lia|done].
    + rewrite lookup_insert_ne in Hg by done. by apply (tb_frame _ _ _ HT).
  - intros g k j Hg Hk Hj Hpres. destruct (decide (g = p)) as [->|Hgp].
    { rewrite lookup_insert_eq in Hg. injection Hg as <-. destruct Hempty as [->|He]; [lia|]. by rewrite (He j Hj) in Hpres. }
    rewrite lookup_insert_ne in Hg by done. destruct (decide (g = t ∧ j = i)) as [[-> ->]|Hn].
    + rewrite Ht in Hg. injection Hg as <-. right. rewrite Ha. split; [done|]. apply lookup_insert_eq.
    + pose proof (Hm g k j Hg Hj Hn) as Em. rewrite Em in Hpres |- *.
      destruct (tb_child _ _ _ HT g k j Hg Hk Hj Hpres) as [H|[H1 H2]]; [by left|right]. split; [done|].
      destruct (decide (addr_of (pte m g j) = p)) as [Ep|Ep]; [rewrite Ep in H2; congruence|]. by rewrite lookup_insert_ne.
  - intros g g' k k' j j' Hg Hg' Hk Hk' Hj Hj' Hdn Hdn' Haa.
    assert (∀ g k j, T !! g = Some k → (k < 3)%nat → 0 ≤ j < 512 → down (pte m g j) = true → addr_of (pte m g j) ≠ p) as Hnp.
    { intros h n l Hh Hn Hl Hdl E. apply andb_prop in Hdl as [Hq1 Hq2%negb_true_iff].
      destruct (tb_child _ _ _ HT h n l Hh Hn Hl Hq1) as [(_ & Hx & _)|[_ Hx]]; [congruence|]. rewrite E in Hx. congruence. }
    destruct (Hcase g k j Hg Hk Hj Hdn) as [[-> ->]|[H1 E1]]; destruct (Hcase g' k' j' Hg' Hk' Hj' Hdn') as [[-> ->]|[H2 E2]].
    + done.
    + exfalso. rewrite E2 in Hdn', Haa. rewrite Ha in Haa. by apply (Hnp g' k' j').
    + exfalso. rewrite E1 in Hdn, Haa. rewrite Ha in Haa. by apply (Hnp g k j).
    + rewrite E1 in Hdn, Haa. rewrite E2 in Hdn', Haa. by apply (tb_inj _ _ _ HT g g' k k' j j').
Qed.

(** The part of a walk above a changed entry. *)
Lemma frame_at_above m' t i d va :
  (d ≤ 3)%nat → T !! t = Some d → same_but t i m' → ∀ k, (k ≤ d)%nat → frame_at m' root va k = frame_at m root va k.
Proof.
  intros Hd Ht Hm. induction k as [|k IH]; intros Hk; [done|]. cbn [frame_at]. rewrite IH by lia.
  destruct (frame_at m root va k) as [g|] eqn:Eg; [|done]. assert (k ≤ 3)%nat as Hk3 by lia.
  pose proof (frame_at_table va k g Hk3 Eg) as HTg. rewrite (Hm g k (idx k va)); [done|done|apply idx_range|].
  intros [-> _]. rewrite Ht in HTg. injection HTg as ->. lia.
Qed.
Lemma perm_at_above m' t i d va :
  (d ≤ 3)%nat → T !! t = Some d → same_but t i m' → perm_at m' root va d = perm_at m root va d.
Proof.
  intros Hd Ht Hm. apply perm_at_walk; [done|]. intros k Hk. split; [eapply frame_at_above; [exact Hd|exact Ht|exact Hm|lia]|].
  intros g Hg. pose proof (frame_at_table va k g ltac:(lia) Hg) as HTg. apply (Hm g k (idx k va)); [done|apply idx_range|].
  intros [-> _]. rewrite Ht in HTg. injection HTg as ->. lia.
Qed.
End tables.

(** A walk that meets a missing entry. *)
Lemma translate_stop m root va d t :
  (d < 3)%nat → frame_at m root va d = Some t → present (pte m t (idx d va)) = false → translate m root va = None.
Proof.
  intros Hd Hf Hp. assert (down (pte m t (idx d va)) = false) as Hdn by (unfold down; by rewrite Hp).
  unfold translate. destruct d as [|[|[|d]]]; [| | |lia].
  - injection Hf as <-. cbn [frame_at]. by rewrite Hdn.
  - cbn [frame_at] in *. destruct (down (pte m root (idx 0 va))); [|done]. injection Hf as <-. by rewrite Hdn.
  - rewrite Hf. cbv zeta. by rewrite Hp.
Qed.
(** A walk to a leaf entry. *)
Lemma translate_leaf m root va pt :
  frame_at m root va 3 = Some pt →
  translate m root va =
    (let e := pte m pt (idx 3 va) in if present e then Some (mk_xlat (addr_of e) (meet (upper m root va) (perm_of e))) else None).
Proof.
  intros H. unfold translate. change (frame_at m root va 3) with
    (match frame_at m root va 2 with
     | Some f => if down (pte m f (idx 2 va)) then Some (addr_of (pte m f (idx 2 va))) else None | None => None end) in H.
  destruct (frame_at m root va 2) as [pd|]; [|done]. unfold down in H. cbv zeta.
  destruct (present (pte m pd (idx 2 va))); [|done]. destruct (has (pte m pd (idx 2 va)) PTE_PS); [done|].
  cbn [negb andb] in H |- *. by injection H as <-.
Qed.
(** A walk to a huge page. *)
Lemma translate_huge m root va pd :
  frame_at m root va 2 = Some pd → present (pte m pd (idx 2 va)) = true → has (pte m pd (idx 2 va)) PTE_PS = true →
  translate m root va = Some (mk_xlat (addr_of (pte m pd (idx 2 va)) + idx 3 va * 4096) (meet (upper m root va) (perm_of (pte m pd (idx 2 va))))).
Proof.
  intros H Hp Hh. unfold translate, upper. rewrite (perm_at_stop m root va 2 pd 3) by (done || lia || unfold down; by rewrite Hp, Hh).
  rewrite H. cbv zeta. by rewrite Hp, Hh.
Qed.

Lemma idx_cases d va va' : (d ≤ 3)%nat → (∃ k, (k ≤ d)%nat ∧ idx k va ≠ idx k va') ∨ (∀ k, (k ≤ d)%nat → idx k va = idx k va').
Proof.
  intros _. induction d as [|d IH].
  - destruct (decide (idx 0 va = idx 0 va')) as [E|E]; [right|left; by exists 0%nat].
    intros k Hk. by assert (k = 0)%nat as -> by lia.
  - destruct IH as [(k & Hk & Hn)|IH]; [left; exists k; split; [lia|done]|].
    destruct (decide (idx (S d) va = idx (S d) va')) as [E|E]; [right|left; by exists (S d)].
    intros k Hk. destruct (decide (k = S d)) as [->|]; [done|apply IH; lia].
Qed.

(** Hanging an empty table where there was none changes no translation. *)
Lemma translate_link m m' root T va d t p :
  tables m root T → (d < 3)%nat → frame_at m root va d = Some t → present (pte m t (idx d va)) = false →
  same_but m T t (idx d va) m' → down (pte m' t (idx d va)) = true → addr_of (pte m' t (idx d va)) = p →
  (∀ j, 0 ≤ j < 512 → pte m' p j = 0) → ∀ va', translate m' root va' = translate m root va'.
Proof.
  intros HT Hd Hf Hp Hm Hdn Ha Hz va'. assert (d ≤ 3)%nat as Hd3 by lia.
  destruct (idx_cases d va va' Hd3) as [Hne|Heq]; [by eapply translate_other|].
  assert (frame_at m root va' d = Some t) as Hf' by (rewrite <- Hf; symmetry; apply frame_at_prefix; intros k Hk; apply Heq; lia).
  pose proof (frame_at_table m root T HT va d t Hd3 Hf) as HTt.
  rewrite (translate_stop m root va' d t) by (try done; by rewrite <- (Heq d)).
  assert (frame_at m' root va' d = Some t) as Hf2 by (by rewrite (frame_at_above m root T HT m' t (idx d va) d va')).
  assert (frame_at m' root va' (S d) = Some p) as Hf3 by (cbn [frame_at]; by rewrite Hf2, <- (Heq d), Hdn, Ha).
  destruct (decide (d = 2%nat)) as [->|Hd2].
  - rewrite (translate_leaf m' root va' p) by exact Hf3. cbv zeta. by rewrite Hz by apply idx_range.
  - apply (translate_stop m' root va' (S d) p); [lia|done|]. by rewrite Hz by apply idx_range.
Qed.

(** The walk of an address in the same 2 MiB region as [va]. *)
Definition same_region (va va' : Z) : Prop := ∀ d, (d ≤ 2)%nat → idx d va = idx d va'.
#[export] Instance same_region_dec va va' : Decision (same_region va va').
Proof.
  refine (cast_if (decide (Forall (λ d, idx d va = idx d va') (seq 0 3)))).
  - abstract (intros d Hd; rewrite Forall_forall in f; apply f, elem_of_seq; lia).
  - abstract (intros H; apply n, Forall_forall; intros d Hd%elem_of_seq; apply H; lia).
Defined.
(** Splitting a huge page: its addresses keep their frames and the permission to
    write, lose the user's access, and keep a no-execute bit of the upper
    levels only. *)
Definition split_perm (up p : perm) : perm := mk_perm (p_rw p) false (p_nx up).
Definition after_split (m : gmap Z Z) (root va va' : Z) : option xlat :=
  if decide (same_region va va') then (λ x, mk_xlat (xl_frame x) (split_perm (upper m root va') (xl_perm x))) <$> translate m root va'
  else translate m root va'.

(** Replacing a huge page by a table of its small pages. *)
Lemma translate_split m m' root T va t p :
  tables m root T → frame_at m root va 2 = Some t → present (pte m t (idx 2 va)) = true → has (pte m t (idx 2 va)) PTE_PS = true →
  same_but m T t (idx 2 va) m' → pte m' t (idx 2 va) = Z.lor p PTE_STRUCT_FLAGS → page_addr p →
  (∀ j, 0 ≤ j < 512 → pte m' p j = split_entry (pte m t (idx 2 va)) j) →
  (∀ j, 0 ≤ j < 512 → let e := pte m t (idx 2 va) in let e' := split_entry e j in
     present e' = true ∧ addr_of e' = addr_of e + j * 4096 ∧ perm_of e' = mk_perm (has e PTE_RW) (has e PTE_USER) false) →
  (∀ va', translate m' root va' = after_split m root va va') ∧
  frame_at m' root va 3 = Some p ∧ upper m' root va = split_perm (upper m root va) (upper m root va).
Proof.
  intros HT Hf Hp Hh Hm He' Hpp Hz He. pose proof (frame_at_table m root T HT va 2 t ltac:(lia) Hf) as HTt.
  assert (down (Z.lor p PTE_STRUCT_FLAGS) = true ∧ addr_of (Z.lor p PTE_STRUCT_FLAGS) = p ∧ perm_of (Z.lor p PTE_STRUCT_FLAGS) = mk_perm true false false) as (Hdn & Ha & Hq).
  { split_and!; [|by apply addr_of_entry|].
    - unfold down. rewrite present_bit, huge_bit, !testbit_entry by (done || lia). done.
    - unfold perm_of. rewrite rw_bit, user_bit, nx_bit, !testbit_entry by (done || lia). done. }
  assert (∀ va', same_region va va' → frame_at m root va' 2 = Some t ∧ frame_at m' root va' 3 = Some p ∧
    upper m' root va' = split_perm (upper m root va') (upper m root va')) as Hin.
  { intros va' Heq. assert (frame_at m root va' 2 = Some t) as Hf' by (rewrite <- Hf; symmetry; apply frame_at_prefix; intros k Hk; apply Heq; lia).
    assert (frame_at m' root va' 2 = Some t) as Hf2 by (by rewrite (frame_at_above m root T HT m' t (idx 2 va) 2 va') by (done || lia)).
    split; [done|]. split; [by rewrite frame_at_S, Hf2, <- (Heq 2%nat), He', Hdn, Ha by lia|].
    unfold upper. rewrite (perm_at_S m' root va' 2 t Hf2), <- (Heq 2%nat), He', Hdn, Hq by lia.
    rewrite (perm_at_above m root T HT m' t (idx 2 va) 2 va') by (done || lia).
    rewrite (perm_at_stop m root va' 2 t 3) by (try done; try lia; rewrite <- (Heq 2%nat) by lia; unfold down; by rewrite Hp, Hh).
    unfold meet, split_perm. cbn [p_rw p_user p_nx]. by rewrite andb_true_r, andb_false_r, orb_false_r. }
  split; [|split; apply (Hin va); done].
  intros va'. unfold after_split. destruct (decide (same_region va va')) as [Heq|Hne].
  - destruct (Hin va' Heq) as (Hf' & Hf3 & Hup). rewrite (translate_leaf m' root va' p Hf3). cbv zeta. rewrite Hz by apply idx_range.
    destruct (He (idx 3 va') (idx_range 3 va')) as (-> & -> & ->). rewrite Hup.
    rewrite (translate_huge m root va' t) by (rewrite <- ?(Heq 2%nat) by lia; done). rewrite <- (Heq 2%nat) by lia. cbn. unfold meet, split_perm. cbn. by rewrite orb_false_r.
  - destruct (idx_cases 2 va va' ltac:(lia)) as [Hd|Heq]; [eapply translate_other; [exact HT| |exact Hf|exact Hm|exact Hd]; lia|].
    by destruct Hne.
Qed.
(** What a new table above the leaf changes in the permissions of a walk. *)
Lemma upper_link m m' root T va d t p :
  tables m root T → (d < 3)%nat → frame_at m root va d = Some t → present (pte m t (idx d va)) = false →
  same_but m T t (idx d va) m' → down (pte m' t (idx d va)) = true → addr_of (pte m' t (idx d va)) = p →
  (∀ j, 0 ≤ j < 512 → pte m' p j = 0) → upper m' root va = meet (upper m root va) (perm_of (pte m' t (idx d va))).
Proof.
  intros HT Hd Hf Hp Hm Hdn Ha Hz. pose proof (frame_at_table m root T HT va d t ltac:(lia) Hf) as HTt. unfold upper.
  rewrite (perm_at_stop m root va d t 3) by (try done; try lia; unfold down; by rewrite Hp).
  assert (frame_at m' root va d = Some t) as Hf2 by (by rewrite (frame_at_above m root T HT m' t (idx d va) d va) by (done || lia)).
  assert (perm_at m' root va (S d) = meet (perm_at m root va d) (perm_of (pte m' t (idx d va)))) as E.
  { rewrite (perm_at_S m' root va d t Hf2), Hdn. by rewrite (perm_at_above m root T HT m' t (idx d va) d va) by (done || lia). }
  rewrite <- E. assert (frame_at m' root va (S d) = Some p) as Hf3 by (by rewrite frame_at_S, Hf2, Hdn, Ha).
  apply (perm_at_stop m' root va (S d) p); [done| |lia]. unfold down. by rewrite Hz by apply idx_range.
Qed.
Lemma in_huge_stop m root va d t :
  (d < 3)%nat → frame_at m root va d = Some t → present (pte m t (idx d va)) = false → in_huge m root va = false.
Proof.
  intros Hd Hf Hp. assert (frame_at m root va (S d) = None) as Hn by (rewrite frame_at_S, Hf; unfold down; by rewrite Hp).
  unfold in_huge. destruct d as [|[|[|d]]]; [| | |lia].
  - by rewrite (frame_at_S m root va 1), Hn.
  - by rewrite Hn.
  - by rewrite Hf, Hp.
Qed.
Lemma in_huge_link m m' root T va d t p :
  tables m root T → (d < 3)%nat → frame_at m root va d = Some t → present (pte m t (idx d va)) = false →
  same_but m T t (idx d va) m' → down (pte m' t (idx d va)) = true → addr_of (pte m' t (idx d va)) = p →
  (∀ j, 0 ≤ j < 512 → pte m' p j = 0) → in_huge m' root va = in_huge m root va.
Proof.
  intros HT Hd Hf Hp Hm Hdn Ha Hz. pose proof (frame_at_table m root T HT va d t ltac:(lia) Hf) as HTt.
  assert (frame_at m' root va d = Some t) as Hf2 by (by rewrite (frame_at_above m root T HT m' t (idx d va) d va) by (done || lia)).
  assert (frame_at m' root va (S d) = Some p) as Hf3 by (by rewrite frame_at_S, Hf2, Hdn, Ha).
  assert (frame_at m root va (S d) = None) as Hn by (rewrite frame_at_S, Hf; unfold down; by rewrite Hp).
  assert (∀ n, pte m' p (idx n va) = 0) as Hz' by (intros n; apply Hz, idx_range).
  unfold in_huge. destruct d as [|[|[|d]]]; [| | |lia].
  - rewrite (frame_at_S m' root va 1), Hf3, Hz', (frame_at_S m root va 1), Hn. done.
  - by rewrite Hf3, Hz', Hn.
  - rewrite Hf2, Hf, Hp. apply andb_prop in Hdn as [-> Hh%negb_true_iff]. by rewrite Hh.
Qed.

(** ** What mapping at an address makes of the walks

    A huge page at [va] is split; then the leaf table is there. *)
Definition seen (m : gmap Z Z) (root va va' : Z) : option xlat := if in_huge m root va then after_split m root va va' else translate m root va'.
Definition tables_for (m : gmap Z Z) (root va : Z) : perm := if in_huge m root va then split_perm (upper m root va) (upper m root va) else upper m root va.
Lemma seen_frame m root va va' x : seen m root va va' = Some x → ∃ y, translate m root va' = Some y ∧ xl_frame x = xl_frame y.
Proof.
  unfold seen, after_split. destruct (in_huge m root va); [|by exists x]. destruct (decide _); [|by exists x].
  destruct (translate m root va') as [y|]; [|done]. intros [= <-]. by exists y.
Qed.
Lemma seen_none m root va va' : translate m root va' = None → seen m root va va' = None.
Proof. intros E. unfold seen, after_split. rewrite E. destruct (in_huge m root va); [|done]. by destruct (decide _). Qed.
