(* ===== verification/PageTableOps.v ===== *)
(** * Page tables over the page allocator: allocating tables, splitting a huge
    page and descending one level, each preserving translation. *)
From S2P Require Import Prelude Buddy BuddyLists BuddyInv BuddyOps BuddySpec PageTable PageTableInv.
Local Open Scope Z_scope.
Local Open Scope kernel_scope.

Definition no_free (own : ownership) : Prop := ∀ x, ¬ is_free own x.
(** Used pages stay with their owner. *)
Definition grows (own own' : ownership) : Prop :=
  (∀ x, ¬ is_free own x → own' x = own x) ∧ (∀ x, is_free own' x → is_free own x).

(** An address space with its allocator. *)
Record vm (own : ownership) (s : mm) (root : Z) (T : gmap Z nat) : Prop := mk_vm {
  vm_buddy : Buddy own s;
  vm_tables : tables (ram s) root T;
  vm_owned : ∀ f d, T !! f = Some d → f < phys_mem_base ∨ ¬ is_free own (phys_to_pfn f)
}.

(** The tables added are pages that were free. *)
Definition extends (own : ownership) (T T' : gmap Z nat) : Prop :=
  (∀ f d, T !! f = Some d → T' !! f = Some d) ∧
  (∀ f d, T' !! f = Some d → T !! f = Some d ∨ (phys_mem_base ≤ f ∧ is_free own (phys_to_pfn f))).

Lemma grows_refl own : grows own own.
Proof. by split. Qed.
Lemma grows_trans own1 own2 own3 : grows own1 own2 → grows own2 own3 → grows own1 own3.
Proof.
  intros [A1 A2] [B1 B2]. split; [|intros x Hx; by apply A2, B2]. intros x Hx. rewrite <- (A1 x Hx). apply B1.
  unfold is_free in *. by rewrite (A1 x Hx).
Qed.
Lemma extends_refl own T : extends own T T.
Proof. split; [done|]. intros f d H. by left. Qed.
Lemma extends_trans own1 own2 T1 T2 T3 :
  grows own1 own2 → extends own1 T1 T2 → extends own2 T2 T3 → extends own1 T1 T3.
Proof.
  intros [_ G] [A1 A2] [B1 B2]. split; [intros f d H; by apply B1, A1|]. intros f d H.
  destruct (B2 f d H) as [H2|[H1 H2]]; [by apply A2|right]. split; [done|by apply G].
Qed.

Lemma ld_pte_ok t i s : ld_pte t i s = Some (pte (ram s) t i, s).
Proof. done. Qed.
Lemma st_pte_ok t i v s : st_pte t i v s = Some (tt, set_ram (<[t + 8 * i := v]> (ram s)) s).
Proof. done. Qed.
Lemma phys_to_virt_ok pa s : table_ok pa → phys_to_virt pa s = Some (pa, s).
Proof. intros [_ Hr]. unfold phys_to_virt. by rewrite (proj2 (Z.leb_gt _ _)) by lia. Qed.

Lemma filter_out_lookup (r : gmap Z Z) a b x :
  filter (λ kv : Z * Z, ¬ (a ≤ kv.1 < b)) r !! x = if decide (a ≤ x < b) then None else r !! x.
Proof.
  destruct (decide (a ≤ x < b)) as [H|H].
  - apply map_lookup_filter_None. right. intros v _ Hn. by apply Hn.
  - destruct (r !! x) as [v|] eqn:E.
    + apply map_lookup_filter_Some. by split.
    + apply map_lookup_filter_None. by left.
Qed.

(** Allocating a page that is to be a table: it was free, so it is none of the
    tables in use, and it is empty. *)
Lemma alloc_page_table own s root T :
  vm own s root T →
  (alloc_page s = Some (None, s) ∧ no_free own) ∨
  (∃ own' p s', alloc_page s = Some (Some p, s') ∧ Buddy own' s' ∧ grows own own' ∧ table_ok p ∧ phys_mem_base ≤ p ∧
     T !! p = None ∧ is_free own (phys_to_pfn p) ∧ own' (phys_to_pfn p) = Some (phys_to_pfn p, 0, false) ∧
     (∀ x, ram s' !! x = if decide (p ≤ x < p + PAGE_SIZE) then None else ram s !! x) ∧
     total_phys_pages s' = total_phys_pages s ∧
     refs s' (phys_to_pfn p) = 1 ∧ ∀ x, x ≠ phys_to_pfn p → refs s' x = refs s x).
Proof.
  intros [HB HT Hown]. assert (MAX_ORDER = 10) as HM by done.
  destruct (alloc_pages_Buddy own s 0 HB) as [[R Hno]|(own' & p & s' & R & HB' & (_ & Hin & Hout) & Htot & Hram & Hr1 & Hr2)]; [lia|left|right].
  { split; [done|]. intros x (b & q & Hx). destruct HB as [[fl HI] _ _]. pose proof (iv_own _ _ _ HI) as Hw.
    pose proof (ow_order _ Hw _ _ _ _ Hx) as Hq. apply (Hno q b); [lia|]. apply (ow_block _ Hw _ _ _ _ Hx).
    unfold in_block. pose proof (pow2_pos q ltac:(lia)). lia. }
  destruct (Hin p) as [Hfp Hop]; [unfold in_block; change (2 ^ 0) with 1; lia|].
  assert (phys_mem_base ≤ pfn_to_phys p < KERNEL_PHYS_MAX ∧ phys_to_pfn (pfn_to_phys p) = p) as [Hpa Hpfn].
  { destruct HB' as [[fl HI] _ _]. by apply (base_addr _ _ _ _ _ _ HI Hop). }
  exists own', (pfn_to_phys p), s'. rewrite Hpfn.
  assert (table_ok (pfn_to_phys p)) as Hok.
  { split; [|unfold phys_mem_base in *; lia]. unfold pfn_to_phys, phys_mem_base, PAGE_SIZE.
    replace (0x100000 + p * 4096) with ((256 + p) * 4096) by lia. by apply Z.mod_mul. }
  split_and!; try done.
  - split.
    + intros x Hx. destruct (decide (x = p)) as [->|Hne]; [done|].
      destruct (Hout x) as [[? _]|[_ E]]; [unfold in_block; change (2 ^ 0) with 1; lia|done|done].
    + intros x Hx. destruct (decide (x = p)) as [->|Hne]; [done|].
      destruct (Hout x) as [[? _]|[_ E]]; [unfold in_block; change (2 ^ 0) with 1; lia|done|]. unfold is_free in *. by rewrite E in Hx.
  - lia.
  - destruct (T !! pfn_to_phys p) as [d|] eqn:E; [|done]. destruct (Hown _ _ E) as [H|H]; [lia|]. by rewrite Hpfn in H.
  - intros x. rewrite Hram. rewrite filter_out_lookup. change (PAGE_SIZE * 2 ^ 0) with PAGE_SIZE. done.
Qed.

(** The words of a table lie in its page. *)
Lemma slot_in f g j : table_ok f → table_ok g → 0 ≤ j < 512 → f ≤ g + 8 * j < f + PAGE_SIZE → f = g.
Proof.
  intros [H1 _] [H2 _] Hj Hr. unfold PAGE_SIZE in *. apply Z.mod_divide in H1 as [k Hk]; [|done].
  apply Z.mod_divide in H2 as [k' Hk']; [|done]. lia.
Qed.

Lemma same_tables_zero s s' root T p :
  tables (ram s) root T → table_ok p → T !! p = None →
  (∀ x, ram s' !! x = if decide (p ≤ x < p + PAGE_SIZE) then None else ram s !! x) →
  same_tables (ram s) T (ram s') ∧ ∀ j, 0 ≤ j < 512 → pte (ram s') p j = 0.
Proof.
  intros HT Hp HTp Hr. split.
  - intros g d j Hg Hj. destruct (tb_frame _ _ _ HT g d Hg) as [_ Hgo]. unfold pte. rewrite Hr.
    destruct (decide _) as [Hin|]; [|done]. exfalso. assert (p = g) as -> by (by eapply slot_in). congruence.
  - intros j Hj. unfold pte. rewrite Hr, decide_True; [done|]. unfold PAGE_SIZE. lia.
Qed.

(** [alloc_table_page] zeroes the page once more. *)
Lemma alloc_table_page_spec own s root T :
  vm own s root T →
  (alloc_table_page s = Some (None, s) ∧ no_free own) ∨
  (∃ own' p s', alloc_table_page s = Some (Some p, s') ∧ vm own' s' root T ∧ grows own own' ∧ table_ok p ∧
     phys_mem_base ≤ p ∧ T !! p = None ∧ is_free own (phys_to_pfn p) ∧ ¬ is_free own' (phys_to_pfn p) ∧
     same_tables (ram s) T (ram s') ∧ (∀ j, 0 ≤ j < 512 → pte (ram s') p j = 0) ∧
     total_phys_pages s' = total_phys_pages s ∧ (∀ x, x ≠ phys_to_pfn p → refs s' x = refs s x) ∧
     (∀ x, ¬ (p ≤ x < p + PAGE_SIZE) → ram s' !! x = ram s !! x)).
Proof.
  intros HV. unfold alloc_table_page.
  destruct (alloc_page_table own s root T HV) as [[R Hno]|(own' & p & s1 & R & HB & HG & Hp & Hlo & HTp & Hf & Ho & Hr & Ht & _ & Hrf)];
    [left; by run R|right]. run R. unfold zero_ram. rewrite bind_modify.
  set (s' := set_ram _ s1).
  assert (∀ x, ram s' !! x = if decide (p ≤ x < p + PAGE_SIZE) then None else ram s !! x) as Hr'.
  { intros x. unfold s'. cbn [ram set_ram]. rewrite filter_out_lookup, Hr. by destruct (decide _). }
  assert (¬ is_free own' (phys_to_pfn p)) as Hnf by (intros (b & q & E); rewrite Ho in E; done).
  destruct (same_tables_zero s s' root T p (vm_tables _ _ _ _ HV) Hp HTp Hr') as [Hsame Hz].
  exists own', p, s'. split_and!; try done; [|intros x Hx; by rewrite Hr', decide_False]. constructor.
  - by apply Buddy_ram.
  - eapply tables_same; [apply HV|done].
  - intros f d Hfd. destruct (vm_owned _ _ _ _ HV f d Hfd) as [?|Hx]; [by left|right]. intros Hy. by apply Hx, HG.
Qed.

(** Changing one word of a table. *)
Lemma same_but_store s root T t d i v :
  tables (ram s) root T → T !! t = Some d → 0 ≤ i < 512 →
  same_but (ram s) T t i (<[t + 8 * i := v]> (ram s)) ∧ pte (<[t + 8 * i := v]> (ram s)) t i = v ∧
  (∀ p j, table_ok p → T !! p = None → 0 ≤ j < 512 → pte (<[t + 8 * i := v]> (ram s)) p j = pte (ram s) p j).
Proof.
  intros HT Ht Hi. destruct (tb_frame _ _ _ HT t d Ht) as [_ Hto]. split_and!.
  - intros g k j Hg Hj Hn. destruct (tb_frame _ _ _ HT g k Hg) as [_ Hgo].
    rewrite (pte_upd (ram s) t g i j v) by done. by rewrite decide_False.
  - rewrite (pte_upd (ram s) t t i i v) by done. by rewrite decide_True.
  - intros p j Hp HTp Hj. rewrite (pte_upd (ram s) t p i j v) by done. rewrite decide_False; [done|]. intros [-> _]. congruence.
Qed.

(** ** Splitting a huge page *)
Lemma addr_of_bits f : (∀ i, 12 ≤ i < 52 → Z.testbit f i = false) → addr_of f = 0.
Proof.
  intros H. unfold addr_of. apply Z.bits_inj'. intros i Hi. rewrite Z.land_spec, mask_bit, Z.bits_0 by done.
  destruct (decide (12 ≤ i < 52)) as [Hr|Hn]; [by rewrite H|]. by rewrite bool_decide_eq_false_2, andb_false_r.
Qed.
Lemma page_in_huge a j : page_addr a → a mod 2 ^ 21 = 0 → 0 ≤ j < 512 → page_addr (a + j * 4096).
Proof.
  intros [Hr Hm] H21 Hj. apply Z.mod_divide in H21 as [k Hk]; [|done]. assert (2 ^ 52 = 2 ^ 31 * 2 ^ 21) as E52 by done.
  assert (2 ^ 21 = 512 * 4096) as E21 by done. split; [nia|]. replace (a + j * 4096) with ((k * 512 + j) * 4096) by lia. by apply Z.mod_mul.
Qed.
Lemma split_entry_spec e j :
  addr_of e mod 2 ^ 21 = 0 → 0 ≤ j < 512 → let e' := split_entry e j in
  present e' = true ∧ addr_of e' = addr_of e + j * 4096 ∧ perm_of e' = mk_perm (has e PTE_RW) (has e PTE_USER) false.
Proof.
  intros H21 Hj. cbv zeta. pose proof (page_in_huge _ j (addr_of_ok e) H21 Hj) as Hp.
  set (g := Z.ldiff (Z.land e 4095) PTE_PS).
  assert (∀ i, 0 ≤ i → Z.testbit g i = Z.testbit e i && bool_decide (i < 12) && negb (bool_decide (i = 7))) as Hg.
  { intros i Hi. unfold g. rewrite Z.ldiff_spec, Z.land_spec. change 4095 with (Z.ones 12). change PTE_PS with (2 ^ 7).
    rewrite Z.testbit_ones_nonneg, Z.pow2_bits_eqb by lia. f_equal; [f_equal|].
    - destruct (Z.ltb_spec i 12); symmetry; [by apply bool_decide_eq_true_2|apply bool_decide_eq_false_2; lia].
    - f_equal. destruct (Z.eqb_spec 7 i); symmetry; [apply bool_decide_eq_true_2; lia|apply bool_decide_eq_false_2; lia]. }
  unfold split_entry. fold g. rewrite <- !Z.lor_assoc. split_and!.
  - rewrite present_bit, testbit_entry by (done || lia). rewrite !Z.lor_spec. apply orb_true_iff. right. done.
  - apply addr_of_entry; [done|]. rewrite !addr_of_lor. rewrite (addr_of_bits g); [done|].
    intros i Hi. rewrite Hg by lia. rewrite (bool_decide_eq_false_2 (i < 12)) by lia. by rewrite andb_false_r.
  - unfold perm_of. f_equal.
    + rewrite !rw_bit, testbit_entry by (done || lia). rewrite Z.lor_spec, Hg by lia.
      rewrite bool_decide_eq_true_2, bool_decide_eq_false_2, !andb_true_r by done. apply orb_false_r.
    + rewrite !user_bit, testbit_entry by (done || lia). rewrite Z.lor_spec, Hg by lia.
      rewrite bool_decide_eq_true_2, bool_decide_eq_false_2, !andb_true_r by done. apply orb_false_r.
    + rewrite nx_bit, testbit_entry by (done || lia). rewrite Z.lor_spec, Hg by lia.
      rewrite (bool_decide_eq_false_2 (63 < 12)) by lia. by rewrite andb_false_r.
Qed.

(** Filling a table, entry by entry. *)
Lemma fill_table s p (v : Z → Z) n :
  0 ≤ n ≤ 512 →
  ∃ r, for_range (Z.to_nat n) 0 (λ i, st_pte p i (v i)) s = Some (tt, set_ram r s) ∧
    (∀ j, 0 ≤ j < n → pte r p j = v j) ∧ (∀ x, ¬ (p ≤ x < p + PAGE_SIZE) → r !! x = ram s !! x).
Proof.
  intros Hn. destruct (for_range_ind (λ i, st_pte p i (v i))
    (λ j s', ∃ r, s' = set_ram r s ∧ (∀ k, 0 ≤ k < j → pte r p k = v k) ∧ (∀ x, ¬ (p ≤ x < p + PAGE_SIZE) → r !! x = ram s !! x))
    (Z.to_nat n) 0 s) as (s' & R & r & -> & H1 & H2).
  - exists (ram s). split; [by destruct s|]. split; [lia|done].
  - intros j s' Hj (r & -> & H1 & H2). eexists. split; [apply st_pte_ok|].
    exists (<[p + 8 * j := v j]> r). split; [done|]. split.
    + intros k Hk. unfold pte. destruct (decide (k = j)) as [->|Hne]; [by rewrite lookup_insert_eq|].
      rewrite lookup_insert_ne by lia. apply H1. lia.
    + intros x Hx. rewrite lookup_insert_ne; [by apply H2|]. unfold PAGE_SIZE in *. lia.
  - exists r. split; [done|]. split; [intros j Hj; apply H1; lia|done].
Qed.

(** One step of building an address space: what it keeps, translations apart. *)
Record vm_step (own : ownership) (s : mm) (own' : ownership) (s' : mm) (root : Z) (T T' : gmap Z nat) : Prop := mk_vm_step {
  vs_vm : vm own' s' root T';
  vs_grows : grows own own';
  vs_extends : extends own T T';
  vs_total : total_phys_pages s' = total_phys_pages s;
  vs_refs : ∀ x, ¬ is_free own x → refs s' x = refs s x;
  vs_ram : ∀ x, (∀ f d, T' !! f = Some d → ¬ (f ≤ x < f + PAGE_SIZE)) → ram s' !! x = ram s !! x
}.
Lemma vm_step_refl own s root T : vm own s root T → vm_step own s own s root T T.
Proof. intros H. constructor; [done|apply grows_refl|apply extends_refl|done..]. Qed.
Lemma vm_step_trans own1 s1 own2 s2 own3 s3 root T1 T2 T3 :
  vm_step own1 s1 own2 s2 root T1 T2 → vm_step own2 s2 own3 s3 root T2 T3 → vm_step own1 s1 own3 s3 root T1 T3.
Proof.
  intros [A1 A2 A3 A5 A6 A7] [B1 B2 B3 B5 B6 B7]. constructor; [done|by eapply grows_trans|by eapply extends_trans|..].
  - congruence.
  - intros x Hx. rewrite B6; [by apply A6|]. unfold is_free in *. by rewrite (proj1 A2 x Hx).
  - intros x Hx. rewrite B7 by done. apply A7. intros f d Hf. by apply (Hx f d), B3.
Qed.

Lemma vm_owned_extends own own' (T T' : gmap Z nat) p d :
  grows own own' → T' = <[p := d]> T → ¬ is_free own' (phys_to_pfn p) →
  (∀ f k, T !! f = Some k → f < phys_mem_base ∨ ¬ is_free own' (phys_to_pfn f)) →
  ∀ f k, T' !! f = Some k → f < phys_mem_base ∨ ¬ is_free own' (phys_to_pfn f).
Proof.
  intros _ -> Hp HT f k. destruct (decide (f = p)) as [->|Hne]; [by right|]. rewrite lookup_insert_ne by done. by apply HT.
Qed.
Lemma extends_insert own T p d :
  T !! p = None → phys_mem_base ≤ p → is_free own (phys_to_pfn p) → extends own T (<[p := d]> T).
Proof.
  intros HTp Hlo Hf. split.
  - intros f k Hfk. rewrite lookup_insert_ne; [done|]. intros <-. congruence.
  - intros f k. destruct (decide (f = p)) as [->|Hne]; [by right|]. rewrite lookup_insert_ne by done. by left.
Qed.

Lemma split_huge_page_spec own s root T va pd :
  vm own s root T → frame_at (ram s) root va 2 = Some pd →
  present (pte (ram s) pd (idx 2 va)) = true → has (pte (ram s) pd (idx 2 va)) PTE_PS = true →
  (split_huge_page pd (idx 2 va) s = Some (None, s) ∧ no_free own) ∨
  (∃ own' p s' T', split_huge_page pd (idx 2 va) s = Some (Some p, s') ∧ vm_step own s own' s' root T T' ∧
     (∀ va', translate (ram s') root va' = after_split (ram s) root va va') ∧
     upper (ram s') root va = split_perm (upper (ram s) root va) (upper (ram s) root va) ∧
     frame_at (ram s') root va 3 = Some p ∧ pte (ram s') pd (idx 2 va) = Z.lor p PTE_STRUCT_FLAGS).
Proof.
  intros HV Hf Hp Hh. unfold split_huge_page. run (ld_pte_ok pd (idx 2 va) s). set (e := pte (ram s) pd (idx 2 va)) in *.
  rewrite Hh. cbn [negb]. pose proof (vm_tables _ _ _ _ HV) as HT.
  pose proof (frame_at_table (ram s) root T HT va 2 pd ltac:(lia) Hf) as HTpd.
  assert (addr_of e mod 2 ^ 21 = 0) as H21.
  { destruct (tb_child _ _ _ HT pd 2%nat (idx 2 va) HTpd ltac:(lia) (idx_range 2 va) Hp) as [(_ & _ & H)|[H _]]; [done|].
    fold e in H. congruence. }
  destruct (alloc_table_page_spec own s root T HV)
    as [[R Hno]|(own' & p & s1 & R & HV1 & HG & Hpo & Hlo & HTp & Hfr & Hnf & Hsame & Hz & Htot & Hrf & Hrout)]; [left; by run R|right].
  run R. run (phys_to_virt_ok p s1 Hpo).
  destruct (fill_table s1 p (split_entry e) 512) as (r & Rf & Hv & Hout); [lia|].
  change (Z.to_nat 512) with 512%nat in Rf. run Rf. run (st_pte_ok pd (idx 2 va) (Z.lor p PTE_STRUCT_FLAGS) (set_ram r s1)).
  set (s2 := set_ram r s1). set (s3 := set_ram _ s2).
  assert (same_tables (ram s) T (ram s2)) as Hsame2.
  { intros g d j Hg Hj. destruct (tb_frame _ _ _ HT g d Hg) as [_ Hgo]. rewrite <- (Hsame g d j) by done. unfold pte. cbn [ram s2 set_ram].
    rewrite Hout; [done|]. intros Hin. assert (p = g) as -> by (by eapply slot_in). congruence. }
  assert (tables (ram s2) root T) as HT2 by (by eapply tables_same).
  destruct (same_but_store s2 root T pd 2%nat (idx 2 va) (Z.lor p PTE_STRUCT_FLAGS) HT2 HTpd (idx_range 2 va)) as (B1 & B2 & B3).
  assert (same_but (ram s) T pd (idx 2 va) (ram s3)) as HB.
  { intros g d j Hg Hj Hn. rewrite <- (Hsame2 g d j) by done. by eapply B1. }
  pose proof (table_page p Hpo) as Hpp.
  assert (addr_of (pte (ram s3) pd (idx 2 va)) = p) as Ha by (etrans; [exact (f_equal addr_of B2)|by apply addr_of_entry]).
  assert (down (pte (ram s3) pd (idx 2 va)) = true) as Hdn.
  { etrans; [exact (f_equal down B2)|]. unfold down. rewrite present_bit, huge_bit, !testbit_entry by (done || lia). done. }
  assert (∀ j, 0 ≤ j < 512 → pte (ram s3) p j = split_entry e j) as Hnew by (intros j Hj; etrans; [by apply B3|by apply Hv]).
  destruct (translate_split (ram s) (ram s3) root T va pd p HT Hf Hp Hh HB B2 Hpp Hnew) as (HX & Hf3 & Hup); [intros j Hj; by apply split_entry_spec|].
  exists own', p, s3, (<[p := 3%nat]> T). split; [done|]. split; [|done]. constructor.
  - constructor.
    + do 2 apply Buddy_ram. apply HV1.
    + eapply (tables_link (ram s) root T HT (ram s3) pd 2 (idx 2 va) p); try done; [lia|apply idx_range| |by left].
      unfold down. fold e. rewrite Hp, Hh. done.
    + eapply vm_owned_extends; [exact HG|done|done|]. intros f k Hfk. by apply (vm_owned _ _ _ _ HV1 f k).
  - done.
  - by apply extends_insert.
  - done.
  - intros x Hx. change (refs s3 x) with (refs s1 x). apply Hrf. intros ->. done.
  - intros x Hx. assert (¬ (p ≤ x < p + PAGE_SIZE)) as Hxp by (apply (Hx p 3%nat), lookup_insert_eq).
    assert (¬ (pd ≤ x < pd + PAGE_SIZE)) as Hxpd by (apply (Hx pd 2%nat); rewrite lookup_insert_ne by congruence; done).
    cbn [ram s3 set_ram]. rewrite lookup_insert_ne by (pose proof (idx_range 2 va); unfold PAGE_SIZE in *; lia).
    change (ram s2) with r. rewrite Hout by done. by apply Hrout.
Qed.

(** ** Descending one level *)
Lemma next_table_spec own s root T va d t sf :
  vm own s root T → (d < 3)%nat → frame_at (ram s) root va d = Some t →
  (present (pte (ram s) t (idx d va)) = true → has (pte (ram s) t (idx d va)) PTE_PS = false) →
  addr_of sf = 0 → Z.testbit sf 0 = true → Z.testbit sf 7 = false →
  (next_table t (idx d va) sf s = Some (None, s) ∧ no_free own) ∨
  (∃ own' p s' T', next_table t (idx d va) sf s = Some (Some p, s') ∧ vm_step own s own' s' root T T' ∧
     (∀ va', translate (ram s') root va' = translate (ram s) root va') ∧
     (upper (ram s') root va = upper (ram s) root va ∨ upper (ram s') root va = meet (upper (ram s) root va) (perm_of sf)) ∧
     in_huge (ram s') root va = in_huge (ram s) root va ∧ (in_huge (ram s) root va = true → s' = s) ∧
     frame_at (ram s') root va (S d) = Some p).
Proof.
  intros HV Hd Hf Hps Hsf Hsf0 Hsf7. unfold next_table. run (ld_pte_ok t (idx d va) s). set (e := pte (ram s) t (idx d va)) in *.
  pose proof (vm_tables _ _ _ _ HV) as HT.
  pose proof (frame_at_table (ram s) root T HT va d t ltac:(lia) Hf) as HTt.
  destruct (present e) eqn:Ep; cbn [negb].
  { right. exists own, (addr_of e), s, T. split; [done|]. split; [by apply vm_step_refl|]. split; [done|]. split; [by left|]. split; [done|]. split; [done|].
    cbn [frame_at]. rewrite Hf. fold e. unfold down. by rewrite Ep, Hps. }
  destruct (alloc_table_page_spec own s root T HV)
    as [[R Hno]|(own' & p & s1 & R & HV1 & HG & Hpo & Hlo & HTp & Hfr & Hnf & Hsame & Hz & Htot & Hrf & Hrout)]; [left; by run R|right].
  run R. run (st_pte_ok t (idx d va) (Z.lor p sf) s1). set (s2 := set_ram _ s1).
  destruct (same_but_store s1 root T t d (idx d va) (Z.lor p sf) (vm_tables _ _ _ _ HV1) HTt (idx_range d va)) as (B1 & B2 & B3).
  assert (same_but (ram s) T t (idx d va) (ram s2)) as HB.
  { intros g k j Hg Hj Hn. rewrite <- (Hsame g k j) by done. by eapply B1. }
  pose proof (table_page p Hpo) as Hpp.
  assert (addr_of (pte (ram s2) t (idx d va)) = p) as Ha by (etrans; [exact (f_equal addr_of B2)|by apply addr_of_entry]).
  assert (down (pte (ram s2) t (idx d va)) = true) as Hdn.
  { etrans; [exact (f_equal down B2)|]. unfold down. rewrite present_bit, huge_bit, !testbit_entry by (done || lia). by rewrite Hsf0, Hsf7. }
  assert (∀ j, 0 ≤ j < 512 → pte (ram s2) p j = 0) as Hnew by (intros j Hj; etrans; [by apply B3|by apply Hz]).
  assert (perm_of (pte (ram s2) t (idx d va)) = perm_of sf) as Hq.
  { etrans; [exact (f_equal perm_of B2)|]. unfold perm_of. rewrite !rw_bit, !user_bit, !nx_bit, !testbit_entry by (done || lia). done. }
  exists own', p, s2, (<[p := S d]> T). split; [done|]. split.
  2: { split; [by eapply (translate_link (ram s) (ram s2) root T va d t p)|].
    split; [right; rewrite <- Hq; by eapply (upper_link (ram s) (ram s2) root T va d t p)|].
    split; [by eapply (in_huge_link (ram s) (ram s2) root T va d t p)|].
    split; [intros H; by rewrite (in_huge_stop (ram s) root va d t) in H|].
    cbn [frame_at]. rewrite (frame_at_above (ram s) root T HT (ram s2) t (idx d va) d va) by (done || lia). rewrite Hf, Hdn. by rewrite Ha. }
  constructor.
  - constructor.
    + apply Buddy_ram. apply HV1.
    + eapply (tables_link (ram s) root T HT (ram s2) t d (idx d va) p); try done; [apply idx_range| |right].
      * unfold down. fold e. by rewrite Ep.
      * intros j Hj. by rewrite Hnew.
    + eapply vm_owned_extends; [exact HG|done|done|]. intros f k Hfk. by apply (vm_owned _ _ _ _ HV1 f k).
  - done.
  - by apply extends_insert.
  - done.
  - intros x Hx. change (refs s2 x) with (refs s1 x). apply Hrf. intros ->. done.
  - intros x Hx. assert (¬ (p ≤ x < p + PAGE_SIZE)) as Hxp by (apply (Hx p (S d)), lookup_insert_eq).
    assert (¬ (t ≤ x < t + PAGE_SIZE)) as Hxt by (apply (Hx t d); rewrite lookup_insert_ne by congruence; done).
    cbn [ram s2 set_ram]. rewrite lookup_insert_ne by (pose proof (idx_range d va); unfold PAGE_SIZE in *; lia).
    by apply Hrout.
Qed.
