(* ===== verification/PageTableThms.v ===== *)
(** * Properties of the page tables. *)
From S2P Require Import Prelude Buddy BuddyLists BuddyInv BuddyOps BuddySpec BuddyInit BuddyThms PageTable PageTableInv PageTableOps.
Local Open Scope Z_scope.
Local Open Scope kernel_scope.

(** ** Page descriptors *)
Definition page_struct (s : mm) (pa : Z) : option Z :=
  if (phys_to_pfn pa =? 2 ^ 64 - 1) || (total_phys_pages s <=? phys_to_pfn pa) then None else Some (phys_to_pfn pa).
Lemma get_page_struct_ok pa s : get_page_struct pa s = Some (page_struct s pa, s).
Proof. done. Qed.

(** The frame has no descriptor, or is a page of its own that is no table. *)
Definition single_page (own : ownership) (s : mm) (T : gmap Z nat) (pa : Z) : Prop :=
  ∀ i, page_struct s pa = Some i → own i = Some (i, 0, false) ∧ T !! pa = None.

Lemma page_struct_addr s pa i : page_addr pa → page_struct s pa = Some i → i = phys_to_pfn pa ∧ pa = pfn_to_phys i.
Proof.
  intros [Hr Hm] H. unfold page_struct in H. destruct (_ || _) eqn:E; [done|]. injection H as <-. split; [done|].
  apply orb_false_iff in E as [E _]. apply Z.eqb_neq in E. unfold phys_to_pfn, pfn_to_phys, phys_mem_base, PAGE_SIZE in *.
  destruct (Z.ltb_spec pa 0x100000); [done|]. apply Z.mod_divide in Hm as [k Hk]; [|done]. subst pa.
  replace (k * 4096 - 1048576) with ((k - 256) * 4096) by lia. rewrite Z.div_mul by done. lia.
Qed.
(** Table addresses are determined by their page number. *)
Lemma table_pfn f pa : table_ok f → phys_mem_base ≤ f → page_addr pa → phys_mem_base ≤ pa → phys_to_pfn f = phys_to_pfn pa → f = pa.
Proof.
  intros [H1 _] Hf [_ H2] Hpa E. unfold phys_to_pfn, phys_mem_base, PAGE_SIZE in *. apply Z.mod_divide in H1 as [k ->]; [|done].
  apply Z.mod_divide in H2 as [k' ->]; [|done]. destruct (Z.ltb_spec (k * 4096) 0x100000); [lia|].
  destruct (Z.ltb_spec (k' * 4096) 0x100000); [lia|]. replace (k * 4096 - 1048576) with ((k - 256) * 4096) in E by lia.
  replace (k' * 4096 - 1048576) with ((k' - 256) * 4096) in E by lia. rewrite !Z.div_mul in E by done. lia.
Qed.

(** Writing a reference count keeps the allocator's invariant. *)
Definition with_ref (i v : Z) (s : mm) : mm := set_pages (<[i := set_ref v (pg s i)]> (page_array s)) s.
Lemma Buddy_ref own s i v : Buddy own s → Buddy own (with_ref i v s).
Proof.
  intros [[fl HI] Hu Ht]. constructor; [exists fl|done|done]. destruct HI. constructor; try done.
  - by apply (view_store _ _ _ (set_ref v)).
  - intros x o f Hx. unfold with_ref. rewrite pg_set. destruct (decide (i = x)) as [->|]; [|by apply iv_desc].
    destruct (iv_desc _ _ _ Hx). by constructor.
  - intros x Hx. unfold with_ref. rewrite pg_set. destruct (decide (i = x)) as [->|]; [|by apply iv_none]. by apply (iv_none x).
Qed.
Lemma refs_with_ref i v s x : refs (with_ref i v s) x = if decide (x = i) then v else refs s x.
Proof. unfold refs, with_ref. rewrite pg_set. by destruct (decide (i = x)), (decide (x = i)). Qed.
Lemma vm_ref own s root T i v : vm own s root T → vm own (with_ref i v s) root T.
Proof. intros [HB HT Ho]. constructor; [by apply Buddy_ref|done|done]. Qed.
Lemma stp_ref_ok s i v : 0 ≤ i < BUDDY_MAX_PAGES → stp i (set_ref v) s = Some (tt, with_ref i v s).
Proof. intros H. by rewrite stp_ok. Qed.

(** What giving up one reference to [pa] does. *)
Record released (own : ownership) (s : mm) (own' : ownership) (s' : mm) (root : Z) (T : gmap Z nat) (pa : Z) : Prop := mk_released {
  rl_vm : vm own' s' root T;
  rl_ram : ram s' = ram s;
  rl_total : total_phys_pages s' = total_phys_pages s;
  rl_refs : ∀ x, x ≠ phys_to_pfn pa → refs s' x = refs s x;
  rl_own : own' = own ∨ (∃ i, page_struct s pa = Some i ∧ refs s i = 1 ∧ freed own own' i 0)
}.

Lemma free_released own s root T pa i :
  vm own s root T → page_addr pa → page_struct s pa = Some i → own i = Some (i, 0, false) → T !! pa = None →
  ∃ own' s', free_page pa s = Some (tt, s') ∧ vm own' s' root T ∧ ram s' = ram s ∧ total_phys_pages s' = total_phys_pages s ∧
    freed own own' i 0 ∧ ∀ x, x ≠ i → refs s' x = refs s x.
Proof.
  intros [HB HT Ho] Hpa Hi Hown HTp. destruct (page_struct_addr s pa i Hpa Hi) as [-> Epa].
  set (i := phys_to_pfn pa) in *. rewrite Epa in HTp |- *.
  destruct (free_pages_Buddy own s i 0 HB Hown) as (own' & s' & R & HB' & [F1 F2] & Ht & Hr & _ & _ & _ & Hrf & _).
  exists own', s'. split_and!; try done. constructor; [done|by rewrite Hr|].
  intros f d Hf. destruct (Ho f d Hf) as [?|Hnf]; [by left|]. destruct (decide (f < phys_mem_base)) as [?|Hge]; [by left|right].
  intros Hx. destruct (decide (phys_to_pfn f = i)) as [E|Hne].
  - destruct (tb_frame _ _ _ HT f d Hf) as [_ Hto]. assert (f = pa) as ->.
    { apply table_pfn; try done; [lia|]. rewrite Epa. destruct HB as [[fl HI] _ _]. destruct (base_addr _ _ _ _ _ _ HI Hown). lia. }
    rewrite <- Epa in HTp. congruence.
  - destruct (F2 (phys_to_pfn f)) as [[? _]|[_ E]]; [unfold in_block; change (2 ^ 0) with 1; lia|done|]. unfold is_free in *. by rewrite E in Hx.
Qed.

Lemma own_range own s root T i o f : vm own s root T → own i = Some (i, o, f) → 0 ≤ i < BUDDY_MAX_PAGES.
Proof. intros [[[fl HI] _ _] _ _] H. by apply (inv_base _ _ _ _ _ _ HI H). Qed.

Lemma ref_replace_spec own s root T pa :
  vm own s root T → page_addr pa → single_page own s T pa →
  ∃ own' s', ref_replace pa s = Some (tt, s') ∧ released own s own' s' root T pa.
Proof.
  intros HV Hpa Hs. unfold ref_replace. run (get_page_struct_ok pa s). destruct (page_struct s pa) as [i|] eqn:Ei.
  2: { exists own, s. split; [done|]. constructor; try done. by left. }
  destruct (Hs i Ei) as [Hown HTp]. destruct (page_struct_addr s pa i Hpa Ei) as [Ep _].
  pose proof (own_range _ _ _ _ _ _ _ HV Hown) as Hr. run (ldp_ok ref_count i s Hr).
  run (stp_ref_ok s i (u32 (ref_count (pg s i) - 1)) Hr). set (s1 := with_ref i _ s).
  pose proof (vm_ref own s root T i (u32 (ref_count (pg s i) - 1)) HV) as HV1. fold s1 in HV1.
  assert (∀ x, x ≠ phys_to_pfn pa → refs s1 x = refs s x) as Hrf.
  { intros x Hx. unfold s1. rewrite refs_with_ref. by rewrite decide_False by congruence. }
  destruct (Z.eqb_spec (ref_count (pg s i)) 0) as [E0|E0].
  { rewrite (stp_ok i _ s1 Hr). eexists own, _. split; [reflexivity|]. destruct (ref_count (pg s1 i) =? 2 ^ 32 - 1).
    - constructor; [exact (vm_ref own s1 root T i 0 HV1)|done|done| |by left]. intros x Hx.
      change (refs (with_ref i 0 s1) x = refs s x). rewrite refs_with_ref, decide_False by congruence. by apply Hrf.
    - assert (set_pages (<[i:=pg s1 i]> (page_array s1)) s1 = s1) as ->.
      { unfold s1 at 2 3, with_ref. destruct s. unfold set_pages. cbn. f_equal. unfold s1, with_ref, set_pages, pg. cbn.
        by rewrite lookup_insert_eq, insert_insert_eq. }
      constructor; [done|done|done|done|by left]. }
  destruct (Z.eqb_spec (ref_count (pg s i)) 1) as [E1|E1].
  - destruct (free_released own s1 root T pa i HV1 Hpa Ei Hown HTp) as (own' & s' & R & HV' & Hram & Ht & Hf & Hr').
    exists own', s'. split; [done|]. constructor; [done|done|by rewrite Ht| |].
    + intros x Hx. rewrite Hr' by congruence. by apply Hrf.
    + right. exists i. done.
  - exists own, s1. split; [done|]. constructor; [done|done|done|done|by left].
Qed.

Lemma page_ref_inc_spec own s root T pa :
  vm own s root T →
  (∀ i, page_struct s pa = Some i → 0 ≤ i < BUDDY_MAX_PAGES) →
  ∃ s', page_ref_inc pa s = Some (tt, s') ∧ vm own s' root T ∧ ram s' = ram s ∧ total_phys_pages s' = total_phys_pages s ∧
    ∀ x, refs s' x = if decide (page_struct s pa = Some x) then u32 (refs s x + 1) else refs s x.
Proof.
  intros HV Hi. unfold page_ref_inc. run (get_page_struct_ok pa s). destruct (page_struct s pa) as [i|] eqn:Ei.
  - rewrite (stp_ok i _ s (Hi i eq_refl)). eexists. split; [reflexivity|].
    split; [exact (vm_ref own s root T i (u32 (ref_count (pg s i) + 1)) HV)|]. split; [done|]. split; [done|].
    intros x. change (refs (with_ref i (u32 (refs s i + 1)) s) x = if decide (Some i = Some x) then u32 (refs s x + 1) else refs s x).
    rewrite refs_with_ref. destruct (decide (x = i)) as [->|Hne]; [by rewrite decide_True|]. rewrite decide_False; [done|]. congruence.
  - exists s. split; [done|]. split; [done|]. split; [done|]. split; [done|]. done.
Qed.

(** Every descriptor index is within the array. *)
Lemma page_struct_range own s root T pa i : vm own s root T → 0 ≤ pa → page_struct s pa = Some i → 0 ≤ i < BUDDY_MAX_PAGES.
Proof.
  intros [[[fl HI] _ _] _ _] Hpa H. unfold page_struct in H. destruct (_ || _) eqn:E; [done|]. injection H as <-.
  apply orb_false_iff in E as [_ E%Z.leb_gt]. pose proof (iv_total _ _ _ HI). split; [|lia].
  unfold phys_to_pfn, phys_mem_base, PAGE_SIZE. destruct (Z.ltb_spec pa 0x100000); [lia|]. apply Z.div_pos; lia.
Qed.

(** ** The leaf entry *)
Lemma leaf_of_spec paddr flags :
  page_addr paddr → present (leaf_of paddr flags) = true ∧ addr_of (leaf_of paddr flags) = paddr ∧
    perm_of (leaf_of paddr flags) = perm_of flags.
Proof.
  intros Hp. assert (Z.ldiff paddr 4095 = paddr) as E.
  { apply Z.bits_inj'. intros i Hi. rewrite Z.ldiff_spec. change 4095 with (Z.ones 12). rewrite Z.testbit_ones_nonneg by lia.
    destruct (Z.ltb_spec i 12); [|by rewrite andb_true_r]. rewrite (page_addr_bits paddr Hp i) by lia. done. }
  set (g := Z.lor (Z.lor (Z.land flags 4095) PTE_PRESENT) (if has flags PTE_NX then PTE_NX else 0)).
  assert (leaf_of paddr flags = Z.lor paddr g) as ->.
  { unfold leaf_of, g. rewrite E, <- !Z.lor_assoc. destruct (has flags PTE_NX); [by rewrite !Z.lor_assoc|]. by rewrite !Z.lor_0_r. }
  assert (∀ i, 0 ≤ i → Z.testbit g i = (Z.testbit flags i && bool_decide (i < 12)) || bool_decide (i = 0) || (bool_decide (i = 63) && has flags PTE_NX)) as Hg.
  { intros i Hi. unfold g. rewrite !Z.lor_spec, Z.land_spec. change 4095 with (Z.ones 12). change PTE_PRESENT with (2 ^ 0).
    rewrite Z.testbit_ones_nonneg, Z.pow2_bits_eqb by lia. f_equal; [f_equal; [f_equal|]|].
    - destruct (Z.ltb_spec i 12); symmetry; [by apply bool_decide_eq_true_2|apply bool_decide_eq_false_2; lia].
    - destruct (Z.eqb_spec 0 i); symmetry; [apply bool_decide_eq_true_2; lia|apply bool_decide_eq_false_2; lia].
    - destruct (has flags PTE_NX); [|by rewrite Z.bits_0, andb_false_r]. unfold PTE_NX. rewrite Z.pow2_bits_eqb, andb_true_r by lia.
      destruct (Z.eqb_spec 63 i); symmetry; [apply bool_decide_eq_true_2; lia|apply bool_decide_eq_false_2; lia]. }
  split_and!.
  - rewrite present_bit, testbit_entry, Hg by (done || lia). rewrite (bool_decide_eq_true_2 (0 = 0)) by done. by rewrite orb_true_r.
  - apply addr_of_entry; [done|]. apply addr_of_bits. intros i Hi. rewrite Hg by lia.
    rewrite !bool_decide_eq_false_2 by lia. by rewrite andb_false_r.
  - unfold perm_of. f_equal.
    + rewrite !rw_bit, testbit_entry, Hg by (done || lia). by rewrite andb_true_r, !orb_false_r.
    + rewrite !user_bit, testbit_entry, Hg by (done || lia). by rewrite andb_true_r, !orb_false_r.
    + rewrite nx_bit, testbit_entry, Hg by (done || lia). by rewrite andb_false_r.
Qed.

Lemma set_leaf_spec own s root T va pt paddr flags :
  vm own s root T → frame_at (ram s) root va 3 = Some pt → page_addr paddr →
  (∀ x, translate (ram s) root va = Some x → single_page own s T (xl_frame x)) →
  ∃ own' s', set_leaf pt va paddr flags s = Some (tt, s') ∧ vm own' s' root T ∧
    (∀ va', ¬ same_page va va' → translate (ram s') root va' = translate (ram s) root va') ∧
    translate (ram s') root va = Some (mk_xlat paddr (meet (upper (ram s) root va) (perm_of flags))) ∧
    (∀ i, page_struct s paddr = Some i → (∀ x, translate (ram s) root va = Some x → page_struct s (xl_frame x) ≠ Some i) →
      refs s' i = u32 (refs s i + 1)) ∧
    (∀ x, ¬ (pt ≤ x < pt + PAGE_SIZE) → ram s' !! x = ram s !! x).
Proof.
  intros HV Hf Hp Hold. pose proof (vm_tables _ _ _ _ HV) as HT. pose proof (frame_at_table (ram s) root T HT va 3 pt ltac:(lia) Hf) as HTpt.
  unfold set_leaf. change (pt_index va) with (idx 3 va). run (ld_pte_ok pt (idx 3 va) s). set (e := pte (ram s) pt (idx 3 va)).
  assert (∃ own1 s1, (if present e then ref_replace (addr_of e) else ret tt) s = Some (tt, s1) ∧
    vm own1 s1 root T ∧ ram s1 = ram s ∧ total_phys_pages s1 = total_phys_pages s ∧
    ∀ i, (∀ x, translate (ram s) root va = Some x → page_struct s (xl_frame x) ≠ Some i) → page_struct s paddr = Some i → refs s1 i = refs s i) as (own1 & s1 & R1 & HV1 & Hram & Ht & Hrf).
  { pose proof (translate_leaf (ram s) root va pt Hf) as E. cbv zeta in E. fold e in E. destruct (present e) eqn:Ep.
    - destruct (ref_replace_spec own s root T (addr_of e) HV (addr_of_ok e)) as (own1 & s1 & R & []); [by apply (Hold _ E)|].
      exists own1, s1. split_and!; try done. intros i Hx Hpi. destruct (page_struct s (addr_of e)) as [k|] eqn:Ek.
      + specialize (Hx _ E). cbn [xl_frame] in Hx. destruct (page_struct_addr s _ k (addr_of_ok e) Ek) as [Ek' _].
        apply rl_refs0. congruence.
      + unfold ref_replace in R. rewrite (bind_Some _ _ _ _ _ (get_page_struct_ok (addr_of e) s)), Ek in R. by injection R as <-.
    - exists own, s. split_and!; done. }
  run R1. run (st_pte_ok pt (idx 3 va) (leaf_of paddr flags) s1). set (s2 := set_ram _ s1).
  destruct (same_but_store s1 root T pt 3%nat (idx 3 va) (leaf_of paddr flags) (vm_tables _ _ _ _ HV1) HTpt (idx_range 3 va)) as (B1 & B2 & _).
  assert (same_but (ram s) T pt (idx 3 va) (ram s2)) as HB by (intros g d j Hg Hj Hn; rewrite <- Hram; by eapply B1).
  assert (vm own1 s2 root T) as HV2.
  { constructor; [apply Buddy_ram, HV1|by eapply tables_leaf|apply HV1]. }
  destruct (leaf_of_spec paddr flags Hp) as (L1 & L2 & L3).
  destruct (page_ref_inc_spec own1 s2 root T (addr_of paddr) HV2) as (s3 & R3 & HV3 & Hram3 & Ht3 & Hrf3).
  { rewrite addr_of_page by done. intros i Hi. eapply page_struct_range; [exact HV2|apply Hp|exact Hi]. }
  exists own1, s3. split; [exact R3|]. split; [done|]. rewrite Hram3.
  assert (frame_at (ram s2) root va 3 = Some pt) as Hf2 by (rewrite (frame_at_above (ram s) root T HT (ram s2) pt (idx 3 va) 3 va) by (done || lia); done).
  split_and!.
  - intros va' Hne. destruct (idx_cases 3 va va' ltac:(lia)) as [Hk|Hk]; [|by destruct Hne; intros d Hd; apply Hk].
    eapply (translate_other (ram s) root T HT (ram s2) pt 3 va va'); [lia|done|done|done].
  - rewrite (translate_leaf (ram s2) root va pt Hf2). cbv zeta.
    assert (pte (ram s2) pt (idx 3 va) = leaf_of paddr flags) as -> by exact B2.
    assert (upper (ram s2) root va = upper (ram s) root va) as -> by (by eapply (perm_at_above (ram s) root T HT (ram s2) pt (idx 3 va) 3 va)). by rewrite L1, L2, L3.
  - intros i Hi Hx. rewrite Hrf3, (addr_of_page paddr Hp).
    assert (page_struct s2 paddr = page_struct s paddr) as -> by (unfold page_struct; change (total_phys_pages s2) with (total_phys_pages s1); by rewrite Ht).
    rewrite decide_True by done. change (refs s2 i) with (refs s1 i). by rewrite Hrf.
  - intros x Hx. cbn [ram s2 set_ram]. rewrite lookup_insert_ne; [by rewrite Hram|]. pose proof (idx_range 3 va). unfold PAGE_SIZE in Hx. lia.
Qed.

Lemma struct_flags_spec flags :
  addr_of (struct_flags_of flags) = 0 ∧ Z.testbit (struct_flags_of flags) 0 = true ∧ Z.testbit (struct_flags_of flags) 7 = false ∧
  perm_of (struct_flags_of flags) = mk_perm true (has flags PTE_USER) false.
Proof. unfold struct_flags_of. by destruct (has flags PTE_USER). Qed.
(** New tables grant what the leaf asks for. *)
Definition within (flags : Z) (p p' : perm) : Prop := p' = p ∨ p' = meet p (perm_of (struct_flags_of flags)).
Lemma within_trans flags p q r : within flags p q → within flags q r → within flags p r.
Proof. intros [-> | ->] [-> | ->]; [by left|by right|by right|right]. by rewrite <- meet_assoc, meet_idem. Qed.
Lemma within_leaf flags p q : within flags p q → meet q (perm_of flags) = meet p (perm_of flags).
Proof.
  destruct (struct_flags_spec flags) as (_ & _ & _ & E). intros [-> | ->]; [done|]. rewrite <- meet_assoc, E. f_equal.
  unfold meet, perm_of. cbn. by rewrite andb_diag.
Qed.

(** Above the page directory no entry is huge. *)
Lemma not_huge own s root T va d t :
  vm own s root T → (d < 2)%nat → frame_at (ram s) root va d = Some t →
  present (pte (ram s) t (idx d va)) = true → has (pte (ram s) t (idx d va)) PTE_PS = false.
Proof.
  intros HV Hd Hf Hp. pose proof (vm_tables _ _ _ _ HV) as HT.
  pose proof (frame_at_table (ram s) root T HT va d t ltac:(lia) Hf) as HTt.
  destruct (tb_child _ _ _ HT t d (idx d va) HTt ltac:(lia) (idx_range d va) Hp) as [(-> & _)|[H _]]; [lia|done].
Qed.
Lemma root_table own s root T : vm own s root T → table_ok root.
Proof. intros [_ HT _]. by destruct (tb_frame _ _ _ HT root 0%nat (tb_root _ _ _ HT)). Qed.
Lemma frame_table own s root T va d f : vm own s root T → (d ≤ 3)%nat → frame_at (ram s) root va d = Some f → table_ok f.
Proof.
  intros [_ HT _] Hd Hf. pose proof (frame_at_table (ram s) root T HT va d f Hd Hf) as H. by destruct (tb_frame _ _ _ HT f d H).
Qed.

Lemma next_pt_spec own s root T va pd flags :
  vm own s root T → frame_at (ram s) root va 2 = Some pd →
  (next_pt pd (idx 2 va) (struct_flags_of flags) s = Some (None, s) ∧ no_free own) ∨
  (∃ own' p s' T', next_pt pd (idx 2 va) (struct_flags_of flags) s = Some (Some p, s') ∧ vm_step own s own' s' root T T' ∧
     (∀ va', translate (ram s') root va' = seen (ram s) root va va') ∧ within flags (tables_for (ram s) root va) (upper (ram s') root va) ∧
     frame_at (ram s') root va 3 = Some p).
Proof.
  intros HV Hf. destruct (struct_flags_spec flags) as (F1 & F2 & F3 & _). unfold next_pt. run (ld_pte_ok pd (idx 2 va) s). unfold seen, tables_for, in_huge. rewrite Hf.
  destruct (present (pte (ram s) pd (idx 2 va)) && has (pte (ram s) pd (idx 2 va)) PTE_PS) eqn:E.
  - apply andb_prop in E as [Ep Eh]. destruct (split_huge_page_spec own s root T va pd HV Hf Ep Eh) as [?|(own' & p & s' & T' & R & VS & HX & Hup & Hf3 & _)]; [by left|right].
    exists own', p, s', T'. split_and!; try done. by left.
  - destruct (next_table_spec own s root T va 2 pd (struct_flags_of flags) HV ltac:(lia) Hf) as [?|(own' & p & s' & T' & R & VS & HX & Hup & _ & _ & Hf3)]; try done; [|by left|right; by exists own', p, s', T'].
    intros Hp. by rewrite Hp in E.
Qed.

(** Building the missing tables changes none of what is about to be seen. *)
Lemma seen_built m m2 root va flags :
  in_huge m2 root va = in_huge m root va → (in_huge m root va = true → m2 = m) →
  (∀ va', translate m2 root va' = translate m root va') → within flags (upper m root va) (upper m2 root va) →
  (∀ va', seen m2 root va va' = seen m root va va') ∧ within flags (tables_for m root va) (tables_for m2 root va).
Proof.
  intros I E X U. destruct (in_huge m root va) eqn:H; [by rewrite (E eq_refl); split; [|left]|].
  unfold seen, tables_for. by rewrite I, H.
Qed.
(** The way down to the leaf table: either the allocator is exhausted, and no
    translation changed, or the leaf table is there. *)
Lemma map_page_walk own s root T va paddr flags :
  vm own s root T →
  ∃ own' s' T', vm_step own s own' s' root T T' ∧
    ((map_page root va paddr flags s = Some (-1, s') ∧ no_free own' ∧ ∀ va', translate (ram s') root va' = translate (ram s) root va') ∨
     (∃ pt, frame_at (ram s') root va 3 = Some pt ∧ (∀ va', translate (ram s') root va' = seen (ram s) root va va') ∧
        within flags (tables_for (ram s) root va) (upper (ram s') root va) ∧
        ∀ k s3, set_leaf pt va paddr flags s' = Some (k, s3) → map_page root va paddr flags s = Some (0, s3))).
Proof.
  intros HV. destruct (struct_flags_spec flags) as (F1 & F2 & F3 & _). unfold map_page. cbv zeta.
  assert (∀ {B} pa s0 (k : Z → MM B), table_ok pa → bind (phys_to_virt pa) k s0 = k pa s0) as Hpv
    by (intros B pa s0 k Hpa; exact (bind_Some _ _ _ _ _ (phys_to_virt_ok pa s0 Hpa))).
  rewrite Hpv by (by eapply root_table).
  destruct (next_table_spec own s root T va 0 root (struct_flags_of flags) HV ltac:(lia) eq_refl) as [[R Hno]|(own1 & p1 & s1 & T1 & R & V1 & X1 & U1 & I1 & E1 & Hf1)]; try done.
  { eapply not_huge; [exact HV|lia|done]. }
  { exists own, s, T. split; [by apply vm_step_refl|]. left. split; [|done]. by run R. }
  change (pml4_index va) with (idx 0 va). run R. pose proof (vs_vm _ _ _ _ _ _ _ V1) as HV1.
  rewrite Hpv by (eapply frame_table; [exact HV1| |exact Hf1]; lia).
  destruct (next_table_spec own1 s1 root T1 va 1 p1 (struct_flags_of flags) HV1 ltac:(lia) Hf1) as [[R2 Hno]|(own2 & p2 & s2 & T2 & R2 & V2 & X2 & U2 & I2 & E2 & Hf2)]; try done.
  { eapply not_huge; [exact HV1|lia|done]. }
  { exists own1, s1, T1. split; [done|]. left. split; [|done]. by run R2. }
  change (pdpt_index va) with (idx 1 va). run R2. pose proof (vs_vm _ _ _ _ _ _ _ V2) as HV2.
  rewrite Hpv by (eapply frame_table; [exact HV2| |exact Hf2]; lia).
  pose proof (vm_step_trans _ _ _ _ _ _ _ _ _ _ V1 V2) as V12.
  assert (∀ va', translate (ram s2) root va' = translate (ram s) root va') as X12 by (intros va'; by rewrite X2).
  assert (within flags (upper (ram s) root va) (upper (ram s2) root va)) as U12 by (by eapply within_trans).
  assert (in_huge (ram s2) root va = in_huge (ram s) root va) as I12 by congruence.
  assert (in_huge (ram s) root va = true → ram s2 = ram s) as E12 by (intros E; rewrite E2, E1; congruence).
  destruct (next_pt_spec own2 s2 root T2 va p2 flags HV2 Hf2) as [[R3 Hno]|(own3 & p3 & s3 & T3 & R3 & V3 & X3 & U3 & Hf3)].
  { exists own2, s2, T2. split; [done|]. left. split; [|done]. by run R3. }
  change (pd_index va) with (idx 2 va). run R3. pose proof (vs_vm _ _ _ _ _ _ _ V3) as HV3.
  rewrite Hpv by (eapply frame_table; [exact HV3| |exact Hf3]; lia).
  exists own3, s3, T3. split; [by eapply vm_step_trans|]. right. exists p3. split; [done|]. destruct (seen_built (ram s) (ram s2) root va flags I12 E12 X12 U12) as [HS HU].
  split; [intros va'; by rewrite X3|]. split; [by eapply within_trans|]. intros k s4 R4. by run R4.
Qed.

Lemma single_page_step own s own' s' root T T' pa :
  vm_step own s own' s' root T T' → page_addr pa → single_page own s T pa → single_page own' s' T' pa.
Proof.
  intros [HV [G _] [_ HE] Ht _ _] Hpa Hs i Hi. assert (page_struct s pa = Some i) as Hi0.
  { unfold page_struct in *. by rewrite <- Ht. }
  destruct (Hs i Hi0) as [Ho HT]. assert (¬ is_free own i) as Hnf by (intros (b & q & E); congruence).
  split; [by rewrite (G i Hnf)|]. destruct (T' !! pa) as [d|] eqn:E; [|done].
  destruct (HE pa d E) as [E'|[_ Hf]]; [congruence|]. destruct (page_struct_addr s pa i Hpa Hi0) as [-> _]. done.
Qed.
Lemma page_struct_total s s' pa : total_phys_pages s' = total_phys_pages s → page_struct s' pa = page_struct s pa.
Proof. intros E. unfold page_struct. by rewrite E. Qed.

(** ** Reading a translation *)
Lemma walk_to_pd_ok own s root T va : vm own s root T → walk_to_pd root va s = Some (frame_at (ram s) root va 2, s).
Proof.
  intros HV. unfold walk_to_pd. run (phys_to_virt_ok root s (root_table _ _ _ _ HV)).
  run (ld_pte_ok root (pml4_index va) s). change (pml4_index va) with (idx 0 va). cbn [frame_at].
  destruct (present (pte (ram s) root (idx 0 va))) eqn:E0; cbn [negb]; [|unfold down; by rewrite E0].
  assert (has (pte (ram s) root (idx 0 va)) PTE_PS = false) as H0 by (eapply (not_huge own s root T va 0 root HV); [lia|done|done]).
  assert (down (pte (ram s) root (idx 0 va)) = true) as D0 by (unfold down; by rewrite E0, H0). rewrite D0.
  assert (frame_at (ram s) root va 1 = Some (addr_of (pte (ram s) root (idx 0 va)))) as Hf1 by (cbn [frame_at]; unfold down; by rewrite E0, H0).
  assert (table_ok (addr_of (pte (ram s) root (idx 0 va)))) as Hok by (eapply frame_table; [exact HV| |exact Hf1]; lia).
  rewrite (bind_Some _ _ _ _ _ (phys_to_virt_ok _ s Hok)). run (ld_pte_ok (addr_of (pte (ram s) root (idx 0 va))) (pdpt_index va) s).
  change (pdpt_index va) with (idx 1 va). set (p1 := addr_of (pte (ram s) root (idx 0 va))) in *. set (e := pte (ram s) p1 (idx 1 va)).
  destruct (present e) eqn:E1; cbn [negb]; [|unfold down; by rewrite E1].
  assert (has e PTE_PS = false) as H1 by (eapply (not_huge own s root T va 1 p1 HV); [lia|done|done]).
  assert (down e = true) as D1 by (unfold down; by rewrite E1, H1). fold p1. fold e. rewrite D1.
  assert (frame_at (ram s) root va 2 = Some (addr_of e)) as Hf2.
  { change (frame_at (ram s) root va 2) with (match frame_at (ram s) root va 1 with
      | Some f => if down (pte (ram s) f (idx 1 va)) then Some (addr_of (pte (ram s) f (idx 1 va))) else None | None => None end).
    rewrite Hf1. unfold down. fold e. by rewrite E1, H1. }
  assert (table_ok (addr_of e)) as Hok2 by (eapply frame_table; [exact HV| |exact Hf2]; lia).
  by rewrite (bind_Some _ _ _ _ _ (phys_to_virt_ok _ s Hok2)).
Qed.

(** A present entry of a page directory that is not huge leads to a leaf table. *)
Lemma leaf_table own s root T va pd :
  vm own s root T → frame_at (ram s) root va 2 = Some pd → present (pte (ram s) pd (idx 2 va)) = true →
  has (pte (ram s) pd (idx 2 va)) PTE_PS = false →
  frame_at (ram s) root va 3 = Some (addr_of (pte (ram s) pd (idx 2 va))) ∧ table_ok (addr_of (pte (ram s) pd (idx 2 va))).
Proof.
  intros HV Hf Hp Hh. assert (frame_at (ram s) root va 3 = Some (addr_of (pte (ram s) pd (idx 2 va)))) as Hf3.
  { change (frame_at (ram s) root va 3) with (match frame_at (ram s) root va 2 with
      | Some f => if down (pte (ram s) f (idx 2 va)) then Some (addr_of (pte (ram s) f (idx 2 va))) else None | None => None end).
    rewrite Hf. unfold down. by rewrite Hp, Hh. }
  split; [done|]. eapply frame_table; [exact HV| |exact Hf3]. lia.
Qed.

Lemma map_page_spec own s root T va paddr flags :
  vm own s root T → page_addr paddr →
  (∀ x, translate (ram s) root va = Some x → page_addr (xl_frame x) ∧ single_page own s T (xl_frame x)) →
  ∃ r own' s' T', map_page root va paddr flags s = Some (r, s') ∧ vm own' s' root T' ∧ extends own T T' ∧
    (∀ x, (∀ f d, T' !! f = Some d → ¬ (f ≤ x < f + PAGE_SIZE)) → ram s' !! x = ram s !! x) ∧
    ((r = 0 ∧ translate (ram s') root va = Some (mk_xlat paddr (meet (tables_for (ram s) root va) (perm_of flags))) ∧
      (∀ va', ¬ same_page va va' → translate (ram s') root va' = seen (ram s) root va va') ∧
      ∀ i, page_struct s paddr = Some i → ¬ is_free own i →
        (∀ x, translate (ram s) root va = Some x → page_struct s (xl_frame x) ≠ Some i) → refs s' i = u32 (refs s i + 1)) ∨
     (r = -1 ∧ no_free own' ∧ (∀ va', translate (ram s') root va' = translate (ram s) root va') ∧ vm_step own s own' s' root T T')).
Proof.
  intros HV Hp Hold. destruct (map_page_walk own s root T va paddr flags HV) as (own1 & s1 & T1 & VS & [(R & Hno & HX)|(pt & Hf & HX & HU & HR)]);
    pose proof VS as [HV1 HG HE Ht Hrf Hw].
  - exists (-1), own1, s1, T1. split; [done|]. split; [done|]. split; [done|]. split; [done|]. by right.
  - destruct (set_leaf_spec own1 s1 root T1 va pt paddr flags HV1 Hf Hp) as (own2 & s2 & R & HV2 & Ho & Hva & Hi & Hw2).
    { intros x Hx. rewrite HX in Hx. destruct (seen_frame _ _ _ _ _ Hx) as (y & Hy & ->). destruct (Hold y Hy) as [Hpx Hsx]. by eapply single_page_step. }
    exists 0, own2, s2, T1. split; [by eapply HR|]. split; [done|]. split; [done|].
    split. { intros x Hx. rewrite Hw2; [by apply Hw|]. apply (Hx pt 3%nat). eapply frame_at_table; [apply HV1|lia|exact Hf]. }
    left. split; [done|]. split; [by rewrite Hva, (within_leaf flags _ _ HU)|]. split; [intros va' Hne; by rewrite Ho, HX|].
    intros i Hpi Hnf Hx. rewrite Hi, (Hrf i Hnf); [done| |].
    + by rewrite (page_struct_total s s1).
    + intros x Hxx. rewrite (page_struct_total s s1 _ Ht). rewrite HX in Hxx. destruct (seen_frame _ _ _ _ _ Hxx) as (y & Hy & ->). by apply Hx.
Qed.

(** Addresses of one page translate alike. *)
Lemma perm_at_page m root va va' d : (d ≤ 4)%nat → same_page va va' → perm_at m root va d = perm_at m root va' d.
Proof.
  intros Hd H. apply perm_at_walk; [intros k Hk; apply H; lia|]. intros k Hk. split; [apply frame_at_prefix; intros n Hn; apply H; lia|].
  done.
Qed.
Lemma translate_page m root va va' : same_page va va' → translate m root va = translate m root va'.
Proof.
  intros H. unfold translate. rewrite (frame_at_prefix m root va va' 2) by (intros k Hk; apply H; lia).
  by rewrite (H 2%nat), (H 3%nat), !(perm_at_page m root va va') by (done || lia).
Qed.
Lemma in_huge_page m root va va' : same_page va va' → in_huge m root va = in_huge m root va'.
Proof.
  intros H. unfold in_huge. rewrite (frame_at_prefix m root va va' 2) by (intros k Hk; apply H; lia). by rewrite (H 2%nat) by lia.
Qed.
Lemma page_base_same va : same_page (Z.ldiff va 0xFFF) va.
Proof.
  intros d Hd. unfold idx. f_equal. apply Z.bits_inj'. intros i Hi. rewrite !Z.shiftr_spec, Z.ldiff_spec by done.
  change 4095 with (Z.ones 12). rewrite Z.testbit_ones_nonneg by lia. destruct (Z.ltb_spec (i + (39 - 9 * Z.of_nat d)) 12); [lia|].
  by rewrite andb_true_r.
Qed.
Lemma same_page_sym va va' : same_page va va' → same_page va' va.
Proof. intros H d Hd. by rewrite H. Qed.
Lemma same_page_trans va va' va'' : same_page va va' → same_page va' va'' → same_page va va''.
Proof. intros H H' d Hd. by rewrite H, H'. Qed.
#[export] Instance same_page_dec va va' : Decision (same_page va va').
Proof.
  refine (cast_if (decide (Forall (λ d, idx d va = idx d va') (seq 0 4)))).
  - abstract (intros d Hd; rewrite Forall_forall in f; apply f, elem_of_seq; lia).
  - abstract (intros H; apply n, Forall_forall; intros d Hd%elem_of_seq; apply H; lia).
Defined.

(** ** An address space to compute with

    Four tables and a page below the first managed megabyte, on the booted
    allocator; [low_va] is mapped read-only for the user. *)
Definition low_T : gmap Z nat := {[0x1000 := 0%nat; 0x2000 := 1%nat; 0x3000 := 2%nat; 0x4000 := 3%nat]}.
Definition low_ram : gmap Z Z := {[0x1008 := 0x2007; 0x2000 := 0x3007; 0x3000 := 0x4007; 0x4028 := 0x6005]}.
Definition low_va : Z := 2 ^ 39 + 0x5000.

Lemma low_table f d : low_T !! f = Some d →
  (f = 0x1000 ∧ d = 0%nat) ∨ (f = 0x2000 ∧ d = 1%nat) ∨ (f = 0x3000 ∧ d = 2%nat) ∨ (f = 0x4000 ∧ d = 3%nat).
Proof.
  unfold low_T. intros H. rewrite !lookup_insert_Some, lookup_singleton_Some in H.
  destruct H as [[<- <-]|[_ [[<- <-]|[_ [[<- <-]|[_ [<- <-]]]]]]]; tauto.
Qed.
Lemma low_entry f d i : low_T !! f = Some d → (d < 3)%nat → 0 ≤ i < 512 → present (pte low_ram f i) = true →
  (f = 0x1000 ∧ i = 1 ∧ pte low_ram f i = 0x2007) ∨ (f = 0x2000 ∧ i = 0 ∧ pte low_ram f i = 0x3007) ∨
  (f = 0x3000 ∧ i = 0 ∧ pte low_ram f i = 0x4007).
Proof.
  intros Hf%low_table Hd Hi Hp. unfold pte in Hp |- *.
  destruct (low_ram !! (f + 8 * i)) as [v|] eqn:E; [|done]. unfold low_ram in E.
  rewrite !lookup_insert_Some, lookup_singleton_Some in E. change (default 0 (Some v)) with v.
  destruct E as [[E <-]|[_ [[E <-]|[_ [[E <-]|[_ [E <-]]]]]]]; lia.
Qed.
Lemma vm_low : ∃ own s, vm own s 0x1000 low_T ∧ ram s = low_ram ∧ total_phys_pages s = 16384 ∧ is_free own 512 ∧
  translate (ram s) 0x1000 low_va = Some (mk_xlat 0x6000 (mk_perm false true false)).
Proof.
  destruct boot_state as (own & s & _ & HB & H512 & _ & Ht & _). exists own, (set_ram low_ram s).
  split; [|split; [done|split; [done|split; [done|vm_compute; reflexivity]]]]. constructor; [by apply Buddy_ram|constructor|].
  - done.
  - intros f d Hf%low_table. assert (KERNEL_PHYS_MAX = 0x40000000) as HK by done.
    destruct Hf as [[-> ->]|[[-> ->]|[[-> ->]|[-> ->]]]]; (split; [lia|split; [done|lia]]).
  - intros f d i Hf Hd Hi Hp. change (ram (set_ram low_ram s)) with low_ram in *.
    pose proof (low_table f d Hf) as Hf'. destruct (low_entry f d i Hf Hd Hi Hp) as [(-> & -> & ->)|[(-> & -> & ->)|(-> & -> & ->)]];
      (right; split; [done|]); (assert (d = 0 ∨ d = 1 ∨ d = 2)%nat as [-> |[-> | ->]] by lia); try done; exfalso; lia.
  - intros f f' d d' i i' Hf Hf' Hd Hd' Hi Hi' [Hp _]%andb_prop [Hp' _]%andb_prop. change (ram (set_ram low_ram s)) with low_ram in *.
    destruct (low_entry f d i Hf Hd Hi Hp) as [(-> & -> & ->)|[(-> & -> & ->)|(-> & -> & ->)]];
      destruct (low_entry f' d' i' Hf' Hd' Hi' Hp') as [(-> & -> & ->)|[(-> & -> & ->)|(-> & -> & ->)]]; done.
  - intros f d Hf%low_table. left. unfold phys_mem_base. lia.
Qed.
(** Its page has no descriptor. *)
Lemma low_single own s : total_phys_pages s = 16384 → single_page own s low_T 0x6000.
Proof. intros Ht i Hi. unfold page_struct in Hi. rewrite Ht in Hi. done. Qed.

(** ** Theorems *)



(** [unmap_page] always returns; the address no longer translates, unless it
    lies in a 2 MiB page, which is left alone, and every address of another
    page translates as before.  Nothing is freed. *)
Theorem unmap_page_correct own s root T va :
  vm own s root T →
  ∃ s', unmap_page root va s = Some (tt, s') ∧ vm own s' root T ∧
    (if in_huge (ram s) root va then s' = s else translate (ram s') root va = None) ∧
    (∀ va', ¬ same_page va va' → translate (ram s') root va' = translate (ram s) root va') ∧
    page_array s' = page_array s.
Proof.
  intros HV. unfold unmap_page. run (walk_to_pd_ok own s root T va HV). unfold in_huge.
  destruct (frame_at (ram s) root va 2) as [pd|] eqn:Ef.
  2: { exists s. split_and!; try done. unfold translate. by rewrite Ef. }
  run (ld_pte_ok pd (pd_index va) s). change (pd_index va) with (idx 2 va).
  destruct (present (pte (ram s) pd (idx 2 va))) eqn:Ep; cbn [negb andb].
  2: { exists s. split_and!; try done. apply (translate_stop _ _ _ 2 pd); [lia|done|done]. }
  destruct (has (pte (ram s) pd (idx 2 va)) PTE_PS) eqn:Eh; [by exists s|].
  destruct (leaf_table own s root T va pd HV Ef Ep Eh) as [Ef3 Hok]. set (pt := addr_of _) in *.
  run (phys_to_virt_ok pt s Hok). run (ld_pte_ok pt (pt_index va) s). change (pt_index va) with (idx 3 va).
  destruct (present (pte (ram s) pt (idx 3 va))) eqn:Ep3; cbn [negb].
  2: { exists s. split_and!; try done. rewrite (translate_leaf _ _ _ pt Ef3). cbv zeta. by rewrite Ep3. }
  pose proof (vm_tables _ _ _ _ HV) as HT. pose proof (frame_at_table (ram s) root T HT va 3 pt ltac:(lia) Ef3) as HTpt.
  rewrite st_pte_ok. set (s' := set_ram _ s). exists s'.
  destruct (same_but_store s root T pt 3%nat (idx 3 va) 0 HT HTpt (idx_range 3 va)) as (B1 & B2 & _).
  split; [done|]. split; [constructor; [apply Buddy_ram, HV|by eapply tables_leaf|apply HV]|]. split_and!; [|intros va' Hne|done].
  - assert (frame_at (ram s') root va 3 = Some pt) as Hf3' by (rewrite (frame_at_above (ram s) root T HT (ram s') pt (idx 3 va) 3 va) by (done || lia); done).
    rewrite (translate_leaf _ _ _ pt Hf3'). cbv zeta. assert (pte (ram s') pt (idx 3 va) = 0) as -> by exact B2. done.
  - destruct (idx_cases 3 va va' ltac:(lia)) as [Hk|Hk]; [|by destruct Hne; intros d Hd; apply Hk].
    eapply (translate_other (ram s) root T HT (ram s') pt 3 va va'); [lia|done|done|done].
Qed.

Lemma unmap_page_correct_witness :
  ∃ own s s', vm own s 0x1000 low_T ∧ unmap_page 0x1000 low_va s = Some (tt, s') ∧ translate (ram s') 0x1000 low_va = None.
Proof.
  destruct vm_low as (own & s & HV & Hram & Ht & _ & Hx).
  destruct (unmap_page_correct own s 0x1000 low_T low_va HV) as (s' & R & _ & Hh & _).
  exists own, s, s'. split; [exact HV|]. split; [exact R|]. rewrite Hram in Hh. exact Hh.
Defined.

(** [user_page_present] is equivalent to translation: it holds exactly of
    the addresses up to [USER_MAX] that translate, supervisor pages (such as
    the identity mapping of the kernel below 1 GiB) included. *)
Theorem user_page_present_equiv own s root T va :
  vm own s root T →
  user_page_present root va s = Some (bool_decide (va ≤ USER_MAX ∧ is_Some (translate (ram s) root va)), s).
Proof.
  intros HV. unfold user_page_present. destruct (Z.ltb_spec USER_MAX va) as [Hva|Hva].
  { rewrite bool_decide_eq_false_2; [done|]. lia. }
  run (walk_to_pd_ok own s root T va HV).
  assert (∀ b, (b = true ↔ is_Some (translate (ram s) root va)) →
    Some (b, s) = Some (bool_decide (va ≤ USER_MAX ∧ is_Some (translate (ram s) root va)), s)) as Hb.
  { intros b H. do 2 f_equal. destruct b; symmetry; [apply bool_decide_eq_true_2; tauto|apply bool_decide_eq_false_2]. intros [_ Hs]. by apply H in Hs. }
  destruct (frame_at (ram s) root va 2) as [pd|] eqn:Ef.
  2: { apply Hb. unfold translate. rewrite Ef. split; [done|by intros []]. }
  run (ld_pte_ok pd (pd_index va) s). change (pd_index va) with (idx 2 va).
  destruct (present (pte (ram s) pd (idx 2 va))) eqn:Ep; cbn [negb].
  2: { apply Hb. rewrite (translate_stop _ _ _ 2 pd) by (lia || done). split; [done|by intros []]. }
  destruct (has (pte (ram s) pd (idx 2 va)) PTE_PS) eqn:Eh.
  { apply Hb. rewrite (translate_huge _ _ _ pd) by done. split; [by eexists|done]. }
  destruct (leaf_table own s root T va pd HV Ef Ep Eh) as [Ef3 Hok]. set (pt := addr_of _) in *.
  run (phys_to_virt_ok pt s Hok). run (ld_pte_ok pt (pt_index va) s). change (pt_index va) with (idx 3 va).
  apply Hb. rewrite (translate_leaf _ _ _ pt Ef3). cbv zeta.
  by destruct (present (pte (ram s) pt (idx 3 va))).
Qed.

Lemma user_page_present_equiv_witness : ∃ own s, vm own s 0x1000 low_T ∧ user_page_present 0x1000 low_va s = Some (true, s).
Proof.
  destruct vm_low as (own & s & HV & Hram & Ht & _ & Hx). exists own, s. split; [exact HV|].
  rewrite (user_page_present_equiv own s 0x1000 low_T low_va HV), Hram. vm_compute. reflexivity.
Defined.

(** ** Page faults: copy-on-write, lazy allocation, and what the tables lack *)
(** ** Copying a page *)
Lemma copy_page_spec s dst src :
  table_ok dst → page_addr src → dst ≠ src →
  ∃ r, copy_page dst src s = Some (tt, set_ram r s) ∧
    (∀ j, 0 ≤ j < 512 → pte r dst j = pte (ram s) src j) ∧ (∀ x, ¬ (dst ≤ x < dst + PAGE_SIZE) → r !! x = ram s !! x).
Proof.
  intros Hd Hs Hne. unfold copy_page.
  assert (∀ r j, 0 ≤ j < 512 → (∀ x, ¬ (dst ≤ x < dst + PAGE_SIZE) → r !! x = ram s !! x) → pte r src j = pte (ram s) src j) as Hsrc.
  { intros r j Hj Hr. unfold pte. rewrite Hr; [done|]. unfold PAGE_SIZE. destruct Hd as [Hd _], Hs as [_ Hs].
    apply Z.mod_divide in Hd as [k ->]; [|done]. apply Z.mod_divide in Hs as [k' ->]; [|done]. lia. }
  destruct (for_range_ind (λ i, e <- ld_pte src i ;; st_pte dst i e)
    (λ j s', ∃ r, s' = set_ram r s ∧ (∀ k, 0 ≤ k < j → pte r dst k = pte (ram s) src k) ∧ (∀ x, ¬ (dst ≤ x < dst + PAGE_SIZE) → r !! x = ram s !! x))
    512 0 s) as (s' & R & r & -> & H1 & H2).
  - exists (ram s). split; [by destruct s|]. split; [lia|done].
  - intros j s' Hj (r & -> & H1 & H2). eexists. split; [reflexivity|].
    exists (<[dst + 8 * j := pte r src j]> r). split; [done|]. split.
    + intros k Hk. unfold pte at 1. destruct (decide (k = j)) as [->|Hkj]; [rewrite lookup_insert_eq; by apply Hsrc|].
      rewrite lookup_insert_ne by lia. apply H1. lia.
    + intros x Hx. rewrite lookup_insert_ne; [by apply H2|]. unfold PAGE_SIZE in *. lia.
  - exists r. split; [exact R|]. split; [intros j Hj; apply H1; lia|done].
Qed.

(** The count the handler sees: zero for a frame without descriptor. *)
Definition shared (s : mm) (pa : Z) : Z := match page_struct s pa with Some i => refs s i | None => 0 end.
Lemma page_ref_get_ok own s root T pa : vm own s root T → 0 ≤ pa → page_ref_get pa s = Some (shared s pa, s).
Proof.
  intros HV Hpa. unfold page_ref_get. run (get_page_struct_ok pa s). unfold shared.
  destruct (page_struct s pa) as [i|] eqn:Ei; [|done]. apply ldp_ok. by eapply page_struct_range.
Qed.

(** Giving up one of several references only lowers the count. *)
Lemma ref_release_spec own s root T pa i :
  vm own s root T → page_addr pa → page_struct s pa = Some i → 2 ≤ refs s i < 2 ^ 32 →
  ref_release pa s = Some (tt, with_ref i (refs s i - 1) s).
Proof.
  intros HV Hpa Hi Hr. unfold ref_release. run (get_page_struct_ok pa s). rewrite Hi.
  assert (0 ≤ i < BUDDY_MAX_PAGES) as Hir by (eapply page_struct_range; [exact HV|apply Hpa|exact Hi]).
  run (ldp_ok ref_count i s Hir). run (stp_ref_ok s i (u32 (ref_count (pg s i) - 1)) Hir).
  change (ref_count (pg s i)) with (refs s i). assert (u32 (refs s i - 1) = refs s i - 1) as -> by (apply Z.mod_small; lia).
  rewrite (proj2 (Z.eqb_neq _ _)) by lia. done.
Qed.

(** The new entry of a copied page. *)
Lemma cow_entry_spec p e :
  page_addr p → let e' := Z.lor (addr_of p) (Z.lor (Z.lor (Z.land e (Z.lor PTE_USER PTE_NX)) PTE_PRESENT) PTE_RW) in
  present e' = true ∧ addr_of e' = p ∧ perm_of e' = mk_perm true (has e PTE_USER) (has e PTE_NX).
Proof.
  intros Hp. cbv zeta. rewrite (addr_of_page p Hp). split_and!.
  - rewrite present_bit, testbit_entry, !Z.lor_spec by (done || lia). by rewrite orb_true_r.
  - apply addr_of_entry; [done|]. apply addr_of_bits. intros i Hi. rewrite !Z.lor_spec, Z.land_spec, Z.lor_spec.
    change PTE_PRESENT with (2 ^ 0). change PTE_RW with (2 ^ 1). change PTE_USER with (2 ^ 2). unfold PTE_NX.
    rewrite !Z.pow2_bits_false by lia. by rewrite andb_false_r.
  - unfold perm_of. f_equal.
    + rewrite rw_bit, testbit_entry, !Z.lor_spec by (done || lia). by rewrite orb_true_r.
    + rewrite !user_bit, testbit_entry, !Z.lor_spec, Z.land_spec by (done || lia). by rewrite andb_true_r, !orb_false_r.
    + rewrite !nx_bit, testbit_entry, !Z.lor_spec, Z.land_spec by (done || lia). by rewrite andb_true_r, !orb_false_r.
Qed.
Lemma rw_entry_spec e :
  let e' := Z.lor e PTE_RW in
  present e' = present e ∧ addr_of e' = addr_of e ∧ perm_of e' = mk_perm true (has e PTE_USER) (has e PTE_NX).
Proof.
  cbv zeta. split_and!.
  - rewrite !present_bit, Z.lor_spec. apply orb_false_r.
  - by rewrite addr_of_lor, Z.lor_0_r.
  - unfold perm_of. f_equal.
    + rewrite rw_bit, Z.lor_spec. apply orb_true_r.
    + rewrite !user_bit, Z.lor_spec. apply orb_false_r.
    + rewrite !nx_bit, Z.lor_spec. apply orb_false_r.
Qed.
(** A page made writable in its leaf entry. *)
Definition writable (up p : perm) : perm := mk_perm (p_rw up) (p_user p) (p_nx p).
Lemma meet_writable up e : meet up (mk_perm true (has e PTE_USER) (has e PTE_NX)) = writable up (meet up (perm_of e)).
Proof. unfold meet, writable, perm_of. cbn. by rewrite andb_true_r. Qed.

(** Storing an entry of the leaf table that maps [va]. *)
Lemma store_leaf_spec own s root T va pt v :
  vm own s root T → frame_at (ram s) root va 3 = Some pt → present v = true →
  ∃ s', st_pte pt (idx 3 va) v s = Some (tt, s') ∧ vm own s' root T ∧
    translate (ram s') root va = Some (mk_xlat (addr_of v) (meet (upper (ram s) root va) (perm_of v))) ∧
    (∀ va', ¬ same_page va va' → translate (ram s') root va' = translate (ram s) root va') ∧
    page_array s' = page_array s ∧ total_phys_pages s' = total_phys_pages s ∧
    (∀ x, ¬ (pt ≤ x < pt + PAGE_SIZE) → ram s' !! x = ram s !! x).
Proof.
  intros HV Hf Hv. pose proof (vm_tables _ _ _ _ HV) as HT. pose proof (frame_at_table (ram s) root T HT va 3 pt ltac:(lia) Hf) as HTpt.
  rewrite st_pte_ok. set (s' := set_ram _ s). exists s'.
  destruct (same_but_store s root T pt 3%nat (idx 3 va) v HT HTpt (idx_range 3 va)) as (B1 & B2 & _).
  split; [done|]. split; [constructor; [apply Buddy_ram, HV|by eapply tables_leaf|apply HV]|].
  assert (frame_at (ram s') root va 3 = Some pt) as Hf3' by (rewrite (frame_at_above (ram s) root T HT (ram s') pt (idx 3 va) 3 va) by (done || lia); done).
  split_and!; try done.
  - rewrite (translate_leaf _ _ _ pt Hf3'). cbv zeta. assert (pte (ram s') pt (idx 3 va) = v) as -> by exact B2. rewrite Hv.
    assert (upper (ram s') root va = upper (ram s) root va) as -> by (by eapply (perm_at_above (ram s) root T HT (ram s') pt (idx 3 va) 3 va)). done.
  - intros va' Hne. destruct (idx_cases 3 va va' ltac:(lia)) as [Hk|Hk]; [|by destruct Hne; intros d Hd; apply Hk].
    eapply (translate_other (ram s) root T HT (ram s') pt 3 va va'); [lia|done|done|done].
  - intros x Hx. cbn [ram s' set_ram]. rewrite lookup_insert_ne; [done|]. pose proof (idx_range 3 va). unfold PAGE_SIZE in Hx. lia.
Qed.

(** Writing a page that is no table. *)
Lemma vm_write own s root T p r :
  vm own s root T → table_ok p → T !! p = None → (∀ x, ¬ (p ≤ x < p + PAGE_SIZE) → r !! x = ram s !! x) →
  vm own (set_ram r s) root T ∧ same_tables (ram s) T r.
Proof.
  intros HV Hp HTp Hr. assert (same_tables (ram s) T r) as HS.
  { intros g d j Hg Hj. destruct (tb_frame _ _ _ (vm_tables _ _ _ _ HV) g d Hg) as [_ Hgo]. unfold pte. rewrite Hr; [done|].
    intros Hin. assert (p = g) as -> by (by eapply slot_in). congruence. }
  split; [|done]. constructor; [apply Buddy_ram, HV|eapply tables_same; [apply HV|done]|apply HV].
Qed.

(** A page just allocated, in the address space. *)
Lemma vm_alloc own s root T own' s' p :
  vm own s root T → Buddy own' s' → grows own own' → table_ok p → T !! p = None →
  (∀ x, ram s' !! x = if decide (p ≤ x < p + PAGE_SIZE) then None else ram s !! x) →
  vm own' s' root T ∧ same_tables (ram s) T (ram s').
Proof.
  intros HV HB [_ HG] Hp HTp Hr. destruct (same_tables_zero s s' root T p (vm_tables _ _ _ _ HV) Hp HTp Hr) as [HS _].
  split; [|done]. constructor; [done|eapply tables_same; [apply HV|done]|].
  intros f d Hf. destruct (vm_owned _ _ _ _ HV f d Hf) as [?|Hx]; [by left|right]. intros Hy. by apply Hx, HG.
Qed.

Lemma pte_outside r m p f j :
  table_ok p → page_addr f → f ≠ p → 0 ≤ j < 512 → (∀ x, ¬ (p ≤ x < p + PAGE_SIZE) → r !! x = m !! x) → pte r f j = pte m f j.
Proof.
  intros [Hp _] [_ Hf] Hne Hj Hr. unfold pte. rewrite Hr; [done|]. unfold PAGE_SIZE.
  apply Z.mod_divide in Hp as [k ->]; [|done]. apply Z.mod_divide in Hf as [k' ->]; [|done]. lia.
Qed.

(** The supervisor's copy reads the page the address translates to. *)
Lemma copy_from_ok s root va smap dst x :
  translate (ram s) root va = Some x →
  copy_from_address smap dst root (Z.ldiff va 0xFFF) s =
    (if smap && p_user (xl_perm x) then Some (Some Stuck, s) else (copy_page dst (xl_frame x) ;;; ret None) s).
Proof.
  intros Hx. unfold copy_from_address. rewrite bind_gets, (translate_page _ _ _ va (page_base_same va)), Hx. by destruct (_ && _).
Qed.
(** The copying branch of the handler. *)
Lemma cow_copy_spec own s root T va pt e i smap c :
  vm own s root T → frame_at (ram s) root va 3 = Some pt → e = pte (ram s) pt (idx 3 va) → present e = true →
  page_struct s (addr_of e) = Some i → own i = Some (i, 0, false) → T !! addr_of e = None → 2 ≤ refs s i < 2 ^ 32 →
  let q := meet (upper (ram s) root va) (perm_of e) in
  (cow_fault smap (Some c) root va pt e s = Some (Segv, s) ∧ no_free own) ∨
  (∃ own' s' r p, cow_fault smap (Some c) root va pt e s = Some (r, s') ∧ vm own' s' root T ∧ grows own own' ∧
     is_free own (phys_to_pfn p) ∧ own' (phys_to_pfn p) = Some (phys_to_pfn p, 0, false) ∧
     (∀ va', ¬ same_page va va' → translate (ram s') root va' = translate (ram s) root va') ∧
     refs s' (phys_to_pfn p) = 1 ∧ total_phys_pages s' = total_phys_pages s ∧
     (if smap && p_user q then r = Stuck ∧ translate (ram s') root va = translate (ram s) root va ∧ refs s' i = refs s i
      else r = Resolved ∧ translate (ram s') root va = Some (mk_xlat p (writable (upper (ram s) root va) q)) ∧
        (∀ j, 0 ≤ j < 512 → pte (ram s') p j = pte (ram s) (addr_of e) j ∧ pte (ram s') (addr_of e) j = pte (ram s) (addr_of e) j) ∧
        refs s' i = refs s i - 1)).
Proof.
  intros HV Hf He Hp Hi Ho HTe Hr q. pose proof (addr_of_ok e) as Hae. set (f := addr_of e) in *.
  destruct (page_struct_addr s f i Hae Hi) as [Ei Ef]. unfold cow_fault.
  run (page_ref_get_ok own s root T (addr_of e) HV (proj1 (proj1 Hae))). unfold shared. fold f. rewrite Hi.
  rewrite (proj2 (Z.leb_gt _ _)) by lia. pose proof (vm_tables _ _ _ _ HV) as HT.
  pose proof (frame_at_table (ram s) root T HT va 3 pt ltac:(lia) Hf) as HTpt. destruct (tb_frame _ _ _ HT pt 3%nat HTpt) as [_ Hpt].
  destruct (alloc_page_table own s root T HV) as [[R Hno]|(own' & p & s1 & R & HB & HG & Hpo & Hlo & HTp & Hfr & Hop & Hr1 & Ht & Href & Hrf)];
    [left; by run R|right]. run R.
  assert (f ≠ p) as Hfp by (intros E; rewrite E in Ei; rewrite <- Ei in Hfr; destruct Hfr as (b & u & X); congruence).
  assert (p ≠ pt) as Hppt by (intros ->; congruence). assert (f ≠ pt) as Hfpt by (intros ->; congruence).
  assert (i ≠ phys_to_pfn p) as Hip by (intros E; rewrite E in Ho; destruct Hfr as (b & u & X); congruence).
  destruct (vm_alloc own s root T own' s1 p HV HB HG Hpo HTp Hr1) as [HV1 HS1].
  assert (∀ va', translate (ram s1) root va' = translate (ram s) root va') as HX1 by (intros va'; by apply (translate_same (ram s) root T HT)).
  assert (translate (ram s1) root va = Some (mk_xlat f q)) as Hx1.
  { rewrite HX1, (translate_leaf _ _ _ pt Hf). cbv zeta. by rewrite <- He, Hp. }
  rewrite <- (Hrf i Hip). unfold bind at 1. rewrite (copy_from_ok s1 root va smap p _ Hx1). cbn [xl_perm xl_frame].
  destruct (smap && p_user q).
  { exists own', s1, Stuck, p. by split_and!. }
  destruct (copy_page_spec s1 p f Hpo Hae (not_eq_sym Hfp)) as (r & Rc & Hc1 & Hc2).
  rewrite (bind_Some _ _ _ _ _ Rc). cbn [ret].
  destruct (vm_write own' s1 root T p r HV1 Hpo HTp Hc2) as [HV2 HS2]. set (s2 := set_ram r s1) in *.
  assert (page_struct s2 f = Some i) as Hi2 by (unfold page_struct in *; change (total_phys_pages s2) with (total_phys_pages s1); by rewrite Ht).
  assert (refs s2 i = refs s i) as Hri by (by apply Hrf).
  assert (2 ≤ refs s2 i < 2 ^ 32) as Hr2 by (by rewrite Hri).
  run (ref_release_spec own' s2 root T f i HV2 Hae Hi2 Hr2). set (s3 := with_ref i (refs s2 i - 1) s2).
  pose proof (vm_ref own' s2 root T i (refs s2 i - 1) HV2) as HV3. fold s3 in HV3.
  assert (same_tables (ram s) T (ram s3)) as HS3.
  { intros g d j Hg Hj. change (ram s3) with r. rewrite (HS2 g d j) by done. by eapply HS1. }
  assert (frame_at (ram s3) root va 3 = Some pt ∧ upper (ram s3) root va = upper (ram s) root va) as [Hf3 Hu3].
  { split; [destruct (frame_at_same (ram s) root T HT (ram s3) va HS3 3 ltac:(lia)) as [E3 _]; by rewrite E3|].
    apply perm_at_walk; [done|]. intros k Hk. apply (frame_at_same (ram s) root T HT (ram s3) va HS3). lia. }
  pose proof (table_page p Hpo) as Hpp. destruct (cow_entry_spec p e Hpp) as (C1 & C2 & C3).
  destruct (store_leaf_spec own' s3 root T va pt _ HV3 Hf3 C1) as (s4 & R4 & HV4 & Hx & Hoth & Hpa & Ht4 & Hw).
  change (pt_index va) with (idx 3 va). run R4.
  assert (∀ x, refs s4 x = refs s3 x) as Hr4 by (intros x; unfold refs, pg; by rewrite Hpa).
  exists own', s4, Resolved, p. split; [done|]. split; [done|]. split; [done|]. split; [done|]. split; [done|]. split.
  { intros va' Hne. rewrite Hoth by done. by apply (translate_same (ram s) root T HT). }
  split; [rewrite Hr4; unfold s3; rewrite refs_with_ref, decide_False by congruence; exact Href|].
  split; [rewrite Ht4; exact Ht|]. split; [done|]. split; [by rewrite Hx, C2, C3, Hu3, meet_writable|]. split.
  - intros j Hj. assert (∀ x, ¬ (p ≤ x < p + PAGE_SIZE) → ram s1 !! x = ram s !! x) as Hout1 by (intros y Hy; by rewrite Hr1, decide_False).
    pose proof (pte_outside (ram s1) (ram s) p f j Hpo Hae Hfp Hj Hout1) as E1.
    pose proof (pte_outside r (ram s1) p f j Hpo Hae Hfp Hj Hc2) as E2.
    rewrite (pte_outside (ram s4) r pt p j Hpt Hpp Hppt Hj Hw), (pte_outside (ram s4) r pt f j Hpt Hae Hfpt Hj Hw).
    split; [exact (eq_trans (Hc1 j Hj) E1)|exact (eq_trans E2 E1)].
  - rewrite Hr4. unfold s3. rewrite refs_with_ref, decide_True by done. by rewrite Hri, (Hrf i Hip).
Qed.

(** What a write fault makes of a page that translates to [x] below tables that
    grant [u]: made writable in place, SIGSEGV for want of a page, an endless
    loop, or replaced by a copy. *)
Definition cow_outcome (smap : bool) (own : ownership) (s : mm) (root va : Z) (u : perm) (x : xlat)
    (r : fault_result) (own' : ownership) (s' : mm) : Prop :=
  let f := xl_frame x in
  (shared s f ≤ 1 ∧ r = Resolved ∧ translate (ram s') root va = Some (mk_xlat f (writable u (xl_perm x))) ∧ shared s' f = shared s f) ∨
  (1 < shared s f ∧ r = Segv ∧ no_free own' ∧ translate (ram s') root va = Some x ∧ shared s' f = shared s f) ∨
  (1 < shared s f ∧ ∃ p, is_free own (phys_to_pfn p) ∧ own' (phys_to_pfn p) = Some (phys_to_pfn p, 0, false) ∧ refs s' (phys_to_pfn p) = 1 ∧
     if smap && p_user (xl_perm x) then r = Stuck ∧ translate (ram s') root va = Some x ∧ shared s' f = shared s f
     else r = Resolved ∧ translate (ram s') root va = Some (mk_xlat p (writable u (xl_perm x))) ∧
       (∀ j, 0 ≤ j < 512 → pte (ram s') p j = pte (ram s) f j ∧ pte (ram s') f j = pte (ram s) f j) ∧ shared s' f = shared s f - 1).

Lemma shared_step s s' pa : page_array s' = page_array s → total_phys_pages s' = total_phys_pages s → shared s' pa = shared s pa.
Proof. intros Hp Ht. unfold shared, refs, pg. by rewrite (page_struct_total s s' _ Ht), Hp. Qed.

Lemma cow_fault_spec own s root T va pt smap c x :
  vm own s root T → frame_at (ram s) root va 3 = Some pt → translate (ram s) root va = Some x →
  single_page own s T (xl_frame x) → shared s (xl_frame x) < 2 ^ 32 → let e := pte (ram s) pt (idx 3 va) in
  present e = true ∧
  ∃ own' s' r, cow_fault smap (Some c) root va pt e s = Some (r, s') ∧ vm own' s' root T ∧ grows own own' ∧
    (∀ va', ¬ same_page va va' → translate (ram s') root va' = translate (ram s) root va') ∧
    cow_outcome smap own s root va (upper (ram s) root va) x r own' s'.
Proof.
  intros HV Hf Hx Hs Hr e. pose proof Hx as Hx0. rewrite (translate_leaf _ _ _ pt Hf) in Hx. cbv zeta in Hx. fold e in Hx.
  destruct (present e) eqn:Ep; [|done]. injection Hx as <-. cbn [xl_frame] in *. split; [done|]. unfold cow_outcome. cbn [xl_frame xl_perm].
  destruct (Z.leb_spec (shared s (addr_of e)) 1) as [Hle|Hgt].
  - unfold cow_fault. run (page_ref_get_ok own s root T (addr_of e) HV (proj1 (proj1 (addr_of_ok e)))).
    rewrite (proj2 (Z.leb_le _ _) Hle). destruct (rw_entry_spec e) as (C1 & C2 & C3). rewrite Ep in C1.
    destruct (store_leaf_spec own s root T va pt (Z.lor e PTE_RW) HV Hf C1) as (s' & R & HV' & Hx & Hoth & Hpa & Ht & _).
    change (pt_index va) with (idx 3 va). run R. exists own, s', Resolved. split; [done|]. split; [done|]. split; [apply grows_refl|]. split; [done|].
    left. split; [done|]. split; [done|]. split; [by rewrite Hx, C2, C3, meet_writable|by apply shared_step].
  - assert (∃ i, page_struct s (addr_of e) = Some i ∧ shared s (addr_of e) = refs s i) as (i & Hi & Hsh).
    { unfold shared in *. destruct (page_struct s (addr_of e)) as [i|]; [by exists i|lia]. }
    destruct (Hs i Hi) as [Ho HTe]. rewrite Hsh in *.
    destruct (cow_copy_spec own s root T va pt e i smap c HV Hf eq_refl Ep Hi Ho HTe ltac:(lia))
      as [[R Hno]|(own' & s' & r & p & R & HV' & HG & H1 & H2 & H3 & H4 & Ht & H5)].
    + exists own, s, Segv. split; [done|]. split; [done|]. split; [apply grows_refl|]. split; [done|]. right. left. by rewrite Hsh.
    + exists own', s', r. split; [done|]. split; [done|]. split; [done|]. split; [done|]. right. right. split; [done|]. exists p.
      assert (shared s' (addr_of e) = refs s' i) as -> by (unfold shared; by rewrite (page_struct_total s s' _ Ht), Hi).
      split; [done|]. split; [done|]. split; [done|]. rewrite <- Hx0. exact H5.
Qed.

(** A page outside the tables, over a step of building them. *)
Lemma pte_step own s own' s' root T T' f j :
  vm_step own s own' s' root T T' → page_addr f → T' !! f = None → 0 ≤ j < 512 → pte (ram s') f j = pte (ram s) f j.
Proof.
  intros VS Hf HTf Hj. unfold pte. rewrite (vs_ram _ _ _ _ _ _ _ VS); [done|]. intros g d Hg Hin.
  destruct (tb_frame _ _ _ (vm_tables _ _ _ _ (vs_vm _ _ _ _ _ _ _ VS)) g d Hg) as [_ [Hg1 _]]. destruct Hf as [_ Hf].
  assert (g = f) as ->; [|congruence]. unfold PAGE_SIZE in Hin. apply Z.mod_divide in Hg1 as [k Hk]; [|done].
  apply Z.mod_divide in Hf as [k' Hk']; [|done]. lia.
Qed.

Lemma leaf_page_addr m root va pt x : frame_at m root va 3 = Some pt → translate m root va = Some x → page_addr (xl_frame x).
Proof.
  intros Hf Hx. rewrite (translate_leaf _ _ _ pt Hf) in Hx. cbv zeta in Hx. destruct (present _); [|done]. injection Hx as <-. apply addr_of_ok.
Qed.
Lemma shared_same_step own s own' s' root T T' pa : vm_step own s own' s' root T T' → single_page own s T pa → shared s' pa = shared s pa.
Proof.
  intros VS Hs. unfold shared. rewrite (page_struct_total s s' _ (vs_total _ _ _ _ _ _ _ VS)). destruct (page_struct s pa) as [i|] eqn:Ei; [|done].
  apply (vs_refs _ _ _ _ _ _ _ VS). destruct (Hs i Ei) as [Ho _]. intros (b & q & E). congruence.
Qed.
(** The outcome, seen from before the split. *)
Lemma cow_outcome_step smap own s own1 s1 root T T1 va u x r own' s' :
  vm_step own s own1 s1 root T T1 → page_addr (xl_frame x) → single_page own1 s1 T1 (xl_frame x) → shared s1 (xl_frame x) = shared s (xl_frame x) →
  cow_outcome smap own1 s1 root va u x r own' s' → cow_outcome smap own s root va u x r own' s'.
Proof.
  intros VS Hpx Hs1 Hsh. unfold cow_outcome. cbv zeta. rewrite Hsh. intros [H|[H|(Hgt & p & Hf & Ho & Hr & H)]]; [by left|by right; left|right; right].
  split; [done|]. exists p. split; [by apply (vs_grows _ _ _ _ _ _ _ VS)|]. split; [done|]. split; [done|]. destruct (smap && _); [done|].
  destruct H as (-> & Hx & Hc & Hd). split; [done|]. split; [done|]. split; [|done]. intros j Hj. destruct (Hc j Hj) as [A B].
  assert (T1 !! xl_frame x = None) as HT1.
  { rewrite <- Hsh in Hgt. unfold shared in Hgt. destruct (page_struct s1 (xl_frame x)) as [i|] eqn:Ei; [|lia]. by destruct (Hs1 i Ei). }
  by rewrite A, B, (pte_step _ _ _ _ _ _ _ _ _ VS Hpx HT1 Hj).
Qed.

(** ** Theorems *)



(** An address that does not translate is in no 2 MiB page. *)
Lemma not_in_huge m root va : translate m root va = None → in_huge m root va = false.
Proof.
  intros Hx. unfold in_huge. destruct (frame_at m root va 2) as [pd|] eqn:Ef; [|done].
  destruct (present _) eqn:Ep; [|done]. destruct (has _ PTE_PS) eqn:Eh; [|done]. by rewrite (translate_huge m root va pd) in Hx.
Qed.

(** C23: A fault of user mode at an address that does not translate in the
    current task's tables.  Above [USER_MAX] the task gets SIGSEGV and nothing
    changes.  Otherwise either it gets SIGSEGV because memory ran out (at the
    end no page is free but at most one), every address translating as before;
    or a fresh page, free before and all zero, is mapped there, writable and
    accessible to the user as far as the tables that were already above the
    address allow it, and not protected against execution by its own entry.
    The page then counts two references for its one mapping (one from the
    allocator, one from [map_page]), so releasing the address space will not
    free it.  Every address of another page translates as before. *)
Theorem lazy_fault_correct smap own s root T va cr3 code :
  vm own s root T → translate (ram s) root va = None → has code 1 = false → has code 4 = true →
  ∃ own' s' T' r, pf_handler_c smap (Some root) cr3 va code s = Some (r, s') ∧ vm own' s' root T' ∧
    (∀ va', ¬ same_page va va' → translate (ram s') root va' = translate (ram s) root va') ∧
    ((USER_MAX < va ∧ r = Segv ∧ s' = s) ∨
     (va ≤ USER_MAX ∧ r = Segv ∧ translate (ram s') root va = None ∧ ∃ p, ∀ x, is_free own' x → x = p) ∨
     (va ≤ USER_MAX ∧ r = Resolved ∧ ∃ p, is_free own (phys_to_pfn p) ∧
        translate (ram s') root va = Some (mk_xlat p (meet (upper (ram s) root va) (mk_perm true true false))) ∧
        (∀ j, 0 ≤ j < 512 → pte (ram s') p j = 0) ∧ refs s' (phys_to_pfn p) = 2)).
Proof.
  intros HV Hx H1 H4. unfold pf_handler_c. cbv zeta. rewrite H1, H4. cbn [negb]. unfold lazy_fault.
  destruct (Z.ltb_spec USER_MAX va) as [Hva|Hva].
  { exists own, s, T, Segv. split; [done|]. split; [done|]. split; [done|]. by left. }
  pose proof (vm_tables _ _ _ _ HV) as HT.
  destruct (alloc_page_table own s root T HV) as [[R Hno]|(own1 & p & s1 & R & HB & HG & Hpo & Hlo & HTp & Hfr & Hop & Hr1 & Ht & Href & Hrf)].
  { run R. exists own, s, T, Segv. split; [done|]. split; [done|]. split; [done|]. right. left. split_and!; try done. exists 0. intros x Hxf. by destruct (Hno x). }
  run R. destruct (vm_alloc own s root T own1 s1 p HV HB HG Hpo HTp Hr1) as [HV1 HS1]. pose proof (table_page p Hpo) as Hpp.
  assert (∀ v, translate (ram s1) root v = translate (ram s) root v) as HX1 by (intros v; by apply (translate_same (ram s) root T HT)).
  pose proof (page_base_same va) as Hpb. set (vb := Z.ldiff va 4095) in *.
  assert (translate (ram s1) root vb = None) as Hx1 by (rewrite HX1, (translate_page _ _ vb va Hpb); done).
  assert (upper (ram s1) root vb = upper (ram s) root va) as Hu1.
  { unfold upper. rewrite (perm_at_page _ _ vb va 3) by (done || lia). apply perm_at_walk; [done|]. intros k Hk.
    apply (frame_at_same (ram s) root T HT (ram s1) va HS1). lia. }
  assert (page_struct s1 p = Some (phys_to_pfn p)) as Hps.
  { destruct HB as [[fl HI] _ _]. pose proof (iv_managed _ _ _ HI _ _ Hop). destruct (inv_base _ _ _ _ _ _ HI Hop) as [_ Hr].
    assert (BUDDY_MAX_PAGES = 65536) by done. unfold page_struct. rewrite (proj2 (Z.eqb_neq _ _)), (proj2 (Z.leb_gt _ _)) by lia. done. }
  assert (¬ is_free own1 (phys_to_pfn p)) as Hnf by (intros (b & o & E); congruence).
  set (fl := Z.lor (Z.lor (Z.lor PTE_PRESENT PTE_RW) PTE_USER) PTE_USER).
  destruct (map_page_spec own1 s1 root T vb p fl HV1 Hpp) as (r & own2 & s2 & T2 & R2 & HV2 & HE2 & Hw2 & Hc);
    [intros x E; congruence|].
  assert (T2 !! p = None) as HTp2.
  { destruct (T2 !! p) as [d|] eqn:E; [|done]. destruct HE2 as [_ HE2]. destruct (HE2 p d E) as [E'|[_ Hf]]; [congruence|done]. }
  unfold map_user_page. fold fl. run R2. destruct Hc as [(-> & Hx2 & Ho2 & Hi2)|(-> & Hno & HX2 & [_ HG2 _ Ht2 _ _])].
  - cbn [Z.ltb Z.compare]. exists own2, s2, T2, Resolved. split; [done|]. split; [done|]. unfold seen in Ho2. unfold tables_for in Hx2.
    rewrite (not_in_huge _ _ _ Hx1) in Ho2, Hx2. split.
    + intros va' Hne. rewrite Ho2, HX1; [done|]. intros Hs. apply Hne. eapply same_page_trans; [by apply same_page_sym|exact Hs].
    + right. right. split; [done|]. split; [done|]. exists p. split; [done|].
      split; [by rewrite <- (translate_page _ _ vb va Hpb), Hx2, Hu1|]. split.
      * intros j Hj. unfold pte. rewrite Hw2; [rewrite Hr1, decide_True; [done|unfold PAGE_SIZE; lia]|].
        intros f d Hf Hin. destruct (tb_frame _ _ _ (vm_tables _ _ _ _ HV2) f d Hf) as [_ Hfo].
        assert (f = p) as -> by (by eapply slot_in). congruence.
      * rewrite (Hi2 _ Hps Hnf) by (intros x E; congruence). by rewrite Href.
  - change (-1 <? 0) with true. cbv iota.
    assert (page_struct s2 p = Some (phys_to_pfn p)) as Hps2 by (by rewrite (page_struct_total s1 s2)).
    assert (own2 (phys_to_pfn p) = Some (phys_to_pfn p, 0, false)) as Ho3 by (by rewrite (proj1 HG2) by done).
    destruct (free_released own2 s2 root T2 p _ HV2 Hpp Hps2 Ho3 HTp2) as (own3 & s3 & R3 & HV3 & Hr3 & _ & [_ HF] & _). run R3.
    exists own3, s3, T2, Segv. split; [done|]. split; [done|]. rewrite Hr3. split.
    + intros va' Hne. by rewrite HX2, HX1.
    + right. left. split; [done|]. split; [done|]. split; [by rewrite HX2, HX1|]. exists (phys_to_pfn p). intros x Hxf.
      destruct (decide (x = phys_to_pfn p)) as [|Hne]; [done|].
      destruct (HF x) as [[Hf2 _]|[Hf2 E]]; [unfold in_block; change (2 ^ 0) with 1; lia|by destruct (Hno x)|].
      unfold is_free in Hxf. rewrite E in Hxf. by destruct (Hno x).
Qed.

Lemma lazy_fault_correct_witness :
  ∃ own s r s', vm own s 0x1000 low_T ∧ pf_handler_c true (Some 0x1000) 0x1000 (low_va + 0x1000) 6 s = Some (r, s') ∧
    translate (ram s') 0x1000 low_va = Some (mk_xlat 0x6000 (mk_perm false true false)).
Proof.
  destruct vm_low as (own & s & HV & Hram & Ht & _ & Hx).
  destruct (lazy_fault_correct true own s 0x1000 low_T (low_va + 0x1000) 0x1000 6) as (own' & s' & T' & r & R & _ & Ho & _).
  - exact HV.
  - rewrite Hram. vm_compute. reflexivity.
  - reflexivity.
  - reflexivity.
  - exists own, s, r, s'. split; [exact HV|]. split; [exact R|]. rewrite Ho; [exact Hx|].
    intros Hs. specialize (Hs 3%nat (le_n 3)). vm_compute in Hs. discriminate.
Defined.

(** ** Runs on a small machine

    Eight free pages, a root table at [demo_root], and the identity mapping of
    the first gigabyte reduced to its third 2 MiB page, in supervisor mode. *)
Definition demo_page (k : Z) : page :=
  mk_page PAGE_FLAG_FREE 0 0 (pfn_to_phys k) None (if k <? 307 then Some (k + 1) else None) None.
Definition demo_root : Z := pfn_to_phys 200.
Definition demo_pdpt : Z := pfn_to_phys 201.
Definition demo_pd : Z := pfn_to_phys 202.
(** Page frame 768, at address 0x400000, is in use by the kernel. *)
Definition kernel_page : Z := 768.
Definition demo_mm : mm :=
  mk_mm (<[kernel_page := mk_page 0 0 1 (pfn_to_phys kernel_page) None None None]>
           (list_to_map ((λ k, (k, demo_page k)) <$> seqZ 300 8)))
        {[0 := 300]} 1000 0 9 1
        {[demo_root := Z.lor demo_pdpt PTE_STRUCT_FLAGS; demo_pdpt := Z.lor demo_pd PTE_STRUCT_FLAGS;
          demo_pd + 16 := Z.lor 0x400000 0x83]}.
(** A user address under PML4[1]. *)
Definition demo_va : Z := 2 ^ 39 + 0x5000.
Definition demo_frame : Z := pfn_to_phys 250.

Definition mapped : mm := match map_user_page demo_root demo_va demo_frame PTE_RW demo_mm with Some (_, s) => s | None => demo_mm end.
Definition forked : option (Z * mm) := clone_current_pml4 demo_root demo_root mapped.

(** The child of [clone_current_pml4] has the parent's user page, read-only,
    but its tables above the leaf are supervisor only, so that user mode can
    not reach it, unlike in the parent. *)
Theorem fork_child_unreachable :
  match forked with
  | Some (child, s) =>
      child ≠ demo_root ∧ translate (ram s) child demo_va = Some (mk_xlat demo_frame (mk_perm false false false)) ∧
      translate (ram s) demo_root demo_va = Some (mk_xlat demo_frame (mk_perm false true false))
  | None => False
  end.
Proof. vm_compute. split; [discriminate|]. by split_and!. Qed.

(** Mapping a user page at 0x400000, inside the identity mapping: the frame of
    that address is freed although the kernel still uses it, and the page is
    not reachable from user mode, since the split entry has no user bit. *)
Theorem overlay_frees_kernel_page :
  match map_user_page demo_root 0x400000 demo_frame PTE_RW demo_mm with
  | Some (r, s) =>
      r = 0 ∧ translate (ram s) demo_root 0x400000 = Some (mk_xlat demo_frame (mk_perm true false false)) ∧
      has (flags (pg demo_mm kernel_page)) PAGE_FLAG_FREE = false ∧ has (flags (pg s kernel_page)) PAGE_FLAG_FREE = true
  | None => False
  end.
Proof. vm_compute. by split_and!. Qed.

(** Splitting a no-execute huge page makes its small pages executable. *)
Theorem split_drops_nx e i : addr_of e mod 2 ^ 21 = 0 → 0 ≤ i < 512 → has (split_entry e i) PTE_NX = false.
Proof.
  intros H21 Hi. pose proof (page_in_huge _ i (addr_of_ok e) H21 Hi) as Hp. unfold split_entry. rewrite <- !Z.lor_assoc, nx_bit.
  rewrite testbit_entry by (done || lia). rewrite !Z.lor_spec, Z.ldiff_spec, Z.land_spec. change 0xFFF with (Z.ones 12).
  rewrite Z.testbit_ones_nonneg by lia. cbn. by rewrite andb_false_r.
Qed.
