(* ===== verification/Aslr.v ===== *)
(** * kernel/aslr.c and kernel/stack_protect.c: the ChaCha20 generator, the
    randomised addresses of programs and the stack canary.

    The time-stamp counter and the random-number instruction are arguments.
    A buffer on the stack is a list of its size: a write outside it has no
    outcome. *)
From S2P Require Import Prelude Bytes Buddy PageTable.
Local Open Scope Z_scope.

(** ** ChaCha20 *)
Definition chacha20_const : list Z := [0x61707865; 0x3320646e; 0x79622d32; 0x6b206574].
(** [chacha_state]: constants, key, counter and nonce. *)
Abbreviation chacha := (list Z).

Definition rotl32 (x n : Z) : Z := Z.lor (u32 (Z.shiftl x n)) (Z.shiftr x (32 - n)).
Definition quarter (q : Z * Z * Z * Z) : Z * Z * Z * Z :=
  let '(a, b, c, d) := q in
  let a := u32 (a + b) in let d := rotl32 (Z.lxor d a) 16 in
  let c := u32 (c + d) in let b := rotl32 (Z.lxor b c) 12 in
  let a := u32 (a + b) in let d := rotl32 (Z.lxor d a) 8 in
  let c := u32 (c + d) in let b := rotl32 (Z.lxor b c) 7 in
  (a, b, c, d).
(** [chacha20_quarter_round(&x[a], &x[b], &x[c], &x[d])]. *)
Definition chacha20_quarter_round (a b c d : Z) (x : list Z) : option (list Z) :=
  va ← at_ x a; vb ← at_ x b; vc ← at_ x c; vd ← at_ x d;
  let '(va, vb, vc, vd) := quarter (va, vb, vc, vd) in
  x ← set_ x a va; x ← set_ x b vb; x ← set_ x c vc; set_ x d vd.
Definition double_round (x : list Z) : option (list Z) :=
  x ← chacha20_quarter_round 0 4 8 12 x;
  x ← chacha20_quarter_round 1 5 9 13 x;
  x ← chacha20_quarter_round 2 6 10 14 x;
  x ← chacha20_quarter_round 3 7 11 15 x;
  x ← chacha20_quarter_round 0 5 10 15 x;
  x ← chacha20_quarter_round 1 6 11 12 x;
  x ← chacha20_quarter_round 2 7 8 13 x;
  chacha20_quarter_round 3 4 9 14 x.
Definition chacha20_block (st : chacha) : option (list Z) :=
  x ← iter_from 10 0 (λ _, double_round) st;
  iter_from 16 0 (λ i x, v ← at_ x i; s ← at_ st i; set_ x i (u32 (v + s))) x.

Definition next_counter (st : chacha) : option chacha := c ← at_ st 12; set_ st 12 (u32 (c + 1)).
Definition keystream (words : list Z) : list Z := concat (map (le_bytes 4) words).
(** The [while (len > 0)] loop; [input] is what is left of [in]. *)
Fixpoint encrypt_from (fuel : nat) (st : chacha) (input : list Z) : option (list Z * chacha) :=
  match fuel with
  | O => None
  | S fuel =>
      if bool_decide (input = []) then Some ([], st) else
      block ← chacha20_block st;
      st ← next_counter st;
      let chunk := zip_with Z.lxor (take 64 input) (keystream block) in
      '(rest, st) ← encrypt_from fuel st (drop 64 input);
      Some (chunk ++ rest, st)
  end.
Definition chacha20_encrypt (st : chacha) (input : list Z) : option (list Z * chacha) := encrypt_from (S (length input)) st input.

(** [((uint32_t * )(buf + off))[i] = v]. *)
Definition put_word (off v i : Z) (buf : list Z) : option (list Z) :=
  b ← set_ buf (off + 4 * i) (u8 v); b ← set_ b (off + 4 * i + 1) (u8 (v / 256));
  b ← set_ b (off + 4 * i + 2) (u8 (v / 65536)); set_ b (off + 4 * i + 3) (u8 (v / 16777216)).
Definition put_block (off : Z) (block buf : list Z) : option (list Z) :=
  iter_from 16 0 (λ i buf, v ← at_ block i; put_word off v i buf) buf.
Definition chacha20_random (st : chacha) (buf : list Z) : option (list Z * chacha) :=
  block ← chacha20_block st;
  st ← next_counter st;
  buf ← put_block 0 block buf;
  block ← chacha20_block st;
  st ← next_counter st;
  buf ← put_block 32 block buf;
  Some (buf, st).

(** ** Entropy *)
Definition mix_entropy (a b : Z) : Z :=
  let result := Z.lxor a b in
  let result := u64 (Z.lxor result (Z.shiftr result 30) * 0xBF58476D1CE4E5B9) in
  let result := u64 (Z.lxor result (Z.shiftr result 27) * 0x94D049BB133111EB) in
  Z.lxor result (Z.shiftr result 31).

Definition lo32 (x : Z) : Z := Z.land x 0xFFFFFFFF.
Definition hi32 (x : Z) : Z := u32 (Z.shiftr x 32).
(** [rdrand] is the value of the instruction, absent when it failed. *)
Definition aslr_seed (tsc : Z) (rdrand : option Z) : chacha :=
  let e0 := mix_entropy tsc 0x9E3779B97F4A7C15 in
  let e1 := mix_entropy (Z.lxor tsc 0xAAAAAAAAAAAAAAAA) 0xBF58476D1CE4E5B9 in
  let e2 := mix_entropy (Z.lxor tsc 0x5555555555555555) 0x94D049BB133111EB in
  let e3 := mix_entropy (Z.lxor tsc 0x3333333333333333) 0xFF51AFD7ED558CCD in
  let '(e0, e1, e2, e3) :=
    match rdrand with
    | None => (e0, e1, e2, e3)
    | Some r => (mix_entropy e0 r, mix_entropy e1 (Z.lxor r 0xFFFFFFFFFFFFFFFF), mix_entropy e2 (u64 (Z.lnot r)),
                 mix_entropy e3 (u64 (Z.shiftl r 17)))
    end in
  chacha20_const ++ [lo32 e0; hi32 e0; lo32 e1; hi32 e1; lo32 e2; hi32 e2; lo32 e3; hi32 e3] ++ [0] ++
    [lo32 tsc; u32 (Z.shiftr tsc 32); u32 (default (Z.shiftr tsc 16) rdrand)].
Fixpoint stir (n : nat) (st : chacha) (discard : list Z) : option chacha :=
  match n with O => Some st | S n => '(discard, st) ← chacha20_random st discard; stir n st discard end.
(** [junk] is the uninitialised [discard[64]]. *)
Definition aslr_init (junk : list Z) (tsc : Z) (rdrand : option Z) : option chacha := stir 8 (aslr_seed tsc rdrand) junk.

(** ** Addresses *)
Definition ASLR_MMAP_BASE : Z := 0x70000000000.
Definition ASLR_STACK_BASE : Z := 0x7FFFF0000000.
Definition ASLR_MAX_SHIFT : Z := 0x40000000.

(** From the random value on. *)
Definition aslr_address (base pages rand_val : Z) : Z := u64 (base + u64 (rand_val mod pages * PAGE_SIZE)).
(** [junk] is the uninitialised [rnd[64]]. *)
Definition aslr_randomize_base (junk : list Z) (st : chacha) (base max_shift : Z) : option (Z * chacha) :=
  if max_shift =? 0 then Some (base, st) else
  let pages := max_shift / PAGE_SIZE in
  if pages =? 0 then Some (base, st) else
  '(rnd, st) ← chacha20_random st junk;
  Some (aslr_address base pages (le_value (take 8 rnd)), st).
Definition aslr_randomize_stack (junk : list Z) (st : chacha) : option (Z * chacha) :=
  aslr_randomize_base junk st ASLR_STACK_BASE ASLR_MAX_SHIFT.
Definition aslr_randomize_mmap (junk : list Z) (st : chacha) : option (Z * chacha) :=
  aslr_randomize_base junk st ASLR_MMAP_BASE ASLR_MAX_SHIFT.

(** ** The stack canary *)
Definition stack_protect_init (tsc : Z) : Z :=
  let g := Z.lxor tsc 0x9E3779B97F4A7C15 in
  let g := Z.lxor g (Z.shiftr g 33) in
  let g := u64 (g * 0xFF51AFD7ED558CCD) in
  let g := Z.lxor g (Z.shiftr g 33) in
  if g =? 0 then 0xDEADBEEF1BADB002 else g.

(** ** The block function is total *)
Definition words16 (x : list Z) : Prop := length x = 16%nat.

Lemma set_ok x i v : words16 x → 0 ≤ i < 16 → ∃ y, set_ x i v = Some y ∧ words16 y.
Proof.
  unfold words16, set_. intros Hx Hi. destruct (Z.ltb_spec i 0); [lia|]. destruct (Z.leb_spec (Z.of_nat (length x)) i); [lia|]. cbn [orb].
  eexists. split; [done|]. by rewrite length_insert.
Qed.
Lemma at_ok x i : words16 x → 0 ≤ i < 16 → ∃ v, at_ x i = Some v.
Proof. unfold words16. intros Hx Hi. eexists. apply at_nth. lia. Qed.

(** Chains of reads and writes of a 16-word array. *)
Ltac array_step :=
  match goal with
  | H : words16 ?x |- context [at_ ?x ?i] => let v := fresh "v" in let E := fresh "E" in
      destruct (at_ok x i H ltac:(lia)) as [v E]; rewrite E; cbn [mbind option_bind]
  | H : words16 ?x |- context [set_ ?x ?i ?v] => let y := fresh "x" in let E := fresh "E" in let W := fresh "W" in
      destruct (set_ok x i v H ltac:(lia)) as (y & E & W); rewrite E; cbn [mbind option_bind]; clear E
  end.
Lemma quarter_ok a b c d x : words16 x → 0 ≤ a < 16 → 0 ≤ b < 16 → 0 ≤ c < 16 → 0 ≤ d < 16 →
  ∃ y, chacha20_quarter_round a b c d x = Some y ∧ words16 y.
Proof.
  intros W Ha Hb Hc Hd. unfold chacha20_quarter_round. do 4 array_step. destruct (quarter _) as [[[? ?] ?] ?]. do 3 array_step.
  by apply set_ok.
Qed.
Lemma double_round_ok x : words16 x → ∃ y, double_round x = Some y ∧ words16 y.
Proof.
  intros W. unfold double_round.
  do 7 (match goal with H : words16 ?x |- context [chacha20_quarter_round ?a ?b ?c ?d ?x] =>
    let y := fresh "y" in let E := fresh "E" in let W := fresh "W" in
    destruct (quarter_ok a b c d x H ltac:(lia) ltac:(lia) ltac:(lia) ltac:(lia)) as (y & E & W); rewrite E; cbn [mbind option_bind]; clear E end).
  apply quarter_ok; [done|lia..].
Qed.
Lemma iter_ok (P : list Z → Prop) n i body x :
  (∀ j x, i ≤ j < i + Z.of_nat n → P x → ∃ y, body j x = Some y ∧ P y) → P x → ∃ y, iter_from n i body x = Some y ∧ P y.
Proof.
  revert i x. induction n as [|n IH]; intros i x Hb Hx; [by exists x|]. cbn [iter_from].
  destruct (Hb i x ltac:(lia) Hx) as (y & -> & Hy). apply IH; [|done]. intros j z Hj. apply Hb. lia.
Qed.
Lemma chacha20_block_ok st : words16 st → ∃ block, chacha20_block st = Some block ∧ words16 block.
Proof.
  intros W. unfold chacha20_block. destruct (iter_ok words16 10 0 (λ _, double_round) st) as (x & Ex & Wx); [|done|].
  { intros j y _ Hy. by apply double_round_ok. }
  rewrite Ex. cbn [mbind option_bind]. apply (iter_ok words16); [|done]. intros j y Hj Hy. do 2 array_step. apply set_ok; [done|lia].
Qed.
Definition bump (st : chacha) : chacha := <[12%nat := u32 (nth 12 st 0 + 1)]> st.
Lemma next_counter_run st : words16 st → next_counter st = Some (bump st) ∧ words16 (bump st).
Proof.
  intros W. unfold next_counter. rewrite at_nth by (unfold words16 in W; lia). cbn [mbind option_bind]. unfold set_, words16, bump in *.
  rewrite W. by rewrite length_insert.
Qed.
Lemma keystream_length block : length (keystream block) = (4 * length block)%nat.
Proof.
  unfold keystream. induction block as [|w block IH]; [done|]. cbn [map concat]. rewrite length_app, length_le_bytes, IH. simpl. lia.
Qed.

(** ** Encryption *)
Lemma xor_twice a k : (length a ≤ length k)%nat → zip_with Z.lxor (zip_with Z.lxor a k) k = a.
Proof.
  revert k. induction a as [|x a IH]; intros [|y k] H; simpl in *; try lia; [done..|]. rewrite IH by lia.
  by rewrite Z.lxor_assoc, Z.lxor_nilpotent, Z.lxor_0_r.
Qed.
Lemma encrypt_from_run fuel st input : words16 st → (length input < fuel)%nat →
  ∃ out, encrypt_from fuel st input = Some (out, Nat.iter ((length input + 63) / 64) bump st) ∧ length out = length input ∧
    encrypt_from fuel st out = Some (input, Nat.iter ((length input + 63) / 64) bump st).
Proof.
  revert st input. induction fuel as [|fuel IH]; intros st input W Hf; [lia|]. cbn [encrypt_from].
  destruct (decide (input = [])) as [->|Hn]; [by exists []|]. rewrite bool_decide_false by done.
  destruct (chacha20_block_ok st W) as (block & Eb & Wb). destruct (next_counter_run st W) as [En Wn].
  pose proof (keystream_length block) as Hk. rewrite Wb in Hk.
  assert (0 < length input)%nat as Hpos by (destruct input; [done|simpl; lia]).
  destruct (IH (bump st) (drop 64 input) Wn) as (rest & E1 & Hl & E2); [rewrite length_drop; lia|].
  assert (Nat.iter ((length (drop 64 input) + 63) / 64) bump (bump st) = Nat.iter ((length input + 63) / 64) bump st) as Ei.
  { rewrite <- Nat.iter_succ_r. f_equal. rewrite length_drop. destruct (decide (length input ≤ 64)%nat).
    - replace (length input - 64)%nat with 0%nat by lia. symmetry. change (S ((0 + 63) / 64)) with 1%nat.
      symmetry. apply (Nat.div_unique _ _ _ (length input - 1)); lia.
    - replace (length input + 63)%nat with (length input - 64 + 63 + 1 * 64)%nat by lia. rewrite Nat.div_add by lia. lia. }
  rewrite Ei in E1, E2. exists (zip_with Z.lxor (take 64 input) (keystream block) ++ rest).
  set (chunk := zip_with Z.lxor (take 64 input) (keystream block)).
  assert (length chunk = length (take 64 input)) as Hc by (unfold chunk; rewrite length_zip_with, length_take; lia).
  rewrite Eb. cbn [mbind option_bind]. rewrite En. cbn [mbind option_bind]. rewrite E1. cbn [mbind option_bind]. split; [done|].
  split; [rewrite length_app, Hl, Hc, length_take, length_drop; lia|].
  rewrite bool_decide_false by (intros E; apply (f_equal length) in E; rewrite length_app, Hc, length_take in E; cbn [length] in E; lia).
  cbn [mbind option_bind].
  assert (take 64 (chunk ++ rest) = chunk ∧ drop 64 (chunk ++ rest) = rest) as [-> ->].
  { rewrite length_take in Hc. destruct (decide (length input ≤ 64)%nat).
    - assert (rest = []) as -> by (apply length_zero_iff_nil; rewrite Hl, length_drop; lia).
      rewrite app_nil_r, take_ge, drop_ge by lia. done.
    - split; [apply take_app_length'|apply drop_app_length']; lia. }
  rewrite E2. cbn [mbind option_bind]. unfold chunk. rewrite xor_twice by (rewrite length_take; lia). by rewrite take_drop.
Qed.

(** ** Writing past a buffer *)
Lemma iter_app {A} n m i (body : Z → A → option A) a :
  iter_from (n + m) i body a = match iter_from n i body a with Some b => iter_from m (i + Z.of_nat n) body b | None => None end.
Proof.
  revert i a. induction n as [|n IH]; intros i a; cbn [iter_from Nat.add]; [by rewrite Z.add_0_r|].
  destruct (body i a); [|done]. rewrite IH. by replace (i + 1 + Z.of_nat n) with (i + Z.of_nat (S n)) by lia.
Qed.
Lemma set_length {l i v l'} : set_ l i v = Some l' → length l' = length l ∧ 0 ≤ i < Z.of_nat (length l).
Proof.
  unfold set_. destruct (Z.ltb_spec i 0); [done|]. destruct (Z.leb_spec (Z.of_nat (length l)) i); [done|]. cbn [orb]. intros [= <-].
  rewrite length_insert. lia.
Qed.
Lemma put_word_length {off v i b b'} : put_word off v i b = Some b' → length b' = length b ∧ off + 4 * i + 3 < Z.of_nat (length b).
Proof.
  unfold put_word. destruct (set_ b _ _) as [b1|] eqn:E1; [|done]. cbn [mbind option_bind].
  destruct (set_ b1 _ _) as [b2|] eqn:E2; [|done]. cbn [mbind option_bind]. destruct (set_ b2 _ _) as [b3|] eqn:E3; [|done].
  cbn [mbind option_bind]. intros E4. apply set_length in E1 as [? ?], E2 as [? ?], E3 as [? ?], E4 as [? ?]. lia.
Qed.
Lemma put_words_length {n off i block b b'} : iter_from n i (λ i b, v ← at_ block i; put_word off v i b) b = Some b' → length b' = length b.
Proof.
  revert i b. induction n as [|n IH]; intros i b; cbn [iter_from]; [by intros [= <-]|].
  destruct (at_ block i) as [v|]; [|done]. cbn [mbind option_bind]. destruct (put_word off v i b) as [b1|] eqn:E; [|done].
  intros H. rewrite (IH _ _ H). apply (put_word_length E).
Qed.
(** A block of 64 bytes at offset 32 does not fit in 64 bytes. *)
Lemma put_block_overruns off block b : 0 ≤ off → off + 64 > Z.of_nat (length b) → put_block off block b = None.
Proof.
  intros Ho Hl. unfold put_block. change 16%nat with (15 + 1)%nat. rewrite iter_app.
  destruct (iter_from 15 0 _ b) as [b1|] eqn:E; [|done]. apply put_words_length in E. cbn [iter_from].
  change (0 + Z.of_nat 15) with 15. destruct (at_ block 15) as [v|]; [|done]. cbn [mbind option_bind].
  destruct (put_word off v 15 b1) as [b2|] eqn:E2; [|done]. apply put_word_length in E2. lia.
Qed.
Lemma chacha20_random_overruns st buf : length buf = 64%nat → chacha20_random st buf = None.
Proof.
  intros Hl. unfold chacha20_random. destruct (chacha20_block st) as [k|]; [|done]. cbn [mbind option_bind].
  destruct (next_counter st) as [st1|]; [|done]. cbn [mbind option_bind]. destruct (put_block 0 k buf) as [b|] eqn:E; [|done].
  cbn [mbind option_bind]. destruct (chacha20_block st1) as [k2|]; [|done]. cbn [mbind option_bind].
  destruct (next_counter st1); [|done]. cbn [mbind option_bind]. apply put_words_length in E.
  by rewrite put_block_overruns by lia.
Qed.
Lemma put_word_run off v i pre old post : off + 4 * i = Z.of_nat (length pre) → length old = 4%nat → 0 ≤ i →
  put_word off v i (pre ++ old ++ post) = Some (pre ++ le_bytes 4 v ++ post).
Proof.
  intros Hp Ho Hi. do 4 (destruct old as [|? old]; [discriminate Ho|]). destruct old; [|discriminate Ho]. unfold put_word. cbn [app].
  rewrite (set_at _ _ _ pre (z0 :: z1 :: z2 :: post) z) by (done || lia). cbn [mbind option_bind].
  rewrite (set_at _ _ _ (pre ++ [u8 v]) (z1 :: z2 :: post) z0) by (by rewrite <- app_assoc || (rewrite length_app; simpl; lia)). cbn [mbind option_bind].
  rewrite <- app_assoc. cbn [app].
  rewrite (set_at _ _ _ (pre ++ [u8 v; u8 (v / 256)]) (z2 :: post) z1) by (by rewrite <- app_assoc || (rewrite length_app; simpl; lia)). cbn [mbind option_bind].
  rewrite <- app_assoc. cbn [app].
  rewrite (set_at _ _ _ (pre ++ [u8 v; u8 (v / 256); u8 (v / 65536)]) post z2) by (by rewrite <- app_assoc || (rewrite length_app; simpl; lia)).
  rewrite <- app_assoc. cbn [app le_bytes]. rewrite !Z.div_div by lia. done.
Qed.
Lemma put_words_run n off i block pre old post : (Z.to_nat i + n = length block)%nat → 0 ≤ i → off + 4 * i = Z.of_nat (length pre) →
  length old = (4 * n)%nat →
  iter_from n i (λ i b, v ← at_ block i; put_word off v i b) (pre ++ old ++ post) =
  Some (pre ++ keystream (drop (Z.to_nat i) block) ++ post).
Proof.
  revert i pre old. induction n as [|n IH]; intros i pre old Hb Hi Hp Ho; cbn [iter_from].
  - rewrite drop_ge by lia. destruct old; [done|simpl in Ho; lia].
  - destruct (lookup_lt_is_Some_2 block (Z.to_nat i)) as [v Ev]; [lia|]. rewrite at_lookup, Ev by lia. cbn [mbind option_bind].
    rewrite <- (take_drop 4 old), <- app_assoc. rewrite put_word_run by (done || rewrite length_take; lia).
    rewrite (app_assoc pre). rewrite IH; [|lia|lia|rewrite length_app, length_le_bytes; lia|rewrite length_drop; lia].
    rewrite (drop_S _ _ _ Ev). replace (Z.to_nat (i + 1)) with (S (Z.to_nat i)) by lia. unfold keystream. cbn [map concat].
    by rewrite <- !app_assoc.
Qed.
Lemma put_block_run off block pre old post : words16 block → off = Z.of_nat (length pre) → length old = 64%nat →
  put_block off block (pre ++ old ++ post) = Some (pre ++ keystream block ++ post).
Proof. intros W Hp Ho. unfold put_block. rewrite put_words_run; [done|by rewrite W|done|lia|done]. Qed.

(** ** Mixing loses nothing *)
Lemma lxor_shift_inj k x y : 0 < k → 0 ≤ x → 0 ≤ y → Z.lxor x (Z.shiftr x k) = Z.lxor y (Z.shiftr y k) → x = y.
Proof.
  intros Hk Hx Hy E. apply Z.lxor_eq.
  assert (Z.shiftr (Z.lxor x y) k = Z.lxor x y) as Hd.
  { rewrite Z.shiftr_lxor. apply Z.lxor_eq. transitivity (Z.lxor (Z.lxor x (Z.shiftr x k)) (Z.lxor y (Z.shiftr y k))).
    - apply Z.bits_inj'. intros i _. rewrite !Z.lxor_spec.
      by destruct (Z.testbit x i), (Z.testbit y i), (Z.testbit (Z.shiftr x k) i), (Z.testbit (Z.shiftr y k) i).
    - by rewrite E, Z.lxor_nilpotent. }
  assert (0 ≤ Z.lxor x y) as H0 by (apply Z.lxor_nonneg; lia). rewrite Z.shiftr_div_pow2 in Hd by lia.
  destruct (decide (Z.lxor x y = 0)); [done|]. assert (1 < 2 ^ k) by (apply Z.pow_gt_1; lia).
  pose proof (Z.div_lt (Z.lxor x y) (2 ^ k) ltac:(lia) ltac:(lia)). lia.
Qed.
Lemma mul_inj c c' x y : (c * c') mod 2 ^ 64 = 1 → is_u64 x → is_u64 y → u64 (x * c) = u64 (y * c) → x = y.
Proof.
  unfold u64, is_u64. intros Hc Hx Hy E.
  assert (∀ z, 0 ≤ z < 2 ^ 64 → ((z * c) mod 2 ^ 64 * c') mod 2 ^ 64 = z) as H.
  { intros z Hz. rewrite Z.mul_mod_idemp_l, <- Z.mul_assoc, <- Z.mul_mod_idemp_r, Hc, Z.mul_1_r by lia. by apply Z.mod_small. }
  rewrite <- (H x Hx), <- (H y Hy), E. done.
Qed.
Lemma xorshift_u64 k x : 0 ≤ k → is_u64 x → is_u64 (Z.lxor x (Z.shiftr x k)).
Proof.
  intros Hk Hx. apply lxor_bound; [lia|exact Hx|]. unfold is_u64 in Hx. rewrite Z.shiftr_div_pow2 by lia.
  split; [apply Z.div_pos; lia|]. apply Z.div_lt_upper_bound; [lia|]. pose proof (Z.pow_pos_nonneg 2 k ltac:(lia) Hk). nia.
Qed.
Lemma is_u64_u64 x : is_u64 (u64 x).
Proof. apply u64_bound. Qed.
Lemma mix_entropy_inj a b b' : is_u64 a → is_u64 b → is_u64 b' → mix_entropy a b = mix_entropy a b' → b = b'.
Proof.
  intros Ha Hb Hb'. unfold mix_entropy. intros E.
  assert (is_u64 (Z.lxor a b)) as H1 by by apply lxor_bound. assert (is_u64 (Z.lxor a b')) as H2 by by apply lxor_bound.
  apply lxor_shift_inj in E; [|lia|apply is_u64_u64..].
  apply (mul_inj _ 0x319642b2d24d8ec3) in E; [|by vm_compute|apply xorshift_u64; [lia|apply is_u64_u64]..].
  apply lxor_shift_inj in E; [|lia|apply is_u64_u64..].
  apply (mul_inj _ 0x96de1b173f119089) in E; [|by vm_compute|by apply xorshift_u64..].
  apply lxor_shift_inj in E; [|lia|apply H1|apply H2].
  apply (f_equal (Z.lxor a)) in E. by rewrite <- !Z.lxor_assoc, !Z.lxor_nilpotent, !Z.lxor_0_l in E.
Qed.

(** ** Properties *)

(** ChaCha20 decrypts what it encrypts: from a 16-word state, encryption of
    any message ends without leaving an array, keeps the length, advances the
    block counter by the number of blocks, and encryption of the result from
    the same state gives the message back. *)
Theorem chacha20_roundtrip st input : words16 st →
  ∃ out st', chacha20_encrypt st input = Some (out, st') ∧ length out = length input ∧
    st' = Nat.iter ((length input + 63) / 64) bump st ∧ chacha20_encrypt st out = Some (input, st').
Proof.
  intros W. destruct (encrypt_from_run (S (length input)) st input W) as (out & E & Hl & E'); [lia|].
  exists out, (Nat.iter ((length input + 63) / 64) bump st). unfold chacha20_encrypt. rewrite Hl. by do 3 (split; [done|]).
Qed.

(** The generator overruns the buffers of its callers: [chacha20_random]
    writes two blocks of 64 bytes, the second 32 bytes after the first, so it
    needs 96 bytes, of which the first 32 are half of one block and the rest is
    the next.  In the 64 bytes that it documents, and that both [aslr_init]
    and [aslr_randomize_base] give it, it writes past the end: the start-up of
    the generator has no defined run, and neither has the choice of any address
    for a shift of a page or more. *)
Theorem chacha20_random_needs_96 st junk tsc rdrand base max_shift : words16 st → length junk = 64%nat → PAGE_SIZE ≤ max_shift →
  chacha20_random st junk = None ∧ aslr_init junk tsc rdrand = None ∧ aslr_randomize_base junk st base max_shift = None ∧
  ∀ buf, length buf = 96%nat → ∃ k1 k2, chacha20_block st = Some k1 ∧ chacha20_block (bump st) = Some k2 ∧
    chacha20_random st buf = Some (take 32 (keystream k1) ++ keystream k2, bump (bump st)).
Proof.
  intros W Hj Hs. split; [by apply chacha20_random_overruns|]. split; [|split].
  - unfold aslr_init. cbn [stir]. by rewrite chacha20_random_overruns.
  - unfold aslr_randomize_base. destruct (Z.eqb_spec max_shift 0); [unfold PAGE_SIZE in Hs; lia|].
    assert (1 ≤ max_shift / PAGE_SIZE) by (apply Z.div_le_lower_bound; unfold PAGE_SIZE in *; lia).
    destruct (Z.eqb_spec (max_shift / PAGE_SIZE) 0); [lia|]. by rewrite chacha20_random_overruns.
  - intros buf Hb. destruct (chacha20_block_ok st W) as (k1 & E1 & W1). destruct (next_counter_run st W) as [N1 Wb].
    destruct (chacha20_block_ok _ Wb) as (k2 & E2 & W2). destruct (next_counter_run _ Wb) as [N2 _].
    exists k1, k2. do 2 (split; [done|]). unfold chacha20_random. rewrite E1. cbn [mbind option_bind]. rewrite N1. cbn [mbind option_bind].
    pose proof (put_block_run 0 k1 [] (take 64 buf) (drop 64 buf) W1 eq_refl) as P1. cbn [app] in P1. rewrite take_drop in P1.
    rewrite P1 by (rewrite length_take; lia). cbn [mbind option_bind]. rewrite E2. cbn [mbind option_bind]. rewrite N2. cbn [mbind option_bind].
    pose proof (keystream_length k1) as L1. rewrite W1 in L1.
    rewrite <- (take_drop 32 (keystream k1)) at 1. rewrite <- app_assoc.
    pose proof (put_block_run 32 k2 (take 32 (keystream k1)) (drop 32 (keystream k1) ++ drop 64 buf) [] W2) as P2.
    rewrite !app_nil_r in P2. rewrite P2; [done|rewrite length_take; lia|rewrite length_app, !length_drop; lia].
Qed.

(** Where random addresses lie: from any random word, an address is its
    base plus a whole number of pages below the shift; the mmap area is then
    user memory, but the top of the stack is not: for three of four random
    values (those whose last 18 bits are at least 2 to the 16) it lies above
    the user half of the address space, at an index of the root table that
    belongs to the kernel. *)
Theorem aslr_addresses rand : is_u64 rand →
  let k := rand mod 2 ^ 18 in
  let mmap := aslr_address ASLR_MMAP_BASE (ASLR_MAX_SHIFT / PAGE_SIZE) rand in
  let stack := aslr_address ASLR_STACK_BASE (ASLR_MAX_SHIFT / PAGE_SIZE) rand in
  mmap = ASLR_MMAP_BASE + k * PAGE_SIZE ∧ mmap < ASLR_MMAP_BASE + ASLR_MAX_SHIFT ∧ mmap mod PAGE_SIZE = 0 ∧ mmap ≤ USER_MAX ∧
  stack = ASLR_STACK_BASE + k * PAGE_SIZE ∧ stack mod PAGE_SIZE = 0 ∧
  (USER_MAX < stack ↔ 2 ^ 16 ≤ k) ∧ (2 ^ 16 ≤ k → pml4_index stack = 256).
Proof.
  intros Hr k mmap stack. pose proof (Z.mod_pos_bound rand (2 ^ 18) ltac:(lia)) as Hk. fold k in Hk.
  unfold mmap, stack, aslr_address. change (ASLR_MAX_SHIFT / PAGE_SIZE) with (2 ^ 18). fold k.
  unfold ASLR_MMAP_BASE, ASLR_STACK_BASE, ASLR_MAX_SHIFT, PAGE_SIZE, USER_MAX. rewrite (u64_small (k * _)) by lia. rewrite !u64_small by lia.
  split; [done|]. split; [lia|]. split; [|split; [lia|split; [done|split; [|split; [lia|]]]]].
  - change 0x70000000000 with (0x70000000 * 4096). by rewrite <- Z.mul_add_distr_r, Z.mod_mul by lia.
  - change 0x7FFFF0000000 with (0x7FFFF0000 * 4096). by rewrite <- Z.mul_add_distr_r, Z.mod_mul by lia.
  - intros H. unfold pml4_index. change 0x1FF with (Z.ones 9). rewrite Z.land_ones, Z.shiftr_div_pow2 by lia.
    rewrite <- (Z.div_unique _ (2 ^ 39) 256 (0x7FFFF0000000 + k * 4096 - 256 * 2 ^ 39)) by lia. done.
Qed.

(** The stack canary is a non-zero 64-bit word, and two time stamps give
    the same canary only when it is the fallback for zero; the mixing of
    entropy for the generator's key is one-to-one as well. *)
Theorem stack_canary_correct t t' a b b' : is_u64 t → is_u64 t' → is_u64 a → is_u64 b → is_u64 b' →
  0 < stack_protect_init t < 2 ^ 64 ∧
  (stack_protect_init t = stack_protect_init t' → t = t' ∨ stack_protect_init t = 0xDEADBEEF1BADB002) ∧
  (mix_entropy a b = mix_entropy a b' → b = b').
Proof.
  intros Ht Ht' Ha Hb Hb'.
  assert (∀ x, is_u64 x → is_u64 (Z.lxor x 0x9E3779B97F4A7C15)) as Hk by (intros; apply lxor_bound; [lia|done|lia]).
  split; [|split; [|by apply mix_entropy_inj]].
  - unfold stack_protect_init. cbv zeta. match goal with |- context [if ?g =? 0 then _ else _] => assert (is_u64 g) as Hg
      by (apply xorshift_u64; [lia|apply is_u64_u64]); destruct (Z.eqb_spec g 0); [lia|unfold is_u64 in Hg; lia] end.
  - unfold stack_protect_init. cbv zeta. intros E. do 2 match type of E with context [if ?g =? 0 then _ else _] => destruct (Z.eqb_spec g 0) end.
    1,2: by right.
    { by right. }
    left.
    apply lxor_shift_inj in E; [|lia|apply is_u64_u64..].
    apply (mul_inj _ 0x4f74430c22a54005) in E; [|by vm_compute|apply xorshift_u64; [lia|by apply Hk]..].
    apply lxor_shift_inj in E; [|lia|apply Hk, Ht|apply Hk, Ht'].
    apply (f_equal (λ x, Z.lxor x 0x9E3779B97F4A7C15)) in E. by rewrite !Z.lxor_assoc, !Z.lxor_nilpotent, !Z.lxor_0_r in E.
Qed.

(** The block function on the test vector of RFC 8439, section 2.3.2. *)
Definition demo_chacha : chacha := chacha20_const ++
  [0x03020100; 0x07060504; 0x0b0a0908; 0x0f0e0d0c; 0x13121110; 0x17161514; 0x1b1a1918; 0x1f1e1d1c; 1; 0x09000000; 0x4a000000; 0].
Example chacha20_vector : chacha20_block demo_chacha = Some [
  0xe4e7f110; 0x15593bd1; 0x1fdd0f50; 0xc47120a3; 0xc7f4d1c7; 0x0368c033; 0x9aaa2204; 0x4e6cd4c3;
  0x466482d2; 0x09aa9f07; 0x05d7c214; 0xa2028bd9; 0xd19c12b5; 0xb94e16de; 0xe883d0cb; 0x4e3c50a2].
Proof. vm_compute. reflexivity. Qed.

Lemma chacha20_roundtrip_witness : ∃ out st', chacha20_encrypt demo_chacha [104; 105] = Some (out, st') ∧ length out = length [104; 105] ∧
  st' = Nat.iter ((length [104; 105] + 63) / 64) bump demo_chacha ∧ chacha20_encrypt demo_chacha out = Some ([104; 105], st').
Proof. apply (chacha20_roundtrip demo_chacha [104; 105]). reflexivity. Defined.
Lemma chacha20_random_needs_96_witness :
  chacha20_random demo_chacha (replicate 64 7) = None ∧ aslr_init (replicate 64 7) 12345 None = None ∧
  aslr_randomize_base (replicate 64 7) demo_chacha ASLR_STACK_BASE ASLR_MAX_SHIFT = None ∧
  ∀ buf, length buf = 96%nat → ∃ k1 k2, chacha20_block demo_chacha = Some k1 ∧ chacha20_block (bump demo_chacha) = Some k2 ∧
    chacha20_random demo_chacha buf = Some (take 32 (keystream k1) ++ keystream k2, bump (bump demo_chacha)).
Proof. apply (chacha20_random_needs_96 demo_chacha (replicate 64 7)); [reflexivity|reflexivity|unfold PAGE_SIZE, ASLR_MAX_SHIFT; lia]. Defined.
Lemma aslr_addresses_witness :
  let k := 0x12345678 mod 2 ^ 18 in
  let mmap := aslr_address ASLR_MMAP_BASE (ASLR_MAX_SHIFT / PAGE_SIZE) 0x12345678 in
  let stack := aslr_address ASLR_STACK_BASE (ASLR_MAX_SHIFT / PAGE_SIZE) 0x12345678 in
  mmap = ASLR_MMAP_BASE + k * PAGE_SIZE ∧ mmap < ASLR_MMAP_BASE + ASLR_MAX_SHIFT ∧ mmap mod PAGE_SIZE = 0 ∧ mmap ≤ USER_MAX ∧
  stack = ASLR_STACK_BASE + k * PAGE_SIZE ∧ stack mod PAGE_SIZE = 0 ∧
  (USER_MAX < stack ↔ 2 ^ 16 ≤ k) ∧ (2 ^ 16 ≤ k → pml4_index stack = 256).
Proof. apply (aslr_addresses 0x12345678). unfold is_u64; lia. Defined.
Lemma stack_canary_correct_witness :
  0 < stack_protect_init 5 < 2 ^ 64 ∧
  (stack_protect_init 5 = stack_protect_init 6 → 5 = 6 ∨ stack_protect_init 5 = 0xDEADBEEF1BADB002) ∧
  (mix_entropy 1 2 = mix_entropy 1 3 → 2 = 3).
Proof. apply (stack_canary_correct 5 6 1 2 3); unfold is_u64; lia. Defined.
