(* ===== verification/BlockDev.v ===== *)
(** * kernel/block_dev.c and kernel/ramdisk.c: block devices.

    [BlockDevice] is [struct block_device] with its driver's read and write;
    [BlockLaws] is what its clients rely on, and the RAM disk is an instance. *)
From S2P Require Import Prelude Bytes.
Local Open Scope Z_scope.

(** ** Error numbers *)
Definition EIO : Z := 5.
Definition ENOENT : Z := 2.
Definition ENOMEM : Z := 12.
Definition EINVAL : Z := 22.
Definition ENOSPC : Z := 28.
Definition ENOSYS : Z := 38.
Definition EEXIST : Z := 17.
Definition ENOTDIR : Z := 20.
Definition EISDIR : Z := 21.
Definition ENAMETOOLONG : Z := 36.
Definition ENOTEMPTY : Z := 39.

(** A failed operation (-1) is [None]. *)
Class BlockDevice (D : Type) := {
  bd_block_size : D → Z;
  bd_sectors : D → Z;
  bd_read : D → Z → Z → option (list Z);
  bd_write : D → list Z → Z → Z → option D;
  bd_mem : D → gmap Z Z;
  bd_ok : D → Prop
}.

(** The device is [bd_mem]: an array of bytes in sectors of [bd_block_size]. *)
Class BlockLaws (D : Type) `{BlockDevice D} := {
  bl_size : ∀ d, bd_ok d → 0 < bd_block_size d ∧ 0 ≤ bd_sectors d ∧ bd_sectors d * bd_block_size d < 2 ^ 63;
  bl_read : ∀ d s c, bd_ok d → 0 ≤ s → 0 < c → s + c ≤ bd_sectors d →
    bd_read d s c = Some (load (bd_mem d) (s * bd_block_size d) (Z.to_nat (c * bd_block_size d)));
  bl_write : ∀ d data s c, bd_ok d → 0 ≤ s → 0 < c → s + c ≤ bd_sectors d → Z.of_nat (length data) = c * bd_block_size d →
    ∃ d', bd_write d data s c = Some d' ∧ bd_ok d' ∧ bd_mem d' = store (bd_mem d) (s * bd_block_size d) data ∧
      bd_block_size d' = bd_block_size d ∧ bd_sectors d' = bd_sectors d
}.

Definition block_dev_read `{BlockDevice D} (d : D) (sector count : Z) : option (list Z) :=
  if count <=? 0 then None else
  if (bd_sectors d <? sector) || (bd_sectors d - sector <? count) then None else bd_read d sector count.
Definition block_dev_write `{BlockDevice D} (d : D) (buf : list Z) (sector count : Z) : option D :=
  if count <=? 0 then None else
  if (bd_sectors d <? sector) || (bd_sectors d - sector <? count) then None else bd_write d buf sector count.

(** The list of registered devices, newest first, by name. *)
Definition block_dev_register {D} (name : list Z) (d : D) (l : list (list Z * D)) : list (list Z * D) := (name, d) :: l.
Fixpoint block_dev_find {D} (name : list Z) (l : list (list Z * D)) : option D :=
  match l with
  | [] => None
  | (n, d) :: l => if decide (n = name) then Some d else block_dev_find name l
  end.

(** ** The RAM disk *)
Definition RAMDISK_SIZE_BYTES : Z := 1024 * 1024.
Definition g_ramdisk_block_size : Z := 512.
(** [struct ramdisk_priv]; absent bytes are zero. *)
Record ramdisk_priv := mk_rd { rd_data : gmap Z Z; rd_size : Z }.

(** The driver's bounds check: the byte range of the request. *)
Definition ramdisk_range (p : ramdisk_priv) (sector count : Z) : option (Z * Z) :=
  let byte_offset := u64 (sector * g_ramdisk_block_size) in
  let byte_count := u64 (count * g_ramdisk_block_size) in
  if rd_size p <? u64 (byte_offset + byte_count) then None else
  if u64 (byte_offset + byte_count) <? byte_offset then None else Some (byte_offset, byte_count).
Definition ramdisk_read (p : ramdisk_priv) (sector count : Z) : option (list Z) :=
  if count <=? 0 then None else
  match ramdisk_range p sector count with
  | Some (o, n) => Some (load (rd_data p) o (Z.to_nat n))
  | None => None
  end.
Definition ramdisk_write (p : ramdisk_priv) (buf : list Z) (sector count : Z) : option ramdisk_priv :=
  if count <=? 0 then None else
  match ramdisk_range p sector count with
  | Some (o, n) => Some (mk_rd (store (rd_data p) o (take (Z.to_nat n) buf)) (rd_size p))
  | None => None
  end.
(** [mem1] and [mem2]: the two allocations succeed. *)
Definition ramdisk_init (mem1 mem2 : bool) (size_mb : Z) : option ramdisk_priv :=
  if negb mem1 then None else if negb mem2 then None else
  let size := if size_mb =? 0 then RAMDISK_SIZE_BYTES else u64 (size_mb * 1024 * 1024) in
  let size := if RAMDISK_SIZE_BYTES <? size then RAMDISK_SIZE_BYTES else size in
  Some (mk_rd ∅ size).

#[export] Instance ramdisk_device : BlockDevice ramdisk_priv := {
  bd_block_size _ := g_ramdisk_block_size;
  bd_sectors p := rd_size p / 512;
  bd_read := ramdisk_read;
  bd_write := ramdisk_write;
  bd_mem := rd_data;
  bd_ok p := 0 ≤ rd_size p ≤ RAMDISK_SIZE_BYTES
}.

Lemma ramdisk_range_ok p s c :
  0 ≤ rd_size p ≤ RAMDISK_SIZE_BYTES → 0 ≤ s → 0 < c → s + c ≤ rd_size p / 512 → ramdisk_range p s c = Some (s * 512, c * 512).
Proof.
  intros Hp Hs Hc Hr. assert (RAMDISK_SIZE_BYTES = 1048576) as HR by done. assert (g_ramdisk_block_size = 512) as HB by done.
  pose proof (Z.mul_div_le (rd_size p) 512 ltac:(lia)). unfold ramdisk_range. rewrite HB.
  assert (u64 (s * 512) = s * 512) as -> by (apply Z.mod_small; lia).
  assert (u64 (c * 512) = c * 512) as -> by (apply Z.mod_small; lia).
  assert (u64 (s * 512 + c * 512) = s * 512 + c * 512) as -> by (apply Z.mod_small; lia).
  rewrite !(proj2 (Z.ltb_ge _ _)) by lia. done.
Qed.
#[export] Instance ramdisk_laws : BlockLaws ramdisk_priv.
Proof.
  constructor; cbn [bd_ok bd_block_size bd_sectors bd_read bd_write bd_mem ramdisk_device]; assert (RAMDISK_SIZE_BYTES = 1048576) as HR by done;
    assert (g_ramdisk_block_size = 512) as HB by done.
  - intros p Hp. rewrite HB. pose proof (Z.mul_div_le (rd_size p) 512 ltac:(lia)). pose proof (Z.div_pos (rd_size p) 512). lia.
  - intros p s c Hp Hs Hc Hr. unfold ramdisk_read. rewrite (proj2 (Z.leb_gt _ _)) by lia. by rewrite ramdisk_range_ok.
  - intros p data s c Hp Hs Hc Hr Hl. unfold ramdisk_write. rewrite (proj2 (Z.leb_gt _ _)) by lia. rewrite ramdisk_range_ok by done.
    eexists. split; [reflexivity|]. rewrite take_ge by (rewrite HB in Hl; lia). done.
Qed.

(** ** Requests in range *)
Section laws.
Context `{BL : BlockLaws D}.
Lemma block_dev_read_ok d s c : bd_ok d → 0 ≤ s → 0 < c → s + c ≤ bd_sectors d →
  block_dev_read d s c = Some (load (bd_mem d) (s * bd_block_size d) (Z.to_nat (c * bd_block_size d))).
Proof.
  intros Hd Hs Hc Hr. unfold block_dev_read. rewrite (proj2 (Z.leb_gt _ _)), !(proj2 (Z.ltb_ge _ _)) by lia. by apply bl_read.
Qed.
Lemma block_dev_write_ok d data s c : bd_ok d → 0 ≤ s → 0 < c → s + c ≤ bd_sectors d → Z.of_nat (length data) = c * bd_block_size d →
  ∃ d', block_dev_write d data s c = Some d' ∧ bd_ok d' ∧ bd_mem d' = store (bd_mem d) (s * bd_block_size d) data ∧
    bd_block_size d' = bd_block_size d ∧ bd_sectors d' = bd_sectors d.
Proof.
  intros Hd Hs Hc Hr Hl. unfold block_dev_write. rewrite (proj2 (Z.leb_gt _ _)), !(proj2 (Z.ltb_ge _ _)) by lia. by apply bl_write.
Qed.
End laws.
