(* ===== verification/Ext2.v ===== *)
(** * kernel/ext2.c: the ext2 file system over a block device.

    On-disk structures are their bytes; [field] and [set_field] are the accesses
    to members at the offsets of ext2.h.  [struct ext2_inode_info] is the inode
    number and the cached raw inode, which the operations on files take and
    return.  The group descriptors are part of the state, as is the device; the
    answers of [kmalloc] are an oracle.  An access outside a buffer or a
    structure has no outcome. *)
From S2P Require Import Prelude Bytes BlockDev.
Local Open Scope Z_scope.
Local Open Scope kernel_scope.

(** ** Structures *)

(** [struct ext2_group_desc]. *)
Record group_desc := mk_gd {
  bg_block_bitmap : Z; bg_inode_bitmap : Z; bg_inode_table : Z; bg_free_blocks_count : Z; bg_free_inodes_count : Z }.
Definition set_free_blocks (n : Z) (g : group_desc) : group_desc :=
  mk_gd (bg_block_bitmap g) (bg_inode_bitmap g) (bg_inode_table g) n (bg_free_inodes_count g).
Definition set_free_inodes (n : Z) (g : group_desc) : group_desc :=
  mk_gd (bg_block_bitmap g) (bg_inode_bitmap g) (bg_inode_table g) (bg_free_blocks_count g) n.

Record ext2_sb_info := mk_sbi {
  block_size : Z; blocks_per_group : Z; inodes_per_group : Z; inode_size : Z; first_data_block : Z; num_groups : Z }.

(** [struct ext2_inode]: 128 bytes. *)
Definition INODE_BYTES : Z := 128.
Definition EXT2_NDIR_BLOCKS : Z := 12.
Definition EXT2_IND_BLOCK : Z := 12.
Definition EXT2_DIND_BLOCK : Z := 13.
Definition EXT2_N_BLOCKS : Z := 15.
Definition i_mode (raw : list Z) : Z := le_value (take 2 raw).
Definition i_size (raw : list Z) : Z := le_value (take 4 (drop 4 raw)).
Definition i_links_count (raw : list Z) : Z := le_value (take 2 (drop 26 raw)).
Definition i_blocks (raw : list Z) : Z := le_value (take 4 (drop 28 raw)).
Definition i_block (raw : list Z) (k : Z) : option Z :=
  if (0 <=? k) && (k <? EXT2_N_BLOCKS) then field_at raw (40 + 4 * k) 4 else None.
Definition set_i_size (v : Z) (raw : list Z) : option (list Z) := set_field raw 4 4 v.
Definition set_i_links (v : Z) (raw : list Z) : option (list Z) := set_field raw 26 2 v.
Definition set_i_blocks (v : Z) (raw : list Z) : option (list Z) := set_field raw 28 4 v.
Definition set_i_block (k v : Z) (raw : list Z) : option (list Z) :=
  if (0 <=? k) && (k <? EXT2_N_BLOCKS) then set_field raw (40 + 4 * k) 4 v else None.
Definition EXT2_S_IFDIR : Z := 0x4000.

(** [struct ext2_inode_info] behind a VFS inode, and the inode's [is_dir]. *)
Record ext2_inode_info := mk_info { inode_num : Z; info_raw : list Z }.
Definition is_dir (i : ext2_inode_info) : bool := negb (Z.land (i_mode (info_raw i)) EXT2_S_IFDIR =? 0).

Record ext2 (D : Type) := mk_ext2 { bdev : D; sbi : ext2_sb_info; gd : list group_desc; emem : list bool }.
Arguments mk_ext2 {D}. Arguments bdev {D}. Arguments sbi {D}. Arguments gd {D}. Arguments emem {D}.

Section ext2.
Context `{BlockDevice D}.
Definition EM := ST (ext2 D).

Definition set_bdev (d : D) (s : ext2 D) : ext2 D := mk_ext2 d (sbi s) (gd s) (emem s).
Definition set_gd (g : list group_desc) (s : ext2 D) : ext2 D := mk_ext2 (bdev s) (sbi s) g (emem s).
Definition kmalloc : EM bool :=
  λ s, match emem s with [] => Some (true, s) | b :: l => Some (b, mk_ext2 (bdev s) (sbi s) (gd s) l) end.
Definition lift {A} (o : option A) : EM A := λ s, match o with Some a => Some (a, s) | None => None end.

(** ** Blocks *)
Definition sectors_per_block (d : D) (bs : Z) : Z := bs / bd_block_size d.
Definition read_block (d : D) (bs block_num : Z) : option (list Z) :=
  block_dev_read d (u64 (block_num * sectors_per_block d bs)) (sectors_per_block d bs).
Definition write_block (d : D) (bs block_num : Z) (buf : list Z) : option D :=
  block_dev_write d buf (u64 (block_num * sectors_per_block d bs)) (sectors_per_block d bs).
(** The two calls on the mounted device; a failed one is [None] or [false]. *)
Definition rd_block (n : Z) : EM (option (list Z)) := gets (λ s, read_block (bdev s) (block_size (sbi s)) n).
Definition wr_block (n : Z) (buf : list Z) : EM bool :=
  λ s, match write_block (bdev s) (block_size (sbi s)) n buf with
       | Some d => Some (true, set_bdev d s)
       | None => Some (false, s)
       end.

Definition rec_len_for_name (name_len : Z) : Z := Z.land (u16 (8 + name_len) + 3) 0xFFFC.
Definition inode_group (b : ext2_sb_info) (ino : Z) : Z := u32 (ino - 1) / inodes_per_group b.
Definition inode_index (b : ext2_sb_info) (ino : Z) : Z := u32 (ino - 1) mod inodes_per_group b.

(** ** Inodes on disk *)

(** The block and the offset of inode number [index] of a table. *)
Definition inode_place (b : ext2_sb_info) (table index : Z) : Z * Z :=
  let inodes_per_block := block_size b / inode_size b in
  (u32 (table + index / inodes_per_block), u32 (index mod inodes_per_block * inode_size b)).
(** An error code, or the raw inode in a structure that was zero. *)
Definition ext2_read_inode_raw (inum : Z) : EM (Z + list Z) :=
  b <- gets sbi ;;
  if inum =? 0 then ret (inl (- EINVAL)) else
  if (inode_size b =? 0) || (block_size b <? inode_size b) then ret (inl (- EINVAL)) else
  if num_groups b <=? inode_group b inum then ret (inl (- EINVAL)) else
  gds <- gets gd ;;
  g <- lift (gds !! Z.to_nat (inode_group b inum)) ;;
  let '(blk, o) := inode_place b (bg_inode_table g) (inode_index b inum) in
  ok <- kmalloc ;;
  if negb ok then ret (inl (- ENOMEM)) else
  r <- rd_block blk ;;
  match r with
  | None => ret (inl (- EIO))
  | Some buf =>
      w <- lift (slice buf o (inode_size b)) ;;
      raw <- lift (patch (replicate (Z.to_nat INODE_BYTES) 0) 0 w) ;;
      ret (inr raw)
  end.
Definition ext2_write_inode_raw (inum : Z) (raw : list Z) : EM Z :=
  b <- gets sbi ;;
  if inum =? 0 then ret (- EINVAL) else
  if num_groups b <=? inode_group b inum then ret (- EINVAL) else
  gds <- gets gd ;;
  g <- lift (gds !! Z.to_nat (inode_group b inum)) ;;
  if (inode_size b =? 0) || (block_size b <? inode_size b) then fail else   (* division by zero *)
  let '(blk, o) := inode_place b (bg_inode_table g) (inode_index b inum) in
  ok <- kmalloc ;;
  if negb ok then ret (- ENOMEM) else
  r <- rd_block blk ;;
  match r with
  | None => ret (- EIO)
  | Some buf =>
      w <- lift (slice raw 0 (inode_size b)) ;;
      buf <- lift (patch buf o w) ;;
      ok <- wr_block blk buf ;;
      ret (if (ok : bool) then 0 else - EIO)
  end.

(** ** Data blocks *)

(** Entry [idx] of the pointer block [blk]. *)
Definition ind_entry (blk idx : Z) : EM (Z + Z) :=
  ok <- kmalloc ;;
  if negb ok then ret (inl (- ENOMEM)) else
  r <- rd_block blk ;;
  match r with
  | None => ret (inl (- EIO))
  | Some buf => p <- lift (field_at buf (4 * idx) 4) ;; ret (inr p)
  end.
Definition data_block (blk : Z) : EM (Z + list Z) :=
  if blk =? 0 then ret (inl (- EIO)) else
  r <- rd_block blk ;; ret (match r with None => inl (-1) | Some buf => inr buf end).
Definition ext2_read_data_block (raw : list Z) (logical_block : Z) : EM (Z + list Z) :=
  b <- gets sbi ;;
  let ptrs := block_size b / 4 in
  if logical_block <? EXT2_NDIR_BLOCKS then blk <- lift (i_block raw logical_block) ;; data_block blk else
  let logical_block := logical_block - EXT2_NDIR_BLOCKS in
  if logical_block <? ptrs then
    ind_blk <- lift (i_block raw EXT2_IND_BLOCK) ;;
    if ind_blk =? 0 then ret (inl (- EIO)) else
    e <- ind_entry ind_blk logical_block ;;
    match e with inl r => ret (inl r) | inr blk => data_block blk end
  else
  let logical_block := logical_block - ptrs in
  if logical_block <? u32 (ptrs * ptrs) then
    dind_blk <- lift (i_block raw EXT2_DIND_BLOCK) ;;
    if dind_blk =? 0 then ret (inl (- EIO)) else
    e <- ind_entry dind_blk (logical_block / ptrs) ;;
    match e with
    | inl r => ret (inl r)
    | inr ind_blk =>
        if ind_blk =? 0 then ret (inl (- EIO)) else
        e <- ind_entry ind_blk (logical_block mod ptrs) ;;
        match e with inl r => ret (inl r) | inr blk => data_block blk end
    end
  else ret (inl (- ENOSYS)).

Definition wr_data (blk : Z) (buf : list Z) : EM Z := ok <- wr_block blk buf ;; ret (if (ok : bool) then 0 else -1).
Definition ext2_write_data_block (raw : list Z) (logical_block : Z) (buf : list Z) : EM Z :=
  b <- gets sbi ;;
  let ptrs := block_size b / 4 in
  if logical_block <? EXT2_NDIR_BLOCKS then
    blk <- lift (i_block raw logical_block) ;; if blk =? 0 then ret (- EIO) else wr_data blk buf
  else
  let logical_block := logical_block - EXT2_NDIR_BLOCKS in
  if logical_block <? ptrs then
    ind_blk <- lift (i_block raw EXT2_IND_BLOCK) ;;
    if ind_blk =? 0 then ret (- EIO) else
    e <- ind_entry ind_blk logical_block ;;
    match e with inl r => ret r | inr blk => if blk =? 0 then ret (- EIO) else wr_data blk buf end
  else ret (- ENOSYS).

(** ** Bitmaps *)
Definition bit_of (bitmap : list Z) (i : Z) : option bool := x ← at_ bitmap (i / 8); Some (Z.testbit x (i mod 8)).
Definition set_bit (bitmap : list Z) (i : Z) : option (list Z) :=
  x ← at_ bitmap (i / 8); set_ bitmap (i / 8) (Z.lor x (Z.shiftl 1 (i mod 8))).
Definition clear_bit (bitmap : list Z) (i : Z) : option (list Z) :=
  x ← at_ bitmap (i / 8); set_ bitmap (i / 8) (Z.land x (u8 (Z.lnot (Z.shiftl 1 (i mod 8))))).
(** The first clear bit among [n] from [i] on. *)
Fixpoint find_clear (n : nat) (i : Z) (bitmap : list Z) : option (option Z) :=
  match n with
  | O => Some None
  | S n => x ← bit_of bitmap i; if negb x then Some (Some i) else find_clear n (i + 1) bitmap
  end.

(** What the two allocators do in a group with free entries: [inl] leaves the
    function, [inr] is the bit taken, if one is clear. *)
Definition take_bit (bitmap_block limit : Z) : EM (Z + option Z) :=
  b <- gets sbi ;;
  ok <- kmalloc ;;
  if negb ok then ret (inl 0) else
  r <- rd_block bitmap_block ;;
  match r with
  | None => ret (inl 0)
  | Some bitmap =>
      f <- lift (find_clear (Z.to_nat (limit `min` (block_size b * 8))) 0 bitmap) ;;
      match f with
      | None => ret (inr None)
      | Some i => bitmap <- lift (set_bit bitmap i) ;; wr_block bitmap_block bitmap ;;; ret (inr (Some i))
      end
  end.
Definition upd_group (group : Z) (f : group_desc → group_desc) : EM unit :=
  modify (λ s, set_gd (alter f (Z.to_nat group) (gd s)) s).
Fixpoint alloc_block_from (n : nat) (group : Z) : EM Z :=
  match n with
  | O => ret 0
  | S n =>
      b <- gets sbi ;;
      gds <- gets gd ;;
      g <- lift (gds !! Z.to_nat group) ;;
      if 0 <? bg_free_blocks_count g then
        r <- take_bit (bg_block_bitmap g) (blocks_per_group b) ;;
        match r with
        | inl r => ret r
        | inr None => alloc_block_from n (group + 1)
        | inr (Some i) =>
            upd_group group (set_free_blocks (u16 (bg_free_blocks_count g - 1))) ;;;
            ret (u32 (group * blocks_per_group b + i + first_data_block b))
        end
      else alloc_block_from n (group + 1)
  end.
Definition ext2_alloc_block : EM Z := b <- gets sbi ;; alloc_block_from (Z.to_nat (num_groups b)) 0.
Fixpoint alloc_inode_from (n : nat) (group : Z) : EM Z :=
  match n with
  | O => ret 0
  | S n =>
      b <- gets sbi ;;
      gds <- gets gd ;;
      g <- lift (gds !! Z.to_nat group) ;;
      if 0 <? bg_free_inodes_count g then
        r <- take_bit (bg_inode_bitmap g) (inodes_per_group b) ;;
        match r with
        | inl r => ret r
        | inr None => alloc_inode_from n (group + 1)
        | inr (Some i) =>
            upd_group group (set_free_inodes (u16 (bg_free_inodes_count g - 1))) ;;;
            ret (u32 (group * inodes_per_group b + i + 1))
        end
      else alloc_inode_from n (group + 1)
  end.
Definition ext2_alloc_inode : EM Z := b <- gets sbi ;; alloc_inode_from (Z.to_nat (num_groups b)) 0.

(** The common part of the two releases: whether the bit was cleared. *)
Definition release_bit (bitmap_block index : Z) : EM bool :=
  ok <- kmalloc ;;
  if negb ok then ret false else
  r <- rd_block bitmap_block ;;
  match r with
  | None => ret false
  | Some bitmap => bitmap <- lift (clear_bit bitmap index) ;; wr_block bitmap_block bitmap ;;; ret true
  end.
Definition ext2_free_block (blk : Z) : EM unit :=
  b <- gets sbi ;;
  if blk =? 0 then ret tt else
  let group := u32 (blk - first_data_block b) / blocks_per_group b in
  if num_groups b <=? group then ret tt else
  gds <- gets gd ;;
  g <- lift (gds !! Z.to_nat group) ;;
  ok <- release_bit (bg_block_bitmap g) (u32 (blk - first_data_block b) mod blocks_per_group b) ;;
  if (ok : bool) then upd_group group (set_free_blocks (u16 (bg_free_blocks_count g + 1))) else ret tt.
Definition ext2_free_inode (ino : Z) : EM unit :=
  b <- gets sbi ;;
  if ino =? 0 then ret tt else
  let group := inode_group b ino in
  if num_groups b <=? group then ret tt else
  gds <- gets gd ;;
  g <- lift (gds !! Z.to_nat group) ;;
  ok <- release_bit (bg_inode_bitmap g) (inode_index b ino) ;;
  if (ok : bool) then upd_group group (set_free_inodes (u16 (bg_free_inodes_count g + 1))) else ret tt.

(** ** Files *)

(** The offsets within a file: [off_t] is signed, the quotient is truncated. *)
Definition logical_of (offset bs : Z) : Z := u32 (Z.quot offset bs).
Definition within_of (offset bs : Z) : Z := u32 (Z.rem offset bs).

(** The loop of [ext2_file_read]: [acc] is what the buffer holds so far.  The
    result is the return value, the bytes and the new offset. *)
Fixpoint read_loop (fuel : nat) (raw : list Z) (acc : list Z) (count offset : Z) : EM (Z * list Z * Z) :=
  match fuel with
  | O => fail
  | S fuel =>
      b <- gets sbi ;;
      let bs := block_size b in
      if (0 <? count) && (offset <? i_size raw) then
        r <- ext2_read_data_block raw (logical_of offset bs) ;;
        match r with
        | inl _ => ret (if 0 <? zlen acc then zlen acc else - EIO, acc, offset)
        | inr buf =>
            let block_offset := within_of offset bs in
            let chunk := u32 (bs - block_offset) in
            let chunk := if count <? chunk then count else chunk in
            let chunk := if i_size raw <? u64 (u64 offset + chunk) then u64 (i_size raw - u64 offset) else chunk in
            w <- lift (slice buf block_offset chunk) ;;
            read_loop fuel raw (acc ++ w) (count - chunk) (offset + chunk)
        end
      else ret (zlen acc, acc, offset)
  end.
Definition ext2_file_read (info : ext2_inode_info) (count offset : Z) : EM (Z * list Z * Z) :=
  let raw := info_raw info in
  if i_size raw <=? offset then ret (0, [], offset) else
  ok <- kmalloc ;;
  if negb ok then ret (- ENOMEM, [], offset) else
  read_loop (S (Z.to_nat count)) raw [] count offset.

(** The block that a write at [offset] goes to exists, or one is taken and
    filled with zeros; [None] when there is none. *)
Definition ensure_block (raw : list Z) (logical_block : Z) : EM (option (list Z)) :=
  b <- gets sbi ;;
  blk <- lift (i_block raw logical_block) ;;
  if negb (blk =? 0) then ret (Some raw) else
  new_blk <- ext2_alloc_block ;;
  if new_blk =? 0 then ret None else
  raw <- lift (set_i_block logical_block new_blk raw) ;;
  raw <- lift (set_i_blocks (u32 (i_blocks raw + block_size b / 512)) raw) ;;
  wr_block new_blk (replicate (Z.to_nat (block_size b)) 0) ;;;
  ret (Some raw).
(** [old] is [block_buf] before the call. *)
Definition block_before (raw old : list Z) (logical_block block_offset count : Z) : EM (Z + list Z) :=
  b <- gets sbi ;;
  if negb (block_offset =? 0) || (count <? block_size b) then ext2_read_data_block raw logical_block else ret (inr old).
(** The loop of [ext2_file_write]: [inl] is an early return, [inr] the end of
    the loop; both with the raw inode and the offset. *)
Fixpoint write_loop (fuel : nat) (raw old data : list Z) (total offset max_offset : Z) : EM ((Z + Z) * list Z * Z) :=
  match fuel with
  | O => fail
  | S fuel =>
      b <- gets sbi ;;
      let bs := block_size b in
      let count := zlen data in
      if (0 <? count) && (offset <? max_offset) then
        let logical_block := logical_of offset bs in
        let block_offset := within_of offset bs in
        e <- ensure_block raw logical_block ;;
        match e with
        | None => ret (inl (if 0 <? total then total else - ENOSPC), raw, offset)
        | Some raw =>
            r <- block_before raw old logical_block block_offset count ;;
            match r with
            | inl _ => ret (inl (if 0 <? total then total else - EIO), raw, offset)
            | inr buf =>
                let chunk := u32 (bs - block_offset) in
                let chunk := if count <? chunk then count else chunk in
                buf <- lift (patch buf block_offset (take (Z.to_nat chunk) data)) ;;
                w <- ext2_write_data_block raw logical_block buf ;;
                if w <? 0 then ret (inl (if 0 <? total then total else - EIO), raw, offset)
                else write_loop fuel raw buf (drop (Z.to_nat chunk) data) (total + chunk) (offset + chunk) max_offset
            end
        end
      else ret (inr total, raw, offset)
  end.
(** [junk] is the new [block_buf].  The result is the return value, the inode
    and the new offset. *)
Definition ext2_file_write (info : ext2_inode_info) (junk data : list Z) (offset : Z) : EM (Z * ext2_inode_info * Z) :=
  b <- gets sbi ;;
  let max_offset := u32 (EXT2_NDIR_BLOCKS * block_size b) in
  if max_offset <=? offset then ret (- ENOSPC, info, offset) else
  ok <- kmalloc ;;
  if negb ok then ret (- ENOMEM, info, offset) else
  x <- write_loop (S (length data)) (info_raw info) junk data 0 offset max_offset ;;
  let '(r, raw, offset) := x in
  match r with
  | inl r => ret (r, mk_info (inode_num info) raw, offset)
  | inr total =>
      raw <- (if i_size raw <? u32 offset then lift (set_i_size (u32 offset) raw) else ret raw) ;;
      ext2_write_inode_raw (inode_num info) raw ;;;
      ret (total, mk_info (inode_num info) raw, offset)
  end.

(** ** Directories *)

(** [strncmp(buf + o, name, strlen(name)) == 0], byte by byte. *)
Fixpoint same_name (buf : list Z) (o : Z) (name : list Z) : option bool :=
  match name with
  | [] => Some true
  | c :: name => x ← at_ buf o; if x =? c then same_name buf (o + 1) name else Some false
  end.
Definition de_inode (buf : list Z) (o : Z) : option Z := field_at buf o 4.
Definition de_rec_len (buf : list Z) (o : Z) : option Z := field_at buf (o + 4) 2.
Definition de_name_len (buf : list Z) (o : Z) : option Z := field_at buf (o + 6) 1.
Definition de_file_type (buf : list Z) (o : Z) : option Z := field_at buf (o + 7) 1.

(** The entry is found: its inode is read. *)
Definition child_of (ino : Z) : EM (Z * option ext2_inode_info) :=
  ok <- kmalloc ;;
  if negb ok then ret (- ENOMEM, None) else
  r <- ext2_read_inode_raw ino ;;
  match r with
  | inl _ => ret (- EIO, None)
  | inr raw =>
      ok <- kmalloc ;;
      if negb ok then ret (- ENOMEM, None) else
      ok <- kmalloc ;;
      if negb ok then ret (- ENOMEM, None) else
      ret (0, Some (mk_info ino raw))
  end.
(** The two nested loops: [cur] is the block being parsed and the offset in it,
    or nothing between blocks; [off] is the position in the directory. *)
Fixpoint lookup_loop (fuel : nat) (raw name : list Z) (cur : option (list Z * Z)) (off : Z) : EM (Z * option ext2_inode_info) :=
  match fuel with
  | O => fail
  | S fuel =>
      b <- gets sbi ;;
      let bs := block_size b in
      match cur with
      | None =>
          if off <? i_size raw then
            r <- ext2_read_data_block raw (off / bs) ;;
            match r with
            | inl _ => ret (- EIO, None)
            | inr buf => lookup_loop fuel raw name (Some (buf, off mod bs)) off
            end
          else ret (- ENOENT, None)
      | Some (buf, o) =>
          if o <? bs then
            if i_size raw <=? off then ret (- ENOENT, None) else
            ino <- lift (de_inode buf o) ;;
            rec <- lift (de_rec_len buf o) ;;
            if rec =? 0 then ret (- ENOENT, None) else
            nl <- lift (de_name_len buf o) ;;
            same <- (if nl =? zlen name then lift (same_name buf (o + 8) name) else ret false) ;;
            if (same : bool) then child_of ino
            else lookup_loop fuel raw name (Some (buf, u32 (o + rec))) (u32 (off + rec))
          else lookup_loop fuel raw name None off
      end
  end.
Definition lookup_fuel (raw : list Z) : nat := 3 * Z.to_nat (i_size raw) + 3.
Definition ext2_dir_lookup (dir : ext2_inode_info) (name : list Z) : EM (Z * option ext2_inode_info) :=
  ok <- kmalloc ;;
  if negb ok then ret (- ENOMEM, None) else
  lookup_loop (lookup_fuel (info_raw dir)) (info_raw dir) name None 0.

(** [out] is the user's buffer; the result is the return value, the buffer and
    the position, which stays at [offset] when a block cannot be read. *)
Fixpoint readdir_loop (fuel : nat) (raw : list Z) (offset : Z) (out : list Z) (cur : option (list Z * Z)) (total pos : Z) : EM (Z * list Z * Z) :=
  match fuel with
  | O => fail
  | S fuel =>
      b <- gets sbi ;;
      let bs := block_size b in
      match cur with
      | None =>
          if (pos <? i_size raw) && (total <? zlen out) then
            r <- ext2_read_data_block raw (pos / bs) ;;
            match r with
            | inl _ => ret (if 0 <? total then total else - EIO, out, offset)
            | inr buf => readdir_loop fuel raw offset out (Some (buf, pos mod bs)) total pos
            end
          else ret (total, out, pos)
      | Some (buf, o) =>
          if (o <? bs) && (total <? zlen out) then
            if i_size raw <=? pos then ret (total, out, pos) else
            ino <- lift (de_inode buf o) ;;
            rec <- lift (de_rec_len buf o) ;;
            if rec =? 0 then ret (total, out, pos) else
            nl <- lift (de_name_len buf o) ;;
            let entry_size := rec_len_for_name nl in
            if zlen out <? total + entry_size then ret (total, out, pos) else
            ft <- lift (de_file_type buf o) ;;
            name <- lift (slice buf (o + 8) nl) ;;
            out <- lift (patch out total (le_bytes 4 ino ++ le_bytes 2 entry_size ++ [nl; ft] ++ name)) ;;
            readdir_loop fuel raw offset out (Some (buf, u32 (o + rec))) (total + entry_size) (u32 (pos + rec))
          else readdir_loop fuel raw offset out None total pos
      end
  end.
Definition ext2_readdir (dir : ext2_inode_info) (out : list Z) (offset : Z) : EM (Z * list Z * Z) :=
  let raw := info_raw dir in
  if i_size raw <=? offset then ret (0, out, offset) else
  ok <- kmalloc ;;
  if negb ok then ret (- ENOMEM, out, offset) else
  readdir_loop (lookup_fuel raw) raw offset out None 0 (u32 offset).

(** ** Inodes for the VFS *)
Definition ext2_read_inode_sbi (inum : Z) : EM (option ext2_inode_info) :=
  ok <- kmalloc ;;
  if negb ok then ret None else
  r <- ext2_read_inode_raw inum ;;
  match r with
  | inl _ => ret None
  | inr raw => ok <- kmalloc ;; if negb ok then ret None else ret (Some (mk_info inum raw))
  end.
Definition ext2_read_inode (inum : Z) : EM (option ext2_inode_info) := ext2_read_inode_sbi inum.

(** ** Creating a file *)
Definition file_type_of (mode : Z) : Z := if Z.land mode EXT2_S_IFDIR =? 0 then 1 else 2.
(** A directory entry's members and name, without the rest of its record. *)
Definition dir_entry (ino rec_len mode : Z) (name : list Z) : list Z :=
  le_bytes 4 ino ++ le_bytes 2 (u16 rec_len) ++ [u8 (zlen name); file_type_of mode] ++ name.
(** The scan of the last block: the block with the entry, if a record has room. *)
Fixpoint find_slot (fuel : nat) (buf : list Z) (off bs new_rec_len : Z) (entry : Z → list Z) : option (option (list Z)) :=
  match fuel with
  | O => None
  | S fuel =>
      if off <? bs then
        rec ← de_rec_len buf off;
        if rec =? 0 then Some None else
        nl ← de_name_len buf off;
        let min_rec := rec_len_for_name nl in
        if min_rec + new_rec_len <=? rec then
          buf ← set_field buf (off + 4) 2 min_rec;
          buf ← patch buf (off + min_rec) (entry (rec - min_rec));
          Some (Some buf)
        else find_slot fuel buf (u32 (off + rec)) bs new_rec_len entry
      else Some None
  end.
Definition new_inode (mode : Z) : option (list Z) :=
  raw ← set_field (replicate (Z.to_nat INODE_BYTES) 0) 0 2 (u16 (Z.lor mode 0x1A4)); set_i_links 1 raw.

(** How the search for a place ends: [Placed] in an existing record, [NoRoom]
    with the offset to append at, or [Stop], an error. *)
Inductive placing := Placed | NoRoom (new_offset : Z) | Stop.
Definition place_entry (raw buf : list Z) (new_rec_len : Z) (entry : Z → list Z) : EM (placing * list Z) :=
  b <- gets sbi ;;
  let bs := block_size b in
  let dir_size := i_size raw in
  if dir_size <=? 0 then ret (NoRoom dir_size, buf) else
  let last := (dir_size - 1) / bs in
  if EXT2_NDIR_BLOCKS <=? last then ret (NoRoom dir_size, buf) else
  blk <- lift (i_block raw last) ;;
  if blk =? 0 then ret (NoRoom dir_size, buf) else
  r <- rd_block blk ;;
  match r with
  | None => ret (Stop, buf)
  | Some buf =>
      f <- lift (find_slot (S (Z.to_nat bs)) buf 0 bs new_rec_len entry) ;;
      match f with
      | None => ret (NoRoom (u32 ((last + 1) * bs)), buf)
      | Some buf => ok <- wr_block blk buf ;; ret (if (ok : bool) then Placed else Stop, buf)
      end
  end.
(** The entry goes to the end of the directory: [inr] is the directory's inode,
    [inl] the block to give back, if any. *)
Definition append_entry (raw buf : list Z) (new_offset new_rec_len : Z) (entry : Z → list Z) : EM (option Z + list Z) :=
  b <- gets sbi ;;
  let bs := block_size b in
  let blk_idx := new_offset / bs in
  let blk_off := new_offset mod bs in
  r <- (if blk_off =? 0 then
          new_blk <- ext2_alloc_block ;;
          if new_blk =? 0 then ret (inl None) else
          if EXT2_NDIR_BLOCKS <=? blk_idx then ret (inl (Some new_blk)) else
          raw <- lift (set_i_block blk_idx new_blk raw) ;;
          raw <- lift (set_i_blocks (u32 (i_blocks raw + bs / 512)) raw) ;;
          ret (inr (raw, replicate (Z.to_nat bs) 0))
        else
          blk <- lift (i_block raw blk_idx) ;;
          r <- rd_block blk ;;
          ret (match r with None => inl None | Some buf => inr (raw, buf) end)) ;;
  match r with
  | inl e => ret (inl e)
  | inr (raw, buf) =>
      buf <- lift (patch buf blk_off (entry (bs - blk_off))) ;;
      blk <- lift (i_block raw blk_idx) ;;
      wr_block blk buf ;;;
      raw <- lift (set_i_size (u32 (new_offset + new_rec_len)) raw) ;;
      ret (inr raw)
  end.
(** [junk] is the new [block_buf].  The result is the inode of the file, if it
    was made, and the directory. *)
Definition ext2_create (dir : ext2_inode_info) (junk name : list Z) (mode : Z) : EM (option ext2_inode_info * ext2_inode_info) :=
  if 255 <? zlen name then ret (None, dir) else
  new_ino <- ext2_alloc_inode ;;
  if new_ino =? 0 then ret (None, dir) else
  new_raw <- lift (new_inode mode) ;;
  w <- ext2_write_inode_raw new_ino new_raw ;;
  if w <? 0 then ext2_free_inode new_ino ;;; ret (None, dir) else
  ok <- kmalloc ;;
  if negb ok then ext2_free_inode new_ino ;;; ret (None, dir) else
  let new_rec_len := rec_len_for_name (u8 (zlen name)) in
  let entry rec := dir_entry new_ino rec mode name in
  x <- place_entry (info_raw dir) junk new_rec_len entry ;;
  let '(p, buf) := x in
  a <- match p with
       | Stop => ret (inl None)
       | Placed => ret (inr (info_raw dir))
       | NoRoom new_offset => append_entry (info_raw dir) buf new_offset new_rec_len entry
       end ;;
  match a with
  | inl e =>
      match e with Some blk => ext2_free_block blk | None => ret tt end ;;;
      ext2_free_inode new_ino ;;;
      ret (None, dir)
  | inr raw =>
      ext2_write_inode_raw (inode_num dir) raw ;;;
      raw <- (if Z.land mode EXT2_S_IFDIR =? 0 then ret raw else
              raw <- lift (set_i_links (u16 (i_links_count raw + 1)) raw) ;;
              ext2_write_inode_raw (inode_num dir) raw ;;;
              ret raw) ;;
      i <- ext2_read_inode new_ino ;;
      ret (i, mk_info (inode_num dir) raw)
  end.
End ext2.

(** ** Mounting *)
Definition EXT2_SUPER_MAGIC : Z := 0xEF53.
Definition EXT2_MIN_BLOCK_SIZE : Z := 1024.
Definition EXT2_MAX_BLOCK_SIZE : Z := 4096.

Section mount.
Context `{BlockDevice D}.

(** [kmalloc] before there is a file system: the oracle is threaded. *)
Definition take_mem (m : list bool) : bool * list bool := match m with [] => (true, []) | b :: m => (b, m) end.
(** The superblock's 1024 bytes by the three attempts; a read that does not fit
    its buffer has no outcome. *)
Definition into (n : Z) (data : list Z) : option (list Z) := patch (replicate (Z.to_nat n) 0) 0 data.
Definition read_super (d : D) (m : list bool) : option (option (list Z) * list bool) :=
  match block_dev_read d 2 2 with
  | Some data => b ← into 1024 data; Some (Some b, m)
  | None =>
      match block_dev_read d 1 1 with
      | Some data => b ← into 1024 data; Some (Some b, m)
      | None =>
          let '(ok, m) := take_mem m in
          if negb ok then Some (None, m) else
          match block_dev_read d 0 4 with
          | None => Some (None, m)
          | Some data => temp ← into 2048 data; b ← slice temp 1024 1024; Some (Some b, m)
          end
      end
  end.
Definition parse_gd (buf : list Z) (i : nat) : option group_desc :=
  let o := 32 * Z.of_nat i in
  bb ← field_at buf o 4; ib ← field_at buf (o + 4) 4; it ← field_at buf (o + 8) 4;
  fb ← field_at buf (o + 12) 2; fi ← field_at buf (o + 14) 2;
  Some (mk_gd bb ib it fb fi).
(** The block group descriptors into a buffer of [size] bytes: [Some None] is a
    failed read. *)
Fixpoint load_gd (n : nat) (d : D) (bs gd_start i : Z) (buf : list Z) : option (option (list Z)) :=
  match n with
  | O => Some (Some buf)
  | S n =>
      match read_block d bs (u32 (gd_start + i)) with
      | None => Some None
      | Some blk => buf ← patch buf (u32 (i * bs)) blk; load_gd n d bs gd_start (i + 1) buf
      end
  end.
(** The fields of the superblock that the code uses; [Some None] rejects it.  A
    shift past the width of [int] has no outcome. *)
Definition parse_super (sb : list Z) : option (option (ext2_sb_info * Z)) :=
  magic ← field_at sb 56 2;
  if negb (magic =? EXT2_SUPER_MAGIC) then Some None else
  log ← field_at sb 24 4;
  if 21 <=? log then None else
  let bs := u32 (Z.shiftl 1024 log) in
  if (bs <? EXT2_MIN_BLOCK_SIZE) || (EXT2_MAX_BLOCK_SIZE <? bs) then Some None else
  bpg ← field_at sb 32 4; ipg ← field_at sb 40 4; isz ← field_at sb 88 2;
  let isz := if isz =? 0 then 128 else isz in
  if (bpg =? 0) || (ipg =? 0) then Some None else
  fdb ← field_at sb 20 4; total ← field_at sb 4 4;
  let groups := u32 (total + bpg - 1) / bpg in
  let gd_blocks := u32 (u64 (groups * 32 + bs - 1) / bs) in
  Some (Some (mk_sbi bs bpg ipg isz fdb groups, gd_blocks)).

(** The mounted file system and its root inode; [Some None] is a null result.
    The descriptors are parsed at once: a table that is larger than its buffer,
    which needs the 32-bit product of its size to wrap, has no outcome. *)
Definition ext2_mount (d : D) (m : list bool) : option (option (ext2 D * ext2_inode_info)) :=
  let '(ok, m) := take_mem m in
  if negb ok then Some None else
  let '(ok, m) := take_mem m in
  if negb ok then Some None else
  '(sb, m) ← read_super d m;
  match sb with
  | None => Some None
  | Some sb =>
      let '(ok, m) := take_mem m in
      if negb ok then Some None else
      p ← parse_super sb;
      match p with
      | None => Some None
      | Some (b, gd_blocks) =>
          let bs := block_size b in
          let '(ok, m) := take_mem m in
          if negb ok then Some None else
          buf ← load_gd (Z.to_nat gd_blocks) d bs (if bs =? 1024 then 2 else 1) 0 (replicate (Z.to_nat (u32 (gd_blocks * bs))) 0);
          match buf with
          | None => Some None
          | Some buf =>
              gds ← mapM (parse_gd buf) (seq 0 (Z.to_nat (num_groups b)));
              '(root, s) ← ext2_read_inode_sbi 2 (mk_ext2 d b gds m);
              match root with
              | None => Some None
              | Some root =>
                  '(ok, s) ← kmalloc s;
                  if negb ok then Some None else Some (Some (s, root))
              end
          end
      end
  end.
End mount.
