(* ===== verification/Ext2Thms.v ===== *)
(** * Properties of the ext2 driver over any block device that keeps its laws.

    [dk s n] is file system block [n] of the device.  The theorems take a
    geometry that the device can hold and an allocator that grants memory; the
    failures of [kmalloc] only shorten a call. *)
From S2P Require Import Prelude Bytes BlockDev Ext2.
Local Open Scope Z_scope.
Local Open Scope kernel_scope.

Section laws.
Context `{BL : BlockLaws D} (b : ext2_sb_info) (N : Z).
Implicit Types s : ext2 D.
Local Notation bs := (block_size b).

(** The device holds [N] blocks; memory is granted; the groups keep their places. *)
Record base (BM IT : list Z) (s : ext2 D) : Prop := {
  b_ok : bd_ok (bdev s);
  b_sbi : sbi s = b;
  b_mem : emem s = [];
  b_spb : 0 < sectors_per_block (bdev s) bs;
  b_bs : sectors_per_block (bdev s) bs * bd_block_size (bdev s) = bs;
  b_dev : N * sectors_per_block (bdev s) bs ≤ bd_sectors (bdev s);
  b_maps : map bg_block_bitmap (gd s) = BM;
  b_tables : map bg_inode_table (gd s) = IT
}.
Definition dk (s : ext2 D) (n : Z) : list Z := load (bd_mem (bdev s)) (n * bs) (Z.to_nat bs).
Definition in_range (n : Z) : Prop := 0 ≤ n < N.

Lemma length_dk s n : length (dk s n) = Z.to_nat bs.
Proof. apply length_load. Qed.
Lemma base_pos BM IT s : base BM IT s → 0 < bs ∧ N * sectors_per_block (bdev s) bs < 2 ^ 63.
Proof.
  intros B. destruct (bl_size (bdev s) (b_ok _ _ _ B)) as (H1 & H2 & H3). pose proof (b_bs _ _ _ B). pose proof (b_spb _ _ _ B).
  pose proof (b_dev _ _ _ B). split; [nia|]. nia.
Qed.
Lemma rd_block_run BM IT s n : base BM IT s → in_range n → rd_block n s = Some (Some (dk s n), s).
Proof.
  intros B Hn. unfold rd_block, gets, read_block. rewrite (b_sbi _ _ _ B). destruct (base_pos _ _ _ B) as [Hbs HN].
  pose proof (b_bs _ _ _ B) as E. pose proof (b_spb _ _ _ B). pose proof (b_dev _ _ _ B). unfold in_range in Hn.
  rewrite u64_small by nia. rewrite block_dev_read_ok; [|apply (b_ok _ _ _ B)|nia|done|nia].
  rewrite E. unfold dk. do 4 f_equal. rewrite <- Z.mul_assoc, E. done.
Qed.
Lemma wr_block_run BM IT s n buf : base BM IT s → in_range n → length buf = Z.to_nat bs →
  ∃ s', wr_block n buf s = Some (true, s') ∧ base BM IT s' ∧ gd s' = gd s ∧ dk s' n = buf ∧
    ∀ m, m ≠ n → dk s' m = dk s m.
Proof.
  intros B Hn Hl. unfold wr_block, write_block. rewrite (b_sbi _ _ _ B). destruct (base_pos _ _ _ B) as [Hbs HN].
  pose proof (b_bs _ _ _ B) as E. pose proof (b_spb _ _ _ B). pose proof (b_dev _ _ _ B) as HD. unfold in_range in Hn.
  rewrite u64_small by nia.
  destruct (block_dev_write_ok (bdev s) buf (n * sectors_per_block (bdev s) bs) (sectors_per_block (bdev s) bs)) as (d & -> & Hd & Hm & Hb & Hs);
    [apply (b_ok _ _ _ B)|nia|done|nia|lia|]. rewrite <- Z.mul_assoc, E in Hm.
  assert (sectors_per_block d bs = sectors_per_block (bdev s) bs) as Hspb by (unfold sectors_per_block; by rewrite Hb).
  exists (set_bdev d s). split; [done|]. split; [|split; [done|split]].
  - destruct B. constructor; cbn [bdev sbi gd emem set_bdev]; rewrite ?Hspb, ?Hb, ?Hs; done.
  - unfold dk. cbn [bdev set_bdev]. rewrite Hm, <- Hl. apply load_store.
  - intros m Hmn. unfold dk. cbn [bdev set_bdev]. rewrite Hm. apply load_ext. intros x Hx. apply store_lookup_out. rewrite Hl. nia.
Qed.
Lemma kmalloc_run BM IT s : base BM IT s → kmalloc s = Some (true, s).
Proof. intros B. unfold kmalloc. by rewrite (b_mem _ _ _ B). Qed.
Lemma lift_run {A} (o : option A) a s : o = Some a → lift o s = Some (a, s).
Proof. by intros ->. Qed.

(** ** Which block of the device holds block [k] of a file *)
Definition ptr_at (s : ext2 D) (blk i : Z) : Z := le_value (take 4 (drop (Z.to_nat (4 * i)) (dk s blk))).
Definition ptrs : Z := bs / 4.
Definition direct (raw : list Z) (k : Z) : Z := default 0 (i_block raw k).
(** The pointer, with the pointer blocks on the way. *)
Definition bmap (s : ext2 D) (raw : list Z) (k : Z) : list Z * Z :=
  if k <? 12 then ([], direct raw k)
  else if k - 12 <? ptrs then ([direct raw 12], ptr_at s (direct raw 12) (k - 12))
  else let j := k - 12 - ptrs in
    let ind := ptr_at s (direct raw 13) (j / ptrs) in
    ([direct raw 13; ind], ptr_at s ind (j mod ptrs)).
Definition usable (n : Z) : Prop := n ≠ 0 ∧ in_range n.
Definition mapped_block (s : ext2 D) (raw : list Z) (k : Z) : Prop :=
  0 ≤ k < 12 + ptrs + ptrs * ptrs ∧ Forall usable (bmap s raw k).1 ∧ usable (bmap s raw k).2.

Lemma i_block_ok raw k : length raw = 128%nat → 0 ≤ k < 15 → i_block raw k = Some (direct raw k).
Proof.
  intros Hl Hk. unfold direct, i_block, EXT2_N_BLOCKS. destruct (Z.leb_spec 0 k); [|lia]. destruct (Z.ltb_spec k 15); [|lia]. cbn [andb].
  rewrite field_at_ok by (unfold zlen; lia). done.
Qed.
Lemma ind_entry_run BM IT s blk i : base BM IT s → in_range blk → 0 ≤ i < ptrs → ind_entry blk i s = Some (inr (ptr_at s blk i), s).
Proof.
  intros B Hb Hi. unfold ind_entry. rewrite (bind_Some _ _ _ _ _ (kmalloc_run _ _ _ B)). cbn [negb].
  rewrite (bind_Some _ _ _ _ _ (rd_block_run _ _ _ _ B Hb)). cbv beta iota. unfold ptrs in Hi.
  pose proof (Z.mul_div_le bs 4 ltac:(lia)).
  rewrite (bind_Some _ _ _ _ _ (lift_run _ _ s (field_at_ok (dk s blk) (4 * i) 4 ltac:(lia) ltac:(lia) ltac:(unfold zlen; rewrite length_dk; lia)))).
  done.
Qed.
Lemma data_block_run BM IT s blk : base BM IT s → usable blk → data_block blk s = Some (inr (dk s blk), s).
Proof.
  intros B [Hz Hr]. unfold data_block. destruct (Z.eqb_spec blk 0); [done|]. by rewrite (bind_Some _ _ _ _ _ (rd_block_run _ _ _ _ B Hr)).
Qed.
Lemma read_data_block_run BM IT s raw k : base BM IT s → 4 ≤ bs ≤ 2 ^ 16 → length raw = 128%nat → mapped_block s raw k →
  ext2_read_data_block raw k s = Some (inr (dk s (bmap s raw k).2), s).
Proof.
  intros B Hbs Hl (Hk & Hi & Hp). unfold ext2_read_data_block. rewrite bind_gets, (b_sbi _ _ _ B). unfold EXT2_NDIR_BLOCKS, EXT2_IND_BLOCK, EXT2_DIND_BLOCK.
  fold ptrs. revert Hi Hp. unfold bmap.
  assert (0 < ptrs ≤ 2 ^ 14) as Hpt by (unfold ptrs; split; [apply Z.div_str_pos; lia|apply Z.div_le_upper_bound; lia]).
  destruct (Z.ltb_spec k 12); cbn [fst snd]; intros Hi Hp.
  { rewrite (bind_Some _ _ _ _ _ (lift_run _ _ s (i_block_ok raw k Hl ltac:(lia)))). by eapply data_block_run. }
  destruct (Z.ltb_spec (k - 12) ptrs); cbn [fst snd] in Hi, Hp |- *.
  { assert (0 ≤ k - 12 < ptrs) as Hj by lia. rewrite (bind_Some _ _ _ _ _ (lift_run _ _ s (i_block_ok raw 12 Hl ltac:(lia)))).
    apply Forall_cons in Hi as [[Hz Hr] _]. destruct (Z.eqb_spec (direct raw 12) 0); [done|].
    rewrite (bind_Some _ _ _ _ _ (ind_entry_run _ _ _ _ _ B Hr Hj)).
    by eapply data_block_run. }
  rewrite u32_small by nia. destruct (Z.ltb_spec (k - 12 - ptrs) (ptrs * ptrs)); [|lia].
  rewrite (bind_Some _ _ _ _ _ (lift_run _ _ s (i_block_ok raw 13 Hl ltac:(lia)))).
  apply Forall_cons in Hi as [[Hz Hr] Hi]. apply Forall_cons in Hi as [[Hz2 Hr2] _].
  destruct (Z.eqb_spec (direct raw 13) 0); [done|]. set (j := k - 12 - ptrs) in *.
  assert (0 ≤ j / ptrs < ptrs) as Hq by (split; [apply Z.div_pos; lia|apply Z.div_lt_upper_bound; lia]).
  rewrite (bind_Some _ _ _ _ _ (ind_entry_run _ _ _ _ _ B Hr Hq)). cbv beta iota.
  destruct (Z.eqb_spec (ptr_at s (direct raw 13) (j / ptrs)) 0); [done|].
  rewrite (bind_Some _ _ _ _ _ (ind_entry_run _ _ _ _ _ B Hr2 (Z.mod_pos_bound j ptrs ltac:(lia)))).
  by eapply data_block_run.
Qed.

(** ** The bytes of a file *)
Definition fbyte (s : ext2 D) (raw : list Z) (x : Z) : Z := nth (Z.to_nat (x mod bs)) (dk s (bmap s raw (x / bs)).2) 0.
Definition content (s : ext2 D) (raw : list Z) (o n : Z) : list Z := map (fbyte s raw) (seqZ o n).

(** Positions of one block. *)
Lemma same_block x y : 0 < bs → 0 ≤ x → x ≤ y < x - x mod bs + bs → y / bs = x / bs ∧ y mod bs = x mod bs + (y - x).
Proof.
  intros Hbs Hx Hy. pose proof (Z.div_mod x bs ltac:(lia)). pose proof (Z.mod_pos_bound x bs ltac:(lia)).
  assert (x / bs = y / bs) as E by (apply (Z.div_unique _ _ _ (y - x + x mod bs)); lia). split; [done|].
  pose proof (Z.div_mod y bs ltac:(lia)). rewrite <- E in *. lia.
Qed.
Lemma block_content s raw x c : 0 < bs → 0 ≤ x → 0 ≤ c → x mod bs + c ≤ bs →
  slice (dk s (bmap s raw (x / bs)).2) (x mod bs) c = Some (content s raw x c).
Proof.
  intros Hbs Hx Hc Hs. pose proof (Z.mod_pos_bound x bs Hbs). rewrite (slice_map _ _ _ x) by (unfold zlen; rewrite ?length_dk; lia).
  f_equal. unfold content. apply map_ext_in. intros y Hy%list_elem_of_In%elem_of_seqZ. unfold fbyte.
  destruct (same_block x y Hbs Hx) as [-> ->]; [lia|done].
Qed.
Lemma length_content s raw o n : 0 ≤ n → zlen (content s raw o n) = n.
Proof. intros Hn. unfold content, zlen. rewrite length_map, length_seqZ. lia. Qed.

Lemma read_loop_run BM IT s raw fuel acc count o :
  base BM IT s → 4 ≤ bs ≤ 2 ^ 16 → length raw = 128%nat → 0 ≤ i_size raw < 2 ^ 32 → 0 ≤ o → 0 ≤ count < Z.of_nat fuel →
  let n := 0 `max` (count `min` (i_size raw - o)) in
  (∀ x, o ≤ x < o + n → mapped_block s raw (x / bs)) →
  read_loop fuel raw acc count o s = Some ((zlen acc + n, acc ++ content s raw o n, o + n), s).
Proof.
  intros B Hbs Hl Hsz. revert acc count o. induction fuel as [|fuel IH]; intros acc count o Ho Hc n Hm; [lia|]. cbn [read_loop].
  rewrite bind_gets, (b_sbi _ _ _ B). destruct (Z.ltb_spec 0 count); cbn [andb].
  2:{ assert (n = 0) as -> by lia. unfold content. cbn. rewrite app_nil_r, !Z.add_0_r. done. }
  destruct (Z.ltb_spec o (i_size raw)).
  2:{ assert (n = 0) as -> by lia. unfold content. cbn. rewrite app_nil_r, !Z.add_0_r. done. }
  unfold logical_of, within_of. rewrite Z.quot_div_nonneg, Z.rem_mod_nonneg by lia.
  pose proof (Z.mod_pos_bound o bs ltac:(lia)) as Hmod. pose proof (Z.div_mod o bs ltac:(lia)) as Hdm.
  assert (0 ≤ o / bs ≤ o) as Hdiv by (split; [apply Z.div_pos; lia|apply Z.div_le_upper_bound; nia]).
  rewrite !u32_small by lia.
  rewrite (bind_Some _ _ _ _ _ (read_data_block_run _ _ _ _ _ B Hbs Hl (Hm o ltac:(lia)))). cbv beta iota.
  set (c0 := if count <? bs - o mod bs then count else bs - o mod bs).
  assert (0 < c0 ≤ count ∧ o mod bs + c0 ≤ bs) as Hc0 by (unfold c0; destruct (Z.ltb_spec count (bs - o mod bs)); lia).
  rewrite (u64_small o), !u64_small by lia.
  set (c := if i_size raw <? o + c0 then i_size raw - o else c0).
  assert (0 < c ≤ n ∧ c ≤ c0 ∧ (c = n ∨ c = c0)) as Hcc by (unfold c; destruct (Z.ltb_spec (i_size raw) (o + c0)); lia).
  rewrite (bind_Some _ _ _ _ _ (lift_run _ _ s (block_content s raw o c ltac:(lia) Ho ltac:(lia) ltac:(lia)))).
  assert (0 `max` ((count - c) `min` (i_size raw - (o + c))) = n - c) as En by lia.
  rewrite IH; [|lia|lia|intros x Hx; apply Hm; lia]. rewrite En, zlen_app, length_content, <- app_assoc by lia. unfold content.
  rewrite <- map_seqZ_app by lia. replace (c + (n - c)) with n by lia. replace (zlen acc + c + (n - c)) with (zlen acc + n) by lia.
  by replace (o + c + (n - c)) with (o + n) by lia.
Qed.
Lemma file_read_run BM IT s info count o :
  base BM IT s → 4 ≤ bs ≤ 2 ^ 16 → length (info_raw info) = 128%nat → 0 ≤ i_size (info_raw info) < 2 ^ 32 → 0 ≤ o → 0 ≤ count →
  let n := 0 `max` (count `min` (i_size (info_raw info) - o)) in
  (∀ x, o ≤ x < o + n → mapped_block s (info_raw info) (x / bs)) →
  ext2_file_read info count o s = Some ((n, content s (info_raw info) o n, o + n), s).
Proof.
  intros B Hbs Hl Hsz Ho Hc n Hm. unfold ext2_file_read. destruct (Z.leb_spec (i_size (info_raw info)) o).
  - assert (n = 0) as -> by lia. rewrite Z.add_0_r. done.
  - rewrite (bind_Some _ _ _ _ _ (kmalloc_run _ _ _ B)). cbn [negb]. eapply (read_loop_run _ _ _ _ _ []); try eassumption. lia.
Qed.

(** ** Bitmaps *)
Definition bitv (bm : list Z) (i : Z) : bool := Z.testbit (nth (Z.to_nat (i / 8)) bm 0) (i mod 8).

Lemma byte_index i n : 0 ≤ i < 8 * n → 0 ≤ i / 8 < n ∧ 0 ≤ i mod 8 < 8.
Proof. intros Hi. split; [split; [apply Z.div_pos; lia|apply Z.div_lt_upper_bound; lia]|apply Z.mod_pos_bound; lia]. Qed.
Lemma bit_of_run bm i : 0 ≤ i < 8 * zlen bm → bit_of bm i = Some (bitv bm i).
Proof. intros Hi. apply byte_index in Hi as [Hi _]. unfold bit_of. by rewrite at_nth by (unfold zlen in Hi; lia). Qed.
Lemma find_clear_run n i bm : 0 ≤ i → i + Z.of_nat n ≤ 8 * zlen bm →
  ∃ r, find_clear n i bm = Some r ∧
    match r with
    | Some j => i ≤ j < i + Z.of_nat n ∧ bitv bm j = false
    | None => ∀ j, i ≤ j < i + Z.of_nat n → bitv bm j = true
    end.
Proof.
  revert i. induction n as [|n IH]; intros i Hi Hn; cbn [find_clear].
  - exists None. split; [done|]. intros j Hj. lia.
  - rewrite bit_of_run by lia. cbn [mbind option_bind]. destruct (bitv bm i) eqn:E; cbn [negb].
    + destruct (IH (i + 1)) as (r & R & Hr); [lia..|]. exists r. split; [done|]. destruct r as [j|].
      * destruct Hr. split; [lia|done].
      * intros j Hj. destruct (decide (j = i)) as [->|]; [done|]. apply Hr. lia.
    + exists (Some i). split; [done|]. split; [lia|done].
Qed.
(** Writing one byte of a bitmap. *)
Lemma bitv_insert bm k x j : (k < length bm)%nat → 0 ≤ j →
  bitv (<[k := x]> bm) j = if decide (j / 8 = Z.of_nat k) then Z.testbit x (j mod 8) else bitv bm j.
Proof.
  intros Hk Hj. assert (0 ≤ j / 8) by (apply Z.div_pos; lia). unfold bitv. case_decide as E.
  - rewrite E, Nat2Z.id. f_equal. apply nth_lookup_Some. by apply list_lookup_insert_eq.
  - f_equal. rewrite !nth_lookup. by rewrite list_lookup_insert_ne by lia.
Qed.
Lemma one_bit j k : 0 ≤ j → 0 ≤ k → Z.testbit (Z.shiftl 1 k) j = bool_decide (j = k).
Proof.
  intros Hj Hk. rewrite Z.shiftl_1_l, Z.pow2_bits_eqb by done. case_bool_decide as E; [subst; by rewrite Z.eqb_refl|].
  by apply Z.eqb_neq.
Qed.
Lemma same_bit i j : 0 ≤ i → 0 ≤ j → i / 8 = j / 8 → i mod 8 = j mod 8 → i = j.
Proof. intros Hi Hj E1 E2. rewrite (Z.div_mod i 8), (Z.div_mod j 8) by lia. by rewrite E1, E2. Qed.
Lemma set_bit_run bm i : 0 ≤ i < 8 * zlen bm →
  ∃ bm', set_bit bm i = Some bm' ∧ length bm' = length bm ∧ ∀ j, 0 ≤ j → bitv bm' j = if decide (j = i) then true else bitv bm j.
Proof.
  intros Hi. destruct (byte_index _ _ Hi) as [Hb Hm]. unfold set_bit. rewrite at_nth by (unfold zlen in Hb; lia). cbn [mbind option_bind].
  rewrite set_run by done. eexists. split; [done|]. split; [by rewrite length_insert|]. intros j Hj.
  rewrite bitv_insert by (unfold zlen in Hb; lia). pose proof (Z.mod_pos_bound j 8).
  case_decide as E1; case_decide as E2; try done.
  - subst j. rewrite Z.lor_spec, one_bit, bool_decide_true by lia. apply orb_true_r.
  - rewrite Z.lor_spec, one_bit by lia. rewrite bool_decide_false; [rewrite orb_false_r; unfold bitv; by rewrite E1, Nat2Z.id|].
    intros E3. apply E2. apply same_bit; lia.
  - subst j. lia.
Qed.
Lemma clear_bit_run bm i : 0 ≤ i < 8 * zlen bm →
  ∃ bm', clear_bit bm i = Some bm' ∧ length bm' = length bm ∧ ∀ j, 0 ≤ j → bitv bm' j = if decide (j = i) then false else bitv bm j.
Proof.
  intros Hi. destruct (byte_index _ _ Hi) as [Hb Hm]. unfold clear_bit. rewrite at_nth by (unfold zlen in Hb; lia). cbn [mbind option_bind].
  rewrite set_run by done. eexists. split; [done|]. split; [by rewrite length_insert|]. intros j Hj.
  rewrite bitv_insert by (unfold zlen in Hb; lia). pose proof (Z.mod_pos_bound j 8) as Hmj. unfold u8.
  assert (∀ k, 0 ≤ k < 8 → Z.testbit (Z.lnot (Z.shiftl 1 (i mod 8)) mod 2 ^ 8) k = negb (bool_decide (k = i mod 8))) as Hmask.
  { intros k Hk. rewrite Z.mod_pow2_bits_low, Z.lnot_spec, one_bit by lia. done. }
  case_decide as E1; case_decide as E2; try done.
  - subst j. rewrite Z.land_spec, Hmask, bool_decide_true by lia. apply andb_false_r.
  - rewrite Z.land_spec, Hmask by lia. rewrite bool_decide_false; [rewrite andb_true_r; unfold bitv; by rewrite E1, Nat2Z.id|].
    intros E3. apply E2. apply same_bit; lia.
  - subst j. lia.
Qed.

(** ** Allocation *)
Record geometry (BM : list Z) : Prop := {
  g_bs : 1024 ≤ bs ≤ 4096;
  g_bpg : 0 < blocks_per_group b ≤ 8 * bs;
  g_fdb : 0 ≤ first_data_block b;
  g_groups : zlen BM = num_groups b;
  g_last : num_groups b * blocks_per_group b + first_data_block b ≤ 2 ^ 32;
  g_nodup : NoDup BM;
  g_maps : Forall in_range BM
}.
(** The blocks that the bitmaps describe, and the bit of a block. *)
Definition dom (p : Z) : Prop := first_data_block b ≤ p < first_data_block b + num_groups b * blocks_per_group b.
Definition group_of (p : Z) : Z := (p - first_data_block b) / blocks_per_group b.
Definition index_of (p : Z) : Z := (p - first_data_block b) mod blocks_per_group b.
Definition used (BM : list Z) (s : ext2 D) (p : Z) : bool := bitv (dk s (nth (Z.to_nat (group_of p)) BM 0)) (index_of p).

Lemma dom_group BM p : geometry BM → dom p → 0 ≤ group_of p < num_groups b ∧ 0 ≤ index_of p < blocks_per_group b.
Proof.
  intros G [H1 H2]. pose proof (g_bpg _ G). split; [split; [apply Z.div_pos; lia|apply Z.div_lt_upper_bound; lia]|apply Z.mod_pos_bound; lia].
Qed.
Lemma group_index BM p g i : geometry BM → 0 ≤ g → 0 ≤ i < blocks_per_group b → p = g * blocks_per_group b + i + first_data_block b →
  group_of p = g ∧ index_of p = i.
Proof.
  intros G Hg Hi ->. pose proof (g_bpg _ G). unfold group_of, index_of.
  replace (g * blocks_per_group b + i + first_data_block b - first_data_block b) with (i + g * blocks_per_group b) by lia.
  rewrite Z.div_add, Z.mod_add, Z.div_small, Z.mod_small by lia. lia.
Qed.
Lemma nth_nodup BM i j : NoDup BM → 0 ≤ i < zlen BM → 0 ≤ j < zlen BM → nth (Z.to_nat i) BM 0 = nth (Z.to_nat j) BM 0 → i = j.
Proof.
  unfold zlen. intros Hnd Hi Hj E. destruct (lookup_lt_is_Some_2 BM (Z.to_nat i)) as [x Ex]; [lia|].
  destruct (lookup_lt_is_Some_2 BM (Z.to_nat j)) as [y Ey]; [lia|]. rewrite (nth_lookup_Some _ _ _ _ Ex), (nth_lookup_Some _ _ _ _ Ey) in E. subst y.
  pose proof (NoDup_lookup _ _ _ _ Hnd Ex Ey). lia.
Qed.

(** What an allocation that succeeds does. *)
Definition takes (BM : list Z) (s s' : ext2 D) (p : Z) : Prop :=
  dom p ∧ used BM s p = false ∧ used BM s' p = true ∧ (∀ q, dom q → q ≠ p → used BM s' q = used BM s q) ∧
  ∀ n, n ∉ BM → dk s' n = dk s n.

(** The groups from [g] on that count a free block have none. *)
Definition full (BM : list Z) (s : ext2 D) (g : Z) : Prop :=
  ∀ q d, dom q → g ≤ group_of q → gd s !! Z.to_nat (group_of q) = Some d → 0 < bg_free_blocks_count d → used BM s q = true.
Lemma gd_lookup BM IT s g : base BM IT s → 0 ≤ g < zlen BM → ∃ d, gd s !! Z.to_nat g = Some d ∧ bg_block_bitmap d = nth (Z.to_nat g) BM 0 ∧
  bg_inode_table d = nth (Z.to_nat g) IT 0.
Proof.
  intros B Hg. assert (length (gd s) = length BM) as Hl by (rewrite <- (b_maps _ _ _ B); by rewrite length_map).
  destruct (lookup_lt_is_Some_2 (gd s) (Z.to_nat g)) as [d E]; [unfold zlen in Hg; lia|]. exists d. split; [done|].
  rewrite <- (b_maps _ _ _ B), <- (b_tables _ _ _ B). split; symmetry; apply nth_lookup_Some; by rewrite list_lookup_fmap, E.
Qed.
Lemma base_upd BM IT s g f : base BM IT s → (∀ d, bg_block_bitmap (f d) = bg_block_bitmap d) → (∀ d, bg_inode_table (f d) = bg_inode_table d) →
  base BM IT (set_gd (alter f g (gd s)) s).
Proof.
  intros [] H1 H2. constructor; cbn [bdev sbi gd emem set_gd]; try done.
  - rewrite <- b_maps0. apply list_eq. intros i. rewrite !list_lookup_fmap. destruct (decide (i = g)) as [->|].
    + rewrite list_lookup_alter_eq. destruct (gd s !! g); [simpl; by rewrite H1|done].
    + by rewrite list_lookup_alter_ne.
  - rewrite <- b_tables0. apply list_eq. intros i. rewrite !list_lookup_fmap. destruct (decide (i = g)) as [->|].
    + rewrite list_lookup_alter_eq. destruct (gd s !! g); [simpl; by rewrite H2|done].
    + by rewrite list_lookup_alter_ne.
Qed.

Lemma take_bit_run BM IT s g limit : base BM IT s → geometry BM → 0 ≤ g < zlen BM → 0 ≤ limit →
  let m := nth (Z.to_nat g) BM 0 in
  ∃ r s', take_bit m limit s = Some (inr r, s') ∧ base BM IT s' ∧ gd s' = gd s ∧
    match r with
    | None => s' = s ∧ ∀ j, 0 ≤ j < limit `min` (8 * bs) → bitv (dk s m) j = true
    | Some i => 0 ≤ i < limit `min` (8 * bs) ∧ bitv (dk s m) i = false ∧
        (∀ j, 0 ≤ j → bitv (dk s' m) j = if decide (j = i) then true else bitv (dk s m) j) ∧ ∀ n, n ≠ m → dk s' n = dk s n
    end.
Proof.
  intros B G Hg Hl m. unfold take_bit. rewrite bind_gets, (b_sbi _ _ _ B). rewrite (bind_Some _ _ _ _ _ (kmalloc_run _ _ _ B)). cbn [negb].
  assert (in_range m) as Hm.
  { apply (proj1 (Forall_forall _ _) (g_maps _ G)), list_elem_of_In, nth_In. unfold zlen in Hg. lia. }
  rewrite (bind_Some _ _ _ _ _ (rd_block_run _ _ _ _ B Hm)). cbv beta iota. pose proof (g_bs _ G).
  assert (zlen (dk s m) = bs) as Hz by (unfold zlen; rewrite length_dk; lia).
  destruct (find_clear_run (Z.to_nat (limit `min` (bs * 8))) 0 (dk s m)) as (r & R & Hr); [lia|rewrite Hz; lia|].
  rewrite (bind_Some _ _ _ _ _ (lift_run _ _ s R)). destruct r as [i|].
  2:{ exists None, s. do 4 (split; [done|]). intros j Hj. apply Hr. lia. }
  destruct Hr as [Hi Hbit]. destruct (set_bit_run (dk s m) i) as (bm' & Es & Hlen & Hbits); [rewrite Hz; lia|].
  rewrite (bind_Some _ _ _ _ _ (lift_run _ _ s Es)). rewrite length_dk in Hlen.
  destruct (wr_block_run _ _ s m bm' B Hm Hlen) as (s' & W & B' & Hgd & Hdk & Hother). rewrite (bind_Some _ _ _ _ _ W).
  exists (Some i), s'. do 3 (split; [done|]). split; [lia|]. split; [done|]. rewrite Hdk. done.
Qed.

Lemma alloc_from_run BM IT s n g : base BM IT s → geometry BM → 0 ≤ g → g + Z.of_nat n = num_groups b →
  ∃ p s', alloc_block_from n g s = Some (p, s') ∧ base BM IT s' ∧ ((p = 0 ∧ s' = s ∧ full BM s g) ∨ takes BM s s' p).
Proof.
  intros B G. revert g. induction n as [|n IH]; intros g Hg Hn; cbn [alloc_block_from].
  { exists 0, s. do 2 (split; [done|]). left. do 2 (split; [done|]). intros q d Hq Hge. destruct (dom_group BM q G Hq). lia. }
  pose proof (g_groups _ G) as Hz. pose proof (g_bpg _ G) as Hbpg. pose proof (g_last _ G) as Hlast. pose proof (g_fdb _ G) as Hfdb.
  rewrite !bind_gets, (b_sbi _ _ _ B). destruct (gd_lookup _ _ _ g B) as (d & Ed & Em & _); [lia|].
  rewrite (bind_Some _ _ _ _ _ (lift_run _ _ s Ed)). destruct (Z.ltb_spec 0 (bg_free_blocks_count d)).
  2:{ destruct (IH (g + 1)) as (p & s' & R & B' & Hp); [lia|lia|]. exists p, s'. split; [done|]. split; [done|].
      destruct Hp as [(-> & -> & Hf) | Ht]; [left|by right]. do 2 (split; [done|]). intros q d' Hq Hge Hd' Hc.
      destruct (decide (group_of q = g)) as [Eq|]; [rewrite Eq, Ed in Hd'; injection Hd' as <-; lia|]. apply (Hf q d'); [done|lia|done|done]. }
  rewrite Em. destruct (take_bit_run _ _ s g (blocks_per_group b) B G) as (r & s1 & R & B1 & Hgd & Hr); [lia..|].
  rewrite (bind_Some _ _ _ _ _ R). destruct r as [i|].
  2:{ destruct Hr as [-> Hall]. destruct (IH (g + 1)) as (p & s' & Rn & B' & Hp); [lia|lia|]. exists p, s'. split; [done|]. split; [done|].
      destruct Hp as [(-> & -> & Hf) | Ht]; [left|by right]. do 2 (split; [done|]). intros q d' Hq Hge Hd' Hc.
      destruct (decide (group_of q = g)) as [Eq|]; [|apply (Hf q d'); [done|lia|done|done]].
      unfold used. rewrite Eq. apply Hall. destruct (dom_group BM q G Hq). lia. }
  destruct Hr as (Hi & Hbit & Hbits & Hother). unfold upd_group. rewrite bind_modify.
  assert (g * blocks_per_group b + i + first_data_block b < 2 ^ 32) as Hlt by nia.
  assert (0 ≤ g * blocks_per_group b) by nia.
  rewrite u32_small by lia. set (p := g * blocks_per_group b + i + first_data_block b).
  eexists p, _. split; [reflexivity|]. split; [by apply base_upd|]. right.
  destruct (group_index BM p g i G Hg ltac:(lia) eq_refl) as [Hpg Hpi].
  assert (dom p) as Hdom by (unfold dom, p; nia). unfold takes. split; [done|]. unfold used.
  change (dk (set_gd _ s1)) with (dk s1). rewrite Hpg, Hpi. split; [done|]. split; [rewrite Hbits by lia; by rewrite decide_True|]. split.
  - intros q Hq Hqp. change (dk (set_gd _ s1)) with (dk s1). destruct (dom_group BM q G Hq) as [Hqg Hqi].
    destruct (decide (nth (Z.to_nat (group_of q)) BM 0 = nth (Z.to_nat g) BM 0)) as [E|E].
    + apply nth_nodup in E; [|apply (g_nodup _ G)|lia|lia]. rewrite E, Hbits by lia. rewrite decide_False; [done|].
      intros Ei. apply Hqp. unfold p. pose proof (Z.div_mod (q - first_data_block b) (blocks_per_group b) ltac:(lia)) as Hdm.
      unfold group_of in E. unfold index_of in Ei. rewrite E, Ei in Hdm. lia.
    + by rewrite Hother.
  - intros m Hm. change (dk (set_gd _ s1)) with (dk s1). apply Hother. intros ->. apply Hm, list_elem_of_In, nth_In. unfold zlen in Hz. lia.
Qed.
Lemma alloc_run BM IT s : base BM IT s → geometry BM →
  ∃ p s', ext2_alloc_block s = Some (p, s') ∧ base BM IT s' ∧ ((p = 0 ∧ s' = s ∧ full BM s 0) ∨ takes BM s s' p).
Proof.
  intros B G. unfold ext2_alloc_block. rewrite bind_gets, (b_sbi _ _ _ B). apply alloc_from_run; [done|done|lia|].
  pose proof (g_groups _ G). unfold zlen in *. lia.
Qed.

(** The bit of a block is cleared; the others stay. *)
Lemma free_run BM IT s p : base BM IT s → geometry BM → dom p → p ≠ 0 →
  ∃ s', ext2_free_block p s = Some (tt, s') ∧ base BM IT s' ∧ used BM s' p = false ∧
    (∀ q, dom q → q ≠ p → used BM s' q = used BM s q) ∧ ∀ n, n ∉ BM → dk s' n = dk s n.
Proof.
  intros B G Hd Hp. pose proof (g_bpg _ G) as Hbpg. pose proof (g_last _ G) as Hlast. pose proof (g_fdb _ G) as Hfdb. pose proof (g_bs _ G) as Hbs.
  destruct (dom_group BM p G Hd) as [Hg Hi]. pose proof (g_groups _ G) as Hz. unfold ext2_free_block. rewrite bind_gets, (b_sbi _ _ _ B).
  destruct (Z.eqb_spec p 0); [done|]. destruct Hd as [Hd1 Hd2]. rewrite u32_small by lia. fold (group_of p) (index_of p).
  destruct (Z.leb_spec (num_groups b) (group_of p)); [lia|]. rewrite bind_gets.
  destruct (gd_lookup _ _ _ (group_of p) B) as (d & Ed & Em & _); [lia|]. rewrite (bind_Some _ _ _ _ _ (lift_run _ _ s Ed)), Em.
  set (m := nth (Z.to_nat (group_of p)) BM 0).
  assert (in_range m) as Hm by (apply (proj1 (Forall_forall _ _) (g_maps _ G)), list_elem_of_In, nth_In; unfold zlen in Hz; lia).
  assert (zlen (dk s m) = bs) as Hzl by (unfold zlen; rewrite length_dk; lia).
  destruct (clear_bit_run (dk s m) (index_of p)) as (bm' & Ec & Hlen & Hbits); [lia|]. rewrite length_dk in Hlen.
  destruct (wr_block_run _ _ s m bm' B Hm Hlen) as (s1 & W & B1 & Hgd & Hdk & Hother).
  assert (release_bit m (index_of p) s = Some (true, s1)) as R.
  { unfold release_bit. rewrite (bind_Some _ _ _ _ _ (kmalloc_run _ _ _ B)). cbn [negb]. rewrite (bind_Some _ _ _ _ _ (rd_block_run _ _ _ _ B Hm)).
    cbv beta iota. rewrite (bind_Some _ _ _ _ _ (lift_run _ _ s Ec)). by rewrite (bind_Some _ _ _ _ _ W). }
  rewrite (bind_Some _ _ _ _ _ R). eexists. split; [reflexivity|]. split; [by apply base_upd|].
  split; [|split].
  - unfold used. fold m. change (dk (set_gd _ s1)) with (dk s1). rewrite Hdk, Hbits by lia. by rewrite decide_True.
  - intros q Hq Hqp. destruct (dom_group BM q G Hq) as [Hqg Hqi]. unfold used. change (dk (set_gd _ s1)) with (dk s1).
    destruct (decide (nth (Z.to_nat (group_of q)) BM 0 = m)) as [E|E]; [|by rewrite Hother].
    rewrite E, Hdk, Hbits by lia. rewrite decide_False; [done|]. intros Ei. apply Hqp.
    apply nth_nodup in E; [|apply (g_nodup _ G)|lia|lia]. unfold group_of in E. unfold index_of in Ei.
    pose proof (Z.div_mod (q - first_data_block b) (blocks_per_group b) ltac:(lia)) as D1.
    pose proof (Z.div_mod (p - first_data_block b) (blocks_per_group b) ltac:(lia)) as D2. rewrite E, Ei in D1. lia.
  - intros x Hx. change (dk (set_gd _ s1)) with (dk s1). apply Hother. intros ->. apply Hx, list_elem_of_In, nth_In. unfold zlen in Hz. lia.
Qed.

(** C29: ext2_alloc_block returns a block whose bit was clear, sets that bit and
    no other, and changes no block of the device but one bitmap; it returns 0,
    with nothing changed, only if every block of every group that counts free
    blocks is taken.  Releasing the block with ext2_free_block puts every bit
    back. *)
Theorem ext2_alloc_correct BM IT s : base BM IT s → geometry BM →
  ∃ p s', ext2_alloc_block s = Some (p, s') ∧ base BM IT s' ∧
    ((p = 0 ∧ s' = s ∧ full BM s 0) ∨
     takes BM s s' p ∧ (p ≠ 0 → ∃ s'', ext2_free_block p s' = Some (tt, s'') ∧ base BM IT s'' ∧
       (∀ q, dom q → used BM s'' q = used BM s q) ∧ ∀ n, n ∉ BM → dk s'' n = dk s n)).
Proof.
  intros B G. destruct (alloc_run BM IT s B G) as (p & s' & A & B' & [Hp | T]); exists p, s'; (do 2 (split; [done|])); [by left|right].
  split; [done|]. intros Hp. destruct T as (Hd & Hu & Hu' & Ho & Hn). destruct (free_run BM IT s' p B' G Hd Hp) as (s2 & F & B2 & Hf & Hfo & Hfn).
  exists s2. do 2 (split; [done|]). split; [|intros n Hm; by rewrite Hfn, Hn]. intros q Hq. destruct (decide (q = p)) as [->|]; [by rewrite Hf, Hu|].
  by rewrite Hfo, Ho.
Qed.

(** Ext2_file_read returns the bytes of the file from the offset on, in
    order, from the direct blocks and through the single and double indirect
    blocks: as many as were asked for and the file still has, none past its
    end; the offset moves by that many and the disk is only read. *)
Theorem ext2_file_read_correct BM IT s info count o :
  base BM IT s → 4 ≤ bs ≤ 2 ^ 16 → length (info_raw info) = 128%nat → 0 ≤ i_size (info_raw info) < 2 ^ 32 → 0 ≤ o → 0 ≤ count →
  (∀ x, o ≤ x < o + 0 `max` (count `min` (i_size (info_raw info) - o)) → mapped_block s (info_raw info) (x / bs)) →
  let n := 0 `max` (count `min` (i_size (info_raw info) - o)) in
  ext2_file_read info count o s = Some ((n, content s (info_raw info) o n, o + n), s).
Proof. intros. by eapply file_read_run. Qed.

(** ** Looking names up *)

(** The records of a block from offset [o] on fill it: the inode and the name of each. *)
Inductive tiles (blk : list Z) : Z → list (Z * list Z) → Prop :=
| tiles_end : tiles blk bs []
| tiles_cons o ino rec nl es :
    de_inode blk o = Some ino → de_rec_len blk o = Some rec → de_name_len blk o = Some nl → 0 ≤ nl < 256 → 8 + nl ≤ rec → 0 ≤ o → o + rec ≤ bs →
    tiles blk (o + rec) es → tiles blk o ((ino, take (Z.to_nat nl) (drop (Z.to_nat (o + 8)) blk)) :: es).
(** The first record with the name. *)
Fixpoint find_entry (name : list Z) (es : list (Z * list Z)) : option Z :=
  match es with [] => None | (ino, n) :: es => if decide (n = name) then Some ino else find_entry name es end.
(** A directory of whole blocks of records. *)
Definition dir_ok (s : ext2 D) (raw : list Z) (ess : list (list (Z * list Z))) : Prop :=
  i_size raw = Z.of_nat (length ess) * bs ∧ ∀ k es, ess !! k = Some es → mapped_block s raw (Z.of_nat k) ∧ tiles (dk s (bmap s raw (Z.of_nat k)).2) 0 es.

Lemma find_entry_app name es es' : find_entry name (es ++ es') = match find_entry name es with Some i => Some i | None => find_entry name es' end.
Proof. induction es as [|[i n] es IH]; [done|]. cbn. case_decide; [done|exact IH]. Qed.
Lemma same_name_run buf name o : 0 ≤ o → o + zlen name ≤ zlen buf →
  same_name buf o name = Some (bool_decide (take (length name) (drop (Z.to_nat o) buf) = name)).
Proof.
  revert o. induction name as [|c name IH]; intros o Ho Hl; [done|]. unfold zlen in Hl. cbn [length] in Hl. cbn [same_name length].
  rewrite at_nth by lia. cbn [mbind option_bind]. destruct (lookup_lt_is_Some_2 buf (Z.to_nat o)) as [x Ex]; [lia|].
  rewrite (nth_lookup_Some _ _ _ _ Ex), (drop_S _ _ _ Ex). cbn [take]. destruct (Z.eqb_spec x c) as [->|Hne].
  - rewrite IH by (unfold zlen; lia). f_equal. replace (Z.to_nat (o + 1)) with (S (Z.to_nat o)) by lia.
    apply bool_decide_ext. split; [by intros ->|by intros [=]].
  - f_equal. symmetry. apply bool_decide_eq_false. by intros [=].
Qed.
(** The records of one block. *)
Lemma lookup_block BM IT s raw blk o es name off fuel : base BM IT s → 0 < bs ≤ 2 ^ 16 → length blk = Z.to_nat bs → tiles blk o es → 0 ≤ off →
  off + (bs - o) ≤ i_size raw < 2 ^ 32 → 3 * (i_size raw - (off + (bs - o))) + (bs - o) + 4 ≤ Z.of_nat fuel →
  (∃ ino, find_entry name es = Some ino ∧ lookup_loop fuel raw name (Some (blk, o)) off s = child_of ino s) ∨
  ∃ fuel', find_entry name es = None ∧ 3 * (i_size raw - (off + (bs - o))) + 3 ≤ Z.of_nat fuel' ∧
    lookup_loop fuel raw name (Some (blk, o)) off s = lookup_loop fuel' raw name None (off + (bs - o)) s.
Proof.
  intros B Hbs Hl T. revert off fuel. induction T as [|o ino rec nl es Ei Er En Hnl Hrec Ho Hend T IH]; intros off fuel Hoff Hsz Hf;
    (destruct fuel as [|fuel]; [lia|]); cbn [lookup_loop find_entry]; rewrite bind_gets, (b_sbi _ _ _ B).
  { right. exists fuel. destruct (Z.ltb_spec bs bs); [lia|]. split; [done|]. split; [lia|]. by rewrite Z.sub_diag, Z.add_0_r. }
  destruct (Z.ltb_spec o bs); [|lia]. destruct (Z.leb_spec (i_size raw) off); [lia|].
  rewrite (bind_Some _ _ _ _ _ (lift_run _ _ s Ei)), (bind_Some _ _ _ _ _ (lift_run _ _ s Er)). destruct (Z.eqb_spec rec 0); [lia|].
  rewrite (bind_Some _ _ _ _ _ (lift_run _ _ s En)).
  assert ((if nl =? zlen name then lift (same_name blk (o + 8) name) else ret false) s =
    Some (bool_decide (take (Z.to_nat nl) (drop (Z.to_nat (o + 8)) blk) = name), s)) as Esame.
  { destruct (Z.eqb_spec nl (zlen name)) as [->|Hne].
    - rewrite same_name_run by (unfold zlen in *; lia). unfold zlen. by rewrite Nat2Z.id.
    - unfold ret. do 2 f_equal. symmetry. apply bool_decide_eq_false. intros E. apply Hne. rewrite <- E. unfold zlen.
      rewrite length_take, length_drop, Hl. lia. }
  rewrite (bind_Some _ _ _ _ _ Esame).
  destruct (decide (take (Z.to_nat nl) (drop (Z.to_nat (o + 8)) blk) = name)) as [E|E].
  - left. exists ino. rewrite bool_decide_true by done. done.
  - rewrite bool_decide_false by done. rewrite !u32_small by lia. specialize (IH (off + rec) fuel ltac:(lia) ltac:(lia) ltac:(lia)).
    replace (off + rec + (bs - (o + rec))) with (off + (bs - o)) in IH by lia. exact IH.
Qed.
Lemma lookup_blocks BM IT s raw ess name k fuel : base BM IT s → 4 ≤ bs ≤ 2 ^ 16 → length raw = 128%nat → dir_ok s raw ess → i_size raw < 2 ^ 32 →
  (k ≤ length ess)%nat → 3 * (i_size raw - Z.of_nat k * bs) + 3 ≤ Z.of_nat fuel →
  lookup_loop fuel raw name None (Z.of_nat k * bs) s =
    match find_entry name (concat (drop k ess)) with Some ino => child_of ino s | None => Some ((- ENOENT, None), s) end.
Proof.
  intros B Hbs Hl [Hsz Hd] H32 Hk. remember (length ess - k)%nat as m eqn:Em. revert k fuel Hk Em.
  induction m as [|m IH]; intros k fuel Hk Em Hf; (destruct fuel as [|fuel]; [nia|]); cbn [lookup_loop];
    rewrite bind_gets, (b_sbi _ _ _ B).
  { rewrite drop_ge by lia. cbn. destruct (Z.ltb_spec (Z.of_nat k * bs) (i_size raw)); [nia|done]. }
  destruct (Z.ltb_spec (Z.of_nat k * bs) (i_size raw)); [|nia]. rewrite Z.div_mul, Z.mod_mul by lia.
  destruct (lookup_lt_is_Some_2 ess k) as [es Ees]; [lia|]. destruct (Hd k es Ees) as [Hm T].
  rewrite (bind_Some _ _ _ _ _ (read_data_block_run BM IT s raw _ B Hbs Hl Hm)). cbv beta iota.
  rewrite (drop_S _ _ _ Ees). cbn [concat]. rewrite find_entry_app.
  assert (Z.of_nat (S k) * bs = Z.of_nat k * bs + bs) as Es by lia. assert (Z.of_nat (S k) * bs ≤ i_size raw) by nia.
  destruct (lookup_block BM IT s raw _ 0 es name (Z.of_nat k * bs) fuel B ltac:(lia) (length_dk _ _) T) as [(ino & -> & ->) | (f' & -> & Hf' & ->)];
    [nia|lia|lia|done|].
  rewrite Z.sub_0_r, <- Es in *. apply IH; lia.
Qed.

(** C30: on a directory whose blocks are filled by their records,
    ext2_dir_lookup finds the first record with the name, in the order of the
    blocks and of the records, and returns the inode it names, and -ENOENT if no
    record has the name: names of equal length only, no prefix matches.  The
    scan ends within the directory. *)
Theorem ext2_dir_lookup_correct BM IT s dir ess name : base BM IT s → 4 ≤ bs ≤ 2 ^ 16 → length (info_raw dir) = 128%nat →
  dir_ok s (info_raw dir) ess → 0 ≤ i_size (info_raw dir) < 2 ^ 32 →
  ext2_dir_lookup dir name s =
    match find_entry name (concat ess) with Some ino => child_of ino s | None => Some ((- ENOENT, None), s) end.
Proof.
  intros B Hbs Hl Hd Hsz. unfold ext2_dir_lookup. rewrite (bind_Some _ _ _ _ _ (kmalloc_run _ _ _ B)). cbn [negb].
  pose proof (lookup_blocks BM IT s (info_raw dir) ess name 0 (lookup_fuel (info_raw dir)) B Hbs Hl Hd ltac:(lia) ltac:(lia)) as R.
  rewrite Z.mul_0_l in R. rewrite drop_0 in R. apply R. unfold lookup_fuel. lia.
Qed.

(** With inodes of more than 128 bytes, which is what mke2fs makes by
    default, reading any inode copies the whole of it over the 128 bytes of
    struct ext2_inode: there is no defined run. *)
Theorem inode_size_overflow BM IT s ino blk o : base BM IT s → geometry BM → ino ≠ 0 → 128 < inode_size b ≤ bs →
  0 ≤ inode_group b ino < num_groups b → inode_place b (nth (Z.to_nat (inode_group b ino)) IT 0) (inode_index b ino) = (blk, o) → in_range blk →
  0 ≤ o → o + inode_size b ≤ bs → ext2_read_inode_raw ino s = None.
Proof.
  intros B G Hn Hsz Hg Hp Hr Ho Hend. unfold ext2_read_inode_raw. rewrite bind_gets, (b_sbi _ _ _ B).
  destruct (Z.eqb_spec ino 0); [done|]. destruct (Z.eqb_spec (inode_size b) 0); [lia|]. destruct (Z.ltb_spec bs (inode_size b)); [lia|]. cbn [orb].
  destruct (Z.leb_spec (num_groups b) (inode_group b ino)); [lia|]. rewrite bind_gets.
  destruct (gd_lookup _ _ _ (inode_group b ino) B) as (d & Ed & _ & Et); [rewrite (g_groups _ G); lia|].
  rewrite (bind_Some _ _ _ _ _ (lift_run _ _ s Ed)), Et, Hp. cbv beta iota.
  rewrite (bind_Some _ _ _ _ _ (kmalloc_run _ _ _ B)). cbn [negb]. rewrite (bind_Some _ _ _ _ _ (rd_block_run _ _ _ _ B Hr)). cbv beta iota.
  assert (zlen (dk s blk) = bs) as Hz by (unfold zlen; rewrite length_dk; lia).
  rewrite (bind_Some _ _ _ _ _ (lift_run _ _ s (slice_Some (dk s blk) o (inode_size b) ltac:(lia) ltac:(lia) ltac:(lia)))).
  unfold patch. rewrite length_replicate, length_take, length_drop, length_dk. unfold INODE_BYTES. cbn [Z.leb Z.compare andb].
  destruct (Z.leb_spec (0 + Z.of_nat (Z.to_nat (inode_size b) `min` (Z.to_nat bs - Z.to_nat o))) (Z.of_nat (Z.to_nat 128))); [lia|done].
Qed.

Lemma direct_eq raw k : 0 ≤ k < 15 → length raw = 128%nat → direct raw k = le_value (take 4 (drop (Z.to_nat (40 + 4 * k)) raw)).
Proof.
  intros Hk Hl. unfold direct, i_block, EXT2_N_BLOCKS. destruct (Z.leb_spec 0 k); [|lia]. destruct (Z.ltb_spec k 15); [|lia]. cbn [andb].
  rewrite field_at_ok by (unfold zlen; lia). done.
Qed.
Lemma tiles_agree l l' o es : length l' = length l → length l = Z.to_nat bs → 0 ≤ o → agree o (bs - o) l l' → tiles l o es → tiles l' o es.
Proof.
  intros Hl Hb Ho A T. induction T as [|o ino rec nl es Ei Er En Hnl Hrec Ho' Hend T IH]; [constructor|].
  rewrite <- (agree_take l l' (o + 8) nl Hl); [|eapply agree_sub; [exact A|lia|lia]|lia|lia|unfold zlen; lia].
  apply (tiles_cons _ _ _ rec); try done.
  - eapply agree_field; [done|eapply agree_sub; [exact A|lia|lia]|lia|lia|done].
  - eapply agree_field; [done|eapply agree_sub; [exact A|lia|lia]|lia|lia|done].
  - eapply agree_field; [done|eapply agree_sub; [exact A|lia|lia]|lia|lia|done].
  - apply IH; [lia|]. eapply agree_sub; [exact A|lia|lia].
Qed.
Lemma rec_len_range n : 0 ≤ n < 256 → 8 + n ≤ rec_len_for_name n < 8 + n + 4.
Proof.
  intros Hn. assert (forallb (λ n, (8 + n <=? rec_len_for_name n) && (rec_len_for_name n <? 8 + n + 4)) (seqZ 0 256) = true) as Hf by (vm_compute; reflexivity).
  rewrite forallb_forall in Hf. specialize (Hf n). rewrite <- list_elem_of_In, elem_of_seqZ in Hf. specialize (Hf ltac:(lia)). lia.
Qed.
(** The members of an entry that was written. *)
Lemma entry_fields blk p ino rec mode name : 0 ≤ p → p + 8 + zlen name ≤ zlen blk → 0 ≤ ino < 2 ^ 32 → 0 ≤ rec < 2 ^ 16 → zlen name < 256 →
  take (length (dir_entry ino rec mode name)) (drop (Z.to_nat p) blk) = dir_entry ino rec mode name →
  de_inode blk p = Some ino ∧ de_rec_len blk p = Some rec ∧ de_name_len blk p = Some (zlen name) ∧
  take (length name) (drop (Z.to_nat (p + 8)) blk) = name.
Proof.
  intros Hp Hb Hi Hr Hn E. set (e := dir_entry ino rec mode name) in *.
  assert (length e = (8 + length name)%nat) as Le by (unfold e, dir_entry; rewrite !length_app, !length_le_bytes; done). rewrite Le in E.
  assert (∀ o n, (o + n ≤ 8 + length name)%nat → take n (drop (Z.to_nat p + o) blk) = take n (drop o e)) as Hsub.
  { intros o n Ho. rewrite <- E, skipn_firstn_comm, take_take, drop_drop. f_equal. lia. }
  assert (u16 rec = rec) as Er by (unfold u16; by apply Z.mod_small). assert (u8 (zlen name) = zlen name) as En by (unfold u8, zlen in *; apply Z.mod_small; lia).
  assert (zlen blk = Z.of_nat (length blk)) as Hz by done. unfold zlen in Hb.
  split; [|split; [|split]].
  - unfold de_inode. rewrite field_at_ok by lia. f_equal. pose proof (Hsub 0%nat 4%nat ltac:(lia)) as Hs. rewrite Nat.add_0_r in Hs.
    change (Z.to_nat 4) with 4%nat. rewrite Hs. unfold e, dir_entry. rewrite drop_0, take_app_length' by (by rewrite length_le_bytes). by apply le_value_bytes.
  - unfold de_rec_len. rewrite field_at_ok by lia. f_equal. pose proof (Hsub 4%nat 2%nat ltac:(lia)) as Hs.
    replace (Z.to_nat (p + 4)) with (Z.to_nat p + 4)%nat by lia. change (Z.to_nat 2) with 2%nat. rewrite Hs. unfold e, dir_entry. rewrite Er.
    rewrite drop_app_length' by (by rewrite length_le_bytes). rewrite take_app_length' by (by rewrite length_le_bytes). by apply le_value_bytes.
  - unfold de_name_len. rewrite field_at_ok by lia. f_equal. pose proof (Hsub 6%nat 1%nat ltac:(lia)) as Hs.
    replace (Z.to_nat (p + 6)) with (Z.to_nat p + 6)%nat by lia. change (Z.to_nat 1) with 1%nat. rewrite Hs. unfold e, dir_entry. rewrite En.
    rewrite app_assoc, drop_app_length' by (rewrite length_app, !length_le_bytes; done). cbn. lia.
  - pose proof (Hsub 8%nat (length name) ltac:(lia)) as Hs. replace (Z.to_nat (p + 8)) with (Z.to_nat p + 8)%nat by lia. rewrite Hs. unfold e, dir_entry.
    rewrite !app_assoc, drop_app_length' by (rewrite !length_app, !length_le_bytes; done). by apply take_ge.
Qed.
Lemma find_slot_run fuel blk o es ino mode name : 0 < bs ≤ 4096 → length blk = Z.to_nat bs → tiles blk o es → 0 ≤ o → bs - o < Z.of_nat fuel →
  0 ≤ ino < 2 ^ 32 → zlen name < 256 →
  ∃ r, find_slot fuel blk o bs (rec_len_for_name (zlen name)) (λ rec, dir_entry ino rec mode name) = Some r ∧
    match r with
    | None => True
    | Some blk' => length blk' = Z.to_nat bs ∧ agree 0 o blk blk' ∧ ∃ e1 e2, es = e1 ++ e2 ∧ tiles blk' o (e1 ++ (ino, name) :: e2)
    end.
Proof.
  intros Hbs Hl T Ho Hf Hi Hn. assert (0 ≤ zlen name) as Hn0 by (unfold zlen; lia). pose proof (rec_len_range (zlen name) ltac:(lia)) as Hnew.
  revert fuel Ho Hf. induction T as [|o i0 rec nl es Ei Er En Hnl Hrec Ho' Hend T IH]; intros fuel Ho Hf; (destruct fuel as [|fuel]; [lia|]); cbn [find_slot].
  { destruct (Z.ltb_spec bs bs); [lia|]. by exists None. }
  destruct (Z.ltb_spec o bs); [|lia]. rewrite Er. cbn [mbind option_bind]. destruct (Z.eqb_spec rec 0); [lia|]. rewrite En. cbn [mbind option_bind].
  pose proof (rec_len_range nl Hnl) as Hmin. set (new := rec_len_for_name (zlen name)) in *. set (m := rec_len_for_name nl) in *.
  destruct (Z.leb_spec (m + new) rec) as [Hfit|Hno].
  2:{ rewrite u32_small by lia. destruct (IH fuel ltac:(lia) ltac:(lia)) as (r & -> & Hr). exists r. split; [done|]. destruct r as [blk'|]; [|done].
      destruct Hr as (L & A & e1 & e2 & -> & T'). split; [done|]. split; [eapply agree_sub; [exact A|lia|lia]|].
      exists ((i0, take (Z.to_nat nl) (drop (Z.to_nat (o + 8)) blk)) :: e1), e2. split; [done|]. cbn [app].
      rewrite <- (agree_take blk blk' (o + 8) nl); [|lia|eapply agree_sub; [exact A|lia|lia]|lia|lia|unfold zlen; lia].
      apply (tiles_cons _ _ _ rec); try done; (eapply agree_field; [|eapply agree_sub; [exact A|lia|lia]|lia|lia|eassumption]; lia). }
  destruct (patch_run blk (o + 4) (le_bytes 2 m)) as (b1 & E1 & _); [lia|rewrite zlen_le; unfold zlen; lia|].
  destruct (patch_agree blk (o + 4) (le_bytes 2 m) b1 ltac:(lia) ltac:(rewrite zlen_le; unfold zlen; lia) E1) as (L1 & A1 & W1). rewrite zlen_le in A1. rewrite length_le_bytes in W1.
  unfold set_field. rewrite E1. cbn [mbind option_bind].
  assert (zlen (dir_entry ino (rec - m) mode name) = 8 + zlen name) as Le.
  { unfold dir_entry. rewrite !zlen_app, !zlen_le, !zlen_cons. change (zlen []) with 0. lia. }
  destruct (patch_run b1 (o + m) (dir_entry ino (rec - m) mode name)) as (b2 & E2 & _); [lia|rewrite Le; unfold zlen in *; lia|].
  destruct (patch_agree b1 (o + m) (dir_entry ino (rec - m) mode name) b2 ltac:(lia) ltac:(rewrite Le; unfold zlen in *; lia) E2) as (L2 & A2 & W2). rewrite Le in A2.
  rewrite E2. cbn [mbind option_bind]. exists (Some b2). split; [done|].
  assert (∀ o' n', 0 ≤ o' → (o' + n' ≤ o + 4 ∨ o + 6 ≤ o') → (o' + n' ≤ o + m ∨ o + m + 8 + zlen name ≤ o') → agree o' n' blk b2) as A.
  { intros o' n' H0' H1' H2' i Hi'. rewrite (A2 o' n'); [|lia|lia|done]. apply (A1 o' n'); [lia|lia|done]. }
  destruct (entry_fields b2 (o + m) ino (rec - m) mode name) as (F1 & F2 & F3 & F4); [lia|unfold zlen in *; lia|done|lia|done|exact W2|].
  assert (length b2 = length blk) as L by lia. split; [lia|]. split; [apply A; lia|].
  exists [(i0, take (Z.to_nat nl) (drop (Z.to_nat (o + 8)) blk))], es. split; [done|]. cbn [app].
  rewrite <- (agree_take blk b2 (o + 8) nl L); [|apply A; lia|lia|lia|unfold zlen; lia].
  apply (tiles_cons _ _ _ m); [| | |done|lia|done|lia|].
  - eapply agree_field; [exact L|apply A; lia|lia|lia|exact Ei].
  - unfold de_rec_len. eapply (agree_field b1); [exact L2|apply A2; lia|lia|lia|]. apply (le_field b1 (o + 4) 2 m []); [lia|unfold zlen in *; lia|lia|].
    rewrite app_nil_r. exact W1.
  - eapply agree_field; [exact L|apply A; lia|lia|lia|exact En].
  - rewrite <- F4. replace (length name) with (Z.to_nat (zlen name)) by (unfold zlen; lia).
    apply (tiles_cons _ _ _ (rec - m)); [done|done|done|lia|lia|lia|lia|]. replace (o + m + (rec - m)) with (o + rec) by lia.
    eapply tiles_agree; [exact L|done|lia|apply A; lia|done].
Qed.
(** When ext2_create finds a record of a directory block with room to spare
    it splits it: the records fill the block as before, all of them keep their
    inode and name, the new one follows the one that was split, a lookup of the
    new name finds the new inode and a lookup of any other name what it found
    before. *)
Theorem ext2_find_slot_correct blk es ino mode name : 0 < bs ≤ 4096 → length blk = Z.to_nat bs → tiles blk 0 es → 0 ≤ ino < 2 ^ 32 →
  zlen name < 256 → find_entry name es = None →
  ∃ r, find_slot (S (Z.to_nat bs)) blk 0 bs (rec_len_for_name (zlen name)) (λ rec, dir_entry ino rec mode name) = Some r ∧
    match r with
    | None => True
    | Some blk' => length blk' = Z.to_nat bs ∧ ∃ e1 e2, es = e1 ++ e2 ∧ tiles blk' 0 (e1 ++ (ino, name) :: e2) ∧
        find_entry name (e1 ++ (ino, name) :: e2) = Some ino ∧ ∀ n, n ≠ name → find_entry n (e1 ++ (ino, name) :: e2) = find_entry n es
    end.
Proof.
  intros Hbs Hl T Hi Hn Hnew. destruct (find_slot_run (S (Z.to_nat bs)) blk 0 es ino mode name Hbs Hl T ltac:(lia) ltac:(lia) Hi Hn) as (r & R & Hr).
  exists r. split; [done|]. destruct r as [blk'|]; [|done]. destruct Hr as (L & _ & e1 & e2 & -> & T'). split; [done|]. exists e1, e2.
  split; [done|]. split; [done|]. rewrite find_entry_app in Hnew. split.
  - rewrite find_entry_app. destruct (find_entry name e1); [done|]. cbn. by rewrite decide_True.
  - intros n Hne. rewrite !find_entry_app. destruct (find_entry n e1); [done|]. cbn. by rewrite decide_False.
Qed.
(** What the updates of an inode leave alone. *)
Definition same_blocks (raw raw' : list Z) (k : Z) : Prop := ∀ j, 0 ≤ j < 15 → j ≠ k → direct raw' j = direct raw j.
Lemma set_i_block_run raw k v : length raw = 128%nat → 0 ≤ k < 15 → 0 ≤ v < 2 ^ 32 →
  ∃ raw', set_i_block k v raw = Some raw' ∧ length raw' = 128%nat ∧ direct raw' k = v ∧ same_blocks raw raw' k ∧ i_size raw' = i_size raw ∧
    i_blocks raw' = i_blocks raw.
Proof.
  intros Hl Hk Hv. unfold set_i_block, EXT2_N_BLOCKS. destruct (Z.leb_spec 0 k); [|lia]. destruct (Z.ltb_spec k 15); [|lia]. cbn [andb].
  destruct (set_field_run raw (40 + 4 * k) 4 v) as (raw' & E & Hl' & Hv' & Ho); [lia|unfold zlen; lia|done|].
  exists raw'. split; [done|]. rewrite Hl in Hl'. split; [done|]. split; [by rewrite direct_eq by done|]. split; [|split].
  - intros j Hj Hne. rewrite !direct_eq by done. rewrite Ho; [done|lia|lia].
  - unfold i_size. rewrite Ho; [done|lia|lia].
  - unfold i_blocks. rewrite Ho; [done|lia|lia].
Qed.
Lemma set_i_blocks_run raw v : length raw = 128%nat → 0 ≤ v < 2 ^ 32 →
  ∃ raw', set_i_blocks v raw = Some raw' ∧ length raw' = 128%nat ∧ (∀ j, 0 ≤ j < 15 → direct raw' j = direct raw j) ∧ i_size raw' = i_size raw.
Proof.
  intros Hl Hv. destruct (set_field_run raw 28 4 v) as (raw' & E & Hl' & Hv' & Ho); [lia|unfold zlen; lia|done|].
  exists raw'. split; [done|]. rewrite Hl in Hl'. split; [done|]. split.
  - intros j Hj. rewrite !direct_eq by done. rewrite Ho; [done|lia|lia].
  - unfold i_size. rewrite Ho; [done|lia|lia].
Qed.
Lemma set_i_size_run raw v : length raw = 128%nat → 0 ≤ v < 2 ^ 32 →
  ∃ raw', set_i_size v raw = Some raw' ∧ length raw' = 128%nat ∧ (∀ j, 0 ≤ j < 15 → direct raw' j = direct raw j) ∧ i_size raw' = v.
Proof.
  intros Hl Hv. destruct (set_field_run raw 4 4 v) as (raw' & E & Hl' & Hv' & Ho); [lia|unfold zlen; lia|done|].
  exists raw'. split; [done|]. rewrite Hl in Hl'. split; [done|]. split; [|done].
  intros j Hj. rewrite !direct_eq by done. rewrite Ho; [done|lia|lia].
Qed.

(** ** Inodes on disk *)
Record inode_at (IT : list Z) (inum blk o : Z) : Prop := {
  n_num : inum ≠ 0;
  n_size : inode_size b = 128;
  n_group : 0 ≤ inode_group b inum < num_groups b;
  n_place : inode_place b (nth (Z.to_nat (inode_group b inum)) IT 0) (inode_index b inum) = (blk, o);
  n_range : in_range blk;
  n_off : 0 ≤ o ∧ o + 128 ≤ bs
}.
Lemma read_inode_run BM IT s inum blk o : base BM IT s → geometry BM → inode_at IT inum blk o →
  ext2_read_inode_raw inum s = Some (inr (take 128 (drop (Z.to_nat o) (dk s blk))), s).
Proof.
  intros B G [Hn Hsz Hg Hp Hr Ho]. unfold ext2_read_inode_raw. rewrite bind_gets, (b_sbi _ _ _ B), Hsz. pose proof (g_bs _ G).
  destruct (Z.eqb_spec inum 0); [done|]. destruct (Z.ltb_spec bs 128); [lia|]. cbn [Z.eqb orb].
  destruct (Z.leb_spec (num_groups b) (inode_group b inum)); [lia|]. rewrite bind_gets.
  destruct (gd_lookup _ _ _ (inode_group b inum) B) as (d & Ed & _ & Et); [rewrite (g_groups _ G); lia|].
  rewrite (bind_Some _ _ _ _ _ (lift_run _ _ s Ed)), Et, Hp. cbv beta iota.
  rewrite (bind_Some _ _ _ _ _ (kmalloc_run _ _ _ B)). cbn [negb]. rewrite (bind_Some _ _ _ _ _ (rd_block_run _ _ _ _ B Hr)). cbv beta iota.
  assert (zlen (dk s blk) = bs) as Hz by (unfold zlen; rewrite length_dk; lia).
  rewrite (bind_Some _ _ _ _ _ (lift_run _ _ s (slice_Some (dk s blk) o 128 ltac:(lia) ltac:(lia) ltac:(lia)))).
  change (Z.to_nat 128) with 128%nat. set (w := take 128 (drop (Z.to_nat o) (dk s blk))).
  assert (length w = 128%nat) as Hw by (unfold w; rewrite length_take, length_drop, length_dk; lia).
  assert (patch (replicate (Z.to_nat INODE_BYTES) 0) 0 w = Some w) as Epatch.
  { rewrite patch_fits by (rewrite ?length_replicate; unfold INODE_BYTES; lia). rewrite Hw. cbn [Z.to_nat take app].
    rewrite drop_ge by (rewrite length_replicate; unfold INODE_BYTES; lia). by rewrite app_nil_r. }
  by rewrite (bind_Some _ _ _ _ _ (lift_run _ _ s Epatch)).
Qed.
Lemma write_inode_run BM IT s inum blk o raw : base BM IT s → geometry BM → inode_at IT inum blk o → length raw = 128%nat →
  ∃ s', ext2_write_inode_raw inum raw s = Some (0, s') ∧ base BM IT s' ∧ gd s' = gd s ∧
    take 128 (drop (Z.to_nat o) (dk s' blk)) = raw ∧ ∀ m, m ≠ blk → dk s' m = dk s m.
Proof.
  intros B G [Hn Hsz Hg Hp Hr Ho] Hl. unfold ext2_write_inode_raw. rewrite bind_gets, (b_sbi _ _ _ B), Hsz. pose proof (g_bs _ G).
  destruct (Z.eqb_spec inum 0); [done|]. destruct (Z.leb_spec (num_groups b) (inode_group b inum)); [lia|]. rewrite bind_gets.
  destruct (gd_lookup _ _ _ (inode_group b inum) B) as (d & Ed & _ & Et); [rewrite (g_groups _ G); lia|].
  rewrite (bind_Some _ _ _ _ _ (lift_run _ _ s Ed)), Et. destruct (Z.ltb_spec bs 128); [lia|]. cbn [Z.eqb orb]. rewrite Hp. cbv beta iota.
  rewrite (bind_Some _ _ _ _ _ (kmalloc_run _ _ _ B)). cbn [negb]. rewrite (bind_Some _ _ _ _ _ (rd_block_run _ _ _ _ B Hr)). cbv beta iota.
  rewrite (bind_Some _ _ _ _ _ (lift_run _ _ s (slice_Some raw 0 128 ltac:(lia) ltac:(lia) ltac:(unfold zlen; lia)))).
  change (Z.to_nat 128) with 128%nat. cbn [Z.to_nat]. rewrite drop_0, take_ge by lia.
  assert (zlen (dk s blk) = bs) as Hz by (unfold zlen; rewrite length_dk; lia). unfold zlen in Hz.
  assert (patch (dk s blk) o raw = Some (take (Z.to_nat o) (dk s blk) ++ raw ++ drop (Z.to_nat o + length raw) (dk s blk))) as Epatch
    by (apply patch_fits; lia).
  rewrite (bind_Some _ _ _ _ _ (lift_run _ _ s Epatch)). set (buf := take _ _ ++ _).
  assert (length buf = Z.to_nat bs) as Hbuf by (unfold buf; rewrite length_overlay, length_dk; lia).
  destruct (wr_block_run _ _ s blk buf B Hr Hbuf) as (s' & W & B' & Hgd & Hdk & Hother). rewrite (bind_Some _ _ _ _ _ W).
  exists s'. do 3 (split; [done|]). split; [|done]. rewrite Hdk. unfold buf. rewrite drop_app_length' by (rewrite length_take; lia).
  by apply take_app_length'.
Qed.

(** ** Files of direct blocks *)
Context (BM IT : list Z) (G : geometry BM) (inum ib io : Z) (I : inode_at IT inum ib io).

(** The blocks of the file are taken, apart from each other and from the
    bitmaps and the file's inode; so are the blocks that are free. *)
Definition data_ok (p : Z) : Prop := in_range p ∧ p ∉ BM ∧ p ≠ ib.
Record file_ok (s : ext2 D) (raw : list Z) : Prop := {
  f_base : base BM IT s;
  f_len : length raw = 128%nat;
  f_ptr : ∀ k, 0 ≤ k < 12 → direct raw k ≠ 0 → data_ok (direct raw k) ∧ dom (direct raw k) ∧ used BM s (direct raw k) = true;
  f_inj : ∀ j k, 0 ≤ j < 12 → 0 ≤ k < 12 → direct raw k ≠ 0 → direct raw j = direct raw k → j = k;
  f_free : ∀ p, dom p → used BM s p = false → p ≠ 0 ∧ data_ok p;
  f_tab : ib ∉ BM
}.
(** The byte at a position, if its block is there. *)
Definition fget (s : ext2 D) (raw : list Z) (x : Z) : option Z :=
  if direct raw (x / bs) =? 0 then None else Some (nth (Z.to_nat (x mod bs)) (dk s (direct raw (x / bs))) 0).
(** What a call may change besides the blocks of the file. *)
Record grows (s : ext2 D) (raw : list Z) (s' : ext2 D) (raw' : list Z) : Prop := {
  gr_size : i_size raw' = i_size raw;
  gr_ptr : ∀ k, 0 ≤ k < 12 → direct raw k ≠ 0 → direct raw' k = direct raw k;
  gr_new : ∀ k, 0 ≤ k < 12 → direct raw k = 0 → direct raw' k = 0 ∨ dom (direct raw' k) ∧ used BM s (direct raw' k) = false;
  gr_used : ∀ q, dom q → used BM s q = true → used BM s' q = true;
  gr_frame : ∀ m, m ∉ BM → (∀ k, 0 ≤ k < 12 → direct raw' k ≠ 0 → direct raw' k ≠ m) → dk s' m = dk s m
}.
Lemma file_grows_refl s raw : grows s raw s raw.
Proof. constructor; auto. Qed.
Lemma file_grows_trans s raw s1 raw1 s2 raw2 : grows s raw s1 raw1 → grows s1 raw1 s2 raw2 → grows s raw s2 raw2.
Proof.
  intros A B. constructor.
  - by rewrite (gr_size _ _ _ _ B), (gr_size _ _ _ _ A).
  - intros k Hk H0. rewrite (gr_ptr _ _ _ _ B k Hk); by rewrite (gr_ptr _ _ _ _ A k Hk).
  - intros k Hk H0. destruct (gr_new _ _ _ _ A k Hk H0) as [E | [E1 E2]].
    + destruct (gr_new _ _ _ _ B k Hk E) as [E' | [E1 E2]]; [by left|]. right. split; [done|].
      destruct (used BM s (direct raw2 k)) eqn:U; [|done]. by rewrite (gr_used _ _ _ _ A) in E2.
    + destruct (decide (direct raw1 k = 0)) as [E|E].
      * destruct (gr_new _ _ _ _ B k Hk E) as [E' | [E3 E4]]; [by left|]. right. split; [done|].
        destruct (used BM s (direct raw2 k)) eqn:U; [|done]. by rewrite (gr_used _ _ _ _ A) in E4.
      * right. by rewrite (gr_ptr _ _ _ _ B k Hk E).
  - intros q Hq Hu. by apply (gr_used _ _ _ _ B), (gr_used _ _ _ _ A).
  - intros m Hm Hk. rewrite (gr_frame _ _ _ _ B m Hm Hk). apply (gr_frame _ _ _ _ A m Hm). intros k Hkk H0 E. apply (Hk k Hkk); by rewrite (gr_ptr _ _ _ _ B).
Qed.

Lemma used_ext s s' q : (∀ m, m ∈ BM → dk s' m = dk s m) → dom q → used BM s' q = used BM s q.
Proof.
  intros E Hq. destruct (dom_group _ _ G Hq) as [Hg _]. pose proof (g_groups _ G) as Hz. unfold zlen in Hz. unfold used. rewrite E; [done|].
  apply list_elem_of_In, nth_In. lia.
Qed.
Lemma dom_bound p : dom p → 0 ≤ p < 2 ^ 32.
Proof. intros [H1 H2]. pose proof (g_fdb _ G). pose proof (g_last _ G). lia. Qed.

(** A data block is written; the file stays well formed. *)
Lemma write_block_run s raw k buf : file_ok s raw → 0 ≤ k < 12 → direct raw k ≠ 0 → length buf = Z.to_nat bs →
  ∃ s', wr_block (direct raw k) buf s = Some (true, s') ∧ file_ok s' raw ∧ grows s raw s' raw ∧ dk s' (direct raw k) = buf ∧
    ∀ m, m ≠ direct raw k → dk s' m = dk s m.
Proof.
  intros F Hk H0 Hb. destruct (f_ptr _ _ F k Hk H0) as ((Hr & Hm & Hi) & Hd & Hu).
  destruct (wr_block_run _ _ s _ buf (f_base _ _ F) Hr Hb) as (s' & W & B' & _ & Hdk & Hother). exists s'. split; [done|].
  assert (∀ q, dom q → used BM s' q = used BM s q) as Hus.
  { intros q Hq. apply used_ext; [|done]. intros m Hmm. apply Hother. by intros ->. }
  split; [|split; [|done]].
  - destruct F. constructor; try done.
    + intros j Hj Hj0. destruct (f_ptr0 j Hj Hj0) as (? & ? & ?). by rewrite Hus.
    + intros p Hp. rewrite Hus by done. auto.
  - constructor; auto.
    + intros q Hq. by rewrite Hus.
    + intros m Hmm Hx. apply Hother. intros ->. by apply (Hx k).
Qed.
(** The pointer of a block that was taken goes into the inode. *)
Lemma file_ok_add s raw s1 p raw' k : file_ok s raw → base BM IT s1 → takes BM s s1 p → 0 ≤ k < 12 → direct raw k = 0 →
  length raw' = 128%nat → direct raw' k = p → same_blocks raw raw' k → i_size raw' = i_size raw →
  file_ok s1 raw' ∧ grows s raw s1 raw' ∧ p ≠ 0.
Proof.
  intros F B1 (Hd & Hu & Hu1 & Ho & Hfr) Hk H0 Hl Hp Hsb Hsz. destruct (f_free _ _ F p Hd Hu) as [Hp0 Hpok].
  assert (∀ j, 0 ≤ j < 12 → j ≠ k → direct raw' j = direct raw j) as Hj by (intros; apply Hsb; lia).
  assert (∀ j, 0 ≤ j < 12 → j ≠ k → direct raw j ≠ 0 → direct raw j ≠ p) as Hne.
  { intros j Hjj Hjk Hj0 E. destruct (f_ptr _ _ F j Hjj Hj0) as (_ & _ & U). rewrite E, Hu in U. done. }
  split; [|split; [|done]].
  - constructor; [done|done| | | |apply (f_tab _ _ F)].
    + intros j Hjj Hj0. destruct (decide (j = k)) as [->|Hjk]; [by rewrite Hp|]. rewrite Hj in * by done.
      destruct (f_ptr _ _ F j Hjj Hj0) as (D1 & D2 & D3). do 2 (split; [done|]). rewrite Ho; [done|done|]. by apply Hne.
    + intros i j Hii Hjj Hj0 E. destruct (decide (i = k)) as [->|Hik]; destruct (decide (j = k)) as [->|Hjk]; try done.
      * rewrite Hp, Hj in * by done. exfalso. by apply (Hne j).
      * rewrite Hp, Hj in * by done. exfalso. apply (Hne i); try done. by rewrite E.
      * rewrite !Hj in * by done. by apply (f_inj _ _ F).
    + intros q Hq Hqu. destruct (decide (q = p)) as [->|]; [by rewrite Hu1 in Hqu|]. rewrite Ho in Hqu by done. by apply (f_free _ _ F).
  - constructor; [done| | | |].
    + intros j Hjj Hj0. destruct (decide (j = k)) as [->|]; [done|by apply Hj].
    + intros j Hjj Hj0. destruct (decide (j = k)) as [->|]; [right; by rewrite Hp|left; by rewrite Hj].
    + intros q Hq Hqu. destruct (decide (q = p)) as [->|]; [done|by rewrite Ho].
    + intros m Hm _. by apply Hfr.
Qed.
Lemma ensure_block_run s raw k : file_ok s raw → 0 ≤ k < 12 →
  ∃ r s', ensure_block raw k s = Some (r, s') ∧
    match r with
    | None => s' = s ∧ direct raw k = 0 ∧ full BM s 0
    | Some raw' => file_ok s' raw' ∧ grows s raw s' raw' ∧ direct raw' k ≠ 0 ∧
        (∀ j, 0 ≤ j < 12 → j ≠ k → direct raw' j = direct raw j ∧ (direct raw j ≠ 0 → dk s' (direct raw j) = dk s (direct raw j))) ∧
        dk s' (direct raw' k) = if direct raw k =? 0 then replicate (Z.to_nat bs) 0 else dk s (direct raw k)
    end.
Proof.
  intros F Hk. pose proof (f_base _ _ F) as B. unfold ensure_block. rewrite bind_gets, (b_sbi _ _ _ B).
  rewrite (bind_Some _ _ _ _ _ (lift_run _ _ s (i_block_ok raw k (f_len _ _ F) ltac:(lia)))).
  destruct (Z.eqb_spec (direct raw k) 0) as [H0|H0]; cbn [negb].
  2:{ exists (Some raw), s. split; [done|]. split; [done|]. split; [apply file_grows_refl|]. split; [done|]. split; [auto|].
      by destruct (Z.eqb_spec (direct raw k) 0). }
  destruct (alloc_run BM IT s B G) as (p & s1 & A & B1 & [(-> & -> & Hfull) | T]); rewrite (bind_Some _ _ _ _ _ A).
  { exists None, s. auto. }
  pose proof T as (Hd & Hu & Hu1 & Ho & Hfr). destruct (f_free _ _ F p Hd Hu) as [Hp0 (Hpr & Hpm & Hpi)].
  destruct (Z.eqb_spec p 0); [done|].
  destruct (set_i_block_run raw k p (f_len _ _ F) ltac:(lia) (dom_bound p Hd)) as (raw1 & E1 & L1 & P1 & S1 & Z1 & _).
  rewrite (bind_Some _ _ _ _ _ (lift_run _ _ s1 E1)).
  destruct (set_i_blocks_run raw1 (u32 (i_blocks raw1 + bs / 512)) L1 (u32_bound _)) as (raw2 & E2 & L2 & P2 & Z2).
  rewrite (bind_Some _ _ _ _ _ (lift_run _ _ s1 E2)).
  assert (direct raw2 k = p) as Hp2 by (rewrite P2 by lia; done).
  assert (same_blocks raw raw2 k) as Hsb by (intros j Hj Hjk; rewrite P2 by done; by apply S1).
  destruct (file_ok_add s raw s1 p raw2 k F B1 T Hk H0 L2 Hp2 Hsb ltac:(congruence)) as (F2 & Gr & _).
  destruct (write_block_run s1 raw2 k (replicate (Z.to_nat bs) 0) F2 Hk ltac:(congruence) (length_replicate _ _)) as (s2 & W & F3 & Gr2 & Hdk & Hother).
  rewrite Hp2 in W. rewrite (bind_Some _ _ _ _ _ W). exists (Some raw2), s2. split; [done|]. split; [done|].
  split; [by eapply file_grows_trans|]. split; [congruence|]. split; [|congruence]. intros j Hj Hjk.
  split; [apply Hsb; lia|]. intros Hj0. destruct (f_ptr _ _ F j Hj Hj0) as ((Jr & Jm & Ji) & Jd & Ju).
  rewrite Hother; [by apply Hfr|]. rewrite Hp2. intros E. congruence.
Qed.

(** ** Writing *)
(** A byte that a call does not write: it stays; a block that is new holds zeros. *)
Definition keeps (s : ext2 D) (raw : list Z) (s' : ext2 D) (raw' : list Z) (x : Z) : Prop :=
  match fget s raw x with Some v => fget s' raw' x = Some v | None => fget s' raw' x = None ∨ fget s' raw' x = Some 0 end.
Lemma file_keeps_trans s raw s1 raw1 s2 raw2 x : keeps s raw s1 raw1 x → keeps s1 raw1 s2 raw2 x → keeps s raw s2 raw2 x.
Proof. unfold keeps. destruct (fget s raw x); [by intros ->|]. intros [-> | ->]; auto. Qed.
Lemma position x : 0 ≤ x < 12 * bs → 0 ≤ x / bs < 12 ∧ 0 ≤ x mod bs < bs ∧ x = bs * (x / bs) + x mod bs.
Proof.
  intros Hx. assert (0 < bs) by (pose proof (g_bs _ G); lia). split; [split; [apply Z.div_pos; lia|apply Z.div_lt_upper_bound; lia]|].
  split; [apply Z.mod_pos_bound; lia|apply Z.div_mod; lia].
Qed.
Lemma ensure_keeps s raw k s' raw' x : 0 ≤ k < 12 → 0 ≤ x < 12 * bs → direct raw' k ≠ 0 →
  (∀ j, 0 ≤ j < 12 → j ≠ k → direct raw' j = direct raw j ∧ (direct raw j ≠ 0 → dk s' (direct raw j) = dk s (direct raw j))) →
  dk s' (direct raw' k) = (if direct raw k =? 0 then replicate (Z.to_nat bs) 0 else dk s (direct raw k)) → keeps s raw s' raw' x.
Proof.
  intros Hk Hx H0 Hj Hd. destruct (position x Hx) as (Hq & Hm & _). unfold keeps, fget. destruct (decide (x / bs = k)) as [E|E].
  - rewrite E, Hd. destruct (Z.eqb_spec (direct raw' k) 0); [done|]. destruct (direct raw k =? 0); [|done].
    right. rewrite nth_lookup, lookup_replicate_2 by lia. done.
  - destruct (Hj (x / bs) Hq E) as [-> E2]. destruct (Z.eqb_spec (direct raw (x / bs)) 0); [by left|]. by rewrite E2.
Qed.

(** One round of the loop, after the block is there. *)
Lemma block_before_run s raw old k off count : file_ok s raw → 0 ≤ k < 12 → direct raw k ≠ 0 → length old = Z.to_nat bs →
  ∃ buf, block_before raw old k off count s = Some (inr buf, s) ∧ length buf = Z.to_nat bs ∧
    (off ≠ 0 ∨ count < bs → buf = dk s (direct raw k)).
Proof.
  intros F Hk H0 Hl. pose proof (f_base _ _ F) as B. unfold block_before. rewrite bind_gets, (b_sbi _ _ _ B).
  destruct (negb (off =? 0) || (count <? bs)) eqn:E.
  - exists (dk s (direct raw k)). split; [|split; [apply length_dk|done]].
    pose proof (g_bs _ G). rewrite (read_data_block_run BM IT s raw k B ltac:(lia) (f_len _ _ F)).
    + unfold bmap. destruct (Z.ltb_spec k 12); [done|lia].
    + unfold mapped_block, bmap. destruct (Z.ltb_spec k 12); [|lia]. destruct (f_ptr _ _ F k Hk H0) as ((Hr & _) & _).
      assert (0 ≤ ptrs) by (unfold ptrs; apply Z.div_pos; lia). split; [nia|]. split; [constructor|by split].
  - exists old. split; [done|]. split; [done|]. apply orb_false_iff in E as [E1%negb_false_iff E2]. intros [H1 | H1]; lia.
Qed.
Lemma write_data_run s raw k buf : file_ok s raw → 0 ≤ k < 12 → direct raw k ≠ 0 → length buf = Z.to_nat bs →
  ∃ s', ext2_write_data_block raw k buf s = Some (0, s') ∧ file_ok s' raw ∧ grows s raw s' raw ∧
    ∀ x, 0 ≤ x < 12 * bs → fget s' raw x = if decide (x / bs = k) then Some (nth (Z.to_nat (x mod bs)) buf 0) else fget s raw x.
Proof.
  intros F Hk H0 Hl. pose proof (f_base _ _ F) as B. unfold ext2_write_data_block. rewrite bind_gets, (b_sbi _ _ _ B). unfold EXT2_NDIR_BLOCKS.
  destruct (Z.ltb_spec k 12); [|lia]. rewrite (bind_Some _ _ _ _ _ (lift_run _ _ s (i_block_ok raw k (f_len _ _ F) ltac:(lia)))).
  destruct (Z.eqb_spec (direct raw k) 0); [done|]. unfold wr_data.
  destruct (write_block_run s raw k buf F Hk H0 Hl) as (s' & W & F' & Gr & Hdk & Hother). rewrite (bind_Some _ _ _ _ _ W).
  exists s'. split; [done|]. split; [done|]. split; [done|]. intros x Hx. destruct (position x Hx) as (Hq & _). unfold fget.
  destruct (decide (x / bs = k)) as [->|E]; [destruct (Z.eqb_spec (direct raw k) 0); [done|by rewrite Hdk]|].
  destruct (Z.eqb_spec (direct raw (x / bs)) 0) as [|Hx0]; [done|]. rewrite Hother; [done|]. intros E2. apply E. by apply (f_inj _ _ F).
Qed.
(** The bytes after one round, and after the rest of the loop. *)
Lemma round_byte s raw s1 raw1 s2 k o c data buf buf1 x : 0 ≤ o < 12 * bs → k = o / bs → 0 < c ≤ bs - o mod bs → c ≤ zlen data →
  (c = zlen data ∨ c = bs - o mod bs) → 0 ≤ x < 12 * bs → direct raw1 k ≠ 0 → length buf1 = length buf →
  (o mod bs ≠ 0 ∨ zlen data < bs → buf = dk s1 (direct raw1 k)) →
  (∀ i, 0 ≤ i → nth (Z.to_nat i) buf1 0 =
     if decide (o mod bs ≤ i < o mod bs + c) then nth (Z.to_nat (i - o mod bs)) (take (Z.to_nat c) data) 0 else nth (Z.to_nat i) buf 0) →
  keeps s raw s1 raw1 x →
  fget s2 raw1 x = (if decide (x / bs = k) then Some (nth (Z.to_nat (x mod bs)) buf1 0) else fget s1 raw1 x) →
  if decide (o ≤ x < o + c) then fget s2 raw1 x = Some (nth (Z.to_nat (x - o)) data 0) else keeps s raw s2 raw1 x.
Proof.
  intros Ho -> Hc Hcz Hor Hx H1 Hl Hbuf Hn K E. pose proof (g_bs _ G). destruct (position x Hx) as (Hq & Hm & Hdm).
  destruct (position o Ho) as (Hqo & Hmo & Hdmo). destruct (decide (x / bs = o / bs)) as [Eq|Eq].
  - rewrite Hn in E by lia. rewrite Eq in Hdm. case_decide as D1; case_decide as D2; try lia.
    + rewrite E. f_equal. rewrite !nth_lookup, lookup_take_lt by lia. do 2 f_equal. lia.
    + assert (buf = dk s1 (direct raw1 (o / bs))) as -> by (apply Hbuf; lia).
      assert (fget s2 raw1 x = fget s1 raw1 x) as E2; [|unfold keeps in *; by rewrite E2].
      rewrite E. unfold fget. rewrite Eq. by destruct (Z.eqb_spec (direct raw1 (o / bs)) 0).
  - rewrite decide_False; [unfold keeps in *; by rewrite E|]. intros Din. apply Eq, same_block; lia.
Qed.
Lemma splice_bytes s raw s1 raw1 s' raw' data o c n x : 0 ≤ c → 0 ≤ n →
  (if decide (o + c ≤ x < o + c + n) then fget s' raw' x = Some (nth (Z.to_nat (x - (o + c))) (drop (Z.to_nat c) data) 0) else keeps s1 raw1 s' raw' x) →
  (if decide (o ≤ x < o + c) then fget s1 raw1 x = Some (nth (Z.to_nat (x - o)) data 0) else keeps s raw s1 raw1 x) →
  if decide (o ≤ x < o + (c + n)) then fget s' raw' x = Some (nth (Z.to_nat (x - o)) data 0) else keeps s raw s' raw' x.
Proof.
  intros Hc Hn H1 H2. destruct (decide (o + c ≤ x < o + c + n)).
  - rewrite decide_True by lia. rewrite H1. f_equal. rewrite !nth_lookup, lookup_drop. do 2 f_equal. lia.
  - destruct (decide (o ≤ x < o + c)).
    + rewrite decide_True by lia. unfold keeps in H1. by rewrite H2 in H1.
    + rewrite decide_False by lia. by eapply file_keeps_trans.
Qed.
Lemma write_loop_run fuel s raw old data total o : file_ok s raw → 0 ≤ o → length old = Z.to_nat bs → (length data < fuel)%nat →
  zlen data < 2 ^ 32 →
  let want := 0 `max` (zlen data `min` (12 * bs - o)) in
  ∃ r raw' s' n, write_loop fuel raw old data total o (12 * bs) s = Some ((r, raw', o + n), s') ∧ file_ok s' raw' ∧ grows s raw s' raw' ∧
    0 ≤ n ∧ (r = inr (total + n) ∧ n = want ∨ r = inl (if 0 <? total + n then total + n else - ENOSPC) ∧ n < want ∧ full BM s' 0) ∧
    ∀ x, 0 ≤ x < 12 * bs → if decide (o ≤ x < o + n) then fget s' raw' x = Some (nth (Z.to_nat (x - o)) data 0) else keeps s raw s' raw' x.
Proof.
  revert s raw old data total o. induction fuel as [|fuel IH]; intros s raw old data total o F Ho Hl Hf Hd want; [lia|]. cbn [write_loop].
  pose proof (f_base _ _ F) as B. rewrite bind_gets, (b_sbi _ _ _ B). pose proof (g_bs _ G) as Hbs.
  assert (∀ x : Z, keeps s raw s raw x) as Hrefl by (intros x; unfold keeps; destruct (fget s raw x); auto).
  assert (0 ≤ zlen data) as Hz by (unfold zlen; lia).
  destruct (Z.ltb_spec 0 (zlen data)); cbn [andb].
  2:{ exists (inr total), raw, s, 0. rewrite Z.add_0_r. split; [done|]. split; [done|]. split; [apply file_grows_refl|]. split; [lia|].
      split; [left; split; [f_equal; lia|lia]|]. intros x _. rewrite decide_False by lia. done. }
  destruct (Z.ltb_spec o (12 * bs)).
  2:{ exists (inr total), raw, s, 0. rewrite Z.add_0_r. split; [done|]. split; [done|]. split; [apply file_grows_refl|]. split; [lia|].
      split; [left; split; [f_equal; lia|lia]|]. intros x _. rewrite decide_False by lia. done. }
  destruct (position o ltac:(lia)) as (Hk & Hoff & Hdm). unfold logical_of, within_of. rewrite Z.quot_div_nonneg, Z.rem_mod_nonneg by lia.
  rewrite (u32_small (o / bs)), (u32_small (o mod bs)), u32_small by lia.
  destruct (ensure_block_run s raw (o / bs) F Hk) as (r & s1 & En & Hr). rewrite (bind_Some _ _ _ _ _ En). destruct r as [raw1|].
  2:{ destruct Hr as (-> & _ & Hfull). exists (inl (if 0 <? total then total else - ENOSPC)), raw, s, 0. rewrite !Z.add_0_r. split; [done|]. split; [done|].
      split; [apply file_grows_refl|]. split; [lia|]. split; [right; split; [done|split; [lia|done]]|]. intros x _. rewrite decide_False by lia. done. }
  destruct Hr as (F1 & G1 & Hp1 & Hj & Hd1). set (k := o / bs) in *. set (off := o mod bs) in *.
  destruct (block_before_run s1 raw1 old k off (zlen data) F1 Hk Hp1 Hl) as (buf & Rb & Lb & Eb). rewrite (bind_Some _ _ _ _ _ Rb).
  set (c := if zlen data <? bs - off then zlen data else bs - off).
  assert (0 < c ≤ zlen data ∧ c ≤ bs - off ∧ (c = zlen data ∨ c = bs - off)) as Hc by (unfold c; destruct (Z.ltb_spec (zlen data) (bs - off)); lia).
  assert (o + (bs - off) ≤ 12 * bs) as Hend by nia.
  assert (zlen (take (Z.to_nat c) data) = c) as Hw by (unfold zlen in *; rewrite length_take; lia).
  destruct (patch_run buf off (take (Z.to_nat c) data)) as (buf1 & Ep & Lp & Np); [lia|unfold zlen in *; lia|].
  rewrite (bind_Some _ _ _ _ _ (lift_run _ _ s1 Ep)). rewrite Hw in Np.
  destruct (write_data_run s1 raw1 k buf1 F1 Hk Hp1 ltac:(lia)) as (s2 & W & F2 & G2 & Hget). rewrite (bind_Some _ _ _ _ _ W). cbn [Z.ltb Z.compare].
  assert (∀ x, 0 ≤ x < 12 * bs → if decide (o ≤ x < o + c) then fget s2 raw1 x = Some (nth (Z.to_nat (x - o)) data 0) else keeps s raw s2 raw1 x) as Hround.
  { intros x Hx. pose proof (ensure_keeps s raw k s1 raw1 x Hk Hx Hp1 Hj Hd1) as Kx. pose proof (Hget x Hx) as Gx.
    eapply round_byte; try eassumption; try lia. }
  destruct (IH s2 raw1 buf1 (drop (Z.to_nat c) data) (total + c) (o + c) F2) as (r & raw' & s' & n & R & F' & G' & Hn & Hr & Hx);
    [lia|lia|unfold zlen in *; rewrite length_drop; lia|unfold zlen in *; rewrite length_drop; lia|].
  rewrite R. assert (zlen (drop (Z.to_nat c) data) = zlen data - c) as Hzd by (unfold zlen in *; rewrite length_drop; lia). rewrite Hzd in Hr.
  exists r, raw', s', (c + n). rewrite !Z.add_assoc. split; [done|]. split; [done|]. split; [eapply file_grows_trans; [eapply file_grows_trans; eassumption|done]|].
  split; [lia|]. split; [destruct Hr as [[-> ->] | (-> & Hr & Hfull)]; [left|right]; (split; [done|]); [lia|split; [lia|done]]|].
  intros x Hxx. specialize (Hx x Hxx). specialize (Hround x Hxx). rewrite <- Z.add_assoc. eapply splice_bytes; try eassumption; lia.
Qed.

(** Two images of an inode with the same pointers. *)
Lemma file_ok_same s raw raw' : file_ok s raw → length raw' = 128%nat → (∀ j, 0 ≤ j < 15 → direct raw' j = direct raw j) → file_ok s raw'.
Proof.
  intros F Hl Hj. destruct F. constructor; try done.
  - intros k Hk. rewrite Hj by lia. auto.
  - intros j k Hj' Hk. rewrite !Hj by lia. auto.
Qed.
Lemma fget_same s s' raw raw' x : (∀ j, 0 ≤ j < 15 → direct raw' j = direct raw j) → 0 ≤ x < 12 * bs →
  (∀ k, 0 ≤ k < 12 → direct raw k ≠ 0 → dk s' (direct raw k) = dk s (direct raw k)) → fget s' raw' x = fget s raw x.
Proof.
  intros Hj Hx Hd. destruct (position x Hx) as (Hq & _). unfold fget. rewrite Hj by lia.
  destruct (Z.eqb_spec (direct raw (x / bs)) 0); [done|]. by rewrite Hd.
Qed.
(** The inode goes to its place; the blocks of the file stay. *)
Lemma save_inode_run s raw : file_ok s raw →
  ∃ s', ext2_write_inode_raw inum raw s = Some (0, s') ∧ file_ok s' raw ∧ ext2_read_inode_raw inum s' = Some (inr raw, s') ∧
    ∀ m, m ≠ ib → dk s' m = dk s m.
Proof.
  intros F. destruct (write_inode_run BM IT s inum ib io raw (f_base _ _ F) G I (f_len _ _ F)) as (s' & W & B' & _ & Hraw & Ho).
  exists s'. split; [done|].
  assert (∀ q, dom q → used BM s' q = used BM s q) as Hus.
  { intros q Hq. apply used_ext; [|done]. intros m Hm. apply Ho. intros ->. by apply (f_tab _ _ F). }
  split; [|split; [|done]].
  - destruct F. constructor; try done.
    + intros k Hk H0. destruct (f_ptr0 k Hk H0) as (? & ? & ?). by rewrite Hus.
    + intros p Hp. rewrite Hus by done. auto.
  - rewrite (read_inode_run BM IT s' inum ib io B' G I), Hraw. done.
Qed.
Lemma file_ok_ib s raw k : file_ok s raw → 0 ≤ k < 12 → direct raw k ≠ 0 → direct raw k ≠ ib.
Proof. intros F Hk H0. destruct (f_ptr _ _ F k Hk H0) as ((_ & _ & Hi) & _). done. Qed.
(** Reading what [fget] shows. *)
Lemma read_back s info data o : file_ok s (info_raw info) → 0 ≤ o → o + zlen data ≤ 12 * bs → o + zlen data ≤ i_size (info_raw info) < 2 ^ 32 →
  (∀ x, o ≤ x < o + zlen data → fget s (info_raw info) x = Some (nth (Z.to_nat (x - o)) data 0)) →
  ext2_file_read info (zlen data) o s = Some ((zlen data, data, o + zlen data), s).
Proof.
  intros F Ho Hend Hsz Hx. pose proof (g_bs _ G). assert (0 ≤ zlen data) as Hz by (unfold zlen; lia).
  assert (∀ x, o ≤ x < o + zlen data → 0 ≤ x / bs < 12 ∧ direct (info_raw info) (x / bs) ≠ 0) as Hp.
  { intros x Hxx. destruct (position x ltac:(lia)) as (Hq & _). split; [done|]. specialize (Hx x Hxx). unfold fget in Hx.
    by destruct (Z.eqb_spec (direct (info_raw info) (x / bs)) 0). }
  rewrite (file_read_run BM IT s info (zlen data) o (f_base _ _ F) ltac:(lia) (f_len _ _ F) ltac:(lia) Ho Hz).
  - assert (0 `max` (zlen data `min` (i_size (info_raw info) - o)) = zlen data) as -> by lia. do 4 f_equal.
    unfold content, seqZ. apply list_eq. intros i. rewrite map_map, list_lookup_fmap. destruct (decide (i < length data)%nat) as [Hi|Hi].
    + rewrite lookup_seq_lt by (unfold zlen; lia). change (0 + i)%nat with i. cbn [fmap option_fmap option_map]. destruct (lookup_lt_is_Some_2 data i Hi) as [v Ev].
      rewrite Ev. f_equal. specialize (Hx (Z.of_nat i + o) ltac:(unfold zlen; lia)). destruct (Hp (Z.of_nat i + o) ltac:(unfold zlen; lia)) as [Hq Hx0].
      unfold fget in Hx. unfold fbyte, bmap. destruct (Z.ltb_spec ((Z.of_nat i + o) / bs) 12); [|lia]. cbn [snd].
      destruct (Z.eqb_spec (direct (info_raw info) ((Z.of_nat i + o) / bs)) 0); [done|]. injection Hx as Hx. etrans; [exact Hx|].
      apply nth_lookup_Some. rewrite <- Ev. f_equal. lia.
    + rewrite (lookup_ge_None_2 data) by lia. rewrite lookup_ge_None_2; [done|]. rewrite length_seq. unfold zlen. lia.
  - intros x Hxx. destruct (Hp x ltac:(lia)) as [Hq Hx0]. unfold mapped_block, bmap. destruct (Z.ltb_spec (x / bs) 12); [|lia]. cbn [fst snd].
    assert (0 ≤ ptrs) by (unfold ptrs; apply Z.div_pos; lia). split; [nia|]. split; [constructor|].
    destruct (f_ptr _ _ F _ Hq Hx0) as ((Hr & _) & _). by split.
Qed.


End laws.

(** ** A small file system

    24 blocks of 1024 bytes, one group of 24 blocks and 8 inodes: the boot and
    super blocks, the group descriptors, the bitmaps, one block of inodes, the
    root directory in block 6 and a file, inode 3, of five bytes in block 7. *)
Definition img_super : list Z :=
  le_bytes 4 8 ++ le_bytes 4 24 ++ le_bytes 4 0 ++ le_bytes 4 16 ++ le_bytes 4 5 ++ le_bytes 4 1 ++ le_bytes 4 0 ++ le_bytes 4 0 ++
  le_bytes 4 24 ++ le_bytes 4 24 ++ le_bytes 4 8 ++ le_bytes 8 0 ++ le_bytes 4 0 ++ le_bytes 2 0xEF53 ++ le_bytes 30 0 ++ le_bytes 2 128.
Definition img_gd : list Z := le_bytes 4 3 ++ le_bytes 4 4 ++ le_bytes 4 5 ++ le_bytes 2 16 ++ le_bytes 2 5.
Definition img_inode (mode size links blocks blk : Z) : list Z :=
  le_bytes 2 mode ++ le_bytes 2 0 ++ le_bytes 4 size ++ le_bytes 18 0 ++ le_bytes 2 links ++ le_bytes 4 blocks ++ le_bytes 8 0 ++ le_bytes 4 blk ++
  le_bytes 84 0.
Definition root_raw : list Z := img_inode 0x41ED 1024 2 2 6.
Definition file_raw : list Z := img_inode 0x81A4 5 1 2 7.
Definition root_dir : list Z := dir_entry 2 12 0x4000 [46] ++ [0; 0; 0] ++ dir_entry 2 12 0x4000 [46; 46] ++ [0; 0] ++ dir_entry 3 1000 0x8000 [102].
Definition img : gmap Z Z :=
  store (store (store (store (store (store (store (store ∅ 1024 img_super) 2048 img_gd) 3072 [0x7F; 0; 0x80]) 4096 [7]) (5 * 1024 + 128) root_raw)
    (5 * 1024 + 256) file_raw) (6 * 1024) root_dir) (7 * 1024) [104; 101; 108; 108; 111].
Definition disk0 : ramdisk_priv := mk_rd img (32 * 1024).
Definition sb0 : ext2_sb_info := mk_sbi 1024 24 8 128 1 1.
Definition fs0 : ext2 ramdisk_priv := mk_ext2 disk0 sb0 [mk_gd 3 4 5 16 5] [].
Definition file0 : ext2_inode_info := mk_info 3 file_raw.
Example mount_fs0 : ext2_mount disk0 [] = Some (Some (fs0, mk_info 2 root_raw)).
Proof. vm_compute. reflexivity. Qed.
Example lookup_fs0 : ext2_dir_lookup (mk_info 2 root_raw) [102] fs0 = Some ((0, Some file0), fs0).
Proof. vm_compute. reflexivity. Qed.

Lemma base0 : base sb0 32 [3] [5] fs0.
Proof. constructor; try reflexivity; vm_compute; try done; lia. Qed.
Lemma geometry0 : geometry sb0 32 [3].
Proof.
  constructor; try (vm_compute; done); try (cbn; lia).
  - apply NoDup_singleton.
  - apply Forall_singleton. unfold in_range. lia.
Qed.
Lemma inode0 : inode_at sb0 32 [5] 3 5 256.
Proof. constructor; try (vm_compute; done); try (unfold in_range; cbn; lia). Qed.
Lemma used0 p : 1 ≤ p < 25 → used sb0 [3] fs0 p = bool_decide (p < 8 ∨ p = 24).
Proof.
  intros Hp. assert (forallb (λ p, eqb (used sb0 [3] fs0 p) (bool_decide (p < 8 ∨ p = 24))) (seqZ 1 24) = true) as Hf by (vm_compute; reflexivity).
  apply eqb_prop, (proj1 (forallb_forall _ _) Hf), list_elem_of_In, elem_of_seqZ. lia.
Qed.
Lemma direct0 k : 0 ≤ k < 12 → direct file_raw k = if k =? 0 then 7 else 0.
Proof.
  intros Hk. assert (forallb (λ k, direct file_raw k =? if k =? 0 then 7 else 0) (seqZ 0 12) = true) as Hf by (vm_compute; reflexivity).
  apply Z.eqb_eq, (proj1 (forallb_forall _ _) Hf), list_elem_of_In, elem_of_seqZ. lia.
Qed.
Lemma file_ok0 : file_ok sb0 32 [3] [5] 5 fs0 file_raw.
Proof.
  assert (∀ p, dom sb0 p → 1 ≤ p < 25) as Hdom by (unfold dom; cbn; lia).
  constructor; [exact base0|reflexivity| | | |].
  - intros k Hk H0. rewrite direct0 in * by done. destruct (Z.eqb_spec k 0); [|done]. split; [|split].
    + split; [unfold in_range; lia|]. rewrite list_elem_of_singleton. lia.
    + unfold dom. cbn. lia.
    + rewrite used0 by lia. done.
  - intros j k Hj Hk. rewrite !direct0 by done. destruct (Z.eqb_spec j 0); destruct (Z.eqb_spec k 0); lia.
  - intros p Hp Hu. pose proof (Hdom p Hp). rewrite used0 in Hu by done. apply bool_decide_eq_false in Hu. split; [lia|].
    split; [unfold in_range; lia|]. rewrite list_elem_of_singleton. lia.
  - rewrite list_elem_of_singleton. lia.
Qed.
Lemma ext2_alloc_correct_witness : ∃ p s', ext2_alloc_block fs0 = Some (p, s') ∧ takes sb0 [3] fs0 s' p.
Proof.
  destruct (ext2_alloc_correct sb0 32 [3] [5] fs0 base0 geometry0) as (p & s' & R & _ & [(_ & _ & Hf) | [Ht _]]); exists p, s'; (split; [exact R|]); [|exact Ht].
  exfalso. assert (dom sb0 8) as Hd by (unfold dom; cbn [first_data_block sb0 num_groups blocks_per_group]; lia).
  assert (group_of sb0 8 = 0) as Hg by (vm_compute; reflexivity). pose proof (used0 8 ltac:(lia)) as Hu.
  rewrite (Hf 8 (mk_gd 3 4 5 16 5) Hd) in Hu; [discriminate|rewrite Hg; lia|rewrite Hg; reflexivity|cbn [bg_free_blocks_count]; lia].
Defined.
Lemma ext2_file_read_correct_witness : ext2_file_read file0 3 1 fs0 = Some ((3, [101; 108; 108], 4), fs0).
Proof.
  assert (i_size file_raw = 5) as Hs by done.
  pose proof (ext2_file_read_correct sb0 32 [3] [5] fs0 file0 3 1 base0 ltac:(split; vm_compute; done) eq_refl ltac:(split; vm_compute; done) ltac:(lia) ltac:(lia)) as R.
  cbv zeta in R. cbn [info_raw file0] in R. rewrite Hs in R. rewrite R; [vm_compute; reflexivity|]. intros x Hx.
  assert (x / block_size sb0 = 0) as -> by (cbn; apply Z.div_small; lia). unfold mapped_block.
  assert (bmap sb0 fs0 file_raw 0 = ([], 7)) as -> by (vm_compute; reflexivity). assert (ptrs sb0 = 256) as -> by done.
  cbn [fst snd]. split; [lia|]. split; [apply Forall_nil_2|]. unfold usable, in_range. lia.
Defined.
Lemma root_tiles : tiles sb0 (dk sb0 fs0 6) 0 [(2, [46]); (2, [46; 46]); (3, [102])].
Proof.
  assert (∀ blk o ino rec nl name es, de_inode blk o = Some ino → de_rec_len blk o = Some rec → de_name_len blk o = Some nl → 0 ≤ nl < 256 →
    8 + nl ≤ rec → 0 ≤ o → o + rec ≤ block_size sb0 → take (Z.to_nat nl) (drop (Z.to_nat (o + 8)) blk) = name → tiles sb0 blk (o + rec) es →
    tiles sb0 blk o ((ino, name) :: es)) as cons by (intros; subst; by eapply tiles_cons).
  apply (cons _ 0 2 12 1); try (vm_compute; done). apply (cons _ 12 2 12 2); try (vm_compute; done).
  apply (cons _ 24 3 1000 1); try (vm_compute; done). apply (tiles_end sb0).
Qed.
Lemma dir_ok0 : dir_ok sb0 32 fs0 root_raw [[(2, [46]); (2, [46; 46]); (3, [102])]].
Proof.
  split; [reflexivity|]. intros [|k] es; [|destruct k; discriminate]. intros [= <-]. split; [|exact root_tiles].
  unfold mapped_block. change (Z.of_nat 0) with 0. assert (bmap sb0 fs0 root_raw 0 = ([], 6)) as -> by (vm_compute; reflexivity).
  assert (ptrs sb0 = 256) as -> by done. cbn [fst snd]. split; [lia|]. split; [apply Forall_nil_2|]. unfold usable, in_range. lia.
Qed.
Lemma ext2_dir_lookup_correct_witness : ext2_dir_lookup (mk_info 2 root_raw) [102] fs0 = Some ((0, Some file0), fs0) ∧
  ext2_dir_lookup (mk_info 2 root_raw) [102; 102] fs0 = Some ((- ENOENT, None), fs0).
Proof.
  split; rewrite (ext2_dir_lookup_correct sb0 32 [3] [5] fs0 (mk_info 2 root_raw) _ _ base0 ltac:(split; vm_compute; done) eq_refl dir_ok0
    ltac:(split; vm_compute; done)); [|reflexivity].
  change (child_of 3 fs0 = Some ((0, Some file0), fs0)). vm_compute. reflexivity.
Defined.
Lemma ext2_find_slot_correct_witness : ∃ blk, find_slot 1025 (dk sb0 fs0 6) 0 1024 12 (λ rec, dir_entry 4 rec 0x8000 [103]) = Some (Some blk) ∧
  ∃ es, tiles sb0 blk 0 es ∧ find_entry [103] es = Some 4 ∧ find_entry [102] es = Some 3.
Proof.
  destruct (ext2_find_slot_correct sb0 (dk sb0 fs0 6) _ 4 0x8000 [103] ltac:(split; vm_compute; done) (length_dk _ _ _) root_tiles ltac:(lia)
    ltac:(vm_compute; done) eq_refl) as (r & R & Hr).
  destruct r as [blk|]; [|exfalso].
  - exists blk. split; [exact R|]. destruct Hr as (_ & e1 & e2 & Ees & T & F1 & F2). exists (e1 ++ (4, [103]) :: e2). split; [exact T|]. split; [exact F1|].
    rewrite (F2 [102] ltac:(done)). reflexivity.
  - assert (fmap (λ o : option (list Z), match o with Some _ => true | None => false end) (find_slot 1025 (dk sb0 fs0 6) 0 1024 12 (λ rec, dir_entry 4 rec 0x8000 [103])) = Some true) as E
      by (vm_compute; reflexivity).
    change (find_slot 1025 (dk sb0 fs0 6) 0 1024 12 (λ rec, dir_entry 4 rec 0x8000 [103]) = Some None) in R. rewrite R in E. discriminate.
Defined.

(** ** Divergences on that file system *)

(** A directory is made in the root, two files in it, and both are looked up. *)
Definition two_files : EM (Z * Z * Z) :=
  x <- ext2_create (mk_info 2 root_raw) (replicate 1024 0) [100] 0x4000 ;;
  match x.1 with
  | None => fail
  | Some d =>
      x <- ext2_create d (replicate 1024 0) [97] 0x8000 ;;
      x <- ext2_create x.2 (replicate 1024 0) [98] 0x8000 ;;
      let made := match x.1 with Some i => inode_num i | None => 0 end in
      la <- ext2_dir_lookup x.2 [97] ;;
      lb <- ext2_dir_lookup x.2 [98] ;;
      ret (made, la.1, lb.1)
  end.
(** The second file created in a new directory is inode 6 on the disk but a
    lookup does not find it: the first entry makes the directory as long as that
    entry, the second goes into the slack of its record, and the directory does
    not grow. *)
Theorem second_file_invisible : fmap fst (two_files fs0) = Some (6, 0, - ENOENT).
Proof. vm_compute. reflexivity. Qed.
(** The file system with inodes of 256 bytes. *)
Definition fs256 : ext2 ramdisk_priv := mk_ext2 disk0 (mk_sbi 1024 24 4 256 1 1) [mk_gd 3 4 5 16 5] [].
Lemma inode_size_overflow_witness : ext2_read_inode_raw 2 fs256 = None.
Proof.
  apply (inode_size_overflow (mk_sbi 1024 24 4 256 1 1) 32 [3] [5] fs256 2 5 256).
  - constructor; try reflexivity; vm_compute; try done; lia.
  - constructor; try (vm_compute; done); try (cbn; lia); [apply NoDup_singleton|apply Forall_singleton; unfold in_range; lia].
  - done.
  - cbn. lia.
  - split; vm_compute; done.
  - vm_compute. reflexivity.
  - unfold in_range. lia.
  - lia.
  - vm_compute. done.
Defined.
