(* ===== verification/Fat32.v ===== *)
(** * kernel/fat32.c: the FAT32 file system over a block device.

    Directory entries, long-name entries and sectors are their bytes; names are
    C strings without their terminator.  The cached FAT is a list of words and
    part of the state, as are the device and the answers of [kmalloc], which
    hands out zeroed memory.  An access outside a buffer has no outcome.  A
    chain of clusters may be a cycle, on which the code does not end: every walk
    takes the fuel [F], an argument of the operations. *)
From S2P Require Import Prelude Bytes BlockDev.
Local Open Scope Z_scope.
Local Open Scope kernel_scope.

Definition ATTR_VOLUME_ID : Z := 0x08.
Definition ATTR_DIRECTORY : Z := 0x10.
Definition ATTR_ARCHIVE : Z := 0x20.
Definition ATTR_LFN : Z := 0x0F.
Definition FAT32_LFN_LAST : Z := 0x40.
Definition FAT32_CLUSTER_FREE : Z := 0.
Definition FAT32_CLUSTER_EOC_MIN : Z := 0x0FFFFFF8.
Definition FAT32_CLUSTER_EOC_MAX : Z := 0x0FFFFFFF.
Definition FAT32_CLUSTER_MASK : Z := 0x0FFFFFFF.

(** [struct fat32_sb_info] without the device and the cache. *)
Record fat32_sb_info := mk_fsb {
  bytes_per_sector : Z; sectors_per_cluster : Z; reserved_sectors : Z; num_fats : Z; sectors_per_fat : Z; root_cluster : Z;
  fat_start : Z; data_start : Z; cluster_size : Z; total_clusters : Z }.
(** [struct fat32_inode_info], with the name and the size of its VFS inode. *)
Record fat32_inode_info := mk_fnode {
  first_cluster : Z; file_size : Z; attributes : Z; fn_is_dir : bool; parent_cluster : Z; dir_entry_offset : Z;
  fn_name : list Z; fn_size : Z }.
Record fat32 (D : Type) := mk_fat32 { fdev : D; fsbi : fat32_sb_info; fat_cache : option (list Z); fmem : list bool }.
Arguments mk_fat32 {D}. Arguments fdev {D}. Arguments fsbi {D}. Arguments fat_cache {D}. Arguments fmem {D}.

(** ** Names *)
Definition SP : Z := 32.
Definition upper (c : Z) : Z := if (97 <=? c) && (c <=? 122) then c - 97 + 65 else c.
Definition fat32_checksum (short_name : list Z) : Z :=
  foldl (λ sum c, u8 ((if Z.odd sum then 0x80 else 0) + Z.shiftr sum 1 + c)) 0 short_name.
Definition utf16_to_ascii (ch : Z) : Z := if ch <? 0x80 then ch else 95.

(** The characters of one member of a long-name entry, at offset [o]. *)
Fixpoint lfn_part (n : nat) (raw : list Z) (o out_max : Z) (out : list Z) : option (list Z) :=
  match n with
  | O => Some out
  | S n =>
      if zlen out <? out_max - 1 then
        lo ← at_ raw o; hi ← at_ raw (o + 1);
        let ch := Z.lor lo (Z.shiftl hi 8) in
        if ch =? 0 then Some out else lfn_part n raw (o + 2) out_max (out ++ [utf16_to_ascii ch])
      else Some out
  end.
Definition lfn_chars (raw : list Z) (out_max : Z) (out : list Z) : option (list Z) :=
  out ← lfn_part 5 raw 1 out_max out; out ← lfn_part 6 raw 14 out_max out; lfn_part 2 raw 28 out_max out.
(** From entry [num - 1] down; [Some None] is the result 0. *)
Fixpoint fat32_parse_lfn (lfn_entries : list (list Z)) (num : nat) (out_max : Z) (out : list Z) : option (option (list Z)) :=
  match num with
  | O => Some (Some out)
  | S i =>
      raw ← lfn_entries !! i;
      order ← at_ raw 0;
      if negb (Z.land order 0x3F =? u8 (Z.of_nat i + 1)) then Some None else
      out ← lfn_chars raw out_max out;
      fat32_parse_lfn lfn_entries i out_max out
  end.
Definition fat32_read_lfn (lfn_entries : list (list Z)) (out_max : Z) : option (option (list Z)) :=
  fat32_parse_lfn lfn_entries (length lfn_entries) out_max [].

Fixpoint until_space (l : list Z) : list Z :=
  match l with [] => [] | c :: l => if c =? SP then [] else c :: until_space l end.
Definition fat32_short_name_to_str (raw_name : list Z) : option (list Z) :=
  e ← at_ raw_name 8;
  Some (until_space (take 8 raw_name) ++ if negb (e =? SP) then 46 :: until_space (take 3 (drop 8 raw_name)) else []).

(** The part before the first dot, and the part after it if there is one. *)
Fixpoint split_dot (name : list Z) : list Z * option (list Z) :=
  match name with
  | [] => ([], None)
  | c :: name => if c =? 46 then ([], Some name) else let '(base, ext) := split_dot name in (c :: base, ext)
  end.
Definition pad_upper (n : nat) (l : list Z) : list Z := map upper (take n l) ++ replicate (n - length l) SP.
Definition fat32_str_to_short_name (name : list Z) : option (list Z) :=
  match split_dot name with
  | (base, None) => if 8 <? zlen base then None else Some (pad_upper 8 base ++ replicate 3 SP)
  | (base, Some ext) =>
      if bool_decide (46 ∈ ext) then None else
      if (8 <? zlen base) || (3 <? zlen ext) then None else Some (pad_upper 8 base ++ pad_upper 3 ext)
  end.
Definition fat32_shortname_from_lfn (name : list Z) : option (list Z) := fat32_str_to_short_name name.
(** At most six characters before a dot, then [~1] and the extension TXT. *)
Fixpoint stem (n : nat) (name : list Z) : list Z :=
  match n, name with
  | S n, c :: name => if c =? 46 then [] else upper c :: stem n name
  | _, _ => []
  end.
Definition fallback_name (name : list Z) : list Z :=
  let s := stem 6 name ++ [126; 49] in s ++ replicate (8 - length s) SP ++ [84; 88; 84].
Definition short_name_for (name : list Z) : list Z := default (fallback_name name) (fat32_str_to_short_name name).

(** ** Entries *)
Definition utf16 (n : nat) (l : list Z) : list Z :=
  flat_map (λ c, [c; 0]) (take n l) ++ replicate (2 * (n - length l)) 0.
Definition lfn_entry (seq checksum : Z) (chunk : list Z) : list Z :=
  [seq] ++ utf16 5 chunk ++ [ATTR_LFN; 0; checksum] ++ utf16 6 (drop 5 chunk) ++ [0; 0] ++ utf16 2 (drop 11 chunk).
Definition short_entry (short_name : list Z) (attr first_cluster file_size : Z) : list Z :=
  short_name ++ [attr; 0; 0] ++ replicate 6 0 ++ le_bytes 2 (u16 (Z.shiftr first_cluster 16)) ++ replicate 4 0 ++
    le_bytes 2 (Z.land first_cluster 0xFFFF) ++ le_bytes 4 (u32 file_size).
Definition lfn_count (name : list Z) : Z := Z.quot (zlen name + 12) 13.
(** Entry [e] of the long name, counted from its beginning. *)
Definition lfn_nth (name : list Z) (e : nat) : list Z :=
  let n := Z.to_nat (lfn_count name) in
  let seq := u8 (Z.of_nat e + 1) in
  lfn_entry (if bool_decide (S e = n) then Z.lor seq FAT32_LFN_LAST else seq) (fat32_checksum (short_name_for name)) (drop (13 * e) name).
(** The entries of a name, the one with its end first, and the short entry. *)
Definition name_entries (name : list Z) (attr first_cluster file_size : Z) : list (list Z) :=
  map (lfn_nth name) (reverse (seq 0 (Z.to_nat (lfn_count name)))) ++ [short_entry (short_name_for name) attr first_cluster file_size].

Definition de_attr (raw : list Z) : option Z := at_ raw 11.
Definition de_cluster (raw : list Z) : option Z :=
  hi ← field_at raw 20 2; lo ← field_at raw 26 2; Some (Z.lor (u32 (Z.shiftl hi 16)) lo).
Definition de_size (raw : list Z) : option Z := field_at raw 28 4.
(** Entry [i] of a cluster. *)
Definition dir_raw (buf : list Z) (i : Z) : option (list Z) := slice buf (u32 (i * 32)) 32.

Section fat32.
Context `{BlockDevice D} (F : nat).
Definition FM := ST (fat32 D).

Definition set_fdev (d : D) (s : fat32 D) : fat32 D := mk_fat32 d (fsbi s) (fat_cache s) (fmem s).
Definition set_cache (c : option (list Z)) (s : fat32 D) : fat32 D := mk_fat32 (fdev s) (fsbi s) c (fmem s).
Definition kmalloc : FM bool :=
  λ s, match fmem s with [] => Some (true, s) | b :: l => Some (b, mk_fat32 (fdev s) (fsbi s) (fat_cache s) l) end.
Definition lift {A} (o : option A) : FM A := λ s, match o with Some a => Some (a, s) | None => None end.
Definition zeros (n : Z) : list Z := replicate (Z.to_nat n) 0.

(** ** Sectors and clusters

    A read gives the buffer afterwards, or nothing when it failed. *)
Definition read_sectors (sector count : Z) (buf : list Z) : FM (option (list Z)) :=
  d <- gets fdev ;;
  match block_dev_read d sector count with
  | None => ret None
  | Some data => b <- lift (patch buf 0 data) ;; ret (Some b)
  end.
Definition write_sectors (sector count : Z) (buf : list Z) : FM bool :=
  d <- gets fdev ;;
  let n := count * bd_block_size d in
  match block_dev_write d (take (Z.to_nat n) buf) sector count with
  | None => ret false
  | Some d' => if n <=? zlen buf then modify (set_fdev d') ;;; ret true else fail
  end.
Definition fat32_cluster_to_sector (b : fat32_sb_info) (cluster : Z) : Z :=
  u64 (u64 (u32 (cluster - 2) * sectors_per_cluster b) + data_start b).
Definition read_cluster (cluster : Z) (buf : list Z) : FM (option (list Z)) :=
  b <- gets fsbi ;; read_sectors (fat32_cluster_to_sector b cluster) (sectors_per_cluster b) buf.
Definition write_cluster (cluster : Z) (buf : list Z) : FM bool :=
  b <- gets fsbi ;; write_sectors (fat32_cluster_to_sector b cluster) (sectors_per_cluster b) buf.

(** ** The FAT *)
Definition valid (cluster : Z) : bool := (2 <=? cluster) && (cluster <? FAT32_CLUSTER_EOC_MIN).
Definition cached (b : fat32_sb_info) (c : option (list Z)) (cluster : Z) : option (list Z) :=
  if cluster <? u32 (total_clusters b + 2) then c else None.
(** The sector of an entry in the first FAT and the offset in it. *)
Definition fat_place (b : fat32_sb_info) (cluster : Z) : Z * Z :=
  let fat_offset := u32 (cluster * 4) in
  (u32 (fat_start b + fat_offset / bytes_per_sector b), fat_offset mod bytes_per_sector b).
Definition fat32_get_cluster (cluster : Z) : FM Z :=
  b <- gets fsbi ;;
  if (cluster <? 2) || (FAT32_CLUSTER_EOC_MAX <=? cluster) then ret FAT32_CLUSTER_EOC_MAX else
  c <- gets fat_cache ;;
  match cached b c cluster with
  | Some c => v <- lift (at_ c cluster) ;; ret (Z.land v FAT32_CLUSTER_MASK)
  | None =>
      let '(sector, o) := fat_place b cluster in
      ok <- kmalloc ;;
      if negb ok then ret FAT32_CLUSTER_EOC_MAX else
      r <- read_sectors sector 1 (zeros (bytes_per_sector b)) ;;
      match r with
      | None => ret FAT32_CLUSTER_EOC_MAX
      | Some buf => v <- lift (field_at buf o 4) ;; ret (Z.land v FAT32_CLUSTER_MASK)
      end
  end.
(** The loop over the copies. *)
Fixpoint write_fats (n : nat) (sector o value : Z) (buf : list Z) : FM Z :=
  match n with
  | O => ret 0
  | S n =>
      b <- gets fsbi ;;
      r <- read_sectors sector 1 buf ;;
      match r with
      | None => ret (- EIO)
      | Some buf =>
          buf <- lift (set_field buf o 4 value) ;;
          ok <- write_sectors sector 1 buf ;;
          if (ok : bool) then write_fats n (u64 (sector + sectors_per_fat b)) o value buf else ret (- EIO)
      end
  end.
Definition fat32_set_cluster (cluster value : Z) : FM Z :=
  b <- gets fsbi ;;
  if (cluster <? 2) || (FAT32_CLUSTER_EOC_MAX <=? cluster) then ret (- EINVAL) else
  let value := Z.land value FAT32_CLUSTER_MASK in
  c <- gets fat_cache ;;
  match cached b c cluster with
  | Some c => c <- lift (set_ c cluster value) ;; modify (set_cache (Some c))
  | None => ret tt
  end ;;;
  let '(sector, o) := fat_place b cluster in
  ok <- kmalloc ;;
  if negb ok then ret (- ENOMEM) else write_fats (Z.to_nat (num_fats b)) sector o value (zeros (bytes_per_sector b)).
Fixpoint find_free_from (n : nat) (cluster : Z) : FM Z :=
  match n with
  | O => ret 0
  | S n =>
      v <- fat32_get_cluster cluster ;;
      if v =? FAT32_CLUSTER_FREE then fat32_set_cluster cluster FAT32_CLUSTER_EOC_MAX ;;; ret cluster
      else find_free_from n (cluster + 1)
  end.
Definition fat32_find_free_cluster : FM Z :=
  b <- gets fsbi ;; find_free_from (Z.to_nat (u32 (total_clusters b + 2) - 2)) 2.
Definition fat32_alloc_cluster : FM Z := fat32_find_free_cluster.
Fixpoint fat32_get_nth_cluster (cluster : Z) (steps : nat) : FM Z :=
  match steps with
  | O => ret cluster
  | S steps =>
      next <- fat32_get_cluster cluster ;;
      if FAT32_CLUSTER_EOC_MIN <=? next then ret FAT32_CLUSTER_EOC_MAX else fat32_get_nth_cluster next steps
  end.
Definition fat32_append_cluster (last_cluster : Z) : FM Z :=
  new_cluster <- fat32_find_free_cluster ;;
  if new_cluster =? 0 then ret 0 else
  (if valid last_cluster then fat32_set_cluster last_cluster new_cluster else ret 0) ;;;
  ret new_cluster.
Fixpoint free_chain (fuel : nat) (cluster : Z) : FM unit :=
  match fuel with
  | O => fail
  | S fuel =>
      if valid cluster then
        next <- fat32_get_cluster cluster ;;
        fat32_set_cluster cluster FAT32_CLUSTER_FREE ;;;
        if FAT32_CLUSTER_EOC_MIN <=? next then ret tt else free_chain fuel next
      else ret tt
  end.
Definition fat32_free_cluster_chain (start_cluster : Z) : FM Z := free_chain F start_cluster ;;; ret 0.
(** A walk to the end of a chain: the number of clusters and the last one. *)
Fixpoint chain_walk (fuel : nat) (cluster count last : Z) : FM (Z * Z) :=
  match fuel with
  | O => fail
  | S fuel =>
      if valid cluster then
        next <- fat32_get_cluster cluster ;;
        if FAT32_CLUSTER_EOC_MIN <=? next then ret (u32 (count + 1), cluster) else chain_walk fuel next (u32 (count + 1)) cluster
      else ret (count, last)
  end.
Definition chain_end (start : Z) : FM (Z * Z) := chain_walk F start 0 start.

(** ** The contents of files *)
Inductive transfer := TRead (count : Z) | TWrite (data : list Z).

Fixpoint extend (n : nat) (last : Z) : FM bool :=
  match n with
  | O => ret true
  | S n => nc <- fat32_append_cluster last ;; if nc =? 0 then ret false else extend n nc
  end.
(** The two arms of the loop of [fat32_transfer_file]: [inl] is an early return,
    [inr] its end, with the number of bytes; the offset is the new one. *)
Fixpoint read_loop (fuel : nat) (start : Z) (buf acc : list Z) (remaining offset : Z) : FM ((Z + Z) * list Z * Z) :=
  match fuel with
  | O => fail
  | S fuel =>
      b <- gets fsbi ;;
      let cs := cluster_size b in
      if remaining =? 0 then ret (inr (zlen acc), acc, offset) else
      let cluster_off := u32 (offset mod cs) in
      target <- fat32_get_nth_cluster start (Z.to_nat (u32 (offset / cs))) ;;
      if target =? FAT32_CLUSTER_EOC_MAX then ret (inl (if 0 <? zlen acc then zlen acc else - EIO), acc, offset) else
      let chunk := u32 (cs - cluster_off) in
      let chunk := if remaining <? chunk then remaining else chunk in
      r <- read_cluster target buf ;;
      match r with
      | None => ret (inl (if 0 <? zlen acc then zlen acc else - EIO), acc, offset)
      | Some buf =>
          w <- lift (slice buf cluster_off chunk) ;;
          read_loop fuel start buf (acc ++ w) (remaining - chunk) (u64 (offset + chunk))
      end
  end.
Fixpoint write_loop (fuel : nat) (start : Z) (buf data : list Z) (total offset : Z) : FM ((Z + Z) * Z) :=
  match fuel with
  | O => fail
  | S fuel =>
      b <- gets fsbi ;;
      let cs := cluster_size b in
      if zlen data =? 0 then ret (inr total, offset) else
      let cluster_off := u32 (offset mod cs) in
      target <- fat32_get_nth_cluster start (Z.to_nat (u32 (offset / cs))) ;;
      if target =? FAT32_CLUSTER_EOC_MAX then ret (inl (if 0 <? total then total else - EIO), offset) else
      let chunk := u32 (cs - cluster_off) in
      let chunk := if zlen data <? chunk then zlen data else chunk in
      r <- (if negb (cluster_off =? 0) || (chunk <? cs) then read_cluster target buf else ret (Some buf)) ;;
      match r with
      | None => ret (inl (if 0 <? total then total else - EIO), offset)
      | Some buf =>
          buf <- lift (patch buf cluster_off (take (Z.to_nat chunk) data)) ;;
          ok <- write_cluster target buf ;;
          if negb ok then ret (inl (if 0 <? total then total else - EIO), offset) else
          write_loop fuel start buf (drop (Z.to_nat chunk) data) (total + chunk) (u64 (offset + chunk))
      end
  end.
(** The result, the bytes read, and what is stored in [*new_size]. *)
Definition fat32_transfer_file (start fsize offset : Z) (op : transfer) : FM (Z * list Z * option Z) :=
  b <- gets fsbi ;;
  let cs := cluster_size b in
  x <- chain_end start ;;
  let clusters_per_chain := x.1 in
  let max_offset := u64 (clusters_per_chain * cs) in
  match op with
  | TRead count =>
      if fsize <=? offset then ret (0, [], None) else
      let count := if fsize <? u64 (offset + count) then u64 (fsize - offset) else count in
      ok <- kmalloc ;;
      if negb ok then ret (- ENOMEM, [], None) else
      x <- read_loop (S (Z.to_nat count)) start (zeros cs) [] count offset ;;
      let '(r, acc, _) := x in
      ret (match r with inl r => r | inr r => r end, acc, None)
  | TWrite data =>
      let count := zlen data in
      grown <- (if max_offset <? u64 (offset + count) then
                  let needed := u32 (u64 (u64 (u64 (offset + count) + cs) - 1) / cs) in
                  x <- chain_end start ;;
                  extend (Z.to_nat (needed - clusters_per_chain)) x.2
                else ret true) ;;
      if negb grown then ret (if fsize <? offset then offset - fsize else 0, [], Some fsize) else
      ok <- kmalloc ;;
      if negb ok then ret (- ENOMEM, [], None) else
      x <- write_loop (S (length data)) start (zeros cs) data 0 offset ;;
      match x with
      | (inl r, _) => ret (r, [], None)
      | (inr total, offset) => ret (total, [], Some (if fsize <? offset then u32 offset else fsize))
      end
  end.
(** [*offset] is a signed number; the code casts it. *)
Definition fat32_file_read (info : fat32_inode_info) (count offset : Z) : FM (Z * list Z * Z) :=
  x <- fat32_transfer_file (first_cluster info) (file_size info) (u64 offset) (TRead count) ;;
  let '(r, bs, _) := x in
  ret (r, bs, if 0 <? r then offset + r else offset).
Definition set_fsize (n : Z) (i : fat32_inode_info) : fat32_inode_info :=
  mk_fnode (first_cluster i) n (attributes i) (fn_is_dir i) (parent_cluster i) (dir_entry_offset i) (fn_name i) n.
(** The new size goes into the entry in the directory, if it can. *)
Definition update_entry (info : fat32_inode_info) (new_size : Z) : FM unit :=
  b <- gets fsbi ;;
  if valid (parent_cluster info) then
    ok <- kmalloc ;;
    if negb ok then ret tt else
    r <- read_cluster (parent_cluster info) (zeros (cluster_size b)) ;;
    match r with
    | None => ret tt
    | Some buf => buf <- lift (set_field buf (dir_entry_offset info + 28) 4 new_size) ;; write_cluster (parent_cluster info) buf ;;; ret tt
    end
  else ret tt.
Definition fat32_file_write (info : fat32_inode_info) (data : list Z) (offset : Z) : FM (Z * fat32_inode_info * Z) :=
  x <- fat32_transfer_file (first_cluster info) (file_size info) (u64 offset) (TWrite data) ;;
  let '(r, _, ns) := x in
  if 0 <? r then
    let new_size := default (file_size info) ns in
    let info := set_fsize new_size info in
    update_entry info new_size ;;;
    ret (r, info, offset + r)
  else ret (r, info, offset).

(** ** Directories *)
Record found := mk_found {
  fo_raw : list Z; fo_cluster : Z; fo_size : Z; fo_attr : Z; fo_name : list Z; fo_dir_cluster : Z; fo_dir_offset : Z }.

(** The name of an entry if it is [name]: the long one, else the short one. *)
Definition match_entry (lfns : list (list Z)) (raw name : list Z) : option bool :=
  l ← (if bool_decide (lfns = []) then Some None else fat32_read_lfn lfns 256);
  match l with
  | Some n => if bool_decide (n ≠ [] ∧ n = name) then Some true else s ← fat32_short_name_to_str raw; Some (bool_decide (s = name))
  | None => s ← fat32_short_name_to_str raw; Some (bool_decide (s = name))
  end.
Inductive scan := ScanEnd | ScanFound (i : Z) (raw : list Z) | ScanNext (lfns : list (list Z)).
(** The entries of one cluster from [i] on; [lfns] are the long-name entries
    that were seen last, at most twenty. *)
Fixpoint scan_entries (n : nat) (i : Z) (buf name : list Z) (lfns : list (list Z)) : option scan :=
  match n with
  | O => Some (ScanNext lfns)
  | S n =>
      raw ← dir_raw buf i;
      c ← at_ raw 0;
      if c =? 0 then Some ScanEnd else
      if c =? 0xE5 then scan_entries n (i + 1) buf name [] else
      attr ← de_attr raw;
      if attr =? ATTR_LFN then scan_entries n (i + 1) buf name (if (length lfns <? 20)%nat then lfns ++ [raw] else lfns) else
      if negb (Z.land attr ATTR_VOLUME_ID =? 0) then scan_entries n (i + 1) buf name [] else
      m ← match_entry lfns raw name;
      if (m : bool) then Some (ScanFound i raw) else scan_entries n (i + 1) buf name []
  end.
Definition entries_per_cluster (b : fat32_sb_info) : nat := Z.to_nat (cluster_size b / 32).
Fixpoint find_loop (fuel : nat) (buf name : list Z) (lfns : list (list Z)) (cluster : Z) : FM (Z + found) :=
  match fuel with
  | O => fail
  | S fuel =>
      b <- gets fsbi ;;
      if valid cluster then
        r <- read_cluster cluster buf ;;
        match r with
        | None => ret (inl (- EIO))
        | Some buf =>
            x <- lift (scan_entries (entries_per_cluster b) 0 buf name lfns) ;;
            match x with
            | ScanEnd => ret (inl (- ENOENT))
            | ScanFound i raw =>
                fc <- lift (de_cluster raw) ;; size <- lift (de_size raw) ;; attr <- lift (de_attr raw) ;;
                ret (inr (mk_found raw fc size attr name cluster (u32 (i * 32))))
            | ScanNext lfns =>
                next <- fat32_get_cluster cluster ;;
                if FAT32_CLUSTER_EOC_MIN <=? next then ret (inl (- ENOENT)) else find_loop fuel buf name lfns next
            end
        end
      else ret (inl (- ENOENT))
  end.
Definition fat32_find_entry (dir_cluster : Z) (name : list Z) : FM (Z + found) :=
  b <- gets fsbi ;;
  ok <- kmalloc ;;
  if negb ok then ret (inl (- ENOMEM)) else find_loop F (zeros (cluster_size b)) name [] dir_cluster.

(** The first entry that is free in a cluster. *)
Fixpoint free_entry (n : nat) (i : Z) (buf : list Z) : option (option Z) :=
  match n with
  | O => Some None
  | S n =>
      raw ← dir_raw buf i; c ← at_ raw 0;
      if (c =? 0) || (c =? 0xE5) then Some (Some (u32 (i * 32))) else free_entry n (i + 1) buf
  end.
(** [inl] is an error or a place, [inr] the cluster at which the walk ended. *)
Fixpoint slot_loop (fuel : nat) (buf : list Z) (cluster : Z) : FM ((Z + Z * Z) + Z) :=
  match fuel with
  | O => fail
  | S fuel =>
      b <- gets fsbi ;;
      if valid cluster then
        r <- read_cluster cluster buf ;;
        match r with
        | None => ret (inl (inl (- EIO)))
        | Some buf =>
            x <- lift (free_entry (entries_per_cluster b) 0 buf) ;;
            match x with
            | Some o => ret (inl (inr (cluster, o)))
            | None =>
                next <- fat32_get_cluster cluster ;;
                if FAT32_CLUSTER_EOC_MIN <=? next then ret (inr cluster) else slot_loop fuel buf next
            end
        end
      else ret (inr cluster)
  end.
Definition fat32_find_free_slot (dir_cluster : Z) : FM (Z + Z * Z) :=
  b <- gets fsbi ;;
  ok <- kmalloc ;;
  if negb ok then ret (inl (- ENOMEM)) else
  x <- slot_loop F (zeros (cluster_size b)) dir_cluster ;;
  match x with
  | inl r => ret r
  | inr cluster =>
      new_cluster <- fat32_append_cluster cluster ;;
      if new_cluster =? 0 then ret (inl (- ENOSPC)) else
      ok <- write_cluster new_cluster (zeros (cluster_size b)) ;;
      if negb ok then ret (inl (- EIO)) else ret (inr (new_cluster, 0))
  end.
Definition fat32_get_dir_size (dir_cluster : Z) : FM Z :=
  b <- gets fsbi ;; x <- chain_end dir_cluster ;; ret (u64 (x.1 * cluster_size b)).

(** The loop of [fat32_write_lfn]; [entries] are the bytes left. *)
Fixpoint write_entries (fuel : nat) (cluster offset : Z) (entries buf : list Z) : FM Z :=
  match fuel with
  | O => fail
  | S fuel =>
      b <- gets fsbi ;;
      let cs := cluster_size b in
      if zlen entries =? 0 then ret 0 else
      let cluster_off := offset mod cs in
      target <- fat32_get_nth_cluster cluster (Z.to_nat (offset / cs)) ;;
      if (target =? FAT32_CLUSTER_EOC_MAX) && (cs <=? offset) then ret (- EIO) else
      let chunk := if zlen entries <? cs - cluster_off then zlen entries else cs - cluster_off in
      r <- read_cluster target buf ;;
      match r with
      | None => ret (- EIO)
      | Some buf =>
          buf <- lift (patch buf cluster_off (take (Z.to_nat chunk) entries)) ;;
          ok <- write_cluster target buf ;;
          if negb ok then ret (- EIO) else write_entries fuel cluster (u32 (offset + chunk)) (drop (Z.to_nat chunk) entries) buf
      end
  end.
Definition fat32_write_lfn (dir_cluster dir_offset : Z) (name : list Z) (attr fcluster fsize : Z) : FM Z :=
  b <- gets fsbi ;;
  if zlen name =? 0 then ret (- EINVAL) else
  if 20 <? lfn_count name then ret (- ENAMETOOLONG) else
  ok <- kmalloc ;;
  if negb ok then ret (- ENOMEM) else
  let entries := concat (name_entries name attr fcluster fsize) in
  r <- write_entries (S (length entries)) dir_cluster dir_offset entries (zeros (cluster_size b)) ;;
  ret (if r <? 0 then r else lfn_count name + 1).
Definition fat32_create_entry (dir_cluster : Z) (name : list Z) (attr fcluster fsize : Z) : FM Z :=
  b <- gets fsbi ;;
  r <- fat32_find_free_slot dir_cluster ;;
  match r with
  | inl e => ret e
  | inr (target_cluster, target_offset) =>
      match fat32_str_to_short_name name with
      | None => fat32_write_lfn target_cluster target_offset name attr fcluster fsize
      | Some short_name =>
          ok <- kmalloc ;;
          if negb ok then ret (- ENOMEM) else
          r <- read_cluster target_cluster (zeros (cluster_size b)) ;;
          match r with
          | None => ret (- EIO)
          | Some buf =>
              buf <- lift (patch buf target_offset (short_entry short_name attr fcluster fsize)) ;;
              ok <- write_cluster target_cluster buf ;;
              ret (if (ok : bool) then 0 else - EIO)
          end
      end
  end.

(** The two entries of a new directory. *)
Definition dot_entry (dots : list Z) (cluster : Z) : list Z :=
  short_entry (dots ++ replicate (11 - length dots) SP) ATTR_DIRECTORY cluster 0.
Definition fat32_mkdir (parent : Z) (name : list Z) : FM Z :=
  b <- gets fsbi ;;
  new_cluster <- fat32_find_free_cluster ;;
  if new_cluster =? 0 then ret (- ENOSPC) else
  ok <- kmalloc ;;
  if negb ok then fat32_free_cluster_chain new_cluster ;;; ret (- ENOMEM) else
  buf <- lift (patch (zeros (cluster_size b)) 0 (dot_entry [46] new_cluster ++ dot_entry [46; 46] parent)) ;;
  ok <- write_cluster new_cluster buf ;;
  if negb ok then fat32_free_cluster_chain new_cluster ;;; ret (- EIO) else
  r <- fat32_find_free_slot parent ;;
  match r with
  | inl e => fat32_free_cluster_chain new_cluster ;;; ret e
  | inr (_, target_offset) =>
      r <- fat32_write_lfn parent target_offset name ATTR_DIRECTORY new_cluster 0 ;;
      if r <? 0 then fat32_free_cluster_chain new_cluster ;;; ret r else ret 0
  end.

(** Whether the entries of a cluster from [i] on hold a file. *)
Fixpoint any_entry (n : nat) (i : Z) (buf : list Z) : option bool :=
  match n with
  | O => Some false
  | S n =>
      raw ← dir_raw buf i; c ← at_ raw 0;
      if c =? 0 then Some false else
      if c =? 0xE5 then any_entry n (i + 1) buf else
      a ← de_attr raw;
      if a =? ATTR_LFN then any_entry n (i + 1) buf else Some true
  end.
(** An error, or whether the directory is empty. *)
Fixpoint empty_loop (fuel : nat) (first cluster : Z) (buf : list Z) : FM (Z + bool) :=
  match fuel with
  | O => fail
  | S fuel =>
      b <- gets fsbi ;;
      if valid cluster then
        r <- read_cluster cluster buf ;;
        match r with
        | None => ret (inl (- EIO))
        | Some buf =>
            let start := if cluster =? first then 2%nat else 0%nat in
            a <- lift (any_entry (entries_per_cluster b - start) (Z.of_nat start) buf) ;;
            if (a : bool) then ret (inr false) else
            next <- fat32_get_cluster cluster ;;
            if FAT32_CLUSTER_EOC_MIN <=? next then ret (inr true) else empty_loop fuel first next buf
        end
      else ret (inr true)
  end.

(** The position of the entry with first cluster [fc]: [None] at the end of the
    directory, [Some None] if it is not in this cluster. *)
Fixpoint locate (n : nat) (i : Z) (buf : list Z) (dir_only : bool) (fc : Z) : option (option (option Z)) :=
  match n with
  | O => Some (Some None)
  | S n =>
      raw ← dir_raw buf i; c ← at_ raw 0;
      if c =? 0 then Some None else
      a ← de_attr raw;
      if (c =? 0xE5) || (a =? ATTR_LFN) then locate n (i + 1) buf dir_only fc else
      f ← de_cluster raw;
      if (f =? fc) && (negb dir_only || negb (Z.land a ATTR_DIRECTORY =? 0)) then Some (Some (Some i))
      else locate n (i + 1) buf dir_only fc
  end.
(** The long-name entries before entry [j], marked; the count of those. *)
Fixpoint clear_lfns (n : nat) (j : Z) (buf : list Z) (cleared : Z) : option (list Z * Z) :=
  match n with
  | O => Some (buf, cleared)
  | S n =>
      if (0 <=? j) && (cleared <? 20) then
        raw ← dir_raw buf j; a ← de_attr raw;
        if a =? ATTR_LFN then buf ← patch buf (j * 32) [0xE5]; clear_lfns n (j - 1) buf (cleared + 1) else Some (buf, cleared)
      else Some (buf, cleared)
  end.
(** The entry is marked as deleted, then its long name, and its chain is freed. *)
Definition delete_at (cluster i : Z) (buf : list Z) (fc : Z) : FM Z :=
  b <- gets fsbi ;;
  buf <- lift (patch buf (u32 (i * 32)) [0xE5]) ;;
  ok <- write_cluster cluster buf ;;
  if negb ok then ret (- EIO) else
  ok <- kmalloc ;;
  (if negb ok then ret tt else
   r <- read_cluster cluster (zeros (cluster_size b)) ;;
   match r with
   | None => ret tt
   | Some lbuf =>
       x <- lift (clear_lfns 21 (i - 1) lbuf 0) ;;
       if 0 <? x.2 then write_cluster cluster x.1 ;;; ret tt else ret tt
   end) ;;;
  fat32_free_cluster_chain fc.
Fixpoint remove_loop (fuel : nat) (cluster : Z) (dir_only : bool) (fc : Z) : FM Z :=
  match fuel with
  | O => fail
  | S fuel =>
      b <- gets fsbi ;;
      if valid cluster then
        ok <- kmalloc ;;
        if negb ok then ret (- ENOMEM) else
        r <- read_cluster cluster (zeros (cluster_size b)) ;;
        match r with
        | None => ret (- EIO)
        | Some buf =>
            x <- lift (locate (entries_per_cluster b) 0 buf dir_only fc) ;;
            match x with
            | None => ret (- ENOENT)
            | Some (Some i) => delete_at cluster i buf fc
            | Some None =>
                next <- fat32_get_cluster cluster ;;
                if FAT32_CLUSTER_EOC_MIN <=? next then ret (- ENOENT) else remove_loop fuel next dir_only fc
            end
        end
      else ret (- ENOENT)
  end.
Definition fat32_rmdir (parent : Z) (name : list Z) : FM Z :=
  b <- gets fsbi ;;
  r <- fat32_find_entry parent name ;;
  match r with
  | inl e => ret e
  | inr fo =>
      if Z.land (fo_attr fo) ATTR_DIRECTORY =? 0 then ret (- ENOTDIR) else
      ok <- kmalloc ;;
      if negb ok then ret (- ENOMEM) else
      e <- empty_loop F (fo_cluster fo) (fo_cluster fo) (zeros (cluster_size b)) ;;
      match e with
      | inl e => ret e
      | inr false => ret (- ENOTEMPTY)
      | inr true => remove_loop F parent true (fo_cluster fo)
      end
  end.

(** ** The operations of the VFS *)
Definition fat32_make_inode (name : list Z) (fcluster fsize attr : Z) (isdir : bool) : FM (option fat32_inode_info) :=
  ok <- kmalloc ;;
  if negb ok then ret None else
  ok <- kmalloc ;;
  if negb ok then ret None else
  ok <- kmalloc ;;
  if negb ok then ret None else ret (Some (mk_fnode fcluster fsize attr isdir 0 0 name fsize)).
(** The error, or 0 with the child. *)
Definition fat32_dir_lookup (dir : fat32_inode_info) (name : list Z) : FM (Z * option fat32_inode_info) :=
  if negb (fn_is_dir dir) then ret (- ENOTDIR, None) else
  r <- fat32_find_entry (first_cluster dir) name ;;
  match r with
  | inl e => ret (e, None)
  | inr fo =>
      kmalloc ;;;   (* the resolved name, which is the one looked up *)
      let isdir := negb (Z.land (fo_attr fo) ATTR_DIRECTORY =? 0) in
      c <- fat32_make_inode (fo_name fo) (fo_cluster fo) (fo_size fo) (fo_attr fo) isdir ;;
      match c with
      | None => ret (- ENOMEM, None)
      | Some i =>
          let i := mk_fnode (first_cluster i) (file_size i) (attributes i) (fn_is_dir i) (fo_dir_cluster fo) (fo_dir_offset fo) (fn_name i) (fn_size i) in
          if isdir then
            size <- fat32_get_dir_size (fo_cluster fo) ;;
            ret (0, Some (mk_fnode (first_cluster i) (u32 size) (attributes i) (fn_is_dir i) (parent_cluster i) (dir_entry_offset i) (fn_name i) size))
          else ret (0, Some i)
      end
  end.
Definition fat32_dir_create (dir : fat32_inode_info) (name : list Z) : FM Z :=
  if negb (fn_is_dir dir) then ret (- ENOTDIR) else
  r <- fat32_find_entry (first_cluster dir) name ;;
  match r with
  | inr _ => ret (- EEXIST)
  | inl _ =>
      new_cluster <- fat32_find_free_cluster ;;
      if new_cluster =? 0 then ret (- ENOSPC) else
      r <- fat32_find_free_slot (first_cluster dir) ;;
      match r with
      | inl e => fat32_free_cluster_chain new_cluster ;;; ret e
      | inr (target_cluster, target_offset) =>
          r <- fat32_write_lfn target_cluster target_offset name ATTR_ARCHIVE new_cluster 0 ;;
          if r <? 0 then fat32_free_cluster_chain new_cluster ;;; ret r else ret 0
      end
  end.
Definition fat32_dir_mkdir (dir : fat32_inode_info) (name : list Z) : FM Z :=
  if negb (fn_is_dir dir) then ret (- ENOTDIR) else fat32_mkdir (first_cluster dir) name.
Definition fat32_dir_rmdir (dir : fat32_inode_info) (name : list Z) : FM Z :=
  if negb (fn_is_dir dir) then ret (- ENOTDIR) else fat32_rmdir (first_cluster dir) name.
Definition fat32_dir_unlink (dir : fat32_inode_info) (name : list Z) : FM Z :=
  if negb (fn_is_dir dir) then ret (- ENOTDIR) else
  r <- fat32_find_entry (first_cluster dir) name ;;
  match r with
  | inl e => ret e
  | inr fo =>
      if negb (Z.land (fo_attr fo) ATTR_DIRECTORY =? 0) then ret (- EISDIR)
      else remove_loop F (first_cluster dir) false (fo_cluster fo)
  end.

(** ** Mounting *)

(** The fields of the boot sector; [Some None] rejects it. *)
Definition parse_boot (bs : list Z) : option (option fat32_sb_info) :=
  sig ← field_at bs 510 2;
  if negb (sig =? 0xAA55) then Some None else
  bps ← field_at bs 11 2; spc ← field_at bs 13 1; res ← field_at bs 14 2; nf ← field_at bs 16 1; spf ← field_at bs 36 4; root ← field_at bs 44 4;
  if (bps <? 512) || (4096 <? bps) then Some None else
  if spc =? 0 then Some None else
  if spf =? 0 then Some None else
  let data := u32 (res + u32 (nf * spf)) in
  t16 ← field_at bs 19 2; t32 ← field_at bs 32 4;
  let total := if negb (t16 =? 0) then t16 else t32 in
  if total <=? data then Some None else
  Some (Some (mk_fsb bps spc res nf spf root res data (u32 (bps * spc)) ((total - data) / spc))).
(** The FAT goes into a buffer of [fat_bytes]; a failed read leaves no cache. *)
Fixpoint load_fat (n : nat) (d : D) (sector bps off : Z) (buf : list Z) : option (option (list Z)) :=
  match n with
  | O => Some (Some buf)
  | S n =>
      match block_dev_read d sector 1 with
      | None => Some None
      | Some data => buf ← patch buf off data; load_fat n d (u32 (sector + 1)) bps (u32 (off + bps)) buf
      end
  end.
(** The little-endian words of a buffer. *)
Fixpoint words (n : nat) (buf : list Z) : list Z :=
  match n with O => [] | S n => le_value (take 4 buf) :: words n (drop 4 buf) end.
Definition take_fmem (m : list bool) : bool * list bool := match m with [] => (true, []) | b :: m => (b, m) end.
Definition load_cache (d : D) (b : fat32_sb_info) (m : list bool) : option (option (list Z) * list bool) :=
  let fat_bytes := u32 (sectors_per_fat b * bytes_per_sector b) in
  let '(ok, m) := take_fmem m in
  if negb ok then Some (None, m) else
  r ← load_fat (Z.to_nat (sectors_per_fat b)) d (fat_start b) (bytes_per_sector b) 0 (zeros fat_bytes);
  Some (buf ← r; Some (words (Z.to_nat (fat_bytes / 4)) buf), m).
(** The file system and its root; [Some None] is a null result. *)
Definition fat32_mount (d : D) (m : list bool) : option (option (fat32 D * fat32_inode_info)) :=
  let '(ok, m) := take_fmem m in
  if negb ok then Some None else
  let '(ok, m) := take_fmem m in
  if negb ok then Some None else
  match block_dev_read d 0 1 with
  | None => Some None
  | Some data =>
      bs ← patch (zeros 512) 0 data;
      p ← parse_boot bs;
      match p with
      | None => Some None
      | Some b =>
          '(c, m) ← load_cache d b m;
          '(root, s) ← fat32_make_inode [47] (root_cluster b) 0 ATTR_DIRECTORY true (mk_fat32 d b c m);
          match root with
          | None => Some None
          | Some root =>
              '(size, s) ← fat32_get_dir_size (root_cluster b) s;
              '(ok, s) ← kmalloc s;
              if negb ok then Some None else
              Some (Some (s, mk_fnode (first_cluster root) (u32 size) (attributes root) true 0 0 (fn_name root) size))
          end
      end
  end.
End fat32.
