(* ===== verification/Fat32Thms.v ===== *)
(** * Properties of the FAT32 driver over any block device that keeps its laws.

    The disk is read as the bytes [rd s x]; an entry of a copy of the FAT is
    [fat_at s k c].  Chains of clusters are lists. *)
From S2P Require Import Prelude Bytes BlockDev Fat32.
Local Open Scope Z_scope.
Local Open Scope kernel_scope.

(** ** Loads and stores by bytes *)
Lemma nth_load m a n i : (i < n)%nat → nth i (load m a n) 0 = default 0 (m !! (a + Z.of_nat i)).
Proof.
  revert a i. induction n as [|n IH]; intros a i Hi; [lia|]. destruct i as [|i]; cbn [load nth]; [by rewrite Z.add_0_r|].
  rewrite IH by lia. do 2 f_equal. lia.
Qed.
Lemma store_lookup_in m a l x : a ≤ x < a + zlen l → default 0 (store m a l !! x) = nth (Z.to_nat (x - a)) l 0.
Proof.
  unfold zlen. intros Hx. pose proof (nth_load (store m a l) a (length l) (Z.to_nat (x - a)) ltac:(lia)) as E.
  rewrite load_store in E. rewrite E. do 2 f_equal. lia.
Qed.
Lemma load_nth m a n : load m a n = map (λ i, default 0 (m !! (a + Z.of_nat i))) (seq 0 n).
Proof.
  apply nth_ext with 0 0; [by rewrite length_load, length_map, length_seq|]. intros i Hi. rewrite length_load in Hi.
  rewrite nth_load by done. rewrite (nth_indep _ 0 (default 0 (m !! (a + Z.of_nat 0)))) by (by rewrite length_map, length_seq).
  rewrite (map_nth (λ i, default 0 (m !! (a + Z.of_nat i))) (seq 0 n) 0%nat). by rewrite seq_nth.
Qed.

(** ** Short names *)
Definition plain (c : Z) : Prop := c ≠ 46 ∧ c ≠ SP.
Lemma upper_plain c : plain c → is_byte c → plain (upper c).
Proof. unfold plain, upper, SP, is_byte. destruct (97 <=? c) eqn:E1; destruct (c <=? 122) eqn:E2; cbn [andb]; lia. Qed.
Lemma until_space_pad l n : Forall plain l → until_space (l ++ replicate n SP) = l.
Proof.
  induction 1 as [|c l [_ Hc] _ IH]; [by destruct n|]. cbn. destruct (Z.eqb_spec c SP); [done|]. by rewrite IH.
Qed.
Lemma pad_upper_eq n l : (length l ≤ n)%nat → pad_upper n l = map upper l ++ replicate (n - length l) SP.
Proof. intros H. unfold pad_upper. by rewrite take_ge. Qed.
Lemma length_pad n l : length (pad_upper n l) = n.
Proof. unfold pad_upper. rewrite length_app, length_map, length_take, length_replicate. lia. Qed.
Lemma split_dot_plain l : Forall plain l → split_dot l = (l, None).
Proof. induction 1 as [|c l [Hc _] _ IH]; [done|]. cbn. destruct (Z.eqb_spec c 46); [done|]. by rewrite IH. Qed.
Lemma split_dot_app l e : Forall plain l → split_dot (l ++ 46 :: e) = (l, Some e).
Proof. induction 1 as [|c l [Hc _] _ IH]; [done|]. cbn. destruct (Z.eqb_spec c 46); [done|]. by rewrite IH. Qed.
Lemma Forall_upper l : Forall plain l → bytes l → Forall plain (map upper l).
Proof. intros Hp Hb. apply Forall_map. unfold compose. apply Forall_forall. intros c Hc. rewrite Forall_forall in Hp. unfold bytes in Hb. rewrite Forall_forall in Hb. apply upper_plain; auto. Qed.

(** Names in 8.3 form survive the conversion to the directory's padded form
    and back, in capital letters: a base of one to eight characters, alone or
    with an extension of one to three; longer ones, and names with a second dot,
    are refused. *)
Theorem short_name_roundtrip base ext : Forall plain base → bytes base → Forall plain ext → bytes ext →
  (let name := match ext with [] => base | _ => base ++ 46 :: ext end in
   ((length base ≤ 8)%nat → (length ext ≤ 3)%nat → ∃ s, fat32_str_to_short_name name = Some s ∧ length s = 11%nat ∧
      fat32_short_name_to_str s = Some (map upper name)) ∧
   ((8 < length base)%nat ∨ (3 < length ext)%nat → fat32_str_to_short_name name = None)) ∧
  (∀ rest, fat32_str_to_short_name (base ++ 46 :: ext ++ 46 :: rest) = None).
Proof.
  intros Hb Bb He Be. assert (46 ∉ ext) as Hd by (intros H; rewrite Forall_forall in He; by destruct (He _ H)). split; [split|].
  - intros Lb Le. unfold fat32_str_to_short_name. destruct ext as [|e ext].
    + rewrite split_dot_plain by done. destruct (Z.ltb_spec 8 (zlen base)); [unfold zlen in *; lia|]. eexists. split; [done|].
      split; [by rewrite length_app, length_pad|]. unfold fat32_short_name_to_str. rewrite at_nth by (rewrite length_app, length_pad; cbn; lia).
      cbn [mbind option_bind]. change (Z.to_nat 8) with 8%nat. rewrite app_nth2 by (rewrite length_pad; lia). rewrite length_pad. cbn [nth Nat.sub].
      rewrite take_app_length' by (by rewrite length_pad). rewrite pad_upper_eq by done. rewrite until_space_pad by by apply Forall_upper.
      unfold SP at 1. cbn. by rewrite app_nil_r.
    + rewrite split_dot_app by done. rewrite bool_decide_false by done. destruct (Z.ltb_spec 8 (zlen base)); [unfold zlen in *; lia|].
      destruct (Z.ltb_spec 3 (zlen (e :: ext))); [unfold zlen in *; lia|]. cbn [orb]. eexists. split; [done|].
      split; [by rewrite length_app, !length_pad|]. unfold fat32_short_name_to_str. rewrite at_nth by (rewrite length_app, !length_pad; lia).
      cbn [mbind option_bind]. change (Z.to_nat 8) with 8%nat. rewrite app_nth2 by (rewrite length_pad; lia). rewrite length_pad.
      rewrite drop_app_length' by (by rewrite length_pad). rewrite take_app_length' by (by rewrite length_pad).
      rewrite (take_ge (pad_upper 3 (e :: ext))) by (by rewrite length_pad). rewrite !pad_upper_eq by done.
      pose proof (Forall_upper _ He Be) as Hu. rewrite !until_space_pad by (done || by apply Forall_upper). cbn [map app nth Nat.sub].
      apply Forall_cons in Hu as [[_ Hne] _]. destruct (Z.eqb_spec (upper e) SP); [done|]. cbn [negb]. rewrite map_app. done.
  - intros Hl. unfold fat32_str_to_short_name. destruct ext as [|e ext].
    + rewrite split_dot_plain by done. cbn in Hl. destruct (Z.ltb_spec 8 (zlen base)); [done|unfold zlen in *; lia].
    + rewrite split_dot_app by done. rewrite bool_decide_false by done.
      destruct (Z.ltb_spec 8 (zlen base)); [done|]. destruct (Z.ltb_spec 3 (zlen (e :: ext))); [done|]. unfold zlen in *. lia.
  - intros rest. unfold fat32_str_to_short_name. rewrite split_dot_app by done. rewrite bool_decide_true; [done|]. apply elem_of_app. right. by left.
Qed.

(** ** Long names *)
Lemma at_mid pre x post : at_ (pre ++ x :: post) (zlen pre) = Some x.
Proof. unfold zlen. rewrite at_lookup by lia. rewrite Nat2Z.id, lookup_app_r by lia. by rewrite Nat.sub_diag. Qed.
Lemma lfn_part_run n l pre post out m : zlen out + Z.of_nat n < m → Forall (λ c, 0 < c < 128) l →
  lfn_part n (pre ++ utf16 n l ++ post) (zlen pre) m out = Some (out ++ take n l).
Proof.
  revert l pre out. induction n as [|n IH]; intros l pre out Hm Hl; cbn [lfn_part]; [by rewrite app_nil_r|].
  destruct (Z.ltb_spec (zlen out) (m - 1)); [|lia]. destruct l as [|c l].
  - replace (utf16 (S n) [] ++ post) with (0 :: 0 :: utf16 n [] ++ post); [|unfold utf16; rewrite !take_nil; cbn [flat_map length app]; rewrite !Nat.sub_0_r; replace (2 * S n)%nat with (S (S (2 * n))) by lia; done].
    rewrite at_mid. cbn [mbind option_bind]. replace (zlen pre + 1) with (zlen (pre ++ [0])) by (unfold zlen; rewrite length_app; cbn; lia).
    replace (pre ++ 0 :: 0 :: utf16 n [] ++ post) with ((pre ++ [0]) ++ 0 :: utf16 n [] ++ post) by by rewrite <- app_assoc.
    rewrite at_mid. cbn. by rewrite app_nil_r.
  - apply Forall_cons in Hl as [Hc Hl]. change (utf16 (S n) (c :: l) ++ post) with (c :: 0 :: utf16 n l ++ post). rewrite at_mid. cbn [mbind option_bind].
    replace (zlen pre + 1) with (zlen (pre ++ [c])) by (unfold zlen; rewrite length_app; cbn; lia).
    replace (pre ++ c :: 0 :: utf16 n l ++ post) with ((pre ++ [c]) ++ 0 :: utf16 n l ++ post) by by rewrite <- app_assoc.
    rewrite at_mid. cbn [mbind option_bind]. rewrite Z.shiftl_0_l, Z.lor_0_r. destruct (Z.eqb_spec c 0); [lia|]. unfold utf16_to_ascii.
    destruct (Z.ltb_spec c 128); [|lia]. replace (zlen pre + 2) with (zlen (pre ++ [c; 0])) by (unfold zlen; rewrite length_app; cbn; lia).
    replace ((pre ++ [c]) ++ 0 :: utf16 n l ++ post) with ((pre ++ [c; 0]) ++ utf16 n l ++ post) by by rewrite <- !app_assoc.
    rewrite IH; [cbn [take]; by rewrite <- app_assoc|unfold zlen in *; rewrite length_app; cbn; lia|done].
Qed.
Lemma length_utf16 n l : length (utf16 n l) = (2 * n)%nat.
Proof.
  unfold utf16. rewrite length_app, length_replicate. assert (length (flat_map (λ c : Z, [c; 0]) (take n l)) = (2 * length (take n l))%nat) as ->.
  { induction (take n l) as [|c k IH]; [done|]. cbn [flat_map]. rewrite length_app, IH. cbn. lia. }
  rewrite length_take. lia.
Qed.
Lemma lfn_chars_run seq chk l : Forall (λ c, 0 < c < 128) l → lfn_chars (lfn_entry seq chk l) 256 [] = Some (take 13 l).
Proof.
  intros Hl. unfold lfn_chars, lfn_entry.
  rewrite (lfn_part_run 5 l [seq]) by (done || cbn; lia). cbn [mbind option_bind].
  set (r1 := [ATTR_LFN; 0; chk] ++ _).
  replace ([seq] ++ utf16 5 l ++ r1) with (([seq] ++ utf16 5 l ++ [ATTR_LFN; 0; chk]) ++ utf16 6 (drop 5 l) ++ [0; 0] ++ utf16 2 (drop 11 l))
    by (unfold r1; by rewrite <- !app_assoc).
  change 14 with (Z.of_nat 14). replace (Z.of_nat 14) with (zlen ([seq] ++ utf16 5 l ++ [ATTR_LFN; 0; chk])) by (unfold zlen; rewrite !length_app, length_utf16; done).
  rewrite lfn_part_run; [|unfold zlen; cbn [app length]; rewrite length_take; lia|by apply Forall_drop]. cbn [mbind option_bind].
  replace (([seq] ++ utf16 5 l ++ [ATTR_LFN; 0; chk]) ++ utf16 6 (drop 5 l) ++ [0; 0] ++ utf16 2 (drop 11 l))
    with (([seq] ++ utf16 5 l ++ [ATTR_LFN; 0; chk] ++ utf16 6 (drop 5 l) ++ [0; 0]) ++ utf16 2 (drop 11 l) ++ []) by (rewrite app_nil_r; by rewrite <- !app_assoc).
  change 28 with (Z.of_nat 28). replace (Z.of_nat 28) with (zlen ([seq] ++ utf16 5 l ++ [ATTR_LFN; 0; chk] ++ utf16 6 (drop 5 l) ++ [0; 0]))
    by (unfold zlen; rewrite !length_app, !length_utf16; done).
  rewrite lfn_part_run; [|unfold zlen; rewrite !length_app, !length_take; cbn [length]; lia|by apply Forall_drop]. f_equal. cbn [app].
  rewrite <- (take_drop 5 (take 13 l)) at 1. rewrite take_take, skipn_firstn_comm. change (13 `min` 5)%nat with 5%nat. change (5 `min` 13)%nat with 5%nat.
  rewrite <- app_assoc. f_equal. rewrite <- (take_drop 6 (take 8 (drop 5 l))) at 1. rewrite take_take, skipn_firstn_comm, drop_drop. done.
Qed.
Definition short_ok (name : list Z) : Prop := Forall (λ c, 0 < c < 128) name.
Lemma lfn_count_eq name : lfn_count name = (zlen name + 12) / 13.
Proof. unfold lfn_count. apply Z.quot_div_nonneg; unfold zlen; lia. Qed.
Lemma length_fallback name : (length (fallback_name name) = 11)%nat.
Proof.
  unfold fallback_name. cbv zeta. assert (∀ n l, (length (stem n l) ≤ n)%nat) as Hs.
  { induction n as [|n IH]; intros [|c l]; cbn; try lia. destruct (c =? 46); cbn; [lia|]. specialize (IH l). lia. }
  specialize (Hs 6%nat name). rewrite !length_app, length_replicate. cbn [length]. lia.
Qed.
Lemma length_until l : (length (until_space l) ≤ length l)%nat.
Proof. induction l as [|c l IH]; cbn; [lia|]. destruct (c =? SP); cbn; lia. Qed.
Lemma short_name_bound raw s : fat32_short_name_to_str raw = Some s → (length s ≤ 12)%nat.
Proof.
  unfold fat32_short_name_to_str. destruct (at_ raw 8) as [e|]; [|done]. cbn [mbind option_bind]. intros [= <-]. rewrite length_app.
  pose proof (length_until (take 8 raw)) as H1. rewrite length_take in H1. destruct (e =? SP); cbn [negb length]; [lia|].
  pose proof (length_until (take 3 (drop 8 raw))) as H2. rewrite length_take in H2. lia.
Qed.

(** What fat32_write_lfn stores for a name, fat32_find_entry compares with
    the name.  Of at most thirteen characters it is read back and found.  Of
    fourteen or more it never is: the entries are on the disk with the highest
    number first, the reader expects them with the lowest first and gives up, and
    the short name that stands for it is another. *)
Theorem long_names_lost name attr fc fsize raw : short_ok name → name ≠ [] → lfn_count name ≤ 20 →
  let entries := removelast (name_entries name attr fc fsize) in
  last (name_entries name attr fc fsize) = Some raw →
  (zlen name ≤ 13 → match_entry entries raw name = Some true) ∧ (14 ≤ zlen name → match_entry entries raw name = Some false).
Proof.
  intros Hn Hne H20 entries Hraw. pose proof (lfn_count_eq name) as Hc. assert (1 ≤ zlen name) as H1 by (destruct name; [done|]; rewrite zlen_cons; unfold zlen; lia).
  assert (entries = map (lfn_nth name) (reverse (seq 0 (Z.to_nat (lfn_count name))))) as Ee by (unfold entries, name_entries; apply removelast_last).
  unfold name_entries in Hraw. rewrite last_snoc in Hraw. injection Hraw as <-. clearbody entries. subst entries. unfold match_entry. split; intros Hlen.
  - assert (lfn_count name = 1) as Hl1 by (rewrite Hc; symmetry; apply (Z.div_unique _ 13 1 (zlen name - 1)); lia).
    rewrite Hl1. change (reverse (seq 0 (Z.to_nat 1))) with [0%nat]. cbn [map]. rewrite bool_decide_false by done. unfold fat32_read_lfn. cbn [length fat32_parse_lfn].
    change ([lfn_nth name 0] !! 0%nat) with (Some (lfn_nth name 0)). cbn [mbind option_bind].
    assert (lfn_nth name 0 = lfn_entry 65 (fat32_checksum (short_name_for name)) name) as ->.
    { unfold lfn_nth. rewrite bool_decide_true by (by rewrite Hl1).
      by rewrite Nat.mul_0_r, drop_0. }
    change (at_ (lfn_entry 65 (fat32_checksum (short_name_for name)) name) 0) with (Some 65). cbn [mbind option_bind].
    change (negb (Z.land 65 63 =? u8 (Z.of_nat 0 + 1))) with false. cbv beta iota. rewrite lfn_chars_run by done. cbn [mbind option_bind].
    rewrite take_ge by (unfold zlen in *; lia). by rewrite bool_decide_true.
  - assert (2 ≤ lfn_count name) as H2 by (rewrite Hc; apply Z.div_le_lower_bound; lia). set (n := Z.to_nat (lfn_count name)) in *.
    assert (lfn_nth name 0 = lfn_entry 1 (fat32_checksum (short_name_for name)) name) as Eln.
    { unfold lfn_nth. fold n. rewrite bool_decide_false by lia. by rewrite Nat.mul_0_r, drop_0. }
    assert (map (lfn_nth name) (reverse (seq 0 n)) ≠ []) as Hx.
    { intros E. apply (f_equal length) in E. rewrite length_map, length_reverse, length_seq in E. cbn in E. lia. }
    rewrite bool_decide_false by done. unfold fat32_read_lfn. rewrite length_map, length_reverse, length_seq. destruct n as [|n'] eqn:En; [lia|]. cbn [fat32_parse_lfn].
    assert (map (lfn_nth name) (reverse (seq 0 (S n'))) !! n' = Some (lfn_nth name 0)) as E.
    { rewrite list_lookup_fmap, reverse_lookup by (rewrite length_seq; lia). rewrite length_seq, Nat.sub_diag. done. }
    rewrite E, Eln. cbn [mbind option_bind].
    change (at_ (lfn_entry 1 (fat32_checksum (short_name_for name)) name) 0) with (Some 1). cbn [mbind option_bind].
    unfold u8. rewrite (Z.mod_small (Z.of_nat n' + 1)) by (change (2 ^ 8) with 256; lia). change (Z.land 1 63) with 1. destruct (Z.eqb_spec 1 (Z.of_nat n' + 1)); [lia|]. cbn [negb].
    destruct (fat32_short_name_to_str (short_entry (short_name_for name) attr fc fsize)) as [s|] eqn:Es.
    + cbn [mbind option_bind]. rewrite bool_decide_false; [done|]. intros ->. pose proof (short_name_bound _ _ Es). unfold zlen in Hlen. lia.
    + exfalso. revert Es. unfold fat32_short_name_to_str. rewrite at_nth; [done|]. unfold short_entry. rewrite length_app.
      assert (length (short_name_for name) = 11%nat) as ->; [|lia]. unfold short_name_for. destruct (fat32_str_to_short_name name) as [s|] eqn:E2; [|apply length_fallback].
      change (length s = 11%nat). unfold fat32_str_to_short_name in E2. destruct (split_dot name) as [base [ext|]]; repeat (case_match; try done); injection E2 as <-;
        rewrite length_app, ?length_pad; done.
Qed.

(** ** The disk *)
Section laws.
Context `{BL : BlockLaws D} (F : nat) (b : fat32_sb_info).
Implicit Types s : fat32 D.
Local Notation bps := (bytes_per_sector b).
Local Notation spc := (sectors_per_cluster b).
Local Notation cs := (cluster_size b).
Local Notation spf := (sectors_per_fat b).
Local Notation tot := (total_clusters b).

(** What mounting has checked, and what a formatted disk has besides: sectors of
    whole entries and a FAT that is large enough. *)
Record geometry : Prop := {
  g_bps : 512 ≤ bps ≤ 4096;
  g_four : bps = 4 * (bps / 4);
  g_spc : 1 ≤ spc ≤ 255;
  g_cs : cs = bps * spc;
  g_fats : 1 ≤ num_fats b ≤ 255;
  g_start : 0 ≤ fat_start b;
  g_data : data_start b = fat_start b + num_fats b * spf ∧ data_start b < 2 ^ 32;
  g_spf : 1 ≤ spf;
  g_tot : 0 ≤ tot ∧ tot + 2 ≤ FAT32_CLUSTER_EOC_MIN;
  g_fat : 4 * (tot + 2) ≤ spf * bps
}.
Context (G : geometry).

Record dev (s : fat32 D) : Prop := {
  d_ok : bd_ok (fdev s);
  d_sbi : fsbi s = b;
  d_mem : fmem s = [];
  d_bs : bd_block_size (fdev s) = bps;
  d_sec : data_start b + tot * spc ≤ bd_sectors (fdev s)
}.
Definition rd (s : fat32 D) (x : Z) : Z := default 0 (bd_mem (fdev s) !! x).
Definition bytes_at (s : fat32 D) (x n : Z) : list Z := load (bd_mem (fdev s)) x (Z.to_nat n).
Lemma bytes_at_ext s s' x n : (∀ y, x ≤ y < x + n → rd s' y = rd s y) → bytes_at s' x n = bytes_at s x n.
Proof.
  intros H'. unfold bytes_at. rewrite !load_nth. apply map_ext_in. intros i Hi%in_seq. apply (H' (x + Z.of_nat i)). lia.
Qed.
Lemma length_bytes_at s x n : length (bytes_at s x n) = Z.to_nat n.
Proof. apply length_load. Qed.
Lemma bytes_at_sub s x n o k : 0 ≤ o → 0 ≤ k → o + k ≤ n → take (Z.to_nat k) (drop (Z.to_nat o) (bytes_at s x n)) = bytes_at s (x + o) k.
Proof.
  intros Ho Hk Hn. rewrite take_drop_nth by (rewrite length_bytes_at; lia). unfold bytes_at. rewrite (load_nth _ (x + o)). apply map_ext_in.
  intros i Hi%in_seq. rewrite nth_load by lia. do 2 f_equal. lia.
Qed.
Lemma nth_bytes_at s x n i : 0 ≤ i < n → nth (Z.to_nat i) (bytes_at s x n) 0 = rd s (x + i).
Proof. intros Hi. unfold bytes_at, rd. rewrite nth_load by lia. do 2 f_equal. lia. Qed.

Lemma bind_kmalloc {A} s (f : bool → FM A) : dev s → (x <- kmalloc ;; f x) s = f true s.
Proof. intros [_ _ Hm _ _]. unfold bind, kmalloc. by rewrite Hm. Qed.
Lemma bind_fat_lift {A B} (o : option A) a s (f : A → FM B) : o = Some a → (x <- lift o ;; f x) s = f a s.
Proof. by intros ->. Qed.

Lemma read_sectors_run s sector count buf : dev s → 0 ≤ sector → 0 < count → sector + count ≤ bd_sectors (fdev s) → zlen buf = count * bps →
  read_sectors sector count buf s = Some (Some (bytes_at s (sector * bps) (count * bps)), s).
Proof.
  intros Dv H1 H2 H3 Hl. unfold read_sectors. rewrite bind_gets, block_dev_read_ok by (done || apply (d_ok _ Dv)). rewrite (d_bs _ Dv).
  pose proof (length_bytes_at s (sector * bps) (count * bps)) as Lb. pose proof (g_bps G).
  rewrite (bind_fat_lift _ (bytes_at s (sector * bps) (count * bps))); [done|]. unfold zlen in Hl. rewrite patch_fits by (unfold bytes_at in Lb; lia).
  unfold bytes_at in *. rewrite Lb. cbn [Z.to_nat take app]. rewrite drop_ge by lia. by rewrite app_nil_r.
Qed.
Definition set_dev_ok (s s' : fat32 D) : Prop := dev s' ∧ fat_cache s' = fat_cache s.
Lemma write_sectors_run s sector count buf : dev s → 0 ≤ sector → 0 < count → sector + count ≤ bd_sectors (fdev s) → zlen buf = count * bps →
  ∃ s', write_sectors sector count buf s = Some (true, s') ∧ dev s' ∧ fat_cache s' = fat_cache s ∧ bd_sectors (fdev s') = bd_sectors (fdev s) ∧
    ∀ x, rd s' x = if decide (sector * bps ≤ x < sector * bps + zlen buf) then nth (Z.to_nat (x - sector * bps)) buf 0 else rd s x.
Proof.
  intros Dv H1 H2 H3 Hl. pose proof (g_bps G) as Hb. unfold write_sectors. rewrite bind_gets, (d_bs _ Dv). rewrite take_ge by (unfold zlen in Hl; lia).
  destruct (block_dev_write_ok (fdev s) buf sector count) as (d & -> & Hd & Hm & Hbs & Hs); [apply (d_ok _ Dv)|done|done|done|by rewrite (d_bs _ Dv)|].
  destruct (Z.leb_spec (count * bps) (zlen buf)); [|lia]. rewrite bind_modify. eexists. split; [reflexivity|].
  rewrite (d_bs _ Dv) in Hm, Hbs. split; [destruct Dv; constructor; cbn [fdev fsbi fmem set_fdev]; rewrite ?Hbs, ?Hs; done|].
  split; [done|]. split; [done|]. intros x. unfold rd. cbn [fdev set_fdev]. rewrite Hm. case_decide as Hx; [by apply store_lookup_in|].
  f_equal. apply store_lookup_out. unfold zlen in Hx. lia.
Qed.

(** ** Entries of the FAT *)
Definition fat_pos (k c : Z) : Z := (fat_start b + k * spf) * bps + 4 * c.
Definition fat_at (s : fat32 D) (k c : Z) : Z := le_value (bytes_at s (fat_pos k c) 4).
(** The first copy, which the code reads. *)
Definition fat (s : fat32 D) (c : Z) : Z := Z.land (fat_at s 0 c) FAT32_CLUSTER_MASK.
Definition entry (c : Z) : Prop := 2 ≤ c < tot + 2.

Lemma entry_bounds c : entry c → c < 2 ^ 28 - 8 ∧ 4 * c + 4 ≤ spf * bps.
Proof. pose proof (g_tot G) as [_ H1]. pose proof (g_fat G). unfold entry, FAT32_CLUSTER_EOC_MIN in *. lia. Qed.
(** The place of an entry: its sector in copy [k] and the offset. *)
Lemma place_ok c : entry c → ∃ sec o, fat_place b c = (sec, o) ∧ 0 ≤ o ∧ o + 4 ≤ bps ∧ fat_start b ≤ sec < fat_start b + spf ∧
  ∀ k, (sec + k * spf) * bps + o = fat_pos k c.
Proof.
  intros Hc. destruct (entry_bounds c Hc) as [H28 Hf]. pose proof (g_bps G) as Hb. pose proof (g_four G) as H4. pose proof (g_start G) as Hs.
  pose proof (g_data G) as [Hd Hd32]. pose proof (g_fats G) as Hn. pose proof (g_spf G). destruct Hc as [Hc _].
  unfold fat_place. rewrite (u32_small (c * 4)) by lia.
  pose proof (Z.div_mod (c * 4) bps ltac:(lia)) as Hdm. pose proof (Z.mod_pos_bound (c * 4) bps ltac:(lia)) as Hm.
  assert (0 ≤ c * 4 / bps < spf) as Hq by (split; [apply Z.div_pos; lia|apply Z.div_lt_upper_bound; lia]).
  assert (fat_start b + spf ≤ data_start b) by nia.
  rewrite u32_small by lia. exists (fat_start b + c * 4 / bps), ((c * 4) mod bps). split; [done|].
  assert ((c * 4) mod bps = 4 * (c mod (bps / 4))) as Ho.
  { rewrite H4 at 1. rewrite (Z.mul_comm c 4), Z.mul_mod_distr_l; [done| |lia]. lia. }
  assert (0 < bps / 4) as Hq4 by lia. pose proof (Z.mod_pos_bound c (bps / 4) Hq4). split; [lia|]. split; [lia|]. split; [lia|].
  intros k. unfold fat_pos. lia.
Qed.
(** Entries of all copies are apart. *)
Lemma fat_pos_apart k c k' c' : entry c → entry c' → 0 ≤ k → 0 ≤ k' → (k, c) ≠ (k', c') → fat_pos k c + 4 ≤ fat_pos k' c' ∨ fat_pos k' c' + 4 ≤ fat_pos k c.
Proof.
  intros Hc Hc' Hk Hk' Hne. destruct (entry_bounds c Hc) as [_ H1]. destruct (entry_bounds c' Hc') as [_ H2]. unfold entry in *. unfold fat_pos.
  destruct (Z.lt_trichotomy k k') as [Hlt | [-> | Hlt]].
  - left. assert ((k + 1) * (spf * bps) ≤ k' * (spf * bps)) by (apply Z.mul_le_mono_nonneg_r; lia). lia.
  - assert (c ≠ c') by (by intros ->). lia.
  - right. assert ((k' + 1) * (spf * bps) ≤ k * (spf * bps)) by (apply Z.mul_le_mono_nonneg_r; lia). lia.
Qed.
Lemma fat_pos_below k c : entry c → 0 ≤ k < num_fats b → fat_pos k c + 4 ≤ data_start b * bps.
Proof.
  intros Hc Hk. destruct (entry_bounds c Hc) as [_ H1]. destruct (g_data G) as [-> _]. unfold fat_pos.
  assert ((k + 1) * (spf * bps) ≤ num_fats b * (spf * bps)) by (apply Z.mul_le_mono_nonneg_r; [unfold entry in Hc; lia|lia]). lia.
Qed.
(** One copy is updated. *)
Lemma write_fats_run n k c v buf s : dev s → entry c → 0 ≤ k → k + Z.of_nat n = num_fats b → zlen buf = bps → 0 ≤ v < 2 ^ 32 →
  ∀ sec o, fat_place b c = (sec, o) →
  ∃ s', write_fats n (sec + k * spf) o v buf s = Some (0, s') ∧ dev s' ∧ fat_cache s' = fat_cache s ∧
    (∀ j c', 0 ≤ j < num_fats b → entry c' → fat_at s' j c' = if decide (c' = c ∧ k ≤ j) then v else fat_at s j c') ∧
    ∀ x, data_start b * bps ≤ x → rd s' x = rd s x.
Proof.
  intros Dv Hc Hk Hn Hl Hv sec o Ep. destruct (place_ok c Hc) as (sec' & o' & Ep' & Ho & Ho4 & Hsec & Hpos). rewrite Ep in Ep'. injection Ep' as <- <-.
  pose proof (g_bps G) as Hb. pose proof (g_data G) as [Hd Hd32]. pose proof (g_spf G) as Hspf. pose proof (g_fats G) as Hnf. pose proof (g_start G).
  revert k buf s Dv Hk Hn Hl. induction n as [|n IH]; intros k buf s Dv Hk Hn Hl; cbn [write_fats].
  { exists s. do 3 (split; [done|]). split; [|done]. intros j c' Hj Hc'. rewrite decide_False by lia. done. }
  assert (sec + k * spf + 1 ≤ data_start b) as Hfit.
  { assert ((k + 1) * spf ≤ num_fats b * spf) by (apply Z.mul_le_mono_nonneg_r; lia). lia. }
  pose proof (d_sec s Dv) as Hsectors. pose proof (g_tot G) as [Ht _]. pose proof (g_spc G). assert (0 ≤ tot * spc) by nia. assert (0 ≤ k * spf) by nia.
  rewrite bind_gets, (d_sbi _ Dv). rewrite (bind_Some _ _ _ _ _ (read_sectors_run s (sec + k * spf) 1 buf Dv ltac:(lia) ltac:(lia) ltac:(lia) ltac:(lia))).
  cbv beta iota. rewrite Z.mul_1_l. set (old := bytes_at s ((sec + k * spf) * bps) bps).
  assert (zlen old = bps) as Lold by (unfold old, zlen; rewrite length_bytes_at; lia).
  destruct (patch_run old o (le_bytes 4 v)) as (new & En & Ln & Nn); [done|rewrite zlen_le; lia|]. rewrite zlen_le in Nn.
  rewrite (bind_fat_lift _ new) by done.
  destruct (write_sectors_run s (sec + k * spf) 1 new Dv) as (s1 & W & D1 & C1 & S1 & R1); [lia|lia|lia|unfold zlen in *; lia|].
  rewrite (bind_Some _ _ _ _ _ W). cbv beta iota. assert (zlen new = bps) as Lnew by (unfold zlen in *; lia).
  assert (∀ x, rd s1 x = if decide (fat_pos k c ≤ x < fat_pos k c + 4) then nth (Z.to_nat (x - fat_pos k c)) (le_bytes 4 v) 0 else rd s x) as Hrd.
  { intros x. rewrite R1, Lnew, <- (Hpos k). destruct (decide ((sec + k * spf) * bps ≤ x < (sec + k * spf) * bps + bps)) as [Hin|Hin].
    - rewrite Nn by lia. case_decide; case_decide; try lia; [f_equal; lia|]. unfold old. rewrite nth_bytes_at by lia. f_equal. lia.
    - rewrite decide_False by lia. done. }
  assert (u64 (sec + k * spf + spf) = sec + (k + 1) * spf) as ->.
  { rewrite u64_small; [lia|]. assert (k * spf ≤ num_fats b * spf) by (apply Z.mul_le_mono_nonneg_r; lia). lia. }
  destruct (IH (k + 1) new s1 D1) as (s2 & W2 & D2 & C2 & F2 & R2); [lia|lia|done|]. exists s2. split; [done|]. split; [done|]. split; [congruence|]. split.
  - intros j c' Hj Hc'. rewrite F2 by done. destruct (decide (j = k ∧ c' = c)) as [[-> ->]|Hne].
    + rewrite decide_False, decide_True by lia. unfold fat_at. rewrite <- (le_value_bytes 4 v) by done. f_equal. unfold bytes_at. apply nth_ext with 0 0.
      { by rewrite length_load, length_le_bytes. }
      intros i Hi. rewrite length_load in Hi. change (Z.to_nat 4) with 4%nat in *. rewrite nth_load by done. fold (rd s1 (fat_pos k c + Z.of_nat i)).
      rewrite Hrd, decide_True by lia. f_equal. lia.
    + assert (fat_at s1 j c' = fat_at s j c') as E1.
      { unfold fat_at. f_equal. apply bytes_at_ext. intros y Hy. rewrite Hrd, decide_False; [done|]. intros Hy'.
        destruct (fat_pos_apart k c j c' Hc Hc') as [?|?]; [lia|lia| |lia|lia]. intros [= -> ->]. by apply Hne. }
      rewrite E1. destruct (decide (c' = c ∧ k + 1 ≤ j)); destruct (decide (c' = c ∧ k ≤ j)); try done; [lia|]. exfalso. apply Hne. lia.
  - intros x Hx. rewrite R2 by done. rewrite Hrd, decide_False; [done|]. pose proof (fat_pos_below k c Hc ltac:(lia)). lia.
Qed.
(** The cached FAT, if there is one, is the first copy. *)
Record base (s : fat32 D) : Prop := {
  b_dev : dev s;
  b_cache : match fat_cache s with
            | None => True
            | Some c => tot + 2 ≤ zlen c ∧ ∀ e, entry e → Z.land (nth (Z.to_nat e) c 0) FAT32_CLUSTER_MASK = fat s e
            end
}.
Lemma mask_range v : 0 ≤ Z.land v FAT32_CLUSTER_MASK < 2 ^ 28.
Proof. unfold FAT32_CLUSTER_MASK. change 0x0FFFFFFF with (Z.ones 28). rewrite Z.land_ones by lia. apply Z.mod_pos_bound. lia. Qed.
Lemma mask_small v : 0 ≤ v < 2 ^ 28 → Z.land v FAT32_CLUSTER_MASK = v.
Proof. intros Hv. unfold FAT32_CLUSTER_MASK. change 0x0FFFFFFF with (Z.ones 28). rewrite Z.land_ones by lia. by apply Z.mod_small. Qed.
Lemma fat_range s c : 0 ≤ fat s c < 2 ^ 28.
Proof. apply mask_range. Qed.
Lemma entry_cached c (cache : option (list Z)) : entry c → cached b cache c = cache.
Proof.
  intros Hc. unfold cached. pose proof (g_tot G) as [H1 H2]. unfold FAT32_CLUSTER_EOC_MIN in H2. rewrite u32_small by lia.
  destruct (Z.ltb_spec c (tot + 2)); [done|unfold entry in Hc; lia].
Qed.
Lemma entry_in_range c : entry c → (c <? 2) || (FAT32_CLUSTER_EOC_MAX <=? c) = false.
Proof.
  intros Hc. destruct (entry_bounds c Hc) as [H28 _]. unfold entry in Hc. unfold FAT32_CLUSTER_EOC_MAX.
  destruct (Z.ltb_spec c 2); [lia|]. destruct (Z.leb_spec 0x0FFFFFFF c); [lia|done].
Qed.
Lemma get_run s c : base s → entry c → fat32_get_cluster c s = Some (fat s c, s).
Proof.
  intros [Dv Hcache] Hc. unfold fat32_get_cluster. rewrite bind_gets, (d_sbi _ Dv), entry_in_range by done. rewrite bind_gets, entry_cached by done.
  destruct (fat_cache s) as [l|].
  - destruct Hcache as [Hl He]. rewrite (bind_fat_lift _ (nth (Z.to_nat c) l 0)) by (apply at_nth; unfold entry, zlen in *; lia). by rewrite He.
  - destruct (place_ok c Hc) as (sec & o & -> & Ho & Ho4 & Hsec & Hpos). rewrite bind_kmalloc by done. cbn [negb].
    pose proof (g_bps G) as Hb. pose proof (g_data G) as [Hd _]. pose proof (g_fats G). pose proof (g_spf G). pose proof (d_sec s Dv). pose proof (g_start G).
    pose proof (g_tot G) as [Ht _]. pose proof (g_spc G). assert (0 ≤ tot * spc) by nia. assert (1 * spf ≤ num_fats b * spf) by (apply Z.mul_le_mono_nonneg_r; lia).
    rewrite (bind_Some _ _ _ _ _ (read_sectors_run s sec 1 (zeros bps) Dv ltac:(lia) ltac:(lia) ltac:(lia) ltac:(unfold zeros; rewrite zlen_replicate; lia))).
    cbv beta iota. rewrite Z.mul_1_l. rewrite (bind_fat_lift _ (fat_at s 0 c)); [done|].
    rewrite field_at_ok by (unfold zlen; rewrite ?length_bytes_at; lia). rewrite bytes_at_sub by lia. f_equal. unfold fat_at. do 2 f_equal.
    rewrite <- Hpos. lia.
Qed.
(** What setting an entry changes. *)
Definition fat_set (s s' : fat32 D) (c v : Z) : Prop :=
  (∀ j e, 0 ≤ j < num_fats b → entry e → fat_at s' j e = if decide (e = c) then v else fat_at s j e) ∧ ∀ x, data_start b * bps ≤ x → rd s' x = rd s x.
Lemma fat_set_fat s s' c v e : fat_set s s' c v → 0 ≤ v < 2 ^ 28 → entry e → fat s' e = if decide (e = c) then v else fat s e.
Proof.
  intros [Hf _] Hv He. pose proof (g_fats G). unfold fat. rewrite Hf by (done || lia). case_decide; [by apply mask_small|done].
Qed.
Lemma set_cluster_run s c v : base s → entry c →
  ∃ s', fat32_set_cluster c v s = Some (0, s') ∧ base s' ∧ fat_set s s' c (Z.land v FAT32_CLUSTER_MASK).
Proof.
  intros [Dv Hcache] Hc. unfold fat32_set_cluster. rewrite bind_gets, (d_sbi _ Dv), entry_in_range by done. rewrite bind_gets, entry_cached by done.
  set (w := Z.land v FAT32_CLUSTER_MASK). pose proof (mask_range v) as Hw. fold w in Hw. pose proof (g_fats G) as Hnf. pose proof (g_bps G) as Hb.
  destruct (place_ok c Hc) as (sec & o & Ep & _).
  assert (∃ s1, (match fat_cache s with Some l => l <- lift (set_ l c w) ;; modify (set_cache (Some l)) | None => ret tt end) s = Some (tt, s1) ∧ dev s1 ∧
    bd_mem (fdev s1) = bd_mem (fdev s) ∧
    fat_cache s1 = match fat_cache s with Some l => Some (<[Z.to_nat c := w]> l) | None => None end) as (s1 & Ec & D1 & M1 & C1).
  { destruct (fat_cache s) as [l|] eqn:El.
    - destruct Hcache as [Hl _]. rewrite (bind_fat_lift _ (<[Z.to_nat c := w]> l)) by (apply set_run; unfold entry in Hc; lia).
      eexists. split; [reflexivity|]. split; [by destruct Dv; constructor|]. split; done.
    - exists s. done. }
  rewrite (bind_Some _ _ _ _ _ Ec), Ep, bind_kmalloc by done. cbn [negb].
  destruct (write_fats_run (Z.to_nat (num_fats b)) 0 c w (zeros bps) s1 D1 Hc) with (sec := sec) (o := o) as (s2 & W & D2 & C2 & F2 & R2);
    [lia|lia|unfold zeros; rewrite zlen_replicate; lia|lia|done|]. rewrite Z.mul_0_l, Z.add_0_r in W.
  assert (∀ x, rd s1 x = rd s x) as Hrd by (intros x; unfold rd; by rewrite M1).
  assert (fat_set s s2 c w) as Hset.
  { split; [|intros x Hx; by rewrite R2]. intros j e Hj He. rewrite F2 by done.
    assert (fat_at s1 j e = fat_at s j e) as -> by (unfold fat_at; f_equal; by apply bytes_at_ext).
    destruct (decide (e = c ∧ 0 ≤ j)); destruct (decide (e = c)); done || lia. }
  exists s2. split; [done|]. split; [|done]. split; [done|]. rewrite C2, C1. destruct (fat_cache s) as [l|]; [|done].
  destruct Hcache as [Hl He]. split; [unfold zlen in *; by rewrite length_insert|]. intros e Hee. rewrite (fat_set_fat s s2 c w) by done.
  rewrite nth_lookup. case_decide as E.
  - subst e. rewrite list_lookup_insert_eq by (unfold entry, zlen in *; lia). by apply mask_small.
  - rewrite list_lookup_insert_ne by (unfold entry in *; lia). rewrite <- nth_lookup. by apply He.
Qed.

(** Fat32_set_cluster writes the low 28 bits of the value to the entry in
    every copy of the FAT and changes no other entry and no byte of the data
    area; the cache stays equal to the disk, so that fat32_get_cluster returns
    what was set, and for any other cluster what it returned before. *)
Theorem fat_set_get s c v : base s → entry c →
  ∃ s', fat32_set_cluster c v s = Some (0, s') ∧ base s' ∧ fat_set s s' c (Z.land v FAT32_CLUSTER_MASK) ∧
    ∀ e, entry e → fat32_get_cluster e s' = Some (if decide (e = c) then Z.land v FAT32_CLUSTER_MASK else fat s e, s').
Proof.
  intros B Hc. destruct (set_cluster_run s c v B Hc) as (s' & E & B' & Hs). exists s'. do 3 (split; [done|]). intros e He.
  rewrite get_run by done. do 2 f_equal. apply (fat_set_fat s s' c); [done|apply mask_range|done].
Qed.

(** ** Chains *)
Inductive chain (f : Z → Z) : Z → list Z → Prop :=
| chain_last c : entry c → FAT32_CLUSTER_EOC_MIN ≤ f c → chain f c [c]
| chain_next c l : entry c → f c < FAT32_CLUSTER_EOC_MIN → chain f (f c) l → chain f c (c :: l).
Lemma chain_entries f c l : chain f c l → Forall entry l ∧ head l = Some c.
Proof. induction 1 as [c Hc _|c l Hc _ _ [IH _]]; split; try done; by constructor. Qed.
Lemma chain_det f c l l' : chain f c l → chain f c l' → l = l'.
Proof.
  intros H1. revert l'. induction H1 as [c Hc He|c l Hc He _ IH]; intros l' H2; inversion H2; subst; try done; try lia. f_equal. by apply IH.
Qed.
Lemma chain_suffix f c l x : chain f c l → x ∈ l → ∃ k, chain f x k ∧ (length k ≤ length l)%nat.
Proof.
  induction 1 as [c Hc He|c l Hc He H1 IH]; intros Hx.
  - apply list_elem_of_singleton in Hx as ->. exists [c]. split; [by constructor|done].
  - apply elem_of_cons in Hx as [-> | Hx]; [exists (c :: l); split; [by constructor|done]|]. destruct (IH Hx) as (k & Hk & Hl). exists k. split; [done|]. cbn. lia.
Qed.
Lemma chain_nodup f c l : chain f c l → NoDup l.
Proof.
  induction 1 as [c Hc He|c l Hc He H1 IH]; [apply NoDup_singleton|]. apply NoDup_cons. split; [|done]. intros Hx.
  destruct (chain_suffix _ _ _ _ H1 Hx) as (k & Hk & Hl). assert (chain f c (c :: l)) as H2 by by constructor.
  rewrite (chain_det _ _ _ _ Hk H2) in Hl. cbn in Hl. lia.
Qed.
Lemma fat_chain_ext f g c l : (∀ e, e ∈ l → g e = f e) → chain f c l → chain g c l.
Proof.
  intros H1 H2. induction H2 as [c Hc He|c l Hc He H2 IH].
  - constructor; [done|]. rewrite H1; [done|by left].
  - assert (g c = f c) as E by (apply H1; by left). constructor; [done|by rewrite E|]. rewrite E. apply IH. intros e Hx. apply H1. by right.
Qed.
Lemma fat_chain_length f c l : chain f c l → Z.of_nat (length l) ≤ tot.
Proof.
  intros H1. pose proof (chain_nodup _ _ _ H1) as Hn. destruct (chain_entries _ _ _ H1) as [He _]. pose proof (g_tot G) as [Ht _].
  assert (length l ≤ length (seqZ 2 tot))%nat as Hle; [|rewrite length_seqZ in Hle; lia].
  apply submseteq_length, NoDup_submseteq; [done|]. intros x Hx. rewrite Forall_forall in He. apply elem_of_seqZ. specialize (He x Hx). unfold entry in He. lia.
Qed.
(** The chain with a cluster more. *)
Lemma chain_app f g c l x n : chain f c l → last l = Some x → entry n → n < FAT32_CLUSTER_EOC_MIN → n ∉ l → FAT32_CLUSTER_EOC_MIN ≤ g n →
  g x = n → (∀ e, e ∈ l → e ≠ x → g e = f e) → chain g c (l ++ [n]).
Proof.
  intros H1. induction H1 as [c Hc He|c l Hc He H1 IH]; intros Hl Hn Hn2 Hnl Hgn Hgx Hg; cbn [app].
  - injection Hl as ->. constructor; [done|by rewrite Hgx|]. rewrite Hgx. by constructor.
  - assert (c ∉ l) as Hcl by (assert (NoDup (c :: l)) as Hnd by (eapply chain_nodup; by constructor); by apply NoDup_cons in Hnd as [? _]).
    destruct l as [|d l]; [inversion H1|]. rewrite last_cons_cons in Hl. assert (x ∈ d :: l) as Hx by by apply last_Some_elem_of in Hl.
    assert (c ≠ x) as Hcx by by intros ->. assert (g c = f c) as E by (apply Hg; [by left|done]).
    constructor; [done|by rewrite E|]. rewrite E. apply IH; try done; [intros Hd; apply Hnl; by right|]. intros e Hee. apply Hg. by right.
Qed.

Lemma valid_entry c : entry c → valid c = true.
Proof.
  intros Hc. destruct (entry_bounds c Hc). unfold entry in Hc. unfold valid, FAT32_CLUSTER_EOC_MIN. destruct (Z.leb_spec 2 c); [|lia].
  destruct (Z.ltb_spec c 0x0FFFFFF8); [done|lia].
Qed.
Lemma walk_run s c l n last : base s → chain (fat s) c l → 0 ≤ n → n + Z.of_nat (length l) < 2 ^ 32 → ∀ fuel, (length l ≤ fuel)%nat →
  chain_walk fuel c n last s = Some ((n + Z.of_nat (length l), List.last l 0), s).
Proof.
  intros B H1. revert n last. induction H1 as [c Hc He|c l Hc He H1 IH]; intros n last Hn Hb [|fuel] Hf; cbn [length] in *; try lia; cbn [chain_walk];
    rewrite valid_entry by done; rewrite (bind_Some _ _ _ _ _ (get_run s c B Hc)).
  - destruct (Z.leb_spec FAT32_CLUSTER_EOC_MIN (fat s c)); [|lia]. rewrite u32_small by lia. done.
  - destruct (Z.leb_spec FAT32_CLUSTER_EOC_MIN (fat s c)); [lia|]. rewrite u32_small by lia. rewrite IH by lia. do 3 f_equal; [lia|].
    destruct l; [inversion H1|done].
Qed.
Lemma chain_end_run s c l : base s → chain (fat s) c l → (length l ≤ F)%nat → chain_end F c s = Some ((Z.of_nat (length l), List.last l 0), s).
Proof.
  intros B H1 Hf. unfold chain_end. pose proof (fat_chain_length _ _ _ H1). pose proof (g_tot G) as [_ Ht]. unfold FAT32_CLUSTER_EOC_MIN in Ht.
  rewrite (walk_run s c l) by (done || lia). done.
Qed.
Lemma nth_run s c l i : base s → chain (fat s) c l → fat32_get_nth_cluster c i s = Some (default FAT32_CLUSTER_EOC_MAX (l !! i), s).
Proof.
  intros B H1. revert i. induction H1 as [c Hc He|c l Hc He H1 IH]; intros [|i]; cbn [fat32_get_nth_cluster]; try done;
    rewrite (bind_Some _ _ _ _ _ (get_run s c B Hc)); (destruct (Z.leb_spec FAT32_CLUSTER_EOC_MIN (fat s c)); [|try lia]); try lia; try done; try apply IH.
Qed.

(** ** Allocation *)
Lemma fat_set_keep s s' c v e : fat_set s s' c v → entry e → e ≠ c → fat s' e = fat s e.
Proof. intros [H1 _] He Hne. pose proof (g_fats G). unfold fat. rewrite H1 by (done || lia). by rewrite decide_False. Qed.
Lemma find_free_run n c s : base s → 2 ≤ c → c + Z.of_nat n = tot + 2 → 
  ∃ p s', find_free_from n c s = Some (p, s') ∧ base s' ∧
    ((p = 0 ∧ s' = s ∧ ∀ e, c ≤ e < tot + 2 → fat s e ≠ 0) ∨ (entry p ∧ fat s p = 0 ∧ fat_set s s' p FAT32_CLUSTER_EOC_MAX)).
Proof.
  intros B. revert c. induction n as [|n IH]; intros c Hc Hn; cbn [find_free_from].
  { exists 0, s. do 2 (split; [done|]). left. do 2 (split; [done|]). lia. }
  assert (entry c) as He by (unfold entry; lia). rewrite (bind_Some _ _ _ _ _ (get_run s c B He)). unfold FAT32_CLUSTER_FREE.
  destruct (Z.eqb_spec (fat s c) 0) as [E|E].
  - destruct (set_cluster_run s c FAT32_CLUSTER_EOC_MAX B He) as (s' & W & B' & Hs). rewrite (bind_Some _ _ _ _ _ W).
    exists c, s'. do 2 (split; [done|]). by right.
  - destruct (IH (c + 1)) as (p & s' & R & B' & [(-> & -> & Hall) | Hp]); [lia|lia| |]; eexists _, _; (split; [exact R|]); (split; [done|]); [left|by right].
    do 2 (split; [done|]). intros e Hee. destruct (decide (e = c)) as [->|]; [done|]. apply Hall. lia.
Qed.
Lemma alloc_cluster_run s : base s → ∃ p s', fat32_find_free_cluster s = Some (p, s') ∧ base s' ∧
    ((p = 0 ∧ s' = s ∧ ∀ e, entry e → fat s e ≠ 0) ∨ (entry p ∧ fat s p = 0 ∧ fat_set s s' p FAT32_CLUSTER_EOC_MAX)).
Proof.
  intros B. unfold fat32_find_free_cluster. rewrite bind_gets, (d_sbi _ (b_dev _ B)). pose proof (g_tot G) as [H1 H2]. unfold FAT32_CLUSTER_EOC_MIN in H2.
  rewrite u32_small by lia. apply find_free_run; [done|lia|lia].
Qed.
(** A free cluster is the start of no chain. *)
Lemma free_not_chained s p k : fat s p = 0 → ¬ chain (fat s) p k.
Proof.
  intros H0 Hk. inversion Hk as [c Hc Hbad Ec|c l Hc Hlt Hbad Ec]; subst c.
  - rewrite H0 in Hbad. unfold FAT32_CLUSTER_EOC_MIN in Hbad. lia.
  - rewrite H0 in Hbad. destruct (chain_entries _ _ _ Hbad) as [Hb2 Hh]. destruct l as [|y l]; [done|]. injection Hh as ->.
    apply Forall_cons in Hb2 as [Hb2 _]. unfold entry in Hb2. lia.
Qed.
(** A cluster more at the end of a chain. *)
Lemma append_run s c l x : base s → chain (fat s) c l → last l = Some x →
  ∃ p s', fat32_append_cluster x s = Some (p, s') ∧ base s' ∧
    ((p = 0 ∧ s' = s ∧ ∀ e, entry e → fat s e ≠ 0) ∨
     (entry p ∧ fat s p = 0 ∧ p ∉ l ∧ chain (fat s') c (l ++ [p]) ∧ (∀ e, entry e → e ≠ x → e ≠ p → fat s' e = fat s e) ∧
      ∀ y, data_start b * bps ≤ y → rd s' y = rd s y)).
Proof.
  intros B H1 Hx. destruct (chain_entries _ _ _ H1) as [Hall _]. rewrite Forall_forall in Hall. pose proof (last_Some_elem_of _ _ Hx) as Hxl.
  unfold fat32_append_cluster. destruct (alloc_cluster_run s B) as (p & s1 & R & B1 & [(-> & -> & Hfull) | (Hp & H0 & Hs)]); rewrite (bind_Some _ _ _ _ _ R).
  { exists 0, s. split; [done|]. split; [done|]. left. done. }
  destruct (Z.eqb_spec p 0); [unfold entry in Hp; lia|]. rewrite valid_entry by auto.
  destruct (set_cluster_run s1 x p B1 (Hall x Hxl)) as (s2 & W & B2 & Hs2). rewrite (bind_Some _ _ _ _ _ W). destruct (entry_bounds p Hp) as [Hp28 _].
  rewrite mask_small in Hs2 by (unfold entry in Hp; lia). exists p, s2. do 2 (split; [done|]). right. split; [done|]. split; [done|].
  assert (p ∉ l) as Hpl.
  { intros Hpl. destruct (chain_suffix _ _ _ _ H1 Hpl) as (k & Hk & _). by apply (free_not_chained s p k). }
  assert (p ≠ x) as Hpx by by intros ->.
  split; [done|]. split; [|split].
  - apply (chain_app (fat s) (fat s2) c l x p); [exact H1|exact Hx|exact Hp|exact Hp28|exact Hpl| | |].
    + rewrite (fat_set_keep s1 s2 x p) by (done || auto). rewrite (fat_set_fat s s1 p FAT32_CLUSTER_EOC_MAX) by (done || (unfold FAT32_CLUSTER_EOC_MAX; lia)).
      rewrite decide_True by done. done.
    + rewrite (fat_set_fat s1 s2 x p) by (auto || (unfold entry in Hp; lia)). by rewrite decide_True.
    + intros e He Hne. rewrite (fat_set_keep s1 s2 x p) by auto. apply (fat_set_keep s s1 p FAT32_CLUSTER_EOC_MAX); [done|auto|]. by intros ->.
  - intros e He Hne Hnp. rewrite (fat_set_keep s1 s2 x p) by done. by apply (fat_set_keep s s1 p FAT32_CLUSTER_EOC_MAX).
  - intros y Hy. destruct Hs as [_ Hs]. destruct Hs2 as [_ Hs2]. by rewrite Hs2, Hs.
Qed.
Lemma free_chain_run s c l : base s → chain (fat s) c l → ∀ fuel, (length l ≤ fuel)%nat →
  ∃ s', free_chain fuel c s = Some (tt, s') ∧ base s' ∧ (∀ e, entry e → fat s' e = if decide (e ∈ l) then 0 else fat s e) ∧
    ∀ y, data_start b * bps ≤ y → rd s' y = rd s y.
Proof.
  revert s c. induction l as [|x l IH]; intros s c B H1 [|fuel] Hf; cbn [length] in *; try lia; [inversion H1..|]. cbn [free_chain].
  pose proof (chain_nodup _ _ _ H1) as Hnd. apply NoDup_cons in Hnd as [Hcl _]. destruct (chain_entries _ _ _ H1) as [Hall Hh]. injection Hh as ->.
  rewrite Forall_forall in Hall. assert (entry c) as Hc by (apply Hall; by left). rewrite valid_entry by done. rewrite (bind_Some _ _ _ _ _ (get_run s c B Hc)).
  destruct (set_cluster_run s c FAT32_CLUSTER_FREE B Hc) as (s1 & W & B1 & Hs). rewrite (bind_Some _ _ _ _ _ W).
  change (Z.land FAT32_CLUSTER_FREE FAT32_CLUSTER_MASK) with 0 in Hs. inversion H1 as [c' _ He Ec El|c' l' _ He H2 Ec El]; subst.
  - destruct (Z.leb_spec FAT32_CLUSTER_EOC_MIN (fat s c)); [|lia]. exists s1. do 2 (split; [done|]). split; [|apply Hs]. intros e Hee.
    rewrite (fat_set_fat s s1 c 0) by (done || lia). destruct (decide (e = c)) as [->|Hne]; [by rewrite decide_True by by left|].
    rewrite decide_False; [done|]. by intros ?%list_elem_of_singleton.
  - destruct (Z.leb_spec FAT32_CLUSTER_EOC_MIN (fat s c)); [lia|].
    assert (chain (fat s1) (fat s c) l) as H3.
    { eapply fat_chain_ext; [|exact H2]. intros e Hee. apply (fat_set_keep s s1 c 0); [done|apply Hall; by right|]. by intros ->. }
    destruct (IH s1 (fat s c) B1 H3 fuel ltac:(lia)) as (s' & R & B' & Hf' & Hd). exists s'. split; [done|]. split; [done|]. split.
    + intros e Hee. rewrite Hf' by done. destruct (decide (e ∈ l)) as [Hel|Hel]; [by rewrite decide_True by by right|].
      rewrite (fat_set_fat s s1 c 0) by (done || lia). destruct (decide (e = c)) as [->|Hne]; [by rewrite decide_True by by left|].
      rewrite decide_False; [done|]. by intros [? | ?]%elem_of_cons.
    + intros y Hy. destruct Hs as [_ Hs]. by rewrite Hd, Hs.
Qed.

(** C35: the clusters of a chain.  Advancing [i] times from its start gives its
    i-th cluster, or the end mark; its length is counted right.  Appending to it
    takes a cluster that was free and makes it the last, or returns 0 with
    nothing changed when no cluster is free.  Freeing it frees its clusters and
    no other.  No step changes an entry outside the chain or a byte of data. *)
Theorem fat_chains_correct s c l : base s → chain (fat s) c l → (length l ≤ F)%nat →
  (∀ i, fat32_get_nth_cluster c i s = Some (default FAT32_CLUSTER_EOC_MAX (l !! i), s)) ∧
  chain_end F c s = Some ((Z.of_nat (length l), List.last l 0), s) ∧
  (∃ p s', fat32_append_cluster (List.last l 0) s = Some (p, s') ∧ base s' ∧
     ((p = 0 ∧ s' = s ∧ ∀ e, entry e → fat s e ≠ 0) ∨
      (entry p ∧ fat s p = 0 ∧ p ∉ l ∧ chain (fat s') c (l ++ [p]) ∧ (∀ e, entry e → e ≠ List.last l 0 → e ≠ p → fat s' e = fat s e) ∧
       ∀ y, data_start b * bps ≤ y → rd s' y = rd s y))) ∧
  (∃ s', fat32_free_cluster_chain F c s = Some (0, s') ∧ base s' ∧ (∀ e, entry e → fat s' e = if decide (e ∈ l) then 0 else fat s e) ∧
     ∀ y, data_start b * bps ≤ y → rd s' y = rd s y).
Proof.
  intros B H1 Hf. split; [intros i; by apply nth_run|]. split; [by apply chain_end_run|]. split.
  - eapply append_run; [done|exact H1|]. destruct l as [|x l]; [inversion H1|]. clear. revert x. induction l as [|y l IH]; intros x; [done|]. apply IH.
  - destruct (free_chain_run s c l B H1 F Hf) as (s' & R & Hr). exists s'. split; [|done]. unfold fat32_free_cluster_chain. by rewrite (bind_Some _ _ _ _ _ R).
Qed.

(** ** Clusters and the bytes of files *)
Definition cpos (c : Z) : Z := (data_start b + (c - 2) * spc) * bps.
Lemma cs_bounds : 512 ≤ cs ≤ 4096 * 255.
Proof. pose proof (g_bps G). pose proof (g_spc G). rewrite (g_cs G). nia. Qed.
Lemma cluster_sector c : entry c → fat32_cluster_to_sector b c = data_start b + (c - 2) * spc ∧ 0 ≤ data_start b + (c - 2) * spc ∧
  data_start b + (c - 2) * spc + spc ≤ data_start b + tot * spc.
Proof.
  intros Hc. destruct (entry_bounds c Hc) as [H28 _]. unfold entry in Hc. pose proof (g_data G) as [Hd Hd32]. pose proof (g_spc G) as Hs.
  pose proof (g_start G). pose proof (g_fats G). pose proof (g_spf G). assert (0 ≤ num_fats b * spf) by nia. unfold fat32_cluster_to_sector. rewrite (u32_small (c - 2)) by lia.
  assert (0 ≤ (c - 2) * spc ≤ 2 ^ 28 * 255) by nia. rewrite (u64_small ((c - 2) * spc)) by lia. rewrite u64_small by lia.
  split; [lia|]. split; [lia|]. assert ((c - 1) * spc ≤ tot * spc) by nia. lia.
Qed.
Lemma cpos_apart c c' : entry c → entry c' → c ≠ c' → cpos c + cs ≤ cpos c' ∨ cpos c' + cs ≤ cpos c.
Proof.
  intros Hc Hc' Hne. unfold entry, cpos in *. rewrite (g_cs G). pose proof (g_bps G). pose proof (g_spc G).
  destruct (Z.lt_trichotomy c c') as [Hlt | [? | Hlt]]; [left|done|right].
  - assert ((c + 1) * (spc * bps) ≤ c' * (spc * bps)) by (apply Z.mul_le_mono_nonneg_r; nia). lia.
  - assert ((c' + 1) * (spc * bps) ≤ c * (spc * bps)) by (apply Z.mul_le_mono_nonneg_r; nia). lia.
Qed.
Lemma cpos_data c : entry c → data_start b * bps ≤ cpos c.
Proof. intros Hc. unfold entry, cpos in *. pose proof (g_bps G). pose proof (g_spc G). assert (0 ≤ (c - 2) * spc * bps) by nia. lia. Qed.
Lemma read_cluster_run s c buf : base s → entry c → zlen buf = cs → read_cluster c buf s = Some (Some (bytes_at s (cpos c) cs), s).
Proof.
  intros B Hc Hl. pose proof (b_dev _ B) as Dv. destruct (cluster_sector c Hc) as (E & H0 & H1). pose proof (d_sec _ Dv). pose proof (g_spc G).
  unfold read_cluster. rewrite bind_gets, (d_sbi _ Dv), E. rewrite read_sectors_run by (done || lia || (rewrite Hl, (g_cs G); lia)).
  unfold cpos. rewrite (g_cs G). do 4 f_equal. lia.
Qed.
(** Bytes of the data area change; the FAT does not. *)
Definition data_only (s s' : fat32 D) : Prop := ∀ x, x < data_start b * bps → rd s' x = rd s x.
Lemma data_only_fat s s' j e : data_only s s' → 0 ≤ j < num_fats b → entry e → fat_at s' j e = fat_at s j e.
Proof.
  intros H1 Hj He. unfold fat_at. f_equal. apply bytes_at_ext. intros y Hy. apply H1. pose proof (fat_pos_below j e He Hj). lia.
Qed.
Lemma data_only_base s s' : base s → dev s' → fat_cache s' = fat_cache s → data_only s s' → base s' ∧ ∀ e, entry e → fat s' e = fat s e.
Proof.
  intros [Dv Hc] Dv' Ec Hd. pose proof (g_fats G). assert (∀ e, entry e → fat s' e = fat s e) as Hf by (intros e He; unfold fat; by rewrite (data_only_fat s s') by (done || lia)).
  split; [|done]. split; [done|]. rewrite Ec. destruct (fat_cache s) as [l|]; [|done]. destruct Hc as [Hl He]. split; [done|]. intros e Hee. by rewrite Hf, He.
Qed.
Lemma write_cluster_run s c buf : base s → entry c → zlen buf = cs →
  ∃ s', write_cluster c buf s = Some (true, s') ∧ base s' ∧ (∀ e, entry e → fat s' e = fat s e) ∧
    ∀ x, rd s' x = if decide (cpos c ≤ x < cpos c + cs) then nth (Z.to_nat (x - cpos c)) buf 0 else rd s x.
Proof.
  intros B Hc Hl. pose proof (b_dev _ B) as Dv. destruct (cluster_sector c Hc) as (E & H0 & H1). pose proof (d_sec _ Dv). pose proof (g_spc G).
  destruct (write_sectors_run s (data_start b + (c - 2) * spc) spc buf Dv) as (s' & W & D' & C' & _ & R'); [lia|lia|lia|rewrite Hl, (g_cs G); lia|].
  exists s'. unfold write_cluster. rewrite bind_gets, (d_sbi _ Dv), E. split; [done|]. fold (cpos c) in R'. rewrite Hl in R'.
  destruct (data_only_base s s' B D' C') as [B' Hf]; [|by split].
  intros x Hx. rewrite R', decide_False; [done|]. pose proof (cpos_data c Hc). lia.
Qed.

(** The byte at a position of a file with these clusters. *)
Definition fbyte (s : fat32 D) (l : list Z) (x : Z) : Z := rd s (cpos (nth (Z.to_nat (x / cs)) l 0) + x mod cs).
Lemma fat_position x n : 0 ≤ x < n * cs → 0 ≤ x / cs < n ∧ 0 ≤ x mod cs < cs ∧ x = cs * (x / cs) + x mod cs.
Proof.
  intros Hx. pose proof cs_bounds. split; [split; [apply Z.div_pos; lia|apply Z.div_lt_upper_bound; lia]|]. split; [apply Z.mod_pos_bound; lia|apply Z.div_mod; lia].
Qed.
Lemma same_cluster x y : 0 ≤ x → x ≤ y < x - x mod cs + cs → y / cs = x / cs ∧ y mod cs = x mod cs + (y - x).
Proof.
  intros Hx Hy. pose proof cs_bounds. pose proof (Z.div_mod x cs ltac:(lia)). pose proof (Z.mod_pos_bound x cs ltac:(lia)).
  assert (y / cs = x / cs) as E by (symmetry; apply (Z.div_unique _ _ _ (y - x + x mod cs)); lia). split; [done|].
  pose proof (Z.div_mod y cs ltac:(lia)) as Hy2. rewrite E in Hy2. lia.
Qed.

(** ** Reading *)
Definition content (s : fat32 D) (l : list Z) (o n : Z) : list Z := map (fbyte s l) (seqZ o n).
Lemma fat_length_content s l o n : 0 ≤ n → zlen (content s l o n) = n.
Proof. intros Hn. unfold content, zlen. rewrite length_map, length_seqZ. lia. Qed.
Lemma cluster_content s l x c : 0 ≤ x → 0 ≤ c → x mod cs + c ≤ cs →
  slice (bytes_at s (cpos (nth (Z.to_nat (x / cs)) l 0)) cs) (x mod cs) c = Some (content s l x c).
Proof.
  intros Hx Hc Hs. pose proof cs_bounds as Hcs. pose proof (Z.mod_pos_bound x cs ltac:(lia)).
  rewrite (slice_map _ _ _ x) by (unfold zlen; rewrite ?length_bytes_at; lia). f_equal. unfold content. apply map_ext_in.
  intros y Hy%list_elem_of_In%elem_of_seqZ. destruct (same_cluster x y Hx) as [E1 E2]; [lia|]. unfold fbyte. rewrite E1, E2.
  rewrite nth_bytes_at by lia. done.
Qed.
Lemma chain_nth_entry s c l i : chain (fat s) c l → (i < length l)%nat → entry (nth i l 0) ∧ l !! i = Some (nth i l 0).
Proof.
  intros H1 Hi. destruct (lookup_lt_is_Some_2 l i Hi) as [x E]. rewrite (nth_lookup_Some _ _ _ _ E). split; [|done].
  destruct (chain_entries _ _ _ H1) as [Hall _]. rewrite Forall_forall in Hall. apply Hall. by eapply list_elem_of_lookup_2.
Qed.
(** The cluster that holds a position. *)
Lemma target_run s c l x : base s → chain (fat s) c l → 0 ≤ x < Z.of_nat (length l) * cs → x < 2 ^ 40 →
  fat32_get_nth_cluster c (Z.to_nat (u32 (x / cs))) s = Some (nth (Z.to_nat (x / cs)) l 0, s) ∧ entry (nth (Z.to_nat (x / cs)) l 0) ∧
  (nth (Z.to_nat (x / cs)) l 0 =? FAT32_CLUSTER_EOC_MAX) = false.
Proof.
  intros B H1 Hx H32. destruct (fat_position x _ Hx) as (Hq & Hm & Hdm). pose proof cs_bounds.
  rewrite u32_small by (split; [apply Z.div_pos; lia|apply Z.div_lt_upper_bound; nia]). destruct (chain_nth_entry s c l (Z.to_nat (x / cs)) H1 ltac:(lia)) as [He El].
  rewrite (nth_run s c l _ B H1), El. split; [done|]. split; [done|]. apply entry_in_range, orb_false_iff in He as [_ He].
  apply Z.leb_gt in He. apply Z.eqb_neq. lia.
Qed.
Lemma fat_read_loop_run fuel s c l buf acc n o : base s → chain (fat s) c l → zlen buf = cs → 0 ≤ o → 0 ≤ n < Z.of_nat fuel →
  o + n ≤ Z.of_nat (length l) * cs → o + n < 2 ^ 32 → 
  read_loop fuel c buf acc n o s = Some ((inr (zlen acc + n), acc ++ content s l o n, o + n), s).
Proof.
  intros B H1. pose proof cs_bounds as Hcs. revert buf acc n o. induction fuel as [|fuel IH]; intros buf acc n o Hl Ho Hn Hend H32; [lia|]. cbn [read_loop].
  rewrite bind_gets, (d_sbi _ (b_dev _ B)). destruct (Z.eqb_spec n 0) as [->|].
  { unfold content. cbn. by rewrite app_nil_r, !Z.add_0_r. }
  destruct (fat_position o (Z.of_nat (length l)) ltac:(lia)) as (Hq & Hm & Hdm). destruct (target_run s c l o B H1 ltac:(lia) ltac:(lia)) as (T & He & Hne).
  rewrite (bind_Some _ _ _ _ _ T), Hne. rewrite (u32_small (o mod cs)), (u32_small (cs - o mod cs)) by lia.
  set (k := if n <? cs - o mod cs then n else cs - o mod cs).
  assert (0 < k ≤ n ∧ o mod cs + k ≤ cs) as Hk by (unfold k; destruct (Z.ltb_spec n (cs - o mod cs)); lia).
  rewrite (bind_Some _ _ _ _ _ (read_cluster_run s _ buf B He Hl)). cbv beta iota.
  rewrite (bind_fat_lift _ (content s l o k)) by (apply cluster_content; lia). rewrite u64_small by lia.
  rewrite IH by (lia || (unfold zlen; rewrite length_bytes_at; lia)). rewrite zlen_app, fat_length_content, <- app_assoc by lia. unfold content.
  rewrite <- map_seqZ_app by lia. replace (k + (n - k)) with n by lia. replace (zlen acc + k + (n - k)) with (zlen acc + n) by lia.
  by replace (o + k + (n - k)) with (o + n) by lia.
Qed.
Lemma transfer_read_run s c l fsize count o : base s → chain (fat s) c l → (length l ≤ F)%nat → 0 ≤ fsize < 2 ^ 32 → fsize ≤ Z.of_nat (length l) * cs →
  0 ≤ o < 2 ^ 63 → 0 ≤ count < 2 ^ 63 →
  let n := 0 `max` (count `min` (fsize - o)) in
  fat32_transfer_file F c fsize o (TRead count) s = Some ((n, content s l o n, None), s).
Proof.
  intros B H1 Hf Hfs Hsz Ho Hc n. unfold fat32_transfer_file. rewrite bind_gets, (d_sbi _ (b_dev _ B)).
  rewrite (bind_Some _ _ _ _ _ (chain_end_run s c l B H1 Hf)). cbn [fst]. destruct (Z.leb_spec fsize o).
  { assert (n = 0) as -> by lia. done. }
  rewrite (u64_small (o + count)), (u64_small (fsize - o)) by lia. set (k := if fsize <? o + count then fsize - o else count).
  assert (k = n) as Ek by (unfold k; destruct (Z.ltb_spec fsize (o + count)); lia). rewrite Ek.
  rewrite bind_kmalloc by apply (b_dev _ B). cbn [negb].
  assert (read_loop (S (Z.to_nat n)) c (zeros cs) [] n o s = Some ((inr (zlen [] + n), [] ++ content s l o n, o + n), s)) as R.
  { apply fat_read_loop_run; try done; try lia. pose proof cs_bounds. unfold zeros. rewrite zlen_replicate. lia. }
  rewrite (bind_Some _ _ _ _ _ R). cbv beta iota. done.
Qed.
Lemma fat_file_read_run s info l count o : base s → chain (fat s) (first_cluster info) l → (length l ≤ F)%nat → 0 ≤ file_size info < 2 ^ 32 →
  file_size info ≤ Z.of_nat (length l) * cs → 0 ≤ o < 2 ^ 63 → 0 ≤ count < 2 ^ 63 →
  let n := 0 `max` (count `min` (file_size info - o)) in
  fat32_file_read F info count o s = Some ((n, content s l o n, o + n), s).
Proof.
  intros B H1 Hf Hfs Hsz Ho Hc n. unfold fat32_file_read. rewrite u64_small by lia.
  rewrite (bind_Some _ _ _ _ _ (transfer_read_run s _ l _ count o B H1 Hf Hfs Hsz Ho Hc)). cbv beta iota. fold n.
  destruct (Z.ltb_spec 0 n); [done|]. assert (n = 0) as -> by lia. by rewrite Z.add_0_r.
Qed.

(** Fat32_file_read returns the bytes of the file from the offset on, as many
    as were asked for and as the file has, walking its chain from the start for
    each cluster; past the end it returns 0 and leaves the offset.  Nothing
    changes on the disk. *)
Theorem fat32_file_read_correct s info l count o : base s → chain (fat s) (first_cluster info) l → (length l ≤ F)%nat → 0 ≤ file_size info < 2 ^ 32 →
  file_size info ≤ Z.of_nat (length l) * cs → 0 ≤ o < 2 ^ 63 → 0 ≤ count < 2 ^ 63 →
  let n := 0 `max` (count `min` (file_size info - o)) in
  fat32_file_read F info count o s = Some ((n, content s l o n, o + n), s).
Proof. apply fat_file_read_run. Qed.

(** ** Writing *)
Lemma extend_run n s c l x : base s → chain (fat s) c l → last l = Some x →
  ∃ ok l2 s', extend n x s = Some (ok, s') ∧ base s' ∧ chain (fat s') c (l ++ l2) ∧ (∀ e, e ∈ l2 → fat s e = 0) ∧
    (∀ e, entry e → e ∉ l ++ l2 → fat s' e = fat s e) ∧ (∀ y, data_start b * bps ≤ y → rd s' y = rd s y) ∧
    if ok then length l2 = n else ∀ e, entry e → fat s' e ≠ 0.
Proof.
  revert s l x. induction n as [|n IH]; intros s l x B H1 Hx; cbn [extend].
  { exists true, [], s. rewrite app_nil_r. do 3 (split; [done|]). split; [by intros e ?%elem_of_nil|]. done. }
  destruct (append_run s c l x B H1 Hx) as (p & s1 & R & B1 & [(-> & -> & Hfull) | (Hp & H0 & Hpl & H2 & Hk & Hd)]); rewrite (bind_Some _ _ _ _ _ R).
  { exists false, [], s. rewrite app_nil_r. do 3 (split; [done|]). split; [by intros e ?%elem_of_nil|]. done. }
  destruct (Z.eqb_spec p 0); [unfold entry in Hp; lia|].
  destruct (IH s1 (l ++ [p]) p B1 H2 (last_snoc _ _)) as (ok & l2 & s' & R' & B' & H3 & Hz & Hk' & Hd' & Ho). exists ok, (p :: l2), s'.
  rewrite <- app_assoc in H3. cbn [app] in H3. split; [done|]. split; [done|]. split; [done|]. pose proof (chain_nodup _ _ _ H3) as Hnd.
  apply NoDup_app in Hnd as (_ & Hdis & Hnd). apply NoDup_cons in Hnd as [Hp2 _]. destruct (chain_entries _ _ _ H3) as [Hall _]. rewrite Forall_forall in Hall.
  pose proof (last_Some_elem_of _ _ Hx) as Hxl. split; [|split; [|split]].
  - intros e [-> | He]%elem_of_cons; [done|]. rewrite <- Hk; [by apply Hz|apply Hall, elem_of_app; right; by right| |].
    + intros ->. apply (Hdis x Hxl). by right.
    + by intros ->.
  - intros e He Hne. rewrite Hk', Hk; try done; [..|by rewrite <- app_assoc].
    + intros ->. apply Hne, elem_of_app. by left.
    + intros ->. apply Hne, elem_of_app. right. by left.
  - intros y Hy. by rewrite Hd', Hd.
  - destruct ok; [cbn; by rewrite Ho|done].
Qed.
(** Bytes [data] are stored at position [o] of a file, within a cluster. *)
Lemma fbyte_store s s' c l o data : chain (fat s) c l → 0 ≤ o < Z.of_nat (length l) * cs → o mod cs + zlen data ≤ cs →
  (let p := cpos (nth (Z.to_nat (o / cs)) l 0) + o mod cs in
   ∀ y, rd s' y = if decide (p ≤ y < p + zlen data) then nth (Z.to_nat (y - p)) data 0 else rd s y) →
  ∀ x, 0 ≤ x < Z.of_nat (length l) * cs → fbyte s' l x = if decide (o ≤ x < o + zlen data) then nth (Z.to_nat (x - o)) data 0 else fbyte s l x.
Proof.
  intros H1 Ho Hfit Hrd x Hx. cbv zeta in Hrd. destruct (fat_position x _ Hx) as (Hqx & Hmx & Ex). destruct (fat_position o _ Ho) as (Hqo & Hmo & Eo). unfold fbyte. rewrite Hrd.
  destruct (chain_nth_entry s c l (Z.to_nat (x / cs)) H1 ltac:(lia)) as [Hex Elx]. destruct (chain_nth_entry s c l (Z.to_nat (o / cs)) H1 ltac:(lia)) as [Heo Elo].
  pose proof cs_bounds. pose proof (chain_nodup _ _ _ H1) as Hnd. destruct (decide (x / cs = o / cs)) as [E|E].
  - rewrite E in Ex |- *. case_decide; case_decide; try lia. f_equal. lia.
  - assert (nth (Z.to_nat (x / cs)) l 0 ≠ nth (Z.to_nat (o / cs)) l 0) as Hne.
    { intros En. rewrite En in Elx. pose proof (NoDup_lookup _ _ _ _ Hnd Elx Elo). lia. }
    assert (x / cs < o / cs ∨ o / cs < x / cs) as [Hlt|Hlt] by lia.
    + assert (cs * (x / cs + 1) ≤ cs * (o / cs)) by (apply Z.mul_le_mono_nonneg_l; lia).
      rewrite !decide_False; [done|lia|]. destruct (cpos_apart _ _ Hex Heo Hne); lia.
    + assert (cs * (o / cs + 1) ≤ cs * (x / cs)) by (apply Z.mul_le_mono_nonneg_l; lia).
      rewrite !decide_False; [done|lia|]. destruct (cpos_apart _ _ Hex Heo Hne); lia.
Qed.
(** Bytes outside the clusters of a chain. *)
Definition outside (l : list Z) (y : Z) : Prop := ∀ c, c ∈ l → ¬ cpos c ≤ y < cpos c + cs.
(** One cluster is read, if need be, changed and written. *)
Lemma write_chunk_run s t buf off (data : list Z) : base s → entry t → zlen buf = cs → 0 ≤ off → off + zlen data ≤ cs →
  ∃ buf1 buf2 s', (if negb (off =? 0) || (zlen data <? cs) then read_cluster t buf else ret (Some buf)) s = Some (Some buf1, s) ∧
    patch buf1 off data = Some buf2 ∧ zlen buf2 = cs ∧ write_cluster t buf2 s = Some (true, s') ∧ base s' ∧ (∀ e, entry e → fat s' e = fat s e) ∧
    ∀ y, rd s' y = if decide (cpos t + off ≤ y < cpos t + off + zlen data) then nth (Z.to_nat (y - (cpos t + off))) data 0 else rd s y.
Proof.
  intros B Ht Hl Ho Hfit. pose proof cs_bounds.
  assert (∃ buf1, (if negb (off =? 0) || (zlen data <? cs) then read_cluster t buf else ret (Some buf)) s = Some (Some buf1, s) ∧ zlen buf1 = cs ∧
    ∀ i, 0 ≤ i < cs → ¬ off ≤ i < off + zlen data → nth (Z.to_nat i) buf1 0 = rd s (cpos t + i)) as (buf1 & E1 & L1 & N1).
  { destruct (Z.eqb_spec off 0) as [->|]; cbn [negb orb]; [destruct (Z.ltb_spec (zlen data) cs)|]; cbn [orb].
    1,3: exists (bytes_at s (cpos t) cs); (split; [by rewrite (read_cluster_run s t buf B Ht Hl)|]); (split; [unfold zlen; rewrite length_bytes_at; lia|]);
      intros i Hi _; by rewrite nth_bytes_at.
    exists buf. split; [done|]. split; [done|]. lia. }
  destruct (patch_run buf1 off data) as (buf2 & E2 & L2 & N2); [done|lia|]. assert (zlen buf2 = cs) as Lb by (unfold zlen in *; lia).
  destruct (write_cluster_run s t buf2 B Ht Lb) as (s' & W & B' & Hf & Hrd). exists buf1, buf2, s'. do 6 (split; [done|]). intros y. rewrite Hrd.
  destruct (decide (cpos t ≤ y < cpos t + cs)) as [Hin|Hin].
  - rewrite N2 by lia. case_decide; case_decide; try lia; [f_equal; lia|]. rewrite N1 by lia. f_equal. lia.
  - rewrite decide_False by lia. done.
Qed.
Lemma fat_write_loop_run fuel s c l buf data total o : base s → chain (fat s) c l → zlen buf = cs → 0 ≤ o → zlen data < Z.of_nat fuel →
  o + zlen data ≤ Z.of_nat (length l) * cs → o + zlen data < 2 ^ 40 →
  ∃ s', write_loop fuel c buf data total o s = Some ((inr (total + zlen data), o + zlen data), s') ∧ base s' ∧ (∀ e, entry e → fat s' e = fat s e) ∧
    (∀ x, 0 ≤ x < Z.of_nat (length l) * cs → fbyte s' l x = if decide (o ≤ x < o + zlen data) then nth (Z.to_nat (x - o)) data 0 else fbyte s l x) ∧
    ∀ y, outside l y → rd s' y = rd s y.
Proof.
  pose proof cs_bounds as Hcs. revert s buf data total o. induction fuel as [|fuel IH]; intros s buf data total o B H1 Hl Ho Hn Hend H32; [unfold zlen in Hn; lia|].
  cbn [write_loop]. rewrite bind_gets, (d_sbi _ (b_dev _ B)). destruct (Z.eqb_spec (zlen data) 0) as [E0|].
  { exists s. rewrite E0, !Z.add_0_r. do 3 (split; [done|]). split; [|done]. intros x Hx. rewrite decide_False by lia. done. }
  assert (0 < zlen data) as Hpos by (unfold zlen in *; lia).
  destruct (fat_position o (Z.of_nat (length l)) ltac:(lia)) as (Hq & Hm & Hdm). destruct (target_run s c l o B H1 ltac:(lia) ltac:(lia)) as (T & He & Hne).
  rewrite (bind_Some _ _ _ _ _ T), Hne. rewrite (u32_small (o mod cs)), (u32_small (cs - o mod cs)) by lia.
  set (k := if zlen data <? cs - o mod cs then zlen data else cs - o mod cs).
  assert (0 < k ≤ zlen data ∧ o mod cs + k ≤ cs) as Hk by (unfold k; destruct (Z.ltb_spec (zlen data) (cs - o mod cs)); lia). clearbody k.
  set (t := nth (Z.to_nat (o / cs)) l 0) in *. set (d1 := take (Z.to_nat k) data).
  assert (zlen d1 = k) as Ld1 by (unfold d1, zlen in *; rewrite length_take; lia).
  destruct (write_chunk_run s t buf (o mod cs) d1 B He Hl) as (buf1 & buf2 & s1 & E1 & E2 & L2 & W & B1 & Hf1 & Hrd1); [lia|lia|]. rewrite Ld1 in E1, Hrd1.
  rewrite (bind_Some _ _ _ _ _ E1). cbv beta iota. rewrite (bind_fat_lift _ buf2) by done. rewrite (bind_Some _ _ _ _ _ W). cbn [negb]. rewrite u64_small by lia.
  assert (chain (fat s1) c l) as H2.
  { eapply fat_chain_ext; [|exact H1]. intros e Hee. apply Hf1. destruct (chain_entries _ _ _ H1) as [Hall _]. rewrite Forall_forall in Hall. by apply Hall. }
  set (d2 := drop (Z.to_nat k) data) in *. assert (zlen d2 = zlen data - k) as Ld2 by (unfold d2, zlen in *; rewrite length_drop; lia).
  destruct (IH s1 buf2 d2 (total + k) (o + k) B1 H2 L2) as (s' & R & B' & Hf' & Hx' & Hy'); [lia..|]. exists s'. split; [|split; [done|split; [|split]]].
  - rewrite R. rewrite Ld2. by replace (total + k + (zlen data - k)) with (total + zlen data) by lia; replace (o + k + (zlen data - k)) with (o + zlen data) by lia.
  - intros e Hee. by rewrite Hf', Hf1.
  - intros x Hx. rewrite Hx' by done. rewrite Ld2. assert (fbyte s1 l x = if decide (o ≤ x < o + k) then nth (Z.to_nat (x - o)) d1 0 else fbyte s l x) as ->.
    { rewrite <- Ld1. apply (fbyte_store s s1 c); rewrite ?Ld1; try done; lia. }
    unfold d1, d2. case_decide; case_decide; try case_decide; try lia; try done.
    + rewrite nth_skipn. f_equal. lia.
    + rewrite nth_firstn. destruct (Nat.ltb_spec (Z.to_nat (x - o)) (Z.to_nat k)); [done|lia].
  - intros y Hy. rewrite Hy', Hrd1 by done. rewrite decide_False; [done|]. intros Hin. apply (Hy t); [|lia]. apply list_elem_of_In, nth_In. lia.
Qed.
Lemma fbyte_app s l l2 x : 0 ≤ x < Z.of_nat (length l) * cs → fbyte s (l ++ l2) x = fbyte s l x.
Proof. intros Hx. destruct (fat_position x _ Hx) as [Hq _]. unfold fbyte. by rewrite app_nth1 by lia. Qed.
Lemma fbyte_data s s' c l x : chain (fat s) c l → (∀ y, data_start b * bps ≤ y → rd s' y = rd s y) → 0 ≤ x < Z.of_nat (length l) * cs → fbyte s' l x = fbyte s l x.
Proof.
  intros H1 Hd Hx. unfold fbyte. destruct (fat_position x _ Hx) as (Hq & Hm & _). apply Hd.
  destruct (chain_nth_entry s c l (Z.to_nat (x / cs)) H1 ltac:(lia)) as [He _]. pose proof (cpos_data _ He). lia.
Qed.
Lemma last_eq (l : list Z) x : l ≠ [] → List.last l x = List.last l 0 ∧ last l = Some (List.last l 0).
Proof. intros Hne. destruct (exists_last Hne) as (k & y & ->). by rewrite !last_last, last_snoc. Qed.
Lemma transfer_write_run s c l fsize data o : base s → chain (fat s) c l → (length l ≤ F)%nat → 0 ≤ fsize < 2 ^ 32 → 0 ≤ o → o + zlen data < 2 ^ 40 →
  ∃ r ns l2 s', fat32_transfer_file F c fsize o (TWrite data) s = Some ((r, [], Some ns), s') ∧ base s' ∧ chain (fat s') c (l ++ l2) ∧
    (∀ e, e ∈ l2 → fat s e = 0) ∧ (∀ e, entry e → e ∉ l ++ l2 → fat s' e = fat s e) ∧
    (∀ y, data_start b * bps ≤ y → outside (l ++ l2) y → rd s' y = rd s y) ∧
    ((r = zlen data ∧ ns = (if fsize <? o + zlen data then u32 (o + zlen data) else fsize) ∧ o + zlen data ≤ Z.of_nat (length (l ++ l2)) * cs ∧
      ∀ x, 0 ≤ x < Z.of_nat (length (l ++ l2)) * cs →
        fbyte s' (l ++ l2) x = if decide (o ≤ x < o + zlen data) then nth (Z.to_nat (x - o)) data 0 else fbyte s (l ++ l2) x) ∨
     (r = 0 `max` (o - fsize) ∧ ns = fsize ∧ Z.of_nat (length l) * cs < o + zlen data ∧ (∀ e, entry e → fat s' e ≠ 0) ∧
      ∀ y, data_start b * bps ≤ y → rd s' y = rd s y)).
Proof.
  intros B H1 Hf Hfs Ho H32. pose proof cs_bounds as Hcs. pose proof (fat_chain_length _ _ _ H1) as Hlen. pose proof (g_tot G) as [_ Ht]. unfold FAT32_CLUSTER_EOC_MIN in Ht.
  assert (0 ≤ zlen data) as Hz by (unfold zlen; lia). assert (l ≠ []) as Hne by (intros ->; inversion H1). destruct (last_eq l 0 Hne) as [_ Hlast].
  unfold fat32_transfer_file. rewrite bind_gets, (d_sbi _ (b_dev _ B)). pose proof (chain_end_run s c l B H1 Hf) as Ec. rewrite (bind_Some _ _ _ _ _ Ec). cbn [fst].
  rewrite (u64_small (Z.of_nat (length l) * cs)), (u64_small (o + zlen data)), (u64_small (o + zlen data + cs)), (u64_small (o + zlen data + cs - 1)) by nia.
  set (needed := (o + zlen data + cs - 1) / cs).
  assert (0 ≤ needed ∧ o + zlen data ≤ needed * cs ∧ needed < 2 ^ 32) as (Hn0 & Hn1 & Hn2).
  { unfold needed. pose proof (Z.div_mod (o + zlen data + cs - 1) cs ltac:(lia)). pose proof (Z.mod_pos_bound (o + zlen data + cs - 1) cs ltac:(lia)).
    split; [apply Z.div_pos; lia|]. split; [lia|]. apply Z.div_lt_upper_bound; lia. }
  assert (∃ ok l2 s1, (if Z.of_nat (length l) * cs <? o + zlen data
      then x <- chain_end F c ;; extend (Z.to_nat (u32 needed - Z.of_nat (length l))) x.2 else ret true) s = Some (ok, s1) ∧ base s1 ∧
      chain (fat s1) c (l ++ l2) ∧ (∀ e, e ∈ l2 → fat s e = 0) ∧ (∀ e, entry e → e ∉ l ++ l2 → fat s1 e = fat s e) ∧
      (∀ y, data_start b * bps ≤ y → rd s1 y = rd s y) ∧
      if ok then o + zlen data ≤ Z.of_nat (length (l ++ l2)) * cs else Z.of_nat (length l) * cs < o + zlen data ∧ ∀ e, entry e → fat s1 e ≠ 0)
    as (ok & l2 & s1 & E1 & B1 & H2 & Hz2 & Hk2 & Hd2 & Hok).
  { destruct (Z.ltb_spec (Z.of_nat (length l) * cs) (o + zlen data)).
    - rewrite (bind_Some _ _ _ _ _ Ec). cbn [snd]. rewrite u32_small by lia.
      destruct (extend_run (Z.to_nat (needed - Z.of_nat (length l))) s c l (List.last l 0) B H1 Hlast) as (ok & l2 & s1 & E1 & B1 & H2 & Hz2 & Hk2 & Hd2 & Hok).
      exists ok, l2, s1. do 6 (split; [done|]). destruct ok; [|by split]. rewrite length_app, Hok.
      assert (needed ≤ Z.of_nat (length l + Z.to_nat (needed - Z.of_nat (length l)))) as Hle by lia. nia.
    - exists true, [], s. rewrite app_nil_r. do 3 (split; [done|]). split; [by intros e ?%elem_of_nil|]. do 2 (split; [done|]). lia. }
  rewrite (bind_Some _ _ _ _ _ E1). destruct ok; cbn [negb].
  - rewrite bind_kmalloc by apply (b_dev _ B1). cbn [negb].
    destruct (fat_write_loop_run (S (length data)) s1 c (l ++ l2) (zeros cs) data 0 o B1 H2) as (s' & R & B' & Hf' & Hx' & Hy');
      [unfold zeros; rewrite zlen_replicate; lia|done|unfold zlen; lia|done|done|]. rewrite (bind_Some _ _ _ _ _ R), Z.add_0_l. cbv beta iota.
    exists (zlen data), (if fsize <? o + zlen data then u32 (o + zlen data) else fsize), l2, s'. split; [done|]. split; [done|]. destruct (chain_entries _ _ _ H2) as [Hall _]. rewrite Forall_forall in Hall.
    split; [eapply fat_chain_ext; [|exact H2]; intros e He; by apply Hf', Hall|]. split; [done|]. split; [intros e He Hn; by rewrite Hf', Hk2|].
    split; [intros y Hy Hout; by rewrite Hy', Hd2|]. left. do 3 (split; [done|]). intros x Hx. rewrite Hx' by done. case_decide; [done|].
    unfold fbyte. destruct (fat_position x _ Hx) as (Hq & Hm & _). apply Hd2.
    assert (entry (nth (Z.to_nat (x / cs)) (l ++ l2) 0)) as He by (apply (chain_nth_entry s1 c); [done|lia]). pose proof (cpos_data _ He). lia.
  - destruct Hok as [Hbig Hfull]. exists (0 `max` (o - fsize)), fsize, l2, s1. split; [destruct (Z.ltb_spec fsize o); [by rewrite Z.max_r by lia|by rewrite Z.max_l by lia]|].
    do 4 (split; [done|]). split; [intros y Hy _; by apply Hd2|]. right. done.
Qed.
(** The entry of a file in its directory, if the code knows where it is: in a
    cluster that is in use and not the file's. *)
Definition listed (s : fat32 D) (info : fat32_inode_info) (l : list Z) : Prop :=
  valid (parent_cluster info) = true → entry (parent_cluster info) ∧ parent_cluster info ∉ l ∧ fat s (parent_cluster info) ≠ 0 ∧
    0 ≤ dir_entry_offset info ∧ dir_entry_offset info + 32 ≤ cs.
Definition size_pos (info : fat32_inode_info) : Z := cpos (parent_cluster info) + dir_entry_offset info + 28.
Lemma update_entry_run s info l v : base s → listed s info l → ∃ s', update_entry info v s = Some (tt, s') ∧ base s' ∧ (∀ e, entry e → fat s' e = fat s e) ∧
  ∀ y, rd s' y = if decide (valid (parent_cluster info) = true ∧ size_pos info ≤ y < size_pos info + 4) then nth (Z.to_nat (y - size_pos info)) (le_bytes 4 v) 0 else rd s y.
Proof.
  intros B Hp. pose proof cs_bounds. unfold update_entry. rewrite bind_gets, (d_sbi _ (b_dev _ B)). destruct (valid (parent_cluster info)) eqn:Ev.
  2: { exists s. do 3 (split; [done|]). intros y. by rewrite decide_False by naive_solver. }
  destruct (Hp Ev) as (He & _ & _ & Hd0 & Hd32). rewrite bind_kmalloc by apply (b_dev _ B). cbn [negb].
  assert (zlen (zeros cs) = cs) as Lz by (unfold zeros; rewrite zlen_replicate; lia). rewrite (bind_Some _ _ _ _ _ (read_cluster_run s _ _ B He Lz)). cbv beta iota.
  set (old := bytes_at s (cpos (parent_cluster info)) cs). assert (zlen old = cs) as Lo by (unfold old, zlen; rewrite length_bytes_at; lia).
  destruct (patch_run old (dir_entry_offset info + 28) (le_bytes 4 v)) as (new & E & Ln & Nn); [lia|rewrite zlen_le; lia|]. rewrite zlen_le in Nn.
  rewrite (bind_fat_lift _ new) by done. destruct (write_cluster_run s (parent_cluster info) new B He) as (s' & W & B' & Hf & Hrd); [unfold zlen in *; lia|].
  rewrite (bind_Some _ _ _ _ _ W). exists s'. do 3 (split; [done|]). intros y. rewrite Hrd. unfold size_pos. case_decide as Hin.
  - rewrite Nn by lia. case_decide; case_decide; try lia; [f_equal; lia|]. unfold old. rewrite nth_bytes_at by lia. f_equal. lia.
  - rewrite decide_False; [done|]. lia.
Qed.
Lemma content_eq s l o data : (∀ x, o ≤ x < o + zlen data → fbyte s l x = nth (Z.to_nat (x - o)) data 0) → content s l o (zlen data) = data.
Proof.
  intros Hx. unfold content. apply nth_ext with 0 0; rewrite length_map, length_seqZ; unfold zlen; [lia|]. intros i Hi.
  rewrite (nth_indep _ 0 (fbyte s l 0)) by (by rewrite length_map, length_seqZ). rewrite map_nth.
  assert (nth i (seqZ o (Z.of_nat (length data))) 0 = o + Z.of_nat i) as -> by (apply nth_lookup_Some, lookup_seqZ; lia).
  rewrite Hx by (unfold zlen; lia). f_equal. lia.
Qed.
(** What a write left of the disk: the chain [l] became [l ++ l2], new clusters
    were free, and outside of the file and the size in its entry nothing changed. *)
Record wrote (s s' : fat32 D) (info : fat32_inode_info) (l l2 : list Z) : Prop := {
  wr_base : base s';
  wr_chain : chain (fat s') (first_cluster info) (l ++ l2);
  wr_new : ∀ e, e ∈ l2 → fat s e = 0;
  wr_fat : ∀ e, entry e → e ∉ l ++ l2 → fat s' e = fat s e;
  wr_data : ∀ y, data_start b * bps ≤ y → outside (l ++ l2) y → ¬ (valid (parent_cluster info) = true ∧ size_pos info ≤ y < size_pos info + 4) → rd s' y = rd s y
}.
Lemma listed_new s s' info l l2 : listed s info l → chain (fat s') (first_cluster info) (l ++ l2) → (∀ e, e ∈ l2 → fat s e = 0) →
  (∀ e, entry e → e ∉ l ++ l2 → fat s' e = fat s e) → listed s' info (l ++ l2).
Proof.
  intros Hp H1 Hz Hk Hv. destruct (Hp Hv) as (He & Hl & Hf & Ho). split; [done|].
  assert (parent_cluster info ∉ l ++ l2) as Hn by (intros [?|Hx]%elem_of_app; [done|by apply Hf, Hz]). split; [done|]. by rewrite Hk.
Qed.
(** The bytes of a file are apart from its entry. *)
Lemma fbyte_entry s s' info l x : listed s info l → chain (fat s) (first_cluster info) l →
  (∀ y, ¬ (valid (parent_cluster info) = true ∧ size_pos info ≤ y < size_pos info + 4) → rd s' y = rd s y) →
  0 ≤ x < Z.of_nat (length l) * cs → fbyte s' l x = fbyte s l x.
Proof.
  intros Hp H1 Hrd Hx. destruct (fat_position x _ Hx) as (Hq & Hm & _). unfold fbyte. apply Hrd. intros [Hv Hin]. destruct (Hp Hv) as (He & Hl & _ & Ho & Ho32).
  destruct (chain_nth_entry s _ l (Z.to_nat (x / cs)) H1 ltac:(lia)) as [Hex Elx]. unfold size_pos in Hin.
  destruct (cpos_apart (parent_cluster info) (nth (Z.to_nat (x / cs)) l 0) He Hex); [|lia..]. intros E. apply Hl. rewrite E. by eapply list_elem_of_lookup_2.
Qed.
Lemma size_field s v info : (∀ y, size_pos info ≤ y < size_pos info + 4 → rd s y = nth (Z.to_nat (y - size_pos info)) (le_bytes 4 v) 0) → 0 ≤ v < 2 ^ 32 →
  le_value (bytes_at s (size_pos info) 4) = v.
Proof.
  intros Hy Hv. rewrite <- (le_value_bytes 4 v) by done. f_equal. apply nth_ext with 0 0; [by rewrite length_bytes_at, length_le_bytes|].
  intros i Hi. rewrite length_bytes_at in Hi. rewrite <- (Nat2Z.id i), nth_bytes_at by lia. rewrite Hy by lia. f_equal. lia.
Qed.

(** C34: fat32_file_write, on a mounted disk whose FAT covers its clusters
    ([geometry]), for a file that owns a chain of at least one cluster,
    whose size is within the chain and whose entry, when the code knows where it
    is, is in a cluster of another chain; memory is granted, the offset is not
    negative and the data, at least one byte, ends below 2^40.  Either every byte
    of the data is in the file at the offset, all other bytes of it are what they
    were (those of the clusters it gained are what was on the disk), and the size
    is the old one if the data ends within it and otherwise the end of the data
    modulo 2^32, also in the directory; when that end is below 2^32
    fat32_file_read returns the data.  Or the data did not fit, no cluster is free
    any more, no byte of the file changed, and the result is 0 or, for a write
    that began past the end of the file, the size of the gap.  In both cases only
    free clusters were taken and no other file changed. *)
Theorem fat32_write_read s info l data o : base s → chain (fat s) (first_cluster info) l → tot ≤ Z.of_nat F → 0 ≤ file_size info < 2 ^ 32 →
  file_size info ≤ Z.of_nat (length l) * cs → listed s info l → 0 ≤ o → o + zlen data < 2 ^ 40 → data ≠ [] →
  ∃ l2 r info' s', fat32_file_write F info data o s = Some ((r, info', if 0 <? r then o + r else o), s') ∧ wrote s s' info l l2 ∧
    ((r = zlen data ∧ info' = set_fsize (if file_size info <? o + r then u32 (o + r) else file_size info) info ∧
      (valid (parent_cluster info) = true → le_value (bytes_at s' (size_pos info) 4) = file_size info') ∧
      (∀ x, 0 ≤ x < Z.of_nat (length (l ++ l2)) * cs →
        fbyte s' (l ++ l2) x = if decide (o ≤ x < o + r) then nth (Z.to_nat (x - o)) data 0 else fbyte s (l ++ l2) x) ∧
      (o + r < 2 ^ 32 → fat32_file_read F info' r o s' = Some ((r, data, o + r), s'))) ∨
     (r = 0 `max` (o - file_size info) ∧ file_size info' = file_size info ∧ Z.of_nat (length l) * cs < o + zlen data ∧
      (∀ e, entry e → fat s' e ≠ 0) ∧ ∀ x, 0 ≤ x < Z.of_nat (length l) * cs → fbyte s' l x = fbyte s l x)).
Proof.
  intros B H1 HF Hfs Hsz Hp Ho H32 Hne. pose proof (fat_chain_length _ _ _ H1) as Hlen. assert (0 < zlen data) as Hz by (destruct data; [done|rewrite zlen_cons; unfold zlen; lia]).
  unfold fat32_file_write. rewrite u64_small by lia.
  destruct (transfer_write_run s _ l (file_size info) data o B H1 ltac:(lia) Hfs Ho H32) as (r & ns & l2 & s1 & E & B1 & H2 & Hz2 & Hk2 & Hd2 & Hcase).
  rewrite (bind_Some _ _ _ _ _ E). cbv beta iota. cbn [default]. pose proof (listed_new _ _ _ _ _ Hp H2 Hz2 Hk2) as Hp2.
  destruct (chain_entries _ _ _ H2) as [Hall _]. rewrite Forall_forall in Hall.
  assert (∀ s2, base s2 → (∀ e, entry e → fat s2 e = fat s1 e) →
    (∀ y, ¬ (valid (parent_cluster info) = true ∧ size_pos info ≤ y < size_pos info + 4) → rd s2 y = rd s1 y) → wrote s s2 info l l2) as Hwrote.
  { intros s2 B2 Hf2 Hr2. split; [done| |done| |].
    - eapply fat_chain_ext; [|exact H2]. intros e He. by apply Hf2, Hall.
    - intros e He Hn. by rewrite Hf2, Hk2.
    - intros y Hy Hout Hnot. by rewrite Hr2, Hd2. }
  destruct (update_entry_run s1 (set_fsize ns info) (l ++ l2) ns B1 Hp2) as (s2 & U & B2 & Hf2 & Hr2).
  assert (wrote s s2 info l l2) as Hw2 by (apply Hwrote; [done|done|]; intros y Hy; by rewrite Hr2, decide_False).
  assert (∀ x, 0 ≤ x < Z.of_nat (length (l ++ l2)) * cs → fbyte s2 (l ++ l2) x = fbyte s1 (l ++ l2) x) as Hfb
    by (intros x Hx; apply (fbyte_entry s1 s2 info); [done|done| |done]; intros y Hy; by rewrite Hr2, decide_False).
  destruct Hcase as [(-> & -> & Hfit & Hx) | (-> & -> & Hbig & Hfull & Hd)].
  - set (ns := if file_size info <? o + zlen data then u32 (o + zlen data) else file_size info) in *.
    assert (0 ≤ ns < 2 ^ 32) as Hns by (unfold ns, u32; destruct (_ <? _); [apply Z.mod_pos_bound; lia|done]).
    exists l2, (zlen data), (set_fsize ns info), s2. destruct (Z.ltb_spec 0 (zlen data)); [|lia].
    split; [by rewrite (bind_Some _ _ _ _ _ U)|]. split; [done|]. left. split; [done|]. split; [done|]. split; [|split].
    + intros Hv. apply size_field; [|cbn; lia]. intros y Hy. by rewrite Hr2, decide_True.
    + intros x Hxl. by rewrite Hfb, Hx.
    + intros H4G. assert (ns = file_size info `max` (o + zlen data)) as Ens
        by (unfold ns; rewrite u32_small by lia; destruct (Z.ltb_spec (file_size info) (o + zlen data)); lia).
      rewrite Ens in *. rewrite (fat_file_read_run s2 _ (l ++ l2)); cbn [first_cluster file_size set_fsize]; try done; try lia.
      * replace (0 `max` (zlen data `min` (file_size info `max` (o + zlen data) - o))) with (zlen data) by lia. do 4 f_equal.
        apply content_eq. intros x Hxo. by rewrite Hfb, Hx, decide_True by lia.
      * apply (wr_chain _ _ _ _ _ Hw2).
      * pose proof (fat_chain_length _ _ _ H2). lia.
      * rewrite length_app in *. pose proof cs_bounds. nia.
  - destruct (Z.ltb_spec 0 (0 `max` (o - file_size info))).
    + exists l2, (0 `max` (o - file_size info)), (set_fsize (file_size info) info), s2. split; [rewrite (bind_Some _ _ _ _ _ U); destruct (Z.ltb_spec 0 (0 `max` (o - file_size info))); [done|lia]|].
      split; [done|]. right. do 3 (split; [done|]). split; [intros e He; rewrite Hf2; auto|]. intros x Hx.
      assert (0 ≤ x < Z.of_nat (length (l ++ l2)) * cs) as Hx2 by (rewrite length_app; pose proof cs_bounds; nia). rewrite <- (fbyte_app s2 l l2), Hfb by done.
      rewrite fbyte_app by done. by apply (fbyte_data s s1 (first_cluster info)).
    + exists l2, (0 `max` (o - file_size info)), info, s1. split; [destruct (Z.ltb_spec 0 (0 `max` (o - file_size info))); [lia|done]|].
      split; [apply Hwrote; [done..|intros y _; done]|]. right. do 4 (split; [done|]). intros x Hx. by apply (fbyte_data s s1 (first_cluster info)).
Qed.
End laws.

(** ** A small disk

    23 sectors of 512 bytes, one a cluster: the boot sector, two FATs of one
    sector, the root directory in cluster 2 and a file of 600 bytes, named A, in
    the clusters 3 and 5. *)
Definition fat_boot : list Z :=
  replicate 11 0 ++ le_bytes 2 512 ++ [1] ++ le_bytes 2 1 ++ [2] ++ le_bytes 2 0 ++ le_bytes 2 23 ++ replicate 15 0 ++ le_bytes 4 1 ++ le_bytes 4 0 ++
    le_bytes 4 2.
Definition fat_words : list Z := [0x0FFFFFF8; 0x0FFFFFFF; 0x0FFFFFFF; 5; 0; 0x0FFFFFFF].
Definition fat_img (dir : list Z) (words : list Z) : gmap Z Z :=
  store (store (store (store (store (store ∅ 0 fat_boot) 510 [0x55; 0xAA]) 512 (flat_map (le_bytes 4) words)) 1024 (flat_map (le_bytes 4) words)) 1536 dir)
    2048 (replicate 512 7).
Definition fat_file_name : list Z := 65 :: replicate 10 SP.
Definition fat_disk0 : ramdisk_priv := mk_rd (fat_img (short_entry fat_file_name ATTR_ARCHIVE 3 600) fat_words) (23 * 512).
Definition fat_sb0 : fat32_sb_info := mk_fsb 512 1 1 2 1 2 1 3 512 20.
Definition fat_fs0 : fat32 ramdisk_priv := mk_fat32 fat_disk0 fat_sb0 (Some (fat_words ++ replicate 122 0)) [].
Definition fat_file0 : fat32_inode_info := mk_fnode 3 600 ATTR_ARCHIVE false 2 0 [65] 600.
Example fat_mount0 : fat32_mount 20 fat_disk0 [] = Some (Some (fat_fs0, mk_fnode 2 512 ATTR_DIRECTORY true 0 0 [47] 512)).
Proof. vm_compute. reflexivity. Qed.
Example fat_lookup0 : fat32_dir_lookup 20 (mk_fnode 2 512 ATTR_DIRECTORY true 0 0 [47] 512) [65] fat_fs0 = Some ((0, Some fat_file0), fat_fs0).
Proof. vm_compute. reflexivity. Qed.

Lemma fat_geometry0 : geometry fat_sb0.
Proof. constructor; vm_compute; done. Qed.
Lemma fat_entry0 : ∀ e, entry fat_sb0 e → Z.land (nth (Z.to_nat e) (fat_words ++ replicate 122 0) 0) FAT32_CLUSTER_MASK = fat fat_sb0 fat_fs0 e.
Proof.
  intros e He. assert (forallb (λ e, Z.land (nth (Z.to_nat e) (fat_words ++ replicate 122 0) 0) FAT32_CLUSTER_MASK =? fat fat_sb0 fat_fs0 e) (seqZ 2 20) = true) as Hf
    by (vm_compute; reflexivity).
  apply Z.eqb_eq. rewrite forallb_forall in Hf. apply (Hf e). apply list_elem_of_In, elem_of_seqZ. unfold entry in He. cbn in He. lia.
Qed.
Lemma fat_base0 : base fat_sb0 fat_fs0.
Proof. constructor; [constructor; vm_compute; done|]. split; [vm_compute; done|]. exact fat_entry0. Qed.
Lemma fat_chain0 : chain fat_sb0 (fat fat_sb0 fat_fs0) 3 [3; 5].
Proof.
  assert (fat fat_sb0 fat_fs0 3 = 5) as E3 by (vm_compute; reflexivity). assert (fat fat_sb0 fat_fs0 5 = FAT32_CLUSTER_EOC_MAX) as E5 by (vm_compute; reflexivity).
  apply chain_next; [unfold entry; cbn; lia|rewrite E3; vm_compute; done|]. rewrite E3. apply chain_last; [unfold entry; cbn; lia|rewrite E5; vm_compute; done].
Qed.
Lemma fat_listed0 : listed fat_sb0 fat_fs0 fat_file0 [3; 5].
Proof.
  intros _. assert (fat fat_sb0 fat_fs0 2 ≠ 0) as E by (vm_compute; done). split; [unfold entry; cbn; lia|].
  split; [cbn; rewrite !elem_of_cons, elem_of_nil; lia|]. split; [exact E|cbn; lia].
Qed.

Lemma long_names_lost_witness :
  match_entry (removelast (name_entries (replicate 14 97) ATTR_ARCHIVE 9 0)) (short_entry (short_name_for (replicate 14 97)) ATTR_ARCHIVE 9 0) (replicate 14 97) = Some false.
Proof.
  apply (long_names_lost (replicate 14 97) ATTR_ARCHIVE 9 0); [|done|done|vm_compute; reflexivity|done]. repeat constructor; lia.
Defined.
Lemma fat_chains_correct_witness :
  ∃ s', fat32_free_cluster_chain 20 3 fat_fs0 = Some (0, s') ∧ base fat_sb0 s' ∧
    (∀ e, entry fat_sb0 e → fat fat_sb0 s' e = if decide (e ∈ [3; 5]) then 0 else fat fat_sb0 fat_fs0 e) ∧
    ∀ y, data_start fat_sb0 * bytes_per_sector fat_sb0 ≤ y → rd s' y = rd fat_fs0 y.
Proof. apply (fat_chains_correct 20 fat_sb0 fat_geometry0 fat_fs0 3 [3; 5] fat_base0 fat_chain0). cbn. lia. Defined.
Lemma fat32_file_read_correct_witness :
  fat32_file_read 20 fat_file0 100 550 fat_fs0 = Some ((50, content fat_sb0 fat_fs0 [3; 5] 550 50, 600), fat_fs0).
Proof. apply (fat32_file_read_correct 20 fat_sb0 fat_geometry0 fat_fs0 fat_file0 [3; 5] 100 550 fat_base0 fat_chain0); cbn; lia. Defined.
Lemma fat32_write_read_witness : ∃ l2 r info' s',
  fat32_file_write 20 fat_file0 (replicate 40 1) 1000 fat_fs0 = Some ((r, info', if 0 <? r then 1000 + r else 1000), s') ∧
  wrote fat_sb0 fat_fs0 s' fat_file0 [3; 5] l2.
Proof.
  destruct (fat32_write_read 20 fat_sb0 fat_geometry0 fat_fs0 fat_file0 [3; 5] (replicate 40 1) 1000 fat_base0 fat_chain0) as (l2 & r & info' & s' & E & W & _);
    [cbn; lia..|exact fat_listed0|lia|vm_compute; done|done|]. exists l2, r, info', s'. by split.
Defined.

(** What a lookup of a name in the root returns. *)
Definition looked_up (name : list Z) : FM Z := r <- fat32_dir_lookup 20 (mk_fnode 2 512 ATTR_DIRECTORY true 0 0 [47] 512) name ;; ret r.1.
(** A name of seventeen characters needs three entries.  The search for a slot
    finds the place of a deleted file, two entries wide, and the third goes over
    the long-name entry of the next file, which is not found any more. *)
Theorem create_overwrites_neighbour :
  let root := mk_fnode 2 512 ATTR_DIRECTORY true 0 0 [47] 512 in
  ∃ s, (a <- fat32_dir_create 20 root [97] ;; b <- fat32_dir_create 20 root [98] ;; before <- looked_up [98] ;;
        u <- fat32_dir_unlink 20 root [97] ;; c <- fat32_dir_create 20 root (replicate 17 99) ;; after <- looked_up [98] ;;
        ret (a, b, before, u, c, after)) fat_fs0 = Some ((0, 0, 0, 0, 0, - ENOENT), s).
Proof. eexists. vm_compute. reflexivity. Qed.

(** An empty file, as other systems store it, has no chain: its first cluster is
    0.  A write to it takes a cluster that no chain holds then, reads from the
    place of cluster 0, which is not on the disk, and reports -EIO although more
    clusters are free; nothing points to the cluster it took. *)
Definition empty_file : fat32_inode_info := mk_fnode 0 0 ATTR_ARCHIVE false 2 0 [65] 0.
Definition fat_fs1 : fat32 ramdisk_priv :=
  mk_fat32 (mk_rd (fat_img (short_entry fat_file_name ATTR_ARCHIVE 0 0) fat_words) (23 * 512)) fat_sb0 (Some (fat_words ++ replicate 122 0)) [].
Theorem empty_file_unwritable :
  fat32_dir_lookup 20 (mk_fnode 2 512 ATTR_DIRECTORY true 0 0 [47] 512) [65] fat_fs1 = Some ((0, Some empty_file), fat_fs1) ∧
  ∃ s, fat32_file_write 20 empty_file [1] 0 fat_fs1 = Some ((- EIO, empty_file, 0), s) ∧
    fat fat_sb0 fat_fs1 4 = 0 ∧ fat fat_sb0 s 4 = FAT32_CLUSTER_EOC_MAX ∧ fat fat_sb0 s 6 = 0.
Proof. split; [vm_compute; reflexivity|]. eexists. split; [vm_compute; reflexivity|]. split; [|split]; vm_compute; reflexivity. Qed.
