(* ===== verification/Fsck.v ===== *)
(** * kernel/fsck.c: the consistency checker of ext2 file systems.

    The state is the device, the answers of [kmalloc] and the counters of
    [struct fsck_stats].  On-disk structures are their bytes, and an access outside
    a buffer, a division by zero or a shift out of range has no outcome.  What a
    fresh buffer or an uninitialised variable holds is the parameter [junk]; a
    read that fails leaves its buffer alone.  The second half states what a run
    finds on a file system whose tables lie on the device, and what it repairs. *)
From S2P Require Import Prelude Bytes BlockDev.
Local Open Scope Z_scope.
Local Open Scope kernel_scope.

Definition FSCK_OK : Z := 0.
Definition FSCK_WARN : Z := 1.
Definition FSCK_ERROR : Z := 2.
Definition FSCK_FATAL : Z := 3.
Definition FSCK_FLAG_FIX : Z := 1.
Definition fixing (flags : Z) : bool := negb (Z.land flags FSCK_FLAG_FIX =? 0).
Definition EXT2_SUPER_MAGIC : Z := 0xEF53.
Definition EXT2_VALID_FS : Z := 1.
Definition EXT2_ERROR_FS : Z := 2.
Definition EXT2_NDIR_BLOCKS : Z := 12.
Definition EXT2_S_IFDIR : Z := 0x4000.
Definition SIZE_MAX : Z := 2 ^ 64 - 1.

(** [struct fsck_stats]: a 32-bit counter for each of its members. *)
Inductive counter :=
  superblock_checked | superblock_errors | superblock_fixed | groups_checked | groups_errors | groups_fixed |
  inodes_checked | inodes_errors | inodes_fixed | blocks_checked | blocks_errors | blocks_fixed |
  dirs_checked | dirs_errors | dirs_fixed | orphans_found | orphans_cleared.
#[export] Instance counter_eq_dec : EqDecision counter.
Proof. solve_decision. Defined.
Definition fsck_stats : Type := counter → Z.

(** The members of [struct ext2_superblock] that are used. *)
Definition sb_field (sb : list Z) (o n : nat) : Z := le_value (take n (drop o sb)).
Definition s_inodes_count (sb : list Z) : Z := sb_field sb 0 4.
Definition s_blocks_count (sb : list Z) : Z := sb_field sb 4 4.
Definition s_first_data_block (sb : list Z) : Z := sb_field sb 20 4.
Definition s_log_block_size (sb : list Z) : Z := sb_field sb 24 4.
Definition s_blocks_per_group (sb : list Z) : Z := sb_field sb 32 4.
Definition s_inodes_per_group (sb : list Z) : Z := sb_field sb 40 4.
Definition s_magic (sb : list Z) : Z := sb_field sb 56 2.
Definition s_state (sb : list Z) : Z := sb_field sb 58 2.
Definition s_inode_size (sb : list Z) : Z := sb_field sb 88 2.

Record fsck (D : Type) := mk_fsck { fdev : D; fmem : list bool; fstats : fsck_stats }.
Arguments mk_fsck {D}. Arguments fdev {D}. Arguments fmem {D}. Arguments fstats {D}.

Section fsck.
Context `{BlockDevice D} (junk : list Z).
Definition FM := ST (fsck D).
Definition kmalloc : FM bool :=
  λ s, match fmem s with [] => Some (true, s) | b :: l => Some (b, mk_fsck (fdev s) l (fstats s)) end.
Definition lift {A} (o : option A) : FM A := λ s, match o with Some a => Some (a, s) | None => None end.
(** [stats->c++]. *)
Definition count (c : counter) : FM unit :=
  modify (λ s, mk_fsck (fdev s) (fmem s) (λ c', if decide (c' = c) then u32 (fstats s c + 1) else fstats s c')).
Definition fresh (n : Z) : list Z := take (Z.to_nat n) (junk ++ replicate (Z.to_nat n) 0).

(** ** Blocks *)
Definition read_into (buf : list Z) (o sector n : Z) : FM (option (list Z)) :=
  d <- gets fdev ;;
  match block_dev_read d sector n with
  | None => ret None
  | Some data => b <- lift (patch buf o data) ;; ret (Some b)
  end.
(** Writing from a buffer that is too short is an access outside of it. *)
Definition write_from (buf : list Z) (sector n : Z) : FM bool :=
  d <- gets fdev ;;
  let size := n * bd_block_size d in
  match block_dev_write d (take (Z.to_nat size) (buf ++ replicate (Z.to_nat size) 0)) sector n with
  | None => ret false
  | Some d' => if zlen buf <? size then fail else modify (λ s, mk_fsck d' (fmem s) (fstats s)) ;;; ret true
  end.
Definition read_fs_block (bs block_num : Z) (buf : list Z) (o : Z) : FM (option (list Z)) :=
  d <- gets fdev ;;
  let spb := bs / bd_block_size d in read_into buf o (u64 (block_num * spb)) spb.
Definition write_fs_block (bs block_num : Z) (buf : list Z) : FM bool :=
  d <- gets fdev ;;
  let spb := bs / bd_block_size d in write_from buf (u64 (block_num * spb)) spb.

(** ** The superblock and its copies *)

(** [1024 << log] as an int. *)
Definition block_size_of (log : Z) : option Z := if 21 <=? log then None else Some (Z.shiftl 1024 log).
Definition fsck_read_superblock (group_num : Z) : FM (option (list Z)) :=
  r <- read_into (fresh 1024) 0 2 2 ;;
  match r with
  | None => ret None
  | Some raw_sb =>
      raw <- (if group_num =? 0 then ret (Some raw_sb) else
        if negb (s_magic raw_sb =? EXT2_SUPER_MAGIC) then ret None else
        bs <- lift (block_size_of (s_log_block_size raw_sb)) ;;
        d <- gets fdev ;;
        let spb := bs / bd_block_size d in
        read_into raw_sb 0 (u64 (u64 (group_num * s_blocks_per_group raw_sb) * spb + 2)) 2) ;;
      ret (match raw with Some raw_sb => if s_magic raw_sb =? EXT2_SUPER_MAGIC then Some raw_sb else None | None => None end)
  end.
Fixpoint restore_from (groups : list Z) : FM bool :=
  match groups with
  | [] => ret false
  | g :: groups =>
      r <- fsck_read_superblock g ;;
      match r with
      | None => restore_from groups
      | Some backup_sb =>
          if s_magic backup_sb =? EXT2_SUPER_MAGIC then
            ok <- write_from backup_sb 2 2 ;; if (ok : bool) then ret true else restore_from groups
          else restore_from groups
      end
  end.
Definition fsck_restore_superblock : FM bool := restore_from [1; 3; 5; 7].
Definition fsck_quick_check : FM Z :=
  r <- read_into (fresh 1024) 0 2 2 ;;
  ret (match r with None => -1 | Some raw_sb => if s_magic raw_sb =? EXT2_SUPER_MAGIC then 0 else -1 end).

(** A failed check is [None]; otherwise the superblock and the block size the
    caller goes on with, which after a restored superblock are the values its
    variables had before. *)
Definition restored (fix_ : bool) : FM (option (list Z * Z)) :=
  count superblock_errors ;;;
  if negb fix_ then ret None else
  ok <- fsck_restore_superblock ;;
  if negb ok then ret None else
  count superblock_fixed ;;;
  r <- read_into (fresh 1024) 0 2 2 ;;
  ret (match r with None => None | Some _ => Some (fresh 1024, 1024) end).
Definition bad_superblock : FM (option (list Z * Z)) := count superblock_errors ;;; ret None.
Definition check_superblock (flags : Z) : FM (option (list Z * Z)) :=
  let fix_ := fixing flags in
  count superblock_checked ;;;
  r <- read_into (fresh 1024) 0 2 2 ;;
  match r with
  | None => restored fix_
  | Some sb =>
      if negb (s_magic sb =? EXT2_SUPER_MAGIC) then restored fix_ else
      bs <- lift (block_size_of (s_log_block_size sb)) ;;
      if (bs <? 1024) || (4096 <? bs) then bad_superblock else
      if (s_blocks_count sb =? 0) || (s_inodes_count sb =? 0) then bad_superblock else
      if (s_blocks_per_group sb =? 0) || (s_inodes_per_group sb =? 0) then bad_superblock else
      let place := u32 (s_first_data_block sb + 1) in
      sb <- (if negb (s_state sb =? EXT2_VALID_FS) && negb (s_state sb =? EXT2_ERROR_FS) && fix_ then
               sb <- lift (set_field sb 58 2 EXT2_VALID_FS) ;;
               ok <- write_fs_block bs place sb ;;
               (if (ok : bool) then count superblock_fixed else ret tt) ;;; ret sb
             else ret sb) ;;
      sb <- (if (s_state sb =? EXT2_ERROR_FS) && fix_ then
               sb <- lift (set_field sb 58 2 EXT2_VALID_FS) ;;
               write_fs_block bs place sb ;;; count superblock_fixed ;;; ret sb
             else ret sb) ;;
      ret (Some (sb, bs))
  end.

(** ** Group descriptors and bitmaps *)

(** The number of groups and of the blocks of their table. *)
Definition num_groups (sb : list Z) : option Z :=
  if s_blocks_per_group sb =? 0 then None else
  Some (u32 (u32 (s_blocks_count sb + s_blocks_per_group sb) - 1) / s_blocks_per_group sb).
Definition gd_blocks (bs groups : Z) : Z := let gd_per_block := bs / 32 in u32 (u32 (groups + gd_per_block) - 1) / gd_per_block.
(** The blocks of the table from the [i]th on: whether all were read, with
    [strict] the end at the first that was not. *)
Fixpoint read_gd (n : nat) (strict : bool) (bs gd_start i : Z) (gd_buf : list Z) : FM (option (list Z)) :=
  match n with
  | O => ret (Some gd_buf)
  | S n =>
      r <- read_fs_block bs (u32 (gd_start + i)) gd_buf (u32 (i * bs)) ;;
      match r with
      | None => if strict then ret None else read_gd n strict bs gd_start (i + 1) gd_buf
      | Some gd_buf => read_gd n strict bs gd_start (i + 1) gd_buf
      end
  end.
Definition check_location (sb gd_buf : list Z) (o : Z) : FM unit :=
  b <- lift (field_at gd_buf o 4) ;;
  if (b =? 0) || (s_blocks_count sb <=? b) then count groups_errors else ret tt.
Definition check_group (sb gd_buf : list Z) (g : Z) : FM unit :=
  count groups_checked ;;;
  let gd := u32 (g * 32) in
  check_location sb gd_buf gd ;;; check_location sb gd_buf (gd + 4) ;;; check_location sb gd_buf (gd + 8).
Definition check_group_descriptors (sb : list Z) (bs : Z) : FM Z :=
  groups <- lift (num_groups sb) ;;
  let n := gd_blocks bs groups in
  if SIZE_MAX / bs <? n then ret (-1) else
  ok <- kmalloc ;;
  if negb ok then ret (-1) else
  r <- read_gd (Z.to_nat n) true bs (u32 (s_first_data_block sb + 1 + 1)) 0 (fresh (u32 (n * bs))) ;;
  match r with
  | None => ret (-1)
  | Some gd_buf => for_range (Z.to_nat groups) 0 (check_group sb gd_buf) ;;; ret 0
  end.

(** The number of clear bits among [n] from the [i]th on. *)
Fixpoint count_free (n : nat) (i free_count : Z) (bitmap_buf : list Z) : option Z :=
  match n with
  | O => Some free_count
  | S n =>
      x ← at_ bitmap_buf (i / 8);
      count_free n (i + 1) (if Z.testbit x (i mod 8) then free_count else u32 (free_count + 1)) bitmap_buf
  end.
(** One of the two bitmaps of a group, of [n] bits; the buffer after the read. *)
Definition check_bitmap (bs place n free : Z) (errors : counter) (bitmap_buf : list Z) : FM (list Z) :=
  r <- read_fs_block bs place bitmap_buf 0 ;;
  match r with
  | None => ret bitmap_buf
  | Some bitmap_buf =>
      free_count <- lift (count_free (Z.to_nat n) 0 0 bitmap_buf) ;;
      (if free_count =? free then ret tt else count errors) ;;; ret bitmap_buf
  end.
(** The members of group [g] of [groups], which have [total] together. *)
Definition in_group (groups g total per_group : Z) : Z := if g =? groups - 1 then u32 (total - u32 (g * per_group)) else per_group.
Fixpoint check_group_bitmaps (n : nat) (g : Z) (sb : list Z) (bs groups : Z) (gd_buf bitmap_buf : list Z) : FM unit :=
  match n with
  | O => ret tt
  | S n =>
      let gd := u32 (g * 32) in
      count blocks_checked ;;;
      place <- lift (field_at gd_buf gd 4) ;; free <- lift (field_at gd_buf (gd + 12) 2) ;;
      bitmap_buf <- check_bitmap bs place (in_group groups g (s_blocks_count sb) (s_blocks_per_group sb)) free blocks_errors bitmap_buf ;;
      count inodes_checked ;;;
      place <- lift (field_at gd_buf (gd + 4) 4) ;; free <- lift (field_at gd_buf (gd + 14) 2) ;;
      bitmap_buf <- check_bitmap bs place (in_group groups g (s_inodes_count sb) (s_inodes_per_group sb)) free inodes_errors bitmap_buf ;;
      check_group_bitmaps n (g + 1) sb bs groups gd_buf bitmap_buf
  end.
Definition check_bitmaps (sb : list Z) (bs : Z) : FM Z :=
  groups <- lift (num_groups sb) ;;
  let n := gd_blocks bs groups in
  if SIZE_MAX / bs <? n then ret (-1) else
  ok1 <- kmalloc ;; ok2 <- kmalloc ;;
  if negb (ok1 && ok2) then ret (-1) else
  r <- read_gd (Z.to_nat n) false bs (u32 (s_first_data_block sb + 2)) 0 (fresh (u32 (n * bs))) ;;
  match r with
  | None => ret (-1)
  | Some gd_buf => check_group_bitmaps (Z.to_nat groups) 0 sb bs groups gd_buf (fresh bs) ;;; ret 0
  end.

(** ** Directories *)

(** What is done about a wrong member of an entry: the buffer afterwards. *)
Definition repair (wrong fix_ : bool) (o : Z) (n : nat) (dir_buf : list Z) : FM (list Z) :=
  if negb wrong then ret dir_buf else
  count dirs_errors ;;;
  if negb fix_ then ret dir_buf else
  b <- lift (set_field dir_buf o n 0) ;; count dirs_fixed ;;; ret b.
(** The entries of a block from [block_off] on: the offset in the directory and
    the buffer afterwards. *)
Fixpoint check_entries (fuel : nat) (fix_ : bool) (inodes bs block_off off : Z) (dir_buf : list Z) : FM (Z * list Z) :=
  match fuel with
  | O => fail
  | S fuel =>
      if bs <=? block_off then ret (off, dir_buf) else
      inode <- lift (field_at dir_buf block_off 4) ;;
      rec_len <- lift (field_at dir_buf (block_off + 4) 2) ;;
      if (inode =? 0) && (rec_len =? 0) then ret (off, dir_buf) else
      if rec_len =? 0 then count dirs_errors ;;; ret (off, dir_buf) else
      count dirs_checked ;;;
      dir_buf <- repair (negb (inode =? 0) && (inodes <? inode)) fix_ block_off 4 dir_buf ;;
      name_len <- lift (field_at dir_buf (block_off + 6) 1) ;;
      dir_buf <- repair (250 <? name_len) fix_ (block_off + 6) 1 dir_buf ;;
      if (rec_len =? 0) || (u32 (block_off + rec_len) <? block_off) || (u32 (off + rec_len) <? off) then ret (off, dir_buf) else
      check_entries fuel fix_ inodes bs (u32 (block_off + rec_len)) (u32 (off + rec_len)) dir_buf
  end.
(** The turn of the loop over the directory at offset [off]; [None] leaves it. *)
Definition check_dir_block (fix_ : bool) (inodes bs : Z) (inode_buf : list Z) (inode_offset off : Z) (dir_buf : list Z) : FM (option (Z * list Z)) :=
  let logical_block := off / bs in
  if EXT2_NDIR_BLOCKS <=? logical_block then ret None else
  blk <- lift (field_at inode_buf (inode_offset + 40 + 4 * logical_block) 4) ;;
  if blk =? 0 then ret None else
  r <- read_fs_block bs blk dir_buf 0 ;;
  match r with
  | None => count dirs_errors ;;; ret None
  | Some dir_buf => p <- check_entries (Z.to_nat bs + 1) fix_ inodes bs (off mod bs) off dir_buf ;; ret (Some p)
  end.
Fixpoint check_dir_loop (fuel : nat) (fix_ : bool) (inodes bs : Z) (inode_buf : list Z) (inode_offset dir_size off : Z) (dir_buf : list Z) : FM unit :=
  match fuel with
  | O => fail
  | S fuel =>
      if (off <? dir_size) && (off <? u32 (bs * EXT2_NDIR_BLOCKS)) then
        r <- check_dir_block fix_ inodes bs inode_buf inode_offset off dir_buf ;;
        match r with
        | None => ret tt
        | Some (off, dir_buf) => check_dir_loop fuel fix_ inodes bs inode_buf inode_offset dir_size off dir_buf
        end
      else ret tt
  end.
Definition check_dir_inode (F : nat) (fix_ : bool) (inodes bs : Z) (inode_buf : list Z) (inode_offset : Z) : FM Z :=
  mode <- lift (field_at inode_buf inode_offset 2) ;;
  if Z.land mode EXT2_S_IFDIR =? 0 then ret 0 else
  ok <- kmalloc ;;
  if negb ok then ret (-1) else
  dir_size <- lift (field_at inode_buf (inode_offset + 4) 4) ;;
  check_dir_loop F fix_ inodes bs inode_buf inode_offset dir_size 0 (fresh bs) ;;; ret 0.
Definition check_directory (F : nat) (sb : list Z) (bs inum flags : Z) : FM Z :=
  let fix_ := fixing flags in
  let per_group := s_inodes_per_group sb in
  if per_group =? 0 then fail else
  let group := u32 (inum - 1) / per_group in
  let index := u32 (inum - 1) mod per_group in
  let gd_per_block := bs / 32 in
  ok <- kmalloc ;;
  if negb ok then ret (-1) else
  r <- read_fs_block bs (u32 (u32 (s_first_data_block sb + 2) + group / gd_per_block)) (fresh bs) 0 ;;
  match r with
  | None => count dirs_errors ;;; ret (-1)
  | Some gd_buf =>
      table <- lift (field_at gd_buf (u32 (group mod gd_per_block * 32) + 8) 4) ;;
      let pos := u32 (index * s_inode_size sb) in
      ok <- kmalloc ;;
      if negb ok then ret (-1) else
      r <- read_fs_block bs (u32 (table + pos / bs)) (fresh bs) 0 ;;
      match r with
      | None => count dirs_errors ;;; ret (-1)
      | Some inode_buf =>
          check_dir_inode F fix_ (s_inodes_count sb) bs inode_buf (pos mod bs)
      end
  end.

(** ** The check *)
Definition total_errors (st : fsck_stats) : Z :=
  u32 (st superblock_errors + st groups_errors + st blocks_errors + st inodes_errors + st dirs_errors).
Definition total_fixed (st : fsck_stats) : Z :=
  u32 (st superblock_fixed + st groups_fixed + st blocks_fixed + st inodes_fixed + st dirs_fixed).
(** [F]: the fuel of the loop over the directory. *)
Definition fsck_run (F : nat) (flags : Z) (stats : option fsck_stats) : FM Z :=
  modify (λ s, mk_fsck (fdev s) (fmem s) (default (λ _, 0) stats)) ;;;
  r <- check_superblock flags ;;
  match r with
  | None => ret FSCK_FATAL
  | Some (sb, bs) =>
      check_group_descriptors sb bs ;;;
      check_bitmaps sb bs ;;;
      check_directory F sb bs 2 flags ;;;
      st <- gets fstats ;;
      ret (if total_errors st =? 0 then FSCK_OK else if total_errors st =? total_fixed st then FSCK_WARN else FSCK_ERROR)
  end.
End fsck.

(** ** What a run adds to the counters *)
Definition wf_stats (st : fsck_stats) : Prop := ∀ c, 0 ≤ st c < 2 ^ 32.
Definition adds (st : fsck_stats) (l : counter → Z) (st' : fsck_stats) : Prop := ∀ c, st' c = u32 (st c + l c).
Definition none : counter → Z := λ _, 0.
Definition both (l k : counter → Z) : counter → Z := λ c, l c + k c.
Definition only (c : counter) (n : Z) : counter → Z := λ c', if decide (c' = c) then n else 0.
Definition when (b : bool) (c : counter) : counter → Z := only c (if b then 1 else 0).
(** The sum of [f i], [f (i + 1)], ... *)
Fixpoint sum_from (n : nat) (i : Z) (f : Z → Z) : Z := match n with O => 0 | S n => f i + sum_from n (i + 1) f end.

Lemma adds_wf st l st' : adds st l st' → wf_stats st'.
Proof. intros A c. rewrite A. apply u32_bound. Qed.
Lemma adds_none st : wf_stats st → adds st none st.
Proof. intros W c. unfold none. rewrite Z.add_0_r. symmetry. by apply u32_small. Qed.
Lemma adds_both a l b k c : adds a l b → adds b k c → adds a (both l k) c.
Proof.
  intros A B x. rewrite (B x), (A x). unfold both, u32. rewrite Z.add_mod_idemp_l by lia. f_equal. lia.
Qed.

Section runs.
Context `{BlockDevice D} (d : D).
(** The call returns [a] and leaves the device; memory is available. *)
Definition runs {A} (m : FM A) (a : A) (l : counter → Z) : Prop :=
  ∀ st, wf_stats st → ∃ st', m (mk_fsck d [] st) = Some (a, mk_fsck d [] st') ∧ adds st l st'.

Lemma runs_same {A} (m : FM A) a : (∀ st, m (mk_fsck d [] st) = Some (a, mk_fsck d [] st)) → runs m a none.
Proof. intros R st W. exists st. split; [done|by apply adds_none]. Qed.
Lemma runs_ext {A} (m : FM A) a l l' : runs m a l → (∀ c, l c = l' c) → runs m a l'.
Proof. intros R E st W. destruct (R st W) as (st' & R' & A'). exists st'. split; [done|]. intros c. by rewrite <- E. Qed.
Lemma runs_both {A B} (m : FM A) (k : A → FM B) a b l l' : runs m a l → runs (k a) b l' → runs (bind m k) b (both l l').
Proof.
  intros R R' st W. destruct (R st W) as (s1 & E1 & A1). destruct (R' s1 (adds_wf _ _ _ A1)) as (s2 & E2 & A2).
  exists s2. rewrite (bind_Some _ _ _ _ _ E1). split; [done|by eapply adds_both].
Qed.
Lemma runs_quiet {A B} (m : FM A) (k : A → FM B) a b l : runs m a none → runs (k a) b l → runs (bind m k) b l.
Proof. intros R R'. eapply runs_ext; [by eapply runs_both|]. done. Qed.
Lemma runs_ret {A} (a : A) : runs (ret a) a none.
Proof. by apply runs_same. Qed.
Lemma runs_lift {A} (o : option A) a : o = Some a → runs (lift o) a none.
Proof. intros ->. by apply runs_same. Qed.
Lemma runs_kmalloc : runs kmalloc true none.
Proof. by apply runs_same. Qed.
Lemma runs_count c : runs (count c) tt (only c 1).
Proof.
  intros st W. eexists. split; [done|]. intros c'. unfold only. cbn. case_decide; [by subst|]. rewrite Z.add_0_r. symmetry. by apply u32_small.
Qed.
Lemma runs_when (b : bool) c : runs (if b then count c else ret tt) tt (when b c).
Proof. destruct b; [apply runs_count|]. eapply runs_ext; [apply runs_ret|]. intros c'. unfold when, only. by case_decide. Qed.
Lemma runs_for n i (body : Z → FM unit) (f : Z → counter → Z) : (∀ j, i ≤ j < i + Z.of_nat n → runs (body j) tt (f j)) →
  runs (for_range n i body) tt (λ c, sum_from n i (λ j, f j c)).
Proof.
  revert i. induction n as [|n IH]; intros i Hb; [apply runs_ret|]. cbn [for_range sum_from].
  apply (runs_both (body i) (λ _, for_range n (i + 1) body) tt tt (f i)); [apply Hb; lia|]. apply IH. intros j Hj. apply Hb. lia.
Qed.
End runs.
#[export] Hint Resolve runs_ret runs_kmalloc runs_count runs_when : fsck.

(** One statement that adds nothing, or one that adds something. *)
Ltac quiet := eapply runs_quiet; [solve [eauto with fsck]|]; cbv beta iota zeta.
Ltac adding := eapply runs_both; [solve [eauto with fsck]|]; cbv beta iota zeta.

(** ** A file system whose tables lie on the device *)
Section laws.
Context `{BL : BlockLaws D} (junk : list Z) (d : D).
Context (Hok : bd_ok d) (H512 : bd_block_size d = 512) (Hmem : memory_ok (bd_mem d)).
Definition capacity : Z := bd_sectors d * 512.
Definition bytes_at (p n : Z) : list Z := load (bd_mem d) p (Z.to_nat n).
Definition field_on_disk (p n : Z) : Z := le_value (bytes_at p n).

Lemma length_disk_bytes p n : length (bytes_at p n) = Z.to_nat n.
Proof. apply length_load. Qed.
Lemma zlen_bytes_at p n : 0 ≤ n → zlen (bytes_at p n) = n.
Proof. intros. unfold zlen. rewrite length_disk_bytes. lia. Qed.
Lemma zlen_fresh n : 0 ≤ n → zlen (fresh junk n) = n.
Proof. intros. unfold fresh, zlen. rewrite length_take, length_app, length_replicate. lia. Qed.
Lemma bytes_at_app p n k : 0 ≤ n → 0 ≤ k → bytes_at p (n + k) = bytes_at p n ++ bytes_at (p + n) k.
Proof. intros. unfold bytes_at. rewrite Z2Nat.inj_add, load_app by lia. do 2 f_equal. lia. Qed.
Lemma field_on_disk_bound p n : 0 ≤ n → 0 ≤ field_on_disk p n < 256 ^ n.
Proof. intros Hn. pose proof (le_value_bound (bytes_at p n) (load_bytes _ _ _ Hmem)) as Hb. by rewrite zlen_bytes_at in Hb. Qed.
Lemma field_at_disk p N o n : 0 ≤ o → 0 ≤ n → o + n ≤ N → field_at (bytes_at p N) o n = Some (field_on_disk (p + o) n).
Proof.
  intros Ho Hn Hb. rewrite field_at_ok by (rewrite ?zlen_bytes_at; lia). unfold bytes_at. rewrite take_drop_load by lia.
  unfold field_on_disk, bytes_at. do 3 f_equal. lia.
Qed.
Lemma patch_front (buf data : list Z) : zlen data = zlen buf → patch buf 0 data = Some data.
Proof. unfold zlen. intros E. rewrite patch_fits by lia. cbn [Z.to_nat take app Nat.add]. by rewrite drop_ge, app_nil_r by lia. Qed.

(** The superblock on the disk. *)
Definition disk_sb : list Z := bytes_at 1024 1024.
Lemma sb_field_bound o n : (o + n ≤ 1024)%nat → 0 ≤ sb_field disk_sb o n < 256 ^ Z.of_nat n.
Proof.
  intros Hb. unfold sb_field, disk_sb, bytes_at. rewrite take_drop_load by lia. pose proof (field_on_disk_bound (1024 + Z.of_nat o) (Z.of_nat n) ltac:(lia)) as Hf.
  unfold field_on_disk, bytes_at in Hf. by rewrite Nat2Z.id in Hf.
Qed.
Lemma read_two m st s (buf : list Z) : 0 ≤ s → s + 2 ≤ bd_sectors d → zlen buf = 1024 →
  read_into buf 0 s 2 (mk_fsck d m st) = Some (Some (bytes_at (s * 512) 1024), mk_fsck d m st).
Proof.
  intros H0 Hs Hz. unfold read_into. rewrite bind_gets. cbn [fdev]. rewrite block_dev_read_ok by (done || lia). rewrite H512.
  unfold bind, lift. change (Z.to_nat (2 * 512)) with (Z.to_nat 1024). fold (bytes_at (s * 512) 1024). rewrite patch_front; [done|]. rewrite Hz. by apply zlen_bytes_at.
Qed.
Lemma read_two_fails m st s (buf : list Z) : bd_sectors d < s + 2 → read_into buf 0 s 2 (mk_fsck d m st) = Some (None, mk_fsck d m st).
Proof.
  intros Hs. unfold read_into. rewrite bind_gets. cbn [fdev]. unfold block_dev_read. rewrite (proj2 (Z.leb_gt _ _)) by lia.
  replace (_ || _) with true; [done|]. symmetry. apply orb_true_iff. rewrite !Z.ltb_lt. lia.
Qed.
Lemma read_sb_run : 4 ≤ bd_sectors d → runs d (read_into (fresh junk 1024) 0 2 2) (Some disk_sb) none.
Proof.
  intros Hs. apply runs_same. intros st. apply read_two; [lia|lia|by apply zlen_fresh].
Qed.

(** ** Blocks *)
Context (bs : Z) (Hbs : bs = 1024 ∨ bs = 2048 ∨ bs = 4096).
Definition fs_block (n : Z) : option (list Z) := if (n + 1) * bs <=? capacity then Some (bytes_at (n * bs) bs) else None.
Lemma fs_block_zlen n b : fs_block n = Some b → zlen b = bs.
Proof. unfold fs_block. destruct (_ <=? _); [|done]. intros [= <-]. apply zlen_bytes_at. lia. Qed.
Lemma read_fs_block_eq n buf o m st : 0 ≤ n < 2 ^ 32 → 0 ≤ o → o + bs ≤ zlen buf →
  read_fs_block bs n buf o (mk_fsck d m st) = Some (b ← fs_block n; patch buf o b, mk_fsck d m st).
Proof.
  intros Hn Ho Hb. unfold read_fs_block. rewrite bind_gets. cbv zeta. unfold read_into. rewrite bind_gets. cbn [fdev]. rewrite H512.
  destruct (bl_size d Hok) as (_ & Hs0 & Hs1). rewrite H512 in Hs1. assert (∃ k, bs = 512 * k ∧ bs / 512 = k ∧ 2 ≤ k ≤ 8) as (k & Ek & -> & Hk).
  { destruct Hbs as [-> | [-> | ->]]; [exists 2|exists 4|exists 8]; done. }
  rewrite u64_small by nia. unfold fs_block, capacity. destruct (Z.leb_spec ((n + 1) * bs) (bd_sectors d * 512)) as [Hle|Hgt].
  - rewrite block_dev_read_ok by (done || nia). rewrite H512. cbn [mbind option_bind]. unfold bytes_at. replace (n * k * 512) with (n * bs) by lia. replace (k * 512) with bs by lia.
    unfold bind, lift. assert (zlen (load (bd_mem d) (n * bs) (Z.to_nat bs)) = bs) as Hz by (unfold zlen; rewrite length_load; lia).
    rewrite patch_fits by (unfold zlen in *; lia). done.
  - unfold block_dev_read. rewrite (proj2 (Z.leb_gt _ _)) by lia. replace (_ || _) with true; [done|]. symmetry. apply orb_true_iff. rewrite !Z.ltb_lt. nia.
Qed.
Lemma read_fs_block_run n buf o : 0 ≤ n < 2 ^ 32 → 0 ≤ o → o + bs ≤ zlen buf → runs d (read_fs_block bs n buf o) (b ← fs_block n; patch buf o b) none.
Proof. intros Hn Ho Hb. apply runs_same. intros st. by apply read_fs_block_eq. Qed.
Lemma read_whole_eq n buf m st : 0 ≤ n < 2 ^ 32 → zlen buf = bs → read_fs_block bs n buf 0 (mk_fsck d m st) = Some (fs_block n, mk_fsck d m st).
Proof.
  intros Hn Hz. rewrite read_fs_block_eq by lia. destruct (fs_block n) as [b|] eqn:E; [|done]. cbn [mbind option_bind].
  rewrite patch_front; [done|]. rewrite Hz. by apply (fs_block_zlen n).
Qed.
Lemma read_whole n buf : 0 ≤ n < 2 ^ 32 → zlen buf = bs → runs d (read_fs_block bs n buf 0) (fs_block n) none.
Proof. intros Hn Hz. apply runs_same. intros st. by apply read_whole_eq. Qed.
Lemma read_gd_run strict start n i buf N : (start + i + Z.of_nat n) * bs ≤ capacity → 0 ≤ start → 0 ≤ i → N = i + Z.of_nat n → N * bs < 2 ^ 32 → start + N < 2 ^ 32 →
  zlen buf = N * bs → take (Z.to_nat (i * bs)) buf = bytes_at (start * bs) (i * bs) →
  runs d (read_gd n strict bs start i buf) (Some (bytes_at (start * bs) (N * bs))) none.
Proof.
  revert i buf. induction n as [|n IH]; intros i buf Hcap Hst Hi -> HN HsN Hz Hpre; cbn [read_gd].
  - rewrite <- (take_ge buf (Z.to_nat (i * bs))) by (unfold zlen in Hz; lia). rewrite Hpre. eapply runs_ext; [|done]. replace (i + Z.of_nat 0) with i by lia. apply runs_ret.
  - rewrite !u32_small by nia. eapply runs_quiet; [apply read_fs_block_run; nia|]. unfold fs_block. rewrite (proj2 (Z.leb_le _ _)) by nia. cbn [mbind option_bind].
    set (b := bytes_at ((start + i) * bs) bs). assert (zlen b = bs) as Hb by (apply zlen_bytes_at; lia).
    rewrite patch_fits by (unfold zlen in *; nia). cbv beta iota. apply IH; [nia|done|lia|lia|done|done| |].
    + unfold zlen in *. rewrite length_overlay by nia. done.
    + replace ((i + 1) * bs) with (i * bs + bs) by lia. rewrite bytes_at_app by lia. rewrite <- Hpre. unfold zlen in *.
      rewrite app_assoc, take_app_length' by (rewrite length_app, length_take; nia). f_equal. unfold b. f_equal. lia.
Qed.

(** ** The tables *)
Notation sb := disk_sb.
Definition groups : Z := (s_blocks_count sb + s_blocks_per_group sb - 1) / s_blocks_per_group sb.
Definition table_blocks : Z := gd_blocks bs groups.
Definition table_at : Z := (s_first_data_block sb + 2) * bs.
Definition desc (g o n : Z) : Z := field_on_disk (table_at + (32 * g + o)) n.
(** The superblock is valid and what the checks read lies on the device. *)
Record file_system : Prop := {
  fs_sectors : 4 ≤ bd_sectors d;
  fs_magic : s_magic sb = EXT2_SUPER_MAGIC;
  fs_block_size : block_size_of (s_log_block_size sb) = Some bs;
  fs_blocks : 0 < s_blocks_count sb ∧ s_blocks_count sb + s_blocks_per_group sb < 2 ^ 32;
  fs_per_group : 0 < s_blocks_per_group sb ≤ 8 * bs ∧ 2 ≤ s_inodes_per_group sb ≤ 8 * bs;
  fs_groups : groups < 2 ^ 24;
  fs_inodes : s_inodes_count sb = groups * s_inodes_per_group sb;
  fs_table : table_at + table_blocks * bs ≤ capacity ∧ s_first_data_block sb + 2 + table_blocks < 2 ^ 32;
  fs_inode_size : 128 ≤ s_inode_size sb ∧ 2 * s_inode_size sb ≤ bs }.

Context (FS : file_system).
Lemma groups_bounds : 0 < groups ∧ (groups - 1) * s_blocks_per_group sb < s_blocks_count sb ≤ groups * s_blocks_per_group sb.
Proof.
  destruct (fs_blocks FS) as [H1 H2], (fs_per_group FS) as [H3 _]. unfold groups.
  pose proof (Z.div_mod (s_blocks_count sb + s_blocks_per_group sb - 1) (s_blocks_per_group sb) ltac:(lia)).
  pose proof (Z.mod_pos_bound (s_blocks_count sb + s_blocks_per_group sb - 1) (s_blocks_per_group sb) ltac:(lia)). nia.
Qed.
Lemma num_groups_run : num_groups sb = Some groups.
Proof.
  destruct (fs_blocks FS) as [H1 H2], (fs_per_group FS) as [H3 _]. unfold num_groups. rewrite (proj2 (Z.eqb_neq _ _)) by lia. unfold groups.
  rewrite !u32_small by (rewrite ?u32_small; lia). done.
Qed.
Lemma table_covers : 0 < table_blocks ∧ 32 * groups ≤ table_blocks * bs < 2 ^ 32.
Proof.
  pose proof groups_bounds as [Hg _]. pose proof (fs_groups FS). unfold table_blocks, gd_blocks. assert (∃ k, bs = 32 * k ∧ bs / 32 = k ∧ 32 ≤ k ≤ 128) as (k & Ek & -> & Hk).
  { destruct Hbs as [-> | [-> | ->]]; [exists 32|exists 64|exists 128]; done. }
  rewrite (u32_small (groups + k)), u32_small by lia. pose proof (Z.div_mod (groups + k - 1) k ltac:(lia)). pose proof (Z.mod_pos_bound (groups + k - 1) k ltac:(lia)). nia.
Qed.
Lemma first_block_bound : 0 ≤ s_first_data_block sb.
Proof. apply (sb_field_bound 20 4). lia. Qed.
Lemma desc_run g o n : 0 ≤ g < groups → 0 ≤ o → 0 ≤ n → o + n ≤ 32 → field_at (bytes_at table_at (table_blocks * bs)) (32 * g + o) n = Some (desc g o n).
Proof. intros. pose proof table_covers. apply field_at_disk; nia. Qed.
Lemma table_run strict : runs d (read_gd (Z.to_nat table_blocks) strict bs (u32 (s_first_data_block sb + 2)) 0 (fresh junk (u32 (table_blocks * bs))))
  (Some (bytes_at table_at (table_blocks * bs))) none.
Proof.
  pose proof table_covers. destruct (fs_table FS) as [H1 H2]. pose proof first_block_bound. rewrite !u32_small by lia. unfold table_at in *.
  apply read_gd_run; try nia; [|done]. apply zlen_fresh. nia.
Qed.

Definition wrong_place (p : Z) : bool := (p =? 0) || (s_blocks_count sb <=? p).
Definition wrong_places (g : Z) : Z := Z.b2z (wrong_place (desc g 0 4)) + Z.b2z (wrong_place (desc g 4 4)) + Z.b2z (wrong_place (desc g 8 4)).
Lemma check_location_run g o : 0 ≤ g < groups → 0 ≤ o ≤ 28 →
  runs d (check_location sb (bytes_at table_at (table_blocks * bs)) (32 * g + o)) tt (when (wrong_place (desc g o 4)) groups_errors).
Proof. intros Hg Ho. unfold check_location. eapply runs_quiet; [apply runs_lift, desc_run; lia|]. apply runs_when. Qed.
Lemma check_group_run g : 0 ≤ g < groups →
  runs d (check_group sb (bytes_at table_at (table_blocks * bs)) g) tt (both (only groups_checked 1) (only groups_errors (wrong_places g))).
Proof.
  intros Hg. pose proof table_covers. unfold check_group. cbv zeta. rewrite u32_small by lia. replace (g * 32) with (32 * g + 0) by lia. rewrite <- !Z.add_assoc. change (0 + 4) with 4. change (0 + 8) with 8.
  eapply runs_ext; [adding; eapply runs_both; [apply check_location_run; lia|]; eapply runs_both; apply check_location_run; lia|].
  intros c. unfold both, when, only, wrong_places, Z.b2z. repeat case_decide; simplify_eq; lia.
Qed.
Lemma sum_only n i c f c' : sum_from n i (λ j, only c (f j) c') = only c (sum_from n i f) c'.
Proof. revert i. induction n as [|n IH]; intros i; cbn [sum_from]; [unfold only; by case_decide|]. rewrite IH. unfold only. by case_decide. Qed.
Lemma sum_both n i (l k : Z → counter → Z) c : sum_from n i (λ j, both (l j) (k j) c) = sum_from n i (λ j, l j c) + sum_from n i (λ j, k j c).
Proof. revert i. induction n as [|n IH]; intros i; cbn [sum_from]; [done|]. rewrite IH. unfold both. lia. Qed.
Lemma sum_one n i : sum_from n i (λ _, 1) = Z.of_nat n.
Proof. revert i. induction n as [|n IH]; intros i; cbn [sum_from]; [done|]. rewrite IH. lia. Qed.
Lemma size_max_ok : (SIZE_MAX / bs <? table_blocks) = false.
Proof. pose proof table_covers. apply Z.ltb_ge. unfold SIZE_MAX. apply Z.div_le_lower_bound; nia. Qed.
Lemma check_descriptors_run : runs d (check_group_descriptors junk sb bs) 0
  (both (only groups_checked groups) (only groups_errors (sum_from (Z.to_nat groups) 0 wrong_places))).
Proof.
  pose proof groups_bounds as [Hg _]. unfold check_group_descriptors. eapply runs_quiet; [apply runs_lift, num_groups_run|]. cbv zeta. fold table_blocks. rewrite size_max_ok.
  quiet. replace (s_first_data_block sb + 1 + 1) with (s_first_data_block sb + 2) by lia. eapply runs_quiet; [apply table_run|]. cbv beta iota.
  eapply runs_ext; [eapply runs_both; [|apply runs_ret]; apply runs_for; intros j Hj; apply check_group_run; lia|].
  intros c. unfold both at 1, none. rewrite sum_both, !sum_only, sum_one, Z2Nat.id by lia. unfold both. lia.
Qed.

(** ** Bitmaps *)
Definition clear (b : list Z) (j : Z) : bool := negb (Z.testbit (nth (Z.to_nat (j / 8)) b 0) (j mod 8)).
Definition free_bits (n : Z) (b : list Z) : Z := Z.of_nat (length (List.filter (clear b) (seqZ 0 n))).
(** The bitmap can be read and the descriptor's count is not that of its clear bits. *)
Definition bitmap_wrong (place n free : Z) : bool := match fs_block place with Some b => negb (free_bits n b =? free) | None => false end.
Definition members (total per_group g : Z) : Z := if g =? groups - 1 then total - g * per_group else per_group.
Definition blocks_wrong (g : Z) : bool := bitmap_wrong (desc g 0 4) (members (s_blocks_count sb) (s_blocks_per_group sb) g) (desc g 12 2).
Definition inodes_wrong (g : Z) : bool := bitmap_wrong (desc g 4 4) (members (s_inodes_count sb) (s_inodes_per_group sb) g) (desc g 14 2).

Lemma count_free_run b n i acc : 0 ≤ i → i + Z.of_nat n ≤ 8 * zlen b → 0 ≤ acc → acc + Z.of_nat n < 2 ^ 32 →
  count_free n i acc b = Some (acc + Z.of_nat (length (List.filter (clear b) (seqZ i (Z.of_nat n))))).
Proof.
  revert i acc. induction n as [|n IH]; intros i acc Hi Hb Ha H32; [cbn; by rewrite Z.add_0_r|]. cbn [count_free].
  rewrite at_nth by (unfold zlen in Hb; split; [apply Z.div_pos; lia|apply Z.div_lt_upper_bound; lia]). cbn [mbind option_bind].
  rewrite seqZ_cons by lia. replace (Z.pred (Z.of_nat (S n))) with (Z.of_nat n) by lia. replace (Z.succ i) with (i + 1) by lia. cbn [List.filter]. unfold clear at 1.
  destruct (Z.testbit _ _); cbn [negb]; rewrite IH by (rewrite ?u32_small; lia); [done|]. rewrite u32_small by lia. cbn [length]. f_equal. lia.
Qed.
Lemma check_bitmap_run place n free e buf : 0 ≤ place < 2 ^ 32 → 0 ≤ n ≤ 8 * bs → zlen buf = bs →
  ∃ buf', zlen buf' = bs ∧ runs d (check_bitmap bs place n free e buf) buf' (when (bitmap_wrong place n free) e).
Proof.
  intros Hp Hn Hz. unfold check_bitmap, bitmap_wrong. pose proof (read_whole place buf Hp Hz) as R. destruct (fs_block place) as [b|] eqn:E.
  - exists b. pose proof (fs_block_zlen _ _ E). split; [done|]. eapply runs_quiet; [exact R|]. cbv beta iota. eapply runs_quiet.
    { apply runs_lift, count_free_run; [lia| |lia|]; rewrite Z2Nat.id by lia; [lia|]. destruct Hbs as [-> | [-> | ->]]; lia. }
    rewrite Z2Nat.id by lia. fold (free_bits n b). rewrite Z.add_0_l. eapply runs_ext; [eapply runs_both; [|apply runs_ret]|].
    + instantiate (1 := when (negb (free_bits n b =? free)) e). destruct (_ =? _); [|apply runs_count].
      eapply runs_ext; [apply runs_ret|]. intros c. unfold when, only. by case_decide.
    + intros c. unfold both, none. lia.
  - exists buf. split; [done|]. eapply runs_quiet; [exact R|]. eapply runs_ext; [apply runs_ret|]. intros c. unfold when, only. by case_decide.
Qed.
Lemma in_group_run total per_group g : 0 ≤ g < groups → 0 < per_group ≤ 8 * bs → (groups - 1) * per_group ≤ total ≤ groups * per_group → total < 2 ^ 32 →
  in_group groups g total per_group = members total per_group g ∧ 0 ≤ members total per_group g ≤ 8 * bs.
Proof.
  intros Hg Hp Ht H32. unfold in_group, members. destruct (Z.eqb_spec g (groups - 1)) as [->|]; [|lia]. rewrite (u32_small ((groups - 1) * per_group)) by nia. rewrite u32_small by nia. nia.
Qed.
Definition bitmaps_found (g : Z) : counter → Z :=
  both (only blocks_checked 1) (both (only blocks_errors (Z.b2z (blocks_wrong g))) (both (only inodes_checked 1) (only inodes_errors (Z.b2z (inodes_wrong g))))).
Lemma check_group_bitmaps_run n g buf : 0 ≤ g → g + Z.of_nat n ≤ groups → zlen buf = bs →
  runs d (check_group_bitmaps n g sb bs groups (bytes_at table_at (table_blocks * bs)) buf) tt (λ c, sum_from n g (λ j, bitmaps_found j c)).
Proof.
  pose proof table_covers. pose proof groups_bounds as [_ Hbl]. destruct (fs_per_group FS) as [Hb Hi]. destruct (fs_blocks FS) as [_ H32]. pose proof (fs_inodes FS) as Ei.
  assert (s_inodes_count sb < 2 ^ 32) as Hi32 by apply (sb_field_bound 0 4 ltac:(lia)).
  revert g buf. induction n as [|n IH]; intros g buf Hg Hn Hz; cbn [check_group_bitmaps sum_from]; [apply runs_ret|]. cbv zeta. rewrite u32_small by lia.
  replace (g * 32) with (32 * g + 0) by lia. rewrite <- !Z.add_assoc. change (0 + 4) with 4. change (0 + 12) with 12. change (0 + 14) with 14.
  destruct (in_group_run (s_blocks_count sb) (s_blocks_per_group sb) g) as [-> Hm1]; [lia..|].
  destruct (in_group_run (s_inodes_count sb) (s_inodes_per_group sb) g) as [-> Hm2]; [lia|lia|rewrite Ei; nia|lia|].
  assert (∀ o, 0 ≤ desc g o 4 < 2 ^ 32) as Hd by (intros o; apply field_on_disk_bound; lia).
  destruct (check_bitmap_run (desc g 0 4) _ (desc g 12 2) blocks_errors buf (Hd 0) Hm1 Hz) as (b1 & Z1 & R1).
  destruct (check_bitmap_run (desc g 4 4) _ (desc g 14 2) inodes_errors b1 (Hd 4) Hm2 Z1) as (b2 & Z2 & R2).
  eapply runs_ext.
  - adding. do 2 (eapply runs_quiet; [apply runs_lift, desc_run; lia|]). cbv beta. eapply runs_both; [exact R1|]. cbv beta.
    adding. do 2 (eapply runs_quiet; [apply runs_lift, desc_run; lia|]). cbv beta. eapply runs_both; [exact R2|]. apply (IH (g + 1) b2); [lia..|done].
  - intros c. unfold bitmaps_found, both, when. fold (blocks_wrong g) (inodes_wrong g). unfold Z.b2z. lia.
Qed.
Lemma check_bitmaps_run : runs d (check_bitmaps junk sb bs) 0
  (both (both (only blocks_checked groups) (only blocks_errors (sum_from (Z.to_nat groups) 0 (λ g, Z.b2z (blocks_wrong g)))))
        (both (only inodes_checked groups) (only inodes_errors (sum_from (Z.to_nat groups) 0 (λ g, Z.b2z (inodes_wrong g)))))).
Proof.
  pose proof groups_bounds as [Hg _]. unfold check_bitmaps. eapply runs_quiet; [apply runs_lift, num_groups_run|]. cbv zeta. fold table_blocks. rewrite size_max_ok.
  quiet. quiet. cbn [negb andb]. eapply runs_quiet; [apply table_run|]. cbv beta iota.
  eapply runs_ext; [eapply runs_both; [apply check_group_bitmaps_run; [lia|lia|apply zlen_fresh; lia]|apply runs_ret]|].
  intros c. unfold both at 1, none, bitmaps_found. rewrite !sum_both, !sum_only, !sum_one, Z2Nat.id by lia. unfold both. lia.
Qed.

(** ** Directories *)
Record dentry := mk_dentry { d_inode : Z; d_rec_len : Z; d_name_len : Z }.
(** From [o] on the block is covered by the entries. *)
Fixpoint tiles (data : list Z) (o : Z) (es : list dentry) : Prop :=
  match es with
  | [] => o = zlen data
  | e :: es =>
      field_at data o 4 = Some (d_inode e) ∧ field_at data (o + 4) 2 = Some (d_rec_len e) ∧ field_at data (o + 6) 1 = Some (d_name_len e) ∧
      8 ≤ d_rec_len e ∧ o + d_rec_len e ≤ zlen data ∧ tiles data (o + d_rec_len e) es
  end.
Definition wrong_inode (inodes : Z) (e : dentry) : bool := negb (d_inode e =? 0) && (inodes <? d_inode e).
Definition wrong_name (e : dentry) : bool := 250 <? d_name_len e.
Definition entry_errors (inodes : Z) (e : dentry) : Z := Z.b2z (wrong_inode inodes e) + Z.b2z (wrong_name e).
Definition entries_errors (inodes : Z) (es : list dentry) : Z := foldr (λ e n, entry_errors inodes e + n) 0 es.
Definition entries_found (fix_ : bool) (checked errors : Z) : counter → Z :=
  both (only dirs_checked checked) (both (only dirs_errors errors) (only dirs_fixed (if fix_ then errors else 0))).

Lemma repair_run w fix_ o n buf : 0 ≤ o → o + Z.of_nat n ≤ zlen buf →
  ∃ buf', length buf' = length buf ∧ (∀ o' n', 0 ≤ o' → o' + n' ≤ o ∨ o + Z.of_nat n ≤ o' → agree o' n' buf buf') ∧
    runs d (repair w fix_ o n buf) buf' (entries_found fix_ 0 (Z.b2z w)).
Proof.
  intros Ho Hb. unfold repair. destruct w; cbn [negb Z.b2z].
  2: { exists buf. split; [done|]. split; [done|]. eapply runs_ext; [apply runs_ret|]. intros c. unfold none, entries_found, both, only. destruct fix_; repeat case_decide; lia. }
  destruct fix_; cbn [negb].
  - destruct (patch_run buf o (le_bytes n 0) Ho) as (b' & E & L & _); [by rewrite zlen_le|]. pose proof (patch_agree _ _ _ _ Ho ltac:(by rewrite zlen_le) E) as (_ & A & _).
    rewrite zlen_le in A. exists b'. split; [done|]. split; [done|]. eapply runs_ext.
    + adding. eapply runs_quiet; [by apply runs_lift|]. adding. apply runs_ret.
    + intros c. unfold entries_found, both, only, none. repeat case_decide; simplify_eq; lia.
  - exists buf. split; [done|]. split; [done|]. eapply runs_ext; [adding; apply runs_ret|]. intros c. unfold entries_found, both, only, none. repeat case_decide; lia.
Qed.
Lemma agree_trans o n (a b c : list Z) : agree o n a b → agree o n b c → agree o n a c.
Proof. intros A B i Hi. by rewrite B, A. Qed.
Lemma check_entries_run fix_ inodes data es : zlen data = bs → ∀ fuel o off buf, tiles data o es → length buf = length data → agree o (bs - o) data buf →
  0 ≤ o ≤ bs → 0 ≤ off → off + (bs - o) < 2 ^ 32 → bs - o < Z.of_nat fuel →
  ∃ buf', zlen buf' = bs ∧ runs d (check_entries fuel fix_ inodes bs o off buf) (off + (bs - o), buf') (entries_found fix_ (Z.of_nat (length es)) (entries_errors inodes es)).
Proof.
  intros Hz. assert (bs < 2 ^ 32) by lia. induction es as [|e es IH]; intros fuel o off buf Ht L A Ho Hoff H32 Hf; (destruct fuel as [|fuel]; [lia|]); cbn [check_entries tiles] in *.
  - rewrite Ht, Hz, Z.leb_refl, Z.sub_diag, Z.add_0_r. exists buf. split; [unfold zlen in *; lia|]. eapply runs_ext; [apply runs_ret|].
    intros c. unfold none, entries_found, both, only. cbn. destruct fix_; repeat case_decide; lia.
  - destruct Ht as (E1 & E2 & E3 & Hr & Hend & Ht). rewrite Hz in Hend. rewrite (proj2 (Z.leb_gt _ _)) by lia.
    assert (∀ o' n', o ≤ o' → 0 ≤ n' → o' + n' ≤ bs → agree o' n' data buf) as As by (intros; eapply agree_sub; [exact A|lia|lia]).
    destruct (repair_run (wrong_inode inodes e) fix_ o 4 buf (proj1 Ho)) as (b1 & L1 & A1 & R1); [unfold zlen in *; lia|].
    destruct (repair_run (wrong_name e) fix_ (o + 6) 1 b1) as (b2 & L2 & A2 & R2); [lia|unfold zlen in *; lia|].
    assert (∀ o' n', o + d_rec_len e ≤ o' → 0 ≤ n' → o' + n' ≤ bs → agree o' n' data b2) as A3.
    { intros o' n' H1 H2 H3. eapply agree_trans; [apply As; lia|]. eapply agree_trans; [apply A1; lia|apply A2; lia]. }
    destruct (IH fuel (o + d_rec_len e) (off + d_rec_len e) b2) as (b3 & Z3 & R3); [done|lia|apply A3; lia|lia..|]. exists b3. split; [done|].
    eapply runs_ext.
    + eapply runs_quiet; [apply runs_lift; eapply agree_field; [exact L|apply As; lia|lia|lia|exact E1]|]. cbv beta.
      eapply runs_quiet; [apply runs_lift; eapply agree_field; [exact L|apply As; lia|lia|lia|exact E2]|]. cbv beta.
      rewrite (proj2 (Z.eqb_neq (d_rec_len e) 0)), andb_false_r by lia. adding. eapply runs_both; [exact R1|]. cbv beta.
      eapply runs_quiet; [apply runs_lift; eapply (agree_field data b1); [lia|eapply agree_trans; [apply As; lia|apply A1; lia]|lia|lia|exact E3]|]. cbv beta.
      eapply runs_both; [exact R2|]. cbv beta. rewrite !u32_small, !(proj2 (Z.ltb_ge _ _)) by lia. cbn [orb].
      replace (off + (bs - o)) with (off + d_rec_len e + (bs - (o + d_rec_len e))) by lia. exact R3.
    + intros c. unfold entries_found, both, only. cbn [length entries_errors foldr]. fold (entries_errors inodes es). unfold entry_errors. destruct fix_; repeat case_decide; simplify_eq; lia.
Qed.

(** The root inode in its block. *)
Definition root_field (b : list Z) (o n : nat) : Z := le_value (take n (drop (Z.to_nat (s_inode_size sb) + o) b)).
Definition listing_at (b : list Z) (j : nat) (es : list dentry) : Prop :=
  ∃ data, root_field b (40 + 4 * j) 4 ≠ 0 ∧ fs_block (root_field b (40 + 4 * j) 4) = Some data ∧ tiles data 0 es.
(** Why the walk of a directory of [size] bytes stops before its block [k], and
    the errors this counts. *)
Definition block_ptr (b : list Z) (k : nat) : Z := root_field b (40 + 4 * k) 4.
Inductive walk_ends (b : list Z) (size : Z) : nat → Z → Prop :=
| ends_size k : size ≤ Z.of_nat k * bs → walk_ends b size k 0
| ends_direct : walk_ends b size 12 0
| ends_hole k : (k < 12)%nat → block_ptr b k = 0 → walk_ends b size k 0
| ends_bad k : (k < 12)%nat → Z.of_nat k * bs < size → block_ptr b k ≠ 0 → fs_block (block_ptr b k) = None → walk_ends b size k 1.
(** How many entries the check of the root directory sees, how many errors it
    finds, and how many of them it would repair. *)
Inductive root_found : Z → Z → Z → Prop :=
| root_unreadable : fs_block (desc 0 8 4) = None → root_found 0 1 0
| root_no_directory b : fs_block (desc 0 8 4) = Some b → Z.land (root_field b 0 2) EXT2_S_IFDIR = 0 → root_found 0 0 0
| root_directory b blks x : fs_block (desc 0 8 4) = Some b → Z.land (root_field b 0 2) EXT2_S_IFDIR ≠ 0 →
    (length blks ≤ 12)%nat → (Z.of_nat (length blks) - 1) * bs < root_field b 4 4 → (∀ j es, blks !! j = Some es → listing_at b j es) →
    walk_ends b (root_field b 4 4) (length blks) x →
    root_found (Z.of_nat (length (concat blks))) (entries_errors (s_inodes_count sb) (concat blks) + x) (entries_errors (s_inodes_count sb) (concat blks)).
Definition directory_found (fix_ : bool) (checked errors fixable : Z) : counter → Z :=
  both (only dirs_checked checked) (both (only dirs_errors errors) (only dirs_fixed (if fix_ then fixable else 0))).

Lemma entries_errors_app inodes a b : entries_errors inodes (a ++ b) = entries_errors inodes a + entries_errors inodes b.
Proof. induction a as [|e a IH]; [done|]. cbn [app entries_errors foldr]. fold (entries_errors inodes (a ++ b)) (entries_errors inodes a). lia. Qed.
Lemma root_field_at b o n : zlen b = bs → (o + n ≤ 128)%nat → field_at b (s_inode_size sb + Z.of_nat o) (Z.of_nat n) = Some (root_field b o n).
Proof.
  intros Hz Hb. destruct (fs_inode_size FS). rewrite field_at_ok by lia. unfold root_field. rewrite Nat2Z.id. do 4 f_equal. lia.
Qed.
Lemma root_field_bound b o n : bytes b → zlen b = bs → (o + n ≤ 128)%nat → 0 ≤ root_field b o n < 256 ^ Z.of_nat n.
Proof.
  intros Hb Hz Ho. destruct (fs_inode_size FS). unfold root_field. pose proof (le_value_bound (take n (drop (Z.to_nat (s_inode_size sb) + o) b)) ltac:(by apply bytes_take, bytes_drop)) as Hv.
  unfold zlen in *. rewrite length_take, length_drop in Hv. replace (n `min` _)%nat with n in Hv by lia. done.
Qed.
(** The turn of the loop that reads the pointer of block [j] and the block. *)
Lemma dir_block_run fix_ b j buf r l : zlen b = bs → bytes b → (j < 12)%nat → zlen buf = bs →
  (block_ptr b j = 0 → r = None ∧ l = none) →
  (block_ptr b j ≠ 0 → runs d (match fs_block (block_ptr b j) with
     | None => count dirs_errors ;;; ret None
     | Some data => p <- check_entries (Z.to_nat bs + 1) fix_ (s_inodes_count sb) bs 0 (Z.of_nat j * bs) data ;; ret (Some p)
     end) r l) → runs d (check_dir_block fix_ (s_inodes_count sb) bs b (s_inode_size sb) (Z.of_nat j * bs) buf) r l.
Proof.
  intros Hz Hby Hj Hb H0 H1. unfold check_dir_block. rewrite Z.div_mul, Z.mod_mul by lia. cbv zeta. rewrite (proj2 (Z.leb_gt _ _)) by (unfold EXT2_NDIR_BLOCKS; lia).
  eapply runs_quiet; [apply runs_lift; replace (s_inode_size sb + 40 + 4 * Z.of_nat j) with (s_inode_size sb + Z.of_nat (40 + 4 * j)) by lia; apply (root_field_at b (40 + 4 * j) 4); [done|lia]|].
  cbv beta. fold (block_ptr b j). destruct (Z.eqb_spec (block_ptr b j) 0) as [E|E]; [destruct (H0 E) as [-> ->]; apply runs_ret|].
  eapply runs_quiet; [apply read_whole; [apply (root_field_bound b (40 + 4 * j) 4 Hby Hz); lia|done]|]. exact (H1 E).
Qed.
Lemma check_dir_end_run fix_ b size k x fuel buf : zlen b = bs → bytes b → walk_ends b size k x → zlen buf = bs → (0 < fuel)%nat →
  runs d (check_dir_loop fuel fix_ (s_inodes_count sb) bs b (s_inode_size sb) size (Z.of_nat k * bs) buf) tt (directory_found fix_ 0 x 0).
Proof.
  intros Hz Hby He Hb Hf. assert (∀ c, none c = directory_found fix_ 0 0 0 c) as E0 by (intros c; unfold none, directory_found, both, only; destruct fix_; repeat case_decide; lia).
  destruct fuel as [|fuel]; [lia|]. cbn [check_dir_loop]. unfold EXT2_NDIR_BLOCKS. rewrite u32_small by lia. destruct He as [k Hs | | k Hk H0 | k Hk Hs H0 Hn].
  - rewrite (proj2 (Z.ltb_ge _ size)) by lia. cbn [andb]. eapply runs_ext; [apply runs_ret|done].
  - rewrite (proj2 (Z.ltb_ge _ (bs * 12))), andb_false_r by lia. eapply runs_ext; [apply runs_ret|done].
  - destruct (_ && _); [|eapply runs_ext; [apply runs_ret|done]]. eapply runs_ext; [|exact E0].
    eapply (runs_quiet _ _ _ None); [apply dir_block_run; [done..|by rewrite H0]|apply runs_ret].
  - rewrite !(proj2 (Z.ltb_lt _ _)) by nia. cbn [andb]. eapply runs_ext.
    + eapply runs_both; [apply (dir_block_run fix_ b k buf None (both (only dirs_errors 1) none) Hz Hby Hk Hb); [done|intros _]|apply runs_ret].
      rewrite Hn. eapply runs_both; [apply runs_count|apply runs_ret].
    + intros c. unfold directory_found, both, only, none. destruct fix_; repeat case_decide; lia.
Qed.
Lemma check_dir_loop_run fix_ b size x blks : zlen b = bs → bytes b → ∀ j fuel buf, (∀ i es, blks !! i = Some es → listing_at b (j + i) es) →
  (j + length blks ≤ 12)%nat → (Z.of_nat (j + length blks) - 1) * bs < size → walk_ends b size (j + length blks) x → zlen buf = bs → (length blks < fuel)%nat →
  runs d (check_dir_loop fuel fix_ (s_inodes_count sb) bs b (s_inode_size sb) size (Z.of_nat j * bs) buf) tt
    (directory_found fix_ (Z.of_nat (length (concat blks))) (entries_errors (s_inodes_count sb) (concat blks) + x) (entries_errors (s_inodes_count sb) (concat blks))).
Proof.
  intros Hz Hby. induction blks as [|es blks IH]; intros j fuel buf Hl Hj Hs He Hb Hf; (destruct fuel as [|fuel]; [lia|]).
  - rewrite Nat.add_0_r in He. by apply check_dir_end_run.
  - cbn [check_dir_loop length concat] in *. unfold EXT2_NDIR_BLOCKS in *. rewrite u32_small by lia. rewrite !(proj2 (Z.ltb_lt _ _)) by nia. cbn [andb].
    destruct (Hl 0%nat es eq_refl) as (data & Hne & Ed & Ht). rewrite Nat.add_0_r in *. pose proof (fs_block_zlen _ _ Ed) as Hdz.
    destruct (check_entries_run fix_ (s_inodes_count sb) data es Hdz (Z.to_nat bs + 1) 0 (Z.of_nat j * bs) data) as (b2 & Z2 & R2); [done|done|done|lia|nia|nia|lia|].
    eapply runs_ext.
    + eapply runs_both; [apply (dir_block_run _ _ j _ (Some (Z.of_nat j * bs + (bs - 0), b2)) (both (entries_found fix_ (Z.of_nat (length es)) (entries_errors (s_inodes_count sb) es)) none));
        [done|done|lia|done|by intros E|intros _]|].
      * unfold block_ptr. rewrite Ed. eapply runs_both; [exact R2|apply runs_ret].
      * cbv beta iota. rewrite Z.sub_0_r. replace (Z.of_nat j * bs + bs) with (Z.of_nat (S j) * bs) by lia. replace (j + S (length blks))%nat with (S j + length blks)%nat in * by lia.
        apply IH; [|lia|done|done|done|lia]. intros i es' Hi. replace (S j + i)%nat with (j + S i)%nat by lia. by apply Hl.
    + intros c. rewrite entries_errors_app, length_app, Nat2Z.inj_add. unfold directory_found, entries_found, both, only, none. destruct fix_; repeat case_decide; lia.
Qed.
(** The check comes to the block of the root inode. *)
Lemma reach_root F flags r l :
  runs d (match fs_block (desc 0 8 4) with
          | None => count dirs_errors ;;; ret (-1)
          | Some b => check_dir_inode junk F (fixing flags) (s_inodes_count sb) bs b (s_inode_size sb)
          end) r l → runs d (check_directory junk F sb bs 2 flags) r l.
Proof.
  intros R. destruct (fs_per_group FS) as [_ Hi]. destruct (fs_inode_size FS) as [Hs1 Hs2]. pose proof first_block_bound. destruct (fs_table FS) as [Ht1 Ht2]. pose proof table_covers as [Htb _].
  assert (fs_block (s_first_data_block sb + 2) = Some (bytes_at table_at bs)) as Eg by (unfold fs_block, table_at in *; rewrite (proj2 (Z.leb_le _ _)) by nia; done).
  pose proof (field_on_disk_bound (table_at + (32 * 0 + 8)) 4 ltac:(lia)) as Hd. change (field_on_disk _ 4) with (desc 0 8 4) in Hd.
  assert (s_inode_size sb < 2 ^ 32) by lia. assert (zlen (fresh junk bs) = bs) as Hz by (apply zlen_fresh; lia).
  unfold check_directory. rewrite (proj2 (Z.eqb_neq _ _)) by lia. cbv zeta. change (u32 (2 - 1)) with 1. rewrite (Z.div_small 1), (Z.mod_small 1), Zmod_0_l, Zdiv_0_l by lia.
  rewrite Z.mul_1_l, Z.add_0_r. quiet. cbn [negb]. rewrite (u32_small (s_first_data_block sb + 2)), u32_small by lia.
  pose proof (read_whole (s_first_data_block sb + 2) (fresh junk bs) ltac:(lia) Hz) as R1. rewrite Eg in R1. eapply runs_quiet; [exact R1|]. cbv beta iota.
  eapply runs_quiet; [apply runs_lift, (field_at_disk table_at bs (u32 (0 * 32) + 8) 4); change (u32 (0 * 32)) with 0; lia|]. cbv beta.
  rewrite (u32_small (s_inode_size sb)) by lia. rewrite (Z.div_small (s_inode_size sb)), (Z.mod_small (s_inode_size sb)), Z.add_0_r by lia. quiet. cbn [negb].
  change (field_on_disk (table_at + (u32 (0 * 32) + 8)) 4) with (desc 0 8 4). rewrite u32_small by lia.
  eapply runs_quiet; [apply read_whole; [lia|exact Hz]|]. exact R.
Qed.
Lemma fs_block_bytes n b : fs_block n = Some b → zlen b = bs ∧ bytes b.
Proof. intros E. split; [by apply (fs_block_zlen n)|]. unfold fs_block in E. destruct (_ <=? _); [|done]. injection E as <-. by apply load_bytes. Qed.
Lemma check_directory_run F flags checked errors fixable : (12 < F)%nat → root_found checked errors fixable →
  ∃ r, runs d (check_directory junk F sb bs 2 flags) r (directory_found (fixing flags) checked errors fixable).
Proof.
  intros HF [E | b E Hm | b blks x E Hm Hlen Hsize Hl He]; eexists; apply reach_root; rewrite E.
  - eapply runs_ext; [adding; apply runs_ret|]. intros c. unfold directory_found, both, only, none. destruct (fixing flags); repeat case_decide; lia.
  - destruct (fs_block_bytes _ _ E) as [Hz _]. unfold check_dir_inode. eapply runs_ext.
    + eapply runs_quiet; [apply runs_lift; rewrite <- (Z.add_0_r (s_inode_size sb)); apply (root_field_at b 0 2); [done|lia]|]. cbv beta. rewrite Hm. apply runs_ret.
    + intros c. unfold directory_found, both, only, none. destruct (fixing flags); repeat case_decide; lia.
  - destruct (fs_block_bytes _ _ E) as [Hz Hby]. unfold check_dir_inode. eapply runs_ext.
    + eapply runs_quiet; [apply runs_lift; rewrite <- (Z.add_0_r (s_inode_size sb)) at 1; apply (root_field_at b 0 2); [done|lia]|]. cbv beta. rewrite (proj2 (Z.eqb_neq _ _)) by done.
      quiet. cbn [negb]. eapply runs_quiet; [apply runs_lift, (root_field_at b 4 4); [done|lia]|]. cbv beta.
      eapply runs_both; [apply (check_dir_loop_run _ b _ x blks Hz Hby 0 F); [done|lia|done|done|apply zlen_fresh; lia|lia]|apply runs_ret].
    + intros c. apply Z.add_0_r.
Qed.

(** ** The superblock *)
Lemma check_superblock_run flags : s_state sb = EXT2_VALID_FS ∨ fixing flags = false →
  runs d (check_superblock junk flags) (Some (sb, bs)) (only superblock_checked 1).
Proof.
  intros Hst. destruct (fs_blocks FS) as [Hb _], (fs_per_group FS) as [Hp Hi]. pose proof groups_bounds as [Hg _]. pose proof (fs_inodes FS) as Ei.
  unfold check_superblock. cbv zeta. eapply runs_ext; [|intros c; apply Z.add_0_r]. eapply (runs_both _ _ _ _ _ _ none); [apply runs_count|].
  eapply runs_quiet; [apply read_sb_run, FS|]. cbv beta iota. rewrite (fs_magic FS), Z.eqb_refl. cbn [negb]. eapply runs_quiet; [apply runs_lift, FS|]. cbv beta.
  replace ((bs <? 1024) || (4096 <? bs)) with false by (destruct Hbs as [-> | [-> | ->]]; done). rewrite !(proj2 (Z.eqb_neq _ 0)) by nia. cbn [orb].
  assert (∀ x, negb (s_state sb =? EXT2_VALID_FS) && x && fixing flags = false) as ->.
  { intros x. destruct Hst as [-> | ->]; [done|by rewrite andb_false_r]. }
  eapply runs_quiet; [apply runs_ret|]. cbv beta.
  assert ((s_state sb =? EXT2_ERROR_FS) && fixing flags = false) as -> by (destruct Hst as [-> | ->]; [done|by rewrite andb_false_r]).
  eapply runs_quiet; apply runs_ret.
Qed.

(** ** The whole check *)
Lemma tiles_length data o es : tiles data o es → o + 8 * Z.of_nat (length es) ≤ zlen data.
Proof. revert o. induction es as [|e es IH]; intros o; cbn [tiles length]; [lia|]. intros (_ & _ & _ & Hr & _ & Ht%IH). lia. Qed.
Lemma entries_errors_bound inodes es : 0 ≤ entries_errors inodes es ≤ 2 * Z.of_nat (length es).
Proof.
  induction es as [|e es IH]; [done|]. cbn [entries_errors foldr length]. fold (entries_errors inodes es). unfold entry_errors.
  destruct (wrong_inode _ _), (wrong_name _); cbn [Z.b2z]; lia.
Qed.
Lemma root_found_bound checked errors fixable : root_found checked errors fixable → 0 ≤ fixable ≤ errors ∧ errors < 2 ^ 20.
Proof.
  intros [_ | b _ _ | b blks x _ _ Hlen _ Hl He]; [lia..|]. assert (0 ≤ x ≤ 1) as Hx by (by destruct He). clear He. pose proof (entries_errors_bound (s_inodes_count sb) (concat blks)) as Heb.
  assert (8 * Z.of_nat (length (concat blks)) ≤ Z.of_nat (length blks) * bs); [|nia]. clear Hlen. assert (∀ es, es ∈ blks → 8 * Z.of_nat (length es) ≤ bs) as Hes.
  { intros es (j & Hj)%list_elem_of_lookup. destruct (Hl j es Hj) as (data & _ & E & Ht). pose proof (tiles_length _ _ _ Ht). by rewrite (fs_block_zlen _ _ E) in *. }
  clear Hl Heb. induction blks as [|es blks IH]; [done|]. cbn [concat length]. rewrite length_app, !Nat2Z.inj_add. pose proof (Hes es (list_elem_of_here _ _)).
  specialize (IH (λ es' H', Hes es' (list_elem_of_further _ _ _ H'))). lia.
Qed.
Lemma sum_bound n i f k : (∀ j, 0 ≤ f j ≤ k) → 0 ≤ sum_from n i f ≤ Z.of_nat n * k.
Proof. intros Hf. revert i. induction n as [|n IH]; intros i; cbn [sum_from]; [lia|]. specialize (Hf i). specialize (IH (i + 1)). nia. Qed.

Definition all_groups (f : Z → Z) : Z := sum_from (Z.to_nat groups) 0 f.
Definition groups_found : Z := all_groups wrong_places.
Definition blocks_found : Z := all_groups (λ g, Z.b2z (blocks_wrong g)).
Definition inodes_found : Z := all_groups (λ g, Z.b2z (inodes_wrong g)).
(** What a run adds to the counters. *)
Definition fsck_found (fix_ : bool) (checked errors fixable : Z) : counter → Z :=
  both (only superblock_checked 1) (both (both (only groups_checked groups) (only groups_errors groups_found))
    (both (both (both (only blocks_checked groups) (only blocks_errors blocks_found)) (both (only inodes_checked groups) (only inodes_errors inodes_found)))
      (directory_found fix_ checked errors fixable))).
Definition verdict (errors fixed : Z) : Z := if errors =? 0 then FSCK_OK else if errors =? fixed then FSCK_WARN else FSCK_ERROR.

Lemma fsck_found_totals fix_ checked errors fixable : let l := fsck_found fix_ checked errors fixable in
  l superblock_errors = 0 ∧ l groups_errors = groups_found ∧ l blocks_errors = blocks_found ∧ l inodes_errors = inodes_found ∧ l dirs_errors = errors ∧
  l superblock_fixed = 0 ∧ l groups_fixed = 0 ∧ l blocks_fixed = 0 ∧ l inodes_fixed = 0 ∧ l dirs_fixed = if fix_ then fixable else 0.
Proof. cbv zeta. unfold fsck_found, directory_found, both, only. repeat split; repeat (case_decide; simplify_eq); lia. Qed.


(** ** What the repairs do *)

(** A superblock that is not marked as valid is written, with repairs, to the
    block after the first data block. *)
Lemma repair_state_run flags st : s_state sb ≠ EXT2_VALID_FS → fixing flags = true →
  ∃ sb' st1, set_field sb 58 2 EXT2_VALID_FS = Some sb' ∧ zlen sb' = 1024 ∧ s_state sb' = EXT2_VALID_FS ∧
    match write_fs_block bs (u32 (s_first_data_block sb + 1)) sb' (mk_fsck d [] st1) with
    | None => check_superblock junk flags (mk_fsck d [] st) = None
    | Some (_, s') => ∃ st', check_superblock junk flags (mk_fsck d [] st) = Some (Some (sb', bs), mk_fsck (fdev s') (fmem s') st')
    end.
Proof.
  intros Hst Hfix. destruct (fs_blocks FS) as [Hb _], (fs_per_group FS) as [Hp Hi]. pose proof groups_bounds as [Hg _]. pose proof (fs_inodes FS) as Ei.
  assert (zlen sb = 1024) as Hz by by apply zlen_bytes_at.
  destruct (set_field_run sb 58 2 EXT2_VALID_FS) as (sb' & E & L & V & _); [lia|lia|done|]. exists sb', (λ c', if decide (c' = superblock_checked) then u32 (st superblock_checked + 1) else st c'). split; [done|]. split; [unfold zlen in *; lia|]. split; [exact V|].
  assert (∀ s : fsck D, lift (set_field sb 58 2 EXT2_VALID_FS) s = Some (sb', s)) as El by (intros s; unfold lift; by rewrite E).
  remember (check_superblock junk flags _) as run eqn:Er. unfold check_superblock in Er. cbv zeta in Er. unfold count at 1 in Er. rewrite bind_modify in Er. cbn [fdev fmem fstats] in Er.
  rewrite (bind_Some _ _ _ _ _ (read_two _ _ 2 _ ltac:(lia) (fs_sectors FS) (zlen_fresh 1024 ltac:(lia)))) in Er. cbv beta iota in Er. change (bytes_at (2 * 512) 1024) with sb in Er.
  rewrite (fs_magic FS), Z.eqb_refl in Er. cbn [negb] in Er. rewrite (fs_block_size FS) in Er. unfold bind at 1, lift at 1 in Er.
  replace ((bs <? 1024) || (4096 <? bs)) with false in Er by (destruct Hbs as [-> | [-> | ->]]; done). rewrite !(proj2 (Z.eqb_neq _ 0)) in Er by nia. cbn [orb] in Er.
  rewrite Hfix, !andb_true_r, (proj2 (Z.eqb_neq _ _) Hst) in Er. cbn [negb andb] in Er. unfold bind at 1 in Er. destruct (Z.eqb_spec (s_state sb) EXT2_ERROR_FS) as [Hs|Hs]; cbn [negb] in Er.
  - unfold ret at 1 in Er. cbv beta iota in Er. rewrite Hs, Z.eqb_refl in Er. cbn [andb] in Er. unfold bind at 1 in Er. rewrite (bind_Some _ _ _ _ _ (El _)) in Er. cbv beta in Er.
    destruct (write_fs_block _ _ _ _) as [[ok s']|] eqn:R; [|unfold bind in Er; by rewrite R in Er]. rewrite (bind_Some _ _ _ _ _ R) in Er. rewrite Er. by eexists.
  - rewrite (bind_Some _ _ _ _ _ (El _)) in Er. cbv beta in Er. destruct (write_fs_block _ _ _ _) as [[ok s']|] eqn:R; [|unfold bind in Er; by rewrite R in Er].
    rewrite (bind_Some _ _ _ _ _ R) in Er. rewrite Er. destruct ok; [eexists|exists (fstats s')]; unfold bind; cbn; change (s_state sb') with (le_value (take 2 (drop (Z.to_nat 58) sb'))); rewrite V; cbn; [done|by destruct s'].
Qed.
Lemma write_place_run sb' st : zlen sb' = 1024 → ∃ d', bd_mem d' = store (bd_mem d) ((s_first_data_block sb + 1) * bs) (take (Z.to_nat bs) (sb' ++ replicate (Z.to_nat bs) 0)) ∧
  write_fs_block bs (u32 (s_first_data_block sb + 1)) sb' (mk_fsck d [] st) = if 1024 <? bs then None else Some (true, mk_fsck d' [] st).
Proof.
  intros Hz. pose proof first_block_bound. destruct (fs_table FS) as [Ht H32]. pose proof table_covers as [Htb _]. unfold table_at, capacity in Ht.
  destruct (bl_size d Hok) as (_ & Hs0 & Hs1). rewrite H512 in Hs1. assert (∃ k, bs = 512 * k ∧ bs / 512 = k ∧ 2 ≤ k ≤ 8) as (k & Ek & Ek' & Hk).
  { destruct Hbs as [-> | [-> | ->]]; [exists 2|exists 4|exists 8]; done. }
  set (data := take (Z.to_nat bs) (sb' ++ replicate (Z.to_nat bs) 0)). assert (Z.of_nat (length data) = k * bd_block_size d) as Hl.
  { unfold data. rewrite length_take, length_app, length_replicate, H512. unfold zlen in Hz. lia. }
  destruct (block_dev_write_ok d data ((s_first_data_block sb + 1) * k) k Hok ltac:(nia) ltac:(lia) ltac:(nia) Hl) as (d' & E & _ & Em & _).
  exists d'. split; [rewrite Em, H512; f_equal; lia|]. unfold write_fs_block. rewrite bind_gets. cbv zeta. cbn [fdev]. rewrite H512, Ek', u32_small, u64_small by nia.
  unfold write_from. rewrite bind_gets. cbv zeta. cbn [fdev]. rewrite H512. replace (k * 512) with bs by lia. fold data. rewrite E, Hz. by destruct (1024 <? bs).
Qed.
(** With blocks of 1 KiB, whose first has number 1, the superblock goes to the
    table of descriptors and stays itself as it was. *)
Theorem state_fix_misplaced flags st : s_state sb ≠ EXT2_VALID_FS → fixing flags = true → bs = 1024 → 1 ≤ s_first_data_block sb →
  ∃ d' sb' st', check_superblock junk flags (mk_fsck d [] st) = Some (Some (sb', bs), mk_fsck d' [] st') ∧
    bd_mem d' = store (bd_mem d) ((s_first_data_block sb + 1) * 1024) sb' ∧ load (bd_mem d') 1024 1024 = sb.
Proof.
  intros Hst Hfix Eb Hfb. destruct (repair_state_run flags st Hst Hfix) as (sb' & st1 & _ & Hz & _ & R). destruct (write_place_run sb' st1 Hz) as (d' & Em & W).
  rewrite W, (proj2 (Z.ltb_ge _ _)) in R by lia. destruct R as (st' & R). exists d', sb', st'. split; [exact R|].
  assert (bd_mem d' = store (bd_mem d) ((s_first_data_block sb + 1) * 1024) sb') as Em'.
  { rewrite Em, Eb. f_equal. rewrite take_app_length'; [done|]. unfold zlen in Hz. lia. }
  split; [exact Em'|]. rewrite Em'. apply load_ext. intros x Hx. apply store_lookup_out. lia.
Qed.
(** With larger blocks the write takes bytes from behind the buffer. *)
Theorem state_fix_overread flags st : s_state sb ≠ EXT2_VALID_FS → fixing flags = true → 1024 < bs → check_superblock junk flags (mk_fsck d [] st) = None.
Proof.
  intros Hst Hfix Hlt. destruct (repair_state_run flags st Hst Hfix) as (sb' & st1 & _ & Hz & _ & R). destruct (write_place_run sb' st1 Hz) as (d' & _ & W).
  by rewrite W, (proj2 (Z.ltb_lt _ _)) in R.
Qed.

(** An empty entry at the beginning of a directory's block: the loop over the
    directory makes the same turn for ever. *)
Theorem zero_entry_spins fix_ inodes b o size j data : zlen b = bs → bytes b → fs_block (le_value (take 4 (drop (Z.to_nat (o + 40 + 4 * j)) b))) = Some data →
  0 ≤ o → 0 ≤ j < 12 → o + 128 ≤ bs → j * bs < size → le_value (take 4 (drop (Z.to_nat (o + 40 + 4 * j)) b)) ≠ 0 →
  field_at data 0 4 = Some 0 → field_at data 4 2 = Some 0 →
  ∀ fuel buf st, zlen buf = bs → check_dir_loop fuel fix_ inodes bs b o size (j * bs) buf (mk_fsck d [] st) = None.
Proof.
  intros Hz Hby Ed Ho Hj Ho2 Hsize Hne E1 E2. pose proof (le_value_bound (take 4 (drop (Z.to_nat (o + 40 + 4 * j)) b)) ltac:(by apply bytes_take, bytes_drop)) as Hv.
  rewrite (zlen_take 4) in Hv by (rewrite zlen_drop; lia). change (256 ^ 4) with (2 ^ 32) in Hv.
  induction fuel as [|fuel IH]; intros buf st Hb; [done|]. cbn [check_dir_loop]. unfold EXT2_NDIR_BLOCKS. rewrite u32_small by lia. rewrite !(proj2 (Z.ltb_lt _ _)) by nia. cbn [andb].
  assert (read_fs_block bs (le_value (take 4 (drop (Z.to_nat (o + 40 + 4 * j)) b))) buf 0 (mk_fsck d [] st) = Some (Some data, mk_fsck d [] st)) as R.
  { rewrite <- Ed. by apply read_whole_eq. }
  rewrite (bind_Some _ _ _ (Some (j * bs, data)) (mk_fsck d [] st)); [apply IH; by apply (fs_block_zlen _ _ Ed)|].
  unfold check_dir_block. rewrite Z.div_mul, Z.mod_mul by lia. cbv zeta. rewrite (proj2 (Z.leb_gt _ _)) by (unfold EXT2_NDIR_BLOCKS; lia).
  unfold bind at 1, lift at 1. rewrite field_at_ok by lia. rewrite (proj2 (Z.eqb_neq _ _)) by done. rewrite (bind_Some _ _ _ _ _ R). cbv beta iota.
  replace (Z.to_nat bs + 1)%nat with (S (Z.to_nat bs)) by lia. cbn [check_entries]. rewrite (proj2 (Z.leb_gt _ _)) by lia. change (0 + 4) with 4. unfold bind, lift. by rewrite E1, E2.
Qed.
End laws.

(** ** Copies of the superblock *)
Section copies.
Context `{BL : BlockLaws D} (junk : list Z) (d : D).
Context (Hok : bd_ok d) (H512 : bd_block_size d = 512) (Hmem : memory_ok (bd_mem d)).
Notation sb := (disk_sb d).
(** The sector where the copy of group [g] is looked for. *)
Definition copy_sector (g : Z) : Z := g * s_blocks_per_group sb * (Z.shiftl 1024 (s_log_block_size sb) / 512) + 2.
Definition copy_of (g : Z) : list Z := bytes_at d (copy_sector g * 512) 1024.
Definition good_copy (g : Z) : bool := (copy_sector g + 2 <=? bd_sectors d) && (s_magic (copy_of g) =? EXT2_SUPER_MAGIC).
Definition first_copy : option Z := List.find good_copy [1; 3; 5; 7].
Definition bad_primary : Prop := bd_sectors d < 4 ∨ s_magic sb ≠ EXT2_SUPER_MAGIC.

Lemma copy_sector_bound g : 0 ≤ g ≤ 7 → s_log_block_size sb < 21 → 0 ≤ g * s_blocks_per_group sb < 2 ^ 35 ∧ 2 ≤ copy_sector g < 2 ^ 60.
Proof.
  intros Hg Hlog. pose proof (sb_field_bound d Hmem 32 4 ltac:(lia)) as Hb. change (sb_field sb 32 4) with (s_blocks_per_group sb) in Hb.
  pose proof (sb_field_bound d Hmem 24 4 ltac:(lia)) as Hl. change (sb_field sb 24 4) with (s_log_block_size sb) in Hl. change (256 ^ Z.of_nat 4) with (2 ^ 32) in *.
  unfold copy_sector. rewrite Z.shiftl_mul_pow2 by lia. assert (2 ^ s_log_block_size sb ≤ 2 ^ 20) as Hpow by (apply Z.pow_le_mono_r; lia).
  assert (0 < 2 ^ s_log_block_size sb) by (apply Z.pow_pos_nonneg; lia). replace (1024 * 2 ^ s_log_block_size sb) with (2 * 2 ^ s_log_block_size sb * 512) by lia.
  rewrite Z.div_mul by lia. assert (0 ≤ g * s_blocks_per_group sb ≤ 7 * 2 ^ 32) as Hgb by nia.
  assert (g * s_blocks_per_group sb * (2 * 2 ^ s_log_block_size sb) ≤ 7 * 2 ^ 32 * (2 * 2 ^ 20)) by (apply Z.mul_le_mono_nonneg; lia). nia.
Qed.
Lemma read_copy_run g m st : 0 < g ≤ 7 → 4 ≤ bd_sectors d → s_magic sb = EXT2_SUPER_MAGIC → s_log_block_size sb < 21 →
  fsck_read_superblock junk g (mk_fsck d m st) = Some (if good_copy g then Some (copy_of g) else None, mk_fsck d m st).
Proof.
  intros Hg Hs Hm Hlog. destruct (copy_sector_bound g ltac:(lia) Hlog) as [Hb Hc]. unfold fsck_read_superblock.
  rewrite (bind_Some _ _ _ _ _ (read_two d Hok H512 m st 2 (fresh junk 1024) ltac:(lia) Hs ltac:(by apply zlen_fresh))). cbv beta iota. change (bytes_at d (2 * 512) 1024) with sb.
  rewrite (proj2 (Z.eqb_neq _ _)), Hm, Z.eqb_refl by lia. cbn [negb]. unfold block_size_of. rewrite (proj2 (Z.leb_gt _ _)) by lia.
  unfold bind at 2, lift at 1. unfold bind at 1. rewrite bind_gets. cbv zeta. cbn [fdev]. rewrite H512, (u64_small (g * _)) by lia. fold (copy_sector g). rewrite u64_small by lia.
  unfold good_copy. destruct (Z.leb_spec (copy_sector g + 2) (bd_sectors d)) as [Hle|Hgt]; cbn [andb].
  - rewrite read_two by (done || lia || by apply zlen_bytes_at). done.
  - by rewrite read_two_fails.
Qed.
(** A bad superblock stands in the way of its own restoration. *)
Lemma no_copy_run g m st : g ≠ 0 → bad_primary → fsck_read_superblock junk g (mk_fsck d m st) = Some (None, mk_fsck d m st).
Proof.
  intros Hg Hbad. unfold fsck_read_superblock. destruct (Z.ltb_spec (bd_sectors d) 4) as [Hlt|Hge].
  - pose proof (read_two_fails d m st 2 (fresh junk 1024)) as R. by rewrite (bind_Some _ _ _ _ _ (R ltac:(lia))).
  - rewrite (bind_Some _ _ _ _ _ (read_two d Hok H512 m st 2 (fresh junk 1024) ltac:(lia) Hge ltac:(by apply zlen_fresh))). cbv beta iota. change (bytes_at d (2 * 512) 1024) with sb.
    destruct Hbad as [?|Hm]; [lia|]. by rewrite !(proj2 (Z.eqb_neq _ _)) by done.
Qed.
Lemma restore_refused m st : bad_primary → fsck_restore_superblock junk (mk_fsck d m st) = Some (false, mk_fsck d m st).
Proof.
  intros Hbad. unfold fsck_restore_superblock. assert (Forall (λ g, g ≠ 0) [1; 3; 5; 7]) as Hg by (repeat constructor; lia).
  induction Hg as [|g l Hg _ IH]; [done|]. cbn [restore_from]. by rewrite (bind_Some _ _ _ _ _ (no_copy_run g m st Hg Hbad)).
Qed.

Lemma bad_superblock_run flags m st : bad_primary → ∃ st', check_superblock junk flags (mk_fsck d m st) = Some (None, mk_fsck d m st') ∧
  st' superblock_errors = u32 (st superblock_errors + 1) ∧ st' superblock_fixed = st superblock_fixed.
Proof.
  intros Hbad. assert (∀ st, restored junk (fixing flags) (mk_fsck d m st) =
    Some (None, mk_fsck d m (λ c, if decide (c = superblock_errors) then u32 (st superblock_errors + 1) else st c))) as R.
  { intros st0. unfold restored. unfold count at 1. rewrite bind_modify. cbn [fdev fmem fstats]. destruct (fixing flags); cbn [negb]; [|done].
    by rewrite (bind_Some _ _ _ _ _ (restore_refused m _ Hbad)). }
  unfold check_superblock. cbv zeta. unfold count at 1. rewrite bind_modify. cbn [fdev fmem fstats]. set (s1 := λ c', if decide (c' = superblock_checked) then _ else _).
  eexists. split; [|split].
  - destruct (Z.ltb_spec (bd_sectors d) 4) as [Hlt|Hge].
    + pose proof (read_two_fails d m s1 2 (fresh junk 1024)) as Rf. rewrite (bind_Some _ _ _ _ _ (Rf ltac:(lia))). apply R.
    + rewrite (bind_Some _ _ _ _ _ (read_two d Hok H512 m s1 2 (fresh junk 1024) ltac:(lia) Hge ltac:(by apply zlen_fresh))). cbv beta iota. change (bytes_at d (2 * 512) 1024) with sb.
      destruct Hbad as [?|Hm]; [lia|]. rewrite (proj2 (Z.eqb_neq _ _) Hm). apply R.
  - done.
  - done.
Qed.

(** Restoring the superblock.  When the superblock has its magic number, the
    first copy of groups 1, 3, 5 and 7 that lies on the device and has it too is
    written over it; without such a copy nothing is written.  But when the
    superblock is unreadable or has another number, which is when [fsck_run] calls
    it, nothing is restored whatever the copies are: the run ends as fatal and the
    device is as before. *)
Theorem fsck_restore_correct m st :
  (4 ≤ bd_sectors d → s_magic sb = EXT2_SUPER_MAGIC → s_log_block_size sb < 21 →
    match first_copy with
    | Some g => ∃ d', fsck_restore_superblock junk (mk_fsck d m st) = Some (true, mk_fsck d' m st) ∧ bd_mem d' = store (bd_mem d) 1024 (copy_of g)
    | None => fsck_restore_superblock junk (mk_fsck d m st) = Some (false, mk_fsck d m st)
    end) ∧
  (bad_primary → fsck_restore_superblock junk (mk_fsck d m st) = Some (false, mk_fsck d m st) ∧
    ∀ F flags stats, ∃ st', fsck_run junk F flags stats (mk_fsck d m st) = Some (FSCK_FATAL, mk_fsck d m st') ∧
      st' superblock_errors = u32 (default none stats superblock_errors + 1) ∧ st' superblock_fixed = default none stats superblock_fixed).
Proof.
  split.
  - intros Hs Hm Hlog. unfold fsck_restore_superblock, first_copy. assert (Forall (λ g, 0 < g ≤ 7) [1; 3; 5; 7]) as Hg by (repeat constructor; lia).
    induction Hg as [|g l Hg _ IH]; [done|]. cbn [restore_from List.find]. rewrite (bind_Some _ _ _ _ _ (read_copy_run g m st Hg Hs Hm Hlog)).
    destruct (good_copy g) eqn:E; [|exact IH]. cbv beta iota. pose proof (andb_prop _ _ E) as [_ Ec]. rewrite Ec.
    assert (zlen (copy_of g) = 1024) as Hz by by apply zlen_bytes_at.
    destruct (block_dev_write_ok d (copy_of g) 2 2 Hok ltac:(lia) ltac:(lia) ltac:(lia) ltac:(rewrite H512; exact Hz)) as (d' & W & _ & Em & _).
    rewrite H512 in Em. exists d'. split; [|exact Em]. unfold write_from, bind at 1. rewrite bind_gets. cbv zeta. cbn [fdev]. rewrite H512. change (2 * 512) with 1024.
    rewrite take_app_length' by (unfold zlen in Hz; lia). rewrite W, Hz. done.
  - intros Hbad. split; [by apply restore_refused|]. intros F flags stats. destruct (bad_superblock_run flags m (default none stats) Hbad) as (st' & R & H1 & H2).
    exists st'. split; [|done]. unfold fsck_run. rewrite bind_modify. cbn [fdev fmem]. fold none. by run R.
Qed.
End copies.

(** ** A disk of eight blocks *)
Definition write_at (m : gmap Z Z) (l : list (Z * nat * Z)) : gmap Z Z := fold_left (λ m '(a, n, v), store m a (le_bytes n v)) l m.
Lemma write_at_ok l : memory_ok (write_at ∅ l).
Proof.
  assert (memory_ok ∅) as Hm by (intros x b E; by rewrite lookup_empty in E). revert Hm. generalize (∅ : gmap Z Z). intros m. revert m. induction l as [|[[a n] v] l IH]; intros m Hm; [done|].
  cbn. apply IH, memory_ok_store; [done|apply bytes_le].
Qed.
(** One group of eight blocks and inodes: its table is block 3, bitmaps 4 and 5,
    inodes from block 6 on, and the root directory block 7.  The second entry
    of the directory has an inode number that does not exist. *)
Definition super_at (a magic : Z) : list (Z * nat * Z) :=
  [(a, 4%nat, 8); (a + 4, 4%nat, 8); (a + 20, 4%nat, 1); (a + 32, 4%nat, 8); (a + 40, 4%nat, 8); (a + 56, 2%nat, magic); (a + 58, 2%nat, 1); (a + 88, 2%nat, 128)].
Definition small_disk : ramdisk_priv := mk_rd (write_at ∅ (super_at 1024 EXT2_SUPER_MAGIC ++
  [(3072, 4%nat, 4); (3076, 4%nat, 5); (3080, 4%nat, 6); (3084, 2%nat, 0); (3086, 2%nat, 6); (4096, 1%nat, 255); (5120, 1%nat, 3);
   (6272, 2%nat, 0x41ED); (6276, 4%nat, 1024); (6312, 4%nat, 7);
   (7168, 4%nat, 2); (7172, 2%nat, 12); (7174, 1%nat, 1); (7180, 4%nat, 99); (7184, 2%nat, 1012); (7186, 1%nat, 3)])) 8192.
Lemma small_disk_ok : file_system small_disk 1024.
Proof. constructor; vm_compute; repeat split; done. Qed.
Lemma small_root_found : root_found small_disk 1024 2 1 1.
Proof.
  assert (entries_errors (s_inodes_count (disk_sb small_disk)) [mk_dentry 2 12 1; mk_dentry 99 1012 3] = 1) as E by (vm_compute; done). rewrite <- (Z.add_0_r 1) at 1. rewrite <- E at 1 2.
  apply (root_directory small_disk 1024 (bytes_at small_disk 6144 1024) [[mk_dentry 2 12 1; mk_dentry 99 1012 3]]);
    [vm_compute; done|vm_compute; done|cbn; lia|vm_compute; done| |apply ends_size; vm_compute; done].
  intros [|j] es Hj; [|done]. injection Hj as <-. exists (bytes_at small_disk 7168 1024). split; [vm_compute; done|]. split; [vm_compute; done|]. vm_compute. repeat split; done.
Qed.
Lemma disk_fits m n : 0 ≤ n ≤ RAMDISK_SIZE_BYTES → bd_ok (mk_rd m n).
Proof. done. Qed.
Definition broken_disk : ramdisk_priv := mk_rd (write_at ∅ (super_at 1024 0 ++ super_at 9216 EXT2_SUPER_MAGIC)) 10240.
Definition copied_disk : ramdisk_priv := mk_rd (write_at ∅ (super_at 1024 EXT2_SUPER_MAGIC ++ super_at 9216 EXT2_SUPER_MAGIC)) 10240.
Lemma fsck_restore_correct_witness : (∃ st', fsck_run [] 13 1 None (mk_fsck broken_disk [] none) = Some (FSCK_FATAL, mk_fsck broken_disk [] st')) ∧
  ∃ d', fsck_restore_superblock [] (mk_fsck copied_disk [] none) = Some (true, mk_fsck d' [] none).
Proof.
  split.
  - assert (bd_ok broken_disk) as Hok by (apply disk_fits; by vm_compute). destruct (fsck_restore_correct [] broken_disk Hok eq_refl (write_at_ok _) [] none) as [_ R].
    assert (bad_primary broken_disk) as Hbad by (right; vm_compute; done). destruct (R Hbad) as [_ R']. destruct (R' 13%nat 1 None) as (st' & E & _). by exists st'.
  - assert (bd_ok copied_disk) as Hok by (apply disk_fits; by vm_compute). destruct (fsck_restore_correct [] copied_disk Hok eq_refl (write_at_ok _) [] none) as [R _].
    assert (first_copy copied_disk = Some 1) as E by (vm_compute; done). rewrite E in R.
    destruct R as (d' & R & _); [vm_compute; done|vm_compute; done|vm_compute; done|by exists d'].
Defined.
