(* ===== verification/Inflate.v ===== *)
(** * kernel/squashfs.c: the deflate decompressor.

    The input is a list of bytes, the output the bytes written so far; an access
    outside an array has no outcome.  A function that returns 0 for an error
    gives nothing.  The trees are the sorted symbols with their lengths and one
    row of [max_code], [min_code] and [val_ptrs] for each length. *)
From S2P Require Import Prelude Bytes.
Local Open Scope Z_scope.
Local Open Scope kernel_scope.

(** ** The stream of bits *)
Record bitstream := mk_bs { bs_data : list Z; bs_size : Z; byte_pos : Z; bit_pos : Z }.
Definition bs_init (data : list Z) : bitstream := mk_bs data (zlen data) 0 0.
Abbreviation BS := (ST bitstream).
Definition get_byte (i : Z) : BS Z := λ b, match at_ (bs_data b) i with Some x => Some (x, b) | None => None end.
Definition defined {A} (o : option A) : BS A := λ b, match o with Some a => Some (a, b) | None => None end.
Definition set_pos (byte bit : Z) : BS unit := modify (λ b, mk_bs (bs_data b) (bs_size b) byte bit).
Fixpoint read_bits_from (n : nat) (i result : Z) : BS Z :=
  match n with
  | O => ret result
  | S n =>
      b <- get ;;
      if bs_size b <=? byte_pos b then ret result else
      x <- get_byte (byte_pos b) ;;
      let bit := Z.land (Z.shiftr x (bit_pos b)) 1 in
      (if 8 <=? bit_pos b + 1 then set_pos (u32 (byte_pos b + 1)) 0 else set_pos (byte_pos b) (bit_pos b + 1)) ;;;
      read_bits_from n (i + 1) (Z.lor result (u32 (Z.shiftl bit i)))
  end.
Definition bs_read_bits (nbits : nat) : BS Z := read_bits_from nbits 0 0.
Definition bs_align_byte : BS unit :=
  b <- get ;; if 0 <? bit_pos b then set_pos (u32 (byte_pos b + 1)) 0 else ret tt.
Definition bs_bytes_read (b : bitstream) : Z := u32 (byte_pos b + if 0 <? bit_pos b then 1 else 0).

(** ** Huffman trees *)
Definition MAX_HUFFMAN_CODES : Z := 288.
Definition MAX_CODE_LEN : Z := 15.
Record huffman_tree := mk_tree { codes : list (Z * Z); rows : list (Z * Z * Z) }.

(** Lengths above 0 are counted and entered with their symbols. *)
Fixpoint count_lengths (lengths : list Z) (i : Z) (bl_count : list Z) (entries : list (Z * Z)) : option (list Z * list (Z * Z)) :=
  match lengths with
  | [] => Some (bl_count, entries)
  | len :: lengths =>
      if 0 <? len then
        if MAX_HUFFMAN_CODES <=? Z.of_nat (length entries) then None else
        c ← at_ bl_count len; bl_count ← set_ bl_count len (u16 (c + 1));
        count_lengths lengths (i + 1) bl_count (entries ++ [(len, i)])
      else count_lengths lengths (i + 1) bl_count entries
  end.
Definition before (x y : Z * Z) : bool := (x.1 <? y.1) || ((x.1 =? y.1) && (x.2 <? y.2)).
(** The inner loop exchanges the entry at [i], [x], with each later one that is
    less. *)
Fixpoint exchange (x : Z * Z) (rest : list (Z * Z)) : (Z * Z) * list (Z * Z) :=
  match rest with
  | [] => (x, [])
  | y :: rest => if before y x then let '(m, r) := exchange y rest in (m, x :: r) else let '(m, r) := exchange x rest in (m, y :: r)
  end.
Fixpoint sort_codes (n : nat) (l : list (Z * Z)) : list (Z * Z) :=
  match n, l with
  | S n, x :: l => let '(m, r) := exchange x l in m :: sort_codes n r
  | _, _ => l
  end.
Fixpoint first_of (len i : Z) (l : list (Z * Z)) : Z :=
  match l with [] => 0 | x :: l => if x.1 =? len then i else first_of len (i + 1) l end.
Fixpoint gen_codes (n : nat) (len code : Z) (bl_count : list Z) (l : list (Z * Z)) : option (list (Z * Z * Z)) :=
  match n with
  | O => Some []
  | S n =>
      c ← at_ bl_count len;
      if 0 <? c then
        r ← gen_codes n (len + 1) (u16 (Z.shiftl (code + c) 1)) bl_count l;
        Some ((u16 (code + c - 1), code, first_of len 0 l) :: r)
      else r ← gen_codes n (len + 1) code bl_count l; Some ((0xFFFF, 0xFFFF, -1) :: r)
  end.
Definition huffman_build (lengths : list Z) : option huffman_tree :=
  '(bl_count, entries) ← count_lengths lengths 0 (replicate 16 0) [];
  let l := sort_codes (length entries) entries in
  r ← gen_codes 15 1 0 bl_count l;
  Some (mk_tree l r).

(** A negative result is an error. *)
Fixpoint decode_rows (rows : list (Z * Z * Z)) (l : list (Z * Z)) (code : Z) : BS Z :=
  match rows with
  | [] => ret (-1)
  | (max_code, min_code, val_ptr) :: rows =>
      bit <- bs_read_bits 1 ;;
      let code := u16 (Z.lor (Z.shiftl code 1) bit) in
      if code <=? max_code then
        let idx := val_ptr + (code - min_code) in
        if (0 <=? idx) && (idx <? Z.of_nat (length l)) then x <- defined (l !! Z.to_nat idx) ;; ret x.2 else ret (-1)
      else decode_rows rows l code
  end.
Definition huffman_decode (tree : huffman_tree) : BS Z := decode_rows (rows tree) (codes tree) 0.

Definition fixed_ll_lengths : list Z := replicate 144 8 ++ replicate 112 9 ++ replicate 24 7 ++ replicate 8 8.
Definition build_fixed_ll_tree : option huffman_tree := huffman_build fixed_ll_lengths.
Definition build_fixed_dist_tree : option huffman_tree := huffman_build (replicate 32 5).

(** ** The decompressor *)
Definition length_base : list Z :=
  [3; 4; 5; 6; 7; 8; 9; 10; 11; 13; 15; 17; 19; 23; 27; 31; 35; 43; 51; 59; 67; 83; 99; 115; 131; 163; 195; 227; 258].
Definition length_extra : list Z := [0; 0; 0; 0; 0; 0; 0; 0; 1; 1; 1; 1; 2; 2; 2; 2; 3; 3; 3; 3; 4; 4; 4; 4; 5; 5; 5; 5; 0].
Definition dist_base : list Z :=
  [1; 2; 3; 4; 5; 7; 9; 13; 17; 25; 33; 49; 65; 97; 129; 193; 257; 385; 513; 769; 1025; 1537; 2049; 3073; 4097; 6145; 8193; 12289; 16385; 24577].
Definition dist_extra : list Z := [0; 0; 0; 0; 1; 1; 2; 2; 3; 3; 4; 4; 5; 5; 6; 6; 7; 7; 8; 8; 9; 9; 10; 10; 11; 11; 12; 12; 13; 13].
Definition cl_order : list Z := [16; 17; 18; 0; 8; 7; 9; 6; 10; 5; 11; 4; 12; 3; 13; 2; 14; 1; 15].

(** [None] is the result 0. *)
Definition EM (A : Type) := BS (option A).
Definition err {A} : EM A := ret None.
Definition ok {A} (a : A) : EM A := ret (Some a).
Definition ebind {A B} (m : EM A) (k : A → EM B) : EM B := bind m (λ r, match r with Some a => k a | None => ret None end).
Notation "x <~ m ;; k" := (ebind m (λ x, k)) (at level 100, m at next level, right associativity) : kernel_scope.

(** A write of [w] at the end of what was written; behind the output buffer it has
    no outcome. *)
Definition emit (out_size : Z) (out w : list Z) : option (list Z) := if zlen out + zlen w <=? out_size then Some (out ++ w) else None.
Definition inflate_stored (out_size : Z) (out : list Z) : EM (list Z) :=
  bs_align_byte ;;;
  b <- get ;;
  if bs_size b <? u32 (byte_pos b + 4) then err else
  l0 <- get_byte (byte_pos b) ;; l1 <- get_byte (byte_pos b + 1) ;; n0 <- get_byte (byte_pos b + 2) ;; n1 <- get_byte (byte_pos b + 3) ;;
  let len := Z.lor l0 (u16 (Z.shiftl l1 8)) in
  let nlen := Z.lor n0 (u16 (Z.shiftl n1 8)) in
  if negb (len =? Z.land (Z.lnot nlen) 0xFFFF) then err else
  let p := u32 (byte_pos b + 4) in
  if out_size <? u32 (zlen out + len) then err else
  if bs_size b <? u32 (p + len) then err else
  w <- defined (slice (bs_data b) p len) ;;
  out <- defined (emit out_size out w) ;;
  set_pos (u32 (p + len)) (bit_pos b) ;;; ok out.

Fixpoint read_cl (order : list Z) (cl : list Z) : BS (list Z) :=
  match order with
  | [] => ret cl
  | o :: order => v <- bs_read_bits 3 ;; cl <- defined (set_ cl o v) ;; read_cl order cl
  end.
(** The lengths of both alphabets, [hlit] of the first. *)
Definition put_length (hlit i v : Z) (a : list Z * list Z) : option (list Z * list Z) :=
  if i <? hlit then l ← set_ a.1 i v; Some (l, a.2) else d ← set_ a.2 (i - hlit) v; Some (a.1, d).
Fixpoint repeat_length (n : nat) (hlit total v : Z) (i : Z) (a : list Z * list Z) : option (Z * (list Z * list Z)) :=
  match n with
  | O => Some (i, a)
  | S n => if i <? total then a ← put_length hlit i v a; repeat_length n hlit total v (i + 1) a else Some (i, a)
  end.
Fixpoint read_lengths (fuel : nat) (cl_tree : huffman_tree) (hlit total i : Z) (a : list Z * list Z) : EM (list Z * list Z) :=
  match fuel with
  | O => fail
  | S fuel =>
      if total <=? i then ok a else
      sym <- huffman_decode cl_tree ;;
      if sym <? 0 then err else
      if sym <? 16 then a <- defined (put_length hlit i (u8 sym) a) ;; read_lengths fuel cl_tree hlit total (i + 1) a
      else if sym =? 16 then
        if i =? 0 then err else
        r <- bs_read_bits 2 ;;
        prev <- defined (if i <=? hlit then at_ a.1 (i - 1) else at_ a.2 (i - hlit - 1)) ;;
        x <- defined (repeat_length (Z.to_nat (r + 3)) hlit total prev i a) ;; read_lengths fuel cl_tree hlit total x.1 x.2
      else if sym =? 17 then
        r <- bs_read_bits 3 ;;
        x <- defined (repeat_length (Z.to_nat (r + 3)) hlit total 0 i a) ;; read_lengths fuel cl_tree hlit total x.1 x.2
      else if sym =? 18 then
        r <- bs_read_bits 7 ;;
        x <- defined (repeat_length (Z.to_nat (r + 11)) hlit total 0 i a) ;; read_lengths fuel cl_tree hlit total x.1 x.2
      else read_lengths fuel cl_tree hlit total i a
  end.
Definition dynamic_trees : EM (huffman_tree * huffman_tree) :=
  n <- bs_read_bits 5 ;; let hlit := n + 257 in
  n <- bs_read_bits 5 ;; let hdist := n + 1 in
  n <- bs_read_bits 4 ;; let hclen := n + 4 in
  if (288 <? hlit) || (32 <? hdist) then err else
  cl_lengths <- read_cl (take (Z.to_nat hclen) cl_order) (replicate 19 0) ;;
  cl_tree <- defined (huffman_build cl_lengths) ;;
  a <~ read_lengths (S (Z.to_nat (hlit + hdist))) cl_tree hlit (hlit + hdist) 0 (replicate 288 0, replicate 32 0) ;;
  ll_tree <- defined (huffman_build (take (Z.to_nat hlit) a.1)) ;;
  dist_tree <- defined (huffman_build (take (Z.to_nat hdist) a.2)) ;;
  ok (ll_tree, dist_tree).

(** A back-reference, byte by byte: the two ranges may overlap. *)
Fixpoint copy_back (out_size : Z) (n : nat) (src : Z) (out : list Z) : option (list Z) :=
  match n with
  | O => Some out
  | S n => x ← at_ out src; out ← emit out_size out [x]; copy_back out_size n (src + 1) out
  end.
Definition plus_extra (base extra : Z) : BS Z :=
  if 0 <? extra then x <- bs_read_bits (Z.to_nat extra) ;; ret (u32 (base + x)) else ret base.
Fixpoint inflate_codes (fuel : nat) (ll_tree dist_tree : huffman_tree) (out_size : Z) (out : list Z) : EM (list Z) :=
  match fuel with
  | O => fail
  | S fuel =>
      sym <- huffman_decode ll_tree ;;
      if sym <? 0 then err else
      if sym <? 256 then
        if out_size <=? zlen out then err else
        out <- defined (emit out_size out [u8 sym]) ;; inflate_codes fuel ll_tree dist_tree out_size out
      else if sym =? 256 then ok out else
      let len_idx := sym - 257 in
      if (len_idx <? 0) || (29 <=? len_idx) then err else
      base <- defined (at_ length_base len_idx) ;; extra <- defined (at_ length_extra len_idx) ;;
      length <- plus_extra base extra ;;
      dist_sym <- huffman_decode dist_tree ;;
      if (dist_sym <? 0) || (30 <=? dist_sym) then err else
      base <- defined (at_ dist_base dist_sym) ;; extra <- defined (at_ dist_extra dist_sym) ;;
      dist <- plus_extra base extra ;;
      if zlen out <? dist then err else
      if out_size <? u32 (zlen out + length) then err else
      out <- defined (copy_back out_size (Z.to_nat length) (zlen out - dist) out) ;;
      inflate_codes fuel ll_tree dist_tree out_size out
  end.
Definition inflate_block (btype out_size : Z) (out : list Z) : EM (list Z) :=
  if btype =? 0 then inflate_stored out_size out else
  if (btype =? 1) || (btype =? 2) then
    trees <~ (if btype =? 1 then l <- defined build_fixed_ll_tree ;; d <- defined build_fixed_dist_tree ;; ok (l, d) else dynamic_trees) ;;
    inflate_codes (S (Z.to_nat out_size)) trees.1 trees.2 out_size out
  else err.
Fixpoint inflate_loop (fuel : nat) (out_size : Z) (out : list Z) : EM (list Z) :=
  match fuel with
  | O => fail
  | S fuel =>
      bfinal <- bs_read_bits 1 ;; btype <- bs_read_bits 2 ;;
      out <~ inflate_block btype out_size out ;;
      if bfinal =? 0 then inflate_loop fuel out_size out else ok out
  end.
(** The bytes written; the result is their number, so [] is also an error. *)
Definition inflate (data : list Z) (out_size : Z) : option (list Z) :=
  x ← inflate_loop (S (8 * length data)) out_size [] (bs_init data); Some (default [] x.1).
Definition zlib_decompress (data : list Z) (out_size : Z) : option (list Z) :=
  let in_size := zlen data in
  if in_size <? 6 then Some [] else
  cmf ← at_ data 0; flg ← at_ data 1;
  if negb (Z.land cmf 0x0F =? 8) then Some [] else
  if negb ((cmf * 256 + flg) mod 31 =? 0) then Some [] else
  let dict := negb (Z.land flg 0x20 =? 0) in
  if dict && (in_size <? 10) then Some [] else
  let offset := if dict then 6 else 2 in
  s ← slice data offset (in_size - offset - 4);
  inflate s out_size.

(** ** The bits of a stream

    The low bit of a byte comes first. *)
Definition byte_bits (x : Z) : list bool := map (λ j, Z.testbit x (Z.of_nat j)) (seq 0 8).
Definition bits_of (data : list Z) : list bool := flat_map byte_bits data.
Definition position_of (b : bitstream) : Z := 8 * byte_pos b + bit_pos b.
Definition rest (b : bitstream) : list bool := drop (Z.to_nat (position_of b)) (bits_of (bs_data b)).
Record wf (b : bitstream) : Prop := {
  wf_size : bs_size b = zlen (bs_data b);
  wf_small : zlen (bs_data b) < 2 ^ 31;
  wf_bytes : bytes (bs_data b);
  wf_byte : 0 ≤ byte_pos b ≤ bs_size b;
  wf_bit : 0 ≤ bit_pos b < 8;
  wf_end : byte_pos b = bs_size b → bit_pos b = 0
}.
Fixpoint bits_value (l : list bool) : Z := match l with [] => 0 | x :: l => Z.b2z x + 2 * bits_value l end.
Lemma length_bits data : length (bits_of data) = (8 * length data)%nat.
Proof. induction data as [|x data IH]; [done|]. cbn [bits_of flat_map]. rewrite length_app. change (flat_map byte_bits data) with (bits_of data). rewrite IH. cbn. lia. Qed.
Lemma lookup_bits data i j : (j < 8)%nat → bits_of data !! (8 * i + j)%nat = (x ← data !! i; Some (Z.testbit x (Z.of_nat j))).
Proof.
  intros Hj. revert i. induction data as [|x data IH]; intros i; [done|]. cbn [bits_of flat_map]. change (flat_map byte_bits data) with (bits_of data).
  destruct i as [|i].
  - rewrite Nat.mul_0_r, Nat.add_0_l, lookup_app_l by (cbn; lia). unfold byte_bits. rewrite list_lookup_fmap, lookup_seq_lt by done. done.
  - rewrite lookup_app_r by (cbn; lia). cbn [length byte_bits seq map]. replace (8 * S i + j - 8)%nat with (8 * i + j)%nat by lia. apply IH.
Qed.
Lemma bits_value_bound l : 0 ≤ bits_value l < 2 ^ Z.of_nat (length l).
Proof.
  induction l as [|x l IH]; [cbn; lia|]. cbn [bits_value length]. rewrite Nat2Z.inj_succ, Z.pow_succ_r by lia. destruct x; cbn [Z.b2z]; lia.
Qed.
(** What is left after some bits were read. *)
Definition advanced (n : nat) (b b' : bitstream) : Prop := wf b' ∧ bs_data b' = bs_data b ∧ rest b' = drop n (rest b).
Lemma advanced_trans n k b b' b'' : advanced n b b' → advanced k b' b'' → advanced (n + k) b b''.
Proof. intros (W1 & D1 & R1) (W2 & D2 & R2). split; [done|]. split; [congruence|]. by rewrite R2, R1, drop_drop. Qed.
Lemma rest_cons b : wf b → byte_pos b < bs_size b →
  ∃ x, at_ (bs_data b) (byte_pos b) = Some x ∧ rest b = Z.testbit x (bit_pos b) :: drop 1 (rest b) ∧ is_byte x.
Proof.
  intros W Hlt. destruct W as [Ws _ Wb Wp Wi _]. rewrite Ws in *. unfold zlen in *.
  destruct (lookup_lt_is_Some_2 (bs_data b) (Z.to_nat (byte_pos b)) ltac:(lia)) as [x E]. exists x. split; [by rewrite at_lookup by lia|].
  split; [|unfold bytes in Wb; rewrite Forall_lookup in Wb; by eapply Wb]. unfold rest, position_of.
  assert (bits_of (bs_data b) !! Z.to_nat (8 * byte_pos b + bit_pos b) = Some (Z.testbit x (bit_pos b))) as Eb.
  { replace (Z.to_nat (8 * byte_pos b + bit_pos b)) with (8 * Z.to_nat (byte_pos b) + Z.to_nat (bit_pos b))%nat by lia.
    rewrite lookup_bits by lia. rewrite E. cbn. by rewrite Z2Nat.id by lia. }
  rewrite (drop_S _ _ _ Eb). done.
Qed.
Lemma rest_nil b : wf b → byte_pos b = bs_size b → rest b = [].
Proof.
  intros W E. pose proof (wf_end _ W E) as E0. destruct W as [Ws _ _ _ _ _]. unfold rest, position_of. rewrite E0, E, Ws. apply drop_ge. rewrite length_bits. unfold zlen. lia.
Qed.
Lemma rest_length b : wf b → Z.of_nat (length (rest b)) = 8 * bs_size b - position_of b.
Proof.
  intros W. unfold rest. rewrite length_drop, length_bits. pose proof (wf_size _ W). pose proof (wf_byte _ W). pose proof (wf_bit _ W). pose proof (wf_end _ W).
  unfold position_of, zlen in *. lia.
Qed.
Lemma land_1 x i : Z.land (Z.shiftr x i) 1 = Z.b2z (Z.testbit x i).
Proof. rewrite (Z.land_ones _ 1) by lia. rewrite <- Z.bit0_mod, Z.shiftr_spec, Z.add_0_l by lia. by destruct (Z.testbit x i). Qed.
Lemma step_advanced b : wf b → byte_pos b < bs_size b →
  advanced 1 b (if 8 <=? bit_pos b + 1 then mk_bs (bs_data b) (bs_size b) (u32 (byte_pos b + 1)) 0 else mk_bs (bs_data b) (bs_size b) (byte_pos b) (bit_pos b + 1)).
Proof.
  intros W Hlt. pose proof (wf_size _ W) as Ws. pose proof (wf_small _ W). pose proof (wf_byte _ W). pose proof (wf_bit _ W).
  destruct (Z.leb_spec 8 (bit_pos b + 1)); [rewrite u32_small by lia|].
  - split; [constructor; cbn; try done; try lia; apply W|]. split; [done|]. unfold rest, position_of. cbn [byte_pos bit_pos bs_data].
    rewrite drop_drop. f_equal. lia.
  - split; [constructor; cbn; try done; try lia; apply W|]. split; [done|]. unfold rest, position_of. cbn [byte_pos bit_pos bs_data].
    rewrite drop_drop. f_equal. lia.
Qed.
Lemma read_bits_run n : ∀ b i res, wf b → 0 ≤ i → i + Z.of_nat n ≤ 31 → 0 ≤ res < 2 ^ i →
  ∃ b', read_bits_from n i res b = Some (res + 2 ^ i * bits_value (take n (rest b)), b') ∧ advanced n b b'.
Proof.
  induction n as [|n IH]; intros b i res W Hi Hn Hr; cbn [read_bits_from].
  { exists b. cbn. rewrite Z.mul_0_r, Z.add_0_r. split; [done|]. split; [done|]. split; [done|]. by rewrite drop_0. }
  rewrite (bind_Some _ _ _ _ _ (eq_refl : get b = Some (b, b))). destruct (Z.leb_spec (bs_size b) (byte_pos b)).
  { pose proof (wf_byte _ W). assert (rest b = []) as E by (apply rest_nil; [done|lia]). exists b. rewrite E. cbn. rewrite Z.mul_0_r, Z.add_0_r.
    split; [done|]. split; [done|]. split; [done|]. rewrite E. done. }
  destruct (rest_cons b W ltac:(lia)) as (x & Ex & Er & Hx). unfold get_byte at 1.
  assert ((λ b0 : bitstream, match at_ (bs_data b0) (byte_pos b) with Some x => Some (x, b0) | None => None end) b = Some (x, b)) as Eg by by rewrite Ex.
  rewrite (bind_Some _ _ _ _ _ Eg). rewrite land_1. pose proof (step_advanced b W ltac:(lia)) as Hadv. match type of Hadv with advanced _ _ ?x => set (b1 := x) in Hadv end.
  assert ((if 8 <=? bit_pos b + 1 then set_pos (u32 (byte_pos b + 1)) 0 else set_pos (byte_pos b) (bit_pos b + 1)) b = Some (tt, b1)) as Es by (unfold b1; by destruct (8 <=? bit_pos b + 1)).
  rewrite (bind_Some _ _ _ _ _ Es). rewrite Z.shiftl_mul_pow2 by done. set (t := Z.testbit x (bit_pos b)) in *.
  assert (2 ^ i ≤ 2 ^ 30) as Hp by (apply Z.pow_le_mono_r; lia). assert (0 ≤ Z.b2z t ≤ 1) as Ht by (destruct t; cbn; lia).
  rewrite u32_small by nia. rewrite Z.lor_comm, lor_add by done.
  destruct (IH b1 (i + 1) (Z.b2z t * 2 ^ i + res) (proj1 Hadv)) as (b' & R & A); [lia|lia|rewrite Z.pow_add_r by lia; nia|]. exists b'. split.
  - rewrite R, (proj2 (proj2 Hadv)). rewrite Er at 2. cbn [take bits_value]. f_equal. f_equal. rewrite Z.pow_add_r by lia. lia.
  - apply (advanced_trans 1 n _ b1); done.
Qed.
Lemma bs_read_bits_run n b : wf b → Z.of_nat n ≤ 31 → ∃ b', bs_read_bits n b = Some (bits_value (take n (rest b)), b') ∧ advanced n b b'.
Proof. intros W Hn. destruct (read_bits_run n b 0 0 W) as (b' & R & A); [lia|lia|lia|]. exists b'. split; [|done]. unfold bs_read_bits. rewrite R. do 2 f_equal. lia. Qed.

(** ** Every run has an outcome *)
Definition later (b b' : bitstream) : Prop := wf b' ∧ bs_data b' = bs_data b ∧ bs_size b' = bs_size b ∧ position_of b ≤ position_of b'.
Lemma later_refl b : wf b → later b b.
Proof. done. Qed.
Lemma later_trans b b' b'' : later b b' → later b' b'' → later b b''.
Proof. intros (W1 & D1 & S1 & P1) (W2 & D2 & S2 & P2). unfold later. split; [done|]. split; [congruence|]. split; [congruence|lia]. Qed.
Lemma advanced_later n b b' : wf b → advanced n b b' → later b b'.
Proof.
  intros W (W' & D & R). split; [done|]. split; [done|]. pose proof (wf_size _ W). pose proof (wf_size _ W'). rewrite D in *. split; [congruence|].
  pose proof (rest_length _ W). pose proof (rest_length _ W'). assert (length (rest b') ≤ length (rest b))%nat by (rewrite R, length_drop; lia). lia.
Qed.
Lemma wp_bits n b (Q : Z → bitstream → Prop) : wf b → Z.of_nat n ≤ 31 →
  (∀ v b', later b b' → advanced n b b' → 0 ≤ v < 2 ^ Z.of_nat n → Q v b') → wp (bs_read_bits n) Q b.
Proof.
  intros W Hn HQ. destruct (bs_read_bits_run n b W Hn) as (b' & R & A). eexists _, b'. split; [exact R|]. apply HQ; [by eapply advanced_later|done|].
  pose proof (bits_value_bound (take n (rest b))) as Hv. assert (2 ^ Z.of_nat (length (take n (rest b))) ≤ 2 ^ Z.of_nat n); [|lia].
  apply Z.pow_le_mono_r; [lia|]. rewrite length_take. lia.
Qed.
Lemma wp_defined {A} (o : option A) a (Q : A → bitstream → Prop) b : o = Some a → Q a b → wp (defined o) Q b.
Proof. intros -> HQ. by exists a, b. Qed.
(** A result or an error, in a later state. *)
Definition ends {A} (m : EM A) (b : bitstream) (P : A → Prop) : Prop := wp m (λ r b', later b b' ∧ match r with Some a => P a | None => True end) b.
Lemma ends_err {A} b (P : A → Prop) : wf b → ends err b P.
Proof. intros W. by exists None, b. Qed.
Lemma ends_ok {A} (a : A) b (P : A → Prop) : wf b → P a → ends (ok a) b P.
Proof. intros W HP. by exists (Some a), b. Qed.
Lemma ends_later {A} (m : EM A) b b' (P : A → Prop) : later b b' → ends m b' P → wp m (λ r b', later b b' ∧ match r with Some a => P a | None => True end) b'.
Proof. intros L He. eapply wp_mono; [exact He|]. intros r b2 [L2 HP]. split; [by eapply later_trans|done]. Qed.
Lemma ends_bits {A} n (k : Z → EM A) b P : wf b → Z.of_nat n ≤ 31 → (∀ v b', later b b' → 0 ≤ v < 2 ^ Z.of_nat n → ends (k v) b' P) → ends (bind (bs_read_bits n) k) b P.
Proof. intros W Hn Hk. apply wp_bind, wp_bits; [done|done|]. intros v b' L _ Hv. apply ends_later; auto. Qed.
Lemma ends_defined {A B} (o : option B) x (k : B → EM A) b P : o = Some x → ends (k x) b P → ends (bind (defined o) k) b P.
Proof. intros -> Hk. exact Hk. Qed.
Lemma ends_ebind {A B} (m : EM A) (k : A → EM B) b (P : A → Prop) (Q : B → Prop) : wf b → ends m b P → (∀ a b', later b b' → P a → ends (k a) b' Q) → ends (ebind m k) b Q.
Proof.
  intros W Hm Hk. apply wp_bind. eapply wp_mono; [exact Hm|]. intros [a|] b' [L HP]; [apply ends_later; auto|]. apply wp_ret. done.
Qed.

(** *** Trees *)
Definition tree_below (n : Z) (t : huffman_tree) : Prop := Forall (λ x, 0 ≤ x.2 < n) (codes t).
Lemma decode_rows_run t n rs b code : tree_below n t → wf b → wp (decode_rows rs (codes t) code) (λ v b', later b b' ∧ (v = -1 ∨ 0 ≤ v < n)) b.
Proof.
  unfold tree_below. intros Ht. revert b code. induction rs as [|[[mx mn] vp] rs IH]; intros b code W; cbn [decode_rows].
  { apply wp_ret. split; [done|by left]. }
  apply wp_bind, wp_bits; [done|lia|]. intros v b' L _ _. case_match eqn:E1.
  - case_match eqn:E2; [|apply wp_ret; split; [done|by left]]. apply andb_true_iff in E2 as [E2 E3]. apply Z.leb_le in E2. apply Z.ltb_lt in E3.
    set (idx := vp + _) in *. destruct (lookup_lt_is_Some_2 (codes t) (Z.to_nat idx) ltac:(lia)) as [x Ex].
    apply wp_bind, (wp_defined _ x); [done|]. apply wp_ret. split; [done|]. right. rewrite Forall_lookup in Ht. by apply (Ht _ _ Ex).
  - eapply wp_mono; [apply IH, L|]. intros v' b2 [L2 Hv]. split; [by eapply later_trans|done].
Qed.
Lemma decode_run t n b : tree_below n t → wf b → wp (huffman_decode t) (λ v b', later b b' ∧ (v = -1 ∨ 0 ≤ v < n)) b.
Proof. apply decode_rows_run. Qed.
Lemma ends_decode {A} t n (k : Z → EM A) b P : tree_below n t → wf b → (∀ v b', later b b' → v = -1 ∨ 0 ≤ v < n → ends (k v) b' P) → ends (bind (huffman_decode t) k) b P.
Proof. intros Ht W Hk. apply wp_bind. eapply wp_mono; [by apply decode_run|]. intros v b' [L Hv]. apply ends_later; auto. Qed.
Lemma exchange_perm x l m r : exchange x l = (m, r) → m :: r ≡ₚ x :: l.
Proof.
  revert x m r. induction l as [|y l IH]; intros x m r; cbn [exchange]; [by intros [= <- <-]|]. destruct (before y x).
  - destruct (exchange y l) as [m' r'] eqn:E. intros [= <- <-]. rewrite perm_swap, (IH _ _ _ E). done.
  - destruct (exchange x l) as [m' r'] eqn:E. intros [= <- <-]. rewrite perm_swap, (IH _ _ _ E), perm_swap. done.
Qed.
Lemma sort_perm n l : (length l ≤ n)%nat → sort_codes n l ≡ₚ l.
Proof.
  revert l. induction n as [|n IH]; intros [|x l] Hl; try done. cbn [sort_codes length] in *. destruct (exchange x l) as [m r] eqn:E.
  pose proof (exchange_perm _ _ _ _ E) as Hp. rewrite IH; [done|]. apply Permutation_length in Hp. cbn in Hp. lia.
Qed.
(** The pairs of the lengths that are not 0 and their symbols, from [i] on. *)
Fixpoint used_codes (lengths : list Z) (i : Z) : list (Z * Z) :=
  match lengths with [] => [] | len :: lengths => if 0 <? len then (len, i) :: used_codes lengths (i + 1) else used_codes lengths (i + 1) end.
Definition count_of (len : Z) (lengths : list Z) : Z := Z.of_nat (length (filter (λ x, x = len) lengths)).
Lemma count_cons len x lengths : count_of len (x :: lengths) = (if decide (x = len) then 1 else 0) + count_of len lengths.
Proof. unfold count_of. rewrite filter_cons. case_decide; cbn [length]; lia. Qed.
Definition lengths_ok (lengths : list Z) : Prop := Forall (λ x, 0 ≤ x ≤ 15) lengths ∧ (length lengths ≤ 288)%nat.
Lemma used_length lengths i : (length (used_codes lengths i) ≤ length lengths)%nat.
Proof. revert i. induction lengths as [|x l IH]; intros i; cbn; [lia|]. specialize (IH (i + 1)). destruct (0 <? x); cbn; lia. Qed.
Lemma used_below lengths i x : x ∈ used_codes lengths i → 0 < x.1 ∧ i ≤ x.2 < i + zlen lengths ∧ lengths !! Z.to_nat (x.2 - i) = Some x.1.
Proof.
  revert i. induction lengths as [|y l IH]; intros i; cbn [used_codes]; [by intros ?%elem_of_nil|]. rewrite zlen_cons. pose proof (zlen_nonneg l).
  assert (x ∈ used_codes l (i + 1) → 0 < x.1 ∧ i ≤ x.2 < i + (1 + zlen l) ∧ (y :: l) !! Z.to_nat (x.2 - i) = Some x.1) as Hin.
  { intros (H1 & H2 & H3)%IH. split; [done|]. split; [lia|]. replace (Z.to_nat (x.2 - i)) with (S (Z.to_nat (x.2 - (i + 1)))) by lia. done. }
  destruct (Z.ltb_spec 0 y); [|done]. intros [-> | Hx]%elem_of_cons; [|auto]. cbn. split; [done|]. split; [lia|]. by rewrite Z.sub_diag.
Qed.
Lemma count_run lengths i bl entries : Forall (λ x, 0 ≤ x ≤ 15) lengths → length bl = 16%nat → (length entries + length lengths ≤ 288)%nat →
  (∀ len, 0 ≤ len ≤ 15 → 0 ≤ nth (Z.to_nat len) bl 0 ∧ nth (Z.to_nat len) bl 0 + zlen lengths ≤ 288) →
  ∃ bl', count_lengths lengths i bl entries = Some (bl', entries ++ used_codes lengths i) ∧ length bl' = 16%nat ∧
    ∀ len, 1 ≤ len ≤ 15 → nth (Z.to_nat len) bl' 0 = nth (Z.to_nat len) bl 0 + count_of len lengths.
Proof.
  intros Hl. revert i bl entries. induction Hl as [|x lengths Hx Hl IH]; intros i bl entries Lb Le Hb; cbn [count_lengths used_codes length].
  { exists bl. rewrite app_nil_r. split; [done|]. split; [done|]. intros len _. unfold count_of. cbn. lia. }
  cbn [length] in Le. pose proof (zlen_nonneg lengths). rewrite zlen_cons in Hb. destruct (Z.ltb_spec 0 x).
  - assert ((MAX_HUFFMAN_CODES <=? Z.of_nat (length entries)) = false) as -> by (apply Z.leb_gt; unfold MAX_HUFFMAN_CODES; lia).
    rewrite (at_nth bl) by lia. cbn [mbind option_bind]. rewrite set_run by (unfold zlen; lia). cbn [mbind option_bind]. destruct (Hb x ltac:(lia)) as [Hb1 Hb2].
    unfold u16 at 1. rewrite Z.mod_small by lia.
    destruct (IH (i + 1) (<[Z.to_nat x:=nth (Z.to_nat x) bl 0 + 1]> bl) (entries ++ [(x, i)])) as (bl' & R & L & Hc).
    + by rewrite length_insert.
    + rewrite length_app. cbn. lia.
    + intros len Hlen. rewrite nth_lookup. destruct (decide (len = x)) as [->|Hne]; [rewrite list_lookup_insert_eq by lia; cbn; lia|].
      rewrite list_lookup_insert_ne by lia. rewrite <- nth_lookup. specialize (Hb len Hlen). lia.
    + exists bl'. rewrite R, <- app_assoc. split; [done|]. split; [done|]. intros len Hlen. rewrite Hc, count_cons, nth_lookup by done.
      case_decide as E; [subst; rewrite list_lookup_insert_eq by lia; cbn; lia|]. rewrite list_lookup_insert_ne by lia. rewrite <- nth_lookup. lia.
  - destruct (IH (i + 1) bl entries) as (bl' & R & L & Hc); [done|lia|intros len Hlen; specialize (Hb len Hlen); lia|]. exists bl'. split; [done|].
    split; [done|]. intros len Hlen. rewrite Hc, count_cons by done. rewrite decide_False by lia. lia.
Qed.
Lemma gen_total n len code bl l : length bl = 16%nat → 0 ≤ len → len + Z.of_nat n ≤ 16 → is_Some (gen_codes n len code bl l).
Proof.
  intros Lb. revert len code. induction n as [|n IH]; intros len code H0 Hn; cbn [gen_codes]; [done|]. rewrite (at_nth bl) by lia. cbn [mbind option_bind].
  case_match; (edestruct IH as [r ->]; [..|done]; lia).
Qed.
Lemma build_run lengths : lengths_ok lengths → ∃ bl r, huffman_build lengths = Some (mk_tree (sort_codes (length (used_codes lengths 0)) (used_codes lengths 0)) r) ∧
  gen_codes 15 1 0 bl (sort_codes (length (used_codes lengths 0)) (used_codes lengths 0)) = Some r ∧ length bl = 16%nat ∧
  ∀ len, 1 ≤ len ≤ 15 → nth (Z.to_nat len) bl 0 = count_of len lengths.
Proof.
  intros [Hl Hn]. unfold huffman_build. destruct (count_run lengths 0 (replicate 16 0) []) as (bl & -> & Lb & Hc); [done|done|cbn; lia| |].
  { intros len Hlen. rewrite nth_lookup, lookup_replicate_2 by lia. cbn. unfold zlen. lia. }
  cbn [mbind option_bind app]. destruct (gen_total 15 1 0 bl (sort_codes (length (used_codes lengths 0)) (used_codes lengths 0)) Lb) as [r E]; [lia|lia|]. rewrite E.
  exists bl, r. split; [done|]. split; [done|]. split; [done|]. intros len Hlen. rewrite Hc by done. rewrite nth_lookup, lookup_replicate_2 by lia. done.
Qed.
Lemma build_below lengths : lengths_ok lengths → ∃ t, huffman_build lengths = Some t ∧ tree_below (zlen lengths) t.
Proof.
  intros Hl. destruct (build_run lengths Hl) as (bl & r & -> & _). eexists. split; [done|]. unfold tree_below. cbn [codes]. rewrite sort_perm by done.
  apply Forall_forall. intros x Hx%used_below. lia.
Qed.

(** *** The lengths of a dynamic block *)
Record arrays_ok (a : list Z * list Z) : Prop := {
  ao_ll : length a.1 = 288%nat; ao_dist : length a.2 = 32%nat; ao_1 : Forall (λ x, 0 ≤ x ≤ 15) a.1; ao_2 : Forall (λ x, 0 ≤ x ≤ 15) a.2 }.
Section lengths.
Context (hlit total : Z) (Hh : 257 ≤ hlit ≤ 288) (Ht : hlit ≤ total ≤ hlit + 32).
Lemma put_length_run i v a : 0 ≤ i < total → 0 ≤ v ≤ 15 → arrays_ok a → ∃ a', put_length hlit i v a = Some a' ∧ arrays_ok a'.
Proof.
  intros Hi Hv [L1 L2 F1 F2]. unfold put_length. destruct (Z.ltb_spec i hlit); rewrite set_run by (unfold zlen; lia); cbn [mbind option_bind]; eexists; (split; [done|]);
    constructor; cbn [fst snd]; rewrite ?length_insert; try done; by apply Forall_insert.
Qed.
Lemma repeat_run n v i a : 0 ≤ i ≤ total → 0 ≤ v ≤ 15 → arrays_ok a →
  ∃ i' a', repeat_length n hlit total v i a = Some (i', a') ∧ arrays_ok a' ∧ i ≤ i' ≤ total ∧ ((0 < n)%nat → i < total → i < i').
Proof.
  revert i a. induction n as [|n IH]; intros i a Hi Hv Ha; cbn [repeat_length].
  { exists i, a. split; [done|]. split; [done|]. lia. }
  destruct (Z.ltb_spec i total).
  - destruct (put_length_run i v a ltac:(lia) Hv Ha) as (a1 & -> & Ha1). cbn [mbind option_bind]. destruct (IH (i + 1) a1 ltac:(lia) Hv Ha1) as (i' & a' & R & Ha' & Hi' & _).
    exists i', a'. split; [done|]. split; [done|]. lia.
  - exists i, a. split; [done|]. split; [done|]. lia.
Qed.
Lemma read_lengths_run t fuel i a b : tree_below 19 t → total - i < Z.of_nat fuel → 0 ≤ i ≤ total → arrays_ok a → wf b →
  ends (read_lengths fuel t hlit total i a) b arrays_ok.
Proof.
  intros Hb. revert i a b. induction fuel as [|fuel IH]; intros i a b Hf Hi Ha W; [lia|]. cbn [read_lengths]. destruct (Z.leb_spec total i); [by apply ends_ok|].
  apply (ends_decode t 19); [done|done|]. intros sym b' [W' _] Hs. clear b W. rename b' into b, W' into W. destruct (Z.ltb_spec sym 0); [by apply ends_err|].
  destruct (Z.ltb_spec sym 16).
  { assert (0 ≤ u8 sym ≤ 15) as Hu by (unfold u8; rewrite Z.mod_small by lia; lia). destruct (put_length_run i (u8 sym) a ltac:(lia) Hu Ha) as (a1 & E & Ha1).
    apply (ends_defined _ a1); [done|]. apply IH; auto; lia. }
  assert (∀ n v, (0 < n)%nat → 0 ≤ v ≤ 15 → ∀ b, wf b →
    ends (bind (defined (repeat_length n hlit total v i a)) (λ x, read_lengths fuel t hlit total x.1 x.2)) b arrays_ok) as Hrep.
  { intros n v Hn Hv b2 W2. destruct (repeat_run n v i a ltac:(lia) Hv Ha) as (i' & a' & R & Ha' & Hi' & Hgt). apply (ends_defined _ (i', a')); [done|]. cbn [fst snd].
    apply IH; auto; lia. }
  destruct (Z.eqb_spec sym 16); [|destruct (Z.eqb_spec sym 17); [|destruct (Z.eqb_spec sym 18); [|lia]]].
  - destruct (Z.eqb_spec i 0); [by apply ends_err|]. apply ends_bits; [done|lia|]. intros v b2 [W2 _] Hv. destruct Ha as [L1 L2 F1 F2].
    rewrite Forall_forall in F1, F2. destruct (Z.leb_spec i hlit).
    + apply (ends_defined _ (nth (Z.to_nat (i - 1)) a.1 0)); [apply at_nth; lia|]. apply Hrep; [lia| |done]. apply F1. apply list_elem_of_In, nth_In. lia.
    + apply (ends_defined _ (nth (Z.to_nat (i - hlit - 1)) a.2 0)); [apply at_nth; lia|]. apply Hrep; [lia| |done]. apply F2. apply list_elem_of_In, nth_In. lia.
  - apply ends_bits; [done|lia|]. intros v b2 [W2 _] Hv. apply Hrep; [lia|lia|done].
  - apply ends_bits; [done|lia|]. intros v b2 [W2 _] Hv. apply Hrep; [lia|lia|done].
Qed.
End lengths.
Definition cl_ok (cl : list Z) : Prop := length cl = 19%nat ∧ Forall (λ x, 0 ≤ x ≤ 15) cl.
Lemma read_cl_run order cl b : Forall (λ x, 0 ≤ x < 19) order → cl_ok cl → wf b → wp (read_cl order cl) (λ cl' b', later b b' ∧ cl_ok cl') b.
Proof.
  intros Ho. revert cl b. induction Ho as [|o order Ho1 Ho IH]; intros cl b [Lc Fc] W; cbn [read_cl]; [by apply wp_ret|].
  apply wp_bind, wp_bits; [done|lia|]. intros v b' L _ Hv. apply wp_bind, (wp_defined _ (<[Z.to_nat o := v]> cl)); [apply set_run; unfold zlen; lia|].
  eapply wp_mono; [apply IH; [|apply L]|].
  - split; [by rewrite length_insert|]. apply Forall_insert; [done|]. cbn in Hv. lia.
  - intros cl' b2 [L2 Hc]. split; [by eapply later_trans|done].
Qed.
Definition trees_ok (t : huffman_tree * huffman_tree) : Prop := tree_below 288 t.1 ∧ tree_below 288 t.2.
Lemma lengths_ok_take n l : (length l ≤ 288)%nat → Forall (λ x, 0 ≤ x ≤ 15) l → lengths_ok (take n l).
Proof. intros Hl Hf. split; [by apply Forall_take|]. rewrite length_take. lia. Qed.
Lemma tree_mono n m t : n ≤ m → tree_below n t → tree_below m t.
Proof. intros H Hf. eapply Forall_impl; [exact Hf|]. intros x Hx. cbn in *. lia. Qed.
Lemma build_288 l : lengths_ok l → ∃ t, huffman_build l = Some t ∧ tree_below 288 t.
Proof. intros Hl. destruct (build_below l Hl) as (t & E & B). exists t. split; [done|]. eapply tree_mono; [|exact B]. destruct Hl. unfold zlen. lia. Qed.
Lemma dynamic_run b : wf b → ends dynamic_trees b trees_ok.
Proof.
  intros W. apply ends_bits; [done|lia|]. intros n1 b' [W' _] H1. clear b W. rename b' into b, W' into W. apply ends_bits; [done|lia|]. intros n2 b' [W' _] H2. clear b W. rename b' into b, W' into W.
  apply ends_bits; [done|lia|]. intros n3 b' [W' _] H3. clear b W. rename b' into b, W' into W. cbv zeta. case_match eqn:E; [by apply ends_err|]. apply orb_false_iff in E as [E1 E2].
  apply Z.ltb_ge in E1, E2. apply wp_bind. eapply wp_mono.
  { apply read_cl_run; [|split; [done|by apply Forall_replicate]|exact W]. apply Forall_take. by repeat constructor. }
  intros cl b2 [L2 [Lc Fc]]. apply ends_later; [done|]. destruct (build_below cl) as (t & Et & Bt); [split; [done|lia]|]. apply (ends_defined _ t); [done|].
  assert (zlen cl = 19) as Lcl by (unfold zlen; lia). rewrite Lcl in Bt. cbn [Z.of_nat] in *. change (2 ^ Z.of_nat 5) with 32 in *. change (2 ^ Z.of_nat 4) with 16 in *.
  eapply ends_ebind; [apply L2|apply (read_lengths_run (n1 + 257)); try done; try lia; [|apply L2]|].
  - constructor; try done; cbn [fst snd]; by apply Forall_replicate.
  - intros a b3 L3 [A1 A2 A3 A4]. destruct (build_288 (take (Z.to_nat (n1 + 257)) a.1)) as (tl & El & Bl); [apply lengths_ok_take; [lia|done]|].
    destruct (build_288 (take (Z.to_nat (n2 + 1)) a.2)) as (td & Ed & Bd); [apply lengths_ok_take; [lia|done]|].
    apply (ends_defined _ tl); [done|]. apply (ends_defined _ td); [done|]. apply ends_ok; [apply L3|done].
Qed.

(** *** The blocks *)
Definition out_ok (n : Z) (out : list Z) : Prop := bytes out ∧ zlen out ≤ n.
Lemma emit_run n out w : zlen out + zlen w ≤ n → emit n out w = Some (out ++ w).
Proof. intros H. unfold emit. by rewrite (proj2 (Z.leb_le _ _)). Qed.
Lemma copy_run m n src out : 0 ≤ src < zlen out → zlen out + Z.of_nat n ≤ m → bytes out → ∃ out', copy_back m n src out = Some out' ∧ bytes out' ∧ zlen out' = zlen out + Z.of_nat n.
Proof.
  revert src out. induction n as [|n IH]; intros src out Hs Hm Hb; cbn [copy_back]; [exists out; split; [done|]; split; [done|lia]|].
  rewrite at_nth by (unfold zlen in Hs; lia). cbn [mbind option_bind]. rewrite emit_run by (rewrite zlen_cons, zlen_nil; lia). cbn [mbind option_bind].
  destruct (IH (src + 1) (out ++ [nth (Z.to_nat src) out 0])) as (out' & R & B & L); [rewrite zlen_app, zlen_cons, zlen_nil; lia..| |].
  - apply bytes_app; [done|]. apply bytes_cons; [|apply bytes_nil]. unfold bytes in Hb. rewrite Forall_forall in Hb. apply Hb, list_elem_of_In, nth_In. unfold zlen in Hs. lia.
  - exists out'. split; [done|]. split; [done|]. rewrite L, zlen_app, zlen_cons, zlen_nil. lia.
Qed.
Lemma length_tables i : 0 ≤ i < 29 → ∃ v e, at_ length_base i = Some v ∧ at_ length_extra i = Some e ∧ 3 ≤ v ≤ 258 ∧ 0 ≤ e ≤ 5.
Proof.
  intros Hi. assert (forallb (λ i, let v := nth (Z.to_nat i) length_base 0 in let e := nth (Z.to_nat i) length_extra 0 in (3 <=? v) && (v <=? 258) && (0 <=? e) && (e <=? 5)) (seqZ 0 29) = true)
    as Hf by (vm_compute; reflexivity). rewrite forallb_forall in Hf. specialize (Hf i ltac:(apply list_elem_of_In, elem_of_seqZ; lia)). cbv zeta in Hf.
  rewrite !at_nth by (cbn; lia). do 2 eexists. do 2 (split; [done|]). lia.
Qed.
Lemma dist_tables i : 0 ≤ i < 30 → ∃ v e, at_ dist_base i = Some v ∧ at_ dist_extra i = Some e ∧ 1 ≤ v ≤ 24577 ∧ 0 ≤ e ≤ 13.
Proof.
  intros Hi. assert (forallb (λ i, let v := nth (Z.to_nat i) dist_base 0 in let e := nth (Z.to_nat i) dist_extra 0 in (1 <=? v) && (v <=? 24577) && (0 <=? e) && (e <=? 13)) (seqZ 0 30) = true)
    as Hf by (vm_compute; reflexivity). rewrite forallb_forall in Hf. specialize (Hf i ltac:(apply list_elem_of_In, elem_of_seqZ; lia)). cbv zeta in Hf.
  rewrite !at_nth by (cbn; lia). do 2 eexists. do 2 (split; [done|]). lia.
Qed.
Lemma ends_extra {A} base extra (k : Z → EM A) b P : wf b → 0 ≤ base < 2 ^ 16 → 0 ≤ extra ≤ 13 →
  (∀ v b', later b b' → base ≤ v < 2 ^ 17 → ends (k v) b' P) → ends (bind (plus_extra base extra) k) b P.
Proof.
  intros W Hb He Hk. apply wp_bind. unfold plus_extra. destruct (Z.ltb_spec 0 extra).
  - apply wp_bind, wp_bits; [done|lia|]. intros v b' L _ Hv. apply wp_ret. apply ends_later; [done|]. rewrite Z2Nat.id in Hv by lia.
    assert (2 ^ extra ≤ 2 ^ 13) by (apply Z.pow_le_mono_r; lia). rewrite u32_small by lia. apply Hk; [done|lia].
  - apply wp_ret. apply Hk; [done|lia].
Qed.
Lemma codes_run fuel t1 t2 n out b : tree_below 288 t1 → tree_below 288 t2 → wf b → 0 ≤ n < 2 ^ 31 → out_ok n out → n - zlen out < Z.of_nat fuel →
  ends (inflate_codes fuel t1 t2 n out) b (out_ok n).
Proof.
  intros H1 H2 W Hn. revert out b W. induction fuel as [|fuel IH]; intros out b W [Hb Hl] Hf; [lia|]. cbn [inflate_codes]. apply (ends_decode t1 288); [done|done|].
  intros sym b' [W' _] Hs. clear b W. rename b' into b, W' into W. destruct (Z.ltb_spec sym 0); [by apply ends_err|]. destruct (Z.ltb_spec sym 256).
  { destruct (Z.leb_spec n (zlen out)); [by apply ends_err|]. apply (ends_defined _ (out ++ [u8 sym])); [apply emit_run; rewrite zlen_cons, zlen_nil; lia|]. apply IH; [done| |rewrite zlen_app, zlen_cons, zlen_nil; lia]. split; [|rewrite zlen_app, zlen_cons, zlen_nil; lia].
    apply bytes_app; [done|]. apply bytes_cons; [apply is_byte_u8|apply bytes_nil]. }
  destruct (Z.eqb_spec sym 256); [by apply ends_ok|]. cbv zeta. case_match eqn:E; [by apply ends_err|]. apply orb_false_iff in E as [E1 E2]. apply Z.ltb_ge in E1. apply Z.leb_gt in E2.
  destruct (length_tables (sym - 257) ltac:(lia)) as (v & e & Ev & Ee & Hv & He). apply (ends_defined _ v); [done|]. apply (ends_defined _ e); [done|].
  apply ends_extra; [done|lia|lia|]. intros len b' [W' _] Hlen. clear b W. rename b' into b, W' into W. apply (ends_decode t2 288); [done|done|]. intros ds b' [W' _] Hds. clear b W. rename b' into b, W' into W.
  case_match eqn:E; [by apply ends_err|]. apply orb_false_iff in E as [E3 E4]. apply Z.ltb_ge in E3. apply Z.leb_gt in E4.
  destruct (dist_tables ds ltac:(lia)) as (dv & de & Edv & Ede & Hdv & Hde). apply (ends_defined _ dv); [done|]. apply (ends_defined _ de); [done|].
  apply ends_extra; [done|lia|lia|]. intros dist b' [W' _] Hdist. clear b W. rename b' into b, W' into W. destruct (Z.ltb_spec (zlen out) dist); [by apply ends_err|].
  pose proof (zlen_nonneg out). rewrite u32_small by lia. destruct (Z.ltb_spec n (zlen out + len)); [by apply ends_err|].
  destruct (copy_run n (Z.to_nat len) (zlen out - dist) out) as (out' & R & B & L); [lia|lia|done|]. apply (ends_defined _ out'); [done|].
  apply IH; [done|split; [done|lia]|lia].
Qed.
Lemma align_run b : wf b → ∃ b', bs_align_byte b = Some (tt, b') ∧ later b b' ∧ bit_pos b' = 0 ∧ (rest b = [] → b' = b ∧ byte_pos b = bs_size b).
Proof.
  intros W. pose proof (wf_size _ W) as Ws. pose proof (wf_small _ W). pose proof (wf_byte _ W). pose proof (wf_bit _ W). pose proof (wf_end _ W). pose proof (rest_length _ W) as Hr.
  unfold bs_align_byte. rewrite (bind_Some _ _ _ _ _ (eq_refl : get b = Some (b, b))). unfold position_of in *. destruct (Z.ltb_spec 0 (bit_pos b)).
  - eexists. split; [reflexivity|]. rewrite u32_small by lia. split; [|split; [done|intros E; rewrite E in Hr; cbn in Hr; lia]].
    split; [constructor; cbn; try done; try lia; apply W|]. split; [done|]. split; [done|]. unfold position_of. cbn. lia.
  - exists b. split; [done|]. split; [done|]. split; [lia|]. intros E. rewrite E in Hr. cbn in Hr. split; [done|lia].
Qed.
Lemma stored_run n out b : wf b → 0 ≤ n < 2 ^ 31 → out_ok n out → ends (inflate_stored n out) b (out_ok n).
Proof.
  intros W Hn [Hb Hl]. destruct (align_run b W) as (b1 & E & L1 & Hbit & _). apply wp_bind. exists tt, b1. split; [done|]. apply ends_later; [done|].
  clear E. pose proof (proj1 L1) as W1. apply wp_bind, wp_get. pose proof (wf_size _ W1) as Ws. pose proof (wf_small _ W1). pose proof (wf_byte _ W1).
  pose proof (wf_bytes _ W1) as Wb. rewrite u32_small by lia. destruct (Z.ltb_spec (bs_size b1) (byte_pos b1 + 4)); [by apply ends_err|].
  assert (∀ i, 0 ≤ i < bs_size b1 → ∃ x, get_byte i b1 = Some (x, b1) ∧ is_byte x) as Hget.
  { intros i Hi. unfold get_byte. rewrite at_nth by (unfold zlen in *; lia). eexists. split; [reflexivity|]. unfold bytes in Wb. rewrite Forall_forall in Wb.
    apply Wb, list_elem_of_In, nth_In. unfold zlen in *. lia. }
  destruct (Hget (byte_pos b1) ltac:(lia)) as (l0 & G0 & B0). destruct (Hget (byte_pos b1 + 1) ltac:(lia)) as (l1 & G1 & B1').
  destruct (Hget (byte_pos b1 + 2) ltac:(lia)) as (n0 & G2 & B2). destruct (Hget (byte_pos b1 + 3) ltac:(lia)) as (n1 & G3 & B3). unfold is_byte in *.
  do 4 (apply wp_bind; eexists _, b1; split; [eassumption|]). cbv zeta. case_match; [by apply ends_err|].
  assert (0 ≤ Z.lor l0 (u16 (Z.shiftl l1 8)) < 2 ^ 16) as Hlen by (apply lor_bound; [lia|lia|apply Z.mod_pos_bound; lia]). set (len := Z.lor _ _) in *.
  pose proof (zlen_nonneg out). rewrite !u32_small by lia. destruct (Z.ltb_spec n (zlen out + len)); [by apply ends_err|].
  destruct (Z.ltb_spec (bs_size b1) (byte_pos b1 + 4 + len)); [by apply ends_err|]. rewrite slice_Some by lia. apply (ends_defined _ _ _ _ _ eq_refl).
  set (w := take _ _). assert (zlen w = len) as Lw by (unfold w; apply zlen_take; rewrite zlen_drop; lia). apply (ends_defined _ (out ++ w)); [apply emit_run; lia|].
  apply wp_bind. eexists tt, _. split; [reflexivity|]. apply wp_ret. split.
  - split; [constructor; cbn; try done; try lia|]. split; [done|]. split; [done|]. unfold position_of. cbn. lia.
  - split; [apply bytes_app; [done|]; by apply bytes_take, bytes_drop|]. rewrite zlen_app. lia.
Qed.
Lemma fixed_trees : ∃ l d, build_fixed_ll_tree = Some l ∧ build_fixed_dist_tree = Some d ∧ tree_below 288 l ∧ tree_below 288 d.
Proof.
  destruct (build_288 fixed_ll_lengths) as (l & El & Bl).
  { unfold fixed_ll_lengths. split; [|rewrite !length_app, !length_replicate; lia]. rewrite !Forall_app. repeat split; apply Forall_replicate; lia. }
  assert (lengths_ok (replicate 32 5)) as Hd by (split; [apply Forall_replicate; lia|rewrite length_replicate; lia]).
  destruct (build_288 _ Hd) as (d & Ed & Bd).
  exists l, d. exact (conj El (conj Ed (conj Bl Bd))).
Qed.
Lemma block_run btype n out b : wf b → 0 ≤ n < 2 ^ 31 → out_ok n out → ends (inflate_block btype n out) b (out_ok n).
Proof.
  intros W Hn Ho. unfold inflate_block. destruct (Z.eqb_spec btype 0); [by apply stored_run|]. case_match; [|by apply ends_err].
  eapply (ends_ebind _ _ _ trees_ok); [done| |].
  - destruct (Z.eqb_spec btype 1); [|by apply dynamic_run]. destruct fixed_trees as (l & d & El & Ed & Bl & Bd).
    apply (ends_defined _ l); [exact El|]. apply (ends_defined _ d); [exact Ed|]. apply ends_ok; [apply W|exact (conj Bl Bd)].
  - intros [t1 t2] b' L [H1 H2]. apply codes_run; [done|done|apply L|done|done|]. pose proof (zlen_nonneg out). lia.
Qed.
(** At the end of the input a block is taken for a stored one, which fails. *)
Lemma end_fails n out b : wf b → rest b = [] → ∃ b', inflate_stored n out b = Some (None, b') ∧ later b b'.
Proof.
  intros W E. destruct (align_run b W) as (b1 & Ea & L & _ & Hend). destruct (Hend E) as [-> Hp]. exists b. unfold inflate_stored. rewrite (bind_Some _ _ _ _ _ Ea).
  rewrite (bind_Some _ _ _ _ _ (eq_refl : get b = Some (b, b))). pose proof (wf_small _ W). pose proof (wf_size _ W). pose proof (wf_byte _ W). rewrite u32_small by lia.
  destruct (Z.ltb_spec (bs_size b) (byte_pos b + 4)); [done|lia].
Qed.
Lemma loop_run fuel n out b : wf b → 0 ≤ n < 2 ^ 31 → out_ok n out → 8 * bs_size b - position_of b < Z.of_nat fuel → ends (inflate_loop fuel n out) b (out_ok n).
Proof.
  intros W Hn. revert out b W. induction fuel as [|fuel IH]; intros out b W Ho Hf; [pose proof (rest_length _ W); lia|]. cbn [inflate_loop].
  destruct (bs_read_bits_run 1 b W ltac:(lia)) as (b1 & R1 & A1). destruct (bs_read_bits_run 2 b1 (proj1 A1) ltac:(lia)) as (b2 & R2 & A2).
  pose proof (advanced_later _ _ _ W A1) as L1. pose proof (advanced_later _ _ _ (proj1 L1) A2) as L2. pose proof (later_trans _ _ _ L1 L2) as L.
  apply wp_bind. eexists _, b1. split; [exact R1|]. apply wp_bind. eexists _, b2. split; [exact R2|]. apply ends_later; [done|].
  destruct (rest b) as [|x r] eqn:Er.
  - destruct A1 as (W1 & D1 & E1). rewrite Er in E1. cbn in E1. rewrite E1. cbn [take bits_value]. unfold inflate_block. cbn [Z.eqb].
    destruct A2 as (W2 & D2 & E2). rewrite E1 in E2. destruct (end_fails n out b2 W2 E2) as (b3 & R3 & L3). apply wp_bind. exists None, b3. split; [done|]. by apply wp_ret.
  - assert (position_of b < position_of b2) as Hpos.
    { pose proof (rest_length _ W) as H0. pose proof (rest_length _ (proj1 A1)) as Hb1. destruct A1 as (W1 & D1 & E1). rewrite E1, Er, length_drop in Hb1. rewrite Er in H0. cbn [length] in *.
      destruct L1 as (_ & _ & S1 & _). destruct L2 as (_ & _ & _ & P2). lia. }
    eapply (ends_ebind _ _ _ (out_ok n)); [apply L2|by apply block_run; [apply L2|..]|]. intros out' b3 L3 Ho'. case_match; [|apply ends_ok; [apply L3|done]].
    apply IH; [apply L3|done|]. destruct L as (_ & _ & S1 & _). destruct L3 as (_ & _ & S3 & P3). lia.
Qed.


(** ** Canonical codes

    The codes of RFC 1951: those of a length are consecutive numbers, in the order
    of their symbols; [first_code] is the first. *)
Fixpoint first_code (lengths : list Z) (n : nat) : Z :=
  match n with O => 0 | S k => 2 * (first_code lengths k + match k with O => 0 | _ => count_of (Z.of_nat k) lengths end) end.
Definition code_of (lengths : list Z) (s : nat) (l : Z) : Z := first_code lengths (Z.to_nat l) + count_of l (take s lengths).
(** [n] bits of a code from bit [i] on, the highest of its [l] bits first. *)
Definition code_bits (l c : Z) (i n : nat) : list bool := map (λ j, Z.testbit c (l - 1 - Z.of_nat j)) (seq i n).
(** No more codes of a length than there are. *)
Definition kraft (lengths : list Z) : Prop := ∀ n, (1 ≤ n ≤ 15)%nat → first_code lengths n + count_of (Z.of_nat n) lengths ≤ 2 ^ Z.of_nat n.

Lemma before_spec x y : before x y = true ↔ x.1 < y.1 ∨ (x.1 = y.1 ∧ x.2 < y.2).
Proof. unfold before. rewrite orb_true_iff, andb_true_iff, !Z.ltb_lt, Z.eqb_eq. done. Qed.
Lemma before_false x y : before x y = false ↔ y.1 < x.1 ∨ (y.1 = x.1 ∧ y.2 ≤ x.2).
Proof. rewrite <- not_true_iff_false, before_spec. lia. Qed.
Definition not_after (x y : Z * Z) : Prop := before y x = false.
Lemma exchange_min x l m r : exchange x l = (m, r) → not_after m x ∧ Forall (not_after m) r.
Proof.
  unfold not_after. revert x m r. induction l as [|y l IH]; intros x m r; cbn [exchange].
  { intros [= <- <-]. split; [|done]. apply before_false. lia. }
  destruct (before y x) eqn:E.
  - destruct (exchange y l) as [m' r'] eqn:E'. intros [= <- <-]. destruct (IH _ _ _ E') as [Hm Hr]. rewrite before_spec in E. rewrite before_false in Hm.
    assert (before x m' = false) by (apply before_false; lia). split; [done|]. by constructor.
  - destruct (exchange x l) as [m' r'] eqn:E'. intros [= <- <-]. destruct (IH _ _ _ E') as [Hm Hr]. split; [done|]. constructor; [|done].
    rewrite before_false in *. lia.
Qed.
Lemma sort_sorted n l : (length l ≤ n)%nat → StronglySorted not_after (sort_codes n l).
Proof.
  revert l. induction n as [|n IH]; intros [|x l] Hl; try (constructor; fail); [cbn in Hl; lia|]. cbn [sort_codes length] in *. destruct (exchange x l) as [m r] eqn:E.
  pose proof (exchange_perm _ _ _ _ E) as Hp. apply Permutation_length in Hp. cbn in Hp. constructor; [apply IH; lia|].
  destruct (exchange_min _ _ _ _ E) as [_ Hr]. rewrite sort_perm by lia. done.
Qed.
(** The place of an entry is the number of those before it. *)
Lemma sorted_place (S : list (Z * Z)) x : StronglySorted not_after S → NoDup S → x ∈ S → S !! length (filter (λ y : Z * Z, before y x = true) S) = Some x.
Proof.
  induction 1 as [|a S HS IH Ha]; intros Hn Hx; [by apply elem_of_nil in Hx|]. apply NoDup_cons in Hn as [Hna Hn]. rewrite Forall_forall in Ha. unfold not_after in Ha.
  rewrite filter_cons. apply elem_of_cons in Hx as [-> | Hx].
  - rewrite decide_False by (rewrite before_spec; lia). replace (filter _ S) with (@nil (Z * Z)); [done|]. symmetry. apply filter_none.
    intros y Hy. rewrite (Ha y Hy). done.
  - rewrite decide_True; [cbn [length]; by apply IH|]. specialize (Ha x Hx). rewrite before_false in Ha. rewrite before_spec.
    destruct (decide (a = x)) as [->|Hne]; [done|]. destruct a as [a1 a2], x as [x1 x2]. cbn in *. assert (¬ (a1 = x1 ∧ a2 = x2)) by (intros [-> ->]; done). lia.
Qed.
Lemma first_place (S : list (Z * Z)) l i : StronglySorted not_after S → (∃ y, y ∈ S ∧ y.1 = l) → first_of l i S = i + Z.of_nat (length (filter (λ y : Z * Z, y.1 < l) S)).
Proof.
  intros HS. revert i. induction HS as [|a S HS IH Ha]; intros i (y & Hy & E); [by apply elem_of_nil in Hy|]. cbn [first_of]. rewrite Forall_forall in Ha. unfold not_after in Ha.
  rewrite filter_cons. destruct (Z.eqb_spec a.1 l) as [El|El].
  - rewrite decide_False by lia. replace (filter _ S) with (@nil (Z * Z)); [cbn; lia|]. symmetry. apply filter_none. intros z Hz. specialize (Ha z Hz). rewrite before_false in Ha. lia.
  - apply elem_of_cons in Hy as [-> | Hy]; [done|]. pose proof (Ha y Hy) as Hay. rewrite before_false in Hay. rewrite decide_True by lia. rewrite IH by (by exists y). cbn [length]. lia.
Qed.
Lemma used_nodup lengths i : NoDup (used_codes lengths i).
Proof.
  revert i. induction lengths as [|x l IH]; intros i; cbn [used_codes]; [apply NoDup_nil_2|]. destruct (0 <? x); [|done]. apply NoDup_cons. split; [|done].
  intros Hx. apply used_below in Hx as (_ & Hx & _). cbn in Hx. lia.
Qed.
Lemma used_elem lengths i s l : lengths !! s = Some l → 0 < l → (l, i + Z.of_nat s) ∈ used_codes lengths i.
Proof.
  revert i s. induction lengths as [|x lengths IH]; intros i s Hs Hl; [done|]. cbn [used_codes]. destruct s as [|s].
  - injection Hs as ->. destruct (Z.ltb_spec 0 l); [|lia]. rewrite Z.add_0_r. by left.
  - specialize (IH (i + 1) s Hs Hl). replace (i + Z.of_nat (S s)) with (i + 1 + Z.of_nat s) by lia. destruct (0 <? x); [by right|done].
Qed.
Lemma filter_ext_in {A} (P Q : A → Prop) `{!∀ x, Decision (P x), !∀ x, Decision (Q x)} (l : list A) : (∀ x, x ∈ l → P x ↔ Q x) → filter P l = filter Q l.
Proof.
  induction l as [|x l IH]; intros Hpq; [done|]. rewrite !filter_cons, IH by (intros y Hy; apply Hpq; by right). pose proof (Hpq x ltac:(by left)).
  do 2 case_decide; tauto || done.
Qed.
Lemma used_before lengths i s l : 0 < l →
  length (filter (λ y : Z * Z, before y (l, i + Z.of_nat s) = true) (used_codes lengths i)) =
  (length (filter (λ y : Z * Z, (y.1 < l)%Z) (used_codes lengths i)) + Z.to_nat (count_of l (take s lengths)))%nat.
Proof.
  intros Hl. revert i s. induction lengths as [|x lengths IH]; intros i s; [by rewrite take_nil|]. destruct s as [|s].
  - rewrite Z.add_0_r, take_0. change (Z.to_nat (count_of l [])) with 0%nat. rewrite Nat.add_0_r. f_equal. apply filter_ext_in.
    intros y Hy%used_below. rewrite before_spec. cbn [fst snd]. lia.
  - cbn [used_codes take]. replace (i + Z.of_nat (S s)) with (i + 1 + Z.of_nat s) by lia. specialize (IH (i + 1) s). rewrite count_cons. unfold count_of in *.
    destruct (Z.ltb_spec 0 x); [rewrite !filter_cons|rewrite decide_False by lia; lia].
    destruct (decide (x = l)) as [->|Hne].
    + rewrite (decide_True (P := before (l, i) _ = true)) by (rewrite before_spec; cbn; lia). rewrite (decide_False (P := (l, i).1 < l)) by (cbn; lia). cbn [length]. lia.
    + destruct (decide (x < l)).
      * rewrite !decide_True by (try rewrite before_spec; cbn; lia). cbn [length]. lia.
      * rewrite !decide_False by (try rewrite before_spec; cbn; lia). lia.
Qed.
(** A bit is shifted in. *)
Lemma shift_in c k : 0 ≤ k → Z.lor (Z.shiftl (Z.shiftr c (k + 1)) 1) (Z.b2z (Z.testbit c k)) = Z.shiftr c k.
Proof.
  intros Hk. apply Z.bits_inj'. intros i Hi. rewrite Z.lor_spec, Z.shiftr_spec by done. destruct (decide (i = 0)) as [->|Hne].
  - rewrite Z.shiftl_spec_low, Z.b2z_bit0 by lia. done.
  - rewrite Z.shiftl_spec_high, Z.shiftr_spec by lia. assert (Z.testbit (Z.b2z (Z.testbit c k)) i = false) as ->
      by (destruct (Z.testbit c k); [apply Z.bits_above_log2; cbn; lia|apply Z.bits_0]). rewrite orb_false_r. f_equal. lia.
Qed.
Lemma count_nonneg l k : 0 ≤ count_of l k.
Proof. unfold count_of. lia. Qed.
Lemma count_rank lengths s l : lengths !! s = Some l → count_of l (take s lengths) + 1 ≤ count_of l lengths.
Proof. intros Hs. rewrite <- (take_drop_middle _ _ _ Hs) at 2. unfold count_of. rewrite filter_app, length_app, filter_cons_True by done. cbn [length]. lia. Qed.
Section canonical.
Context (lengths : list Z) (Hl : lengths_ok lengths) (Hk : kraft lengths).
Local Notation S := (sort_codes (length (used_codes lengths 0)) (used_codes lengths 0)).
Lemma code_place s l : lengths !! s = Some l → 0 < l → S !! Z.to_nat (first_of l 0 S + count_of l (take s lengths)) = Some (l, Z.of_nat s) ∧ 0 ≤ first_of l 0 S.
Proof.
  intros Hs H0. assert (S ≡ₚ used_codes lengths 0) as Hp by by apply sort_perm. assert (StronglySorted not_after S) as Hss by by apply sort_sorted.
  assert ((l, Z.of_nat s) ∈ S) as Hin by (rewrite Hp; by apply (used_elem lengths 0)). pose proof (used_before lengths 0 s l H0) as Hu.
  pose proof (sorted_place S (l, Z.of_nat s) Hss ltac:(rewrite Hp; apply used_nodup) Hin) as Hpl.
  rewrite (first_place S l 0 Hss) by (exists (l, Z.of_nat s); done).
  assert (length (filter (λ y : Z * Z, before y (l, Z.of_nat s) = true) S) = length (filter (λ y : Z * Z, before y (l, 0 + Z.of_nat s) = true) (used_codes lengths 0))) as E1 by by rewrite Hp.
  assert (length (filter (λ y : Z * Z, y.1 < l) S) = length (filter (λ y : Z * Z, y.1 < l) (used_codes lengths 0))) as E2 by by rewrite Hp.
  rewrite E1, Hu in Hpl. rewrite E2. split; [|lia]. rewrite <- Hpl. f_equal. unfold count_of. lia.
Qed.
Lemma first_code_S n : first_code lengths (Datatypes.S (Datatypes.S n)) = 2 * (first_code lengths (Datatypes.S n) + count_of (Z.of_nat (Datatypes.S n)) lengths).
Proof. done. Qed.
Lemma first_code_nonneg n : 0 ≤ first_code lengths n.
Proof. induction n as [|n IH]; [done|]. cbn [first_code]. pose proof (count_nonneg (Z.of_nat n) lengths). destruct n; lia. Qed.
Lemma code_bound s l : lengths !! s = Some l → 1 ≤ l ≤ 15 → 0 ≤ code_of lengths s l < 2 ^ l.
Proof.
  intros Hs H15. pose proof (first_code_nonneg (Z.to_nat l)). pose proof (Hk (Z.to_nat l) ltac:(lia)) as Hkl. rewrite Z2Nat.id in Hkl by lia.
  pose proof (count_rank _ _ _ Hs). pose proof (count_nonneg l (take s lengths)). unfold code_of. lia.
Qed.
(** A longer code is past the shorter ones. *)
Lemma first_code_le n k : (1 ≤ n)%nat → (first_code lengths n + count_of (Z.of_nat n) lengths) * 2 ^ Z.of_nat (Datatypes.S k) ≤ first_code lengths (n + Datatypes.S k).
Proof.
  intros Hn. induction k as [|k IH].
  - destruct n as [|n]; [lia|]. replace (Datatypes.S n + 1)%nat with (Datatypes.S (Datatypes.S n)) by lia. rewrite first_code_S. lia.
  - replace (n + Datatypes.S (Datatypes.S k))%nat with (Datatypes.S (n + Datatypes.S k)) by lia. destruct (n + Datatypes.S k)%nat as [|m] eqn:E; [lia|]. rewrite first_code_S.
    pose proof (count_nonneg (Z.of_nat (Datatypes.S m)) lengths). rewrite (Nat2Z.inj_succ (Datatypes.S k)), Z.pow_succ_r by lia. lia.
Qed.
Lemma decode_gen_run bl s l : (∀ len, 1 ≤ len ≤ 15 → nth (Z.to_nat len) bl 0 = count_of len lengths) → length bl = 16%nat →
  lengths !! s = Some l → (∀ j, 1 ≤ j < l → 0 < count_of j lengths) →
  ∀ n m rs b r, (m + n = 16)%nat → (1 ≤ m)%nat → Z.of_nat m ≤ l → gen_codes n (Z.of_nat m) (first_code lengths m) bl S = Some rs → wf b →
  rest b = code_bits l (code_of lengths s l) (m - 1) (Z.to_nat l - m + 1) ++ r →
  ∃ b', decode_rows rs S (Z.shiftr (code_of lengths s l) (l - Z.of_nat m + 1)) b = Some (Z.of_nat s, b') ∧ wf b' ∧ rest b' = r.
Proof.
  intros Hbl Lbl Hs Hgap. set (c := code_of lengths s l). assert (0 ≤ l ≤ 15) as Hl15 by (destruct Hl as [Hf _]; rewrite Forall_lookup in Hf; by apply (Hf s)).
  intros n. induction n as [|n IH]; intros m rs b r Hmn Hm Hml E W Er; [lia|]. cbn [gen_codes] in E. rewrite at_nth in E by lia. cbn [mbind option_bind] in E.
  rewrite Hbl in E by lia. destruct (code_place s l Hs ltac:(lia)) as [Hpl Hf0].
  pose proof (count_rank _ _ _ Hs) as Hrank.
  pose proof (count_nonneg l (take s lengths)) as Hr0.
  assert (0 < count_of (Z.of_nat m) lengths) as Hc by (destruct (decide (Z.of_nat m = l)) as [->|]; [lia|apply Hgap; lia]).
  destruct (Z.ltb_spec 0 (count_of (Z.of_nat m) lengths)); [|lia]. pose proof (Hk m ltac:(lia)) as Hkm. pose proof (first_code_nonneg m) as Hfc.
  assert (2 ^ Z.of_nat m ≤ 2 ^ 15) as H15 by (apply Z.pow_le_mono_r; lia).
  destruct (gen_codes n _ _ bl S) as [rs'|] eqn:E'; [|done]. cbn [mbind option_bind] in E. injection E as <-. cbn [decode_rows].
  replace (Z.to_nat l - m + 1)%nat with (Datatypes.S (Z.to_nat l - m)) in Er by lia. cbn [code_bits seq map app] in Er.
  destruct (bs_read_bits_run 1 b W ltac:(lia)) as (b1 & R & W1 & D1 & Er1). rewrite (bind_Some _ _ _ _ _ R). rewrite Er in Er1 |- *. cbn [take bits_value drop] in *.
  rewrite Z.mul_0_r, Z.add_0_r. replace (l - 1 - Z.of_nat (m - 1)) with (l - Z.of_nat m) by lia.
  pose proof (code_bound s l Hs ltac:(lia)) as Hcb. fold c in Hcb.
  rewrite shift_in by lia.
  assert (0 ≤ Z.shiftr c (l - Z.of_nat m) < 2 ^ Z.of_nat m) as Hsh.
  { rewrite Z.shiftr_div_pow2 by lia. split; [apply Z.div_pos; lia|]. apply Z.div_lt_upper_bound; [lia|]. rewrite <- Z.pow_add_r by lia. replace (l - Z.of_nat m + Z.of_nat m) with l by lia. lia. }
  unfold u16. rewrite !Z.mod_small by lia. destruct (Z.leb_spec (Z.shiftr c (l - Z.of_nat m)) (first_code lengths m + count_of (Z.of_nat m) lengths - 1)) as [Hle|Hgt].
  - destruct (decide (Z.of_nat m = l)) as [E|Hne].
    + subst l. rewrite Z.sub_diag, Z.shiftr_0_r. assert (c - first_code lengths m = count_of (Z.of_nat m) (take s lengths)) as -> by (unfold c, code_of; rewrite Nat2Z.id; lia).
      pose proof (lookup_lt_Some _ _ _ Hpl) as Hlt. destruct (Z.leb_spec 0 (first_of (Z.of_nat m) 0 S + count_of (Z.of_nat m) (take s lengths))); [|lia].
      destruct (Z.ltb_spec (first_of (Z.of_nat m) 0 S + count_of (Z.of_nat m) (take s lengths)) (Z.of_nat (length S))); [|lia]. cbn [andb].
      unfold defined. rewrite Hpl. exists b1. split; [done|]. split; [done|]. rewrite Er1. replace (Z.to_nat (Z.of_nat m) - m)%nat with 0%nat by lia. done.
    + exfalso. rewrite Z.shiftr_div_pow2 in Hle by lia. pose proof (first_code_le m (Z.to_nat l - m - 1) Hm) as Hfcl.
      replace (m + Datatypes.S (Z.to_nat l - m - 1))%nat with (Z.to_nat l) in Hfcl by lia. replace (Z.of_nat (Datatypes.S (Z.to_nat l - m - 1))) with (l - Z.of_nat m) in Hfcl by lia.
      assert (first_code lengths m + count_of (Z.of_nat m) lengths ≤ c / 2 ^ (l - Z.of_nat m)) as Hdiv; [|lia]. apply Z.div_le_lower_bound; [lia|]. unfold c, code_of. lia.
  - destruct (decide (Z.of_nat m = l)) as [E|Hne]; [exfalso; subst l; rewrite Z.sub_diag, Z.shiftr_0_r in Hgt; unfold c, code_of in Hgt; rewrite Nat2Z.id in Hgt; lia|].
    assert (first_code lengths (Datatypes.S m) = 2 * (first_code lengths m + count_of (Z.of_nat m) lengths)) as Hfs by (destruct m as [|k]; [lia|apply first_code_S]).
    pose proof (Hk (Datatypes.S m) ltac:(lia)) as Hks. pose proof (count_nonneg (Z.of_nat (Datatypes.S m)) lengths).
    assert (2 ^ Z.of_nat (Datatypes.S m) ≤ 2 ^ 15) by (apply Z.pow_le_mono_r; lia).
    assert (u16 (Z.shiftl (first_code lengths m + count_of (Z.of_nat m) lengths) 1) = first_code lengths (Datatypes.S m)) as Ec.
    { rewrite Z.shiftl_mul_pow2 by lia. unfold u16. rewrite Z.mod_small; lia. }
    rewrite Ec in E'. replace (Z.of_nat m + 1) with (Z.of_nat (Datatypes.S m)) in E' by lia.
    destruct (IH (Datatypes.S m) rs' b1 r ltac:(lia) ltac:(lia) ltac:(lia) E' W1) as (b' & R' & HR).
    { rewrite Er1. unfold code_bits. replace (Datatypes.S m - 1)%nat with (Datatypes.S (m - 1)) by lia. by replace (Z.to_nat l - Datatypes.S m + 1)%nat with (Z.to_nat l - m)%nat by lia. }
    exists b'. split; [|done]. rewrite <- R'. do 2 f_equal. lia.
Qed.
End canonical.

Lemma tree_without_1 lengths t b : lengths_ok lengths → count_of 1 lengths = 0 → huffman_build lengths = Some t → wf b → ∃ b', huffman_decode t b = Some (-1, b').
Proof.
  intros Hl H1 Et W. destruct (build_run lengths Hl) as (bl & rs & Eb & E & Lb & Hbl). rewrite Eb in Et. injection Et as <-. unfold huffman_decode. cbn [codes rows].
  remember 14%nat as n eqn:En. cbn [gen_codes] in E. rewrite at_nth in E by lia. cbn [mbind option_bind] in E. rewrite Hbl, H1 in E by lia. cbn [Z.ltb] in E.
  destruct (gen_codes n _ _ _ _) as [rs'|]; [|done]. cbn [mbind option_bind] in E. injection E as <-. cbn [decode_rows].
  destruct (bs_read_bits_run 1 b W ltac:(lia)) as (b1 & R & _). exists b1. rewrite (bind_Some _ _ _ _ _ R). pose proof (bits_value_bound (take 1 (rest b))) as Hv.
  assert (2 ^ Z.of_nat (length (take 1 (rest b))) ≤ 2) as Hv2 by (rewrite length_take; change 2 with (2 ^ 1) at 2; apply Z.pow_le_mono_r; lia).
  rewrite Z.shiftl_0_l, Z.lor_0_l. unfold u16. rewrite Z.mod_small by lia. destruct (Z.leb_spec (bits_value (take 1 (rest b))) 0xFFFF); [|lia].
  destruct (Z.leb_spec 0 (-1 + (bits_value (take 1 (rest b)) - 0xFFFF))); [lia|]. done.
Qed.

(** C37: the decoder of Huffman codes.  For lengths that form a code, the bits of
    the canonical code of a symbol, high bit first, are decoded to the symbol and
    nothing more is read, if every shorter length is in use.  When no symbol has
    a code of one bit the decoder fails at once, on any input: it takes the mark
    of an unused length for a match. *)
Theorem huffman_decode_correct lengths : lengths_ok lengths →
  ∃ t, huffman_build lengths = Some t ∧
  (kraft lengths → ∀ s l b r, lengths !! s = Some l → 0 < l → (∀ j, 1 ≤ j < l → 0 < count_of j lengths) → wf b →
     rest b = code_bits l (code_of lengths s l) 0 (Z.to_nat l) ++ r →
     ∃ b', huffman_decode t b = Some (Z.of_nat s, b') ∧ wf b' ∧ rest b' = r) ∧
  (count_of 1 lengths = 0 → ∀ b, wf b → ∃ b', huffman_decode t b = Some (-1, b')).
Proof.
  intros Hl. destruct (build_run lengths Hl) as (bl & rs & Eb & E & Lb & Hbl). eexists. split; [exact Eb|]. split.
  - unfold huffman_decode. cbn [codes rows]. intros Hk s l b r Hs H0 Hgap W Er. destruct (decode_gen_run lengths Hl Hk bl s l Hbl Lb Hs Hgap 15 1 rs b r) as (b' & R & HR); [done|lia|lia|exact E|done| |].
    + rewrite Er. cbn [Nat.sub]. by replace (Z.to_nat l - 1 + 1)%nat with (Z.to_nat l) by lia.
    + exists b'. split; [|done]. rewrite <- R. f_equal. symmetry.
      assert (0 ≤ l ≤ 15) as Hl15 by (destruct Hl as [Hf _]; rewrite Forall_lookup in Hf; by apply (Hf s)).
      pose proof (code_bound lengths Hk s l Hs ltac:(lia)) as Hc.
      replace (l - Z.of_nat 1 + 1) with l by lia. rewrite Z.shiftr_div_pow2 by lia. apply Z.div_small. lia.
  - intros H1 b W. by apply (tree_without_1 lengths).
Qed.

(** ** Stored and fixed blocks *)
Definition stored_block (final : bool) (d : list Z) : list Z :=
  [Z.b2z final] ++ le_bytes 2 (zlen d) ++ le_bytes 2 (0xFFFF - zlen d) ++ d.
Fixpoint stored_blocks (blocks : list (list Z)) : list Z :=
  match blocks with
  | [] => []
  | [d] => stored_block true d
  | d :: blocks => stored_block false d ++ stored_blocks blocks
  end.
Lemma bits_app a b : bits_of (a ++ b) = bits_of a ++ bits_of b.
Proof. unfold bits_of. by rewrite flat_map_app. Qed.
Lemma at_app pre x post i : i = zlen pre → at_ (pre ++ x :: post) i = Some x.
Proof. unfold zlen. intros ->. rewrite at_lookup by lia. rewrite Nat2Z.id, lookup_app_r by lia. by rewrite Nat.sub_diag. Qed.
Lemma le_2 v : le_bytes 2 v = [v mod 256; v / 256 mod 256].
Proof. done. Qed.
Lemma join_16 v : 0 ≤ v < 2 ^ 16 → Z.lor (v mod 256) (u16 (Z.shiftl (v / 256 mod 256) 8)) = v.
Proof.
  intros Hv. pose proof (Z.mod_pos_bound v 256 ltac:(lia)). pose proof (Z.div_mod v 256 ltac:(lia)). rewrite (Z.mod_small (v / 256)) by (split; [apply Z.div_pos; lia|apply Z.div_lt_upper_bound; lia]).
  rewrite Z.shiftl_mul_pow2 by lia. unfold u16. rewrite (Z.mod_small (v / 256 * 2 ^ 8)) by lia. rewrite Z.lor_comm, lor_add by lia. lia.
Qed.
Lemma complement_16 v : Z.land (Z.lnot (0xFFFF - v)) 0xFFFF = v mod 2 ^ 16.
Proof. rewrite (Z.land_ones _ 16) by lia. unfold Z.lnot. rewrite <- (Z.mod_add v (-1) (2 ^ 16)) by lia. f_equal. lia. Qed.
Lemma stored_exact n out pre x d post b : wf b → 0 ≤ n < 2 ^ 31 → bs_data b = pre ++ [x] ++ le_bytes 2 (zlen d) ++ le_bytes 2 (0xFFFF - zlen d) ++ d ++ post →
  byte_pos b = zlen pre → 0 < bit_pos b → zlen d ≤ 0xFFFF → zlen out + zlen d ≤ n →
  inflate_stored n out b = Some (Some (out ++ d), mk_bs (bs_data b) (bs_size b) (zlen pre + 5 + zlen d) 0).
Proof.
  intros W Hn Ed Hp Hbit Hd Ho. pose proof (wf_size _ W) as Ws. pose proof (wf_small _ W) as Wm. pose proof (zlen_nonneg out). pose proof (zlen_nonneg d). pose proof (zlen_nonneg pre).
  pose proof (zlen_nonneg post). assert (bs_size b = zlen pre + 5 + zlen d + zlen post) as Hs.
  { rewrite Ws, Ed. rewrite !zlen_app, !zlen_le, zlen_cons, zlen_nil. lia. }
  rewrite !le_2 in Ed. cbn [app] in Ed. unfold inflate_stored.
  assert (bs_align_byte b = Some (tt, mk_bs (bs_data b) (bs_size b) (zlen pre + 1) 0)) as Ea.
  { unfold bs_align_byte. rewrite (bind_Some _ _ _ _ _ (eq_refl : get b = Some (b, b))). destruct (Z.ltb_spec 0 (bit_pos b)); [|lia]. rewrite Hp, u32_small by lia. done. }
  rewrite (bind_Some _ _ _ _ _ Ea). clear Ea. set (b1 := mk_bs _ _ (zlen pre + 1) 0). rewrite (bind_Some _ _ _ _ _ (eq_refl : get b1 = Some (b1, b1))). cbn [byte_pos bs_size bs_data bit_pos b1].
  rewrite u32_small by lia. destruct (Z.ltb_spec (bs_size b) (zlen pre + 1 + 4)); [lia|].
  assert (∀ l y r i, bs_data b = l ++ y :: r → i = zlen l → get_byte i b1 = Some (y, b1)) as Hget by (intros l y r i E Ei; unfold get_byte; cbn [bs_data b1]; by rewrite E, (at_app l y r)).
  rewrite (bind_Some _ _ _ _ _ (Hget (pre ++ [x]) (zlen d mod 256) _ (zlen pre + 1) ltac:(rewrite Ed; by rewrite <- app_assoc) ltac:(rewrite zlen_app, zlen_cons, zlen_nil; lia))).
  rewrite (bind_Some _ _ _ _ _ (Hget (pre ++ [x; zlen d mod 256]) (zlen d / 256 mod 256) _ (zlen pre + 1 + 1) ltac:(rewrite Ed; by rewrite <- app_assoc) ltac:(rewrite zlen_app, !zlen_cons, zlen_nil; lia))).
  rewrite (bind_Some _ _ _ _ _ (Hget (pre ++ [x; zlen d mod 256; zlen d / 256 mod 256]) ((0xFFFF - zlen d) mod 256) _ (zlen pre + 1 + 2) ltac:(rewrite Ed; by rewrite <- app_assoc) ltac:(rewrite zlen_app, !zlen_cons, zlen_nil; lia))).
  rewrite (bind_Some _ _ _ _ _ (Hget (pre ++ [x; zlen d mod 256; zlen d / 256 mod 256; (0xFFFF - zlen d) mod 256]) ((0xFFFF - zlen d) / 256 mod 256) _ (zlen pre + 1 + 3)
    ltac:(rewrite Ed; by rewrite <- app_assoc) ltac:(rewrite zlen_app, !zlen_cons, zlen_nil; lia))).
  rewrite !join_16, complement_16, Z.mod_small, Z.eqb_refl by lia. cbn [negb]. cbv zeta. rewrite !u32_small by lia.
  destruct (Z.ltb_spec n (zlen out + zlen d)); [lia|]. destruct (Z.ltb_spec (bs_size b) (zlen pre + 1 + 4 + zlen d)); [lia|].
  assert (slice (bs_data b) (zlen pre + 1 + 4) (zlen d) = Some d) as Esl.
  { rewrite Ed.
    replace (pre ++ x :: zlen d mod 256 :: zlen d / 256 mod 256 :: (0xFFFF - zlen d) mod 256 :: (0xFFFF - zlen d) / 256 mod 256 :: d ++ post)
      with ((pre ++ [x; zlen d mod 256; zlen d / 256 mod 256; (0xFFFF - zlen d) mod 256; (0xFFFF - zlen d) / 256 mod 256]) ++ d ++ post) by by rewrite <- app_assoc.
    apply slice_app; [rewrite zlen_app, !zlen_cons, zlen_nil; lia|done]. }
  rewrite Esl. unfold ok, ret, bind, defined, set_pos, modify. rewrite emit_run by lia. cbn [bs_data bs_size b1]. do 4 f_equal. lia.
Qed.
(** The header of a block whose first byte is [x], at a byte boundary. *)
Lemma header_run pre x post b : wf b → bs_data b = pre ++ x :: post → byte_pos b = zlen pre → bit_pos b = 0 →
  ∃ b1 b2, bs_read_bits 1 b = Some (Z.b2z (Z.testbit x 0), b1) ∧ bs_read_bits 2 b1 = Some (Z.b2z (Z.testbit x 1) + 2 * Z.b2z (Z.testbit x 2), b2) ∧
    wf b2 ∧ bs_data b2 = bs_data b ∧ bs_size b2 = bs_size b ∧ byte_pos b2 = zlen pre ∧ bit_pos b2 = 3.
Proof.
  intros W Ed Hp Hb. assert (rest b = byte_bits x ++ bits_of post) as Er.
  { unfold rest, position_of. rewrite Hp, Hb, Ed, bits_app. rewrite drop_app_length' by (by rewrite length_bits; unfold zlen; lia). done. }
  destruct (bs_read_bits_run 1 b W ltac:(lia)) as (b1 & R1 & A1). destruct (bs_read_bits_run 2 b1 (proj1 A1) ltac:(lia)) as (b2 & R2 & A2).
  pose proof (advanced_later _ _ _ W A1) as (_ & _ & S1 & _). pose proof (advanced_later _ _ _ (proj1 A1) A2) as (_ & _ & S2 & _).
  pose proof (rest_length _ W) as Hr. pose proof (rest_length _ (proj1 A2)) as Hr2. destruct A1 as (W1 & D1 & E1), A2 as (W2 & D2 & E2). rewrite E2, E1, Er in Hr2. rewrite E1, Er in R2. rewrite Er in R1, Hr.
  exists b1, b2. split; [rewrite R1; cbn; by rewrite Z.add_0_r|]. split; [rewrite R2; cbn; by rewrite Z.add_0_r|]. split; [done|]. split; [congruence|]. split; [congruence|].
  pose proof (wf_bit _ W2). unfold position_of in *. rewrite length_app in Hr. rewrite !length_drop, length_app in Hr2. change (length (byte_bits x)) with 8%nat in *. lia.
Qed.
Lemma blocks_run blocks : ∀ fuel n out pre b, (length blocks ≤ fuel)%nat → blocks ≠ [] → Forall (λ d, zlen d ≤ 0xFFFF) blocks → wf b → 0 ≤ n < 2 ^ 31 →
  bs_data b = pre ++ stored_blocks blocks → byte_pos b = zlen pre → bit_pos b = 0 → zlen out + zlen (concat blocks) ≤ n →
  ∃ b', inflate_loop fuel n out b = Some (Some (out ++ concat blocks), b').
Proof.
  induction blocks as [|d blocks IH]; intros fuel n out pre b Hf Hne Hb W Hn Ed Hp Hbit Ho; [done|]. destruct fuel as [|fuel]; [cbn in Hf; lia|]. apply Forall_cons in Hb as [Hd Hb].
  assert (∃ post, stored_blocks (d :: blocks) = stored_block (bool_decide (blocks = [])) d ++ post ∧ post = stored_blocks blocks) as (post & Es & ->).
  { destruct blocks as [|e blocks]; [exists []; by rewrite app_nil_r|]. eexists. split; [|done]. done. }
  rewrite Es in Ed. unfold stored_block in Ed. rewrite <- !app_assoc in Ed. cbn [app] in Ed. cbn [inflate_loop concat] in *. rewrite zlen_app in Ho. pose proof (zlen_nonneg (concat blocks)).
  destruct (header_run pre _ _ b W Ed Hp Hbit) as (b1 & b2 & R1 & R2 & W2 & D2 & S2 & P2 & B2). rewrite (bind_Some _ _ _ _ _ R1), (bind_Some _ _ _ _ _ R2).
  assert (∀ f : bool, Z.testbit (Z.b2z f) 0 = f ∧ Z.testbit (Z.b2z f) 1 = false ∧ Z.testbit (Z.b2z f) 2 = false) as Ht by (intros []; done).
  destruct (Ht (bool_decide (blocks = []))) as (-> & -> & ->). cbn [Z.b2z Z.mul Z.add]. unfold inflate_block at 1. cbn [Z.eqb].
  pose proof (stored_exact n out pre _ d (stored_blocks blocks) b2 W2 Hn ltac:(rewrite D2, Ed; done) P2 ltac:(lia) Hd ltac:(lia)) as Est.
  unfold ebind. rewrite (bind_Some _ _ _ _ _ Est). cbv beta iota. case_bool_decide as E.
  - subst blocks. cbn [Z.b2z Z.eqb concat]. rewrite app_nil_r. eexists. reflexivity.
  - cbn [Z.b2z Z.eqb]. rewrite app_assoc. eapply (IH fuel n (out ++ d) (pre ++ stored_block false d)).
    + cbn [length] in Hf. lia.
    + done.
    + done.
    + pose proof (wf_size _ W2). pose proof (zlen_nonneg pre). pose proof (zlen_nonneg d). constructor; cbn; try lia; [apply W2|apply W2|].
      rewrite S2, (wf_size _ W), Ed. repeat rewrite ?zlen_app, ?zlen_cons, ?zlen_le. pose proof (zlen_nonneg (stored_blocks blocks)). lia.
    + done.
    + cbn [bs_data]. rewrite D2, Ed. unfold stored_block. rewrite <- !app_assoc. done.
    + cbn [byte_pos]. unfold stored_block. repeat rewrite ?zlen_app, ?zlen_cons, ?zlen_nil, ?zlen_le. lia.
    + done.
    + rewrite zlen_app. lia.
Qed.

Lemma fixed_block_fails n out b : wf b → ∃ b', inflate_block 1 n out b = Some (None, b').
Proof.
  intros W. assert (lengths_ok fixed_ll_lengths) as Hl
    by (unfold fixed_ll_lengths; split; [rewrite !Forall_app; repeat split; apply Forall_replicate; lia|rewrite !length_app, !length_replicate; lia]).
  destruct fixed_trees as (l & d & El & Ed & _ & _). destruct (tree_without_1 fixed_ll_lengths l b Hl ltac:(vm_compute; reflexivity) El W) as (b' & R).
  exists b'. unfold inflate_block. cbn [Z.eqb Pos.eqb orb]. unfold ebind.
  assert ((l <- defined build_fixed_ll_tree ;; d <- defined build_fixed_dist_tree ;; ok (l, d)) b = Some (Some (l, d), b)) as E by (unfold defined; rewrite El, Ed; done).
  rewrite (bind_Some _ _ _ _ _ E). cbn [fst snd inflate_codes]. by rewrite (bind_Some _ _ _ _ _ R).
Qed.

(** Stored data comes back: the blocks of a deflate stream without
    compression, the last one marked, decompress to their concatenation.  A
    stream that begins with a block of fixed codes, which have seven bits and
    more, is always refused. *)
Theorem inflate_stored_roundtrip n : 0 ≤ n < 2 ^ 31 →
  (∀ blocks, blocks ≠ [] → Forall (λ d, bytes d ∧ zlen d ≤ 0xFFFF) blocks → zlen (stored_blocks blocks) < 2 ^ 31 → zlen (concat blocks) ≤ n →
     inflate (stored_blocks blocks) n = Some (concat blocks)) ∧
  (∀ x data, bytes (x :: data) → zlen (x :: data) < 2 ^ 31 → Z.testbit x 1 = true → Z.testbit x 2 = false → inflate (x :: data) n = Some []).
Proof.
  intros Hn. split.
  - intros blocks Hne Hb Hs Ho. assert (bytes (stored_blocks blocks)) as Bb.
    { clear Hne Hs Ho. induction Hb as [|d blocks [Bd Ld] Hb IH]; [apply bytes_nil|].
      assert (∀ f, bytes (stored_block f d)) as Hblk by (intros f; unfold stored_block; repeat apply bytes_app; try apply bytes_le; [|done]; apply bytes_cons; [by destruct f|apply bytes_nil]).
      destruct blocks; [apply Hblk|]. apply bytes_app; [apply Hblk|exact IH]. }
    assert (wf (bs_init (stored_blocks blocks))) as W by (pose proof (zlen_nonneg (stored_blocks blocks)); constructor; cbn; try done; lia).
    assert (length blocks ≤ S (8 * length (stored_blocks blocks)))%nat as Hf.
    { clear -Hne. assert (length blocks ≤ length (stored_blocks blocks))%nat; [|lia]. induction blocks as [|d [|e l] IH]; [done|cbn; lia|].
      specialize (IH ltac:(done)). change (stored_blocks (d :: e :: l)) with (stored_block false d ++ stored_blocks (e :: l)). rewrite length_app. unfold stored_block at 1. rewrite length_app. cbn [length] in *. lia. }
    destruct (blocks_run blocks (S (8 * length (stored_blocks blocks))) n [] [] (bs_init (stored_blocks blocks)) Hf Hne) as (b' & R); try done.
    { eapply Forall_impl; [exact Hb|]. by intros d [_ ?]. }
    unfold inflate. by rewrite R.
  - intros x data Hb Hs H1 H2. assert (wf (bs_init (x :: data))) as W by (pose proof (zlen_nonneg (x :: data)); constructor; cbn [bs_init bs_data bs_size byte_pos bit_pos]; try done; lia).
    destruct (header_run [] x data (bs_init (x :: data)) W eq_refl eq_refl eq_refl) as (b1 & b2 & R1 & R2 & W2 & _). unfold inflate. cbn [length inflate_loop].
    rewrite (bind_Some _ _ _ _ _ R1), (bind_Some _ _ _ _ _ R2), H1, H2. cbn [Z.b2z Z.mul Z.add].
    destruct (fixed_block_fails n [] b2 W2) as (b3 & R3). unfold ebind at 1. rewrite (bind_Some _ _ _ _ _ R3). done.
Qed.

(** ** Examples *)
Ltac all_bytes := unfold bytes, lengths_ok, is_byte; repeat (apply Forall_cons; split; [lia|]); by apply Forall_nil.
(** Lengths 2, 1, 3, 3: the code of the third symbol is 110. *)
Lemma huffman_decode_correct_witness : ∃ t b', huffman_build [2; 1; 3; 3] = Some t ∧ huffman_decode t (bs_init [3]) = Some (2, b').
Proof.
  destruct (huffman_decode_correct [2; 1; 3; 3]) as (t & E & Hd & _); [split; [all_bytes|cbn; lia]|].
  assert (kraft [2; 1; 3; 3]) as Hk.
  { intros n Hn. assert (forallb (λ n, first_code [2; 1; 3; 3] n + count_of (Z.of_nat n) [2; 1; 3; 3] <=? 2 ^ Z.of_nat n) (seq 1 15) = true) as Hf by (vm_compute; reflexivity).
    rewrite forallb_forall in Hf. apply Z.leb_le, Hf, in_seq. lia. }
  destruct (Hd Hk 2%nat 3 (bs_init [3]) (replicate 5 false)) as (b' & R & _).
  - reflexivity.
  - lia.
  - intros j Hj. assert (j = 1 ∨ j = 2) as [-> | ->] by lia; vm_compute; reflexivity.
  - constructor; [done|done|all_bytes|vm_compute; done|vm_compute; done|done].
  - vm_compute. reflexivity.
  - exists t, b'. by split.
Defined.
Lemma inflate_stored_roundtrip_witness : inflate (stored_blocks [[104; 105]; [106]]) 10 = Some [104; 105; 106].
Proof.
  apply (inflate_stored_roundtrip 10 ltac:(lia)); [done| |vm_compute; done|vm_compute; done].
  apply Forall_cons; split; [split; [all_bytes|vm_compute; done]|]. apply Forall_cons; split; [split; [all_bytes|vm_compute; done]|]. by apply Forall_nil.
Defined.
