(* ===== verification/Squashfs.v ===== *)
(** * kernel/squashfs.c: the SquashFS file system over a block device.

    The file system only reads, so the device is a parameter and the state is the
    answers of [kmalloc]; what a fresh buffer holds is the parameter [junk].
    On-disk structures are their bytes, and an access outside a buffer or a
    division by zero has no outcome.  Names are C strings without their end. *)
From S2P Require Import Prelude Bytes BlockDev Inflate.
Local Open Scope Z_scope.
Local Open Scope kernel_scope.

Definition EROFS : Z := 30.
Definition SQUASHFS_MAGIC : Z := 0x73717368.
Definition SQUASHFS_DIR_TYPE : Z := 1.
Definition SQUASHFS_REG_TYPE : Z := 2.
Definition SQUASHFS_LDIR_TYPE : Z := 8.
Definition SQUASHFS_LREG_TYPE : Z := 9.
Definition SQUASHFS_COMPRESSED_BIT : Z := Z.shiftl 1 24.
Definition SQUASHFS_COMPRESSED_SIZE (a : Z) : Z := Z.land a 0x00FFFFFF.

(** [struct squashfs_sb_info]: the fields of the superblock that are used. *)
Record squashfs_sb_info := mk_sq { block_size : Z; root_inode : Z }.
(** [struct squashfs_inode_info]; a null block list is [None]. *)
Record squashfs_inode_info := mk_sqi {
  start_block : Z; sq_size : Z; inode_type : Z; sq_mode : Z; sq_is_dir : bool; block_list : option (list Z); block_count : Z;
  fragment_index : Z; fragment_offset : Z }.
Definition no_info : squashfs_inode_info := mk_sqi 0 0 0 0 false None 0 0 0.
(** A VFS inode: its data, name and size. *)
Record squashfs_inode := mk_sqn { sqn_info : squashfs_inode_info; sqn_name : list Z; sqn_size : Z }.

Section squashfs.
Context `{BlockDevice D} (bdev : D) (junk : list Z) (F : nat).
Definition SM := ST (list bool).
Definition kmalloc : SM bool := λ m, match m with [] => Some (true, []) | b :: m => Some (b, m) end.
Definition lift {A} (o : option A) : SM A := λ m, match o with Some a => Some (a, m) | None => None end.
Definition fresh (n : Z) : list Z := take (Z.to_nat n) (junk ++ replicate (Z.to_nat n) 0).

(** ** Reading

    The bytes, or nothing when a read or an allocation failed. *)
Definition read_bytes (offset size : Z) : SM (option (list Z)) :=
  let sector := offset / 512 in
  let sector_off := u32 (offset mod 512) in
  let sectors_needed := u32 (u32 (sector_off + size) + 511) / 512 in
  ok <- kmalloc ;;
  if negb ok then ret None else
  match block_dev_read bdev sector sectors_needed with
  | None => ret None
  | Some data => temp <- lift (patch (fresh (u32 (sectors_needed * 512))) 0 data) ;; b <- lift (slice temp sector_off size) ;; ret (Some b)
  end.
Definition squashfs_read_metadata (offset : Z) : SM (option (list Z)) :=
  f <- read_bytes offset 2 ;;
  match f with
  | None => ret None
  | Some f =>
      let size_field := le_value f in
      let compressed := Z.land size_field 0x8000 =? 0 in
      let size := Z.land size_field 0x7FFF in
      if size =? 0 then ret None else
      if compressed then
        ok1 <- kmalloc ;; ok2 <- kmalloc ;;
        if negb (ok1 && ok2) then ret None else
        c <- read_bytes (u64 (offset + 2)) size ;;
        match c with
        | None => ret None
        | Some c =>
            result <- lift (zlib_decompress c 8192) ;;
            if zlen result =? 0 then
              b <- read_bytes (u64 (offset + 2)) size ;;
              match b with
              | None => ret None
              | Some b => if 8192 <? size then fail else ret (Some b)   (* into the buffer of one block *)
              end
            else ret (Some result)
        end
      else
        ok <- kmalloc ;;
        if negb ok then ret None else read_bytes (u64 (offset + 2)) size
  end.
Definition squashfs_read_data_block (sbi : squashfs_sb_info) (offset csize : Z) : SM (option (list Z)) :=
  if csize =? 0 then
    ok <- kmalloc ;;
    if negb ok then ret None else ret (Some (replicate (Z.to_nat (block_size sbi)) 0))
  else
    let compressed := Z.land csize SQUASHFS_COMPRESSED_BIT =? 0 in
    let actual_size := SQUASHFS_COMPRESSED_SIZE csize in
    if compressed then
      ok1 <- kmalloc ;; ok2 <- kmalloc ;;
      if negb (ok1 && ok2) then ret None else
      c <- read_bytes offset actual_size ;;
      match c with
      | None => ret None
      | Some c => result <- lift (zlib_decompress c (block_size sbi)) ;; ret (if zlen result =? 0 then None else Some result)
      end
    else
      ok <- kmalloc ;;
      if negb ok then ret None else read_bytes offset actual_size.

(** ** The superblock and inodes *)
Definition squashfs_read_superblock : SM (Z + squashfs_sb_info) :=
  b <- read_bytes 0 96 ;;
  match b with
  | None => ret (inl (- EIO))
  | Some b =>
      magic <- lift (field_at b 0 4) ;;
      if negb (magic =? SQUASHFS_MAGIC) then ret (inl (- EINVAL)) else
      bs <- lift (field_at b 12 4) ;; root <- lift (field_at b 32 8) ;; ret (inr (mk_sq bs root))
  end.
(** The words of the block list from byte [o] of an inode on. *)
Fixpoint read_list (n : nat) (o i : Z) (meta : list Z) : option (list Z) :=
  match n with
  | O => Some []
  | S n => w ← field_at meta (o + u32 (i * 4)) 4; l ← read_list n o (i + 1) meta; Some (w :: l)
  end.
(** The blocks of a file whose inode has [header] bytes before the list. *)
Definition read_blocks (sbi : squashfs_sb_info) (header file_size : Z) (meta : list Z) : SM (Z + option (list Z) * Z) :=
  if block_size sbi =? 0 then fail else
  let num_blocks := u32 (u32 (file_size + block_size sbi) - 1) / block_size sbi in
  if 0 <? num_blocks then
    if zlen meta <? header + u32 (num_blocks * 4) then ret (inl (- EIO)) else
    ok <- kmalloc ;;
    if (ok : bool) then l <- lift (read_list (Z.to_nat num_blocks) header 0 meta) ;; ret (inr (Some l, num_blocks)) else ret (inr (None, num_blocks))
  else ret (inr (None, num_blocks)).
Definition squashfs_read_inode_raw (sbi : squashfs_sb_info) (meta_offset : Z) (info : squashfs_inode_info) : SM (Z + squashfs_inode_info) :=
  m <- squashfs_read_metadata meta_offset ;;
  match m with
  | None => ret (inl (- EIO))
  | Some meta =>
      if zlen meta <? 2 then ret (inl (- EIO)) else
      t <- lift (field_at meta 0 2) ;;
      if t =? SQUASHFS_REG_TYPE then
        if zlen meta <? 32 then ret (inl (- EIO)) else
        mode <- lift (field_at meta 2 2) ;; start <- lift (field_at meta 16 4) ;; fragment <- lift (field_at meta 20 4) ;;
        offset <- lift (field_at meta 24 4) ;; size <- lift (field_at meta 28 4) ;;
        l <- read_blocks sbi 32 size meta ;;
        match l with inl e => ret (inl e) | inr (l, n) => ret (inr (mk_sqi start size t mode false l n fragment offset)) end
      else if t =? SQUASHFS_LREG_TYPE then
        if zlen meta <? 56 then ret (inl (- EIO)) else
        mode <- lift (field_at meta 2 2) ;; start <- lift (field_at meta 16 8) ;; size <- lift (field_at meta 24 8) ;;
        fragment <- lift (field_at meta 40 4) ;; offset <- lift (field_at meta 44 4) ;;
        l <- read_blocks sbi 56 (u32 size) meta ;;
        match l with inl e => ret (inl e) | inr (l, n) => ret (inr (mk_sqi (u32 start) (u32 size) t mode false l n fragment offset)) end
      else if t =? SQUASHFS_DIR_TYPE then
        if zlen meta <? 32 then ret (inl (- EIO)) else
        mode <- lift (field_at meta 2 2) ;; start <- lift (field_at meta 16 4) ;; size <- lift (field_at meta 24 2) ;; offset <- lift (field_at meta 26 2) ;;
        ret (inr (mk_sqi start size t mode true None 0 0 offset))
      else if t =? SQUASHFS_LDIR_TYPE then
        if zlen meta <? 44 then ret (inl (- EIO)) else
        mode <- lift (field_at meta 2 2) ;; size <- lift (field_at meta 20 4) ;; start <- lift (field_at meta 24 4) ;; offset <- lift (field_at meta 34 2) ;;
        ret (inr (mk_sqi start size t mode true None 0 0 offset))
      else ret (inr (mk_sqi 0 0 t (sq_mode info) false None 0 0 0))
  end.

(** ** Directories *)

(** The listing, gathered from metadata blocks into [dir_data]. *)
Fixpoint gather (fuel : nat) (offset remaining read_pos cur_offset : Z) (dir_data : list Z) : SM (option (list Z)) :=
  match fuel with
  | O => fail
  | S fuel =>
      if remaining <=? read_pos then ret (Some dir_data) else
      b <- squashfs_read_metadata cur_offset ;;
      match b with
      | None => ret None
      | Some block =>
          let meta_size := zlen block in
          let to_copy := if remaining <? u32 (read_pos + meta_size) then remaining - read_pos else meta_size in
          let skip := if read_pos =? 0 then offset else 0 in
          x <- (if skip <? to_copy then
                  w <- lift (slice block skip (to_copy - skip)) ;; d <- lift (patch dir_data read_pos w) ;; ret (d, read_pos + (to_copy - skip))
                else ret (dir_data, read_pos)) ;;
          let '(dir_data, read_pos) := x in
          if (meta_size <? 8192) && (read_pos <? remaining) then ret (Some dir_data)
          else gather fuel offset remaining read_pos (u64 (cur_offset + u32 (2 + meta_size))) dir_data
      end
  end.
Fixpoint until_nul (l : list Z) : list Z := match l with [] => [] | c :: l => if c =? 0 then [] else c :: until_nul l end.
(** The [count] entries behind a header: an error, the position after them, or
    what the callback stopped with. *)
Fixpoint read_entries {R} (fuel : nat) (cb : list Z → Z → Z → option R) (remaining dir_start count pos : Z) (dir_data : list Z) : option (Z + Z + R) :=
  match fuel with
  | O => None
  | S fuel =>
      if count <=? 0 then Some (inl (inr pos)) else
      if remaining <? u32 (pos + 8) then Some (inl (inl (- EIO))) else
      offset ← field_at dir_data pos 2; type ← field_at dir_data (pos + 4) 2; size ← field_at dir_data (pos + 6) 2;
      let name_size := u16 (size - 1) in
      let pos := u32 (pos + 8) in
      if remaining <? u32 (pos + name_size) then Some (inl (inl (- EIO))) else
      name ← slice dir_data pos (if name_size <? 255 then name_size else 255);
      match cb (until_nul name) (u32 (dir_start + offset)) type with
      | Some r => Some (inr r)
      | None => read_entries fuel cb remaining dir_start (count - 1) (u32 (pos + name_size)) dir_data
      end
  end.
Fixpoint parse_dir {R} (fuel : nat) (cb : list Z → Z → Z → option R) (remaining pos : Z) (dir_data : list Z) : option (Z + option R) :=
  match fuel with
  | O => None
  | S fuel =>
      if u32 (pos + 12) <=? remaining then
        count ← field_at dir_data pos 4;
        if count =? 0 then parse_dir fuel cb remaining (u32 (pos + 12)) dir_data else
        dir_start ← field_at dir_data (pos + 4) 4;
        r ← read_entries (S (length dir_data)) cb remaining dir_start (count - 1) (u32 (pos + 12)) dir_data;
        match r with
        | inl (inl e) => Some (inl e)
        | inl (inr pos) => parse_dir fuel cb remaining pos dir_data
        | inr r => Some (inr (Some r))
        end
      else Some (inr None)
  end.
Definition squashfs_read_directory {R} (info : squashfs_inode_info) (cb : list Z → Z → Z → option R) : SM (Z + option R) :=
  let offset := fragment_offset info in
  if sq_size info <=? offset then ret (inl (- EINVAL)) else
  let remaining := sq_size info - offset in
  ok <- kmalloc ;;
  if negb ok then ret (inl (- ENOMEM)) else
  d <- gather F offset remaining 0 (start_block info) (fresh remaining) ;;
  match d with
  | None => ret (inl (- EIO))
  | Some d => lift (parse_dir (S (length d)) cb remaining 0 d)
  end.
Definition squashfs_lookup_cb (name name' : list Z) (inode_offset type : Z) : option (Z * Z) :=
  if bool_decide (name' = name) then Some (inode_offset, type) else None.
Definition squashfs_lookup (sbi : squashfs_sb_info) (dir_info : squashfs_inode_info) (name : list Z) : SM (Z + squashfs_inode_info) :=
  r <- squashfs_read_directory dir_info (squashfs_lookup_cb name) ;;
  match r with
  | inl e => ret (inl e)
  | inr None => ret (inl (- ENOENT))
  | inr (Some (offset, type)) => squashfs_read_inode_raw sbi offset (mk_sqi offset 0 type 0 false None 0 0 0)
  end.

(** ** Files *)

(** Where block [i] of the list begins. *)
Fixpoint block_offset (i : nat) (l : list Z) (start : Z) : option Z :=
  match i with
  | O => Some start
  | S i => match l with [] => None | bs :: l => block_offset i l (if bs =? 0 then start else u64 (start + SQUASHFS_COMPRESSED_SIZE bs)) end
  end.
Fixpoint read_loop (fuel : nat) (sbi : squashfs_sb_info) (info : squashfs_inode_info) (count offset : Z) (acc : list Z) : SM (Z * list Z) :=
  match fuel with
  | O => fail
  | S fuel =>
      if count <=? zlen acc then ret (zlen acc, acc) else
      if block_size sbi =? 0 then fail else
      let block_idx := u32 (offset / block_size sbi) in
      let block_off := u32 (offset mod block_size sbi) in
      if block_count info <=? block_idx then ret (zlen acc, acc) else
      match block_list info with
      | None => ret (zlen acc, acc)
      | Some l =>
          csize <- lift (at_ l block_idx) ;;
          o <- lift (block_offset (Z.to_nat block_idx) l (start_block info)) ;;
          b <- squashfs_read_data_block sbi o csize ;;
          match b with
          | None => ret (if 0 <? zlen acc then zlen acc else - EIO, acc)
          | Some data =>
              let uncomp_size := zlen data in
              if uncomp_size <=? block_off then ret (zlen acc, acc) else
              let chunk := uncomp_size - block_off in
              let chunk := if count - zlen acc <? chunk then count - zlen acc else chunk in
              w <- lift (slice data block_off chunk) ;;
              read_loop fuel sbi info count (u64 (offset + chunk)) (acc ++ w)
          end
      end
  end.
Definition squashfs_read_file (sbi : squashfs_sb_info) (info : squashfs_inode_info) (count offset : Z) : SM (Z * list Z) :=
  let file_size := sq_size info in
  if file_size <=? offset then ret (0, []) else
  let count := if file_size <? u64 (offset + count) then u64 (file_size - offset) else count in
  read_loop (S (Z.to_nat count)) sbi info count offset [].

(** ** The operations of the VFS *)
Definition squashfs_make_inode (name : list Z) (info : squashfs_inode_info) : SM (option squashfs_inode) :=
  ok <- kmalloc ;;
  if negb ok then ret None else
  l <- (match block_list info with
        | Some l => if 0 <? block_count info then ok <- kmalloc ;; ret (if (ok : bool) then Some l else None) else ret (Some l)
        | None => ret None
        end) ;;
  let priv := mk_sqi (start_block info) (sq_size info) (inode_type info) (sq_mode info) (sq_is_dir info) l (block_count info) (fragment_index info) (fragment_offset info) in
  ok <- kmalloc ;;
  if negb ok then ret None else
  ok <- kmalloc ;;
  if negb ok then ret None else ret (Some (mk_sqn priv name (sq_size info))).
Definition squashfs_file_read (sbi : squashfs_sb_info) (info : squashfs_inode_info) (count offset : Z) : SM (Z * list Z * Z) :=
  x <- squashfs_read_file sbi info count (u64 offset) ;;
  ret (x, if 0 <? x.1 then offset + x.1 else offset).
Definition squashfs_file_write : Z := - EROFS.
Definition squashfs_dir_create : Z := - EROFS.
Definition squashfs_dir_mkdir : Z := - EROFS.
Definition squashfs_dir_rmdir : Z := - EROFS.
Definition squashfs_dir_unlink : Z := - EROFS.
Definition squashfs_dir_lookup (sbi : squashfs_sb_info) (dir : squashfs_inode_info) (name : list Z) : SM (Z + squashfs_inode) :=
  if negb (sq_is_dir dir) then ret (inl (- ENOTDIR)) else
  r <- squashfs_lookup sbi dir name ;;
  match r with
  | inl e => ret (inl e)
  | inr info => c <- squashfs_make_inode name info ;; ret (match c with None => inl (- ENOMEM) | Some i => inr i end)
  end.
(** The file system and its root, or a null result. *)
Definition squashfs_mount : SM (option (squashfs_sb_info * squashfs_inode)) :=
  ok <- kmalloc ;;
  if negb ok then ret None else
  sb <- squashfs_read_superblock ;;
  match sb with
  | inl _ => ret None
  | inr sbi =>
      r <- squashfs_read_inode_raw sbi (root_inode sbi) no_info ;;
      match r with
      | inl _ => ret None
      | inr info =>
          i <- squashfs_make_inode [47] info ;;
          match i with
          | None => ret None
          | Some root => ok <- kmalloc ;; ret (if (ok : bool) then Some (sbi, root) else None)
          end
      end
  end.
End squashfs.

(** ** What a read returns *)
Section laws.
Context `{BL : BlockLaws D} (bdev : D) (junk : list Z) (F : nat).
Context (Hok : bd_ok bdev) (H512 : bd_block_size bdev = 512).
Definition capacity : Z := bd_sectors bdev * 512.
Definition bytes_of (p n : Z) : list Z := load (bd_mem bdev) p (Z.to_nat n).

Lemma length_bytes_of p n : zlen (bytes_of p n) = Z.of_nat (Z.to_nat n).
Proof. unfold zlen, bytes_of. by rewrite length_load. Qed.
Lemma length_fresh n : zlen (fresh junk n) = Z.of_nat (Z.to_nat n).
Proof. unfold fresh, zlen. rewrite length_take, length_app, length_replicate. lia. Qed.
Lemma capacity_small : 0 ≤ capacity < 2 ^ 63.
Proof. destruct (bl_size _ Hok) as (_ & H0 & H1). unfold capacity. rewrite H512 in H1. lia. Qed.
Lemma read_bytes_run offset size : 0 ≤ offset → 0 < size < 2 ^ 31 → offset + size ≤ capacity →
  read_bytes bdev junk offset size [] = Some (Some (bytes_of offset size), []).
Proof.
  intros Ho Hs Hc. unfold capacity in Hc. pose proof (Z.div_mod offset 512 ltac:(lia)) as Hd. pose proof (Z.mod_pos_bound offset 512 ltac:(lia)) as Hm.
  unfold read_bytes. rewrite (u32_small (offset mod 512)) by lia. rewrite (u32_small (offset mod 512 + size)), (u32_small (offset mod 512 + size + 511)) by lia.
  set (n := (offset mod 512 + size + 511) / 512). assert (512 * n ≤ offset mod 512 + size + 511 < 512 * n + 512) as Hn.
  { unfold n. pose proof (Z.div_mod (offset mod 512 + size + 511) 512 ltac:(lia)). pose proof (Z.mod_pos_bound (offset mod 512 + size + 511) 512 ltac:(lia)). lia. }
  unfold bind at 1, kmalloc. cbn [negb]. assert (0 ≤ offset / 512) by (apply Z.div_pos; lia). rewrite block_dev_read_ok by (done || lia). rewrite H512, u32_small by lia.
  set (data := load (bd_mem bdev) (offset / 512 * 512) (Z.to_nat (n * 512))). assert (zlen data = n * 512) as Ld by (unfold data, zlen; rewrite length_load; lia).
  assert (patch (fresh junk (n * 512)) 0 data = Some data) as Ep.
  { pose proof (length_fresh (n * 512)) as Lf. rewrite patch_fits by (unfold zlen in *; lia). cbn [Z.to_nat take app]. rewrite drop_ge; [by rewrite app_nil_r|]. unfold zlen in *. lia. }
  unfold bind, lift, ret. rewrite Ep. rewrite slice_Some by lia. unfold data. rewrite take_drop_load by lia. unfold bytes_of. do 4 f_equal. lia.
Qed.

(** ** Files *)
Context (sbi : squashfs_sb_info) (Hbs : 0 < block_size sbi < 2 ^ 31).
(** A block of a file: its place, its entry in the list and its contents. *)
Definition block_at (pos csize : Z) (d : list Z) : Prop :=
  let n := SQUASHFS_COMPRESSED_SIZE csize in
  0 ≤ pos ∧
  ((csize = 0 ∧ d = replicate (Z.to_nat (block_size sbi)) 0) ∨
   (csize ≠ 0 ∧ 0 < n ∧ pos + n ≤ capacity ∧
    ((Z.land csize SQUASHFS_COMPRESSED_BIT ≠ 0 ∧ d = bytes_of pos n) ∨
     (Z.land csize SQUASHFS_COMPRESSED_BIT = 0 ∧ zlib_decompress (bytes_of pos n) (block_size sbi) = Some d ∧ d ≠ [])))).
Definition next_block (pos csize : Z) : Z := if csize =? 0 then pos else pos + SQUASHFS_COMPRESSED_SIZE csize.
Fixpoint blocks_at (pos : Z) (l : list Z) (ds : list (list Z)) : Prop :=
  match l, ds with
  | [], [] => True
  | csize :: l, d :: ds => block_at pos csize d ∧ (ds = [] ∨ zlen d = block_size sbi) ∧ zlen d ≤ block_size sbi ∧ blocks_at (next_block pos csize) l ds
  | _, _ => False
  end.
Lemma csize_bound csize : 0 ≤ SQUASHFS_COMPRESSED_SIZE csize < 2 ^ 24.
Proof. unfold SQUASHFS_COMPRESSED_SIZE. change 0x00FFFFFF with (Z.ones 24). rewrite Z.land_ones by lia. apply Z.mod_pos_bound. lia. Qed.
Lemma sq_data_block_run pos csize d : block_at pos csize d → squashfs_read_data_block bdev junk sbi pos csize [] = Some (Some d, []).
Proof.
  intros [Hp [[-> ->] | (Hc & Hn & Hcap & Hd)]]; unfold squashfs_read_data_block; [done|]. destruct (Z.eqb_spec csize 0); [done|]. pose proof (csize_bound csize).
  destruct Hd as [[Hb ->] | (Hb & Ez & Hne)].
  - destruct (Z.eqb_spec (Z.land csize SQUASHFS_COMPRESSED_BIT) 0); [done|]. unfold bind at 1, kmalloc at 1. cbn [negb]. apply read_bytes_run; lia.
  - rewrite Hb. cbn [Z.eqb]. unfold bind at 1, kmalloc at 1. unfold bind at 1, kmalloc at 1. cbn [negb andb].
    rewrite (bind_Some _ _ _ _ _ (read_bytes_run pos (SQUASHFS_COMPRESSED_SIZE csize) Hp ltac:(lia) Hcap)). cbv beta iota. unfold bind, lift. rewrite Ez.
    destruct (Z.eqb_spec (zlen d) 0); [|done]. destruct d; [done|]. rewrite zlen_cons in *. pose proof (zlen_nonneg d). lia.
Qed.
Lemma blocks_lookup pos l ds i d : blocks_at pos l ds → ds !! i = Some d → pos < 2 ^ 63 →
  ∃ csize o, l !! i = Some csize ∧ block_offset i l pos = Some o ∧ block_at o csize d.
Proof.
  revert pos l ds. induction i as [|i IH]; intros pos [|csize l] [|e ds]; cbn [blocks_at]; intros Hbl Hd Hp; try done; destruct Hbl as (Hb & _ & _ & Hr).
  - injection Hd as <-. by exists csize, pos.
  - assert (next_block pos csize < 2 ^ 63 ∧ block_offset (S i) (csize :: l) pos = block_offset i l (next_block pos csize)) as [Hlt E].
    { cbn [block_offset]. unfold next_block. pose proof capacity_small. destruct (Z.eqb_spec csize 0); [done|]. destruct Hb as [Hp0 [[? _]|(_ & _ & Hcap & _)]]; [done|].
      pose proof (csize_bound csize). rewrite u64_small by lia. split; [lia|done]. }
    rewrite E. by apply (IH _ _ ds).
Qed.
Lemma blocks_length pos l ds : blocks_at pos l ds → length l = length ds.
Proof. revert pos ds. induction l as [|c l IH]; intros pos [|d ds]; cbn [blocks_at]; try done. intros (_ & _ & _ & Hr). cbn. by rewrite (IH _ _ Hr). Qed.
(** The block that holds a position. *)
Lemma concat_drop pos l ds x : blocks_at pos l ds → 0 ≤ x < zlen (concat ds) →
  ∃ d, ds !! Z.to_nat (x / block_size sbi) = Some d ∧ 0 ≤ x mod block_size sbi < zlen d ∧ x / block_size sbi < Z.of_nat (length ds) ∧
    ∃ post, drop (Z.to_nat x) (concat ds) = drop (Z.to_nat (x mod block_size sbi)) d ++ post.
Proof.
  revert pos l x. induction ds as [|d ds IH]; intros pos l x Hb Hx; [unfold zlen in Hx; cbn in Hx; lia|]. destruct l as [|c l]; [done|]. cbn [blocks_at concat] in *.
  destruct Hb as (_ & Hfull & Hle & Hr). rewrite zlen_app in Hx. destruct (Z.ltb_spec x (zlen d)) as [Hlt|Hge].
  - rewrite Z.div_small, Z.mod_small by lia. exists d. split; [done|]. split; [lia|]. split; [cbn; lia|]. exists (concat ds). rewrite drop_app_le by (unfold zlen in Hlt; lia). done.
  - assert (zlen d = block_size sbi) as Ed.
    { destruct Hfull as [-> | ?]; [|done]. unfold zlen in *. cbn in Hx. lia. }
    assert (x / block_size sbi = (x - block_size sbi) / block_size sbi + 1 ∧ x mod block_size sbi = (x - block_size sbi) mod block_size sbi) as [Eq Em].
    { replace x with ((x - block_size sbi) + 1 * block_size sbi) at 1 3 by lia. rewrite Z.div_add, Z.mod_add by lia. done. }
    assert (0 ≤ (x - block_size sbi) / block_size sbi) by (apply Z.div_pos; lia).
    destruct (IH _ _ (x - block_size sbi) Hr ltac:(lia)) as (e & He & Hm & Hlen & post & Ep). exists e. rewrite Eq, Em.
    split; [replace (Z.to_nat _) with (S (Z.to_nat ((x - block_size sbi) / block_size sbi))) by lia; done|]. split; [done|]. split; [cbn [length]; lia|]. exists post.
    rewrite drop_app_ge by (unfold zlen in *; lia). rewrite <- Ep. f_equal. unfold zlen in *. lia.
Qed.
Lemma sq_loop_run info l ds : block_list info = Some l → block_count info = Z.of_nat (length l) → 0 ≤ start_block info < 2 ^ 32 → blocks_at (start_block info) l ds →
  ∀ fuel count acc o, count - zlen acc < Z.of_nat fuel → 0 ≤ o → zlen acc ≤ count → o + (count - zlen acc) ≤ zlen (concat ds) → o + (count - zlen acc) < 2 ^ 32 →
  read_loop bdev junk fuel sbi info count o acc [] = Some ((count, acc ++ take (Z.to_nat (count - zlen acc)) (drop (Z.to_nat o) (concat ds))), []).
Proof.
  intros El Ec Hst Hb. induction fuel as [|fuel IH]; intros count acc o Hf Ho Hacc Hend H32; [lia|]. cbn [read_loop]. destruct (Z.leb_spec count (zlen acc)).
  { replace (count - zlen acc) with 0 by lia. rewrite take_0, app_nil_r. replace count with (zlen acc) by lia. done. }
  destruct (Z.eqb_spec (block_size sbi) 0); [lia|]. destruct (concat_drop _ _ _ o Hb ltac:(lia)) as (d & Hd & Hm & Hlt & post & Ep).
  pose proof (blocks_length _ _ _ Hb) as Hlen. assert (0 ≤ o / block_size sbi ≤ o) as Hq by (split; [apply Z.div_pos; lia|apply Z.div_le_upper_bound; nia]).
  pose proof (Z.mod_pos_bound o (block_size sbi) ltac:(lia)). rewrite (u32_small (o / block_size sbi)), (u32_small (o mod block_size sbi)) by lia.
  destruct (Z.leb_spec (block_count info) (o / block_size sbi)); [lia|]. rewrite El.
  destruct (blocks_lookup _ _ _ _ _ Hb Hd ltac:(lia)) as (csize & p & Ecs & Ep' & Hat). unfold bind at 1, lift at 1. rewrite at_lookup, Ecs by lia.
  unfold bind at 1, lift at 1. rewrite Ep'. rewrite (bind_Some _ _ _ _ _ (sq_data_block_run _ _ _ Hat)). cbv beta iota zeta. destruct (Z.leb_spec (zlen d) (o mod block_size sbi)); [lia|].
  set (k := if count - zlen acc <? zlen d - o mod block_size sbi then count - zlen acc else zlen d - o mod block_size sbi).
  assert (0 < k ≤ count - zlen acc ∧ o mod block_size sbi + k ≤ zlen d) as Hk by (unfold k; destruct (Z.ltb_spec (count - zlen acc) (zlen d - o mod block_size sbi)); lia).
  unfold bind at 1, lift at 1. rewrite slice_Some by lia. rewrite u64_small by lia. set (w := take (Z.to_nat k) (drop (Z.to_nat (o mod block_size sbi)) d)).
  assert (zlen w = k) as Lw by (unfold w; rewrite zlen_take; [done|rewrite zlen_drop; lia]).
  assert (w = take (Z.to_nat k) (drop (Z.to_nat o) (concat ds))) as Ew.
  { rewrite Ep, take_app_le; [done|]. unfold zlen in *. rewrite length_drop. lia. }
  rewrite IH by (rewrite ?zlen_app; lia). rewrite zlen_app, Lw, <- app_assoc, Ew. do 4 f_equal.
  replace (Z.to_nat (count - zlen acc)) with (Z.to_nat k + Z.to_nat (count - (zlen acc + k)))%nat by lia. rewrite <- take_take_drop. f_equal.
  replace (Z.to_nat (o + k)) with (Z.to_nat o + Z.to_nat k)%nat by lia. by rewrite drop_drop.
Qed.

(** C38: reading a file.  For blocks that lie behind one another, holes, stored or
    compressed, each full but the last, the bytes asked for that the file has are
    returned, from whichever blocks; past the end nothing is. *)
Theorem squashfs_read_file_correct info l ds count o : block_list info = Some l → block_count info = Z.of_nat (length l) → 0 ≤ start_block info < 2 ^ 32 →
  blocks_at (start_block info) l ds → 0 ≤ sq_size info < 2 ^ 32 → sq_size info ≤ zlen (concat ds) → 0 ≤ o < 2 ^ 63 → 0 ≤ count < 2 ^ 63 →
  let n := 0 `max` (count `min` (sq_size info - o)) in
  squashfs_read_file bdev junk sbi info count o [] = Some ((n, take (Z.to_nat n) (drop (Z.to_nat o) (concat ds))), []).
Proof.
  intros El Ec Hst Hb Hs Hle Ho Hc n. unfold squashfs_read_file. destruct (Z.leb_spec (sq_size info) o).
  { assert (n = 0) as -> by lia. by rewrite take_0. }
  rewrite (u64_small (o + count)), (u64_small (sq_size info - o)) by lia. set (k := if sq_size info <? o + count then sq_size info - o else count).
  assert (k = n) as -> by (unfold k; destruct (Z.ltb_spec (sq_size info) (o + count)); lia).
  assert (zlen [] = 0) as E0 by done. rewrite (sq_loop_run info l ds) by (rewrite ?E0; done || lia). rewrite E0, Z.sub_0_r. done.
Qed.
End laws.

(** ** Directory listings

    As squashfs.h describes them: a header with the number of entries and one,
    and entries with the size of the name and one. *)
Record sq_entry := mk_sqe { e_offset : Z; e_inode : Z; e_type : Z; e_name : list Z }.
Definition entry_bytes (e : sq_entry) : list Z :=
  le_bytes 2 (e_offset e) ++ le_bytes 2 (e_inode e) ++ le_bytes 2 (e_type e) ++ le_bytes 2 (zlen (e_name e) + 1) ++ e_name e.
(** A directory block: its header, for inodes from the metadata block at
    [b_start] on, and its entries; a listing is such blocks one after another. *)
Record sq_dirblock := mk_sqd { b_start : Z; b_inode : Z; b_entries : list sq_entry }.
Definition header_bytes (d : sq_dirblock) : list Z := le_bytes 4 (Z.of_nat (length (b_entries d)) + 1) ++ le_bytes 4 (b_start d) ++ le_bytes 4 (b_inode d).
Definition entries_bytes (es : list sq_entry) : list Z := concat (map entry_bytes es).
Definition block_bytes (d : sq_dirblock) : list Z := header_bytes d ++ entries_bytes (b_entries d).
Definition listing (ds : list sq_dirblock) : list Z := concat (map block_bytes ds).
Definition entry_ok (e : sq_entry) : Prop := 0 ≤ e_offset e < 2 ^ 16 ∧ 0 ≤ e_type e < 2 ^ 16 ∧ zlen (e_name e) < 2 ^ 16 - 1 ∧ 0 ∉ e_name e.
Definition block_ok (d : sq_dirblock) : Prop := 0 ≤ b_start d < 2 ^ 32 ∧ Forall entry_ok (b_entries d).
Fixpoint first_entry (start : Z) (name : list Z) (es : list sq_entry) : option (Z * Z) :=
  match es with
  | [] => None
  | e :: es => if bool_decide (take 255 (e_name e) = name) then Some (u32 (start + e_offset e), e_type e) else first_entry start name es
  end.
Fixpoint first_match (name : list Z) (ds : list sq_dirblock) : option (Z * Z) :=
  match ds with
  | [] => None
  | d :: ds => match first_entry (b_start d) name (b_entries d) with Some r => Some r | None => first_match name ds end
  end.
Lemma field_app a n v c o k : o = zlen a → k = Z.of_nat n → 0 ≤ v < 256 ^ Z.of_nat n → field_at (a ++ le_bytes n v ++ c) o k = Some v.
Proof. intros -> -> Hv. unfold field_at. rewrite (slice_app a (le_bytes n v) c) by (done || by rewrite zlen_le). cbn [mbind option_bind]. by rewrite le_value_bytes. Qed.
Lemma until_nul_all l : 0 ∉ l → until_nul l = l.
Proof. induction l as [|c l IH]; intros Hn; [done|]. cbn. rewrite not_elem_of_cons in Hn. destruct (Z.eqb_spec c 0); [lia|]. by rewrite IH by apply Hn. Qed.
Lemma zlen_entry e : zlen (entry_bytes e) = 8 + zlen (e_name e).
Proof. unfold entry_bytes. rewrite !zlen_app, !zlen_le. lia. Qed.
Lemma cut_name (l : list Z) : (if zlen l <? 255 then zlen l else 255) = zlen (take 255 l).
Proof. unfold zlen. rewrite length_take. destruct (Z.ltb_spec (Z.of_nat (length l)) 255); lia. Qed.
Lemma entries_run start name post es : ∀ fuel pre, Forall entry_ok es → (length es < fuel)%nat → zlen (pre ++ entries_bytes es ++ post) < 2 ^ 31 →
  read_entries fuel (squashfs_lookup_cb name) (zlen (pre ++ entries_bytes es ++ post)) start (Z.of_nat (length es)) (zlen pre) (pre ++ entries_bytes es ++ post) =
  Some (match first_entry start name es with Some r => inr r | None => inl (inr (zlen (pre ++ entries_bytes es))) end).
Proof.
  induction es as [|e es IH]; intros fuel pre He Hf Hs; (destruct fuel as [|fuel]; [cbn in Hf; lia|]).
  { cbn. by rewrite app_nil_r. }
  apply Forall_cons in He as [(Ho & Ht & Hn & H0) He]. change (entries_bytes (e :: es)) with (entry_bytes e ++ entries_bytes es) in *. rewrite <- app_assoc in Hs |- *.
  set (tail := entries_bytes es ++ post) in *. pose proof (zlen_nonneg pre). pose proof (zlen_nonneg (e_name e)). pose proof (zlen_nonneg tail).
  cbn [read_entries length first_entry]. destruct (Z.leb_spec (Z.of_nat (S (length es))) 0); [lia|].
  set (data := pre ++ entry_bytes e ++ tail) in *. assert (zlen data = zlen pre + 8 + zlen (e_name e) + zlen tail) as Ld by (unfold data; rewrite !zlen_app, zlen_entry; lia).
  rewrite (u32_small (zlen pre + 8)) by lia. destruct (Z.ltb_spec (zlen data) (zlen pre + 8)); [lia|].
  assert (field_at data (zlen pre) 2 = Some (e_offset e)) as -> by (unfold data, entry_bytes; rewrite <- !app_assoc; apply field_app; done || lia).
  assert (field_at data (zlen pre + 4) 2 = Some (e_type e)) as ->.
  { unfold data, entry_bytes. replace (pre ++ _) with ((pre ++ le_bytes 2 (e_offset e) ++ le_bytes 2 (e_inode e)) ++ le_bytes 2 (e_type e) ++ (le_bytes 2 (zlen (e_name e) + 1) ++ e_name e) ++ tail)
      by by rewrite <- !app_assoc. apply field_app; [rewrite !zlen_app, !zlen_le; lia|done|lia]. }
  assert (field_at data (zlen pre + 6) 2 = Some (zlen (e_name e) + 1)) as ->.
  { unfold data, entry_bytes. replace (pre ++ _) with ((pre ++ le_bytes 2 (e_offset e) ++ le_bytes 2 (e_inode e) ++ le_bytes 2 (e_type e)) ++ le_bytes 2 (zlen (e_name e) + 1) ++ e_name e ++ tail)
      by by rewrite <- !app_assoc. apply field_app; [rewrite !zlen_app, !zlen_le; lia|done|lia]. }
  cbn [mbind option_bind]. replace (zlen (e_name e) + 1 - 1) with (zlen (e_name e)) by lia. unfold u16. rewrite Z.mod_small by lia. cbv zeta.
  rewrite (u32_small (zlen pre + 8 + zlen (e_name e))) by lia. destruct (Z.ltb_spec (zlen data) (zlen pre + 8 + zlen (e_name e))); [lia|]. rewrite cut_name.
  assert (slice data (zlen pre + 8) (zlen (take 255 (e_name e))) = Some (take 255 (e_name e))) as ->.
  { replace data with ((pre ++ le_bytes 2 (e_offset e) ++ le_bytes 2 (e_inode e) ++ le_bytes 2 (e_type e) ++ le_bytes 2 (zlen (e_name e) + 1)) ++ take 255 (e_name e) ++ drop 255 (e_name e) ++ tail).
    - apply slice_app; [rewrite !zlen_app, !zlen_le; lia|done].
    - unfold data, entry_bytes. rewrite (app_assoc (take 255 _)), take_drop. by rewrite <- !app_assoc. }
  cbn [mbind option_bind]. rewrite until_nul_all by (intros Hin; apply H0; rewrite <- (take_drop 255 (e_name e)); apply elem_of_app; by left).
  unfold squashfs_lookup_cb at 1. case_bool_decide; [done|].
  assert (zlen pre + 8 + zlen (e_name e) = zlen (pre ++ entry_bytes e)) as Ep by (rewrite zlen_app, zlen_entry; lia). rewrite Ep.
  assert (data = (pre ++ entry_bytes e) ++ entries_bytes es ++ post) as Ed by (unfold data; by rewrite <- app_assoc). rewrite Ed in *.
  replace (Z.of_nat (S (length es)) - 1) with (Z.of_nat (length es)) by lia. rewrite (app_assoc pre (entry_bytes e)).
  apply IH; [done|cbn in Hf; lia|done].
Qed.
Lemma zlen_entries es : 8 * Z.of_nat (length es) ≤ zlen (entries_bytes es).
Proof.
  induction es as [|e es IH]; [done|]. change (entries_bytes (e :: es)) with (entry_bytes e ++ entries_bytes es). cbn [length].
  rewrite zlen_app, zlen_entry. pose proof (zlen_nonneg (e_name e)). lia.
Qed.
Lemma zlen_listing ds : 12 * Z.of_nat (length ds) ≤ zlen (listing ds).
Proof.
  induction ds as [|d ds IH]; [done|]. change (listing (d :: ds)) with (block_bytes d ++ listing ds). cbn [length]. unfold block_bytes, header_bytes.
  rewrite !zlen_app, !zlen_le. pose proof (zlen_nonneg (entries_bytes (b_entries d))). lia.
Qed.
Lemma listing_run name post ds : ∀ fuel pre, zlen post < 12 → Forall block_ok ds → (length ds < fuel)%nat → zlen (pre ++ listing ds ++ post) < 2 ^ 31 →
  parse_dir fuel (squashfs_lookup_cb name) (zlen (pre ++ listing ds ++ post)) (zlen pre) (pre ++ listing ds ++ post) = Some (inr (first_match name ds)).
Proof.
  induction ds as [|d ds IH]; intros fuel pre Hp Hd Hf Hs; (destruct fuel as [|fuel]; [cbn in Hf; lia|]); cbn [parse_dir]; pose proof (zlen_nonneg pre).
  { cbn [listing map concat app] in *. rewrite zlen_app in *. pose proof (zlen_nonneg post). rewrite u32_small by lia. destruct (Z.leb_spec (zlen pre + 12) (zlen pre + zlen post)); [lia|done]. }
  apply Forall_cons in Hd as [[Hst He] Hd]. set (es := b_entries d) in *. change (listing (d :: ds)) with (block_bytes d ++ listing ds) in *.
  set (data := pre ++ (block_bytes d ++ listing ds) ++ post) in *. set (tail := listing ds ++ post). set (head := pre ++ header_bytes d).
  assert (zlen head = zlen pre + 12) as Lh by (unfold head, header_bytes; rewrite !zlen_app, !zlen_le; lia).
  assert (data = head ++ entries_bytes es ++ tail) as Ed by (unfold data, head, block_bytes, tail; by rewrite <- !app_assoc).
  assert (zlen data = zlen head + zlen (entries_bytes es) + zlen tail) as Ld by (rewrite Ed, !zlen_app; lia).
  pose proof (zlen_entries es) as Hes. pose proof (zlen_nonneg tail).
  rewrite u32_small by lia. destruct (Z.leb_spec (zlen pre + 12) (zlen data)); [|lia].
  assert (field_at data (zlen pre) 4 = Some (Z.of_nat (length es) + 1)) as ->
    by (rewrite Ed; unfold head, header_bytes; rewrite <- !app_assoc; apply (field_app pre 4); [done|done|cbn; lia]).
  cbn [mbind option_bind]. destruct (Z.eqb_spec (Z.of_nat (length es) + 1) 0); [lia|].
  assert (field_at data (zlen pre + 4) 4 = Some (b_start d)) as ->.
  { rewrite Ed. unfold head, header_bytes. fold es. rewrite <- !app_assoc, (app_assoc pre). apply (field_app (pre ++ _) 4); [rewrite zlen_app, zlen_le; lia|done|done]. }
  cbn [mbind option_bind]. replace (Z.of_nat (length es) + 1 - 1) with (Z.of_nat (length es)) by lia. rewrite <- Lh, Ed.
  rewrite entries_run; [|done|rewrite <- Ed; unfold zlen in *; lia|by rewrite <- Ed]. cbn [mbind option_bind first_match]. fold es.
  destruct (first_entry (b_start d) name es); [done|]. unfold tail. rewrite (app_assoc head). rewrite Ed in Hs. unfold tail in Hs. rewrite (app_assoc head) in Hs.
  apply IH; [done|done|cbn in Hf; lia|done].
Qed.

(** C39: a listing in the form that squashfs.h describes, any number of directory
    blocks, each a header with its number of entries and those entries, of which
    there may be none, is searched from the first entry of the first block to the
    last of the last for the name, and no further; the result is the place of the
    inode, counted from the start in the header of its own block, and its type.
    Names are shorter than 65535 bytes and hold no zero; the code compares the
    first 255 bytes of them.  Fewer than twelve bytes may follow the listing, and
    all of it is below 2 GiB. *)
Theorem squashfs_dir_correct ds name post : Forall block_ok ds → zlen post < 12 → zlen (listing ds ++ post) < 2 ^ 31 →
  parse_dir (S (length (listing ds ++ post))) (squashfs_lookup_cb name) (zlen (listing ds ++ post)) 0 (listing ds ++ post) = Some (inr (first_match name ds)).
Proof.
  intros Hd Hp Hs. apply (listing_run name post ds _ []); [done..| |done]. pose proof (zlen_listing ds). rewrite length_app. unfold zlen in *. lia.
Qed.

(** ** Examples

    A file of eleven bytes in blocks of four: a hole, a stored block and a
    compressed one. *)
Definition sq_img : gmap Z Z := store ∅ 600 ([1; 2; 3; 4] ++ [120; 1] ++ stored_blocks [[5; 6; 7]] ++ [0; 0; 0; 0]).
Definition sq_disk : ramdisk_priv := mk_rd sq_img 1024.
Definition sq_sb : squashfs_sb_info := mk_sq 4 0.
Definition sq_file : squashfs_inode_info := mk_sqi 600 11 SQUASHFS_REG_TYPE 0 false (Some [0; SQUASHFS_COMPRESSED_BIT + 4; 14]) 3 0 0.
Lemma squashfs_read_file_correct_witness :
  squashfs_read_file sq_disk [] sq_sb sq_file 100 2 [] = Some ((9, [0; 0; 1; 2; 3; 4; 5; 6; 7]), []).
Proof.
  apply (squashfs_read_file_correct sq_disk []) with (l := [0; SQUASHFS_COMPRESSED_BIT + 4; 14]) (ds := [[0; 0; 0; 0]; [1; 2; 3; 4]; [5; 6; 7]]);
    try done; try (cbn; lia).
  split; [split; [vm_compute; done|left; done]|]. split; [right; done|]. split; [done|].
  split; [split; [vm_compute; done|]|].
  { right. split; [done|]. split; [done|]. split; [done|]. left. split; [done|]. vm_compute. reflexivity. }
  split; [right; done|]. split; [done|]. split; [split; [vm_compute; done|]|].
  { right. split; [done|]. split; [done|]. split; [done|]. right. split; [done|]. split; [vm_compute; reflexivity|done]. }
  split; [left; done|]. split; [done|]. done.
Defined.
Definition sq_dir0 : list sq_dirblock :=
  [mk_sqd 64 1 [mk_sqe 5 0 1 [97; 97]; mk_sqe 40 1 2 [99]]; mk_sqd 7 3 []; mk_sqd 9000 4 [mk_sqe 12 0 2 [97]; mk_sqe 40 1 2 [98]]].
Lemma squashfs_dir_correct_witness :
  parse_dir 77 (squashfs_lookup_cb [98]) 76 0 (listing sq_dir0 ++ [0; 0; 0]) = Some (inr (Some (9040, 2))).
Proof.
  apply (squashfs_dir_correct sq_dir0 [98] [0; 0; 0]); [|done|done].
  repeat (apply Forall_cons; split; [split; [done|]; repeat (apply Forall_cons; split; [split; [done|split; [done|split; [done|]]]; cbn; rewrite ?elem_of_cons, ?elem_of_nil; lia|]); by apply Forall_nil|]).
  by apply Forall_nil.
Defined.
