(* ===== verification/Journal.v ===== *)
(** * kernel/journal.c: the write-ahead journal, over any block device.

    On-disk structures are the bytes of the packed C structures.  [jmem] holds
    the coming answers of kmalloc (success when it is empty) and [jtrace] is a
    ghost variable: the successful device writes, newest first, so that the
    states a crash can leave are the results of its oldest parts. *)
From S2P Require Import Prelude Bytes BlockDev.
Local Open Scope Z_scope.
Local Open Scope kernel_scope.

Definition JOURNAL_MAGIC_SB : Z := 0x4A524E4C.
Definition JOURNAL_MAGIC_DESC : Z := 0x5452414E.
Definition JOURNAL_MAGIC_COMMIT : Z := 0x434F4D54.
(** Packed sizes of the header, the data block descriptor and the commit record. *)
Definition HDR_SIZE : Z := 36.
Definition JDB_SIZE : Z := 20.
Definition COMMIT_SIZE : Z := 32.

(** [struct journal_handle]; the transaction's blocks with their numbers are
    [txn], and [txn_blocks] is its length. *)
Record journal_handle := mk_jh {
  block_size : Z;
  journal_start : Z;
  journal_blocks : Z;
  jhead : Z;
  jtail : Z;
  jsequence : Z;
  in_transaction : bool;
  txn : list (Z * list Z);
  txn_capacity : Z;
  dirty : bool;
  fs_total_blocks : Z
}.

Record jstate (D : Type) := mk_js {
  g_journal : journal_handle;
  g_journal_initialized : bool;
  jdev : D;
  jmem : list bool;
  jtrace : list (Z * list Z)
}.
Arguments mk_js {D}.
Arguments g_journal {D}.
Arguments g_journal_initialized {D}.
Arguments jdev {D}.
Arguments jmem {D}.
Arguments jtrace {D}.

Definition set_pos (h t q : Z) (j : journal_handle) : journal_handle :=
  mk_jh (block_size j) (journal_start j) (journal_blocks j) h t q (in_transaction j) (txn j) (txn_capacity j) (dirty j) (fs_total_blocks j).
Definition set_txn (b : bool) (l : list (Z * list Z)) (c : Z) (j : journal_handle) : journal_handle :=
  mk_jh (block_size j) (journal_start j) (journal_blocks j) (jhead j) (jtail j) (jsequence j) b l c (dirty j) (fs_total_blocks j).
Definition set_dirty (b : bool) (j : journal_handle) : journal_handle :=
  mk_jh (block_size j) (journal_start j) (journal_blocks j) (jhead j) (jtail j) (jsequence j) (in_transaction j) (txn j) (txn_capacity j) b (fs_total_blocks j).

(** ** Bytes of the on-disk structures *)

(** [calc_checksum]. *)
Definition csum_step (sum b : Z) : Z := Z.lxor (u32 (Z.lor (Z.shiftl sum 1) (Z.shiftr sum 31))) b.
Definition calc_checksum (data : list Z) : Z := foldl csum_step 0 data.

Definition zeros (n : Z) : list Z := replicate (Z.to_nat n) 0.
(** [n] bytes at offset [o] of a buffer, as an integer. *)
Definition field (buf : list Z) (o n : nat) : Z := le_value (take n (drop o buf)).
(** A structure at the start of a zeroed buffer of [size] bytes. *)
Definition in_block (size : Z) (bs : list Z) : list Z := take (Z.to_nat size) (bs ++ zeros size).

Definition jsb_fields (j : journal_handle) : list Z :=
  le_bytes 4 JOURNAL_MAGIC_SB ++ le_bytes 4 (block_size j) ++ le_bytes 4 0 ++ le_bytes 8 (journal_start j) ++
  le_bytes 8 (journal_blocks j) ++ le_bytes 8 (jhead j) ++ le_bytes 8 (jtail j) ++ le_bytes 8 (jsequence j) ++
  le_bytes 4 (if dirty j then 1 else 0).
Definition jsb_bytes (j : journal_handle) : list Z :=
  in_block (block_size j) (jsb_fields j ++ le_bytes 4 (calc_checksum (jsb_fields j))).

Definition hdr_bytes (seq n sum : Z) : list Z :=
  le_bytes 4 JOURNAL_MAGIC_DESC ++ le_bytes 8 seq ++ le_bytes 4 n ++ le_bytes 4 sum ++ zeros 16.
Definition jdb_bytes (e : Z * list Z) : list Z := le_bytes 8 e.1 ++ le_bytes 4 (calc_checksum e.2) ++ zeros 8.
(** The checksum covers the header's first 32 bytes, its own field still zero. *)
Definition desc_bytes (size seq : Z) (l : list (Z * list Z)) : list Z :=
  let n := Z.of_nat (length l) in
  in_block size (hdr_bytes seq n (calc_checksum (take 32 (hdr_bytes seq n 0))) ++ concat (jdb_bytes <$> l)).
Definition commit_fields (seq sum : Z) : list Z :=
  le_bytes 4 JOURNAL_MAGIC_COMMIT ++ le_bytes 8 seq ++ le_bytes 4 sum ++ zeros 16.
(** The record alone is 32 bytes long, but a whole block is written from its
    address: [stack] is what follows it in memory. *)
Definition commit_bytes (size seq : Z) (stack : list Z) : list Z :=
  take (Z.to_nat size) (commit_fields seq (calc_checksum (take 28 (commit_fields seq 0))) ++ stack).

Definition jbh_magic (b : list Z) : Z := field b 0 4.
Definition jbh_sequence (b : list Z) : Z := field b 4 8.
Definition jbh_num_blocks (b : list Z) : Z := field b 12 4.
Definition jcr_magic (b : list Z) : Z := field b 0 4.
Definition jcr_sequence (b : list Z) : Z := field b 4 8.
(** [jdbs[i]]: reading beyond the buffer has no outcome. *)
Definition jdb_at (b : list Z) (i : Z) : option (Z * Z) :=
  let o := Z.to_nat (HDR_SIZE + i * JDB_SIZE) in
  if (o + 20 <=? length b)%nat then Some (field b o 8, field b (o + 8) 4) else None.

Section journal.
Context `{BlockDevice D}.
Definition JM := ST (jstate D).

Definition on_handle (f : journal_handle → journal_handle) : JM unit :=
  modify (λ s, mk_js (f (g_journal s)) (g_journal_initialized s) (jdev s) (jmem s) (jtrace s)).
Definition set_initialized (b : bool) : JM unit :=
  modify (λ s, mk_js (g_journal s) b (jdev s) (jmem s) (jtrace s)).
Definition kmalloc : JM bool :=
  λ s, match jmem s with
       | [] => Some (true, s)
       | b :: l => Some (b, mk_js (g_journal s) (g_journal_initialized s) (jdev s) l (jtrace s))
       end.

(** ** Device blocks *)
Definition dev_write (sector : Z) (data : list Z) (count : Z) : JM Z :=
  λ s, match block_dev_write (jdev s) data sector count with
       | Some d => Some (0, mk_js (g_journal s) (g_journal_initialized s) d (jmem s) ((sector, data) :: jtrace s))
       | None => Some (-1, s)
       end.
Definition dev_read (sector count : Z) : JM (option (list Z)) :=
  gets (λ s, block_dev_read (jdev s) sector count).

Definition sectors_per_block (s : jstate D) : Z := block_size (g_journal s) / bd_block_size (jdev s).
Definition journal_to_device (s : jstate D) (offset : Z) : Z := u64 (journal_start (g_journal s) + offset).
Definition journal_write_block (offset : Z) (data : list Z) : JM Z :=
  n <- gets sectors_per_block ;;
  b <- gets (λ s, journal_to_device s offset) ;;
  dev_write (u64 (b * n)) data n.
Definition journal_read_block (offset : Z) : JM (option (list Z)) :=
  n <- gets sectors_per_block ;;
  b <- gets (λ s, journal_to_device s offset) ;;
  dev_read (u64 (b * n)) n.

Definition write_jsb : JM Z :=
  ok <- kmalloc ;;
  if negb ok then ret (-1) else
  j <- gets g_journal ;;
  journal_write_block 0 (jsb_bytes j).

Definition free_transaction : JM unit := on_handle (set_txn false [] 0).

(** ** Moving the head *)

(** The [while] that skips the oldest transactions of a full journal. *)
Fixpoint evict (fuel : nat) : JM unit :=
  match fuel with
  | O => fail
  | S fuel =>
      j <- gets g_journal ;;
      let usable := u64 (journal_blocks j - 1) in
      if jhead j <? u64 (jtail j + usable) then ret tt else
      ok <- kmalloc ;;
      if negb ok then ret tt else
      b <- journal_read_block (jtail j) ;;
      let n := match b with
               | Some b => if jbh_magic b =? JOURNAL_MAGIC_DESC then u32 (1 + jbh_num_blocks b + 1) else 1
               | None => 1
               end in
      on_handle (set_pos (jhead j) (u64 (jtail j + n)) (jsequence j)) ;;;
      evict fuel
  end.
Definition wrap_head (j : journal_handle) : journal_handle :=
  if journal_blocks j <=? jhead j then
    set_pos (jhead j - journal_blocks j)
      (if journal_blocks j <=? jtail j then jtail j - journal_blocks j else jtail j) (jsequence j) j
  else j.
(** Every turn moves the tail, so [head] turns are more than enough. *)
Definition advance_head (n : Z) : JM unit :=
  on_handle (λ j, set_pos (u64 (jhead j + n)) (jtail j) (jsequence j) j) ;;;
  j <- gets g_journal ;;
  evict (Z.to_nat (jhead j + 2)) ;;;
  on_handle wrap_head ;;;
  _ <- write_jsb ;;
  ret tt.

(** ** Transactions *)
Definition journal_begin (max_blocks : Z) : JM Z :=
  ini <- gets g_journal_initialized ;;
  if negb ini then ret (-1) else
  j <- gets g_journal ;;
  if in_transaction j then ret (-1) else
  on_handle (λ j, set_txn true (txn j) (txn_capacity j) j) ;;;
  let max_blocks := if max_blocks =? 0 then 1 else max_blocks in
  let desc_capacity := (block_size j - HDR_SIZE) / JDB_SIZE in
  let max_blocks := if desc_capacity <? max_blocks then desc_capacity else max_blocks in
  ok1 <- kmalloc ;;
  ok2 <- kmalloc ;;
  if negb ok1 || negb ok2 then
    on_handle (λ j, set_txn false (txn j) (txn_capacity j) j) ;;; ret (-1)
  else on_handle (set_txn true [] max_blocks) ;;; ret 0.

Definition journal_write (fs_block : Z) (data : list Z) : JM Z :=
  ini <- gets g_journal_initialized ;;
  j <- gets g_journal ;;
  if negb ini || negb (in_transaction j) then ret (-1) else
  if txn_capacity j <=? Z.of_nat (length (txn j)) then ret (-1) else
  ok <- kmalloc ;;
  if negb ok then ret (-1) else
  on_handle (λ j, set_txn (in_transaction j) (txn j ++ [(u32 fs_block, take (Z.to_nat (block_size j)) data)]) (txn_capacity j) j) ;;;
  ret 0.

(** Phases 2 and 4: one write per block, stopping at the first failure. *)
Fixpoint write_log (head i : Z) (l : list (Z * list Z)) : JM bool :=
  match l with
  | [] => ret true
  | (_, data) :: l =>
      r <- journal_write_block (u64 (head + 1 + i)) data ;;
      if r <? 0 then ret false else write_log head (i + 1) l
  end.
Fixpoint checkpoint (n : Z) (l : list (Z * list Z)) : JM bool :=
  match l with
  | [] => ret true
  | (b, data) :: l =>
      r <- dev_write (u32 (b * n)) data n ;;
      if r <? 0 then ret false else checkpoint n l
  end.

Definition abandon : JM Z := free_transaction ;;; ret (-1).

Definition journal_commit (stack : list Z) : JM Z :=
  ini <- gets g_journal_initialized ;;
  j <- gets g_journal ;;
  if negb ini || negb (in_transaction j) then ret (-1) else
  let l := txn j in
  if decide (l = []) then free_transaction ;;; ret 0 else
  let seq := jsequence j in
  on_handle (λ j, set_pos (jhead j) (jtail j) (u64 (seq + 1)) j) ;;;
  let total_blocks := u32 (1 + Z.of_nat (length l) + 1) in
  ok <- kmalloc ;;
  if negb ok then abandon else
  on_handle (set_dirty true) ;;;
  _ <- write_jsb ;;
  r <- journal_write_block (jhead j) (desc_bytes (block_size j) seq l) ;;
  if r <? 0 then abandon else
  ok <- write_log (jhead j) 0 l ;;
  if negb ok then abandon else
  r <- journal_write_block (u64 (jhead j + 1 + Z.of_nat (length l))) (commit_bytes (block_size j) seq stack) ;;
  if r <? 0 then abandon else
  n <- gets sectors_per_block ;;
  ok <- checkpoint n l ;;
  if negb ok then abandon else
  advance_head total_blocks ;;;
  on_handle (set_dirty false) ;;;
  _ <- write_jsb ;;
  free_transaction ;;;
  ret 0.

Definition journal_rollback : JM Z :=
  ini <- gets g_journal_initialized ;;
  j <- gets g_journal ;;
  if negb ini || negb (in_transaction j) then ret (-1) else
  free_transaction ;;; ret 0.

(** ** Recovery *)

(** Replaying the blocks [i..] of the transaction at [pos], whose descriptor is
    in [buf]. *)
Fixpoint replay (k : nat) (pos i : Z) (buf : list Z) : JM unit :=
  match k with
  | O => ret tt
  | S k =>
      match jdb_at buf i with
      | None => fail
      | Some (fs_block, sum) =>
          j <- gets g_journal ;;
          (if (0 <? fs_total_blocks j) && (fs_total_blocks j <=? fs_block) then ret tt else
           ok <- kmalloc ;;
           if negb ok then ret tt else
           d <- journal_read_block (u64 (pos + 1 + i)) ;;
           match d with
           | None => ret tt
           | Some data =>
               if calc_checksum data =? sum then
                 n <- gets sectors_per_block ;;
                 _ <- dev_write (u64 (fs_block * n)) data n ;;
                 ret tt
               else ret tt
           end) ;;;
          replay k pos (i + 1) buf
      end
  end.

(** The scan from [pos] to [end_].  One buffer serves for the descriptor and
    the commit record, so the sequence number of the descriptor that the test
    compares is read from the commit record. *)
Fixpoint scan (fuel : nat) (pos end_ : Z) : JM unit :=
  match fuel with
  | O => fail
  | S fuel =>
      if end_ <=? pos then ret tt else
      b <- journal_read_block pos ;;
      match b with
      | None => ret tt
      | Some hdr =>
          if negb (jbh_magic hdr =? JOURNAL_MAGIC_DESC) then scan fuel (pos + 1) end_ else
          let commit_pos := u64 (pos + 1 + jbh_num_blocks hdr) in
          if end_ <=? commit_pos then ret tt else
          b <- journal_read_block commit_pos ;;
          match b with
          | None => ret tt
          | Some buf =>
              if negb (jcr_magic buf =? JOURNAL_MAGIC_COMMIT) || negb (jcr_sequence buf =? jbh_sequence buf)
              then scan fuel (commit_pos + 1) end_ else
              b <- journal_read_block pos ;;
              match b with
              | None => ret tt
              | Some hdr =>
                  replay (Z.to_nat (jbh_num_blocks hdr)) pos 0 hdr ;;;
                  scan fuel (commit_pos + 1) end_
              end
          end
      end
  end.

Definition journal_recover : JM Z :=
  ini <- gets g_journal_initialized ;;
  if negb ini then ret (-1) else
  j <- gets g_journal ;;
  ok <- kmalloc ;;
  if negb ok then ret (-1) else
  scan (Z.to_nat (jhead j - jtail j + 1)) (jtail j) (jhead j) ;;;
  on_handle (λ j, set_dirty false (set_pos (jhead j) (jhead j) (jsequence j) j)) ;;;
  _ <- write_jsb ;;
  ret 0.

Definition journal_init (bdev : option D) (start blocks bsize fs_total : Z) : JM Z :=
  match bdev with
  | None => ret (-1)
  | Some d =>
      if (blocks <? 8) || (bsize <? 512) then ret (-1) else
      modify (λ s, mk_js (mk_jh bsize start blocks 0 0 0 false [] 0 false fs_total) (g_journal_initialized s) d (jmem s) (jtrace s)) ;;;
      ok <- kmalloc ;;
      if negb ok then ret (-1) else
      b <- journal_read_block 0 ;;
      let found := match b with Some b => jbh_magic b =? JOURNAL_MAGIC_SB | None => false end in
      if found then
        let b := default [] b in
        on_handle (λ j, set_dirty (negb (field b 52 4 =? 0)) (set_pos (field b 28 8) (field b 36 8) (field b 44 8) j)) ;;;
        j <- gets g_journal ;;
        r <- (if dirty j then journal_recover else ret 0) ;;
        if r <? 0 then ret (-1) else set_initialized true ;;; ret 0
      else
        on_handle (λ j, set_dirty false (set_pos 1 1 1 j)) ;;;
        r <- write_jsb ;;
        if r <? 0 then ret (-1) else set_initialized true ;;; ret 0
  end.

Definition journal_sync : JM Z :=
  ini <- gets g_journal_initialized ;;
  if negb ini then ret (-1) else write_jsb.

(** [(total, used, transactions, dirty)]. *)
Definition journal_get_stats : JM (Z * Z * Z * Z) :=
  ini <- gets g_journal_initialized ;;
  if negb ini then ret (0, 0, 0, 0) else
  j <- gets g_journal ;;
  ret (journal_blocks j, if jtail j <=? jhead j then jhead j - jtail j else 0, u64 (jsequence j - 1), if dirty j then 1 else 0).

Definition journal_is_clean : JM bool :=
  ini <- gets g_journal_initialized ;;
  if negb ini then ret true else
  j <- gets g_journal ;; ret (negb (dirty j)).
End journal.
