(* ===== verification/JournalInv.v ===== *)
(** * The journal as a transactional disk.

    [disk] is the device as a function from file system blocks to contents; a
    [geometry] fixes the sizes and the journal's place.  The block operations
    of journal.c are specified as updates of that function, up to pointwise
    equality [deq]. *)
From S2P Require Import Prelude Bytes BlockDev Journal.
Local Open Scope Z_scope.
Local Open Scope kernel_scope.

(** ** Disks *)
Definition disk : Type := Z → list Z.
Definition deq (d d' : disk) : Prop := ∀ x, d x = d' x.
#[export] Instance deq_equiv : Equivalence deq.
Proof. split; [by intros d x|by intros d d' E x|by intros d1 d2 d3 E E' x; rewrite E]. Qed.

Definition disk_set (b : Z) (v : list Z) (d : disk) : disk := λ x, if decide (x = b) then v else d x.
(** The effect a transaction is meant to have. *)
Definition disk_apply (l : list (Z * list Z)) (d : disk) : disk := foldl (λ d e, disk_set e.1 e.2 d) d l.
#[export] Instance disk_set_proper b v : Proper (deq ==> deq) (disk_set b v).
Proof. intros d d' E x. unfold disk_set. by rewrite E. Qed.
#[export] Instance disk_apply_proper l : Proper (deq ==> deq) (disk_apply l).
Proof.
  unfold disk_apply. induction l as [|e l IH]; intros d d' E; [done|]. cbn [foldl]. apply IH. by rewrite E.
Qed.

Lemma disk_set_eq b v d : disk_set b v d b = v.
Proof. unfold disk_set. by rewrite decide_True. Qed.
Lemma disk_set_ne b v d x : x ≠ b → disk_set b v d x = d x.
Proof. intros Hx. unfold disk_set. by rewrite decide_False. Qed.
Lemma disk_apply_out l d x : (∀ e, e ∈ l → e.1 ≠ x) → disk_apply l d x = d x.
Proof.
  unfold disk_apply. revert d. induction l as [|e l IH]; intros d Hl; [done|]. cbn [foldl].
  rewrite IH by (intros e' He'; apply Hl; by right). apply disk_set_ne. intros ->. by apply (Hl e); [left|].
Qed.
(** Blocks are independent of each other. *)
Lemma disk_set_loc b v d d' x : d x = d' x → disk_set b v d x = disk_set b v d' x.
Proof. intros E. unfold disk_set. by rewrite E. Qed.
Lemma disk_apply_loc l d d' x : d x = d' x → disk_apply l d x = disk_apply l d' x.
Proof.
  unfold disk_apply. revert d d'. induction l as [|e l IH]; intros d d' E; [done|]. cbn [foldl]. by apply IH, disk_set_loc.
Qed.
Lemma disk_apply_app l k d : disk_apply (l ++ k) d = disk_apply k (disk_apply l d).
Proof. unfold disk_apply. apply foldl_app. Qed.
(** The blocks a transaction writes do not depend on what was there. *)
Lemma disk_apply_in l d d' x : x ∈ l.*1 → disk_apply l d x = disk_apply l d' x.
Proof.
  induction l as [|e l IH] using rev_ind; [intros Hx; by apply elem_of_nil in Hx|].
  rewrite fmap_app, elem_of_app, !disk_apply_app. cbn. unfold disk_set. intros Hx.
  destruct (decide (x = e.1)) as [->|Hne]; [done|]. apply IH. destruct Hx as [Hx|Hx]; [done|].
  apply list_elem_of_singleton in Hx. done.
Qed.

(** ** Geometry *)
Record geometry := mk_geo {
  sector_size : Z;
  sectors : Z;
  per_block : Z;
  jstart : Z;
  jblocks : Z;
  fs_total : Z
}.
Definition bsz (G : geometry) : Z := per_block G * sector_size G.
Record geo_ok (G : geometry) : Prop := mk_geo_ok {
  geo_sector : 0 < sector_size G;
  geo_per : 0 < per_block G;
  geo_size : 512 ≤ bsz G < 2 ^ 32;
  geo_start : 0 ≤ jstart G;
  geo_blocks : 8 ≤ jblocks G;
  geo_fits : (jstart G + jblocks G) * per_block G ≤ sectors G;
  geo_max : sectors G * sector_size G < 2 ^ 63
}.
Lemma geo_small G : geo_ok G → jstart G + jblocks G < 2 ^ 54.
Proof.
  intros []. assert ((jstart G + jblocks G) * bsz G ≤ sectors G * sector_size G) as H.
  { unfold bsz. rewrite Z.mul_assoc. by apply Z.mul_le_mono_nonneg_r; [lia|]. }
  nia.
Qed.
Definition in_journal (G : geometry) (b : Z) : Prop := jstart G ≤ b < jstart G + jblocks G.

(** ** Blocks of the device *)
Definition put (G : geometry) (b : Z) (data : list Z) (m : gmap Z Z) : gmap Z Z := store m (b * bsz G) data.
Definition blk (G : geometry) (m : gmap Z Z) : disk := λ b, load m (b * bsz G) (Z.to_nat (bsz G)).
Definition full (G : geometry) (data : list Z) : Prop := Z.of_nat (length data) = bsz G.

Lemma blk_put G b data m : full G data → deq (blk G (put G b data m)) (disk_set b data (blk G m)).
Proof.
  unfold full. intros Hl x. unfold blk, put, disk_set. destruct (decide (x = b)) as [->|Hx].
  - rewrite <- Hl, Nat2Z.id. apply load_store.
  - apply load_ext. intros a Ha. apply store_lookup_out. rewrite Hl.
    assert (x + 1 ≤ b ∨ b + 1 ≤ x) as [H|H] by lia; [left|right]; nia.
Qed.

(** ** States of the journal *)
Section inv.
Context `{BL : BlockLaws D} (G : geometry).

Definition dsk (s : jstate D) : disk := blk G (bd_mem (jdev s)).
Definition handle_ok (j : journal_handle) : Prop :=
  block_size j = bsz G ∧ journal_start j = jstart G ∧ journal_blocks j = jblocks G ∧ fs_total_blocks j = fs_total G.
(** An initialised journal whose allocations succeed. *)
Record jok (s : jstate D) : Prop := mk_jok {
  jok_geo : geo_ok G;
  jok_init : g_journal_initialized s = true;
  jok_mem : jmem s = [];
  jok_dev : bd_ok (jdev s);
  jok_sector : bd_block_size (jdev s) = sector_size G;
  jok_sectors : bd_sectors (jdev s) = sectors G;
  jok_handle : handle_ok (g_journal s)
}.

Lemma on_handle_ok f s : jok s → handle_ok (f (g_journal s)) →
  ∃ s', on_handle f s = Some (tt, s') ∧ jok s' ∧ g_journal s' = f (g_journal s) ∧ deq (dsk s') (dsk s).
Proof. intros [] Hf. eexists. split; [reflexivity|]. split; [by constructor|done]. Qed.
Lemma kmalloc_ok s : jok s → kmalloc s = Some (true, s).
Proof. intros []. unfold kmalloc. by rewrite jok_mem0. Qed.

Lemma sectors_per_block_ok s : jok s → sectors_per_block s = per_block G.
Proof.
  intros [[] _ _ _ HB _ (Hs & _)]. unfold sectors_per_block. rewrite HB, Hs. unfold bsz. apply Z.div_mul. lia.
Qed.

(** A block inside the device. *)
Definition on_device (b : Z) : Prop := 0 ≤ b ∧ (b + 1) * per_block G ≤ sectors G.

Lemma on_device_small b : geo_ok G → on_device b → b * per_block G < 2 ^ 63 ∧ b < 2 ^ 63.
Proof. intros [] [H1 H2]. nia. Qed.
Lemma in_journal_on_device b : geo_ok G → in_journal G b → on_device b.
Proof. intros [] [H1 H2]. split; [lia|]. nia. Qed.

Lemma dev_write_ok s b data : jok s → on_device b → full G data →
  ∃ s', dev_write (b * per_block G) data (per_block G) s = Some (0, s') ∧ jok s' ∧ g_journal s' = g_journal s ∧
    deq (dsk s') (disk_set b data (dsk s)).
Proof.
  intros [HG Hi Hm Hd HB HS Hh] [Hb1 Hb2] Hf. pose proof HG as [].
  destruct (block_dev_write_ok (jdev s) data (b * per_block G) (per_block G) Hd) as (d' & R & Hd' & Hmem & HB' & HS').
  - nia.
  - done.
  - rewrite HS. lia.
  - rewrite HB. exact Hf.
  - unfold dev_write. rewrite R. eexists. split; [reflexivity|]. split; [|split; [done|]].
    + by constructor; cbn; rewrite ?HB', ?HS'.
    + unfold dsk. cbn [jdev]. rewrite Hmem, HB. replace (b * per_block G * sector_size G) with (b * bsz G) by (unfold bsz; ring).
      by apply blk_put.
Qed.
Lemma dev_read_ok s b : jok s → on_device b →
  dev_read (b * per_block G) (per_block G) s = Some (Some (dsk s b), s).
Proof.
  intros [HG Hi Hm Hd HB HS Hh] [Hb1 Hb2]. pose proof HG as [].
  unfold dev_read, gets. rewrite block_dev_read_ok by (rewrite ?HS; nia || done). rewrite HB.
  do 3 f_equal. unfold dsk, blk. f_equal. unfold bsz. ring.
Qed.

(** The block's first sector as the code computes it. *)
Lemma journal_sector s off : jok s → 0 ≤ off < jblocks G →
  u64 (journal_to_device s off * sectors_per_block s) = (jstart G + off) * per_block G.
Proof.
  intros Hs Hoff. pose proof (jok_geo _ Hs) as HG. rewrite sectors_per_block_ok by done. unfold journal_to_device.
  destruct (jok_handle _ Hs) as (_ & -> & _ & _).
  assert (on_device (jstart G + off)) as Hd by (apply in_journal_on_device; [done|]; unfold in_journal; lia).
  destruct (on_device_small _ HG Hd) as [H1 H2]. destruct HG. unfold u64.
  rewrite (Z.mod_small (jstart G + off)) by lia. apply Z.mod_small. nia.
Qed.
Lemma journal_write_block_ok s off data : jok s → 0 ≤ off < jblocks G → full G data →
  ∃ s', journal_write_block off data s = Some (0, s') ∧ jok s' ∧ g_journal s' = g_journal s ∧
    deq (dsk s') (disk_set (jstart G + off) data (dsk s)).
Proof.
  intros Hs Hoff Hf. unfold journal_write_block. rewrite !bind_gets, journal_sector by done.
  rewrite sectors_per_block_ok by done. apply dev_write_ok; [done| |done].
  apply in_journal_on_device; [apply Hs|unfold in_journal; lia].
Qed.
Lemma journal_read_block_ok s off : jok s → 0 ≤ off < jblocks G →
  journal_read_block off s = Some (Some (dsk s (jstart G + off)), s).
Proof.
  intros Hs Hoff. unfold journal_read_block. rewrite !bind_gets, journal_sector by done.
  rewrite sectors_per_block_ok by done. apply dev_read_ok; [done|].
  apply in_journal_on_device; [apply Hs|unfold in_journal; lia].
Qed.

Lemma length_in_block n bs : 0 ≤ n → Z.of_nat (length (in_block n bs)) = n.
Proof. intros Hn. unfold in_block, zeros. rewrite length_take, length_app, length_replicate. lia. Qed.
Lemma write_jsb_ok s : jok s →
  ∃ s', write_jsb s = Some (0, s') ∧ jok s' ∧ g_journal s' = g_journal s ∧
    deq (dsk s') (disk_set (jstart G) (jsb_bytes (g_journal s)) (dsk s)).
Proof.
  intros Hs. pose proof (jok_geo _ Hs) as []. unfold write_jsb. run (kmalloc_ok s Hs). cbn [negb]. rewrite bind_gets.
  destruct (journal_write_block_ok s 0 (jsb_bytes (g_journal s)) Hs) as (s' & R & Hs' & Hj & Hd).
  - lia.
  - unfold full, jsb_bytes. destruct (jok_handle _ Hs) as (-> & _). apply length_in_block. lia.
  - exists s'. rewrite Z.add_0_r in Hd. done.
Qed.
End inv.

(** ** The log: the bytes of descriptors and commit records read back, and the
    scan that replays every logged transaction *)
(** ** Fields of the on-disk structures *)
Lemma field_le pre post n v : 0 ≤ v < 256 ^ Z.of_nat n → field (pre ++ le_bytes n v ++ post) (length pre) n = v.
Proof.
  intros Hv. unfold field. rewrite drop_app_length. rewrite take_app_length' by (symmetry; apply length_le_bytes). by apply le_value_bytes.
Qed.
Lemma in_block_pad n bs : Z.of_nat (length bs) ≤ n → in_block n bs = bs ++ zeros (n - Z.of_nat (length bs)).
Proof.
  intros Hn. unfold in_block, zeros. rewrite take_app_ge by lia. f_equal. rewrite take_replicate. f_equal. lia.
Qed.
Lemma length_zeros n : length (zeros n) = Z.to_nat n.
Proof. apply length_replicate. Qed.

Lemma calc_checksum_bound data : Forall is_byte data → 0 ≤ calc_checksum data < 2 ^ 32.
Proof.
  unfold calc_checksum. intros HF. cut (∀ c, 0 ≤ c < 2 ^ 32 → 0 ≤ foldl csum_step c data < 2 ^ 32); [intros H; apply H; lia|].
  induction HF as [|b data Hb _ IH]; intros c Hc; [done|]. cbn [foldl]. apply IH. unfold csum_step.
  apply lxor_u32; [apply u32_bound|unfold is_byte in Hb; lia].
Qed.

Lemma length_jdb_bytes e : length (jdb_bytes e) = 20%nat.
Proof. unfold jdb_bytes, zeros. by rewrite !length_app, !length_le_bytes, length_replicate. Qed.
Lemma length_hdr_bytes q n c : length (hdr_bytes q n c) = 36%nat.
Proof. unfold hdr_bytes, zeros. by rewrite !length_app, !length_le_bytes, length_replicate. Qed.
Lemma length_jdbs l : length (concat (jdb_bytes <$> l)) = (20 * length l)%nat.
Proof. induction l as [|e l IH]; [done|]. cbn [fmap list_fmap concat length]. rewrite length_app, length_jdb_bytes, IH. lia. Qed.

(** What a descriptor needs to hold a transaction. *)
Definition desc_fits (size : Z) (l : list (Z * list Z)) : Prop := HDR_SIZE + Z.of_nat (length l) * JDB_SIZE ≤ size.

Lemma desc_bytes_eq size q l : desc_fits size l → ∃ c, desc_bytes size q l =
  hdr_bytes q (Z.of_nat (length l)) c ++ concat (jdb_bytes <$> l) ++ zeros (size - (36 + 20 * Z.of_nat (length l))).
Proof.
  intros Hl. unfold desc_fits, HDR_SIZE, JDB_SIZE in Hl. eexists. unfold desc_bytes. rewrite in_block_pad.
  - rewrite length_app, length_hdr_bytes, length_jdbs, <- app_assoc. do 3 f_equal. lia.
  - rewrite length_app, length_hdr_bytes, length_jdbs. lia.
Qed.
Lemma desc_magic size q l : desc_fits size l → jbh_magic (desc_bytes size q l) = JOURNAL_MAGIC_DESC.
Proof.
  intros [c ->]%(desc_bytes_eq _ q). unfold jbh_magic, hdr_bytes. rewrite <- app_assoc. by apply (field_le []).
Qed.
Lemma desc_count size q l : desc_fits size l → size < 2 ^ 32 →
  jbh_num_blocks (desc_bytes size q l) = Z.of_nat (length l).
Proof.
  intros Hl Hs. destruct (desc_bytes_eq _ q _ Hl) as [c ->]. unfold desc_fits, HDR_SIZE, JDB_SIZE in Hl.
  unfold jbh_num_blocks, hdr_bytes. rewrite <- !app_assoc, (app_assoc (le_bytes 4 _) (le_bytes 8 _)).
  apply (field_le (le_bytes 4 JOURNAL_MAGIC_DESC ++ le_bytes 8 q)). lia.
Qed.
Lemma length_desc_bytes size q l : 0 ≤ size → Z.of_nat (length (desc_bytes size q l)) = size.
Proof. unfold desc_bytes. apply length_in_block. Qed.
(** The [i]th entry of the descriptor. *)
Lemma desc_entry size q l1 e l2 :
  desc_fits size (l1 ++ e :: l2) → 0 ≤ e.1 < 2 ^ 64 → Forall is_byte e.2 →
  jdb_at (desc_bytes size q (l1 ++ e :: l2)) (Z.of_nat (length l1)) = Some (e.1, calc_checksum e.2).
Proof.
  intros Hl He Hb. pose proof (calc_checksum_bound _ Hb) as Hc. pose proof Hl as Hl'.
  unfold desc_fits, HDR_SIZE, JDB_SIZE in Hl'. rewrite length_app in Hl'. cbn [length] in Hl'.
  unfold jdb_at.
  pose proof (length_desc_bytes size q (l1 ++ e :: l2) ltac:(lia)) as HL.
  set (o := Z.to_nat (HDR_SIZE + Z.of_nat (length l1) * JDB_SIZE)).
  assert (o = (36 + 20 * length l1)%nat) as Ho by (unfold o, HDR_SIZE, JDB_SIZE; lia).
  rewrite (proj2 (Nat.leb_le _ _)) by lia. destruct (desc_bytes_eq _ q _ Hl) as [c ->].
  set (n := Z.of_nat (length (l1 ++ e :: l2))). rewrite fmap_app, concat_app. cbn [fmap list_fmap concat].
  unfold jdb_bytes at 2 5. rewrite <- !app_assoc.
  set (pre := hdr_bytes q n c ++ concat (jdb_bytes <$> l1)).
  assert (length pre = o) as Hp by (unfold pre; rewrite length_app, length_hdr_bytes, length_jdbs; lia).
  do 2 f_equal.
  - rewrite (app_assoc (hdr_bytes _ _ _)). fold pre. rewrite <- Hp. by apply field_le.
  - rewrite (app_assoc (hdr_bytes _ _ _)). fold pre. rewrite (app_assoc pre).
    replace (o + 8)%nat with (length (pre ++ le_bytes 8 e.1)) by (rewrite length_app, length_le_bytes; lia). by apply field_le.
Qed.

Lemma length_commit_bytes size q st : 32 ≤ size → Z.of_nat (length st) = size - 32 →
  Z.of_nat (length (commit_bytes size q st)) = size.
Proof.
  intros Hs Hst. unfold commit_bytes, commit_fields, zeros. rewrite length_take, !length_app, !length_le_bytes, length_replicate. lia.
Qed.
Lemma commit_magic size q st : 32 ≤ size → jcr_magic (commit_bytes size q st) = JOURNAL_MAGIC_COMMIT.
Proof.
  intros Hs. unfold jcr_magic, field, commit_bytes. rewrite drop_0, take_take, Nat.min_l by lia.
  unfold commit_fields. rewrite <- app_assoc, take_app_length' by (symmetry; apply length_le_bytes). by apply le_value_bytes.
Qed.

(** ** The log *)
Section log.
Context `{BL : BlockLaws D} (G : geometry).
Abbreviation dsk := (dsk G).
Abbreviation jok := (jok G).

(** A block a transaction may write: a block of the file system on the device
    and outside the journal, of bytes, in range of the 32-bit fields. *)
Definition entry_ok (e : Z * list Z) : Prop :=
  on_device G e.1 ∧ e.1 * per_block G < 2 ^ 32 ∧ ¬ in_journal G e.1 ∧
  (0 < fs_total G → e.1 < fs_total G) ∧ full G e.2 ∧ Forall is_byte e.2.
Record txn_ok (l : list (Z * list Z)) : Prop := mk_txn_ok {
  to_entries : Forall entry_ok l;
  to_fits : desc_fits (bsz G) l
}.

(** The transaction [l] is logged at [pos], complete up to its commit record. *)
Definition logged (d : disk) (pos : Z) (l : list (Z * list Z)) : Prop :=
  (∃ q, d (jstart G + pos) = desc_bytes (bsz G) q l) ∧
  (∀ i e, l !! i = Some e → d (jstart G + (pos + 1 + Z.of_nat i)) = e.2) ∧
  jcr_magic (d (jstart G + (pos + 1 + Z.of_nat (length l)))) = JOURNAL_MAGIC_COMMIT.
(** The transactions between [pos] and [end_]. *)
Fixpoint log_ok (d : disk) (pos : Z) (ts : list (list (Z * list Z))) (end_ : Z) : Prop :=
  match ts with
  | [] => pos = end_
  | l :: ts => logged d pos l ∧ log_ok d (pos + Z.of_nat (length l) + 2) ts end_
  end.

Lemma log_ok_pos d pos ts end_ : log_ok d pos ts end_ → pos ≤ end_.
Proof. revert pos. induction ts as [|l ts IH]; cbn; [lia|]. intros pos [_ Hl%IH]. lia. Qed.
Lemma log_ok_snoc d pos ts l end_ :
  log_ok d pos ts end_ → logged d end_ l → log_ok d pos (ts ++ [l]) (end_ + Z.of_nat (length l) + 2).
Proof.
  revert pos. induction ts as [|l' ts IH]; intros pos; cbn [log_ok app]; [intros ->; done|]. intros [H1 H2] H3.
  split; [done|by apply IH].
Qed.
(** The log depends only on the journal's blocks. *)
Lemma logged_ext d d' pos l end_ :
  (∀ x, jstart G + pos ≤ x < jstart G + end_ → d' x = d x) → pos + Z.of_nat (length l) + 2 ≤ end_ → logged d pos l → logged d' pos l.
Proof.
  intros Hx Hl ([q H1] & H2 & H3). split; [|split].
  - exists q. rewrite Hx by lia. done.
  - intros i e Hi. pose proof (lookup_lt_Some _ _ _ Hi). rewrite Hx by lia. by apply H2.
  - by rewrite Hx by lia.
Qed.
Lemma log_ok_ext d d' pos ts end_ :
  (∀ x, jstart G + pos ≤ x < jstart G + end_ → d' x = d x) → log_ok d pos ts end_ → log_ok d' pos ts end_.
Proof.
  revert pos. induction ts as [|l ts IH]; intros pos Hx; cbn [log_ok]; [done|]. intros [H1 H2].
  pose proof (log_ok_pos _ _ _ _ H2). split; [by apply (logged_ext d d' pos l end_)|]. apply IH; [|done]. intros x Hr. apply Hx. lia.
Qed.

(** ** Replay *)
Lemma txn_outside l d x : Forall entry_ok l → in_journal G x → disk_apply l d x = d x.
Proof.
  intros HF Hx. apply disk_apply_out. intros e He E. rewrite Forall_forall in HF. destruct (HF e He) as (_ & _ & Hn & _).
  apply Hn. by rewrite E.
Qed.

Lemma replay_ok l1 l2 q pos s :
  jok s → txn_ok (l1 ++ l2) → 0 ≤ pos → pos + 1 + Z.of_nat (length (l1 ++ l2)) ≤ jblocks G →
  (∀ i e, l2 !! i = Some e → dsk s (jstart G + (pos + 1 + Z.of_nat (length l1 + i))) = e.2) →
  ∃ s', replay (length l2) pos (Z.of_nat (length l1)) (desc_bytes (bsz G) q (l1 ++ l2)) s = Some (tt, s') ∧
    jok s' ∧ g_journal s' = g_journal s ∧ deq (dsk s') (disk_apply l2 (dsk s)).
Proof.
  revert l1 s. induction l2 as [|e l2 IH]; intros l1 s Hs Ht Hp Hn Hd; [by exists s|].
  destruct Ht as [HF Hfit]. pose proof HF as [_ [(Hon & H32 & Hout & Htot & Hfull & Hby) HF2]%Forall_cons]%Forall_app.
  pose proof (jok_geo _ _ Hs) as HG. destruct (on_device_small _ _ HG Hon) as [Hb1 Hb2].
  assert (0 ≤ e.1 < 2 ^ 64) as He by (destruct Hon; lia). rewrite length_app in Hn. cbn [length] in Hn.
  assert (jblocks G < 2 ^ 63) as Hjb by (destruct HG; nia).
  cbn [replay length]. rewrite desc_entry by done. rewrite bind_gets.
  destruct (jok_handle _ _ Hs) as (_ & _ & _ & Hfs). rewrite Hfs.
  assert ((0 <? fs_total G) && (fs_total G <=? e.1) = false) as ->.
  { destruct (Z.ltb_spec 0 (fs_total G)); [|done]. cbn [andb]. apply Z.leb_gt. auto. }
  unfold bind at 1. run (kmalloc_ok G s Hs). cbn [negb].
  assert (u64 (pos + 1 + Z.of_nat (length l1)) = pos + 1 + Z.of_nat (length l1)) as -> by (apply Z.mod_small; lia).
  run (journal_read_block_ok G s (pos + 1 + Z.of_nat (length l1)) Hs ltac:(lia)).
  assert (dsk s (jstart G + (pos + 1 + Z.of_nat (length l1))) = e.2) as ->.
  { rewrite <- (Hd 0%nat e eq_refl). do 2 f_equal. lia. }
  rewrite Z.eqb_refl, bind_gets, (sectors_per_block_ok G) by done.
  assert (u64 (e.1 * per_block G) = e.1 * per_block G) as -> by (apply Z.mod_small; destruct HG, Hon; nia).
  destruct (dev_write_ok G s e.1 e.2 Hs Hon Hfull) as (s1 & R1 & Hs1 & Hj1 & Hd1). run R1. cbn [ret].
  destruct (IH (l1 ++ [e]) s1 Hs1) as (s2 & R2 & Hs2 & Hj2 & Hd2).
  - rewrite <- app_assoc. by constructor.
  - done.
  - rewrite <- app_assoc, length_app. cbn [app length]. lia.
  - intros i e' Hi. rewrite Hd1. rewrite disk_set_ne.
    + rewrite <- (Hd (S i) e' Hi). do 2 f_equal. rewrite length_app. cbn [length]. lia.
    + intros E. apply Hout. rewrite <- E. unfold in_journal. pose proof (lookup_lt_Some _ _ _ Hi). rewrite length_app. cbn [length]. lia.
  - exists s2. rewrite length_app, <- app_assoc in R2. cbn [length app] in R2.
    replace (Z.of_nat (length l1) + 1) with (Z.of_nat (length l1 + 1)) by lia. split; [exact R2|].
    split; [done|]. split; [congruence|]. by rewrite Hd2, Hd1.
Qed.

(** The scan replays every transaction of the log, in order. *)
Lemma scan_ok ts : ∀ fuel pos end_ s,
  jok s → Forall txn_ok ts → log_ok (dsk s) pos ts end_ → 0 ≤ pos → end_ ≤ jblocks G → (Z.to_nat (end_ - pos) < fuel)%nat →
  ∃ s', scan fuel pos end_ s = Some (tt, s') ∧ jok s' ∧ g_journal s' = g_journal s ∧ deq (dsk s') (disk_apply (concat ts) (dsk s)).
Proof.
  induction ts as [|l ts IH]; intros fuel pos end_ s Hs HF Hlog Hp He Hfuel.
  { cbn [log_ok] in Hlog. destruct fuel as [|fuel]; [lia|]. cbn [scan]. rewrite (proj2 (Z.leb_le _ _)) by lia. by exists s. }
  apply Forall_cons in HF as [Ht HF]. cbn [log_ok] in Hlog. destruct Hlog as [Hl Hlog]. pose proof (log_ok_pos _ _ _ _ Hlog) as Hle.
  destruct fuel as [|fuel]; [lia|]. cbn [scan]. pose proof (jok_geo _ _ Hs) as HG. pose proof HG as [].
  assert (jblocks G < 2 ^ 63) as Hjb by nia. destruct Ht as [HFe Hfit]. pose proof Hl as ([q H1] & H2 & H3).
  rewrite (proj2 (Z.leb_gt _ _)) by lia. run (journal_read_block_ok G s pos Hs ltac:(lia)). rewrite H1, desc_magic, Z.eqb_refl by done.
  cbn [negb]. rewrite desc_count by (done || lia).
  assert (u64 (pos + 1 + Z.of_nat (length l)) = pos + 1 + Z.of_nat (length l)) as -> by (apply Z.mod_small; lia).
  rewrite (proj2 (Z.leb_gt _ _)) by lia. run (journal_read_block_ok G s (pos + 1 + Z.of_nat (length l)) Hs ltac:(lia)).
  rewrite H3, Z.eqb_refl. unfold jcr_sequence, jbh_sequence. rewrite Z.eqb_refl. cbn [negb orb].
  run (journal_read_block_ok G s pos Hs ltac:(lia)). rewrite H1, desc_count, Nat2Z.id by (done || lia).
  destruct (replay_ok [] l q pos s Hs (mk_txn_ok _ HFe Hfit) Hp) as (s1 & R1 & Hs1 & Hj1 & Hd1); [cbn [app]; lia|exact H2|].
  cbn [app length Z.of_nat] in R1. run R1.
  destruct (IH fuel (pos + 1 + Z.of_nat (length l) + 1) end_ s1 Hs1 HF) as (s2 & R2 & Hs2 & Hj2 & Hd2); [|lia|lia|lia|].
  - replace (pos + 1 + Z.of_nat (length l) + 1) with (pos + Z.of_nat (length l) + 2) by lia.
    apply (log_ok_ext (dsk s)); [|done]. intros x Hx. rewrite Hd1. apply txn_outside; [done|]. unfold in_journal. lia.
  - exists s2. split; [exact R2|]. split; [done|]. split; [congruence|]. cbn [concat]. by rewrite disk_apply_app, Hd2, Hd1.
Qed.
End log.
