(* ===== verification/JournalThms.v ===== *)
(** * The journal's theorems: committing a transaction, replaying the log after
    a crash, and what becomes of a dirty journal. *)
From S2P Require Import Prelude Bytes BlockDev Journal JournalInv.
Local Open Scope Z_scope.
Local Open Scope kernel_scope.

Section thms.
Context `{BL : BlockLaws D} (G : geometry).
Abbreviation dsk := (dsk G).
Abbreviation jok := (jok G).

(** ** The write phases *)
(** The log copies of a transaction at [pos]. *)
Fixpoint log_blocks (pos : Z) (l : list (Z * list Z)) : list (Z * list Z) :=
  match l with [] => [] | e :: l => (jstart G + pos, e.2) :: log_blocks (pos + 1) l end.

Lemma log_blocks_out pos l d x :
  x < jstart G + pos ∨ jstart G + pos + Z.of_nat (length l) ≤ x → disk_apply (log_blocks pos l) d x = d x.
Proof.
  intros Hx. apply disk_apply_out. intros e He E. revert pos Hx He.
  induction l as [|e' l IH]; intros pos Hx; cbn [log_blocks length] in *; [intros Hn%elem_of_nil; done|].
  intros [->|He]%elem_of_cons; [cbn in E; lia|]. apply (IH (pos + 1)); [lia|done].
Qed.
Lemma log_blocks_in pos l d i e :
  l !! i = Some e → disk_apply (log_blocks pos l) d (jstart G + (pos + Z.of_nat i)) = e.2.
Proof.
  revert pos d i. induction l as [|e' l IH]; intros pos d i Hi; [done|]. cbn [log_blocks].
  change (disk_apply (log_blocks (pos + 1) l) (disk_set (jstart G + pos) e'.2 d) (jstart G + (pos + Z.of_nat i)) = e.2).
  destruct i as [|i].
  - injection Hi as ->. rewrite log_blocks_out by lia. rewrite Z.add_0_r. apply disk_set_eq.
  - rewrite <- (IH (pos + 1) (disk_set (jstart G + pos) e'.2 d) i Hi). f_equal. lia.
Qed.

Lemma write_log_ok l : ∀ head i s,
  jok s → Forall (entry_ok G) l → 0 ≤ head → 0 ≤ i → head + 1 + i + Z.of_nat (length l) ≤ jblocks G →
  ∃ s', write_log head i l s = Some (true, s') ∧ jok s' ∧ g_journal s' = g_journal s ∧
    deq (dsk s') (disk_apply (log_blocks (head + 1 + i) l) (dsk s)).
Proof.
  induction l as [|[b data] l IH]; intros head i s Hs HF Hh Hi Hn; [by exists s|].
  apply Forall_cons in HF as [(_ & _ & _ & _ & Hfull & _) HF]. cbn [write_log length] in *. pose proof (jok_geo _ _ Hs) as HG.
  assert (u64 (head + 1 + i) = head + 1 + i) as -> by (apply Z.mod_small; destruct HG; nia).
  destruct (journal_write_block_ok G s (head + 1 + i) data Hs) as (s1 & R1 & Hs1 & Hj1 & Hd1); [lia|done|]. run R1. cbn [Z.ltb Z.compare].
  destruct (IH head (i + 1) s1 Hs1 HF) as (s2 & R2 & Hs2 & Hj2 & Hd2); [lia|lia|lia|].
  exists s2. split; [exact R2|]. split; [done|]. split; [congruence|]. rewrite Hd2, Hd1.
  cbn [log_blocks snd]. by replace (head + 1 + (i + 1)) with (head + 1 + i + 1) by lia.
Qed.
Lemma checkpoint_ok l : ∀ s,
  jok s → Forall (entry_ok G) l →
  ∃ s', checkpoint (per_block G) l s = Some (true, s') ∧ jok s' ∧ g_journal s' = g_journal s ∧ deq (dsk s') (disk_apply l (dsk s)).
Proof.
  induction l as [|[b data] l IH]; intros s Hs HF; [by exists s|].
  apply Forall_cons in HF as [(Hon & H32 & _ & _ & Hfull & _) HF]. cbn [checkpoint fst snd] in *. pose proof (jok_geo _ _ Hs) as HG.
  assert (u32 (b * per_block G) = b * per_block G) as -> by (apply Z.mod_small; destruct HG, Hon; nia).
  destruct (dev_write_ok G s b data Hs Hon Hfull) as (s1 & R1 & Hs1 & Hj1 & Hd1). run R1. cbn [Z.ltb Z.compare].
  destruct (IH s1 Hs1 HF) as (s2 & R2 & Hs2 & Hj2 & Hd2).
  exists s2. split; [exact R2|]. split; [done|]. split; [congruence|]. by rewrite Hd2, Hd1.
Qed.

(** Room for [n] blocks at the head, without reusing the log or wrapping. *)
Definition room (j : journal_handle) (n : Z) : Prop :=
  0 < jtail j ≤ jhead j ∧ jhead j + n < jblocks G ∧ jhead j + n < jtail j + (jblocks G - 1).

Lemma advance_head_ok n s :
  jok s → 0 ≤ n → room (g_journal s) n →
  ∃ s', advance_head n s = Some (tt, s') ∧ jok s' ∧
    g_journal s' = set_pos (jhead (g_journal s) + n) (jtail (g_journal s)) (jsequence (g_journal s)) (g_journal s) ∧
    deq (dsk s') (disk_set (jstart G) (jsb_bytes (g_journal s')) (dsk s)).
Proof.
  intros Hs Hn (Ht & Hw & He). pose proof (jok_geo _ _ Hs) as HG. pose proof (jok_handle _ _ Hs) as Hh.
  pose proof (geo_small _ HG) as Hjb. pose proof (geo_start _ HG) as Hjs. unfold advance_head.
  destruct (on_handle_ok G (λ j, set_pos (u64 (jhead j + n)) (jtail j) (jsequence j) j) s Hs Hh) as (s1 & R1 & Hs1 & Hj1 & Hd1). run R1.
  cbv beta in Hj1. assert (u64 (jhead (g_journal s) + n) = jhead (g_journal s) + n) as Hu by (apply Z.mod_small; lia). rewrite Hu in Hj1.
  rewrite bind_gets. destruct Hh as (_ & _ & Hb & _).
  set (f := Z.to_nat (jhead (g_journal s1) + 2)). assert (evict f s1 = Some (tt, s1)) as R2.
  { destruct f as [|f'] eqn:Ef; [unfold f in Ef; rewrite Hj1 in Ef; cbn [jhead set_pos] in Ef; lia|]. cbn [evict].
    rewrite bind_gets, Hj1. cbn [jhead jtail journal_blocks set_pos]. rewrite Hb.
    assert (u64 (jblocks G - 1) = jblocks G - 1) as -> by (apply Z.mod_small; destruct HG; lia).
    assert (u64 (jtail (g_journal s) + (jblocks G - 1)) = jtail (g_journal s) + (jblocks G - 1)) as -> by (apply Z.mod_small; lia).
    by rewrite (proj2 (Z.ltb_lt _ _)) by lia. }
  run R2. assert (wrap_head (g_journal s1) = g_journal s1) as Hwr.
  { unfold wrap_head. rewrite Hj1. cbn [jhead journal_blocks set_pos]. rewrite Hb. by rewrite (proj2 (Z.leb_gt _ _)) by lia. }
  destruct (on_handle_ok G wrap_head s1 Hs1) as (s2 & R3 & Hs2 & Hj2 & Hd2); [rewrite Hwr; apply Hs1|]. run R3.
  destruct (write_jsb_ok G s2 Hs2) as (s3 & R4 & Hs3 & Hj3 & Hd3). run R4.
  exists s3. split; [done|]. split; [done|]. split; [congruence|]. by rewrite Hd3, Hj3, Hd2, Hd1.
Qed.

(** ** Committing *)
(** The handle after a commit. *)
Definition committed (j : journal_handle) : journal_handle :=
  set_txn false [] 0 (set_dirty false (set_pos (jhead j + Z.of_nat (length (txn j)) + 2) (jtail j) (u64 (jsequence j + 1)) j)).

(** The disk after the log of [l] at [pos] has been written. *)
Definition log_write (pos q : Z) (l : list (Z * list Z)) (stack : list Z) (d : disk) : disk :=
  disk_set (jstart G + (pos + 1 + Z.of_nat (length l))) (commit_bytes (bsz G) q stack)
    (disk_apply (log_blocks (pos + 1) l) (disk_set (jstart G + pos) (desc_bytes (bsz G) q l) d)).

Lemma log_write_logged pos q l stack d : 512 ≤ bsz G → logged G (log_write pos q l stack d) pos l.
Proof.
  intros Hb. unfold log_write. split; [|split].
  - exists q. rewrite disk_set_ne by lia. rewrite log_blocks_out by lia. apply disk_set_eq.
  - intros i e Hi. pose proof (lookup_lt_Some _ _ _ Hi). rewrite disk_set_ne by lia. by apply log_blocks_in.
  - rewrite disk_set_eq. apply commit_magic. lia.
Qed.
Lemma log_write_out pos q l stack d x :
  x < jstart G + pos ∨ jstart G + (pos + Z.of_nat (length l) + 2) ≤ x → log_write pos q l stack d x = d x.
Proof.
  intros Hx. unfold log_write. rewrite disk_set_ne by lia. rewrite log_blocks_out by lia. apply disk_set_ne. lia.
Qed.

Lemma log_write_loc pos q l stack d d' x : d x = d' x → log_write pos q l stack d x = log_write pos q l stack d' x.
Proof. intros E. unfold log_write. by apply disk_set_loc, disk_apply_loc, disk_set_loc. Qed.

Lemma log_phase j q l stack s :
  jok s → txn_ok G l → 0 < j → j + Z.of_nat (length l) + 2 ≤ jblocks G → Z.of_nat (length stack) = bsz G - 32 →
  ∃ s1 s2 s3, journal_write_block j (desc_bytes (bsz G) q l) s = Some (0, s1) ∧
    write_log j 0 l s1 = Some (true, s2) ∧
    journal_write_block (u64 (j + 1 + Z.of_nat (length l))) (commit_bytes (bsz G) q stack) s2 = Some (0, s3) ∧
    jok s3 ∧ g_journal s3 = g_journal s ∧ deq (dsk s3) (log_write j q l stack (dsk s)).
Proof.
  intros Hs [HF Hfit] Hj Hn Hst. pose proof (jok_geo _ _ Hs) as []. 
  destruct (journal_write_block_ok G s j (desc_bytes (bsz G) q l) Hs) as (s1 & R1 & Hs1 & Hj1 & Hd1); [lia|apply length_desc_bytes; lia|].
  destruct (write_log_ok l j 0 s1 Hs1 HF) as (s2 & R2 & Hs2 & Hj2 & Hd2); [lia|lia|lia|].
  assert (u64 (j + 1 + Z.of_nat (length l)) = j + 1 + Z.of_nat (length l)) as -> by (apply Z.mod_small; nia).
  destruct (journal_write_block_ok G s2 (j + 1 + Z.of_nat (length l)) (commit_bytes (bsz G) q stack) Hs2) as (s3 & R3 & Hs3 & Hj3 & Hd3);
    [lia|apply length_commit_bytes; lia|].
  exists s1, s2, s3. split; [done|]. split; [done|]. split; [done|]. split; [done|]. split; [congruence|].
  rewrite Hd3, Hd2, Hd1. unfold log_write. by rewrite Z.add_0_r.
Qed.

Lemma journal_commit_spec stack s :
  jok s → in_transaction (g_journal s) = true → txn (g_journal s) ≠ [] → txn_ok G (txn (g_journal s)) →
  room (g_journal s) (Z.of_nat (length (txn (g_journal s))) + 2) → Z.of_nat (length stack) = bsz G - 32 →
  ∃ s', journal_commit stack s = Some (0, s') ∧ jok s' ∧ g_journal s' = committed (g_journal s) ∧
    dsk s' (jstart G) = jsb_bytes (committed (g_journal s)) ∧
    (∀ x, x ≠ jstart G → dsk s' x = disk_apply (txn (g_journal s))
       (log_write (jhead (g_journal s)) (jsequence (g_journal s)) (txn (g_journal s)) stack (dsk s)) x).
Proof.
  intros Hs Htx Hne Ht (Htail & Hr1 & Hr2) Hst. pose proof (jok_geo _ _ Hs) as HG. pose proof (jok_handle _ _ Hs) as Hh.
  set (j := g_journal s) in *. set (l := txn j) in *. set (h := jhead j) in *.
  unfold journal_commit. rewrite !bind_gets, (jok_init _ _ Hs). fold j. rewrite Htx. cbn [negb orb]. fold l. rewrite decide_False by done.
  destruct (on_handle_ok G (λ j', set_pos (jhead j') (jtail j') (u64 (jsequence j + 1)) j') s Hs Hh) as (s1 & R1 & Hs1 & Hj1 & Hd1). run R1.
  run (kmalloc_ok G s1 Hs1). cbn [negb].
  destruct (on_handle_ok G (set_dirty true) s1 Hs1) as (s2 & R2 & Hs2 & Hj2 & Hd2); [apply Hs1|]. run R2.
  destruct (write_jsb_ok G s2 Hs2) as (s3 & R3 & Hs3 & Hj3 & Hd3). run R3.
  destruct (log_phase h (jsequence j) l stack s3 Hs3 Ht) as (s4 & s5 & s6 & R4 & R5 & R6 & Hs6 & Hj6 & Hd6); [lia|lia|done|].
  destruct Hh as (Hbs & _). rewrite Hbs. fold h. run R4. cbn [Z.ltb Z.compare]. run R5. cbn [negb]. run R6. cbn [Z.ltb Z.compare].
  rewrite bind_gets, (sectors_per_block_ok G) by done.
  destruct (checkpoint_ok l s6 Hs6 (to_entries _ _ Ht)) as (s7 & R7 & Hs7 & Hj7 & Hd7). run R7. cbn [negb].
  assert (g_journal s7 = set_dirty true (set_pos h (jtail j) (u64 (jsequence j + 1)) j)) as Hj7'.
  { rewrite Hj7, Hj6, Hj3, Hj2, Hj1. done. }
  assert (u32 (1 + Z.of_nat (length l) + 1) = Z.of_nat (length l) + 2) as ->.
  { destruct Ht as [_ Hfit], HG. unfold desc_fits, HDR_SIZE, JDB_SIZE in Hfit. unfold u32. rewrite Z.mod_small; lia. }
  destruct (advance_head_ok (Z.of_nat (length l) + 2) s7 Hs7) as (s8 & R8 & Hs8 & Hj8 & Hd8); [lia|by rewrite Hj7'|]. run R8.
  rewrite Hj7' in Hj8. cbn in Hj8.
  destruct (on_handle_ok G (set_dirty false) s8 Hs8) as (s9 & R9 & Hs9 & Hj9 & Hd9); [apply Hs8|]. run R9.
  destruct (write_jsb_ok G s9 Hs9) as (s10 & R10 & Hs10 & Hj10 & Hd10). run R10.
  destruct (on_handle_ok G (set_txn false [] 0) s10 Hs10) as (s11 & R11 & Hs11 & Hj11 & Hd11); [apply Hs10|].
  unfold free_transaction. run R11. exists s11. split; [done|]. split; [done|].
  assert (g_journal s9 = set_txn true l (txn_capacity j) (committed j)) as E9.
  { rewrite Hj9, Hj8. unfold committed, set_txn, set_dirty, set_pos. cbn. fold l h. rewrite Htx. f_equal. lia. }
  split; [by rewrite Hj11, Hj10, E9|]. split.
  - rewrite Hd11, Hd10, disk_set_eq, E9. done.
  - intros x Hx. rewrite Hd11, Hd10, disk_set_ne, Hd9, Hd8, disk_set_ne, (Hd7 x) by done. fold j h l.
    apply disk_apply_loc. rewrite (Hd6 x). apply log_write_loc. by rewrite Hd3, disk_set_ne, Hd2, Hd1.
Qed.

(** ** Recovery *)
Lemma journal_recover_spec ts s :
  jok s → Forall (txn_ok G) ts → 0 < jtail (g_journal s) → jhead (g_journal s) ≤ jblocks G →
  log_ok G (dsk s) (jtail (g_journal s)) ts (jhead (g_journal s)) →
  ∃ s', journal_recover s = Some (0, s') ∧ jok s' ∧
    g_journal s' = set_dirty false (set_pos (jhead (g_journal s)) (jhead (g_journal s)) (jsequence (g_journal s)) (g_journal s)) ∧
    ∀ x, x ≠ jstart G → dsk s' x = disk_apply (concat ts) (dsk s) x.
Proof.
  intros Hs HF Ht Hh Hlog. unfold journal_recover. rewrite bind_gets, (jok_init _ _ Hs). cbn [negb]. rewrite bind_gets. run (kmalloc_ok G s Hs). cbn [negb].
  destruct (scan_ok G ts (Z.to_nat (jhead (g_journal s) - jtail (g_journal s) + 1)) (jtail (g_journal s)) (jhead (g_journal s)) s Hs HF Hlog)
    as (s1 & R1 & Hs1 & Hj1 & Hd1); [lia|lia| |].
  { pose proof (log_ok_pos _ _ _ _ _ Hlog). lia. }
  run R1.
  destruct (on_handle_ok G (λ j, set_dirty false (set_pos (jhead j) (jhead j) (jsequence j) j)) s1 Hs1) as (s2 & R2 & Hs2 & Hj2 & Hd2);
    [apply Hs1|]. run R2.
  destruct (write_jsb_ok G s2 Hs2) as (s3 & R3 & Hs3 & Hj3 & Hd3). run R3.
  exists s3. split; [done|]. split; [done|]. split; [by rewrite Hj3, Hj2, Hj1|].
  intros x Hx. by rewrite Hd3, disk_set_ne, Hd2, Hd1.
Qed.

(** ** The abstract transactional disk *)
(** The contents of the file system and the open transaction, with the number
    of blocks it may hold. *)
Record tdisk := mk_td { td_fs : disk; td_open : option (Z * list (Z * list Z)) }.
Definition td_begin (m : Z) (a : tdisk) : Z * tdisk :=
  match td_open a with
  | Some _ => (-1, a)
  | None => (0, mk_td (td_fs a) (Some (Z.min (Z.max m 1) ((bsz G - HDR_SIZE) / JDB_SIZE), [])))
  end.
Definition td_write (b : Z) (data : list Z) (a : tdisk) : Z * tdisk :=
  match td_open a with
  | Some (c, l) => if Z.of_nat (length l) <? c then (0, mk_td (td_fs a) (Some (c, l ++ [(b, data)]))) else (-1, a)
  | None => (-1, a)
  end.
Definition td_commit (a : tdisk) : Z * tdisk :=
  match td_open a with
  | Some (_, l) => (0, mk_td (disk_apply l (td_fs a)) None)
  | None => (-1, a)
  end.
Definition td_rollback (a : tdisk) : Z * tdisk :=
  match td_open a with
  | Some _ => (0, mk_td (td_fs a) None)
  | None => (-1, a)
  end.

Definition open_of (j : journal_handle) : option (Z * list (Z * list Z)) :=
  if in_transaction j then Some (txn_capacity j, txn j) else None.
(** The journal represents [a], and its log holds the transactions [ts]. *)
Record Journaled (ts : list (list (Z * list Z))) (s : jstate D) (a : tdisk) : Prop := mk_Journaled {
  jd_ok : jok s;
  jd_fs : ∀ x, ¬ in_journal G x → dsk s x = td_fs a x;
  jd_open : open_of (g_journal s) = td_open a;
  jd_entries : Forall (entry_ok G) (txn (g_journal s));
  jd_len : Z.of_nat (length (txn (g_journal s))) ≤ txn_capacity (g_journal s) ≤ (bsz G - HDR_SIZE) / JDB_SIZE;
  jd_tail : 0 < jtail (g_journal s);
  jd_txns : Forall (txn_ok G) ts;
  jd_log : log_ok G (dsk s) (jtail (g_journal s)) ts (jhead (g_journal s))
}.

Lemma jd_txn ts s a : Journaled ts s a → txn_ok G (txn (g_journal s)).
Proof.
  intros [Hs _ _ HF Hl _ _ _]. constructor; [done|]. unfold desc_fits. pose proof (jok_geo _ _ Hs) as [].
  pose proof (Z.mul_div_le (bsz G - HDR_SIZE) JDB_SIZE ltac:(done)). unfold HDR_SIZE, JDB_SIZE in *. lia.
Qed.
(** Only the transaction's fields change. *)
Lemma Journaled_txn ts s s' a o b l c :
  Journaled ts s a → jok s' → deq (dsk s') (dsk s) → g_journal s' = set_txn b l c (g_journal s) →
  open_of (set_txn b l c (g_journal s)) = o → Forall (entry_ok G) l → Z.of_nat (length l) ≤ c ≤ (bsz G - HDR_SIZE) / JDB_SIZE →
  Journaled ts s' (mk_td (td_fs a) o).
Proof.
  intros [] Hs' Hd Hj Ho HF Hl. constructor; rewrite ?Hj; try done.
  - intros x Hx. rewrite Hd. auto.
  - cbn. apply (log_ok_ext _ (dsk s)); [|done]. intros x _. apply Hd.
Qed.
Lemma capacity_pos : geo_ok G → 0 ≤ 0 ≤ (bsz G - HDR_SIZE) / JDB_SIZE ∧ 1 ≤ (bsz G - HDR_SIZE) / JDB_SIZE.
Proof. intros []. unfold HDR_SIZE, JDB_SIZE. assert (1 ≤ (bsz G - 36) / 20) by (apply Z.div_le_lower_bound; lia). lia. Qed.

Lemma journal_begin_refines ts s a m :
  Journaled ts s a → 0 ≤ m →
  ∃ s', journal_begin m s = Some ((td_begin m a).1, s') ∧ Journaled ts s' (td_begin m a).2.
Proof.
  intros HJ Hm. pose proof (jd_ok _ _ _ HJ) as Hs. pose proof (jd_open _ _ _ HJ) as Ho. pose proof (capacity_pos (jok_geo _ _ Hs)) as [Hc0 Hc1].
  unfold journal_begin, td_begin. rewrite bind_gets, (jok_init _ _ Hs). cbn [negb]. rewrite bind_gets. unfold open_of in Ho.
  destruct (in_transaction (g_journal s)) eqn:Ei; rewrite <- Ho; [by exists s|].
  destruct (on_handle_ok G (λ j, set_txn true (txn j) (txn_capacity j) j) s Hs) as (s1 & R1 & Hs1 & Hj1 & Hd1); [apply Hs|]. run R1.
  run (kmalloc_ok G s1 Hs1). run (kmalloc_ok G s1 Hs1). cbn [negb orb]. destruct (jok_handle _ _ Hs) as (Hb & _). rewrite Hb.
  set (c := if _ <? _ then _ else _).
  assert (c = Z.min (Z.max m 1) ((bsz G - HDR_SIZE) / JDB_SIZE)) as Hc.
  { unfold c. destruct (Z.eqb_spec m 0).
    - destruct (Z.ltb_spec ((bsz G - HDR_SIZE) / JDB_SIZE) 1); lia.
    - destruct (Z.ltb_spec ((bsz G - HDR_SIZE) / JDB_SIZE) m); lia. }
  destruct (on_handle_ok G (set_txn true [] c) s1 Hs1) as (s2 & R2 & Hs2 & Hj2 & Hd2); [apply Hs1|]. run R2.
  exists s2. split; [done|]. cbn [snd]. eapply (Journaled_txn ts s s2 a _ true [] c HJ Hs2).
  - by rewrite Hd2, Hd1.
  - by rewrite Hj2, Hj1.
  - unfold open_of. cbn. by rewrite Hc.
  - done.
  - cbn [length]. lia.
Qed.

Lemma journal_write_refines ts s a b data :
  Journaled ts s a → entry_ok G (b, data) →
  ∃ s', journal_write b data s = Some ((td_write b data a).1, s') ∧ Journaled ts s' (td_write b data a).2.
Proof.
  intros HJ He. pose proof (jd_ok _ _ _ HJ) as Hs. pose proof (jd_open _ _ _ HJ) as Ho.
  unfold journal_write, td_write. rewrite !bind_gets, (jok_init _ _ Hs). cbn [negb orb]. unfold open_of in Ho.
  destruct (in_transaction (g_journal s)) eqn:Ei; rewrite <- Ho; cbn [negb]; [|by exists s].
  rewrite Z.leb_antisym. destruct (Z.ltb_spec (Z.of_nat (length (txn (g_journal s)))) (txn_capacity (g_journal s))); cbn [negb];
    [|by exists s].
  run (kmalloc_ok G s Hs). cbn [negb]. pose proof He as ((Hon & _) & H32 & _ & _ & Hfull & _). cbn [fst snd] in *.
  assert (u32 b = b) as -> by (apply Z.mod_small; destruct (jok_geo _ _ Hs); nia).
  destruct (jok_handle _ _ Hs) as (Hb & _).
  destruct (on_handle_ok G (λ j, set_txn (in_transaction j) (txn j ++ [(b, take (Z.to_nat (block_size j)) data)]) (txn_capacity j) j) s Hs) as (s1 & R1 & Hs1 & Hj1 & Hd1);
    [apply Hs|]. run R1. rewrite Hb, take_ge in Hj1 by (unfold full in Hfull; lia).
    exists s1. split; [done|]. cbn [snd]. eapply (Journaled_txn ts s s1 a _ _ _ _ HJ Hs1 Hd1 Hj1).
  - unfold open_of. cbn. by rewrite Ei.
  - apply Forall_app. split; [by apply HJ|]. by constructor.
  - rewrite length_app. cbn [length]. pose proof (jd_len _ _ _ HJ). lia.
Qed.

Lemma journal_rollback_refines ts s a :
  Journaled ts s a → ∃ s', journal_rollback s = Some ((td_rollback a).1, s') ∧ Journaled ts s' (td_rollback a).2.
Proof.
  intros HJ. pose proof (jd_ok _ _ _ HJ) as Hs. pose proof (jd_open _ _ _ HJ) as Ho. pose proof (capacity_pos (jok_geo _ _ Hs)) as [Hc0 _].
  unfold journal_rollback, td_rollback. rewrite !bind_gets, (jok_init _ _ Hs). cbn [negb orb]. unfold open_of in Ho.
  destruct (in_transaction (g_journal s)) eqn:Ei; rewrite <- Ho; cbn [negb]; [|by exists s].
  destruct (on_handle_ok G (set_txn false [] 0) s Hs) as (s1 & R1 & Hs1 & Hj1 & Hd1); [apply Hs|]. unfold free_transaction. run R1.
  exists s1. split; [done|]. cbn [snd]. by eapply (Journaled_txn ts s s1 a _ false [] 0 HJ Hs1 Hd1 Hj1).
Qed.

(** The log gains the transaction; an empty one leaves it alone. *)
Definition log_after (ts : list (list (Z * list Z))) (a : tdisk) : list (list (Z * list Z)) :=
  match td_open a with Some (_, e :: l) => ts ++ [e :: l] | _ => ts end.
Lemma journal_commit_refines ts s a stack :
  Journaled ts s a → Z.of_nat (length stack) = bsz G - 32 →
  room (g_journal s) (Z.of_nat (length (txn (g_journal s))) + 2) →
  ∃ s', journal_commit stack s = Some ((td_commit a).1, s') ∧ Journaled (log_after ts a) s' (td_commit a).2.
Proof.
  intros HJ Hst Hroom. pose proof (jd_ok _ _ _ HJ) as Hs. pose proof (jd_open _ _ _ HJ) as Ho. pose proof (capacity_pos (jok_geo _ _ Hs)) as [Hc0 _].
  unfold td_commit, log_after. unfold open_of in Ho.
  destruct (in_transaction (g_journal s)) eqn:Ei; rewrite <- Ho.
  2: { exists s. split; [|done]. unfold journal_commit. by rewrite !bind_gets, (jok_init _ _ Hs), Ei. }
  destruct (txn (g_journal s)) as [|e l] eqn:El.
  - destruct (on_handle_ok G (set_txn false [] 0) s Hs) as (s1 & R1 & Hs1 & Hj1 & Hd1); [apply Hs|].
    exists s1. unfold journal_commit. rewrite !bind_gets, (jok_init _ _ Hs), Ei, El. cbn [negb orb]. rewrite decide_True by done.
    unfold free_transaction. run R1. split; [done|]. cbn [snd]. by eapply (Journaled_txn ts s s1 a _ false [] 0 HJ Hs1 Hd1 Hj1).
  - assert (txn (g_journal s) ≠ []) as Hne by (by rewrite El).
    rewrite <- El in Hroom |- *.
    destruct (journal_commit_spec stack s Hs Ei Hne (jd_txn _ _ _ HJ) Hroom Hst) as (s' & R & Hs' & Hj' & _ & Hd').
    exists s'. split; [exact R|]. pose proof (jok_geo _ _ Hs) as HG. destruct Hroom as (Ht & Hr1 & Hr2). pose proof (jd_entries _ _ _ HJ) as HFe.
    set (j := g_journal s) in *. set (tx := txn j) in *. constructor; rewrite ?Hj'; cbn; try done.
    + intros x Hx. rewrite Hd' by (intros ->; apply Hx; unfold in_journal; destruct HG; lia). apply disk_apply_loc.
      rewrite log_write_out by (unfold in_journal in Hx; lia). by apply (jd_fs _ _ _ HJ).
    + apply HJ.
    + apply Forall_app. split; [apply HJ|]. constructor; [exact (jd_txn _ _ _ HJ)|done].
    + assert (∀ x, jstart G + jtail j ≤ x < jstart G + (jhead j + Z.of_nat (length tx) + 2) →
        dsk s' x = log_write (jhead j) (jsequence j) tx stack (dsk s) x) as Hin.
      { intros x Hx. rewrite Hd' by lia. apply (txn_outside G); [done|]. unfold in_journal. lia. }
      apply log_ok_snoc.
      * apply (log_ok_ext _ (dsk s)); [|apply HJ]. intros x Hx. rewrite Hin by lia. apply log_write_out. lia.
      * apply (logged_ext _ (log_write (jhead j) (jsequence j) tx stack (dsk s)) _ _ _ (jhead j + Z.of_nat (length tx) + 2)); [|apply Z.le_refl|].
        -- intros x Hx. apply Hin. lia.
        -- apply log_write_logged. destruct HG. lia.
Qed.
End thms.
