(* ===== verification/JournalCrash.v ===== *)
(** * The journal's theorems: what its operations mean for the file system, and
    what becomes of a transaction when the machine stops. *)
From S2P Require Import Prelude Bytes BlockDev Journal JournalInv JournalThms.
Local Open Scope Z_scope.
Local Open Scope kernel_scope.

(** ** Mounting *)
(** The superblock's fields. *)
Definition jsb_head (v : list Z) : Z := field v 28 8.
Definition jsb_tail (v : list Z) : Z := field v 36 8.
Definition jsb_sequence (v : list Z) : Z := field v 44 8.
Definition jsb_flags (v : list Z) : Z := field v 52 4.

(** The superblock, cut at any of its fields. *)
Lemma jsb_cut j pre n v post :
  512 ≤ block_size j → jsb_fields j = pre ++ le_bytes n v ++ post → 0 ≤ v < 256 ^ Z.of_nat n → field (jsb_bytes j) (length pre) n = v.
Proof.
  intros Hb E Hv. unfold jsb_bytes. rewrite in_block_pad.
  - rewrite E, <- !app_assoc. by apply field_le.
  - unfold jsb_fields. rewrite !length_app, !length_le_bytes. lia.
Qed.
Lemma jsb_bytes_fields j :
  512 ≤ block_size j → 0 ≤ jhead j < 2 ^ 64 → 0 ≤ jtail j < 2 ^ 64 → 0 ≤ jsequence j < 2 ^ 64 →
  jbh_magic (jsb_bytes j) = JOURNAL_MAGIC_SB ∧ jsb_head (jsb_bytes j) = jhead j ∧ jsb_tail (jsb_bytes j) = jtail j ∧
  jsb_sequence (jsb_bytes j) = jsequence j ∧ jsb_flags (jsb_bytes j) = if dirty j then 1 else 0.
Proof.
  intros Hb Hh Ht Hq. unfold jsb_fields.
  set (f := jsb_fields j). split_and!.
  - by apply (jsb_cut j [] 4 JOURNAL_MAGIC_SB (drop 4 f)).
  - by apply (jsb_cut j (take 28 f) 8 (jhead j) (drop 36 f)).
  - by apply (jsb_cut j (take 36 f) 8 (jtail j) (drop 44 f)).
  - by apply (jsb_cut j (take 44 f) 8 (jsequence j) (drop 52 f)).
  - apply (jsb_cut j (take 52 f) 4 (if dirty j then 1 else 0) (drop 56 f)); [done|done|by destruct (dirty j)].
Qed.

Section thms.
Context `{BL : BlockLaws D} (G : geometry).
Abbreviation dsk := (dsk G).
Abbreviation jok := (jok G).
Abbreviation Journaled := (Journaled G).

Lemma write_jsb_uninit j d tr r s' :
  write_jsb (mk_js j true d [] tr) = Some (r, s') →
  write_jsb (mk_js j false d [] tr) = Some (r, mk_js (g_journal s') false (jdev s') (jmem s') (jtrace s')).
Proof.
  unfold write_jsb, journal_write_block, kmalloc, bind, gets, dev_write, sectors_per_block, journal_to_device. cbn.
  destruct (block_dev_write _ _ _ _); intros [= <- <-]; done.
Qed.

(** What is mounted: a new journal, a clean one, or none when it is dirty. *)
Definition mounted (d : D) (r : Z) (s' : jstate D) : Prop :=
  let fs := blk G (bd_mem d) in
  let v := fs (jstart G) in
  if decide (jbh_magic v = JOURNAL_MAGIC_SB) then
    if decide (jsb_flags v = 0) then
      r = 0 ∧ ∀ ts, 0 < jsb_tail v → Forall (txn_ok G) ts → log_ok G fs (jsb_tail v) ts (jsb_head v) → Journaled ts s' (mk_td fs None)
    else r = -1 ∧ g_journal_initialized s' = false ∧ jdev s' = d
  else r = 0 ∧ Journaled [] s' (mk_td fs None).

Lemma journal_init_spec d s :
  geo_ok G → bd_ok d → bd_block_size d = sector_size G → bd_sectors d = sectors G → g_journal_initialized s = false → jmem s = [] →
  ∃ r s', journal_init (Some d) (jstart G) (jblocks G) (bsz G) (fs_total G) s = Some (r, s') ∧ mounted d r s'.
Proof.
  intros HG Hd HB HS Hini Hm. unfold journal_init. pose proof HG as [].
  rewrite !(proj2 (Z.ltb_ge _ _)) by lia. cbn [orb]. rewrite bind_modify, Hini, Hm.
  set (j0 := mk_jh _ _ _ _ _ _ _ _ _ _ _). set (tr := jtrace s).
  assert (∀ j, handle_ok G j → jok (mk_js j true d [] tr)) as Hok by (intros j Hj; by constructor).
  assert (handle_ok G j0) as Hj0 by done.
  pose proof (journal_read_block_ok G _ 0 (Hok j0 Hj0) ltac:(lia)) as Rd. rewrite Z.add_0_r in Rd.
  assert (journal_read_block 0 (mk_js j0 false d [] tr) = Some (Some (blk G (bd_mem d) (jstart G)), mk_js j0 false d [] tr)) as Rd'.
  { exact (f_equal (λ o, match o with Some (x, _) => Some (x, mk_js j0 false d [] tr) | None => None end) Rd). }
  assert (kmalloc (mk_js j0 false d [] tr) = Some (true, mk_js j0 false d [] tr)) as Rk by done.
  run Rk. cbn [negb]. run Rd'.
  unfold mounted. cbv zeta. set (v := blk G (bd_mem d) (jstart G)).
  pose proof (capacity_pos G HG) as [Hc0 _].
  destruct (decide (jbh_magic v = JOURNAL_MAGIC_SB)) as [E|E].
  - rewrite (proj2 (Z.eqb_eq _ _) E). cbn [default]. unfold on_handle at 1. rewrite bind_modify, bind_gets. cbn.
    change (le_value (take 4 (drop 52 v))) with (jsb_flags v).
    destruct (decide (jsb_flags v = 0)) as [F|F].
    + rewrite F. cbn. eexists 0, _. split; [reflexivity|]. split; [done|]. intros ts Ht HF Hlog. constructor; try done.
    + rewrite (proj2 (Z.eqb_neq _ _) F). cbn. eexists (-1), _. by split.
  - rewrite (proj2 (Z.eqb_neq _ _) E). unfold on_handle. rewrite bind_modify.
    set (j1 := mk_jh (bsz G) (jstart G) (jblocks G) 1 1 1 false [] 0 false (fs_total G)).
    destruct (write_jsb_ok G _ (Hok j1 Hj0)) as (s1 & R1 & Hs1 & Hj1 & Hd1). run (write_jsb_uninit _ _ _ _ _ R1). cbn.
    eexists 0, _. split; [reflexivity|]. split; [done|]. destruct Hs1 as [_ _ Hm1 Hb1 Hsec Hsecs Hh1]. constructor; try done.
    + intros x Hx. cbn. change (dsk s1 x = blk G (bd_mem d) x). rewrite Hd1, disk_set_ne; [done|]. intros ->. apply Hx. unfold in_journal. lia.
    + cbn. by rewrite Hj1.
    + cbn. by rewrite Hj1.
    + cbn. by rewrite Hj1.
    + cbn. by rewrite Hj1.
    + cbn. by rewrite Hj1.
Qed.

(** Only the file system's blocks matter. *)
Lemma Journaled_fs ts s fs fs' o :
  Journaled ts s (mk_td fs o) → (∀ x, ¬ in_journal G x → fs x = fs' x) → Journaled ts s (mk_td fs' o).
Proof. intros [] E. constructor; try done. intros x Hx. rewrite <- E by done. by apply jd_fs. Qed.

Lemma commit_remount ts (s : jstate D) a stack s' s0 :
  Journaled ts s a → in_transaction (g_journal s) = true → txn (g_journal s) ≠ [] →
  Z.of_nat (length stack) = bsz G - 32 → room G (g_journal s) (Z.of_nat (length (txn (g_journal s))) + 2) →
  journal_commit stack s = Some (0, s') → Journaled (ts ++ [txn (g_journal s)]) s' (td_commit a).2 →
  g_journal_initialized s0 = false → jmem s0 = [] →
  ∃ s2, journal_init (Some (jdev s')) (jstart G) (jblocks G) (bsz G) (fs_total G) s0 = Some (0, s2) ∧
    Journaled (ts ++ [txn (g_journal s)]) s2 (mk_td (td_fs (td_commit a).2) None).
Proof.
  intros HJ Hin Hne Hst Hroom R HJ' Hi0 Hm0. pose proof (jd_ok _ _ _ _ HJ) as Hs. pose proof (jok_geo _ _ Hs) as HG.
  destruct (journal_commit_spec G stack s Hs Hin Hne (jd_txn _ _ _ _ HJ) Hroom Hst) as (s'' & R' & Hs' & Hj' & Hsb & _).
  rewrite R in R'. injection R' as <-. destruct Hroom as (Ht & Hr1 & Hr2). pose proof (geo_small _ HG) as Hgs. pose proof (geo_start _ HG).
  destruct (jsb_bytes_fields (committed (g_journal s))) as (M & H1 & H2 & _ & H3); cbn.
  { destruct (jok_handle _ _ Hs) as (-> & _). apply HG. }
  { lia. }
  { lia. }
  { apply Z.mod_pos_bound. lia. }
  destruct (journal_init_spec (jdev s') s0 HG) as (r & s2 & R2 & Hmnt); [apply Hs'..|done|done|].
  unfold mounted in Hmnt. change (blk G (bd_mem (jdev s')) (jstart G)) with (dsk s' (jstart G)) in Hmnt. cbv zeta in Hmnt. rewrite Hsb in Hmnt.
  rewrite decide_True, decide_True in Hmnt by done. destruct Hmnt as [-> Hmnt]. exists s2. split; [done|].
  rewrite H1, H2 in Hmnt. pose proof (jd_log _ _ _ _ HJ') as Hlog. rewrite Hj' in Hlog.
  eapply Journaled_fs; [apply Hmnt; [cbn; lia|by apply HJ'|exact Hlog]|]. intros x Hx. by apply (jd_fs _ _ _ _ HJ').
Qed.

Lemma commit_replay ts (s s' s1 : jstate D) a :
  Journaled (ts ++ [txn (g_journal s)]) s' a → jhead (g_journal s') ≤ jblocks G → jok s1 →
  jhead (g_journal s1) = jhead (g_journal s') → jtail (g_journal s1) = jtail (g_journal s') → (∀ x, in_journal G x → dsk s1 x = dsk s' x) →
  ∃ s2, journal_recover s1 = Some (0, s2) ∧
    ∀ x, ¬ in_journal G x → dsk s2 x = disk_apply (concat ts ++ txn (g_journal s)) (dsk s1) x.
Proof.
  intros HJ Hb Hs1 Eh Et Hx. pose proof (jd_tail _ _ _ _ HJ) as Ht.
  destruct (journal_recover_spec G (ts ++ [txn (g_journal s)]) s1 Hs1) as (s2 & R & _ & _ & Hd).
  - apply HJ.
  - by rewrite Et.
  - by rewrite Eh.
  - rewrite Eh, Et. apply (log_ok_ext G (dsk s')); [|apply HJ]. intros x Hr. apply Hx. unfold in_journal. lia.
  - exists s2. split; [done|]. intros x Hn. rewrite concat_app in Hd. cbn [concat] in Hd. rewrite app_nil_r in Hd. apply Hd.
    intros ->. apply Hn. unfold in_journal. pose proof (jok_geo _ _ Hs1) as []. lia.
Qed.
End thms.

(** ** The operations implement a transactional disk *)

(** C24: Over any block device that keeps its laws, the journal's operations
    simulate a disk with transactions: journal_begin opens one, at most one at
    a time, whose size is what a descriptor block holds; journal_write appends
    to it and refuses beyond that size; journal_rollback drops it; and
    journal_commit, when the log has room before the end of the area, makes
    every block outside the journal area what the transaction, applied in
    order, makes it, closes the transaction, and leaves in the log a complete
    copy after those already there. *)
Theorem journal_ops_refine `{BL : BlockLaws D} G ts (s : jstate D) a :
  Journaled G ts s a →
  (∀ m, 0 ≤ m → ∃ s', journal_begin m s = Some ((td_begin G m a).1, s') ∧ Journaled G ts s' (td_begin G m a).2) ∧
  (∀ b data, entry_ok G (b, data) →
     ∃ s', journal_write b data s = Some ((td_write b data a).1, s') ∧ Journaled G ts s' (td_write b data a).2) ∧
  (∃ s', journal_rollback s = Some ((td_rollback a).1, s') ∧ Journaled G ts s' (td_rollback a).2) ∧
  (∀ stack, Z.of_nat (length stack) = bsz G - 32 → room G (g_journal s) (Z.of_nat (length (txn (g_journal s))) + 2) →
     ∃ s', journal_commit stack s = Some ((td_commit a).1, s') ∧ Journaled G (log_after ts a) s' (td_commit a).2).
Proof.
  intros HJ. split_and!.
  - intros m Hm. by apply journal_begin_refines.
  - intros b data He. by apply journal_write_refines.
  - by apply journal_rollback_refines.
  - intros stack Hst Hr. by apply journal_commit_refines.
Qed.

(** C25: A committed transaction survives.  Mounting the device again gives the
    same file system and log.  And when the blocks of the file system have
    since been damaged in any way while the journal area is intact,
    journal_recover, from the head and tail of the commit, succeeds and makes
    every block outside the journal what the logged transactions make it, so
    every block of the committed transaction reads as committed. *)
Theorem commit_durable `{BL : BlockLaws D} G ts (s : jstate D) a stack c l :
  Journaled G ts s a → td_open a = Some (c, l) → l ≠ [] → Z.of_nat (length stack) = bsz G - 32 →
  room G (g_journal s) (Z.of_nat (length l) + 2) →
  ∃ s', journal_commit stack s = Some (0, s') ∧
    (∀ s0, g_journal_initialized s0 = false → jmem s0 = [] →
       ∃ s2, journal_init (Some (jdev s')) (jstart G) (jblocks G) (bsz G) (fs_total G) s0 = Some (0, s2) ∧
         Journaled G (ts ++ [l]) s2 (mk_td (disk_apply l (td_fs a)) None)) ∧
    (∀ s1, jok G s1 → jhead (g_journal s1) = jhead (g_journal s') → jtail (g_journal s1) = jtail (g_journal s') →
       (∀ x, in_journal G x → dsk G s1 x = dsk G s' x) →
       ∃ s2, journal_recover s1 = Some (0, s2) ∧ ∀ x, ¬ in_journal G x →
         dsk G s2 x = disk_apply (concat ts ++ l) (dsk G s1) x ∧ (x ∈ l.*1 → dsk G s2 x = dsk G s' x)).
Proof.
  intros HJ Ho Hne Hst Hroom. pose proof (jd_open _ _ _ _ HJ) as Hop. rewrite Ho in Hop. unfold open_of in Hop.
  destruct (in_transaction (g_journal s)) eqn:Hin; [|done]. injection Hop as Hcap Htx. subst l.
  destruct (journal_commit_refines G ts s a stack HJ Hst Hroom) as (s' & R & HJ').
  assert (log_after ts a = ts ++ [txn (g_journal s)]) as El.
  { unfold log_after. rewrite Ho. by destruct (txn (g_journal s)). }
  rewrite El in HJ'. unfold td_commit in R. rewrite Ho in R. exists s'. split; [done|]. split.
  - intros s0 Hi0 Hm0. destruct (commit_remount G ts s a stack s' s0) as (s2 & R2 & HJ2); try done. exists s2. split; [done|].
    unfold td_commit in HJ2. by rewrite Ho in HJ2.
  - intros s1 Hs1 Eh Et Hx. destruct (commit_replay G ts s s' s1 (td_commit a).2) as (s2 & R2 & Hd2); try done.
    { destruct (journal_commit_spec G stack s (jd_ok _ _ _ _ HJ) Hin Hne (jd_txn _ _ _ _ HJ) Hroom Hst) as (s'' & R' & _ & Hj' & _).
      rewrite R in R'. injection R' as <-. rewrite Hj'. cbn. destruct Hroom. lia. }
    exists s2. split; [done|]. intros x Hn. split; [by apply Hd2|]. intros Hl. rewrite Hd2 by done.
    rewrite (jd_fs _ _ _ _ HJ' x Hn). unfold td_commit. rewrite Ho. cbn. rewrite disk_apply_app. by apply disk_apply_in.
Qed.

(** Mounting.  A device without the superblock's magic gets an empty
    journal and keeps its file system; a clean journal is mounted with the log
    its head and tail delimit.  A dirty journal, the case recovery exists for,
    is never mounted: journal_recover refuses because the journal is not
    initialised yet, so journal_init fails and the device is left as it was. *)
Theorem journal_init_correct `{BL : BlockLaws D} G d (s : jstate D) :
  geo_ok G → bd_ok d → bd_block_size d = sector_size G → bd_sectors d = sectors G → g_journal_initialized s = false → jmem s = [] →
  ∃ r s', journal_init (Some d) (jstart G) (jblocks G) (bsz G) (fs_total G) s = Some (r, s') ∧ mounted G d r s'.
Proof. apply journal_init_spec. Qed.

(** ** A crash during a commit *)
Definition G0 : geometry := mk_geo 512 2048 1 100 16 90.
Definition rd0 : ramdisk_priv := mk_rd ∅ (1024 * 1024).
Definition uninit (d : ramdisk_priv) : jstate ramdisk_priv := mk_js (mk_jh 0 0 0 0 0 0 false [] 0 false 0) false d [] [].
Definition data0 (v : Z) : list Z := replicate 512 v.
Definition stack0 : list Z := zeros 480.

(** A journal is created and one transaction of two blocks is committed. *)
Definition two_blocks : ST (jstate ramdisk_priv) Z :=
  _ <- journal_init (Some rd0) 100 16 512 90 ;;
  _ <- journal_begin 2 ;;
  _ <- journal_write 5 (data0 7) ;;
  _ <- journal_write 6 (data0 9) ;;
  journal_commit stack0.
(** The device when the machine stops after its first [k] writes. *)
Definition crashed (k : nat) (s : jstate ramdisk_priv) : ramdisk_priv :=
  mk_rd (foldl (λ m w, store m (w.1 * 512) w.2) ∅ (take k (rev (jtrace s)))) (1024 * 1024).
(** Mounting a device as journal_init means to, the recovery included. *)
Definition mount_recovering (d : ramdisk_priv) : ST (jstate ramdisk_priv) Z :=
  _ <- journal_init (Some d) 100 16 512 90 ;;
  set_initialized true ;;;
  journal_recover.
Definition blocks_of (d : ramdisk_priv) : list (list Z) := [blk G0 (rd_data d) 5; blk G0 (rd_data d) 6].

(** A run that returns [r] in a state with [P]. *)
Definition yields {S} (m : option (Z * S)) (r : Z) (P : S → Prop) : Prop :=
  match m with Some (r', s) => r' = r ∧ P s | None => False end.

(** A commit is not atomic.  The machine stops between the two checkpoint
    writes of a committed transaction: its first block is new, its second is
    old.  Mounting fails and changes nothing, because the journal is dirty; and
    even when the recovery is made to run it replays nothing, because the head
    on the disk is only moved after the checkpoint: the transaction stays torn
    although its log copy is complete. *)
Theorem crash_tears_transaction :
  yields (two_blocks (uninit rd0)) 0 (λ s, blocks_of (jdev s) = [data0 7; data0 9] ∧
    blocks_of (crashed 7 s) = [data0 7; data0 0] ∧
    yields (journal_init (Some (crashed 7 s)) 100 16 512 90 (uninit rd0)) (-1) (λ s', blocks_of (jdev s') = [data0 7; data0 0]) ∧
    yields (mount_recovering (crashed 7 s) (uninit rd0)) 0 (λ s', blocks_of (jdev s') = [data0 7; data0 0])).
Proof. vm_compute. repeat split. Qed.

(** Transactions of one block each. *)
Definition one_block (b v : Z) : ST (jstate ramdisk_priv) Z :=
  _ <- journal_begin 1 ;;
  _ <- journal_write b (data0 v) ;;
  journal_commit stack0.
(** The third transaction of a journal of eight blocks starts at its last
    block: its data is written to the block after the journal's area, which
    belongs to the file system. *)
Theorem log_overruns_journal :
  yields ((_ <- journal_init (Some rd0) 100 8 512 0 ;; _ <- one_block 5 1 ;; _ <- one_block 5 2 ;; one_block 5 3)%kernel (uninit rd0)) 0
    (λ s, blk G0 (rd_data (jdev s)) 108 = data0 3).
Proof. vm_compute. repeat split. Qed.

(** ** Witnesses: the journal of [G0] with an open transaction of two blocks *)
Definition open0 : list (Z * list Z) := [(5, data0 7); (6, data0 9)].
Definition st0 : jstate ramdisk_priv := mk_js (mk_jh 512 100 16 1 1 1 true open0 23 false 90) true rd0 [] [].
Definition td0 : tdisk := mk_td (dsk G0 st0) (Some (23, open0)).

Lemma G0_ok : geo_ok G0.
Proof. constructor; vm_compute; intuition congruence. Qed.
Lemma entry0 b v : 0 ≤ b < 90 → is_byte v → entry_ok G0 (b, data0 v).
Proof.
  intros Hb Hv. unfold entry_ok, on_device, in_journal. cbn [fst snd per_block sectors fs_total jstart jblocks G0].
  split_and!; try lia; [reflexivity|by apply Forall_replicate].
Qed.
Lemma st0_Journaled : Journaled G0 [] st0 td0.
Proof.
  constructor; try done.
  apply Forall_cons_2; [|apply Forall_singleton]; apply entry0; unfold is_byte; lia.
Qed.
Lemma room0 n : 0 ≤ n ≤ 10 → room G0 (g_journal st0) n.
Proof. intros Hn. unfold room. cbn. lia. Qed.

Lemma journal_ops_refine_witness : ∃ s', journal_rollback st0 = Some (0, s') ∧ Journaled G0 [] s' (td_rollback td0).2.
Proof. exact (proj1 (proj2 (proj2 (journal_ops_refine G0 [] st0 td0 st0_Journaled)))). Defined.
Lemma commit_durable_witness : ∃ s', journal_commit stack0 st0 = Some (0, s').
Proof.
  destruct (commit_durable G0 [] st0 td0 stack0 23 open0 st0_Journaled) as (s' & R & _).
  - reflexivity.
  - discriminate.
  - reflexivity.
  - apply (room0 4). lia.
  - exists s'. exact R.
Defined.
Lemma journal_init_correct_witness : ∃ r s', journal_init (Some rd0) 100 16 512 90 (uninit rd0) = Some (r, s') ∧ mounted G0 rd0 r s'.
Proof.
  apply (journal_init_correct G0 rd0 (uninit rd0) G0_ok); try reflexivity. split; vm_compute; discriminate.
Defined.
