(* ===== verification/Chains.v ===== *)
(** * Named nodes in singly linked lists: the children of a directory, in the
    file system and in the cache of directory entries. *)
From S2P Require Import Prelude.
Local Open Scope Z_scope.

(** The entries of a list, each a name and an address. *)
Notation entries := (list (list Z * Z)).
Fixpoint assoc (name : list Z) (l : entries) : option Z :=
  match l with
  | [] => None
  | (n, c) :: l => if decide (n = name) then Some c else assoc name l
  end.
Lemma assoc_elem name l c : assoc name l = Some c → (name, c) ∈ l.
Proof.
  induction l as [|[n x] l IH]; [done|]. cbn. destruct (decide (n = name)) as [->|]; [intros [= ->]; left|]. intros H%IH. by right.
Qed.
Lemma assoc_elem_2 name l c : assoc name l = Some c → c ∈ l.*2.
Proof. intros H. apply list_elem_of_fmap. exists (name, c). split; [done|by apply assoc_elem]. Qed.
Lemma assoc_None name l : assoc name l = None ↔ name ∉ l.*1.
Proof.
  induction l as [|[n x] l IH]; cbn; [split; [intros _; apply not_elem_of_nil|done]|]. rewrite not_elem_of_cons.
  destruct (decide (n = name)) as [->|]; [split; [done|by intros []]|]. rewrite IH. split; [by split|by intros []].
Qed.

Section chain.
Context {N : Type} (name : N → list Z) (next : N → Z).

(** The list of entries that starts at the address [a]. *)
Fixpoint chain (ns : gmap Z N) (a : Z) (l : entries) : Prop :=
  match l with
  | [] => a = 0
  | (nm, c) :: l => a = c ∧ ∃ n, ns !! c = Some n ∧ name n = nm ∧ chain ns (next n) l
  end.

(** Two heaps give the same chains when the nodes keep their names and links. *)
Lemma chain_ext ns ns' a l :
  (∀ c, c ∈ l.*2 → ∃ n n', ns !! c = Some n ∧ ns' !! c = Some n' ∧ name n' = name n ∧ next n' = next n) →
  chain ns a l → chain ns' a l.
Proof.
  revert a. induction l as [|[nm c] l IH]; intros a He; [done|]. cbn [chain]. intros [-> (n & Hn & Hnm & Hc)]. split; [done|].
  destruct (He c ltac:(left)) as (n1 & n' & E1 & E2 & E3 & E4). rewrite Hn in E1. injection E1 as <-.
  exists n'. split_and!; [done|congruence|]. rewrite E4. apply IH; [|done]. intros x Hx. apply He. by right.
Qed.
Lemma chain_live ns a l c : chain ns a l → c ∈ l.*2 → is_Some (ns !! c).
Proof.
  revert a. induction l as [|[nm c'] l IH]; intros a; [intros _ Hx%elem_of_nil; done|]. intros [-> (n & Hn & _ & Hc)].
  cbn. intros [->|Hx]%elem_of_cons; [eauto|by eapply IH].
Qed.
(** The entry's name is the node's. *)
Lemma chain_name ns a l nm c : chain ns a l → (nm, c) ∈ l → ∃ n, ns !! c = Some n ∧ name n = nm.
Proof.
  revert a. induction l as [|[nm' c'] l IH]; intros a; [intros _ Hx%elem_of_nil; done|]. intros [-> (n & Hn & E & Hc)].
  intros [[= -> ->]|Hx]%elem_of_cons; [eauto|by eapply IH].
Qed.

(** A chain of distinct nodes is no longer than the heap. *)
Lemma chain_length ns a l : chain ns a l → NoDup l.*2 → (length l ≤ size ns)%nat.
Proof.
  intros Hc Hn. assert (size (list_to_set l.*2 : gset Z) = length l.*2) as Hs by (by apply size_list_to_set).
  rewrite length_fmap in Hs. rewrite <- Hs, <- (size_dom (D := gset Z)). apply subseteq_size. intros x.
  rewrite elem_of_list_to_set, elem_of_dom. by eapply chain_live.
Qed.

(** Changing one node without touching its name and links. *)
Lemma chain_update ns a n n' x l :
  ns !! a = Some n → name n' = name n → next n' = next n → chain ns x l → chain (<[a := n']> ns) x l.
Proof.
  intros Ha En Ex Hc. apply (chain_ext ns); [|done]. intros c Hl. destruct (chain_live _ _ _ _ Hc Hl) as [m Hm]. exists m.
  destruct (decide (c = a)) as [->|Hne].
  - exists n'. rewrite lookup_insert_eq. rewrite Ha in Hm. injection Hm as <-. done.
  - exists m. by rewrite lookup_insert_ne by done.
Qed.
(** A node outside the list. *)
Lemma chain_insert_out ns c n a l : c ∉ l.*2 → chain ns a l → chain (<[c := n]> ns) a l.
Proof.
  intros Hc H. apply (chain_ext ns); [|done]. intros x Hx. destruct (chain_live _ _ _ _ H Hx) as [m Hm]. exists m, m.
  rewrite lookup_insert_ne by (intros ->; done). done.
Qed.
End chain.
