(* ===== verification/Ramfs.v ===== *)
(** * kernel/ramfs.c: the in-memory file system.

    Nodes live in a heap; a directory's children are a list linked through
    [next].  [rmem] holds the coming answers of kmalloc: a refusal, or an address
    with what the memory there contains.  A dereference of a dead node and a copy
    outside a buffer have no outcome.  Strings are their bytes without the NUL. *)
From S2P Require Import Prelude Bytes.
Local Open Scope Z_scope.
Local Open Scope kernel_scope.

(** [struct ramfs_node] with the inode at its start. *)
Record rnode := mk_rn {
  rn_name : list Z;
  rn_dir : bool;
  rn_size : Z;
  rn_dentry : Z;
  rn_next : Z;
  rn_children : Z;
  rn_data : option (list Z)
}.
Record ramfs := mk_ramfs {
  nodes : gmap Z rnode;
  ramfs_root : Z;
  rmem : list (option (Z * list Z))
}.
Definition RM := ST ramfs.

Definition set_nodes (h : gmap Z rnode) (s : ramfs) : ramfs := mk_ramfs h (ramfs_root s) (rmem s).
Definition set_children (c : Z) (n : rnode) : rnode :=
  mk_rn (rn_name n) (rn_dir n) (rn_size n) (rn_dentry n) (rn_next n) c (rn_data n).
Definition set_next (c : Z) (n : rnode) : rnode :=
  mk_rn (rn_name n) (rn_dir n) (rn_size n) (rn_dentry n) c (rn_children n) (rn_data n).
Definition set_dentry (d : Z) (n : rnode) : rnode :=
  mk_rn (rn_name n) (rn_dir n) (rn_size n) d (rn_next n) (rn_children n) (rn_data n).
Definition set_data (sz : Z) (d : option (list Z)) (n : rnode) : rnode :=
  mk_rn (rn_name n) (rn_dir n) sz (rn_dentry n) (rn_next n) (rn_children n) d.

Definition ld_node (a : Z) : RM rnode := λ s, match nodes s !! a with Some n => Some (n, s) | None => None end.
Definition st_node (a : Z) (f : rnode → rnode) : RM unit :=
  n <- ld_node a ;; modify (λ s, set_nodes (<[a := f n]> (nodes s)) s).
Definition kmalloc : RM (option (Z * list Z)) :=
  λ s, match rmem s with
       | [] => Some (None, s)
       | r :: l => Some (r, mk_ramfs (nodes s) (ramfs_root s) l)
       end.
Definition kfree_node (a : Z) : RM unit := _ <- ld_node a ;; modify (λ s, set_nodes (delete a (nodes s)) s).
(** A fresh buffer of [n] bytes holds what was there before. *)
Definition buffer (junk : list Z) (n : Z) : list Z := take (Z.to_nat n) (junk ++ replicate (Z.to_nat n) 0).
(** ** Walking a directory *)
(** The list walk of every operation: the child called [name] with its
    predecessor (0 for the first). *)
Fixpoint find_child (fuel : nat) (prev cur : Z) (name : list Z) : RM (option (Z * Z)) :=
  match fuel with
  | O => fail
  | S fuel =>
      if cur =? 0 then ret None else
      n <- ld_node cur ;;
      if decide (rn_name n = name) then ret (Some (prev, cur)) else find_child fuel cur (rn_next n) name
  end.
Definition child_of (dir : Z) (name : list Z) : RM (option (Z * Z)) :=
  h <- ld_node dir ;;
  fuel <- gets (λ s, S (size (nodes s))) ;;
  find_child fuel 0 (rn_children h) name.
(** Insert at the head of the directory's list. *)
Definition link_child (dir n : Z) (node : rnode) : RM unit :=
  h <- ld_node dir ;;
  modify (λ s, set_nodes (<[n := set_next (rn_children h) node]> (nodes s)) s) ;;;
  st_node dir (set_children n).
Definition unlink_child (dir prev cur : Z) : RM unit :=
  c <- ld_node cur ;;
  (if prev =? 0 then st_node dir (set_children (rn_next c)) else st_node prev (set_next (rn_next c))) ;;;
  kfree_node cur.

(** ** File operations *)
Definition ramfs_open (inode : Z) : RM Z := ret 0.
Definition ramfs_close (inode : Z) : RM Z := ret 0.

(** The result, the bytes copied out, and the new offset. *)
Definition ramfs_read (inode count offset : Z) : RM (Z * list Z * Z) :=
  n <- ld_node inode ;;
  if i64 (rn_size n) <=? offset then ret (0, [], offset) else
  let toread := if rn_size n <? u64 (u64 offset + count) then u64 (rn_size n - offset) else count in
  if toread =? 0 then ret (0, [], offset) else
  match rn_data n with
  | Some d => if (0 <=? offset) && (offset + toread <=? Z.of_nat (length d))
              then ret (i64 toread, take (Z.to_nat toread) (drop (Z.to_nat offset) d), offset + toread) else fail
  | None => fail
  end.

Definition ramfs_write (inode : Z) (buf : list Z) (offset : Z) : RM (Z * Z) :=
  let count := Z.of_nat (length buf) in
  n <- ld_node inode ;;
  if offset <? 0 then ret (-1, offset) else
  if count =? 0 then ret (0, offset) else
  if 2 ^ 64 - 1 - count <? offset then ret (-1, offset) else
  let new_size := offset + count in
  ok <- (if rn_size n <? new_size then
           m <- kmalloc ;;
           match m with
           | None => ret false
           | Some (_, junk) =>
               match patch (buffer junk new_size) 0 (take (Z.to_nat (rn_size n)) (default [] (rn_data n))) with
               | None => fail
               | Some d => st_node inode (set_data new_size (Some d)) ;;; ret true
               end
           end
         else ret true) ;;
  if negb ok then ret (-1, offset) else
  n <- ld_node inode ;;
  match rn_data n with
  | None => fail
  | Some d =>
      match patch d offset buf with
      | None => fail
      | Some d => st_node inode (set_data (rn_size n) (Some d)) ;;; ret (count, offset + count)
      end
  end.

(** ** Directory operations *)
(** The inode found becomes the dentry's; [None] leaves it negative. *)
Definition ramfs_lookup (dir : Z) (name : list Z) (dentry : Z) : RM (option Z) :=
  r <- child_of dir name ;;
  match r with
  | None => ret None
  | Some (_, n) => st_node n (set_dentry dentry) ;;; ret (Some n)
  end.

(** What creating a file and a directory share. *)
Definition new_child (dir : Z) (name : list Z) (is_dir : bool) : RM Z :=
  h <- ld_node dir ;;
  if negb (rn_dir h) then ret (-1) else
  r <- child_of dir name ;;
  if r is Some _ then ret (-1) else
  n <- kmalloc ;;
  match n with
  | None => ret (-1)
  | Some (n, _) =>
      m <- kmalloc ;;
      match m with
      | None => ret (-1)
      | Some _ => link_child dir n (mk_rn name is_dir 0 0 0 0 None) ;;; ret 0
      end
  end.
Definition ramfs_create_file (dir : Z) (name : list Z) (flags : Z) : RM Z := new_child dir name false.
Definition ramfs_mkdir (dir : Z) (name : list Z) : RM Z := new_child dir name true.

Definition ramfs_unlink (dir : Z) (name : list Z) : RM Z :=
  h <- ld_node dir ;;
  if negb (rn_dir h) then ret (-1) else
  r <- child_of dir name ;;
  match r with
  | None => ret (-1)
  | Some (prev, cur) =>
      c <- ld_node cur ;;
      if rn_dir c then ret (-1) else unlink_child dir prev cur ;;; ret 0
  end.
Definition ramfs_rmdir (dir : Z) (name : list Z) : RM Z :=
  h <- ld_node dir ;;
  if negb (rn_dir h) then ret (-1) else
  r <- child_of dir name ;;
  match r with
  | None => ret (-1)
  | Some (prev, cur) =>
      c <- ld_node cur ;;
      if negb (rn_dir c) then ret (-1) else
      if negb (rn_children c =? 0) then ret (-1) else unlink_child dir prev cur ;;; ret 0
  end.

(** ** Building the file system *)
(** [true]: a superblock whose root inode is [ramfs_root]. *)
Definition ramfs_create : RM bool :=
  h <- kmalloc ;;
  match h with
  | None => ret false
  | Some (h, _) =>
      sb <- kmalloc ;;
      match sb with
      | None => ret false
      | Some _ => modify (λ s, mk_ramfs (<[h := mk_rn [] true 0 0 0 0 None]> (nodes s)) h (rmem s)) ;;; ret true
      end
  end.
(** A new file of the root directory with its contents; the string version
    keeps a NUL after them. *)
Definition add_file (name data rest : list Z) : RM Z :=
  root <- gets ramfs_root ;;
  if root =? 0 then ret (-1) else
  r <- child_of root name ;;
  if r is Some _ then ret (-1) else
  n <- kmalloc ;;
  match n with
  | None => ret (-1)
  | Some (n, _) =>
      m <- kmalloc ;;
      if m is None then ret (-1) else
      m <- kmalloc ;;
      if m is None then ret (-1) else
      link_child root n (mk_rn name false (Z.of_nat (length data)) 0 0 0 (Some (data ++ rest))) ;;; ret 0
  end.
Definition ramfs_add_file (name : list Z) (content : option (list Z)) : RM Z := add_file name (default [] content) [0].
Definition ramfs_add_file_data (name : list Z) (data : option (list Z)) : RM Z :=
  match data with None => ret (-1) | Some d => add_file name d [] end.
