(* ===== verification/RamfsInv.v ===== *)
(** * The tree a ramfs heap represents, and how the list operations change it. *)
From S2P Require Import Prelude Bytes Chains Ramfs.
Local Open Scope Z_scope.
Local Open Scope kernel_scope.

(** ** The abstract file system *)
(** A directory lists its entries in the order of its children. *)
Inductive anode :=
  | ADir (entries : list (list Z * Z))
  | AFile (data : list Z).
Notation atree := (gmap Z anode).

Definition alookup (t : atree) (d : Z) (name : list Z) : option Z :=
  match t !! d with Some (ADir l) => assoc name l | _ => None end.
Definition drop_entry (name : list Z) (l : list (list Z * Z)) : list (list Z * Z) := filter (λ e, e.1 ≠ name) l.

Record atree_ok (t : atree) (root : Z) : Prop := mk_atree_ok {
  at_root : ∃ l, t !! root = Some (ADir l);
  at_names : ∀ d l, t !! d = Some (ADir l) → NoDup l.*1;
  at_nodup : ∀ d l, t !! d = Some (ADir l) → NoDup l.*2;
  at_child : ∀ d l c, t !! d = Some (ADir l) → c ∈ l.*2 → is_Some (t !! c) ∧ c ≠ root;
  at_parent : ∀ d1 l1 d2 l2 c, t !! d1 = Some (ADir l1) → t !! d2 = Some (ADir l2) → c ∈ l1.*2 → c ∈ l2.*2 → d1 = d2;
  at_nonnull : t !! 0 = None
}.

(** ** Representation *)
Abbreviation chain := (Chains.chain rn_name rn_next).
Definition node_rep (ns : gmap Z rnode) (n : rnode) (x : anode) : Prop :=
  match x with
  | ADir l => rn_dir n = true ∧ chain ns (rn_children n) l
  | AFile d => rn_dir n = false ∧ rn_size n = Z.of_nat (length d) ∧ rn_size n < 2 ^ 63 ∧
      ∃ rest, default [] (rn_data n) = d ++ rest
  end.
Record Rep (t : atree) (s : ramfs) : Prop := mk_Rep {
  rep_ok : atree_ok t (ramfs_root s);
  rep_node : ∀ i x, t !! i = Some x → ∃ n, nodes s !! i = Some n ∧ node_rep (nodes s) n x;
  rep_dom : ∀ i, is_Some (nodes s !! i) → is_Some (t !! i)
}.

(** The predecessor in the list, 0 for the first. *)
Fixpoint find_abs (prev : Z) (name : list Z) (l : list (list Z * Z)) : option (Z * Z) :=
  match l with
  | [] => None
  | (n, c) :: l => if decide (n = name) then Some (prev, c) else find_abs c name l
  end.
Lemma find_abs_assoc prev name l : snd <$> find_abs prev name l = assoc name l.
Proof. revert prev. induction l as [|[n c] l IH]; intros prev; cbn; [done|]. by destruct (decide _). Qed.

Lemma find_child_ok s name l : ∀ fuel prev a,
  chain (nodes s) a l → 0 ∉ l.*2 → (length l < fuel)%nat → find_child fuel prev a name s = Some (find_abs prev name l, s).
Proof.
  induction l as [|[nm c] l IH]; intros fuel prev a Hc Hz Hf; (destruct fuel as [|fuel]; [cbn in Hf; lia|]); cbn [find_child find_abs].
  - cbn in Hc. by subst a.
  - destruct Hc as [-> (n & Hn & Hnm & Hc)]. rewrite (proj2 (Z.eqb_neq _ _)) by (intros ->; apply Hz; left).
    rewrite (bind_Some _ _ s n s) by (unfold ld_node; by rewrite Hn). rewrite Hnm. destruct (decide (nm = name)); [done|].
    apply IH; [done|intros H; apply Hz; by right|cbn in Hf; lia].
Qed.

Section rep.
Context (t : atree) (s : ramfs) (HR : Rep t s).

Lemma rep_dir d l : t !! d = Some (ADir l) → ∃ h, nodes s !! d = Some h ∧ rn_dir h = true ∧ chain (nodes s) (rn_children h) l.
Proof. intros H. exact (rep_node _ _ HR _ _ H). Qed.
Lemma rep_zero d l : t !! d = Some (ADir l) → 0 ∉ l.*2.
Proof.
  intros H Hz. destruct (at_child _ _ (rep_ok _ _ HR) _ _ _ H Hz) as [[x Hx] _]. pose proof (at_nonnull _ _ (rep_ok _ _ HR)). congruence.
Qed.
Lemma ld_node_ok a n : nodes s !! a = Some n → ld_node a s = Some (n, s).
Proof. unfold ld_node. by intros ->. Qed.
Lemma child_of_ok d l name : t !! d = Some (ADir l) → child_of d name s = Some (find_abs 0 name l, s).
Proof.
  intros H. destruct (rep_dir _ _ H) as (h & Hh & _ & Hc). unfold child_of. run (ld_node_ok _ _ Hh). rewrite bind_gets.
  apply find_child_ok; [done|by eapply rep_zero|]. pose proof (chain_length _ _ _ _ _ Hc (at_nodup _ _ (rep_ok _ _ HR) _ _ H)). lia.
Qed.
End rep.

Lemma st_node_ok a f s n : nodes s !! a = Some n → st_node a f s = Some (tt, set_nodes (<[a := f n]> (nodes s)) s).
Proof. intros H. unfold st_node. by run (ld_node_ok s a n H). Qed.

Lemma node_rep_update ns a n n' m x :
  ns !! a = Some n → rn_name n' = rn_name n → rn_next n' = rn_next n → node_rep ns m x → node_rep (<[a := n']> ns) m x.
Proof. intros Ha En Ex. destruct x as [l|d]; [|done]. cbn. intros [H1 H2]. split; [done|]. by eapply chain_update. Qed.

(** ** Inserting at the head *)
Lemma Rep_link t s d l h n node x :
  Rep t s → t !! d = Some (ADir l) → nodes s !! d = Some h → n ≠ 0 → nodes s !! n = None → rn_name node ∉ l.*1 →
  (x = ADir [] ∧ rn_dir node = true ∧ rn_children node = 0 ∨ ∃ f, x = AFile f ∧ node_rep ∅ node (AFile f)) →
  let ns1 := <[n := set_next (rn_children h) node]> (nodes s) in
  Rep (<[d := ADir ((rn_name node, n) :: l)]> (<[n := x]> t)) (set_nodes (<[d := set_children n h]> ns1) s).
Proof.
  intros HR Hd Hh Hn0 Hfresh Hname Hx ns1. pose proof (rep_ok _ _ HR) as Hok.
  assert (t !! n = None) as Htn.
  { destruct (t !! n) as [y|] eqn:E; [|done]. destruct (rep_node _ _ HR _ _ E) as (m & Hm & _). congruence. }
  assert (n ≠ d) as Hnd by congruence.
  assert (∀ d' l', t !! d' = Some (ADir l') → n ∉ l'.*2) as Hout.
  { intros d' l' H Hin. destruct (at_child _ _ Hok _ _ _ H Hin) as [[y Hy] _]. congruence. }
  destruct (rep_dir _ _ HR _ _ Hd) as (h' & Hh' & Hdir & Hch). assert (h' = h) as -> by congruence.
  set (ns2 := <[d := set_children n h]> ns1).
  assert (∀ a l', n ∉ l'.*2 → chain (nodes s) a l' → chain ns2 a l') as Hold.
  { intros a l' Hn Hc. unfold ns2. eapply (chain_update _ _ ns1 d h); [by unfold ns1; rewrite lookup_insert_ne|done|done|].
    apply (chain_ext _ _ (nodes s)); [|done]. intros c Hc'. destruct (chain_live _ _ _ _ _ _ Hc Hc') as [m Hm]. exists m, m.
    unfold ns1. rewrite lookup_insert_ne by (intros ->; done). done. }
  assert (chain ns2 n ((rn_name node, n) :: l)) as Hnew.
  { cbn [Chains.chain]. split; [done|]. exists (set_next (rn_children h) node). unfold ns2, ns1. rewrite lookup_insert_ne by done.
    rewrite lookup_insert_eq. split_and!; [done|done|]. cbn. apply Hold; [by eapply Hout|done]. }
  constructor; cbn [nodes ramfs_root set_nodes].
  - destruct Hok as [Hr Hnm Hnd' Hc Hp Hz]. 
    assert (∀ d' l', <[d := ADir ((rn_name node, n) :: l)]> (<[n := x]> t) !! d' = Some (ADir l') →
      (d' = d ∧ l' = (rn_name node, n) :: l) ∨ (d' = n ∧ l' = []) ∨ (d' ≠ d ∧ d' ≠ n ∧ t !! d' = Some (ADir l'))) as Hinv.
    { intros d' l'. destruct (decide (d' = d)) as [->|H1]; [rewrite lookup_insert_eq; intros [= <-]; auto|].
      rewrite lookup_insert_ne by done. destruct (decide (d' = n)) as [->|H2]; [|rewrite lookup_insert_ne by done; auto].
      rewrite lookup_insert_eq. intros [= ->]. destruct Hx as [(E & _)|(f & E & _)]; [|done]. injection E as ->. auto. }
    constructor.
    + destruct Hr as [lr Hr]. destruct (decide (ramfs_root s = d)) as [<-|H1]; [rewrite lookup_insert_eq; eauto|].
      exists lr. rewrite !lookup_insert_ne by congruence. done.
    + intros d' l' [[-> ->]|[[-> ->]|(_ & _ & H)]]%Hinv; [|constructor|by eapply Hnm]. constructor; [done|by eapply Hnm].
    + intros d' l' [[-> ->]|[[-> ->]|(_ & _ & H)]]%Hinv; [|constructor|by eapply Hnd']. constructor; [by eapply Hout|by eapply Hnd'].
    + assert (∀ c, is_Some (t !! c) → is_Some (<[d := ADir ((rn_name node, n) :: l)]> (<[n := x]> t) !! c)) as Hsome.
      { intros c Hc'. by rewrite !lookup_insert_is_Some'; auto. }
      intros d' l' c [[-> ->]|[[-> ->]|(_ & _ & H)]]%Hinv Hin.
      * cbn in Hin. apply elem_of_cons in Hin as [->|Hin].
        -- split; [rewrite !lookup_insert_is_Some'; auto|]. destruct Hr as [lr Hr]. congruence.
        -- destruct (Hc _ _ _ Hd Hin). auto.
      * by apply elem_of_nil in Hin.
      * destruct (Hc _ _ _ H Hin). auto.
    + intros d1 l1 d2 l2 c [[-> ->]|[[-> ->]|(_ & _ & H1)]]%Hinv [[-> ->]|[[-> ->]|(_ & _ & H2)]]%Hinv I1 I2; try done;
        try (by apply elem_of_nil in I1); try (by apply elem_of_nil in I2).
      * cbn in I1. apply elem_of_cons in I1 as [->|I1]; [by destruct (Hout _ _ H2)|by eapply Hp].
      * cbn in I2. apply elem_of_cons in I2 as [->|I2]; [by destruct (Hout _ _ H1)|by eapply Hp].
      * by eapply Hp.
    + rewrite lookup_insert_ne by congruence. rewrite lookup_insert_ne by done. done.
  - intros i y. destruct (decide (i = d)) as [->|H1].
    + rewrite lookup_insert_eq. intros [= <-]. exists (set_children n h). split; [apply lookup_insert_eq|by split].
    + rewrite lookup_insert_ne by done. destruct (decide (i = n)) as [->|H2].
      * rewrite lookup_insert_eq. intros [= ->]. exists (set_next (rn_children h) node). unfold ns2, ns1.
        rewrite lookup_insert_ne, lookup_insert_eq by done. split; [done|].
        destruct Hx as [(-> & E1 & E2)|(f & -> & E)]; [|done]. split; [done|]. by cbn.
      * rewrite lookup_insert_ne by done. intros Hi. destruct (rep_node _ _ HR _ _ Hi) as (m & Hm & Hrep). exists m.
        unfold ns2, ns1. rewrite !lookup_insert_ne by done. split; [done|]. destruct y as [ly|f]; [|done].
        destruct Hrep as [E1 E2]. split; [done|]. apply Hold; [by eapply Hout|done].
  - intros i. unfold ns2, ns1. rewrite !lookup_insert_is_Some'. intros [->|[->|Hi]]; [auto|auto|]. right. right. by apply (rep_dom _ _ HR).
Qed.

(** ** Removing a child *)
Lemma find_abs_split name l : ∀ prev0 prev cur,
  find_abs prev0 name l = Some (prev, cur) →
  ∃ l1 l2, l = l1 ++ (name, cur) :: l2 ∧ name ∉ l1.*1 ∧ (l1 = [] ∧ prev = prev0 ∨ ∃ k pn, l1 = k ++ [(pn, prev)]).
Proof.
  induction l as [|[n c] l IH]; intros prev0 prev cur; [done|]. cbn [find_abs]. destruct (decide (n = name)) as [->|Hne].
  - intros [= <- <-]. exists [], l. split; [done|]. split; [apply not_elem_of_nil|by left].
  - intros (l1 & l2 & -> & Hn & Hp)%IH. exists ((n, c) :: l1), l2. split; [done|]. split.
    + cbn. by rewrite not_elem_of_cons.
    + right. destruct Hp as [[-> ->]|(k & pn & ->)]; [by exists [], n|by exists ((n, c) :: k), pn].
Qed.
Lemma drop_entry_split name l1 l2 c :
  NoDup (l1 ++ (name, c) :: l2).*1 → drop_entry name (l1 ++ (name, c) :: l2) = l1 ++ l2.
Proof.
  intros Hn. rewrite fmap_app, fmap_cons in Hn. cbn in Hn. apply NoDup_app_cons in Hn as (H1 & H2 & _). unfold drop_entry.
  rewrite filter_app, filter_cons_False by (intros H; by apply H). f_equal; apply filter_all; intros e He E; subst name.
  - apply H1. apply list_elem_of_fmap. by exists e.
  - apply H2. apply list_elem_of_fmap. by exists e.
Qed.

Lemma chain_splice ns pn p np nm c nc l1 l2 : ∀ a,
  chain ns a (l1 ++ (pn, p) :: (nm, c) :: l2) → NoDup (l1 ++ (pn, p) :: (nm, c) :: l2).*2 → ns !! p = Some np → ns !! c = Some nc →
  chain (delete c (<[p := set_next (rn_next nc) np]> ns)) a (l1 ++ (pn, p) :: l2).
Proof.
  set (ns' := delete c _). intros a Hc Hnd Hp Hnc. rewrite fmap_app, !fmap_cons in Hnd. cbn in Hnd.
  assert (∀ x m, x ≠ p → x ≠ c → ns !! x = Some m → ns' !! x = Some m) as Hold.
  { intros x m H1 H2 H. unfold ns'. by rewrite lookup_delete_ne, lookup_insert_ne. }
  revert a Hc. induction l1 as [|[n x] l1 IH]; intros a Hc; cbn [app] in *.
  - apply NoDup_cons in Hnd as [Hp1 [Hc1 _]%NoDup_cons]. destruct Hc as [-> (n1 & Hn1 & E1 & [E2 (n2 & Hn2 & E3 & Hc)])].
    assert (n1 = np) as -> by congruence. assert (n2 = nc) as -> by congruence.
    assert (c ≠ p) as Hcp by (intros ->; apply Hp1; left). split; [done|]. exists (set_next (rn_next nc) np). split_and!.
    + unfold ns'. by rewrite lookup_delete_ne, lookup_insert_eq.
    + done.
    + cbn. apply (chain_ext _ _ ns); [|done]. intros y Hy. destruct (chain_live _ _ _ _ _ _ Hc Hy) as [m Hm]. exists m, m.
      rewrite (Hold y m); [done| |intros ->; done|done]. intros ->. apply Hp1. by right.
  - apply NoDup_cons in Hnd as [Hx Hnd]. destruct Hc as [-> (m & Hm & E & Hc)]. split; [done|]. exists m. split_and!; [|done|by apply IH].
    rewrite elem_of_app, !elem_of_cons in Hx. apply Hold; [intros ->; tauto|intros ->; tauto|done].
Qed.

(** The heap after the child is unlinked and freed. *)
Definition unlinked (ns : gmap Z rnode) (d prev cur : Z) (h nc : rnode) (np : option rnode) : gmap Z rnode :=
  delete cur (match np with
              | Some np => <[prev := set_next (rn_next nc) np]> ns
              | None => <[d := set_children (rn_next nc) h]> ns
              end).

Lemma unlink_child_ok t s d l name prev cur h nc :
  Rep t s → t !! d = Some (ADir l) → find_abs 0 name l = Some (prev, cur) → nodes s !! d = Some h → nodes s !! cur = Some nc → cur ≠ d →
  ∃ np, unlink_child d prev cur s = Some (tt, set_nodes (unlinked (nodes s) d prev cur h nc np) s) ∧
    chain (unlinked (nodes s) d prev cur h nc np) (if np is Some _ then rn_children h else rn_next nc) (drop_entry name l) ∧
    (∀ x m, x ≠ cur → nodes s !! x = Some m → ∃ m', unlinked (nodes s) d prev cur h nc np !! x = Some m' ∧ rn_name m' = rn_name m ∧
       rn_dir m' = rn_dir m ∧ rn_size m' = rn_size m ∧ rn_data m' = rn_data m ∧
       (rn_next m' = rn_next m ∨ x = prev ∧ prev ∈ l.*2) ∧
       rn_children m' = (if decide (x = d) then if np is Some _ then rn_children h else rn_next nc else rn_children m)) ∧
    (∀ x, is_Some (unlinked (nodes s) d prev cur h nc np !! x) → x ≠ cur ∧ is_Some (nodes s !! x)).
Proof.
  intros HR Hd Hf Hh Hnc Hcd. pose proof (rep_ok _ _ HR) as Hok. destruct (rep_dir _ _ HR _ _ Hd) as (h' & Hh' & _ & Hch).
  assert (h' = h) as -> by congruence. destruct (find_abs_split _ _ _ _ _ Hf) as (l1 & l2 & -> & Hname & Hp).
  pose proof (at_nodup _ _ Hok _ _ Hd) as Hnd. rewrite (drop_entry_split _ _ _ _ (at_names _ _ Hok _ _ Hd)).
  unfold unlink_child. run (ld_node_ok s _ _ Hnc). destruct Hp as [[-> ->]|(k & pn & ->)].
  - exists None. cbn [Z.eqb]. run (st_node_ok d (set_children (rn_next nc)) s h Hh). unfold kfree_node, unlinked.
    set (ns1 := <[d := set_children (rn_next nc) h]> (nodes s)).
    assert (ns1 !! cur = Some nc) as Hnc1 by (unfold ns1; by rewrite lookup_insert_ne).
    rewrite (bind_Some _ _ _ nc (set_nodes ns1 s)) by (by apply ld_node_ok). split; [done|]. cbn [app] in *. cbn [Chains.chain fmap list_fmap] in *. cbn [snd] in Hnd.
    destruct Hch as [_ (n0 & Hn0 & _ & Hc)]. assert (n0 = nc) as -> by congruence. apply NoDup_cons in Hnd as [Hnd _]. split.
    + apply (chain_ext _ _ ns1).
      * intros x Hx. destruct (chain_live _ _ _ _ _ _ Hc Hx) as [m Hm]. destruct (decide (x = d)) as [->|Hxd].
        -- exists (set_children (rn_next nc) h), (set_children (rn_next nc) h). unfold ns1. rewrite lookup_delete_ne, lookup_insert_eq by done. done.
        -- exists m, m. unfold ns1. rewrite lookup_delete_ne by (intros ->; done). rewrite lookup_insert_ne by done. done.
      * by eapply (chain_update _ _ (nodes s) d h).
    + split; [intros x m Hx Hm; destruct (decide (x = d)) as [->|Hxd]|].
      * exists (set_children (rn_next nc) h). unfold ns1. rewrite lookup_delete_ne, lookup_insert_eq by done. assert (m = h) as -> by congruence. cbn. auto 10.
      * exists m. unfold ns1. rewrite lookup_delete_ne, lookup_insert_ne by done. auto 10.
      * intros x [m [Hx Hm]%lookup_delete_Some]. split; [done|]. unfold ns1 in Hm. apply (mk_is_Some _ m) in Hm.
        apply lookup_insert_is_Some' in Hm as [<-|Hm]; [by exists h|done].
  - assert (prev ∈ ((k ++ [(pn, prev)]) ++ (name, cur) :: l2).*2) as Hpin.
    { rewrite !fmap_app. cbn. rewrite !elem_of_app. left. right. left. }
    destruct (chain_live _ _ _ _ _ _ Hch Hpin) as [np Hnp].
    rewrite <- app_assoc in Hch, Hnd |- *. cbn [app] in *.
    assert (prev ≠ 0) as Hp0.
    { intros ->. by eapply (rep_zero _ _ HR _ _ Hd). }
    assert (cur ≠ prev) as Hcp.
    { intros ->. rewrite fmap_app in Hnd. cbn in Hnd. apply NoDup_app in Hnd as (_ & _ & Hnd). apply NoDup_cons in Hnd as [Hnd _]. apply Hnd. left. }
    exists (Some np). rewrite (proj2 (Z.eqb_neq _ _)) by done. run (st_node_ok prev (set_next (rn_next nc)) s np Hnp). unfold kfree_node, unlinked.
    set (ns1 := <[prev := set_next (rn_next nc) np]> (nodes s)).
    assert (ns1 !! cur = Some nc) as Hnc1 by (unfold ns1; by rewrite lookup_insert_ne).
    rewrite (bind_Some _ _ _ nc (set_nodes ns1 s)) by (by apply ld_node_ok). split; [done|]. split; [by eapply chain_splice|].
    split; [intros x m Hx Hm; destruct (decide (x = prev)) as [->|Hxp]|].
    + exists (set_next (rn_next nc) np). unfold ns1. rewrite lookup_delete_ne, lookup_insert_eq by done. assert (m = np) as -> by congruence. cbn.
      split_and!; try done; [by right|]. destruct (decide (prev = d)) as [->|]; [congruence|done].
    + exists m. unfold ns1. rewrite lookup_delete_ne, lookup_insert_ne by done. split_and!; try done; [by left|].
      destruct (decide (x = d)) as [->|]; [congruence|done].
    + intros x [m [Hx Hm]%lookup_delete_Some]. split; [done|]. unfold ns1 in Hm. apply (mk_is_Some _ m) in Hm.
      apply lookup_insert_is_Some' in Hm as [<-|Hm]; [by exists np|done].
Qed.

Lemma elem_drop_entry name l e : e ∈ drop_entry name l → e ∈ l.
Proof. unfold drop_entry. by intros [_ H]%list_elem_of_filter. Qed.
(** The tree without one entry. *)
Definition aremove (t : atree) (d : Z) (l : list (list Z * Z)) (name : list Z) (c : Z) : atree :=
  <[d := ADir (drop_entry name l)]> (delete c t).
Lemma drop_entry_sub name l : sublist (drop_entry name l) l.
Proof. apply sublist_filter. Qed.
Lemma aremove_ok t root d l name c :
  atree_ok t root → t !! d = Some (ADir l) → assoc name l = Some c → c ≠ d → atree_ok (aremove t d l name c) root.
Proof.
  intros [Hr Hnm Hnd Hch Hp Hz] Hd Hc Hcd. pose proof (assoc_elem _ _ _ Hc) as Hin. unfold aremove.
  assert (c ∈ l.*2) as Hc2 by (apply list_elem_of_fmap; by exists (name, c)).
  destruct (Hch _ _ _ Hd Hc2) as [_ Hcr].
  assert (∀ d' l', <[d := ADir (drop_entry name l)]> (delete c t) !! d' = Some (ADir l') →
    ∃ l0, t !! d' = Some (ADir l0) ∧ sublist l' l0 ∧ (d' = d → l' = drop_entry name l)) as Hinv.
  { intros d' l'. destruct (decide (d' = d)) as [->|H1].
    - rewrite lookup_insert_eq. intros [= <-]. exists l. split; [done|]. split; [apply drop_entry_sub|done].
    - rewrite lookup_insert_ne by done. intros [_ H]%lookup_delete_Some. by exists l'. }
  assert (∀ l', sublist l' (drop_entry name l) → c ∉ l'.*2) as Hout.
  { intros l' Hs Hx. assert (c ∈ (drop_entry name l).*2) as ([n x] & E & Hy)%list_elem_of_fmap.
    { eapply sublist_subseteq; [|exact Hx]. by apply fmap_sublist. }
    cbn in E. subst x. pose proof (elem_drop_entry _ _ _ Hy) as Hy'. unfold drop_entry in Hy. apply list_elem_of_filter in Hy as [Hne _].
    cbn in Hne. apply Hne. apply list_elem_of_lookup in Hy' as [i Hi], Hin as [j Hj].
    assert (i = j) as ->.
    { eapply (NoDup_lookup l.*2 i j c); [by apply (Hnd d)| |]; by rewrite list_lookup_fmap, ?Hi, ?Hj. }
    congruence. }
  constructor.
  - destruct Hr as [lr Hr]. destruct (decide (root = d)) as [->|H1]; [rewrite lookup_insert_eq; eauto|].
    exists lr. rewrite lookup_insert_ne, lookup_delete_ne by congruence. done.
  - intros d' l' (l0 & H0 & Hs & _)%Hinv. eapply sublist_NoDup; [by apply (Hnm d' l0)|]. by apply fmap_sublist.
  - intros d' l' (l0 & H0 & Hs & _)%Hinv. eapply sublist_NoDup; [by apply (Hnd d' l0)|]. by apply fmap_sublist.
  - intros d' l' x (l0 & H0 & Hs & He)%Hinv Hx. assert (x ∈ l0.*2) as Hx0 by (eapply sublist_subseteq; [by apply fmap_sublist|done]).
    destruct (Hch _ _ _ H0 Hx0) as [Hsome Hne]. split; [|done]. rewrite lookup_insert_is_Some'. right. rewrite lookup_delete_ne; [done|].
    intros ->. assert (d' = d) as -> by (by eapply Hp). rewrite He in Hx by done. by apply (Hout (drop_entry name l)).
  - intros d1 l1 d2 l2 x (k1 & H1 & S1 & _)%Hinv (k2 & H2 & S2 & _)%Hinv I1 I2.
    eapply (Hp d1 k1 d2 k2 x); [done|done| |]; (eapply sublist_subseteq; [by apply fmap_sublist|done]).
  - rewrite lookup_insert_ne by (intros ->; congruence). destruct (decide (c = 0)) as [->|]; [apply lookup_delete_eq|by rewrite lookup_delete_ne].
Qed.

Lemma Rep_unlink t s d l name prev cur h nc :
  Rep t s → t !! d = Some (ADir l) → find_abs 0 name l = Some (prev, cur) → nodes s !! d = Some h → nodes s !! cur = Some nc → cur ≠ d →
  ∃ s', unlink_child d prev cur s = Some (tt, s') ∧ Rep (aremove t d l name cur) s' ∧ rmem s' = rmem s.
Proof.
  intros HR Hd Hf Hh Hnc Hcd. pose proof (rep_ok _ _ HR) as Hok.
  assert (assoc name l = Some cur) as Has by (by rewrite <- (find_abs_assoc 0), Hf).
  destruct (unlink_child_ok t s d l name prev cur h nc HR Hd Hf Hh Hnc Hcd) as (np & R & Hch & Hold & Hdom).
  eexists. split; [exact R|]. split; [|done]. set (ns' := unlinked _ _ _ _ _ _ _) in *.
  pose proof (aremove_ok _ _ _ _ _ _ Hok Hd Has Hcd) as Hok'.
  assert (cur ∈ l.*2) as Hc2 by (apply list_elem_of_fmap; exists (name, cur); split; [done|by apply assoc_elem]).
  constructor; cbn [nodes ramfs_root set_nodes]; [done| |].
  - intros i x Hi. destruct (decide (i = d)) as [->|Hid].
    + unfold aremove in Hi. rewrite lookup_insert_eq in Hi. injection Hi as <-.
      destruct (Hold d h ltac:(done) Hh) as (m' & Hm' & E1 & E2 & E3 & E4 & E5 & E6). exists m'. split; [done|]. split.
      * rewrite E2. by destruct (rep_dir _ _ HR _ _ Hd) as (h' & Hh' & E & _); simplify_eq.
      * rewrite E6, decide_True by done. done.
    + unfold aremove in Hi. rewrite lookup_insert_ne in Hi by done. apply lookup_delete_Some in Hi as [Hic Hi].
      destruct (rep_node _ _ HR _ _ Hi) as (m & Hm & Hrep).
      destruct (Hold i m ltac:(done) Hm) as (m' & Hm' & E1 & E2 & E3 & E4 & E5 & E6). exists m'. split; [done|].
      rewrite decide_False in E6 by done. destruct x as [li|f]; cbn [node_rep] in *; rewrite E2, ?E3, ?E4, ?E6; [|done].
      destruct Hrep as [F1 F2]. split; [done|]. apply (chain_ext _ _ (nodes s)); [|done]. intros c Hc.
      destruct (chain_live _ _ _ _ _ _ F2 Hc) as [mc Hmc].
      assert (c ≠ cur) as Hcc by (intros ->; by eapply Hid, (at_parent _ _ Hok)).
      destruct (Hold c mc Hcc Hmc) as (mc' & Hmc' & G1 & _ & _ & _ & G5 & _). exists mc, mc'. split_and!; [done|done|done|].
      destruct G5 as [G5|[-> G5]]; [done|]. destruct Hid. by eapply (at_parent _ _ Hok).
  - intros i Hi. destruct (Hdom i Hi) as [Hic Hs]. unfold aremove. rewrite lookup_insert_is_Some'. right.
    rewrite lookup_delete_ne by done. by apply (rep_dom _ _ HR).
Qed.
