(* ===== verification/RamfsThms.v ===== *)
(** * ramfs implements a tree of directories and byte arrays. *)
From S2P Require Import Prelude Bytes Chains Ramfs RamfsInv.
Local Open Scope Z_scope.
Local Open Scope kernel_scope.

(** ** The abstract operations *)
(** A tree with the coming answers of the allocator. *)
Notation answers := (list (option (Z * list Z))).
Definition pop (mem : answers) : option (Z * list Z) * answers := match mem with [] => (None, []) | r :: m => (r, m) end.

Definition a_new (is_dir : bool) (d : Z) (name : list Z) (t : atree) (mem : answers) : Z * atree * answers :=
  match t !! d with
  | Some (ADir l) =>
      if decide (name ∈ l.*1) then (-1, t, mem) else
      let (r1, m1) := pop mem in
      match r1 with
      | None => (-1, t, m1)
      | Some (n, _) =>
          let (r2, m2) := pop m1 in
          match r2 with
          | None => (-1, t, m2)
          | Some _ => (0, <[d := ADir ((name, n) :: l)]> (<[n := if is_dir then ADir [] else AFile []]> t), m2)
          end
      end
  | _ => (-1, t, mem)
  end.
Definition a_unlink (d : Z) (name : list Z) (t : atree) : Z * atree :=
  match t !! d with
  | Some (ADir l) =>
      match assoc name l with
      | Some c => match t !! c with Some (AFile _) => (0, aremove t d l name c) | _ => (-1, t) end
      | None => (-1, t)
      end
  | _ => (-1, t)
  end.
Definition a_rmdir (d : Z) (name : list Z) (t : atree) : Z * atree :=
  match t !! d with
  | Some (ADir l) =>
      match assoc name l with
      | Some c => match t !! c with Some (ADir []) => (0, aremove t d l name c) | _ => (-1, t) end
      | None => (-1, t)
      end
  | _ => (-1, t)
  end.
(** The bytes from [o], at most [n]. *)
Definition a_read (data : list Z) (n o : Z) : list Z := take (Z.to_nat n) (drop (Z.to_nat o) data).
(** Writing beyond the end grows the file; what lies between is whatever the
    new buffer held. *)
Definition a_grow (data junk : list Z) (size : Z) : list Z :=
  if Z.of_nat (length data) <? size then data ++ drop (length data) (buffer junk size) else data.
Definition a_write (data junk buf : list Z) (o : Z) : list Z :=
  let base := a_grow data junk (o + Z.of_nat (length buf)) in
  take (Z.to_nat o) base ++ buf ++ drop (Z.to_nat o + length buf) base.

(** The coming address is not a live node. *)
Definition next_fresh (s : ramfs) : Prop :=
  match rmem s with Some (n, _) :: _ => n ≠ 0 ∧ nodes s !! n = None | _ => True end.

(** ** Lookup, creation and removal *)
Lemma kmalloc_pop s :
  kmalloc s = Some ((pop (rmem s)).1, mk_ramfs (nodes s) (ramfs_root s) (pop (rmem s)).2).
Proof. destruct s as [h r [|x m]]; done. Qed.
Lemma Rep_rmem t s m : Rep t s → Rep t (mk_ramfs (nodes s) (ramfs_root s) m).
Proof. by intros []. Qed.

Lemma Rep_update t s i n n' x :
  Rep t s → nodes s !! i = Some n → rn_name n' = rn_name n → rn_next n' = rn_next n → 
  (∀ ns, node_rep ns n' x) ∨ (t !! i = Some x ∧ rn_dir n' = rn_dir n ∧ rn_children n' = rn_children n ∧ rn_size n' = rn_size n ∧ rn_data n' = rn_data n) →
  (∃ f, t !! i = Some (AFile f) ∧ (∃ g, x = AFile g)) ∨ t !! i = Some x →
  Rep (<[i := x]> t) (set_nodes (<[i := n']> (nodes s)) s).
Proof.
  intros HR Hi En Ex Hx Hk. pose proof (rep_ok _ _ HR) as [Hr Hnm Hnd Hch Hp Hz].
  assert (is_Some (t !! i)) as Hsome by (apply (rep_dom _ _ HR); eauto).
  assert (∀ d l, <[i := x]> t !! d = Some (ADir l) ↔ t !! d = Some (ADir l)) as Hinv.
  { intros d l. destruct (decide (d = i)) as [->|]; [|by rewrite lookup_insert_ne]. rewrite lookup_insert_eq.
    destruct Hk as [(f & -> & g & ->)| ->]; [split; congruence|done]. }
  assert (∀ c, is_Some (<[i := x]> t !! c) ↔ is_Some (t !! c)) as Hdom.
  { intros c. rewrite lookup_insert_is_Some'. split; [intros [<-|]; done|by right]. }
  constructor; cbn [nodes ramfs_root set_nodes].
  - constructor.
    + destruct Hr as [l Hr]. exists l. by apply Hinv.
    + intros d l H%Hinv. by apply (Hnm d).
    + intros d l H%Hinv. by apply (Hnd d).
    + intros d l c H%Hinv Hc. rewrite Hdom. by eapply Hch.
    + intros d1 l1 d2 l2 c H1%Hinv H2%Hinv. by apply (Hp d1 l1 d2 l2 c).
    + destruct (decide (i = 0)) as [->|]; [destruct Hsome as [y Hy]; congruence|by rewrite lookup_insert_ne].
  - intros j y. destruct (decide (j = i)) as [->|Hj].
    + rewrite lookup_insert_eq. intros [= <-]. exists n'. rewrite lookup_insert_eq. split; [done|].
      destruct Hx as [Hx|(Ht & E1 & E2 & E3 & E4)]; [apply Hx|]. destruct (rep_node _ _ HR _ _ Ht) as (n0 & Hn0 & Hrep).
      assert (n0 = n) as -> by congruence. eapply node_rep_update in Hrep; [|exact Hi|exact En|exact Ex].
      destruct x; cbn in *; rewrite E1, ?E2, ?E3, ?E4; done.
    + rewrite lookup_insert_ne by done. intros Hy. destruct (rep_node _ _ HR _ _ Hy) as (m & Hm & Hrep). exists m.
      rewrite lookup_insert_ne by done. split; [done|]. by eapply node_rep_update.
  - intros j. rewrite lookup_insert_is_Some', Hdom. intros [<-|H]; [done|by apply (rep_dom _ _ HR)].
Qed.

Lemma ramfs_lookup_refines t s d l name de :
  Rep t s → t !! d = Some (ADir l) →
  ∃ s', ramfs_lookup d name de s = Some (assoc name l, s') ∧ Rep t s' ∧ rmem s' = rmem s.
Proof.
  intros HR Hd. unfold ramfs_lookup. run (child_of_ok _ _ HR d l name Hd). rewrite <- (find_abs_assoc 0).
  destruct (find_abs 0 name l) as [[prev c]|] eqn:E; [|by exists s]. cbn.
  destruct (find_abs_split _ _ _ _ _ E) as (l1 & l2 & El & _). destruct (rep_dir _ _ HR _ _ Hd) as (h & _ & _ & Hch).
  assert (c ∈ l.*2) as Hc by (rewrite El, fmap_app; cbn; apply elem_of_app; right; left).
  destruct (chain_live _ _ _ _ _ _ Hch Hc) as [n Hn]. run (st_node_ok c (set_dentry de) s n Hn).
  destruct (rep_dom _ _ HR c ltac:(eauto)) as [x Hx].
  eexists. split; [reflexivity|]. split; [|done]. rewrite <- (insert_id t c x) by done. eapply Rep_update; [done|exact Hn|done|done| |by right].
  right. done.
Qed.

Lemma link_child_ok s d n node h :
  nodes s !! d = Some h → d ≠ n →
  link_child d n node s = Some (tt, set_nodes (<[d := set_children n h]> (<[n := set_next (rn_children h) node]> (nodes s))) s).
Proof.
  intros Hh Hdn. unfold link_child. run (ld_node_ok s d h Hh). rewrite bind_modify.
  apply (st_node_ok d (set_children n) (set_nodes _ s) h). cbn. by rewrite lookup_insert_ne.
Qed.
Lemma new_child_refines t s is_dir d x name :
  Rep t s → t !! d = Some x → next_fresh s →
  ∃ s', new_child d name is_dir s = Some ((a_new is_dir d name t (rmem s)).1.1, s') ∧
    Rep (a_new is_dir d name t (rmem s)).1.2 s' ∧ rmem s' = (a_new is_dir d name t (rmem s)).2.
Proof.
  intros HR Hd Hf. destruct (rep_node _ _ HR _ _ Hd) as (h & Hh & Hrep). unfold new_child, a_new.
  run (ld_node_ok s d h Hh). rewrite Hd. destruct x as [l|f].
  2: { destruct Hrep as [-> _]. by exists s. }
  pose proof Hrep as [-> _]. cbn [negb]. run (child_of_ok _ _ HR d l name Hd).
  destruct (decide (name ∈ l.*1)) as [Hin|Hin].
  - destruct (find_abs 0 name l) as [[prev c]|] eqn:E; [by exists s|]. exfalso.
    assert (assoc name l = None) as Hn by (by rewrite <- (find_abs_assoc 0), E). by apply assoc_None in Hn.
  - apply assoc_None in Hin. rewrite <- (find_abs_assoc 0) in Hin. destruct (find_abs 0 name l) as [[prev c]|] eqn:E; [done|].
    run (kmalloc_pop s). destruct (pop (rmem s)) as [r1 m1] eqn:E1. cbn [fst snd].
    destruct r1 as [[n junk]|]; [|eexists; split; [reflexivity|]; split; [exact (Rep_rmem _ _ _ HR)|done]].
    set (s1 := mk_ramfs (nodes s) (ramfs_root s) m1). run (kmalloc_pop s1). change (rmem s1) with m1. destruct (pop m1) as [r2 m2]. cbn [fst snd].
    destruct r2 as [r2|]; [|eexists; split; [reflexivity|]; split; [exact (Rep_rmem _ _ _ HR)|done]].
    set (s2 := mk_ramfs (nodes s1) (ramfs_root s1) m2).
    assert (n ≠ 0 ∧ nodes s !! n = None) as [Hn0 Hn].
    { unfold next_fresh in Hf. destruct (rmem s) as [|r m]; [done|]. cbn in E1. injection E1 as -> ->. done. }
    assert (d ≠ n) as Hdn by congruence.
    run (link_child_ok s2 d n (mk_rn name is_dir 0 0 0 0 None) h Hh Hdn).
    eexists. split; [reflexivity|]. split; [|done].
    apply (Rep_link t s2 d l h n (mk_rn name is_dir 0 0 0 0 None) (if is_dir then ADir [] else AFile []));
      [exact (Rep_rmem _ _ _ HR)|done|done|done|done| |].
    + apply assoc_None. cbn [rn_name]. by rewrite <- (find_abs_assoc 0), E.
    + destruct is_dir; [by left|right]. exists []. split; [done|]. split; [done|]. cbn. split; [done|]. split; [lia|]. by exists [].
Qed.

(** What unlink and rmdir share: the leaf is taken out, or nothing changes. *)
Lemma remove_leaf t s d l name prev cur nc :
  Rep t s → t !! d = Some (ADir l) → find_abs 0 name l = Some (prev, cur) → nodes s !! cur = Some nc → cur ≠ d →
  ∃ s', (unlink_child d prev cur ;;; ret 0)%kernel s = Some (0, s') ∧ Rep (aremove t d l name cur) s' ∧ rmem s' = rmem s.
Proof.
  intros HR Hd Hf Hnc Hcd. destruct (rep_dir _ _ HR _ _ Hd) as (h & Hh & _).
  destruct (Rep_unlink t s d l name prev cur h nc HR Hd Hf Hh Hnc Hcd) as (s' & R & HR' & Hm). exists s'. by run R.
Qed.

Lemma ramfs_unlink_refines t s d x name :
  Rep t s → t !! d = Some x →
  ∃ s', ramfs_unlink d name s = Some ((a_unlink d name t).1, s') ∧ Rep (a_unlink d name t).2 s' ∧ rmem s' = rmem s.
Proof.
  intros HR Hd. destruct (rep_node _ _ HR _ _ Hd) as (h & Hh & Hrep). unfold ramfs_unlink, a_unlink.
  run (ld_node_ok s d h Hh). rewrite Hd. destruct x as [l|f]; [|destruct Hrep as [-> _]; by exists s].
  pose proof Hrep as [-> Hch]. cbn [negb]. run (child_of_ok _ _ HR d l name Hd). rewrite <- (find_abs_assoc 0).
  destruct (find_abs 0 name l) as [[prev c]|] eqn:E; [|by exists s]. cbn [fmap option_fmap option_map snd].
  destruct (find_abs_split _ _ _ _ _ E) as (l1 & l2 & El & _).
  assert (c ∈ l.*2) as Hc by (rewrite El, fmap_app; cbn; apply elem_of_app; right; left).
  destruct (at_child _ _ (rep_ok _ _ HR) _ _ _ Hd Hc) as [[y Hy] _]. destruct (rep_node _ _ HR _ _ Hy) as (nc & Hnc & Hrc).
  run (ld_node_ok s c nc Hnc). rewrite Hy. destruct y as [ly|f]; destruct Hrc as [-> _]; [by exists s|].
  apply (remove_leaf t s d l name prev c nc HR Hd E Hnc). congruence.
Qed.
Lemma ramfs_rmdir_refines t s d x name :
  Rep t s → t !! d = Some x →
  ∃ s', ramfs_rmdir d name s = Some ((a_rmdir d name t).1, s') ∧ Rep (a_rmdir d name t).2 s' ∧ rmem s' = rmem s.
Proof.
  intros HR Hd. destruct (rep_node _ _ HR _ _ Hd) as (h & Hh & Hrep). unfold ramfs_rmdir, a_rmdir.
  run (ld_node_ok s d h Hh). rewrite Hd. destruct x as [l|f]; [|destruct Hrep as [-> _]; by exists s].
  pose proof Hrep as [-> Hch]. cbn [negb]. run (child_of_ok _ _ HR d l name Hd). rewrite <- (find_abs_assoc 0).
  destruct (find_abs 0 name l) as [[prev c]|] eqn:E; [|by exists s]. cbn [fmap option_fmap option_map snd].
  destruct (find_abs_split _ _ _ _ _ E) as (l1 & l2 & El & _).
  assert (c ∈ l.*2) as Hc by (rewrite El, fmap_app; cbn; apply elem_of_app; right; left).
  destruct (at_child _ _ (rep_ok _ _ HR) _ _ _ Hd Hc) as [[y Hy] _]. destruct (rep_node _ _ HR _ _ Hy) as (nc & Hnc & Hrc).
  run (ld_node_ok s c nc Hnc). rewrite Hy. destruct y as [ly|f]; pose proof Hrc as [-> Hrc2]; cbn [negb]; [|by exists s].
  destruct ly as [|[nm k] ly]; cbn [Chains.chain] in Hrc2.
  - rewrite Hrc2. cbn [Z.eqb negb]. apply (remove_leaf t s d l name prev c nc HR Hd E Hnc). intros ->.
    rewrite Hd in Hy. injection Hy as ->. by apply elem_of_nil in Hc.
  - destruct Hrc2 as [Hk (m & Hm & _)]. rewrite Hk. rewrite (proj2 (Z.eqb_neq _ _)); [by exists s|]. intros ->.
    eapply (rep_zero _ _ HR _ _ Hy). left.
Qed.

(** ** Reading and writing *)
Lemma length_buffer junk n : 0 ≤ n → Z.of_nat (length (buffer junk n)) = n.
Proof. intros Hn. unfold buffer. rewrite length_take, length_app, length_replicate. lia. Qed.

Lemma ramfs_read_refines t s i data n o :
  Rep t s → t !! i = Some (AFile data) → 0 ≤ o < 2 ^ 63 → 0 ≤ n → o + n < 2 ^ 64 →
  let out := a_read data n o in
  ramfs_read i n o s = Some (Z.of_nat (length out), out, o + Z.of_nat (length out), s).
Proof.
  intros HR Hi Ho Hn Hon out. destruct (rep_node _ _ HR _ _ Hi) as (m & Hm & _ & Hsz & Hmax & rest & Hd).
  unfold ramfs_read. run (ld_node_ok s i m Hm). rewrite Hsz in *. set (L := Z.of_nat (length data)) in *.
  assert (i64 L = L) as -> by (unfold i64; rewrite Z.mod_small by lia; lia).
  assert (Z.of_nat (length out) = Z.max 0 (Z.min n (L - o))) as Hout.
  { unfold out, a_read. rewrite length_take, length_drop. lia. }
  destruct (Z.leb_spec L o) as [Hle|Hlt].
  { assert (out = []) as E by (unfold out, a_read; rewrite drop_ge by lia; apply take_nil). rewrite E. cbn. by rewrite Z.add_0_r. }
  assert (u64 o = o) as -> by (apply Z.mod_small; lia). assert (u64 (o + n) = o + n) as -> by (apply Z.mod_small; lia).
  set (k := if L <? o + n then u64 (L - o) else n). assert (k = Z.of_nat (length out)) as Hk.
  { unfold k. destruct (Z.ltb_spec L (o + n)); [|lia]. unfold u64. rewrite Z.mod_small; lia. }
  assert (take (Z.to_nat k) (drop (Z.to_nat o) (data ++ rest)) = out) as Hcopy.
  { rewrite drop_app_le by lia. rewrite take_app_le by (rewrite length_drop; lia). rewrite Hk, Nat2Z.id. unfold out, a_read.
    set (w := drop _ _). rewrite length_take. destruct (decide (Z.to_nat n ≤ length w)%nat); [f_equal; lia|by rewrite !take_ge by lia]. }
  destruct (Z.eqb_spec k 0) as [E|E].
  { assert (out = []) as -> by (apply nil_length_inv; lia). cbn. by rewrite Z.add_0_r. }
  destruct (rn_data m) as [d|]; cbn in Hd.
  - subst d. rewrite length_app, !(proj2 (Z.leb_le _ _)) by lia. cbn [andb]. rewrite Hcopy, Hk. unfold ret. do 4 f_equal.
    unfold i64. rewrite Z.mod_small by lia. lia.
  - exfalso. assert (data = []) as -> by (by destruct data). cbn in *. lia.
Qed.

Definition a_put (data : list Z) (o : Z) (buf : list Z) : list Z :=
  take (Z.to_nat o) data ++ buf ++ drop (Z.to_nat o + length buf) data.
(** Patching the file's buffer patches the file and keeps what follows it. *)
Lemma a_put_app data rest o buf :
  0 ≤ o → o + Z.of_nat (length buf) ≤ Z.of_nat (length data) → a_put (data ++ rest) o buf = a_put data o buf ++ rest.
Proof.
  intros H1 H2. unfold a_put. rewrite take_app_le, drop_app_le by lia. by rewrite <- !app_assoc.
Qed.
Lemma length_a_put data o buf :
  0 ≤ o → o + Z.of_nat (length buf) ≤ Z.of_nat (length data) → length (a_put data o buf) = length data.
Proof. intros H1 H2. unfold a_put. rewrite !length_app, length_take, length_drop. lia. Qed.

(** The second half of ramfs_write, on a file large enough. *)
Lemma write_in_place t s i data o buf :
  Rep t s → t !! i = Some (AFile data) → 0 ≤ o → buf ≠ [] → o + Z.of_nat (length buf) ≤ Z.of_nat (length data) →
  ∃ s', (n <- ld_node i ;;
         match rn_data n with
         | None => fail
         | Some d =>
             match patch d o buf with
             | None => fail
             | Some d => st_node i (set_data (rn_size n) (Some d)) ;;; ret (Z.of_nat (length buf), o + Z.of_nat (length buf))
             end
         end)%kernel s = Some ((Z.of_nat (length buf), o + Z.of_nat (length buf)), s') ∧
    Rep (<[i := AFile (a_put data o buf)]> t) s' ∧ rmem s' = rmem s.
Proof.
  intros HR Hi Ho Hb Hfit. destruct (rep_node _ _ HR _ _ Hi) as (n & Hn & Hdir & Hsz & Hmax & rest & Hd).
  assert (0 < length buf)%nat as Hbl by (by destruct buf; [|cbn; lia]).
  run (ld_node_ok s i n Hn). destruct (rn_data n) as [d|] eqn:Ed; cbn in Hd.
  2: { destruct data; [cbn in Hfit; lia|done]. }
  subst d. rewrite patch_fits by (rewrite ?length_app; lia). change (take _ _ ++ _) with (a_put (data ++ rest) o buf).
  rewrite a_put_app by done. run (st_node_ok i (set_data (rn_size n) (Some (a_put data o buf ++ rest))) s n Hn).
  eexists. split; [reflexivity|]. split; [|done]. eapply Rep_update; [done|exact Hn|done|done| |left; eauto].
  left. intros ns. cbn. rewrite length_a_put by done. split; [done|]. split; [done|]. split; [done|]. by exists rest.
Qed.

Lemma a_grow_long data junk size : 0 ≤ size → size ≤ Z.of_nat (length (a_grow data junk size)).
Proof.
  intros H0. unfold a_grow. pose proof (length_buffer junk size H0). destruct (Z.ltb_spec (Z.of_nat (length data)) size); [|lia].
  rewrite length_app, length_drop. lia.
Qed.

(** The result of a write of [buf] at [o]: [None] when the allocator refuses. *)
Definition write_result (t : atree) (i : Z) (data buf : list Z) (o : Z) (mem : answers) : Z * Z * atree * answers :=
  if decide (buf = []) then (0, o, t, mem) else
  let n := Z.of_nat (length buf) in
  if Z.of_nat (length data) <? o + n then
    match pop mem with
    | (None, mem) => (-1, o, t, mem)
    | (Some (_, junk), mem) => (n, o + n, <[i := AFile (a_write data junk buf o)]> t, mem)
    end
  else (n, o + n, <[i := AFile (a_write data [] buf o)]> t, mem).

Lemma ramfs_write_refines t s i data buf o :
  Rep t s → t !! i = Some (AFile data) → 0 ≤ o → o + Z.of_nat (length buf) < 2 ^ 63 →
  let r := write_result t i data buf o (rmem s) in
  ∃ s', ramfs_write i buf o s = Some (r.1.1, s') ∧ Rep r.1.2 s' ∧ rmem s' = r.2.
Proof.
  intros HR Hi Ho Hon r. destruct (rep_node _ _ HR _ _ Hi) as (n & Hn & Hdir & Hsz & Hmax & rest & Hd).
  unfold r, write_result, ramfs_write. clear r. run (ld_node_ok s i n Hn). rewrite (proj2 (Z.ltb_ge o 0)) by lia.
  destruct (decide (buf = [])) as [->|Hb]; [by exists s|].
  assert (0 < length buf)%nat as Hbl by (by destruct buf; [|cbn; lia]).
  rewrite (proj2 (Z.eqb_neq _ _)) by lia. rewrite (proj2 (Z.ltb_ge (2 ^ 64 - 1 - _) o)) by lia. rewrite Hsz.
  destruct (Z.ltb_spec (Z.of_nat (length data)) (o + Z.of_nat (length buf))) as [Hlt|Hge].
  - unfold bind at 1. run (kmalloc_pop s). destruct (pop (rmem s)) as [[[a junk]|] m]; cbn [fst snd].
    2: { eexists. split; [reflexivity|]. split; [by apply Rep_rmem|done]. }
    set (N := o + Z.of_nat (length buf)) in *. pose proof (length_buffer junk N ltac:(lia)) as HL.
    rewrite Nat2Z.id, Hd, take_app_length. rewrite patch_fits by lia. cbn [Z.to_nat take app].
    change (Pos.to_nat 1) with 1%nat. replace (Z.to_nat 0 + length data)%nat with (length data) by done.
    set (s1 := mk_ramfs (nodes s) (ramfs_root s) m).
    assert (a_grow data junk N = data ++ drop (length data) (buffer junk N)) as Eg.
    { unfold a_grow. by rewrite (proj2 (Z.ltb_lt _ _)) by lia. }
    rewrite <- Eg. run (st_node_ok i (set_data N (Some (a_grow data junk N))) s1 n Hn). cbn [negb].
    pose proof (a_grow_long data junk N ltac:(lia)) as Hgl.
    assert (Z.of_nat (length (a_grow data junk N)) = N) as HgN by (rewrite Eg, length_app, length_drop; lia).
    set (s2 := set_nodes (<[i := set_data N (Some (a_grow data junk N)) n]> (nodes s1)) s1).
    assert (Rep (<[i := AFile (a_grow data junk N)]> t) s2) as HR2.
    { eapply (Rep_update t s1); [by apply Rep_rmem|exact Hn|done|done| |left; eauto]. left. intros ns. cbn.
      split; [done|]. split; [done|]. split; [lia|]. exists []. by rewrite app_nil_r. }
    destruct (write_in_place _ s2 i (a_grow data junk N) o buf HR2) as (s3 & R3 & HR3 & Hm3); [apply lookup_insert_eq|done|done|lia|].
    exists s3. split; [exact R3|]. rewrite insert_insert_eq in HR3. split; [|done]. exact HR3.
  - rewrite bind_ret_l. cbn [negb].
    destruct (write_in_place t s i data o buf HR Hi Ho Hb Hge) as (s' & R & HR' & Hm). exists s'. split; [exact R|]. split; [|done].
    cbn [fst snd]. unfold a_write, a_grow. by rewrite (proj2 (Z.ltb_ge _ _)) by lia.
Qed.

(** ** Creation and initial files *)
Lemma ramfs_create_ok s h jh sb m :
  nodes s = ∅ → rmem s = Some (h, jh) :: Some sb :: m → h ≠ 0 →
  ∃ s', ramfs_create s = Some (true, s') ∧ Rep {[h := ADir []]} s' ∧ ramfs_root s' = h ∧ rmem s' = m.
Proof.
  intros He Hm Hh. unfold ramfs_create. run (kmalloc_pop s). rewrite Hm. cbn [pop fst snd].
  set (s1 := mk_ramfs _ _ _). run (kmalloc_pop s1). cbn [pop fst snd s1 rmem]. eexists. split; [reflexivity|].
  subst s1; cbn [nodes ramfs_root rmem]. rewrite He, insert_empty. split; [|done].
  assert (∀ d l, ({[h := ADir []]} : atree) !! d = Some (ADir l) → d = h ∧ l = []) as Hinv.
  { intros d l [<- [= <-]]%lookup_singleton_Some. done. }
  constructor; cbn [nodes ramfs_root].
  - constructor.
    + exists []. apply lookup_singleton_eq.
    + intros d l [_ ->]%Hinv. constructor.
    + intros d l [_ ->]%Hinv. constructor.
    + intros d l c [_ ->]%Hinv Hc%elem_of_nil. done.
    + intros d1 l1 d2 l2 c [_ ->]%Hinv _ Hc%elem_of_nil. done.
    + by apply lookup_singleton_ne.
  - intros i x [<- <-]%lookup_singleton_Some. eexists. split; [apply lookup_singleton_eq|done].
  - intros i [n [<- _]%lookup_singleton_Some]. rewrite lookup_singleton_eq. eauto.
Qed.

Definition a_add (name data : list Z) (root : Z) (t : atree) (mem : answers) : Z * atree * answers :=
  match t !! root with
  | Some (ADir l) =>
      if decide (name ∈ l.*1) then (-1, t, mem) else
      match pop mem with
      | (None, m1) => (-1, t, m1)
      | (Some (n, _), m1) =>
          match pop m1 with
          | (None, m2) => (-1, t, m2)
          | (Some _, m2) =>
              match pop m2 with
              | (None, m3) => (-1, t, m3)
              | (Some _, m3) => (0, <[root := ADir ((name, n) :: l)]> (<[n := AFile data]> t), m3)
              end
          end
      end
  | _ => (-1, t, mem)
  end.
Lemma add_file_refines t s name data rest :
  Rep t s → next_fresh s → Z.of_nat (length data) < 2 ^ 63 →
  let r := a_add name data (ramfs_root s) t (rmem s) in
  ∃ s', add_file name data rest s = Some (r.1.1, s') ∧ Rep r.1.2 s' ∧ rmem s' = r.2.
Proof.
  intros HR Hf Hlen r. unfold r, a_add, add_file. clear r. pose proof (rep_ok _ _ HR) as Hok.
  destruct (at_root _ _ Hok) as [l Hl]. destruct (rep_dir _ _ HR _ _ Hl) as (h & Hh & _). rewrite bind_gets, Hl.
  rewrite (proj2 (Z.eqb_neq _ _)) by (intros E; rewrite E in Hl; pose proof (at_nonnull _ _ Hok); congruence).
  run (child_of_ok _ _ HR _ l name Hl). pose proof (find_abs_assoc 0 name l) as Ha.
  destruct (decide (name ∈ l.*1)) as [Hin|Hin].
  - destruct (find_abs 0 name l) as [[prev c]|] eqn:E; [by exists s|]. symmetry in Ha. by apply assoc_None in Ha.
  - pose proof Hin as Hin'. apply assoc_None in Hin. rewrite Hin in Ha. destruct (find_abs 0 name l) as [[prev c]|] eqn:E; [done|].
    run (kmalloc_pop s). destruct (pop (rmem s)) as [r1 m1] eqn:E1. cbn [fst snd].
    destruct r1 as [[n junk]|]; [|eexists; split; [reflexivity|]; split; [exact (Rep_rmem _ _ _ HR)|done]].
    set (s1 := mk_ramfs (nodes s) (ramfs_root s) m1). run (kmalloc_pop s1). change (rmem s1) with m1. destruct (pop m1) as [r2 m2]. cbn [fst snd].
    destruct r2 as [r2|]; [|eexists; split; [reflexivity|]; split; [exact (Rep_rmem _ _ _ HR)|done]].
    set (s2 := mk_ramfs (nodes s1) (ramfs_root s1) m2). run (kmalloc_pop s2). change (rmem s2) with m2. destruct (pop m2) as [r3 m3]. cbn [fst snd].
    destruct r3 as [r3|]; [|eexists; split; [reflexivity|]; split; [exact (Rep_rmem _ _ _ HR)|done]].
    set (s3 := mk_ramfs (nodes s2) (ramfs_root s2) m3).
    assert (n ≠ 0 ∧ nodes s !! n = None) as [Hn0 Hn].
    { unfold next_fresh in Hf. destruct (rmem s) as [|r m]; [done|]. cbn in E1. injection E1 as -> ->. done. }
    assert (ramfs_root s ≠ n) as Hdn by congruence.
    run (link_child_ok s3 (ramfs_root s) n (mk_rn name false (Z.of_nat (length data)) 0 0 0 (Some (data ++ rest))) h Hh Hdn).
    eexists. split; [reflexivity|]. split; [|done].
    apply (Rep_link t s3 (ramfs_root s) l h n (mk_rn name false (Z.of_nat (length data)) 0 0 0 (Some (data ++ rest))) (AFile data)); [exact (Rep_rmem _ _ _ HR)|done|done|done|done|done|].
    right. exists data. split; [done|]. split; [done|]. cbn. split; [done|]. split; [lia|]. by exists rest.
Qed.

(** ** The contents of a file after a write *)
Lemma lookup_a_put data o buf k :
  0 ≤ o → o + Z.of_nat (length buf) ≤ Z.of_nat (length data) →
  a_put data o buf !! k = if decide (Z.to_nat o ≤ k < Z.to_nat o + length buf)%nat then buf !! (k - Z.to_nat o)%nat else data !! k.
Proof.
  intros H1 H2. unfold a_put. assert (length (take (Z.to_nat o) data) = Z.to_nat o) as Hl by (rewrite length_take; lia).
  destruct (decide _) as [[Ha Hb]|Hn].
  - rewrite lookup_app_r by lia. rewrite lookup_app_l by lia. by rewrite Hl.
  - destruct (decide (k < Z.to_nat o)%nat).
    + rewrite lookup_app_l by lia. by apply lookup_take_lt.
    + rewrite !lookup_app_r by lia. rewrite lookup_drop. f_equal. lia.
Qed.
(** Byte [k] of the file that held [data] after [buf] is written at [o], when
    the new buffer, if one is needed, held [junk]. *)
Definition byte_after (data junk buf : list Z) (o : Z) (k : nat) : option Z :=
  if decide (Z.to_nat o ≤ k < Z.to_nat o + length buf)%nat then buf !! (k - Z.to_nat o)%nat
  else if decide (k < length data)%nat then data !! k else buffer junk (o + Z.of_nat (length buf)) !! k.
Lemma lookup_a_write data junk buf o k :
  0 ≤ o → Z.of_nat (length data) < o + Z.of_nat (length buf) → a_write data junk buf o !! k = byte_after data junk buf o k.
Proof.
  intros H1 H2. unfold a_write. set (N := o + Z.of_nat (length buf)) in *. pose proof (length_buffer junk N ltac:(lia)) as HL.
  pose proof (a_grow_long data junk N ltac:(lia)) as Hg. change (a_put (a_grow data junk N) o buf !! k = byte_after data junk buf o k).
  rewrite lookup_a_put by lia. unfold byte_after. destruct (decide _) as [|Hn]; [done|]. unfold a_grow.
  rewrite (proj2 (Z.ltb_lt _ _)) by lia. destruct (decide (k < length data)%nat).
  - by rewrite lookup_app_l by lia.
  - rewrite lookup_app_r, lookup_drop by lia. fold N. f_equal. lia.
Qed.
Lemma read_a_put data o buf :
  0 ≤ o → o + Z.of_nat (length buf) ≤ Z.of_nat (length data) → a_read (a_put data o buf) (Z.of_nat (length buf)) o = buf.
Proof.
  intros H1 H2. unfold a_read, a_put. rewrite Nat2Z.id. rewrite drop_app_length' by (rewrite length_take; lia).
  by rewrite take_app_length.
Qed.

(** ** The properties *)

(** C26: ramfs implements a tree of directories and byte arrays.  On any heap
    that represents a tree, for every answer of the allocator: lookup finds
    exactly the entry of that name; create and mkdir add an empty child unless
    the name is taken, the parent is not a directory or memory is refused;
    unlink removes files and nothing else, rmdir removes empty directories and
    nothing else; reading returns the bytes between the offset and the end;
    writing replaces them, growing the file as needed.  The heap then
    represents the resulting tree, and no dead node is ever touched. *)
Theorem ramfs_ops_refine t s :
  Rep t s →
  (∀ d l name de, t !! d = Some (ADir l) →
     ∃ s', ramfs_lookup d name de s = Some (alookup t d name, s') ∧ Rep t s' ∧ rmem s' = rmem s) ∧
  (∀ d x name flags, t !! d = Some x → next_fresh s →
     ∃ s', ramfs_create_file d name flags s = Some ((a_new false d name t (rmem s)).1.1, s') ∧
       Rep (a_new false d name t (rmem s)).1.2 s' ∧ rmem s' = (a_new false d name t (rmem s)).2) ∧
  (∀ d x name, t !! d = Some x → next_fresh s →
     ∃ s', ramfs_mkdir d name s = Some ((a_new true d name t (rmem s)).1.1, s') ∧
       Rep (a_new true d name t (rmem s)).1.2 s' ∧ rmem s' = (a_new true d name t (rmem s)).2) ∧
  (∀ d x name, t !! d = Some x →
     ∃ s', ramfs_unlink d name s = Some ((a_unlink d name t).1, s') ∧ Rep (a_unlink d name t).2 s' ∧ rmem s' = rmem s) ∧
  (∀ d x name, t !! d = Some x →
     ∃ s', ramfs_rmdir d name s = Some ((a_rmdir d name t).1, s') ∧ Rep (a_rmdir d name t).2 s' ∧ rmem s' = rmem s) ∧
  (∀ i data n o, t !! i = Some (AFile data) → 0 ≤ o < 2 ^ 63 → 0 ≤ n → o + n < 2 ^ 64 →
     let out := a_read data n o in
     ramfs_read i n o s = Some (Z.of_nat (length out), out, o + Z.of_nat (length out), s)) ∧
  (∀ i data buf o, t !! i = Some (AFile data) → 0 ≤ o → o + Z.of_nat (length buf) < 2 ^ 63 →
     let r := write_result t i data buf o (rmem s) in
     ∃ s', ramfs_write i buf o s = Some (r.1.1, s') ∧ Rep r.1.2 s' ∧ rmem s' = r.2).
Proof.
  intros HR. split_and!.
  - intros d l name de Hd. unfold alookup. rewrite Hd. by apply ramfs_lookup_refines.
  - intros d x name flags Hd Hf. by eapply new_child_refines.
  - intros d x name Hd Hf. by eapply new_child_refines.
  - intros d x name Hd. by eapply ramfs_unlink_refines.
  - intros d x name Hd. by eapply ramfs_rmdir_refines.
  - intros i data n o Hi Ho Hn Hon. by apply (ramfs_read_refines t).
  - intros i data buf o Hi Ho Hon. by apply ramfs_write_refines.
Qed.

(** Reading back what was written.  When the allocator grants the larger
    buffer, a write that extends the file returns the number of bytes, reading
    the same range returns the bytes written, and every byte of the file is
    known: those written, the old ones elsewhere, and, in a gap between the old
    end and the offset, the uninitialised bytes of the new buffer, which
    any reader of the file can see. *)
Theorem ramfs_write_read t s i data buf o a junk m :
  Rep t s → t !! i = Some (AFile data) → 0 ≤ o → o + Z.of_nat (length buf) < 2 ^ 63 → buf ≠ [] →
  Z.of_nat (length data) < o + Z.of_nat (length buf) → rmem s = Some (a, junk) :: m →
  let n := Z.of_nat (length buf) in
  ∃ s' data', ramfs_write i buf o s = Some ((n, o + n), s') ∧ Rep (<[i := AFile data']> t) s' ∧
    ramfs_read i n o s' = Some (n, buf, o + n, s') ∧ ∀ k, data' !! k = byte_after data junk buf o k.
Proof.
  intros HR Hi Ho Hon Hb Hlt Hm n. destruct (ramfs_write_refines t s i data buf o HR Hi Ho Hon) as (s' & R & HR' & _).
  revert R HR'. unfold write_result. rewrite decide_False, (proj2 (Z.ltb_lt _ _)), Hm by done. cbn [pop fst snd]. intros R HR'.
  exists s', (a_write data junk buf o). split; [exact R|]. split; [done|].
  pose proof (a_grow_long data junk (o + n) ltac:(lia)) as Hg. split; [|intros k; by apply lookup_a_write].
  pose proof (ramfs_read_refines _ s' i (a_write data junk buf o) n o HR' (lookup_insert_eq _ _ _) ltac:(lia) ltac:(lia) ltac:(lia)) as Rr.
  cbv zeta in Rr. unfold a_write in Rr. fold n in Rr. change (take _ _ ++ _) with (a_put (a_grow data junk (o + n)) o buf) in Rr.
  rewrite read_a_put in Rr by done. exact Rr.
Qed.

(** ** Witnesses: a root directory with one empty file *)
Definition mem0 : answers := [Some (10, []); Some (11, []); Some (20, []); Some (21, []); Some (30, [7; 7; 7; 7])].
Definition t1 : atree := <[10 := ADir [([97], 20)]]> (<[20 := AFile []]> {[10 := ADir []]}).

Lemma one_file : ∃ s, Rep t1 s ∧ rmem s = [Some (30, [7; 7; 7; 7])].
Proof.
  destruct (ramfs_create_ok (mk_ramfs ∅ 0 mem0) 10 [] (11, []) [Some (20, []); Some (21, []); Some (30, [7; 7; 7; 7])])
    as (s & _ & HR & _ & Hm); [done|done|done|].
  destruct (new_child_refines {[10 := ADir []]} s false 10 (ADir []) [97] HR) as (s' & _ & HR' & Hm').
  - done.
  - unfold next_fresh. rewrite Hm. split; [done|]. destruct (nodes s !! 20) as [n|] eqn:E; [|done].
    destruct (rep_dom _ _ HR 20 ltac:(eauto)) as [x Hx]. done.
  - exists s'. rewrite Hm in HR', Hm'. split; [exact HR'|exact Hm'].
Qed.
Lemma ramfs_ops_refine_witness : ∃ s s', Rep t1 s ∧ ramfs_unlink 10 [97] s = Some (0, s').
Proof.
  destruct one_file as (s & HR & _). exists s.
  destruct (proj1 (proj2 (proj2 (proj2 (ramfs_ops_refine t1 s HR)))) 10 (ADir [([97], 20)]) [97] eq_refl) as (s' & R & _).
  exists s'. split; [exact HR|exact R].
Defined.
Lemma ramfs_write_read_witness : ∃ s s' data', ramfs_write 20 [1] 2 s = Some ((1, 3), s') ∧ Rep (<[20 := AFile data']> t1) s' ∧
  data' !! 0%nat = Some 7.
Proof.
  destruct one_file as (s & HR & Hm). exists s.
  destruct (ramfs_write_read t1 s 20 [] [1] 2 30 [7; 7; 7; 7] [] HR) as (s' & data' & R & HR' & _ & Hk).
  - reflexivity.
  - lia.
  - reflexivity.
  - discriminate.
  - reflexivity.
  - exact Hm.
  - exists s', data'. split; [exact R|]. split; [exact HR'|]. rewrite Hk. reflexivity.
Defined.
