(* ===== verification/Vfs.v ===== *)
(** * kernel/vfs.c: the cache of directory entries, path resolution and files.

    Dentries and open files live in heaps; a dereference of a dead one has no
    outcome, nor has taking the lock while it is held (the CPU spins for ever).
    A file system is reached through [FileSystem]: [struct inode]'s fields and
    its table of operations. *)
From S2P Require Import Prelude Bytes.
Local Open Scope Z_scope.
Local Open Scope kernel_scope.

(** ** The interface of a file system *)
(** [struct file_ops]; a null pointer is [None]. *)
Record file_ops (F : Type) := mk_ops {
  f_open : option (Z → ST F Z);
  f_read : option (Z → Z → Z → ST F (Z * list Z * Z));
  f_write : option (Z → list Z → Z → ST F (Z * Z));
  f_close : option (Z → ST F Z);
  f_lookup : option (Z → list Z → Z → ST F (option Z));
  f_create : option (Z → list Z → Z → ST F Z);
  f_mkdir : option (Z → list Z → ST F Z);
  f_rmdir : option (Z → list Z → ST F Z);
  f_unlink : option (Z → list Z → ST F Z);
  f_rename : option (Z → list Z → Z → list Z → ST F Z);
  f_chmod : option (Z → Z → ST F Z);
  f_ioctl : option (Z → Z → Z → ST F Z)
}.
Arguments f_open {F}.
Arguments f_read {F}.
Arguments f_write {F}.
Arguments f_close {F}.
Arguments f_lookup {F}.
Arguments f_create {F}.
Arguments f_mkdir {F}.
Arguments f_rmdir {F}.
Arguments f_unlink {F}.
Arguments f_rename {F}.
Arguments f_chmod {F}.
Arguments f_ioctl {F}.

(** [struct inode]: its operations, kind and back-pointer; [i_free] is the
    freeing of an evicted inode with its name and private data. *)
Class FileSystem (F : Type) := {
  i_ops : Z → ST F (file_ops F);
  i_is_dir : Z → ST F bool;
  i_dentry : Z → ST F Z;
  i_set_dentry : Z → Z → ST F unit;
  i_free : Z → ST F unit
}.

(** ** State *)
Definition MAX_DENTRIES : Z := 512.
Definition DENTRY_FLAG_MOUNT : Z := 1.
(** The address of the sentinel [lru_head]. *)
Definition lru_head : Z := 1.

Record dentry := mk_d {
  d_name : list Z;
  d_inode : Z;
  d_parent : Z;
  d_child : Z;
  d_next : Z;
  lru_prev : Z;
  lru_next : Z;
  d_refcount : Z;
  access_count : Z;
  d_flags : Z
}.
Record vfile := mk_file { fl_inode : Z; fl_offset : Z; fl_flags : Z; fl_refcount : Z }.
(** [root_sb] is the root inode of the mounted superblock, 0 when there is none. *)
Record vstate (F : Type) := mk_vs {
  dents : gmap Z dentry;
  files : gmap Z vfile;
  root_sb : Z;
  root_dentry : Z;
  dentry_total : Z;
  dentry_evicted : Z;
  vfs_locked : bool;
  vmem : list (option Z);
  vfs : F
}.
Arguments mk_vs {F}.
Arguments dents {F}.
Arguments files {F}.
Arguments root_sb {F}.
Arguments root_dentry {F}.
Arguments dentry_total {F}.
Arguments dentry_evicted {F}.
Arguments vfs_locked {F}.
Arguments vmem {F}.
Arguments vfs {F}.

Definition set_inode (i : Z) (d : dentry) : dentry :=
  mk_d (d_name d) i (d_parent d) (d_child d) (d_next d) (lru_prev d) (lru_next d) (d_refcount d) (access_count d) (d_flags d).
Definition set_tree (p c n : Z) (d : dentry) : dentry :=
  mk_d (d_name d) (d_inode d) p c n (lru_prev d) (lru_next d) (d_refcount d) (access_count d) (d_flags d).
Definition set_lru (p n : Z) (d : dentry) : dentry :=
  mk_d (d_name d) (d_inode d) (d_parent d) (d_child d) (d_next d) p n (d_refcount d) (access_count d) (d_flags d).
Definition set_ref (r : Z) (d : dentry) : dentry :=
  mk_d (d_name d) (d_inode d) (d_parent d) (d_child d) (d_next d) (lru_prev d) (lru_next d) r (access_count d) (d_flags d).
Definition set_access (a : Z) (d : dentry) : dentry :=
  mk_d (d_name d) (d_inode d) (d_parent d) (d_child d) (d_next d) (lru_prev d) (lru_next d) (d_refcount d) a (d_flags d).
Definition set_flags (f : Z) (d : dentry) : dentry :=
  mk_d (d_name d) (d_inode d) (d_parent d) (d_child d) (d_next d) (lru_prev d) (lru_next d) (d_refcount d) (access_count d) f.

Section vfs.
Context `{FileSystem F}.
Definition VM := ST (vstate F).

Definition set_dents (ds : gmap Z dentry) (s : vstate F) : vstate F :=
  mk_vs ds (files s) (root_sb s) (root_dentry s) (dentry_total s) (dentry_evicted s) (vfs_locked s) (vmem s) (vfs s).
Definition set_files (fl : gmap Z vfile) (s : vstate F) : vstate F :=
  mk_vs (dents s) fl (root_sb s) (root_dentry s) (dentry_total s) (dentry_evicted s) (vfs_locked s) (vmem s) (vfs s).
Definition set_counts (t e : Z) (s : vstate F) : vstate F :=
  mk_vs (dents s) (files s) (root_sb s) (root_dentry s) t e (vfs_locked s) (vmem s) (vfs s).
Definition set_locked (b : bool) (s : vstate F) : vstate F :=
  mk_vs (dents s) (files s) (root_sb s) (root_dentry s) (dentry_total s) (dentry_evicted s) b (vmem s) (vfs s).
Definition set_fs (f : F) (s : vstate F) : vstate F :=
  mk_vs (dents s) (files s) (root_sb s) (root_dentry s) (dentry_total s) (dentry_evicted s) (vfs_locked s) (vmem s) f.
Definition set_root (sb d : Z) (s : vstate F) : vstate F :=
  mk_vs (dents s) (files s) sb d (dentry_total s) (dentry_evicted s) (vfs_locked s) (vmem s) (vfs s).

(** An operation of the file system. *)
Definition on_fs {A} (m : ST F A) : VM A :=
  λ s, match m (vfs s) with Some (a, f) => Some (a, set_fs f s) | None => None end.

Definition vfs_lock : VM unit := λ s, if vfs_locked s then None else Some (tt, set_locked true s).
Definition vfs_unlock : VM unit := modify (set_locked false).
Definition kmalloc : VM Z :=
  λ s, match vmem s with
       | [] => Some (0, s)
       | r :: l => Some (default 0 r, mk_vs (dents s) (files s) (root_sb s) (root_dentry s) (dentry_total s) (dentry_evicted s) (vfs_locked s) l (vfs s))
       end.

Definition ld (a : Z) : VM dentry := λ s, match dents s !! a with Some d => Some (d, s) | None => None end.
Definition upd (a : Z) (f : dentry → dentry) : VM unit := d <- ld a ;; modify (λ s, set_dents (<[a := f d]> (dents s)) s).
Definition kfree (a : Z) : VM unit := _ <- ld a ;; modify (λ s, set_dents (delete a (dents s)) s).

(** ** The least-recently-used list *)
Definition set_lru_next (n : Z) (d : dentry) : dentry := set_lru (lru_prev d) n d.
Definition set_lru_prev (p : Z) (d : dentry) : dentry := set_lru p (lru_next d) d.
Definition lru_init : VM unit :=
  modify (λ s, set_dents (<[lru_head := mk_d [] 0 0 0 0 lru_head lru_head 0 0 0]> (dents s)) s).
Definition lru_add (d : Z) : VM unit :=
  h <- ld lru_head ;;
  upd d (set_lru lru_head (lru_next h)) ;;;
  upd (lru_next h) (set_lru_prev d) ;;;
  upd lru_head (set_lru_next d).
Definition lru_del (d : Z) : VM unit :=
  x <- ld d ;;
  if (lru_prev x =? 0) || (lru_next x =? 0) then ret tt else
  upd (lru_prev x) (set_lru_next (lru_next x)) ;;;
  x <- ld d ;;
  upd (lru_next x) (set_lru_prev (lru_prev x)) ;;;
  upd d (set_lru 0 0).
Definition lru_touch (d : Z) : VM unit := lru_del d ;;; lru_add d.

(** ** The tree of dentries *)
Definition set_child (c : Z) (d : dentry) : dentry := set_tree (d_parent d) c (d_next d) d.
Definition set_next (n : Z) (d : dentry) : dentry := set_tree (d_parent d) (d_child d) n d.
Definition dentry_add_child (parent child : Z) : VM unit :=
  p <- ld parent ;;
  upd child (set_next (d_child p)) ;;;
  upd parent (set_child child).

(** The walk along the siblings; [prev] is 0 at the parent's own pointer. *)
Fixpoint remove_from (fuel : nat) (parent prev cur child : Z) : VM unit :=
  match fuel with
  | O => fail
  | S fuel =>
      if cur =? 0 then ret tt else
      c <- ld cur ;;
      if cur =? child then
        (if prev =? 0 then upd parent (set_child (d_next c)) else upd prev (set_next (d_next c))) ;;;
        upd child (λ d, set_tree 0 (d_child d) 0 d)
      else remove_from fuel parent cur (d_next c) child
  end.
Definition dentry_remove_child (child : Z) : VM unit :=
  c <- ld child ;;
  if d_parent c =? 0 then ret tt else
  p <- ld (d_parent c) ;;
  fuel <- gets (λ s, S (size (dents s))) ;;
  remove_from fuel (d_parent c) 0 (d_child p) child.

Fixpoint lookup_from (fuel : nat) (d : Z) (name : list Z) : VM Z :=
  match fuel with
  | O => fail
  | S fuel =>
      if d =? 0 then ret 0 else
      x <- ld d ;;
      if decide (d_name x = name) then ret d else lookup_from fuel (d_next x) name
  end.
Definition dentry_lookup_child (parent : Z) (name : list Z) : VM Z :=
  p <- ld parent ;;
  fuel <- gets (λ s, S (size (dents s))) ;;
  lookup_from fuel (d_child p) name.

(** ** Eviction: from the tail, at most [n] more *)
Definition evict_one (d : Z) : VM unit :=
  lru_del d ;;;
  dentry_remove_child d ;;;
  x <- ld d ;;
  (if (d_inode x =? 0) || negb (Z.land (d_flags x) DENTRY_FLAG_MOUNT =? 0) then ret tt else
   back <- on_fs (i_dentry (d_inode x)) ;;
   if back =? d then on_fs (i_free (d_inode x)) else ret tt) ;;;
  kfree d ;;;
  modify (λ s, set_counts (dentry_total s - 1) (dentry_evicted s + 1) s).
Fixpoint evict_from (fuel n : nat) (d : Z) : VM unit :=
  match fuel with
  | O => fail
  | S fuel =>
      match n with
      | O => ret tt
      | S m =>
          if d =? lru_head then ret tt else
          x <- ld d ;;
          root <- gets root_dentry ;;
          if (d =? root) || (1 <? d_refcount x) then evict_from fuel n (lru_prev x)
          else evict_one d ;;; evict_from fuel m (lru_prev x)
      end
  end.
Definition vfs_dentry_evict : VM unit :=
  vfs_lock ;;;
  h <- ld lru_head ;;
  fuel <- gets (λ s, S (size (dents s))) ;;
  evict_from fuel 16 (lru_prev h) ;;;
  vfs_unlock.

Definition dentry_alloc (name : list Z) (parent : Z) : VM Z :=
  d <- kmalloc ;;
  if d =? 0 then ret 0 else
  nm <- kmalloc ;;
  if nm =? 0 then ret 0 else
  modify (λ s, set_dents (<[d := mk_d name 0 parent 0 0 0 0 1 1 0]> (dents s)) s) ;;;
  lru_add d ;;;
  modify (λ s, set_counts (dentry_total s + 1) (dentry_evicted s) s) ;;;
  t <- gets dentry_total ;;
  (if MAX_DENTRIES <? t then vfs_dentry_evict else ret tt) ;;;
  ret d.

(** ** Mounting *)
Definition vfs_init : VM unit :=
  modify (set_root 0 0) ;;; lru_init ;;; modify (set_counts 0 0).
Definition vfs_get_root_sb : VM Z := gets root_sb.

(** [sb] is the superblock's root inode, 0 for a null superblock or root. *)
Definition vfs_mount_root (sb : Z) : VM Z :=
  if sb =? 0 then ret (-1) else
  modify (λ s, set_root sb (root_dentry s) s) ;;;
  d <- dentry_alloc [47] 0 ;;
  modify (λ s, set_root (root_sb s) d s) ;;;
  if d =? 0 then ret (-1) else
  upd d (set_inode sb) ;;;
  on_fs (i_set_dentry sb d) ;;;
  ret 0.

(** The position of the last slash. *)
Fixpoint last_slash (path : list Z) (i : Z) (r : option Z) : option Z :=
  match path with
  | [] => r
  | c :: path => last_slash path (i + 1) (if c =? 47 then Some i else r)
  end.
Definition starts_with_slash (path : list Z) : bool := match path with 47 :: _ => true | _ => false end.

(** Null superblock or superblock root, and a null path: [None]. *)
Definition vfs_mount (path : option (list Z)) (sb : option Z) : VM Z :=
  rs <- gets root_sb ;;
  rd <- gets root_dentry ;;
  match path, sb with
  | Some path, Some root =>
      if (rs =? 0) || (rd =? 0) || negb (starts_with_slash path) then ret (-1) else
      if negb (default 0 (last_slash path 0 None) =? 0) then ret (-1) else
      let name := drop 1 path in
      if decide (name = []) then ret (-1) else
      vfs_lock ;;;
      e <- dentry_lookup_child rd name ;;
      if negb (e =? 0) then vfs_unlock ;;; ret (-1) else
      d <- dentry_alloc name rd ;;
      if d =? 0 then vfs_unlock ;;; ret (-1) else
      upd d (set_inode root) ;;;
      on_fs (i_set_dentry root d) ;;;
      upd d (λ x, set_flags (Z.lor (d_flags x) DENTRY_FLAG_MOUNT) x) ;;;
      dentry_add_child rd d ;;;
      vfs_unlock ;;;
      ret 0
  | _, _ => ret (-1)
  end.

(** ** Path resolution *)
Definition is_path_traversal (name : list Z) : bool := bool_decide (name = [46; 46]).
(** The characters up to a slash, and the rest from it. *)
Fixpoint component (p : list Z) : list Z * list Z :=
  match p with
  | [] => ([], [])
  | c :: q => if c =? 47 then ([], p) else let (n, r) := component q in (c :: n, r)
  end.
Definition skip_slash (p : list Z) : list Z := match p with 47 :: q => q | _ => p end.

(** What the file system says about [name] in the directory of [cur], stored in
    the dentry [child]; called without the lock. *)
Definition ask_fs (cur child : Z) : VM unit :=
  c <- ld cur ;;
  if d_inode c =? 0 then ret tt else
  ops <- on_fs (i_ops (d_inode c)) ;;
  match f_lookup ops with
  | None => ret tt
  | Some lookup =>
      x <- ld child ;;
      r <- on_fs (lookup (d_inode c) (d_name x) child) ;;
      match r with Some i => upd child (set_inode i) | None => ret tt end
  end.
(** One component: the child's dentry, 0 when there is none. *)
Definition lookup_step (cur : Z) (name : list Z) : VM Z :=
  vfs_lock ;;;
  child <- dentry_lookup_child cur name ;;
  hit <- (if child =? 0 then ret false else x <- ld child ;; ret (negb (d_inode x =? 0))) ;;
  if hit then
    upd child (λ x, set_access (access_count x + 1) x) ;;;
    lru_touch child ;;;
    vfs_unlock ;;;
    ret child
  else
    child <- (if child =? 0 then
                d <- dentry_alloc name cur ;;
                if d =? 0 then ret 0 else dentry_add_child cur d ;;; ret d
              else ret child) ;;
    if child =? 0 then vfs_unlock ;;; ret 0 else
    upd cur (λ x, set_ref (d_refcount x + 1) x) ;;;
    vfs_unlock ;;;
    ask_fs cur child ;;;
    vfs_lock ;;;
    upd cur (λ x, if 0 <? d_refcount x then set_ref (d_refcount x - 1) x else x) ;;;
    x <- ld child ;;
    if d_inode x =? 0 then vfs_unlock ;;; ret 0 else
    on_fs (i_set_dentry (d_inode x) child) ;;;
    vfs_unlock ;;;
    ret child.
(** The loop over the components of [p], from the dentry [cur]. *)
Fixpoint walk (fuel : nat) (cur : Z) (p : list Z) : VM Z :=
  match fuel with
  | O => fail
  | S fuel =>
      if decide (p = []) then d <- ld cur ;; ret (d_inode d) else
      let (name, rest) := component p in
      if decide (name = []) then walk fuel cur (drop 1 rest) else
      if (255 <? length name)%nat then ret 0 else
      if is_path_traversal name then ret 0 else
      if decide (name = [46]) then walk fuel cur (skip_slash rest) else
      child <- lookup_step cur name ;;
      if child =? 0 then ret 0 else walk fuel child (skip_slash rest)
  end.
Definition vfs_lookup (path : option (list Z)) : VM Z :=
  rs <- gets root_sb ;;
  rd <- gets root_dentry ;;
  if (rs =? 0) || (rd =? 0) then ret 0 else
  match path with
  | None => ret 0
  | Some path =>
      if negb (starts_with_slash path) then ret 0 else
      if 4096 <? Z.of_nat (length path) then ret 0 else
      walk (S (length path)) rd (drop 1 path)
  end.

(** ** Open files *)
Definition ld_file (f : Z) : VM vfile := λ s, match files s !! f with Some x => Some (x, s) | None => None end.
Definition st_file (f : Z) (x : vfile) : VM unit := modify (λ s, set_files (<[f := x]> (files s)) s).
(** The reference an open file holds on its dentry. *)
Definition dentry_get (inode : Z) (f : dentry → dentry) : VM unit :=
  vfs_lock ;;;
  d <- on_fs (i_dentry inode) ;;
  (if d =? 0 then ret tt else upd d f) ;;;
  vfs_unlock.

Definition vfs_open (path : option (list Z)) (flags : Z) : VM Z :=
  inode <- vfs_lookup path ;;
  if inode =? 0 then ret 0 else
  filp <- kmalloc ;;
  if filp =? 0 then ret 0 else
  ops <- on_fs (i_ops inode) ;;
  r <- match f_open ops with Some op => on_fs (op inode) | None => ret 0 end ;;
  if r <? 0 then ret 0 else
  st_file filp (mk_file inode 0 flags 1) ;;;
  dentry_get inode (λ x, set_ref (d_refcount x + 1) x) ;;;
  ret filp.
Definition vfs_read (f : Z) (count : Z) : VM (Z * list Z) :=
  if f =? 0 then ret (-1, []) else
  x <- ld_file f ;;
  ops <- on_fs (i_ops (fl_inode x)) ;;
  match f_read ops with
  | None => ret (-1, [])
  | Some op =>
      r <- on_fs (op (fl_inode x) count (fl_offset x)) ;;
      st_file f (mk_file (fl_inode x) r.2 (fl_flags x) (fl_refcount x)) ;;;
      ret r.1
  end.
Definition vfs_write (f : Z) (buf : list Z) : VM Z :=
  if f =? 0 then ret (-1) else
  x <- ld_file f ;;
  ops <- on_fs (i_ops (fl_inode x)) ;;
  match f_write ops with
  | None => ret (-1)
  | Some op =>
      r <- on_fs (op (fl_inode x) buf (fl_offset x)) ;;
      st_file f (mk_file (fl_inode x) r.2 (fl_flags x) (fl_refcount x)) ;;;
      ret r.1
  end.
Definition vfs_close (f : Z) : VM Z :=
  if f =? 0 then ret (-1) else
  x <- ld_file f ;;
  if fl_refcount x <=? 0 then ret (-1) else
  st_file f (mk_file (fl_inode x) (fl_offset x) (fl_flags x) (fl_refcount x - 1)) ;;;
  if 0 <? fl_refcount x - 1 then ret 0 else
  ops <- on_fs (i_ops (fl_inode x)) ;;
  _ <- match f_close ops with Some op => on_fs (op (fl_inode x)) | None => ret 0 end ;;
  dentry_get (fl_inode x) (λ d, if 0 <? d_refcount d then set_ref (d_refcount d - 1) d else d) ;;;
  modify (λ s, set_files (delete f (files s)) s) ;;;
  ret 0.
Definition vfs_file_dup (f : Z) : VM Z :=
  if f =? 0 then ret (-1) else
  x <- ld_file f ;;
  if fl_refcount x <=? 0 then ret (-1) else
  st_file f (mk_file (fl_inode x) (fl_offset x) (fl_flags x) (fl_refcount x + 1)) ;;;
  ret 0.

(** ** Changing directories *)
(** The parent's path and the last name, for a path with a second slash. *)
Definition split_path (path : list Z) : option (list Z * list Z) :=
  match last_slash path 0 None with
  | None => None
  | Some i =>
      if i =? 0 then None else
      if 256 <=? i then None else
      Some (if i =? 1 then [47] else take (Z.to_nat i) path, drop (Z.to_nat (i + 1)) path)
  end.
(** What mkdir, rmdir and unlink share: [op] picks the parent's operation, which
    runs under the lock. *)
Definition in_parent (op : file_ops F → option (Z → list Z → ST F Z)) (path : option (list Z)) : VM Z :=
  rs <- gets root_sb ;;
  rd <- gets root_dentry ;;
  match path with
  | None => ret (-1)
  | Some path =>
      if (rs =? 0) || (rd =? 0) || negb (starts_with_slash path) then ret (-1) else
      match split_path path with
      | None => ret (-1)
      | Some (parent_path, name) =>
          if decide (name = []) then ret (-1) else
          parent <- vfs_lookup (Some parent_path) ;;
          if parent =? 0 then ret (-1) else
          dir <- on_fs (i_is_dir parent) ;;
          if negb dir then ret (-1) else
          ops <- on_fs (i_ops parent) ;;
          match op ops with
          | None => ret (-1)
          | Some op => vfs_lock ;;; r <- on_fs (op parent name) ;; vfs_unlock ;;; ret r
          end
      end
  end.
Definition vfs_mkdir (path : option (list Z)) : VM Z := in_parent f_mkdir path.
Definition vfs_rmdir (path : option (list Z)) : VM Z := in_parent f_rmdir path.
Definition vfs_unlink (path : option (list Z)) : VM Z := in_parent f_unlink path.
Definition vfs_rename (oldpath newpath : option (list Z)) : VM Z :=
  rs <- gets root_sb ;;
  rd <- gets root_dentry ;;
  match oldpath, newpath with
  | Some oldpath, Some newpath =>
      if (rs =? 0) || (rd =? 0) || negb (starts_with_slash oldpath) || negb (starts_with_slash newpath) then ret (-1) else
      match split_path oldpath, split_path newpath with
      | Some (oldparent, oldname), Some (newparent, newname) =>
          olddir <- vfs_lookup (Some oldparent) ;;
          newdir <- vfs_lookup (Some newparent) ;;
          if (olddir =? 0) || (newdir =? 0) then ret (-1) else
          d1 <- on_fs (i_is_dir olddir) ;;
          d2 <- (if d1 then on_fs (i_is_dir newdir) else ret false) ;;
          if negb d1 || negb d2 then ret (-1) else
          ops <- on_fs (i_ops olddir) ;;
          match f_rename ops with
          | None => ret (-1)
          | Some op => vfs_lock ;;; r <- on_fs (op olddir oldname newdir newname) ;; vfs_unlock ;;; ret r
          end
      | _, _ => ret (-1)
      end
  | _, _ => ret (-1)
  end.
Definition vfs_chmod (path : option (list Z)) (mode : Z) : VM Z :=
  rs <- gets root_sb ;;
  rd <- gets root_dentry ;;
  match path with
  | None => ret (-1)
  | Some p =>
      if (rs =? 0) || (rd =? 0) || negb (starts_with_slash p) then ret (-1) else
      inode <- vfs_lookup path ;;
      if inode =? 0 then ret (-1) else
      ops <- on_fs (i_ops inode) ;;
      match f_chmod ops with None => ret (-1) | Some op => on_fs (op inode mode) end
  end.
Definition vfs_ioctl (f request arg : Z) : VM Z :=
  if f =? 0 then ret (-1) else
  x <- ld_file f ;;
  ops <- on_fs (i_ops (fl_inode x)) ;;
  match f_ioctl ops with None => ret (-1) | Some op => on_fs (op (fl_inode x) request arg) end.
Definition vfs_dentry_stats : VM (Z * Z) := gets (λ s, (dentry_total s, dentry_evicted s)).
End vfs.
