(* ===== verification/VfsInv.v ===== *)
(** * The cache of directory entries agrees with the file system.

    [FsLaws] is what path resolution asks of a file system; [Cache] is the
    invariant of the tree of dentries, with the children of every dentry as a
    ghost map.  The lemmas show that each piece of the lookup keeps it. *)
From S2P Require Import Prelude Bytes Chains Vfs.
Local Open Scope Z_scope.
Local Open Scope kernel_scope.

(** ** What the VFS asks of a file system *)
Class FsView (F : Type) := {
  fs_ok : F → Prop;
  fs_live : F → Z → Prop;
  fs_child : F → Z → list Z → option Z
}.
(** The same live inodes with the same children. *)
Definition fs_same `{FsView F} (f f' : F) : Prop :=
  (∀ i, fs_live f i → fs_live f' i) ∧ ∀ i n, fs_live f i → fs_child f' i n = fs_child f i n.
Class FsLaws (F : Type) `{FileSystem F, FsView F} := {
  law_ops : ∀ f i, fs_ok f → fs_live f i →
    ∃ ops, i_ops i f = Some (ops, f) ∧
      match f_lookup ops with
      | Some lookup => ∀ name de, ∃ f', lookup i name de f = Some (fs_child f i name, f') ∧ fs_ok f' ∧ fs_same f f'
      | None => ∀ name, fs_child f i name = None
      end;
  law_child : ∀ f i name c, fs_ok f → fs_live f i → fs_child f i name = Some c → fs_live f c ∧ c ≠ 0;
  law_back : ∀ f i d, fs_ok f → fs_live f i → ∃ f', i_set_dentry i d f = Some (tt, f') ∧ fs_ok f' ∧ fs_same f f'
}.
Lemma fs_same_refl `{FsView F} (f : F) : fs_same f f.
Proof. by split. Qed.
Lemma fs_same_trans `{FsView F} (f1 f2 f3 : F) : fs_same f1 f2 → fs_same f2 f3 → fs_same f1 f3.
Proof. intros [A1 A2] [B1 B2]. split; [auto|]. intros i n Hi. rewrite B2, A2; auto. Qed.

Section inv.
Context `{FL : FsLaws F} (mnt : gmap (list Z) Z).
Abbreviation dchain := (Chains.chain d_name d_next).

(** The child of an inode; the mount points hide the root's own entries. *)
Definition resolve_in (f : F) (top : bool) (i : Z) (name : list Z) : option Z :=
  match (if top then mnt !! name else None) with Some j => Some j | None => fs_child f i name end.

Definition ptr_ok (ds : gmap Z dentry) (p : Z) : Prop := p = 0 ∨ is_Some (ds !! p).
Record Cache (K : gmap Z entries) (s : vstate F) : Prop := mk_Cache {
  c_fs : fs_ok (vfs s);
  c_sb : root_sb s ≠ 0;
  c_root : ∃ x, dents s !! root_dentry s = Some x ∧ d_inode x ≠ 0;
  c_special : root_dentry s ≠ 0 ∧ root_dentry s ≠ lru_head ∧ dents s !! 0 = None;
  c_kids : ∀ d x, dents s !! d = Some x → d ≠ lru_head →
    ∃ l, K !! d = Some l ∧ dchain (dents s) (d_child x) l ∧ NoDup l.*1 ∧ NoDup l.*2;
  c_entry : ∀ d l name c, K !! d = Some l → (name, c) ∈ l → c ≠ root_dentry s ∧ c ≠ lru_head ∧
    ∃ x y, dents s !! d = Some x ∧ dents s !! c = Some y ∧
      (d_inode y ≠ 0 → d_inode x ≠ 0 ∧ resolve_in (vfs s) (bool_decide (d = root_dentry s)) (d_inode x) name = Some (d_inode y));
  c_uniq : ∀ d1 l1 d2 l2 c, K !! d1 = Some l1 → K !! d2 = Some l2 → c ∈ l1.*2 → c ∈ l2.*2 → d1 = d2;
  c_mounts : ∀ name j, mnt !! name = Some j →
    ∃ l c y, K !! root_dentry s = Some l ∧ (name, c) ∈ l ∧ dents s !! c = Some y ∧ d_inode y = j ∧ j ≠ 0;
  c_live : ∀ d x, dents s !! d = Some x → d_inode x ≠ 0 → fs_live (vfs s) (d_inode x);
  c_lru : ∀ d x, dents s !! d = Some x → ptr_ok (dents s) (lru_prev x) ∧ ptr_ok (dents s) (lru_next x);
  c_head : ∃ h, dents s !! lru_head = Some h ∧ lru_next h ≠ 0
}.

(** ** Changes that keep the tree *)
Definition same_tree (x y : dentry) : Prop :=
  d_name y = d_name x ∧ d_inode y = d_inode x ∧ d_child y = d_child x ∧ d_next y = d_next x.

Lemma ptr_ok_insert ds a x p : ptr_ok ds p → ptr_ok (<[a := x]> ds) p.
Proof. intros [->|Hp]; [by left|right]. rewrite lookup_insert_is_Some'. by right. Qed.
Lemma ld_ok (s : vstate F) a x : dents s !! a = Some x → ld a s = Some (x, s).
Proof. intros E. unfold ld. by rewrite E. Qed.
Lemma upd_ok (s : vstate F) a x f : dents s !! a = Some x → upd a f s = Some (tt, set_dents (<[a := f x]> (dents s)) s).
Proof. intros E. unfold upd. by run (ld_ok s a x E). Qed.

Lemma Cache_upd K s a x x' :
  Cache K s → dents s !! a = Some x → same_tree x x' → ptr_ok (dents s) (lru_prev x') → ptr_ok (dents s) (lru_next x') →
  (a = lru_head → lru_next x' ≠ 0) → Cache K (set_dents (<[a := x']> (dents s)) s).
Proof.
  intros [Hfs Hsb Hroot Hsp Hk He Hq Hm Hl Hu Hh] Ha (E1 & E2 & E3 & E4) Hp Hn Hhead.
  assert (∀ d y, <[a := x']> (dents s) !! d = Some y → ∃ y0, dents s !! d = Some y0 ∧ same_tree y0 y) as Hinv.
  { intros d y. destruct (decide (a = d)) as [->|]; [rewrite lookup_insert_eq; intros [= <-]; by exists x|].
    rewrite lookup_insert_ne by done. intros Hy. by exists y. }
  assert (∀ d y0, dents s !! d = Some y0 → ∃ y, <[a := x']> (dents s) !! d = Some y ∧ same_tree y0 y) as Hfwd.
  { intros d y0 Hy. destruct (decide (a = d)) as [->|]; [|exists y0; by rewrite lookup_insert_ne].
    exists x'. rewrite lookup_insert_eq. assert (y0 = x) as -> by congruence. done. }
  constructor; cbn [dents root_dentry root_sb vfs set_dents]; [done|done| | | | |done| | | |].
  - destruct Hroot as (r & Hr & Hr0). destruct (Hfwd _ _ Hr) as (y & Hy & _ & Ei & _). exists y. split; [done|congruence].
  - destruct Hsp as (H1 & H2 & H3). split_and!; [done|done|]. rewrite lookup_insert_ne; [done|]. intros ->. congruence.
  - intros d y Hy Hd. destruct (Hinv _ _ Hy) as (y0 & Hy0 & _ & _ & Ec & _). destruct (Hk _ _ Hy0 Hd) as (l & H1 & H2 & H3).
    exists l. split; [done|]. rewrite Ec. split; [|done]. by eapply chain_update.
  - intros d l name c H1 H2. destruct (He _ _ _ _ H1 H2) as (H3 & H4 & y & z & Hy & Hz & Hres). split_and!; [done|done|].
    destruct (Hfwd _ _ Hy) as (y' & Hy' & _ & Ei & _). destruct (Hfwd _ _ Hz) as (z' & Hz' & _ & Ei' & _).
    exists y', z'. rewrite Ei, Ei'. done.
  - intros name j H1. destruct (Hm _ _ H1) as (l & c & y & H2 & H3 & Hy & Hj). destruct (Hfwd _ _ Hy) as (y' & Hy' & _ & Ei & _).
    exists l, c, y'. by rewrite Ei.
  - intros d y Hy Hi. destruct (Hinv _ _ Hy) as (y0 & Hy0 & _ & Ei & _). rewrite Ei in *. by eapply Hl.
  - intros d y Hy. destruct (decide (a = d)) as [->|].
    + rewrite lookup_insert_eq in Hy. injection Hy as <-. split; by apply ptr_ok_insert.
    + rewrite lookup_insert_ne in Hy by done. destruct (Hu _ _ Hy). split; by apply ptr_ok_insert.
  - destruct Hh as (h & Hh & Hh0). destruct (decide (a = lru_head)) as [->|]; [exists x'; rewrite lookup_insert_eq; auto|].
    exists h. by rewrite lookup_insert_ne.
Qed.

(** A step that changes links of the least-recently-used list and counters
    only: the invariant is kept and every dentry keeps its place in the tree. *)
Record tree_step (K : gmap Z entries) (s s' : vstate F) : Prop := mk_tree_step {
  ts_cache : Cache K s';
  ts_dents : ∀ d x, dents s !! d = Some x → ∃ x', dents s' !! d = Some x' ∧ same_tree x x';
  ts_dom : dom (dents s') = dom (dents s);
  ts_rest : ∃ ds, s' = set_dents ds s
}.
Lemma same_tree_refl x : same_tree x x.
Proof. done. Qed.
Lemma same_tree_trans x y z : same_tree x y → same_tree y z → same_tree x z.
Proof. intros (?&?&?&?) (?&?&?&?). split_and!; congruence. Qed.
Lemma tree_step_trans K s1 s2 s3 : tree_step K s1 s2 → tree_step K s2 s3 → tree_step K s1 s3.
Proof.
  intros [A1 A2 A3 (ds & ->)] [B1 B2 B3 (ds' & ->)]. constructor; [done| |congruence|by exists ds'].
  intros d x Hx. destruct (A2 _ _ Hx) as (y & Hy & Sy). destruct (B2 _ _ Hy) as (z & Hz & Sz). exists z. split; [done|by eapply same_tree_trans].
Qed.
Lemma upd_step K s a x f :
  Cache K s → dents s !! a = Some x → same_tree x (f x) → ptr_ok (dents s) (lru_prev (f x)) → ptr_ok (dents s) (lru_next (f x)) →
  (a = lru_head → lru_next (f x) ≠ 0) → ∃ s', upd a f s = Some (tt, s') ∧ tree_step K s s'.
Proof.
  intros HC Ha Hs Hp Hn Hh. eexists. split; [by apply upd_ok|]. constructor.
  - by eapply Cache_upd.
  - intros d y Hy. cbn. destruct (decide (a = d)) as [->|].
    + exists (f x). rewrite lookup_insert_eq. assert (y = x) as -> by congruence. done.
    + exists y. rewrite lookup_insert_ne by done. done.
  - cbn. by apply dom_insert_lookup_L.
  - by eexists.
Qed.
Lemma ptr_ok_dom ds ds' p : dom ds' = dom ds → ptr_ok ds p → ptr_ok ds' p.
Proof. intros E [->|Hp]; [by left|right]. apply elem_of_dom. rewrite E. by apply elem_of_dom. Qed.
Lemma tree_step_live K s s' d : tree_step K s s' → is_Some (dents s !! d) → is_Some (dents s' !! d).
Proof. intros HT [x Hx]. destruct (ts_dents _ _ _ HT _ _ Hx) as (x' & Hx' & _). eauto. Qed.

(** ** The least-recently-used list *)
Lemma lru_del_step K s d x : Cache K s → dents s !! d = Some x → d ≠ lru_head →
  ∃ s', lru_del d s = Some (tt, s') ∧ Cache K s' ∧ (s' = s ∨ tree_step K s s').
Proof.
  intros HC Hd Hdh. unfold lru_del. run (ld_ok s d x Hd).
  destruct (Z.eqb_spec (lru_prev x) 0) as [|Hp]; [exists s; auto|]. destruct (Z.eqb_spec (lru_next x) 0) as [|Hn]; [exists s; auto|]. cbn [orb].
  destruct (c_lru _ _ HC _ _ Hd) as [[|[px Hpx]] [|[nx Hnx]]]; [done..|].
  destruct (upd_step K s (lru_prev x) px (set_lru_next (lru_next x)) HC Hpx) as (s1 & R1 & T1); [done| | |done|].
  { by apply (c_lru _ _ HC _ _ Hpx). }
  { right. by exists nx. }
  run R1. destruct (ts_dents _ _ _ T1 _ _ Hd) as (x1 & Hx1 & _). run (ld_ok s1 d x1 Hx1).
  destruct (c_lru _ _ (ts_cache _ _ _ T1) _ _ Hx1) as [P1 P2]. destruct (decide (lru_next x1 = 0)) as [E0|E0].
  { exfalso. rewrite (upd_ok s _ px _ Hpx) in R1. injection R1 as <-. cbn in Hx1. destruct (decide (lru_prev x = d)) as [<-|E].
    - rewrite lookup_insert_eq in Hx1. injection Hx1 as <-. done.
    - rewrite lookup_insert_ne in Hx1 by done. congruence. }
  destruct P2 as [|[nx1 Hnx1]]; [done|].
  destruct (upd_step K s1 (lru_next x1) nx1 (set_lru_prev (lru_prev x1)) (ts_cache _ _ _ T1) Hnx1) as (s2 & R2 & T2); [done|done| | |].
  { by apply (c_lru _ _ (ts_cache _ _ _ T1) _ _ Hnx1). }
  { intros E. cbn. destruct (c_head _ _ (ts_cache _ _ _ T1)) as (h & Hh & Hh0). rewrite E in Hnx1. congruence. }
  run R2. destruct (ts_dents _ _ _ T2 _ _ Hx1) as (x2 & Hx2 & _).
  destruct (upd_step K s2 d x2 (set_lru 0 0) (ts_cache _ _ _ T2) Hx2) as (s3 & R3 & T3); [done|by left|by left|done|].
  exists s3. split; [exact R3|]. split; [apply T3|right]. eapply tree_step_trans; [exact T1|]. by eapply tree_step_trans.
Qed.
Lemma lru_add_step K s d x : Cache K s → dents s !! d = Some x → d ≠ lru_head → d ≠ 0 →
  ∃ s', lru_add d s = Some (tt, s') ∧ tree_step K s s'.
Proof.
  intros HC Hd Hdh Hd0. destruct (c_head _ _ HC) as (h & Hh & Hh0). unfold lru_add. run (ld_ok s lru_head h Hh).
  destruct (c_lru _ _ HC _ _ Hh) as [_ [|[n Hn]]]; [done|].
  destruct (upd_step K s d x (set_lru lru_head (lru_next h)) HC Hd) as (s1 & R1 & T1); [done|right; by exists h|right; by exists n|done|].
  run R1. destruct (ts_dents _ _ _ T1 _ _ Hn) as (n1 & Hn1 & _). destruct (ts_dents _ _ _ T1 _ _ Hd) as (d1 & Hd1 & _).
  destruct (upd_step K s1 (lru_next h) n1 (set_lru_prev d) (ts_cache _ _ _ T1) Hn1) as (s2 & R2 & T2); [done|right; by exists d1| | |].
  { by apply (c_lru _ _ (ts_cache _ _ _ T1) _ _ Hn1). }
  { intros E. cbn. destruct (c_head _ _ (ts_cache _ _ _ T1)) as (h1 & Hh1 & Hh10). rewrite E in Hn1. congruence. }
  run R2. destruct (c_head _ _ (ts_cache _ _ _ T2)) as (h2 & Hh2 & _). destruct (ts_dents _ _ _ T2 _ _ Hd1) as (d2 & Hd2 & _).
  destruct (upd_step K s2 lru_head h2 (set_lru_next d) (ts_cache _ _ _ T2) Hh2) as (s3 & R3 & T3); [done| |right; by exists d2|done|].
  { by apply (c_lru _ _ (ts_cache _ _ _ T2) _ _ Hh2). }
  exists s3. split; [exact R3|]. eapply tree_step_trans; [exact T1|]. by eapply tree_step_trans.
Qed.
Lemma tree_step_refl K s : Cache K s → tree_step K s s.
Proof.
  intros HC. constructor; [done| |done|].
  - intros d x Hx. by exists x.
  - exists (dents s). by destruct s.
Qed.
Lemma lru_touch_step K s d x : Cache K s → dents s !! d = Some x → d ≠ lru_head → d ≠ 0 →
  ∃ s', lru_touch d s = Some (tt, s') ∧ tree_step K s s'.
Proof.
  intros HC Hd Hdh Hd0. unfold lru_touch. destruct (lru_del_step K s d x HC Hd Hdh) as (s1 & R1 & HC1 & H1).
  assert (tree_step K s s1) as T1 by (destruct H1 as [->|]; [by apply tree_step_refl|done]).
  run R1. destruct (ts_dents _ _ _ T1 _ _ Hd) as (x1 & Hx1 & _).
  destruct (lru_add_step K s1 d x1 HC1 Hx1 Hdh Hd0) as (s2 & R2 & T2). exists s2. split; [done|by eapply tree_step_trans].
Qed.
End inv.
