(* ===== verification/VfsWalk.v ===== *)
(** * Path resolution through the cache finds what the file system holds. *)
From S2P Require Import Prelude Bytes Chains Vfs VfsInv.
Local Open Scope Z_scope.
Local Open Scope kernel_scope.

Section lookup.
Context `{FL : FsLaws F} (mnt : gmap (list Z) Z).
Abbreviation dchain := (Chains.chain d_name d_next).
Abbreviation Cache := (Cache mnt).

(** ** Finding a cached child *)
Lemma entry_nonnull K s d l c : Cache K s → K !! d = Some l → c ∈ l.*2 → c ≠ 0.
Proof.
  intros HC HK ([nm c'] & -> & Hin)%list_elem_of_fmap. cbn. intros ->.
  destruct (c_entry _ _ _ HC _ _ _ _ HK Hin) as (_ & _ & x & y & _ & Hy & _). destruct (c_special _ _ _ HC) as (_ & _ & E0). congruence.
Qed.
Lemma lookup_from_ok (s : vstate F) name l : ∀ fuel a,
  dchain (dents s) a l → 0 ∉ l.*2 → (length l < fuel)%nat → lookup_from fuel a name s = Some (default 0 (assoc name l), s).
Proof.
  induction l as [|[nm c] l IH]; intros fuel a Hc Hz Hf; (destruct fuel as [|fuel]; [cbn in Hf; lia|]); cbn [lookup_from assoc].
  - cbn in Hc. by subst a.
  - destruct Hc as [-> (n & Hn & Hnm & Hc)]. rewrite (proj2 (Z.eqb_neq _ _)) by (intros ->; apply Hz; left).
    run (ld_ok s c n Hn). rewrite Hnm. destruct (decide (nm = name)); [done|].
    apply IH; [done|intros Hx; apply Hz; by right|cbn in Hf; lia].
Qed.
Lemma dentry_lookup_child_ok K s d x : Cache K s → dents s !! d = Some x → d ≠ lru_head →
  ∃ l, K !! d = Some l ∧ ∀ name, dentry_lookup_child d name s = Some (default 0 (assoc name l), s).
Proof.
  intros HC Hd Hdh. destruct (c_kids _ _ _ HC _ _ Hd Hdh) as (l & HK & Hch & _ & Hnd). exists l. split; [done|]. intros name.
  unfold dentry_lookup_child. run (ld_ok s d x Hd). rewrite bind_gets. apply lookup_from_ok; [done| |].
  - intros Hz. by apply (entry_nonnull K s d l 0 HC HK Hz).
  - pose proof (chain_length _ _ _ _ _ Hch Hnd). lia.
Qed.

(** ** Adding a dentry *)
Definition new_dentry (name : list Z) (parent next : Z) : dentry := mk_d name 0 parent 0 next 0 0 1 1 0.

(** No dentry has [c] as a child. *)
Definition unlinked (K : gmap Z entries) (c : Z) : Prop := ∀ e l, K !! e = Some l → c ∉ l.*2.

Lemma fresh_unlinked K s c : Cache K s → dents s !! c = None → unlinked K c.
Proof.
  intros HC Hc e le HKe ([nm c'] & Ec & Hin)%list_elem_of_fmap. cbn in Ec. subst c'.
  destruct (c_entry _ _ _ HC _ _ _ _ HKe Hin) as (_ & _ & x' & y' & _ & Hy' & _). congruence.
Qed.

(** A new dentry that is nobody's child. *)
Lemma Cache_new K s c y :
  Cache K s → dents s !! c = None → c ≠ 0 → d_inode y = 0 → d_child y = 0 → lru_prev y = 0 → lru_next y = 0 →
  Cache (<[c := []]> K) (set_dents (<[c := y]> (dents s)) s).
Proof.
  intros HC Hc Hc0 E1 E2 E3 E4. pose proof (fresh_unlinked _ _ _ HC Hc) as Hout. pose proof HC as [Hfs Hsb Hroot Hsp Hk He Hq Hm Hl Hu Hh].
  assert (∀ e z, dents s !! e = Some z → <[c := y]> (dents s) !! e = Some z) as Hfwd by (intros e z Hz; by rewrite lookup_insert_ne by congruence).
  assert (∀ e z, <[c := y]> (dents s) !! e = Some z → (e = c ∧ z = y) ∨ (e ≠ c ∧ dents s !! e = Some z)) as Hinv.
  { intros e z. destruct (decide (e = c)) as [->|Hec]; [rewrite lookup_insert_eq; intros [= <-]; by left|].
    rewrite lookup_insert_ne by done. by right. }
  assert (c ≠ root_dentry s) as Hcr by (intros ->; destruct Hroot as (r & Hr & _); congruence).
  constructor; cbn [dents root_dentry root_sb vfs set_dents]; [done|done| | | | | | | | |].
  - destruct Hroot as (r & Hr & Hr0). exists r. auto.
  - destruct Hsp as (S1 & S2 & S3). split_and!; [done|done|]. by rewrite lookup_insert_ne.
  - intros e z Hz Heh. destruct (Hinv _ _ Hz) as [[-> ->]|[Hec Hz0]].
    + exists []. rewrite lookup_insert_eq, E2. split_and!; [done|done|constructor|constructor].
    + destruct (Hk _ _ Hz0 Heh) as (le & HKe & Hche & Hne). exists le. rewrite lookup_insert_ne by done.
      split; [done|]. split; [|done]. apply chain_insert_out; [by eapply Hout|done].
  - intros e le nm k HKe Hin. destruct (decide (e = c)) as [->|Hec].
    + rewrite lookup_insert_eq in HKe. injection HKe as <-. by apply elem_of_nil in Hin.
    + rewrite lookup_insert_ne in HKe by done. destruct (He _ _ _ _ HKe Hin) as (S1 & S2 & x0 & y0 & Hx0 & Hy0 & Hres).
      split_and!; [done|done|]. exists x0, y0. auto.
  - intros e1 l1 e2 l2 k H1 H2 I1 I2. destruct (decide (e1 = c)) as [->|E1']; [rewrite lookup_insert_eq in H1; injection H1 as <-; by apply elem_of_nil in I1|].
    destruct (decide (e2 = c)) as [->|E2']; [rewrite lookup_insert_eq in H2; injection H2 as <-; by apply elem_of_nil in I2|].
    rewrite lookup_insert_ne in H1, H2 by done. by apply (Hq e1 l1 e2 l2 k).
  - intros nm j Hj. destruct (Hm _ _ Hj) as (le & k & z & HKr & Hin & Hz & Hzj). exists le, k, z.
    rewrite lookup_insert_ne by done. auto.
  - intros e z Hz Hi. destruct (Hinv _ _ Hz) as [[-> ->]|[Hec Hz0]]; [done|by eapply Hl].
  - intros e z Hz. destruct (Hinv _ _ Hz) as [[-> ->]|[Hec Hz0]]; [rewrite E3, E4; split; by left|].
    destruct (Hu _ _ Hz0). split; by apply ptr_ok_insert.
  - destruct Hh as (h & Hhh & Hh0). exists h. auto.
Qed.

(** A negative dentry that is nobody's child becomes the first child of [d]. *)
Lemma Cache_link K s d x l c y :
  Cache K s → dents s !! d = Some x → d ≠ lru_head → K !! d = Some l → d_name y ∉ l.*1 → c ≠ d → c ≠ root_dentry s → c ≠ lru_head →
  dents s !! c = Some y → K !! c = Some [] → unlinked K c → d_inode y = 0 →
  Cache (<[d := (d_name y, c) :: l]> K) (set_dents (<[d := set_child c x]> (<[c := set_next (d_child x) y]> (dents s))) s).
Proof.
  intros HC Hd Hdh HK Hname Hcd Hcr Hch0 Hc HKc Hout Hyi. pose proof HC as [Hfs Hsb Hroot Hsp Hk He Hq Hm Hl Hu Hh].
  destruct (Hk _ _ Hd Hdh) as (l0 & HK0 & Hch & Hn1 & Hn2). assert (l0 = l) as -> by congruence.
  set (ds := <[d := set_child c x]> (<[c := set_next (d_child x) y]> (dents s))).
  assert (∀ e z, dents s !! e = Some z → ∃ z', ds !! e = Some z' ∧ d_name z' = d_name z ∧ d_inode z' = d_inode z ∧
    (e ≠ c → d_next z' = d_next z) ∧ lru_prev z' = lru_prev z ∧ lru_next z' = lru_next z ∧
    d_child z' = if decide (e = d) then c else d_child z) as Hfwd.
  { intros e z Hz. unfold ds. destruct (decide (e = d)) as [->|Hed].
    - exists (set_child c x). rewrite lookup_insert_eq. assert (z = x) as -> by congruence. done.
    - rewrite lookup_insert_ne by done. destruct (decide (e = c)) as [->|Hec].
      + exists (set_next (d_child x) y). rewrite lookup_insert_eq. assert (z = y) as -> by congruence. done.
      + exists z. rewrite lookup_insert_ne by done. done. }
  assert (∀ e z, ds !! e = Some z → ∃ z0, dents s !! e = Some z0 ∧ d_inode z = d_inode z0 ∧
    lru_prev z = lru_prev z0 ∧ lru_next z = lru_next z0 ∧ d_child z = if decide (e = d) then c else d_child z0) as Hinv.
  { intros e z Hz. assert (is_Some (dents s !! e)) as [z0 Hz0].
    { unfold ds in Hz. apply (mk_is_Some _ z) in Hz. rewrite !lookup_insert_is_Some' in Hz. destruct Hz as [<-|[<-|Hz]]; eauto. }
    destruct (Hfwd _ _ Hz0) as (z' & Hz' & F1 & F2 & _ & F4 & F5 & F6). assert (z' = z) as -> by congruence. by exists z0. }
  assert (∀ a le, c ∉ le.*2 → dchain (dents s) a le → dchain ds a le) as Hold.
  { intros a le Hcl Hche. apply (chain_ext _ _ (dents s)); [|done]. intros e Hin. destruct (chain_live _ _ _ _ _ _ Hche Hin) as [z Hz].
    destruct (Hfwd _ _ Hz) as (z' & Hz' & E1 & _ & E3 & _). exists z, z'. split_and!; try done. apply E3. intros ->. done. }
  assert (∀ p, ptr_ok (dents s) p → ptr_ok ds p) as Hptr by (intros p Hpp; by apply ptr_ok_insert, ptr_ok_insert).
  constructor; cbn [dents root_dentry root_sb vfs set_dents]; fold ds; [done|done| | | | | | | | |].
  - destruct Hroot as (r & Hr & Hr0). destruct (Hfwd _ _ Hr) as (r' & Hr' & _ & E & _). exists r'. rewrite E. done.
  - destruct Hsp as (S1 & S2 & S3). split_and!; [done|done|]. unfold ds. rewrite !lookup_insert_ne; [done|congruence|congruence].
  - intros e z Hz Heh. destruct (Hinv _ _ Hz) as (z0 & Hz0 & _ & _ & _ & Ec). destruct (decide (e = d)) as [->|Hed].
    + exists ((d_name y, c) :: l). rewrite lookup_insert_eq, Ec. split_and!; [done| | |].
      * cbn [Chains.chain]. split; [done|]. exists (set_next (d_child x) y). unfold ds. rewrite lookup_insert_ne, lookup_insert_eq by congruence.
        split_and!; [done|done|]. apply Hold; [by eapply Hout|done].
      * cbn. by constructor.
      * cbn. constructor; [by eapply Hout|done].
    + destruct (Hk _ _ Hz0 Heh) as (le & HKe & Hche & Hne). exists le. rewrite lookup_insert_ne by congruence. rewrite Ec.
      split; [done|]. split; [|done]. apply Hold; [by eapply Hout|done].
  - intros e le nm k HKe Hin.
    assert (∀ le0, K !! e = Some le0 → (nm, k) ∈ le0 → k ≠ root_dentry s ∧ k ≠ lru_head ∧ ∃ x' y', ds !! e = Some x' ∧ ds !! k = Some y' ∧
      (d_inode y' ≠ 0 → d_inode x' ≠ 0 ∧ resolve_in mnt (vfs s) (bool_decide (e = root_dentry s)) (d_inode x') nm = Some (d_inode y'))) as Hgo.
    { intros le0 HKe0 Hin0. destruct (He _ _ _ _ HKe0 Hin0) as (S1 & S2 & x0 & y0 & Hx0 & Hy0 & Hres). split_and!; [done|done|].
      destruct (Hfwd _ _ Hx0) as (x' & Hx' & _ & E & _). destruct (Hfwd _ _ Hy0) as (y' & Hy' & _ & E' & _). exists x', y'. rewrite E, E'. done. }
    destruct (decide (e = d)) as [->|Hed].
    + rewrite lookup_insert_eq in HKe. injection HKe as <-. apply elem_of_cons in Hin as [[= -> ->]|Hin]; [|by eapply Hgo].
      split_and!; [done|done|]. destruct (Hfwd _ _ Hd) as (x' & Hx' & _). destruct (Hfwd _ _ Hc) as (y' & Hy' & _ & E' & _).
      exists x', y'. by rewrite E', Hyi.
    + rewrite lookup_insert_ne in HKe by done. by eapply Hgo.
  - assert (∀ e le k, <[d := (d_name y, c) :: l]> K !! e = Some le → k ∈ le.*2 → (e = d ∧ k = c) ∨ (∃ l0, K !! e = Some l0 ∧ k ∈ l0.*2)) as Hinv'.
    { intros e le k HKe Hin. destruct (decide (e = d)) as [->|Hed].
      - rewrite lookup_insert_eq in HKe. injection HKe as <-. cbn in Hin. apply elem_of_cons in Hin as [->|Hin]; [by left|right; by exists l].
      - rewrite lookup_insert_ne in HKe by done. right. by exists le. }
    intros e1 l1 e2 l2 k K1 K2 I1 I2. destruct (Hinv' _ _ _ K1 I1) as [[-> ->]|(k1 & K1' & I1')].
    + destruct (Hinv' _ _ _ K2 I2) as [[-> _]|(k2 & K2' & I2')]; [done|]. by destruct (Hout _ _ K2').
    + destruct (Hinv' _ _ _ K2 I2) as [[-> ->]|(k2 & K2' & I2')]; [by destruct (Hout _ _ K1')|]. by eapply Hq.
  - intros nm j Hj. destruct (Hm _ _ Hj) as (le & k & z & HKr & Hin & Hz & Hzj). destruct (Hfwd _ _ Hz) as (z' & Hz' & _ & E & _).
    destruct (decide (root_dentry s = d)) as [Erd|].
    + exists ((d_name y, c) :: l), k, z'. rewrite Erd, lookup_insert_eq, E. split_and!; [done| |done|by apply Hzj|by apply Hzj].
      rewrite Erd in HKr. assert (le = l) as -> by congruence. by right.
    + exists le, k, z'. rewrite lookup_insert_ne by congruence. rewrite E. done.
  - intros e z Hz Hi. destruct (Hinv _ _ Hz) as (z0 & Hz0 & E & _). rewrite E in *. by eapply Hl.
  - intros e z Hz. destruct (Hinv _ _ Hz) as (z0 & Hz0 & _ & E1 & E2 & _). rewrite E1, E2. destruct (Hu _ _ Hz0). split; by apply Hptr.
  - destruct Hh as (h & Hhh & Hh0). destruct (Hfwd _ _ Hhh) as (h' & Hh' & _ & _ & _ & _ & E & _). exists h'. rewrite E. done.
Qed.
End lookup.

(** ** One component of a path, and the loop over the components *)
(** The allocator grants [n] dentries with their names, at fresh addresses. *)
Fixpoint fresh_mem (n : nat) (used : gset Z) (mem : list (option Z)) : Prop :=
  match n with
  | O => True
  | S n => match mem with
           | Some a :: Some b :: m => a ≠ 0 ∧ b ≠ 0 ∧ a ∉ used ∧ fresh_mem n ({[a]} ∪ used) m
           | _ => False
           end
  end.
Lemma fresh_mem_less n : ∀ used mem, fresh_mem (S n) used mem → fresh_mem n used mem.
Proof.
  induction n as [|n IH]; intros used mem; [done|]. intros Hf. cbn [fresh_mem] in Hf. destruct mem as [|[a|] [|[b|] m]]; try done.
  destruct Hf as (H1 & H2 & H3 & H4). cbn [fresh_mem]. split_and!; try done. by apply IH.
Qed.

(** ** Paths *)
Fixpoint split_slash (p : list Z) : list (list Z) :=
  match p with
  | [] => [[]]
  | c :: q => match split_slash q with
              | w :: ws => if c =? 47 then [] :: w :: ws else (c :: w) :: ws
              | [] => []
              end
  end.
(** The names of a path: empty ones and "." do not count. *)
Definition parts (p : list Z) : list (list Z) := filter (λ n, n ≠ [] ∧ n ≠ [46]) (split_slash p).
Definition valid_name (n : list Z) : bool := negb (255 <? length n)%nat && negb (is_path_traversal n).

Lemma split_slash_cons p : ∃ w ws, split_slash p = w :: ws.
Proof.
  induction p as [|c q (w & ws & IH)]; [by exists [], []|]. cbn [split_slash]. rewrite IH. destruct (c =? 47); eauto.
Qed.
Lemma component_split p : ∀ n rest, component p = (n, rest) →
  split_slash p = n :: match rest with [] => [] | _ :: q => split_slash q end ∧
  (rest = [] ∨ ∃ q, rest = 47 :: q) ∧ length p = (length n + length rest)%nat.
Proof.
  induction p as [|c q IH]; intros n rest; cbn [component].
  - intros [= <- <-]. split; [done|]. split; [by left|done].
  - destruct (Z.eqb_spec c 47) as [->|Hc].
    + intros [= <- <-]. cbn [split_slash]. rewrite Z.eqb_refl. destruct (split_slash_cons q) as (w & ws & E). rewrite E.
      split; [done|]. split; [right; by exists q|done].
    + destruct (component q) as [n' r'] eqn:E. intros [= <- <-]. destruct (IH n' r' eq_refl) as (H1 & H2 & H3). cbn [split_slash].
      rewrite H1. rewrite (proj2 (Z.eqb_neq _ _)) by done. split; [done|]. split; [done|]. cbn. lia.
Qed.
Lemma parts_nil : parts [] = [].
Proof. done. Qed.
Lemma parts_component p n rest : component p = (n, rest) →
  parts p = (if decide (n ≠ [] ∧ n ≠ [46]) then [n] else []) ++ parts (skip_slash rest).
Proof.
  intros E. destruct (component_split p n rest E) as (H1 & H2 & _). unfold parts. rewrite H1, filter_cons.
  assert (filter (λ n, n ≠ [] ∧ n ≠ [46]) match rest with [] => [] | _ :: q => split_slash q end = parts (skip_slash rest)) as ->.
  { destruct H2 as [->|(q & ->)]; done. }
  by destruct (decide (n ≠ [] ∧ n ≠ [46])).
Qed.

Section walk.
Context `{FL : FsLaws F} (mnt : gmap (list Z) Z).
Abbreviation dchain := (Chains.chain d_name d_next).
Abbreviation Cache := (Cache mnt).
Abbreviation tree_step := (tree_step mnt).

(** Room for [n] more dentries. *)
Record room (n : nat) (s : vstate F) : Prop := mk_room {
  rm_mem : fresh_mem n (dom (dents s)) (vmem s);
  rm_total : dentry_total s + Z.of_nat n ≤ MAX_DENTRIES
}.
Lemma room_less n s : room (S n) s → room n s.
Proof. intros [R1 R2]. constructor; [by apply fresh_mem_less|lia]. Qed.

(** What a lookup leaves alone. *)
Record kept (s s' : vstate F) : Prop := mk_kept {
  kp_root : root_dentry s' = root_dentry s;
  kp_sb : root_sb s' = root_sb s;
  kp_fs : fs_same (vfs s) (vfs s');
  kp_dents : ∀ d x, dents s !! d = Some x → ∃ x', dents s' !! d = Some x' ∧ d_name x' = d_name x ∧ (d_inode x ≠ 0 → d_inode x' = d_inode x)
}.
Lemma kept_refl s : kept s s.
Proof. constructor; [done|done|apply fs_same_refl|]. intros d x Hx. by exists x. Qed.
Lemma kept_trans s1 s2 s3 : kept s1 s2 → kept s2 s3 → kept s1 s3.
Proof.
  intros [A1 A2 A3 A4] [B1 B2 B3 B4]. constructor; [congruence|congruence|by eapply fs_same_trans|].
  intros d x Hx. destruct (A4 _ _ Hx) as (y & Hy & E1 & E2). destruct (B4 _ _ Hy) as (z & Hz & E3 & E4). exists z.
  split_and!; [done|congruence|]. intros Hi. rewrite E4; [by apply E2|]. by rewrite E2.
Qed.

(** ** Changes beside the dentries *)
Lemma Cache_beside K (s s' : vstate F) :
  Cache K s → dents s' = dents s → root_dentry s' = root_dentry s → root_sb s' = root_sb s → vfs s' = vfs s → Cache K s'.
Proof. intros [] E1 E2 E3 E4. constructor; rewrite ?E1, ?E2, ?E3, ?E4; done. Qed.
Lemma kept_beside (s s' : vstate F) :
  dents s' = dents s → root_dentry s' = root_dentry s → root_sb s' = root_sb s → vfs s' = vfs s → kept s s'.
Proof. intros E1 E2 E3 E4. constructor; rewrite ?E1, ?E2, ?E3, ?E4; [done|done|apply fs_same_refl|]. intros d x Hx. by exists x. Qed.
Lemma tree_step_kept K s s' : tree_step K s s' → kept s s'.
Proof.
  intros [_ T2 _ (ds & ->)]. constructor; [done|done|apply fs_same_refl|]. intros d x Hx.
  destruct (T2 _ _ Hx) as (x' & Hx' & E1 & E2 & _). exists x'. split_and!; [done|done|by intros _].
Qed.
Lemma tree_step_room K s s' n : tree_step K s s' → room n s → room n s'.
Proof. intros [_ _ Hd (ds & ->)] [R1 R2]. constructor; [|done]. cbn in *. by rewrite Hd. Qed.

(** The file system changes, but not what it holds. *)
Lemma Cache_fs K s f : Cache K s → fs_ok f → fs_same (vfs s) f → Cache K (set_fs f s).
Proof.
  intros [] Hf [S1 S2]. constructor; cbn [dents root_dentry root_sb vfs set_fs]; try done.
  - intros d l name c H1 H2. destruct (c_entry _ _ _ _ H1 H2) as (E1 & E2 & x & y & Hx & Hy & Hr). split_and!; [done|done|].
    exists x, y. split_and!; [done|done|]. intros Hi. destruct (Hr Hi) as [Hxi Hr']. split; [done|]. revert Hr'. unfold resolve_in.
    destruct (if bool_decide _ then _ else _); [done|]. rewrite S2; [done|]. by eapply c_live.
  - intros d x Hx Hi. apply S1. by eapply c_live.
Qed.

(** A negative child learns its inode. *)
Lemma Cache_positive K s d l x name c y j :
  Cache K s → K !! d = Some l → (name, c) ∈ l → dents s !! d = Some x → dents s !! c = Some y → d_inode x ≠ 0 → d_inode y = 0 →
  d ≠ lru_head → fs_live (vfs s) j → resolve_in mnt (vfs s) (bool_decide (d = root_dentry s)) (d_inode x) name = Some j →
  Cache K (set_dents (<[c := set_inode j y]> (dents s)) s).
Proof.
  intros HC HK Hin Hd Hc Hxi Hyi Hdh Hj Hres. pose proof HC as [Hfs Hsb Hroot Hsp Hk He Hq Hm Hl Hu Hh].
  destruct (He _ _ _ _ HK Hin) as (Hcr & Hch & _).
  assert (∀ e z, dents s !! e = Some z → ∃ z', <[c := set_inode j y]> (dents s) !! e = Some z' ∧ d_name z' = d_name z ∧ d_child z' = d_child z ∧
    d_next z' = d_next z ∧ lru_prev z' = lru_prev z ∧ lru_next z' = lru_next z ∧ d_inode z' = if decide (e = c) then j else d_inode z) as Hfwd.
  { intros e z Hz. destruct (decide (e = c)) as [->|Hec].
    - exists (set_inode j y). rewrite lookup_insert_eq. assert (z = y) as -> by congruence. done.
    - exists z. rewrite lookup_insert_ne by done. done. }
  assert (∀ e z, <[c := set_inode j y]> (dents s) !! e = Some z → ∃ z0, dents s !! e = Some z0 ∧ d_child z = d_child z0 ∧
    lru_prev z = lru_prev z0 ∧ lru_next z = lru_next z0 ∧ d_inode z = if decide (e = c) then j else d_inode z0) as Hinv.
  { intros e z Hz. assert (is_Some (dents s !! e)) as [z0 Hz0].
    { apply (mk_is_Some _ z) in Hz. rewrite lookup_insert_is_Some' in Hz. destruct Hz as [<-|Hz]; eauto. }
    destruct (Hfwd _ _ Hz0) as (z' & Hz' & F1 & F2 & F3 & F4 & F5 & F6). assert (z' = z) as -> by congruence. by exists z0. }
  constructor; cbn [dents root_dentry root_sb vfs set_dents]; [done|done| | | | |done| | | |].
  - destruct Hroot as (r & Hr & Hr0). destruct (Hfwd _ _ Hr) as (r' & Hr' & _ & _ & _ & _ & _ & E). exists r'.
    rewrite E, decide_False by done. done.
  - destruct Hsp as (S1 & S2 & S3). split_and!; [done|done|]. rewrite lookup_insert_ne by congruence. done.
  - intros e z Hz Heh. destruct (Hinv _ _ Hz) as (z0 & Hz0 & Ec & _). destruct (Hk _ _ Hz0 Heh) as (le & HKe & Hche & Hne). exists le.
    split; [done|]. split; [|done]. rewrite Ec. by eapply chain_update.
  - intros e le nm k HKe Hin'. destruct (He _ _ _ _ HKe Hin') as (S1 & S2 & x0 & y0 & Hx0 & Hy0 & Hr). split_and!; [done|done|].
    destruct (Hfwd _ _ Hx0) as (x' & Hx' & _ & _ & _ & _ & _ & E). destruct (Hfwd _ _ Hy0) as (y' & Hy' & _ & _ & _ & _ & _ & E').
    exists x', y'. split_and!; [done|done|]. rewrite E, E'. intros Hi. destruct (decide (k = c)) as [->|Hkc].
    + assert (e = d) as ->.
      { apply (Hq e le d l c HKe HK); apply list_elem_of_fmap; [by exists (nm, c)|by exists (name, c)]. }
      assert (le = l) as -> by congruence. assert (x0 = x) as -> by congruence.
      assert (nm = name) as ->.
      { destruct (Hk _ _ Hd) as (l' & HK' & _ & _ & Hn2); [done|].
        assert (l' = l) as -> by congruence. apply list_elem_of_lookup in Hin' as [i1 Hi1], Hin as [i2 Hi2].
        assert (i1 = i2) as -> by (eapply (NoDup_lookup l.*2 i1 i2 c); [done| |]; by rewrite list_lookup_fmap, ?Hi1, ?Hi2).
        congruence. }
      destruct (decide (d = c)) as [->|]; [congruence|]. done.
    + destruct (Hr Hi) as [Hxi0 Hr']. destruct (decide (e = c)) as [->|]; [|done].
      assert (x0 = y) as -> by congruence. by destruct (Hxi0 Hyi).
  - intros nm i Hi. destruct (Hm _ _ Hi) as (le & k & z & HKr & Hin' & Hz & Ezi & Hi0). destruct (Hfwd _ _ Hz) as (z' & Hz' & _ & _ & _ & _ & _ & E).
    exists le, k, z'. rewrite E. split_and!; [done|done|done| |done]. destruct (decide (k = c)) as [->|]; [|done].
    assert (z = y) as -> by congruence. congruence.
  - intros e z Hz Hi. destruct (Hinv _ _ Hz) as (z0 & Hz0 & _ & _ & _ & E). rewrite E in *. destruct (decide (e = c)); [done|by eapply Hl].
  - intros e z Hz. destruct (Hinv _ _ Hz) as (z0 & Hz0 & _ & E1 & E2 & _). rewrite E1, E2. destruct (Hu _ _ Hz0). split; by apply ptr_ok_insert.
  - destruct Hh as (h & Hhh & Hh0). destruct (Hfwd _ _ Hhh) as (h' & Hh' & _ & _ & _ & _ & E & _). exists h'. rewrite E. done.
Qed.

(** ** A new child *)
(** What else a step leaves alone, besides what the directories hold. *)
Record step_to (n : nat) (K : gmap Z entries) (s s' : vstate F) : Prop := mk_step_to {
  st_cache : Cache K s';
  st_kept : kept s s';
  st_room : room n s';
  st_locked : vfs_locked s' = vfs_locked s
}.
Lemma step_to_trans n m K K' s1 s2 s3 : step_to n K s1 s2 → step_to m K' s2 s3 → step_to m K' s1 s3.
Proof. intros [] []. constructor; [done|by eapply kept_trans|done|congruence]. Qed.
Lemma tree_step_to n K s s' : tree_step K s s' → room n s → step_to n K s s'.
Proof.
  intros HT Hr. constructor; [apply HT|by eapply tree_step_kept|by eapply tree_step_room|]. by destruct HT as [_ _ _ (ds & ->)].
Qed.

Lemma dentry_alloc_ok K s n name p :
  Cache K s → room (S n) s → name ≠ [] →
  ∃ a y s', dentry_alloc name p s = Some (a, s') ∧ a ≠ 0 ∧ dents s !! a = None ∧ dents s' !! a = Some y ∧ d_name y = name ∧ d_inode y = 0 ∧
    step_to n (<[a := []]> K) s s'.
Proof.
  intros HC [Hmem Htot] Hname. cbn [fresh_mem] in Hmem. destruct (vmem s) as [|[a|] [|[b|] m]] eqn:Em; try done.
  destruct Hmem as (Ha0 & Hb0 & Ha & Hmem). apply not_elem_of_dom in Ha. unfold dentry_alloc.
  set (s1 := mk_vs (dents s) (files s) (root_sb s) (root_dentry s) (dentry_total s) (dentry_evicted s) (vfs_locked s) (Some b :: m) (vfs s)).
  assert (kmalloc s = Some (a, s1)) as R1 by (unfold kmalloc; by rewrite Em). run R1. rewrite (proj2 (Z.eqb_neq _ _)) by done.
  set (s2 := mk_vs (dents s) (files s) (root_sb s) (root_dentry s) (dentry_total s) (dentry_evicted s) (vfs_locked s) m (vfs s)).
  assert (kmalloc s1 = Some (b, s2)) as R2 by done. run R2. rewrite (proj2 (Z.eqb_neq _ _)) by done. rewrite bind_modify.
  set (y := mk_d name 0 p 0 0 0 0 1 1 0). set (s3 := set_dents (<[a := y]> (dents s2)) s2).
  assert (Cache (<[a := []]> K) s3) as HC3.
  { apply Cache_new; [|done|done|done|done|done|done]. by eapply Cache_beside. }
  assert (a ≠ lru_head) as Hah by (intros ->; destruct (c_head _ _ _ HC) as (h & Hh & _); congruence).
  destruct (lru_add_step mnt _ s3 a y HC3) as (s4 & R4 & T4); [apply lookup_insert_eq|done|done|]. run R4. rewrite bind_modify, bind_gets.
  set (s5 := set_counts (dentry_total s4 + 1) (dentry_evicted s4) s4). destruct T4 as [T41 T42 T43 (ds & Hs4)].
  assert (dentry_total s5 = dentry_total s + 1) as Ht by (unfold s5; rewrite Hs4; done).
  change (dentry_total s5) with (dentry_total s4 + 1) in Ht |- *. rewrite (proj2 (Z.ltb_ge _ _)) by (rewrite Ht; lia). rewrite bind_ret_l.
  destruct (T42 a y) as (y' & Hy' & E1 & E2 & _); [apply lookup_insert_eq|].
  exists a, y', s5. split; [done|]. split; [done|]. split; [done|]. split; [done|]. split; [by rewrite E1|]. split; [by rewrite E2|].
  constructor.
  - by eapply Cache_beside.
  - constructor; [by unfold s5; rewrite Hs4|by unfold s5; rewrite Hs4|unfold s5; rewrite Hs4; apply fs_same_refl|].
    intros d x Hx. destruct (T42 d x) as (x' & Hx' & F1 & F2 & _); [cbn; rewrite lookup_insert_ne by congruence; done|].
    exists x'. by split_and!.
  - constructor.
    + cbn. rewrite T43. cbn. rewrite dom_insert_L. by unfold s5; rewrite Hs4.
    + change (dentry_total s4 + 1 + Z.of_nat n ≤ MAX_DENTRIES). lia.
  - by unfold s5; rewrite Hs4.
Qed.

Lemma add_child_ok K s n d x l c y :
  Cache K s → room n s → dents s !! d = Some x → d ≠ lru_head → K !! d = Some l → d_name y ∉ l.*1 → c ≠ d → c ≠ root_dentry s → c ≠ lru_head →
  dents s !! c = Some y → K !! c = Some [] → unlinked K c → d_inode y = 0 →
  ∃ y' s', dentry_add_child d c s = Some (tt, s') ∧ dents s' !! c = Some y' ∧ d_name y' = d_name y ∧ d_inode y' = 0 ∧
    step_to n (<[d := (d_name y, c) :: l]> K) s s'.
Proof.
  intros HC [Hm Ht] Hd Hdh HK Hname Hcd Hcr Hch Hc HKc Hout Hyi.
  pose proof (Cache_link mnt K s d x l c y HC Hd Hdh HK Hname Hcd Hcr Hch Hc HKc Hout Hyi) as HC'.
  unfold dentry_add_child. run (ld_ok s d x Hd). run (upd_ok s c y (set_next (d_child x)) Hc).
  set (s1 := set_dents _ s). assert (dents s1 !! d = Some x) as Hd1 by (cbn; by rewrite lookup_insert_ne).
  rewrite (upd_ok s1 d x (set_child c) Hd1). eexists (set_next (d_child x) y), _. split; [reflexivity|]. cbn.
  split; [by rewrite lookup_insert_ne, lookup_insert_eq by done|]. split; [done|]. split; [done|]. constructor; cbn.
  - exact HC'.
  - constructor; [done|done|apply fs_same_refl|]. intros e z Hz. cbn. destruct (decide (d = e)) as [<-|Hde].
    + exists (set_child c x). rewrite lookup_insert_eq. assert (z = x) as -> by congruence. done.
    + rewrite lookup_insert_ne by done. destruct (decide (c = e)) as [<-|Hce].
      * exists (set_next (d_child x) y). rewrite lookup_insert_eq. assert (z = y) as -> by congruence. done.
      * exists z. by rewrite lookup_insert_ne.
  - constructor; [|done]. cbn. rewrite (dom_insert_lookup_L (<[c:=_]> (dents s)) d) by (rewrite lookup_insert_ne by done; by eexists).
    rewrite (dom_insert_lookup_L (dents s) c) by (by eexists). done.
  - done.
Qed.

(** ** Asking the file system *)
Lemma on_fs_ok {A} (m : ST F A) (a : A) f s : m (vfs s) = Some (a, f) → on_fs m s = Some (a, set_fs f s).
Proof. intros E. unfold on_fs. by rewrite E. Qed.
Lemma step_fs n K s f : Cache K s → room n s → fs_ok f → fs_same (vfs s) f → step_to n K s (set_fs f s).
Proof.
  intros HC [Hm Ht] Hf Hs. constructor; [by apply Cache_fs| |by constructor|done]. constructor; [done|done|done|]. intros d x Hx. by exists x.
Qed.

(** The child of [d] is negative and not a mount point: it gets the inode the
    file system finds, if any. *)
Lemma ask_fs_ok K s n d x l name c y :
  Cache K s → room n s → K !! d = Some l → (name, c) ∈ l → dents s !! d = Some x → dents s !! c = Some y → d_inode x ≠ 0 → d_inode y = 0 →
  d ≠ lru_head → d_name y = name → (if bool_decide (d = root_dentry s) then mnt !! name else None) = None →
  ∃ y' s', ask_fs d c s = Some (tt, s') ∧ step_to n K s s' ∧ dents s' !! c = Some y' ∧ d_name y' = name ∧
    d_inode y' = default 0 (fs_child (vfs s) (d_inode x) name).
Proof.
  intros HC Hr HK Hin Hd Hc Hxi Hyi Hdh Hn Hmnt. pose proof (c_fs _ _ _ HC) as Hfs. pose proof (c_live _ _ _ HC _ _ Hd Hxi) as Hlive.
  unfold ask_fs. run (ld_ok s d x Hd). rewrite (proj2 (Z.eqb_neq _ _)) by done.
  destruct (law_ops (vfs s) (d_inode x) Hfs Hlive) as (ops & R1 & Hops).
  rewrite (bind_Some _ _ s ops s); [|rewrite (on_fs_ok _ _ _ s R1); by destruct s].
  destruct (f_lookup ops) as [lookup|].
  2: { rewrite Hops. exists y, s. split; [done|]. split; [|done]. constructor; [done|apply kept_refl|done|done]. }
  run (ld_ok s c y Hc). rewrite Hn. destruct (Hops name c) as (f' & R2 & Hf' & Hsame). run (on_fs_ok _ _ _ s R2).
  pose proof (step_fs n K s f' HC Hr Hf' Hsame) as T1. set (s1 := set_fs f' s) in *.
  destruct (fs_child (vfs s) (d_inode x) name) as [j|] eqn:Ej; cbn [default]; [|by exists y, s1].
  destruct (law_child (vfs s) (d_inode x) name j Hfs Hlive Ej) as [Hj Hj0].
  rewrite (upd_ok s1 c y (set_inode j) Hc). exists (set_inode j y). eexists. split; [reflexivity|]. split.
  - eapply step_to_trans; [exact T1|]. constructor.
    + eapply (Cache_positive K s1 d l x name c y j); try done; [apply T1|by apply Hsame|].
      unfold resolve_in. cbn [root_dentry s1 set_fs vfs]. rewrite Hmnt. rewrite (proj2 Hsame) by done. done.
    + constructor; [done|done|apply fs_same_refl|]. intros e z Hz. cbn. destruct (decide (c = e)) as [<-|Hce].
      * exists (set_inode j y). rewrite lookup_insert_eq. assert (z = y) as -> by (cbn in Hz; congruence). done.
      * exists z. by rewrite lookup_insert_ne.
    + destruct (st_room _ _ _ _ T1) as [Q1 Q2]. constructor; [|done]. cbn. rewrite (dom_insert_lookup_L (dents s) c) by (by eexists). done.
    + done.
  - cbn. rewrite lookup_insert_eq. done.
Qed.

(** ** One component *)
Record moved (n : nat) (K : gmap Z entries) (s s' : vstate F) : Prop := mk_moved {
  mv_cache : Cache K s';
  mv_kept : kept s s';
  mv_room : room n s'
}.
Lemma moved_trans n m K K' s1 s2 s3 : moved n K s1 s2 → moved m K' s2 s3 → moved m K' s1 s3.
Proof. intros [] []. constructor; [done|by eapply kept_trans|done]. Qed.
Lemma moved_step n K s s' : step_to n K s s' → moved n K s s'.
Proof. by intros []. Qed.
Lemma moved_refl n K s : Cache K s → room n s → moved n K s s.
Proof. intros HC Hr. constructor; [done|apply kept_refl|done]. Qed.
Lemma moved_locked n K s b : Cache K s → room n s → moved n K s (set_locked b s).
Proof. intros HC [R1 R2]. constructor; [by eapply Cache_beside|by apply kept_beside|by constructor]. Qed.
Lemma lock_ok (s : vstate F) : vfs_locked s = false → vfs_lock s = Some (tt, set_locked true s).
Proof. intros E. unfold vfs_lock. by rewrite E. Qed.

(** Counters change, the tree does not. *)
Lemma upd_count_ok n K s d x f :
  Cache K s → room n s → dents s !! d = Some x → same_tree x (f x) → lru_prev (f x) = lru_prev x → lru_next (f x) = lru_next x →
  d ≠ lru_head → ∃ s', upd d f s = Some (tt, s') ∧ step_to n K s s' ∧ dents s' = <[d := f x]> (dents s).
Proof.
  intros HC Hr Hd Hs E1 E2 Hh. destruct (c_lru _ _ _ HC _ _ Hd) as [P1 P2].
  destruct (upd_step mnt K s d x f HC Hd Hs) as (s' & R & T); [by rewrite E1|by rewrite E2|done|].
  exists s'. split; [done|]. split; [by apply tree_step_to|]. rewrite (upd_ok s d x f Hd) in R. by injection R as <-.
Qed.

Definition ask_and_wait (d c : Z) : VM Z :=
  (upd d (λ x, set_ref (d_refcount x + 1) x) ;;;
   vfs_unlock ;;;
   ask_fs d c ;;;
   vfs_lock ;;;
   upd d (λ x, if 0 <? d_refcount x then set_ref (d_refcount x - 1) x else x) ;;;
   x <- ld c ;;
   if d_inode x =? 0 then vfs_unlock ;;; ret 0 else
   on_fs (i_set_dentry (d_inode x) c) ;;;
   vfs_unlock ;;;
   ret c)%kernel.

Lemma ask_and_wait_ok K s n d x l name c y :
  Cache K s → room n s → vfs_locked s = true → K !! d = Some l → (name, c) ∈ l → dents s !! d = Some x → dents s !! c = Some y →
  d_inode x ≠ 0 → d_inode y = 0 → d ≠ lru_head → d_name y = name → (if bool_decide (d = root_dentry s) then mnt !! name else None) = None →
  ∃ r s', ask_and_wait d c s = Some (r, s') ∧ moved n K s s' ∧ vfs_locked s' = false ∧
    match fs_child (vfs s) (d_inode x) name with
    | Some j => r = c ∧ j ≠ 0 ∧ ∃ y', dents s' !! c = Some y' ∧ d_inode y' = j
    | None => r = 0
    end.
Proof.
  intros HC Hr Hlk HK Hin Hd Hc Hxi Hyi Hdh Hn Hmnt. unfold ask_and_wait.
  destruct (upd_count_ok n K s d x (λ x, set_ref (d_refcount x + 1) x) HC Hr Hd) as (s1 & R1 & T1 & E1); [done|done|done|done|]. run R1.
  unfold vfs_unlock at 1. rewrite bind_modify. set (s2 := set_locked false s1).
  pose proof (moved_locked n K s1 false (st_cache _ _ _ _ T1) (st_room _ _ _ _ T1)) as M2. fold s2 in M2.
  destruct (kp_dents _ _ (st_kept _ _ _ _ T1) _ _ Hd) as (x1 & Hx1 & _ & Ex1). specialize (Ex1 Hxi).
  assert (∃ y1, dents s2 !! c = Some y1 ∧ d_inode y1 = 0 ∧ d_name y1 = name) as (y1 & Hy1 & Ey1 & Ny1).
  { cbn. rewrite E1. destruct (decide (d = c)) as [->|Hdc]; [|exists y; by rewrite lookup_insert_ne].
    assert (y = x) as -> by congruence. done. }
  destruct (ask_fs_ok K s2 n d x1 l name c y1) as (y2 & s3 & R3 & T3 & Hy2 & Ny2 & Ey2); try done; [apply M2|apply M2|by rewrite Ex1| |].
  { cbn. by rewrite (kp_root _ _ (st_kept _ _ _ _ T1)). }
  run R3. run (lock_ok s3 (st_locked _ _ _ _ T3)). set (s4 := set_locked true s3).
  pose proof (moved_locked n K s3 true (st_cache _ _ _ _ T3) (st_room _ _ _ _ T3)) as M4. fold s4 in M4.
  destruct (kp_dents _ _ (st_kept _ _ _ _ T3) _ _ Hx1) as (x3 & Hx3 & _ & Ex3).
  set (dec := λ x : dentry, if 0 <? d_refcount x then set_ref (d_refcount x - 1) x else x).
  assert (∀ z, same_tree z (dec z) ∧ lru_prev (dec z) = lru_prev z ∧ lru_next (dec z) = lru_next z) as Hdec.
  { intros z. unfold dec. by destruct (0 <? d_refcount z). }
  destruct (upd_count_ok n K s4 d x3 dec (mv_cache _ _ _ _ M4) (mv_room _ _ _ _ M4) Hx3) as (s5 & R5 & T5 & E5); [apply Hdec..|done|]. run R5.
  assert (∃ y5, dents s5 !! c = Some y5 ∧ d_inode y5 = d_inode y2) as (y5 & Hy5 & Ey5).
  { rewrite E5. destruct (decide (d = c)) as [->|Hdc]; [|exists y2; by rewrite lookup_insert_ne].
    exists (dec x3). rewrite lookup_insert_eq. split; [done|]. assert (x3 = y2) as -> by congruence. apply Hdec. }
  run (ld_ok s5 c y5 Hy5). rewrite Ey5, Ey2, Ex1.
  assert (fs_child (vfs s2) (d_inode x) name = fs_child (vfs s) (d_inode x) name) as ->.
  { cbn. apply (proj2 (kp_fs _ _ (st_kept _ _ _ _ T1))). by apply (c_live _ _ _ HC _ _ Hd). }
  assert (moved n K s s5) as M5.
  { eapply moved_trans; [by apply moved_step|]. eapply moved_trans; [exact M2|]. eapply moved_trans; [by apply moved_step|].
    eapply moved_trans; [exact M4|by apply moved_step]. }
  destruct (fs_child (vfs s) (d_inode x) name) as [j|] eqn:Ej; cbn [default from_option id].
  - destruct (law_child (vfs s) (d_inode x) name j (c_fs _ _ _ HC) (c_live _ _ _ HC _ _ Hd Hxi) Ej) as [Hj Hj0].
    rewrite (proj2 (Z.eqb_neq _ _)) by done. destruct (law_back (vfs s5) j c) as (f' & Rb & Hf' & Hsame).
    { apply (mv_cache _ _ _ _ M5). }
    { by apply (kp_fs _ _ (mv_kept _ _ _ _ M5)). }
    run (on_fs_ok _ _ _ s5 Rb). unfold vfs_unlock. rewrite bind_modify.
    pose proof (step_fs n K s5 f' (mv_cache _ _ _ _ M5) (mv_room _ _ _ _ M5) Hf' Hsame) as T6.
    exists c, (set_locked false (set_fs f' s5)). split; [done|]. split; [|split; [done|]].
    + eapply moved_trans; [exact M5|]. eapply moved_trans; [by apply moved_step|]. apply moved_locked; apply T6.
    + split; [done|]. split; [done|]. exists y5. split; [done|]. by rewrite Ey5, Ey2, Ex1; cbn; rewrite (proj2 (kp_fs _ _ (st_kept _ _ _ _ T1))), Ej by (by apply (c_live _ _ _ HC _ _ Hd)).
  - cbn. exists 0, (set_locked false s5). split; [done|]. split; [|done]. eapply moved_trans; [exact M5|]. apply moved_locked; apply M5.
Qed.

(** A child that is absent or negative is not a mount point. *)
Lemma not_mount K s d l name : Cache K s → K !! d = Some l → d ≠ lru_head →
  (assoc name l = None ∨ ∃ c y, assoc name l = Some c ∧ dents s !! c = Some y ∧ d_inode y = 0) →
  (if bool_decide (d = root_dentry s) then mnt !! name else None) = None.
Proof.
  intros HC HK Hdh Ha. case_bool_decide as Hroot; [|done]. destruct (mnt !! name) as [j|] eqn:Em; [|done].
  destruct (c_mounts _ _ _ HC _ _ Em) as (l' & c & y & HKr & Hin & Hy & Hj & Hj0). rewrite <- Hroot in HKr. assert (l' = l) as -> by congruence.
  assert (assoc name l = Some c) as Has.
  { destruct (c_root _ _ _ HC) as (r & Hr & _). rewrite <- Hroot in Hr. destruct (c_kids _ _ _ HC _ _ Hr Hdh) as (l' & HK' & _ & Hn1 & _).
    assert (l' = l) as -> by congruence. clear -Hin Hn1. induction l as [|[n k] l IH]; [by apply elem_of_nil in Hin|]. cbn in Hn1 |- *.
    apply NoDup_cons in Hn1 as [Hn Hn1]. apply elem_of_cons in Hin as [[= -> ->]|Hin]; [by rewrite decide_True|].
    rewrite decide_False; [by apply IH|]. intros ->. apply Hn. apply list_elem_of_fmap. by exists (name, c). }
  destruct Ha as [Ha|(c' & y' & Ha & Hy' & Hi)]; congruence.
Qed.

Lemma lookup_step_ok K s n d x name :
  Cache K s → room (S n) s → vfs_locked s = false → dents s !! d = Some x → d ≠ lru_head → d_inode x ≠ 0 → name ≠ [] →
  ∃ r K' s', lookup_step d name s = Some (r, s') ∧ moved n K' s s' ∧ vfs_locked s' = false ∧
    match resolve_in mnt (vfs s) (bool_decide (d = root_dentry s)) (d_inode x) name with
    | Some j => r ≠ 0 ∧ r ≠ lru_head ∧ r ≠ root_dentry s ∧ j ≠ 0 ∧ ∃ y, dents s' !! r = Some y ∧ d_inode y = j
    | None => r = 0
    end.
Proof.
  intros HC Hr Hlk Hd Hdh Hxi Hname. unfold lookup_step. run (lock_ok s Hlk). set (s1 := set_locked true s).
  pose proof (moved_locked _ K s true HC Hr) as M1. fold s1 in M1. destruct M1 as [HC1 HK1 Hr1].
  destruct (dentry_lookup_child_ok mnt K s1 d x HC1 Hd Hdh) as (l & HK & Hlook). run (Hlook name).
  destruct (c_kids _ _ _ HC1 _ _ Hd Hdh) as (l0 & HK0 & _ & Hn1 & Hn2). assert (l0 = l) as -> by congruence.
  destruct (assoc name l) as [c|] eqn:Ea; cbn [default from_option id].
  - pose proof (assoc_elem _ _ _ Ea) as Hin. pose proof (entry_nonnull mnt K s1 d l c HC1 HK (assoc_elem_2 _ _ _ Ea)) as Hc0.
    destruct (c_entry _ _ _ HC1 _ _ _ _ HK Hin) as (Hcr & Hch & x' & y & Hx' & Hy & Hres). assert (x' = x) as -> by (cbn in Hx'; congruence).
    assert (d_name y = name) as Hyn.
    { destruct (c_kids _ _ _ HC1 _ _ Hd Hdh) as (l' & HK' & Hch' & _). assert (l' = l) as -> by congruence.
      destruct (chain_name _ _ _ _ _ _ _ Hch' Hin) as (y' & Hy' & E). congruence. }
    rewrite (proj2 (Z.eqb_neq _ _)) by done. unfold bind at 1. run (ld_ok s1 c y Hy). cbn [ret].
    destruct (Z.eqb_spec (d_inode y) 0) as [Hyi|Hyi]; cbn [negb].
    + assert ((if bool_decide (d = root_dentry s) then mnt !! name else None) = None) as Hmnt.
      { eapply (not_mount K s1); [done|done|done|]. right. by exists c, y. }
      rewrite bind_ret_l, (proj2 (Z.eqb_neq c 0)) by done.
      destruct (ask_and_wait_ok K s1 n d x l name c y HC1 (room_less _ _ Hr1)) as (r & s' & R & M & Hlk' & Hres'); try done.
      exists r, K, s'. split; [exact R|]. split; [|split; [done|]].
      * eapply moved_trans; [|exact M]. by constructor.
      * unfold resolve_in. rewrite Hmnt. change (vfs s1) with (vfs s) in Hres'. destruct (fs_child (vfs s) (d_inode x) name) as [j|]; [|done].
        destruct Hres' as (-> & Hj0 & y' & Hy' & E). split_and!; try done. by exists y'.
    + destruct (Hres Hyi) as [_ Hres']. change (vfs s1) with (vfs s) in Hres'. change (root_dentry s1) with (root_dentry s) in Hres'. rewrite Hres'.
      destruct (upd_count_ok n K s1 c y (λ x, set_access (access_count x + 1) x) HC1 (room_less _ _ Hr1) Hy) as (s2 & R2 & T2 & E2); [done|done|done|done|]. run R2.
      assert (dents s2 !! c = Some (set_access (access_count y + 1) y)) as Hy2 by (rewrite E2; apply lookup_insert_eq).
      destruct (lru_touch_step mnt K s2 c _ (st_cache _ _ _ _ T2) Hy2 Hch Hc0) as (s3 & R3 & T3). run R3.
      pose proof (tree_step_to n K s2 s3 T3 (st_room _ _ _ _ T2)) as T3'. unfold vfs_unlock. rewrite bind_modify.
      exists c, K, (set_locked false s3). split; [done|]. split; [|split; [done|]].
      * eapply moved_trans; [by constructor; [exact HC1|exact HK1|apply room_less; exact Hr1]|]. eapply moved_trans; [by apply moved_step|].
        eapply moved_trans; [by apply moved_step|]. apply moved_locked; apply T3'.
      * destruct (ts_dents _ _ _ _ T3 _ _ Hy2) as (y3 & Hy3 & _ & Ei & _). split_and!; try done. exists y3. done.
  - assert ((if bool_decide (d = root_dentry s) then mnt !! name else None) = None) as Hmnt.
    { eapply (not_mount K s1); [done|done|done|]. by left. }
    rewrite Z.eqb_refl, bind_ret_l.
    destruct (dentry_alloc_ok K s1 n name d HC1 Hr1 Hname) as (a & y & s2 & R2 & Ha0 & Hfresh & Hy & Hyn & Hyi & T2).
    destruct (kp_dents _ _ (st_kept _ _ _ _ T2) _ _ Hd) as (x2 & Hx2 & _ & Ex2). specialize (Ex2 Hxi).
    assert (a ≠ d) as Had by (intros ->; cbn in Hfresh; congruence).
    assert (a ≠ root_dentry s) as Har by (intros ->; destruct (c_root _ _ _ HC) as (z & Hz & _); cbn in Hfresh; congruence).
    assert (a ≠ lru_head) as Hah by (intros ->; destruct (c_head _ _ _ HC) as (z & Hz & _); cbn in Hfresh; congruence).
    pose proof (kp_root _ _ (st_kept _ _ _ _ T2)) as Hroot2. change (root_dentry s1) with (root_dentry s) in Hroot2.
    destruct (add_child_ok (<[a := []]> K) s2 n d x2 l a y (st_cache _ _ _ _ T2) (st_room _ _ _ _ T2) Hx2 Hdh) as (y3 & s3 & R3 & Hy3 & Hyn3 & Hyi3 & T3);
      [by rewrite lookup_insert_ne|by rewrite Hyn; apply assoc_None|done|congruence|done|done|apply lookup_insert_eq| |done|].
    { intros e le HKe. destruct (decide (a = e)) as [->|Hae].
      - rewrite lookup_insert_eq in HKe. injection HKe as <-. apply not_elem_of_nil.
      - rewrite lookup_insert_ne in HKe by done. by eapply (fresh_unlinked mnt K s1). }
    rewrite (bind_Some _ _ _ a s3).
    2: { rewrite (bind_Some _ _ _ _ _ R2), (proj2 (Z.eqb_neq _ _)) by done. by rewrite (bind_Some _ _ _ _ _ R3). }
    rewrite (proj2 (Z.eqb_neq _ _)) by done.
    destruct (kp_dents _ _ (st_kept _ _ _ _ T3) _ _ Hx2) as (x3 & Hx3 & _ & Ex3).
    pose proof (step_to_trans _ _ _ _ _ _ _ T2 T3) as T23.
    destruct (ask_and_wait_ok _ s3 n d x3 ((d_name y, a) :: l) name a y3 (st_cache _ _ _ _ T3) (st_room _ _ _ _ T3)) as (r & s' & R & M & Hlk' & Hres');
      [by rewrite (st_locked _ _ _ _ T23)|apply lookup_insert_eq|rewrite Hyn; left|done|done|by rewrite Ex3; rewrite Ex2|done|done|by rewrite Hyn3| |].
    { rewrite (kp_root _ _ (st_kept _ _ _ _ T3)), Hroot2. done. }
    exists r, (<[d := (d_name y, a) :: l]> (<[a := []]> K)), s'. split; [exact R|]. split; [|split; [done|]].
    + eapply moved_trans; [by constructor; [exact HC1|exact HK1|apply room_less; exact Hr1]|]. eapply moved_trans; [by apply moved_step|exact M].
    + unfold resolve_in. rewrite Hmnt. rewrite Ex3, Ex2 in Hres' by (by rewrite Ex2).
      rewrite (proj2 (kp_fs _ _ (st_kept _ _ _ _ T23))) in Hres' by (by apply (c_live _ _ _ HC _ _ Hd)).
      change (vfs s1) with (vfs s) in Hres'. destruct (fs_child (vfs s) (d_inode x) name) as [j|]; [|done].
      destruct Hres' as (-> & Hj0 & y' & Hy' & E). split_and!; try done. by exists y'.
Qed.

(** ** The loop *)
(** What a path of names leads to, from the inode [i]. *)
Fixpoint resolve (f : F) (top : bool) (i : Z) (names : list (list Z)) : option Z :=
  match names with
  | [] => Some i
  | n :: names =>
      if valid_name n then
        match resolve_in mnt f top i n with Some j => resolve f false j names | None => None end
      else None
  end.

Lemma resolve_in_live K s top i n j : Cache K s → fs_live (vfs s) i → resolve_in mnt (vfs s) top i n = Some j → fs_live (vfs s) j ∧ j ≠ 0.
Proof.
  intros HC Hi. unfold resolve_in. destruct (if top then mnt !! n else None) as [k|] eqn:E.
  - intros [= ->]. destruct top; [|done]. destruct (c_mounts _ _ _ HC _ _ E) as (l & c & y & _ & _ & Hy & <- & Hj). split; [|done].
    by apply (c_live _ _ _ HC _ _ Hy).
  - intros Hj. apply (law_child (vfs s) i n j); [by apply (c_fs _ _ _ HC)|done|done].
Qed.
Lemma resolve_same K s f : Cache K s → fs_same (vfs s) f → ∀ names top i, fs_live (vfs s) i →
  resolve f top i names = resolve (vfs s) top i names.
Proof.
  intros HC Hs. induction names as [|n names IH]; intros top i Hi; [done|]. cbn [resolve]. destruct (valid_name n); [|done].
  assert (resolve_in mnt f top i n = resolve_in mnt (vfs s) top i n) as ->.
  { unfold resolve_in. destruct (if top then _ else _); [done|]. by apply Hs. }
  destruct (resolve_in mnt (vfs s) top i n) as [j|] eqn:E; [|done]. apply IH. by eapply (resolve_in_live K s top i n j).
Qed.

Lemma walk_ok fuel : ∀ p K s d x,
  Cache K s → vfs_locked s = false → room (length (parts p)) s → dents s !! d = Some x → d ≠ lru_head → d_inode x ≠ 0 → (length p < fuel)%nat →
  ∃ K' s', walk fuel d p s = Some (default 0 (resolve (vfs s) (bool_decide (d = root_dentry s)) (d_inode x) (parts p)), s') ∧
    moved 0 K' s s' ∧ vfs_locked s' = false.
Proof.
  induction fuel as [|fuel IH]; intros p K s d x HC Hlk Hr Hd Hdh Hxi Hf; [lia|]. cbn [walk].
  assert (moved 0 K s s) as M0.
  { apply moved_refl; [done|]. destruct Hr as [_ Ht]. constructor; [done|lia]. }
  destruct (decide (p = [])) as [->|Hp]; [run (ld_ok s d x Hd); by exists K, s|].
  destruct (component p) as [n rest] eqn:Ec. pose proof (component_split p n rest Ec) as (_ & Hrest & Hlen).
  pose proof (parts_component p n rest Ec) as Hparts. assert (length (skip_slash rest) ≤ length rest)%nat as Hsk.
  { destruct Hrest as [->|(q & ->)]; cbn; lia. }
  destruct (decide (n = [])) as [->|Hn].
  { rewrite decide_False in Hparts by tauto. cbn [app] in Hparts.
    destruct Hrest as [->|(q & ->)]; [cbn in Hlen; by destruct p|]. cbn [drop skip_slash] in *. rewrite Hparts in *.
    eapply IH; try done. cbn in Hlen. lia. }
  assert (0 < length n)%nat as Hn0 by (by destruct n; [|cbn; lia]).
  destruct (255 <? length n)%nat eqn:E1.
  { rewrite Hparts, decide_True; [|split; [done|intros ->; done]]. exists K, s. split; [|done]. cbn. unfold valid_name. by rewrite E1. }
  destruct (is_path_traversal n) eqn:E2.
  { rewrite Hparts, decide_True; [|split; [done|intros ->; done]]. exists K, s. split; [|done]. cbn. unfold valid_name. by rewrite E1, E2. }
  destruct (decide (n = [46])) as [->|Hdot].
  { rewrite decide_False in Hparts by tauto. cbn [app] in Hparts. rewrite Hparts in *. eapply IH; try done. lia. }
  rewrite decide_True in Hparts by done. rewrite Hparts in *. cbn [app resolve length] in *.
  assert (valid_name n = true) as -> by (unfold valid_name; by rewrite E1, E2).
  destruct (lookup_step_ok K s _ d x n HC Hr Hlk Hd Hdh Hxi Hn) as (r & K1 & s1 & R1 & M1 & Hlk1 & Hres). run R1.
  destruct (resolve_in mnt (vfs s) (bool_decide (d = root_dentry s)) (d_inode x) n) as [j|] eqn:Ej.
  - destruct Hres as (Hr0 & Hrh & Hrr & Hj0 & y & Hy & Eyi). rewrite (proj2 (Z.eqb_neq _ _)) by done. subst j.
    destruct (IH (skip_slash rest) K1 s1 r y (mv_cache _ _ _ _ M1) Hlk1 (mv_room _ _ _ _ M1) Hy Hrh Hj0) as (K2 & s2 & R2 & M2 & Hlk2); [lia|].
    exists K2, s2. split; [|split; [by eapply moved_trans|done]]. rewrite R2. do 3 f_equal.
    rewrite bool_decide_false by (by rewrite (kp_root _ _ (mv_kept _ _ _ _ M1))).
    eapply (resolve_same K s); [done|apply M1|]. eapply (resolve_in_live K s); [done| |exact Ej]. by apply (c_live _ _ _ HC _ _ Hd).
  - subst r. rewrite Z.eqb_refl. exists K1, s1. split; [done|]. split; [|done]. destruct M1 as [A1 A2 [_ A3]].
    constructor; [done|done|]. constructor; [done|lia].
Qed.

(** The inode of the root. *)
Definition root_inode (s : vstate F) : Z := default 0 (d_inode <$> dents s !! root_dentry s).
(** What a path is meant to name. *)
Definition abs_lookup (s : vstate F) (path : list Z) : option Z :=
  if starts_with_slash path && negb (4096 <? Z.of_nat (length path))
  then resolve (vfs s) true (root_inode s) (parts (drop 1 path)) else None.

Lemma vfs_lookup_spec K s path :
  Cache K s → vfs_locked s = false → room (length (parts (drop 1 path))) s →
  ∃ K' s', vfs_lookup (Some path) s = Some (default 0 (abs_lookup s path), s') ∧ moved 0 K' s s' ∧ vfs_locked s' = false.
Proof.
  intros HC Hlk Hr. unfold vfs_lookup, abs_lookup. rewrite !bind_gets. destruct (c_root _ _ _ HC) as (x & Hx & Hxi).
  destruct (c_special _ _ _ HC) as (Hr0 & Hrh & _). rewrite (proj2 (Z.eqb_neq _ _)) by apply HC. rewrite (proj2 (Z.eqb_neq _ _)) by done. cbn [orb].
  assert (moved 0 K s s) as M0.
  { apply moved_refl; [done|]. destruct Hr as [_ Ht]. constructor; [done|lia]. }
  destruct (starts_with_slash path); cbn [negb andb]; [|by exists K, s].
  destruct (4096 <? Z.of_nat (length path)); cbn [negb]; [by exists K, s|].
  destruct (walk_ok (S (length path)) (drop 1 path) K s (root_dentry s) x HC Hlk Hr Hx Hrh Hxi) as (K' & s' & R & M & Hlk').
  { rewrite length_drop. lia. }
  exists K', s'. split; [|done]. rewrite R. unfold root_inode. rewrite Hx. by rewrite bool_decide_true.
Qed.
End walk.
