(* ===== verification/VfsThms.v ===== *)
(** * ramfs behind the VFS, and the theorems about path resolution, the cache's
    limit and the operations on paths. *)
From S2P Require Import Prelude Bytes Chains Ramfs RamfsInv RamfsThms Vfs VfsInv VfsWalk.
Local Open Scope Z_scope.
Local Open Scope kernel_scope.

(** ** ramfs as a file system *)
Definition ramfs_file_ops : file_ops ramfs :=
  mk_ops _ (Some ramfs_open) (Some ramfs_read) (Some ramfs_write) (Some ramfs_close) None None None None None None None None.
Definition ramfs_dir_ops : file_ops ramfs :=
  mk_ops _ (Some ramfs_open) None None (Some ramfs_close) (Some ramfs_lookup) (Some ramfs_create_file) (Some ramfs_mkdir)
    (Some ramfs_rmdir) (Some ramfs_unlink) None None None.
#[export] Instance ramfs_fs : FileSystem ramfs := {
  i_ops i := (n <- ld_node i ;; ret (if rn_dir n then ramfs_dir_ops else ramfs_file_ops))%kernel;
  i_is_dir i := (n <- ld_node i ;; ret (rn_dir n))%kernel;
  i_dentry i := (n <- ld_node i ;; ret (rn_dentry n))%kernel;
  i_set_dentry i d := st_node i (set_dentry d);
  i_free i := kfree_node i
}.
#[export] Instance ramfs_view : FsView ramfs := {
  fs_ok f := ∃ t, Rep t f;
  fs_live f i := is_Some (nodes f !! i);
  fs_child f i name :=
    match nodes f !! i with
    | Some n => if rn_dir n then match child_of i name f with Some (Some (_, c), _) => Some c | _ => None end else None
    | None => None
    end
}.

Lemma ramfs_child t f i name : Rep t f → fs_child f i name = alookup t i name.
Proof.
  intros HR. unfold fs_child, alookup, ramfs_view. destruct (nodes f !! i) as [n|] eqn:E.
  - destruct (rep_dom _ _ HR i ltac:(eauto)) as [x Hx]. rewrite Hx. destruct (rep_node _ _ HR _ _ Hx) as (n' & Hn' & Hrep).
    assert (n' = n) as -> by congruence. destruct x as [l|d]; destruct Hrep as [-> _]; [|done].
    rewrite (child_of_ok _ _ HR i l name Hx). rewrite <- (find_abs_assoc 0). by destruct (find_abs 0 name l) as [[prev c]|].
  - destruct (t !! i) as [x|] eqn:Ex; [|done]. destruct (rep_node _ _ HR _ _ Ex) as (n & Hn & _). congruence.
Qed.
Lemma ramfs_same t f f' : Rep t f → Rep t f' → fs_same f f'.
Proof.
  intros HR HR'. split.
  - intros i Hi. apply (rep_dom _ _ HR) in Hi as [x Hx]. destruct (rep_node _ _ HR' _ _ Hx) as (n & Hn & _). cbn. eauto.
  - intros i n _. by rewrite (ramfs_child t f'), (ramfs_child t f).
Qed.
Lemma Rep_set_dentry t f i n d : Rep t f → nodes f !! i = Some n → Rep t (Ramfs.set_nodes (<[i := Ramfs.set_dentry d n]> (nodes f)) f).
Proof.
  intros HR Hi. destruct (rep_dom _ _ HR i ltac:(eauto)) as [x Hx]. rewrite <- (insert_id t i x) by done.
  eapply Rep_update; [done|exact Hi|done|done| |by right]. right. done.
Qed.

#[export] Instance ramfs_laws : FsLaws ramfs.
Proof.
  constructor.
  - intros f i [t HR] [n Hn]. destruct (rep_dom _ _ HR i ltac:(eauto)) as [x Hx]. destruct (rep_node _ _ HR _ _ Hx) as (n' & Hn' & Hrep).
    assert (n' = n) as -> by congruence. cbn [i_ops ramfs_fs]. rewrite (bind_Some _ _ f n f) by (by apply ld_node_ok).
    eexists. split; [reflexivity|]. destruct x as [l|d]; destruct Hrep as [-> _]; cbn [f_lookup ramfs_dir_ops ramfs_file_ops].
    + intros name de. destruct (ramfs_lookup_refines t f i l name de HR Hx) as (f' & R & HR' & _). exists f'.
      rewrite (ramfs_child t) by done. unfold alookup. rewrite Hx. split; [done|]. split; [by exists t|by eapply ramfs_same].
    + intros name. rewrite (ramfs_child t) by done. unfold alookup. by rewrite Hx.
  - intros f i name c [t HR] Hi. rewrite (ramfs_child t) by done. unfold alookup. destruct (t !! i) as [[l|d]|] eqn:E; [|done..].
    intros Ha. pose proof (assoc_elem_2 _ _ _ Ha) as Hc. destruct (at_child _ _ (rep_ok _ _ HR) _ _ _ E Hc) as [[x Hx] _].
    destruct (rep_node _ _ HR _ _ Hx) as (n & Hn & _). split; [cbn; eauto|]. intros ->. by apply (rep_zero _ _ HR _ _ E).
  - intros f i d [t HR] [n Hn]. exists (Ramfs.set_nodes (<[i := Ramfs.set_dentry d n]> (nodes f)) f).
    split; [by apply st_node_ok|]. pose proof (Rep_set_dentry t f i n d HR Hn) as HR'. split; [by exists t|by eapply ramfs_same].
Qed.

(** ** Path resolution *)

(** C27: vfs_lookup resolves paths.  Over any file system that keeps its laws, in
    any state whose cache agrees with it, and with memory and room in the cache
    for the names of the path, a lookup terminates with the inode that the
    names lead to one directory at a time (mount points first at the root,
    empty names and "." skipped, NULL for a relative or overlong path, a
    missing entry, an overlong name or ".."), whatever was cached before; the
    cache still agrees with the file system, whose contents do not change, and
    the lock is free. *)
Theorem vfs_lookup_correct `{FL : FsLaws F} mnt K (s : vstate F) path :
  Cache mnt K s → vfs_locked s = false → room (length (parts (drop 1 path))) s →
  ∃ K' s', vfs_lookup (Some path) s = Some (default 0 (abs_lookup mnt s path), s') ∧
    Cache mnt K' s' ∧ fs_same (vfs s) (vfs s') ∧ vfs_locked s' = false ∧ ∀ path', abs_lookup mnt s' path' = abs_lookup mnt s path'.
Proof.
  intros HC Hlk Hr. destruct (vfs_lookup_spec mnt K s path HC Hlk Hr) as (K' & s' & R & [HC' Hk _] & Hlk').
  exists K', s'. split; [done|]. split; [done|]. split; [apply Hk|]. split; [done|]. intros path'. unfold abs_lookup.
  destruct (c_root _ _ _ HC) as (x & Hx & Hxi). destruct (kp_dents _ _ Hk _ _ Hx) as (x' & Hx' & _ & Ei).
  assert (root_inode s' = root_inode s) as -> by (unfold root_inode; rewrite (kp_root _ _ Hk), Hx', Hx; cbn; by apply Ei).
  destruct (_ && _); [|done]. eapply (resolve_same mnt K s); [done|apply Hk|]. unfold root_inode. rewrite Hx. by apply (c_live _ _ _ HC _ _ Hx).
Qed.

(** ** The limit of the cache *)
Lemma step_hangs `{FL : FsLaws F} mnt K (s : vstate F) d x name l a b m :
  Cache mnt K s → vfs_locked s = false → dents s !! d = Some x → d ≠ lru_head → K !! d = Some l → name ∉ l.*1 → name ≠ [] →
  vmem s = Some a :: Some b :: m → a ≠ 0 → b ≠ 0 → dents s !! a = None → MAX_DENTRIES ≤ dentry_total s →
  lookup_step d name s = None.
Proof.
  intros HC Hlk Hd Hdh HK Hname Hne Hmem Ha0 Hb0 Ha Htot. unfold lookup_step. run (lock_ok s Hlk). set (s1 := set_locked true s).
  assert (Cache mnt K s1) as HC1 by (by eapply Cache_beside).
  destruct (dentry_lookup_child_ok mnt K s1 d x HC1 Hd Hdh) as (l' & HK' & Hlook). assert (l' = l) as -> by congruence.
  run (Hlook name). apply assoc_None in Hname. rewrite Hname. cbn [default from_option id]. rewrite Z.eqb_refl, bind_ret_l.
  unfold bind at 1. unfold bind at 1. assert (dentry_alloc name d s1 = None) as ->; [|done].
  unfold dentry_alloc.
  set (s2 := mk_vs (dents s) (files s) (root_sb s) (root_dentry s) (dentry_total s) (dentry_evicted s) true (Some b :: m) (vfs s)).
  assert (Vfs.kmalloc s1 = Some (a, s2)) as R1 by (unfold Vfs.kmalloc; cbn; by rewrite Hmem). run R1. rewrite (proj2 (Z.eqb_neq _ _)) by done.
  set (s3 := mk_vs (dents s) (files s) (root_sb s) (root_dentry s) (dentry_total s) (dentry_evicted s) true m (vfs s)).
  assert (Vfs.kmalloc s2 = Some (b, s3)) as R2 by done. run R2. rewrite (proj2 (Z.eqb_neq _ _)) by done. rewrite bind_modify.
  set (s4 := set_dents _ s3).
  assert (Cache mnt (<[a := []]> K) s4) as HC4.
  { apply Cache_new; [|done|done|done|done|done|done]. by eapply Cache_beside. }
  assert (a ≠ lru_head) as Hah by (intros ->; destruct (c_head _ _ _ HC) as (h & Hh & _); congruence).
  destruct (lru_add_step mnt _ s4 a (mk_d name 0 d 0 0 0 0 1 1 0) HC4) as (s5 & R5 & [_ _ _ (ds & Hs5)]); [apply lookup_insert_eq|done|done|].
  run R5. rewrite bind_modify, bind_gets. cbn [dentry_total set_counts]. rewrite Hs5. cbn [dentry_total set_dents s4 s3].
  rewrite (proj2 (Z.ltb_lt _ _)) by lia. unfold vfs_dentry_evict. unfold bind at 1. unfold bind at 1. done.
Qed.

(** A full cache hangs the machine.  dentry_alloc evicts by calling
    vfs_dentry_evict, which takes the lock that vfs_lookup already holds and
    that is not recursive: once MAX_DENTRIES dentries exist, looking up (or
    opening) any path whose first name is not cached at the root never
    returns, whatever could be evicted. *)
Theorem full_cache_hangs `{FL : FsLaws F} mnt K (s : vstate F) l p name rest a b m flags :
  Cache mnt K s → vfs_locked s = false → MAX_DENTRIES ≤ dentry_total s →
  component p = (name, rest) → name ≠ [] → name ≠ [46] → valid_name name = true → Z.of_nat (length p) < 4096 →
  K !! root_dentry s = Some l → name ∉ l.*1 →
  vmem s = Some a :: Some b :: m → a ≠ 0 → b ≠ 0 → dents s !! a = None →
  vfs_lookup (Some (47 :: p)) s = None ∧ vfs_open (Some (47 :: p)) flags s = None.
Proof.
  intros HC Hlk Htot Hc Hn Hdot Hv Hlen HK Hname Hmem Ha Hb Hfree.
  assert (vfs_lookup (Some (47 :: p)) s = None) as E; [|split; [done|unfold vfs_open; unfold bind at 1; by rewrite E]].
  destruct (c_root _ _ _ HC) as (x & Hx & Hxi). destruct (c_special _ _ _ HC) as (Hr0 & Hrh & _).
  unfold vfs_lookup. rewrite !bind_gets. rewrite (proj2 (Z.eqb_neq _ _)) by apply HC. rewrite (proj2 (Z.eqb_neq _ _)) by done. cbn [orb starts_with_slash negb].
  rewrite (proj2 (Z.ltb_ge 4096 _)) by (cbn [length]; lia). change (drop 1 (47 :: p)) with p. cbn [length walk].
  rewrite decide_False by (intros ->; cbn in Hc; congruence).
  rewrite Hc. rewrite decide_False by done. unfold valid_name in Hv. apply andb_true_iff in Hv as [V1%negb_true_iff V2%negb_true_iff]. rewrite V1, V2.
  rewrite decide_False by done. unfold bind at 1. by rewrite (step_hangs mnt K s _ x name l a b m).
Qed.

(** ** Operations at the root *)
Lemma last_slash_none p : 47 ∉ p → ∀ i r, last_slash p i r = r.
Proof.
  induction p as [|c p IH]; intros Hp i r; [done|]. apply not_elem_of_cons in Hp as [Hc Hp]. cbn [last_slash].
  rewrite (proj2 (Z.eqb_neq _ _)) by congruence. by apply IH.
Qed.
Lemma split_path_root p : 47 ∉ p → split_path (47 :: p) = None.
Proof. intros Hp. unfold split_path. cbn [last_slash]. by rewrite last_slash_none. Qed.

(** Nothing can be made, removed or renamed in the root directory.  A path
    whose only slash is the first is refused before any file system is asked,
    by mkdir, rmdir, unlink, and by rename for either of its paths: -1, and
    nothing changes (the code below the test provides for the parent "/"). *)
Theorem root_level_refused `{FileSystem F} (s : vstate F) p q :
  47 ∉ p →
  vfs_mkdir (Some (47 :: p)) s = Some (-1, s) ∧ vfs_rmdir (Some (47 :: p)) s = Some (-1, s) ∧
  vfs_unlink (Some (47 :: p)) s = Some (-1, s) ∧
  vfs_rename (Some (47 :: p)) q s = Some (-1, s) ∧ vfs_rename q (Some (47 :: p)) s = Some (-1, s).
Proof.
  intros Hp. unfold vfs_mkdir, vfs_rmdir, vfs_unlink, in_parent, vfs_rename. rewrite !bind_gets, !split_path_root by done.
  split_and!; try (by destruct (_ || _)).
  - destruct q as [q|]; [|done]. destruct (_ || _); [done|]. done.
  - destruct q as [q|]; [|done]. destruct (_ || _); [done|]. by destruct (split_path q) as [[]|].
Qed.

(** ** Dangling inodes *)
Definition fs0 : ramfs := mk_ramfs ∅ 0 [Some (10, []); Some (11, []); Some (20, []); Some (21, [])].
Definition vfs0 : vstate ramfs := mk_vs ∅ ∅ 0 0 0 0 false (Some <$> seqZ 100 20) fs0.
Definition f_path : list Z := [47; 102].
(** A ramfs is mounted and the file "f" created as open does with O_CREAT. *)
Definition with_file : ST (vstate ramfs) Z :=
  vfs_init ;;;
  _ <- on_fs ramfs_create ;;
  _ <- vfs_mount_root 10 ;;
  on_fs (ramfs_create_file 10 [102] 0).

(** Removed files stay reachable.  "f" is opened, closed and unlinked: its
    dentry keeps pointing to the freed inode, so that opening it again does
    not fail but uses freed memory.  And evicting the dentry of a file that
    still exists frees the inode that its directory still lists: the next
    lookup in the directory uses freed memory. *)
Theorem stale_dentries :
  (∃ s f, (_ <- with_file ;; f <- vfs_open (Some f_path) 0 ;; r <- vfs_close f ;; r' <- vfs_unlink (Some (47 :: f_path)) ;; ret (f, r, r'))%kernel vfs0
     = Some ((f, 0, 0), s) ∧ f ≠ 0 ∧ vfs_open (Some f_path) 0 s = None) ∧
  (∃ s i, (_ <- with_file ;; i <- vfs_lookup (Some f_path) ;; vfs_dentry_evict ;;; ret i)%kernel vfs0 = Some (i, s) ∧ i = 20 ∧
     dentry_evicted s = 1 ∧ vfs_lookup (Some f_path) s = None).
Proof.
  split; eexists _, _; (split; [vm_compute; reflexivity|]); vm_compute; split_and!; try reflexivity; discriminate.
Qed.

(** ** Mounting establishes the invariant *)
Lemma mount_root_Cache `{FL : FsLaws F} (s : vstate F) sb a b m :
  dents s = ∅ → vfs_locked s = false → fs_ok (vfs s) → fs_live (vfs s) sb → sb ≠ 0 →
  vmem s = Some a :: Some b :: m → a ≠ 0 → a ≠ lru_head → b ≠ 0 →
  ∃ s', (vfs_init ;;; vfs_mount_root sb)%kernel s = Some (0, s') ∧ Cache ∅ {[a := []]} s' ∧ vfs_locked s' = false ∧
    vmem s' = m ∧ dentry_total s' = 1 ∧ fs_same (vfs s) (vfs s') ∧ root_inode s' = sb ∧ root_dentry s' = a ∧ dom (dents s') = {[a; lru_head]}.
Proof.
  intros Hd Hlk Hfs Hlive Hsb Hm Ha0 Hah Hb. destruct s as [ds fl rs rd dt de lk vm f]. cbn in *. subst ds lk vm.
  destruct (law_back f sb a Hfs Hlive) as (f' & Rb & Hf' & Hsame).
  set (hd := mk_d [] 0 0 0 0 lru_head lru_head 0 0 0). set (rt := mk_d [47] 0 0 0 0 0 0 1 1 0).
  set (hd' := set_lru_next a (set_lru_prev a hd)). set (rt' := set_lru lru_head lru_head rt).
  set (ds := <[lru_head := hd']> (<[lru_head := set_lru_prev a hd]> (<[a := rt']> (<[a := rt]> {[lru_head := hd]}))) : gmap Z dentry).
  set (s00 := mk_vs {[lru_head := hd]} fl sb 0 0 0 false (Some a :: Some b :: m) f).
  assert (dentry_alloc [47] 0 s00 = Some (a, mk_vs ds fl sb 0 1 0 false m f)) as R1.
  { unfold dentry_alloc. assert (Vfs.kmalloc s00 = Some (a, mk_vs {[lru_head := hd]} fl sb 0 0 0 false (Some b :: m) f)) as K1 by done.
    run K1. rewrite (proj2 (Z.eqb_neq a 0)) by done.
    assert (Vfs.kmalloc (mk_vs {[lru_head := hd]} fl sb 0 0 0 false (Some b :: m) f) = Some (b, mk_vs {[lru_head := hd]} fl sb 0 0 0 false m f)) as K2 by done.
    run K2. rewrite (proj2 (Z.eqb_neq b 0)) by done. rewrite bind_modify. fold rt.
    set (s0 := set_dents _ _). cut (lru_add a s0 = Some (tt, set_dents ds s0)); [intros R0; by run R0|]. unfold lru_add.
    assert (dents s0 !! lru_head = Some hd) as H1 by (unfold s0; cbn [dents set_dents]; rewrite lookup_insert_ne by done; apply lookup_singleton_eq).
    run (ld_ok s0 lru_head hd H1). assert (dents s0 !! a = Some rt) as Ha by apply lookup_insert_eq.
    run (upd_ok s0 a rt (set_lru lru_head (lru_next hd)) Ha). set (s2 := set_dents _ s0).
    assert (dents s2 !! lru_head = Some hd) as H2 by (unfold s2, s0; cbn [dents set_dents]; rewrite !lookup_insert_ne by done; apply lookup_singleton_eq).
    change (lru_next hd) with lru_head. run (upd_ok s2 lru_head hd (set_lru_prev a) H2).
    rewrite (upd_ok _ lru_head (set_lru_prev a hd) (set_lru_next a)); [done|apply lookup_insert_eq]. }
  exists (mk_vs (<[a := set_inode sb rt']> ds) fl sb a 1 0 false m f').
  assert (ds !! a = Some rt') as Hda by (unfold ds; by rewrite !lookup_insert_ne, lookup_insert_eq by done).
  assert (ds !! lru_head = Some hd') as Hdh by (unfold ds; by rewrite lookup_insert_eq).
  assert (∀ d x, <[a := set_inode sb rt']> ds !! d = Some x → (d = a ∧ x = set_inode sb rt') ∨ (d = lru_head ∧ x = hd')) as Hinv.
  { intros d x. destruct (decide (d = a)) as [->|H1]; [rewrite lookup_insert_eq; intros [= <-]; by left|]. rewrite lookup_insert_ne by done.
    destruct (decide (d = lru_head)) as [->|H2]; [rewrite Hdh; intros [= <-]; by right|]. unfold ds.
    rewrite !lookup_insert_ne, lookup_singleton_ne by done. done. }
  split.
  { unfold vfs_init, lru_init, vfs_mount_root. rewrite (proj2 (Z.eqb_neq sb 0)) by done.
    transitivity ((d <- dentry_alloc [47] 0 ;; modify (λ s, set_root (root_sb s) d s) ;;; if d =? 0 then ret (-1) else
      upd d (set_inode sb) ;;; on_fs (i_set_dentry sb d) ;;; ret 0)%kernel s00); [done|].
    run R1. rewrite bind_modify, (proj2 (Z.eqb_neq a 0)) by done. set (s3 := set_root _ _ _).
    run (upd_ok s3 a rt' (set_inode sb) Hda). set (s4 := set_dents _ s3).
    by run (on_fs_ok (i_set_dentry sb a) tt f' s4 Rb). }
  split; [|split_and!; try done].
  - constructor; cbn; try done.
    + exists (set_inode sb rt'). rewrite lookup_insert_eq. done.
    + split_and!; [done|done|]. destruct (<[a := set_inode sb rt']> ds !! 0) as [x|] eqn:E; [|done]. by destruct (Hinv _ _ E) as [[? _]|[? _]].
    + intros d x Hx Hne. destruct (Hinv _ _ Hx) as [[-> ->]|[-> _]]; [|done]. exists []. rewrite lookup_singleton_eq. split_and!; [done|done|constructor|constructor].
    + intros d l name c [<- <-]%lookup_singleton_Some Hin. by apply elem_of_nil in Hin.
    + intros d1 l1 d2 l2 c [<- <-]%lookup_singleton_Some _ Hin. by apply elem_of_nil in Hin.
    + intros d x Hx Hi. destruct (Hinv _ _ Hx) as [[-> ->]|[-> ->]]; [|done]. cbn. by apply Hsame.
    + intros d x Hx. unfold ptr_ok. destruct (Hinv _ _ Hx) as [[-> ->]|[-> ->]]; cbn.
      * split; right; rewrite lookup_insert_ne by done; eauto.
      * split; right; rewrite lookup_insert_eq; eauto.
    + exists hd'. rewrite lookup_insert_ne by done. done.
  - unfold root_inode. cbn. by rewrite lookup_insert_eq.
  - change (dom (<[a := set_inode sb rt']> ds) = {[a; lru_head]}). rewrite dom_insert_lookup_L by eauto. apply set_eq. intros x. rewrite elem_of_dom. unfold ds.
    rewrite !lookup_insert_is_Some', lookup_singleton_is_Some. rewrite elem_of_union, !elem_of_singleton. naive_solver.
Qed.

(** ** Witnesses *)
Lemma mounted_ramfs : ∃ s : vstate ramfs, Cache ∅ {[100 := []]} s ∧ vfs_locked s = false ∧ dentry_total s = 1 ∧ root_inode s = 10 ∧
  root_dentry s = 100 ∧ dom (dents s) = {[100; lru_head]} ∧ fs_child (vfs s) 10 [97] = Some 20 ∧ vmem s = [Some 102; Some 103].
Proof.
  destruct one_file as (f & HR & _). set (s := mk_vs ∅ ∅ 0 0 0 0 false [Some 100; Some 101; Some 102; Some 103] f).
  assert (fs_live f 10) as Hl by (destruct (rep_dir _ _ HR 10 [([97], 20)] eq_refl) as (h & Hh & _); cbn; eauto).
  destruct (mount_root_Cache s 10 100 101 [Some 102; Some 103]) as (s' & _ & HC & Hlk & Hm & Ht & Hsame & Hri & Hrd & Hdom); try done.
  { by exists t1. }
  exists s'. split_and!; try done. rewrite (proj2 Hsame) by done. by rewrite (ramfs_child t1).
Qed.
Lemma vfs_lookup_correct_witness : ∃ s s' : vstate ramfs, vfs_lookup (Some [47; 97]) s = Some (20, s').
Proof.
  destruct mounted_ramfs as (s & HC & Hlk & Ht & Hri & Hrd & Hdom & Hch & Hm). exists s.
  destruct (vfs_lookup_correct ∅ _ s [47; 97] HC Hlk) as (K' & s' & R & _).
  - constructor.
    + rewrite Hdom, Hm. cbn. split_and!; try done.
    + rewrite Ht. done.
  - exists s'. rewrite R. change (abs_lookup ∅ s [47; 97]) with (resolve ∅ (vfs s) true (root_inode s) [[97]]). rewrite Hri. cbn [resolve].
    change (valid_name [97]) with true. unfold resolve_in. rewrite lookup_empty, Hch. reflexivity.
Defined.
Lemma full_cache_hangs_witness : ∃ s : vstate ramfs, vfs_lookup (Some [47; 97]) s = None.
Proof.
  destruct mounted_ramfs as (s & HC & Hlk & Ht & Hri & Hrd & Hdom & Hch & Hm). exists (set_counts 512 0 s).
  apply (full_cache_hangs ∅ {[100 := []]} (set_counts 512 0 s) [] [97] [97] [] 102 103 [] 0).
  - eapply Cache_beside; [exact HC|reflexivity|reflexivity|reflexivity|reflexivity].
  - exact Hlk.
  - done.
  - reflexivity.
  - discriminate.
  - discriminate.
  - reflexivity.
  - reflexivity.
  - cbn. rewrite Hrd. reflexivity.
  - apply not_elem_of_nil.
  - exact Hm.
  - discriminate.
  - discriminate.
  - cbn. apply not_elem_of_dom. rewrite Hdom. set_solver.
Defined.
Lemma root_level_refused_witness : vfs_unlink (Some f_path) vfs0 = Some (-1, vfs0).
Proof. apply (root_level_refused vfs0 [102] None). set_solver. Defined.
