(* ===== verification/NetBase.v ===== *)
(** * kernel/netdev.c and the lower half of kernel/net/net.c: devices, checksums,
    Ethernet and ARP.

    Packets are lists of bytes; reading past the end of one, or writing past the
    end of a buffer, has no outcome.  Drivers are reached through [NetDriver];
    the loopback device is part of the source.  [nmem] holds the coming answers of
    kmalloc (success when it is empty).  Spinlocks make a call one step. *)
From S2P Require Import Prelude Bytes.
Local Open Scope Z_scope.
Local Open Scope kernel_scope.

(** ** Byte order *)
Definition ntohs (n : Z) : Z := Z.lor (Z.shiftl (Z.land n 0xFF) 8) (Z.land (Z.shiftr n 8) 0xFF).
Definition htons (n : Z) : Z := ntohs n.
Definition ntohl (n : Z) : Z :=
  Z.lor (Z.lor (Z.shiftl (Z.land n 0xFF) 24) (Z.shiftl (Z.land n 0xFF00) 8))
        (Z.lor (Z.shiftr (Z.land n 0xFF0000) 8) (Z.shiftr (Z.land n 0xFF000000) 24)).
Definition htonl (n : Z) : Z := ntohl n.

(** A field stored with [htons] or [htonl] in a packed structure. *)
Definition be16 (v : Z) : list Z := le_bytes 2 (htons v).
Definition be32 (v : Z) : list Z := le_bytes 4 (htonl v).

(** ** Constants of net.h *)
Definition ETH_IPV4 : Z := 0x0800.
Definition ETH_ARP : Z := 0x0806.
Definition ETH_IPV6 : Z := 0x86DD.
Definition ARP_REQUEST : Z := 1.
Definition ARP_REPLY : Z := 2.
Definition ARP_HTYPE_ETH : Z := 1.
Definition NETIF_FLAG_UP : Z := 1.
Definition NETIF_FLAG_RUNNING : Z := 2.
Definition NETDEV_FLAG_UP : Z := 1.
Definition MAX_NET_IF : Z := 8.
Definition ARP_CACHE_SIZE : nat := 16.
Definition LOOPBACK_MTU : Z := 65536.
Definition LOOPBACK_BUF_SIZE : Z := 8192.
Definition ETH_HDR_LEN : Z := 14.
Definition ARP_HDR_LEN : Z := 28.

(** ** Data *)

(** The function pointers of a device: those of the loopback device, or a
    hardware driver's. *)
Inductive driver := Loopback | Hardware.
Record net_device := mk_dev {
  nd_name : list Z;
  nd_mac : list Z;
  nd_mtu : Z;
  nd_flags : Z;
  nd_driver : option driver;
  nd_next : Z
}.
Record net_if := mk_if {
  if_name : list Z;
  if_ip : list Z;
  if_mac : list Z;
  if_netmask : list Z;
  if_gateway : list Z;
  if_dns : list Z;
  if_mtu : Z;
  if_flags : Z;
  if_netdev : Z
}.
Record arp_entry := mk_arp { ae_ip : list Z; ae_mac : list Z; ae_age : Z; ae_valid : bool }.
Record udp_socket := mk_udp {
  us_port : Z;
  us_in_use : bool;
  us_rx : list Z;
  us_src_ip : list Z;
  us_src_port : Z
}.
Inductive tcp_state :=
  | TCP_CLOSED | TCP_LISTEN | TCP_SYN_SENT | TCP_SYN_RECEIVED | TCP_ESTABLISHED
  | TCP_FIN_WAIT1 | TCP_FIN_WAIT2 | TCP_CLOSE_WAIT | TCP_LAST_ACK | TCP_TIME_WAIT.
#[export] Instance tcp_state_eq_dec : EqDecision tcp_state.
Proof. solve_decision. Defined.
(** [rx_buf] up to [rx_len] and [pending_ids] up to [pending_count] are lists. *)
Record tcp_socket := mk_tcp {
  ts_id : Z;
  ts_in_use : bool;
  ts_state : tcp_state;
  ts_local_ip : list Z;
  ts_local_port : Z;
  ts_remote_ip : list Z;
  ts_remote_port : Z;
  ts_isn : Z;
  ts_seq_num : Z;
  ts_ack_num : Z;
  ts_rcv_nxt : Z;
  ts_rx : list Z;
  ts_backlog : Z;
  ts_pending : list Z
}.
Record tcp_layer := mk_tcps { tcp_sockets : list tcp_socket; tcp_next_id : Z; tcp_iss : Z }.

(** ipv6.c's neighbours and interfaces. *)
Record ipv6_neighbor_entry := mk_nb {
  ne_ip : list Z; ne_mac : list Z; ne_age : Z; ne_valid : bool; ne_state : Z
}.
Record ipv6_iface := mk_if6 {
  i6_in_use : bool; i6_link_local : list Z; i6_global : list Z; i6_mac : list Z; i6_netdev : Z
}.
Record ipv6_layer := mk_v6 {
  ipv6_neighbor_cache : list ipv6_neighbor_entry; ipv6_neighbor_age : Z; ipv6_ifaces : list ipv6_iface
}.
(** dns.c's and dhcp.c's statics. *)
Record dns_cache_entry := mk_dns { dc_hash : Z; dc_ip : list Z; dc_valid : bool }.
Record clients := mk_clients {
  dns_server_ip : list Z;
  dns_cache : list dns_cache_entry;
  dhcp_xid : Z;
  dhcp_offered_ip : list Z;
  dhcp_server_ip : list Z;
  dhcp_initialized : bool
}.

(** [net_if_count] interfaces, [loopback_buf_len] bytes. *)
Record net (D : Type) := mk_net {
  net_ifs : list net_if;
  net_devs : gmap Z net_device;
  netdev_list : Z;
  loopback_buf : list Z;
  arp_cache : list arp_entry;
  arp_age_counter : Z;
  ip_id_counter : Z;
  udp_sockets : list udp_socket;
  tcps : tcp_layer;
  v6 : ipv6_layer;
  cl : clients;
  nmem : list bool;
  hw : D
}.
Arguments mk_net {D}.
Arguments net_ifs {D}.
Arguments net_devs {D}.
Arguments netdev_list {D}.
Arguments loopback_buf {D}.
Arguments arp_cache {D}.
Arguments arp_age_counter {D}.
Arguments ip_id_counter {D}.
Arguments udp_sockets {D}.
Arguments tcps {D}.
Arguments v6 {D}.
Arguments cl {D}.
Arguments nmem {D}.
Arguments hw {D}.

(** The drivers of hardware devices, by device address. *)
Class NetDriver (D : Type) := {
  drv_send : Z → list Z → D → Z * D;
  drv_recv : Z → Z → D → Z * list Z * D;
  drv_up : Z → D → Z * D
}.
(** What the stack relies on: a receive gives at most what was asked for, as many
    bytes as it says, and bytes. *)
Class NetDriverLaws (D : Type) `{NetDriver D} := {
  drv_recv_len a m d : 0 < m →
    let '(n, bs, _) := drv_recv a m d in n ≤ m ∧ (0 < n → Z.of_nat (length bs) = n) ∧ Forall is_byte bs
}.

Section netbase.
Context {D : Type} `{NetDriver D}.
Abbreviation NM := (ST (net D)).

Definition set_ifs (l : list net_if) (s : net D) : net D :=
  mk_net l (net_devs s) (netdev_list s) (loopback_buf s) (arp_cache s) (arp_age_counter s) (ip_id_counter s) (udp_sockets s) (tcps s) (v6 s) (cl s) (nmem s) (hw s).
Definition set_devs (m : gmap Z net_device) (l : Z) (s : net D) : net D :=
  mk_net (net_ifs s) m l (loopback_buf s) (arp_cache s) (arp_age_counter s) (ip_id_counter s) (udp_sockets s) (tcps s) (v6 s) (cl s) (nmem s) (hw s).
Definition set_lo (b : list Z) (s : net D) : net D :=
  mk_net (net_ifs s) (net_devs s) (netdev_list s) b (arp_cache s) (arp_age_counter s) (ip_id_counter s) (udp_sockets s) (tcps s) (v6 s) (cl s) (nmem s) (hw s).
Definition set_arp (c : list arp_entry) (a : Z) (s : net D) : net D :=
  mk_net (net_ifs s) (net_devs s) (netdev_list s) (loopback_buf s) c a (ip_id_counter s) (udp_sockets s) (tcps s) (v6 s) (cl s) (nmem s) (hw s).
Definition set_ip_id (i : Z) (s : net D) : net D :=
  mk_net (net_ifs s) (net_devs s) (netdev_list s) (loopback_buf s) (arp_cache s) (arp_age_counter s) i (udp_sockets s) (tcps s) (v6 s) (cl s) (nmem s) (hw s).
Definition set_udp (u : list udp_socket) (s : net D) : net D :=
  mk_net (net_ifs s) (net_devs s) (netdev_list s) (loopback_buf s) (arp_cache s) (arp_age_counter s) (ip_id_counter s) u (tcps s) (v6 s) (cl s) (nmem s) (hw s).
Definition set_tcps (t : tcp_layer) (s : net D) : net D :=
  mk_net (net_ifs s) (net_devs s) (netdev_list s) (loopback_buf s) (arp_cache s) (arp_age_counter s) (ip_id_counter s) (udp_sockets s) t (v6 s) (cl s) (nmem s) (hw s).
Definition set_v6 (v : ipv6_layer) (s : net D) : net D :=
  mk_net (net_ifs s) (net_devs s) (netdev_list s) (loopback_buf s) (arp_cache s) (arp_age_counter s) (ip_id_counter s) (udp_sockets s) (tcps s) v (cl s) (nmem s) (hw s).
Definition set_cl (c : clients) (s : net D) : net D :=
  mk_net (net_ifs s) (net_devs s) (netdev_list s) (loopback_buf s) (arp_cache s) (arp_age_counter s) (ip_id_counter s) (udp_sockets s) (tcps s) (v6 s) c (nmem s) (hw s).
Definition set_nmem (l : list bool) (s : net D) : net D :=
  mk_net (net_ifs s) (net_devs s) (netdev_list s) (loopback_buf s) (arp_cache s) (arp_age_counter s) (ip_id_counter s) (udp_sockets s) (tcps s) (v6 s) (cl s) l (hw s).
Definition set_hw (d : D) (s : net D) : net D :=
  mk_net (net_ifs s) (net_devs s) (netdev_list s) (loopback_buf s) (arp_cache s) (arp_age_counter s) (ip_id_counter s) (udp_sockets s) (tcps s) (v6 s) (cl s) (nmem s) d.

(** Whether [kmalloc] succeeds. *)
Definition nalloc : NM bool :=
  λ s, match nmem s with [] => Some (true, s) | b :: l => Some (b, set_nmem l s) end.
Definition lift_opt {A} (o : option A) : NM A := λ s, match o with Some a => Some (a, s) | None => None end.
Fixpoint for_each {A} (l : list A) (f : A → NM unit) : NM unit :=
  match l with [] => ret tt | a :: l => f a ;;; for_each l f end.

(** ** Reading packets *)
Definition rd8 (l : list Z) (off : Z) : option Z := b ← slice l off 1; Some (le_value b).
Definition rd16 (l : list Z) (off : Z) : option Z := b ← slice l off 2; Some (le_value b).
Definition rd32 (l : list Z) (off : Z) : option Z := b ← slice l off 4; Some (le_value b).

(** ** Checksums (RFC 1071) *)

(** The sum of the little-endian 16-bit words, a last odd byte by itself. *)
Fixpoint sum_words (sum : Z) (bs : list Z) : Z :=
  match bs with
  | b0 :: b1 :: bs => sum_words (u32 (sum + (b0 + 256 * b1))) bs
  | [b] => u32 (sum + b)
  | [] => sum
  end.
(** [while (sum >> 16)]: at most three rounds for 32 bits. *)
Fixpoint fold_sum (fuel : nat) (sum : Z) : option Z :=
  match fuel with
  | O => None
  | S fuel =>
      if Z.shiftr sum 16 =? 0 then Some sum
      else fold_sum fuel (u32 (Z.land sum 0xFFFF + Z.shiftr sum 16))
  end.
Definition finish_sum (sum : Z) : option Z := s ← fold_sum 4 sum; Some (u16 (Z.lnot s)).
Definition checksum_calc (data : list Z) : option Z := finish_sum (sum_words 0 data).
Definition ip_checksum (data : list Z) : option Z := checksum_calc data.
Definition tcp_udp_checksum (src_ip dst_ip : list Z) (protocol : Z) (data : list Z) : option Z :=
  let pseudo := src_ip ++ dst_ip ++ [0; protocol] ++ be16 (u16 (zlen data)) in
  finish_sum (sum_words (sum_words 0 pseudo) data).

(** ** netdev.c *)
Definition netdev_register (a : Z) : NM Z :=
  if a =? 0 then ret (-1) else
  s <- get ;;
  d <- lift_opt (net_devs s !! a) ;;
  put (set_devs (<[a := mk_dev (nd_name d) (nd_mac d) (nd_mtu d) (nd_flags d) (nd_driver d) (netdev_list s)]> (net_devs s)) a s) ;;;
  ret 0.
Definition netdev_get_first : NM Z := gets netdev_list.
Fixpoint netdev_find_from (fuel : nat) (a : Z) (name : list Z) : NM Z :=
  match fuel with
  | O => fail
  | S fuel =>
      if a =? 0 then ret 0 else
      s <- get ;;
      d <- lift_opt (net_devs s !! a) ;;
      if decide (nd_name d = name) then ret a else netdev_find_from fuel (nd_next d) name
  end.
(** A list without repetitions is no longer than the number of devices. *)
Definition netdev_find (name : list Z) : NM Z :=
  s <- get ;; netdev_find_from (S (size (net_devs s))) (netdev_list s) name.

Definition loopback_send (data : list Z) : NM Z :=
  let len := if LOOPBACK_BUF_SIZE <? zlen data then LOOPBACK_BUF_SIZE else zlen data in
  modify (set_lo (take (Z.to_nat len) data)) ;;;
  ret len.
(** [(copy_len, bytes)]. *)
Definition loopback_recv (max_len : Z) : NM (Z * list Z) :=
  b <- gets loopback_buf ;;
  if zlen b <=? 0 then ret (0, []) else
  let copy_len := if max_len <? zlen b then max_len else zlen b in
  modify (set_lo []) ;;;
  ret (copy_len, take (Z.to_nat copy_len) b).

Definition netdev_send (a : Z) (data : list Z) : NM Z :=
  if a =? 0 then ret (-1) else
  s <- get ;;
  d <- lift_opt (net_devs s !! a) ;;
  match nd_driver d with
  | None => ret (-1)
  | Some drv =>
      if zlen data <=? 0 then ret (-1) else
      match drv with
      | Loopback => loopback_send data
      | Hardware => let '(r, h) := drv_send a data (hw s) in put (set_hw h s) ;;; ret r
      end
  end.
Definition netdev_recv (a max_len : Z) : NM (Z * list Z) :=
  if a =? 0 then ret (-1, []) else
  s <- get ;;
  d <- lift_opt (net_devs s !! a) ;;
  match nd_driver d with
  | None => ret (-1, [])
  | Some drv =>
      if max_len <=? 0 then ret (-1, []) else
      match drv with
      | Loopback => loopback_recv max_len
      | Hardware => let '(r, b, h) := drv_recv a max_len (hw s) in put (set_hw h s) ;;; ret (r, b)
      end
  end.

(** ** Interfaces *)
Definition is_up (i : net_if) : Prop := Z.land (if_flags i) NETIF_FLAG_UP ≠ 0 ∧ if_netdev i ≠ 0.
#[export] Instance is_up_dec i : Decision (is_up i) := _.
Definition net_get_interface (index : Z) : NM (option nat) :=
  s <- get ;;
  ret (if (index <? 0) || (Z.of_nat (length (net_ifs s)) <=? index) then None else Some (Z.to_nat index)).
Definition net_get_interface_count : NM Z := gets (λ s, Z.of_nat (length (net_ifs s))).

(** The interface with this address, else the first one that is up. *)
Definition net_if_find_by_ip (ip : list Z) (ifs : list net_if) : option net_if :=
  match list_find (λ i, if_ip i = ip) ifs with
  | Some (_, i) => Some i
  | None => snd <$> list_find is_up ifs
  end.

(** ** Ethernet *)
Definition eth_hdr (dst src : list Z) (ethertype : Z) : list Z := dst ++ src ++ be16 ethertype.

Definition eth_send (netdev : Z) (dst_mac : list Z) (ethertype : Z) (data : list Z) : NM Z :=
  if (netdev =? 0) || (zlen data <=? 0) then ret (-1) else
  s <- get ;;
  d <- lift_opt (net_devs s !! netdev) ;;
  let total := ETH_HDR_LEN + zlen data in
  if nd_mtu d + 14 <? total then ret (-1) else
  ok <- nalloc ;;
  if negb ok then ret (-1) else
  netdev_send netdev (eth_hdr dst_mac (nd_mac d) ethertype ++ data).

Definition eth_recv (netdev max_len : Z) : NM (Z * list Z) :=
  if (netdev =? 0) || (max_len <? ETH_HDR_LEN) then ret (-1, []) else netdev_recv netdev max_len.

(** ** ARP *)
Definition arp_match (ip : list Z) (e : arp_entry) : Prop := ae_valid e = true ∧ ae_ip e = ip.
#[export] Instance arp_match_dec ip e : Decision (arp_match ip e) := _.
Definition arp_cache_find (ip : list Z) : NM (option arp_entry) :=
  s <- get ;;
  match list_find (arp_match ip) (arp_cache s) with
  | Some (i, e) =>
      let age := i32 (arp_age_counter s + 1) in
      let e := mk_arp (ae_ip e) (ae_mac e) age true in
      put (set_arp (<[i := e]> (arp_cache s)) age s) ;;;
      ret (Some e)
  | None => ret None
  end.

(** The first invalid entry, or the first of the least age. *)
Fixpoint arp_pick (i target : nat) (oldest_age : Z) (l : list arp_entry) : nat :=
  match l with
  | [] => target
  | e :: l =>
      if negb (ae_valid e) then i
      else if ae_age e <? oldest_age then arp_pick (S i) i (ae_age e) l
      else arp_pick (S i) target oldest_age l
  end.
Definition arp_cache_add (ip mac : list Z) : NM unit :=
  s <- get ;;
  e0 <- lift_opt (arp_cache s !! 0%nat) ;;
  let target := arp_pick 0 0 (ae_age e0) (arp_cache s) in
  let age := i32 (arp_age_counter s + 1) in
  put (set_arp (<[target := mk_arp ip mac age true]> (arp_cache s)) age s).

Definition arp_hdr (oper : Z) (sha spa tha tpa : list Z) : list Z :=
  be16 ARP_HTYPE_ETH ++ be16 ETH_IPV4 ++ [6; 4] ++ be16 oper ++ sha ++ spa ++ tha ++ tpa.
Definition arp_send_request (i : net_if) (target_ip : list Z) : NM unit :=
  _ <- netdev_send (if_netdev i)
    (eth_hdr (replicate 6 0xFF) (if_mac i) ETH_ARP ++
     arp_hdr ARP_REQUEST (if_mac i) (if_ip i) (replicate 6 0) target_ip) ;;
  ret tt.

(** The address found, or a request on every interface that is up. *)
Definition arp_lookup (ip : list Z) : NM (option (list Z)) :=
  e <- arp_cache_find ip ;;
  match e with
  | Some e => ret (Some (ae_mac e))
  | None =>
      ifs <- gets net_ifs ;;
      for_each ifs (λ i, if decide (is_up i) then arp_send_request i ip else ret tt) ;;;
      ret None
  end.

Definition arp_handle_packet (data : list Z) : NM unit :=
  if zlen data <? ARP_HDR_LEN then ret tt else
  htype <- lift_opt (rd16 data 0) ;;
  if negb (ntohs htype =? ARP_HTYPE_ETH) then ret tt else
  ptype <- lift_opt (rd16 data 2) ;;
  if negb (ntohs ptype =? ETH_IPV4) then ret tt else
  hlen <- lift_opt (rd8 data 4) ;;
  plen <- lift_opt (rd8 data 5) ;;
  if negb (hlen =? 6) || negb (plen =? 4) then ret tt else
  oper <- lift_opt (rd16 data 6) ;;
  sha <- lift_opt (slice data 8 6) ;;
  spa <- lift_opt (slice data 14 4) ;;
  if ntohs oper =? ARP_REQUEST then
    tpa <- lift_opt (slice data 24 4) ;;
    ifs <- gets net_ifs ;;
    match net_if_find_by_ip tpa ifs with
    | None => ret tt
    | Some i =>
        if if_netdev i =? 0 then ret tt else
        _ <- netdev_send (if_netdev i)
          (eth_hdr sha (if_mac i) ETH_ARP ++ arp_hdr ARP_REPLY (if_mac i) (if_ip i) sha spa) ;;
        ret tt
    end
  else if ntohs oper =? ARP_REPLY then arp_cache_add spa sha
  else ret tt.
End netbase.
Abbreviation NM D := (ST (net D)).
