(* ===== verification/Inet.v ===== *)
(** * kernel/net/net.c: sending IPv4 packets, ICMP echo and UDP. *)
From S2P Require Import Prelude Bytes NetBase.
Local Open Scope Z_scope.
Local Open Scope kernel_scope.

Definition IP_PROTO_ICMP : Z := 1.
Definition IP_PROTO_TCP : Z := 6.
Definition IP_PROTO_UDP : Z := 17.
Definition ICMP_ECHO_REPLY : Z := 0.
Definition ICMP_ECHO_REQUEST : Z := 8.
Definition IP_HDR_LEN : Z := 20.
Definition ICMP_HDR_LEN : Z := 8.
Definition UDP_HDR_LEN : Z := 8.
Definition MAX_UDP_SOCKETS : nat := 16.
Definition UDP_RX_SIZE : Z := 2048.

Section inet.
Context {D : Type} `{NetDriver D}.

(** ** IPv4 *)

(** The header, with the checksum field's bytes as an argument. *)
Definition ipv4_hdr (total id protocol : Z) (csum src dst : list Z) : list Z :=
  [0x45; 0] ++ be16 (u16 total) ++ be16 id ++ [0; 0; 64; protocol] ++ csum ++ src ++ dst.

(** The packet of an interface: [memcpy] of [len] bytes behind the header; it
    must fit into the [total] bytes allocated. *)
Definition ip_packet (i : net_if) (id : Z) (dst_ip : list Z) (protocol : Z) (data : list Z) (len : Z) : option (list Z) :=
  let total := IP_HDR_LEN + len in
  let total := if 65535 <? total then 65535 else total in
  csum ← ip_checksum (ipv4_hdr total id protocol [0; 0] (if_ip i) dst_ip);
  body ← slice data 0 len;
  if total <? IP_HDR_LEN + len then None
  else Some (ipv4_hdr total id protocol (le_bytes 2 csum) (if_ip i) dst_ip ++ body).

(** [net_if_find_by_ip], else the first interface. *)
Definition ip_iface (dst_ip : list Z) (ifs : list net_if) : option net_if :=
  match net_if_find_by_ip dst_ip ifs with Some i => Some i | None => head ifs end.

Definition ip_send (dst_ip : list Z) (protocol : Z) (data : list Z) (len : Z) : NM D Z :=
  ifs <- gets net_ifs ;;
  match ip_iface dst_ip ifs with
  | None => ret (-1)
  | Some i =>
      if if_netdev i =? 0 then ret (-1) else
      m <- arp_lookup dst_ip ;;
      let dst_mac := default (replicate 6 0xFF) m in
      ok <- nalloc ;;
      if negb ok then ret (-1) else
      id <- gets ip_id_counter ;;
      modify (set_ip_id (u16 (id + 1))) ;;;
      packet <- lift_opt (ip_packet i id dst_ip protocol data len) ;;
      eth_send (if_netdev i) dst_mac ETH_IPV4 packet
  end.

(** ** ICMP *)
Definition checksum_good (csum : Z) : bool := (csum =? 0) || (csum =? 0xFFFF).
Definition icmp_handle_packet (src_ip data : list Z) : NM D unit :=
  if zlen data <? ICMP_HDR_LEN then ret tt else
  csum <- lift_opt (checksum_calc data) ;;
  if negb (checksum_good csum) then ret tt else
  type <- lift_opt (rd8 data 0) ;;
  code <- lift_opt (rd8 data 1) ;;
  if (type =? ICMP_ECHO_REQUEST) && (code =? 0) then
    ok <- nalloc ;;
    if negb ok then ret tt else
    let reply c := [ICMP_ECHO_REPLY; 0] ++ c ++ drop 4 data in
    c <- lift_opt (checksum_calc (reply [0; 0])) ;;
    _ <- ip_send src_ip IP_PROTO_ICMP (reply (le_bytes 2 c)) (u16 (zlen data)) ;;
    ret tt
  else ret tt.

(** ** UDP *)
Definition udp_hdr (src_port dst_port total : Z) (csum : list Z) : list Z :=
  be16 src_port ++ be16 dst_port ++ be16 (u16 total) ++ csum.

Definition udp_send (src_port : Z) (dst_ip : list Z) (dst_port : Z) (data : list Z) (len : Z) : NM D Z :=
  ifs <- gets net_ifs ;;
  match net_if_find_by_ip dst_ip ifs with
  | None => ret (-1)
  | Some i =>
      if if_netdev i =? 0 then ret (-1) else
      let total := UDP_HDR_LEN + len in
      ok <- nalloc ;;
      if negb ok then ret (-1) else
      body <- lift_opt (slice data 0 len) ;;
      csum <- lift_opt (tcp_udp_checksum (if_ip i) dst_ip IP_PROTO_UDP (udp_hdr src_port dst_port total [0; 0] ++ body)) ;;
      ip_send dst_ip IP_PROTO_UDP (udp_hdr src_port dst_port total (le_bytes 2 csum) ++ body) (u16 total)
  end.

Definition udp_bound (port : Z) (u : udp_socket) : Prop := us_in_use u = true ∧ us_port u = port.
#[export] Instance udp_bound_dec port u : Decision (udp_bound port u) := _.

Definition udp_handle_packet (src_ip data : list Z) : NM D unit :=
  if zlen data <? UDP_HDR_LEN then ret tt else
  dst_port <- lift_opt (rd16 data 2) ;;
  src_port <- lift_opt (rd16 data 0) ;;
  let data_len := zlen data - UDP_HDR_LEN in
  s <- get ;;
  match list_find (udp_bound (ntohs dst_port)) (udp_sockets s) with
  | None => ret tt
  | Some (i, u) =>
      let copy_len := if UDP_RX_SIZE <? data_len then UDP_RX_SIZE else data_len in
      bytes <- lift_opt (slice data UDP_HDR_LEN copy_len) ;;
      put (set_udp (<[i := mk_udp (us_port u) true bytes src_ip (ntohs src_port)]> (udp_sockets s)) s)
  end.

Definition udp_ready (port : Z) (u : udp_socket) : Prop := udp_bound port u ∧ us_rx u ≠ [].
#[export] Instance udp_ready_dec port u : Decision (udp_ready port u) := _.
(** [copy_len] or -1; the bytes, the sender's address and port. *)
Definition udp_recvfrom (port max_len : Z) : NM D (Z * list Z * list Z * Z) :=
  if max_len <? 0 then ret (-1, [], [], 0) else
  s <- get ;;
  match list_find (udp_ready port) (udp_sockets s) with
  | None => ret (-1, [], [], 0)
  | Some (i, u) =>
      let copy_len := if max_len <? zlen (us_rx u) then max_len else zlen (us_rx u) in
      put (set_udp (<[i := mk_udp (us_port u) true [] (us_src_ip u) (us_src_port u)]> (udp_sockets s)) s) ;;;
      ret (copy_len, take (Z.to_nat copy_len) (us_rx u), us_src_ip u, us_src_port u)
  end.
End inet.
