(* ===== verification/Tcp.v ===== *)
(** * kernel/net/net.c: TCP sockets and the segment handler.

    A socket is its index in [tcp_sockets].  [tcp_lock] makes a call one step;
    the source opens it before it sends a segment. *)
From S2P Require Import Prelude Bytes NetBase Inet.
Local Open Scope Z_scope.
Local Open Scope kernel_scope.

Definition TCP_FIN : Z := 1.
Definition TCP_SYN : Z := 2.
Definition TCP_RST : Z := 4.
Definition TCP_PSH : Z := 8.
Definition TCP_ACK : Z := 16.
Definition MAX_TCP_SOCKETS : nat := 16.
Definition TCP_RX_BUF_SIZE : Z := 4096.
Definition TCP_MAX_SEGMENT : Z := 1460.
Definition TCP_BACKLOG_MAX : Z := 8.
Definition TCP_HDR_LEN : Z := 20.

Definition flag (flags bits : Z) : bool := negb (Z.land flags bits =? 0).
Definition all_flags (flags bits : Z) : bool := Z.land flags bits =? bits.

Definition no_ip : list Z := [0; 0; 0; 0].
Definition socket0 : tcp_socket := mk_tcp 0 false TCP_CLOSED no_ip 0 no_ip 0 0 0 0 0 [] 0 [].

(** ** Fields *)
Definition ts_set_state (v : tcp_state) (k : tcp_socket) : tcp_socket :=
  mk_tcp (ts_id k) (ts_in_use k) v (ts_local_ip k) (ts_local_port k) (ts_remote_ip k) (ts_remote_port k)
    (ts_isn k) (ts_seq_num k) (ts_ack_num k) (ts_rcv_nxt k) (ts_rx k) (ts_backlog k) (ts_pending k).
Definition ts_set_seq (v : Z) (k : tcp_socket) : tcp_socket :=
  mk_tcp (ts_id k) (ts_in_use k) (ts_state k) (ts_local_ip k) (ts_local_port k) (ts_remote_ip k) (ts_remote_port k)
    (ts_isn k) v (ts_ack_num k) (ts_rcv_nxt k) (ts_rx k) (ts_backlog k) (ts_pending k).
Definition ts_set_ack (v : Z) (k : tcp_socket) : tcp_socket :=
  mk_tcp (ts_id k) (ts_in_use k) (ts_state k) (ts_local_ip k) (ts_local_port k) (ts_remote_ip k) (ts_remote_port k)
    (ts_isn k) (ts_seq_num k) v (ts_rcv_nxt k) (ts_rx k) (ts_backlog k) (ts_pending k).
Definition ts_set_rcv (v : Z) (k : tcp_socket) : tcp_socket :=
  mk_tcp (ts_id k) (ts_in_use k) (ts_state k) (ts_local_ip k) (ts_local_port k) (ts_remote_ip k) (ts_remote_port k)
    (ts_isn k) (ts_seq_num k) (ts_ack_num k) v (ts_rx k) (ts_backlog k) (ts_pending k).
Definition ts_set_rx (v : list Z) (k : tcp_socket) : tcp_socket :=
  mk_tcp (ts_id k) (ts_in_use k) (ts_state k) (ts_local_ip k) (ts_local_port k) (ts_remote_ip k) (ts_remote_port k)
    (ts_isn k) (ts_seq_num k) (ts_ack_num k) (ts_rcv_nxt k) v (ts_backlog k) (ts_pending k).
Definition ts_set_local (ip : list Z) (port : Z) (k : tcp_socket) : tcp_socket :=
  mk_tcp (ts_id k) (ts_in_use k) (ts_state k) ip port (ts_remote_ip k) (ts_remote_port k)
    (ts_isn k) (ts_seq_num k) (ts_ack_num k) (ts_rcv_nxt k) (ts_rx k) (ts_backlog k) (ts_pending k).
Definition ts_set_pending (b : Z) (l : list Z) (k : tcp_socket) : tcp_socket :=
  mk_tcp (ts_id k) (ts_in_use k) (ts_state k) (ts_local_ip k) (ts_local_port k) (ts_remote_ip k) (ts_remote_port k)
    (ts_isn k) (ts_seq_num k) (ts_ack_num k) (ts_rcv_nxt k) (ts_rx k) b l.

(** ** The socket table *)
Definition has_id (id : Z) (k : tcp_socket) : Prop := ts_in_use k = true ∧ ts_id k = id.
#[export] Instance has_id_dec id k : Decision (has_id id k) := _.
Definition addressed (src_ip : list Z) (src_port : Z) (dst_ip : list Z) (dst_port : Z) (k : tcp_socket) : Prop :=
  ts_in_use k = true ∧ ts_local_ip k = dst_ip ∧ ts_local_port k = dst_port ∧
  ts_remote_ip k = src_ip ∧ ts_remote_port k = src_port.
#[export] Instance addressed_dec a b c d k : Decision (addressed a b c d k) := _.
Definition connecting (src_ip : list Z) (src_port dst_port : Z) (k : tcp_socket) : Prop :=
  ts_in_use k = true ∧ ts_local_port k = dst_port ∧ ts_state k = TCP_SYN_SENT ∧
  ts_remote_ip k = src_ip ∧ ts_remote_port k = src_port.
#[export] Instance connecting_dec a b c k : Decision (connecting a b c k) := _.
Definition listening (port : Z) (k : tcp_socket) : Prop :=
  ts_in_use k = true ∧ ts_state k = TCP_LISTEN ∧ ts_local_port k = port.
#[export] Instance listening_dec p k : Decision (listening p k) := _.
Definition unused (k : tcp_socket) : Prop := ts_in_use k = false.
#[export] Instance unused_dec k : Decision (unused k) := _.

Section tcp.
Context {D : Type} `{NetDriver D}.

Definition sockets (s : net D) : list tcp_socket := tcp_sockets (tcps s).
Definition upd_sock (i : nat) (g : tcp_socket → tcp_socket) : NM D unit :=
  modify (λ s, set_tcps (mk_tcps (alter g i (sockets s)) (tcp_next_id (tcps s)) (tcp_iss (tcps s))) s).
Definition ld_sock (i : nat) : NM D tcp_socket := s <- get ;; lift_opt (sockets s !! i).

Definition tcp_get_iss : NM D Z :=
  s <- get ;;
  let iss := u32 (tcp_iss (tcps s) + 0x10000) in
  let iss := if iss =? 0 then 0x10000 else iss in
  put (set_tcps (mk_tcps (sockets s) (tcp_next_id (tcps s)) iss) s) ;;;
  ret iss.
(** [tcp_next_id++; if (tcp_next_id <= 0) tcp_next_id = 1]. *)
Definition take_id : NM D Z :=
  s <- get ;;
  let id := tcp_next_id (tcps s) in
  let n := i32 (id + 1) in
  put (set_tcps (mk_tcps (sockets s) (if n <=? 0 then 1 else n) (tcp_iss (tcps s))) s) ;;;
  ret id.

Definition tcp_find_socket (id : Z) : NM D (option nat) := gets (λ s, fst <$> list_find (has_id id) (sockets s)).
Definition tcp_find_by_addr (src_ip : list Z) (src_port : Z) (dst_ip : list Z) (dst_port : Z) : NM D (option nat) :=
  gets (λ s, fst <$> list_find (addressed src_ip src_port dst_ip dst_port) (sockets s)).
Definition tcp_find_listener (port : Z) : NM D (option nat) := gets (λ s, fst <$> list_find (listening port) (sockets s)).

(** ** Sending *)
Definition tcp_hdr (k : tcp_socket) (flags : Z) (csum : list Z) : list Z :=
  be16 (ts_local_port k) ++ be16 (ts_remote_port k) ++ be32 (ts_seq_num k) ++ be32 (ts_ack_num k) ++
  be16 (u16 (Z.lor (Z.shiftl 5 12) flags)) ++ be16 8192 ++ csum ++ [0; 0].

Definition tcp_send_packet (i : nat) (flags : Z) (data : list Z) : NM D Z :=
  k <- ld_sock i ;;
  ifs <- gets net_ifs ;;
  match net_if_find_by_ip (ts_remote_ip k) ifs with
  | None => ret (-1)
  | Some f =>
      if if_netdev f =? 0 then ret (-1) else
      let total := TCP_HDR_LEN + zlen data in
      ok <- nalloc ;;
      if negb ok then ret (-1) else
      csum <- lift_opt (tcp_udp_checksum (if_ip f) (ts_remote_ip k) IP_PROTO_TCP (tcp_hdr k flags [0; 0] ++ data)) ;;
      r <- ip_send (ts_remote_ip k) IP_PROTO_TCP (tcp_hdr k flags (le_bytes 2 csum) ++ data) (u16 total) ;;
      (if (0 <=? r) && flag flags (Z.lor TCP_SYN TCP_FIN)
       then upd_sock i (λ k, ts_set_seq (u32 (ts_seq_num k + 1)) k) else ret tt) ;;;
      (if (0 <=? r) && (0 <? zlen data)
       then upd_sock i (λ k, ts_set_seq (u32 (ts_seq_num k + zlen data)) k) else ret tt) ;;;
      ret r
  end.

(** ** The calls *)
Definition tcp_socket_create : NM D Z :=
  s <- get ;;
  match list_find unused (sockets s) with
  | None => ret (-1)
  | Some (i, _) =>
      id <- take_id ;;
      upd_sock i (λ _, mk_tcp id true TCP_CLOSED no_ip 0 no_ip 0 0 0 0 0 [] 0 []) ;;;
      ret id
  end.

Definition tcp_bind (sock port : Z) : NM D Z :=
  o <- tcp_find_socket sock ;;
  match o with
  | None => ret (-1)
  | Some i =>
      ifs <- gets net_ifs ;;
      upd_sock i (λ k, ts_set_local (match list_find is_up ifs with Some (_, f) => if_ip f | None => ts_local_ip k end) port k) ;;;
      ret 0
  end.

Definition tcp_connect (sock : Z) (dst_ip : list Z) (dst_port : Z) : NM D Z :=
  o <- tcp_find_socket sock ;;
  match o with
  | None => ret (-1)
  | Some i =>
      k <- ld_sock i ;;
      if decide (ts_state k ≠ TCP_CLOSED) then ret (-1) else
      ifs <- gets net_ifs ;;
      match (match net_if_find_by_ip dst_ip ifs with Some f => Some f | None => snd <$> list_find is_up ifs end) with
      | None => ret (-1)
      | Some f =>
          isn <- tcp_get_iss ;;
          upd_sock i (λ k,
            mk_tcp (ts_id k) (ts_in_use k) TCP_SYN_SENT (if_ip f)
              (if ts_local_port k =? 0 then u16 (49152 + Z.rem sock 16384) else ts_local_port k)
              dst_ip dst_port isn isn 0 0 (ts_rx k) (ts_backlog k) (ts_pending k)) ;;;
          _ <- tcp_send_packet i TCP_SYN [] ;;
          ret 0
      end
  end.

Definition tcp_send (sock : Z) (data : list Z) (len : Z) : NM D Z :=
  o <- tcp_find_socket sock ;;
  match o with
  | None => ret (-1)
  | Some i =>
      k <- ld_sock i ;;
      if decide (ts_state k ≠ TCP_ESTABLISHED ∧ ts_state k ≠ TCP_CLOSE_WAIT) then ret (-1) else
      if len <=? 0 then ret 0 else
      let send_len := if TCP_MAX_SEGMENT <? len then TCP_MAX_SEGMENT else len in
      bytes <- lift_opt (slice data 0 send_len) ;;
      r <- tcp_send_packet i (Z.lor TCP_PSH TCP_ACK) bytes ;;
      ret (if r <? 0 then r else send_len)
  end.

(** [(copy_len, bytes)]; a negative length would copy without end. *)
Definition tcp_recv (sock max_len : Z) : NM D (Z * list Z) :=
  o <- tcp_find_socket sock ;;
  match o with
  | None => ret (-1, [])
  | Some i =>
      k <- ld_sock i ;;
      if zlen (ts_rx k) <=? 0 then ret (0, []) else
      let copy_len := if max_len <? zlen (ts_rx k) then max_len else zlen (ts_rx k) in
      bytes <- lift_opt (slice (ts_rx k) 0 copy_len) ;;
      upd_sock i (ts_set_rx (drop (Z.to_nat copy_len) (ts_rx k))) ;;;
      ret (copy_len, bytes)
  end.

(** The two closing transitions, with the FIN. *)
Definition send_fin (i : nat) (st : tcp_state) : NM D Z :=
  upd_sock i (ts_set_state st) ;;;
  _ <- tcp_send_packet i (Z.lor TCP_FIN TCP_ACK) [] ;;
  ret 0.
Definition tcp_close (sock : Z) : NM D Z :=
  o <- tcp_find_socket sock ;;
  match o with
  | None => ret (-1)
  | Some i =>
      k <- ld_sock i ;;
      match ts_state k with
      | TCP_ESTABLISHED => send_fin i TCP_FIN_WAIT1
      | TCP_CLOSE_WAIT => send_fin i TCP_LAST_ACK
      | TCP_CLOSED => ret 0
      | _ => ret (-1)
      end
  end.
Definition tcp_shutdown (sock how : Z) : NM D Z :=
  o <- tcp_find_socket sock ;;
  match o with
  | None => ret (-1)
  | Some i =>
      k <- ld_sock i ;;
      match ts_state k with
      | TCP_ESTABLISHED => send_fin i TCP_FIN_WAIT1
      | TCP_CLOSE_WAIT => send_fin i TCP_LAST_ACK
      | _ => ret (-1)
      end
  end.

Definition tcp_listen (sock backlog : Z) : NM D Z :=
  o <- tcp_find_socket sock ;;
  match o with
  | None => ret (-1)
  | Some i =>
      let backlog := if backlog <? 0 then 0 else backlog in
      let backlog := if TCP_BACKLOG_MAX <? backlog then TCP_BACKLOG_MAX else backlog in
      upd_sock i (λ k, ts_set_state TCP_LISTEN (ts_set_pending backlog [] k)) ;;;
      ret 0
  end.

(** The id and, when the socket exists, the peer. *)
Definition tcp_accept (sock : Z) : NM D (Z * option (list Z * Z)) :=
  o <- tcp_find_socket sock ;;
  match o with
  | None => ret (-1, None)
  | Some i =>
      k <- ld_sock i ;;
      if decide (ts_state k ≠ TCP_LISTEN) then ret (-1, None) else
      match ts_pending k with
      | [] => ret (-1, None)
      | accepted_id :: rest =>
          upd_sock i (ts_set_pending (ts_backlog k) rest) ;;;
          a <- tcp_find_socket accepted_id ;;
          match a with
          | None => ret (accepted_id, None)
          | Some j => kj <- ld_sock j ;; ret (accepted_id, Some (ts_remote_ip kj, ts_remote_port kj))
          end
      end
  end.

Definition tcp_getsockname (sock : Z) : NM D (option (list Z * Z)) :=
  o <- tcp_find_socket sock ;;
  match o with
  | None => ret None
  | Some i => k <- ld_sock i ;; ret (Some (ts_local_ip k, ts_local_port k))
  end.
Definition tcp_getpeername (sock : Z) : NM D (option (list Z * Z)) :=
  o <- tcp_find_socket sock ;;
  match o with
  | None => ret None
  | Some i => k <- ld_sock i ;; ret (Some (ts_remote_ip k, ts_remote_port k))
  end.

(** ** Incoming segments *)

(** A SYN for a listener: a new socket in the first free slot. *)
Definition tcp_incoming (l : nat) (src_ip : list Z) (src_port dst_port seq : Z) : NM D unit :=
  lk <- ld_sock l ;;
  if ts_backlog lk <=? zlen (ts_pending lk) then ret tt else
  new_id <- take_id ;;
  s <- get ;;
  match list_find unused (sockets s) with
  | None => ret tt
  | Some (slot, _) =>
      isn <- tcp_get_iss ;;
      upd_sock slot (λ _, mk_tcp new_id true TCP_SYN_RECEIVED (ts_local_ip lk) dst_port src_ip src_port
                            isn isn (u32 (seq + 1)) (u32 (seq + 1)) [] 0 []) ;;;
      (if zlen (ts_pending lk) <? TCP_BACKLOG_MAX
       then upd_sock l (λ k, ts_set_pending (ts_backlog k) (ts_pending k ++ [new_id]) k) else ret tt) ;;;
      _ <- tcp_send_packet slot (Z.lor TCP_SYN TCP_ACK) [] ;;
      ret tt
  end.

(** The state machine of a connection: the socket after a segment, and whether
    an ACK is sent. *)
Definition on_segment (k : tcp_socket) (flags seq : Z) (payload : list Z) : tcp_socket * bool :=
  match ts_state k with
  | TCP_SYN_SENT =>
      if all_flags flags (Z.lor TCP_SYN TCP_ACK) then
        (ts_set_state TCP_ESTABLISHED (ts_set_rcv (u32 (seq + 1)) (ts_set_ack (u32 (seq + 1)) k)), true)
      else if flag flags TCP_RST then (ts_set_state TCP_CLOSED k, false)
      else (k, false)
  | TCP_SYN_RECEIVED =>
      if flag flags TCP_RST then (ts_set_state TCP_CLOSED k, false)
      else if flag flags TCP_ACK then (ts_set_state TCP_ESTABLISHED (ts_set_ack seq k), false)
      else (k, false)
  | TCP_ESTABLISHED =>
      if flag flags TCP_RST then (ts_set_state TCP_CLOSED k, false)
      else if flag flags TCP_FIN then (ts_set_state TCP_CLOSE_WAIT (ts_set_ack (u32 (seq + 1)) k), true)
      else if 0 <? zlen payload then
        let room := TCP_RX_BUF_SIZE - zlen (ts_rx k) in
        let copy_len := if room <? zlen payload then room else zlen payload in
        let k := if 0 <? copy_len then ts_set_rx (ts_rx k ++ take (Z.to_nat copy_len) payload) k else k in
        let ack := u32 (seq + zlen payload) in
        (ts_set_rcv ack (ts_set_ack ack k), true)
      else (k, false)
  | TCP_FIN_WAIT1 =>
      if flag flags TCP_RST then (ts_set_state TCP_CLOSED k, false)
      else if all_flags flags (Z.lor TCP_FIN TCP_ACK) then (ts_set_state TCP_TIME_WAIT (ts_set_ack (u32 (seq + 1)) k), true)
      else if flag flags TCP_ACK then (ts_set_state TCP_FIN_WAIT2 k, false)
      else (k, false)
  | TCP_FIN_WAIT2 =>
      if flag flags TCP_RST then (ts_set_state TCP_CLOSED k, false)
      else if flag flags TCP_FIN then (ts_set_state TCP_TIME_WAIT (ts_set_ack (u32 (seq + 1)) k), true)
      else (k, false)
  | TCP_LAST_ACK =>
      if flag flags TCP_RST then (ts_set_state TCP_CLOSED k, false)
      else if flag flags TCP_ACK then (ts_set_state TCP_CLOSED k, false)
      else (k, false)
  | TCP_CLOSE_WAIT | TCP_TIME_WAIT | TCP_CLOSED | TCP_LISTEN => (k, false)
  end.

(** The fields of a segment: ports, sequence number, flags and payload. *)
Record segment := mk_seg { sg_src : Z; sg_dst : Z; sg_seq : Z; sg_flags : Z; sg_payload : list Z }.
(** [inl]: too short or a bad offset, dropped. *)
Definition parse_segment (data : list Z) : option (option segment) :=
  if zlen data <? TCP_HDR_LEN then Some None else
  dof ← rd16 data 12;
  let data_offset := Z.shiftr (ntohs dof) 12 * 4 in
  if (data_offset <? TCP_HDR_LEN) || (zlen data <? data_offset) then Some None else
  src ← rd16 data 0;
  dst ← rd16 data 2;
  seq ← rd32 data 4;
  payload ← slice data data_offset (zlen data - data_offset);
  Some (Some (mk_seg (ntohs src) (ntohs dst) (ntohl seq) (Z.land (ntohs dof) 0x3F) payload)).

Definition tcp_handle_packet (src_ip dst_ip data : list Z) : NM D unit :=
  p <- lift_opt (parse_segment data) ;;
  match p with
  | None => ret tt
  | Some g =>
      o <- tcp_find_by_addr src_ip (sg_src g) dst_ip (sg_dst g) ;;
      o <- (match o with
            | Some i => ret (Some i)
            | None => gets (λ s, fst <$> list_find (connecting src_ip (sg_src g) (sg_dst g)) (sockets s))
            end) ;;
      match o with
      | None =>
          l <- tcp_find_listener (sg_dst g) ;;
          match l with
          | Some l =>
              if flag (sg_flags g) TCP_SYN && negb (flag (sg_flags g) TCP_ACK)
              then tcp_incoming l src_ip (sg_src g) (sg_dst g) (sg_seq g) else ret tt
          | None => ret tt
          end
      | Some i =>
          k <- ld_sock i ;;
          let (k', ack) := on_segment k (sg_flags g) (sg_seq g) (sg_payload g) in
          upd_sock i (λ _, k') ;;;
          if (ack : bool) then _ <- tcp_send_packet i TCP_ACK [] ;; ret tt else ret tt
      end
  end.
End tcp.
