(* ===== verification/Ipv6.v ===== *)
(** * kernel/net/ipv6.c: addresses, the neighbour cache, sending and the packet
    handler.

    [ipv6_send], [ndp_lookup] and [ndp_send_solicitation] call each other without
    a bound; their common fuel is the depth of the C stack. *)
From S2P Require Import Prelude Bytes NetBase Inet.
Local Open Scope Z_scope.
Local Open Scope kernel_scope.

Definition ICMPV6_ECHO_REQUEST : Z := 128.
Definition ICMPV6_ECHO_REPLY : Z := 129.
Definition ICMPV6_ND_NEIGHBOR_SOL : Z := 135.
Definition ICMPV6_ND_NEIGHBOR_ADV : Z := 136.
Definition NDP_OPT_SOURCE_LLADDR : Z := 1.
Definition NDP_OPT_TARGET_LLADDR : Z := 2.
Definition NDP_FLAG_SOLICITED : Z := 0x40.
Definition NDP_FLAG_OVERRIDE : Z := 0x20.
Definition IPV6_NEIGHBOR_CACHE_SIZE : nat := 16.
Definition MAX_IPV6_IF : Z := 4.
Definition IPV6_PROTO_ICMPV6 : Z := 58.
Definition IPV6_HDR_LEN : Z := 40.
(** [sizeof(struct ndp_neighbor_sol)] and of the advertisement. *)
Definition NDP_LEN : Z := 20.

(** ** Addresses *)
Definition zero_addr : list Z := replicate 16 0.
Definition put2 (l : list Z) (i hi lo : Z) : list Z := <[Z.to_nat (2 * i + 1) := lo]> (<[Z.to_nat (2 * i) := hi]> l).

(** A hexadecimal digit's value. *)
Definition hex_value (c : Z) : option Z :=
  if (48 <=? c) && (c <=? 57) then Some (c - 48)
  else if (97 <=? c) && (c <=? 102) then Some (c - 97 + 10)
  else if (65 <=? c) && (c <=? 70) then Some (c - 65 + 10)
  else None.
(** [while ( *p && *p != ':')]: value, digits and the rest; [None] is a bad digit. *)
Fixpoint hex_group (val digits : Z) (p : list Z) : option (Z * Z * list Z) :=
  match p with
  | [] => Some (val, digits, [])
  | c :: p' =>
      if c =? 58 then Some (val, digits, p)
      else match hex_value c with
           | None => None
           | Some d => hex_group (u32 (u32 (Z.shiftl val 4) + d)) (digits + 1) p'
           end
  end.
(** [p[0] == ':' && p[1] == ':'], and one colon. *)
Definition colons (p : list Z) : option (list Z) :=
  match p with c :: d :: p' => if (c =? 58) && (d =? 58) then Some p' else None | _ => None end.
Definition skip_colon (p : list Z) : list Z := match p with c :: p' => if c =? 58 then p' else p | [] => [] end.
(** The groups read, their number and the place of the last "::". *)
Fixpoint addr_groups (fuel : nat) (p : list Z) (group colon_colon : Z) (addr : list Z) : option (list Z * Z * Z) :=
  match fuel with
  | O => None
  | S fuel =>
      match p with
      | [] => Some (addr, group, colon_colon)
      | _ =>
          if negb (group <? 8) then Some (addr, group, colon_colon) else
          match colons p with
          | Some p' =>
              match p' with [] => Some (addr, group, group) | _ => addr_groups fuel p' group group addr end
          | None =>
              '(val, digits, p) ← hex_group 0 0 p;
              if digits =? 0 then None else
              let addr := put2 addr group (Z.land (Z.shiftr val 8) 0xFF) (Z.land val 0xFF) in
              match skip_colon p with
              | [] => Some (addr, group + 1, colon_colon)
              | p => addr_groups fuel p (group + 1) colon_colon addr
              end
          end
      end
  end.
(** Moving the groups behind "::" to the end, highest first. *)
Fixpoint shift_groups (n : nat) (i shift : Z) (addr : list Z) : list Z :=
  match n with
  | O => addr
  | S n =>
      let g j := nth (Z.to_nat j) addr 0 in
      shift_groups n (i - 1) shift (put2 addr i (g (2 * (i - shift))) (g (2 * (i - shift) + 1)))
  end.
Fixpoint clear_groups (n : nat) (i : Z) (addr : list Z) : list Z :=
  match n with O => addr | S n => clear_groups n (i + 1) (put2 addr i 0 0) end.
(** [None] is -1.  Every turn of the loop consumes a character. *)
Definition ipv6_addr_from_str (str : list Z) : option (list Z) :=
  '(addr, group, cc) ← addr_groups (S (length str)) str 0 (-1) zero_addr;
  Some (if (0 <=? cc) && (group <? 8) then
          let shift := 8 - group in
          clear_groups (Z.to_nat shift) cc (shift_groups (Z.to_nat (8 - (cc + shift))) 7 shift addr)
        else addr).

Definition hex_digit (d : Z) : Z := if d <? 10 then 48 + d else 87 + d.
(** The shortest of one to four digits. *)
Definition group_str (g : Z) : list Z :=
  let d k := hex_digit (Z.land (Z.shiftr g k) 0xF) in
  if 0x1000 <=? g then [d 12; d 8; d 4; d 0]
  else if 0x100 <=? g then [d 8; d 4; d 0]
  else if 0x10 <=? g then [d 4; d 0]
  else [d 0].
Fixpoint addr_str (n : nat) (i : Z) (addr buf : list Z) (bufsz : Z) : list Z :=
  match n with
  | O => buf
  | S n =>
      let b j := nth (Z.to_nat j) addr 0 in
      let g := Z.lor (Z.shiftl (b i) 8) (b (i + 1)) in
      let buf := if zlen buf + 5 <? bufsz then buf ++ (if 0 <? i then [58] else []) ++ group_str g else buf in
      addr_str n (i + 2) addr buf bufsz
  end.
(** The text without its final NUL; [None] when nothing is written. *)
Definition ipv6_addr_to_str (addr : list Z) (bufsz : Z) : option (list Z) :=
  if bufsz <? 40 then None else Some (addr_str 8 0 addr [] bufsz).

Definition ipv6_gen_link_local (mac : list Z) : list Z :=
  let m i := nth i mac 0 in
  [0xFE; 0x80; 0; 0; 0; 0; 0; 0; Z.lxor (m 0%nat) 2; m 1%nat; m 2%nat; 0xFF; 0xFE; m 3%nat; m 4%nat; m 5%nat].

Section ipv6.
Context {D : Type} `{NetDriver D}.

(** ** The neighbour cache *)
Definition neighbor_match (ip : list Z) (e : ipv6_neighbor_entry) : Prop := ne_valid e = true ∧ ne_ip e = ip.
#[export] Instance neighbor_match_dec ip e : Decision (neighbor_match ip e) := _.

Definition ipv6_neighbor_find (ip : list Z) : NM D (option ipv6_neighbor_entry) :=
  s <- get ;;
  match list_find (neighbor_match ip) (ipv6_neighbor_cache (v6 s)) with
  | Some (i, e) =>
      let age := i32 (ipv6_neighbor_age (v6 s) + 1) in
      let e := mk_nb (ne_ip e) (ne_mac e) age true (ne_state e) in
      put (set_v6 (mk_v6 (<[i := e]> (ipv6_neighbor_cache (v6 s))) age (ipv6_ifaces (v6 s))) s) ;;;
      ret (Some e)
  | None => ret None
  end.

Fixpoint neighbor_pick (i target : nat) (oldest_age : Z) (l : list ipv6_neighbor_entry) : nat :=
  match l with
  | [] => target
  | e :: l =>
      if negb (ne_valid e) then i
      else if ne_age e <? oldest_age then neighbor_pick (S i) i (ne_age e) l
      else neighbor_pick (S i) target oldest_age l
  end.
Definition ipv6_neighbor_add (ip mac : list Z) : NM D unit :=
  s <- get ;;
  e0 <- lift_opt (ipv6_neighbor_cache (v6 s) !! 0%nat) ;;
  let target := neighbor_pick 0 0 (ne_age e0) (ipv6_neighbor_cache (v6 s)) in
  let age := i32 (ipv6_neighbor_age (v6 s) + 1) in
  put (set_v6 (mk_v6 (<[target := mk_nb ip mac age true 1]> (ipv6_neighbor_cache (v6 s))) age (ipv6_ifaces (v6 s))) s).

(** ** Sending *)
Definition active (i : ipv6_iface) : Prop := i6_in_use i = true ∧ i6_netdev i ≠ 0.
#[export] Instance active_dec i : Decision (active i) := _.

Definition ipv6_hdr (len next_header : Z) (src dst : list Z) : list Z :=
  [0x60; 0; 0; 0] ++ be16 len ++ [next_header; 64] ++ src ++ dst.
(** The last three bytes of an address. *)
Definition tail3 (a : list Z) : list Z := drop 13 a.
(** ff02::1:ffxx:xxxx. *)
Definition solicited_node (target : list Z) : list Z := [0xFF; 2; 0; 0; 0; 0; 0; 0; 0; 0; 0; 1; 0xFF] ++ tail3 target.
Definition neighbor_sol (target mac : list Z) : list Z :=
  [0; 0; 0; 0] ++ target ++ [NDP_OPT_SOURCE_LLADDR; 1] ++ mac.

(** The frame of [ipv6_send] once the MAC is known. *)
Definition ipv6_transmit (i : ipv6_iface) (dst_mac dst : list Z) (next_header : Z) (data : list Z) (len : Z) : NM D Z :=
  ok <- nalloc ;;
  if negb ok then ret (-1) else
  body <- lift_opt (slice data 0 len) ;;
  ok <- nalloc ;;
  if negb ok then ret (-1) else
  netdev_send (i6_netdev i) (eth_hdr dst_mac (i6_mac i) ETH_IPV6 ++ ipv6_hdr len next_header (i6_link_local i) dst ++ body).

(** [ndp_send_solicitation] up to its call of [ipv6_send], which is [send]. *)
Definition solicit (send : list Z → Z → list Z → Z → NM D Z) (target : list Z) : NM D Z :=
  s <- get ;;
  match list_find active (ipv6_ifaces (v6 s)) with
  | None => ret (-1)
  | Some (_, i) =>
      ok <- nalloc ;;
      if negb ok then ret (-1) else
      _ <- send (solicited_node target) IPV6_PROTO_ICMPV6 (neighbor_sol target (i6_mac i)) (NDP_LEN + 8) ;;
      ret 0
  end.
Definition lookup_with (send : list Z → Z → list Z → Z → NM D Z) (ip : list Z) : NM D (option (list Z)) :=
  e <- ipv6_neighbor_find ip ;;
  match e with
  | Some e => ret (Some (ne_mac e))
  | None => _ <- solicit send ip ;; ret None
  end.
Fixpoint ipv6_send (fuel : nat) (dst : list Z) (next_header : Z) (data : list Z) (len : Z) : NM D Z :=
  match fuel with
  | O => fail
  | S fuel =>
      s <- get ;;
      match list_find active (ipv6_ifaces (v6 s)) with
      | None => ret (-1)
      | Some (_, i) =>
          m <- lookup_with (ipv6_send fuel) dst ;;
          ipv6_transmit i (default ([0x33; 0x33; 0xFF] ++ tail3 dst) m) dst next_header data len
      end
  end.
Definition ndp_send_solicitation (fuel : nat) : list Z → NM D Z := solicit (ipv6_send fuel).
Definition ndp_lookup (fuel : nat) : list Z → NM D (option (list Z)) := lookup_with (ipv6_send fuel).
(** ipv6.c has no receive path: the answer is always -1. *)
Definition ipv6_recv : NM D Z := ret (-1).

(** ** Receiving *)

(** The sum of big-endian words, a last odd byte in the high half. *)
Fixpoint sum_be (sum : Z) (bs : list Z) : Z :=
  match bs with
  | b0 :: b1 :: bs => sum_be (u32 (sum + Z.lor (Z.shiftl b0 8) b1)) bs
  | [b] => u32 (sum + u32 (Z.shiftl (u16 b) 8))
  | [] => sum
  end.
Definition icmpv6_checksum (src dst reply : list Z) : option Z :=
  finish_sum (sum_be (u32 (u32 (sum_be 0 (src ++ dst) + zlen reply) + IPV6_PROTO_ICMPV6)) reply).

Definition ours (addr : list Z) (i : ipv6_iface) : Prop := i6_in_use i = true ∧ i6_link_local i = addr.
#[export] Instance ours_dec a i : Decision (ours a i) := _.

Definition icmpv6_echo (fuel : nat) (src dst payload : list Z) : NM D unit :=
  ok <- nalloc ;;
  if negb ok then ret tt else
  let reply c := [ICMPV6_ECHO_REPLY] ++ take 1 (drop 1 payload) ++ c ++ drop 4 payload in
  csum <- lift_opt (icmpv6_checksum src dst (reply [0; 0])) ;;
  _ <- ipv6_send fuel src IPV6_PROTO_ICMPV6
         (reply [Z.land (Z.shiftr csum 8) 0xFF; Z.land csum 0xFF]) (zlen payload) ;;
  ret tt.

Definition icmpv6_solicited (fuel : nat) (src payload : list Z) : NM D unit :=
  if zlen payload <? NDP_LEN then ret tt else
  target <- lift_opt (slice payload 4 16) ;;
  s <- get ;;
  match list_find (ours target) (ipv6_ifaces (v6 s)) with
  | None => ret tt
  | Some (_, i) =>
      (if NDP_LEN + 8 <=? zlen payload then
         kind <- lift_opt (rd8 payload NDP_LEN) ;;
         mac <- lift_opt (slice payload (NDP_LEN + 2) 6) ;;
         if kind =? NDP_OPT_SOURCE_LLADDR then ipv6_neighbor_add src mac else ret tt
       else ret tt) ;;;
      ok <- nalloc ;;
      if negb ok then ret tt else
      _ <- ipv6_send fuel src IPV6_PROTO_ICMPV6
             ([Z.lor NDP_FLAG_SOLICITED NDP_FLAG_OVERRIDE; 0; 0; 0] ++ target ++ [NDP_OPT_TARGET_LLADDR; 1] ++ i6_mac i)
             (NDP_LEN + 8) ;;
      ret tt
  end.

Definition icmpv6_advertised (payload : list Z) : NM D unit :=
  if zlen payload <? NDP_LEN then ret tt else
  if zlen payload <? NDP_LEN + 8 then ret tt else
  kind <- lift_opt (rd8 payload NDP_LEN) ;;
  if kind =? NDP_OPT_TARGET_LLADDR then
    addr <- lift_opt (slice payload 4 16) ;;
    mac <- lift_opt (slice payload (NDP_LEN + 2) 6) ;;
    ipv6_neighbor_add addr mac
  else ret tt.

Definition ipv6_handle_packet (fuel : nat) (data : list Z) : NM D unit :=
  if zlen data <? IPV6_HDR_LEN then ret tt else
  plen <- lift_opt (rd16 data 4) ;;
  let payload_len := ntohs plen in
  if u16 (zlen data - IPV6_HDR_LEN) <? payload_len then ret tt else
  next_header <- lift_opt (rd8 data 6) ;;
  src <- lift_opt (slice data 8 16) ;;
  dst <- lift_opt (slice data 24 16) ;;
  s <- get ;;
  let for_us := bool_decide (is_Some (list_find (ours dst) (ipv6_ifaces (v6 s)))) || (nth 0 dst 0 =? 0xFF) in
  if negb for_us then ret tt else
  if negb (next_header =? IPV6_PROTO_ICMPV6) then ret tt else
  if payload_len <? 4 then ret tt else
  payload <- lift_opt (slice data IPV6_HDR_LEN payload_len) ;;
  type <- lift_opt (rd8 payload 0) ;;
  if type =? ICMPV6_ECHO_REQUEST then icmpv6_echo fuel src dst payload
  else if type =? ICMPV6_ND_NEIGHBOR_SOL then icmpv6_solicited fuel src payload
  else if type =? ICMPV6_ND_NEIGHBOR_ADV then icmpv6_advertised payload
  else ret tt.

(** ** Initialisation *)
Definition lo_name : list Z := [108; 111].
Fixpoint ipv6_discover (fuel : nat) (a : Z) : NM D unit :=
  match fuel with
  | O => fail
  | S fuel =>
      s <- get ;;
      if (a =? 0) || negb (Z.of_nat (length (ipv6_ifaces (v6 s))) <? MAX_IPV6_IF) then ret tt else
      d <- lift_opt (net_devs s !! a) ;;
      (if decide (nd_name d = lo_name) then ret tt else
       put (set_v6 (mk_v6 (ipv6_neighbor_cache (v6 s)) (ipv6_neighbor_age (v6 s))
              (ipv6_ifaces (v6 s) ++ [mk_if6 true (ipv6_gen_link_local (nd_mac d)) zero_addr (nd_mac d) a])) s)) ;;;
      ipv6_discover fuel (nd_next d)
  end.
(** The count of interfaces is not reset, only the table. *)
Definition ipv6_init : NM D unit :=
  modify (λ s, set_v6 (mk_v6 (replicate IPV6_NEIGHBOR_CACHE_SIZE (mk_nb zero_addr (replicate 6 0) 0 false 0))
                             (ipv6_neighbor_age (v6 s))
                             ((λ _, mk_if6 false zero_addr zero_addr (replicate 6 0) 0) <$> ipv6_ifaces (v6 s))) s) ;;;
  s <- get ;;
  ipv6_discover (S (size (net_devs s))) (netdev_list s).
End ipv6.
