(* ===== verification/NetPoll.v ===== *)
(** * kernel/net/net.c: the loopback device's start-up, IPv4 input and the polling
    loop.

    [stack] bounds the depth of the C stack in ipv6.c's calls. *)
From S2P Require Import Prelude Bytes NetBase Inet Tcp Ipv6.
Local Open Scope Z_scope.
Local Open Scope kernel_scope.

Definition POLL_BUF_SIZE : Z := 2048.
(** The address of the static [loopback_netdev]. *)
Definition loopback_netdev : Z := 1.

(** The device and the interface that [loopback_init] sets up. *)
Definition lo_dev (next : Z) : net_device := mk_dev lo_name (replicate 6 0) LOOPBACK_MTU NETDEV_FLAG_UP (Some Loopback) next.
Definition lo_if : net_if :=
  mk_if lo_name [127; 0; 0; 1] (replicate 6 0) [255; 0; 0; 0] (replicate 4 0) (replicate 4 0)
    LOOPBACK_MTU (Z.lor NETIF_FLAG_UP NETIF_FLAG_RUNNING) loopback_netdev.

Section netpoll.
Context {D : Type} `{NetDriver D} (stack : nat).

(** ** The loopback device *)
Definition set_nd_flags (f : Z → Z) (a : Z) : NM D unit :=
  s <- get ;;
  d <- lift_opt (net_devs s !! a) ;;
  put (set_devs (<[a := mk_dev (nd_name d) (nd_mac d) (nd_mtu d) (f (nd_flags d)) (nd_driver d) (nd_next d)]> (net_devs s)) (netdev_list s) s).
Definition loopback_up (a : Z) : NM D Z := set_nd_flags (λ f, Z.lor f NETDEV_FLAG_UP) a ;;; ret 0.
Definition loopback_down (a : Z) : NM D Z := set_nd_flags (λ f, Z.ldiff f NETDEV_FLAG_UP) a ;;; ret 0.
(** [netdev->up(netdev)], when there is one. *)
Definition netdev_up (a : Z) : NM D Z :=
  s <- get ;;
  d <- lift_opt (net_devs s !! a) ;;
  match nd_driver d with
  | None => ret 0
  | Some Loopback => loopback_up a
  | Some Hardware => let '(r, h) := drv_up a (hw s) in put (set_hw h s) ;;; ret r
  end.

Definition loopback_init : NM D unit :=
  modify (λ s, set_devs (<[loopback_netdev := lo_dev 0]> (net_devs s)) (netdev_list s) s) ;;;
  _ <- netdev_register loopback_netdev ;;
  ifs <- gets net_ifs ;;
  if Z.of_nat (length ifs) <? MAX_NET_IF then modify (set_ifs (ifs ++ [lo_if])) else ret tt.

(** ** Input *)

(** The [switch] on the protocol. *)
Definition ip_deliver (protocol : Z) (src dst payload : list Z) : NM D unit :=
  if protocol =? IP_PROTO_ICMP then icmp_handle_packet src payload
  else if protocol =? IP_PROTO_UDP then udp_handle_packet src payload
  else if protocol =? IP_PROTO_TCP then tcp_handle_packet src dst payload
  else ret tt.
Definition ip_handle_packet (data : list Z) : NM D unit :=
  if zlen data <? IP_HDR_LEN then ret tt else
  vihl <- lift_opt (rd8 data 0) ;;
  let ihl := Z.land vihl 0x0F * 4 in
  if (ihl <? IP_HDR_LEN) || (zlen data <? ihl) then ret tt else
  tl <- lift_opt (rd16 data 2) ;;
  let total_len := ntohs tl in
  if (total_len <? u16 ihl) || (u16 (zlen data) <? total_len) then ret tt else
  header <- lift_opt (slice data 0 ihl) ;;
  csum <- lift_opt (ip_checksum header) ;;
  if negb (checksum_good csum) then ret tt else
  src <- lift_opt (slice data 12 4) ;;
  dst <- lift_opt (slice data 16 4) ;;
  ifs <- gets net_ifs ;;
  let for_us := bool_decide (is_Some (list_find (λ i, if_ip i = dst) ifs)) in
  if negb for_us then ret tt else
  payload <- lift_opt (slice data ihl (total_len - ihl)) ;;
  protocol <- lift_opt (rd8 data 9) ;;
  ip_deliver protocol src dst payload.

Definition process_eth_frame (data : list Z) : NM D unit :=
  if zlen data <? ETH_HDR_LEN then ret tt else
  et <- lift_opt (rd16 data 12) ;;
  payload <- lift_opt (slice data ETH_HDR_LEN (zlen data - ETH_HDR_LEN)) ;;
  if ntohs et =? ETH_ARP then arp_handle_packet payload
  else if ntohs et =? ETH_IPV4 then ip_handle_packet payload
  else if ntohs et =? ETH_IPV6 then ipv6_handle_packet stack payload
  else ret tt.

(** One interface's turn: [len] bytes of the buffer are the frame. *)
Definition poll_if (index : nat) : NM D unit :=
  ifs <- gets net_ifs ;;
  i <- lift_opt (ifs !! index) ;;
  if Z.land (if_flags i) NETIF_FLAG_UP =? 0 then ret tt else
  if if_netdev i =? 0 then ret tt else
  r <- eth_recv (if_netdev i) POLL_BUF_SIZE ;;
  let '(len, buf) := r in
  if 0 <? len then
    frame <- lift_opt (slice buf 0 len) ;;
    process_eth_frame frame
  else ret tt.
Definition net_poll : NM D unit :=
  ifs <- gets net_ifs ;;
  for_each (seq 0 (length ifs)) poll_if.
End netpoll.
