(* ===== verification/Dns.v ===== *)
(** * kernel/net/dns.c: the resolver.

    Host names are lists of bytes without the final NUL. *)
From S2P Require Import Prelude Bytes NetBase Inet Tcp Ipv6 NetPoll.
Local Open Scope Z_scope.
Local Open Scope kernel_scope.

Definition DNS_PORT : Z := 53.
Definition DNS_TYPE_A : Z := 1.
Definition DNS_CLASS_IN : Z := 1.
Definition DNS_QRY_STANDARD : Z := 0x0100.
Definition DNS_HDR_LEN : Z := 12.
Definition DNS_CACHE_SIZE : nat := 16.
Definition DNS_RX_SIZE : Z := 512.
Definition MAX_LABEL : Z := 63.

Definition dns_hash (hostname : list Z) : Z :=
  foldl (λ hash c, u32 (u32 (u32 (Z.shiftl hash 5) + hash) + c)) 5381 hostname.

(** ** The question *)

(** Up to the next dot, and the rest behind it. *)
Fixpoint split_dot (p : list Z) : list Z * list Z :=
  match p with
  | [] => ([], [])
  | c :: p => if c =? 46 then ([], p) else let '(seg, rest) := split_dot p in (c :: seg, rest)
  end.
(** Every turn consumes a character of the name. *)
Fixpoint encode_labels (fuel : nat) (p : list Z) : list Z :=
  match fuel, p with
  | O, _ | _, [] => [0]
  | S fuel, _ =>
      let '(seg, rest) := split_dot p in
      let seg_len := if MAX_LABEL <? zlen seg then MAX_LABEL else zlen seg in
      u8 seg_len :: take (Z.to_nat seg_len) seg ++ encode_labels fuel rest
  end.
Definition dns_encode_name (hostname : list Z) : list Z := encode_labels (length hostname) hostname.

Definition dns_header : list Z :=
  be16 1 ++ be16 DNS_QRY_STANDARD ++ be16 1 ++ [0; 0; 0; 0; 0; 0].
(** The packet of [pkt_len] bytes; [None] when the encoded name overruns it. *)
Definition dns_packet (hostname : list Z) : option (list Z) :=
  let pkt_len := DNS_HDR_LEN + (zlen hostname * 2 + 4) + 4 in
  let bytes := dns_header ++ dns_encode_name hostname ++ [0; DNS_TYPE_A; 0; DNS_CLASS_IN] in
  if pkt_len <? zlen bytes then None else Some (bytes ++ replicate (Z.to_nat (pkt_len - zlen bytes)) 0).

(** ** The answer *)

(** [while (pos < rx_len && rx_buf[pos] != 0)] over the question's name. *)
Fixpoint skip_question (fuel : nat) (rx : list Z) (pos : Z) : option Z :=
  match fuel with
  | O => None
  | S fuel =>
      if negb (pos <? zlen rx) then Some pos else
      b ← rd8 rx pos;
      if b =? 0 then Some pos
      else if Z.land b 0xC0 =? 0xC0 then Some (pos + 2)
      else skip_question fuel rx (pos + 1 + b)
  end.
Fixpoint skip_labels (fuel : nat) (rx : list Z) (pos : Z) : option Z :=
  match fuel with
  | O => None
  | S fuel =>
      if negb (pos <? zlen rx) then Some pos else
      b ← rd8 rx pos;
      if b =? 0 then Some pos
      else if zlen rx <? pos + 1 + b then Some pos
      else skip_labels fuel rx (pos + 1 + b)
  end.
(** The first address among at most [n] records from [pos] on. *)
Fixpoint scan_answers (n : nat) (rx : list Z) (pos : Z) : option (option (list Z)) :=
  match n with
  | O => Some None
  | S n =>
      if zlen rx <? pos + 10 then Some None else
      b ← rd8 rx pos;
      pos' ← (if Z.land b 0xC0 =? 0xC0 then Some (Some (pos + 2))
              else p ← skip_labels (S (length rx)) rx pos;
                   Some (if zlen rx <=? p then None else Some (p + 1)));
      match pos' with
      | None => Some None
      | Some pos =>
          if zlen rx <? pos + 10 then Some None else
          rtype ← rd16 rx pos;
          rclass ← rd16 rx (pos + 2);
          rd ← rd16 rx (pos + 8);
          let rdlen := ntohs rd in
          let pos := pos + 10 in
          if (ntohs rtype =? DNS_TYPE_A) && (ntohs rclass =? DNS_CLASS_IN) && (rdlen =? 4) && (pos + 4 <=? zlen rx)
          then a ← slice rx pos 4; Some (Some a)
          else if zlen rx <? u32 (pos + rdlen) then Some None
          else scan_answers n rx (pos + rdlen)
      end
  end.

(** What one received datagram does to the query. *)
Inductive dns_reply := DnsIgnored | DnsEmpty | DnsAddr (ip : list Z).
Definition dns_parse (rx : list Z) : option dns_reply :=
  if zlen rx <? DNS_HDR_LEN then Some DnsIgnored else
  id ← rd16 rx 0;
  if negb (ntohs id =? 1) then Some DnsIgnored else
  qd ← rd16 rx 4;
  if negb (ntohs qd =? 1) then Some DnsIgnored else
  an ← rd16 rx 6;
  let ancount := if 32 <? ntohs an then 32 else ntohs an in
  if ancount =? 0 then Some DnsEmpty else
  pos ← skip_question (S (length rx)) rx DNS_HDR_LEN;
  a ← scan_answers (Z.to_nat ancount) rx (pos + 1 + 4);
  Some (match a with Some ip => DnsAddr ip | None => DnsIgnored end).

Definition cached (hash : Z) (e : dns_cache_entry) : Prop := dc_valid e = true ∧ dc_hash e = hash.
#[export] Instance cached_dec hash e : Decision (cached hash e) := _.
Definition dns_free (e : dns_cache_entry) : Prop := dc_valid e = false.
#[export] Instance dns_free_dec e : Decision (dns_free e) := _.
(** Into the first free entry, if any. *)
Definition dns_cache_put (hash : Z) (ip : list Z) (c : list dns_cache_entry) : list dns_cache_entry :=
  match list_find dns_free c with
  | Some (i, _) => <[i := mk_dns hash ip true]> c
  | None => c
  end.

Definition cl_set_dns (ip : list Z) (c : list dns_cache_entry) (k : clients) : clients :=
  mk_clients ip c (dhcp_xid k) (dhcp_offered_ip k) (dhcp_server_ip k) (dhcp_initialized k).

Section dns.
Context {D : Type} `{NetDriver D} (stack : nat).

Definition dns_set_server (ip : list Z) : NM D unit :=
  modify (λ s, set_cl (cl_set_dns ip (dns_cache (cl s)) (cl s)) s).

(** [for (retry ...)]: -1 and no address, or 0 and the address. *)
Fixpoint dns_wait (retries : nat) (hash : Z) : NM D (Z * list Z) :=
  match retries with
  | O => ret (-1, [])
  | S retries =>
      net_poll stack ;;;
      r <- udp_recvfrom 0 DNS_RX_SIZE ;;
      let '(rx_len, rx, _, _) := r in
      if rx_len <? DNS_HDR_LEN then dns_wait retries hash else
      rep <- lift_opt (dns_parse rx) ;;
      match rep with
      | DnsIgnored => dns_wait retries hash
      | DnsEmpty => ret (-1, [])
      | DnsAddr ip =>
          modify (λ s, set_cl (cl_set_dns (dns_server_ip (cl s)) (dns_cache_put hash ip (dns_cache (cl s))) (cl s)) s) ;;;
          ret (0, ip)
      end
  end.

Definition dns_query (hostname : list Z) : NM D (Z * list Z) :=
  let hash := dns_hash hostname in
  c <- gets cl ;;
  match list_find (cached hash) (dns_cache c) with
  | Some (_, e) => ret (0, dc_ip e)
  | None =>
      ok <- nalloc ;;
      if negb ok then ret (-1, []) else
      pkt <- lift_opt (dns_packet hostname) ;;
      let total_len := DNS_HDR_LEN + zlen (dns_encode_name hostname) + 4 in
      r <- udp_send 0 (dns_server_ip c) DNS_PORT pkt (u16 total_len) ;;
      if r <? 0 then ret (-1, []) else dns_wait 30 hash
  end.
End dns.
