(* ===== verification/Dhcp.v ===== *)
(** * kernel/net/dhcp.c, and net.c's start-up of the stack. *)
From S2P Require Import Prelude Bytes NetBase Inet Tcp Ipv6 NetPoll.
Local Open Scope Z_scope.
Local Open Scope kernel_scope.

Definition DHCP_CLIENT_PORT : Z := 68.
Definition DHCP_SERVER_PORT : Z := 67.
Definition DHCP_MAGIC_COOKIE : Z := 0x63825363.
Definition DHCP_DISCOVER : Z := 1.
Definition DHCP_OFFER : Z := 2.
Definition DHCP_REQUEST : Z := 3.
Definition DHCP_ACK : Z := 5.
Definition DHCP_NAK : Z := 6.
Definition DHCP_OPT_SUBNET_MASK : Z := 1.
Definition DHCP_OPT_ROUTER : Z := 3.
Definition DHCP_OPT_DNS : Z := 6.
Definition DHCP_OPT_REQ_IP : Z := 50.
Definition DHCP_OPT_MSG_TYPE : Z := 53.
Definition DHCP_OPT_SERVER_ID : Z := 54.
Definition DHCP_OPT_END : Z := 255.
Definition DHCP_HDR_LEN : Z := 240.
Definition DHCP_BUF_SIZE : Z := 600.

Definition cl_set_dhcp (xid : Z) (offered server : list Z) (init : bool) (k : clients) : clients :=
  mk_clients (dns_server_ip k) (dns_cache k) xid offered server init.

(** ** Packets *)
Definition dhcp_build_option (type : Z) (value : list Z) : list Z := type :: zlen value :: value.
(** [struct dhcp_hdr]: a BOOTREQUEST with the broadcast flag. *)
Definition dhcp_hdr (xid : Z) (mac : list Z) : list Z :=
  [1; 1; 6; 0] ++ be32 xid ++ [0; 0] ++ be16 0x8000 ++ replicate 16 0 ++
  (mac ++ replicate 10 0) ++ replicate 64 0 ++ replicate 128 0 ++ be32 DHCP_MAGIC_COOKIE.
Definition params : list Z := [DHCP_OPT_SUBNET_MASK; DHCP_OPT_ROUTER; DHCP_OPT_DNS].
Definition discover_options : list Z :=
  dhcp_build_option DHCP_OPT_MSG_TYPE [DHCP_DISCOVER] ++ dhcp_build_option 55 params ++ [DHCP_OPT_END].
Definition request_options (offered server : list Z) : list Z :=
  dhcp_build_option DHCP_OPT_MSG_TYPE [DHCP_REQUEST] ++ dhcp_build_option DHCP_OPT_REQ_IP offered ++
  dhcp_build_option DHCP_OPT_SERVER_ID server ++ dhcp_build_option 55 params ++ [DHCP_OPT_END].

(** The first [out_max] bytes of an option; [Some None] is -1.  Every turn of the
    loop moves forward. *)
Fixpoint find_option_from (fuel : nat) (pkt : list Z) (opt_type out_max opt_off : Z) : option (option (list Z)) :=
  match fuel with
  | O => None
  | S fuel =>
      if negb (opt_off <? zlen pkt) then Some None else
      type ← rd8 pkt opt_off;
      if type =? DHCP_OPT_END then Some None else
      if type =? 0 then find_option_from fuel pkt opt_type out_max (opt_off + 1) else
      if zlen pkt <=? opt_off + 1 then Some None else
      len ← rd8 pkt (opt_off + 1);
      if zlen pkt <? opt_off + 2 + len then Some None else
      if type =? opt_type then
        let copy := if out_max <? len then out_max else len in
        v ← slice pkt (opt_off + 2) copy; Some (Some v)
      else find_option_from fuel pkt opt_type out_max (opt_off + 2 + len)
  end.
Definition dhcp_find_option (pkt : list Z) (opt_type out_max : Z) : option (option (list Z)) :=
  find_option_from (S (length pkt)) pkt opt_type out_max DHCP_HDR_LEN.

(** The tests both loops make: the message's type, or [None] for [continue]. *)
Definition dhcp_message (xid : Z) (len : Z) (buf : list Z) (src_port : Z) : option (option Z) :=
  if len <=? 0 then Some None else
  if len <? DHCP_HDR_LEN then Some None else
  magic ← rd32 buf 236;
  if negb (ntohl magic =? DHCP_MAGIC_COOKIE) then Some None else
  x ← rd32 buf 4;
  if negb (ntohl x =? xid) then Some None else
  if negb (ntohs src_port =? DHCP_SERVER_PORT) then Some None else
  o ← dhcp_find_option buf DHCP_OPT_MSG_TYPE 1;
  Some (match o with Some [m] => Some m | _ => None end).

(** [if (dhcp_find_option(...) == 4) memcpy(...)]. *)
Definition option4 (buf : list Z) (opt_type : Z) (old : list Z) : option (list Z) :=
  o ← dhcp_find_option buf opt_type 4;
  Some (match o with Some v => if zlen v =? 4 then v else old | None => old end).
(** Interface 0 after an ACK. *)
Definition configure (buf : list Z) (i : net_if) : option net_if :=
  ip ← slice buf 16 4;
  mask ← option4 buf DHCP_OPT_SUBNET_MASK (if_netmask i);
  gw ← option4 buf DHCP_OPT_ROUTER (if_gateway i);
  dns ← option4 buf DHCP_OPT_DNS (if_dns i);
  Some (mk_if (if_name i) ip (if_mac i) mask gw dns (if_mtu i) (if_flags i) (if_netdev i)).

Section dhcp.
Context {D : Type} `{NetDriver D} (stack : nat).

(** Both requests: the options behind the header, in a buffer with [room] bytes
    for them. *)
Definition dhcp_send (room : Z) (options : clients → list Z) : NM D Z :=
  o <- net_get_interface 0 ;;
  match o with
  | None => ret (-1)
  | Some j =>
      s <- get ;;
      i <- lift_opt (net_ifs s !! j) ;;
      ok <- nalloc ;;
      if negb ok then ret (-1) else
      let opt := options (cl s) in
      if room <? zlen opt then fail else
      let pkt := dhcp_hdr (dhcp_xid (cl s)) (if_mac i) ++ opt ++ replicate (Z.to_nat (room - zlen opt)) 0 in
      r <- udp_send DHCP_CLIENT_PORT [255; 255; 255; 255] DHCP_SERVER_PORT pkt (u16 (DHCP_HDR_LEN + zlen opt)) ;;
      if r <? 0 then ret (-1) else ret 0
  end.
Definition dhcp_discover : NM D Z := dhcp_send 64 (λ _, discover_options).
Definition dhcp_request : NM D Z := dhcp_send 128 (λ c, request_options (dhcp_offered_ip c) (dhcp_server_ip c)).

Fixpoint offer_wait (retries : nat) : NM D Z :=
  match retries with
  | O => ret (-1)
  | S retries =>
      net_poll stack ;;;
      r <- udp_recvfrom DHCP_CLIENT_PORT DHCP_BUF_SIZE ;;
      let '(len, buf, src_ip, src_port) := r in
      c <- gets cl ;;
      m <- lift_opt (dhcp_message (dhcp_xid c) len buf src_port) ;;
      if decide (m ≠ Some DHCP_OFFER) then offer_wait retries else
      offered <- lift_opt (slice buf 16 4) ;;
      o <- lift_opt (dhcp_find_option buf DHCP_OPT_SERVER_ID 4) ;;
      let server := match o with
                    | Some v => if 0 <? zlen v then v ++ drop (length v) (dhcp_server_ip c) else src_ip
                    | None => src_ip
                    end in
      modify (λ s, set_cl (cl_set_dhcp (dhcp_xid c) offered server (dhcp_initialized c) (cl s)) s) ;;;
      ret 0
  end.
Definition dhcp_handle_offer : NM D Z := offer_wait 50.

Fixpoint ack_wait (retries : nat) : NM D Z :=
  match retries with
  | O => ret (-1)
  | S retries =>
      net_poll stack ;;;
      r <- udp_recvfrom DHCP_CLIENT_PORT DHCP_BUF_SIZE ;;
      let '(len, buf, _, src_port) := r in
      c <- gets cl ;;
      m <- lift_opt (dhcp_message (dhcp_xid c) len buf src_port) ;;
      if decide (m = Some DHCP_NAK) then ret (-1) else
      if decide (m ≠ Some DHCP_ACK) then ack_wait retries else
      o <- net_get_interface 0 ;;
      match o with
      | None => ret (-1)
      | Some j =>
          s <- get ;;
          i <- lift_opt (net_ifs s !! j) ;;
          i' <- lift_opt (configure buf i) ;;
          put (set_ifs (<[j := i']> (net_ifs s)) s) ;;;
          ret 0
      end
  end.
Definition dhcp_handle_ack : NM D Z := ack_wait 50.

(** [dhcp_run] of an initialised client. *)
Definition dhcp_steps : NM D Z :=
  r <- dhcp_discover ;;
  if r <? 0 then ret (-1) else
  r <- dhcp_handle_offer ;;
  if r <? 0 then ret (-1) else
  r <- dhcp_request ;;
  if r <? 0 then ret (-1) else
  r <- dhcp_handle_ack ;;
  if r <? 0 then ret (-1) else ret 0.
Definition dhcp_init : NM D Z :=
  modify (λ s, set_cl (cl_set_dhcp 0x12345678 (replicate 4 0) (replicate 4 0) true (cl s)) s) ;;;
  n <- net_get_interface_count ;;
  (if 0 <? n then _ <- dhcp_steps ;; ret tt else ret tt) ;;;
  ret 0.
Definition dhcp_run : NM D Z :=
  c <- gets cl ;;
  (if negb (dhcp_initialized c) then _ <- dhcp_init ;; ret tt else ret tt) ;;;
  dhcp_steps.

(** ** [net_init] *)

(** An interface for a device that is not the loopback device. *)
Definition eth_if (d : net_device) (a eth_count : Z) : net_if :=
  mk_if (take 31 (nd_name d)) [10; 0; 2; u8 (15 + eth_count)] (nd_mac d) [255; 255; 255; 0] [10; 0; 2; 2]
    (replicate 4 0) (nd_mtu d) (Z.lor NETIF_FLAG_UP NETIF_FLAG_RUNNING) a.
Fixpoint discover_devices (fuel : nat) (a eth_count : Z) : NM D unit :=
  match fuel with
  | O => fail
  | S fuel =>
      if a =? 0 then ret tt else
      s <- get ;;
      d <- lift_opt (net_devs s !! a) ;;
      if decide (nd_name d = lo_name) then discover_devices fuel (nd_next d) eth_count else
      _ <- netdev_up a ;;
      ifs <- gets net_ifs ;;
      if Z.of_nat (length ifs) <? MAX_NET_IF then
        modify (set_ifs (ifs ++ [eth_if d a eth_count])) ;;;
        discover_devices fuel (nd_next d) (eth_count + 1)
      else discover_devices fuel (nd_next d) eth_count
  end.

Definition if0 : net_if := mk_if [] no_ip (replicate 6 0) no_ip no_ip no_ip 0 0 0.
Definition arp0 : arp_entry := mk_arp no_ip (replicate 6 0) 0 false.
Definition udp0 : udp_socket := mk_udp 0 false [] no_ip 0.
(** The [memset] calls; counts and lengths keep their values. *)
Definition net_clear (s : net D) : net D :=
  set_ifs ((λ _, if0) <$> net_ifs s)
    (set_arp (replicate ARP_CACHE_SIZE arp0) (arp_age_counter s)
      (set_udp (replicate MAX_UDP_SOCKETS udp0)
        (set_tcps (mk_tcps (replicate MAX_TCP_SOCKETS socket0) (tcp_next_id (tcps s)) (tcp_iss (tcps s)))
          (set_lo (replicate (length (loopback_buf s)) 0) s)))).
Definition net_init : NM D unit :=
  modify net_clear ;;;
  loopback_init ;;;
  first <- netdev_get_first ;;
  s <- get ;;
  discover_devices (S (size (net_devs s))) first 0 ;;;
  _ <- dhcp_init ;;
  ipv6_init ;;;
  _ <- dhcp_run ;;
  ret tt.
End dhcp.
