(* ===== verification/Http.v ===== *)
(** * kernel/net/http.c: the HTTP client. *)
From S2P Require Import Prelude Bytes NetBase Inet Tcp Ipv6 NetPoll Dns.
Local Open Scope Z_scope.
Local Open Scope kernel_scope.

Definition HTTP_DEFAULT_PORT : Z := 80.
Definition HOST_SIZE : Z := 256.
Definition PATH_SIZE : Z := 512.
Definition REQUEST_SIZE : Z := 1024.
Definition RECV_CHUNK : Z := 512.

(** ** URLs *)
Definition http_prefix : list Z := [104; 116; 116; 112; 58; 47; 47].
(** Up to a colon or a slash. *)
Fixpoint host_part (p : list Z) : list Z * list Z :=
  match p with
  | [] => ([], [])
  | c :: p' => if (c =? 58) || (c =? 47) then ([], p) else let '(h, r) := host_part p' in (c :: h, r)
  end.
Fixpoint port_part (custom_port : Z) (p : list Z) : Z * list Z :=
  match p with
  | [] => (custom_port, [])
  | c :: p' => if (48 <=? c) && (c <=? 57) then port_part (u16 (custom_port * 10 + (c - 48))) p' else (custom_port, p)
  end.
(** [*p == c]. *)
Definition starts (c : Z) (p : list Z) : bool := match p with x :: _ => x =? c | [] => false end.
(** Host name, port and path; [None] is -1. *)
Definition http_parse_url (url : list Z) (hostname_size path_size : Z) : option (list Z * Z * list Z) :=
  let p := if decide (take 7 url = http_prefix) then drop 7 url else url in
  let '(host, p) := host_part p in
  let host_len := zlen host in
  if (host_len <=? 0) || (hostname_size <=? host_len) then None else
  let '(port, p) := if starts 58 p
                    then let '(c, p) := port_part 0 (drop 1 p) in (if 0 <? c then c else HTTP_DEFAULT_PORT, p)
                    else (HTTP_DEFAULT_PORT, p) in
  let path := if starts 47 p
              then let path := take (Z.to_nat (path_size - 1)) p in
                   if 0 <? zlen path then path else [47]
              else [47] in
  Some (host, port, path).

(** The format string of the request, with its two strings filled in. *)
Definition http_request (path host : list Z) : list Z :=
  [71; 69; 84; 32] ++ path ++ [32; 72; 84; 84; 80; 47; 49; 46; 49; 13; 10] ++
  [72; 111; 115; 116; 58; 32] ++ host ++ [13; 10] ++
  [67; 111; 110; 110; 101; 99; 116; 105; 111; 110; 58; 32; 99; 108; 111; 115; 101; 13; 10] ++ [13; 10].

(** The place behind the first blank line of a chunk. *)
Fixpoint header_end (i : Z) (tmp : list Z) : option Z :=
  match tmp with
  | 13 :: ((10 :: 13 :: 10 :: _) as tmp') => Some (i + 4)
  | _ :: tmp' => header_end (i + 1) tmp'
  | [] => None
  end.
(** [copy] bytes behind the [total] written ones, as many as fit. *)
Definition append_body (buf_size : Z) (total chunk : list Z) : list Z :=
  if (0 <? zlen chunk) && (zlen total <? buf_size) then
    let copy := if buf_size <? u64 (zlen total + zlen chunk) then buf_size - zlen total else zlen chunk in
    total ++ take (Z.to_nat copy) chunk
  else total.
(** One received chunk: whether the header is over, and the body so far. *)
Definition take_chunk (buf_size : Z) (header_done : bool) (total tmp : list Z) : bool * list Z :=
  if header_done then (true, append_body buf_size total tmp)
  else match header_end 0 tmp with
       | Some e => (true, append_body buf_size total (drop (Z.to_nat e) tmp))
       | None => (false, total)
       end.

Section http.
Context {D : Type} `{NetDriver D} (stack : nat).

Fixpoint wait_peer (retries : nat) (sock : Z) : NM D unit :=
  match retries with
  | O => ret tt
  | S retries =>
      net_poll stack ;;;
      peer <- tcp_getpeername sock ;;
      match peer with Some _ => ret tt | None => wait_peer retries sock end
  end.
Fixpoint receive_body (retries : nat) (sock buf_size : Z) (header_done : bool) (total : list Z) : NM D (list Z) :=
  match retries with
  | O => ret total
  | S retries =>
      net_poll stack ;;;
      r <- tcp_recv sock RECV_CHUNK ;;
      let '(n, tmp) := r in
      if n <? 0 then ret total
      else if n =? 0 then receive_body retries sock buf_size header_done total
      else
        let '(header_done, total) := take_chunk buf_size header_done total tmp in
        if header_done && (buf_size <=? zlen total) then ret total
        else receive_body retries sock buf_size header_done total
  end.

(** The result and the bytes written to the response buffer. *)
Definition http_get (url : list Z) (buf_size : Z) : NM D (Z * list Z) :=
  if buf_size =? 0 then ret (-1, []) else
  match http_parse_url url HOST_SIZE PATH_SIZE with
  | None => ret (-1, [])
  | Some (hostname, port, path) =>
      q <- dns_query stack hostname ;;
      let '(r, server_ip) := q in
      if r <? 0 then ret (-1, []) else
      sock <- tcp_socket_create ;;
      if sock <? 0 then ret (-1, []) else
      c <- tcp_connect sock server_ip port ;;
      if c <? 0 then _ <- tcp_close sock ;; ret (-1, []) else
      wait_peer 50 sock ;;;
      let request := http_request path hostname in
      if REQUEST_SIZE <=? zlen request then _ <- tcp_close sock ;; ret (-1, []) else
      sent <- tcp_send sock request (zlen request) ;;
      if sent <? 0 then _ <- tcp_close sock ;; ret (-1, []) else
      total <- receive_body 200 sock buf_size false [] ;;
      _ <- tcp_close sock ;;
      if 0 <? zlen total then ret (i32 (zlen total), total) else ret (-1, [])
  end.
End http.
