(* ===== verification/NetLib.v ===== *)
(** * Total runs of the network code, slices of packets and the arithmetic of
    checksums. *)
From S2P Require Import Prelude Bytes NetBase.
Local Open Scope Z_scope.
Local Open Scope kernel_scope.

Section lib.
Context {D : Type}.
Implicit Types s : net D.

Lemma wp_lift {A} (o : option A) a (Q : A → net D → Prop) s : o = Some a → Q a s → wp (lift_opt o) Q s.
Proof. intros -> HQ. by exists a, s. Qed.
Lemma wp_nalloc (Q : bool → net D → Prop) s :
  (∀ b l, (nmem s = [] → b = true ∧ l = []) → Q b (set_nmem l s)) → wp nalloc Q s.
Proof.
  intros H. unfold wp, nalloc. destruct (nmem s) as [|b l] eqn:E.
  - exists true, s. split; [done|]. replace s with (set_nmem [] s) at 1; [by apply H|]. destruct s; simpl in *. by subst.
  - exists b, (set_nmem l s). split; [done|]. by apply H.
Qed.
Lemma wp_for_each {A} (l : list A) (f : A → ST (net D) unit) (I : net D → Prop) s :
  I s → (∀ a s, a ∈ l → I s → wp (f a) (λ _, I) s) → wp (for_each l f) (λ _, I) s.
Proof.
  revert s. induction l as [|a l IH]; intros s Hs Hf; cbn [for_each]; [by apply wp_ret|].
  apply wp_bind. eapply wp_mono; [apply Hf; [left|done]|]. intros [] s' Hs'. apply IH; [done|].
  intros b s2 Hb. apply Hf. by right.
Qed.

(** Partial correctness: where the run ends without a bad access. *)
Definition wlp {A} (m : NM D A) (Q : A → net D → Prop) s : Prop := ∀ a s', m s = Some (a, s') → Q a s'.
Lemma wp_wlp {A} (m : NM D A) Q s : wp m Q s → wlp m Q s.
Proof. intros HW a s' R. by eapply wp_run. Qed.
Lemma wlp_bind {A B} (m : NM D A) (k : A → NM D B) Q s : wlp m (λ a s', wlp (k a) Q s') s → wlp (bind m k) Q s.
Proof. intros HW b s' R. unfold bind in R. destruct (m s) as [[a s1]|] eqn:R1; [|done]. by apply (HW a s1 R1). Qed.
Lemma wlp_mono {A} (m : NM D A) (Q Q' : A → net D → Prop) s : wlp m Q s → (∀ a s', Q a s' → Q' a s') → wlp m Q' s.
Proof. intros HW Hm a s' R. by apply Hm, HW. Qed.
Lemma wlp_None {A} (Q : A → net D → Prop) s : wlp (lift_opt None) Q s.
Proof. intros a s' R. discriminate R. Qed.
(** A sequence runs to its end, or up to a step that may have no outcome. *)
Lemma for_each_until {A} (l : list A) (f : A → NM D unit) (I : net D → Prop) (bad : A → Prop) s :
  I s → (∀ a s, a ∈ l → I s → wp (f a) (λ _, I) s ∨ (bad a ∧ f a s = None)) →
  ∃ pre s', for_each pre f s = Some (tt, s') ∧ I s' ∧ (pre = l ∨ ∃ a post, l = pre ++ a :: post ∧ bad a ∧ f a s' = None).
Proof.
  revert s. induction l as [|a l IH]; intros s Hs Hf; [exists [], s; split; [done|]; split; [done|]; by left|].
  destruct (Hf a s ltac:(left) Hs) as [([] & s1 & R1 & H1)|[Hb R]].
  - destruct (IH s1 H1) as (pre & s' & R & HI & HC); [intros b s2 Hb; apply Hf; by right|].
    exists (a :: pre), s'. cbn [for_each]. rewrite (bind_Some _ _ _ _ _ R1), R. split; [done|]. split; [done|].
    destruct HC as [->|(b & post & -> & ?)]; [by left|right]. by exists b, post.
  - exists [], s. split; [done|]. split; [done|]. right. by exists a, l.
Qed.
End lib.

(** ** Bytes and slices *)
Lemma bytes_be16 v : bytes (be16 v).
Proof. apply le_bytes_byte. Qed.
Lemma bytes_be32 v : bytes (be32 v).
Proof. apply le_bytes_byte. Qed.
#[export] Hint Resolve bytes_be16 bytes_be32 : bytes.

Lemma zlen_be16 v : zlen (be16 v) = 2.
Proof. unfold zlen, be16. by rewrite length_le_bytes. Qed.
Lemma zlen_be32 v : zlen (be32 v) = 4.
Proof. unfold zlen, be32. by rewrite length_le_bytes. Qed.
#[export] Hint Rewrite zlen_be16 zlen_be32 : zlen.

Lemma rd_ok l off n : 0 ≤ off → 0 ≤ n → off + n ≤ zlen l →
  ∃ b, slice l off n = Some b ∧ zlen b = n ∧ (bytes l → bytes b).
Proof. intros. rewrite slice_Some by done. eexists. split; [done|]. apply (slice_props l off). by rewrite slice_Some. Qed.
Lemma rd8_ok l off : 0 ≤ off → off + 1 ≤ zlen l → ∃ v, rd8 l off = Some v ∧ (bytes l → is_byte v).
Proof.
  intros. destruct (rd_ok l off 1) as (b & E & Hl & Hb); [lia..|]. unfold rd8. rewrite E. eexists. split; [done|].
  intros HB. pose proof (le_value_bound b (Hb HB)). rewrite Hl in *. done.
Qed.
Lemma rd16_ok l off : 0 ≤ off → off + 2 ≤ zlen l → ∃ v, rd16 l off = Some v ∧ (bytes l → 0 ≤ v < 65536).
Proof.
  intros. destruct (rd_ok l off 2) as (b & E & Hl & Hb); [lia..|]. unfold rd16. rewrite E. eexists. split; [done|].
  intros HB. pose proof (le_value_bound b (Hb HB)). rewrite Hl in *. done.
Qed.
Lemma rd32_ok l off : 0 ≤ off → off + 4 ≤ zlen l → ∃ v, rd32 l off = Some v ∧ (bytes l → 0 ≤ v < 2 ^ 32).
Proof.
  intros. destruct (rd_ok l off 4) as (b & E & Hl & Hb); [lia..|]. unfold rd32. rewrite E. eexists. split; [done|].
  intros HB. pose proof (le_value_bound b (Hb HB)). rewrite Hl in *. done.
Qed.

(** ** Byte order *)
Lemma land_byte n k : 0 ≤ k → Z.land n (Z.shiftl 0xFF k) = ((n / 2 ^ k) mod 256) * 2 ^ k.
Proof.
  intros Hk. apply Z.bits_inj'. intros i Hi. rewrite Z.land_spec. destruct (Z.ltb_spec i k).
  - rewrite Z.shiftl_spec_low, Z.mul_pow2_bits_low by lia. apply andb_false_r.
  - rewrite Z.shiftl_spec, Z.mul_pow2_bits by lia. change 256 with (2 ^ 8). change 0xFF with (Z.ones 8).
    destruct (Z.ltb_spec (i - k) 8).
    + rewrite Z.mod_pow2_bits_low, Z.div_pow2_bits, Z.ones_spec_low by lia. rewrite andb_true_r. f_equal. lia.
    + rewrite Z.mod_pow2_bits_high, Z.ones_spec_high by lia. apply andb_false_r.
Qed.
Lemma ntohs_alt n : ntohs n = (n mod 256) * 2 ^ 8 + (n / 256) mod 256.
Proof.
  unfold ntohs. change 0xFF with (Z.ones 8). rewrite !Z.land_ones, Z.shiftl_mul_pow2, Z.shiftr_div_pow2 by lia.
  apply lor_add; [lia|]. apply Z.mod_pos_bound. lia.
Qed.
Lemma ntohs_bound n : 0 ≤ ntohs n < 65536.
Proof. rewrite ntohs_alt. pose proof (Z.mod_pos_bound n 256). pose proof (Z.mod_pos_bound (n / 256) 256). lia. Qed.
Lemma div_mod_256 a b : 0 ≤ b < 256 → (a * 256 + b) mod 256 = b ∧ (a * 256 + b) / 256 = a.
Proof.
  intros. rewrite (Z.add_comm (a * 256)), Z.mod_add, Z.div_add by lia. rewrite Z.mod_small, Z.div_small by lia. lia.
Qed.
Lemma ntohs_invol n : 0 ≤ n < 65536 → ntohs (ntohs n) = n.
Proof.
  intros. rewrite (ntohs_alt (ntohs n)), (ntohs_alt n). pose proof (Z.div_mod n 256 ltac:(lia)) as E.
  pose proof (Z.mod_pos_bound n 256 ltac:(lia)). assert (0 ≤ n / 256 < 256) by (split; [apply Z.div_pos; lia|apply Z.div_lt_upper_bound; lia]).
  rewrite (Z.mod_small (n / 256)) by lia. change (2 ^ 8) with 256.
  destruct (div_mod_256 (n mod 256) (n / 256)) as [-> ->]; [lia|]. rewrite (Z.mod_small (n mod 256)) by lia. lia.
Qed.
Lemma ntohl_alt n : ntohl n =
  (n mod 256) * 2 ^ 24 + (((n / 2 ^ 8) mod 256) * 2 ^ 16 + (((n / 2 ^ 16) mod 256) * 2 ^ 8 + (n / 2 ^ 24) mod 256)).
Proof.
  unfold ntohl. change 0xFF00 with (Z.shiftl 0xFF 8). change 0xFF0000 with (Z.shiftl 0xFF 16).
  change 0xFF000000 with (Z.shiftl 0xFF 24). rewrite !land_byte by lia. change 0xFF with (Z.ones 8).
  rewrite Z.land_ones, !Z.shiftl_mul_pow2, !Z.shiftr_div_pow2 by lia. change (2 ^ 8) with 256.
  assert (∀ x, 0 ≤ x mod 256 < 256) as HB by (intros; apply Z.mod_pos_bound; lia).
  pose proof (HB n). pose proof (HB (n / 256)). pose proof (HB (n / 2 ^ 16)). pose proof (HB (n / 2 ^ 24)).
  replace ((n / 2 ^ 16) mod 256 * 2 ^ 16 / 256) with ((n / 2 ^ 16) mod 256 * 2 ^ 8)
    by (replace ((n / 2 ^ 16) mod 256 * 2 ^ 16) with ((n / 2 ^ 16) mod 256 * 2 ^ 8 * 256) by lia; by rewrite Z.div_mul).
  rewrite Z.div_mul by lia. rewrite <- (Z.mul_assoc _ 256 256). change (256 * 256) with (2 ^ 16). rewrite <- Z.lor_assoc.
  rewrite (lor_add _ _ 8) by lia. rewrite (lor_add _ _ 16) by lia. rewrite (lor_add _ _ 24) by lia. lia.
Qed.
Lemma ntohl_bound n : 0 ≤ ntohl n < 2 ^ 32.
Proof.
  rewrite ntohl_alt. assert (∀ x, 0 ≤ x mod 256 < 256) as HB by (intros; apply Z.mod_pos_bound; lia).
  pose proof (HB n). pose proof (HB (n / 2 ^ 8)). pose proof (HB (n / 2 ^ 16)). pose proof (HB (n / 2 ^ 24)). lia.
Qed.
Lemma bytes4 a b c d : 0 ≤ a < 256 → 0 ≤ b < 256 → 0 ≤ c < 256 → 0 ≤ d < 256 →
  ntohl (a * 2 ^ 24 + (b * 2 ^ 16 + (c * 2 ^ 8 + d))) = d * 2 ^ 24 + (c * 2 ^ 16 + (b * 2 ^ 8 + a)).
Proof.
  intros. rewrite ntohl_alt. set (n := a * _ + _). assert (n = ((a * 256 + b) * 256 + c) * 256 + d) as E by (unfold n; lia).
  assert (n / 2 ^ 8 = (a * 256 + b) * 256 + c ∧ n mod 256 = d) as [D0 M0] by (rewrite E; split; apply div_mod_256; lia).
  assert (n / 2 ^ 16 = a * 256 + b) as D1.
  { change (2 ^ 16) with (2 ^ 8 * 256). rewrite <- Z.div_div, D0 by lia. apply div_mod_256. lia. }
  assert (n / 2 ^ 24 = a) as D2.
  { change (2 ^ 24) with (2 ^ 16 * 256). rewrite <- Z.div_div, D1 by lia. apply div_mod_256. lia. }
  rewrite M0, D0, D1, D2. destruct (div_mod_256 (a * 256 + b) c) as [-> _]; [lia|].
  destruct (div_mod_256 a b) as [-> _]; [lia|]. rewrite Z.mod_small by lia. lia.
Qed.
Lemma ntohl_invol n : 0 ≤ n < 2 ^ 32 → ntohl (ntohl n) = n.
Proof.
  intros Hn. rewrite (ntohl_alt n). assert (∀ x, 0 ≤ x mod 256 < 256) as HB by (intros; apply Z.mod_pos_bound; lia).
  rewrite bytes4 by apply HB. change (2 ^ 24) with (2 ^ 16 * 2 ^ 8). change (2 ^ 16) with (2 ^ 8 * 2 ^ 8).
  rewrite <- !Z.div_div by lia. change (2 ^ 8) with 256. pose proof (Z.div_mod n 256). pose proof (Z.div_mod (n / 256) 256).
  pose proof (Z.div_mod (n / 256 / 256) 256). rewrite (Z.mod_small (n / 256 / 256 / 256)); [lia|].
  rewrite !Z.div_div by lia. split; [apply Z.div_pos; lia|apply Z.div_lt_upper_bound; lia].
Qed.
Lemma le_value_be16 v : 0 ≤ v < 65536 → ntohs (le_value (be16 v)) = v.
Proof. intros. unfold be16. rewrite le_value_bytes by apply ntohs_bound. by apply ntohs_invol. Qed.
Lemma le_value_be32 v : 0 ≤ v < 2 ^ 32 → ntohl (le_value (be32 v)) = v.
Proof. intros. unfold be32. rewrite le_value_bytes by apply ntohl_bound. by apply ntohl_invol. Qed.
Lemma rd16_app a v c off : zlen a = off → 0 ≤ v < 65536 → ∃ w, rd16 (a ++ be16 v ++ c) off = Some w ∧ ntohs w = v.
Proof.
  intros. unfold rd16. rewrite (slice_app a (be16 v) c off 2) by (done || apply zlen_be16).
  eexists. split; [done|]. by apply le_value_be16.
Qed.
Lemma rd32_app a v c off : zlen a = off → 0 ≤ v < 2 ^ 32 → ∃ w, rd32 (a ++ be32 v ++ c) off = Some w ∧ ntohl w = v.
Proof.
  intros. unfold rd32. rewrite (slice_app a (be32 v) c off 4) by (done || apply zlen_be32).
  eexists. split; [done|]. by apply le_value_be32.
Qed.
Lemma rd8_app a v c off : zlen a = off → rd8 (a ++ v :: c) off = Some v.
Proof.
  intros. unfold rd8. change (v :: c) with ([v] ++ c). rewrite (slice_app a [v] c off 1) by done. cbn. f_equal. lia.
Qed.

(** ** Checksums *)

(** The sum of the little-endian words, without wrap-around. *)
Fixpoint words_sum (bs : list Z) : Z :=
  match bs with b0 :: b1 :: bs => b0 + 256 * b1 + words_sum bs | [b] => b | [] => 0 end.
Lemma words_sum_bound n bs : (length bs ≤ n)%nat → bytes bs → 0 ≤ words_sum bs ∧ 2 * words_sum bs ≤ 65535 * (zlen bs + 1).
Proof.
  revert bs. induction n as [|n IH]; intros [|a [|b bs]] Hn HB; cbn [words_sum length] in *; rewrite ?zlen_cons, ?zlen_nil; try lia.
  - inversion HB as [|? ? Ha]; subst. unfold is_byte in Ha. lia.
  - inversion HB as [|? ? Ha HB']; subst. inversion HB' as [|? ? Hb HB'']; subst. unfold is_byte in Ha, Hb.
    destruct (IH bs) as [H1 H2]; [lia|done|]. lia.
Qed.
Lemma sum_words_exact n bs s : (length bs ≤ n)%nat → bytes bs → 0 ≤ s → s + words_sum bs < 2 ^ 32 →
  sum_words s bs = s + words_sum bs.
Proof.
  revert bs s. induction n as [|n IH]; intros [|a [|b bs]] s Hn HB Hs Hlt; cbn [words_sum sum_words length] in *; try lia.
  - inversion HB as [|? ? Ha]; subst. unfold is_byte in Ha. unfold u32. rewrite Z.mod_small by lia. done.
  - inversion HB as [|? ? Ha HB']; subst. inversion HB' as [|? ? Hb HB'']; subst. unfold is_byte in Ha, Hb.
    destruct (words_sum_bound n bs) as [H1 H2]; [lia|done|]. unfold u32 at 1. rewrite Z.mod_small by lia.
    rewrite IH by (done || lia). lia.
Qed.
Lemma words_sum_app n a b : (length a = 2 * n)%nat → words_sum (a ++ b) = words_sum a + words_sum b.
Proof.
  revert a. induction n as [|n IH]; intros [|x [|y a]] Hl; simpl in Hl; try lia; cbn [words_sum app]; [done|].
  rewrite IH by lia. lia.
Qed.
Lemma sum_words_app n a b s : (length a = 2 * n)%nat → sum_words s (a ++ b) = sum_words (sum_words s a) b.
Proof.
  revert a s. induction n as [|n IH]; intros [|x [|y a]] s Hl; simpl in Hl; try lia; cbn [sum_words app]; [done|].
  rewrite IH by lia. done.
Qed.
Lemma sum_words_u32 n bs s : (length bs ≤ n)%nat → 0 ≤ s < 2 ^ 32 → 0 ≤ sum_words s bs < 2 ^ 32.
Proof.
  revert bs s. induction n as [|n IH]; intros [|a [|b bs]] s Hn Hs; cbn [sum_words length] in *; try lia.
  - apply Z.mod_pos_bound. lia.
  - apply IH; [lia|]. apply Z.mod_pos_bound. lia.
Qed.

Lemma fold_round s : 0 ≤ s < 2 ^ 32 →
  u32 (Z.land s 0xFFFF + Z.shiftr s 16) = s mod 65536 + s / 65536.
Proof.
  intros Hs. change 0xFFFF with (Z.ones 16). rewrite Z.land_ones, Z.shiftr_div_pow2 by lia. change (2 ^ 16) with 65536.
  pose proof (Z.mod_pos_bound s 65536). assert (0 ≤ s / 65536 < 65536) by (split; [apply Z.div_pos; lia|apply Z.div_lt_upper_bound; lia]).
  unfold u32. apply Z.mod_small. lia.
Qed.
(** Folding keeps the sum modulo 65535, and zero apart from other multiples. *)
Definition folded (s r : Z) : Prop := 0 ≤ r < 65536 ∧ r mod 65535 = s mod 65535 ∧ (r = 0 ↔ s = 0).
Lemma fold_sum_step fuel s r : 65536 ≤ s < 2 ^ 32 → 0 ≤ s →
  fold_sum fuel (s mod 65536 + s / 65536) = Some r → folded (s mod 65536 + s / 65536) r →
  fold_sum (S fuel) s = Some r ∧ folded s r.
Proof.
  intros Hs H0 E (F1 & F2 & F3). cbn [fold_sum]. rewrite fold_round, Z.shiftr_div_pow2 by lia. change (2 ^ 16) with 65536.
  assert (1 ≤ s / 65536) by (apply Z.div_le_lower_bound; lia).
  destruct (Z.eqb_spec (s / 65536) 0); [lia|]. split; [done|]. split; [done|].
  pose proof (Z.mod_pos_bound s 65536). split; [|lia]. rewrite F2.
  replace (s mod 65536 + s / 65536) with (s + (- (s / 65536)) * 65535) by (pose proof (Z.div_mod s 65536); lia).
  by rewrite Z.mod_add.
Qed.
Lemma fold_sum_done fuel s : 0 ≤ s < 65536 → fold_sum (S fuel) s = Some s ∧ folded s s.
Proof. intros Hs. cbn [fold_sum]. rewrite Z.shiftr_div_pow2, Z.div_small by lia. split; [done|]. by split; [|split]. Qed.
Lemma fold_sum_spec s : 0 ≤ s < 2 ^ 32 → ∃ r, fold_sum 4 s = Some r ∧ folded s r.
Proof.
  assert (∀ s, 0 ≤ s < 2 ^ 32 → 0 ≤ s mod 65536 < 65536 ∧ 0 ≤ s / 65536 < 65536) as HB.
  { intros t Ht. split; [apply Z.mod_pos_bound; lia|]. split; [apply Z.div_pos; lia|apply Z.div_lt_upper_bound; lia]. }
  intros Hs. destruct (Z.ltb_spec s 65536) as [Hlt|Hge]; [exists s; apply fold_sum_done; lia|].
  set (s1 := s mod 65536 + s / 65536). assert (0 ≤ s1 ≤ 131070) as H1 by (unfold s1; pose proof (HB s Hs); lia).
  destruct (Z.ltb_spec s1 65536) as [Hlt|Hge1].
  { destruct (fold_sum_done 2 s1) as [E F]; [lia|]. exists s1. apply fold_sum_step; [lia|lia|done|done]. }
  set (s2 := s1 mod 65536 + s1 / 65536).
  assert (0 ≤ s2 < 65536) as H2.
  { unfold s2. replace s1 with (1 * 65536 + (s1 - 65536)) by lia.
    rewrite (Z.add_comm (1 * 65536)), Z.mod_add, Z.div_add, Z.mod_small, Z.div_small by lia. lia. }
  destruct (fold_sum_done 1 s2) as [E F]; [lia|]. exists s2. apply fold_sum_step; [lia|lia| |];
    apply (fold_sum_step 2 s1 s2); (lia || done).
Qed.

Lemma finish_sum_spec s : 0 ≤ s < 2 ^ 32 → ∃ r, finish_sum s = Some (65535 - r) ∧ folded s r.
Proof.
  intros Hs. destruct (fold_sum_spec s Hs) as (r & E & F). exists r. split; [|done]. unfold finish_sum. rewrite E. cbn [mbind option_bind].
  destruct F as (F & _). unfold u16, Z.lnot. f_equal. symmetry. apply (Z.mod_unique_pos _ _ (-1)); lia.
Qed.
Lemma checksum_ok data : ∃ c, checksum_calc data = Some c ∧ 0 ≤ c < 65536.
Proof.
  destruct (finish_sum_spec (sum_words 0 data)) as (r & E & F); [apply (sum_words_u32 (length data)); lia|].
  exists (65535 - r). split; [done|]. destruct F. lia.
Qed.
Lemma tcp_udp_checksum_ok src dst protocol data : ∃ c, tcp_udp_checksum src dst protocol data = Some c ∧ 0 ≤ c < 65536.
Proof.
  unfold tcp_udp_checksum. match goal with |- context [finish_sum ?s] => destruct (finish_sum_spec s) as (r & E & F) end.
  { eapply (sum_words_u32 (length data)); [done|]. eapply sum_words_u32; [done|lia]. }
  exists (65535 - r). split; [done|]. destruct F. lia.
Qed.
(** RFC 1071: with the checksum in its (even) place, the sum of the whole is a
    positive multiple of 65535 and the check gives zero. *)
Lemma checksum_verify a b n c : (length a = 2 * n)%nat → bytes a → bytes b → zlen a + zlen b < 2 ^ 17 - 2 →
  checksum_calc (a ++ [0; 0] ++ b) = Some c → checksum_calc (a ++ le_bytes 2 c ++ b) = Some 0.
Proof.
  intros Hn HA HB Hlen E. destruct (checksum_ok (a ++ [0; 0] ++ b)) as (c' & E' & Hc). rewrite E in E'. injection E' as <-.
  destruct (words_sum_bound _ a (Nat.le_refl _) HA) as [A1 A2]. destruct (words_sum_bound _ b (Nat.le_refl _) HB) as [B1 B2].
  pose proof (zlen_nonneg a). pose proof (zlen_nonneg b).
  assert (∀ v, 0 ≤ v < 65536 → sum_words 0 (a ++ le_bytes 2 v ++ b) = words_sum a + v + words_sum b) as HS.
  { intros v Hv. assert (words_sum (a ++ le_bytes 2 v ++ b) = words_sum a + v + words_sum b) as EW.
    { rewrite (words_sum_app n) by done. cbn [le_bytes app words_sum]. pose proof (Z.div_mod v 256).
      rewrite (Z.mod_small (v / 256)) by (split; [apply Z.div_pos; lia|apply Z.div_lt_upper_bound; lia]). lia. }
    rewrite (sum_words_exact (length (a ++ le_bytes 2 v ++ b))); [lia|done|auto with bytes|lia|]. rewrite EW. lia. }
  unfold checksum_calc in *. change [0; 0] with (le_bytes 2 0) in E. rewrite HS in E by lia. rewrite HS by lia.
  destruct (finish_sum_spec (words_sum a + 0 + words_sum b)) as (r & Er & F); [lia|]. rewrite E in Er. injection Er as ->.
  destruct F as (F1 & F2 & F3).
  destruct (finish_sum_spec (words_sum a + (65535 - r) + words_sum b)) as (r2 & -> & G1 & G2 & G3); [lia|].
  f_equal. enough (r2 = 65535) by lia.
  assert (r2 mod 65535 = 0) as M.
  { rewrite G2. replace (words_sum a + (65535 - r) + words_sum b) with (words_sum a + 0 + words_sum b - r + 1 * 65535) by lia.
    rewrite Z.mod_add by lia. rewrite Zminus_mod, F2, Z.sub_diag. done. }
  assert (r2 ≠ 0) by (intros ->; assert (words_sum a + (65535 - r) + words_sum b = 0) as E0 by (by apply G3); lia).
  apply Z.mod_divide in M as [q ->]; [|lia]. lia.
Qed.
