(* ===== verification/NetInv.v ===== *)
(** * The types of the network state: every field holds what its C type and the
    code's bounds say, and the sending half of the stack keeps it so. *)
From S2P Require Import Prelude Bytes NetBase NetLib Inet Tcp.
Local Open Scope Z_scope.
Local Open Scope kernel_scope.

Definition array (n : nat) (l : list Z) : Prop := length l = n ∧ bytes l.
#[export] Instance array_dec n l : Decision (array n l) := _.
Definition is_u16 (v : Z) : Prop := 0 ≤ v < 65536.
Definition is_u32 (v : Z) : Prop := 0 ≤ v < 2 ^ 32.
#[export] Instance is_u16_dec v : Decision (is_u16 v) := _.
#[export] Instance is_u32_dec v : Decision (is_u32 v) := _.

Record if_wf (devs : gmap Z net_device) (i : net_if) : Prop := {
  iw_ip : array 4 (if_ip i);
  iw_mac : array 6 (if_mac i);
  iw_dev : if_netdev i ≠ 0 → is_Some (devs !! if_netdev i)
}.
Record arp_wf (e : arp_entry) : Prop := { aw_ip : array 4 (ae_ip e); aw_mac : array 6 (ae_mac e) }.
Record udp_wf (u : udp_socket) : Prop := {
  uw_rx : bytes (us_rx u); uw_len : zlen (us_rx u) ≤ UDP_RX_SIZE; uw_src : array 4 (us_src_ip u); uw_port : is_u16 (us_src_port u)
}.
Record tcp_wf (k : tcp_socket) : Prop := {
  tw_local : array 4 (ts_local_ip k);
  tw_remote : array 4 (ts_remote_ip k);
  tw_lport : is_u16 (ts_local_port k);
  tw_rport : is_u16 (ts_remote_port k);
  tw_seq : is_u32 (ts_seq_num k);
  tw_ack : is_u32 (ts_ack_num k);
  tw_rcv : is_u32 (ts_rcv_nxt k);
  tw_rx : bytes (ts_rx k);
  tw_room : zlen (ts_rx k) ≤ TCP_RX_BUF_SIZE;
  tw_backlog : 0 ≤ ts_backlog k ≤ TCP_BACKLOG_MAX;
  tw_pending : zlen (ts_pending k) ≤ TCP_BACKLOG_MAX
}.
Record nb_wf (e : ipv6_neighbor_entry) : Prop := { nw_ip : array 16 (ne_ip e); nw_mac : array 6 (ne_mac e) }.
Record if6_wf (devs : gmap Z net_device) (i : ipv6_iface) : Prop := {
  i6w_ll : array 16 (i6_link_local i);
  i6w_mac : array 6 (i6_mac i);
  i6w_dev : i6_netdev i ≠ 0 → is_Some (devs !! i6_netdev i)
}.

Record wf {D} (s : net D) : Prop := {
  w_ifs : Forall (if_wf (net_devs s)) (net_ifs s);
  w_devs : map_Forall (λ _ d, array 6 (nd_mac d)) (net_devs s);
  w_lo : bytes (loopback_buf s);
  w_lolen : zlen (loopback_buf s) ≤ LOOPBACK_BUF_SIZE;
  w_arplen : length (arp_cache s) = ARP_CACHE_SIZE;
  w_arp : Forall arp_wf (arp_cache s);
  w_id : is_u16 (ip_id_counter s);
  w_udp : Forall udp_wf (udp_sockets s);
  w_tcplen : length (sockets s) = MAX_TCP_SOCKETS;
  w_tcp : Forall tcp_wf (sockets s);
  w_iss : is_u32 (tcp_iss (tcps s));
  w_nblen : length (ipv6_neighbor_cache (v6 s)) = 16%nat;
  w_nb : Forall nb_wf (ipv6_neighbor_cache (v6 s));
  w_if6 : Forall (if6_wf (net_devs s)) (ipv6_ifaces (v6 s))
}.

(** What packet processing leaves alone. *)
Record kept {D} (s s' : net D) : Prop := {
  k_ifs : net_ifs s' = net_ifs s;
  k_devs : net_devs s' = net_devs s;
  k_list : netdev_list s' = netdev_list s;
  k_cl : cl s' = cl s;
  k_if6 : ipv6_ifaces (v6 s') = ipv6_ifaces (v6 s);
  k_udp : (λ u, (us_in_use u, us_port u)) <$> udp_sockets s' = (λ u, (us_in_use u, us_port u)) <$> udp_sockets s;
  k_nmem : nmem s = [] → nmem s' = []
}.
(** What sending a packet leaves alone. *)
Record sent {D} (s s' : net D) : Prop := {
  s_kept : kept s s';
  s_udp : udp_sockets s' = udp_sockets s;
  s_tcps : tcps s' = tcps s;
  s_v6 : v6 s' = v6 s
}.
#[export] Instance kept_preorder {D} : PreOrder (@kept D).
Proof.
  split; [intros s; by split|]. intros a b c [] []. split; try congruence. auto.
Qed.
#[export] Instance sent_preorder {D} : PreOrder (@sent D).
Proof. split; [intros s; by split|]. intros a b c [] []. split; try congruence. by etrans. Qed.

(** ** Updates that keep the types *)
Section updates.
Context {D : Type}.
Implicit Types s : net D.
Lemma wf_set_nmem l s : wf s → wf (set_nmem l s).
Proof. intros []. by split. Qed.
Lemma wf_set_hw h s : wf s → wf (set_hw h s).
Proof. intros []. by split. Qed.
Lemma wf_set_lo b s : bytes b → zlen b ≤ LOOPBACK_BUF_SIZE → wf s → wf (set_lo b s).
Proof. intros Hb Hl []. by split. Qed.
Lemma wf_set_ip_id i s : wf s → wf (set_ip_id (u16 i) s).
Proof. intros []. split; try done. simpl. unfold u16. apply Z.mod_pos_bound. lia. Qed.
Lemma wf_set_arp c a s : length c = ARP_CACHE_SIZE → Forall arp_wf c → wf s → wf (set_arp c a s).
Proof. intros Hl Hc []. by split. Qed.
Lemma wf_set_udp u s : Forall udp_wf u → wf s → wf (set_udp u s).
Proof. intros Hu []. by split. Qed.
Lemma wf_set_tcps t s :
  length (tcp_sockets t) = MAX_TCP_SOCKETS → Forall tcp_wf (tcp_sockets t) → is_u32 (tcp_iss t) → wf s → wf (set_tcps t s).
Proof. intros Hl Hk Hi []. by split. Qed.
Lemma wf_set_neighbors c a s : length c = 16%nat → Forall nb_wf c → wf s → wf (set_v6 (mk_v6 c a (ipv6_ifaces (v6 s))) s).
Proof. intros Hl Hc []. by split. Qed.
Lemma wf_upd_sock i g s : wf s → (∀ k, sockets s !! i = Some k → tcp_wf k → tcp_wf (g k)) →
  wf (set_tcps (mk_tcps (alter g i (sockets s)) (tcp_next_id (tcps s)) (tcp_iss (tcps s))) s).
Proof.
  intros W Hg. apply wf_set_tcps; [simpl; by rewrite length_alter; apply W| |apply W|done]. simpl. apply Forall_lookup. intros j k Hk.
  destruct (decide (i = j)) as [->|Hij].
  - rewrite list_lookup_alter_eq in Hk. destruct (sockets s !! j) as [k0|] eqn:E; [|done]. injection Hk as <-. apply Hg; [done|].
    apply (Forall_lookup_1 _ _ _ _ (w_tcp _ W) E).
  - rewrite list_lookup_alter_ne in Hk by done. apply (Forall_lookup_1 _ _ _ _ (w_tcp _ W) Hk).
Qed.

(** An interface that is up names a device. *)
Lemma wf_find_ip ip s i : wf s → net_if_find_by_ip ip (net_ifs s) = Some i → if_wf (net_devs s) i.
Proof.
  intros W E. unfold net_if_find_by_ip in E. assert (i ∈ net_ifs s) as Hi.
  { destruct (list_find _ (net_ifs s)) as [[j x]|] eqn:F.
    - injection E as <-. apply list_find_Some in F as (F & _). by eapply list_elem_of_lookup_2.
    - destruct (list_find is_up (net_ifs s)) as [[j x]|] eqn:F2; [|done]. injection E as <-.
      apply list_find_Some in F2 as (F2 & _). by eapply list_elem_of_lookup_2. }
  by apply (Forall_forall (if_wf (net_devs s)) (net_ifs s)); [apply W|].
Qed.
Lemma wf_iface ip s i : wf s → ip_iface ip (net_ifs s) = Some i → if_wf (net_devs s) i.
Proof.
  intros W. unfold ip_iface. destruct (net_if_find_by_ip ip (net_ifs s)) as [j|] eqn:E.
  - intros [= <-]. by eapply wf_find_ip.
  - pose proof (w_ifs _ W) as HF. destruct (net_ifs s) as [|x l]; [done|]. simpl. intros [= <-]. by inversion HF.
Qed.
Lemma kept_nmem l s : (nmem s = [] → l = []) → kept s (set_nmem l s).
Proof. intros Hl. by split. Qed.
Lemma sent_nmem l s : (nmem s = [] → l = []) → sent s (set_nmem l s).
Proof. intros Hl. split; [by apply kept_nmem|done..]. Qed.
End updates.
#[export] Hint Resolve wf_set_nmem wf_set_hw wf_set_ip_id : net.

(** ** Sending *)
Lemma array_bytes n l : array n l → bytes l.
Proof. by intros []. Qed.
Lemma array_zlen n l : array n l → zlen l = Z.of_nat n.
Proof. unfold zlen. by intros [-> _]. Qed.
#[export] Hint Resolve array_bytes : bytes.

Section sending.
Context {D : Type} `{NetDriver D}.
Implicit Types s : net D.
(** The state after an operation that only sends. *)
Definition sending s : ∀ {A}, A → net D → Prop := λ _ _ s', wf s' ∧ sent s s'.

Lemma netdev_send_ok a data s : wf s → (a ≠ 0 → is_Some (net_devs s !! a)) → bytes data →
  wp (netdev_send a data) (sending s) s.
Proof.
  intros W Ha Hb. unfold netdev_send. case_match; [by apply wp_ret|]. apply wp_bind, wp_get, wp_bind.
  destruct Ha as [d Ed]; [lia|]. apply (wp_lift _ _ _ _ Ed). destruct (nd_driver d) as [[]|]; [| |by apply wp_ret].
  - case_match; [by apply wp_ret|]. unfold loopback_send. apply wp_bind, wp_modify, wp_ret. split; [|by split].
    apply wf_set_lo; [auto with bytes| |done]. unfold LOOPBACK_BUF_SIZE, zlen. rewrite length_take. case_match; lia.
  - case_match; [by apply wp_ret|]. destruct (drv_send a data (hw s)) as [r h]. apply wp_bind, wp_put, wp_ret.
    split; [auto with net|by split].
Qed.
Lemma eth_send_ok a mac ty data s : wf s → (a ≠ 0 → is_Some (net_devs s !! a)) → bytes mac → bytes data →
  wp (eth_send a mac ty data) (sending s) s.
Proof.
  intros W Ha Hm Hb. unfold eth_send. case_match eqn:E0; [by apply wp_ret|]. apply orb_false_iff in E0 as [E0 _].
  apply wp_bind, wp_get, wp_bind. destruct Ha as [d Ed]; [lia|]. apply (wp_lift _ _ _ _ Ed). case_match; [by apply wp_ret|].
  apply wp_bind, wp_nalloc. intros b l Hl. destruct b; simpl negb; cbv iota; [|apply wp_ret; split; [auto with net|apply sent_nmem; naive_solver]].
  eapply wp_mono; [apply netdev_send_ok; [auto with net|intros _; by exists d|]|].
  - unfold eth_hdr. assert (array 6 (nd_mac d)) by exact (w_devs _ W a d Ed). eauto 10 with bytes.
  - intros r s' [W' S']. split; [done|]. etrans; [|done]. apply sent_nmem. naive_solver.
Qed.

(** ** ARP *)
Lemma arp_find_wf ip s i e : wf s → list_find (arp_match ip) (arp_cache s) = Some (i, e) → arp_wf e.
Proof. intros W F. apply list_find_Some in F as (F & _). apply (Forall_lookup_1 _ _ _ _ (w_arp _ W) F). Qed.
Lemma arp_cache_find_ok ip s : wf s →
  wp (arp_cache_find ip) (λ o s', (∀ e, o = Some e → array 6 (ae_mac e)) ∧ wf s' ∧ sent s s') s.
Proof.
  intros W. unfold arp_cache_find. apply wp_bind, wp_get.
  destruct (list_find _ _) as [[i e]|] eqn:F; [|apply wp_ret; by split; [|split]].
  destruct (arp_find_wf _ _ _ _ W F) as [A M]. apply wp_bind, wp_put, wp_ret. split; [intros ? [= <-]; done|].
  split; [|by split]. apply wf_set_arp; [by rewrite length_insert; apply W| |done].
  apply Forall_insert; [apply W|]. by split.
Qed.
Lemma arp_send_request_ok i ip s : wf s → if_wf (net_devs s) i → bytes ip → wp (arp_send_request i ip) (sending s) s.
Proof.
  intros W [HI HM HD] Hip. unfold arp_send_request. apply wp_bind.
  eapply wp_mono; [apply netdev_send_ok; [done|done|]|].
  - unfold eth_hdr, arp_hdr, ARP_REQUEST. eauto 20 with bytes.
  - intros r s' [W' S']. by apply wp_ret.
Qed.
Lemma arp_lookup_ok ip s : wf s → bytes ip →
  wp (arp_lookup ip) (λ o s', (∀ m, o = Some m → array 6 m) ∧ wf s' ∧ sent s s') s.
Proof.
  intros W Hip. unfold arp_lookup. apply wp_bind. eapply wp_mono; [by apply arp_cache_find_ok|].
  intros [e|] s1 (HM & W1 & S1); [apply wp_ret; split; [|done]; intros m [= <-]; by apply HM|].
  apply wp_bind, wp_gets, wp_bind. eapply wp_mono.
  - apply (wp_for_each _ _ (λ s', wf s' ∧ sent s1 s')); [done|]. intros i s2 Hi [W2 S2]. case_decide; [|by apply wp_ret].
    eapply wp_mono; [apply arp_send_request_ok; [done| |done]|].
    + rewrite (k_devs _ _ (s_kept _ _ S2)). apply (Forall_forall (if_wf (net_devs s1)) (net_ifs s1)); [apply W1|done].
    + intros [] s3 [W3 S3]. split; [done|]. by etrans.
  - intros [] s2 [W2 S2]. apply wp_ret. split; [done|]. split; [done|]. by etrans.
Qed.
Lemma arp_cache_add_ok ip mac s : wf s → array 4 ip → array 6 mac →
  wp (arp_cache_add ip mac) (sending s) s.
Proof.
  intros W Hip Hm. unfold arp_cache_add. apply wp_bind, wp_get, wp_bind.
  destruct (lookup_lt_is_Some_2 (arp_cache s) 0) as [e0 E0]; [rewrite (w_arplen _ W); unfold ARP_CACHE_SIZE; lia|].
  apply (wp_lift _ _ _ _ E0). apply wp_put. split; [|by split].
  apply wf_set_arp; [by rewrite length_insert; apply W| |done]. apply Forall_insert; [apply W|]. by split.
Qed.

(** ** IPv4 *)
Lemma zlen_ipv4_hdr total id p csum src dst : zlen csum = 2 → zlen src = 4 → zlen dst = 4 →
  zlen (ipv4_hdr total id p csum src dst) = IP_HDR_LEN.
Proof. intros. unfold ipv4_hdr. autorewrite with zlen. unfold IP_HDR_LEN. lia. Qed.
Lemma bytes_ipv4_hdr total id p csum src dst : is_byte p → bytes csum → bytes src → bytes dst →
  bytes (ipv4_hdr total id p csum src dst).
Proof. intros. unfold ipv4_hdr. eauto 20 with bytes. Qed.
Lemma ip_packet_ok i id dst p data len :
  array 4 (if_ip i) → array 4 dst → is_byte p → bytes data → 0 ≤ len ≤ 65515 → len ≤ zlen data →
  ∃ csum, checksum_calc (ipv4_hdr (20 + len) id p [0; 0] (if_ip i) dst) = Some csum ∧
    ip_packet i id dst p data len =
      Some (ipv4_hdr (20 + len) id p (le_bytes 2 csum) (if_ip i) dst ++ take (Z.to_nat len) data).
Proof.
  intros Hi Hd Hp Hb Hl Hlen. unfold ip_packet, ip_checksum. unfold IP_HDR_LEN.
  destruct (Z.ltb_spec 65535 (20 + len)); [lia|].
  destruct (checksum_ok (ipv4_hdr (20 + len) id p [0; 0] (if_ip i) dst)) as (c & E & _). exists c. split; [done|].
  rewrite E. cbn [mbind option_bind]. rewrite slice_Some by lia. cbn [mbind option_bind]. rewrite drop_0.
  destruct (Z.ltb_spec (20 + len) (20 + len)); [lia|]. done.
Qed.

Lemma ip_send_ok dst p data len s : wf s → array 4 dst → is_byte p → bytes data → 0 ≤ len ≤ 65515 → len ≤ zlen data →
  wp (ip_send dst p data len) (sending s) s.
Proof.
  intros W Hd Hp Hb Hl Hlen. unfold ip_send. apply wp_bind, wp_gets.
  destruct (ip_iface dst (net_ifs s)) as [i|] eqn:Ei; [|by apply wp_ret]. pose proof (wf_iface _ _ _ W Ei) as [HI HM HD].
  case_match eqn:Ez; [by apply wp_ret|]. apply wp_bind. eapply wp_mono; [apply arp_lookup_ok; eauto with bytes|].
  intros m s1 (Hm & W1 & S1). apply wp_bind, wp_nalloc. intros b l Hb0.
  assert (sent s (set_nmem l s1)) as S2 by (etrans; [done|]; apply sent_nmem; naive_solver).
  destruct b; simpl negb; cbv iota; [|apply wp_ret; split; [auto with net|done]].
  apply wp_bind, wp_gets, wp_bind, wp_modify, wp_bind.
  destruct (ip_packet_ok i (ip_id_counter (set_nmem l s1)) dst p data len) as (c & _ & Ep); [done..|].
  apply (wp_lift _ _ _ _ Ep). eapply wp_mono; [apply eth_send_ok; [auto with net| | |]|].
  - simpl. rewrite (k_devs _ _ (s_kept _ _ S1)). intros _. apply HD. lia.
  - destruct m as [m|]; simpl; [by apply (array_bytes 6), Hm|]. apply (bytes_replicate 6 0xFF). unfold is_byte. lia.
  - apply bytes_app; [|auto with bytes]. apply bytes_ipv4_hdr; eauto with bytes.
  - intros r s' [W' S']. split; [done|]. etrans; [done|]. etrans; [|done]. by split.
Qed.
(** A packet beyond 65535 bytes is never built. *)
Lemma ip_send_long dst p data len s : wf s → array 4 dst → 65515 < len → wlp (ip_send dst p data len) (sending s) s.
Proof.
  intros W Hd Hl. unfold ip_send. apply wlp_bind, wp_wlp, wp_gets.
  destruct (ip_iface dst (net_ifs s)) as [i|] eqn:Ei; [|by apply wp_wlp, wp_ret].
  case_match; [by apply wp_wlp, wp_ret|]. apply wlp_bind, wp_wlp. eapply wp_mono; [apply arp_lookup_ok; eauto with bytes|].
  intros m s1 (_ & W1 & S1). apply wlp_bind, wp_wlp, wp_nalloc. intros b l Hb0.
  destruct b; simpl negb; cbv iota; [|apply wp_wlp, wp_ret; split; [auto with net|etrans; [done|apply sent_nmem; naive_solver]]].
  apply wlp_bind, wp_wlp, wp_gets, wlp_bind, wp_wlp, wp_modify, wlp_bind.
  assert (∀ x, ip_packet i x dst p data len = None) as ->; [|apply wlp_None].
  intros x. unfold ip_packet, IP_HDR_LEN. destruct (ip_checksum _); [|done]. cbn [mbind option_bind].
  destruct (slice data 0 len); [|done]. cbn [mbind option_bind]. rewrite (proj2 (Z.ltb_lt 65535 _)) by lia. by rewrite (proj2 (Z.ltb_lt 65535 _)) by lia.
Qed.
End sending.
