(* ===== verification/Ipv6Thms.v ===== *)
(** * ipv6.c: the text form of addresses, and the recursion of neighbour discovery. *)
From S2P Require Import Prelude Bytes NetBase NetLib Inet Ipv6 NetInv.
Local Open Scope Z_scope.
Local Open Scope kernel_scope.

(** ** Text form *)

(** The value of a group is read back digit by digit. *)
Lemma hex_digit_value d : 0 ≤ d < 16 → hex_value (hex_digit d) = Some d ∧ hex_digit d ≠ 58.
Proof.
  intros Hd. assert (Forall (λ d, hex_value (hex_digit d) = Some d ∧ hex_digit d ≠ 58) (seqZ 0 16)) as HF by decided.
  rewrite Forall_forall in HF. apply HF. apply elem_of_seqZ. lia.
Qed.
Lemma hex_group_digit v n d p : 0 ≤ v < 2 ^ 24 → 0 ≤ d < 16 → hex_group v n (hex_digit d :: p) = hex_group (16 * v + d) (n + 1) p.
Proof.
  intros Hv Hd. destruct (hex_digit_value d Hd) as [E Hne]. cbn [hex_group]. rewrite E.
  destruct (Z.eqb_spec (hex_digit d) 58); [done|]. f_equal. rewrite Z.shiftl_mul_pow2 by lia. unfold u32. rewrite (Z.mod_small (v * 2 ^ 4)) by lia. rewrite Z.mod_small; lia.
Qed.
Lemma nibble g k : 0 ≤ k → Z.land (Z.shiftr g k) 0xF = (g / 2 ^ k) mod 16 ∧ 0 ≤ Z.land (Z.shiftr g k) 0xF < 16.
Proof.
  intros Hk. change 0xF with (Z.ones 4). rewrite Z.land_ones, Z.shiftr_div_pow2 by lia. split; [done|].
  apply Z.mod_pos_bound. lia.
Qed.
Definition group_end (p : list Z) : Prop := match p with [] => True | c :: _ => c = 58 end.
Lemma hex_group_end v n p : group_end p → hex_group v n p = Some (v, n, p).
Proof. destruct p as [|c p]; [done|]. by intros ->. Qed.
Lemma hex_group_str g p : is_u16 g → group_end p → ∃ n, 0 < n ∧ hex_group 0 0 (group_str g ++ p) = Some (g, n, p).
Proof.
  unfold is_u16. intros Hg Hp. unfold group_str.
  destruct (nibble g 0) as [E0 B0]; [lia|]. destruct (nibble g 4) as [E1 B1]; [lia|].
  destruct (nibble g 8) as [E2 B2]; [lia|]. destruct (nibble g 12) as [E3 B3]; [lia|].
  rewrite Z.pow_0_r, Z.div_1_r in E0. change (2 ^ 4) with 16 in *.
  change (2 ^ 8) with (16 * 16) in E2. change (2 ^ 12) with (16 * 16 * 16) in E3.
  rewrite <- !Z.div_div in * by lia. set (d0 := Z.land (Z.shiftr g 0) 15) in *. set (d1 := Z.land (Z.shiftr g 4) 15) in *.
  set (d2 := Z.land (Z.shiftr g 8) 15) in *. set (d3 := Z.land (Z.shiftr g 12) 15) in *. clearbody d0 d1 d2 d3.
  pose proof (Z.div_mod g 16). pose proof (Z.div_mod (g / 16) 16). pose proof (Z.div_mod (g / 16 / 16) 16).
  pose proof (Z.div_mod (g / 16 / 16 / 16) 16).
  assert (g / 16 / 16 / 16 < 16) by (apply Z.div_lt_upper_bound; [lia|]; apply Z.div_lt_upper_bound; [lia|]; apply Z.div_lt_upper_bound; lia).
  assert (0 ≤ g / 16 / 16 / 16) by (repeat apply Z.div_pos; lia).
  rewrite (Z.mod_small (g / 16 / 16 / 16)) in E3 by lia.
  destruct (Z.leb_spec 0x1000 g); [|destruct (Z.leb_spec 0x100 g); [|destruct (Z.leb_spec 0x10 g)]]; cbn [app];
    rewrite !hex_group_digit by lia; rewrite hex_group_end by done; eexists; (split; [|f_equal; f_equal; f_equal; lia]); lia.
Qed.

(** The text of groups [i] on: each but the first behind a colon. *)
Fixpoint groups_text (gs : list Z) (first : bool) : list Z :=
  match gs with [] => [] | g :: gs => (if first then [] else [58]) ++ group_str g ++ groups_text gs false end.
Fixpoint groups (addr : list Z) : list Z :=
  match addr with a :: b :: addr => (a * 256 + b) :: groups addr | _ => [] end.
Fixpoint ungroup (gs : list Z) : list Z :=
  match gs with [] => [] | g :: gs => Z.land (Z.shiftr g 8) 0xFF :: Z.land g 0xFF :: ungroup gs end.
Lemma groups_ok n addr : bytes addr → length addr = (2 * n)%nat →
  length (groups addr) = n ∧ Forall is_u16 (groups addr) ∧ ungroup (groups addr) = addr.
Proof.
  revert addr. induction n as [|n IH]; intros [|a [|b addr]] HB Hl; simpl in Hl; try lia; [done|]. cbn [groups ungroup length].
  apply Forall_cons in HB as [Ha HB]. apply Forall_cons in HB as [Hb HB]. unfold is_byte in Ha, Hb.
  destruct (IH addr HB) as (E1 & E2 & E3); [lia|]. split; [by rewrite E1|]. split; [constructor; [unfold is_u16; lia|done]|].
  rewrite E3. change 0xFF with (Z.ones 8). rewrite !Z.land_ones, Z.shiftr_div_pow2 by lia. change (2 ^ 8) with 256.
  destruct (div_mod_256 a b) as [-> ->]; [lia|]. by rewrite Z.mod_small by lia.
Qed.
Lemma group_str_len g : 1 ≤ zlen (group_str g) ≤ 4.
Proof. unfold group_str, zlen. repeat case_match; simpl; lia. Qed.

(** The printer writes every group when there is room. *)
Lemma addr_str_text n pre rest buf bufsz k :
  bytes rest → length rest = (2 * n)%nat → length pre = (2 * k)%nat → zlen buf ≤ 5 * Z.of_nat k → (k = 0%nat ∨ zlen buf < 5 * Z.of_nat k) →
  5 * Z.of_nat (k + n) ≤ bufsz → (6 ≤ bufsz) →
  addr_str n (2 * Z.of_nat k) (pre ++ rest) buf bufsz = buf ++ groups_text (groups rest) (bool_decide (k = 0%nat)).
Proof.
  revert pre rest buf k. induction n as [|n IH]; intros pre rest buf k HB Hl Hp Hb Hk Hsz Hs.
  { destruct rest; [|simpl in Hl; lia]. cbn [addr_str groups groups_text]. by rewrite app_nil_r. }
  destruct rest as [|a [|b rest]]; simpl in Hl; try lia. cbn [addr_str groups groups_text].
  apply Forall_cons in HB as [Ha HB]. apply Forall_cons in HB as [Hb2 HB]. unfold is_byte in Ha, Hb2.
  assert (nth (Z.to_nat (2 * Z.of_nat k)) (pre ++ a :: b :: rest) 0 = a) as ->.
  { rewrite app_nth2 by lia. replace (_ - _)%nat with 0%nat by lia. done. }
  assert (nth (Z.to_nat (2 * Z.of_nat k + 1)) (pre ++ a :: b :: rest) 0 = b) as ->.
  { rewrite app_nth2 by lia. replace (_ - _)%nat with 1%nat by lia. done. }
  rewrite Z.shiftl_mul_pow2, lor_add by lia. change (2 ^ 8) with 256. destruct (Z.ltb_spec (zlen buf + 5) bufsz) as [_|?]; [|lia].
  pose proof (group_str_len (a * 256 + b)). replace (2 * Z.of_nat k + 2) with (2 * Z.of_nat (S k)) by lia.
  replace (pre ++ a :: b :: rest) with ((pre ++ [a; b]) ++ rest) by by rewrite <- app_assoc.
  set (sep := if 0 <? 2 * Z.of_nat k then [58] else []).
  assert (sep = if bool_decide (k = 0%nat) then [] else [58]) as Esep by (unfold sep; case_bool_decide; case_match; (done || lia)).
  assert (zlen sep ≤ 1 ∧ (k = 0%nat → zlen sep = 0)) as [Hsep Hsep0].
  { rewrite Esep. case_bool_decide; unfold zlen; simpl; lia. }
  rewrite IH; [|done|lia|rewrite length_app; simpl; lia|rewrite !zlen_app; lia|right; rewrite !zlen_app; lia|lia|done].
  rewrite bool_decide_eq_false_2 by lia. rewrite <- !app_assoc, Esep. done.
Qed.

Lemma land_byte_small v : Z.land v 0xFF = v mod 256.
Proof. change 0xFF with (Z.ones 8). by rewrite Z.land_ones by lia. Qed.
Lemma put2_at (pre : list Z) k n hi lo : length pre = (2 * k)%nat →
  put2 (pre ++ replicate (2 * S n) 0) (Z.of_nat k) hi lo = (pre ++ [hi; lo]) ++ replicate (2 * n) 0.
Proof.
  intros Hp. unfold put2. replace (Z.to_nat (2 * Z.of_nat k)) with (length pre + 0)%nat by lia.
  replace (Z.to_nat (2 * Z.of_nat k + 1)) with (length pre + 1)%nat by lia. rewrite !insert_app_r.
  replace (2 * S n)%nat with (S (S (2 * n))) by lia. cbn. by rewrite <- app_assoc.
Qed.
(** A group's text begins with a digit. *)
Lemma group_str_head g : ∃ c p, group_str g = c :: p ∧ c ≠ 58.
Proof.
  assert (∀ k, 0 ≤ k → hex_digit (Z.land (Z.shiftr g k) 0xF) ≠ 58) as HD.
  { intros k Hk. apply hex_digit_value. by destruct (nibble g k Hk). }
  unfold group_str. repeat case_match; (eexists _, _; split; [done|apply HD; lia]).
Qed.
Lemma text_not_colons gs : colons (groups_text gs true) = None ∧ (gs ≠ [] → groups_text gs true ≠ []).
Proof.
  destruct gs as [|g gs]; [done|]. cbn [groups_text app]. destruct (group_str_head g) as (c & p & -> & Hc). split; [|done].
  cbn [app colons]. destruct (p ++ _); [done|]. by destruct (Z.eqb_spec c 58).
Qed.
Lemma groups_text_end gs : group_end (groups_text gs false).
Proof. by destruct gs. Qed.
Lemma skip_text gs : skip_colon (groups_text gs false) = groups_text gs true.
Proof. by destruct gs. Qed.

Lemma addr_groups_text gs : ∀ fuel pre k, Forall is_u16 gs → length pre = (2 * k)%nat → (k + length gs = 8)%nat → (length gs < fuel)%nat →
  addr_groups fuel (groups_text gs true) (Z.of_nat k) (-1) (pre ++ replicate (2 * length gs) 0) =
    Some (pre ++ ungroup gs, 8, -1).
Proof.
  induction gs as [|g gs IH]; intros fuel pre k HF Hp Hk Hf; (destruct fuel as [|fuel]; [simpl in Hf; lia|]).
  { cbn [addr_groups groups_text ungroup length replicate Nat.mul]. simpl in Hk. by replace (Z.of_nat k) with 8 by lia. }
  apply Forall_cons in HF as [Hg HF]. cbn [length] in *. pose proof (text_not_colons (g :: gs)) as [Ec Hne].
  cbn [addr_groups]. destruct (groups_text (g :: gs) true) as [|c0 p0] eqn:E0; [by destruct Hne|]. rewrite <- E0 in *. clear E0 c0 p0.
  destruct (Z.ltb_spec (Z.of_nat k) 8); [|lia]. simpl negb. cbv iota. rewrite Ec. cbn [groups_text app].
  destruct (hex_group_str g (groups_text gs false) Hg (groups_text_end gs)) as (n & Hn & ->). cbn [mbind option_bind].
  destruct (Z.eqb_spec n 0); [lia|]. rewrite put2_at by done. rewrite skip_text.
  pose proof (IH fuel (pre ++ [Z.land (Z.shiftr g 8) 0xFF; Z.land g 0xFF]) (S k) HF) as HI.
  rewrite <- !app_assoc in HI. cbn [app] in HI. replace (Z.of_nat k + 1) with (Z.of_nat (S k)) by lia.
  destruct (groups_text gs true) as [|c1 p1] eqn:E1.
  - destruct gs as [|g' gs']; [|by destruct (text_not_colons (g' :: gs')) as [_ []]]. simpl in Hk. cbn [length replicate Nat.mul ungroup].
    replace (Z.of_nat (S k)) with 8 by lia. by rewrite app_nil_r.
  - rewrite <- app_assoc. cbn [app ungroup]. apply HI; [rewrite length_app; simpl; lia|lia|lia].
Qed.

Lemma groups_text_len gs b : zlen gs ≤ zlen (groups_text gs b) ∧ zlen (groups_text gs false) ≤ 5 * zlen gs ∧ (gs ≠ [] → zlen (groups_text gs true) ≤ 5 * zlen gs - 1).
Proof.
  revert b. induction gs as [|g gs IH]; intros b; [done|]. cbn [groups_text]. rewrite !zlen_app, !zlen_cons, !zlen_nil.
  destruct (IH false) as (H1 & H2 & _). pose proof (group_str_len g). destruct b; rewrite ?zlen_cons, ?zlen_nil; lia.
Qed.

(** ** Neighbour discovery *)
Section ndp.
Context {D : Type} `{NetDriver D}.
Implicit Types s : net D.
Definition unknown (ip : list Z) s : Prop := Forall (λ e, ¬ neighbor_match ip e) (ipv6_neighbor_cache (v6 s)).
#[export] Instance unknown_dec ip s : Decision (unknown ip s) := _.
Lemma neighbor_unknown ip s : unknown ip s → ipv6_neighbor_find ip s = Some (None, s).
Proof.
  intros HU. unfold ipv6_neighbor_find, bind, get. destruct (list_find _ _) as [[i e]|] eqn:F; [|done].
  apply list_find_Some in F as (F & HM & _). by destruct (Forall_lookup_1 _ _ _ _ HU F).
Qed.
Lemma tail3_node t : length t = 16%nat → tail3 (solicited_node t) = tail3 t ∧ length (solicited_node t) = 16%nat.
Proof. intros Ht. unfold tail3, solicited_node. split; [done|]. simpl. unfold tail3. rewrite length_drop, Ht. done. Qed.
Lemma node_idem t : length t = 16%nat → solicited_node (solicited_node t) = solicited_node t.
Proof. intros Ht. unfold solicited_node at 1. by rewrite (proj1 (tail3_node t Ht)). Qed.

(** Sending to an address that is not cached needs the neighbour's MAC, which is
    asked for by sending to the solicited-node address, which is not cached. *)
Lemma send_unknown_none fuel dst nh data len i a s :
  nmem s = [] → list_find active (ipv6_ifaces (v6 s)) = Some (i, a) → length dst = 16%nat →
  unknown dst s → unknown (solicited_node dst) s → ipv6_send fuel dst nh data len s = None.
Proof.
  intros HM Ha. revert dst nh data len. induction fuel as [|fuel IH]; intros dst nh data len Hl HU HN; [done|].
  cbn [ipv6_send]. unfold bind at 1, get. rewrite Ha. unfold bind at 1, lookup_with. unfold bind at 1. rewrite neighbor_unknown by done.
  unfold bind at 1, solicit. unfold bind at 1, get. rewrite Ha. unfold bind at 1, nalloc. rewrite HM. unfold bind at 1. cbv beta iota delta [negb].
  rewrite IH; [done|by apply tail3_node|done|by rewrite node_idem].
Qed.
End ndp.
