(* ===== verification/NetSafe.v ===== *)
(** * Every handler of a received packet runs to its end on every sequence of bytes,
    without an access outside a buffer, and keeps the types of the state; what a
    TCP segment does to the socket table. *)
From S2P Require Import Prelude Bytes NetBase NetLib Inet Tcp Ipv6 NetPoll NetInv.
Local Open Scope Z_scope.
Local Open Scope kernel_scope.

Section handlers.
Context {D : Type} `{NetDriver D}.
Implicit Types s : net D.

Lemma is_u16_u16 v : is_u16 (u16 v).
Proof. apply Z.mod_pos_bound. lia. Qed.
Lemma is_u32_u32 v : is_u32 (u32 v).
Proof. apply Z.mod_pos_bound. lia. Qed.

(** ** ICMP and UDP *)
Lemma icmp_ok src data s : wf s → array 4 src → bytes data → zlen data ≤ 65515 →
  wp (icmp_handle_packet src data) (sending s) s.
Proof.
  intros W Hs Hb Hl. unfold icmp_handle_packet, ICMP_HDR_LEN. case_match eqn:E0; [by apply wp_ret|].
  destruct (checksum_ok data) as (c & Ec & _). apply wp_bind, (wp_lift _ _ _ _ Ec). case_match; [by apply wp_ret|].
  destruct (rd8_ok data 0) as (ty & Ety & _); [lia..|]. apply wp_bind, (wp_lift _ _ _ _ Ety).
  destruct (rd8_ok data 1) as (co & Eco & _); [lia..|]. apply wp_bind, (wp_lift _ _ _ _ Eco). case_match; [|by apply wp_ret].
  apply wp_bind, wp_nalloc. intros b l Hb0. destruct b; simpl negb; cbv iota; [|apply wp_ret; split; [auto with net|apply sent_nmem; naive_solver]].
  destruct (checksum_ok ([ICMP_ECHO_REPLY; 0] ++ [0; 0] ++ drop 4 data)) as (c2 & Ec2 & _).
  apply wp_bind, (wp_lift _ _ _ _ Ec2), wp_bind. unfold u16. rewrite Z.mod_small by (pose proof (zlen_nonneg data); lia).
  eapply wp_mono; [apply ip_send_ok; [auto with net|done|unfold is_byte, IP_PROTO_ICMP; lia| | |]|].
  - unfold ICMP_ECHO_REPLY. eauto 10 with bytes.
  - pose proof (zlen_nonneg data). lia.
  - autorewrite with zlen. pose proof (zlen_drop 4 data). change (Z.to_nat 4) with 4%nat in *. lia.
  - intros r s' [W' S']. apply wp_ret. split; [done|]. etrans; [|done]. apply sent_nmem. naive_solver.
Qed.

Lemma kept_udp s i u u' : udp_sockets s !! i = Some u → (us_in_use u', us_port u') = (us_in_use u, us_port u) →
  kept s (set_udp (<[i := u']> (udp_sockets s)) s).
Proof.
  intros E Eq. split; try done. simpl. rewrite list_fmap_insert, Eq. apply list_insert_id.
  by rewrite list_lookup_fmap, E.
Qed.
Lemma udp_handle_ok src data s : wf s → array 4 src → bytes data →
  wp (udp_handle_packet src data) (λ _ s', wf s' ∧ kept s s' ∧ tcps s' = tcps s ∧ v6 s' = v6 s) s.
Proof.
  intros W Hs Hb. unfold udp_handle_packet, UDP_HDR_LEN. case_match eqn:E0; [by apply wp_ret|].
  destruct (rd16_ok data 2) as (dp & Edp & _); [lia..|]. apply wp_bind, (wp_lift _ _ _ _ Edp).
  destruct (rd16_ok data 0) as (sp & Esp & _); [lia..|]. apply wp_bind, (wp_lift _ _ _ _ Esp). cbv zeta.
  apply wp_bind, wp_get. destruct (list_find _ _) as [[i u]|] eqn:F; [|by apply wp_ret].
  apply list_find_Some in F as (Hu & [Huse _] & _).
  set (n := if UDP_RX_SIZE <? zlen data - 8 then UDP_RX_SIZE else zlen data - 8).
  assert (0 ≤ n ≤ zlen data - 8 ∧ n ≤ UDP_RX_SIZE) as Hn by (unfold n, UDP_RX_SIZE; case_match; lia).
  destruct (rd_ok data 8 n) as (b & Eb & Hbl & Hbb); [lia..|]. apply wp_bind, (wp_lift _ _ _ _ Eb), wp_put.
  split; [|split; [|done]].
  - apply wf_set_udp; [|done]. apply Forall_insert; [apply W|]. split; simpl; [auto|lia|done|apply ntohs_bound].
  - apply (kept_udp _ _ u); [done|]. simpl. by rewrite Huse.
Qed.

(** ** TCP *)

(** [send_packet]'s progress in the sequence space. *)
Definition advance (r flags n : Z) (k : tcp_socket) : tcp_socket :=
  let k := if (0 <=? r) && flag flags (Z.lor TCP_SYN TCP_FIN) then ts_set_seq (u32 (ts_seq_num k + 1)) k else k in
  if (0 <=? r) && (0 <? n) then ts_set_seq (u32 (ts_seq_num k + n)) k else k.
(** What a TCP operation leaves alone. *)
Record tcp_only s s' : Prop := { to_kept : kept s s'; to_udp : udp_sockets s' = udp_sockets s; to_v6 : v6 s' = v6 s }.
#[export] Instance tcp_only_preorder : PreOrder tcp_only.
Proof. split; [intros s; by split|]. intros a b c [] []. split; try congruence. by etrans. Qed.
Lemma sent_tcp_only s s' : sent s s' → tcp_only s s'.
Proof. intros []. by split. Qed.
Lemma tcp_only_set t s : tcp_only s (set_tcps t s).
Proof. by split. Qed.

Definition put_socks (l : list tcp_socket) s : net D := set_tcps (mk_tcps l (tcp_next_id (tcps s)) (tcp_iss (tcps s))) s.
Lemma wp_upd_sock i g (Q : unit → net D → Prop) s : Q tt (put_socks (alter g i (sockets s)) s) → wp (upd_sock i g) Q s.
Proof. intros HQ. by apply wp_modify. Qed.
Lemma wp_ld_sock i k (Q : tcp_socket → net D → Prop) s : sockets s !! i = Some k → Q k s → wp (ld_sock i) Q s.
Proof. intros E HQ. apply wp_bind, wp_get. by apply (wp_lift _ _ _ _ E). Qed.

Lemma tcp_wf_seq v k : tcp_wf k → is_u32 v → tcp_wf (ts_set_seq v k).
Proof. intros []. by split. Qed.
Lemma advance_wf r flags n k : tcp_wf k → tcp_wf (advance r flags n k).
Proof. intros W. unfold advance. repeat case_match; repeat (apply tcp_wf_seq; [|apply is_u32_u32]); done. Qed.
Lemma advance_state r flags n k : ts_state (advance r flags n k) = ts_state k.
Proof. unfold advance. by repeat case_match. Qed.

Lemma zlen_tcp_hdr k flags csum : zlen csum = 2 → zlen (tcp_hdr k flags csum) = TCP_HDR_LEN.
Proof. intros E. unfold tcp_hdr. autorewrite with zlen. rewrite E. done. Qed.
Lemma bytes_tcp_hdr k flags csum : bytes csum → bytes (tcp_hdr k flags csum).
Proof. intros. unfold tcp_hdr. eauto 20 with bytes. Qed.

(** The bytes sent and the sockets after it. *)
Definition after_send s s' (r : Z) (i : nat) (flags n : Z) : Prop :=
  wf s' ∧ tcp_only s s' ∧
  tcps s' = mk_tcps (alter (advance r flags n) i (sockets s)) (tcp_next_id (tcps s)) (tcp_iss (tcps s)).
Lemma after_send_id s s' r i flags n : wf s' → sent s s' → r < 0 → after_send s s' r i flags n.
Proof.
  intros W S Hr. split; [done|]. split; [by apply sent_tcp_only|]. rewrite (s_tcps _ _ S). unfold sockets.
  rewrite list_alter_id; [by destruct (tcps s)|]. intros k. unfold advance. destruct (Z.leb_spec 0 r); [lia|done].
Qed.

Lemma tcp_send_packet_ok i flags data s : wf s → (i < length (sockets s))%nat → bytes data → zlen data ≤ TCP_MAX_SEGMENT →
  wp (tcp_send_packet i flags data) (λ r s', after_send s s' r i flags (zlen data)) s.
Proof.
  intros W Hi Hb Hl. unfold tcp_send_packet. destruct (lookup_lt_is_Some_2 _ _ Hi) as [k Ek].
  apply wp_bind, (wp_ld_sock _ k); [done|]. apply wp_bind, wp_gets. pose proof (Forall_lookup_1 _ _ _ _ (w_tcp _ W) Ek) as WK.
  destruct (net_if_find_by_ip _ _) as [f|] eqn:Ef; [|apply wp_ret; by apply after_send_id].
  case_match; [apply wp_ret; by apply after_send_id|]. apply wp_bind, wp_nalloc. intros b l Hb0.
  assert (sent s (set_nmem l s)) as S0 by (apply sent_nmem; naive_solver).
  destruct b; simpl negb; cbv iota; [|apply wp_ret; apply after_send_id; [auto with net|done|lia]].
  destruct (tcp_udp_checksum_ok (if_ip f) (ts_remote_ip k) IP_PROTO_TCP (tcp_hdr k flags [0; 0] ++ data)) as (c & Ec & _).
  apply wp_bind, (wp_lift _ _ _ _ Ec), wp_bind. unfold u16. pose proof (zlen_nonneg data). unfold TCP_MAX_SEGMENT in Hl.
  rewrite Z.mod_small by (unfold TCP_HDR_LEN; lia).
  eapply wp_mono; [apply ip_send_ok; [auto with net|apply WK|unfold is_byte, IP_PROTO_TCP; lia| |unfold TCP_HDR_LEN; lia|]|].
  - apply bytes_app; [|done]. apply bytes_tcp_hdr. auto with bytes.
  - rewrite zlen_app, zlen_tcp_hdr by apply zlen_le. lia.
  - intros r s' [W' S']. assert (sent s s') as S2 by (by etrans). clear S0 S'.
    assert (∀ g, (∀ k, tcp_wf k → tcp_wf (g k)) → wf (put_socks (alter g i (sockets s')) s')) as HP.
    { intros g Hg. apply wf_upd_sock; auto. }
    unfold advance in *. apply wp_bind.
    assert (∀ m g (Q : unit → net D → Prop), (m = upd_sock i g ∨ (m = ret tt ∧ ∀ k, g k = k)) →
      ∀ t, (Q tt (put_socks (alter g i (sockets t)) t)) → wp m Q t) as HU.
    { intros m g Q [->|[-> Hg]] t HQ; [by apply wp_upd_sock|]. apply wp_ret. rewrite list_alter_id in HQ by done.
      unfold put_socks, sockets in HQ. by destruct t as [? ? ? ? ? ? ? ? [] ? ? ? ?]. }
    eapply (HU _ (λ k, if (0 <=? r) && flag flags (Z.lor TCP_SYN TCP_FIN) then ts_set_seq (u32 (ts_seq_num k + 1)) k else k)).
    { case_match; [by left|by right]. }
    apply wp_bind. eapply (HU _ (λ k, if (0 <=? r) && (0 <? zlen data) then ts_set_seq (u32 (ts_seq_num k + zlen data)) k else k)).
    { case_match; [by left|by right]. }
    apply wp_ret. assert (alter (λ k, if (0 <=? r) && (0 <? zlen data) then ts_set_seq (u32 (ts_seq_num k + zlen data)) k else k) i
      (alter (λ k, if (0 <=? r) && flag flags (Z.lor TCP_SYN TCP_FIN) then ts_set_seq (u32 (ts_seq_num k + 1)) k else k) i (sockets s'))
      = alter (advance r flags (zlen data)) i (sockets s')) as EA by (by rewrite list_alter_alter_eq).
    split; [|split].
    + unfold put_socks, sockets in *. simpl in *. rewrite EA. apply (HP (advance r flags (zlen data))). intros; by apply advance_wf.
    + etrans; [by apply sent_tcp_only|]. by split.
    + unfold put_socks, sockets in *. simpl in *. rewrite EA. by rewrite (s_tcps _ _ S2).
Qed.
End handlers.

(** ** The connection's state machine (RFC 793, as far as the source has it)

    What a segment makes of a state: the next state, how far beyond the
    segment's sequence number the numbers to acknowledge and to expect are set, if
    they are, and whether an ACK answers it. *)
Section machine.
Context (g : segment).
Definition has_rst : bool := flag (sg_flags g) TCP_RST.
Definition has_fin : bool := flag (sg_flags g) TCP_FIN.
Definition has_ack : bool := flag (sg_flags g) TCP_ACK.
Definition syn_ack : bool := all_flags (sg_flags g) (Z.lor TCP_SYN TCP_ACK).
Definition fin_ack : bool := all_flags (sg_flags g) (Z.lor TCP_FIN TCP_ACK).
(** States that a reset ends. *)
Definition resettable (st : tcp_state) : Prop :=
  match st with
  | TCP_SYN_RECEIVED | TCP_ESTABLISHED | TCP_FIN_WAIT1 | TCP_FIN_WAIT2 | TCP_LAST_ACK => has_rst = true
  | TCP_SYN_SENT => syn_ack = false ∧ has_rst = true
  | _ => False
  end.
(** Segments that the state ignores. *)
Definition inert (st : tcp_state) : Prop :=
  match st with
  | TCP_SYN_SENT => syn_ack = false ∧ has_rst = false
  | TCP_SYN_RECEIVED | TCP_LAST_ACK => has_rst = false ∧ has_ack = false
  | TCP_ESTABLISHED => has_rst = false ∧ has_fin = false ∧ sg_payload g = []
  | TCP_FIN_WAIT1 => has_rst = false ∧ fin_ack = false ∧ has_ack = false
  | TCP_FIN_WAIT2 => has_rst = false ∧ has_fin = false
  | TCP_CLOSE_WAIT | TCP_TIME_WAIT | TCP_CLOSED | TCP_LISTEN => True
  end.
Inductive arc : tcp_state → tcp_state → option Z → option Z → bool → Prop :=
  | arc_ignored st : inert st → arc st st None None false
  | arc_reset st : resettable st → arc st TCP_CLOSED None None false
  | arc_syn_ack : syn_ack = true → arc TCP_SYN_SENT TCP_ESTABLISHED (Some 1) (Some 1) true
  | arc_open_ack : has_rst = false → has_ack = true → arc TCP_SYN_RECEIVED TCP_ESTABLISHED (Some 0) None false
  | arc_data : has_rst = false → has_fin = false → sg_payload g ≠ [] →
      arc TCP_ESTABLISHED TCP_ESTABLISHED (Some (zlen (sg_payload g))) (Some (zlen (sg_payload g))) true
  | arc_peer_fin : has_rst = false → has_fin = true → arc TCP_ESTABLISHED TCP_CLOSE_WAIT (Some 1) None true
  | arc_both_fin : has_rst = false → fin_ack = true → arc TCP_FIN_WAIT1 TCP_TIME_WAIT (Some 1) None true
  | arc_fin_ack : has_rst = false → fin_ack = false → has_ack = true → arc TCP_FIN_WAIT1 TCP_FIN_WAIT2 None None false
  | arc_last_fin : has_rst = false → has_fin = true → arc TCP_FIN_WAIT2 TCP_TIME_WAIT (Some 1) None true
  | arc_last_ack : has_rst = false → has_ack = true → arc TCP_LAST_ACK TCP_CLOSED None None false.
(** A segment leaves no choice. *)
Lemma arc_deterministic st st1 a1 r1 b1 st2 a2 r2 b2 : arc st st1 a1 r1 b1 → arc st st2 a2 r2 b2 → (st1, a1, r1, b1) = (st2, a2, r2, b2).
Proof.
  intros H1 H2. destruct H1; inversion H2; subst; try done; cbn [inert resettable] in *; try (destruct_and?; congruence);
    match goal with st : tcp_state |- _ => destruct st; cbn [inert resettable] in *; try done; destruct_and?; congruence end.
Qed.
End machine.

(** What identifies a connection, and what it has sent. *)
Definition endpoint (k : tcp_socket) : Z * bool * (list Z * Z) * (list Z * Z) * (Z * list Z) * (Z * Z) :=
  (ts_id k, ts_in_use k, (ts_local_ip k, ts_local_port k), (ts_remote_ip k, ts_remote_port k), (ts_backlog k, ts_pending k),
   (ts_isn k, ts_seq_num k)).
(** What of a segment's data is kept. *)
Definition accepted (k : tcp_socket) (g : segment) : list Z :=
  if decide (ts_state k = TCP_ESTABLISHED ∧ has_rst g = false ∧ has_fin g = false)
  then take (Z.to_nat (TCP_RX_BUF_SIZE - zlen (ts_rx k))) (sg_payload g) else [].
(** A number moved to [o] beyond the segment's, if it is moved. *)
Definition moved (g : segment) (o : option Z) (v : Z) : Z := match o with Some n => u32 (sg_seq g + n) | None => v end.
Definition seg_step (g : segment) (k k' : tcp_socket) (reply : bool) : Prop :=
  ∃ a r, arc g (ts_state k) (ts_state k') a r reply ∧ endpoint k' = endpoint k ∧
    ts_ack_num k' = moved g a (ts_ack_num k) ∧ ts_rcv_nxt k' = moved g r (ts_rcv_nxt k) ∧
    ts_rx k' = ts_rx k ++ accepted k g.

Lemma take_room (payload : list Z) (room : Z) : 0 ≤ room →
  take (Z.to_nat room) payload = if 0 <? (if room <? zlen payload then room else zlen payload)
                                 then take (Z.to_nat (if room <? zlen payload then room else zlen payload)) payload else [].
Proof.
  intros Hr. unfold zlen. destruct (Z.ltb_spec room (Z.of_nat (length payload))).
  - destruct (Z.ltb_spec 0 room); [done|]. by replace room with 0 by lia.
  - rewrite (take_ge payload) by lia. destruct (Z.ltb_spec 0 (Z.of_nat (length payload))); [by rewrite take_ge by lia|].
    destruct payload; [done|simpl in *; lia].
Qed.
Lemma accepted_none k g : ts_state k ≠ TCP_ESTABLISHED → accepted k g = [].
Proof. intros Hs. unfold accepted. rewrite decide_False by tauto. done. Qed.
(** Off the ESTABLISHED state, where no data is kept. *)
Lemma seg_step_quiet g k k' a r b :
  ts_state k ≠ TCP_ESTABLISHED → arc g (ts_state k) (ts_state k') a r b → endpoint k' = endpoint k →
  ts_ack_num k' = moved g a (ts_ack_num k) → ts_rcv_nxt k' = moved g r (ts_rcv_nxt k) → ts_rx k' = ts_rx k → seg_step g k k' b.
Proof. intros Hs HA HE H1 H2 H3. exists a, r. rewrite accepted_none, app_nil_r by done. by split_and!. Qed.
Lemma on_segment_step g k : tcp_wf k → is_u32 (sg_seq g) →
  seg_step g k (on_segment k (sg_flags g) (sg_seq g) (sg_payload g)).1 (on_segment k (sg_flags g) (sg_seq g) (sg_payload g)).2.
Proof.
  intros W Hsq. unfold on_segment. fold (has_rst g) (has_fin g) (has_ack g) (syn_ack g) (fin_ack g).
  assert (sg_seq g = u32 (sg_seq g + 0)) as E0 by (rewrite Z.add_0_r; symmetry; apply Z.mod_small, Hsq).
  destruct (ts_state k) eqn:E; try (eapply seg_step_quiet; cbn [fst snd]; rewrite ?E; [done|by apply arc_ignored|done..]).
  - destruct (syn_ack g) eqn:E1; [eapply seg_step_quiet; rewrite ?E; [done|by apply arc_syn_ack|done..]|].
    destruct (has_rst g) eqn:E2; [eapply seg_step_quiet; rewrite ?E; [done|by apply arc_reset|done..]|].
    eapply seg_step_quiet; cbn [fst snd]; rewrite ?E; [done|by apply arc_ignored|done..].
  - destruct (has_rst g) eqn:E1; [eapply seg_step_quiet; rewrite ?E; [done|by apply arc_reset|done..]|].
    destruct (has_ack g) eqn:E2; [eapply seg_step_quiet; rewrite ?E; [done|by apply arc_open_ack|done|exact E0|done..]|].
    eapply seg_step_quiet; cbn [fst snd]; rewrite ?E; [done|by apply arc_ignored|done..].
  - unfold seg_step, accepted. rewrite E. destruct (has_rst g) eqn:E1.
    { exists None, None. rewrite decide_False by naive_solver. rewrite app_nil_r. split_and!; try done. by apply arc_reset. }
    destruct (has_fin g) eqn:E2.
    { exists (Some 1), None. rewrite decide_False by naive_solver. rewrite app_nil_r. split_and!; try done. by apply arc_peer_fin. }
    rewrite decide_True by done. rewrite (take_room (sg_payload g) (TCP_RX_BUF_SIZE - zlen (ts_rx k))) by (pose proof (tw_room _ W); lia).
    set (n := if TCP_RX_BUF_SIZE - zlen (ts_rx k) <? zlen (sg_payload g) then _ else _).
    destruct (Z.ltb_spec 0 (zlen (sg_payload g))) as [Hp|Hp].
    + assert (sg_payload g ≠ []) by (intros Ee; rewrite Ee in Hp; done).
      exists (Some (zlen (sg_payload g))), (Some (zlen (sg_payload g))). destruct (0 <? n); cbn; rewrite ?E, ?app_nil_r; split_and!; try done; by apply arc_data.
    + assert (sg_payload g = []) as Ep by (destruct (sg_payload g); [done|unfold zlen in Hp; simpl in Hp; lia]).
      exists None, None. cbn [fst snd]. rewrite E, Ep, take_nil. replace (if 0 <? n then [] else []) with (@nil Z) by by destruct (0 <? n).
      rewrite app_nil_r. split_and!; try done. by apply arc_ignored.
  - destruct (has_rst g) eqn:E1; [eapply seg_step_quiet; rewrite ?E; [done|by apply arc_reset|done..]|].
    destruct (fin_ack g) eqn:E2; [eapply seg_step_quiet; rewrite ?E; [done|by apply arc_both_fin|done..]|].
    destruct (has_ack g) eqn:E3; [eapply seg_step_quiet; rewrite ?E; [done|by apply arc_fin_ack|done..]|].
    eapply seg_step_quiet; cbn [fst snd]; rewrite ?E; [done|by apply arc_ignored|done..].
  - destruct (has_rst g) eqn:E1; [eapply seg_step_quiet; rewrite ?E; [done|by apply arc_reset|done..]|].
    destruct (has_fin g) eqn:E2; [eapply seg_step_quiet; rewrite ?E; [done|by apply arc_last_fin|done..]|].
    eapply seg_step_quiet; cbn [fst snd]; rewrite ?E; [done|by apply arc_ignored|done..].
  - destruct (has_rst g) eqn:E1; [eapply seg_step_quiet; rewrite ?E; [done|by apply arc_reset|done..]|].
    destruct (has_ack g) eqn:E2; [eapply seg_step_quiet; rewrite ?E; [done|by apply arc_last_ack|done..]|].
    eapply seg_step_quiet; cbn [fst snd]; rewrite ?E; [done|by apply arc_ignored|done..].
Qed.
Lemma on_segment_wf k flags seq payload : tcp_wf k → is_u32 seq → bytes payload → tcp_wf (on_segment k flags seq payload).1.
Proof.
  intros W Hs Hb. pose proof (is_u32_u32 (seq + 1)). pose proof (is_u32_u32 (seq + zlen payload)).
  assert (∀ p, bytes p → zlen p ≤ TCP_RX_BUF_SIZE - zlen (ts_rx k) → tcp_wf (ts_set_rx (ts_rx k ++ p) k)) as HR.
  { intros p Hp Hl. destruct W. split; simpl; auto with bytes. rewrite zlen_app. lia. }
  assert (∀ k v, tcp_wf k → is_u32 v → tcp_wf (ts_set_ack v k)) as HA by (intros ? ? [] ?; by split).
  assert (∀ k v, tcp_wf k → is_u32 v → tcp_wf (ts_set_rcv v k)) as HV by (intros ? ? [] ?; by split).
  assert (∀ k st, tcp_wf k → tcp_wf (ts_set_state st k)) as HT by (intros ? ? []; by split).
  unfold on_segment. destruct (ts_state k); repeat case_match; simpl; auto.
  all: apply HV, H0; apply HA, H0; apply HR; [auto with bytes|]. all: unfold zlen in *; rewrite length_take; lia.
Qed.

(** ** The socket table under a segment *)

(** The connection a segment belongs to: the first with both its addresses and
    ports, else the first that is connecting to its sender from its port. *)
Definition target (src dst : list Z) (g : segment) (l : list tcp_socket) : option (nat * tcp_socket) :=
  match list_find (addressed src (sg_src g) dst (sg_dst g)) l with
  | Some x => Some x
  | None => list_find (connecting src (sg_src g) (sg_dst g)) l
  end.
(** The listener and the free slot with which a segment opens a connection. *)
Definition opens (g : segment) (l : list tcp_socket) : option (nat * tcp_socket * nat) :=
  if flag (sg_flags g) TCP_SYN && negb (flag (sg_flags g) TCP_ACK) then
    match list_find (listening (sg_dst g)) l, list_find unused l with
    | Some (j, lk), Some (i, _) => if zlen (ts_pending lk) <? ts_backlog lk then Some (j, lk, i) else None
    | _, _ => None
    end
  else None.
(** The connection that a SYN for [lk] opens, with a sequence number of its own. *)
Definition newborn (src : list Z) (g : segment) (id iss : Z) (lk : tcp_socket) : tcp_socket :=
  mk_tcp id true TCP_SYN_RECEIVED (ts_local_ip lk) (sg_dst g) src (sg_src g) iss iss (u32 (sg_seq g + 1)) (u32 (sg_seq g + 1)) [] 0 [].
(** The segment goes to its connection; or it opens one in the first free slot and
    queues it at its listener; or it is dropped.  The result is the table and
    the reply, a socket and flags.  [id] is the number of the next socket. *)
Inductive table_step (src dst : list Z) (g : segment) (id : Z) (l : list tcp_socket) : list tcp_socket → option (nat * Z) → Prop :=
  | step_conn i k k' reply :
      target src dst g l = Some (i, k) → seg_step g k k' reply →
      table_step src dst g id l (<[i := k']> l) (if reply then Some (i, TCP_ACK) else None)
  | step_open j lk i iss :
      target src dst g l = None → opens g l = Some (j, lk, i) → is_u32 iss →
      table_step src dst g id l (<[j := ts_set_pending (ts_backlog lk) (ts_pending lk ++ [id]) lk]> (<[i := newborn src g id iss lk]> l))
        (Some (i, Z.lor TCP_SYN TCP_ACK))
  | step_drop : target src dst g l = None → opens g l = None → table_step src dst g id l l None.

Section tcp_input.
Context {D : Type} `{NetDriver D}.
Implicit Types s : net D.

(** The table [l] is stored, and the reply, if any, is sent: by one call of
    [tcp_send_packet], which counts a SYN in the sequence numbers. *)
Definition replied s (l : list tcp_socket) (reply : option (nat * Z)) s' : Prop :=
  ∃ n iss, let s1 := set_tcps (mk_tcps l n iss) s in
    match reply with
    | None => s' = s1
    | Some (i, flags) => ∃ r, tcp_send_packet i flags [] s1 = Some (r, s') ∧ tcp_only s1 s' ∧ sockets s' = alter (advance r flags 0) i l
    end.

Lemma wp_take_id (Q : Z → net D → Prop) s :
  (∀ n, Q (tcp_next_id (tcps s)) (set_tcps (mk_tcps (sockets s) n (tcp_iss (tcps s))) s)) → wp take_id Q s.
Proof. intros HQ. unfold take_id. apply wp_bind, wp_get, wp_bind, wp_put, wp_ret. apply HQ. Qed.
Lemma wp_get_iss (Q : Z → net D → Prop) s :
  (∀ iss, is_u32 iss → Q iss (set_tcps (mk_tcps (sockets s) (tcp_next_id (tcps s)) iss) s)) → wp tcp_get_iss Q s.
Proof.
  intros HQ. unfold tcp_get_iss. apply wp_bind, wp_get, wp_bind, wp_put, wp_ret. apply HQ.
  case_match; [done|apply is_u32_u32].
Qed.
Lemma wf_set_counters s n iss : wf s → is_u32 iss → wf (set_tcps (mk_tcps (sockets s) n iss) s).
Proof. intros W Hi. apply wf_set_tcps; try apply W; done. Qed.
Lemma list_find_lookup (P : tcp_socket → Prop) `{!∀ k, Decision (P k)} l i k : list_find P l = Some (i, k) → l !! i = Some k ∧ P k.
Proof. intros F. by apply list_find_Some in F as (F & HP & _). Qed.
Lemma set_tcps_id s : set_tcps (mk_tcps (sockets s) (tcp_next_id (tcps s)) (tcp_iss (tcps s))) s = s.
Proof. by destruct s as [? ? ? ? ? ? ? ? [] ? ? ? ?]. Qed.

(** Sending the reply. *)
Lemma wp_reply i flags n iss l s (Q : unit → net D → Prop) :
  wf (set_tcps (mk_tcps l n iss) s) → (i < length l)%nat →
  (∀ s', wf s' → tcp_only s s' → replied s l (Some (i, flags)) s' → Q tt s') →
  wp (_ <- tcp_send_packet i flags [] ;; ret tt) Q (set_tcps (mk_tcps l n iss) s).
Proof.
  intros W Hi HQ. apply wp_bind. destruct (tcp_send_packet_ok i flags [] _ W Hi bytes_nil ltac:(done)) as (r & s' & R & W' & T & Et).
  exists r, s'. split; [done|]. apply wp_ret, HQ; [done|etrans; [|done]; by split|]. exists n, iss. cbv zeta. exists r.
  split; [done|]. split; [done|]. unfold sockets at 1. by rewrite Et.
Qed.

Lemma tcp_incoming_ok l lk src dst g s :
  wf s → target src dst g (sockets s) = None → list_find (listening (sg_dst g)) (sockets s) = Some (l, lk) →
  flag (sg_flags g) TCP_SYN && negb (flag (sg_flags g) TCP_ACK) = true →
  array 4 src → is_u16 (sg_src g) → is_u16 (sg_dst g) →
  wp (tcp_incoming l src (sg_src g) (sg_dst g) (sg_seq g))
     (λ _ s', wf s' ∧ tcp_only s s' ∧ ∃ l' reply, table_step src dst g (tcp_next_id (tcps s)) (sockets s) l' reply ∧ replied s l' reply s') s.
Proof.
  intros W HT F HS Hsrc Hsp Hdp. pose proof F as [El HL]%list_find_lookup. unfold tcp_incoming. apply wp_bind, (wp_ld_sock _ lk); [done|].
  assert (∀ n, opens g (sockets s) = None → ∃ l' reply, table_step src dst g (tcp_next_id (tcps s)) (sockets s) l' reply ∧
    replied s l' reply (set_tcps (mk_tcps (sockets s) n (tcp_iss (tcps s))) s)) as HD.
  { intros n Ho. exists (sockets s), None. split; [by apply step_drop|]. by exists n, (tcp_iss (tcps s)). }
  destruct (Z.leb_spec (ts_backlog lk) (zlen (ts_pending lk))).
  { apply wp_ret. split; [done|]. split; [by split|]. specialize (HD (tcp_next_id (tcps s))). rewrite set_tcps_id in HD. apply HD. unfold opens. rewrite HS, F.
    destruct (list_find unused (sockets s)) as [[]|]; [|done]. by rewrite (proj2 (Z.ltb_ge _ _)) by lia. }
  apply wp_bind, wp_take_id. intros n1. apply wp_bind, wp_get. cbn [tcps set_tcps tcp_sockets].
  unfold sockets at 1. cbn [tcps set_tcps tcp_sockets]. destruct (list_find unused (sockets s)) as [[i old]|] eqn:Fu; cycle 1.
  { apply wp_ret. split; [apply wf_set_counters; [done|apply W]|]. split; [by split|]. apply HD. unfold opens. by rewrite HS, F, Fu. }
  pose proof Fu as [Ei Hun]%list_find_lookup. apply wp_bind, wp_get_iss. intros iss Hiss. apply wp_bind, wp_upd_sock.
  pose proof (Forall_lookup_1 _ _ _ _ (w_tcp _ W) El) as WL.
  destruct (Z.ltb_spec (zlen (ts_pending lk)) TCP_BACKLOG_MAX); [|destruct WL; lia]. apply wp_bind, wp_upd_sock.
  set (new := mk_tcp _ _ _ _ _ _ _ _ _ _ _ _ _ _). set (l2 := <[l := ts_set_pending (ts_backlog lk) (ts_pending lk ++ [tcp_next_id (tcps s)]) lk]> (<[i := new]> (sockets s))).
  assert (l ≠ i) as Hne by (intros ->; unfold unused in *; destruct HL as [HL _]; congruence).
  assert (tcp_wf new) as WN.
  { destruct WL. split; simpl; try done; try apply is_u32_u32; try apply bytes_nil. }
  assert (alter (λ k, ts_set_pending (ts_backlog k) (ts_pending k ++ [tcp_next_id (tcps s)]) k) l (alter (λ _, new) i (sockets s)) = l2) as EA.
  { unfold l2. rewrite <- list_insert_alter. apply list_eq. intros j. destruct (decide (l = j)) as [<-|Hj].
    - rewrite list_lookup_alter_eq, list_lookup_insert_ne by done. rewrite El, list_lookup_insert_eq; [done|].
      rewrite length_insert. by eapply lookup_lt_Some.
    - by rewrite list_lookup_alter_ne, (list_lookup_insert_ne _ l) by done. }
  change (wp (_ <- tcp_send_packet i (Z.lor TCP_SYN TCP_ACK) [] ;; ret tt)
    (λ _ s', wf s' ∧ tcp_only s s' ∧ ∃ l' reply, table_step src dst g (tcp_next_id (tcps s)) (sockets s) l' reply ∧ replied s l' reply s')
    (set_tcps (mk_tcps (alter (λ k, ts_set_pending (ts_backlog k) (ts_pending k ++ [tcp_next_id (tcps s)]) k) l (alter (λ _, new) i (sockets s))) n1 iss) s)).
  rewrite EA. apply wp_reply.
  - apply wf_set_tcps; [| |done|done].
    + cbn. unfold l2. rewrite !length_insert. apply W.
    + cbn. unfold l2. apply Forall_insert; [apply Forall_insert; [apply W|done]|]. destruct WL; split; simpl; try done.
      unfold zlen in *. rewrite length_app. simpl. lia.
  - unfold l2. rewrite !length_insert. by eapply lookup_lt_Some.
  - intros s' W' T HR. split; [done|]. split; [done|]. exists l2, (Some (i, Z.lor TCP_SYN TCP_ACK)). split; [|done].
    apply (step_open _ _ _ _ _ l lk i iss); [done| |done]. unfold opens. rewrite HS, F, Fu. by rewrite (proj2 (Z.ltb_lt _ _)) by lia.
Qed.

Record seg_wf (g : segment) : Prop := {
  sw_src : is_u16 (sg_src g); sw_dst : is_u16 (sg_dst g); sw_seq : is_u32 (sg_seq g); sw_payload : bytes (sg_payload g)
}.
Lemma parse_ok data : bytes data → ∃ p, parse_segment data = Some p ∧ ∀ g, p = Some g → seg_wf g.
Proof.
  intros Hb. unfold parse_segment, TCP_HDR_LEN. case_match; [by exists None|].
  destruct (rd16_ok data 12) as (dof & -> & _); [lia..|]. cbn [mbind option_bind]. case_match eqn:E; [by exists None|].
  destruct (rd16_ok data 0) as (src & -> & _); [lia..|]. destruct (rd16_ok data 2) as (dst & -> & _); [lia..|].
  destruct (rd32_ok data 4) as (seq & -> & _); [lia..|]. cbn [mbind option_bind].
  destruct (rd_ok data (Z.shiftr (ntohs dof) 12 * 4) (zlen data - Z.shiftr (ntohs dof) 12 * 4)) as (b & -> & _ & Hbb); [lia..|].
  eexists. split; [done|]. intros g [= <-]. split; simpl; [apply ntohs_bound|apply ntohs_bound|apply ntohl_bound|auto].
Qed.
(** What a segment makes of the state. *)
Definition segment_step src dst (data : list Z) s s' : Prop :=
  match parse_segment data with
  | Some (Some g) => ∃ l reply, table_step src dst g (tcp_next_id (tcps s)) (sockets s) l reply ∧ replied s l reply s'
  | _ => s' = s
  end.

Lemma tcp_conn_ok i src dst g s k :
  wf s → seg_wf g → target src dst g (sockets s) = Some (i, k) → sockets s !! i = Some k →
  wp (let (k', ack) := on_segment k (sg_flags g) (sg_seq g) (sg_payload g) in
      upd_sock i (λ _, k') ;;; if (ack : bool) then _ <- tcp_send_packet i TCP_ACK [] ;; ret tt else ret tt)
     (λ _ s', wf s' ∧ tcp_only s s' ∧ ∃ l reply, table_step src dst g (tcp_next_id (tcps s)) (sockets s) l reply ∧ replied s l reply s') s.
Proof.
  intros W G HT Ek. pose proof (Forall_lookup_1 _ _ _ _ (w_tcp _ W) Ek) as WK.
  pose proof (on_segment_step g k WK (sw_seq _ G)) as ST. pose proof (on_segment_wf k (sg_flags g) _ _ WK (sw_seq _ G) (sw_payload _ G)) as WK'.
  destruct (on_segment k (sg_flags g) (sg_seq g) (sg_payload g)) as [k' ack]. cbn [fst snd] in *.
  apply wp_bind, wp_upd_sock. assert (wf (put_socks (alter (λ _, k') i (sockets s)) s)) as W1 by (apply wf_upd_sock; [done|by intros]).
  unfold put_socks in *. rewrite <- list_insert_alter in *.
  assert (i < length (sockets s))%nat as Hi by (by eapply lookup_lt_Some).
  pose proof (step_conn src dst g (tcp_next_id (tcps s)) (sockets s) i k k' ack HT ST) as TS. destruct ack.
  - apply wp_reply; [done|by rewrite length_insert|]. intros s' W' T HR. split; [done|]. split; [done|]. by eexists _, _.
  - apply wp_ret. split; [done|]. split; [by split|]. eexists _, _. split; [exact TS|]. by exists (tcp_next_id (tcps s)), (tcp_iss (tcps s)).
Qed.

Lemma tcp_handle_ok src dst data s : wf s → array 4 src → bytes data →
  wp (tcp_handle_packet src dst data) (λ _ s', wf s' ∧ tcp_only s s' ∧ segment_step src dst data s s') s.
Proof.
  intros W Hsrc Hb. unfold tcp_handle_packet, segment_step. destruct (parse_ok data Hb) as (p & Ep & HG).
  apply wp_bind, (wp_lift _ _ _ _ Ep). rewrite Ep. destruct p as [g|]; [|apply wp_ret; split; [done|]; by split].
  specialize (HG g eq_refl). apply wp_bind, wp_gets, wp_bind.
  apply (wp_mono _ (λ o s', s' = s ∧ o = fst <$> target src dst g (sockets s))).
  { unfold target. destruct (list_find _ _) as [[i k]|]; [by apply wp_ret|]. by apply wp_gets. }
  intros o s1 [-> ->]. destruct (target src dst g (sockets s)) as [[i k]|] eqn:HT; cbn [fmap option_fmap option_map fst].
  - assert (sockets s !! i = Some k) as Ek.
    { unfold target in HT. destruct (list_find (addressed _ _ _ _) _) as [x|] eqn:F; [injection HT as ->; by apply list_find_lookup in F as []|].
      by apply list_find_lookup in HT as []. }
    apply wp_bind, (wp_ld_sock _ k); [done|]. by apply tcp_conn_ok.
  - apply wp_bind. unfold tcp_find_listener. apply wp_gets.
    assert (opens g (sockets s) = None → wf s ∧ tcp_only s s ∧ ∃ l reply, table_step src dst g (tcp_next_id (tcps s)) (sockets s) l reply ∧ replied s l reply s) as HD.
    { intros Ho. split; [done|]. split; [by split|]. exists (sockets s), None. split; [by apply step_drop|].
      exists (tcp_next_id (tcps s)), (tcp_iss (tcps s)). cbv zeta. by rewrite set_tcps_id. }
    destruct (list_find (listening (sg_dst g)) (sockets s)) as [[l lk]|] eqn:F; cbn [fmap option_fmap option_map fst].
    + destruct (flag (sg_flags g) TCP_SYN && negb (flag (sg_flags g) TCP_ACK)) eqn:ES.
      * by apply (tcp_incoming_ok _ lk); try apply HG.
      * apply wp_ret, HD. unfold opens. by rewrite ES.
    + apply wp_ret, HD. unfold opens. rewrite F. by destruct (_ && _).
Qed.
End tcp_input.

(** ** Sockets stay *)
(** Sockets in use stay in use under their id. *)
Definition lasting (l l' : list tcp_socket) : Prop :=
  length l' = length l ∧
  ∀ i k, l !! i = Some k → ts_in_use k = true → ∃ k', l' !! i = Some k' ∧ ts_in_use k' = true ∧ ts_id k' = ts_id k.
#[export] Instance lasting_preorder : PreOrder lasting.
Proof.
  split; [intros l; split; [done|eauto]|]. intros a b c [L1 H1] [L2 H2]. split; [congruence|]. intros i k Hk Hu.
  destruct (H1 i k Hk Hu) as (k1 & E1 & U1 & I1). destruct (H2 i k1 E1 U1) as (k2 & E2 & U2 & I2). exists k2. split; [done|]. split; [done|congruence].
Qed.
Lemma lasting_insert l i k k' : l !! i = Some k → (ts_in_use k = true → ts_in_use k' = true ∧ ts_id k' = ts_id k) →
  lasting l (<[i := k']> l).
Proof.
  intros Hk Hu. split; [apply length_insert|]. intros j x Hj Ux. destruct (decide (i = j)) as [<-|Hne].
  - rewrite list_lookup_insert_eq by (by eapply lookup_lt_Some). rewrite Hk in Hj. injection Hj as ->. exists k'. by destruct (Hu Ux).
  - rewrite list_lookup_insert_ne by done. eauto.
Qed.
Lemma lasting_alter l i g : (∀ k, ts_in_use k = true → ts_in_use (g k) = true ∧ ts_id (g k) = ts_id k) → lasting l (alter g i l).
Proof.
  intros Hg. split; [apply length_alter|]. intros j x Hj Ux. destruct (decide (i = j)) as [<-|Hne].
  - rewrite list_lookup_alter_eq, Hj. simpl. exists (g x). by destruct (Hg x Ux).
  - rewrite list_lookup_alter_ne by done. eauto.
Qed.
Lemma advance_lasting r flags n k : ts_in_use k = true → ts_in_use (advance r flags n k) = true ∧ ts_id (advance r flags n k) = ts_id k.
Proof. unfold advance. by repeat case_match. Qed.
Lemma target_lookup src dst g l i k : target src dst g l = Some (i, k) → l !! i = Some k.
Proof.
  unfold target. destruct (list_find (addressed _ _ _ _) _) as [x|] eqn:F; [intros [= ->]; by apply list_find_lookup in F as []|].
  intros HT. by apply list_find_lookup in HT as [].
Qed.
Lemma opens_lookup g l j lk i : opens g l = Some (j, lk, i) → l !! j = Some lk ∧ ts_in_use lk = true ∧ ∃ old, l !! i = Some old ∧ ts_in_use old = false.
Proof.
  unfold opens. destruct (_ && _); [|done]. destruct (list_find (listening _) _) as [[j' lk']|] eqn:F; [|done].
  destruct (list_find unused _) as [[i' old]|] eqn:Fu; [|done]. destruct (_ <? _); [|done]. intros [= -> -> ->].
  apply list_find_lookup in F as [? [? _]]. apply list_find_lookup in Fu as []. eauto.
Qed.
Lemma table_step_lasting src dst g id l l' reply : table_step src dst g id l l' reply → lasting l l'.
Proof.
  intros [i k k' b HT ST|j lk i iss _ HO _|]; [| |done].
  - destruct ST as (a & r & _ & E & _). unfold endpoint in E. simplify_eq. apply (lasting_insert _ _ k); [by eapply target_lookup|]. intros; split; congruence.
  - destruct (opens_lookup _ _ _ _ _ HO) as (Hj & HL & old & Hi & Hun).
    assert (i ≠ j) as Hne by (intros ->; congruence).
    etrans; [apply (lasting_insert _ i old); [done|]|]; [intros U; congruence|].
    apply (lasting_insert _ j lk); [by rewrite list_lookup_insert_ne|done].
Qed.
Lemma segment_step_lasting {D} `{NetDriver D} src dst data (s s' : net D) : segment_step src dst data s s' → lasting (sockets s) (sockets s').
Proof.
  unfold segment_step. destruct (parse_segment data) as [[g|]|]; [|by intros ->..]. intros (l & reply & TS & n & iss & HR). cbv zeta in HR.
  apply table_step_lasting in TS. destruct reply as [[i fl]|]; [|by subst]. destruct HR as (r & _ & _ & ->).
  etrans; [done|]. apply lasting_alter, advance_lasting.
Qed.
