(* ===== verification/NetRecv.v ===== *)
(** * One turn of [net_poll], whatever the drivers deliver. *)
From S2P Require Import Prelude Bytes NetBase NetLib Inet Tcp Ipv6 NetPoll NetInv NetSafe.
Local Open Scope Z_scope.
Local Open Scope kernel_scope.

(** No interface of ipv6.c is in use with a device, as without Ethernet devices;
    [Ipv6Thms] shows what happens otherwise. *)
Definition quiet {D} (s : net D) : Prop := Forall (λ i, ¬ active i) (ipv6_ifaces (v6 s)).
Lemma quiet_kept {D} (s s' : net D) : kept s s' → quiet s → quiet s'.
Proof. unfold quiet. intros []. congruence. Qed.

Section recv.
Context {D : Type} `{NetDriver D} `{!NetDriverLaws D} (stack : nat).
Implicit Types s : net D.

(** The state after the handling of a packet. *)
Definition handled s : ∀ {A}, A → net D → Prop := λ _ _ s', wf s' ∧ kept s s' ∧ lasting (sockets s) (sockets s').
Lemma handled_refl {A} (a : A) s : wf s → handled s a s.
Proof. intros. split; [done|]. by split. Qed.
Lemma handled_trans {A B} (a : A) (b : B) s1 s2 s3 : handled s1 a s2 → handled s2 b s3 → handled s1 b s3.
Proof. intros (_ & K1 & L1) (W & K2 & L2). split; [done|]. split; by etrans. Qed.
Lemma handled_nmem {A} (a : A) l s : wf s → (nmem s = [] → l = []) → handled s a (set_nmem l s).
Proof. split; [auto with net|]. split; [by apply kept_nmem|done]. Qed.
Lemma sending_handled {A} (a : A) s s' : sending s a s' → handled s a s'.
Proof. intros [W S]. split; [done|]. split; [apply S|]. unfold sockets. by rewrite (s_tcps _ _ S). Qed.

Lemma arp_handle_ok data s : wf s → bytes data → wp (arp_handle_packet data) (handled s) s.
Proof.
  intros W Hb. unfold arp_handle_packet, ARP_HDR_LEN. pose proof (handled_refl tt s W) as HS.
  case_match eqn:E0; [by apply wp_ret|].
  destruct (rd16_ok data 0) as (ht & Eht & _); [lia..|]. apply wp_bind, (wp_lift _ _ _ _ Eht). case_match; [by apply wp_ret|].
  destruct (rd16_ok data 2) as (pt & Ept & _); [lia..|]. apply wp_bind, (wp_lift _ _ _ _ Ept). case_match; [by apply wp_ret|].
  destruct (rd8_ok data 4) as (hl & Ehl & _); [lia..|]. apply wp_bind, (wp_lift _ _ _ _ Ehl).
  destruct (rd8_ok data 5) as (pl & Epl & _); [lia..|]. apply wp_bind, (wp_lift _ _ _ _ Epl). case_match; [by apply wp_ret|].
  destruct (rd16_ok data 6) as (op & Eop & _); [lia..|]. apply wp_bind, (wp_lift _ _ _ _ Eop).
  destruct (rd_ok data 8 6) as (sha & Esha & Lsha & Bsha); [lia..|]. apply wp_bind, (wp_lift _ _ _ _ Esha).
  destruct (rd_ok data 14 4) as (spa & Espa & Lspa & Bspa); [lia..|]. apply wp_bind, (wp_lift _ _ _ _ Espa).
  assert (array 6 sha) by (split; [unfold zlen in *; lia|auto]). assert (array 4 spa) by (split; [unfold zlen in *; lia|auto]).
  case_match.
  - destruct (rd_ok data 24 4) as (tpa & Etpa & Ltpa & Btpa); [lia..|]. apply wp_bind, (wp_lift _ _ _ _ Etpa), wp_bind, wp_gets.
    destruct (net_if_find_by_ip tpa (net_ifs s)) as [i|] eqn:Ei; [|by apply wp_ret]. pose proof (wf_find_ip _ _ _ W Ei) as [HI HM HD].
    case_match; [by apply wp_ret|]. apply wp_bind. eapply wp_mono; [apply netdev_send_ok; [done|intros _; apply HD; lia|]|].
    + unfold eth_hdr, arp_hdr, ARP_REPLY. eauto 20 with bytes.
    + intros r s' HS'. apply wp_ret. by apply sending_handled.
  - case_match; [|by apply wp_ret]. eapply wp_mono; [by apply arp_cache_add_ok|]. intros. by apply sending_handled.
Qed.

(** ** IPv6 without an active interface *)
Lemma ipv6_send_quiet fuel dst nh data len s : (0 < fuel)%nat → quiet s → ipv6_send fuel dst nh data len s = Some (-1, s).
Proof.
  intros Hf HQ. destruct fuel as [|fuel]; [lia|]. cbn [ipv6_send]. unfold bind, get.
  destruct (list_find active (ipv6_ifaces (v6 s))) as [[i a]|] eqn:F; [|done].
  apply list_find_Some in F as (F & Ha & _). by destruct (Forall_lookup_1 _ _ _ _ HQ F).
Qed.
Lemma ipv6_neighbor_add_ok ip mac s : wf s → array 16 ip → array 6 mac → wp (ipv6_neighbor_add ip mac) (handled s) s.
Proof.
  intros W Hip Hm. unfold ipv6_neighbor_add. apply wp_bind, wp_get, wp_bind.
  destruct (lookup_lt_is_Some_2 (ipv6_neighbor_cache (v6 s)) 0) as [e0 E0]; [rewrite (w_nblen _ W); lia|].
  apply (wp_lift _ _ _ _ E0). apply wp_put. split; [|split; [by split|done]].
  apply wf_set_neighbors; [by rewrite length_insert; apply W| |done]. apply Forall_insert; [apply W|]. by split.
Qed.
Lemma sum_be_u32 n bs v : (length bs ≤ n)%nat → 0 ≤ v < 2 ^ 32 → 0 ≤ sum_be v bs < 2 ^ 32.
Proof.
  revert bs v. induction n as [|n IH]; intros [|a [|b bs]] v Hn Hv; cbn [sum_be length] in *; try lia.
  - apply Z.mod_pos_bound. lia.
  - apply IH; [lia|]. apply Z.mod_pos_bound. lia.
Qed.
Lemma icmpv6_checksum_ok src dst reply : ∃ c, icmpv6_checksum src dst reply = Some c.
Proof.
  unfold icmpv6_checksum. match goal with |- context [finish_sum ?v] => destruct (finish_sum_spec v) as (r & E & _) end; [|by eexists].
  eapply sum_be_u32; [done|]. apply Z.mod_pos_bound. lia.
Qed.
Lemma icmpv6_echo_ok src dst payload s : (0 < stack)%nat → wf s → quiet s → wp (icmpv6_echo stack src dst payload) (handled s) s.
Proof.
  intros Hf W HQ. unfold icmpv6_echo. apply wp_bind, wp_nalloc. intros b l Hl.
  assert (handled s tt (set_nmem l s)) by (apply handled_nmem; [done|naive_solver]).
  destruct b; simpl negb; cbv iota; [|by apply wp_ret]. apply wp_bind.
  destruct (icmpv6_checksum_ok src dst ([ICMPV6_ECHO_REPLY] ++ take 1 (drop 1 payload) ++ [0; 0] ++ drop 4 payload)) as (c & E).
  apply (wp_lift _ _ _ _ E), wp_bind. eexists _, _. split; [apply ipv6_send_quiet; [done|done]|]. by apply wp_ret.
Qed.
Lemma icmpv6_solicited_ok src payload s : (0 < stack)%nat → wf s → quiet s → array 16 src → bytes payload →
  wp (icmpv6_solicited stack src payload) (handled s) s.
Proof.
  intros Hf W HQ Hs Hb. unfold icmpv6_solicited, NDP_LEN. case_match; [by apply wp_ret, handled_refl|].
  destruct (rd_ok payload 4 16) as (target & Et & _); [lia..|]. apply wp_bind, (wp_lift _ _ _ _ Et), wp_bind, wp_get.
  destruct (list_find _ _) as [[j i]|] eqn:F; [|by apply wp_ret, handled_refl].
  apply wp_bind. apply (wp_mono _ (λ _ s', handled s tt s')).
  - case_match; [|by apply wp_ret, handled_refl].
    destruct (rd8_ok payload 20) as (kind & Ek & _); [lia..|]. apply wp_bind, (wp_lift _ _ _ _ Ek).
    destruct (rd_ok payload (20 + 2) 6) as (mac & Em & Lm & Bm); [lia..|]. apply wp_bind, (wp_lift _ _ _ _ Em).
    case_match; [|by apply wp_ret, handled_refl]. eapply wp_mono; [apply ipv6_neighbor_add_ok; [done|done|]|done].
    split; [unfold zlen in *; lia|auto].
  - intros [] s1 H1. apply wp_bind, wp_nalloc. intros b l Hl.
    assert (handled s tt (set_nmem l s1)) as (W2 & K2 & L2).
    { eapply handled_trans; [done|]. apply (handled_nmem tt); [apply H1|naive_solver]. }
    destruct b; simpl negb; cbv iota; [|by apply wp_ret]. apply wp_bind. eexists _, _.
    split; [apply ipv6_send_quiet; [done|by apply (quiet_kept s)]|]. by apply wp_ret.
Qed.
Lemma icmpv6_advertised_ok payload s : wf s → bytes payload → wp (icmpv6_advertised payload) (handled s) s.
Proof.
  intros W Hb. unfold icmpv6_advertised, NDP_LEN. case_match; [by apply wp_ret, handled_refl|].
  case_match; [by apply wp_ret, handled_refl|].
  destruct (rd8_ok payload 20) as (kind & Ek & _); [lia..|]. apply wp_bind, (wp_lift _ _ _ _ Ek).
  case_match; [|by apply wp_ret, handled_refl].
  destruct (rd_ok payload 4 16) as (addr & Ea & La & Ba); [lia..|]. apply wp_bind, (wp_lift _ _ _ _ Ea).
  destruct (rd_ok payload (20 + 2) 6) as (mac & Em & Lm & Bm); [lia..|]. apply wp_bind, (wp_lift _ _ _ _ Em).
  apply ipv6_neighbor_add_ok; [done|split; [unfold zlen in *; lia|auto]..].
Qed.
Lemma ipv6_handle_ok data s : (0 < stack)%nat → wf s → quiet s → bytes data → wp (ipv6_handle_packet stack data) (handled s) s.
Proof.
  intros Hf W HQ Hb. unfold ipv6_handle_packet, IPV6_HDR_LEN. pose proof (handled_refl tt s W).
  case_match eqn:E0; [by apply wp_ret|]. destruct (rd16_ok data 4) as (pl & Epl & _); [lia..|].
  apply wp_bind, (wp_lift _ _ _ _ Epl). pose proof (ntohs_bound pl). case_match eqn:E1; [by apply wp_ret|].
  destruct (rd8_ok data 6) as (nh & Enh & _); [lia..|]. apply wp_bind, (wp_lift _ _ _ _ Enh).
  destruct (rd_ok data 8 16) as (src & Es & Ls & Bs); [lia..|]. apply wp_bind, (wp_lift _ _ _ _ Es).
  destruct (rd_ok data 24 16) as (dst & Ed & _); [lia..|]. apply wp_bind, (wp_lift _ _ _ _ Ed), wp_bind, wp_get.
  case_match; [by apply wp_ret|]. case_match; [by apply wp_ret|]. case_match eqn:E4; [by apply wp_ret|].
  assert (ntohs pl ≤ zlen data - 40).
  { unfold u16 in E1. pose proof (Z.mod_le (zlen data - 40) (2 ^ 16)). lia. }
  destruct (rd_ok data 40 (ntohs pl)) as (payload & Ep & Lp & Bp); [lia..|]. apply wp_bind, (wp_lift _ _ _ _ Ep).
  destruct (rd8_ok payload 0) as (ty & Ety & _); [lia..|]. apply wp_bind, (wp_lift _ _ _ _ Ety).
  assert (array 16 src) by (split; [unfold zlen in *; lia|auto]).
  case_match; [by apply icmpv6_echo_ok|]. case_match; [apply icmpv6_solicited_ok; auto|].
  case_match; [apply icmpv6_advertised_ok; auto|by apply wp_ret].
Qed.

(** ** IPv4 *)
Lemma ip_handle_ok data s : wf s → bytes data → wp (ip_handle_packet data) (handled s) s.
Proof.
  intros W Hb. unfold ip_handle_packet, IP_HDR_LEN. pose proof (handled_refl tt s W).
  case_match eqn:E0; [by apply wp_ret|]. destruct (rd8_ok data 0) as (v & Ev & _); [lia..|].
  apply wp_bind, (wp_lift _ _ _ _ Ev). set (ihl := Z.land v 0x0F * 4).
  assert (0 ≤ ihl ≤ 60) as Hi by (unfold ihl; change 0x0F with (Z.ones 4); rewrite Z.land_ones by lia; pose proof (Z.mod_pos_bound v (2 ^ 4)); lia).
  clearbody ihl. case_match eqn:E1; [by apply wp_ret|]. destruct (rd16_ok data 2) as (tl & Etl & _); [lia..|].
  apply wp_bind, (wp_lift _ _ _ _ Etl). pose proof (ntohs_bound tl). unfold u16. rewrite (Z.mod_small ihl) by lia.
  case_match eqn:E2; [by apply wp_ret|]. assert (ihl ≤ ntohs tl ≤ zlen data) by (pose proof (Z.mod_le (zlen data) (2 ^ 16)); lia).
  destruct (rd_ok data 0 ihl) as (hd & Ehd & _); [lia..|]. apply wp_bind, (wp_lift _ _ _ _ Ehd).
  destruct (checksum_ok hd) as (c & Ec & _). apply wp_bind, (wp_lift _ _ _ _ Ec). case_match; [by apply wp_ret|].
  destruct (rd_ok data 12 4) as (src & Es & Ls & Bs); [lia..|]. apply wp_bind, (wp_lift _ _ _ _ Es).
  destruct (rd_ok data 16 4) as (dst & Ed & _); [lia..|]. apply wp_bind, (wp_lift _ _ _ _ Ed), wp_bind, wp_gets.
  case_match; [by apply wp_ret|].
  destruct (rd_ok data ihl (ntohs tl - ihl)) as (payload & Ep & Lp & Bp); [lia..|]. apply wp_bind, (wp_lift _ _ _ _ Ep).
  destruct (rd8_ok data 9) as (pr & Epr & _); [lia..|]. apply wp_bind, (wp_lift _ _ _ _ Epr).
  assert (array 4 src) by (split; [unfold zlen in *; lia|auto]). unfold ip_deliver.
  case_match; [eapply wp_mono; [apply icmp_ok; auto; lia|]; intros; by apply sending_handled|].
  case_match; [eapply wp_mono; [apply udp_handle_ok; auto|]; intros ? ? (? & ? & E & _); split; [done|]; split; [done|]; unfold sockets; by rewrite E|].
  case_match; [|by apply wp_ret]. eapply wp_mono; [apply tcp_handle_ok; auto|].
  intros ? ? (? & [] & ST). split; [done|]. split; [done|]. by eapply segment_step_lasting.
Qed.

(** ** Frames *)
Lemma process_ok data s : (0 < stack)%nat → wf s → quiet s → bytes data → wp (process_eth_frame stack data) (handled s) s.
Proof.
  intros Hf W HQ Hb. unfold process_eth_frame, ETH_HDR_LEN. pose proof (handled_refl tt s W).
  case_match eqn:E0; [by apply wp_ret|]. destruct (rd16_ok data 12) as (et & Eet & _); [lia..|].
  apply wp_bind, (wp_lift _ _ _ _ Eet). destruct (rd_ok data 14 (zlen data - 14)) as (p & Ep & Lp & Bp); [lia..|].
  apply wp_bind, (wp_lift _ _ _ _ Ep). case_match; [apply arp_handle_ok; auto|].
  case_match; [apply ip_handle_ok; auto|]. case_match; [apply ipv6_handle_ok; auto|by apply wp_ret].
Qed.
Lemma eth_recv_ok a m s : wf s → (a ≠ 0 → is_Some (net_devs s !! a)) → 0 < m →
  wp (eth_recv a m) (λ r s', bytes r.2 ∧ (0 < r.1 → zlen r.2 = r.1) ∧ handled s tt s') s.
Proof.
  intros W Ha Hm. unfold eth_recv, netdev_recv. pose proof (handled_refl tt s W). pose proof bytes_nil.
  case_match; [apply wp_ret; simpl; split; [done|]; split; [lia|done]|].
  case_match; [apply wp_ret; simpl; split; [done|]; split; [lia|done]|]. apply wp_bind, wp_get, wp_bind.
  destruct Ha as [d Ed]; [lia|]. apply (wp_lift _ _ _ _ Ed). destruct (nd_driver d) as [[]|].
  - case_match; [lia|]. unfold loopback_recv. apply wp_bind, wp_gets. case_match; [apply wp_ret; simpl; split; [done|]; split; [lia|done]|].
    apply wp_bind, wp_modify, wp_ret. simpl. pose proof (w_lo _ W). split; [auto with bytes|].
    split; [intros; apply zlen_take; case_match; lia|]. split; [by apply wf_set_lo|]. by split.
  - case_match; [lia|]. pose proof (drv_recv_len a m (hw s) Hm) as HL. destruct (drv_recv a m (hw s)) as [[n b] h].
    destruct HL as (L1 & L2 & L3). apply wp_bind, wp_put, wp_ret. simpl. split; [done|]. split; [done|]. split; [auto with net|]. by split.
  - apply wp_ret. simpl. split; [done|]. split; [lia|done].
Qed.
Lemma poll_if_ok j s : (0 < stack)%nat → wf s → quiet s → (j < length (net_ifs s))%nat → wp (poll_if stack j) (handled s) s.
Proof.
  intros Hf W HQ Hj. unfold poll_if. apply wp_bind, wp_gets, wp_bind. destruct (lookup_lt_is_Some_2 _ _ Hj) as [i Ei].
  apply (wp_lift _ _ _ _ Ei). pose proof (handled_refl tt s W). case_match; [by apply wp_ret|]. case_match; [by apply wp_ret|].
  pose proof (Forall_lookup_1 _ _ _ _ (w_ifs _ W) Ei) as [_ _ HD].
  apply wp_bind. eapply wp_mono; [apply eth_recv_ok; [done|done|done]|]. intros [len buf] s1 (Hb & Hl & W1 & K1 & L1). simpl in Hb, Hl.
  case_match; [|by apply wp_ret]. apply wp_bind. apply (wp_lift _ buf); [rewrite <- Hl by lia; apply slice_all|].
  eapply wp_mono; [apply process_ok; [done|done|by apply (quiet_kept s)|done]|]. intros r s2 (W2 & K2 & L2). split; [done|]. split; by etrans.
Qed.
Lemma net_poll_ok s : (0 < stack)%nat → wf s → quiet s → wp (net_poll stack) (handled s) s.
Proof.
  intros Hf W HQ. unfold net_poll. apply wp_bind, wp_gets.
  apply (wp_for_each _ _ (λ s', handled s tt s')); [by apply handled_refl|]. intros j s1 Hj (W1 & K1 & L1).
  apply elem_of_seq in Hj. eapply wp_mono; [apply poll_if_ok; [done|done|by apply (quiet_kept s)|]|].
  - rewrite (k_ifs _ _ K1). lia.
  - intros r s2 (W2 & K2 & L2). split; [done|]. split; by etrans.
Qed.
End recv.
