(* ===== verification/TcpThms.v ===== *)
(** * The socket calls: types are kept, sockets are never given back. *)
From S2P Require Import Prelude Bytes NetBase NetLib Inet Tcp Ipv6 NetPoll NetInv NetSafe NetRecv.
Local Open Scope Z_scope.
Local Open Scope kernel_scope.

Section calls.
Context {D : Type} `{NetDriver D} `{!NetDriverLaws D} (stack : nat).
Implicit Types s : net D.

(** The state after a socket call. *)
Definition called s : ∀ {A}, A → net D → Prop := λ _ _ s', wf s' ∧ tcp_only s s' ∧ lasting (sockets s) (sockets s').
Lemma called_refl {A} (a : A) s : wf s → called s a s.
Proof. intros. split; [done|]. by split. Qed.
Lemma called_trans {A B} (a : A) (b : B) s1 s2 s3 : called s1 a s2 → called s2 b s3 → called s1 b s3.
Proof. intros (_ & T1 & L1) (W & T2 & L2). split; [done|]. split; by etrans. Qed.

Lemma wp_find_socket sock (Q : option nat → net D → Prop) s :
  Q None s → (∀ i k, sockets s !! i = Some k → has_id sock k → Q (Some i) s) → wp (tcp_find_socket sock) Q s.
Proof.
  intros HN HS. apply wp_gets. destruct (list_find _ _) as [[i k]|] eqn:F; [|done].
  apply list_find_lookup in F as []. by apply (HS i k).
Qed.
(** A step on one socket. *)
Lemma called_upd i g s : wf s → (∀ k, tcp_wf k → tcp_wf (g k)) →
  (∀ k, ts_in_use k = true → ts_in_use (g k) = true ∧ ts_id (g k) = ts_id k) → called s tt (put_socks (alter g i (sockets s)) s).
Proof. intros W Hg Hu. split; [apply wf_upd_sock; auto|]. split; [by split|by apply lasting_alter]. Qed.
Lemma called_send i flags data s : wf s → (i < length (sockets s))%nat → bytes data → zlen data ≤ TCP_MAX_SEGMENT →
  wp (tcp_send_packet i flags data) (called s) s.
Proof.
  intros. eapply wp_mono; [by apply tcp_send_packet_ok|]. intros r s' (W' & T & Et). split; [done|]. split; [done|].
  unfold sockets at 2. rewrite Et. apply lasting_alter, advance_lasting.
Qed.
Lemma wf_state st k : tcp_wf k → tcp_wf (ts_set_state st k).
Proof. intros []. by split. Qed.

Lemma tcp_wf_new id : tcp_wf (mk_tcp id true TCP_CLOSED no_ip 0 no_ip 0 0 0 0 0 [] 0 []).
Proof. split; simpl; decided. Qed.
Lemma tcp_create_ok s : wf s →
  wp tcp_socket_create (λ r s', called s r s' ∧ (Forall (λ k, ts_in_use k = true) (sockets s) → r = -1 ∧ s' = s)) s.
Proof.
  intros W. unfold tcp_socket_create. apply wp_bind, wp_get. destruct (list_find unused (sockets s)) as [[i k]|] eqn:F; cycle 1.
  { apply wp_ret. split; [by apply called_refl|done]. }
  apply list_find_lookup in F as [Ek Hu]. apply wp_bind, wp_take_id. intros n. apply wp_bind, wp_upd_sock, wp_ret.
  split; [|intros HF; pose proof (Forall_lookup_1 _ _ _ _ HF Ek); unfold unused in Hu; simpl in *; congruence].
  split; [|split; [by split|]].
  - apply wf_upd_sock; [apply wf_set_counters; [done|apply W]|]. intros k0 _ _.
    apply tcp_wf_new.
  - unfold sockets. simpl. rewrite <- list_insert_alter. apply (lasting_insert _ _ k); [done|]. unfold unused in Hu. congruence.
Qed.
Lemma find_up_wf l devs (f : net_if) j : Forall (if_wf devs) l → list_find is_up l = Some (j, f) → if_wf devs f.
Proof. intros HF E. apply list_find_Some in E as (E & _). apply (Forall_lookup_1 _ _ _ _ HF E). Qed.
Lemma tcp_bind_ok sock port s : wf s → is_u16 port → wp (tcp_bind sock port) (called s) s.
Proof.
  intros W Hp. unfold tcp_bind. apply wp_bind, wp_find_socket; [by apply wp_ret, called_refl|]. intros i k Ek _.
  apply wp_bind, wp_gets, wp_bind, wp_upd_sock, wp_ret. apply called_upd; [done| |done].
  intros k0 []. split; simpl; try done. destruct (list_find is_up (net_ifs s)) as [[j f]|] eqn:F; [|done].
  by apply (iw_ip (net_devs s)), (find_up_wf (net_ifs s) _ _ j), F; apply W.
Qed.
Lemma tcp_connect_ok sock ip port s : wf s → array 4 ip → is_u16 port → wp (tcp_connect sock ip port) (called s) s.
Proof.
  intros W Hip Hp. unfold tcp_connect. apply wp_bind, wp_find_socket; [by apply wp_ret, called_refl|]. intros i k Ek _.
  apply wp_bind, (wp_ld_sock _ k); [done|]. case_decide; [by apply wp_ret, called_refl|]. apply wp_bind, wp_gets.
  assert (∀ f, (match net_if_find_by_ip ip (net_ifs s) with Some f => Some f | None => snd <$> list_find is_up (net_ifs s) end) = Some f →
    array 4 (if_ip f)) as Hf.
  { intros f E. destruct (net_if_find_by_ip ip (net_ifs s)) as [f'|] eqn:E2; [injection E as ->; by destruct (wf_find_ip _ _ _ W E2)|].
    destruct (list_find is_up (net_ifs s)) as [[j f']|] eqn:F; [|done]. injection E as ->.
    by apply (iw_ip (net_devs s)), (find_up_wf (net_ifs s) _ _ j), F; apply W. }
  destruct (match net_if_find_by_ip ip (net_ifs s) with Some f => Some f | None => _ end) as [f|]; [|by apply wp_ret, called_refl].
  specialize (Hf f eq_refl). apply wp_bind, wp_get_iss. intros iss Hi. apply wp_bind, wp_upd_sock. set (t1 := put_socks _ _).
  assert (called s tt t1) as C1.
  { apply (called_trans tt tt _ (set_tcps (mk_tcps (sockets s) (tcp_next_id (tcps s)) iss) s)).
    - split; [by apply wf_set_counters|]. split; [by split|done].
    - apply called_upd; [by apply wf_set_counters| |done]. intros k0 []. split; simpl; try done. case_match; [apply is_u16_u16|done]. }
  apply wp_bind. eapply wp_mono; [apply (called_send i); [apply C1| |apply bytes_nil|done]|].
  - destruct C1 as (_ & _ & [-> _]). by eapply lookup_lt_Some.
  - intros r s' C2. apply wp_ret. by eapply called_trans.
Qed.
Lemma tcp_send_ok sock data len s : wf s → bytes data → len ≤ zlen data → wp (tcp_send sock data len) (called s) s.
Proof.
  intros W Hb Hl. unfold tcp_send. apply wp_bind, wp_find_socket; [by apply wp_ret, called_refl|]. intros i k Ek _.
  apply wp_bind, (wp_ld_sock _ k); [done|]. case_decide; [by apply wp_ret, called_refl|]. case_match; [by apply wp_ret, called_refl|].
  set (n := if TCP_MAX_SEGMENT <? len then _ else _). assert (0 ≤ n ≤ len ∧ n ≤ TCP_MAX_SEGMENT) by (unfold n, TCP_MAX_SEGMENT; case_match; lia).
  destruct (rd_ok data 0 n) as (b & Eb & Lb & Bb); [lia..|]. apply wp_bind, (wp_lift _ _ _ _ Eb), wp_bind.
  eapply wp_mono; [apply called_send; [done|by eapply lookup_lt_Some|auto|lia]|]. intros r s' C. by apply wp_ret.
Qed.
Lemma tcp_recv_ok sock n s : wf s → 0 ≤ n → wp (tcp_recv sock n) (λ r s', called s r s' ∧ bytes r.2 ∧ zlen r.2 ≤ n ∧ (r.1 = zlen r.2 ∨ r.1 = -1)) s.
Proof.
  intros W Hn. unfold tcp_recv. pose proof bytes_nil.
  apply wp_bind, wp_find_socket; [apply wp_ret; split; [by apply called_refl|]; simpl; split; [done|rewrite zlen_nil; lia]|]. intros i k Ek _.
  apply wp_bind, (wp_ld_sock _ k); [done|]. case_match; [apply wp_ret; split; [by apply called_refl|]; simpl; split; [done|]; rewrite zlen_nil; lia|].
  pose proof (Forall_lookup_1 _ _ _ _ (w_tcp _ W) Ek) as WK. set (m := if n <? zlen (ts_rx k) then _ else _).
  assert (0 ≤ m ≤ zlen (ts_rx k) ∧ m ≤ n) by (unfold m; case_match; lia).
  destruct (rd_ok (ts_rx k) 0 m) as (b & Eb & Lb & Bb); [lia..|]. apply wp_bind, (wp_lift _ _ _ _ Eb), wp_bind, wp_upd_sock, wp_ret.
  simpl. split; [|split; [apply Bb, WK|split; [lia|by left]]]. split; [|split; [by split|by apply lasting_alter]].
  apply wf_upd_sock; [done|]. intros k0 Ek0 _. rewrite Ek in Ek0. injection Ek0 as <-. destruct WK. split; simpl; auto with bytes.
  unfold zlen in *. rewrite length_drop. lia.
Qed.
(** A negative length: nothing happens, or the copy has no end. *)
Lemma tcp_recv_negative sock n s : wf s → n < 0 → wlp (tcp_recv sock n) (called s) s.
Proof.
  intros W Hn. unfold tcp_recv. apply wlp_bind, wp_wlp, wp_find_socket; [by apply wp_wlp, wp_ret, called_refl|]. intros i k Ek _.
  apply wlp_bind, wp_wlp, (wp_ld_sock _ k); [done|]. case_match; [by apply wp_wlp, wp_ret, called_refl|].
  rewrite (proj2 (Z.ltb_lt n _)) by lia. apply wlp_bind. assert (slice (ts_rx k) 0 n = None) as ->; [|apply wlp_None].
  destruct (slice (ts_rx k) 0 n) eqn:E; [|done]. apply slice_inv in E. lia.
Qed.
Lemma send_fin_ok i st s : wf s → (i < length (sockets s))%nat → wp (send_fin i st) (called s) s.
Proof.
  intros W Hi. unfold send_fin. apply wp_bind, wp_upd_sock. pose proof (called_upd i (ts_set_state st) s W (wf_state st)) as C1.
  apply wp_bind. eapply wp_mono; [apply (called_send i); [by apply C1|unfold sockets; simpl; by rewrite length_alter|apply bytes_nil|done]|].
  intros r s' C. apply wp_ret. eapply called_trans; [by apply C1|done].
Qed.
Lemma tcp_close_ok sock s : wf s → wp (tcp_close sock) (called s) s.
Proof.
  intros W. unfold tcp_close. apply wp_bind, wp_find_socket; [by apply wp_ret, called_refl|]. intros i k Ek _.
  apply wp_bind, (wp_ld_sock _ k); [done|]. assert (i < length (sockets s))%nat by (by eapply lookup_lt_Some).
  destruct (ts_state k); try (by apply wp_ret, called_refl); by apply send_fin_ok.
Qed.
Lemma tcp_shutdown_ok sock how s : wf s → wp (tcp_shutdown sock how) (called s) s.
Proof.
  intros W. unfold tcp_shutdown. apply wp_bind, wp_find_socket; [by apply wp_ret, called_refl|]. intros i k Ek _.
  apply wp_bind, (wp_ld_sock _ k); [done|]. assert (i < length (sockets s))%nat by (by eapply lookup_lt_Some).
  destruct (ts_state k); try (by apply wp_ret, called_refl); by apply send_fin_ok.
Qed.
Lemma tcp_listen_ok sock backlog s : wf s → wp (tcp_listen sock backlog) (called s) s.
Proof.
  intros W. unfold tcp_listen. apply wp_bind, wp_find_socket; [by apply wp_ret, called_refl|]. intros i k Ek _.
  apply wp_bind, wp_upd_sock, wp_ret. apply called_upd; [done| |done]. intros k0 [].
  split; simpl; try done. unfold TCP_BACKLOG_MAX. repeat case_match; lia.
Qed.
Lemma tcp_accept_ok sock s : wf s → wp (tcp_accept sock) (called s) s.
Proof.
  intros W. unfold tcp_accept. apply wp_bind, wp_find_socket; [by apply wp_ret, called_refl|]. intros i k Ek _.
  apply wp_bind, (wp_ld_sock _ k); [done|]. case_decide; [by apply wp_ret, called_refl|].
  destruct (ts_pending k) as [|a rest] eqn:Ep; [by apply wp_ret, called_refl|]. apply wp_bind, wp_upd_sock. set (t1 := put_socks _ s).
  assert (called s tt t1) as C1.
  { split; [|split; [by split|by apply lasting_alter]]. apply wf_upd_sock; [done|]. intros k0 Ek0 [].
    rewrite Ek in Ek0. injection Ek0 as <-. split; simpl; try done. rewrite Ep in *. unfold zlen in *. simpl in *. lia. }
  apply wp_bind, wp_find_socket; [by apply wp_ret|]. intros j kj Ekj _. apply wp_bind, (wp_ld_sock _ kj); [done|]. by apply wp_ret.
Qed.
End calls.

(** ** UDP *)
Section udp.
Context {D : Type} `{NetDriver D}.
Implicit Types s : net D.
(** [udp_send] up to the packet it hands to [ip_send]. *)
Lemma udp_send_packet sport ip dport data len s (Q : Z → net D → Prop) : wf s → array 4 ip → bytes data → 0 ≤ len → len ≤ zlen data →
  (∀ r s', wf s' → sent s s' → Q r s') →
  (∀ pkt s', wf s' → sent s s' → bytes pkt → zlen pkt = 8 + len → wlp (ip_send ip IP_PROTO_UDP pkt (u16 (8 + len))) Q s') →
  wlp (udp_send sport ip dport data len) Q s.
Proof.
  intros W Hip Hb Hl Hd HR HS. unfold udp_send. apply wlp_bind, wp_wlp, wp_gets.
  destruct (net_if_find_by_ip ip (net_ifs s)) as [i|]; [|apply wp_wlp, wp_ret; by apply HR].
  case_match; [apply wp_wlp, wp_ret; by apply HR|]. apply wlp_bind, wp_wlp, wp_nalloc. intros b l Hbl.
  assert (sent s (set_nmem l s)) by (apply sent_nmem; naive_solver).
  destruct b; simpl negb; cbv iota; [|apply wp_wlp, wp_ret, HR; auto with net].
  destruct (rd_ok data 0 len) as (body & Eb & Lb & Bb); [lia..|]. apply wlp_bind, wp_wlp, (wp_lift _ _ _ _ Eb).
  destruct (tcp_udp_checksum_ok (if_ip i) ip IP_PROTO_UDP (udp_hdr sport dport (UDP_HDR_LEN + len) [0; 0] ++ body)) as (c & Ec & _).
  apply wlp_bind, wp_wlp, (wp_lift _ _ _ _ Ec). apply HS; [auto with net|done| |].
  - unfold udp_hdr. eauto 10 with bytes.
  - unfold udp_hdr, UDP_HDR_LEN. autorewrite with zlen. lia.
Qed.
Lemma udp_send_ok sport ip dport data len s : wf s → array 4 ip → bytes data → is_u16 len → len ≤ zlen data → ¬ (65508 ≤ len ≤ 65527) →
  wp (udp_send sport ip dport data len) (sending s) s.
Proof.
  unfold is_u16. intros W Hip Hb Hl Hd Hn. unfold udp_send. apply wp_bind, wp_gets. destruct (net_if_find_by_ip ip (net_ifs s)) as [i|]; [|by apply wp_ret].
  case_match; [by apply wp_ret|]. apply wp_bind, wp_nalloc. intros b l Hbl. assert (sent s (set_nmem l s)) by (apply sent_nmem; naive_solver).
  destruct b; simpl negb; cbv iota; [|apply wp_ret; split; [auto with net|done]].
  destruct (rd_ok data 0 len) as (body & Eb & Lb & Bb); [lia..|]. apply wp_bind, (wp_lift _ _ _ _ Eb).
  destruct (tcp_udp_checksum_ok (if_ip i) ip IP_PROTO_UDP (udp_hdr sport dport (UDP_HDR_LEN + len) [0; 0] ++ body)) as (c & Ec & _).
  apply wp_bind, (wp_lift _ _ _ _ Ec). unfold UDP_HDR_LEN.
  assert (0 ≤ u16 (8 + len) ≤ 65515 ∧ u16 (8 + len) ≤ 8 + len) as [? ?].
  { unfold u16. destruct (Z.ltb_spec (8 + len) (2 ^ 16)); [rewrite Z.mod_small by lia; lia|].
    rewrite <- (Z.mod_unique (8 + len) (2 ^ 16) 1 (8 + len - 2 ^ 16)) by lia. lia. }
  eapply wp_mono; [apply ip_send_ok; [auto with net|done|unfold is_byte, IP_PROTO_UDP; lia| |lia|]|].
  - unfold udp_hdr. eauto 10 with bytes.
  - unfold udp_hdr. autorewrite with zlen. lia.
  - intros r s' [W' S']. split; [done|]. by etrans.
Qed.
Lemma udp_send_long sport ip dport data len s : wf s → array 4 ip → bytes data → 65508 ≤ len ≤ 65527 → len ≤ zlen data →
  wlp (udp_send sport ip dport data len) (sending s) s.
Proof.
  intros W Hip Hb Hl Hd. apply udp_send_packet; [done|done|done|lia|done|by split|]. intros pkt s' W' S' _ _.
  unfold u16. rewrite Z.mod_small by lia. eapply wlp_mono; [apply ip_send_long; [done|done|lia]|]. intros r s2 [W2 S2]. split; [done|]. by etrans.
Qed.
Lemma udp_recv_ok port n s : wf s →
  wp (udp_recvfrom port n) (λ r s', wf s' ∧ kept s s' ∧ tcps s' = tcps s) s.
Proof.
  intros W. unfold udp_recvfrom. case_match; [by apply wp_ret|]. apply wp_bind, wp_get.
  destruct (list_find (udp_ready port) (udp_sockets s)) as [[i u]|] eqn:F; [|by apply wp_ret].
  apply list_find_Some in F as (Eu & [[Huse _] _] & _). apply wp_bind, wp_put, wp_ret.
  pose proof (Forall_lookup_1 _ _ _ _ (w_udp _ W) Eu) as []. split; [|split; [|done]].
  - apply wf_set_udp; [|done]. apply Forall_insert; [apply W|]. split; simpl; [apply bytes_nil|done|done|done].
  - apply (kept_udp _ _ u); [done|]. simpl. by rewrite Huse.
Qed.
End udp.

(** ** Whole programs *)

(** What a program can ask of the stack. *)
Inductive net_op :=
  | OpPoll
  | OpSocket
  | OpBind (sock port : Z)
  | OpConnect (sock : Z) (ip : list Z) (port : Z)
  | OpSend (sock : Z) (data : list Z) (len : Z)
  | OpRecv (sock max_len : Z)
  | OpClose (sock : Z)
  | OpShutdown (sock how : Z)
  | OpListen (sock backlog : Z)
  | OpAccept (sock : Z)
  | OpUdpSend (sport : Z) (ip : list Z) (dport : Z) (data : list Z) (len : Z)
  | OpUdpRecv (port max_len : Z).
(** Arguments of their C types, and buffers as long as the lengths given. *)
Definition op_ok (o : net_op) : Prop :=
  match o with
  | OpBind _ port => is_u16 port
  | OpConnect _ ip port => array 4 ip ∧ is_u16 port
  | OpSend _ data len => bytes data ∧ len ≤ zlen data
  | OpUdpSend _ ip _ data len => array 4 ip ∧ bytes data ∧ is_u16 len ∧ len ≤ zlen data
  | _ => True
  end.
#[export] Instance op_ok_dec o : Decision (op_ok o).
Proof. destruct o; simpl; apply _. Defined.

(** The calls that may write or read outside a buffer: a receive of negative
    length, and a datagram whose packet does not fit 65535 bytes (from 65528 on
    the length has wrapped round). *)
Definition overruns (o : net_op) : Prop :=
  match o with
  | OpRecv _ n => n < 0
  | OpUdpSend _ _ _ _ len => 65508 ≤ len ≤ 65527
  | _ => False
  end.
#[export] Instance overruns_dec o : Decision (overruns o).
Proof. destruct o; simpl; apply _. Defined.

Section programs.
Context {D : Type} `{NetDriver D} `{!NetDriverLaws D} (stack : nat).
Implicit Types s : net D.
Definition void {A} (m : NM D A) : NM D unit := _ <- m ;; ret tt.
Definition run_op (o : net_op) : NM D unit :=
  match o with
  | OpPoll => net_poll stack
  | OpSocket => void tcp_socket_create
  | OpBind sock port => void (tcp_bind sock port)
  | OpConnect sock ip port => void (tcp_connect sock ip port)
  | OpSend sock data len => void (tcp_send sock data len)
  | OpRecv sock n => void (tcp_recv sock n)
  | OpClose sock => void (tcp_close sock)
  | OpShutdown sock how => void (tcp_shutdown sock how)
  | OpListen sock backlog => void (tcp_listen sock backlog)
  | OpAccept sock => void (tcp_accept sock)
  | OpUdpSend sport ip dport data len => void (udp_send sport ip dport data len)
  | OpUdpRecv port n => void (udp_recvfrom port n)
  end.
Lemma wp_void {A} (m : NM D A) (Q : unit → net D → Prop) s : wp m (λ _, Q tt) s → wp (void m) Q s.
Proof. intros HW. apply wp_bind. eapply wp_mono; [done|]. intros a s' HQ. by apply wp_ret. Qed.
Lemma void_called {A} (m : NM D A) s : wp m (called s) s → wp (void m) (handled s) s.
Proof. intros HW. apply wp_void. eapply wp_mono; [done|]. by intros a s' (W & [K _ _] & L). Qed.

Lemma wlp_void {A} (m : NM D A) (Q : unit → net D → Prop) s : wlp m (λ _, Q tt) s → wlp (void m) Q s.
Proof. intros HW. apply wlp_bind. eapply wlp_mono; [done|]. intros a s' HQ. by apply wp_wlp, wp_ret. Qed.
Lemma called_handled {A} (a : A) s s' : called s a s' → handled s tt s'.
Proof. by intros (W & [K _ _] & L). Qed.

Lemma run_op_ok o s : (0 < stack)%nat → wf s → quiet s → op_ok o → ¬ overruns o → wp (run_op o) (handled s) s.
Proof.
  intros Hf W HQ. destruct o; simpl; intros Ho Hv; [by apply net_poll_ok|..].
  - apply void_called. eapply wp_mono; [by apply tcp_create_ok|]. by intros r s' [C _].
  - by apply void_called, tcp_bind_ok.
  - destruct Ho. by apply void_called, tcp_connect_ok.
  - destruct Ho. by apply void_called, tcp_send_ok.
  - apply void_called. eapply wp_mono; [apply tcp_recv_ok; [done|lia]|]. by intros r s' [C _].
  - by apply void_called, tcp_close_ok.
  - by apply void_called, tcp_shutdown_ok.
  - by apply void_called, tcp_listen_ok.
  - by apply void_called, tcp_accept_ok.
  - destruct Ho as (?&?&?&?). apply wp_void. eapply wp_mono; [by apply udp_send_ok|]. intros. by apply sending_handled.
  - apply wp_void. eapply wp_mono; [by apply udp_recv_ok|]. intros r s' (W' & K & E). split; [done|]. split; [done|].
    unfold sockets. by rewrite E.
Qed.
Lemma run_op_overruns o s : wf s → op_ok o → overruns o → wlp (run_op o) (handled s) s.
Proof.
  intros W. destruct o; simpl; intros Ho Hv; try done; apply wlp_void.
  - eapply wlp_mono; [by apply tcp_recv_negative|]. intros r s' C. by apply (called_handled r).
  - destruct Ho as (?&?&?&?). eapply wlp_mono; [by apply udp_send_long|]. intros. by apply sending_handled.
Qed.
Lemma run_ops_ok ops s : (0 < stack)%nat → wf s → quiet s → Forall op_ok ops →
  ∃ pre s', for_each pre run_op s = Some (tt, s') ∧ (handled s tt s' ∧ quiet s') ∧
    (pre = ops ∨ ∃ o post, ops = pre ++ o :: post ∧ overruns o ∧ run_op o s' = None).
Proof.
  intros Hf W HQ Ho. apply for_each_until; [split; [by apply handled_refl|done]|]. intros o s1 Hin [(W1 & K1 & L1) Q1].
  assert (∀ s2, handled s1 tt s2 → handled s tt s2 ∧ quiet s2) as HT.
  { intros s2 (W2 & K2 & L2). split; [split; [done|]; split; by etrans|by apply (quiet_kept s1)]. }
  rewrite Forall_forall in Ho. destruct (decide (overruns o)) as [Hv|Hv].
  - destruct (run_op o s1) as [[[] s2]|] eqn:R; [left|by right]. exists tt, s2. split; [done|]. apply HT. by apply (run_op_overruns o s1 W1 (Ho o Hin) Hv).
  - left. eapply wp_mono; [apply run_op_ok; [done|done|done|by apply Ho|done]|]. intros [] s2 H2. by apply HT.
Qed.
End programs.
