(* ===== verification/NetLoop.v ===== *)
(** * The loopback interface: what [ip_send] puts there, the next [net_poll]
    delivers; checksums verify, segments are parsed as they were built. *)
From S2P Require Import Prelude Bytes NetBase NetLib Inet Tcp Ipv6 NetPoll NetInv NetSafe NetRecv TcpThms.
Local Open Scope Z_scope.
Local Open Scope kernel_scope.

(** ** Headers *)
Lemma ipv4_hdr_split total id p csum src dst :
  ipv4_hdr total id p csum src dst = ([0x45; 0] ++ be16 (u16 total) ++ be16 id ++ [0; 0; 64; p]) ++ csum ++ (src ++ dst).
Proof. unfold ipv4_hdr. by rewrite !app_assoc. Qed.
(** The header of [ip_packet] passes the receiver's check. *)
Lemma ipv4_hdr_verifies total id p src dst c : is_byte p → array 4 src → array 4 dst →
  checksum_calc (ipv4_hdr total id p [0; 0] src dst) = Some c → checksum_calc (ipv4_hdr total id p (le_bytes 2 c) src dst) = Some 0.
Proof.
  intros Hp Hs Hd. rewrite !ipv4_hdr_split. apply (checksum_verify _ _ 5); [done|eauto 10 with bytes|eauto with bytes|].
  autorewrite with zlen. rewrite !(array_zlen 4) by done. lia.
Qed.
Lemma icmp_reply_verifies (rest : list Z) c : bytes rest → zlen rest ≤ 65535 →
  checksum_calc ([ICMP_ECHO_REPLY; 0] ++ [0; 0] ++ rest) = Some c → checksum_calc ([ICMP_ECHO_REPLY; 0] ++ le_bytes 2 c ++ rest) = Some 0.
Proof.
  intros Hb Hl. apply (checksum_verify _ _ 1); [done|unfold ICMP_ECHO_REPLY; auto with bytes|done|].
  autorewrite with zlen. lia.
Qed.

Lemma rd16_at l a v c off : l = a ++ be16 v ++ c → zlen a = off → 0 ≤ v < 65536 → ∃ w, rd16 l off = Some w ∧ ntohs w = v.
Proof. intros ->. apply rd16_app. Qed.
Lemma rd32_at l a v c off : l = a ++ be32 v ++ c → zlen a = off → is_u32 v → ∃ w, rd32 l off = Some w ∧ ntohl w = v.
Proof. intros ->. apply rd32_app. Qed.

(** [parse_segment] reads back what [tcp_send_packet] writes. *)
Lemma segment_parse k flags csum data : tcp_wf k → 0 ≤ flags < 64 → zlen csum = 2 →
  parse_segment (tcp_hdr k flags csum ++ data) =
    Some (Some (mk_seg (ts_local_port k) (ts_remote_port k) (ts_seq_num k) flags data)).
Proof.
  intros W Hf Hc. pose proof (zlen_tcp_hdr k flags csum Hc) as HL. unfold TCP_HDR_LEN in HL. pose proof (zlen_nonneg data).
  assert (u16 (Z.lor (Z.shiftl 5 12) flags) = 20480 + flags) as Ef.
  { rewrite Z.shiftl_mul_pow2, (lor_add 5 flags 12) by lia. unfold u16. rewrite Z.mod_small; lia. }
  unfold parse_segment, TCP_HDR_LEN. rewrite zlen_app, HL. destruct (Z.ltb_spec (20 + zlen data) 20); [lia|].
  assert (∃ rest, tcp_hdr k flags csum ++ data = (be16 (ts_local_port k) ++ be16 (ts_remote_port k) ++ be32 (ts_seq_num k) ++ be32 (ts_ack_num k)) ++ be16 (20480 + flags) ++ rest)
    as [rest E12] by (eexists; unfold tcp_hdr; rewrite Ef, <- !app_assoc; done).
  destruct (rd16_at _ _ _ _ 12 E12) as (dof & -> & Ed); [by autorewrite with zlen|lia|]. cbn [mbind option_bind]. rewrite Ed.
  replace (Z.shiftr (20480 + flags) 12 * 4) with 20 by (rewrite Z.shiftr_div_pow2 by lia; change (2 ^ 12) with 4096; rewrite <- (Z.div_unique_pos (20480 + flags) 4096 5 flags); lia).
  destruct (Z.ltb_spec 20 20); [lia|]. destruct (Z.ltb_spec (20 + zlen data) 20); [lia|]. simpl orb. cbv iota.
  destruct (rd16_at (tcp_hdr k flags csum ++ data) [] (ts_local_port k) (drop 2 (tcp_hdr k flags csum ++ data)) 0) as (w0 & -> & E0); [done|done|apply W|].
  destruct (rd16_at (tcp_hdr k flags csum ++ data) (be16 (ts_local_port k)) (ts_remote_port k) (drop 4 (tcp_hdr k flags csum ++ data)) 2) as (w1 & -> & E1); [done|done|apply W|].
  destruct (rd32_at (tcp_hdr k flags csum ++ data) (be16 (ts_local_port k) ++ be16 (ts_remote_port k)) (ts_seq_num k) (drop 8 (tcp_hdr k flags csum ++ data)) 4)
    as (w2 & -> & E2); [done|done|apply W|]. cbn [mbind option_bind].
  rewrite (slice_app_end (tcp_hdr k flags csum) data 20 (20 + zlen data - 20)) by lia. cbn [mbind option_bind]. rewrite E0, E1, E2.
  do 3 f_equal. change 0x3F with (Z.ones 6). rewrite Z.land_ones by lia. change (2 ^ 6) with 64.
  rewrite <- (Z.mod_small flags 64) at 2 by lia. replace (20480 + flags) with (flags + 320 * 64) by lia. apply Z.mod_add. lia.
Qed.

(** ** The loopback interface alone *)
Definition lo_ip : list Z := [127; 0; 0; 1].
Definition loopback_only {D} (s : net D) : Prop :=
  net_ifs s = [lo_if] ∧ ∃ next, net_devs s !! loopback_netdev = Some (lo_dev next).
Lemma loopback_only_kept {D} (s s' : net D) : kept s s' → loopback_only s → loopback_only s'.
Proof. intros [] [HI HD]. split; [congruence|]. rewrite k_devs. done. Qed.

(** A frame of [ip_send] on that interface. *)
Inductive lo_frame (p : Z) (data : list Z) : list Z → Prop :=
  lo_frame_of mac id csum : array 6 mac →
    checksum_calc (ipv4_hdr (20 + zlen data) id p (le_bytes 2 csum) lo_ip lo_ip) = Some 0 →
    lo_frame p data (eth_hdr mac (replicate 6 0) ETH_IPV4 ++ ipv4_hdr (20 + zlen data) id p (le_bytes 2 csum) lo_ip lo_ip ++ data).
Lemma lo_frame_len p data f : lo_frame p data f → zlen f = 34 + zlen data.
Proof.
  intros [mac id c Hm _]. unfold eth_hdr. rewrite !zlen_app, zlen_ipv4_hdr, zlen_be16, (array_zlen 6) by (done || apply zlen_le).
  rewrite zlen_replicate. unfold IP_HDR_LEN. lia.
Qed.
Lemma is_Some_bool {A} (o : option A) : is_Some o → bool_decide (is_Some o) = true.
Proof. apply bool_decide_eq_true_2. Qed.

Section loopback.
Context {D : Type} `{NetDriver D} (stack : nat).
Implicit Types s : net D.

Lemma lo_iface ip s : loopback_only s → net_if_find_by_ip ip (net_ifs s) = Some lo_if.
Proof.
  intros [-> _]. unfold net_if_find_by_ip. cbn [list_find]. case_decide; [done|]. done.
Qed.

Lemma netdev_send_lo data s : loopback_only s → 0 < zlen data ≤ LOOPBACK_BUF_SIZE →
  netdev_send loopback_netdev data s = Some (zlen data, set_lo data s).
Proof.
  intros [_ [nx Ed]] Hl. unfold netdev_send, bind, get, lift_opt. simpl. rewrite Ed. simpl.
  destruct (Z.leb_spec (zlen data) 0); [lia|]. unfold loopback_send, bind, modify, ret.
  destruct (Z.ltb_spec LOOPBACK_BUF_SIZE (zlen data)); [lia|]. unfold zlen. by rewrite Nat2Z.id, firstn_all.
Qed.
Lemma nalloc_nil s : nmem s = [] → nalloc s = Some (true, s).
Proof. unfold nalloc. by intros ->. Qed.

Lemma ip_send_lo p data s : wf s → loopback_only s → nmem s = [] → is_byte p → bytes data → zlen data ≤ 8158 →
  wp (ip_send lo_ip p data (zlen data)) (λ r s', r = 34 + zlen data ∧ wf s' ∧ sent s s' ∧ lo_frame p data (loopback_buf s')) s.
Proof.
  intros W HL HM Hp Hb Hl. pose proof (zlen_nonneg data). unfold ip_send. apply wp_bind, wp_gets. unfold ip_iface. rewrite lo_iface by done.
  change (if_netdev lo_if =? 0) with false. cbv iota. apply wp_bind. assert (array 4 lo_ip) as Hlo by decided.
  eapply wp_mono; [apply arp_lookup_ok; [done|apply Hlo]|]. intros m s1 (Hm & W1 & S1).
  pose proof (s_kept _ _ S1) as K1. assert (nmem s1 = []) as M1 by by apply K1.
  apply wp_bind. eexists _, _. split; [by apply nalloc_nil|]. simpl negb. cbv iota.
  apply wp_bind, wp_gets, wp_bind, wp_modify. set (id := ip_id_counter s1). set (s2 := set_ip_id _ s1).
  assert (wf s2) as W2 by (unfold s2; auto with net). assert (sent s s2) as S2 by (etrans; [done|by split]).
  destruct (ip_packet_ok lo_if id lo_ip p data (zlen data)) as (c & Ec & Ep); [done|done|done|done|lia|lia|].
  unfold zlen in Ep at 3. rewrite Nat2Z.id, firstn_all in Ep. apply wp_bind, (wp_lift _ _ _ _ Ep).
  pose proof (loopback_only_kept _ _ (s_kept _ _ S2) HL) as L2. destruct L2 as [_ [nx Ed]].
  set (mac := default (replicate 6 255) m). assert (array 6 mac) as Hmac by (destruct m as [m|]; [by apply Hm|unfold mac; simpl; decided]).
  set (pkt := ipv4_hdr _ _ _ _ _ _ ++ data). assert (zlen pkt = 20 + zlen data) as Lp.
  { unfold pkt. by rewrite zlen_app, zlen_ipv4_hdr by (done || apply zlen_le). }
  set (frame := eth_hdr mac (replicate 6 0) ETH_IPV4 ++ pkt).
  assert (lo_frame p data frame) as HF by (apply lo_frame_of; [done|by apply ipv4_hdr_verifies]).
  assert (eth_send (if_netdev lo_if) mac ETH_IPV4 pkt s2 = Some (zlen frame, set_lo frame s2)) as ES.
  { unfold eth_send. rewrite Lp. change (if_netdev lo_if =? 0) with false. destruct (Z.leb_spec (20 + zlen data) 0); [lia|].
    change (if_netdev lo_if) with loopback_netdev. unfold bind, get, lift_opt. cbv beta iota delta [orb]. rewrite Ed. cbv beta iota.
    change (nd_mtu (lo_dev nx)) with 65536. change (nd_mac (lo_dev nx)) with (replicate 6 0). unfold ETH_HDR_LEN. destruct (Z.ltb_spec (65536 + 14) (14 + (20 + zlen data))); [lia|].
    cbv beta iota. rewrite nalloc_nil by done. cbv beta iota delta [negb]. apply netdev_send_lo; [by apply (loopback_only_kept s), HL; apply S2|].
    rewrite (lo_frame_len p data) by done. unfold LOOPBACK_BUF_SIZE. lia. }
  eexists _, _. split; [exact ES|]. rewrite (lo_frame_len p data frame) by done. split; [done|].
  split; [|split; [etrans; [done|]; by split|done]]. apply wf_set_lo; [|rewrite (lo_frame_len p data frame) by done; unfold LOOPBACK_BUF_SIZE; lia|done].
  unfold frame, pkt, eth_hdr. apply bytes_app; [eauto 10 with bytes|]. apply bytes_app; [|done].
  apply bytes_ipv4_hdr; [done|auto with bytes|apply Hlo..].
Qed.

Lemma bind_ret_tt (m : NM D unit) s : bind m (λ _, ret tt) s = m s.
Proof. unfold bind. by destruct (m s) as [[[] s']|]. Qed.
(** One interface: its turn takes the frame out of the buffer. *)
Lemma poll_lo s : loopback_only s → 0 < zlen (loopback_buf s) ≤ POLL_BUF_SIZE →
  net_poll stack s = process_eth_frame stack (loopback_buf s) (set_lo [] s).
Proof.
  intros [HI [nx Ed]] Hl. unfold net_poll. rewrite bind_gets, HI. simpl for_each. rewrite bind_ret_tt.
  unfold poll_if. rewrite bind_gets, HI. simpl. unfold bind at 1. unfold lift_opt at 1. simpl.
  unfold bind at 1. unfold eth_recv, netdev_recv. simpl. unfold bind at 1, get. unfold bind at 1, lift_opt at 1. rewrite Ed. simpl.
  unfold loopback_recv. rewrite bind_gets. destruct (Z.leb_spec (zlen (loopback_buf s)) 0); [lia|].
  destruct (Z.ltb_spec POLL_BUF_SIZE (zlen (loopback_buf s))); [lia|]. unfold bind at 1, modify, ret.
  destruct (Z.ltb_spec 0 (zlen (loopback_buf s))); [|lia]. unfold bind, lift_opt, zlen. rewrite Nat2Z.id, firstn_all.
  fold (zlen (loopback_buf s)). by rewrite slice_all.
Qed.

(** Running a read that is known to succeed. *)
Lemma bind_lift {A B} (o : option A) a (k : A → NM D B) s : o = Some a → bind (lift_opt o) k s = k a s.
Proof. by intros ->. Qed.

Lemma ip_handle_lo p data id c s : loopback_only s → zlen data ≤ 65515 →
  checksum_calc (ipv4_hdr (20 + zlen data) id p (le_bytes 2 c) lo_ip lo_ip) = Some 0 →
  ip_handle_packet (ipv4_hdr (20 + zlen data) id p (le_bytes 2 c) lo_ip lo_ip ++ data) s = ip_deliver p lo_ip lo_ip data s.
Proof.
  intros HL Hl Hc. pose proof (zlen_nonneg data). set (total := 20 + zlen data) in *. set (hd := ipv4_hdr _ _ _ _ _ _) in *.
  assert (zlen hd = 20) as Lh by (apply zlen_ipv4_hdr; done || apply zlen_le).
  unfold ip_handle_packet, IP_HDR_LEN. rewrite zlen_app, Lh. destruct (Z.ltb_spec (20 + zlen data) 20); [lia|].
  assert (u16 total = total) as Ut by (unfold u16, total; apply Z.mod_small; lia).
  rewrite (bind_lift _ 0x45) by (apply (rd8_app [] 0x45); done). change (Z.land 0x45 0x0F * 4) with 20.
  destruct (Z.ltb_spec (20 + zlen data) 20); [lia|]. cbv beta iota delta [orb]. change (20 <? 20) with false. cbv iota.
  destruct (rd16_at (hd ++ data) [0x45; 0] (u16 total) (drop 4 (hd ++ data)) 2) as (w & Ew & Et); [done|done|unfold total in *; lia|].
  rewrite (bind_lift _ w), Et, Ut by done. change (u16 20) with 20. fold total. rewrite Ut.
  destruct (Z.ltb_spec total 20); [lia|]. destruct (Z.ltb_spec total total); [lia|]. cbv beta iota.
  rewrite (bind_lift _ hd) by (apply (slice_app [] hd data); done). rewrite (bind_lift _ 0) by done. change (negb (checksum_good 0)) with false. cbv iota.
  rewrite (bind_lift _ lo_ip) by (apply (slice_app (take 12 hd) lo_ip (lo_ip ++ data)); done).
  rewrite (bind_lift _ lo_ip) by (apply (slice_app (take 16 hd) lo_ip data); done). rewrite bind_gets.
  destruct HL as [-> _]. change (bool_decide _) with true at 1. cbv beta iota delta [negb].
  rewrite (bind_lift _ data) by (apply slice_app_end; [done|lia]).
  by rewrite (bind_lift _ p) by (apply (rd8_app (take 9 hd) p); done).
Qed.
Lemma process_lo p data frame s : lo_frame p data frame → loopback_only s → zlen data ≤ 65515 →
  process_eth_frame stack frame s = ip_deliver p lo_ip lo_ip data s.
Proof.
  intros HF HL Hl. pose proof (lo_frame_len _ _ _ HF) as Lf. destruct HF as [mac id c Hm Hc]. pose proof (zlen_nonneg data).
  unfold process_eth_frame, ETH_HDR_LEN. rewrite Lf. destruct (Z.ltb_spec (34 + zlen data) 14); [lia|].
  pose proof (array_zlen _ _ Hm) as Lm. set (ip := ipv4_hdr _ _ _ _ _ _ ++ data) in *. unfold eth_hdr in *.
  destruct (rd16_at ((mac ++ replicate 6 0 ++ be16 ETH_IPV4) ++ ip) (mac ++ replicate 6 0) ETH_IPV4 ip 12) as (w & Ew & Et).
  { by rewrite <- !app_assoc. } { rewrite zlen_app, Lm, zlen_replicate. lia. } { unfold ETH_IPV4. lia. }
  rewrite (bind_lift _ w), Et by done.
  rewrite (bind_lift _ ip) by (apply slice_app_end; [rewrite !zlen_app, Lm, zlen_replicate, zlen_be16; lia|
    rewrite !zlen_app, Lm, zlen_replicate, zlen_be16 in Lf; lia]).
  change (ETH_IPV4 =? ETH_ARP) with false. change (ETH_IPV4 =? ETH_IPV4) with true. cbv iota. by apply ip_handle_lo.
Qed.
End loopback.
