(* ===== verification/TcpLoop.v ===== *)
(** * TCP over the loopback interface: a segment that is sent is the next segment
    handled; transfers and the three-way handshake. *)
From S2P Require Import Prelude Bytes NetBase NetLib Inet Tcp Ipv6 NetPoll NetInv NetSafe NetRecv TcpThms NetLoop.
Local Open Scope Z_scope.
Local Open Scope kernel_scope.

Section tcploop.
Context {D : Type} `{NetDriver D} (stack : nat).
Implicit Types s : net D.

Lemma wp_and {A} (m : NM D A) (Q1 Q2 : A → net D → Prop) s : wp m Q1 s → wp m Q2 s → wp m (λ a s', Q1 a s' ∧ Q2 a s') s.
Proof. intros (a & s1 & R & H1) (b & s2 & R2 & H2). rewrite R in R2. injection R2 as <- <-. by exists a, s1. Qed.
(** A socket update leaves the buffer alone. *)
Lemma wp_upd_if (b : bool) i g (Q : unit → net D → Prop) s : (∀ t, loopback_buf t = loopback_buf s → Q tt t) →
  wp (if b then upd_sock i g else ret tt) Q s.
Proof. intros HQ. destruct b; [apply wp_upd_sock|apply wp_ret]; by apply HQ. Qed.

Lemma tcp_send_lo i k flags data s :
  wf s → loopback_only s → nmem s = [] → sockets s !! i = Some k → ts_remote_ip k = lo_ip → bytes data → zlen data ≤ TCP_MAX_SEGMENT →
  wp (tcp_send_packet i flags data)
     (λ r s', (0 ≤ r ∧ ∃ csum, zlen csum = 2 ∧ lo_frame IP_PROTO_TCP (tcp_hdr k flags csum ++ data) (loopback_buf s')) ∧
              after_send s s' r i flags (zlen data)) s.
Proof.
  intros W HL HM Ek Hip Hb Hl. apply wp_and; [|apply tcp_send_packet_ok; [done|by eapply lookup_lt_Some|done|done]].
  unfold TCP_MAX_SEGMENT in Hl. pose proof (zlen_nonneg data). unfold tcp_send_packet.
  apply wp_bind, (wp_ld_sock _ k); [done|]. apply wp_bind, wp_gets. rewrite lo_iface by done. change (if_netdev lo_if =? 0) with false. cbv iota.
  apply wp_bind. eexists _, _. split; [by apply nalloc_nil|]. cbv beta iota delta [negb].
  destruct (tcp_udp_checksum_ok (if_ip lo_if) (ts_remote_ip k) IP_PROTO_TCP (tcp_hdr k flags [0; 0] ++ data)) as (c & Ec & _).
  apply wp_bind, (wp_lift _ _ _ _ Ec), wp_bind. rewrite Hip. set (seg := tcp_hdr k flags (le_bytes 2 c) ++ data).
  assert (zlen seg = 20 + zlen data) as Ls by (unfold seg; rewrite zlen_app, zlen_tcp_hdr by apply zlen_le; done).
  replace (u16 (TCP_HDR_LEN + zlen data)) with (zlen seg) by (rewrite Ls; unfold u16, TCP_HDR_LEN; rewrite Z.mod_small; lia).
  eapply wp_mono; [apply ip_send_lo; [done|done|done|unfold is_byte, IP_PROTO_TCP; lia| |lia]|].
  { apply bytes_app; [|done]. apply bytes_tcp_hdr. auto with bytes. }
  intros r s1 (Hr & _ & _ & HF). apply wp_bind, wp_upd_if. intros t1 E1. apply wp_bind, wp_upd_if. intros t2 E2. apply wp_ret.
  split; [lia|]. exists (le_bytes 2 c). split; [apply zlen_le|]. by rewrite E2, E1.
Qed.

(** The next poll handles that segment. *)
Lemma poll_segment k flags csum data s :
  loopback_only s → tcp_wf k → zlen csum = 2 → zlen data ≤ TCP_MAX_SEGMENT →
  lo_frame IP_PROTO_TCP (tcp_hdr k flags csum ++ data) (loopback_buf s) →
  net_poll stack s = tcp_handle_packet lo_ip lo_ip (tcp_hdr k flags csum ++ data) (set_lo [] s).
Proof.
  intros HL W Hc Hl HF. pose proof (lo_frame_len _ _ _ HF) as Lf. rewrite zlen_app, zlen_tcp_hdr in Lf by done.
  unfold TCP_MAX_SEGMENT, TCP_HDR_LEN in *. pose proof (zlen_nonneg data).
  rewrite poll_lo; [|done|unfold POLL_BUF_SIZE; lia]. rewrite (process_lo stack IP_PROTO_TCP (tcp_hdr k flags csum ++ data)); [done|done|done|].
  rewrite zlen_app, zlen_tcp_hdr by done. unfold TCP_HDR_LEN. lia.
Qed.
(** A segment for a connection in the table. *)
Definition conn_run (j : nat) (kj : tcp_socket) (flags seq : Z) (data : list Z) : NM D unit :=
  let (k', ack) := on_segment kj flags seq data in
  upd_sock j (λ _, k') ;;; if (ack : bool) then _ <- tcp_send_packet j TCP_ACK [] ;; ret tt else ret tt.
Lemma handle_conn k flags csum data j kj s :
  tcp_wf k → 0 ≤ flags < 64 → zlen csum = 2 →
  list_find (addressed lo_ip (ts_local_port k) lo_ip (ts_remote_port k)) (sockets s) = Some (j, kj) →
  tcp_handle_packet lo_ip lo_ip (tcp_hdr k flags csum ++ data) s =
    conn_run j kj flags (ts_seq_num k) data s.
Proof.
  intros W Hf Hc F. unfold tcp_handle_packet. rewrite segment_parse by done. rewrite (bind_lift _ (Some _)) by done.
  unfold tcp_find_by_addr. rewrite bind_gets. simpl sg_src. simpl sg_dst. rewrite F. simpl. rewrite bind_ret_l.
  unfold ld_sock. unfold bind at 1. unfold bind at 1, get, lift_opt. apply list_find_lookup in F as [Ej _]. by rewrite Ej.
Qed.

Lemma list_find_alter (P : tcp_socket → Prop) `{!∀ k, Decision (P k)} l i j g k : i ≠ j → (∀ x, P (g x) ↔ P x) →
  list_find P l = Some (j, k) → list_find P (alter g i l) = Some (j, k).
Proof.
  intros Hne Hg F. apply list_find_Some in F as (Ej & Hk & Hbefore). apply list_find_Some.
  split; [by rewrite list_lookup_alter_ne|]. split; [done|]. intros m x Ex Hm. destruct (decide (i = m)) as [->|Hn].
  - rewrite list_lookup_alter_eq in Ex. destruct (l !! m) as [y|] eqn:Ey; [|done]. injection Ex as <-. rewrite Hg. by eapply Hbefore.
  - rewrite list_lookup_alter_ne in Ex by done. by eapply Hbefore.
Qed.
Lemma addressed_advance a b c d r flags n k : addressed a b c d (advance r flags n k) ↔ addressed a b c d k.
Proof. unfold advance. by repeat case_match. Qed.

Lemma established_data k seq data : ts_state k = TCP_ESTABLISHED → 0 < zlen data → zlen (ts_rx k) + zlen data ≤ TCP_RX_BUF_SIZE →
  on_segment k (Z.lor TCP_PSH TCP_ACK) seq data =
    (ts_set_rcv (u32 (seq + zlen data)) (ts_set_ack (u32 (seq + zlen data)) (ts_set_rx (ts_rx k ++ data) k)), true).
Proof.
  intros Es Hd Hr. unfold on_segment. rewrite Es. change (flag (Z.lor TCP_PSH TCP_ACK) TCP_RST) with false.
  change (flag (Z.lor TCP_PSH TCP_ACK) TCP_FIN) with false. cbv iota. destruct (Z.ltb_spec 0 (zlen data)); [|lia].
  destruct (Z.ltb_spec (TCP_RX_BUF_SIZE - zlen (ts_rx k)) (zlen data)); [lia|]. destruct (Z.ltb_spec 0 (zlen data)); [|lia].
  assert (take (Z.to_nat (zlen data)) data = data) as -> by (unfold zlen; by rewrite Nat2Z.id, firstn_all). done.
Qed.

(** What one end of a connection sends, the other end has after the next poll. *)
Definition delivered s (i j : nat) (k kj : tcp_socket) (data : list Z) (s' : net D) : Prop :=
  wf s' ∧ loopback_only s' ∧
  (∃ k', sockets s' !! i = Some k' ∧ ts_seq_num k' = u32 (ts_seq_num k + zlen data) ∧ ts_state k' = ts_state k) ∧
  (∃ kj', sockets s' !! j = Some kj' ∧ ts_rx kj' = ts_rx kj ++ data ∧ ts_rcv_nxt kj' = u32 (ts_seq_num k + zlen data) ∧
          ts_state kj' = TCP_ESTABLISHED).
Lemma transfer_ok sock i k j kj data s :
  wf s → loopback_only s → nmem s = [] →
  list_find (has_id sock) (sockets s) = Some (i, k) → ts_state k = TCP_ESTABLISHED ∨ ts_state k = TCP_CLOSE_WAIT →
  ts_remote_ip k = lo_ip → i ≠ j →
  list_find (addressed lo_ip (ts_local_port k) lo_ip (ts_remote_port k)) (sockets s) = Some (j, kj) → ts_state kj = TCP_ESTABLISHED →
  bytes data → 0 < zlen data ≤ TCP_MAX_SEGMENT → zlen (ts_rx kj) + zlen data ≤ TCP_RX_BUF_SIZE →
  wp (r <- tcp_send sock data (zlen data) ;; net_poll stack ;;; ret r)
     (λ r s', r = zlen data ∧ delivered s i j k kj data s') s.
Proof.
  intros W HL HM Fk Hst Hip Hij Fj Hj Hb Hd Hroom. apply wp_bind. unfold tcp_send. apply wp_bind, wp_gets. rewrite Fk. simpl.
  pose proof (list_find_lookup _ _ _ _ Fk) as [Ek _]. pose proof (Forall_lookup_1 _ _ _ _ (w_tcp _ W) Ek) as WK.
  apply wp_bind, (wp_ld_sock _ k); [done|]. case_decide; [destruct Hst; naive_solver|].
  destruct (Z.leb_spec (zlen data) 0); [lia|]. destruct (Z.ltb_spec TCP_MAX_SEGMENT (zlen data)); [lia|].
  apply wp_bind, (wp_lift _ data); [apply slice_all|]. apply wp_bind.
  eapply wp_mono; [by apply (tcp_send_lo i k)|]. intros r s1 ((Hr & csum & Hc & HF) & W1 & T1 & E1).
  destruct (Z.ltb_spec r 0); [lia|]. apply wp_ret. pose proof (loopback_only_kept _ _ (to_kept _ _ T1) HL) as L1.
  set (adv := advance r (Z.lor TCP_PSH TCP_ACK) (zlen data)) in *.
  assert (sockets s1 = alter adv i (sockets s)) as Es1 by (unfold sockets at 1; by rewrite E1). clear E1.
  assert (wf (set_lo [] s1)) as W1' by (apply wf_set_lo; [apply bytes_nil|done|done]).
  apply wp_bind. unfold wp at 1. rewrite (poll_segment k (Z.lor TCP_PSH TCP_ACK) csum data) by (done || lia).
  rewrite (handle_conn _ _ _ _ j kj); [|done|done|done|].
  2:{ unfold sockets. simpl. fold (sockets s1). rewrite Es1. by apply list_find_alter, Fj; [|intros; apply addressed_advance]. }
  unfold conn_run. rewrite established_data by (done || lia). match goal with |- ∃ a s', ?m ?t = _ ∧ @?Q a s' => change (wp m Q t) end.
  set (kj1 := ts_set_rcv _ _). apply wp_bind, wp_upd_sock. set (s2 := put_socks _ _).
  pose proof (list_find_lookup _ _ _ _ Fj) as [Ej _]. pose proof (Forall_lookup_1 _ _ _ _ (w_tcp _ W) Ej) as WJ.
  assert (sockets s2 = alter (λ _, kj1) j (alter adv i (sockets s))) as Es2 by (rewrite <- Es1; done).
  assert (tcp_wf kj1) as WJ1.
  { pose proof (on_segment_wf kj (Z.lor TCP_PSH TCP_ACK) (ts_seq_num k) data WJ (tw_seq _ WK) Hb) as HW.
    by rewrite established_data in HW by (done || lia). }
  assert (wf s2) as W2 by (apply wf_upd_sock; [done|by intros]).
  assert (j < length (sockets s))%nat as Lj by (by eapply lookup_lt_Some).
  apply wp_bind. eapply wp_mono; [apply tcp_send_packet_ok; [done|by rewrite Es2, !length_alter|apply bytes_nil|done]|].
  intros r2 s3 (W3 & T3 & E3). apply wp_ret, wp_ret. split; [done|]. split; [done|].
  split; [apply (loopback_only_kept s1); [|done]; etrans; [|apply T3]; by split|].
  assert (sockets s3 = alter (advance r2 TCP_ACK (zlen [])) j (sockets s2)) as Es3 by (unfold sockets at 1; by rewrite E3).
  rewrite Es3, Es2. split.
  - exists (adv k). rewrite !list_lookup_alter_ne by done. rewrite list_lookup_alter_eq, Ek. split; [done|].
    unfold adv, advance. change (flag _ _) with false. rewrite andb_false_r. destruct (Z.leb_spec 0 r); [|lia].
    destruct (Z.ltb_spec 0 (zlen data)); [|lia]. done.
  - exists (advance r2 TCP_ACK (zlen []) kj1). rewrite list_lookup_alter_eq, list_lookup_alter_eq, list_lookup_alter_ne, Ej by done.
    split; [done|]. unfold advance. change (flag _ _) with false. rewrite andb_false_r. change (0 <? zlen []) with false. by rewrite andb_false_r.
Qed.
End tcploop.

(** * The three-way handshake between two sockets of one machine *)

Lemma find_at (P : tcp_socket → Prop) `{!∀ k, Decision (P k)} l i k :
  l !! i = Some k → P k → (∀ j x, l !! j = Some x → (j < i)%nat → ¬ P x) → list_find P l = Some (i, k).
Proof. intros Ek HP Hb. apply list_find_Some. split; [done|]. split; [done|]. intros j x Hj Hlt HPx. by eapply Hb. Qed.
Lemma find_none (P : tcp_socket → Prop) `{!∀ k, Decision (P k)} l :
  (∀ j x, l !! j = Some x → ¬ P x) → list_find P l = None.
Proof. intros Hn. apply list_find_None, Forall_lookup. intros j x Hj. by eapply Hn. Qed.
(** A changed socket that neither was nor is looked for. *)
Lemma find_insert (P : tcp_socket → Prop) `{!∀ k, Decision (P k)} l i k' j x :
  i ≠ j → ¬ P k' → list_find P l = Some (j, x) → list_find P (<[i := k']> l) = Some (j, x).
Proof.
  intros Hne Hk F. apply list_find_Some in F as (Ej & HP & Hb). apply find_at; [by rewrite list_lookup_insert_ne|done|].
  intros m y Hm Hlt. destruct (decide (i = m)) as [->|Hn].
  - apply list_lookup_insert_Some in Hm as [(_ & <- & _)|(? & _)]; [done|congruence].
  - rewrite list_lookup_insert_ne in Hm by done. by eapply Hb.
Qed.

Lemma alter_insert (g : tcp_socket → tcp_socket) (i : nat) x (l : list tcp_socket) : alter g i (<[i := x]> l) = <[i := g x]> l.
Proof. revert i. induction l as [|y l IH]; intros [|i]; simpl; [done..|]. f_equal. apply IH. Qed.

Section handshake.
Context {D : Type} `{NetDriver D} (stack : nat).
Implicit Types s : net D.

Lemma advance_ack r k : advance r TCP_ACK (zlen []) k = k.
Proof. unfold advance. change (flag _ _) with false. rewrite andb_false_r. change (0 <? zlen []) with false. by rewrite andb_false_r. Qed.
Lemma after_send_sockets s s' r i flags n : after_send s s' r i flags n → sockets s' = alter (advance r flags n) i (sockets s).
Proof. intros (_ & _ & E). unfold sockets at 1. by rewrite E. Qed.
(** What is in the buffer: a segment of socket [k]. *)
Definition in_flight (k : tcp_socket) (flags : Z) s : Prop :=
  ∃ csum, zlen csum = 2 ∧ lo_frame IP_PROTO_TCP (tcp_hdr k flags csum ++ []) (loopback_buf s).
Definition ready s : Prop := wf s ∧ loopback_only s ∧ nmem s = [].
Lemma ready_only s s' : ready s → wf s' → tcp_only s s' → ready s'.
Proof. intros (_ & HL & HM) W [K _ _]. split; [done|]. split; [by eapply loopback_only_kept|by apply K]. Qed.
Lemma ready_empty s : ready s → ready (set_lo [] s).
Proof. intros (W & HL & HM). split; [apply wf_set_lo; [apply bytes_nil|done|done]|done]. Qed.

(** One poll, for a connection in the table: answered with an ACK or not. *)
Lemma poll_conn k flags j kj k' ack s :
  ready s → tcp_wf k → 0 ≤ flags < 64 → in_flight k flags s →
  list_find (addressed lo_ip (ts_local_port k) lo_ip (ts_remote_port k)) (sockets s) = Some (j, kj) →
  on_segment kj flags (ts_seq_num k) [] = (k', ack) → ts_remote_ip k' = lo_ip →
  wp (net_poll stack) (λ _ s', ready s' ∧ tcp_only s s' ∧ sockets s' = <[j := k']> (sockets s) ∧ (ack = true → in_flight k' TCP_ACK s')) s.
Proof.
  intros HR WK Hfl (csum & Hc & HF) Hfind Hon Hip. pose proof (ready_empty s HR) as HR0. destruct HR as (W & HL & HM).
  unfold wp. rewrite (poll_segment stack k flags csum []) by done.
  rewrite (handle_conn k flags csum [] j kj) by done. unfold conn_run. rewrite Hon.
  match goal with |- ∃ a s', ?m ?t = _ ∧ @?Q a s' => change (wp m Q t) end.
  apply list_find_lookup in Hfind as [Ej _]. pose proof (Forall_lookup_1 _ _ _ _ (w_tcp _ W) Ej) as WJ.
  assert (tcp_wf k') as WK' by (pose proof (on_segment_wf kj flags (ts_seq_num k) [] WJ (tw_seq _ WK) bytes_nil) as HW; by rewrite Hon in HW).
  apply wp_bind, wp_upd_sock. set (s2 := put_socks _ _).
  assert (sockets s2 = <[j := k']> (sockets s)) as Es2 by (unfold s2, put_socks, sockets; simpl; by rewrite list_insert_alter).
  assert (wf s2) as W2 by (apply wf_upd_sock; [apply HR0|by intros]).
  assert (tcp_only s s2) as T2 by by split.
  assert (ready s2) as R2 by (eapply ready_only; [split; [apply W|done]|done|done]).
  destruct ack; [|apply wp_ret; split; [done|]; split; [done|]; by split].
  assert (sockets s2 !! j = Some k') as Ej2 by (rewrite Es2; apply list_lookup_insert_eq; by eapply lookup_lt_Some).
  apply wp_bind. eapply wp_mono; [apply (tcp_send_lo j k'); [done|apply R2|apply R2|done|done|apply bytes_nil|done]|].
  intros r s3 ((_ & csum2 & Hc2 & HF2) & HA). apply wp_ret. pose proof (after_send_sockets _ _ _ _ _ _ HA) as Es3.
  destruct HA as (W3 & T3 & _). split; [by eapply ready_only|]. split; [by etrans|]. split; [|by exists csum2].
  rewrite Es3, list_alter_id; [done|]. intros x. apply advance_ack.
Qed.

(** ** Opening *)
Definition server_side (id : Z) (lk : tcp_socket) (p cp isn seq : Z) : tcp_socket :=
  mk_tcp id true TCP_SYN_RECEIVED (ts_local_ip lk) p lo_ip cp isn isn (u32 (seq + 1)) (u32 (seq + 1)) [] 0 [].
Definition queue (id : Z) (lk : tcp_socket) : tcp_socket := ts_set_pending (ts_backlog lk) (ts_pending lk ++ [id]) lk.
Definition syn_sent (k : tcp_socket) : tcp_socket := ts_set_seq (u32 (ts_seq_num k + 1)) k.
Lemma advance_syn r flags k : 0 ≤ r → flag flags (Z.lor TCP_SYN TCP_FIN) = true → advance r flags (zlen []) k = syn_sent k.
Proof.
  intros Hr Hf. unfold advance. rewrite Hf. destruct (Z.leb_spec 0 r); [|lia]. simpl andb. cbv iota.
  change (0 <? zlen []) with false. done.
Qed.

Lemma incoming_lo l lk f old p cp seq s :
  ready s → sockets s !! l = Some lk → ts_in_use lk = true → zlen (ts_pending lk) < ts_backlog lk →
  list_find unused (sockets s) = Some (f, old) → is_u16 p → is_u16 cp →
  wp (tcp_incoming l lo_ip cp p seq) (λ _ s', ready s' ∧ tcp_only s s' ∧ ∃ isn, let new := server_side (tcp_next_id (tcps s)) lk p cp isn seq in
     is_u32 isn ∧ sockets s' = <[f := syn_sent new]> (<[l := queue (ts_id new) lk]> (sockets s)) ∧
     in_flight new (Z.lor TCP_SYN TCP_ACK) s') s.
Proof.
  intros HR El HU Hpend F Hp Hcp. destruct HR as (W & HL & HM). unfold tcp_incoming. apply wp_bind, (wp_ld_sock _ lk); [done|].
  destruct (Z.leb_spec (ts_backlog lk) (zlen (ts_pending lk))); [lia|].
  apply wp_bind, wp_take_id. intros n1. apply wp_bind, wp_get. unfold sockets in F |- *. simpl. rewrite F.
  apply list_find_lookup in F as [Ei Hun]. apply wp_bind, wp_get_iss. intros iss Hiss. simpl. apply wp_bind, wp_upd_sock. simpl.
  pose proof (Forall_lookup_1 _ _ _ _ (w_tcp _ W) El) as WL.
  destruct (Z.ltb_spec (zlen (ts_pending lk)) TCP_BACKLOG_MAX); [|destruct WL; lia]. apply wp_bind, wp_upd_sock. simpl.
  set (new := mk_tcp _ _ _ _ _ _ _ _ _ _ _ _ _ _). set (t1 := put_socks _ _).
  assert (l ≠ f) as Hne by (intros ->; unfold sockets, unused in *; congruence).
  assert (tcp_wf new) as WN by (destruct WL; split; simpl; try done; try apply is_u32_u32; try apply bytes_nil; decided).
  assert (sockets t1 = <[f := new]> (<[l := queue (ts_id new) lk]> (sockets s))) as Es.
  { unfold t1, put_socks, sockets. simpl. rewrite <- list_insert_alter. fold (sockets s). rewrite (list_insert_insert_ne _ f l) by done.
    rewrite (list_insert_alter _ l (queue _ _)). apply list_alter_ext; [|done].
    intros x. rewrite list_lookup_insert_ne, El by done. by intros [= <-]. }
  assert (wf t1) as W1.
  { change t1 with (set_tcps (mk_tcps (sockets t1) n1 iss) s). apply wf_set_tcps; [| |done|done]; simpl; rewrite Es.
    - rewrite !length_insert. apply W.
    - apply Forall_insert; [apply Forall_insert; [apply W|]|done]. destruct WL; split; simpl; try done.
      unfold zlen in *. rewrite length_app. simpl. lia. }
  assert (tcp_only s t1) as T1 by by split. assert (ready t1) as R1 by (eapply ready_only; [by split|done|done]).
  assert (sockets t1 !! f = Some new) as Ef by (rewrite Es; apply list_lookup_insert_eq; rewrite length_insert; by eapply lookup_lt_Some).
  apply wp_bind. eapply wp_mono; [apply (tcp_send_lo f new); [done|apply R1|apply R1|done|done|apply bytes_nil|done]|].
  intros r s3 ((Hr & csum & Hc & HF) & HA). apply wp_ret. pose proof (after_send_sockets _ _ _ _ _ _ HA) as Es3. destruct HA as (W3 & T3 & _).
  split; [by eapply ready_only|]. split; [by etrans|]. exists iss. split; [done|]. split; [|by exists csum].
  fold (sockets s3) (sockets s). by rewrite Es3, Es, alter_insert, advance_syn.
Qed.

Definition ephemeral (sock : Z) (k : tcp_socket) : Z :=
  if ts_local_port k =? 0 then u16 (49152 + Z.rem sock 16384) else ts_local_port k.
Definition client_side (k : tcp_socket) (cp p isn : Z) : tcp_socket :=
  mk_tcp (ts_id k) (ts_in_use k) TCP_SYN_SENT lo_ip cp lo_ip p isn isn 0 0 (ts_rx k) (ts_backlog k) (ts_pending k).
Lemma client_wf k cp p isn : tcp_wf k → is_u16 cp → is_u16 p → is_u32 isn → tcp_wf (client_side k cp p isn).
Proof. intros []. split; simpl; try done; decided. Qed.
Lemma ephemeral_u16 sock k : tcp_wf k → is_u16 (ephemeral sock k).
Proof. intros []. unfold ephemeral. case_match; [apply is_u16_u16|done]. Qed.

Lemma connect_lo sock i k p s :
  ready s → list_find (has_id sock) (sockets s) = Some (i, k) → ts_state k = TCP_CLOSED → is_u16 p →
  wp (tcp_connect sock lo_ip p) (λ r s', r = 0 ∧ ready s' ∧ tcp_only s s' ∧ tcp_next_id (tcps s') = tcp_next_id (tcps s) ∧
    ∃ isn, let c := client_side k (ephemeral sock k) p isn in
      is_u32 isn ∧ sockets s' = <[i := syn_sent c]> (sockets s) ∧ in_flight c TCP_SYN s') s.
Proof.
  intros HR F Hst Hp. destruct HR as (W & HL & HM). unfold tcp_connect. apply wp_bind, wp_gets. rewrite F. simpl.
  apply list_find_lookup in F as [Ek _]. pose proof (Forall_lookup_1 _ _ _ _ (w_tcp _ W) Ek) as WK.
  apply wp_bind, (wp_ld_sock _ k); [done|]. rewrite decide_False by naive_solver. apply wp_bind, wp_gets. rewrite lo_iface by done.
  apply wp_bind, wp_get_iss. intros isn Hisn. apply wp_bind, wp_upd_sock. set (t1 := put_socks _ _).
  set (c := client_side k (ephemeral sock k) p isn).
  assert (tcp_wf c) as WC by (apply client_wf; [done|by apply ephemeral_u16|done|done]).
  assert (sockets t1 = <[i := c]> (sockets s)) as Es.
  { unfold t1, put_socks, sockets. simpl. rewrite list_insert_alter. fold (sockets s). apply list_alter_ext; [|done].
    intros x. rewrite Ek. by intros [= <-]. }
  assert (wf t1) as W1.
  { change t1 with (set_tcps (mk_tcps (sockets t1) (tcp_next_id (tcps s)) isn) s). apply wf_set_tcps; [| |done|done]; simpl; rewrite Es.
    - rewrite length_insert. apply W.
    - apply Forall_insert; [apply W|done]. }
  assert (tcp_only s t1) as T1 by by split. assert (ready t1) as R1 by (eapply ready_only; [by split|done|done]).
  assert (sockets t1 !! i = Some c) as Ei by (rewrite Es; apply list_lookup_insert_eq; by eapply lookup_lt_Some).
  apply wp_bind. eapply wp_mono; [apply (tcp_send_lo i c); [done|apply R1|apply R1|done|done|apply bytes_nil|done]|].
  intros r s3 ((Hr & csum & Hc & HF) & HA). apply wp_ret. split; [done|]. pose proof (after_send_sockets _ _ _ _ _ _ HA) as Es3.
  destruct HA as (W3 & T3 & ET). split; [by eapply ready_only|]. split; [by etrans|]. split; [by rewrite ET|].
  exists isn. split; [done|]. split; [|by exists csum]. by rewrite Es3, Es, alter_insert, advance_syn.
Qed.

Lemma poll_syn c l lk f old s :
  ready s → tcp_wf c → in_flight c TCP_SYN s →
  list_find (addressed lo_ip (ts_local_port c) lo_ip (ts_remote_port c)) (sockets s) = None →
  list_find (connecting lo_ip (ts_local_port c) (ts_remote_port c)) (sockets s) = None →
  list_find (listening (ts_remote_port c)) (sockets s) = Some (l, lk) → zlen (ts_pending lk) < ts_backlog lk →
  list_find unused (sockets s) = Some (f, old) →
  wp (net_poll stack) (λ _ s', ready s' ∧ tcp_only s s' ∧ ∃ isn,
     let new := server_side (tcp_next_id (tcps s)) lk (ts_remote_port c) (ts_local_port c) isn (ts_seq_num c) in
     is_u32 isn ∧ sockets s' = <[f := syn_sent new]> (<[l := queue (ts_id new) lk]> (sockets s)) ∧
     in_flight new (Z.lor TCP_SYN TCP_ACK) s') s.
Proof.
  intros HR WC (csum & Hc & HF) FA FC FL Hp FU. pose proof (ready_empty s HR) as HR0. destruct HR as (W & HL & HM).
  unfold wp. rewrite (poll_segment stack c TCP_SYN csum []) by done. unfold tcp_handle_packet. rewrite segment_parse by done.
  rewrite (bind_lift _ (Some _)) by done. unfold tcp_find_by_addr. rewrite bind_gets. simpl sg_src. simpl sg_dst.
  change (sockets (set_lo [] s)) with (sockets s). rewrite FA. cbn [fmap option_fmap option_map]. rewrite bind_gets.
  change (sockets (set_lo [] s)) with (sockets s). rewrite FC. cbn [fmap option_fmap option_map]. unfold tcp_find_listener. rewrite bind_gets.
  change (sockets (set_lo [] s)) with (sockets s). rewrite FL. cbn [fmap option_fmap option_map].
  change (flag _ TCP_SYN && negb (flag _ TCP_ACK)) with true. cbv iota. simpl sg_seq.
  apply list_find_lookup in FL as [El [HU _]]. destruct WC.
  destruct (incoming_lo l lk f old (ts_remote_port c) (ts_local_port c) (ts_seq_num c) (set_lo [] s)) as (a & s' & R & R' & T' & isn & HI); [done..|].
  exists a, s'. split; [exact R|]. split; [done|]. split; [etrans; [|exact T']; by split|]. by exists isn.
Qed.

(** ** The handshake *)

(** The socket is not one of the two ends of a connection between the ports. *)
Definition elsewhere (p cp : Z) (x : tcp_socket) : Prop :=
  ts_in_use x = true → ¬ (ts_local_port x = p ∧ ts_remote_port x = cp) ∧ ¬ (ts_local_port x = cp ∧ ts_remote_port x = p).
(** A listener on [p] of this machine, a closed socket, a free slot, and no other
    connection between the two ports. *)
Record can_open (sock p : Z) (l : list tcp_socket) (i : nat) (k : tcp_socket) (j : nat) (lk : tcp_socket) (f : nat) (old : tcp_socket) : Prop := {
  co_sock : list_find (has_id sock) l = Some (i, k);
  co_closed : ts_state k = TCP_CLOSED;
  co_listen : list_find (listening p) l = Some (j, lk);
  co_local : ts_local_ip lk = lo_ip;
  co_room : zlen (ts_pending lk) < ts_backlog lk;
  co_free : list_find unused l = Some (f, old);
  co_ports : ephemeral sock k ≠ p;
  co_else : ∀ m x, l !! m = Some x → m ≠ i → elsewhere p (ephemeral sock k) x
}.
(** Both ends established and addressed to each other, each expecting what the
    other sends next. *)
Definition connected (c v : tcp_socket) : Prop :=
  ts_state c = TCP_ESTABLISHED ∧ ts_state v = TCP_ESTABLISHED ∧
  ts_local_port c = ts_remote_port v ∧ ts_remote_port c = ts_local_port v ∧ ts_remote_ip c = lo_ip ∧ ts_remote_ip v = lo_ip ∧
  ts_local_ip c = lo_ip ∧ ts_local_ip v = lo_ip ∧ ts_ack_num c = ts_seq_num v ∧ ts_ack_num v = ts_seq_num c.

Lemma syn_ack_step c seq : ts_state c = TCP_SYN_SENT →
  on_segment c (Z.lor TCP_SYN TCP_ACK) seq [] = (ts_set_state TCP_ESTABLISHED (ts_set_rcv (u32 (seq + 1)) (ts_set_ack (u32 (seq + 1)) c)), true).
Proof. intros E. unfold on_segment. by rewrite E. Qed.
Lemma open_ack_step v seq : ts_state v = TCP_SYN_RECEIVED →
  on_segment v TCP_ACK seq [] = (ts_set_state TCP_ESTABLISHED (ts_set_ack seq v), false).
Proof. intros E. unfold on_segment. by rewrite E. Qed.

(** The SYN|ACK of [n] and the ACK of [c] are exchanged. *)
Lemma open_finish c n i f p cp s :
  ready s → i ≠ f → cp ≠ p → tcp_wf c → tcp_wf n → ts_in_use c = true → ts_in_use n = true →
  ts_state c = TCP_SYN_SENT → ts_state n = TCP_SYN_RECEIVED →
  ts_local_ip c = lo_ip → ts_remote_ip c = lo_ip → ts_local_port c = cp → ts_remote_port c = p →
  ts_local_ip n = lo_ip → ts_remote_ip n = lo_ip → ts_local_port n = p → ts_remote_port n = cp →
  in_flight n (Z.lor TCP_SYN TCP_ACK) s →
  sockets s !! i = Some (syn_sent c) → sockets s !! f = Some (syn_sent n) →
  (∀ m x, sockets s !! m = Some x → m ≠ i → m ≠ f → elsewhere p cp x) →
  wp (net_poll stack ;;; net_poll stack) (λ _ s', ready s' ∧ ∃ c' v, connected c' v ∧ ts_id c' = ts_id c ∧ ts_id v = ts_id n ∧ ts_rx v = ts_rx n ∧
     sockets s' = <[f := v]> (<[i := c']> (sockets s))) s.
Proof.
  intros HR Nif Hports WC WN Uc Un Sc Sn Lc Rc Pc Qc Ln Rn Pn Qn HF Ei Ef Helse.
  set (c' := ts_set_state TCP_ESTABLISHED (ts_set_rcv (u32 (ts_seq_num n + 1)) (ts_set_ack (u32 (ts_seq_num n + 1)) (syn_sent c)))).
  set (v := ts_set_state TCP_ESTABLISHED (ts_set_ack (ts_seq_num c') (syn_sent n))).
  assert (tcp_wf c') as WC' by (destruct WC; split; simpl; try done; apply is_u32_u32).
  apply wp_bind. eapply wp_mono; [apply (poll_conn n (Z.lor TCP_SYN TCP_ACK) i (syn_sent c) c' true); [done|done|done|done| |by apply syn_ack_step|done]|].
  { apply find_at; [done|by (split; [done|]; simpl; split; [done|]; split; [congruence|]; split; [done|congruence])|].
    intros m x Hm Hlt (U & _ & A & _ & B). destruct (decide (m = f)) as [->|Hmf]; [rewrite Ef in Hm; injection Hm as <-; simpl in *; congruence|].
    destruct (Helse m x Hm ltac:(lia) Hmf U) as [_ []]. split; congruence. }
  intros [] s1 (R1 & _ & E1 & F1). specialize (F1 eq_refl).
  assert (sockets s1 !! f = Some (syn_sent n)) as Ef1 by (by rewrite E1, list_lookup_insert_ne).
  eapply wp_mono; [apply (poll_conn c' TCP_ACK f (syn_sent n) v false); [done|done|done|done| |by apply open_ack_step|done]|].
  { apply find_at; [done|by (split; [done|]; simpl; split; [done|]; split; [congruence|]; split; [done|congruence])|].
    intros m x Hm Hlt (U & _ & A & _ & B). rewrite E1 in Hm. apply list_lookup_insert_Some in Hm as [(<- & <- & _)|(Hmi & Hm)].
    - simpl in *. congruence.
    - destruct (Helse m x Hm ltac:(done) ltac:(lia) U) as [[] _]. simpl in *. split; congruence. }
  intros [] s2 (R2 & _ & E2 & _). split; [done|]. exists c', v. rewrite E2, E1.
  unfold connected. simpl. repeat split; congruence.
Qed.

Lemma handshake_ok sock p i k j lk f old s :
  ready s → is_u16 p → can_open sock p (sockets s) i k j lk f old →
  wp (r <- tcp_connect sock lo_ip p ;; net_poll stack ;;; net_poll stack ;;; net_poll stack ;;; ret r)
     (λ r s', r = 0 ∧ ready s' ∧ ∃ c v, connected c v ∧ ts_id c = ts_id k ∧ ts_rx v = [] ∧
        sockets s' !! i = Some c ∧ sockets s' !! f = Some v ∧ sockets s' !! j = Some (queue (ts_id v) lk)) s.
Proof.
  intros HR Hp [FS Hcl FL Hlo Hroom FU Hports Helse]. set (cp := ephemeral sock k) in *. set (L := sockets s) in *.
  pose proof (list_find_lookup _ _ _ _ FS) as [Ek [Uk _]]. pose proof (list_find_lookup _ _ _ _ FL) as [El [Ul [Sl Pl]]].
  pose proof (list_find_lookup _ _ _ _ FU) as [Ef Uf]. unfold unused in Uf.
  assert (i ≠ j) as Nij by (intros ->; congruence). assert (i ≠ f) as Nif by (intros ->; congruence).
  assert (j ≠ f) as Njf by (intros ->; congruence).
  assert (is_u16 cp) as Hcp by (apply ephemeral_u16; by apply (Forall_lookup_1 _ _ _ _ (w_tcp _ (proj1 HR)) Ek)).
  pose proof (Forall_lookup_1 _ _ _ _ (w_tcp _ (proj1 HR)) Ek) as WK.
  assert (i < length L)%nat as Li by (by eapply lookup_lt_Some). assert (j < length L)%nat as Lj by (by eapply lookup_lt_Some).
  assert (f < length L)%nat as Lf by (by eapply lookup_lt_Some).
  apply wp_bind. eapply wp_mono; [by apply (connect_lo sock i k p)|]. intros r s1 (-> & R1 & _ & _ & isn & Hisn & E1 & F1).
  fold cp in E1, F1. set (c := client_side k cp p isn) in *. fold L in E1.
  assert (tcp_wf c) as WC by by apply client_wf.
  assert (∀ m x, sockets s1 !! m = Some x → m = i ∧ x = syn_sent c ∨ m ≠ i ∧ L !! m = Some x ∧ elsewhere p cp x) as H1.
  { intros m x Hm. rewrite E1 in Hm. apply list_lookup_insert_Some in Hm as [(<- & <- & _)|(Hm1 & Hm2)]; [by left|right; eauto]. }
  apply wp_bind. eapply wp_mono; [apply (poll_syn c j lk f old); [done|done|done| | | |done|]|].
  { apply find_none. intros m x Hm (U & _ & A & _ & B). destruct (H1 m x Hm) as [[_ ->]|(_ & _ & He)]; [by apply Hports|]. by destruct (He U) as [[] _]. }
  { apply find_none. intros m x Hm (U & A & _ & _ & B). destruct (H1 m x Hm) as [[_ ->]|(_ & _ & He)]; [by apply Hports|]. by destruct (He U) as [[] _]. }
  { rewrite E1. apply find_insert; [done|by intros (_ & [=] & _)|done]. }
  { rewrite E1. apply find_insert; [done|unfold unused; simpl; congruence|done]. }
  intros [] s2 (R2 & _ & isn2 & Hisn2 & E2 & F2). set (n := server_side _ _ _ _ _ _) in *. simpl in E2.
  assert (tcp_wf n) as WN by (split; simpl; try done; try apply is_u32_u32; try apply bytes_nil; rewrite ?Hlo; decided).
  rewrite E1 in E2.
  destruct (open_finish c n i f p cp s2) as ([] & s4 & Run & R4 & c' & v & HC & Ic & Iv & Rv & E4); try done.
  { rewrite E2, list_lookup_insert_ne, list_lookup_insert_ne, list_lookup_insert_eq by done. done. }
  { rewrite E2, list_lookup_insert_eq; [done|]. by rewrite !length_insert. }
  { intros m x Hm Hmi Hmf. rewrite E2, list_lookup_insert_ne in Hm by done.
    apply list_lookup_insert_Some in Hm as [(<- & <- & _)|(Hmj & Hm)].
    - by apply (Helse j lk El).
    - rewrite list_lookup_insert_ne in Hm by done. by apply (Helse m x Hm). }
  exists 0, s4. split; [|split; [done|split; [done|]]].
  { unfold bind in Run |- *. destruct (net_poll stack s2) as [[[] s3]|]; [|done]. by rewrite Run. }
  exists c', v. split; [done|]. split; [by rewrite Ic|]. split; [by rewrite Rv|]. rewrite E4, E2.
  rewrite !list_lookup_insert_ne, list_lookup_insert_eq by (done || by rewrite ?length_insert). split; [done|].
  rewrite list_lookup_insert_eq by by rewrite !length_insert. split; [done|].
  rewrite !list_lookup_insert_ne, list_lookup_insert_eq by (done || by rewrite ?length_insert). by rewrite Iv.
Qed.
End handshake.
