(* ===== verification/ClientThms.v ===== *)
(** * The DNS, DHCP and HTTP clients: encoding and parsing, and what they do over a
    stack without UDP sockets.

    No code of the source puts a UDP socket in use ([udp_sockets] is cleared at
    start-up and only read and written behind a test of [in_use]), so the clients
    wait for datagrams that cannot arrive. *)
From S2P Require Import Prelude Bytes NetBase NetLib Inet Tcp Ipv6 NetPoll Dns Dhcp Http NetInv NetSafe NetRecv TcpThms NetLoop.
Local Open Scope Z_scope.
Local Open Scope kernel_scope.

(** ** The question *)
Lemma split_dot_len p : let '(seg, rest) := split_dot p in
  (length rest < length p ∧ length seg + 1 + length rest = length p)%nat ∨ (rest = [] ∧ seg = p).
Proof.
  induction p as [|c p IH]; cbn [split_dot]; [by right|]. destruct (Z.eqb_spec c 46); [left; simpl; lia|].
  destruct (split_dot p) as [seg rest]. destruct IH as [[H1 H2]|[-> ->]]; [left; simpl; lia|by right].
Qed.
Lemma encode_labels_len fuel p : (length p ≤ fuel)%nat → zlen (encode_labels fuel p) ≤ zlen p + 2.
Proof.
  revert p. induction fuel as [|fuel IH]; intros p Hf; [destruct p; [done|simpl in Hf; lia]|].
  destruct p as [|c p]; [done|]. cbn [encode_labels]. pose proof (split_dot_len (c :: p)) as HS.
  destruct (split_dot (c :: p)) as [seg rest]. rewrite zlen_cons, zlen_app. set (n := if _ <? _ then _ else _).
  assert (zlen (take (Z.to_nat n) seg) ≤ zlen seg) by (unfold zlen; rewrite length_take; lia).
  destruct HS as [[H1 H2]|[-> ->]].
  - specialize (IH rest ltac:(simpl in *; lia)). unfold zlen in *. lia.
  - destruct fuel; cbn [encode_labels]; unfold zlen in *; simpl in *; lia.
Qed.
Lemma encode_bytes fuel p : bytes p → bytes (encode_labels fuel p).
Proof.
  revert p. induction fuel as [|fuel IH]; intros [|c p] HB; cbn [encode_labels]; try (by auto with bytes).
  assert (∀ p, bytes p → bytes (split_dot p).1 ∧ bytes (split_dot p).2) as HS.
  { clear. induction p as [|c p IH]; intros HB; cbn [split_dot]; [done|]. apply Forall_cons in HB as [Hc HB].
    destruct (Z.eqb_spec c 46); [split; [apply bytes_nil|done]|]. destruct (split_dot p) as [seg rest]. destruct (IH HB).
    split; [by constructor|done]. }
  destruct (HS _ HB) as [H1 H2]. destruct (split_dot (c :: p)) as [seg rest]. simpl in H1, H2. auto 10 with bytes.
Qed.
Lemma dns_packet_ok hostname : bytes hostname →
  ∃ pkt, dns_packet hostname = Some pkt ∧ bytes pkt ∧ zlen pkt = 20 + 2 * zlen hostname ∧
    12 + zlen (dns_encode_name hostname) + 4 ≤ zlen pkt ∧ zlen (dns_encode_name hostname) ≤ zlen hostname + 2.
Proof.
  intros HB. pose proof (encode_labels_len (length hostname) hostname (Nat.le_refl _)) as HL. pose proof (zlen_nonneg hostname).
  fold (dns_encode_name hostname) in HL. unfold dns_packet.
  assert (bytes (dns_header ++ dns_encode_name hostname ++ [0; DNS_TYPE_A; 0; DNS_CLASS_IN])) as HB2.
  { apply bytes_app; [unfold dns_header; eauto 10 with bytes|]. apply bytes_app; [by apply encode_bytes|].
    unfold DNS_TYPE_A, DNS_CLASS_IN. auto with bytes. }
  set (bs := dns_header ++ _) in *. assert (zlen bs = 12 + zlen (dns_encode_name hostname) + 4) as Lb.
  { unfold bs. rewrite !zlen_app. change (zlen dns_header) with 12. change (zlen [0; DNS_TYPE_A; 0; DNS_CLASS_IN]) with 4. lia. }
  destruct (Z.ltb_spec (DNS_HDR_LEN + (zlen hostname * 2 + 4) + 4) (zlen bs)) as [Hlt|_]; [unfold DNS_HDR_LEN in *; lia|].
  eexists. split; [done|]. unfold DNS_HDR_LEN. split; [auto with bytes|]. rewrite zlen_app, zlen_replicate. lia.
Qed.

(** The reference encoding: every label behind its length, then the root. *)
Definition join (labels : list (list Z)) : list Z := foldr (λ l acc, match acc with [] => l | _ => l ++ 46 :: acc end) [] labels.
Definition label_ok (l : list Z) : Prop := 1 ≤ zlen l ≤ MAX_LABEL ∧ Forall (λ c, c ≠ 46) l.
Lemma split_dot_label l rest : Forall (λ c, c ≠ 46) l → split_dot (l ++ 46 :: rest) = (l, rest) ∧ split_dot l = (l, []).
Proof.
  induction 1 as [|c l Hc _ [IH1 IH2]]; [done|]. cbn [app split_dot]. rewrite IH1, IH2. by destruct (Z.eqb_spec c 46).
Qed.
Lemma encode_join fuel labels : Forall label_ok labels → (length (join labels) ≤ fuel)%nat →
  encode_labels fuel (join labels) = concat ((λ l, zlen l :: l) <$> labels) ++ [0].
Proof.
  intros HF. revert fuel. induction HF as [|l labels [Hl Hd] HF IH]; intros fuel Hf; [by destruct fuel|].
  assert (l ≠ []) as Hne by (intros ->; unfold zlen in Hl; simpl in Hl; lia).
  assert (take (Z.to_nat (if MAX_LABEL <? zlen l then MAX_LABEL else zlen l)) l = l ∧ u8 (if MAX_LABEL <? zlen l then MAX_LABEL else zlen l) = zlen l) as [Et Eu].
  { destruct (Z.ltb_spec MAX_LABEL (zlen l)); [lia|]. unfold zlen at 1. rewrite Nat2Z.id, firstn_all. split; [done|].
    unfold u8, MAX_LABEL in *. apply Z.mod_small. lia. }
  cbn [fmap list_fmap concat]. cbn [join foldr] in *. fold (join labels) in *. rewrite <- app_assoc. cbn [app].
  destruct (join labels) as [|c acc] eqn:Ej.
  - destruct fuel as [|fuel]; [destruct l; simpl in Hf; [done|lia]|]. destruct l as [|x l]; [done|].
    cbn [encode_labels]. rewrite (proj2 (split_dot_label (x :: l) [] Hd)). rewrite Et, Eu. rewrite <- (IH fuel) by (simpl; lia). done.
  - destruct fuel as [|fuel]; [destruct l; simpl in Hf; [done|lia]|]. destruct (l ++ 46 :: c :: acc) as [|y q] eqn:Eq; [by destruct l|].
    cbn [encode_labels]. rewrite <- Eq, (proj1 (split_dot_label l (c :: acc) Hd)). rewrite Et, Eu. rewrite <- (IH fuel); [done|].
    rewrite <- Eq, length_app in Hf. simpl in Hf. destruct l; [done|simpl in *; lia].
Qed.

(** ** The answer *)
(** A turn moves on by at least two bytes. *)
Lemma skip_question_ok rx fuel pos : bytes rx → 0 ≤ pos → Z.max 0 (zlen rx - pos) < Z.of_nat fuel →
  ∃ p, skip_question fuel rx pos = Some p ∧ 0 ≤ p.
Proof.
  intros HB. revert pos. induction fuel as [|fuel IH]; intros pos Hp Hf; [lia|]. cbn [skip_question].
  destruct (Z.ltb_spec pos (zlen rx)); [|by exists pos]. cbv beta iota delta [negb]. destruct (rd8_ok rx pos) as (b & -> & Hb); [lia..|].
  specialize (Hb HB). unfold is_byte in Hb. cbn [mbind option_bind]. destruct (Z.eqb_spec b 0); [by exists pos|].
  case_match; [eexists; split; [done|lia]|]. apply IH; lia.
Qed.
Lemma skip_labels_ok rx fuel pos : bytes rx → 0 ≤ pos → Z.max 0 (zlen rx - pos) < Z.of_nat fuel →
  ∃ p, skip_labels fuel rx pos = Some p ∧ 0 ≤ p.
Proof.
  intros HB. revert pos. induction fuel as [|fuel IH]; intros pos Hp Hf; [lia|]. cbn [skip_labels].
  destruct (Z.ltb_spec pos (zlen rx)); [|by exists pos]. cbv beta iota delta [negb]. destruct (rd8_ok rx pos) as (b & -> & Hb); [lia..|].
  specialize (Hb HB). unfold is_byte in Hb. cbn [mbind option_bind]. destruct (Z.eqb_spec b 0); [by exists pos|].
  case_match; [by exists pos|]. apply IH; lia.
Qed.
Lemma scan_answers_ok rx n pos : bytes rx → 0 ≤ pos →
  ∃ o, scan_answers n rx pos = Some o ∧ ∀ ip, o = Some ip → array 4 ip.
Proof.
  intros HB. revert pos. induction n as [|n IH]; intros pos Hp; cbn [scan_answers]; [by exists None|].
  case_match; [by exists None|]. destruct (rd8_ok rx pos) as (b & -> & _); [lia..|]. cbn [mbind option_bind].
  assert (∃ o, (if Z.land b 0xC0 =? 0xC0 then Some (Some (pos + 2))
     else p ← skip_labels (S (length rx)) rx pos; Some (if zlen rx <=? p then None else Some (p + 1))) = Some o ∧ ∀ p, o = Some p → 0 ≤ p) as (o & -> & Ho).
  { case_match; [eexists; split; [done|]; intros ? [= <-]; lia|].
    destruct (skip_labels_ok rx (S (length rx)) pos HB Hp) as (p & -> & Hp2); [unfold zlen; lia|]. cbn [mbind option_bind].
    case_match; (eexists; split; [done|]; [done || (intros ? [= <-]; lia)]). }
  cbn [mbind option_bind]. destruct o as [q|]; [|by exists None]. specialize (Ho q eq_refl). case_match; [by exists None|].
  destruct (rd16_ok rx q) as (v1 & -> & _); [lia..|]. destruct (rd16_ok rx (q + 2)) as (v2 & -> & _); [lia..|].
  destruct (rd16_ok rx (q + 8)) as (v3 & -> & _); [lia..|]. cbn [mbind option_bind]. pose proof (ntohs_bound v3).
  case_match eqn:EA.
  - destruct (rd_ok rx (q + 10) 4) as (ip & -> & Hl & Hb); [lia..|]. cbn [mbind option_bind]. eexists. split; [done|].
    intros ? [= <-]. split; [unfold zlen in *; lia|auto].
  - case_match; [by exists None|]. apply IH. lia.
Qed.
Lemma dns_parse_ok rx : bytes rx → ∃ r, dns_parse rx = Some r ∧ ∀ ip, r = DnsAddr ip → array 4 ip.
Proof.
  intros HB. unfold dns_parse, DNS_HDR_LEN. case_match; [by exists DnsIgnored|].
  destruct (rd16_ok rx 0) as (v1 & -> & _); [lia..|]. cbn [mbind option_bind]. case_match; [by exists DnsIgnored|].
  destruct (rd16_ok rx 4) as (v2 & -> & _); [lia..|]. cbn [mbind option_bind]. case_match; [by exists DnsIgnored|].
  destruct (rd16_ok rx 6) as (v3 & -> & _); [lia..|]. cbn [mbind option_bind]. set (an := if 32 <? ntohs v3 then _ else _).
  case_match; [by exists DnsEmpty|].
  destruct (skip_question_ok rx (S (length rx)) 12 HB) as (p & -> & Hp); [lia|unfold zlen; lia|]. cbn [mbind option_bind].
  destruct (scan_answers_ok rx (Z.to_nat an) (p + 1 + 4) HB) as (o & -> & Ho); [lia|]. cbn [mbind option_bind].
  destruct o as [ip|]; (eexists; split; [done|]); [intros ? [= <-]; by apply Ho|done].
Qed.

Definition deaf {D} (s : net D) : Prop := Forall (λ u, us_in_use u = false) (udp_sockets s).
Lemma deaf_kept {D} (s s' : net D) : kept s s' → deaf s → deaf s'.
Proof.
  unfold deaf. intros [_ _ _ _ _ E _] HD. apply Forall_lookup. intros i u Hu.
  assert (((λ u, (us_in_use u, us_port u)) <$> udp_sockets s') !! i = Some (us_in_use u, us_port u)) as E' by (by rewrite list_lookup_fmap, Hu).
  rewrite E, list_lookup_fmap in E'. destruct (udp_sockets s !! i) as [v|] eqn:Ev; [|done]. simpl in E'. injection E' as <- _.
  apply (Forall_lookup_1 _ _ _ _ HD Ev).
Qed.

Section clients.
Context {D : Type} `{NetDriver D} `{!NetDriverLaws D} (stack : nat).
Implicit Types s : net D.
(** What the clients need of the state, and what they leave. *)
Record idle s : Prop := { id_stack : (0 < stack)%nat; id_wf : wf s; id_quiet : quiet s; id_deaf : deaf s }.
Lemma idle_handled {A} (a : A) s s' : idle s → handled s a s' → idle s'.
Proof. intros [] (W & K & _). split; [done|done|by eapply quiet_kept|by eapply deaf_kept]. Qed.

Lemma udp_recv_deaf port n s : deaf s → udp_recvfrom port n s = Some ((-1, [], [], 0), s).
Proof.
  intros HD. unfold udp_recvfrom. case_match; [done|]. unfold bind, get.
  destruct (list_find (udp_ready port) (udp_sockets s)) as [[i u]|] eqn:F; [|done].
  apply list_find_Some in F as (Eu & [[Hu _] _] & _). pose proof (Forall_lookup_1 _ _ _ _ HD Eu). simpl in *. congruence.
Qed.
(** A loop that polls and receives: a turn in an idle state. *)
Lemma poll_recv_deaf {A} port n (k : Z * list Z * list Z * Z → NM D A) (Q : A → net D → Prop) s :
  idle s → (∀ s', handled s tt s' → idle s' → wp (k (-1, [], [], 0)) Q s') →
  wp (net_poll stack ;;; r <- udp_recvfrom port n ;; k r) Q s.
Proof.
  intros [Hf W HQ HD] Hk. apply wp_bind. eapply wp_mono; [by apply net_poll_ok|]. intros [] s1 HS.
  assert (idle s1) as I1 by (eapply idle_handled; [by split|done]).
  apply wp_bind. eexists _, _. split; [by apply udp_recv_deaf, I1|]. by apply Hk.
Qed.

(** ** DNS *)
Lemma dns_wait_deaf n hash s : idle s → wp (dns_wait stack n hash) (λ r s', r = (-1, []) ∧ handled s r s') s.
Proof.
  revert s. induction n as [|n IH]; intros s HI; cbn [dns_wait]; [apply wp_ret; split; [done|by apply handled_refl, HI]|].
  apply poll_recv_deaf; [done|]. intros s1 HS I1. simpl. eapply wp_mono; [by apply IH|].
  intros r s2 [-> H2]. split; [done|]. by eapply handled_trans.
Qed.
Lemma dns_query_deaf hostname s : idle s → array 4 (dns_server_ip (cl s)) → Forall dns_free (dns_cache (cl s)) →
  bytes hostname → zlen hostname ≤ 60000 →
  wp (dns_query stack hostname) (λ r s', r = (-1, []) ∧ handled s r s') s.
Proof.
  intros HI Hsrv HC HB Hl. unfold dns_query. pose proof (zlen_nonneg hostname). apply wp_bind, wp_gets.
  destruct (list_find _ _) as [[i e]|] eqn:F.
  { apply list_find_Some in F as (Ee & [HV _] & _). pose proof (Forall_lookup_1 _ _ _ _ HC Ee) as HF. unfold dns_free in HF. congruence. }
  apply wp_bind, wp_nalloc. intros b l Hb0. assert (handled s tt (set_nmem l s)) as H1 by (apply handled_nmem; [apply HI|naive_solver]).
  pose proof (idle_handled _ _ _ HI H1) as I1. destruct b; cbv beta iota delta [negb]; [|by apply wp_ret].
  destruct (dns_packet_ok hostname HB) as (pkt & Ep & Bp & Lp & Hfit & Hname). apply wp_bind, (wp_lift _ _ _ _ Ep), wp_bind.
  pose proof (zlen_nonneg (dns_encode_name hostname)). unfold DNS_HDR_LEN, u16. rewrite Z.mod_small by lia.
  eapply wp_mono; [apply udp_send_ok; [apply I1|done|done|unfold is_u16; lia|lia|lia]|]. intros r s2 HS. apply sending_handled in HS.
  pose proof (handled_trans _ _ _ _ _ H1 HS) as HT. case_match; [by apply wp_ret|].
  eapply wp_mono; [apply dns_wait_deaf; by eapply idle_handled|]. intros r2 s3 [-> HU]. split; [done|]. by eapply handled_trans.
Qed.

(** ** DHCP *)
Lemma dhcp_hdr_ok xid mac : array 6 mac → bytes (dhcp_hdr xid mac) ∧ zlen (dhcp_hdr xid mac) = 240.
Proof.
  intros Hm. unfold dhcp_hdr. split; [eauto 20 with bytes|]. rewrite !zlen_app, (array_zlen 6 mac Hm).
  rewrite !zlen_be32, zlen_be16, !zlen_replicate, !zlen_cons, !zlen_nil. lia.
Qed.
Lemma dhcp_send_ok room options s : wf s → bytes (options (cl s)) → zlen (options (cl s)) ≤ room ≤ 1000 →
  wp (dhcp_send room options) (λ r s', (r = -1 ∨ r = 0) ∧ handled s r s') s.
Proof.
  intros W HB Hr. unfold dhcp_send, net_get_interface. pose proof (handled_refl tt s W). apply wp_bind, wp_bind, wp_get, wp_ret.
  destruct (net_ifs s) as [|i ifs] eqn:Ei; [apply wp_ret; split; [by left|done]|].
  change ((0 <? 0) || (Z.of_nat (length (i :: ifs)) <=? 0)) with false. cbv iota.
  apply wp_bind, wp_get, wp_bind, (wp_lift _ i); [by rewrite Ei|]. apply wp_bind, wp_nalloc. intros b l Hb.
  assert (handled s tt (set_nmem l s)) as H1 by (apply handled_nmem; [done|naive_solver]).
  destruct b; cbv beta iota delta [negb]; [|apply wp_ret; split; [by left|done]]. destruct (Z.ltb_spec room (zlen (options (cl s)))); [lia|].
  pose proof (w_ifs _ W) as WI. rewrite Ei in WI. apply Forall_cons in WI as [[_ HM _] _].
  destruct (dhcp_hdr_ok (dhcp_xid (cl s)) (if_mac i) HM) as [Bh Lh]. pose proof (zlen_nonneg (options (cl s))).
  apply wp_bind. unfold DHCP_HDR_LEN, u16. rewrite (Z.mod_small (240 + zlen (options (cl s)))) by lia.
  eapply wp_mono; [apply udp_send_ok; [apply H1|by decided| |unfold is_u16; lia|rewrite !zlen_app, Lh, zlen_replicate; lia|lia]|]; [auto with bytes|].
  intros r s2 HS. apply sending_handled in HS. pose proof (handled_trans _ _ _ _ _ H1 HS).
  case_match; apply wp_ret; (split; [|done]); auto.
Qed.
Lemma offer_wait_deaf n s : idle s → wp (offer_wait stack n) (λ r s', r = -1 ∧ handled s r s') s.
Proof.
  revert s. induction n as [|n IH]; intros s HI; cbn [offer_wait]; [apply wp_ret; split; [done|by apply handled_refl, HI]|].
  apply poll_recv_deaf; [done|]. intros s1 HS I1. simpl. apply wp_bind, wp_gets, wp_bind, (wp_lift _ None); [done|].
  case_decide; [|discriminate]. eapply wp_mono; [by apply IH|]. intros r s2 [-> H2]. split; [done|]. by eapply handled_trans.
Qed.
Lemma dhcp_steps_deaf s : idle s → wp (dhcp_steps stack) (λ r s', r = -1 ∧ handled s r s') s.
Proof.
  intros HI. unfold dhcp_steps, dhcp_discover. apply wp_bind. eapply wp_mono; [apply dhcp_send_ok; [apply HI| |]|].
  - unfold discover_options. by decided.
  - split; [by vm_compute|lia].
  - intros r s1 [Hr H1]. case_match; [by apply wp_ret|]. apply wp_bind. unfold dhcp_handle_offer.
    eapply wp_mono; [apply offer_wait_deaf; by eapply idle_handled|]. intros r2 s2 [-> H2]. simpl. apply wp_ret.
    split; [done|]. by eapply handled_trans.
Qed.
Lemma wf_set_cl c s : wf s → wf (set_cl c s).
Proof. intros []. by split. Qed.
Lemma idle_set_cl c s : idle s → idle (set_cl c s).
Proof. intros []. split; [done|by apply wf_set_cl|done|done]. Qed.
(** An idle state after DHCP has touched nothing but its own variables. *)
Record as_before s s' : Prop := {
  ab_idle : idle s';
  ab_ifs : net_ifs s' = net_ifs s;
  ab_devs : net_devs s' = net_devs s;
  ab_list : netdev_list s' = netdev_list s;
  ab_if6 : ipv6_ifaces (v6 s') = ipv6_ifaces (v6 s);
  ab_server : dns_server_ip (cl s') = dns_server_ip (cl s);
  ab_cache : dns_cache (cl s') = dns_cache (cl s)
}.
Lemma handled_as_before {A} (a : A) s s' : idle s → handled s a s' → as_before s s'.
Proof. intros HI HS. pose proof (idle_handled _ _ _ HI HS). destruct HS as (_ & [] & _). split; congruence. Qed.
Lemma as_before_trans s1 s2 s3 : as_before s1 s2 → as_before s2 s3 → as_before s1 s3.
Proof. intros [] []. split; congruence. Qed.
Lemma dhcp_init_deaf s : idle s → wp (dhcp_init stack) (λ r s', r = 0 ∧ as_before s s') s.
Proof.
  intros HI. unfold dhcp_init, net_get_interface_count. apply wp_bind, wp_modify. set (s1 := set_cl _ s).
  assert (as_before s s1) as B1 by (split; [by apply idle_set_cl|done..]).
  apply wp_bind, wp_gets, wp_bind. case_match; [|apply wp_ret, wp_ret; by split]. apply wp_bind.
  eapply wp_mono; [apply dhcp_steps_deaf, B1|]. intros r s2 [_ HS]. apply wp_ret, wp_ret. split; [done|].
  eapply as_before_trans; [done|]. eapply handled_as_before; [apply B1|done].
Qed.
Lemma dhcp_run_deaf s : idle s → wp (dhcp_run stack) (λ r s', r = -1 ∧ as_before s s') s.
Proof.
  intros HI. unfold dhcp_run. apply wp_bind, wp_gets, wp_bind. apply (wp_mono _ (λ _ s', as_before s s')).
  - case_match; [|by apply wp_ret]. apply wp_bind. eapply wp_mono; [by apply dhcp_init_deaf|]. intros r s1 [_ B1]. by apply wp_ret.
  - intros [] s1 B1. eapply wp_mono; [apply dhcp_steps_deaf, B1|]. intros r s2 [-> HS]. split; [done|].
    eapply as_before_trans; [done|]. eapply handled_as_before; [apply B1|done].
Qed.

(** ** HTTP *)
Lemma host_part_len p : let '(h, r) := host_part p in (length h + length r = length p)%nat ∧ (bytes p → bytes h ∧ bytes r).
Proof.
  induction p as [|c p IH]; cbn [host_part]; [done|]. destruct ((c =? 58) || (c =? 47)); [simpl; auto with bytes|].
  destruct (host_part p) as [h r]. destruct IH as [IH1 IH2]. split; [simpl; lia|]. intros HB. apply Forall_cons in HB as [Hc HB].
  destruct (IH2 HB). split; [by constructor|done].
Qed.
Lemma port_part_ok c p : is_u16 c → is_u16 (port_part c p).1.
Proof. revert c. induction p as [|x p IH]; intros c Hc; cbn [port_part]; [done|]. case_match; [apply IH, is_u16_u16|done]. Qed.
Lemma parse_url_ok url hsize psize host port path : 2 ≤ psize →
  http_parse_url url hsize psize = Some (host, port, path) →
  0 < zlen host < hsize ∧ is_u16 port ∧ 0 < zlen path < psize ∧ (bytes url → bytes host).
Proof.
  intros Hp. unfold http_parse_url. set (p := if decide _ then _ else _).
  assert (bytes url → bytes p) as HBp by (unfold p; case_decide; auto with bytes). clearbody p.
  pose proof (host_part_len p) as HL. destruct (host_part p) as [h r]. destruct HL as [_ HB].
  destruct ((zlen h <=? 0) || (hsize <=? zlen h)) eqn:E0; [done|]. intros E.
  set (pp := if starts 58 r then _ else _) in E. assert (is_u16 pp.1) as Hpp.
  { assert (is_u16 HTTP_DEFAULT_PORT) by (unfold is_u16, HTTP_DEFAULT_PORT; lia). unfold pp. destruct (starts 58 r); [|done].
    pose proof (port_part_ok 0 (drop 1 r) ltac:(unfold is_u16; lia)) as HO. destruct (port_part 0 (drop 1 r)). simpl in *. by case_match. }
  destruct pp as [po q]. simpl in Hpp. injection E as <- <- <-. split; [lia|]. split; [done|]. split; [|intros; by apply HB, HBp].
  assert (0 < zlen [47] < psize) by (unfold zlen; simpl; lia). destruct (starts 47 q); [|done]. case_match; [|done].
  split; [lia|]. unfold zlen. rewrite length_take. lia.
Qed.
Lemma http_get_deaf url n s : idle s → array 4 (dns_server_ip (cl s)) → Forall dns_free (dns_cache (cl s)) → bytes url →
  wp (http_get stack url n) (λ r s', r = (-1, []) ∧ handled s r s') s.
Proof.
  intros HI Hsrv HC HB. unfold http_get. assert (∀ A (a : A), handled s a s) as HR by (intros; by apply handled_refl, HI).
  case_match; [by apply wp_ret|]. destruct (http_parse_url url HOST_SIZE PATH_SIZE) as [[[host port] path]|] eqn:E; [|by apply wp_ret].
  apply parse_url_ok in E as (Hh & _ & _ & Hb); [|unfold PATH_SIZE; lia]. unfold HOST_SIZE in Hh. apply wp_bind.
  eapply wp_mono; [apply dns_query_deaf; [done|done|done|auto|lia]|]. intros r s1 [-> H1]. by apply wp_ret.
Qed.

(** ** Start-up without a hardware device *)
Record cold s : Prop := {
  c_ifs : net_ifs s = [];
  c_list : netdev_list s = 0;
  c_if6 : ipv6_ifaces (v6 s) = [];
  c_wf : wf s
}.
Lemma wf_clear s : cold s → wf (net_clear s).
Proof.
  intros [E1 _ _ []]. unfold net_clear. rewrite E1. split; simpl; try done; try decided.
  - by apply bytes_replicate.
  - unfold zlen in *. by rewrite length_replicate.
  - apply (Forall_replicate _ 16%nat arp0). split; simpl; decided.
  - apply (Forall_replicate _ 16%nat udp0). split; simpl; decided.
  - apply (Forall_replicate _ 16%nat socket0). split; simpl; decided.
Qed.
Lemma loopback_init_ok s : cold s →
  wp loopback_init (λ _ s', wf s' ∧ loopback_only s' ∧ netdev_list s' = loopback_netdev ∧ ipv6_ifaces (v6 s') = [] ∧
    net_devs s' !! loopback_netdev = Some (lo_dev 0) ∧ deaf s' ∧ cl s' = cl s) (net_clear s).
Proof.
  intros HC. pose proof (wf_clear s HC) as W. destruct HC as [E1 E2 E3 _]. unfold loopback_init. apply wp_bind, wp_modify.
  unfold netdev_register. apply wp_bind. change (loopback_netdev =? 0) with false. cbv iota.
  apply wp_bind, wp_get, wp_bind. simpl net_devs. apply (wp_lift _ (lo_dev 0)); [by rewrite lookup_insert_eq|].
  apply wp_bind, wp_put, wp_ret, wp_bind, wp_gets. simpl net_ifs. rewrite E1. simpl. apply wp_modify. simpl.
  rewrite insert_insert_eq, E2. change (mk_dev _ _ _ _ _ _) with (lo_dev 0). destruct W.
  split; [|split; [split; [done|exists 0; simpl; by rewrite lookup_insert_eq]|split; [done|split; [done|split; [by rewrite lookup_insert_eq|split; [|done]]]]]].
  - split; simpl; try done.
    + constructor; [|done]. split; [decided|decided|]. intros _. by rewrite lookup_insert_eq.
    + apply map_Forall_insert_2; [decided|done].
    + by rewrite E3.
  - apply Forall_replicate. done.
Qed.
Lemma size_devs (m : gmap Z net_device) a : is_Some (m !! a) → ∃ n, size m = S n.
Proof.
  intros [d Hd]. destruct (size m) as [|n] eqn:E; [|by exists n]. apply map_size_empty_inv in E. subst. done.
Qed.
Lemma net_init_ok s : (0 < stack)%nat → cold s →
  wp (net_init stack) (λ _ s', idle s' ∧ loopback_only s' ∧ dns_server_ip (cl s') = dns_server_ip (cl s) ∧ dns_cache (cl s') = dns_cache (cl s)) s.
Proof.
  intros Hf HC. unfold net_init. apply wp_bind, wp_modify, wp_bind. eapply wp_mono; [by apply loopback_init_ok|].
  intros [] s1 (W1 & L1 & N1 & I1 & D1 & F1 & C1). unfold netdev_get_first. apply wp_bind, wp_gets, wp_bind, wp_get, wp_bind.
  assert (idle s1) as ID1 by (split; [done|done|unfold quiet; by rewrite I1|done]). rewrite N1.
  destruct (size_devs (net_devs s1) loopback_netdev) as [n Hn]; [by eexists|]. rewrite Hn.
  exists tt, s1. split.
  { cbn [discover_devices]. change (loopback_netdev =? 0) with false. cbv iota. unfold bind, get, lift_opt. by rewrite D1. }
  apply wp_bind. eapply wp_mono; [by apply dhcp_init_deaf|]. intros r s2 [_ B2]. apply wp_bind.
  destruct B2 as [ID2 E1 E2 E3 E4 E5 E6]. unfold ipv6_init. apply wp_bind, wp_modify, wp_bind, wp_get. simpl net_devs. simpl netdev_list.
  rewrite E2, E3, N1, Hn. set (s3 := set_v6 _ s2).
  assert (ipv6_ifaces (v6 s3) = []) as I3 by (unfold s3; simpl; by rewrite E4, I1). exists tt, s3. split.
  { cbn [ipv6_discover]. unfold bind at 1, get. rewrite I3. change (_ || _) with false at 1. cbv iota. unfold bind, lift_opt.
    change (net_devs s3) with (net_devs s2). rewrite E2, D1. by destruct n. }
  assert (idle s3) as ID3.
  { destruct ID2 as [? [] ? ?]. split; [done| |unfold quiet; by rewrite I3|done]. split; try done; try decided; [|by rewrite I3].
    apply (Forall_replicate _ 16%nat). split; simpl; decided. }
  apply wp_bind. eapply wp_mono; [by apply dhcp_run_deaf|]. intros r2 s4 [_ B4]. apply wp_ret. destruct B4 as [ID4 G1 G2 G3 G4 G5 G6].
  split; [done|]. destruct L1 as [L1 [nx L2]]. split; [split; [rewrite G1; simpl; congruence|exists nx; rewrite G2; simpl; congruence]|].
  split; [rewrite G5; simpl; congruence|rewrite G6; simpl; congruence].
Qed.
End clients.
