(* ===== verification/NetThms.v ===== *)
(** * The properties of the network stack. *)
From S2P Require Import Prelude Bytes NetBase NetLib Inet Tcp Ipv6 NetPoll Dns Dhcp Http NetInv NetSafe NetRecv TcpThms NetLoop TcpLoop Ipv6Thms ClientThms.
Local Open Scope Z_scope.
Local Open Scope kernel_scope.

(** ** A machine with the loopback interface alone *)
#[export] Instance no_driver : NetDriver unit :=
  {| drv_send _ _ d := (-1, d); drv_recv _ _ d := (0, [], d); drv_up _ d := (-1, d) |}.
#[export] Instance no_driver_laws : NetDriverLaws unit.
Proof. split. intros a m d Hm. simpl. split; [lia|]. split; [lia|constructor]. Qed.

Definition neighbor0 : ipv6_neighbor_entry := mk_nb zero_addr (replicate 6 0) 0 false 0.
Definition machine (ifs : list net_if) (devs : gmap Z net_device) (first : Z) (socks : list tcp_socket) (if6 : list ipv6_iface) : net unit :=
  mk_net ifs devs first [] (replicate 16 arp0) 0 0 (replicate 16 udp0) (mk_tcps socks 3 0x10000)
    (mk_v6 (replicate 16 neighbor0) 0 if6)
    (mk_clients [8; 8; 8; 8] (replicate 16 (mk_dns 0 no_ip false)) 0 no_ip no_ip false) [] tt.
Definition off : net unit := machine [] ∅ 0 (replicate 16 socket0) [].
Definition lo_machine (socks : list tcp_socket) : net unit :=
  machine [lo_if] {[loopback_netdev := lo_dev 0]} loopback_netdev (socks ++ replicate (16 - length socks) socket0) [].
(** Socket 1 listens on port 80; socket 2 is closed, or connected to socket 4. *)
Definition listener : tcp_socket := mk_tcp 1 true TCP_LISTEN lo_ip 80 no_ip 0 0 0 0 0 [] 4 [].
Definition closed2 : tcp_socket := mk_tcp 2 true TCP_CLOSED no_ip 0 no_ip 0 0 0 0 0 [] 0 [].
Definition end2 : tcp_socket := mk_tcp 2 true TCP_ESTABLISHED lo_ip 5000 lo_ip 80 7 8 20 20 [] 0 [].
Definition end4 : tcp_socket := mk_tcp 4 true TCP_ESTABLISHED lo_ip 80 lo_ip 5000 19 20 8 8 [] 0 [].
Lemma lo_machine_wf socks : (length socks ≤ 16)%nat → Forall tcp_wf socks → wf (lo_machine socks).
Proof.
  intros Hl HF. split; simpl; try done; try decided.
  - constructor; [|done]. split; [decided..|]. intros _. by rewrite lookup_singleton_eq.
  - apply (Forall_replicate _ 16%nat arp0). split; decided.
  - apply (Forall_replicate _ 16%nat udp0). split; decided.
  - unfold sockets. simpl. rewrite length_app, length_replicate. unfold MAX_TCP_SOCKETS. lia.
  - unfold sockets. simpl. apply Forall_app. split; [done|]. apply Forall_replicate. split; decided.
  - apply (Forall_replicate _ 16%nat neighbor0). split; decided.
Qed.
Lemma lo_machine_only socks : loopback_only (lo_machine socks).
Proof. split; [done|]. by exists 0. Qed.

Section theorems.
Context {D : Type} `{NetDriver D} `{!NetDriverLaws D}.
Implicit Types s : net D.

(** C16: The state of the network stack keeps its types. A sequence of polls, socket
    calls and datagrams, with any arguments of their C types (and buffers as long
    as the lengths given) and whatever the drivers deliver in between, runs to its
    end without an access outside a buffer, unless it comes to one of two calls
    that may make one, and then runs up to that call: [tcp_recv] with a negative
    length, and [udp_send] of 65508 to 65527 bytes, whose packet [ip_send] copies
    into a shorter one. Up to there every field is within its bounds: addresses of
    4, 6 and 16 bytes, ports of 16 and sequence numbers of 32 bits, receive buffers
    of at most 2048 and 4096 bytes of bytes, accept queues of at most 8. Sockets in
    use stay in use under their number. (For an interface list without active IPv6
    interfaces; with one, see [ndp_recursion].) *)
Theorem net_ops_typed (stack : nat) ops s :
  (0 < stack)%nat → wf s → quiet s → Forall op_ok ops →
  ∃ pre s', for_each pre (run_op stack) s = Some (tt, s') ∧ wf s' ∧ kept s s' ∧ lasting (sockets s) (sockets s') ∧
    (pre = ops ∨ ∃ o post, ops = pre ++ o :: post ∧ overruns o ∧ run_op stack o s' = None).
Proof.
  intros Hf W HQ Ho. destruct (run_ops_ok stack ops s Hf W HQ Ho) as (pre & s' & R & [(W' & K & L) _] & HC). exists pre, s'. by split_and!.
Qed.

(** C17: Input refines a connection table, without a choice. On any bytes
    [tcp_handle_packet] returns; bytes that are no segment change nothing. A
    segment goes to the first connection with its two addresses and ports, else to
    the first that is connecting to its sender from its port (whatever its own
    address), and makes there the transition of the state machine ([arc],
    which is deterministic): the next state, the numbers to acknowledge and to
    expect, the data appended, which is the payload as far as it fits, and whether
    an ACK is sent. Without such a connection, a SYN without ACK for a listener
    with room in its queue, when a slot is free, opens a connection in
    SYN_RECEIVED in the first free slot, queues it and answers SYN|ACK; other
    segments are dropped. Nothing else changes, except that the counters of numbers
    may advance and that a reply is a call of [tcp_send_packet]: it counts a SYN
    in its socket and otherwise changes what sending does (ARP cache, packet number,
    loopback buffer, driver). *)
Theorem tcp_input_refines src dst data s :
  wf s → array 4 src → bytes data →
  ∃ s', tcp_handle_packet src dst data s = Some (tt, s') ∧ wf s' ∧
    match parse_segment data with
    | Some (Some g) => ∃ l reply, table_step src dst g (tcp_next_id (tcps s)) (sockets s) l reply ∧ replied s l reply s'
    | _ => s' = s
    end.
Proof.
  intros W Hs Hb. destruct (tcp_handle_ok src dst data s W Hs Hb) as ([] & s' & R & W' & _ & ST). by exists s'.
Qed.

(** What is sent to 127.0.0.1 arrives. On a machine with the loopback interface alone,
    [ip_send] of at most 2014 bytes returns the length of the frame, and the next
    [net_poll] is exactly the call of the protocol's handler on the same bytes with
    the loopback address as source and destination: framing, ARP, header, checksum
    and lengths cancel out. *)
Theorem loopback_delivery (stack : nat) p data s :
  wf s → loopback_only s → nmem s = [] → is_byte p → bytes data → zlen data ≤ 2014 →
  ∃ s1, ip_send lo_ip p data (zlen data) s = Some (34 + zlen data, s1) ∧ wf s1 ∧ sent s s1 ∧
    net_poll stack s1 = ip_deliver p lo_ip lo_ip data (set_lo [] s1).
Proof.
  intros W HL HM Hp Hb Hl. destruct (ip_send_lo p data s W HL HM Hp Hb ltac:(lia)) as (r & s1 & R & -> & W1 & S1 & HF).
  exists s1. split; [done|]. split; [done|]. split; [done|]. pose proof (lo_frame_len _ _ _ HF) as Lf. pose proof (zlen_nonneg data).
  pose proof (loopback_only_kept _ _ (s_kept _ _ S1) HL) as L1.
  rewrite poll_lo by (done || (unfold POLL_BUF_SIZE; lia)). apply process_lo; [done|done|lia].
Qed.

(** C18: The three-way handshake completes. On a machine whose only interface is the
    loopback one, with memory granted, a closed socket connects to a listener of the
    same machine that is bound to 127.0.0.1 and has room in its queue, while a
    socket slot is free, the two ports differ and no other socket in use has these
    two ports: [tcp_connect] and three polls end with both ends ESTABLISHED and
    addressed to each other, each expecting exactly the sequence number the other
    sends next, and with the new socket, empty, at the end of the listener's queue. *)
Theorem tcp_handshake (stack : nat) sock p i k j lk f old s :
  wf s → loopback_only s → nmem s = [] → is_u16 p → can_open sock p (sockets s) i k j lk f old →
  ∃ s' c v, (r <- tcp_connect sock lo_ip p ;; net_poll stack ;;; net_poll stack ;;; net_poll stack ;;; ret r) s = Some (0, s') ∧
    wf s' ∧ connected c v ∧ ts_id c = ts_id k ∧ ts_rx v = [] ∧
    sockets s' !! i = Some c ∧ sockets s' !! f = Some v ∧ sockets s' !! j = Some (queue (ts_id v) lk).
Proof.
  intros W HL HM Hp HC. assert (ready s) as HR by by split.
  destruct (handshake_ok stack sock p i k j lk f old s HR Hp HC) as (r & s' & R & -> & [W' _] & c & v & Hcv & Hid & Hrx & H1 & H2 & H3).
  exists s', c, v. done.
Qed.

(** C19: Data goes over a connection once and in order. On an established connection over
    the loopback interface, a [tcp_send] of up to 1460 bytes that fit in the peer's
    buffer returns their number, and after the next poll the peer's buffer has grown
    by exactly these bytes, its next expected sequence number is the sender's next
    one, and both ends are in the state they were in. *)
Theorem tcp_transfer (stack : nat) sock i k j kj data s :
  wf s → loopback_only s → nmem s = [] →
  list_find (has_id sock) (sockets s) = Some (i, k) → ts_state k = TCP_ESTABLISHED ∨ ts_state k = TCP_CLOSE_WAIT →
  ts_remote_ip k = lo_ip → i ≠ j →
  list_find (addressed lo_ip (ts_local_port k) lo_ip (ts_remote_port k)) (sockets s) = Some (j, kj) → ts_state kj = TCP_ESTABLISHED →
  bytes data → 0 < zlen data ≤ TCP_MAX_SEGMENT → zlen (ts_rx kj) + zlen data ≤ TCP_RX_BUF_SIZE →
  ∃ s', (r <- tcp_send sock data (zlen data) ;; net_poll stack ;;; ret r) s = Some (zlen data, s') ∧
    delivered s i j k kj data s'.
Proof.
  intros. destruct (transfer_ok stack sock i k j kj data s) as (r & s' & R & -> & HD); [done..|]. eauto.
Qed.

(** Sending to an unknown IPv6 neighbour never returns. [ipv6_send] needs the MAC of
    its destination and [ndp_lookup] asks for it by a solicitation, which is sent with
    [ipv6_send] to a multicast address that is not in the cache either: with memory
    left, no depth of the stack is enough. *)
Theorem ndp_recursion fuel dst next_header data len i a s :
  nmem s = [] → list_find active (ipv6_ifaces (v6 s)) = Some (i, a) → length dst = 16%nat →
  unknown dst s → unknown (solicited_node dst) s →
  ipv6_send fuel dst next_header data len s = None ∧ ndp_lookup fuel dst s = None.
Proof.
  intros HM Ha Hl HU HN. split; [by eapply send_unknown_none|].
  unfold ndp_lookup, lookup_with, bind at 1. rewrite neighbor_unknown by done. unfold solicit. unfold bind at 1, bind at 1, get. rewrite Ha.
  unfold bind at 1, nalloc. rewrite HM. unfold bind at 1. cbv beta iota delta [negb].
  erewrite send_unknown_none; [done|done|done|by apply tail3_node|done|by rewrite node_idem].
Qed.

(** The clients cannot work. After [net_init] on a machine without network hardware
    (it runs the DHCP client twice, which gives up) an HTTP request for any URL
    returns -1: no code marks a UDP socket as used, so every datagram is dropped and
    every wait for one ends in its last retry. *)
Theorem boot_without_udp (stack : nat) url n s :
  (0 < stack)%nat → net_ifs s = [] → netdev_list s = 0 → ipv6_ifaces (v6 s) = [] → wf s →
  array 4 (dns_server_ip (cl s)) → Forall dns_free (dns_cache (cl s)) → bytes url →
  ∃ s', (net_init stack ;;; http_get stack url n) s = Some ((-1, []), s') ∧ wf s' ∧ loopback_only s' ∧ deaf s'.
Proof.
  intros Hf E1 E2 E3 W Hd HF Hu. destruct (net_init_ok stack s Hf) as ([] & s1 & R1 & I1 & L1 & D1 & D2); [by split|].
  destruct (http_get_deaf stack url n s1 I1) as (r & s2 & R2 & -> & W2 & K2 & _); [by rewrite D1|by rewrite D2|done|].
  exists s2. rewrite (bind_Some _ _ _ _ _ R1), R2. split; [done|]. split; [done|].
  split; [by eapply loopback_only_kept|]. eapply deaf_kept; [done|apply I1].
Qed.
End theorems.

(** Packets verify. Whenever [ip_send] builds a packet, its length is at most 65535,
    its first twenty bytes pass the receiver's checksum test, and the rest is the
    payload. *)
Theorem header_checksums_verify i id dst p data len pkt :
  array 4 (if_ip i) → array 4 dst → is_byte p → bytes data → 0 ≤ len →
  ip_packet i id dst p data len = Some pkt →
  len ≤ 65515 ∧ zlen pkt = 20 + len ∧ checksum_good <$> checksum_calc (take 20 pkt) = Some true ∧ drop 20 pkt = take (Z.to_nat len) data.
Proof.
  intros Hi Hd Hp Hb Hl E. assert (len ≤ 65515 ∧ len ≤ zlen data) as [Hl2 Hl3].
  { unfold ip_packet, IP_HDR_LEN in E. destruct (ip_checksum _); [|done]. cbn [mbind option_bind] in E.
    destruct (slice data 0 len) as [b|] eqn:Eb; [|done]. cbn [mbind option_bind] in E. apply slice_inv in Eb.
    destruct (Z.ltb_spec 65535 (20 + len)); [|lia]. destruct (Z.ltb_spec 65535 (20 + len)); [done|lia]. }
  destruct (ip_packet_ok i id dst p data len) as (c & Ec & Ep); [done..|]. rewrite E in Ep. apply (inj Some) in Ep as ->.
  pose proof (zlen_ipv4_hdr (20 + len) id p (le_bytes 2 c) (if_ip i) dst (zlen_le 2 c) (array_zlen _ _ Hi) (array_zlen _ _ Hd)) as Lh.
  set (hd := ipv4_hdr (20 + len) id p (le_bytes 2 c) (if_ip i) dst) in *. unfold IP_HDR_LEN in Lh. assert (length hd = 20%nat) as Lh' by (unfold zlen in Lh; lia).
  rewrite zlen_app, zlen_take, take_app_length', drop_app_length' by (done || lia). split; [done|]. split; [lia|].
  unfold hd. rewrite (ipv4_hdr_verifies _ _ _ _ _ _ Hp Hi Hd Ec). done.
Qed.

(** The checksum of UDP and TCP is RFC 1071's over the pseudo-header and the data. *)
Theorem transport_checksum_equiv src dst protocol data :
  length src = 4%nat → length dst = 4%nat →
  tcp_udp_checksum src dst protocol data = checksum_calc (src ++ dst ++ [0; protocol] ++ be16 (u16 (zlen data)) ++ data).
Proof.
  intros Hs Hd. unfold tcp_udp_checksum, checksum_calc. rewrite <- (sum_words_app 6).
  - by rewrite <- !app_assoc.
  - rewrite !length_app, Hs, Hd. done.
Qed.

(** Printing and parsing an IPv6 address gives it back: for every address and every
    buffer of at least 40 bytes the text fits with its final NUL and
    [ipv6_addr_from_str] reads the address again. *)
Theorem ipv6_text_roundtrip addr bufsz :
  array 16 addr → 40 ≤ bufsz →
  ∃ txt, ipv6_addr_to_str addr bufsz = Some txt ∧ zlen txt < bufsz ∧ ipv6_addr_from_str txt = Some addr.
Proof.
  intros [Hl HB] Hsz. unfold ipv6_addr_to_str. destruct (Z.ltb_spec bufsz 40); [lia|].
  destruct (groups_ok 8 addr HB Hl) as (Lg & Fg & Ug).
  pose proof (addr_str_text 8 [] addr [] bufsz 0 HB Hl eq_refl ltac:(done) (or_introl eq_refl) ltac:(lia) ltac:(lia)) as ET.
  cbn [app] in ET. change (2 * Z.of_nat 0) with 0 in ET. change (bool_decide (0%nat = 0%nat)) with true in ET.
  pose proof (groups_text_len (groups addr) true) as (G1 & _ & G3).
  assert (groups addr ≠ []) as Hne by (intros E; rewrite E in Lg; done). specialize (G3 Hne). unfold zlen in G1, G3 at 2. rewrite Lg in *.
  eexists. split; [done|]. rewrite ET. split; [lia|]. unfold ipv6_addr_from_str.
  pose proof (addr_groups_text (groups addr) (S (length (groups_text (groups addr) true))) [] 0 Fg eq_refl) as EG.
  rewrite Lg in EG. cbn [app] in EG. change (Z.of_nat 0) with 0 in EG. change (replicate (2 * 8) 0) with zero_addr in EG.
  rewrite EG by lia. cbn [mbind option_bind]. by rewrite Ug.
Qed.

(** [dns_encode_name] computes RFC 1035's encoding: of a name that is made of labels of
    1 to 63 characters, every label behind its length, then a zero byte; and the
    query packet, allocated before the name is encoded, always has room for header,
    name, type and class. *)
Theorem dns_question_correct labels :
  Forall label_ok labels → bytes (join labels) →
  dns_encode_name (join labels) = concat ((λ l, zlen l :: l) <$> labels) ++ [0] ∧
  ∃ pkt, dns_packet (join labels) = Some pkt ∧
    take (Z.to_nat (12 + zlen (dns_encode_name (join labels)) + 4)) pkt =
      dns_header ++ dns_encode_name (join labels) ++ [0; DNS_TYPE_A; 0; DNS_CLASS_IN].
Proof.
  intros HF HB. split; [by apply encode_join|]. destruct (dns_packet_ok _ HB) as (pkt & Ep & _). exists pkt. split; [done|].
  unfold dns_packet in Ep. set (bs := dns_header ++ dns_encode_name (join labels) ++ _) in *.
  assert (Z.to_nat (12 + zlen (dns_encode_name (join labels)) + 4) = length bs) as ->.
  { unfold bs. rewrite !length_app. change (length dns_header) with 12%nat. unfold zlen. simpl. lia. }
  destruct (_ <? _); [done|]. apply (inj Some) in Ep as <-. apply take_app_length.
Qed.

(** The parser of DNS responses ends and stays within the datagram, whatever bytes
    arrive (compression pointers, label and record lengths are the sender's), and an
    address it reports has four bytes. *)
Theorem dns_parse_safe rx : bytes rx → ∃ r, dns_parse rx = Some r ∧ ∀ ip, r = DnsAddr ip → array 4 ip.
Proof. apply dns_parse_ok. Qed.

(** The parsed URL fits its buffers and the request always fits its own: the branch
    for a request that is too long is never taken. *)
Theorem http_request_fits url host port path :
  http_parse_url url HOST_SIZE PATH_SIZE = Some (host, port, path) →
  0 < zlen host < HOST_SIZE ∧ is_u16 port ∧ 0 < zlen path < PATH_SIZE ∧ zlen (http_request path host) < REQUEST_SIZE.
Proof.
  intros E. apply parse_url_ok in E as (Hh & Hp & Hpath & _); [|unfold PATH_SIZE; lia]. split; [done|]. split; [done|]. split; [done|].
  unfold http_request, HOST_SIZE, PATH_SIZE, REQUEST_SIZE in *. rewrite !zlen_app, !zlen_cons, !zlen_nil. lia.
Qed.

(** ** Witnesses *)
Lemma demo_wf : wf (lo_machine [listener; closed2]) ∧ wf (lo_machine [listener; end2; end4]).
Proof. split; (apply lo_machine_wf; [simpl; lia|]); repeat constructor; simpl; decided. Qed.
Lemma off_wf : wf off.
Proof.
  split; simpl; try done; try decided.
  - apply (Forall_replicate _ 16%nat arp0). split; decided.
  - apply (Forall_replicate _ 16%nat udp0). split; decided.
  - apply (Forall_replicate _ 16%nat socket0). split; decided.
  - apply (Forall_replicate _ 16%nat neighbor0). split; decided.
Qed.

Lemma net_ops_typed_witness : ∃ pre s',
  for_each pre (run_op 1) (lo_machine [listener; closed2]) = Some (tt, s') ∧ wf s' ∧ kept (lo_machine [listener; closed2]) s' ∧
  lasting (sockets (lo_machine [listener; closed2])) (sockets s') ∧
  (pre = [OpPoll; OpConnect 2 lo_ip 80; OpPoll; OpSend 2 [1; 2] 2; OpRecv 2 100] ∨
   ∃ o post, [OpPoll; OpConnect 2 lo_ip 80; OpPoll; OpSend 2 [1; 2] 2; OpRecv 2 100] = pre ++ o :: post ∧ overruns o ∧ run_op 1 o s' = None).
Proof. apply (net_ops_typed 1); [lia|apply demo_wf|constructor|decided]. Defined.

Definition demo_segment : list Z := tcp_hdr end2 TCP_ACK [0; 0] ++ [5].
Lemma tcp_input_refines_witness : ∃ s', tcp_handle_packet lo_ip lo_ip demo_segment (lo_machine [listener; end2; end4]) = Some (tt, s') ∧ wf s' ∧
  match parse_segment demo_segment with
  | Some (Some g) => ∃ l reply, table_step lo_ip lo_ip g 3 (sockets (lo_machine [listener; end2; end4])) l reply ∧
      replied (lo_machine [listener; end2; end4]) l reply s'
  | _ => s' = lo_machine [listener; end2; end4]
  end.
Proof. apply (tcp_input_refines lo_ip lo_ip demo_segment (lo_machine [listener; end2; end4])); [apply demo_wf|decided|decided]. Defined.

Lemma loopback_delivery_witness : ∃ s1, ip_send lo_ip 17 [1; 2; 3] (zlen [1; 2; 3]) (lo_machine []) = Some (34 + zlen [1; 2; 3], s1) ∧ wf s1 ∧
  sent (lo_machine []) s1 ∧ net_poll 1 s1 = ip_deliver 17 lo_ip lo_ip [1; 2; 3] (set_lo [] s1).
Proof.
  apply (loopback_delivery 1); [apply lo_machine_wf; [simpl; lia|constructor]|apply lo_machine_only|done|unfold is_byte; lia|decided|vm_compute; discriminate].
Defined.

Lemma tcp_handshake_witness : ∃ s' c v, (r <- tcp_connect 2 lo_ip 80 ;; net_poll 1 ;;; net_poll 1 ;;; net_poll 1 ;;; ret r) (lo_machine [listener; closed2]) = Some (0, s') ∧
  wf s' ∧ connected c v ∧ ts_id c = 2 ∧ ts_rx v = [] ∧
  sockets s' !! 1%nat = Some c ∧ sockets s' !! 2%nat = Some v ∧ sockets s' !! 0%nat = Some (queue (ts_id v) listener).
Proof.
  apply (tcp_handshake 1 2 80 1 closed2 0 listener 2 socket0); [apply demo_wf|apply lo_machine_only|done|unfold is_u16; lia|].
  split; [vm_compute; reflexivity|done|vm_compute; reflexivity|done|vm_compute; reflexivity|vm_compute; reflexivity|vm_compute; discriminate|].
  intros [|[|m]] x Hm Hne Hu; [injection Hm as <-; split; intros [? ?]; discriminate|done|].
  apply (lookup_replicate_1 14 socket0 x m) in Hm as [-> _]. discriminate.
Defined.

Lemma tcp_transfer_witness : ∃ s', (r <- tcp_send 2 [1; 2; 3] (zlen [1; 2; 3]) ;; net_poll 1 ;;; ret r) (lo_machine [listener; end2; end4]) = Some (zlen [1; 2; 3], s') ∧
  delivered (lo_machine [listener; end2; end4]) 1 2 end2 end4 [1; 2; 3] s'.
Proof.
  apply (tcp_transfer 1 2 1 end2 2 end4 [1; 2; 3]); [apply demo_wf|apply lo_machine_only|done|vm_compute; reflexivity|by left|done|done|
    vm_compute; reflexivity|done|decided|split; vm_compute; (reflexivity || discriminate)|vm_compute; discriminate].
Defined.

Definition if6_demo : ipv6_iface := mk_if6 true (ipv6_gen_link_local [2; 0; 0; 0; 0; 1]) zero_addr [2; 0; 0; 0; 0; 1] 5.
Lemma ndp_recursion_witness :
  ipv6_send 100 zero_addr 17 [1] 1 (machine [] ∅ 0 [] [if6_demo]) = None ∧ ndp_lookup 100 zero_addr (machine [] ∅ 0 [] [if6_demo]) = None.
Proof. apply (ndp_recursion 100 zero_addr 17 [1] 1 0 if6_demo); [done|reflexivity|done|decided|decided]. Defined.

Lemma boot_without_udp_witness : ∃ s', (net_init 1 ;;; http_get 1 [104; 47] 100) off = Some ((-1, []), s') ∧ wf s' ∧ loopback_only s' ∧ deaf s'.
Proof. apply (boot_without_udp 1); [lia|done|done|done|apply off_wf|decided|apply (Forall_replicate _ 16%nat); done|decided]. Defined.

Lemma header_checksums_verify_witness :
  3 ≤ 65515 ∧ zlen (default [] (ip_packet lo_if 7 lo_ip 17 [1; 2; 3] 3)) = 20 + 3 ∧
  checksum_good <$> checksum_calc (take 20 (default [] (ip_packet lo_if 7 lo_ip 17 [1; 2; 3] 3))) = Some true ∧
  drop 20 (default [] (ip_packet lo_if 7 lo_ip 17 [1; 2; 3] 3)) = take (Z.to_nat 3) [1; 2; 3].
Proof. apply (header_checksums_verify lo_if 7 lo_ip 17 [1; 2; 3]); [decided|decided|unfold is_byte; lia|decided|lia|vm_compute; reflexivity]. Defined.

Lemma transport_checksum_equiv_witness :
  tcp_udp_checksum lo_ip lo_ip 6 [1; 2; 3] = checksum_calc (lo_ip ++ lo_ip ++ [0; 6] ++ be16 (u16 (zlen [1; 2; 3])) ++ [1; 2; 3]).
Proof. apply transport_checksum_equiv; done. Defined.

Lemma ipv6_text_roundtrip_witness : ∃ txt, ipv6_addr_to_str (ipv6_gen_link_local [2; 0; 0; 0; 0; 1]) 40 = Some txt ∧ zlen txt < 40 ∧
  ipv6_addr_from_str txt = Some (ipv6_gen_link_local [2; 0; 0; 0; 0; 1]).
Proof. apply ipv6_text_roundtrip; [decided|lia]. Defined.

Lemma dns_question_correct_witness :
  dns_encode_name (join [[119]; [97; 98]]) = concat ((λ l, zlen l :: l) <$> [[119]; [97; 98]]) ++ [0] ∧
  ∃ pkt, dns_packet (join [[119]; [97; 98]]) = Some pkt ∧
    take (Z.to_nat (12 + zlen (dns_encode_name (join [[119]; [97; 98]])) + 4)) pkt =
      dns_header ++ dns_encode_name (join [[119]; [97; 98]]) ++ [0; DNS_TYPE_A; 0; DNS_CLASS_IN].
Proof. apply dns_question_correct; [repeat constructor; vm_compute; discriminate|decided]. Defined.

Lemma dns_parse_safe_witness : ∃ r, dns_parse (replicate 600 193) = Some r ∧ ∀ ip, r = DnsAddr ip → array 4 ip.
Proof. apply dns_parse_safe. decided. Defined.

Lemma http_request_fits_witness :
  0 < zlen [97] < HOST_SIZE ∧ is_u16 80 ∧ 0 < zlen [47] < PATH_SIZE ∧ zlen (http_request [47] [97]) < REQUEST_SIZE.
Proof. apply (http_request_fits (http_prefix ++ [97])). vm_compute. reflexivity. Defined.

(** * What the network code does against its own intent *)

(** ** TCP *)

(** No call gives a socket back: once the sixteen slots have been taken, no
    sequence of calls, closes included, makes [tcp_socket_create] succeed again. *)
Theorem tcp_slots_exhausted {D} `{NetDriver D} `{!NetDriverLaws D} (stack : nat) ops (s : net D) :
  (0 < stack)%nat → wf s → quiet s → Forall (λ o, op_ok o ∧ ¬ overruns o) ops → Forall (λ k, ts_in_use k = true) (sockets s) →
  ∃ s', (for_each ops (run_op stack) ;;; tcp_socket_create) s = Some (-1, s').
Proof.
  intros Hf W HQ Ho HU. destruct (run_ops_ok stack ops s Hf W HQ) as (pre & s' & R & [(W' & K & [L1 L2]) _] & HC); [eapply Forall_impl; [done|by intros o []]|].
  assert (pre = ops) as ->.
  { destruct HC as [|(o & post & -> & Hv & _)]; [done|]. rewrite Forall_forall in Ho. destruct (Ho o) as [_ Hn]; [|done]. apply elem_of_app. right. left. }
  destruct (tcp_create_ok s' W') as (r & s2 & R2 & _ & HF). exists s2. rewrite (bind_Some _ _ _ _ _ R), R2.
  destruct HF as [-> _]; [|done]. apply Forall_lookup. intros i k' Ek'.
  destruct (lookup_lt_is_Some_2 (sockets s) i) as [k Ek]; [rewrite <- L1; by eapply lookup_lt_Some|].
  destruct (L2 i k Ek (Forall_lookup_1 _ _ _ _ HU Ek)) as (k2 & E2 & U2 & _). congruence.
Qed.

(** A negative length is not refused by [tcp_recv]: with data waiting it is the
    size of the copy. *)
Theorem recv_negative_length {D} `{NetDriver D} sock n i k (s : net D) :
  list_find (has_id sock) (sockets s) = Some (i, k) → ts_rx k ≠ [] → n < 0 → tcp_recv sock n s = None.
Proof.
  intros F Hrx Hn. pose proof (list_find_lookup _ _ _ _ F) as [Ek _]. unfold tcp_recv, tcp_find_socket, bind, gets. rewrite F. cbn [fst fmap option_fmap option_map].
  unfold ld_sock, bind, get, lift_opt. rewrite Ek. cbn. assert (0 < zlen (ts_rx k)) by (destruct (ts_rx k); [done|unfold zlen; simpl; lia]).
  rewrite (proj2 (Z.leb_gt _ _)), (proj2 (Z.ltb_lt _ _)) by lia.
  destruct (slice (ts_rx k) 0 n) eqn:E; [|done]. apply slice_inv in E. lia.
Qed.
(** [ip_send] caps the packet at 65535 bytes but copies all of the data. *)
Theorem long_packet_overruns i id dst p data len : 65515 < len → ip_packet i id dst p data len = None.
Proof.
  intros Hl. unfold ip_packet, IP_HDR_LEN. destruct (ip_checksum _); [|done]. cbn [mbind option_bind].
  destruct (slice data 0 len); [|done]. cbn [mbind option_bind]. rewrite (proj2 (Z.ltb_lt 65535 _)) by lia. by rewrite (proj2 (Z.ltb_lt 65535 _)) by lia.
Qed.

(** The sequence number of a segment is not looked at: a segment that arrives
    again is delivered again. *)
Theorem segment_delivered_twice k flags seq seq' payload :
  ts_rx (on_segment k flags seq payload).1 = ts_rx (on_segment k flags seq' payload).1.
Proof. unfold on_segment. destruct (ts_state k); by repeat case_match. Qed.

(** With the buffer full the payload is dropped and acknowledged. *)
Theorem full_buffer_acknowledges k seq payload :
  ts_state k = TCP_ESTABLISHED → zlen (ts_rx k) = TCP_RX_BUF_SIZE → 0 < zlen payload →
  let '(k', ack) := on_segment k TCP_ACK seq payload in
  ack = true ∧ ts_rx k' = ts_rx k ∧ ts_ack_num k' = u32 (seq + zlen payload).
Proof.
  intros Es Hr Hp. unfold on_segment. rewrite Es, Hr. change (flag TCP_ACK _) with false. cbv iota.
  destruct (Z.ltb_spec 0 (zlen payload)); [|lia]. replace (TCP_RX_BUF_SIZE - TCP_RX_BUF_SIZE) with 0 by lia.
  by destruct (Z.ltb_spec 0 (zlen payload)); [|lia].
Qed.

(** A FIN that carries data loses the data. *)
Theorem fin_drops_payload k seq payload : ts_state k = TCP_ESTABLISHED →
  ts_rx (on_segment k (Z.lor TCP_FIN TCP_ACK) seq payload).1 = ts_rx k.
Proof. intros Es. unfold on_segment. by rewrite Es. Qed.

(** ** IPv6 *)

(** An address with "::" behind its first group, such as fe80::1, is refused: the
    colon that ends the group is consumed first. *)
Theorem compressed_refused g rest : is_u16 g → (∀ q, rest ≠ 58 :: q) →
  ipv6_addr_from_str (group_str g ++ 58 :: 58 :: rest) = None.
Proof.
  intros Hg Hr. unfold ipv6_addr_from_str. destruct (group_str_head g) as (c & q & Eg & Hc).
  destruct (hex_group_str g (58 :: 58 :: rest) Hg eq_refl) as (n & Hn & Eh). rewrite Eg in *. cbn [app length addr_groups].
  change (negb (0 <? 8)) with false. cbv iota.
  assert (colons (c :: q ++ 58 :: 58 :: rest) = None) as ->.
  { simpl. destruct (q ++ 58 :: 58 :: rest); [done|]. by destruct (Z.eqb_spec c 58). }
  cbn [app] in Eh. rewrite Eh. cbn [mbind option_bind]. destruct (Z.eqb_spec n 0); [lia|]. cbn [skip_colon]. change (58 =? 58) with true. cbv iota.
  change (negb (0 + 1 <? 8)) with false. cbv iota. replace (colons (58 :: rest)) with (@None (list Z)); [by cbn|].
  destruct rest as [|d rest]; [done|]. simpl. destruct (Z.eqb_spec d 58) as [->|]; [by destruct (Hr rest)|done].
Qed.
Example link_local_refused : ipv6_addr_from_str (group_str 0xfe80 ++ 58 :: 58 :: group_str 1) = None.
Proof. reflexivity. Qed.

(** ** DNS and DHCP *)

(** The cache knows a name only by its hash: ab and bA are one name. *)
Theorem dns_cache_collision {D} `{NetDriver D} (stack : nat) (s : net D) ip :
  dns_cache (cl s) !! 0%nat = Some (mk_dns (dns_hash [97; 98]) ip true) →
  dns_query stack [98; 65] s = Some ((0, ip), s).
Proof.
  intros E. unfold dns_query. rewrite bind_gets. destruct (dns_cache (cl s)) as [|e c]; [done|]. injection E as ->.
  cbn [list_find]. rewrite decide_True by (split; done). done.
Qed.

(** The port is already in host order: a reply of a server, from port 67, is
    ignored. *)
Theorem dhcp_ignores_servers xid len buf : bytes buf → zlen buf = len → dhcp_message xid len buf DHCP_SERVER_PORT = Some None.
Proof.
  intros HB Hl. unfold dhcp_message, DHCP_HDR_LEN. case_match; [done|]. case_match; [done|].
  destruct (rd32_ok buf 236) as (m & -> & _); [lia..|]. cbn [mbind option_bind]. case_match; [done|].
  destruct (rd32_ok buf 4) as (x & -> & _); [lia..|]. cbn [mbind option_bind]. case_match; [done|]. done.
Qed.
